(* ===== verification/_CoqProject ===== *)
-Q . S2P
Prelude.v
Text.v
Encoding.v
RemoteCore.v
RemoteFacts.v
FtpProtocol.v
FtpProtocolFacts.v
FtpTransport.v
FtpTransportFacts.v
FtpSession.v
FtpSessionFacts.v
TransferModel.v
TransferStateFacts.v
TransferInvariant.v
TransferPublic.v
TransferPublicFacts.v
TransferStore.v
TransferStoreFacts.v
TransferQueue.v
TransferQueueFacts.v
LocalFiles.v
LocalFilesFacts.v
TransferExecutor.v
TransferDownloadFacts.v
TransferExecutorFacts.v
UsageBucket.v
UsageBucketFacts.v
UsageKeys.v
UsageStore.v
UsageStoreFacts.v
UsageTracker.v
UsageTrackerFacts.v
Frame.v
FrameFacts.v
HelperFrame.v
HelperFrameFacts.v
NetworkSampler.v
NetworkSamplerFacts.v
Netlink.v
NetlinkFacts.v
NetworkHelper.v
NetworkHelperFacts.v
TelemetryHelper.v
TelemetryHelperFacts.v
Sql.v
NotesDomain.v
NotesModel.v
NotesModelFacts.v
NotesRepository.v
NotesRepositoryFacts.v
NotesHistoryFacts.v
NotesService.v
NotesUploadFacts.v
NotesServiceFacts.v
Domain.v
TelemetryParse.v
TelemetryIdentity.v
TelemetryProc.v
TelemetryProcFacts.v
TelemetrySampler.v
TelemetrySamplerFacts.v
TelemetryStore.v
AppdProfiles.v
AppdProfilesFacts.v
SshProfile.v
SshProfileFacts.v
SshTerminal.v
Terminal.v
IpcMessage.v
IpcPlan.v
IpcPlanFacts.v
IpcClient.v
IpcClientFacts.v
IpcRoundTrip.v
IpcStreams.v
IpcServer.v
IpcServe.v
IpcServerFacts.v
IpcEndToEnd.v
