(* ===== verification/Prelude.v ===== *)
(** * Verification of the system status console

    The repository is a desktop status console in Rust: a daemon ([bins/appd])
    owns samplers (processes, network, time in use), notes, remote connections
    and file transfers, and serves them to a desktop shell over a Unix socket;
    privileged helpers feed it over their standard streams. This library models
    the crates that hold the state and the protocols.

    ** How the parts fit

    A protocol adapter (FTP here; SFTP and SMB have the same interface) opens
    sessions and reads and writes remote files under a deadline and a
    cancellation flag. A [TransferTask] is a state machine; the [TransferQueue]
    holds all tasks in memory and writes each change through a [TransferStore]
    with compare-and-swap on the revision. The [TransferExecutor] starts tasks,
    moves bytes between a session and the [LocalHandleOwner], which stages
    downloads and renames them into place, and records how each run ended. The
    usage tracker turns focus and lock events into intervals and aggregates of
    its database; the network sampler turns counters into rates; notes are kept
    with their history behind a service with chunked uploads and exports. A
    client sends one request frame per connection; the daemon answers with one
    frame, or with a stream it plans completely before it writes the first frame.

    ** Files: shared

    - [Prelude]: results, [mut] (state and error) programs for [&mut self]
      methods, machine integers as [Z] with checked and saturating operations,
      UTF-8 strings, [BTreeMap] order; predicates on programs ([read_only],
      [atomic], [preserves], [respects], [hoare]) with their rules and tactics.
    - [Text]: methods of [str]; number parsing and printing. [Encoding]: base64,
      SHA-256 and what is relied on of them; finite floating-point numbers.
    - [Sql]: statements that fail or take effect, transactions.

    ** Files: remote connections and transfers

    - [RemoteCore], [RemoteFacts]: [crates/remote-core] - validators accept
      exactly what they should, a session is ready only by way of connecting, a
      cancellation reaches every derived control, profile pages concatenate.
      [Terminal]: its terminal contract.
    - [FtpProtocol], [FtpTransport], [FtpSession]: [crates/remote-ftp], over
      libcurl and the server as the class [FtpEnv]. [FtpProtocolFacts]: the
      check of a control connection accepts exactly the protected ones, paths
      survive their encoding. [FtpTransportFacts]: FTPS calls ask for TLS and
      answer only what was protected; an upload changes all or nothing on a
      server that obeys its commands ([FtpServer]). [FtpSessionFacts]: what is
      committed is what was written, what is interrupted cannot be resumed.
    - [SshProfile], [SshProfileFacts]: [crates/remote-ssh] up to the start of
      OpenSSH: what the configuration and the batches written for it say, read
      back the way OpenSSH reads them, and the profile, jump hosts and secrets of
      a connection. [SshTerminal]: the terminal over a pseudo-terminal; output
      arrives in order or is counted as dropped, and a close ends.
    - [TransferModel]: model.rs and state.rs of [crates/transfers], one [mut]
      program per method. [TransferStateFacts] states the machine as an
      inductive [step] relation; [TransferInvariant]: the methods refine it, the
      task invariant, the state graph, run tokens, attempts, back-off, restart.
    - [TransferPublic], [TransferPublicFacts]: public.rs, the contract of tasks
      that cross the process boundary. [TransferStore], [TransferStoreFacts]:
      persistence.rs; both stores keep [StoreLaws] under any faults.
      [TransferQueue], [TransferQueueFacts]: queue.rs over any such store -
      memory and store agree, limits, recovery, start order, paging.
    - [LocalFiles], [LocalFilesFacts], [TransferExecutor]: executor.rs over a map
      of files with a fault for every system call, and the remote side as the
      class [RemoteOps]. [TransferDownloadFacts]: a download is atomic and ends.
      [TransferExecutorFacts]: how failures are recorded, public mutations as
      compare-and-swap, the truth of outcomes.

    ** Files: usage, network, telemetry, helpers

    - [UsageBucket], [UsageBucketFacts]: the split of an interval into local
      minutes conserves time and ends. [UsageKeys]: bucket keys sort as dates.
      [UsageStore], [UsageStoreFacts]: the tables and statements; recovery and
      retention. [UsageTracker], [UsageTrackerFacts]: every call keeps the books
      and counts time exactly, under any failing statements.
    - [NetworkSampler], [NetworkSamplerFacts]: rates are measured, sums exact.
      [Netlink], [NetlinkFacts]: the rtnetlink dump byte by byte - safe on
      anything, and inverse to a kernel's serialisation.
    - [HelperFrame], [HelperFrameFacts]: the framing and the loop of both
      helpers, against the interface [HelperProtocol]; [NetworkHelper] and
      [TelemetryHelper] with their [Facts] are its two instances, the collector
      and the reduction of replies that are too large.
    - [TelemetryParse]: the text of [/proc] in procfs.rs of [crates/telemetry].
      [TelemetryIdentity]: processes grouped into applications; [grouping_is_exact]
      says which. [TelemetryProc], [TelemetryProcFacts]: the collector over the
      class [ProcFs]; a stat line is read whatever the command's name, sums are
      exact, what is collected reaches the daemon. [TelemetrySampler],
      [TelemetrySamplerFacts]: shares are measured between two collections, a
      complete snapshot lacks nothing. [TelemetryStore]: the last snapshot and
      the manager, a refinement of a small abstract view.

    ** Files: notes

    - [NotesDomain], [NotesModel], [NotesModelFacts]: [crates/domain]'s notes and
      [crates/notes]' model. [NotesRepository], with [NotesRepositoryFacts] (the
      tables are a map with histories) and [NotesHistoryFacts] (histories only
      grow; queries answer the sorted slice). [NotesService], with
      [NotesUploadFacts] (uploads within budget, equal to inline writes) and
      [NotesServiceFacts] (valid answers, pages, exports).

    ** Files: the socket

    - [Domain]: the other modules of [crates/domain]. [Frame], [FrameFacts]:
      length-prefixed frames over a timed byte stream, round trip and bounds.
    - [IpcMessage]: requests, responses, stream frames. [IpcPlan],
      [IpcPlanFacts]: the plans of the streams stay within their limits.
      [IpcClient], [IpcClientFacts]: every request function; all end in time.
      [IpcRoundTrip], [IpcStreams]: what is planned is read back; answers match
      requests. [IpcServer], [IpcServerFacts]: a connection from its first byte
      to its last, its permits, deadline and answer. [IpcServe]: the accept loop
      as steps, with its capacity. [IpcEndToEnd]: the daemon's bytes read by the
      client, and the witnesses of this group.
    - [AppdProfiles], [AppdProfilesFacts]: the profile store of the daemon
      (remote.rs of bins/appd), a map of profiles with compare-and-swap, pages in
      order, and no deletion of what is in use.

    ** Conventions

    A definition carries the name of the Rust item it translates, prefixed by
    the type ([RetryPolicy_new]) where two would clash. [w]-bit integers are
    [Z]; overflow is written out ([sat_u64], [checked_u32], [mod]). A panic is a
    [None] or a refusal and is named where it occurs. An [Instant] is a number
    read from an oracle; so is the wall clock. Identifiers are the integers of
    their 128 bits. Modules of facts follow the file of their definitions.

    Loops over I/O carry fuel where the code has no bound of its own. Running
    out is a value of its own ([OutOfFuel]) that no error handling of the code
    sees. [download_terminates] gives the fuel of a download: the bytes that are
    missing and, for the throttle, the clock readings up to the deadline.
    [stream_fuel] of a client is more than the frames its budget admits;
    [helper_loop_terminates] bounds the helpers' loop by the bytes that arrive;
    the turns of a terminal stream, in the daemon, are the one loop without a deadline, and its
    theorem leaves it out. Grouping needs as many turns as there are processes
    for parents, and one turn of the adoption loop; [grouping_is_exact] shows it.
    The close of a terminal polls for its grace period: [close_fuel] turns.

    ** What is assumed

    SQLite, serde_json, libcurl, chrono, the uuid, base64 and sha2 crates, the
    kernel and IEEE arithmetic are parameters. Hypotheses on them are classes -
    [StoreLaws], [TaskCodecLaws], [UuidTextLaws], [UuidFormatLaws],
    [TagsJsonLaws], [JsonLaws], [EnvelopeJsonLaws], [Base64Laws], [Sha256Laws],
    [ChronoLaws], [Float64Laws], [FtpServer],
    [ProfileCodecLaws], [UuidTextOrder], [SshEnvLaws], [PtyLaws],
    [PtyClock] - or records ([serves],
    [well_behaved]), each with an instance that shows it can hold. Locks are not
    poisoned. Other tasks act while a run awaits the remote side: the remote
    operations change the whole [World], and the theorems constrain only what
    they say. The blocking local calls of a run are not interleaved. The file system
    seen by a collector is any function of its state ([ProcFs]); desktop entries do
    not change while one snapshot is made.

    ** Not modelled

    The SMB adapter, the file operations of the SFTP session, the collectors of the system report, the daemon's owners (they connect the parts above), migrations
    of the databases, the probes of [/sys], child processes and
    Wayland, [run_ready] (a tokio [JoinSet]), the downloads of [FtpAdapter] that
    only tests call, and the desktop shell, which forwards to the daemon. *)

From Stdlib Require Export ZArith Lia Ascii String.
From stdpp Require Export base decidable numbers list gmap strings sorting.

Open Scope Z_scope.

Declare Scope rust_scope.
Delimit Scope rust_scope with rust.

(** ** [Result<A, E>] *)

Inductive result (A E : Type) : Type :=
| Ok (a : A)
| Err (e : E).
Arguments Ok {A E} a.
Arguments Err {A E} e.

Definition result_bind {A B E} (r : result A E) (k : A -> result B E) : result B E :=
  match r with
  | Ok a => k a
  | Err e => Err e
  end.

Definition map_err {A E F} (f : E -> F) (r : result A E) : result A F :=
  match r with
  | Ok a => Ok a
  | Err e => Err (f e)
  end.

Definition ok_or {A E} (e : E) (o : option A) : result A E :=
  match o with
  | Some a => Ok a
  | None => Err e
  end.

Definition is_ok {A E} (r : result A E) : bool :=
  match r with
  | Ok _ => true
  | Err _ => false
  end.

Definition is_err {A E} (r : result A E) : bool := negb (is_ok r).

(** [?] on a [Result], and the [if cond { return Err(e) }] guards. *)
Notation "'let?' x ':=' r 'in' k" := (result_bind r (fun x => k))
  (at level 10, x pattern, r at level 100, k at level 200, only parsing) : rust_scope.
Notation "'fail_if' b 'with' e 'in' k" := (if (b : bool) then Err e else k)
  (at level 10, b at level 100, e at level 100, k at level 200) : rust_scope.
Open Scope rust_scope.

Lemma result_bind_ok {A B E} (r : result A E) (k : A -> result B E) b :
  result_bind r k = Ok b <-> exists a, r = Ok a /\ k a = Ok b.
Proof.
  destruct r as [a | e]; simpl; split; intros H.
  - by exists a.
  - by destruct H as (a' & [= ->] & H).
  - discriminate.
  - by destruct H as (a' & [=] & _).
Qed.

Lemma is_ok_iff {A E} (r : result A E) : is_ok r = true <-> exists a, r = Ok a.
Proof. destruct r; simpl; naive_solver. Qed.

Lemma is_err_false_iff {A E} (r : result A E) : is_err r = false <-> exists a, r = Ok a.
Proof. destruct r; simpl; naive_solver. Qed.

Lemma map_err_ok {A E F} (f : E -> F) (r : result A E) a : map_err f r = Ok a -> r = Ok a.
Proof. destruct r; simpl; congruence. Qed.

(** The guards a program has passed. *)
Ltac guards H :=
  repeat match type of H with
         | (if ?b then Err _ else _) = Ok _ => destruct b eqn:?; [discriminate H |]
         end.

(** A guard at the end of a check. *)
Lemma guard_ok {E} (b : bool) (e : E) u :
  (fail_if b with e in Ok tt) = Ok u <-> b = false.
Proof. destruct b, u; naive_solver. Qed.

(** [try_for_each] over a list: the first error wins. *)
Fixpoint try_for_each {A E} (f : A -> result unit E) (l : list A) : result unit E :=
  match l with
  | [] => Ok tt
  | a :: l' => result_bind (f a) (fun _ => try_for_each f l')
  end.

Lemma try_for_each_ok {A E} (f : A -> result unit E) l :
  try_for_each f l = Ok tt <-> Forall (fun a => f a = Ok tt) l.
Proof.
  induction l as [| a l IH]; simpl; [done |].
  rewrite Forall_cons. destruct (f a) as [[] | e] eqn:Hf; simpl; naive_solver.
Qed.

(** ** [&mut self] methods that return a [Result]

    A method body is a function of the state it mutates; an error keeps the
    mutations made before it, as Rust does. *)

Definition mut (S A E : Type) : Type := S -> S * result A E.

Section Mut.
Context {S E : Type}.

Definition ret {A} (a : A) : mut S A E := fun s => (s, Ok a).
Definition throw {A} (e : E) : mut S A E := fun s => (s, Err e).
Definition bind {A B} (m : mut S A E) (k : A -> mut S B E) : mut S B E :=
    fun s => match m s with
             | (s', Ok a) => k a s'
             | (s', Err e) => (s', Err e)
             end.
Definition gets {A} (f : S -> A) : mut S A E := fun s => (s, Ok (f s)).
Definition modify (f : S -> S) : mut S unit E := fun s => (f s, Ok tt).
Definition lift {A} (f : S -> result A E) : mut S A E := fun s => (s, f s).
Definition when (b : bool) (m : mut S unit E) : mut S unit E :=
    if b then m else ret tt.
End Mut.

Notation "x <- m ;; k" := (bind m (fun x => k))
  (at level 100, m at next level, right associativity) : rust_scope.
Notation "m ;;; k" := (bind m (fun _ => k))
  (at level 100, right associativity) : rust_scope.

(** Runs of a program that mutates a part of a larger state. *)
Definition zoom {S T A E} (get : T -> S) (put : S -> T -> T) (m : mut S A E) : mut T A E :=
  fun t => let '(s, r) := m (get t) in (put s t, r).

(** Error conversion of a [?] that changes the error type. *)
Definition mut_map_err {S A E F} (f : E -> F) (m : mut S A E) : mut S A F :=
  fun s => let '(s', r) := m s in (s', map_err f r).

Lemma bind_ok {S E A B} (m : mut S A E) (k : A -> mut S B E) s s' b :
  bind m k s = (s', Ok b) <->
  exists s1 a, m s = (s1, Ok a) /\ k a s1 = (s', Ok b).
Proof.
  unfold bind. destruct (m s) as [s1 [a | e]]; naive_solver.
Qed.

Lemma bind_err {S E A B} (m : mut S A E) (k : A -> mut S B E) s s' e :
  bind m k s = (s', Err e) <->
  m s = (s', Err e) \/ exists s1 a, m s = (s1, Ok a) /\ k a s1 = (s', Err e).
Proof.
  unfold bind. destruct (m s) as [s1 [a | e']]; naive_solver.
Qed.

Lemma mut_map_err_ok {S A E F} (f : E -> F) (m : mut S A E) s s' a :
  mut_map_err f m s = (s', Ok a) <-> m s = (s', Ok a).
Proof. unfold mut_map_err. destruct (m s) as [s1 [b | e]]; naive_solver. Qed.

(** Programs that only read the state, that cannot fail, and that fail without
    having changed the state ("check first, then commit"). *)
Section Effects.
Context {S E : Type}.

Definition read_only {A} (m : mut S A E) : Prop := forall s s' r, m s = (s', r) -> s' = s.
Definition infallible {A} (m : mut S A E) : Prop := forall s s' e, m s <> (s', Err e).
Definition atomic {A} (m : mut S A E) : Prop := forall s s' e, m s = (s', Err e) -> s' = s.

Lemma read_only_ret {A} (a : A) : read_only (ret a).
  Proof. unfold read_only, ret. naive_solver. Qed.
Lemma read_only_throw {A} e : read_only (throw e : mut S A E).
  Proof. unfold read_only, throw. naive_solver. Qed.
Lemma read_only_gets {A} (f : S -> A) : read_only (gets f).
  Proof. unfold read_only, gets. naive_solver. Qed.
Lemma read_only_lift {A} (f : S -> result A E) : read_only (lift f).
  Proof. unfold read_only, lift. naive_solver. Qed.
Lemma read_only_bind {A B} (m : mut S A E) (k : A -> mut S B E) :
    read_only m -> (forall a, read_only (k a)) -> read_only (bind m k).
  Proof.
    unfold read_only, bind. intros Hm Hk s s' r H.
    destruct (m s) as [s1 [a | e]] eqn:H1; apply Hm in H1 as ->; naive_solver.
  Qed.

Lemma infallible_ret {A} (a : A) : infallible (ret a).
  Proof. unfold infallible, ret. naive_solver. Qed.
Lemma infallible_gets {A} (f : S -> A) : infallible (gets f).
  Proof. unfold infallible, gets. naive_solver. Qed.
Lemma infallible_modify (f : S -> S) : infallible (modify f).
  Proof. unfold infallible, modify. naive_solver. Qed.
Lemma infallible_bind {A B} (m : mut S A E) (k : A -> mut S B E) :
    infallible m -> (forall a, infallible (k a)) -> infallible (bind m k).
  Proof.
    unfold infallible, bind. intros Hm Hk s s' e H.
    destruct (m s) as [s1 [a | e']] eqn:H1; [by apply Hk in H | by apply Hm in H1].
  Qed.

Lemma atomic_read_only {A} (m : mut S A E) : read_only m -> atomic m.
  Proof. unfold read_only, atomic. eauto. Qed.
Lemma atomic_infallible {A} (m : mut S A E) : infallible m -> atomic m.
  Proof. unfold infallible, atomic. intros Hm s s' e H. by apply Hm in H. Qed.
Lemma atomic_bind {A B} (m : mut S A E) (k : A -> mut S B E) :
    read_only m -> (forall a, atomic (k a)) -> atomic (bind m k).
  Proof.
    unfold read_only, atomic, bind. intros Hm Hk s s' e H.
    destruct (m s) as [s1 [a | e']] eqn:H1; apply Hm in H1 as ->; naive_solver.
  Qed.

Lemma atomic_bind_infallible {A B} (m : mut S A E) (k : A -> mut S B E) :
    atomic m -> (forall a, infallible (k a)) -> atomic (bind m k).
  Proof.
    unfold infallible, atomic, bind. intros Hm Hk s s' e H.
    destruct (m s) as [s1 [a | e']] eqn:H1; [by apply Hk in H |].
    injection H as <- <-. by apply Hm in H1.
  Qed.

  (** Programs that leave an observation of the state as it is. *)
Definition preserves {X A} (f : S -> X) (m : mut S A E) : Prop :=
  forall s s' r, m s = (s', r) -> f s' = f s.

Lemma preserves_read_only {X A} (f : S -> X) (m : mut S A E) : read_only m -> preserves f m.
Proof. unfold read_only, preserves. intros Hm s s' r H. by rewrite (Hm _ _ _ H). Qed.
Lemma preserves_bind {X A B} (f : S -> X) (m : mut S A E) (k : A -> mut S B E) :
  preserves f m -> (forall a, preserves f (k a)) -> preserves f (bind m k).
Proof.
  unfold preserves, bind. intros Hm Hk s s' r H. destruct (m s) as [s1 [a | e]] eqn:H1.
  - rewrite (Hk _ _ _ _ H). by eapply Hm.
  - injection H as <- _. by eapply Hm.
Qed.
Lemma preserves_modify {X} (f : S -> X) (g : S -> S) :
  (forall s, f (g s) = f s) -> preserves f (modify g : mut S unit E).
Proof. unfold preserves, modify. by intros H s s' r [= <- _]. Qed.

(** Programs whose runs, failing or not, stay within a relation of states. *)
Definition respects {A} (R : relation S) (m : mut S A E) : Prop :=
  forall s s' r, m s = (s', r) -> R s s'.

Lemma respects_read_only {A} (R : relation S) `{!Reflexive R} (m : mut S A E) :
  read_only m -> respects R m.
Proof. unfold read_only, respects. intros Hm s s' r H. by rewrite (Hm _ _ _ H). Qed.
Lemma respects_bind {A B} (R : relation S) `{!Transitive R} (m : mut S A E) (k : A -> mut S B E) :
  respects R m -> (forall a, respects R (k a)) -> respects R (bind m k).
Proof.
  unfold respects, bind. intros Hm Hk s s' r H. destruct (m s) as [s1 [a | e]] eqn:H1.
  - etrans; [by eapply Hm | by eapply Hk].
  - injection H as <- _. by eapply Hm.
Qed.
Lemma respects_modify (R : relation S) (g : S -> S) :
  (forall s, R s (g s)) -> respects R (modify g : mut S unit E).
Proof. unfold respects, modify. by intros H s s' r [= <- _]. Qed.
Lemma respects_weaken {A} (R R' : relation S) (m : mut S A E) :
  (forall s s', R s s' -> R' s s') -> respects R m -> respects R' m.
Proof. unfold respects. eauto. Qed.

(** Programs whose failures leave the observation as it is. *)
Definition fails_preserving {X A} (f : S -> X) (m : mut S A E) : Prop :=
  forall s s' e, m s = (s', Err e) -> f s' = f s.

Lemma fails_preserving_preserves {X A} (f : S -> X) (m : mut S A E) :
  preserves f m -> fails_preserving f m.
Proof. unfold preserves, fails_preserving. eauto. Qed.
Lemma fails_preserving_infallible {X A} (f : S -> X) (m : mut S A E) :
  infallible m -> fails_preserving f m.
Proof. unfold infallible, fails_preserving. intros Hm s s' e H. by apply Hm in H. Qed.
Lemma fails_preserving_bind {X A B} (f : S -> X) (m : mut S A E) (k : A -> mut S B E) :
  preserves f m -> (forall a, fails_preserving f (k a)) -> fails_preserving f (bind m k).
Proof.
  unfold preserves, fails_preserving, bind. intros Hm Hk s s' e H.
  destruct (m s) as [s1 [a | e']] eqn:H1; [rewrite (Hk _ _ _ _ H) | injection H as <- _]; by eapply Hm.
Qed.

(** Running the primitives. *)
Lemma ret_ok {A} (a b : A) s s' : (ret a : mut S A E) s = (s', Ok b) <-> s' = s /\ b = a.
  Proof. unfold ret. naive_solver. Qed.
Lemma throw_ok {A} (e : E) (b : A) s s' : (throw e : mut S A E) s = (s', Ok b) <-> False.
  Proof. unfold throw. naive_solver. Qed.
Lemma gets_ok {A} (f : S -> A) b s s' :
    (gets f : mut S A E) s = (s', Ok b) <-> s' = s /\ b = f s.
  Proof. unfold gets. naive_solver. Qed.
Lemma modify_ok (f : S -> S) b s s' :
    (modify f : mut S unit E) s = (s', Ok b) <-> s' = f s.
  Proof. unfold modify. destruct b. split; [by intros [= ->] | by intros ->]. Qed.
Lemma lift_ok {A} (f : S -> result A E) b s s' :
    lift f s = (s', Ok b) <-> s' = s /\ f s = Ok b.
  Proof. unfold lift. split; [by intros [= -> ->] | by intros [-> ->]]. Qed.
End Effects.

(** Programs all of whose failures are in [F]. *)
Definition fails_within {S A E} (F : E -> Prop) (m : mut S A E) : Prop :=
  forall s s' e, m s = (s', Err e) -> F e.

(** Specifications of runs: from a state in [P], a run stays within [R], an
    answer and its state are in [Q], an error is in [F]. *)
Section Hoare.
Context {S E : Type} (R : relation S) (F : E -> Prop).

Lemma fails_within_infallible {A} (m : mut S A E) : infallible m -> fails_within F m.
Proof. unfold infallible, fails_within. intros Hm s s' e H. by apply Hm in H. Qed.
Lemma fails_within_throw {A} e : F e -> fails_within F (throw e : mut S A E).
Proof. unfold fails_within, throw. by intros He s s' e' [= _ <-]. Qed.
Lemma fails_within_bind {A B} (m : mut S A E) (k : A -> mut S B E) :
  fails_within F m -> (forall a, fails_within F (k a)) -> fails_within F (bind m k).
Proof.
  unfold fails_within, bind. intros Hm Hk s s' e H. destruct (m s) as [s1 [a | e']] eqn:H1.
  - by eapply Hk.
  - injection H as _ <-. by eapply Hm.
Qed.

Definition hoare {A} (P : S -> Prop) (m : mut S A E) (Q : A -> S -> Prop) : Prop :=
  forall s s' r, P s -> m s = (s', r) ->
    R s s' /\ match r with Ok a => Q a s' | Err e => F e end.

Lemma hoare_bind {A B} `{!Transitive R} P (m : mut S A E) Q (k : A -> mut S B E) Q' :
  hoare P m Q -> (forall a, hoare (Q a) (k a) Q') -> hoare P (bind m k) Q'.
Proof.
  unfold hoare, bind. intros Hm Hk s s' r HP H. destruct (m s) as [s1 [a | e]] eqn:H1.
  - destruct (Hm _ _ _ HP H1) as [HR HQ]. destruct (Hk a _ _ _ HQ H). split; [by etrans | done].
  - injection H as <- <-. by destruct (Hm _ _ _ HP H1).
Qed.

Lemma hoare_ret {A} `{!Reflexive R} (a : A) (P : S -> Prop) (Q : A -> S -> Prop) :
  (forall s, P s -> Q a s) -> hoare P (ret a) Q.
Proof. unfold hoare, ret. intros HQ s s' r HP [= <- <-]. auto. Qed.

Lemma hoare_throw {A} `{!Reflexive R} e (P : S -> Prop) (Q : A -> S -> Prop) :
  (forall s, P s -> F e) -> hoare P (throw e) Q.
Proof. unfold hoare, throw. intros HQ s s' r HP [= <- <-]. eauto. Qed.

(** A program that keeps a precondition. *)
Lemma hoare_frame {A} (R' : relation S) P (m : mut S A E) :
  respects R' m -> fails_within F m -> (forall s s', R' s s' -> R s s') ->
  (forall s s', R' s s' -> P s -> P s') -> hoare P m (fun _ => P).
Proof.
  unfold respects, fails_within, hoare. intros Hm HF HR HP s s' r Hs H. pose proof H as H'.
  apply Hm in H. split; [auto |]. destruct r; eauto.
Qed.

Lemma hoare_fact {A} (P : S -> Prop) (G : Prop) (m : mut S A E) Q :
  (G -> hoare P m Q) -> hoare (fun s => P s /\ G) m Q.
Proof. unfold hoare. intros Hm s s' r [Hs HG]. by apply Hm. Qed.
End Hoare.

Lemma respects_map_err {S A E F} (R : relation S) (g : E -> F) (m : mut S A E) :
  respects R m -> respects R (mut_map_err g m).
Proof.
  unfold respects, mut_map_err. intros Hm s s' r Hs. destruct (m s) eqn:He.
  injection Hs as <- _. by eapply Hm.
Qed.

Lemma respects_zoom {S T A E} (R : relation S) (R' : relation T) (get : T -> S) (put : S -> T -> T)
    (m : mut S A E) :
  (forall t s, R (get t) s -> R' t (put s t)) -> respects R m -> respects R' (zoom get put m).
Proof.
  unfold respects, zoom. intros Hput Hm t t' r Ht. destruct (m (get t)) as [s1 r1] eqn:He.
  injection Ht as <- _. apply Hput. by eapply Hm.
Qed.

Create HintDb rust_effects.
#[export] Hint Resolve read_only_ret read_only_throw read_only_gets read_only_lift
  infallible_ret infallible_gets infallible_modify : rust_effects.

(** [solve_effects] decides the three predicates for a program built from the
    primitives. *)
Ltac solve_effects :=
  repeat first
    [ progress intros
    | apply read_only_bind | apply infallible_bind
    | solve [eauto 1 with rust_effects]
    | case_match ].
Ltac solve_preserves :=
  repeat first
    [ progress intros
    | solve [eauto 1 with rust_effects]
    | solve [apply preserves_read_only; solve_effects]
    | apply preserves_bind
    | case_match ].
Ltac solve_respects :=
  repeat first
    [ progress intros
    | solve [eauto 2 with rust_effects]
    | solve [apply respects_read_only; [apply _ | solve_effects]]
    | apply respects_bind; [apply _ | |]
    | apply respects_map_err
    | case_match ].
Ltac solve_fails_preserving :=
  repeat first
    [ progress intros
    | solve [apply fails_preserving_infallible; solve_effects]
    | solve [apply fails_preserving_preserves; solve_preserves]
    | apply fails_preserving_bind; [solve [solve_preserves] |]
    | case_match ].
Ltac solve_atomic :=
  repeat first
    [ progress intros
    | solve [apply atomic_infallible; solve_effects]
    | solve [apply atomic_read_only; solve_effects]
    | apply atomic_bind; [solve [solve_effects] |]
    | apply atomic_bind_infallible; [| solve [solve_effects]]
    | case_match ].

(** Inverts a successful run of a program, primitive by primitive. *)
Ltac inv_ok :=
  repeat match goal with
    | H : bind _ _ _ = (_, Ok _) |- _ => apply bind_ok in H as (? & ? & ? & H)
    | H : ret _ _ = (_, Ok _) |- _ => apply ret_ok in H as [? ?]
    | H : throw _ _ = (_, Ok _) |- _ => apply throw_ok in H as []
    | H : gets _ _ = (_, Ok _) |- _ => apply gets_ok in H as [? ?]
    | H : modify _ _ = (_, Ok _) |- _ => apply modify_ok in H
    | H : lift _ _ = (_, Ok _) |- _ => apply lift_ok in H as [? ?]
    end; subst.

(** ** Machine integers

    A w-bit integer is the [Z] it denotes; [in_u64 z] is the range of the type.
    [checked_*] is [None] on overflow and [sat_*] clamps, as in Rust. *)

Definition u8_max : Z := 255.
Definition u16_max : Z := 65535.
Definition u32_max : Z := 4294967295.
Definition u64_max : Z := 18446744073709551615.
Definition i64_max : Z := 9223372036854775807.
Definition i64_min : Z := -9223372036854775808.

Definition in_range (lo hi z : Z) : bool := (lo <=? z) && (z <=? hi).
Definition in_u8 (z : Z) : bool := in_range 0 u8_max z.
Definition in_u16 (z : Z) : bool := in_range 0 u16_max z.
Definition in_u32 (z : Z) : bool := in_range 0 u32_max z.
Definition in_u64 (z : Z) : bool := in_range 0 u64_max z.
Definition in_i64 (z : Z) : bool := in_range i64_min i64_max z.

Definition clamp (lo hi z : Z) : Z := Z.max lo (Z.min hi z).
Definition sat_u64 (z : Z) : Z := clamp 0 u64_max z.
Definition sat_i64 (z : Z) : Z := clamp i64_min i64_max z.
Definition checked_u64 (z : Z) : option Z := if in_u64 z then Some z else None.
Definition checked_u32 (z : Z) : option Z := if in_u32 z then Some z else None.
Definition checked_i64 (z : Z) : option Z := if in_i64 z then Some z else None.

Ltac unfold_width :=
  unfold in_u8, in_u16, in_u32, in_u64, in_i64, in_range,
    sat_u64, sat_i64, clamp, u8_max, u16_max, u32_max, u64_max, i64_max, i64_min in *.

(** Arithmetic goals over machine integers and boolean comparisons. *)
Ltac width := unfold_width; lia.

Lemma sat_u64_id z : in_u64 z = true -> sat_u64 z = z.
Proof. width. Qed.

Lemma sat_u64_range z : in_u64 (sat_u64 z) = true.
Proof. width. Qed.

Lemma sat_i64_range z : in_i64 (sat_i64 z) = true.
Proof. width. Qed.

Lemma checked_u64_some z v : checked_u64 z = Some v <-> v = z /\ in_u64 z = true.
Proof. unfold checked_u64. destruct (in_u64 z); naive_solver. Qed.

Lemma checked_i64_some z v : checked_i64 z = Some v <-> v = z /\ in_i64 z = true.
Proof. unfold checked_i64. destruct (in_i64 z); naive_solver. Qed.

(** [is_some_and], [is_none_or] of [Option]. *)
Definition is_some_and {A} (p : A -> bool) (o : option A) : bool :=
  match o with Some a => p a | None => false end.
Definition is_none_or {A} (p : A -> bool) (o : option A) : bool :=
  match o with Some a => p a | None => true end.
Definition is_some {A} (o : option A) : bool :=
  match o with Some _ => true | None => false end.
Definition is_none {A} (o : option A) : bool := negb (is_some o).
Definition or_else {A} (o p : option A) : option A :=
  match o with Some a => Some a | None => p end.

(** [==] of types with decidable equality. *)
Definition eqb {A} `{EqDecision A} (a b : A) : bool := bool_decide (a = b).
Definition contains {A} `{EqDecision A} (a : A) (l : list A) : bool := existsb (eqb a) l.

Lemma eqb_true {A} `{EqDecision A} (a b : A) : eqb a b = true <-> a = b.
Proof. apply bool_decide_eq_true. Qed.

Lemma eqb_false {A} `{EqDecision A} (a b : A) : eqb a b = false <-> a <> b.
Proof. apply bool_decide_eq_false. Qed.

Lemma eqb_eq {A} `{EqDecision A} (a b : A) : eqb a b = true -> a = b.
Proof. apply eqb_true. Qed.

Lemma eqb_neq {A} `{EqDecision A} (a b : A) : eqb a b = false -> a <> b.
Proof. apply eqb_false. Qed.

Lemma eqb_refl {A} `{EqDecision A} (a : A) : eqb a a = true.
Proof. by apply eqb_true. Qed.

Lemma contains_true {A} `{EqDecision A} (a : A) l : contains a l = true <-> a ∈ l.
Proof.
  unfold contains. rewrite existsb_exists. setoid_rewrite eqb_true.
  setoid_rewrite <- list_elem_of_In. naive_solver.
Qed.

Lemma contains_false {A} `{EqDecision A} (a : A) l : contains a l = false <-> a ∉ l.
Proof. rewrite <- contains_true. destruct (contains a l); naive_solver. Qed.

(** Boolean facts as propositions. *)
Ltac bool_facts :=
  repeat match goal with
    | H : negb _ = false |- _ => apply negb_false_iff in H
    | H : negb _ = true |- _ => apply negb_true_iff in H
    | H : _ || _ = false |- _ => apply orb_false_iff in H as [? ?]
    | H : _ && _ = true |- _ => apply andb_true_iff in H as [? ?]
    | H : (_ =? _) = true |- _ => apply Z.eqb_eq in H
    | H : (_ =? _) = false |- _ => apply Z.eqb_neq in H
    | H : (_ <? _) = true |- _ => apply Z.ltb_lt in H
    | H : (_ <? _) = false |- _ => apply Z.ltb_ge in H
    | H : (_ <=? _) = true |- _ => apply Z.leb_le in H
    | H : (_ <=? _) = false |- _ => apply Z.leb_gt in H
    | H : eqb _ _ = true |- _ => apply eqb_eq in H
    | H : eqb _ _ = false |- _ => apply eqb_neq in H
    | H : (if ?b then Err _ else Ok tt) = Ok _ |- _ => destruct b eqn:?; [discriminate H | clear H]
    | H : (if ?b then Err _ else _) = Ok _ |- _ => destruct b eqn:?; [discriminate H |]
    end.

Create HintDb rust.
Create Rewrite HintDb rust_rw.
#[export] Hint Rewrite @eqb_refl : rust_rw.
#[export] Hint Resolve eqb_refl sat_u64_range sat_i64_range : rust.

(** ** Strings

    A Rust [String] is its UTF-8 bytes, a Rocq [string]; [len] counts bytes.
    [chars] decodes the bytes of a well-formed string to Unicode scalar
    values, on which the [char] predicates are defined. *)

Definition len (s : string) : Z := Z.of_nat (String.length s).
Definition is_byte (b : Z) : Prop := 0 <= b < 256.
Definition is_empty (s : string) : bool := match s with EmptyString => true | _ => false end.
Definition byte_of (a : ascii) : Z := Z.of_N (N_of_ascii a).

Fixpoint bytes (s : string) : list Z :=
  match s with
  | EmptyString => []
  | String a s' => byte_of a :: bytes s'
  end.

Definition cont (b : Z) : Z := Z.land b 63.

Fixpoint chars (s : string) : list Z :=
  match s with
  | EmptyString => []
  | String a s1 =>
      let b := byte_of a in
      if b <? 128 then b :: chars s1
      else match s1 with
      | EmptyString => [b]
      | String a1 s2 =>
          let b1 := byte_of a1 in
          if b <? 224 then Z.lor (Z.shiftl (Z.land b 31) 6) (cont b1) :: chars s2
          else match s2 with
          | EmptyString => [b]
          | String a2 s3 =>
              let b2 := byte_of a2 in
              if b <? 240
              then Z.lor (Z.shiftl (Z.land b 15) 12) (Z.lor (Z.shiftl (cont b1) 6) (cont b2))
                     :: chars s3
              else match s3 with
              | EmptyString => [b]
              | String a3 s4 =>
                  Z.lor (Z.shiftl (Z.land b 7) 18)
                    (Z.lor (Z.shiftl (cont b1) 12)
                       (Z.lor (Z.shiftl (cont b2) 6) (cont (byte_of a3)))) :: chars s4
              end
          end
      end
  end.

(** [char::is_control] (general category Cc) and [char::is_whitespace]
    (property White_Space). *)
Definition is_control (c : Z) : bool := (c <=? 31) || in_range 127 159 c.
Definition is_whitespace (c : Z) : bool :=
  in_range 9 13 c || contains c [32; 133; 160; 5760; 8232; 8233; 8239; 8287; 12288]
  || in_range 8192 8202 c.

Definition is_ascii_lowercase (b : Z) : bool := in_range 97 122 b.
Definition is_ascii_uppercase (b : Z) : bool := in_range 65 90 b.
Definition is_ascii_digit (b : Z) : bool := in_range 48 57 b.
Definition is_ascii_alphabetic (b : Z) : bool := is_ascii_lowercase b || is_ascii_uppercase b.
Definition is_ascii_alphanumeric (b : Z) : bool := is_ascii_alphabetic b || is_ascii_digit b.

(** The byte of an ASCII character literal. *)
Definition ch (s : string) : Z := match bytes s with b :: _ => b | [] => 0 end.
Definition nul : Z := 0.

Definition any_control (s : string) : bool := existsb is_control (chars s).
Definition contains_byte (b : Z) (s : string) : bool := existsb (Z.eqb b) (bytes s).

Fixpoint strip_prefix (p s : string) : option string :=
  match p, s with
  | EmptyString, _ => Some s
  | String a p', String b s' => if Ascii.eqb a b then strip_prefix p' s' else None
  | String _ _, EmptyString => None
  end.

Definition starts_with (p s : string) : bool := is_some (strip_prefix p s).

(** [s.contains(p)] for a string pattern. *)
Fixpoint contains_str (p s : string) : bool :=
  starts_with p s || match s with EmptyString => false | String _ s' => contains_str p s' end.

(** [s.matches(p).count()]: non-overlapping matches from the left; [skip]
    bytes belong to the previous match. *)
Fixpoint count_matches_from (p s : string) (skip : nat) : Z :=
  match s with
  | EmptyString => 0
  | String _ s' =>
      match skip with
      | S n => count_matches_from p s' n
      | O => if starts_with p s
             then 1 + count_matches_from p s' (String.length p - 1)
             else count_matches_from p s' 0
      end
  end.
Definition count_matches (p s : string) : Z := count_matches_from p s 0.

Lemma strip_prefix_app p s : strip_prefix p (p ++ s)%string = Some s.
Proof.
  induction p as [| a p IH]; [done |].
  change (strip_prefix (String a p) (String a (p ++ s)%string) = Some s). simpl.
  by rewrite Ascii.eqb_refl.
Qed.

Lemma strip_prefix_some p s t : strip_prefix p s = Some t <-> s = (p ++ t)%string.
Proof.
  split; [| intros ->; apply strip_prefix_app].
  revert s. induction p as [| a p IH]; intros s H; simpl in H; [by injection H |].
  destruct s as [| b s]; [discriminate |].
  destruct (Ascii.eqb_spec a b) as [-> |]; [| discriminate].
  change (String b s = String b (p ++ t)%string). by rewrite (IH s H).
Qed.

Lemma len_nonneg s : 0 <= len s.
Proof. unfold len. lia. Qed.

Lemma len_app s t : len (s ++ t)%string = len s + len t.
Proof.
  unfold len. induction s as [| a s IH]; [done |].
  change (String a s ++ t)%string with (String a (s ++ t)%string).
  cbn -[Z.of_nat] in *. lia.
Qed.

Lemma is_empty_len s : is_empty s = (len s =? 0).
Proof. destruct s as [| a s]; [done |]. unfold len, String.length. fold String.length. simpl. lia. Qed.

Lemma length_bytes s : Z.of_nat (length (bytes s)) = len s.
Proof.
  unfold len. induction s as [| a s IH]; [done |].
  unfold String.length, bytes. fold String.length bytes. simpl length. lia.
Qed.

(** [windows(2).any(p)] *)
Fixpoint windows2_any {A} (p : A -> A -> bool) (l : list A) : bool :=
  match l with
  | a :: l' => match l' with b :: _ => p a b || windows2_any p l' | [] => false end
  | [] => false
  end.

Lemma windows2_any_sorted {A} (p : A -> A -> bool) (R : relation A) `{!Transitive R} l :
  (forall a b, p a b = false -> R a b) ->
  windows2_any p l = false -> StronglySorted R l.
Proof.
  intros HR H. apply Sorted_StronglySorted; [by intros x y z; apply transitivity |].
  induction l as [| a l IH]; [constructor |]. simpl in H. destruct l as [| b l].
  - repeat constructor.
  - apply orb_false_iff in H as [H1 H2]. constructor; [by apply IH |]. constructor. by apply HR.
Qed.

Lemma StronglySorted_before {A} (R : relation A) (l1 l2 : list A) x :
  Transitive R -> last l1 = Some x ->
  StronglySorted R l1 -> StronglySorted R l2 -> Forall (R x) l2 -> StronglySorted R (l1 ++ l2).
Proof.
  intros HT Hlast H1 H2 Hx. induction l1 as [| a l1 IH]; [done |].
  apply StronglySorted_inv in H1 as [H1 Ha]. simpl. destruct l1 as [| b l1].
  - injection Hlast as ->. by constructor.
  - assert (last (b :: l1) = Some x) as Hl by done.
    constructor; [by apply IH |]. apply Forall_app. split; [done |].
    apply last_Some in Hl as [l' Heq]. rewrite Heq in Ha. apply Forall_app in Ha as [_ Hax].
    apply Forall_inv in Hax. eapply Forall_impl; [exact Hx |]. intros y Hy. by etrans.
Qed.

(** ** [BTreeMap] iteration

    A [BTreeMap] is a finite map whose [values] come in key order. *)

Section BTree.
Context {V : Type}.
Implicit Types m : gmap Z V.

Definition entry_le (p q : Z * V) : Prop := p.1 <= q.1.
#[global] Instance entry_le_dec p q : Decision (entry_le p q).
  Proof. unfold entry_le. apply _. Defined.

Definition btree_entries m : list (Z * V) := merge_sort entry_le (map_to_list m).
Definition btree_values m : list V := (btree_entries m).*2.

#[global] Instance entry_le_total : Total entry_le.
  Proof. intros p q. unfold entry_le. lia. Qed.
#[global] Instance entry_le_trans : Transitive entry_le.
  Proof. intros p q r. unfold entry_le. lia. Qed.

Lemma btree_entries_perm m : btree_entries m ≡ₚ map_to_list m.
  Proof. apply merge_sort_Permutation. Qed.

Lemma btree_entries_sorted m : StronglySorted entry_le (btree_entries m).
  Proof. apply StronglySorted_merge_sort; apply _. Qed.

Lemma btree_entries_elem m k v : (k, v) ∈ btree_entries m <-> m !! k = Some v.
  Proof. by rewrite btree_entries_perm, elem_of_map_to_list. Qed.

Lemma btree_values_elem m v : v ∈ btree_values m <-> exists k, m !! k = Some v.
  Proof.
    unfold btree_values. rewrite list_elem_of_fmap. split.
    - intros ([k w] & -> & H). exists k. by apply btree_entries_elem.
    - intros (k & H). exists (k, v). by rewrite btree_entries_elem.
  Qed.

Lemma btree_values_length m : length (btree_values m) = size m.
  Proof.
    unfold btree_values. by rewrite length_fmap, btree_entries_perm, length_map_to_list.
  Qed.

Lemma btree_values_insert_new m k v :
    m !! k = None -> btree_values (<[k := v]> m) ≡ₚ v :: btree_values m.
  Proof.
    intros Hk. unfold btree_values. rewrite !btree_entries_perm, map_to_list_insert by done.
    done.
  Qed.

Lemma btree_values_delete m k v :
    m !! k = Some v -> btree_values m ≡ₚ v :: btree_values (delete k m).
  Proof.
    intros Hk. rewrite <- (insert_delete_id m k v Hk) at 1.
    apply btree_values_insert_new, lookup_delete_eq.
  Qed.
End BTree.

(** ** Sums *)

Definition sum_of {A} (f : A -> Z) (l : list A) : Z := fold_right (fun a n => f a + n) 0 l.

Lemma sum_of_app {A} (f : A -> Z) l1 l2 : sum_of f (l1 ++ l2) = sum_of f l1 + sum_of f l2.
Proof. unfold sum_of. induction l1 as [| a l1 IH]; simpl; lia. Qed.

Lemma sum_of_ge {A} (f : A -> Z) l a : (forall x, x ∈ l -> 0 <= f x) -> a ∈ l -> f a <= sum_of f l.
Proof.
  intros Hf. induction l as [| b l IH]; simpl; [by intros ?%elem_of_nil |].
  assert (0 <= sum_of f l) as Hs.
  { assert (forall x, x ∈ l -> 0 <= f x) as Hl by (intros x Hx; apply Hf; by right).
    clear -Hl. induction l as [| c l IH]; simpl; [lia |].
    pose proof (Hl c ltac:(by left)). specialize (IH (fun x Hx => Hl x ltac:(by right))). lia. }
  intros [-> | Ha]%elem_of_cons; [lia |].
  pose proof (Hf b ltac:(by left)). specialize (IH (fun x Hx => Hf x ltac:(by right)) Ha). lia.
Qed.

(** ** Sums over a table *)

Definition sum_map `{Countable K} {A} (f : K -> A -> Z) (m : gmap K A) : Z :=
  sum_of (fun p => f (fst p) (snd p)) (map_to_list m).

Lemma sum_of_perm {A} (f : A -> Z) l l' : l ≡ₚ l' -> sum_of f l = sum_of f l'.
Proof. unfold sum_of. induction 1; simpl; lia. Qed.

Section Sums.
Context `{Countable K} {A : Type} (f : K -> A -> Z).

Lemma sum_map_delete (m : gmap K A) k a :
  m !! k = Some a -> sum_map f m = f k a + sum_map f (delete k m).
Proof. intros Hm. unfold sum_map. by rewrite <- (sum_of_perm _ _ _ (map_to_list_delete m k a Hm)). Qed.

Lemma sum_map_fresh (m : gmap K A) k a :
  m !! k = None -> sum_map f (<[k := a]> m) = f k a + sum_map f m.
Proof. intros Hm. unfold sum_map. by rewrite (sum_of_perm _ _ _ (map_to_list_insert m k a Hm)). Qed.

Lemma sum_map_update (m : gmap K A) k a b :
  m !! k = Some a -> sum_map f (<[k := b]> m) = sum_map f m - f k a + f k b.
Proof.
  intros Hm. rewrite (sum_map_delete m k a Hm), <- insert_delete_eq.
  rewrite sum_map_fresh by apply lookup_delete_eq. lia.
Qed.

Lemma sum_map_fmap (m : gmap K A) (g : A -> A) :
  (forall k a, f k (g a) = f k a) -> sum_map f (g <$> m) = sum_map f m.
Proof.
  intros Hg. unfold sum_map. rewrite map_to_list_fmap. induction (map_to_list m) as [| [k a] l IH]; simpl; [done |].
  unfold sum_of in *. simpl. f_equal; [apply Hg | apply IH].
Qed.
End Sums.

Lemma sum_map_le `{Countable K} {A : Type} (f g : K -> A -> Z) (m : gmap K A) :
  (forall k a, m !! k = Some a -> f k a <= g k a) -> sum_map f m <= sum_map g m.
Proof.
  intros Hm. unfold sum_map.
  assert (Forall (fun p => f (fst p) (snd p) <= g (fst p) (snd p)) (map_to_list m)) as Hf.
  { apply Forall_forall. intros [k a] Hp%elem_of_map_to_list. by apply Hm. }
  induction Hf as [| p l Hp Hf IH]; simpl; [done |]. unfold sum_of in *. simpl. lia.
Qed.

Lemma sum_map_nonneg `{Countable K} {A : Type} (f : K -> A -> Z) (m : gmap K A) :
  (forall k a, m !! k = Some a -> 0 <= f k a) -> 0 <= sum_map f m.
Proof.
  intros Hm. transitivity (sum_map (fun _ _ => 0) m); [| by apply sum_map_le].
  unfold sum_map, sum_of. clear. induction (map_to_list m) as [| p l IH]; simpl in *; lia.
Qed.
