(* ===== verification/Text.v ===== *)
(** Methods of Rust's [str] and [String] the components share.

    A [str] is its UTF-8 bytes. [pieces] splits it at the character boundaries;
    the trimming methods drop whole characters from its ends. [to_lowercase]
    needs the tables of the Unicode standard and is a parameter. *)
From stdpp Require Import pretty.
From S2P Require Import Prelude.

(** [str::from_utf8]. *)
Definition utf8_cont (b : Z) : bool := in_range 128 191 b.
Fixpoint valid_utf8 (l : list Z) : bool :=
  match l with
  | [] => true
  | b :: l1 =>
      if in_range 0 127 b then valid_utf8 l1
      else match l1 with
      | [] => false
      | b1 :: l2 =>
          if in_range 194 223 b then utf8_cont b1 && valid_utf8 l2
          else match l2 with
          | [] => false
          | b2 :: l3 =>
              if in_range 224 239 b
              then in_range (if b =? 224 then 160 else 128) (if b =? 237 then 159 else 191) b1
                   && utf8_cont b2 && valid_utf8 l3
              else match l3 with
              | [] => false
              | b3 :: l4 =>
                  in_range 240 244 b
                  && in_range (if b =? 240 then 144 else 128) (if b =? 244 then 143 else 191) b1
                  && utf8_cont b2 && utf8_cont b3 && valid_utf8 l4
              end
          end
      end
  end.

Definition string_of_bytes (l : list Z) : string :=
  fold_right (fun b s => String (ascii_of_N (Z.to_N b)) s) EmptyString l.

(** ** Characters *)

Fixpoint pieces (s : string) : list string :=
  match s with
  | EmptyString => []
  | String a s1 =>
      let b := byte_of a in
      if b <? 128 then String a EmptyString :: pieces s1
      else match s1 with
      | EmptyString => [String a EmptyString]
      | String a1 s2 =>
          if b <? 224 then String a (String a1 EmptyString) :: pieces s2
          else match s2 with
          | EmptyString => [String a (String a1 EmptyString)]
          | String a2 s3 =>
              if b <? 240 then String a (String a1 (String a2 EmptyString)) :: pieces s3
              else match s3 with
              | EmptyString => [String a (String a1 (String a2 EmptyString))]
              | String a3 s4 => String a (String a1 (String a2 (String a3 EmptyString))) :: pieces s4
              end
          end
      end
  end.

Definition joined (l : list string) : string := fold_right String.append EmptyString l.
Definition char_of (p : string) : Z := default 0 (head (chars p)).

(** [trim_start], [trim_end] and [trim]. *)
Fixpoint skip_while {A} (p : A -> bool) (l : list A) : list A :=
  match l with
  | a :: l' => if p a then skip_while p l' else l
  | [] => []
  end.
Definition skip_end {A} (p : A -> bool) (l : list A) : list A := reverse (skip_while p (reverse l)).

Definition blank (p : string) : bool := is_whitespace (char_of p).
Definition str_trim_start (s : string) : string := joined (skip_while blank (pieces s)).
Definition str_trim_end (s : string) : string := joined (skip_end blank (pieces s)).
Definition str_trim (s : string) : string := str_trim_end (str_trim_start s).

(** [chars().count()]. *)
Definition chars_count (s : string) : Z := Z.of_nat (length (chars s)).

(** ** Lines *)

Definition newline : ascii := ascii_of_N 10.
Definition carriage_return : ascii := ascii_of_N 13.

(** [split_inclusive('\n')]. *)
Fixpoint split_inclusive (s : string) : list string :=
  match s with
  | EmptyString => []
  | String a s' =>
      if Ascii.eqb a newline then String a EmptyString :: split_inclusive s'
      else match split_inclusive s' with
           | [] => [String a EmptyString]
           | l :: ls => String a l :: ls
           end
  end.

(** [strip_suffix] of one ASCII character. *)
Fixpoint strip_last (c : ascii) (s : string) : option string :=
  match s with
  | EmptyString => None
  | String a EmptyString => if Ascii.eqb a c then Some EmptyString else None
  | String a s' => String a <$> strip_last c s'
  end.

Definition line_text (line : string) : string :=
  match strip_last newline line with
  | None => line
  | Some l => default l (strip_last carriage_return l)
  end.
Definition lines (s : string) : list string := line_text <$> split_inclusive s.

(** ** Slices *)

Definition slice (l : list Z) (from upto : nat) : list Z := firstn (upto - from) (skipn from l).
Definition byte_is (l : list Z) (i : nat) (b : Z) : bool := eqb (l !! i) (Some b).

(** [&s[..n]] and [&s[n..]], where [n] is a character boundary of [s]. *)
Fixpoint str_take (n : nat) (s : string) : string :=
  match n, s with
  | S n, String a s' => String a (str_take n s')
  | _, _ => EmptyString
  end.
Fixpoint str_drop (n : nat) (s : string) : string :=
  match n, s with
  | S n, String _ s' => str_drop n s'
  | O, _ => s
  | _, EmptyString => EmptyString
  end.

(** ** Case, numbers *)

Class UnicodeCase := { to_lowercase : string -> string }.

(** Folding of the ASCII letters only. *)
Definition ascii_lower_byte (a : ascii) : ascii :=
  if is_ascii_uppercase (byte_of a) then ascii_of_N (Z.to_N (byte_of a + 32)) else a.
Fixpoint ascii_lowercase (s : string) : string :=
  match s with
  | EmptyString => EmptyString
  | String a s' => String (ascii_lower_byte a) (ascii_lowercase s')
  end.

(** [parse::<u32>] of a text of ASCII digits: [None] is an error. *)
Definition parse_digits (l : list Z) : option Z :=
  fold_left (fun n b => acc ← n; if is_ascii_digit b then checked_u32 (acc * 10 + (b - ch "0")) else None)
    l (Some 0).

(** ** Lemmas *)

Lemma append_cons a s t : (String a s ++ t)%string = String a (s ++ t)%string.
Proof. reflexivity. Qed.

Lemma append_nil s : (s ++ "")%string = s.
Proof. induction s as [| a s IH]; [done |]. by rewrite append_cons, IH. Qed.

Lemma append_assoc s t u : (s ++ (t ++ u))%string = ((s ++ t) ++ u)%string.
Proof. induction s as [| a s IH]; [done |]. by rewrite !append_cons, IH. Qed.

Lemma joined_cons p l : joined (p :: l) = (p ++ joined l)%string.
Proof. reflexivity. Qed.

Lemma joined_app l1 l2 : joined (l1 ++ l2) = (joined l1 ++ joined l2)%string.
Proof.
  induction l1 as [| p l1 IH]; [done |]. change ((p :: l1) ++ l2) with (p :: (l1 ++ l2)).
  by rewrite !joined_cons, IH, append_assoc.
Qed.

(** Induction on the characters of a string. *)
Lemma string_length_ind (P : string -> Prop) :
  (forall s, (forall t, (String.length t < String.length s)%nat -> P t) -> P s) -> forall s, P s.
Proof. intros HP s. by induction (Wf_nat.well_founded_ltof _ String.length s) as [s _ IH]; apply HP. Qed.

Ltac char_cases s :=
  destruct s as [| ?a s]; [| destruct (byte_of a <? 128) eqn:?;
    [| destruct s as [| ?a s]; [| destruct (byte_of a <? 224) eqn:?;
       [| destruct s as [| ?a s]; [| destruct (byte_of a <? 240) eqn:?;
          [| destruct s as [| ?a s]]]]]]].

Lemma pieces_joined s : joined (pieces s) = s.
Proof.
  induction s as [s IH] using string_length_ind.
  char_cases s; simpl; repeat case_match; simplify_eq; try done; simpl;
    rewrite IH by (simpl; lia); done.
Qed.

(** A string starts with its first piece, and what follows has the other pieces. *)
Lemma pieces_cons s p l : pieces s = p :: l -> pieces (joined l) = l /\ s = (p ++ joined l)%string.
Proof.
  intros H. assert (exists t, l = pieces t) as [t ->].
  { destruct s as [| a s]; simpl in H; [done |].
    repeat case_match; injection H as <- <-; eauto; by exists EmptyString. }
  rewrite pieces_joined. split; [done |].
  rewrite <- (pieces_joined s), H. simpl. by rewrite pieces_joined.
Qed.

Lemma pieces_suffix l1 s l2 : pieces s = l1 ++ l2 -> pieces (joined l2) = l2.
Proof.
  revert s. induction l1 as [| p l1 IH]; intros s H.
  - simpl in H. by rewrite <- H, pieces_joined.
  - by apply pieces_cons in H as [H _]; apply IH in H.
Qed.

(** A piece that is not the last stays one before any other text. *)
Lemma pieces_first s p q l t : pieces s = p :: q :: l -> pieces (p ++ t)%string = p :: pieces t.
Proof.
  destruct s as [| a s]; simpl; [done |]. intros H.
  repeat case_match; injection H as <- H; try done; simpl; repeat case_match; simplify_eq; done.
Qed.

Lemma pieces_single s p : pieces s = [p] -> s = p.
Proof. intros H. apply pieces_cons in H as [_ ->]. by rewrite append_nil. Qed.

Lemma pieces_prefix l1 s l2 : pieces s = l1 ++ l2 -> pieces (joined l1) = l1.
Proof.
  revert s. induction l1 as [| p l1 IH]; intros s H; [done |].
  change ((p :: l1) ++ l2) with (p :: (l1 ++ l2)) in H.
  pose proof (pieces_cons _ _ _ H) as [Hl Hs]. apply IH in Hl. rewrite joined_cons.
  destruct (l1 ++ l2) as [| q l] eqn:Hq.
  - apply app_eq_nil in Hq as [-> ->]. apply pieces_single in H as Hp. rewrite <- Hp.
    change (joined []) with EmptyString. rewrite append_nil. by rewrite H, Hp.
  - by rewrite (pieces_first _ _ _ _ (joined l1) H), Hl.
Qed.

Lemma skip_while_suffix {A} (p : A -> bool) l : exists l1, l = l1 ++ skip_while p l.
Proof.
  induction l as [| a l [l1 IH]]; [by exists [] |]. simpl. destruct (p a).
  - exists (a :: l1). simpl. by f_equal.
  - by exists [].
Qed.

Lemma skip_end_prefix {A} (p : A -> bool) l : exists l2, l = skip_end p l ++ l2.
Proof.
  unfold skip_end. destruct (skip_while_suffix p (reverse l)) as [l1 H]. exists (reverse l1).
  rewrite <- reverse_app, <- H. by rewrite reverse_involutive.
Qed.

Lemma skip_while_idle {A} (p : A -> bool) l : (forall a, head l = Some a -> p a = false) -> skip_while p l = l.
Proof. intros H. destruct l as [| a l]; [done |]. simpl. by rewrite (H a). Qed.

Lemma skip_while_head {A} (p : A -> bool) l a : head (skip_while p l) = Some a -> p a = false.
Proof.
  induction l as [| b l IH]; simpl; [done |]. destruct (p b) eqn:Hb; [done |]. by intros [= ->].
Qed.

Lemma skip_while_twice {A} (p : A -> bool) l : skip_while p (skip_while p l) = skip_while p l.
Proof. apply skip_while_idle. apply skip_while_head. Qed.

Lemma skip_end_twice {A} (p : A -> bool) l : skip_end p (skip_end p l) = skip_end p l.
Proof. unfold skip_end. by rewrite reverse_involutive, skip_while_twice. Qed.

(** Trimming the end keeps a trimmed start. *)
Lemma skip_both {A} (p : A -> bool) l :
  skip_while p (skip_end p (skip_while p l)) = skip_end p (skip_while p l).
Proof.
  apply skip_while_idle. intros a Ha. apply (skip_while_head p l).
  destruct (skip_end_prefix p (skip_while p l)) as [l2 H]. rewrite H.
  by destruct (skip_end p (skip_while p l)).
Qed.

Lemma pieces_trim_start s : pieces (str_trim_start s) = skip_while blank (pieces s).
Proof.
  unfold str_trim_start. destruct (skip_while_suffix blank (pieces s)) as [l1 H].
  exact (pieces_suffix _ _ _ H).
Qed.

Lemma pieces_trim_end s : pieces (str_trim_end s) = skip_end blank (pieces s).
Proof.
  unfold str_trim_end. destruct (skip_end_prefix blank (pieces s)) as [l2 H].
  exact (pieces_prefix _ _ _ H).
Qed.

Lemma str_trim_twice s : str_trim (str_trim s) = str_trim s.
Proof.
  unfold str_trim at 1 3. unfold str_trim_end at 1 2. f_equal.
  rewrite pieces_trim_start. unfold str_trim. rewrite !pieces_trim_end, pieces_trim_start.
  by rewrite skip_both, skip_end_twice.
Qed.

(** Trimming only shortens. *)
Lemma str_trim_parts s : exists a b, s = (a ++ str_trim s ++ b)%string.
Proof.
  unfold str_trim. destruct (skip_while_suffix blank (pieces s)) as [l1 H1].
  destruct (skip_end_prefix blank (pieces (str_trim_start s))) as [l2 H2].
  exists (joined l1), (joined l2).
  rewrite <- (pieces_joined s) at 1. rewrite H1, joined_app. f_equal.
  rewrite <- (pieces_trim_start s), H2, joined_app. done.
Qed.

Lemma chars_pieces s : chars s = char_of <$> pieces s.
Proof.
  induction s as [s IH] using string_length_ind.
  destruct s as [| a s]; [done |]. cbn [pieces chars]. unfold char_of.
  repeat case_match; cbn [fmap list_fmap]; subst; simpl; repeat case_match; simplify_eq; try done; f_equal;
    apply IH; simpl; lia.
Qed.

Lemma line_count s : length (lines s) = length (split_inclusive s).
Proof. apply length_fmap. Qed.

Lemma split_inclusive_joined s : joined (split_inclusive s) = s.
Proof.
  induction s as [| a s IH]; [done |]. simpl. destruct (Ascii.eqb a newline).
  - by rewrite joined_cons, IH.
  - destruct (split_inclusive s) as [| l ls]; [by rewrite <- IH |].
    rewrite joined_cons in *. by rewrite append_cons, IH.
Qed.

Lemma string_length_app s t : String.length (s ++ t)%string = (String.length s + String.length t)%nat.
Proof. pose proof (len_app s t). unfold len in *. lia. Qed.

Lemma bytes_app s t : bytes (s ++ t)%string = bytes s ++ bytes t.
Proof. induction s as [| a s IH]; [done |]. rewrite append_cons. simpl. by rewrite IH. Qed.

Lemma bytes_length s : length (bytes s) = String.length s.
Proof. pose proof (length_bytes s). unfold len in *. lia. Qed.

Lemma str_take_app s t : str_take (String.length s) (s ++ t)%string = s.
Proof. induction s as [| a s IH]; [by destruct t |]. rewrite append_cons. simpl. by rewrite IH. Qed.

Lemma str_drop_app s t : str_drop (String.length s) (s ++ t)%string = t.
Proof. induction s as [| a s IH]; [by destruct t |]. rewrite append_cons. simpl. apply IH. Qed.

Lemma bytes_string s : string_of_bytes (bytes s) = s.
Proof.
  induction s as [| a s IH]; [done |]. cbn [bytes string_of_bytes fold_right]. f_equal; [| exact IH].
  unfold byte_of. by rewrite N2Z.id, ascii_N_embedding.
Qed.

Lemma len_string_of_bytes l : len (string_of_bytes l) = Z.of_nat (length l).
Proof.
  unfold len. f_equal. induction l as [| b l IH]; [done |].
  change (S (String.length (string_of_bytes l)) = S (length l)). by rewrite IH.
Qed.

Lemma string_of_bytes_bytes l : Forall is_byte l -> bytes (string_of_bytes l) = l.
Proof.
  unfold is_byte. induction 1 as [| b l Hb _ IH]; [done |]. cbn [string_of_bytes fold_right bytes].
  fold (string_of_bytes l). rewrite IH. f_equal. unfold byte_of. rewrite N_ascii_embedding by lia. lia.
Qed.

(** Valid UTF-8 is made of bytes. *)
Lemma valid_utf8_bytes l : valid_utf8 l = true -> Forall is_byte l.
Proof.
  remember (length l) as n eqn:Hn. assert (Hl : (length l <= n)%nat) by lia. clear Hn. revert l Hl.
  induction n as [| n IH]; intros l Hl H; [by destruct l; [constructor | simpl in Hl; lia] |].
  destruct l as [| b l1]; [constructor |]. cbn [valid_utf8] in H. unfold utf8_cont, in_range in H.
  destruct (_ && _) eqn:Hb in H.
  { bool_facts. constructor; [unfold is_byte; lia |]. apply IH; [simpl in Hl; lia | done]. }
  destruct l1 as [| b1 l2]; [done |]. destruct (_ && _) eqn:Hb1 in H.
  { bool_facts. do 2 (constructor; [unfold is_byte; lia |]). apply IH; [simpl in Hl; lia | done]. }
  destruct l2 as [| b2 l3]; [done |]. destruct ((224 <=? b) && _) eqn:Hb2 in H.
  { bool_facts. do 3 (constructor; [unfold is_byte; repeat case_match; lia |]).
    apply IH; [simpl in Hl; lia | done]. }
  destruct l3 as [| b3 l4]; [done |]. bool_facts.
  do 4 (constructor; [unfold is_byte; repeat case_match; lia |]). apply IH; [simpl in Hl; lia | done].
Qed.

(** ** Orders

    [Ordering::then]; comparisons that are total preorders, built from those of
    integers and strings. *)

Definition then_by (c d : comparison) : comparison := match c with Eq => d | _ => c end.

Class TotalPreorder {A} (c : A -> A -> comparison) := {
  compare_opp : forall x y, c y x = CompOpp (c x y);
  compare_le_trans : forall x y z, c x y <> Gt -> c y z <> Gt -> c x z <> Gt;
}.

Lemma compare_lt_trans {A} (c : A -> A -> comparison) `{!TotalPreorder c} x y z :
  c x y = Lt -> c y z <> Gt -> c x z = Lt.
Proof.
  intros Hxy Hyz. destruct (c x z) eqn:Hxz; [| done |].
  - exfalso. apply (compare_le_trans y z x); [done | | by rewrite compare_opp, Hxy].
    by rewrite compare_opp, Hxz.
  - exfalso. by apply (compare_le_trans x y z); rewrite ?Hxy.
Qed.

Lemma compare_trans_lt {A} (c : A -> A -> comparison) `{!TotalPreorder c} x y z :
  c x y <> Gt -> c y z = Lt -> c x z = Lt.
Proof.
  intros Hxy Hyz. destruct (c x z) eqn:Hxz; [| done |].
  - exfalso. apply (compare_le_trans z x y); [by rewrite compare_opp, Hxz | done |].
    by rewrite compare_opp, Hyz.
  - exfalso. by apply (compare_le_trans x y z); rewrite ?Hyz.
Qed.

#[export] Instance compare_Z : TotalPreorder Z.compare.
Proof.
  split; [intros; apply Z.compare_antisym |]. intros x y z. rewrite !Z.compare_le_iff. lia.
Qed.

#[export] Instance compare_Ascii : TotalPreorder Ascii.compare.
Proof.
  unfold Ascii.compare. split; [intros; apply N.compare_antisym |].
  intros x y z. rewrite !N.compare_le_iff. lia.
Qed.

#[export] Instance compare_on {A B} (c : B -> B -> comparison) (f : A -> B) :
  TotalPreorder c -> TotalPreorder (fun x y => c (f x) (f y)).
Proof.
  intros Hc. split; [intros; apply compare_opp |]. intros x y z. apply (compare_le_trans (f x) (f y) (f z)).
Qed.

#[export] Instance compare_flip {A} (c : A -> A -> comparison) :
  TotalPreorder c -> TotalPreorder (fun x y => c y x).
Proof.
  intros Hc. split; [intros; apply compare_opp |].
  intros x y z Hxy Hyz. by apply (compare_le_trans z y x).
Qed.

#[export] Instance compare_then {A} (c d : A -> A -> comparison) :
  TotalPreorder c -> TotalPreorder d -> TotalPreorder (fun x y => then_by (c x y) (d x y)).
Proof.
  intros Hc Hd. split.
  - intros x y. rewrite (compare_opp (c := c) x y), (compare_opp (c := d) x y). by destruct (c x y).
  - intros x y z Hxy Hyz. destruct (c x y) eqn:H1; simpl in Hxy; [| |done].
    + destruct (c y z) eqn:H2; simpl in Hyz; [| | done].
      * destruct (c x z) eqn:H3; simpl; [by apply (compare_le_trans x y z) | done |].
        exfalso. by apply (compare_le_trans (c := c) x y z); rewrite ?H1, ?H2.
      * assert (c x z = Lt) as -> by (apply (compare_trans_lt c x y z); rewrite ?H1; done). done.
    + assert (c x z = Lt) as ->; [| done].
      apply (compare_lt_trans c x y z); [done |]. by destruct (c y z).
Qed.

#[export] Instance compare_String : TotalPreorder String.compare.
Proof.
  split; [intros; apply String.compare_antisym |].
  induction x as [| a x IH]; intros [| b y] [| d z]; try done. simpl. intros Hxy Hyz.
  destruct (Ascii.compare a b) eqn:H1; [| | done].
  - apply Ascii.compare_eq_iff in H1 as ->. destruct (Ascii.compare b d) eqn:H2; [| done | done].
    by apply (IH y z).
  - assert (Ascii.compare a d = Lt) as ->; [| done].
    apply (compare_lt_trans Ascii.compare a b d); [done |]. by destruct (Ascii.compare b d).
Qed.

Lemma leb_compare s t : String.leb s t = true <-> String.compare s t <> Gt.
Proof. unfold String.leb. by destruct (String.compare s t). Qed.

#[export] Instance compare_le_dec {A} (c : A -> A -> comparison) x y : Decision (c x y <> Gt).
Proof. apply _. Defined.

(** Sorting by such a comparison sorts. *)
Lemma compare_total {A} (c : A -> A -> comparison) `{!TotalPreorder c} x y : c x y <> Gt \/ c y x <> Gt.
Proof. rewrite (compare_opp (c := c) x y). destruct (c x y); naive_solver. Qed.

Lemma merge_sort_sorted {A} (c : A -> A -> comparison) `{!TotalPreorder c} (R : relation A)
    `{!RelDecision R} l :
  (forall x y, R x y <-> c x y <> Gt) -> StronglySorted R (merge_sort R l).
Proof.
  intros HR. apply StronglySorted_merge_sort.
  - intros x y z. rewrite !HR. apply compare_le_trans.
  - intros x y. rewrite !HR. apply compare_total. done.
Qed.

(** * What the parsers of the program use of Rust's [str], slices and [FromStr]:
    splitting, ASCII case, unsigned numbers and their decimal form. *)

(** ** Slices of bytes *)

(** [split]: always at least one part. *)
Fixpoint split_on {A} (p : A -> bool) (l : list A) : list (list A) :=
  match l with
  | [] => [[]]
  | a :: l' =>
      if p a then [] :: split_on p l'
      else match split_on p l' with
           | part :: parts => (a :: part) :: parts
           | [] => [[a]]
           end
  end.

(** [iter().position]. *)
Definition position {A} (p : A -> bool) (l : list A) : option nat := fst <$> list_find (fun a => p a = true) l.

Definition is_ascii_whitespace (b : Z) : bool :=
  (b =? 32) || (b =? 9) || (b =? 10) || (b =? 12) || (b =? 13).
Definition lower_byte (b : Z) : Z := if is_ascii_uppercase b then b + 32 else b.
Definition eq_ignore_ascii_case (l m : list Z) : bool := eqb (lower_byte <$> l) (lower_byte <$> m).

(** ** Strings *)

Fixpoint split_char (c : ascii) (s : string) : list string :=
  match s with
  | EmptyString => [EmptyString]
  | String a s' =>
      if Ascii.eqb a c then EmptyString :: split_char c s'
      else match split_char c s' with
           | part :: parts => String a part :: parts
           | [] => [String a EmptyString]
           end
  end.

(** [split_once] and [rsplit_once] at one ASCII character. *)
Fixpoint split_once (c : ascii) (s : string) : option (string * string) :=
  match s with
  | EmptyString => None
  | String a s' =>
      if Ascii.eqb a c then Some (EmptyString, s')
      else '(l, r) ← split_once c s'; Some (String a l, r)
  end.
Fixpoint rsplit_once (c : ascii) (s : string) : option (string * string) :=
  match s with
  | EmptyString => None
  | String a s' =>
      match rsplit_once c s' with
      | Some (l, r) => Some (String a l, r)
      | None => if Ascii.eqb a c then Some (EmptyString, s') else None
      end
  end.

Definition str_eq_ignore_ascii_case (s t : string) : bool := eq_ignore_ascii_case (bytes s) (bytes t).

(** [strip_suffix], [ends_with]. *)
Definition strip_suffix (p s : string) : option string :=
  let n := (String.length s - String.length p)%nat in
  if String.eqb (str_take n s +:+ p) s then Some (str_take n s) else None.
Definition ends_with (p s : string) : bool := is_some (strip_suffix p s).

(** [split_whitespace]: the runs of characters that are not white space. *)
Definition split_whitespace (s : string) : list string :=
  filter (fun t => is_empty t = false) (joined <$> split_on blank (pieces s)).
Definition split_ascii_whitespace (s : string) : list string :=
  filter (fun t => is_empty t = false)
    (string_of_bytes <$> split_on is_ascii_whitespace (bytes s)).

(** ** Unsigned numbers *)

(** The digits of a number of at most [max]. *)
Fixpoint digits_value (max acc : Z) (l : list Z) : option Z :=
  match l with
  | [] => Some acc
  | b :: l' =>
      if is_ascii_digit b
      then let n := acc * 10 + (b - ch "0") in if max <? n then None else digits_value max n l'
      else None
  end.

(** [parse] of an unsigned type: one [+] may come first, and one digit must. *)
Definition parse_unsigned (max : Z) (s : string) : option Z :=
  let l := bytes s in
  let digits := match l with b :: l' => if b =? ch "+" then l' else l | [] => l end in
  match digits with [] => None | _ => digits_value max 0 digits end.
Definition parse_u16 : string -> option Z := parse_unsigned u16_max.
Definition parse_u32 : string -> option Z := parse_unsigned u32_max.
Definition parse_u64 : string -> option Z := parse_unsigned u64_max.

(** The [Display] of an unsigned number. *)
Definition decimal_of (n : Z) : string := pretty (Z.to_N n).

(** ** Lemmas *)

Lemma position_some {A} (p : A -> bool) l i :
  position p l = Some i <->
  exists a, l !! i = Some a /\ p a = true /\ forall j b, l !! j = Some b -> (j < i)%nat -> p b = false.
Proof.
  unfold position. rewrite fmap_Some. split.
  - intros ([j a] & H & ->). apply list_find_Some in H as (H1 & H2 & H3). exists a. split_and!; [done | done |].
    intros k b Hb Hk. specialize (H3 k b Hb Hk). by apply not_true_is_false.
  - intros (a & H1 & H2 & H3). exists (i, a). split; [| done]. apply list_find_Some. split_and!; [done | done |].
    intros k b Hb Hk. rewrite (H3 k b Hb Hk). done.
Qed.

Lemma position_none {A} (p : A -> bool) l : position p l = None <-> forall a, a ∈ l -> p a = false.
Proof.
  unfold position. rewrite fmap_None, list_find_None, Forall_forall.
  split; intros H a Ha; specialize (H a Ha); [by apply not_true_is_false | by rewrite H].
Qed.

(** The first place, as a cut of the list. *)
Lemma position_cut {A} (p : A -> bool) l i : position p l = Some i ->
  exists a l1 l2, l = l1 ++ a :: l2 /\ length l1 = i /\ p a = true /\ Forall (fun b => p b = false) l1.
Proof.
  intros H. apply position_some in H as (a & Hi & Ha & Hb). exists a, (take i l), (drop (S i) l).
  split_and!.
  - by rewrite take_drop_middle.
  - rewrite length_take. apply lookup_lt_Some in Hi. lia.
  - done.
  - apply Forall_forall. intros b Hin. apply list_elem_of_lookup in Hin as [j Hj].
    apply lookup_take_Some in Hj as [Hj Hlt]. by eapply Hb.
Qed.

Lemma position_app {A} (p : A -> bool) l1 a l2 :
  Forall (fun b => p b = false) l1 -> p a = true -> position p (l1 ++ a :: l2) = Some (length l1).
Proof.
  intros H1 Ha. apply position_some. exists a. split_and!; [by apply list_lookup_middle | done |].
  intros j b Hj Hlt. rewrite lookup_app_l in Hj by done.
  rewrite Forall_forall in H1. apply H1. by eapply list_elem_of_lookup_2.
Qed.

Lemma split_on_single {A} (p : A -> bool) l : Forall (fun a => p a = false) l -> split_on p l = [l].
Proof. induction 1 as [| a l Ha _ IH]; [done |]. simpl. by rewrite Ha, IH. Qed.

Lemma split_on_app {A} (p : A -> bool) l a m :
  Forall (fun a => p a = false) l -> p a = true -> split_on p (l ++ a :: m) = l :: split_on p m.
Proof.
  intros Hl Ha. induction Hl as [| b l Hb _ IH]; simpl; [by rewrite Ha |]. by rewrite Hb, IH.
Qed.

Lemma split_on_free {A} (p : A -> bool) l part : part ∈ split_on p l -> Forall (fun a => p a = false) part.
Proof.
  revert part. induction l as [| a l IH]; intros part; simpl.
  - intros ->%list_elem_of_singleton. constructor.
  - destruct (p a) eqn:Ha.
    + intros [-> | H]%elem_of_cons; [constructor | by apply IH].
    + destruct (split_on p l) as [| q qs].
      * intros ->%list_elem_of_singleton. by repeat constructor.
      * intros [-> | H]%elem_of_cons.
        -- constructor; [done |]. apply IH. left.
        -- apply IH. by right.
Qed.

Lemma digits_value_app max acc l m :
  digits_value max acc (l ++ m) = n ← digits_value max acc l; digits_value max n m.
Proof.
  revert acc. induction l as [| b l IH]; intros acc; [done |]. simpl.
  destruct (is_ascii_digit b); [| done]. destruct (max <? _); [done |]. apply IH.
Qed.

(** A number that is read is within the bound. *)
Lemma parse_unsigned_range max s n : parse_unsigned max s = Some n -> 0 <= n <= max \/ max < 0.
Proof.
  assert (Hv : forall l acc, 0 <= acc <= max -> digits_value max acc l = Some n -> 0 <= n <= max).
  { induction l as [| b l IH]; intros acc Hacc; simpl; [by intros [= <-] |].
    destruct (is_ascii_digit b) eqn:Hb; [| done]. destruct (max <? _) eqn:Hm; [done |]. intros H.
    unfold is_ascii_digit, in_range in Hb. apply IH in H; [done |]. change (ch "0") with 48 in *. lia. }
  intros H. destruct (Z_lt_le_dec max 0) as [? | Hmax]; [by right |]. left. unfold parse_unsigned in H.
  destruct (match bytes s with [] => _ | _ => _ end); [done |]. eapply Hv; [| exact H]. lia.
Qed.

Lemma bytes_are_bytes s : Forall is_byte (bytes s).
Proof.
  induction s as [| a s IH]; constructor; [| done]. unfold is_byte, byte_of.
  pose proof (N_ascii_bounded a). lia.
Qed.

(** ** Decimal numbers *)

Definition digit (b : Z) : Prop := 48 <= b <= 57.

Lemma digits_value_digit max acc d l : digit d -> acc * 10 + (d - 48) <= max ->
  digits_value max acc (d :: l) = digits_value max (acc * 10 + (d - 48)) l.
Proof.
  unfold digit. intros Hd Hm. cbn [digits_value]. change (ch "0") with 48.
  replace (is_ascii_digit d) with true by (symmetry; unfold is_ascii_digit, in_range; lia).
  by replace (max <? acc * 10 + (d - 48)) with false by lia.
Qed.

Lemma pretty_char_byte r : (r < 10)%N -> byte_of (pretty_N_char r) = 48 + Z.of_N r.
Proof. intros Hr. assert (r = 0 \/ r = 1 \/ r = 2 \/ r = 3 \/ r = 4 \/ r = 5 \/ r = 6 \/ r = 7 \/ r = 8 \/ r = 9)%N by lia. naive_solver. Qed.

Lemma pretty_go_digits x : forall s, exists l, bytes (pretty_N_go x s) = l ++ bytes s /\ Forall digit l /\
  ((0 < x)%N -> l <> []) /\
  forall acc max, 0 <= acc -> acc * 10 ^ Z.of_nat (length l) + Z.of_N x <= max ->
    digits_value max acc l = Some (acc * 10 ^ Z.of_nat (length l) + Z.of_N x).
Proof.
  induction (N.lt_wf_0 x) as [x _ IH]. intros s.
  destruct (N.eq_dec x 0%N) as [-> | Hx].
  { exists []. rewrite pretty_N_go_0. split_and!; [done | constructor | lia |]. intros acc max _ _. simpl. f_equal. lia. }
  rewrite pretty_N_go_step by lia.
  destruct (IH (x / 10)%N ltac:(apply N.div_lt; lia) (String (pretty_N_char (x mod 10)) s)) as (l & El & Hl & _ & Hv).
  assert (Hr : (x mod 10 < 10)%N) by (apply N.mod_lt; lia).
  assert (Hd : digit (48 + Z.of_N (x mod 10))) by (unfold digit; revert Hr; generalize (x mod 10)%N; lia).
  exists (l ++ [48 + Z.of_N (x mod 10)]). split_and!.
  - rewrite El. cbn [bytes]. rewrite pretty_char_byte by done. by rewrite <- app_assoc.
  - apply Forall_app. split; [done |]. constructor; [exact Hd | constructor].
  - intros _. by destruct l.
  - intros acc max Hacc. rewrite length_app, Nat2Z.inj_add, Z.pow_add_r by lia. simpl (10 ^ Z.of_nat (length [_])).
    set (p := 10 ^ Z.of_nat (length l)) in *. assert (0 < p) by (apply Z.pow_pos_nonneg; lia).
    assert (E : Z.of_N x = 10 * Z.of_N (x / 10) + Z.of_N (x mod 10)).
    { rewrite <- (N2Z.inj_mul 10), <- N2Z.inj_add. f_equal. by apply N.div_mod. }
    unfold digit in Hd. rewrite E. clear El E. revert Hd Hv. generalize (x / 10)%N, (x mod 10)%N. intros q r Hd Hv Hm.
    rewrite digits_value_app, Hv by nia.
    cbn [mbind option_bind]. rewrite digits_value_digit; [| exact Hd | nia].
    cbn [digits_value]. f_equal. nia.
Qed.

Lemma decimal_digits n : 0 <= n -> exists l, bytes (decimal_of n) = l /\ Forall digit l /\ l <> [] /\
  forall max, n <= max -> digits_value max 0 l = Some n.
Proof.
  intros Hn. unfold decimal_of, pretty, pretty_N. case_decide as E.
  - exists [48]. replace n with 0 by lia. split_and!; [done | | done |]; [repeat constructor; unfold digit; lia |].
    intros max Hm. rewrite digits_value_digit; [done | unfold digit; lia | lia].
  - destruct (pretty_go_digits (Z.to_N n) "") as (l & El & Hl & Hne & Hv). exists l.
    rewrite El. cbn [bytes]. rewrite app_nil_r. split_and!; [done | done | apply Hne; lia |].
    intros max Hm. rewrite Hv by lia. f_equal. lia.
Qed.

Lemma parse_decimal max n : 0 <= n <= max -> parse_unsigned max (decimal_of n) = Some n.
Proof.
  intros Hn. destruct (decimal_digits n) as (l & E & Hl & Hne & Hv); [lia |]. unfold parse_unsigned. rewrite E.
  destruct l as [| b l]; [done |]. inversion Hl as [| ? ? Hb _]; subst. unfold digit in Hb.
  replace (b =? ch "+") with false by (change (ch "+") with 43; lia). apply Hv. lia.
Qed.
