(* ===== verification/Encoding.v ===== *)
(** Encodings that other crates do: base64 (the [STANDARD] engine of the base64
    crate) and SHA-256 as lower-case hexadecimal digits, with what is relied
    on of them and concrete functions that have it. *)
From Stdlib Require Import SpecFloat.
From S2P Require Import Prelude Text.

Class Base64 := {
  base64_encode : list Z -> string;
  base64_decode : string -> option (list Z);
}.
(** Encoding writes four characters for every three bytes or less, and
    decoding reads it back. *)
Class Base64Laws `{Base64} := {
  base64_round_trip : forall l, Forall is_byte l -> base64_decode (base64_encode l) = Some l;
  base64_length : forall l, len (base64_encode l) = 4 * ((Z.of_nat (length l) + 2) / 3);
}.

Class Sha256 := { sha256 : list Z -> list Z }.
Class Sha256Laws `{Sha256} := {
  sha256_length : forall l, length (sha256 l) = 32%nat;
  sha256_bytes : forall l, Forall is_byte (sha256 l);
}.

(** ** Hexadecimal digits *)

Definition hex_digit (n : Z) : ascii := ascii_of_N (Z.to_N (if n <? 10 then 48 + n else 87 + n)).
Fixpoint hex (l : list Z) : string :=
  match l with
  | [] => EmptyString
  | b :: l' => String (hex_digit (b / 16)) (String (hex_digit (b mod 16)) (hex l'))
  end.

Definition sha256_hex `{Sha256} (content : list Z) : string := hex (sha256 content).

Definition is_hex (b : Z) : bool := is_ascii_digit b || in_range (ch "a") (ch "f") b.

Lemma hex_length l : len (hex l) = 2 * Z.of_nat (length l).
Proof.
  induction l as [| b l IH]; [done |]. unfold len in *. cbn [hex String.length length]. lia.
Qed.

Lemma hex_digit_ok n : 0 <= n < 16 -> is_hex (byte_of (hex_digit n)) = true.
Proof.
  intros Hn. unfold hex_digit, byte_of. rewrite N_ascii_embedding by (case_match; lia).
  unfold is_hex, is_ascii_digit, in_range. change (ch "a") with 97. change (ch "f") with 102.
  destruct (n <? 10) eqn:He; bool_facts; rewrite Z2N.id by lia; apply orb_true_iff; rewrite !andb_true_iff, !Z.leb_le; lia.
Qed.

Lemma hex_digits l : Forall is_byte l -> forallb is_hex (bytes (hex l)) = true.
Proof.
  unfold is_byte. induction 1 as [| b l Hb _ IH]; [done |]. cbn [hex bytes forallb].
  rewrite !hex_digit_ok, IH; [done | | ].
  - pose proof (Z.mod_pos_bound b 16). lia.
  - split; [apply Z.div_pos; lia | apply Z.div_lt_upper_bound; lia].
Qed.

(** ** Concrete encodings *)

Definition digit64 (n : Z) : ascii :=
  ascii_of_N (Z.to_N (if n <? 26 then 65 + n else if n <? 52 then 71 + n else if n <? 62 then n - 4
                      else if n =? 62 then 43 else 47)).
Definition value64 (a : ascii) : option Z :=
  let b := byte_of a in
  if in_range 65 90 b then Some (b - 65)
  else if in_range 97 122 b then Some (b - 71)
  else if in_range 48 57 b then Some (b + 4)
  else if b =? 43 then Some 62 else if b =? 47 then Some 63 else None.

Fixpoint encode64 (l : list Z) : string :=
  match l with
  | [] => EmptyString
  | [a] => String (digit64 (a / 4)) (String (digit64 (a mod 4 * 16)) "==")
  | [a; b] => String (digit64 (a / 4)) (String (digit64 (a mod 4 * 16 + b / 16)) (String (digit64 (b mod 16 * 4)) "="))
  | a :: b :: c :: l' =>
      String (digit64 (a / 4)) (String (digit64 (a mod 4 * 16 + b / 16))
        (String (digit64 (b mod 16 * 4 + c / 64)) (String (digit64 (c mod 64)) (encode64 l'))))
  end.

Fixpoint decode64 (s : string) : option (list Z) :=
  match s with
  | EmptyString => Some []
  | String a (String b (String c (String d s'))) =>
      x ← value64 a; y ← value64 b;
      if (byte_of c =? 61) && (byte_of d =? 61) && is_empty s'
      then if y mod 16 =? 0 then Some [x * 4 + y / 16] else None
      else
        z ← value64 c;
        if (byte_of d =? 61) && is_empty s'
        then if z mod 4 =? 0 then Some [x * 4 + y / 16; y mod 16 * 16 + z / 4] else None
        else
          w ← value64 d; rest ← decode64 s';
          Some (x * 4 + y / 16 :: y mod 16 * 16 + z / 4 :: z mod 4 * 64 + w :: rest)
  | _ => None
  end.

Definition digit64_ok (n : Z) : bool :=
  eqb (value64 (digit64 n)) (Some n) && negb (byte_of (digit64 n) =? 61).

Lemma digit64_value n : 0 <= n < 64 ->
  value64 (digit64 n) = Some n /\ (byte_of (digit64 n) =? 61) = false.
Proof.
  intros Hn. assert (forallb digit64_ok (seqZ 0 64) = true) as Hall by (vm_compute; reflexivity).
  rewrite forallb_forall in Hall. specialize (Hall n). rewrite <- list_elem_of_In, elem_of_seqZ in Hall.
  specialize (Hall ltac:(lia)). unfold digit64_ok in Hall. apply andb_true_iff in Hall as [Hv Hb]. by apply eqb_eq in Hv; apply negb_true_iff in Hb.
Qed.

Lemma encode64_ind (P : list Z -> Prop) :
  P [] -> (forall a, P [a]) -> (forall a b, P [a; b]) -> (forall a b c l, P l -> P (a :: b :: c :: l)) ->
  forall l, P l.
Proof.
  intros H0 H1 H2 H3. fix IH 1. intros [| a [| b [| c l]]]; [apply H0 | apply H1 | apply H2 | apply H3, IH].
Qed.

Definition standard_base64 : Base64 := {| base64_encode := encode64; base64_decode := decode64 |}.

Lemma encode64_decodes l : Forall is_byte l -> decode64 (encode64 l) = Some l.
Proof.
  unfold is_byte. induction l as [| a | a b | a b c l IH] using encode64_ind; intros Hl; [done | ..];
    repeat (apply Forall_cons in Hl as [? Hl]); cbn [encode64 decode64].
  - destruct (digit64_value (a / 4)) as [-> _]; [Z.to_euclidean_division_equations; lia |].
    destruct (digit64_value (a mod 4 * 16)) as [-> _]; [Z.to_euclidean_division_equations; lia |].
    simpl. replace (a mod 4 * 16) with (16 * (a mod 4)) by lia.
    replace (16 * (a mod 4) mod 16 =? 0) with true by (symmetry; apply Z.eqb_eq; Z.to_euclidean_division_equations; lia).
    do 2 f_equal. Z.to_euclidean_division_equations; lia.
  - destruct (digit64_value (a / 4)) as [-> _]; [Z.to_euclidean_division_equations; lia |].
    destruct (digit64_value (a mod 4 * 16 + b / 16)) as [-> _]; [Z.to_euclidean_division_equations; lia |].
    destruct (digit64_value (b mod 16 * 4)) as [-> ->]; [Z.to_euclidean_division_equations; lia |].
    simpl.
    replace (b mod 16 * 4 mod 4 =? 0) with true by (symmetry; apply Z.eqb_eq; Z.to_euclidean_division_equations; lia).
    do 2 f_equal; [| f_equal]; Z.to_euclidean_division_equations; lia.
  - destruct (digit64_value (a / 4)) as [-> _]; [Z.to_euclidean_division_equations; lia |].
    destruct (digit64_value (a mod 4 * 16 + b / 16)) as [-> _]; [Z.to_euclidean_division_equations; lia |].
    destruct (digit64_value (b mod 16 * 4 + c / 64)) as [-> ->]; [Z.to_euclidean_division_equations; lia |].
    destruct (digit64_value (c mod 64)) as [-> ->]; [Z.to_euclidean_division_equations; lia |].
    simpl. rewrite IH by done. simpl. do 2 f_equal; [| f_equal; [| f_equal]]; Z.to_euclidean_division_equations; lia.
Qed.

Lemma encode64_length l : len (encode64 l) = 4 * ((Z.of_nat (length l) + 2) / 3).
Proof.
  unfold len. induction l as [| a | a b | a b c l IH] using encode64_ind; [done .. |].
  cbn [encode64 String.length length]. rewrite !Nat2Z.inj_succ.
  replace (Z.succ (Z.succ (Z.succ (Z.of_nat (length l)))) + 2) with (Z.of_nat (length l) + 2 + 1 * 3) by lia.
  rewrite Z.div_add by lia. lia.
Qed.

Lemma standard_base64_laws : @Base64Laws standard_base64.
Proof. split; [apply encode64_decodes | apply encode64_length]. Qed.

(** A digest of 32 bytes. *)
Definition checksum : Sha256 :=
  {| sha256 := fun l => replicate 32 (fold_left (fun n b => (n * 31 + b) mod 256) l 7) |}.

Lemma checksum_laws : @Sha256Laws checksum.
Proof.
  split; [done |]. intros l.
  assert (forall z, is_byte z -> is_byte (fold_left (fun n b => (n * 31 + b) mod 256) l z)) as Hl.
  { unfold is_byte. induction l as [| b l IH]; intros z Hz; simpl; [done |]. apply IH. apply Z.mod_pos_bound. lia. }
  exact (Forall_replicate _ 32 _ (Hl 7 ltac:(unfold is_byte; lia))).
Qed.

(** * [f64], as far as the code looks at one: the IEEE 754 values of the Standard
    Library's [SpecFloat], their order, and whether they are finite. A value in
    a record is the one its 64 bits denote. *)

Abbreviation f64 := spec_float.

#[export] Instance f64_eq_dec : EqDecision f64.
Proof. solve_decision. Defined.

(** [is_finite]. *)
Definition is_finite (x : f64) : bool :=
  match x with S754_zero _ | S754_finite _ _ _ => true | _ => false end.

(** [<=], which no NaN takes part in. *)
Definition f64_le (x y : f64) : bool := SFleb x y.

Definition f64_zero : f64 := S754_zero false.
Definition f64_one : f64 := S754_finite false 4503599627370496 (-52).
Definition f64_hundred : f64 := S754_finite false 7036874417766400 (-46).

(** [(lo..=hi).contains(&x)]. *)
Definition f64_contains (lo hi x : f64) : bool := f64_le lo x && f64_le x hi.

Example f64_hundred_is_100 : SFmul 53 1024 f64_hundred f64_one = f64_hundred /\
  SFdiv 53 1024 f64_hundred f64_hundred = f64_one.
Proof. split; vm_compute; reflexivity. Qed.
