(* ===== verification/RemoteCore.v ===== *)
(** [crates/remote-core]: the vocabulary the protocol adapters and the
    transfer crate share. Models [error.rs] (reasons, error values), [entry.rs]
    (paths, operations, capability matrices, object identities), [catalog.rs]
    (the adapter catalog), the deadline and cancellation control of
    [adapter.rs], and the connection state machine of [session.rs].

    A [Uuid] is the 128-bit integer it denotes, the nil one is [0]; the derived
    order on the identifiers is the order of those integers. *)

From S2P Require Import Prelude.

Abbreviation Uuid := Z (only parsing).
Definition is_nil (id : Uuid) : bool := id =? 0.

(** ** error.rs *)

Record SafeReason := { SafeReason_str : string }.
#[export] Instance SafeReason_eq_dec : EqDecision SafeReason.
Proof. solve_decision. Defined.

Inductive SafeReasonError := SafeReason_InvalidLength | SafeReason_InvalidCharacter.

Definition SafeReason_new (value : string) : result SafeReason SafeReasonError :=
  fail_if is_empty value || (96 <? len value) with SafeReason_InvalidLength in
  fail_if negb (forallb (fun b => is_ascii_lowercase b || is_ascii_digit b
                                  || contains b [ch "_"; ch "."; ch "-"]) (bytes value))
    with SafeReason_InvalidCharacter in
  Ok {| SafeReason_str := value |}.

Inductive RemoteErrorKind :=
| EK_Transport | EK_Trust | EK_Authentication | EK_PermissionDenied | EK_NotFound
| EK_Conflict | EK_Unsupported | EK_RateLimited | EK_Timeout | EK_RemoteProtocol
| EK_Cancelled | EK_InvalidInput | EK_SecretStore.
#[export] Instance RemoteErrorKind_eq_dec : EqDecision RemoteErrorKind.
Proof. solve_decision. Defined.

Inductive RemoteOperation :=
| Op_Connect | Op_Disconnect | Op_List | Op_Stat | Op_Read | Op_Write
| Op_CreateDirectory | Op_Rename | Op_Delete | Op_Resume | Op_ResolveSecret
| Op_DeleteSecret.
#[export] Instance RemoteOperation_eq_dec : EqDecision RemoteOperation.
Proof. solve_decision. Defined.

Inductive RetryDisposition := Retry_Never | Retry_Backoff | Retry_Reauthenticate | Retry_UserAction.
#[export] Instance RetryDisposition_eq_dec : EqDecision RetryDisposition.
Proof. solve_decision. Defined.

Definition RetryDisposition_is_retryable (d : RetryDisposition) : bool :=
  match d with Retry_Never => false | _ => true end.

Record RemoteError := {
  err_kind : RemoteErrorKind;
  err_operation : RemoteOperation;
  err_reason : SafeReason;
  err_retry : RetryDisposition;
}.

Definition RemoteError_is_retryable (e : RemoteError) : bool :=
  RetryDisposition_is_retryable (err_retry e).

(** [SafeReason::new(reason).expect("static reason is valid")]: the reasons the
    crate builds are literals, which [static_reason] takes as they are;
    [static_reason_ok] checks a literal. *)
Definition static_reason (reason : string) : SafeReason := {| SafeReason_str := reason |}.
Definition static_reason_ok (reason : string) : bool := is_ok (SafeReason_new reason).

(** ** entry.rs *)

Record RemotePath := { RemotePath_str : string }.
#[export] Instance RemotePath_eq_dec : EqDecision RemotePath.
Proof. solve_decision. Defined.

Inductive RemotePathError := InvalidPath.

Definition RemotePath_new (value : string) : result RemotePath RemotePathError :=
  fail_if is_empty value || (16 * 1024 <? len value) || contains_byte nul value
    with InvalidPath in
  Ok {| RemotePath_str := value |}.

Inductive FileOperation :=
| FileOp_List | FileOp_Stat | FileOp_Read | FileOp_Write | FileOp_CreateDirectory
| FileOp_Rename | FileOp_Delete | FileOp_ResumeRead | FileOp_ResumeWrite
| FileOp_AtomicRename | FileOp_SetPermissions.
#[export] Instance FileOperation_eq_dec : EqDecision FileOperation.
Proof. solve_decision. Defined.

Definition FILE_OPERATIONS : list FileOperation :=
  [FileOp_List; FileOp_Stat; FileOp_Read; FileOp_Write; FileOp_CreateDirectory;
   FileOp_Rename; FileOp_Delete; FileOp_ResumeRead; FileOp_ResumeWrite;
   FileOp_AtomicRename; FileOp_SetPermissions].

Inductive CapabilityStatus := Cap_Supported | Cap_Unsupported (reason : SafeReason).
#[export] Instance CapabilityStatus_eq_dec : EqDecision CapabilityStatus.
Proof. solve_decision. Defined.

Definition CapabilityStatus_is_supported (s : CapabilityStatus) : bool :=
  match s with Cap_Supported => true | Cap_Unsupported _ => false end.

Record OperationCapability := { cap_operation : FileOperation; cap_status : CapabilityStatus }.
#[export] Instance OperationCapability_eq_dec : EqDecision OperationCapability.
Proof. solve_decision. Defined.

Record CapabilityMatrix := { matrix_rows : list OperationCapability }.
#[export] Instance CapabilityMatrix_eq_dec : EqDecision CapabilityMatrix.
Proof. solve_decision. Defined.

Inductive CapabilityMatrixError := Matrix_Missing (op : FileOperation) | Matrix_Duplicate (op : FileOperation).

Definition capability_count (rows : list OperationCapability) (op : FileOperation) : nat :=
  length (List.filter (fun c => eqb (cap_operation c) op) rows).

Definition CapabilityMatrix_complete (rows : list OperationCapability)
  : result CapabilityMatrix CapabilityMatrixError :=
  result_bind
    (try_for_each (fun op => match capability_count rows op with
                             | O => Err (Matrix_Missing op)
                             | S O => Ok tt
                             | S (S _) => Err (Matrix_Duplicate op)
                             end) FILE_OPERATIONS)
    (fun _ => Ok {| matrix_rows := rows |}).

(** [None] is the panic of [expect("complete capability matrix invariant")]. *)
Definition CapabilityMatrix_status (m : CapabilityMatrix) (op : FileOperation)
  : option CapabilityStatus :=
  option_map cap_status (List.find (fun c => eqb (cap_operation c) op) (matrix_rows m)).

Record ObjectIdentity := {
  size_bytes : option Z;
  modified_at_unix_ms : option Z;
  etag : option string;
}.
#[export] Instance ObjectIdentity_eq_dec : EqDecision ObjectIdentity.
Proof. solve_decision. Defined.

(** ** catalog.rs *)

Inductive RemoteProtocol := Ssh | Sftp | Ftp | FtpsExplicit | Smb.
#[export] Instance RemoteProtocol_eq_dec : EqDecision RemoteProtocol.
Proof. solve_decision. Defined.

Definition default_port (p : RemoteProtocol) : Z :=
  match p with Ssh | Sftp => 22 | Ftp | FtpsExplicit => 21 | Smb => 445 end.

Definition REMOTE_CATALOG_SCHEMA_VERSION : Z := 1.
Definition REMOTE_PROTOCOLS : list RemoteProtocol := [Ssh; Sftp; Ftp; FtpsExplicit; Smb].

Inductive AdapterAvailability :=
| Avail_Healthy
| Avail_Degraded (reason : SafeReason)
| Avail_Unsupported (reason : SafeReason)
| Avail_Unreachable (reason : SafeReason).

Record RemoteAdapterDescriptor := {
  adapter_protocol : RemoteProtocol;
  adapter_availability : AdapterAvailability;
  adapter_terminal : CapabilityStatus;
  adapter_file_operations : CapabilityMatrix;
}.

Record RemoteAdapterCatalog := {
  catalog_schema_version : Z;
  snapshot_id : Uuid;
  captured_at_unix_ms : Z;
  adapters : list RemoteAdapterDescriptor;
}.

Definition RemoteAdapterCatalog_new (snapshot : Uuid) (captured : Z)
    (rows : list RemoteAdapterDescriptor) : RemoteAdapterCatalog :=
  {| catalog_schema_version := REMOTE_CATALOG_SCHEMA_VERSION;
     snapshot_id := snapshot; captured_at_unix_ms := captured; adapters := rows |}.

(** A [HashSet] collected from a list: its size is that of the list without
    repetitions. *)
Definition RemoteAdapterCatalog_validate (c : RemoteAdapterCatalog) : result unit string :=
  fail_if negb (catalog_schema_version c =? REMOTE_CATALOG_SCHEMA_VERSION)
    with "remote_catalog_schema_unsupported"%string in
  fail_if is_nil (snapshot_id c) with "remote_catalog_snapshot_id_nil"%string in
  fail_if captured_at_unix_ms c <? 0 with "remote_catalog_capture_time_invalid"%string in
  fail_if negb (Nat.eqb (length (adapters c)) (length REMOTE_PROTOCOLS))
    with "remote_catalog_protocol_set_incomplete"%string in
  let protocols := remove_dups (adapter_protocol <$> adapters c) in
  fail_if negb (Nat.eqb (length protocols) (length REMOTE_PROTOCOLS))
          || existsb (fun p => negb (contains p protocols)) REMOTE_PROTOCOLS
    with "remote_catalog_protocol_set_invalid"%string in
  Ok tt.

Definition unsupported_file_capabilities (reason : SafeReason)
  : result CapabilityMatrix CapabilityMatrixError :=
  CapabilityMatrix_complete
    ((fun op => {| cap_operation := op; cap_status := Cap_Unsupported reason |}) <$> FILE_OPERATIONS).

(** ** adapter.rs: deadlines and cancellation

    The [Arc<AtomicBool>] of a control is a flag of a shared store [flags], the
    set of the flags that were set; a control derived by [with_deadline] names
    the same flag. [Instant]s are integers (nanoseconds). *)

Definition MAX_REMOTE_CHUNK_BYTES : Z := 1024 * 1024.

Inductive RemoteIoControlSupport := Io_Supported | Io_Unsupported (reason : SafeReason).

Record RemoteIoControl := { control_deadline : Z; control_flag : nat }.

Definition RemoteIoControl_with_deadline (c : RemoteIoControl) (deadline : Z) : RemoteIoControl :=
  {| control_deadline := Z.min deadline (control_deadline c); control_flag := control_flag c |}.

Definition RemoteIoControl_cancel (c : RemoteIoControl) (flags : gset nat) : gset nat :=
  {[ control_flag c ]} ∪ flags.

Definition RemoteIoControl_is_cancelled (c : RemoteIoControl) (flags : gset nat) : bool :=
  bool_decide (control_flag c ∈ flags).

Definition RemoteIoControl_check (c : RemoteIoControl) (flags : gset nat) (now : Z)
    (operation : RemoteOperation) : result unit RemoteError :=
  fail_if RemoteIoControl_is_cancelled c flags
    with {| err_kind := EK_Cancelled; err_operation := operation;
            err_reason := static_reason "remote_io_cancelled"; err_retry := Retry_Never |} in
  fail_if control_deadline c <=? now
    with {| err_kind := EK_Timeout; err_operation := operation;
            err_reason := static_reason "remote_io_deadline_elapsed"; err_retry := Retry_Backoff |} in
  Ok tt.

Record RemoteReadRequest := {
  read_path : RemotePath;
  read_offset : Z;
  read_max_bytes : Z;
  read_expected_identity : option ObjectIdentity;
}.

Definition RemoteReadRequest_is_bounded (r : RemoteReadRequest) : bool :=
  (0 <? read_max_bytes r) && (read_max_bytes r <=? MAX_REMOTE_CHUNK_BYTES).

Record RemoteReadChunk := {
  chunk_offset : Z;
  chunk_bytes : list Z;
  chunk_eof : bool;
  chunk_identity : ObjectIdentity;
}.

Record BeginWriteRequest := {
  begin_final_path : RemotePath;
  begin_temporary_path : RemotePath;
  begin_expected_size_bytes : option Z;
  begin_resume_from : option Z;
  begin_expected_destination : option ObjectIdentity;
}.

Record RemoteWriteReceipt := {
  receipt_handle : Uuid;
  receipt_next_offset : Z;
  receipt_identity : option ObjectIdentity;
}.

(** ** session.rs: the connection state machine *)

Inductive ConnectionStateKind :=
| CK_Disconnected | CK_Connecting | CK_Authenticating | CK_Ready | CK_Degraded
| CK_Reconnecting | CK_Closing | CK_Unsupported | CK_Unreachable.
#[export] Instance ConnectionStateKind_eq_dec : EqDecision ConnectionStateKind.
Proof. solve_decision. Defined.

Inductive ConnectionState :=
| Disconnected
| Connecting
| Authenticating
| Ready
| Degraded (reason : SafeReason)
| Reconnecting (attempt : Z)
| Closing
| ConnUnsupported (reason : SafeReason)
| Unreachable (reason : SafeReason).
#[export] Instance ConnectionState_eq_dec : EqDecision ConnectionState.
Proof. solve_decision. Defined.

Definition ConnectionState_kind (s : ConnectionState) : ConnectionStateKind :=
  match s with
  | Disconnected => CK_Disconnected
  | Connecting => CK_Connecting
  | Authenticating => CK_Authenticating
  | Ready => CK_Ready
  | Degraded _ => CK_Degraded
  | Reconnecting _ => CK_Reconnecting
  | Closing => CK_Closing
  | ConnUnsupported _ => CK_Unsupported
  | Unreachable _ => CK_Unreachable
  end.

Definition can_transition_to (s s' : ConnectionState) : bool :=
  let current := ConnectionState_kind s in
  let next := ConnectionState_kind s' in
  if eqb current next then true
  else match current, next with
  | CK_Disconnected, CK_Connecting
  | CK_Connecting, CK_Authenticating
  | CK_Connecting, CK_Ready
  | CK_Connecting, CK_Degraded
  | CK_Connecting, CK_Unsupported
  | CK_Connecting, CK_Unreachable
  | CK_Authenticating, CK_Ready
  | CK_Authenticating, CK_Degraded
  | CK_Authenticating, CK_Unreachable
  | CK_Ready, CK_Degraded
  | CK_Ready, CK_Reconnecting
  | CK_Ready, CK_Closing
  | CK_Degraded, CK_Ready
  | CK_Degraded, CK_Reconnecting
  | CK_Degraded, CK_Closing
  | CK_Reconnecting, CK_Connecting
  | CK_Reconnecting, CK_Ready
  | CK_Reconnecting, CK_Degraded
  | CK_Reconnecting, CK_Unreachable
  | CK_Unreachable, CK_Reconnecting
  | _, CK_Closing
  | CK_Closing, CK_Disconnected
  | CK_Unsupported, CK_Disconnected
  | CK_Unreachable, CK_Disconnected => true
  | _, _ => false
  end.

Record RemoteSession := {
  session_id : Uuid;
  session_profile_id : Uuid;
  session_protocol : RemoteProtocol;
  session_state : ConnectionState;
  session_capabilities : CapabilityMatrix;
  session_opened_at_unix_ms : Z;
  session_updated_at_unix_ms : Z;
}.

Inductive SessionTransitionError :=
| InvalidTransition (from to : ConnectionStateKind)
| SessionTimestampRegressed.

Definition session_set (next : ConnectionState) (at_unix_ms : Z) (s : RemoteSession) : RemoteSession :=
  {| session_id := session_id s; session_profile_id := session_profile_id s;
     session_protocol := session_protocol s; session_state := next;
     session_capabilities := session_capabilities s;
     session_opened_at_unix_ms := session_opened_at_unix_ms s;
     session_updated_at_unix_ms := at_unix_ms |}.

Definition RemoteSession_transition (next : ConnectionState) (at_unix_ms : Z)
  : mut RemoteSession bool SessionTransitionError :=
  fun s =>
    if at_unix_ms <? session_updated_at_unix_ms s then (s, Err SessionTimestampRegressed)
    else if negb (can_transition_to (session_state s) next)
    then (s, Err (InvalidTransition (ConnectionState_kind (session_state s))
                                    (ConnectionState_kind next)))
    else if eqb (session_state s) next then (s, Ok false)
    else (session_set next at_unix_ms s, Ok true).

(** * [crates/remote-core/src/profile.rs] and the command half of [session.rs]:
    connection profiles, secrets, profile pages, and the commands and results
    that cross the process boundary with their validators. *)

Abbreviation ProfileId := Z (only parsing).
Abbreviation SessionId := Z (only parsing).

(** ** profile.rs *)

Inductive ProfileValidationError :=
| InvalidLabel | InvalidHost | InvalidPort | InvalidUsername | InvalidDomain
| ProtocolOptionsMismatch | TrustPolicyMismatch | InvalidPinnedTlsCertificate
| InvalidTimestamp | InvalidPageLimit | InvalidPage | InvalidRevision | InvalidResult
| InvalidSecretInput | AuthenticationMismatch.

Record RemoteEndpoint := { endpoint_host : string; endpoint_port : Z }.

Definition RemoteEndpoint_new (host : string) (port : Z) : result RemoteEndpoint ProfileValidationError :=
  fail_if is_empty host || (255 <? len host) with InvalidHost in
  fail_if existsb (fun c => is_control c || is_whitespace c
                            || contains c [ch "/"; ch "\"; ch "@"]) (chars host)
          || contains_str "://" host
    with InvalidHost in
  fail_if port =? 0 with InvalidPort in
  Ok {| endpoint_host := host; endpoint_port := port |}.

Inductive SecretBackend := SecretService.
#[export] Instance SecretBackend_eq_dec : EqDecision SecretBackend.
Proof. solve_decision. Defined.

Record SecretRef := { secret_backend : SecretBackend; secret_item_id : Uuid }.

Definition MAX_SECRET_INPUT_BYTES : Z := 8 * 1024.

Inductive SecretKind := Password | PrivateKey | KeyPassphrase.

Record SecretInput := { secret_bytes : list Z }.

Definition SecretInput_new (value : list Z) : result SecretInput ProfileValidationError :=
  fail_if Nat.eqb (length value) 0 || (MAX_SECRET_INPUT_BYTES <? Z.of_nat (length value))
    with InvalidSecretInput in
  Ok {| secret_bytes := value |}.

Inductive SecretCommand :=
| Secret_Store (kind : SecretKind) (value : SecretInput)
| Secret_Delete (reference : SecretRef).

Inductive SecretCommandResult :=
| Secret_Stored (reference : SecretRef)
| Secret_Deleted.

Definition SecretCommand_validate (c : SecretCommand) : result unit ProfileValidationError :=
  match c with
  | Secret_Store _ value =>
      fail_if Nat.eqb (length (secret_bytes value)) 0
              || (MAX_SECRET_INPUT_BYTES <? Z.of_nat (length (secret_bytes value)))
        with InvalidSecretInput in
      Ok tt
  | Secret_Delete _ => Ok tt
  end.

Definition SecretCommandResult_validate_for (r : SecretCommandResult) (c : SecretCommand)
  : result unit ProfileValidationError :=
  match r, c with
  | Secret_Stored reference, Secret_Store _ _ =>
      if eqb (secret_backend reference) SecretService then Ok tt else Err InvalidResult
  | Secret_Deleted, Secret_Delete _ => Ok tt
  | _, _ => Err InvalidResult
  end.

Inductive Authentication :=
| Anonymous
| Auth_Password (secret : SecretRef)
| SshAgent
| SshKey (private_key : SecretRef) (passphrase : option SecretRef)
| Kerberos.

Inductive FirstUsePolicy := Reject | AskUser.

Inductive TrustPolicy :=
| SshKnownHosts (first_use : FirstUsePolicy)
| SystemTls
| PinnedTlsCertificate (certificate_pem : string)
| PlaintextAcknowledged
| SmbNegotiated.

Definition MAX_PINNED_TLS_CERTIFICATE_BYTES : Z := 16 * 1024.

Inductive DataConnectionMode := Passive | ActiveRestricted.
Inductive SmbDialect := Smb2 | Smb3.

Inductive ProfileOptions :=
| Options_Ssh (jump_profiles : list ProfileId) (agent_forwarding : bool)
| Options_Sftp (jump_profiles : list ProfileId)
| Options_Ftp (data_connection : DataConnectionMode)
| Options_FtpsExplicit (data_connection : DataConnectionMode) (require_protected_data_channel : bool)
| Options_Smb (share : option string) (minimum_dialect : SmbDialect)
    (require_signing require_encryption : bool).

Definition ProfileOptions_protocol (o : ProfileOptions) : RemoteProtocol :=
  match o with
  | Options_Ssh _ _ => Ssh
  | Options_Sftp _ => Sftp
  | Options_Ftp _ => Ftp
  | Options_FtpsExplicit _ _ => FtpsExplicit
  | Options_Smb _ _ _ _ => Smb
  end.

Record RemoteConnectionProfile := {
  profile_id : ProfileId;
  profile_label : string;
  profile_protocol : RemoteProtocol;
  profile_endpoint : RemoteEndpoint;
  profile_username : option string;
  profile_domain : option string;
  profile_authentication : Authentication;
  profile_trust : TrustPolicy;
  profile_options : ProfileOptions;
}.

Definition validate_display_field (value : string) (max_bytes : Z) (error : ProfileValidationError)
  : result unit ProfileValidationError :=
  fail_if is_empty value || (max_bytes <? len value) || any_control value with error in
  Ok tt.

(** [trim_end] drops the trailing White_Space characters. *)
Fixpoint drop_while (p : Z -> bool) (l : list Z) : list Z :=
  match l with
  | c :: l' => if p c then drop_while p l' else l
  | [] => []
  end.
Definition trim_end (l : list Z) : list Z := reverse (drop_while is_whitespace (reverse l)).
Definition ends_with (suffix l : list Z) : bool :=
  (Nat.leb (length suffix) (length l)) && eqb (drop (length l - length suffix) l) suffix.

Definition pem_begin : string := "-----BEGIN CERTIFICATE-----".
Definition pem_end : string := "-----END CERTIFICATE-----".
Definition pem_char (c : Z) : bool :=
  is_ascii_alphanumeric c || contains c [ch "+"; ch "/"; ch "="; ch "-"; ch " "; 13; 10].

Definition validate_pinned_tls_certificate (value : string) : result unit ProfileValidationError :=
  fail_if (MAX_PINNED_TLS_CERTIFICATE_BYTES <? len value)
          || negb (starts_with pem_begin value)
          || negb (ends_with (chars pem_end) (trim_end (chars value)))
          || negb (count_matches pem_begin value =? 1)
          || negb (count_matches pem_end value =? 1)
          || existsb (fun c => negb (pem_char c)) (chars value)
    with InvalidPinnedTlsCertificate in
  Ok tt.

Definition trust_fits (p : RemoteProtocol) (t : TrustPolicy) : bool :=
  match p, t with
  | (Ssh | Sftp), SshKnownHosts _
  | Ftp, PlaintextAcknowledged
  | FtpsExplicit, (SystemTls | PinnedTlsCertificate _)
  | Smb, SmbNegotiated => true
  | _, _ => false
  end.

Definition authentication_fits (p : RemoteProtocol) (a : Authentication) : bool :=
  match p, a with
  | (Ssh | Sftp), (SshAgent | SshKey _ _ | Auth_Password _)
  | (Ftp | FtpsExplicit), (Anonymous | Auth_Password _)
  | Smb, (Auth_Password _ | Kerberos) => true
  | _, _ => false
  end.

Definition validate_optional_field (value : option string) (max_bytes : Z)
    (error : ProfileValidationError) : result unit ProfileValidationError :=
  match value with
  | Some v => validate_display_field v max_bytes error
  | None => Ok tt
  end.

Definition RemoteConnectionProfile_validate (p : RemoteConnectionProfile)
  : result unit ProfileValidationError :=
  let? _ := validate_display_field (profile_label p) 128 InvalidLabel in
  let? _ := validate_optional_field (profile_username p) 256 InvalidUsername in
  let? _ := validate_optional_field (profile_domain p) 255 InvalidDomain in
  fail_if negb (eqb (profile_protocol p) (ProfileOptions_protocol (profile_options p)))
    with ProtocolOptionsMismatch in
  fail_if negb (trust_fits (profile_protocol p) (profile_trust p)) with TrustPolicyMismatch in
  let? _ := match profile_trust p with
            | PinnedTlsCertificate pem => validate_pinned_tls_certificate pem
            | _ => Ok tt
            end in
  fail_if negb (authentication_fits (profile_protocol p) (profile_authentication p))
    with AuthenticationMismatch in
  Ok tt.

Definition RemoteConnectionProfile_new (p : RemoteConnectionProfile)
  : result RemoteConnectionProfile ProfileValidationError :=
  let? _ := RemoteConnectionProfile_validate p in Ok p.

Definition MAX_REMOTE_PROFILE_PAGE_SIZE : Z := 16.

Record StoredRemoteProfile := {
  stored_profile : RemoteConnectionProfile;
  stored_revision : Z;
  stored_created_at_unix_ms : Z;
  stored_updated_at_unix_ms : Z;
}.

Definition StoredRemoteProfile_validate (s : StoredRemoteProfile) : result unit ProfileValidationError :=
  let? _ := RemoteConnectionProfile_validate (stored_profile s) in
  fail_if (stored_created_at_unix_ms s <? 0)
          || (stored_updated_at_unix_ms s <? stored_created_at_unix_ms s)
    with InvalidTimestamp in
  Ok tt.

Record RemoteProfilePageQuery := { query_after : option ProfileId; query_limit : Z }.

Definition RemoteProfilePageQuery_validate (q : RemoteProfilePageQuery)
  : result unit ProfileValidationError :=
  fail_if (query_limit q =? 0) || (MAX_REMOTE_PROFILE_PAGE_SIZE <? query_limit q)
    with InvalidPageLimit in
  Ok tt.

Record RemoteProfilePage := { profiles : list StoredRemoteProfile; next_after : option ProfileId }.

Definition stored_id (s : StoredRemoteProfile) : ProfileId := profile_id (stored_profile s).

Definition RemoteProfilePage_validate (page : RemoteProfilePage) (q : RemoteProfilePageQuery)
  : result unit ProfileValidationError :=
  let? _ := RemoteProfilePageQuery_validate q in
  fail_if (query_limit q <? Z.of_nat (length (profiles page)))
          || windows2_any (fun a b => stored_id b <=? stored_id a) (profiles page)
          || existsb (fun s => is_err (StoredRemoteProfile_validate s)) (profiles page)
          || is_some_and (fun after => is_some_and (fun s => stored_id s <=? after)
                                         (head (profiles page)))
               (query_after q)
          || is_some_and (fun next => is_none_or (fun s => negb (stored_id s =? next))
                                        (last (profiles page)))
               (next_after page)
    with InvalidPage in
  Ok tt.

Inductive RemoteProfileCommand :=
| Profile_List (query : RemoteProfilePageQuery)
| Profile_Upsert (profile : RemoteConnectionProfile) (expected_revision : option Z)
| Profile_Delete (id : ProfileId) (expected_revision : Z).

Inductive RemoteProfileResult :=
| Profile_Page (page : RemoteProfilePage)
| Profile_Stored (stored : StoredRemoteProfile)
| Profile_Deleted (id : ProfileId).

Definition RemoteProfileCommand_validate (c : RemoteProfileCommand)
  : result unit ProfileValidationError :=
  match c with
  | Profile_List query => RemoteProfilePageQuery_validate query
  | Profile_Upsert profile expected =>
      let? _ := RemoteConnectionProfile_validate profile in
      fail_if eqb expected (Some u64_max) with InvalidRevision in
      Ok tt
  | Profile_Delete _ _ => Ok tt
  end.

(** [revision + 1] wraps in a build without overflow checks. *)
Definition next_revision (expected : option Z) : Z :=
  match expected with Some revision => (revision + 1) mod (u64_max + 1) | None => 0 end.

Definition RemoteProfileResult_validate_for (r : RemoteProfileResult) (c : RemoteProfileCommand)
  : result unit ProfileValidationError :=
  match r, c with
  | Profile_Page page, Profile_List query => RemoteProfilePage_validate page query
  | Profile_Stored stored, Profile_Upsert profile expected =>
      let? _ := StoredRemoteProfile_validate stored in
      fail_if negb (stored_id stored =? profile_id profile)
              || negb (stored_revision stored =? next_revision expected)
        with InvalidResult in
      Ok tt
  | Profile_Deleted id, Profile_Delete requested _ =>
      if id =? requested then Ok tt else Err InvalidResult
  | _, _ => Err InvalidResult
  end.

(** ** session.rs: directory pages, session commands and results *)

Inductive EntryKind := File | Directory | Symlink | OtherEntry.

Record RemoteEntry := {
  entry_name : string;
  entry_path : RemotePath;
  entry_kind : EntryKind;
  entry_identity : ObjectIdentity;
  entry_unix_mode : option Z;
  entry_capabilities : CapabilityMatrix;
}.

Inductive SessionCommandError := Session_InvalidPageLimit | Session_InvalidResult.

Definition MAX_REMOTE_DIRECTORY_PAGE_SIZE : Z := 2.

Record RemoteDirectoryQuery := {
  dirq_session_id : SessionId;
  dirq_path : RemotePath;
  dirq_offset : Z;
  dirq_limit : Z;
}.

Definition RemoteDirectoryQuery_validate (q : RemoteDirectoryQuery) : result unit SessionCommandError :=
  fail_if (dirq_limit q =? 0) || (MAX_REMOTE_DIRECTORY_PAGE_SIZE <? dirq_limit q)
    with Session_InvalidPageLimit in
  Ok tt.

Record RemoteDirectoryPage := {
  dir_session_id : SessionId;
  dir_path : RemotePath;
  dir_offset : Z;
  dir_entries : list RemoteEntry;
  dir_next_offset : option Z;
}.

Inductive RemoteSessionCommand :=
| Cmd_Connect (profile : ProfileId)
| Cmd_Disconnect (session : SessionId)
| Cmd_List (query : RemoteDirectoryQuery)
| Cmd_Stat (session : SessionId) (path : RemotePath)
| Cmd_CreateDirectory (session : SessionId) (path : RemotePath)
| Cmd_Rename (session : SessionId) (from to : RemotePath)
| Cmd_Delete (session : SessionId) (path : RemotePath).

Definition RemoteSessionCommand_validate (c : RemoteSessionCommand) : result unit SessionCommandError :=
  match c with
  | Cmd_List query => RemoteDirectoryQuery_validate query
  | _ => Ok tt
  end.

Inductive RemoteSessionResult :=
| Res_Session (session : RemoteSession)
| Res_DirectoryPage (page : RemoteDirectoryPage)
| Res_Entry (entry : RemoteEntry)
| Res_Deleted (session : SessionId)
| Res_Disconnected (session : SessionId).

(** [u32::try_from(len).unwrap_or(u32::MAX)] and [u32::saturating_add]. *)
Definition next_directory_offset (offset : Z) (entries : nat) : Z :=
  Z.min u32_max (offset + Z.min u32_max (Z.of_nat entries)).

Definition RemoteSessionResult_validate_for (r : RemoteSessionResult) (c : RemoteSessionCommand)
  : result unit SessionCommandError :=
  let accept (b : bool) := if b then Ok tt else Err Session_InvalidResult in
  match r, c with
  | Res_Session session, Cmd_Connect profile => accept (session_profile_id session =? profile)
  | Res_Disconnected session, Cmd_Disconnect requested => accept (session =? requested)
  | Res_DirectoryPage page, Cmd_List query =>
      let? _ := RemoteDirectoryQuery_validate query in
      fail_if negb (dir_session_id page =? dirq_session_id query)
              || negb (eqb (dir_path page) (dirq_path query))
              || negb (dir_offset page =? dirq_offset query)
              || (dirq_limit query <? Z.of_nat (length (dir_entries page)))
              || is_some_and (fun next => negb (next =? next_directory_offset (dirq_offset query)
                                                          (length (dir_entries page))))
                   (dir_next_offset page)
        with Session_InvalidResult in
      Ok tt
  | Res_Entry entry, (Cmd_Stat _ path | Cmd_CreateDirectory _ path) =>
      accept (eqb (entry_path entry) path)
  | Res_Entry entry, Cmd_Rename _ _ to => accept (eqb (entry_path entry) to)
  | Res_Deleted session, Cmd_Delete requested _ => accept (session =? requested)
  | _, _ => Err Session_InvalidResult
  end.
