(* ===== verification/RemoteFacts.v ===== *)
(** Properties of the remote vocabulary: validated values, capability matrices
    and catalogs, cancellation, the connection state machine, profile pages. *)
From S2P Require Import Prelude RemoteCore.

(** ** Capability matrices *)

Definition operation_once (rows : list OperationCapability) (op : FileOperation) : Prop :=
  exists st, List.filter (fun c => eqb (cap_operation c) op) rows = [{| cap_operation := op; cap_status := st |}].

Lemma capability_count_one rows op :
  capability_count rows op = 1%nat <-> operation_once rows op.
Proof.
  unfold capability_count, operation_once. split.
  - destruct (List.filter _ rows) as [| [o st] [| ? ?]] eqn:Hf; try discriminate. intros _.
    assert (List.In {| cap_operation := o; cap_status := st |}
              (List.filter (fun c => eqb (cap_operation c) op) rows)) as Hin by (rewrite Hf; by left).
    apply filter_In in Hin as [_ Ho]. simpl in Ho. apply eqb_eq in Ho as ->. eauto.
  - intros [st ->]. done.
Qed.

Lemma FILE_OPERATIONS_all op : op ∈ FILE_OPERATIONS.
Proof. apply (contains_true op FILE_OPERATIONS). by destruct op. Qed.

Lemma find_filter {A} (p : A -> bool) l : List.find p l = head (List.filter p l).
Proof. induction l as [| a l IH]; simpl; [done |]. by destruct (p a). Qed.

(** [CapabilityMatrix::complete] accepts exactly the row lists that hold
    every file operation once, and hands back the rows it was given; on an
    accepted matrix [status] never hits its panic and answers the status of the
    one row of the operation. *)
Theorem complete_matrix_exact rows m :
  CapabilityMatrix_complete rows = Ok m <->
  m = {| matrix_rows := rows |} /\
  forall op, exists st,
    List.filter (fun c => eqb (cap_operation c) op) rows = [{| cap_operation := op; cap_status := st |}]
    /\ CapabilityMatrix_status m op = Some st.
Proof.
  unfold CapabilityMatrix_complete. rewrite result_bind_ok. split.
  - intros ([] & H & [= <-]). split; [done |]. intros op.
    rewrite try_for_each_ok, Forall_forall in H.
    specialize (H op (FILE_OPERATIONS_all op)).
    assert (operation_once rows op) as [st Hst].
    { apply capability_count_one. by destruct (capability_count rows op) as [| [| n]]. }
    exists st. split; [done |]. unfold CapabilityMatrix_status. simpl.
    by rewrite find_filter, Hst.
  - intros [-> H]. exists tt. split; [| done]. apply try_for_each_ok, Forall_forall. intros op _.
    destruct (H op) as (st & Hst & _).
    by rewrite (proj2 (capability_count_one rows op)) by (by exists st).
Qed.

Lemma REMOTE_PROTOCOLS_NoDup : NoDup REMOTE_PROTOCOLS.
Proof. apply (bool_decide_unpack _). by vm_compute. Qed.

Lemma REMOTE_PROTOCOLS_all p : p ∈ REMOTE_PROTOCOLS.
Proof. apply (contains_true p REMOTE_PROTOCOLS). by destruct p. Qed.

(** an adapter catalog validates exactly when its version and ids are
    right and its adapters are the five protocols, each once, in some order. *)
Theorem catalog_validate_exact c :
  RemoteAdapterCatalog_validate c = Ok tt <->
  catalog_schema_version c = REMOTE_CATALOG_SCHEMA_VERSION /\ snapshot_id c <> 0
  /\ 0 <= captured_at_unix_ms c /\ adapter_protocol <$> adapters c ≡ₚ REMOTE_PROTOCOLS.
Proof.
  unfold RemoteAdapterCatalog_validate, is_nil.
  set (ps := adapter_protocol <$> adapters c).
  assert (Hlen : length (adapters c) = length ps) by (subst ps; by rewrite length_fmap).
  rewrite Hlen. clearbody ps. split.
  - intros H. bool_facts.
    match goal with H : existsb _ _ = false |- _ => rename H into Hall end.
    match goal with H : Nat.eqb (length (remove_dups ps)) _ = true |- _ => apply Nat.eqb_eq in H end.
    match goal with H : Nat.eqb (length ps) _ = true |- _ => apply Nat.eqb_eq in H end.
    split_and!; try done; try lia.
    assert (REMOTE_PROTOCOLS ⊆+ ps) as Hsub.
    { apply NoDup_submseteq; [apply REMOTE_PROTOCOLS_NoDup |]. intros p Hp.
      apply elem_of_remove_dups, contains_true, negb_false_iff.
      destruct (negb _) eqn:Hn; [| done]. rewrite <- Hall. symmetry. apply existsb_exists.
      exists p. split; [by apply list_elem_of_In | done]. }
    symmetry. apply submseteq_length_Permutation; [done | lia].
  - intros (Hv & Hs & Ht & Hp).
    rewrite (proj2 (Z.eqb_eq _ _) Hv), (proj2 (Z.eqb_neq _ _) Hs), (proj2 (Z.ltb_ge _ _) Ht). simpl.
    assert (NoDup ps) as Hnd by (rewrite Hp; apply REMOTE_PROTOCOLS_NoDup).
    rewrite (Permutation_length Hp). simpl.
    replace (length (remove_dups ps)) with 5%nat.
    2:{ symmetry. transitivity (length REMOTE_PROTOCOLS); [| done]. rewrite <- Hp.
        apply Permutation_length, NoDup_Permutation; [apply NoDup_remove_dups | done |].
        intros x. apply elem_of_remove_dups. }
    simpl. case_match eqn:He; [| done]. exfalso.
    assert (forall p, contains p (remove_dups ps) = true) as Hc.
    { intros p. apply contains_true, elem_of_remove_dups. rewrite Hp. apply REMOTE_PROTOCOLS_all. }
    by rewrite !Hc in He.
Qed.

(** ** Cancellation and deadlines *)

(** cancelling a control cancels every control derived from it and the one
    it was derived from (they share the flag), at any later time, and before
    the deadline is looked at; a control that is not cancelled passes exactly
    until its own deadline, which deriving can only shorten. *)
Theorem cancel_reaches_derived_controls c d flags now op :
  let c' := RemoteIoControl_with_deadline c d in
  RemoteIoControl_check c' (RemoteIoControl_cancel c flags) now op
    = Err {| err_kind := EK_Cancelled; err_operation := op;
             err_reason := static_reason "remote_io_cancelled"; err_retry := Retry_Never |}
  /\ RemoteIoControl_check c (RemoteIoControl_cancel c' flags) now op
    = Err {| err_kind := EK_Cancelled; err_operation := op;
             err_reason := static_reason "remote_io_cancelled"; err_retry := Retry_Never |}
  /\ (RemoteIoControl_check c' flags now op = Ok tt <->
      RemoteIoControl_check c flags now op = Ok tt /\ now < d).
Proof.
  unfold RemoteIoControl_check, RemoteIoControl_is_cancelled, RemoteIoControl_cancel. simpl.
  rewrite !bool_decide_true by set_solver. split_and!; try done.
  destruct (bool_decide _); simpl; [naive_solver |].
  destruct (control_deadline c <=? now) eqn:H1, (Z.min d (control_deadline c) <=? now) eqn:H2;
    bool_facts; split; intros; destruct_and?; try discriminate; try (exfalso; lia); auto with lia.
Qed.

(** ** The connection state machine *)

Definition session_steps (steps : list (ConnectionState * Z)) (s : RemoteSession) : RemoteSession :=
  fold_left (fun s st => fst (RemoteSession_transition st.1 st.2 s)) steps s.

Lemma transition_cases next at_ms s :
  (fst (RemoteSession_transition next at_ms s) = s)
  \/ (fst (RemoteSession_transition next at_ms s) = session_set next at_ms s
      /\ session_updated_at_unix_ms s <= at_ms
      /\ can_transition_to (session_state s) next = true /\ session_state s <> next).
Proof.
  unfold RemoteSession_transition. repeat case_match; simpl; auto. right. bool_facts. auto.
Qed.

(** The kinds from which a session can become usable. *)
Definition before_ready (k : ConnectionStateKind) : bool :=
  match k with CK_Disconnected | CK_Closing | CK_Unsupported => true | _ => false end.

(** a session that is disconnected, closing or unsupported becomes ready
    or degraded only through connecting: on any sequence of transition
    requests, accepted or refused, one of the states passed is [Connecting];
    and the update time never goes back. *)
Theorem ready_only_through_connecting steps s :
  before_ready (ConnectionState_kind (session_state s)) = true ->
  (forall p q, steps = p ++ q ->
     ConnectionState_kind (session_state (session_steps p s)) <> CK_Connecting) ->
  before_ready (ConnectionState_kind (session_state (session_steps steps s))) = true
  /\ session_updated_at_unix_ms s <= session_updated_at_unix_ms (session_steps steps s).
Proof.
  revert s. induction steps as [| [next at_ms] steps IH]; intros s Hs Hp; simpl; [split; [done | lia] |].
  set (s1 := fst (RemoteSession_transition next at_ms s)).
  assert (before_ready (ConnectionState_kind (session_state s1)) = true
          /\ session_updated_at_unix_ms s <= session_updated_at_unix_ms s1) as [H1 H2].
  { pose proof (Hp [(next, at_ms)] steps eq_refl) as Hn. simpl in Hn. fold s1 in Hn.
    destruct (transition_cases next at_ms s) as [Heq | (Heq & Ht & Hc & _)]; fold s1 in Heq; rewrite Heq in *.
    - split; [done | lia].
    - simpl in *. split; [| lia]. unfold can_transition_to in Hc.
      destruct (session_state s), next; simpl in *; try done. }
  destruct (IH s1 H1) as [? ?].
  - intros p q ->. by apply (Hp ((next, at_ms) :: p) q).
  - split; [done | lia].
Qed.

Definition demo_session : RemoteSession :=
  {| session_id := 1; session_profile_id := 2; session_protocol := Sftp;
     session_state := Disconnected; session_capabilities := {| matrix_rows := [] |};
     session_opened_at_unix_ms := 5; session_updated_at_unix_ms := 5 |}.

Lemma ready_only_through_connecting_witness :
  before_ready (ConnectionState_kind (session_state (session_steps [(Ready, 6); (Authenticating, 7)] demo_session))) = true.
Proof.
  apply (ready_only_through_connecting [(Ready, 6); (Authenticating, 7)] demo_session).
  - reflexivity.
  - intros p q Hp. destruct p as [| a [| b [| c p]]]; simplify_eq/=; vm_compute; discriminate.
Defined.

(** ** Profiles and pages *)

Lemma ok_after_fail {E} (b : bool) (e : E) : (if b then Err e else Ok tt) = Ok tt <-> b = false.
Proof. destruct b; naive_solver. Qed.

Lemma display_field_ok value max e :
  validate_display_field value max e = Ok tt <->
  1 <= len value <= max /\ any_control value = false.
Proof.
  unfold validate_display_field. rewrite ok_after_fail, is_empty_len. pose proof (len_nonneg value).
  split; [intros; bool_facts; split; [lia | done] | intros [? ->]]. lia.
Qed.

(** a validated profile is bounded and consistent: the label, user name and
    domain are non-empty, within their byte limits and free of control
    characters, the options are those of the protocol, plaintext trust is used
    by plain FTP only and by all of it, anonymous login only by the FTP family,
    and a pinned certificate only by explicit FTPS, as one PEM block. *)
Theorem validated_profile_is_consistent p :
  RemoteConnectionProfile_validate p = Ok tt ->
  (1 <= len (profile_label p) <= 128 /\ any_control (profile_label p) = false)
  /\ (forall u, profile_username p = Some u -> 1 <= len u <= 256 /\ any_control u = false)
  /\ (forall d, profile_domain p = Some d -> 1 <= len d <= 255 /\ any_control d = false)
  /\ ProfileOptions_protocol (profile_options p) = profile_protocol p
  /\ (profile_trust p = PlaintextAcknowledged <-> profile_protocol p = Ftp)
  /\ (profile_authentication p = Anonymous ->
      profile_protocol p = Ftp \/ profile_protocol p = FtpsExplicit)
  /\ (forall pem, profile_trust p = PinnedTlsCertificate pem ->
      profile_protocol p = FtpsExplicit /\ starts_with pem_begin pem = true
      /\ count_matches pem_begin pem = 1 /\ count_matches pem_end pem = 1
      /\ forallb pem_char (chars pem) = true).
Proof.
  unfold RemoteConnectionProfile_validate, validate_optional_field. intros H.
  apply result_bind_ok in H as ([] & Hl & H). apply result_bind_ok in H as ([] & Hu & H).
  apply result_bind_ok in H as ([] & Hd & H). bool_facts.
  apply result_bind_ok in H as ([] & Hpem & H). apply display_field_ok in Hl.
  bool_facts. split; [done |].
  split; [intros u Hu'; rewrite Hu' in Hu; by apply display_field_ok in Hu |].
  split; [intros d Hd'; rewrite Hd' in Hd; by apply display_field_ok in Hd |].
  split; [done |].
  split; [by destruct (profile_protocol p), (profile_trust p) |].
  split; [intros Ha; rewrite Ha in *; destruct (profile_protocol p); auto; done |].
  intros pem Ht. rewrite Ht in *. split; [by destruct (profile_protocol p) |].
  unfold validate_pinned_tls_certificate in Hpem. bool_facts. split_and!; try done.
  match goal with H : existsb _ _ = false |- _ => rename H into He end.
  clear -He. induction (chars pem) as [| c l IH]; simpl in *; [done |].
  apply orb_false_iff in He as [H1 H2]. apply negb_false_iff in H1. by rewrite H1, IH.
Qed.

Definition demo_profile (i : Z) : RemoteConnectionProfile :=
  {| profile_id := i; profile_label := "lab"; profile_protocol := Ftp;
     profile_endpoint := {| endpoint_host := "h"; endpoint_port := 21 |};
     profile_username := None; profile_domain := None; profile_authentication := Anonymous;
     profile_trust := PlaintextAcknowledged; profile_options := Options_Ftp Passive |}.

Lemma validated_profile_is_consistent_witness :
  profile_trust (demo_profile 1) = PlaintextAcknowledged <-> profile_protocol (demo_profile 1) = Ftp.
Proof. apply (validated_profile_is_consistent (demo_profile 1)). reflexivity. Defined.

Definition id_lt (a b : StoredRemoteProfile) : Prop := stored_id a < stored_id b.
#[export] Instance id_lt_trans : Transitive id_lt.
Proof. unfold id_lt. intros x y z. lia. Qed.

Lemma valid_page_facts page q :
  RemoteProfilePage_validate page q = Ok tt ->
  StronglySorted id_lt (profiles page)
  /\ Z.of_nat (length (profiles page)) <= query_limit q <= 16
  /\ (forall a, query_after q = Some a -> Forall (fun s => a < stored_id s) (profiles page))
  /\ (forall n, next_after page = Some n -> exists s, last (profiles page) = Some s /\ stored_id s = n).
Proof.
  unfold RemoteProfilePage_validate, RemoteProfilePageQuery_validate, MAX_REMOTE_PROFILE_PAGE_SIZE.
  intros H. apply result_bind_ok in H as ([] & Hq & H). bool_facts.
  assert (StronglySorted id_lt (profiles page)) as Hsort.
  { eapply windows2_any_sorted; [apply _ | | eassumption]. intros a b. unfold id_lt. simpl. lia. }
  split; [done |]. split; [lia |]. split.
  - intros a Ha. rewrite Ha in *. simpl in *. destruct (profiles page) as [| s l]; [done |].
    apply StronglySorted_inv in Hsort as [_ Hall]. simpl in *.
    constructor; [lia |]. eapply Forall_impl; [exact Hall |]. unfold id_lt. intros x ?. lia.
  - intros n Hn. rewrite Hn in *. simpl in *. destruct (last (profiles page)) as [s |]; [| done].
    exists s. simpl in *. bool_facts. done.
Qed.

(** paging through profiles never repeats or reorders one: if a page is
    valid for its query and the page fetched with its [next_after] cursor is
    valid for that query, the ids of the two pages together are strictly
    increasing, and each page is within its limit of at most sixteen. *)
Theorem profile_pages_concatenate page1 q1 page2 q2 n :
  RemoteProfilePage_validate page1 q1 = Ok tt -> RemoteProfilePage_validate page2 q2 = Ok tt ->
  next_after page1 = Some n -> query_after q2 = Some n ->
  StronglySorted id_lt (profiles page1 ++ profiles page2)
  /\ (length (profiles page1) <= 16)%nat /\ (length (profiles page2) <= 16)%nat.
Proof.
  intros H1 H2 Hn Ha. apply valid_page_facts in H1 as (S1 & L1 & _ & N1).
  apply valid_page_facts in H2 as (S2 & L2 & A2 & _).
  destruct (N1 n Hn) as (s & Hl & Hs). split; [| lia].
  apply (StronglySorted_before _ _ _ s); [apply _ | done | done | done |].
  unfold id_lt. rewrite Hs. by apply A2.
Qed.

Definition demo_stored (i : Z) : StoredRemoteProfile :=
  {| stored_profile := demo_profile i; stored_revision := 0; stored_created_at_unix_ms := 0;
     stored_updated_at_unix_ms := 0 |}.

Lemma profile_pages_concatenate_witness :
  StronglySorted id_lt ([demo_stored 1; demo_stored 2] ++ [demo_stored 3]).
Proof.
  apply (profile_pages_concatenate
           {| profiles := [demo_stored 1; demo_stored 2]; next_after := Some 2 |}
           {| query_after := None; query_limit := 2 |}
           {| profiles := [demo_stored 3]; next_after := None |}
           {| query_after := Some 2; query_limit := 2 |} 2);
    reflexivity.
Defined.
