(* ===== verification/FtpProtocol.v ===== *)
(** [crates/remote-ftp]: its paths and errors ([path.rs], [error.rs]) and
    [protocol.rs], which reads the control connection of a transfer and refuses
    it unless it was protected.

    What libcurl answers for an error of its own is data ([CurlError]). *)

From S2P Require Import Prelude Text.

(** ** error.rs *)

Inductive FtpFailureKind :=
| Fail_Transport | Fail_Trust | Fail_Authentication | Fail_PermissionDenied | Fail_NotFound
| Fail_Timeout | Fail_Protocol.
#[export] Instance FtpFailureKind_eq_dec : EqDecision FtpFailureKind.
Proof. solve_decision. Defined.

Inductive FtpError :=
| Ftp_Configuration (reason : string)
| Ftp_Policy (reason : string)
| Ftp_Protocol (reason : string)
| Ftp_Cancelled
| Ftp_DeadlineExceeded
| Ftp_Remote (code : option Z) (failure : FtpFailureKind) (reason : string)
| Ftp_Io.

(** What the predicates of [curl::Error] answer. *)
Record CurlError := {
  is_peer_failed_verification : bool;
  is_ssl_certproblem : bool;
  is_ssl_cacert : bool;
  is_ssl_cacert_badfile : bool;
  is_ssl_issuer_error : bool;
  is_login_denied : bool;
  is_remote_access_denied : bool;
  is_operation_timedout : bool;
  is_quote_error : bool;
  curl_description : string;
}.

Definition FtpError_remote (error : CurlError) (code : option Z) : FtpError :=
  Ftp_Remote code
    (if is_peer_failed_verification error || is_ssl_certproblem error || is_ssl_cacert error
        || is_ssl_cacert_badfile error || is_ssl_issuer_error error
     then Fail_Trust
     else if is_login_denied error || eqb code (Some 530) then Fail_Authentication
     else if is_remote_access_denied error then Fail_PermissionDenied
     else if is_operation_timedout error then Fail_Timeout
     else if is_quote_error error then Fail_Protocol
     else Fail_Transport)
    (curl_description error).

(** ** path.rs *)

Record FtpPath := { FtpPath_str : string }.
#[export] Instance FtpPath_eq_dec : EqDecision FtpPath.
Proof. solve_decision. Defined.

Definition FtpPath_new (path : string) : result FtpPath FtpError :=
  fail_if negb (starts_with "/" path) with Ftp_Configuration "remote path must be absolute" in
  fail_if contains_byte nul path || contains_byte 13 path || contains_byte 10 path
    with Ftp_Configuration "remote path must not contain NUL, CR, or LF" in
  Ok {| FtpPath_str := path |}.

Definition FtpPath_root : FtpPath := {| FtpPath_str := "/" |}.

Definition part_path (p : FtpPath) : result FtpPath FtpError :=
  fail_if String.eqb (FtpPath_str p) "/" || ends_with "/" (FtpPath_str p)
    with Ftp_Configuration "a file path is required for a .part transfer" in
  FtpPath_new (FtpPath_str p +:+ ".part").

Definition upper_hex (n : Z) : ascii := ascii_of_N (Z.to_N (if n <? 10 then 48 + n else 55 + n)).
Definition is_unreserved (b : Z) : bool :=
  is_ascii_alphanumeric b || contains b [ch "-"; ch "."; ch "_"; ch "~"; ch "/"].
Fixpoint percent_encode (l : list Z) : string :=
  match l with
  | [] => EmptyString
  | b :: l' =>
      if is_unreserved b then String (ascii_of_N (Z.to_N b)) (percent_encode l')
      else String "%" (String (upper_hex (b / 16)) (String (upper_hex (b mod 16)) (percent_encode l')))
  end.
Definition encoded (p : FtpPath) : string := percent_encode (bytes (FtpPath_str p)).

(** ** protocol.rs *)

Inductive InfoType := Info_HeaderIn | Info_HeaderOut | Info_Other.

Inductive Command :=
| AuthTls | AuthSsl | Credential | PbszZero | PbszOther | ProtPrivate | ProtOther | DataTransfer | OtherCommand.
#[export] Instance Command_eq_dec : EqDecision Command.
Proof. solve_decision. Defined.

Inductive Event := Reply (code : Z) | Sent (c : Command).
#[export] Instance Event_eq_dec : EqDecision Event.
Proof. solve_decision. Defined.

Abbreviation ProtocolTrace := (list Event) (only parsing).

Definition trim_ascii (l : list Z) : list Z :=
  skip_while is_ascii_whitespace (skip_end is_ascii_whitespace l).

(** Three digits, or [+] and two: what [parse::<u16>] takes. *)
Definition reply_code (line : list Z) : option Z :=
  match line with
  | a :: b :: c :: d :: _ =>
      if (d =? ch " ") || (d =? ch "-")
      then if valid_utf8 [a; b; c] then parse_u16 (string_of_bytes [a; b; c]) else None
      else None
  | _ => None
  end.

Definition matches_ignore_ascii_case (value : list Z) (candidates : list string) : bool :=
  existsb (fun candidate => eq_ignore_ascii_case value (bytes candidate)) candidates.

Definition classify_command (line : list Z) : Command :=
  let fields := split_on is_ascii_whitespace line in
  let verb := default [] (head fields) in
  let argument := default [] (List.find (fun f => negb (eqb f [])) (tail fields)) in
  if eq_ignore_ascii_case verb (bytes "AUTH") then
    if eq_ignore_ascii_case argument (bytes "TLS") then AuthTls
    else if eq_ignore_ascii_case argument (bytes "SSL") then AuthSsl
    else OtherCommand
  else if matches_ignore_ascii_case verb ["USER"; "PASS"; "ACCT"]%string then Credential
  else if eq_ignore_ascii_case verb (bytes "PBSZ") then
    if eqb argument (bytes "0") then PbszZero else PbszOther
  else if eq_ignore_ascii_case verb (bytes "PROT") then
    if eq_ignore_ascii_case argument (bytes "P") then ProtPrivate else ProtOther
  else if matches_ignore_ascii_case verb ["LIST"; "NLST"; "MLSD"; "RETR"; "STOR"; "APPE"]%string
  then DataTransfer
  else OtherCommand.

(** One line of what libcurl reports. *)
Definition observe_line (info : InfoType) (line : list Z) (events : ProtocolTrace) : ProtocolTrace :=
  let line := trim_ascii line in
  if eqb line [] then events
  else match info with
       | Info_HeaderIn => match reply_code line with Some code => events ++ [Reply code] | None => events end
       | _ => events ++ [Sent (classify_command line)]
       end.

Definition observe (info : InfoType) (bytes : list Z) (events : ProtocolTrace) : ProtocolTrace :=
  match info with
  | Info_Other => events
  | _ => fold_left (fun events line => observe_line info line events) (split_on (Z.eqb 10) bytes) events
  end.

Section Verify.
Variable events : ProtocolTrace.

Definition is_command (e : Event) : bool := match e with Sent _ => true | Reply _ => false end.
Definition reply_of (e : Event) : option Z := match e with Reply code => Some code | Sent _ => None end.
Definition sent (c : Command) : bool := contains (Sent c) events.

Definition next_command (after : nat) : option nat :=
  (fun i => after + 1 + i)%nat <$> position is_command (drop (after + 1) events).

Definition next_reply (after : nat) : option (nat * Z) :=
  '(i, e) ← list_find (fun e => is_some (reply_of e) = true) (drop (after + 1) events);
  code ← reply_of e; Some ((after + 1 + i)%nat, code).

Definition require_immediate_reply (command : nat) (expected : Z) (name : string) : result nat FtpError :=
  match events !! (command + 1)%nat with
  | Some (Reply code) =>
      if code =? expected then Ok (command + 1)%nat
      else Err (Ftp_Protocol (name +:+ " received " +:+ decimal_of code +:+ ", expected " +:+ decimal_of expected))
  | _ => Err (Ftp_Protocol (name +:+ " was not immediately followed by reply " +:+ decimal_of expected))
  end.

(** The loop over the events after [after]; [absolute] counts them. *)
Fixpoint protection_loop (expected : Command) (name unexpected : string) (absolute : nat) (l : list Event)
  : result nat FtpError :=
  match l with
  | [] => Err (Ftp_Protocol ("missing " +:+ name +:+ " protection command"))
  | Reply _ :: l' | Sent Credential :: l' => protection_loop expected name unexpected (S absolute) l'
  | Sent command :: _ => if eqb command expected then Ok absolute else Err (Ftp_Protocol unexpected)
  end.
Definition require_next_protection_command (after : nat) (expected : Command) (name unexpected : string)
  : result nat FtpError :=
  protection_loop expected name unexpected (after + 1) (drop (after + 1) events).

Definition early_credentials : FtpError :=
  Ftp_Protocol "FTP credentials were sent before AUTH TLS completed".

Definition verify_partial_safety : result unit FtpError :=
  fail_if sent AuthSsl with Ftp_Protocol "server negotiation used AUTH SSL instead of AUTH TLS" in
  fail_if sent PbszOther with Ftp_Protocol "FTP protection buffer size was not PBSZ 0" in
  fail_if sent ProtOther with Ftp_Protocol "FTP data channel protection was not PROT P" in
  match position (eqb (Sent AuthTls)) events with
  | None => fail_if sent Credential with early_credentials in Ok tt
  | Some auth =>
      fail_if contains (Sent Credential) (take auth events) with early_credentials in
      match next_reply auth with
      | Some (reply_position, code) =>
          fail_if negb (code =? 234)
            with Ftp_Protocol ("AUTH TLS received " +:+ decimal_of code +:+ ", expected 234") in
          fail_if existsb is_command (drop (auth + 1) (take reply_position events))
            with Ftp_Protocol "AUTH TLS was not immediately followed by reply 234" in
          fail_if contains (Sent Credential) (take reply_position events) with early_credentials in
          Ok tt
      | None =>
          fail_if contains (Sent Credential) (drop (auth + 1) events) with early_credentials in
          Ok tt
      end
  end.

Definition verify_explicit_ftps : result unit FtpError :=
  let? _ := verify_partial_safety in
  let? banner := ok_or (Ftp_Protocol "missing FTP 220 service banner") (position (eqb (Reply 220)) events) in
  let? auth := ok_or (Ftp_Protocol "missing outbound AUTH TLS after FTP 220 banner") (next_command banner) in
  let? _ := match events !! auth with
            | Some (Sent AuthTls) => Ok tt
            | Some (Sent Credential) => Err early_credentials
            | _ => Err (Ftp_Protocol "AUTH TLS was not the first command after FTP 220 banner")
            end in
  let? auth_reply := require_immediate_reply auth 234 "AUTH TLS" in
  let? pbsz := require_next_protection_command auth_reply PbszZero "PBSZ 0"
                 "unexpected FTP command before PBSZ 0" in
  let? pbsz_reply := require_immediate_reply pbsz 200 "PBSZ 0" in
  let? prot := require_next_protection_command pbsz_reply ProtPrivate "PROT P"
                 "unexpected FTP command before PROT P" in
  let? _ := require_immediate_reply prot 200 "PROT P" in
  Ok tt.

(** Commands that only a protected connection may carry. *)
Definition needs_protection (e : Event) : bool :=
  match e with
  | Sent (PbszZero | PbszOther | ProtPrivate | ProtOther | DataTransfer) => true
  | _ => false
  end.

Definition verify_for_result (transfer_succeeded : bool) : result unit FtpError :=
  let? _ := verify_partial_safety in
  if transfer_succeeded || existsb needs_protection events
  then verify_explicit_ftps
  else Ok tt.
End Verify.

(** * [crates/remote-ftp/src/config.rs]: credentials, the security and data
    modes, and the checks of a configuration. IP addresses are parsed and
    printed as [std::net] does. *)

(** ** [std::net::IpAddr] *)

Inductive IpAddr := V4 (octets : list Z) | V6 (segments : list Z).
#[export] Instance IpAddr_eq_dec : EqDecision IpAddr.
Proof. solve_decision. Defined.

Definition digit_value (radix b : Z) : option Z :=
  let v := if is_ascii_digit b then b - 48
           else if is_ascii_lowercase b then b - 87
           else if is_ascii_uppercase b then b - 55 else 99 in
  if v <? radix then Some v else None.

Fixpoint read_digits (radix : Z) (l : list Z) : list Z * list Z :=
  match l with
  | b :: l' =>
      match digit_value radix b with
      | Some v => let '(vs, rest) := read_digits radix l' in (v :: vs, rest)
      | None => ([], l)
      end
  | [] => ([], [])
  end.

Definition read_number (radix max_digits : Z) (zero_prefix : bool) (bound : Z) (l : list Z) : option (Z * list Z) :=
  let '(vs, rest) := read_digits radix l in
  let n := Z.of_nat (length vs) in
  let value := fold_left (fun acc v => acc * radix + v) vs 0 in
  if (n =? 0) || (max_digits <? n) || (negb zero_prefix && eqb (head vs) (Some 0) && (1 <? n)) || (bound <? value)
  then None else Some (value, rest).

Definition read_char (b : Z) (l : list Z) : option (list Z) :=
  match l with c :: l' => if c =? b then Some l' else None | [] => None end.

Definition read_ipv4 (l : list Z) : option (list Z * list Z) :=
  '(a, l) ← read_number 10 3 false u8_max l; l ← read_char (ch ".") l;
  '(b, l) ← read_number 10 3 false u8_max l; l ← read_char (ch ".") l;
  '(c, l) ← read_number 10 3 false u8_max l; l ← read_char (ch ".") l;
  '(d, l) ← read_number 10 3 false u8_max l;
  Some ([a; b; c; d], l).

(** Up to [limit] groups of an IPv6 address; the last two may be an IPv4 one. *)
Fixpoint read_groups (limit : nat) (first : bool) (l : list Z) : list Z * bool * list Z :=
  match limit with
  | O => ([], false, l)
  | S limit' =>
      let here := if first then Some l else read_char (ch ":") l in
      match (if (1 <? Z.of_nat limit) then here ≫= read_ipv4 else None) with
      | Some ([a; b; c; d], rest) => ([a * 256 + b; c * 256 + d], true, rest)
      | _ =>
          match here ≫= read_number 16 4 true u16_max with
          | Some (g, rest) => let '(gs, v4, rest) := read_groups limit' false rest in (g :: gs, v4, rest)
          | None => ([], false, l)
          end
      end
  end.

Definition read_ipv6 (l : list Z) : option (list Z * list Z) :=
  let '(h, head_v4, rest) := read_groups 8 true l in
  if (length h =? 8)%nat then Some (h, rest)
  else if head_v4 then None
  else rest ← read_char (ch ":") rest; rest ← read_char (ch ":") rest;
       let '(t, _, rest) := read_groups (7 - length h) true rest in
       Some (h ++ replicate (8 - length h - length t) 0 ++ t, rest).

Definition parse_ipv6 (s : string) : option IpAddr :=
  match read_ipv6 (bytes s) with Some (segments, []) => Some (V6 segments) | _ => None end.
Definition parse_ipv4 (s : string) : option IpAddr :=
  match read_ipv4 (bytes s) with Some (octets, []) => Some (V4 octets) | _ => None end.
Definition parse_ip (s : string) : option IpAddr := or_else (parse_ipv4 s) (parse_ipv6 s).

Definition is_unspecified (ip : IpAddr) : bool :=
  match ip with V4 l | V6 l => forallb (Z.eqb 0) l end.
Definition is_multicast (ip : IpAddr) : bool :=
  match ip with
  | V4 l => is_some_and (in_range 224 239) (head l)
  | V6 l => is_some_and (fun s => s / 256 =? 255) (head l)
  end.

Fixpoint join (sep : string) (l : list string) : string :=
  match l with
  | [] => EmptyString
  | [s] => s
  | s :: l' => s +:+ sep +:+ join sep l'
  end.
Fixpoint hex_digits (fuel : nat) (n : Z) : string :=
  match fuel with
  | O => EmptyString
  | S fuel =>
      let d := n mod 16 in
      let digit := String (ascii_of_N (Z.to_N (if d <? 10 then 48 + d else 87 + d))) EmptyString in
      if n / 16 =? 0 then digit else hex_digits fuel (n / 16) +:+ digit
  end.
Definition show_segments (l : list Z) : string := join ":" (hex_digits 4 <$> l).
Definition show_octets (l : list Z) : string := join "." (decimal_of <$> l).

(** The first of the longest runs of zero segments. *)
Fixpoint zero_run (l : list Z) : nat :=
  match l with s :: l' => if s =? 0 then S (zero_run l') else O | [] => O end.
Fixpoint longest_zeros (i : nat) (l : list Z) (start count : nat) : nat * nat :=
  match l with
  | [] => (start, count)
  | _ :: l' =>
      if (count <? zero_run l)%nat then longest_zeros (S i) l' i (zero_run l)
      else longest_zeros (S i) l' start count
  end.

Definition show_ip (ip : IpAddr) : string :=
  match ip with
  | V4 l => show_octets l
  | V6 [0; 0; 0; 0; 0; 65535; a; b] => "::ffff:" +:+ show_octets [a / 256; a mod 256; b / 256; b mod 256]
  | V6 l =>
      let '(start, count) := longest_zeros 0 l 0 0 in
      if (1 <? count)%nat
      then show_segments (take start l) +:+ "::" +:+ show_segments (drop (start + count) l)
      else show_segments l
  end.

Example ip_texts :
  (show_ip <$> parse_ip "2001:db8:0:0:1:0:0:1" = Some "2001:db8::1:0:0:1"%string) /\
  parse_ip "::ffff:10.0.0.1" = Some (V6 [0; 0; 0; 0; 0; 65535; 2560; 1]) /\
  parse_ip "10.0.0.01" = None /\ parse_ip "1::2::3" = None /\ parse_ip "::" = Some (V6 (replicate 8 0)).
Proof. vm_compute. repeat split. Qed.

(** ** Credentials and modes *)

Definition PLAIN_FTP_ACKNOWLEDGEMENT : string :=
  "I understand that plain FTP exposes credentials and file contents".

Definition reject_control (name value : string) : result unit FtpError :=
  fail_if any_control value
    with Ftp_Configuration (name +:+ " must not contain control characters") in
  Ok tt.

Record Credentials := { cred_username : string; cred_password : string }.

Definition Credentials_new (username password : string) : result Credentials FtpError :=
  let? _ := reject_control "username" username in
  let? _ := reject_control "password" password in
  fail_if is_empty username with Ftp_Configuration "username must not be empty" in
  Ok {| cred_username := username; cred_password := password |}.

(** Only [acknowledge] makes one. *)
Inductive PlainFtpConfirmation := Confirmed.
Definition acknowledge (statement : string) : result PlainFtpConfirmation FtpError :=
  if String.eqb statement PLAIN_FTP_ACKNOWLEDGEMENT then Ok Confirmed
  else Err (Ftp_Policy "plain FTP requires the exact risk acknowledgement").

Inductive SecurityMode := ExplicitFtps | PlainFtp (confirmation : PlainFtpConfirmation).
Inductive DataMode := Passive | Active (bind_address : IpAddr) (listen_port : Z).

Definition active_binding (m : DataMode) : result (option string) FtpError :=
  match m with
  | Passive => Ok None
  | Active bind_address listen_port =>
      fail_if is_unspecified bind_address || is_multicast bind_address
        with Ftp_Policy "active mode requires one exact non-unspecified, non-multicast IP" in
      Ok (Some (match bind_address with
                | V4 _ => show_ip bind_address +:+ ":" +:+ decimal_of listen_port
                | V6 _ => "[" +:+ show_ip bind_address +:+ "]:" +:+ decimal_of listen_port
                end))
  end.

(** ** Configurations *)

Record FtpConfig := {
  ftp_host : string;
  ftp_port : Z;
  credentials : Credentials;
  security : SecurityMode;
  data_mode : DataMode;
  ca_certificate_pem : option (list Z);
  connect_timeout : Z;
  operation_timeout : Z;
}.

Definition dns_label (label : string) : bool :=
  negb (is_empty label) && (len label <=? 63)
  && negb (starts_with "-" label) && negb (ends_with "-" label)
  && forallb (fun b => is_ascii_alphanumeric b || (b =? ch "-")) (bytes label).

Definition validate_host (host : string) : result unit FtpError :=
  fail_if is_empty host with Ftp_Configuration "host must not be empty" in
  let? _ := reject_control "host" host in
  fail_if existsb (fun b => contains_byte b host) [ch "/"; ch "\"; ch "@"; ch " "; 9]
    with Ftp_Configuration "host must be an IP literal or DNS name without URL delimiters" in
  if is_some (parse_ip host) then Ok tt
  else
    let dns_name := default host (strip_suffix "." host) in
    fail_if is_empty dns_name || (253 <? len dns_name) || negb (forallb dns_label (split_char "." dns_name))
      with Ftp_Configuration "host must be an ASCII DNS name or IP literal" in
    Ok tt.

Definition FtpConfig_validate (c : FtpConfig) : result unit FtpError :=
  let? _ := validate_host (ftp_host c) in
  fail_if (connect_timeout c =? 0) || (operation_timeout c =? 0)
    with Ftp_Configuration "timeouts must be greater than zero" in
  fail_if operation_timeout c <? connect_timeout c
    with Ftp_Configuration "connect timeout must not exceed operation timeout" in
  let? _ := active_binding (data_mode c) in
  fail_if match security c with PlainFtp _ => is_some (ca_certificate_pem c) | ExplicitFtps => false end
    with Ftp_Configuration "a CA certificate is only meaningful for explicit FTPS" in
  Ok tt.

(** [Duration]s are nanoseconds. *)
Definition explicit_ftps_config (host : string) (port : Z) (cred : Credentials) : FtpConfig :=
  {| ftp_host := host; ftp_port := port; credentials := cred; security := ExplicitFtps;
     data_mode := Passive; ca_certificate_pem := None;
     connect_timeout := 10 * 1000000000; operation_timeout := 300 * 1000000000 |}.
Definition explicit_ftps (host : string) (port : Z) (cred : Credentials) : result FtpConfig FtpError :=
  let config := explicit_ftps_config host port cred in
  let? _ := FtpConfig_validate config in
  Ok config.

Definition authority (c : FtpConfig) : string :=
  (if is_some (parse_ipv6 (ftp_host c)) then "[" +:+ ftp_host c +:+ "]" else ftp_host c)
  +:+ ":" +:+ decimal_of (ftp_port c).
