(* ===== verification/FtpProtocolFacts.v ===== *)
(** What [verify_for_result] accepts, as a grammar of traces; paths survive
    their encoding. *)
From S2P Require Import Prelude Text FtpProtocol.

(** ** The grammar of protected connections *)

Definition is_reply (e : Event) : Prop := match e with Reply _ => True | Sent _ => False end.
(** Replies and credentials, which may come between the protection commands. *)
Definition passed_over (e : Event) : Prop := match e with Reply _ | Sent Credential => True | _ => False end.

Definition no_weak_command (l : ProtocolTrace) : Prop :=
  (Sent AuthSsl ∉ l) /\ (Sent PbszOther ∉ l) /\ Sent ProtOther ∉ l.

(** No credential leaves before the server has agreed to TLS. *)
Definition no_early_credential (l : ProtocolTrace) : Prop :=
  ((Sent AuthTls ∉ l) /\ Sent Credential ∉ l) \/
  exists p q, l = p ++ Sent AuthTls :: q /\ (Sent AuthTls ∉ p) /\ (Sent Credential ∉ p) /\
    ((exists q', q = Reply 234 :: q') \/ Forall (fun e => ~ is_reply e) q /\ Sent Credential ∉ q).

(** After the banner: AUTH TLS, PBSZ 0, PROT P, each agreed to at once, and no
    other command but credentials on the way. *)
Definition protected (l : ProtocolTrace) : Prop :=
  exists pre r1 r2 r3 rest,
    l = pre ++ Reply 220 :: r1 ++ Sent AuthTls :: Reply 234 :: r2 ++ Sent PbszZero :: Reply 200 ::
          r3 ++ Sent ProtPrivate :: Reply 200 :: rest /\
    (Reply 220 ∉ pre) /\ Forall is_reply r1 /\ Forall passed_over r2 /\ Forall passed_over r3.

Definition safe_so_far (l : ProtocolTrace) : Prop := no_weak_command l /\ no_early_credential l.

(** ** Partial safety *)

Lemma sent_false l c : sent l c = false <-> Sent c ∉ l.
Proof. apply contains_false. Qed.

Lemma contains_cut {A} `{EqDecision A} (a : A) l : a ∉ l <-> Forall (fun b => eqb a b = false) l.
Proof.
  rewrite Forall_forall. split.
  - intros H b Hb. apply eqb_false. by intros ->.
  - intros H Ha. specialize (H a Ha). by rewrite eqb_refl in H.
Qed.

Lemma next_reply_cut p a q :
  next_reply (p ++ a :: q) (length p) =
  '(i, e) ← list_find (fun e => is_some (reply_of e) = true) q; code ← reply_of e; Some ((length p + 1 + i)%nat, code).
Proof.
  unfold next_reply. replace (drop (length p + 1) (p ++ a :: q)) with q; [done |].
  rewrite drop_app_ge by lia. replace (length p + 1 - length p)%nat with 1%nat by lia. done.
Qed.

Lemma first_reply_cases q :
  match list_find (fun e => is_some (reply_of e) = true) q with
  | Some (i, e) => exists code q1 q2, e = Reply code /\ q = q1 ++ Reply code :: q2 /\ length q1 = i /\ Forall (fun e => ~ is_reply e) q1
  | None => Forall (fun e => ~ is_reply e) q
  end.
Proof.
  destruct (list_find _ q) as [[i e] |] eqn:H.
  - apply list_find_Some in H as (Hi & He & Hb). destruct e as [code | c]; [| done].
    exists code, (take i q), (drop (S i) q). split_and!; [done | by rewrite take_drop_middle | |].
    + rewrite length_take. apply lookup_lt_Some in Hi. lia.
    + apply Forall_forall. intros e' Hin. apply list_elem_of_lookup in Hin as [j Hj].
      apply lookup_take_Some in Hj as [Hj Hlt]. specialize (Hb j e' Hj Hlt). destruct e' as [c | c]; simpl in *; [done | by intros []].
  - apply list_find_None in H. eapply Forall_impl; [exact H |]. intros [? | ?]; simpl; [done | by intros _ []].
Qed.

Lemma after_auth_exact p q :
  match next_reply (p ++ Sent AuthTls :: q) (length p) with
  | Some (reply_position, code) =>
      (code =? 234) = true /\
      existsb is_command (drop (length p + 1) (take reply_position (p ++ Sent AuthTls :: q))) = false /\
      contains (Sent Credential) (take reply_position (p ++ Sent AuthTls :: q)) = false
  | None => contains (Sent Credential) (drop (length p + 1) (p ++ Sent AuthTls :: q)) = false
  end /\ (Sent Credential ∉ p) <->
  (Sent Credential ∉ p) /\
    ((exists q', q = Reply 234 :: q') \/ Forall (fun e => ~ is_reply e) q /\ Sent Credential ∉ q).
Proof.
  rewrite next_reply_cut. pose proof (first_reply_cases q) as Hq.
  destruct (list_find _ q) as [[i e] |].
  - destruct Hq as (code & q1 & q2 & -> & -> & <- & Hq1). simpl.
    assert (Ht : take (length p + 1 + length q1) (p ++ Sent AuthTls :: q1 ++ Reply code :: q2) = p ++ Sent AuthTls :: q1).
    { replace (p ++ Sent AuthTls :: q1 ++ Reply code :: q2) with ((p ++ Sent AuthTls :: q1) ++ Reply code :: q2)
        by (by rewrite <- app_assoc).
      replace (length p + 1 + length q1)%nat with (length (p ++ Sent AuthTls :: q1)) by (rewrite !length_app; simpl; lia).
      apply take_app_length. }
    rewrite Ht. rewrite drop_app_ge by lia. replace (length p + 1 - length p)%nat with 1%nat by lia.
    cbn [drop]. rewrite contains_false, not_elem_of_app, not_elem_of_cons. split.
    + intros [(Hc & He & _ & _ & _) Hp]. split; [done |]. left.
      destruct q1 as [| [c | c] q1]; [| by apply Forall_cons in Hq1 as [[] _] | done].
      exists q2. simpl. do 2 f_equal. lia.
    + intros [Hp [[q' Hq'] | [Hn _]]].
      * destruct q1 as [| a q1].
        -- injection Hq' as -> <-. split_and!; try done. set_solver.
        -- injection Hq' as -> _. apply Forall_cons in Hq1 as [[] _]. done.
      * apply Forall_app in Hn as [_ Hn]. apply Forall_cons in Hn as [[] _]. done.
  - simpl. rewrite drop_app_ge by lia. replace (length p + 1 - length p)%nat with 1%nat by lia. cbn [drop].
    rewrite contains_false. split; [naive_solver |]. intros [Hp [[q' ->] | [_ Hc]]]; [| done].
    apply Forall_cons in Hq as [[] _]. done.
Qed.

Lemma position_is_cut (a : Event) l i : position (eqb a) l = Some i ->
  exists p q, l = p ++ a :: q /\ length p = i /\ a ∉ p.
Proof.
  intros H. apply position_cut in H as (b & p & q & -> & <- & Hb & Hp). apply eqb_true in Hb as <-.
  exists p, q. split_and!; [done | done | by apply contains_cut].
Qed.
Lemma position_at_cut (a : Event) p q : a ∉ p -> position (eqb a) (p ++ a :: q) = Some (length p).
Proof. intros Hp. apply position_app; [by apply contains_cut | apply eqb_refl]. Qed.
Lemma position_absent (a : Event) l : position (eqb a) l = None <-> a ∉ l.
Proof. rewrite position_none, contains_cut, Forall_forall. done. Qed.

Lemma cut_unique {A} (a : A) p q p' q' : a ∉ p -> a ∉ p' -> p ++ a :: q = p' ++ a :: q' -> p = p' /\ q = q'.
Proof.
  revert p'. induction p as [| b p IH]; intros [| b' p'] Hp Hp' H; simpl in *; try naive_solver.
  - injection H as -> _. set_solver.
  - injection H as <- _. set_solver.
  - injection H as -> H. apply IH in H as [-> ->]; [done | set_solver | set_solver].
Qed.

Lemma verify_partial_safety_exact l : verify_partial_safety l = Ok tt <-> safe_so_far l.
Proof.
  unfold verify_partial_safety, safe_so_far, no_weak_command. rewrite <- !sent_false.
  destruct (sent l AuthSsl), (sent l PbszOther), (sent l ProtOther); try naive_solver.
  destruct (position _ l) as [auth |] eqn:Hpos.
  - apply position_is_cut in Hpos as (p & q & -> & <- & Hp).
    assert (Hne : no_early_credential (p ++ Sent AuthTls :: q) <->
              (Sent Credential ∉ p) /\ ((exists q', q = Reply 234 :: q') \/ Forall (fun e => ~ is_reply e) q /\ Sent Credential ∉ q)).
    { unfold no_early_credential. split.
      - intros [[H _] | (p' & q' & H & Hp' & Hc & Hq)]; [set_solver |].
        apply cut_unique in H as [-> ->]; done.
      - intros [Hc Hq]. right. by exists p, q. }
    rewrite Hne, <- after_auth_exact. rewrite take_app_length.
    rewrite <- (contains_false (Sent Credential) p).
    destruct (contains (Sent Credential) p); [naive_solver |].
    destruct (next_reply _ _) as [[i code] |].
    + destruct (code =? 234); simpl; [| naive_solver].
      destruct (existsb is_command _); [naive_solver |].
      destruct (contains (Sent Credential) (take i _)); naive_solver.
    + destruct (contains _ (drop _ _)); naive_solver.
  - apply position_absent in Hpos. unfold no_early_credential. rewrite <- (sent_false l Credential).
    destruct (sent l Credential) eqn:Hc; [| naive_solver].
    split; [done |]. intros [_ [[_ H] | (p & q & -> & _)]]; [done |]. set_solver.
Qed.

(** ** Explicit FTPS *)

Lemma lookup_cut {A} (p : list A) a q : (p ++ a :: q) !! length p = Some a.
Proof. by apply list_lookup_middle. Qed.

(** An index into a trace, with what follows it. *)
Definition follows (l : ProtocolTrace) (i : nat) (q : ProtocolTrace) : Prop :=
  exists p a, l = p ++ a :: q /\ length p = i.

Lemma follows_drop l i q : follows l i q -> drop (i + 1) l = q.
Proof.
  intros (p & a & -> & <-). rewrite drop_app_ge by lia.
  by replace (length p + 1 - length p)%nat with 1%nat by lia.
Qed.
Lemma follows_shift l i q1 a q2 : follows l i (q1 ++ a :: q2) -> follows l (i + 1 + length q1) q2.
Proof.
  intros (p & b & -> & <-). exists (p ++ b :: q1), a. rewrite <- app_assoc. split; [done |].
  rewrite length_app. simpl. lia.
Qed.
Lemma follows_lookup l i q j : follows l i q -> l !! (i + 1 + j)%nat = q !! j.
Proof. intros H. apply follows_drop in H as <-. symmetry. apply lookup_drop. Qed.

Lemma immediate_reply_exact l i q code name j : follows l i q ->
  require_immediate_reply l i code name = Ok j <-> j = (i + 1)%nat /\ exists q', q = Reply code :: q'.
Proof.
  intros Hf. unfold require_immediate_reply.
  replace (l !! (i + 1)%nat) with (q !! O) by (rewrite <- (follows_lookup l i q O Hf); f_equal; lia).
  destruct q as [| [c | c] q]; simpl; [naive_solver | | naive_solver].
  destruct (c =? code) eqn:Hc; [apply Z.eqb_eq in Hc as -> | apply Z.eqb_neq in Hc]; naive_solver.
Qed.

Lemma protection_loop_exact expected name unexpected q start j : expected <> Credential ->
  protection_loop expected name unexpected start q = Ok j <->
  exists r q', q = r ++ Sent expected :: q' /\ Forall passed_over r /\ j = (start + length r)%nat.
Proof.
  intros He. revert start. induction q as [| e q IH]; intros start; simpl.
  { split; [done |]. by intros ([|] & ? & ? & _). }
  assert (Hskip : passed_over e -> (protection_loop expected name unexpected (S start) q = Ok j <->
    exists r q', e :: q = r ++ Sent expected :: q' /\ Forall passed_over r /\ j = (start + length r)%nat)).
  { intros Hp. rewrite IH. split.
    - intros (r & q' & -> & Hr & ->). exists (e :: r), q'. split_and!; [done | by constructor | simpl; lia].
    - intros ([| b r] & q' & H & Hr & ->); [injection H as -> _; by destruct expected |].
      injection H as <- ->. apply Forall_cons in Hr as [_ Hr]. exists r, q'. split_and!; [done | done | simpl; lia]. }
  destruct e as [c | c]; [by apply Hskip |].
  destruct (decide (c = Credential)) as [-> | Hc]; [by apply Hskip |]. clear Hskip.
  assert (Hl : forall x y : result nat FtpError, match c with Credential => x | _ => y end = y) by (by destruct c).
  replace (match c with Credential => _ | _ => _ end) with
    (if eqb c expected then Ok start else Err (Ftp_Protocol unexpected) : result nat FtpError) by (by destruct c).
  destruct (eqb c expected) eqn:Hx.
  - apply eqb_true in Hx as ->. split.
    + intros [= <-]. exists [], q. split_and!; [done | constructor | simpl; lia].
    + intros ([| b r] & q' & H & Hr & ->); [simpl; f_equal; lia |].
      injection H as <- _. apply Forall_cons in Hr as [Hp _]. by destruct expected.
  - apply eqb_false in Hx. split; [done |].
    intros ([| b r] & q' & H & Hr & ->); [naive_solver |].
    injection H as <- _. apply Forall_cons in Hr as [Hp _]. by destruct c.
Qed.

Lemma next_command_exact l i q j : follows l i q ->
  next_command l i = Some j <->
  exists r c q', q = r ++ Sent c :: q' /\ Forall is_reply r /\ j = (i + 1 + length r)%nat.
Proof.
  intros Hf. unfold next_command. rewrite (follows_drop _ _ _ Hf), fmap_Some. split.
  - intros (k & Hk & ->). apply position_cut in Hk as (e & r & q' & -> & <- & He & Hr).
    destruct e as [| c]; [done |]. exists r, c, q'. split_and!; [done | | done].
    eapply Forall_impl; [exact Hr |]. by intros [].
  - intros (r & c & q' & -> & Hr & ->). exists (length r). split; [| done]. apply position_app; [| done].
    eapply Forall_impl; [exact Hr |]. by intros [].
Qed.

Lemma ok_or_ok {A E} (e : E) (o : option A) a : ok_or e o = Ok a <-> o = Some a.
Proof. destruct o; simpl; naive_solver. Qed.

Lemma verify_explicit_exact l : verify_explicit_ftps l = Ok tt <-> safe_so_far l /\ protected l.
Proof.
  unfold verify_explicit_ftps. rewrite result_bind_ok. rewrite <- verify_partial_safety_exact. split.
  - intros ([] & Hs & H). split; [done |].
    apply result_bind_ok in H as (banner & Hb & H). apply ok_or_ok, position_is_cut in Hb as (pre & q & Hl & <- & Hpre).
    assert (Hf : follows l (length pre) q) by (by exists pre, (Reply 220)).
    apply result_bind_ok in H as (auth & Ha & H). apply ok_or_ok in Ha.
    apply (next_command_exact _ _ _ _ Hf) in Ha as (r1 & c & q1 & -> & Hr1 & ->).
    apply result_bind_ok in H as (u & Hc & H). rewrite (follows_lookup _ _ _ _ Hf), lookup_cut in Hc.
    destruct c; try done. clear u Hc. apply follows_shift in Hf.
    apply result_bind_ok in H as (i1 & Hi & H). apply (immediate_reply_exact _ _ _ _ _ _ Hf) in Hi as [-> [q2 ->]].
    apply (follows_shift _ _ []) in Hf. simpl in Hf. rewrite Nat.add_0_r in Hf.
    apply result_bind_ok in H as (i2 & Hi & H). unfold require_next_protection_command in Hi.
    rewrite (follows_drop _ _ _ Hf) in Hi. apply protection_loop_exact in Hi as (r2 & q3 & -> & Hr2 & ->); [| done].
    apply follows_shift in Hf.
    apply result_bind_ok in H as (i3 & Hi & H). apply (immediate_reply_exact _ _ _ _ _ _ Hf) in Hi as [-> [q4 ->]].
    apply (follows_shift _ _ []) in Hf. simpl in Hf. rewrite Nat.add_0_r in Hf.
    apply result_bind_ok in H as (i4 & Hi & H). unfold require_next_protection_command in Hi.
    rewrite (follows_drop _ _ _ Hf) in Hi. apply protection_loop_exact in Hi as (r3 & q5 & -> & Hr3 & ->); [| done].
    apply follows_shift in Hf.
    apply result_bind_ok in H as (i5 & Hi & _). apply (immediate_reply_exact _ _ _ _ _ _ Hf) in Hi as [-> [rest ->]].
    exists pre, r1, r2, r3, rest. done.
  - intros (Hs & pre & r1 & r2 & r3 & rest & Hl & Hpre & Hr1 & Hr2 & Hr3). exists tt. split; [done |].
    rewrite Hl at 1. rewrite position_at_cut by done. cbn [ok_or result_bind].
    eassert (Hf : follows l (length pre) _) by (exists pre, (Reply 220); split; [exact Hl | done]).
    rewrite (proj2 (next_command_exact _ _ _ _ Hf)) by (exists r1, AuthTls; eauto). cbn [ok_or result_bind].
    rewrite (follows_lookup _ _ _ _ Hf), lookup_cut. cbn [result_bind]. apply follows_shift in Hf.
    rewrite (proj2 (immediate_reply_exact _ _ _ _ "AUTH TLS" _ Hf)) by eauto. cbn [result_bind].
    apply (follows_shift _ _ []) in Hf. simpl in Hf. rewrite Nat.add_0_r in Hf.
    unfold require_next_protection_command at 1. rewrite (follows_drop _ _ _ Hf).
    rewrite (proj2 (protection_loop_exact PbszZero _ _ _ _ _ ltac:(discriminate))) by (exists r2; eauto). cbn [result_bind].
    apply follows_shift in Hf.
    rewrite (proj2 (immediate_reply_exact _ _ _ _ "PBSZ 0" _ Hf)) by eauto. cbn [result_bind].
    apply (follows_shift _ _ []) in Hf. simpl in Hf. rewrite Nat.add_0_r in Hf.
    unfold require_next_protection_command. rewrite (follows_drop _ _ _ Hf).
    rewrite (proj2 (protection_loop_exact ProtPrivate _ _ _ _ _ ltac:(discriminate))) by (exists r3; eauto). cbn [result_bind].
    apply follows_shift in Hf.
    by rewrite (proj2 (immediate_reply_exact _ _ _ _ "PROT P" _ Hf)) by eauto.
Qed.

Lemma verify_for_result_exact l succeeded :
  verify_for_result l succeeded = Ok tt <->
  safe_so_far l /\ (succeeded = true \/ (exists e, e ∈ l /\ needs_protection e = true) -> protected l).
Proof.
  unfold verify_for_result. rewrite result_bind_ok, <- verify_partial_safety_exact.
  assert (Hn : succeeded || existsb needs_protection l = true <->
               succeeded = true \/ exists e, e ∈ l /\ needs_protection e = true).
  { rewrite orb_true_iff, existsb_exists. split.
    - intros [H | (e & He & Hp)]; [by left | right; exists e]. by rewrite list_elem_of_In.
    - intros [H | (e & He & Hp)]; [by left | right; exists e]. by rewrite <- list_elem_of_In. }
  rewrite <- Hn. destruct (succeeded || _).
  - split.
    + intros ([] & Hs & H). split; [done |]. intros _. by apply verify_explicit_exact in H as [_ H].
    + intros [Hs Hp]. exists tt. split; [done |]. apply verify_explicit_exact.
      split; [by apply verify_partial_safety_exact | by apply Hp].
  - split; [by intros ([] & Hs & _) | intros [Hs _]; by exists tt].
Qed.

(** C38: A finished transfer is accepted exactly if nothing unsafe was seen and,
    when it succeeded or has used a command that needs protection, the
    connection was protected step by step. *)
Theorem ftps_verification_exact l succeeded :
  verify_for_result l succeeded = Ok tt <->
  safe_so_far l /\ (succeeded = true \/ (exists e, e ∈ l /\ needs_protection e = true) -> protected l).
Proof. apply verify_for_result_exact. Qed.

(** The trace of a session with libcurl, from its bytes. *)
Definition sample_trace : ProtocolTrace :=
  fold_left (fun events '(info, text) => observe info (bytes text ++ [13; 10]) events)
    [(Info_HeaderIn, "220 ready"); (Info_HeaderOut, "AUTH TLS"); (Info_HeaderIn, "234 go ahead");
     (Info_HeaderOut, "USER someone"); (Info_HeaderIn, "331 password"); (Info_HeaderOut, "PASS secret");
     (Info_HeaderIn, "230 in"); (Info_HeaderOut, "PBSZ 0"); (Info_HeaderIn, "200 ok");
     (Info_HeaderOut, "prot p"); (Info_HeaderIn, "200 ok"); (Info_HeaderOut, "STOR a.part")]%string [].

Example sample_trace_is_accepted : verify_for_result sample_trace true = Ok tt.
Proof. reflexivity. Qed.
Example clear_credentials_are_refused :
  verify_for_result (observe Info_HeaderOut (bytes "USER someone") (observe Info_HeaderIn (bytes "220 ready") [])) false
  = Err early_credentials.
Proof. reflexivity. Qed.

(** ** Paths *)

Definition unhex (b : Z) : option Z :=
  if is_ascii_digit b then Some (b - 48) else if in_range 65 70 b then Some (b - 55) else None.

(** What a server makes of an encoded path. *)
Fixpoint percent_decode (s : string) : option (list Z) :=
  match s with
  | EmptyString => Some []
  | String a s1 =>
      if byte_of a =? ch "%" then
        match s1 with
        | String h (String l s3) =>
            hi ← unhex (byte_of h); lo ← unhex (byte_of l); rest ← percent_decode s3; Some (hi * 16 + lo :: rest)
        | _ => None
        end
      else rest ← percent_decode s1; Some (byte_of a :: rest)
  end.

Lemma byte_of_ascii b : is_byte b -> byte_of (ascii_of_N (Z.to_N b)) = b.
Proof. unfold is_byte, byte_of. intros Hb. rewrite N_ascii_embedding by lia. lia. Qed.

Lemma unhex_upper n : 0 <= n < 16 -> unhex (byte_of (upper_hex n)) = Some n.
Proof.
  intros Hn. assert (Hc : n ∈ seqZ 0 16) by (apply elem_of_seqZ; lia). revert n Hn Hc.
  assert (H : Forall (fun n => unhex (byte_of (upper_hex n)) = Some n) (seqZ 0 16)) by (repeat constructor).
  intros n _ Hc. by rewrite Forall_forall in H; apply H.
Qed.

Lemma percent_round_trip l : Forall is_byte l -> percent_decode (percent_encode l) = Some l.
Proof.
  induction 1 as [| b l Hb Hl IH]; [done |]. cbn [percent_encode]. destruct (is_unreserved b) eqn:Hu.
  - cbn [percent_decode]. rewrite byte_of_ascii by done.
    destruct (b =? ch "%") eqn:Hp; [| by rewrite IH]. apply Z.eqb_eq in Hp as ->. done.
  - cbn [percent_decode]. change (byte_of "%" =? ch "%") with true. cbv iota.
    unfold is_byte in Hb. rewrite !unhex_upper by (split; [apply Z.div_pos || apply Z.mod_pos_bound | apply Z.div_lt_upper_bound || apply Z.mod_pos_bound]; lia).
    simpl. rewrite IH. simpl. do 2 f_equal. pose proof (Z_div_mod_eq_full b 16). lia.
Qed.

Lemma upper_hex_safe n : 0 <= n < 16 -> is_unreserved (byte_of (upper_hex n)) = true.
Proof.
  intros Hn. assert (H : Forall (fun n => is_unreserved (byte_of (upper_hex n)) = true) (seqZ 0 16)) by (repeat constructor).
  rewrite Forall_forall in H. apply H, elem_of_seqZ. lia.
Qed.

Lemma percent_encode_safe l : Forall is_byte l ->
  Forall (fun b => is_unreserved b = true \/ b = ch "%") (bytes (percent_encode l)).
Proof.
  induction 1 as [| b l Hb Hl IH]; [constructor |]. cbn [percent_encode]. unfold is_byte in Hb.
  destruct (is_unreserved b) eqn:Hu; cbn [bytes].
  - constructor; [left; by rewrite byte_of_ascii | done].
  - constructor; [by right |]. constructor; [left; apply upper_hex_safe | constructor; [left; apply upper_hex_safe | done]].
    + split; [apply Z.div_pos; lia | apply Z.div_lt_upper_bound; lia].
    + apply Z.mod_pos_bound. lia.
Qed.

(** The URL of a path: a server finds the path in it again, and nothing in it
    can end the URL or the line. *)
Theorem encoded_path_round_trip p :
  percent_decode (encoded p) = Some (bytes (FtpPath_str p)) /\
  Forall (fun b => is_unreserved b = true \/ b = ch "%") (bytes (encoded p)).
Proof. split; [apply percent_round_trip | apply percent_encode_safe]; apply bytes_are_bytes. Qed.
