(* ===== verification/FtpTransport.v ===== *)
(** [crates/remote-ftp/src/transport.rs] over libcurl, and the uploads of
    [adapter.rs] over it.

    libcurl and the server are a parameter ([FtpEnv]): a transfer is the options
    set on its handle, and what comes of it is what libcurl reports of the
    control connection, what it hands to the write callback, how it ends and
    what it answers about the transfer afterwards. [FtpAdapter::download] and
    [upload], which only the tests of the crate call, are left out, and
    [Transport::download] with them. *)
From S2P Require Import Prelude RemoteCore Text FtpProtocol.

(** ** Handles *)

Inductive UseSsl := UseSsl_None | UseSsl_All.
#[export] Instance UseSsl_eq_dec : EqDecision UseSsl.
Proof. solve_decision. Defined.

(** What is set on an [Easy]. *)
Inductive EasyOption :=
| Opt_Url (url : string) | Opt_Username (s : string) | Opt_Password (s : string) | Opt_Proxy (s : string)
| Opt_ConnectTimeout (d : Z) | Opt_Timeout (d : Z) | Opt_Progress (b : bool) | Opt_Verbose (b : bool)
| Opt_TcpKeepalive (b : bool) | Opt_TransferText (n : Z) | Opt_ResponseTimeout (seconds : Z)
| Opt_UseSsl (u : UseSsl) | Opt_FtpSslAuth (n : Z) | Opt_SslVerifyPeer (b : bool) | Opt_SslVerifyHost (b : bool)
| Opt_SslMinTls12 | Opt_CaInfoBlob (pem : list Z) | Opt_FtpPort (binding : option string)
| Opt_CustomRequest (s : string) | Opt_NoBody (b : bool) | Opt_Quote (commands : list string)
| Opt_Range (s : string) | Opt_ResumeFrom (n : Z) | Opt_Upload (b : bool) | Opt_InFilesize (n : Z).
#[export] Instance EasyOption_eq_dec : EqDecision EasyOption.
Proof. solve_decision. Defined.
Abbreviation Easy := (list EasyOption) (only parsing).

Record Performed := {
  seen : list (InfoType * list Z);
  received_bytes : list Z;
  curl_result : result unit CurlError;
  response_code : option Z;
  content_length : result Z CurlError;
  local_io_failed : bool;
}.

(** The calls on a local file. *)
Inductive LocalCall :=
| Call_CreateStaging | Call_SetLen | Call_WriteAt (count : nat) | Call_SyncAll | Call_SymlinkMetadata | Call_Metadata | Call_Open.

(** What surrounds the adapter. [local_call] answers the bytes a failed call
    has written; [perform] is given the handle and, in an upload, the file its
    read callback reads. *)
Class FtpEnv (W : Type) := {
  instant : W -> Z * W;
  flags_of : W -> gset nat;
  unix_millis : W -> option Z * W;
  new_uuid : W -> Z * W;
  local_call : LocalCall -> W -> option nat * W;
  set_option : Easy -> EasyOption -> W -> option CurlError;
  perform : Easy -> option (list Z) -> W -> Performed * W;
}.

Section Transport.
Context {W : Type} `{FtpEnv W}.
Abbreviation ftp A := (mut W A FtpError) (only parsing).

Definition read_instant : ftp Z := fun w => let '(t, w') := instant w in (w', Ok t).
Definition call {A} (c : LocalCall) (a : A) : ftp A :=
  fun w => let '(fault, w') := local_call c w in (w', if fault is Some _ then Err Ftp_Io else Ok a).

Definition check_ftp_control (control : RemoteIoControl) : ftp unit :=
  lift (fun w => fail_if RemoteIoControl_is_cancelled control (flags_of w) with Ftp_Cancelled in Ok tt) ;;;
  now <- read_instant ;;
  lift (fun _ => fail_if control_deadline control <=? now with Ftp_DeadlineExceeded in Ok tt).

Definition check_transport_control (control : option RemoteIoControl) : ftp unit :=
  match control with Some control => check_ftp_control control | None => ret tt end.

Definition bounded_timeout (configured : Z) (control : option RemoteIoControl) : ftp Z :=
  check_transport_control control ;;;
  match control with
  | None => ret configured
  | Some control =>
      now <- read_instant ;;
      ret (Z.min configured (Z.max (Z.max 0 (control_deadline control - now)) 1000000))
  end.

(** [duration.as_secs()], at most a [c_long]. *)
Definition duration_seconds (duration : Z) : Z := Z.min i64_max (duration / 1000000000).

(** One option after the others; libcurl may refuse it. *)
Definition set (easy : Easy) (o : EasyOption) : ftp Easy :=
  fun w => (w, match set_option easy o w with
               | Some error => Err (FtpError_remote error None)
               | None => Ok (easy ++ [o])
               end).
Fixpoint set_all (easy : Easy) (l : list EasyOption) : ftp Easy :=
  match l with
  | [] => ret easy
  | o :: l' => easy <- set easy o ;; set_all easy l'
  end.

Variable config : FtpConfig.

Definition security_options : list EasyOption :=
  match security config with
  | ExplicitFtps =>
      [Opt_UseSsl UseSsl_All; Opt_FtpSslAuth 2; Opt_SslVerifyPeer true; Opt_SslVerifyHost true; Opt_SslMinTls12]
      ++ match ca_certificate_pem config with Some certificate => [Opt_CaInfoBlob certificate] | None => [] end
  | PlainFtp _ => [Opt_UseSsl UseSsl_None]
  end.

Definition prepare (path : FtpPath) (control : option RemoteIoControl) : ftp Easy :=
  check_transport_control control ;;;
  easy <- set_all [] [Opt_Url ("ftp://" +:+ authority config +:+ encoded path);
                      Opt_Username (cred_username (credentials config));
                      Opt_Password (cred_password (credentials config)); Opt_Proxy ""] ;;
  limit <- bounded_timeout (connect_timeout config) control ;;
  easy <- set easy (Opt_ConnectTimeout limit) ;;
  limit <- bounded_timeout (operation_timeout config) control ;;
  easy <- set_all easy [Opt_Timeout limit; Opt_Progress (is_some control); Opt_Verbose true; Opt_TcpKeepalive true;
                        Opt_TransferText 0; Opt_ResponseTimeout (duration_seconds (connect_timeout config))] ;;
  easy <- set_all easy security_options ;;
  binding <- lift (fun _ => active_binding (data_mode config)) ;;
  set easy (Opt_FtpPort binding).

(** [transfer.perform()] with the callbacks; the trace is what the debug
    callback has observed. *)
Definition run_transfer (easy : Easy) (source : option (list Z)) : ftp (Performed * ProtocolTrace) :=
  fun w => let '(p, w') := perform easy source w in
           (w', Ok (p, fold_left (fun events '(info, bytes) => observe info bytes events) (seen p) [])).

Definition verify_trace (p : Performed) (trace : ProtocolTrace) : ftp unit :=
  match security config with
  | ExplicitFtps => lift (fun _ => verify_for_result trace (is_ok (curl_result p)))
  | PlainFtp _ => ret tt
  end.

Definition finish (p : Performed) (trace : ProtocolTrace) (control : option RemoteIoControl) : ftp unit :=
  check_transport_control control ;;;
  verify_trace p trace ;;;
  lift (fun _ => map_err (fun error => FtpError_remote error (response_code p)) (curl_result p)).

Definition perform_collect (easy : Easy) (control : option RemoteIoControl) : ftp (list Z) :=
  done <- run_transfer easy None ;;
  let (p, trace) := done in
  finish p trace control ;;;
  ret (received_bytes p).

Definition perform_empty (easy : Easy) (control : option RemoteIoControl) : ftp unit :=
  done <- run_transfer easy None ;;
  let (p, trace) := done in
  finish p trace control.

(** ** [Transport] *)

Definition transport_list (path : FtpPath) (control : option RemoteIoControl) : ftp (list Z) :=
  directory <- (if ends_with "/" (FtpPath_str path) then ret path
                else lift (fun _ => FtpPath_new (FtpPath_str path +:+ "/"))) ;;
  easy <- prepare directory control ;;
  easy <- set easy (Opt_CustomRequest "MLSD") ;;
  perform_collect easy control.

(** [CommandList::new] refuses a NUL; [setopt] copies the list. *)
Definition transport_commands (commands : list string) (control : option RemoteIoControl) : ftp unit :=
  easy <- prepare FtpPath_root control ;;
  easy <- set easy (Opt_NoBody true) ;;
  lift (fun _ => fail_if existsb (contains_byte nul) commands
                   with Ftp_Configuration "FTP command must not contain NUL" in Ok tt) ;;;
  easy <- set easy (Opt_Quote commands) ;;
  perform_empty easy control.

Definition remote_size (path : FtpPath) (control : option RemoteIoControl) : ftp (option Z) :=
  easy <- prepare path control ;;
  easy <- set easy (Opt_NoBody true) ;;
  done <- run_transfer easy None ;;
  let (p, trace) := done in
  check_transport_control control ;;;
  verify_trace p trace ;;;
  match curl_result p with
  | Ok tt =>
      size <- lift (fun _ => map_err (fun error => FtpError_remote error None) (content_length p)) ;;
      lift (fun _ => fail_if size <? 0 with Ftp_Protocol "server returned an invalid remote file size" in
                     Ok (Some size))
  | Err error =>
      if eqb (response_code p) (Some 550) then ret None
      else throw (FtpError_remote error (response_code p))
  end.

Definition transport_read_chunk (remote : FtpPath) (offset max_bytes : Z) (control : option RemoteIoControl)
  : ftp (list Z * Z) :=
  check_transport_control control ;;;
  lift (fun _ => fail_if max_bytes =? 0 with Ftp_Configuration "read chunk size must be greater than zero" in Ok tt) ;;;
  found <- remote_size remote control ;;
  size <- lift (fun _ => ok_or (Ftp_Remote (Some 550) Fail_NotFound "FTP SIZE did not identify a regular file") found) ;;
  lift (fun _ => fail_if size <? offset
                   with Ftp_Protocol ("read offset " +:+ decimal_of offset +:+ " exceeds remote size "
                                      +:+ decimal_of size) in Ok tt) ;;;
  if offset =? size then ret ([], size)
  else
    let upto := Z.max 0 (Z.min (sat_u64 (offset + max_bytes)) size - 1) in
    easy <- prepare remote control ;;
    easy <- set easy (Opt_Range (decimal_of offset +:+ "-" +:+ decimal_of upto)) ;;
    bytes <- perform_collect easy control ;;
    lift (fun _ => fail_if negb (Z.of_nat (length bytes) =? upto - offset + 1)
                     with Ftp_Protocol "server did not return the exact requested FTP byte range" in Ok tt) ;;;
    again <- remote_size remote control ;;
    lift (fun _ => fail_if negb (eqb again (Some size))
                     with Ftp_Protocol "remote file size changed during the FTP range read" in
                   Ok (bytes, size)).

Definition transport_upload (local : list Z) (local_size offset : Z) (remote_part : FtpPath)
    (control : option RemoteIoControl) : ftp unit :=
  easy <- prepare remote_part control ;;
  easy <- set_all easy [Opt_Upload true; Opt_InFilesize local_size] ;;
  easy <- (if 0 <? offset then set easy (Opt_ResumeFrom offset) else ret easy) ;;
  done <- run_transfer easy (Some local) ;;
  let (p, trace) := done in
  if local_io_failed p then throw Ftp_Io else finish p trace control.

(** ** [AdapterCore] and [FtpAdapter] *)

Definition command (verb : string) (path : FtpPath) : ftp unit :=
  transport_commands [verb +:+ " " +:+ FtpPath_str path] None.

Definition adapter_list (directory : FtpPath) : ftp (list Z) := transport_list directory None.
Definition probe (control : option RemoteIoControl) : ftp unit := transport_commands ["NOOP"%string] control.
Definition stat_size (path : FtpPath) : ftp (option Z) := remote_size path None.
Definition create_directory (directory : FtpPath) : ftp unit := command "MKD" directory.
Definition remove_directory (directory : FtpPath) : ftp unit := command "RMD" directory.
Definition delete_file (file : FtpPath) : ftp unit := command "DELE" file.

(** [or_else]: the second on any failure of the first. *)
Definition delete_path (path : FtpPath) : ftp unit :=
  fun w => match delete_file path w with
           | (w', Ok tt) => (w', Ok tt)
           | (w', Err _) => remove_directory path w'
           end.

Definition rename_commands (from to : FtpPath) : list string :=
  ["RNFR " +:+ FtpPath_str from; "RNTO " +:+ FtpPath_str to].
Definition rename (from to : FtpPath) : ftp unit := transport_commands (rename_commands from to) None.

Definition upload_part_and_commit (input : list Z) (local_size offset : Z) (temporary final_path : FtpPath)
    (control : option RemoteIoControl) : ftp unit :=
  transport_upload input local_size offset temporary control ;;;
  found <- remote_size temporary control ;;
  uploaded_size <- lift (fun _ => ok_or (Ftp_Protocol
    "FTP SIZE could not verify the remote .part after upload; refusing final rename") found) ;;
  lift (fun _ => fail_if negb (uploaded_size =? local_size)
    with Ftp_Protocol ("remote .part size " +:+ decimal_of uploaded_size
           +:+ " after upload does not match local size " +:+ decimal_of local_size
           +:+ "; refusing final rename") in Ok tt) ;;;
  transport_commands (rename_commands temporary final_path) control.

(** [source] is the staging file: a regular file of its own, whose metadata and
    opening may fail. *)
Definition upload_with_temporary (source : list Z) (temporary final_path : FtpPath) (resume_from : option Z)
    (control : option RemoteIoControl) : ftp unit :=
  call Call_SymlinkMetadata tt ;;;
  metadata_len <- call Call_Metadata (Z.of_nat (length source)) ;;
  offset <- match resume_from with
            | Some expected =>
                found <- remote_size temporary control ;;
                let actual := default 0 found in
                lift (fun _ => fail_if negb (actual =? expected)
                  with Ftp_Protocol ("remote .part size " +:+ decimal_of actual
                         +:+ " does not match requested resume offset " +:+ decimal_of expected) in
                  Ok expected)
            | None => ret 0
            end ;;
  lift (fun _ => fail_if metadata_len <? offset
    with Ftp_Protocol ("resume offset " +:+ decimal_of offset +:+ " exceeds local size "
                       +:+ decimal_of metadata_len) in Ok tt) ;;;
  call Call_Open tt ;;;
  upload_part_and_commit source metadata_len offset temporary final_path control.
End Transport.
