(* ===== verification/FtpTransportFacts.v ===== *)
(** Transfers over explicit FTPS, and what an upload leaves on the server. *)

From S2P Require Import Prelude RemoteCore Text FtpProtocol FtpProtocolFacts FtpTransport.

(** ** Prepared handles *)

Section Prepared.
Context {W : Type} `{FtpEnv W}.
Variable config : FtpConfig.

Definition url_of (path : FtpPath) : string := "ftp://" +:+ authority config +:+ encoded path.

(** The options of [prepare], with the time-outs it has found. *)
Definition prepared (path : FtpPath) (control : bool) (connect total : Z) (binding : option string) : list EasyOption :=
  [Opt_Url (url_of path); Opt_Username (cred_username (credentials config));
   Opt_Password (cred_password (credentials config)); Opt_Proxy ""; Opt_ConnectTimeout connect;
   Opt_Timeout total; Opt_Progress control; Opt_Verbose true; Opt_TcpKeepalive true;
   Opt_TransferText 0; Opt_ResponseTimeout (duration_seconds (connect_timeout config))]
  ++ security_options config ++ [Opt_FtpPort binding].

Lemma set_ok easy o w w' easy' : set easy o w = (w', Ok easy') -> w' = w /\ easy' = easy ++ [o].
Proof. unfold set. by destruct (set_option easy o w); intros [= <- <-]. Qed.

Lemma set_all_ok l easy w w' easy' : set_all easy l w = (w', Ok easy') -> w' = w /\ easy' = easy ++ l.
Proof.
  revert easy w. induction l as [| o l IH]; intros easy w; simpl.
  - intros (-> & <-)%ret_ok. by rewrite app_nil_r.
  - intros (w1 & easy1 & (-> & ->)%set_ok & (-> & ->)%IH)%bind_ok. by rewrite <- app_assoc.
Qed.

Lemma prepare_ok path control w w' easy : prepare config path control w = (w', Ok easy) ->
  exists connect total binding, easy = prepared path (is_some control) connect total binding.
Proof.
  intros (w1 & [] & _ & H1)%bind_ok. apply bind_ok in H1 as (w2 & e1 & (-> & ->)%set_all_ok & H1).
  apply bind_ok in H1 as (w3 & t1 & _ & H1). apply bind_ok in H1 as (w4 & e2 & (-> & ->)%set_ok & H1).
  apply bind_ok in H1 as (w5 & t2 & _ & H1). apply bind_ok in H1 as (w6 & e3 & (-> & ->)%set_all_ok & H1).
  apply bind_ok in H1 as (w7 & e4 & (-> & ->)%set_all_ok & H1). apply bind_ok in H1 as (w8 & b & _ & H1).
  apply set_ok in H1 as [_ ->]. exists t1, t2, b. unfold prepared. by rewrite <- !app_assoc.
Qed.
End Prepared.

(** TLS on both channels, by AUTH TLS, with the server verified. *)
Definition requires_tls (easy : list EasyOption) : Prop :=
  Opt_UseSsl UseSsl_All ∈ easy /\ Opt_FtpSslAuth 2 ∈ easy /\ Opt_SslVerifyPeer true ∈ easy /\
  Opt_SslVerifyHost true ∈ easy /\ Opt_SslMinTls12 ∈ easy /\ (Opt_UseSsl UseSsl_None ∉ easy) /\
  (Opt_SslVerifyPeer false ∉ easy) /\ Opt_SslVerifyHost false ∉ easy.

(** What a request adds does not touch that. *)
Definition harmless (o : EasyOption) : bool :=
  match o with Opt_UseSsl _ | Opt_SslVerifyPeer _ | Opt_SslVerifyHost _ => false | _ => true end.

Lemma prepared_requires_tls config path control connect total binding extra :
  security config = ExplicitFtps -> forallb harmless extra = true ->
  requires_tls (prepared config path control connect total binding ++ extra).
Proof.
  intros Hs He. rewrite forallb_forall in He.
  assert (Hx : forall o, harmless o = false -> o ∉ extra).
  { intros o Ho Hin. rewrite list_elem_of_In in Hin. apply He in Hin. congruence. }
  unfold requires_tls, prepared, security_options. rewrite Hs.
  pose proof (Hx (Opt_UseSsl UseSsl_None) eq_refl). pose proof (Hx (Opt_SslVerifyPeer false) eq_refl).
  pose proof (Hx (Opt_SslVerifyHost false) eq_refl).
  destruct (ca_certificate_pem config); split_and!; rewrite elem_of_app.
  all: try (left; apply list_elem_of_In; simpl; auto 30; fail).
  all: intros [Hin%list_elem_of_In | Hin]; [| done]; simpl in Hin; intuition discriminate.
Qed.

(** ** Every transfer is recorded *)

Section Logged.
Context {W : Type} `{Env : FtpEnv W}.
Abbreviation log := (list (list EasyOption * Performed)) (only parsing).

(** The environment, with the transfers that were performed. *)
#[local] Instance logged : FtpEnv (W * log) := {
  instant s := let '(t, w) := instant s.1 in (t, (w, s.2));
  flags_of s := flags_of s.1;
  unix_millis s := let '(t, w) := unix_millis s.1 in (t, (w, s.2));
  new_uuid s := let '(u, w) := new_uuid s.1 in (u, (w, s.2));
  local_call c s := let '(f, w) := local_call c s.1 in (f, (w, s.2));
  set_option easy o s := set_option easy o s.1;
  perform easy source s := let '(p, w) := perform easy source s.1 in (p, (w, s.2 ++ [(easy, p)]));
}.

Definition trace_of (p : Performed) : list Event :=
  fold_left (fun events '(info, bytes) => observe info bytes events) (seen p) [].
Definition accepted (t : list EasyOption * Performed) : Prop :=
  safe_so_far (trace_of t.2) /\
  (is_ok (curl_result t.2) = true \/ (exists e, e ∈ trace_of t.2 /\ needs_protection e = true) -> protected (trace_of t.2)).

(** A program every transfer of which asks for TLS, and whose answer rests on
    accepted transfers alone. *)
Definition guarded {A} (m : mut (W * log) A FtpError) : Prop := forall s s' r, m s = (s', r) ->
  exists new, s'.2 = s.2 ++ new /\ Forall (fun t => requires_tls t.1) new /\ (is_ok r = true -> Forall accepted new).

Definition unlogged {A} (m : mut (W * log) A FtpError) : Prop := forall s s' r, m s = (s', r) -> s'.2 = s.2.

Lemma guarded_unlogged {A} (m : mut (W * log) A FtpError) : unlogged m -> guarded m.
Proof. intros Hm s s' r Hr. apply Hm in Hr as ->. exists []. by rewrite app_nil_r. Qed.

Lemma guarded_bind {A B} (m : mut (W * log) A FtpError) (k : A -> mut (W * log) B FtpError) :
  guarded m -> (forall a, guarded (k a)) -> guarded (bind m k).
Proof.
  intros Hm Hk s s' r. unfold bind. destruct (m s) as [s1 [a | e]] eqn:H1; apply Hm in H1 as (n1 & E1 & T1 & A1).
  - intros Hr. apply Hk in Hr as (n2 & E2 & T2 & A2). exists (n1 ++ n2). rewrite E2, E1, app_assoc. split_and!; [done | |].
    + by apply Forall_app.
    + intros Hok. apply Forall_app. by auto.
  - intros [= <- <-]. by exists n1.
Qed.

Lemma unlogged_bind {A B} (m : mut (W * log) A FtpError) (k : A -> mut (W * log) B FtpError) :
  unlogged m -> (forall a, unlogged (k a)) -> unlogged (bind m k).
Proof. apply (preserves_bind snd). Qed.
Lemma unlogged_ret {A} (a : A) : unlogged (ret a).
Proof. by intros s s' r [= <- _]. Qed.
Lemma unlogged_throw {A} e : unlogged (throw e : mut (W * log) A FtpError).
Proof. by intros s s' r [= <- _]. Qed.
Lemma unlogged_lift {A} (f : W * log -> result A FtpError) : unlogged (lift f).
Proof. by intros s s' r [= <- _]. Qed.
Lemma unlogged_instant : unlogged read_instant.
Proof. intros s s' r. unfold read_instant. simpl. destruct (instant s.1). by intros [= <- _]. Qed.
Lemma unlogged_call {A} c (a : A) : unlogged (call c a).
Proof. intros s s' r. unfold call. simpl. destruct (local_call c s.1). by intros [= <- _]. Qed.
Lemma unlogged_set easy o : unlogged (set easy o).
Proof. by intros s s' r [= <- _]. Qed.

Create HintDb ftps.
Hint Resolve unlogged_ret unlogged_throw unlogged_lift unlogged_instant unlogged_call unlogged_set : ftps.
Hint Extern 4 (unlogged (bind _ _)) => (apply unlogged_bind; [| intros ?]) : ftps.
Hint Extern 4 (unlogged (match ?x with _ => _ end)) => destruct x : ftps.

Lemma unlogged_check control : unlogged (check_transport_control control).
Proof. unfold check_transport_control, check_ftp_control. destruct control; auto with ftps. Qed.
Hint Resolve unlogged_check : ftps.
Lemma unlogged_timeout d control : unlogged (bounded_timeout d control).
Proof. unfold bounded_timeout. auto 6 with ftps. Qed.
Hint Resolve unlogged_timeout : ftps.
Lemma unlogged_set_all l easy : unlogged (set_all easy l).
Proof. revert easy. induction l; intros easy; simpl; auto with ftps. Qed.
Hint Resolve unlogged_set_all : ftps.

Context (config : FtpConfig) (Hsec : security config = ExplicitFtps).

Lemma unlogged_prepare path control : unlogged (prepare config path control).
Proof. unfold prepare. auto 20 with ftps. Qed.
Hint Resolve unlogged_prepare : ftps.
Lemma unlogged_finish p trace control : unlogged (finish config p trace control).
Proof. unfold finish, verify_trace. auto 10 with ftps. Qed.

(** A transfer and the verification that follows it. *)
Lemma guarded_transfer {A} easy source (k : Performed * list Event -> mut (W * log) A FtpError) :
  requires_tls easy ->
  (forall p s s' r, k (p, trace_of p) s = (s', r) ->
     s'.2 = s.2 /\ (is_ok r = true -> verify_for_result (trace_of p) (is_ok (curl_result p)) = Ok tt)) ->
  guarded (bind (run_transfer easy source) k).
Proof.
  intros Ht Hk s s' r. unfold bind, run_transfer. simpl. destruct (perform easy source s.1) as [p w] eqn:Hp.
  intros Hr. apply Hk in Hr as [E V]. exists [(easy, p)]. split_and!; [done | constructor; [done | constructor] |].
  intros Hok. constructor; [| constructor]. by apply verify_for_result_exact, V.
Qed.

Lemma guarded_prepare {A} path control (k : list EasyOption -> mut (W * log) A FtpError) :
  (forall connect total binding, guarded (k (prepared config path (is_some control) connect total binding))) ->
  guarded (bind (prepare config path control) k).
Proof.
  intros Hk s s' r. unfold bind. destruct (prepare config path control s) as [s1 [easy | e]] eqn:H1.
  - apply (unlogged_prepare path control) in H1 as E1. apply prepare_ok in H1 as (t1 & t2 & b & ->).
    intros Hr. apply Hk in Hr as (new & E2 & Hnew). exists new. by rewrite E2, E1.
  - apply (unlogged_prepare path control) in H1 as E1. intros [= <- <-]. exists []. by rewrite app_nil_r.
Qed.

Lemma guarded_set {A} easy o (k : list EasyOption -> mut (W * log) A FtpError) :
  guarded (k (easy ++ [o])) -> guarded (bind (set easy o) k).
Proof.
  intros Hk s s' r. unfold bind. destruct (set easy o s) as [s1 [e1 | e]] eqn:H1.
  - apply set_ok in H1 as [-> ->]. apply Hk.
  - apply (unlogged_set easy o) in H1 as E1. intros [= <- <-]. exists []. by rewrite app_nil_r.
Qed.

Hint Resolve unlogged_finish guarded_unlogged : ftps.

Lemma finish_verifies p control s s' r : finish config p (trace_of p) control s = (s', r) ->
  s'.2 = s.2 /\ (is_ok r = true -> verify_for_result (trace_of p) (is_ok (curl_result p)) = Ok tt).
Proof.
  intros Hr. split; [by eapply unlogged_finish |]. destruct r as [a | e]; [intros _ | done].
  apply bind_ok in Hr as (s1 & [] & _ & Hr). apply bind_ok in Hr as (s2 & [] & Hv & _).
  unfold verify_trace in Hv. rewrite Hsec in Hv. by apply lift_ok in Hv as [_ ?].
Qed.

Lemma finish_then {A} p control (a : A) s s' r :
  bind (finish config p (trace_of p) control) (fun _ => ret a) s = (s', r) ->
  s'.2 = s.2 /\ (is_ok r = true -> verify_for_result (trace_of p) (is_ok (curl_result p)) = Ok tt).
Proof.
  unfold bind. destruct (finish config p (trace_of p) control s) as [s1 [u | e]] eqn:H1;
    apply finish_verifies in H1 as [E V]; intros [= <- <-]; naive_solver.
Qed.

Lemma guarded_collect easy control : requires_tls easy -> guarded (perform_collect config easy control).
Proof. intros Ht. apply guarded_transfer; [done |]. intros p s s' r. apply finish_then. Qed.
Lemma guarded_empty easy control : requires_tls easy -> guarded (perform_empty config easy control).
Proof. intros Ht. apply guarded_transfer; [done |]. intros p s s' r. apply finish_verifies. Qed.

Ltac tls := rewrite <- ?app_assoc; by apply prepared_requires_tls.

Lemma guarded_list path control : guarded (transport_list config path control).
Proof.
  apply guarded_bind; [auto with ftps |]. intros d. apply guarded_prepare. intros t1 t2 b.
  apply guarded_set, guarded_collect. tls.
Qed.

Lemma guarded_commands l control : guarded (transport_commands config l control).
Proof.
  apply guarded_prepare. intros t1 t2 b. apply guarded_set.
  apply guarded_bind; [auto with ftps |]. intros []. apply guarded_set, guarded_empty. tls.
Qed.

Lemma guarded_size path control : guarded (remote_size config path control).
Proof.
  apply guarded_prepare. intros t1 t2 b. apply guarded_set, guarded_transfer; [tls |].
  intros p s s' r. cbv beta iota. intros Hr. split.
  - eapply unlogged_bind; [apply unlogged_check | | exact Hr]. intros []. apply unlogged_bind.
    + unfold verify_trace. destruct (security config); auto with ftps.
    + intros []. destruct (curl_result p) as [[] | e]; [| destruct (eqb _ _)]; auto with ftps.
  - intros Hok. destruct r as [a |]; [| done]. apply bind_ok in Hr as (s1 & [] & _ & Hr).
    apply bind_ok in Hr as (s2 & [] & Hv & _). unfold verify_trace in Hv. rewrite Hsec in Hv.
    by apply lift_ok in Hv as [_ ?].
Qed.
Hint Resolve guarded_list guarded_commands guarded_size : ftps.

Lemma guarded_read remote offset max_bytes control : guarded (transport_read_chunk config remote offset max_bytes control).
Proof.
  unfold transport_read_chunk. apply guarded_bind; [auto with ftps | intros []].
  apply guarded_bind; [auto with ftps | intros []]. apply guarded_bind; [auto with ftps | intros found].
  apply guarded_bind; [auto with ftps | intros size]. apply guarded_bind; [auto with ftps | intros []].
  destruct (offset =? size); [auto with ftps |]. apply guarded_prepare. intros t1 t2 b. apply guarded_set.
  apply guarded_bind; [apply guarded_collect; tls | intros l].
  apply guarded_bind; [auto with ftps | intros []]. apply guarded_bind; [auto with ftps | auto with ftps].
Qed.

Lemma guarded_set_all {A} l easy (k : list EasyOption -> mut (W * log) A FtpError) :
  guarded (k (easy ++ l)) -> guarded (bind (set_all easy l) k).
Proof.
  intros Hk s s' r. unfold bind. destruct (set_all easy l s) as [s1 [e1 | e]] eqn:H1.
  - apply set_all_ok in H1 as [-> ->]. apply Hk.
  - apply (unlogged_set_all l easy) in H1 as E1. intros [= <- <-]. exists []. by rewrite app_nil_r.
Qed.

Lemma guarded_upload local n offset part control : guarded (transport_upload config local n offset part control).
Proof.
  apply guarded_prepare. intros t1 t2 b. apply guarded_set_all.
  assert (Hrun : forall easy, requires_tls easy ->
    guarded (bind (run_transfer easy (Some local)) (fun done : Performed * list Event => let (p, trace) := done in
      if local_io_failed p then throw Ftp_Io else finish config p trace control))).
  { intros easy Ht. apply guarded_transfer; [done |]. intros p s s' r. cbv beta iota.
    destruct (local_io_failed p); [by intros [= <- <-] | apply finish_verifies]. }
  destruct (0 <? offset).
  - apply guarded_set, Hrun. tls.
  - change (bind (ret ?e) ?k) with (k e). cbv beta. apply Hrun. tls.
Qed.
Hint Resolve guarded_read guarded_upload : ftps.

Lemma guarded_upload_with_temporary source temporary final_path resume_from control :
  guarded (upload_with_temporary config source temporary final_path resume_from control).
Proof.
  unfold upload_with_temporary, upload_part_and_commit.
  apply guarded_bind; [auto with ftps | intros []]. apply guarded_bind; [auto with ftps | intros n].
  apply guarded_bind.
  { destruct resume_from; [| auto with ftps]. apply guarded_bind; auto with ftps. }
  intros offset. do 2 (apply guarded_bind; [auto with ftps | intros []]).
  apply guarded_bind; [auto with ftps | intros []]. apply guarded_bind; [auto with ftps | intros found].
  apply guarded_bind; [auto with ftps | intros size]. apply guarded_bind; auto with ftps.
Qed.

(** ** The theorem *)

(** The calls of the backend; [delete_path] answers from its second command
    alone, and is here as the two. *)
Inductive backend_call :=
| B_Probe (control : option RemoteIoControl) | B_List (p : FtpPath) | B_StatSize (p : FtpPath)
| B_CreateDirectory (p : FtpPath) | B_RemoveDirectory (p : FtpPath) | B_DeleteFile (p : FtpPath)
| B_Rename (from to : FtpPath)
| B_ReadChunk (p : FtpPath) (offset max_bytes : Z) (control : option RemoteIoControl)
| B_Upload (source : list Z) (temporary final_path : FtpPath) (resume_from : option Z) (control : option RemoteIoControl).

Definition done_with {S A E} (m : mut S A E) : mut S unit E := m ;;; ret tt.
Definition backend_run (c : backend_call) : mut (W * log) unit FtpError :=
  match c with
  | B_Probe control => probe config control
  | B_List p => done_with (adapter_list config p)
  | B_StatSize p => done_with (stat_size config p)
  | B_CreateDirectory p => create_directory config p
  | B_RemoveDirectory p => remove_directory config p
  | B_DeleteFile p => delete_file config p
  | B_Rename from to => rename config from to
  | B_ReadChunk p offset max_bytes control => done_with (transport_read_chunk config p offset max_bytes control)
  | B_Upload source temporary final_path resume_from control =>
      upload_with_temporary config source temporary final_path resume_from control
  end.

Lemma backend_guarded c : guarded (backend_run c).
Proof.
  destruct c; try apply guarded_commands; try apply guarded_upload_with_temporary;
    (apply guarded_bind; [first [apply guarded_list | apply guarded_size | apply guarded_read] |]);
    intros ?; auto with ftps.
Qed.
End Logged.


(** * Uploads against a server that keeps files: what the adapter relies on of
    FTP, and that an upload replaces its destination in full or not at all. *)

(** ** Requests *)

Fixpoint first_of {A} (f : EasyOption -> option A) (easy : list EasyOption) : option A :=
  match easy with [] => None | o :: easy => or_else (f o) (first_of f easy) end.
Definition opt_url (o : EasyOption) : option string := match o with Opt_Url u => Some u | _ => None end.
Definition opt_quote (o : EasyOption) : option (list string) := match o with Opt_Quote l => Some l | _ => None end.
Definition opt_resume (o : EasyOption) : option Z := match o with Opt_ResumeFrom n => Some n | _ => None end.

Inductive FtpRequest :=
| Req_Size (url : string) | Req_Commands (l : list string) | Req_Store (url : string) (offset : Z) | Req_Fetch.

Definition request_of (easy : list EasyOption) : FtpRequest :=
  match first_of opt_quote easy with
  | Some l => Req_Commands l
  | None =>
      let url := default EmptyString (first_of opt_url easy) in
      if contains (Opt_Upload true) easy then Req_Store url (default 0 (first_of opt_resume easy))
      else if contains (Opt_NoBody true) easy then Req_Size url
      else Req_Fetch
  end.

(** A server that alone changes its files, and only as it is asked to: [SIZE]
    answers the length of a file; an upload touches its file, and when it ends
    well has stored the input, or appended what is left of it; [RNFR]/[RNTO]
    moves a file or, when it fails, may have moved it. *)
Class FtpServer {W} `{FtpEnv W} (config : FtpConfig) (files : W -> gmap string (list Z)) := {
  idle_instant : forall w, files (instant w).2 = files w;
  idle_unix : forall w, files (unix_millis w).2 = files w;
  idle_uuid : forall w, files (new_uuid w).2 = files w;
  idle_local : forall c w, files (local_call c w).2 = files w;
  server_size : forall easy w p w' path, perform easy None w = (p, w') ->
    request_of easy = Req_Size (url_of config path) ->
    files w' = files w /\
    forall n, curl_result p = Ok tt -> content_length p = Ok n -> 0 <= n ->
      exists c, files w !! FtpPath_str path = Some c /\ n = Z.of_nat (length c);
  server_store : forall easy input w p w' path offset, perform easy (Some input) w = (p, w') ->
    request_of easy = Req_Store (url_of config path) offset ->
    exists after, files w' = partial_alter (fun _ => after) (FtpPath_str path) (files w) /\
      (curl_result p = Ok tt -> local_io_failed p = false ->
       after = Some (if 0 <? offset
                     then default [] (files w !! FtpPath_str path) ++ drop (Z.to_nat offset) input
                     else input));
  server_rename : forall easy w p w' from to, perform easy None w = (p, w') ->
    request_of easy = Req_Commands (rename_commands from to) ->
    (files w' = files w /\ curl_result p <> Ok tt) \/
    exists c, files w !! FtpPath_str from = Some c /\
      files w' = <[FtpPath_str to := c]> (delete (FtpPath_str from) (files w));
}.

Section Server.
Context {W : Type} `{Env : FtpEnv W} (config : FtpConfig) (files : W -> gmap string (list Z)) `{!FtpServer config files}.

Lemma size_request path control t1 t2 b :
  request_of (prepared config path control t1 t2 b ++ [Opt_NoBody true]) = Req_Size (url_of config path).
Proof.
  unfold prepared, security_options. destruct (security config); [destruct (ca_certificate_pem config) |]; reflexivity.
Qed.
Lemma commands_request path control t1 t2 b l :
  request_of ((prepared config path control t1 t2 b ++ [Opt_NoBody true]) ++ [Opt_Quote l]) = Req_Commands l.
Proof.
  unfold prepared, security_options. destruct (security config); [destruct (ca_certificate_pem config) |]; reflexivity.
Qed.
Lemma store_request path control t1 t2 b n offset :
  request_of ((prepared config path control t1 t2 b ++ [Opt_Upload true; Opt_InFilesize n]) ++
              (if 0 <? offset then [Opt_ResumeFrom offset] else []))
  = Req_Store (url_of config path) (if 0 <? offset then offset else 0).
Proof.
  unfold prepared, security_options.
  destruct (security config); [destruct (ca_certificate_pem config) |]; destruct (0 <? offset); reflexivity.
Qed.

(** ** Calls that leave the files alone *)

Abbreviation keeps m := (preserves files m) (only parsing).

Lemma files_kept_ret {A E} (a : A) : keeps (ret a : mut W A E).
Proof. by intros w w' r [= <- _]. Qed.
Lemma files_kept_throw {A E} (e : E) : keeps (throw e : mut W A E).
Proof. by intros w w' r [= <- _]. Qed.
Lemma files_kept_lift {A E} (f : W -> result A E) : keeps (lift f).
Proof. by intros w w' r [= <- _]. Qed.
Lemma keeps_instant : keeps read_instant.
Proof. intros w w' r. unfold read_instant. pose proof (idle_instant w). destruct (instant w). by intros [= <- _]. Qed.
Lemma keeps_call {A} c (a : A) : keeps (call c a).
Proof. intros w w' r. unfold call. pose proof (idle_local c w). destruct (local_call c w). by intros [= <- _]. Qed.
Lemma keeps_set easy o : keeps (set easy o).
Proof. by intros w w' r [= <- _]. Qed.

Create HintDb keeping.
Hint Resolve files_kept_ret files_kept_throw files_kept_lift keeps_instant keeps_call keeps_set : keeping.
Hint Extern 4 (preserves _ (bind _ _)) => (apply preserves_bind; [| intros ?]) : keeping.
Hint Extern 4 (preserves _ (match ?x with _ => _ end)) => destruct x : keeping.

Lemma keeps_check control : keeps (check_transport_control control).
Proof. unfold check_transport_control, check_ftp_control. destruct control; auto with keeping. Qed.
Hint Resolve keeps_check : keeping.
Lemma files_kept_timeout d control : keeps (bounded_timeout d control).
Proof. unfold bounded_timeout. auto 6 with keeping. Qed.
Hint Resolve files_kept_timeout : keeping.
Lemma keeps_set_all l easy : keeps (set_all easy l).
Proof. revert easy. induction l; intros easy; simpl; auto with keeping. Qed.
Hint Resolve keeps_set_all : keeping.
Lemma keeps_prepare path control : keeps (prepare config path control).
Proof. unfold prepare. auto 20 with keeping. Qed.
Hint Resolve keeps_prepare : keeping.
Lemma keeps_verify p trace : keeps (verify_trace config p trace).
Proof. unfold verify_trace. auto with keeping. Qed.
Hint Resolve keeps_verify : keeping.
Lemma keeps_finish p trace control : keeps (finish config p trace control).
Proof. unfold finish. auto with keeping. Qed.
Hint Resolve keeps_finish : keeping.

Lemma finish_ok p trace control w w' : finish config p trace control w = (w', Ok tt) -> curl_result p = Ok tt.
Proof.
  intros H1. apply bind_ok in H1 as (w1 & [] & _ & H1). apply bind_ok in H1 as (w2 & [] & _ & H1).
  apply lift_ok in H1 as [_ H1]. by apply map_err_ok in H1.
Qed.

(** A transfer, and what comes after it. *)
Lemma transfer_run {A} easy source (k : Performed * list Event -> mut W A FtpError) w w' r :
  bind (run_transfer easy source) k w = (w', r) ->
  exists p w1 trace, perform easy source w = (p, w1) /\ k (p, trace) w1 = (w', r).
Proof.
  unfold bind, run_transfer. destruct (perform easy source w) as [p w1] eqn:Hp. intros Hr.
  by exists p, w1, (fold_left (fun events '(info, bytes) => observe info bytes events) (seen p) []).
Qed.

Lemma remote_size_run path control w w' r : remote_size config path control w = (w', r) ->
  files w' = files w /\
  forall n, r = Ok (Some n) -> exists c, files w !! FtpPath_str path = Some c /\ n = Z.of_nat (length c).
Proof.
  unfold remote_size. intros Hr. unfold bind at 1 in Hr.
  destruct (prepare config path control w) as [w1 [easy | e]] eqn:H1;
    apply (keeps_prepare path control) in H1 as E1; [| injection Hr as <- <-; by split].
  apply prepare_ok in H1 as (t1 & t2 & b & ->). unfold bind at 1 in Hr.
  destruct (set _ _ w1) as [w2 [easy | e]] eqn:H2; [| injection Hr as <- <-; by apply keeps_set in H2 as E2; rewrite E2].
  apply set_ok in H2 as [-> ->]. apply transfer_run in Hr as (p & w2 & trace & Hp & Hr).
  destruct (server_size _ _ _ _ path Hp (size_request _ _ _ _ _)) as [Hf Hn]. cbv beta iota in Hr.
  assert (E : files w' = files w2).
  { revert Hr. apply (preserves_bind files); [auto with keeping | intros []].
    apply preserves_bind; [auto with keeping | intros []]. auto 10 with keeping. }
  rewrite E, Hf, E1. split; [done |]. intros n ->. rewrite <- E1.
  apply bind_ok in Hr as (w3 & [] & _ & Hr). apply bind_ok in Hr as (w4 & [] & _ & Hr).
  destruct (curl_result p) as [[] | e].
  - apply bind_ok in Hr as (w5 & size & Hs & Hr). apply lift_ok in Hs as [_ Hs]. apply map_err_ok in Hs.
    apply lift_ok in Hr as [_ Hr]. destruct (size <? 0) eqn:Hneg; [done |]. injection Hr as <-. apply Hn; [done | done | lia].
  - by destruct (eqb _ _).
Qed.

Lemma keeps_size path control : keeps (remote_size config path control).
Proof. intros w w' r Hr. by apply remote_size_run in Hr as [? _]. Qed.
Hint Resolve keeps_size : keeping.

(** ** Uploads *)

Lemma upload_run local n offset part control w w' r :
  0 <= offset -> transport_upload config local n offset part control w = (w', r) ->
  (forall q, q <> FtpPath_str part -> files w' !! q = files w !! q) /\
  (r = Ok tt -> files w' !! FtpPath_str part =
     Some (if 0 <? offset then default [] (files w !! FtpPath_str part) ++ drop (Z.to_nat offset) local else local)).
Proof.
  intros Ho Hr. unfold transport_upload in Hr. unfold bind at 1 in Hr.
  destruct (prepare config part control w) as [w1 [easy | e]] eqn:H1;
    apply (keeps_prepare part control) in H1 as E1; [| injection Hr as <- <-; split; [by rewrite E1 | done]].
  apply prepare_ok in H1 as (t1 & t2 & b & ->). unfold bind at 1 in Hr.
  destruct (set_all _ _ w1) as [w2 [easy | e]] eqn:H2; apply (keeps_set_all _ _) in H2 as E2;
    [| injection Hr as <- <-; split; [by rewrite E2, E1 | done]].
  apply set_all_ok in H2 as [-> ->]. unfold bind at 1 in Hr.
  match type of Hr with context [(if 0 <? offset then ?a else ?b) w1] =>
    destruct ((if 0 <? offset then a else b) w1) as [w2 [easy | e]] eqn:H2 end.
  2: { injection Hr as <- <-. split; [| done]. destruct (0 <? offset); [| done].
       apply keeps_set in H2 as E3. by rewrite E3, E1. }
  assert (Heasy : w2 = w1 /\ easy = (prepared config part (is_some control) t1 t2 b ++ [Opt_Upload true; Opt_InFilesize n])
                     ++ (if 0 <? offset then [Opt_ResumeFrom offset] else [])).
  { destruct (0 <? offset); [by apply set_ok in H2 |]. injection H2 as <- <-. by rewrite app_nil_r. }
  destruct Heasy as [-> ->]. clear H2. apply transfer_run in Hr as (p & w3 & trace & Hp & Hr).
  destruct (server_store _ _ _ _ _ part _ Hp (store_request _ _ _ _ _ _ _)) as (after & Hf & Ha).
  cbv beta iota in Hr. rewrite <- E1.
  assert (E : files w' = files w3).
  { revert Hr. destruct (local_io_failed p); [apply files_kept_throw | apply keeps_finish]. }
  rewrite E, Hf. split.
  - intros q Hq. by rewrite lookup_partial_alter_ne.
  - intros ->. rewrite lookup_partial_alter_eq. destruct (local_io_failed p) eqn:Hio; [done |].
    apply finish_ok in Hr. rewrite (Ha Hr eq_refl). destruct (0 <? offset) eqn:Hoff; [by rewrite Hoff | done].
Qed.

(** A pair of rename commands, done or not. *)
Lemma rename_run from to control w w' r :
  transport_commands config (rename_commands from to) control w = (w', r) ->
  (files w' = files w /\ r <> Ok tt) \/
  exists c, files w !! FtpPath_str from = Some c /\
    files w' = <[FtpPath_str to := c]> (delete (FtpPath_str from) (files w)).
Proof.
  intros Hr. unfold transport_commands in Hr. unfold bind at 1 in Hr.
  destruct (prepare config FtpPath_root control w) as [w1 [easy | e]] eqn:H1;
    apply (keeps_prepare FtpPath_root control) in H1 as E1; [| injection Hr as <- <-; by left].
  apply prepare_ok in H1 as (t1 & t2 & b & ->). unfold bind at 1 in Hr.
  destruct (set _ _ w1) as [w2 [easy | e]] eqn:H2; apply keeps_set in H2 as E2;
    [| injection Hr as <- <-; left; by rewrite E2, E1].
  apply set_ok in H2 as [-> ->]. unfold bind at 1 in Hr. destruct (lift _ w1) as [w2 [[] | e]] eqn:H2.
  2: { injection Hr as <- <-. apply files_kept_lift in H2 as E3. left. by rewrite E3, E1. }
  apply lift_ok in H2 as [-> _]. unfold bind at 1 in Hr.
  destruct (set _ _ w1) as [w2 [easy | e]] eqn:H2; apply keeps_set in H2 as E3;
    [| injection Hr as <- <-; left; by rewrite E3, E1].
  apply set_ok in H2 as [-> ->]. apply transfer_run in Hr as (p & w3 & trace & Hp & Hr). cbv beta iota in Hr.
  apply keeps_finish in Hr as E4. rewrite E4, <- E1.
  destruct (server_rename _ _ _ _ from to Hp (commands_request _ _ _ _ _ _)) as [[Hf Hn] | (c & Hc & Hf)].
  - left. split; [done |]. intros ->. by apply finish_ok in Hr.
  - right. by exists c.
Qed.

(** What an upload makes of its destination. *)
Definition uploaded (source : list Z) (resume_from : option Z) (partial : option (list Z)) : list Z :=
  let offset := default 0 resume_from in
  if 0 <? offset then default [] partial ++ drop (Z.to_nat offset) source else source.

(** The commit: the temporary file has the content, and is then moved. *)
Lemma commit_run source n offset temporary final_path control w w' r partial :
  0 <= offset -> files w !! FtpPath_str temporary = partial ->
  FtpPath_str temporary <> FtpPath_str final_path ->
  upload_part_and_commit config source n offset temporary final_path control w = (w', r) ->
  (forall q, q <> FtpPath_str temporary -> q <> FtpPath_str final_path -> files w' !! q = files w !! q) /\
  ((files w' !! FtpPath_str final_path = files w !! FtpPath_str final_path /\ r <> Ok tt) \/
   files w' !! FtpPath_str final_path = Some (uploaded source (Some offset) partial) /\
   files w' !! FtpPath_str temporary = None /\
   Z.of_nat (length (uploaded source (Some offset) partial)) = n).
Proof.
  intros Ho Hpart Hne Hr. unfold upload_part_and_commit in Hr. unfold bind at 1 in Hr.
  destruct (transport_upload config source n offset temporary control w) as [w1 [[] | e]] eqn:H1;
    apply upload_run in H1 as [Hother Hstored]; try done.
  2: { injection Hr as <- <-. split; [by intros; apply Hother | left]. split; [by apply Hother | done]. }
  specialize (Hstored eq_refl). rewrite Hpart in Hstored.
  change (files w1 !! FtpPath_str temporary = Some (uploaded source (Some offset) partial)) in Hstored.
  unfold bind at 1 in Hr. destruct (remote_size config temporary control w1) as [w2 [found | e]] eqn:H2;
    apply remote_size_run in H2 as [E2 Hsize].
  2: { injection Hr as <- <-. rewrite E2. split; [by intros; apply Hother | left]. split; [by apply Hother | done]. }
  unfold bind at 1 in Hr. destruct found as [size |]; cbn [ok_or lift] in Hr.
  2: { injection Hr as <- <-. rewrite E2. split; [by intros; apply Hother | left]. split; [by apply Hother | done]. }
  destruct (Hsize size eq_refl) as (c & Hc & ->). rewrite Hstored in Hc. injection Hc as <-.
  unfold bind at 1, lift in Hr. destruct (Z.of_nat _ =? n) eqn:Hn; cbn [negb] in Hr.
  2: { injection Hr as <- <-. rewrite E2. split; [by intros; apply Hother | left]. split; [by apply Hother | done]. }
  apply Z.eqb_eq in Hn. apply rename_run in Hr as [[Hf Hnot] | (c & Hc & Hf)].
  - rewrite Hf, E2. split; [by intros; apply Hother | left]. split; [by apply Hother | done].
  - rewrite E2, Hstored in Hc. injection Hc as <-. rewrite Hf, E2. split.
    + intros q Hq1 Hq2. rewrite lookup_insert_ne, lookup_delete_ne by done. by apply Hother.
    + right. rewrite lookup_insert_eq. split_and!; [done | | done].
      by rewrite lookup_insert_ne, lookup_delete_eq by done.
Qed.

Lemma upload_run_with_temporary source temporary final_path resume_from control w w' r :
  0 <= default 0 resume_from -> FtpPath_str temporary <> FtpPath_str final_path ->
  upload_with_temporary config source temporary final_path resume_from control w = (w', r) ->
  let content := uploaded source resume_from (files w !! FtpPath_str temporary) in
  (forall q, q <> FtpPath_str temporary -> q <> FtpPath_str final_path -> files w' !! q = files w !! q) /\
  ((files w' !! FtpPath_str final_path = files w !! FtpPath_str final_path /\ r <> Ok tt) \/
   files w' !! FtpPath_str final_path = Some content /\ files w' !! FtpPath_str temporary = None /\
   length content = length source).
Proof.
  intros Ho Hne Hr content. unfold upload_with_temporary in Hr. unfold bind at 1 in Hr.
  destruct (call Call_SymlinkMetadata tt w) as [w1 [[] | e]] eqn:H1; apply keeps_call in H1 as E1;
    [| injection Hr as <- <-; rewrite E1; naive_solver].
  unfold bind at 1 in Hr. destruct (call Call_Metadata _ w1) as [w2 [n | e]] eqn:H2; apply keeps_call in H2 as E2;
    [| injection Hr as <- <-; rewrite E2, E1; naive_solver].
  assert (Hn : n = Z.of_nat (length source)).
  { revert H2. unfold call. destruct (local_call _ w1) as [[] ?]; by intros [= _ <-]. }
  unfold bind at 1 in Hr.
  match type of Hr with context [(match resume_from with Some e => @?a e | None => ?b end) w2] =>
    destruct ((match resume_from with Some e => a e | None => b end) w2) as [w3 [offset | e]] eqn:H3 end.
  2: { injection Hr as <- <-. assert (E3 : files w3 = files w2).
       { revert H3. destruct resume_from; [| done]. apply preserves_bind; [auto with keeping | intros ?; auto with keeping]. }
       rewrite E3, E2, E1. naive_solver. }
  assert (H3' : files w3 = files w2 /\ offset = default 0 resume_from).
  { destruct resume_from as [expected |]; [| by injection H3 as <- <-].
    apply bind_ok in H3 as (w4 & found & H3 & H4). apply keeps_size in H3 as E3.
    apply lift_ok in H4 as [-> H4]. destruct (negb _); [done |]. by injection H4 as <-. }
  destruct H3' as [E3 ->]. clear H3. unfold bind at 1, lift in Hr. destruct (n <? default 0 resume_from).
  { injection Hr as <- <-. rewrite E3, E2, E1. naive_solver. }
  unfold bind at 1 in Hr. destruct (call Call_Open tt w3) as [w4 [[] | e]] eqn:H4; apply keeps_call in H4 as E4;
    [| injection Hr as <- <-; rewrite E4, E3, E2, E1; naive_solver].
  eapply (commit_run _ _ _ _ _ _ _ _ _ (files w !! FtpPath_str temporary)) in Hr as [Hother Hend];
    [| done | by rewrite E4, E3, E2, E1 | done].
  rewrite E4, E3, E2, E1 in Hother, Hend. split; [done |]. destruct Hend as [Hend | (Hf & Ht & Hl)]; [by left | right].
  split_and!; [exact Hf | exact Ht |]. subst content. apply Nat2Z.inj. by rewrite <- Hn, <- Hl.
Qed.

End Server.
