(* ===== verification/FtpSession.v ===== *)
(** [crates/remote-ftp/src/remote_core.rs]: the adapter and its sessions.

    An upload is staged in a temporary file of its own and goes to the server
    when it is committed. A session is used by one call at a time; its mutexes
    are not poisoned. The secret store is a parameter. *)
From S2P Require Import Prelude RemoteCore Text FtpProtocol FtpTransport.

(** ** Errors *)

Definition remote_error (kind : RemoteErrorKind) (operation : RemoteOperation) (reason : string)
    (retry : RetryDisposition) : RemoteError :=
  {| err_kind := kind; err_operation := operation; err_reason := static_reason reason; err_retry := retry |}.
Definition invalid_input (operation : RemoteOperation) (reason : string) : RemoteError :=
  remote_error EK_InvalidInput operation reason Retry_Never.
Definition unsupported (operation : RemoteOperation) (reason : string) : RemoteError :=
  remote_error EK_Unsupported operation reason Retry_UserAction.
Definition internal_state_error : RemoteError :=
  remote_error EK_Transport Op_Disconnect "ftp_internal_state_unavailable" Retry_Never.

Inductive SecretStoreError := Store_Locked | Store_PermissionDenied | Store_Unavailable | Store_NotFound | Store_Backend.

Definition map_secret_error (error : SecretStoreError) : RemoteError :=
  let '(reason, retry) := match error with
    | Store_Locked => ("secret_store_locked"%string, Retry_UserAction)
    | Store_PermissionDenied => ("secret_store_permission_denied"%string, Retry_UserAction)
    | Store_Unavailable => ("secret_store_unavailable"%string, Retry_Backoff)
    | Store_NotFound => ("secret_store_item_not_found"%string, Retry_UserAction)
    | Store_Backend => ("secret_store_backend_failed"%string, Retry_Backoff)
    end in
  remote_error EK_SecretStore Op_ResolveSecret reason retry.

Definition map_ftp_error (operation : RemoteOperation) (error : FtpError) : RemoteError :=
  match error with
  | Ftp_Cancelled => remote_error EK_Cancelled operation "remote_io_cancelled" Retry_Never
  | Ftp_DeadlineExceeded => remote_error EK_Timeout operation "remote_io_deadline_elapsed" Retry_Backoff
  | Ftp_Configuration _ => invalid_input operation "ftp_invalid_configuration"
  | Ftp_Policy _ => unsupported operation "ftp_policy_rejected"
  | Ftp_Protocol _ => remote_error EK_RemoteProtocol operation "ftp_protocol_verification_failed" Retry_Never
  | Ftp_Remote code failure _ =>
      match (if eqb code (Some 530) then Fail_Authentication
             else if eqb code (Some 550) then Fail_NotFound else failure) with
      | Fail_Trust => remote_error EK_Trust operation "ftps_trust_verification_failed" Retry_UserAction
      | Fail_Authentication => remote_error EK_Authentication operation "ftp_authentication_failed" Retry_Reauthenticate
      | Fail_PermissionDenied => remote_error EK_PermissionDenied operation "ftp_permission_denied" Retry_UserAction
      | Fail_NotFound => remote_error EK_NotFound operation "ftp_path_not_found" Retry_UserAction
      | Fail_Timeout => remote_error EK_Timeout operation "ftp_operation_timed_out" Retry_Backoff
      | Fail_Protocol => remote_error EK_RemoteProtocol operation "ftp_command_failed" Retry_Never
      | Fail_Transport => remote_error EK_Transport operation "ftp_transport_failed" Retry_Backoff
      end
  | Ftp_Io => remote_error EK_Transport operation "ftp_local_io_failed" Retry_UserAction
  end.

Definition SET_PERMISSIONS_UNSUPPORTED : string := "ftp_set_permissions_not_implemented".
Definition IDENTITY_PRECONDITION_UNSUPPORTED : string := "ftp_identity_precondition_not_supported".
Definition ATOMIC_RENAME_UNVERIFIED : string := "ftp_atomic_rename_not_endpoint_verified".

Definition ftp_status (operation : FileOperation) : CapabilityStatus :=
  match operation with
  | FileOp_AtomicRename => Cap_Unsupported (static_reason ATOMIC_RENAME_UNVERIFIED)
  | FileOp_SetPermissions => Cap_Unsupported (static_reason SET_PERMISSIONS_UNSUPPORTED)
  | _ => Cap_Supported
  end.
(** [expect] on [CapabilityMatrix::complete], which takes these rows
    ([ftp_capabilities_complete]). *)
Definition ftp_capabilities : CapabilityMatrix :=
  {| matrix_rows := (fun op => {| cap_operation := op; cap_status := ftp_status op |}) <$> FILE_OPERATIONS |}.
Example ftp_capabilities_complete : CapabilityMatrix_complete (matrix_rows ftp_capabilities) = Ok ftp_capabilities.
Proof. reflexivity. Qed.

(** ** Listings *)

Record MlsdEntry := { mlsd_name : string; mlsd_kind : EntryKind; mlsd_size_bytes : option Z }.

(** The loop over the facts; [None] leaves the line out. *)
Fixpoint mlsd_facts (facts : list string) (kind : EntryKind) (size : option Z) : option (EntryKind * option Z) :=
  match facts with
  | [] => Some (kind, size)
  | fact :: facts =>
      '(key, value) ← split_once "=" fact;
      if str_eq_ignore_ascii_case key "type" then
        if str_eq_ignore_ascii_case value "cdir" || str_eq_ignore_ascii_case value "pdir" then None
        else mlsd_facts facts
               (if str_eq_ignore_ascii_case value "file" then File
                else if str_eq_ignore_ascii_case value "dir" then Directory
                else if starts_with "os.unix=slink" (ascii_lowercase value) then Symlink
                else OtherEntry) size
      else if str_eq_ignore_ascii_case key "size" then mlsd_facts facts kind (parse_u64 value)
      else mlsd_facts facts kind size
  end.

Definition parse_mlsd_entry (line : string) : option MlsdEntry :=
  '(facts, name) ← split_once " " line;
  let name := str_trim_start name in
  if is_empty name then None
  else
    '(kind, size) ← mlsd_facts (List.filter (fun f => negb (is_empty f)) (split_char ";" facts)) OtherEntry None;
    Some {| mlsd_name := name; mlsd_kind := kind;
            mlsd_size_bytes := match kind with Directory => None | _ => size end |}.

Fixpoint trim_slashes (l : list string) : list string :=
  match l with
  | [] => []
  | s :: l' => match trim_slashes l' with
               | [] => if is_empty s then [] else [s]
               | l'' => s :: l''
               end
  end.
(** The last part of a path, but for slashes at its end. *)
Definition path_name (path : RemotePath) : string :=
  default "/"%string (last (trim_slashes (split_char "/" (RemotePath_str path)))).

(** ** Sessions *)

Record PendingWrite := {
  staged : list Z;
  pending_final_path : RemotePath;
  pending_temporary_path : RemotePath;
  pending_expected_size : option Z;
  pending_resume_from : option Z;
  pending_next_offset : Z;
}.

Record FtpRemoteSession := {
  snapshot : RemoteSession;
  writes : gmap Uuid PendingWrite;
  backend : FtpConfig;
}.
Definition put_snapshot (s : RemoteSession) (f : FtpRemoteSession) : FtpRemoteSession :=
  {| snapshot := s; writes := writes f; backend := backend f |}.
Definition put_writes (ws : gmap Uuid PendingWrite) (f : FtpRemoteSession) : FtpRemoteSession :=
  {| snapshot := snapshot f; writes := ws; backend := backend f |}.

(** [seek] and [write_all] at an offset, as far as [count] bytes. *)
Definition write_at (file : list Z) (offset : nat) (bytes : list Z) : list Z :=
  take offset (file ++ replicate (offset - length file) 0) ++ bytes ++ drop (offset + length bytes) file.
Definition after_write (p : PendingWrite) (offset : Z) (bytes : list Z) (next : Z) : PendingWrite :=
  {| staged := write_at (staged p) (Z.to_nat offset) bytes; pending_final_path := pending_final_path p;
     pending_temporary_path := pending_temporary_path p; pending_expected_size := pending_expected_size p;
     pending_resume_from := pending_resume_from p; pending_next_offset := next |}.

Definition ftp_path (path : RemotePath) (operation : RemoteOperation) : result FtpPath RemoteError :=
  map_err (fun _ => invalid_input operation "ftp_remote_path_must_be_absolute") (FtpPath_new (RemotePath_str path)).

Section Session.
Context {W : Type} `{FtpEnv W}.
Abbreviation session A := (mut (FtpRemoteSession * W) A RemoteError) (only parsing).

Definition require {A} (r : result A RemoteError) : session A := lift (fun _ => r).
Definition on_world {A E} (m : mut W A E) : mut (FtpRemoteSession * W) A E :=
  zoom snd (fun w s => (s.1, w)) m.
(** A call of the backend, which is an [FtpAdapter]. *)
Definition on_backend {A} (operation : RemoteOperation) (m : FtpConfig -> mut W A FtpError) : session A :=
  fun s => mut_map_err (map_ftp_error operation) (on_world (m (backend s.1))) s.
Definition local {A} (operation : RemoteOperation) (reason : string) (c : LocalCall) (a : A) : session A :=
  mut_map_err (fun _ => remote_error EK_Transport operation reason Retry_UserAction) (on_world (call c a)).

Definition check_control (control : option RemoteIoControl) (operation : RemoteOperation) : mut W unit RemoteError :=
  match control with
  | None => ret tt
  | Some control => fun w => let '(now, w') := instant w in (w', RemoteIoControl_check control (flags_of w) now operation)
  end.
Definition check (control : RemoteIoControl) (operation : RemoteOperation) : session unit :=
  on_world (check_control (Some control) operation).

Definition unix_time_ms : mut W Z RemoteError :=
  fun w => let '(t, w') := unix_millis w in (w', ok_or internal_state_error (t ≫= checked_i64)).
Definition fresh_id {E} : mut W Uuid E := fun w => let '(u, w') := new_uuid w in (w', Ok u).

Definition ensure_ready (operation : RemoteOperation) : session unit :=
  lift (fun s => fail_if negb (eqb (session_state (snapshot s.1)) Ready)
                   with invalid_input operation "ftp_session_not_ready" in Ok tt).
(** [None] is the panic of [status] on an incomplete matrix, which no session
    has ([ftp_capabilities_complete]). *)
Definition ensure_capability (capability : FileOperation) (operation : RemoteOperation) : session unit :=
  lift (fun s => match CapabilityMatrix_status (session_capabilities (snapshot s.1)) capability with
                 | Some Cap_Supported => Ok tt
                 | Some (Cap_Unsupported reason) => Err (unsupported operation (SafeReason_str reason))
                 | None => Err internal_state_error
                 end).

Definition entry (path : RemotePath) (kind : EntryKind) (size : option Z) (s : FtpRemoteSession) : RemoteEntry :=
  {| entry_name := path_name path; entry_path := path; entry_kind := kind;
     entry_identity := {| size_bytes := size; modified_at_unix_ms := None; etag := None |};
     entry_unix_mode := None; entry_capabilities := session_capabilities (snapshot s) |}.
Definition the_entry (path : RemotePath) (kind : EntryKind) (size : option Z) : session RemoteEntry :=
  gets (fun s => entry path kind size s.1).

(** *** Directories *)

Definition listed_path (directory : RemotePath) (name : string) : result RemotePath RemoteError :=
  map_err (fun _ => remote_error EK_RemoteProtocol Op_List "ftp_listing_path_invalid" Retry_Never)
    (RemotePath_new
      (if starts_with "/" name then name
       else if ends_with "/" (RemotePath_str directory) then RemotePath_str directory +:+ name
       else RemotePath_str directory +:+ "/" +:+ name)).

Fixpoint collect_entries (directory : RemotePath) (l : list MlsdEntry) (s : FtpRemoteSession)
  : result (list RemoteEntry) RemoteError :=
  match l with
  | [] => Ok []
  | e :: l =>
      let? path := listed_path directory (mlsd_name e) in
      let? entries := collect_entries directory l s in
      Ok (entry path (mlsd_kind e) (mlsd_size_bytes e) s :: entries)
  end.

Definition listing_lines (listing : string) : list string :=
  List.filter (fun l => negb (is_empty l)) ((fun l => default l (strip_suffix (String carriage_return EmptyString) l)) <$> lines listing).

Definition list_entries (directory : RemotePath) (bytes : list Z) (s : FtpRemoteSession)
  : result (list RemoteEntry) RemoteError :=
  fail_if negb (valid_utf8 bytes)
    with remote_error EK_RemoteProtocol Op_List "ftp_listing_not_utf8" Retry_Never in
  collect_entries directory (omap parse_mlsd_entry (listing_lines (string_of_bytes bytes))) s.

Definition session_list (path : RemotePath) : session (list RemoteEntry) :=
  ensure_ready Op_List ;;;
  p <- require (ftp_path path Op_List) ;;
  bytes <- on_backend Op_List (fun config => adapter_list config p) ;;
  lift (fun s => list_entries path bytes s.1).

Definition session_stat (path : RemotePath) : session RemoteEntry :=
  ensure_ready Op_Stat ;;;
  ensure_capability FileOp_Stat Op_Stat ;;;
  p <- require (ftp_path path Op_Stat) ;;
  found <- on_backend Op_Stat (fun config => stat_size config p) ;;
  size <- require (ok_or (unsupported Op_Stat "ftp_size_unavailable") found) ;;
  the_entry path File (Some size).

Definition session_create_directory (path : RemotePath) : session RemoteEntry :=
  ensure_ready Op_CreateDirectory ;;;
  p <- require (ftp_path path Op_CreateDirectory) ;;
  on_backend Op_CreateDirectory (fun config => create_directory config p) ;;;
  the_entry path Directory None.

Definition session_rename (from to : RemotePath) : session RemoteEntry :=
  ensure_ready Op_Rename ;;;
  f <- require (ftp_path from Op_Rename) ;;
  t <- require (ftp_path to Op_Rename) ;;
  on_backend Op_Rename (fun config => rename config f t) ;;;
  the_entry to OtherEntry None.

Definition session_delete (path : RemotePath) : session unit :=
  ensure_ready Op_Delete ;;;
  p <- require (ftp_path path Op_Delete) ;;
  on_backend Op_Delete (fun config => delete_path config p).

(** *** Reading *)

(** [read_chunk], and [read_chunk_controlled] after its first check. *)
Definition read_body (request : RemoteReadRequest) (control : option RemoteIoControl) : session RemoteReadChunk :=
  ensure_ready Op_Read ;;;
  ensure_capability FileOp_Read Op_Read ;;;
  when (0 <? read_offset request) (ensure_capability FileOp_ResumeRead Op_Resume) ;;;
  require (fail_if negb (RemoteReadRequest_is_bounded request)
             with invalid_input Op_Read "ftp_read_chunk_unbounded" in Ok tt) ;;;
  require (fail_if is_some_and (fun i => is_some (modified_at_unix_ms i) || is_some (etag i))
                     (read_expected_identity request)
             with unsupported Op_Read IDENTITY_PRECONDITION_UNSUPPORTED in Ok tt) ;;;
  p <- require (ftp_path (read_path request) Op_Read) ;;
  got <- on_backend Op_Read
           (fun config => transport_read_chunk config p (read_offset request) (read_max_bytes request) control) ;;
  let (bytes, size) := (got : list Z * Z) in
  require (fail_if is_some_and (fun expected => negb (expected =? size))
                     (read_expected_identity request ≫= size_bytes)
             with remote_error EK_Conflict Op_Read "ftp_identity_size_changed" Retry_UserAction in Ok tt) ;;;
  ret {| chunk_offset := read_offset request; chunk_bytes := bytes;
         chunk_eof := size <=? sat_u64 (read_offset request + Z.of_nat (length bytes));
         chunk_identity := {| size_bytes := Some size; modified_at_unix_ms := None; etag := None |} |}.

Definition read_chunk (request : RemoteReadRequest) : session RemoteReadChunk := read_body request None.
Definition read_chunk_controlled (request : RemoteReadRequest) (control : RemoteIoControl) : session RemoteReadChunk :=
  check control Op_Read ;;; read_body request (Some control).

(** *** Writing *)

Definition set_writes (f : gmap Uuid PendingWrite -> gmap Uuid PendingWrite) : session unit :=
  modify (fun s => (put_writes (f (writes s.1)) s.1, s.2)).

Definition unknown_handle : RemoteError := invalid_input Op_Write "ftp_write_handle_unknown".
Definition pending_write (handle : Uuid) : session PendingWrite :=
  lift (fun s => ok_or unknown_handle (writes s.1 !! handle)).
(** [lock_writes()?.remove(&handle)]. *)
Definition take_write (handle : Uuid) : session PendingWrite :=
  pending <- pending_write handle ;; set_writes (delete handle) ;;; ret pending.
(** A failure before which the write goes back into the map. *)
Definition or_put_back {A} (handle : Uuid) (pending : PendingWrite) (m : session A) : session A :=
  fun s => match m s with
           | (s', Err e) => ((put_writes (<[handle := pending]> (writes s'.1)) s'.1, s'.2), Err e)
           | done => done
           end.

Definition is_part (path : RemotePath) : bool :=
  match rsplit_once "." (RemotePath_str path) with
  | Some (_, extension) => String.eqb extension "part"
  | None => false
  end.

Definition begin_write (request : BeginWriteRequest) : session RemoteWriteReceipt :=
  ensure_ready Op_Write ;;;
  require (fail_if is_some (begin_expected_destination request)
             with unsupported Op_Write IDENTITY_PRECONDITION_UNSUPPORTED in Ok tt) ;;;
  ensure_capability FileOp_Write Op_Write ;;;
  when (is_some (begin_resume_from request)) (ensure_capability FileOp_ResumeWrite Op_Resume) ;;;
  require (fail_if eqb (begin_final_path request) (begin_temporary_path request)
                   || negb (is_part (begin_temporary_path request))
             with invalid_input Op_Write "ftp_temporary_path_must_be_part" in Ok tt) ;;;
  let resume_from := default 0 (begin_resume_from request) in
  require (fail_if is_some_and (fun expected => expected <? resume_from) (begin_expected_size_bytes request)
             with invalid_input Op_Resume "ftp_resume_offset_exceeds_expected_size" in Ok tt) ;;;
  require (ftp_path (begin_final_path request) Op_Write) ;;;
  temporary <- require (ftp_path (begin_temporary_path request) Op_Resume) ;;
  match begin_resume_from request with
  | Some expected =>
      found <- on_backend Op_Resume (fun config => stat_size config temporary) ;;
      require (fail_if negb (default 0 found =? expected)
                 with remote_error EK_Conflict Op_Resume "ftp_resume_partial_size_mismatch" Retry_UserAction in
               Ok tt)
  | None => ret tt
  end ;;;
  local Op_Write "ftp_local_staging_create_failed" Call_CreateStaging tt ;;;
  file <- local Op_Write "ftp_local_staging_resize_failed" Call_SetLen (replicate (Z.to_nat resume_from) 0) ;;
  handle <- on_world fresh_id ;;
  set_writes (fun ws => <[handle :=
    {| staged := file; pending_final_path := begin_final_path request;
       pending_temporary_path := begin_temporary_path request;
       pending_expected_size := begin_expected_size_bytes request;
       pending_resume_from := begin_resume_from request; pending_next_offset := resume_from |}]> ws) ;;;
  ret {| receipt_handle := handle; receipt_next_offset := resume_from; receipt_identity := None |}.

(** A failing write leaves what it has written in the file. *)
Definition stage_bytes (handle : Uuid) (pending : PendingWrite) (offset : Z) (bytes : list Z) (next : Z) : session unit :=
  fun s =>
    let '(fault, w) := local_call (Call_WriteAt (length bytes)) s.2 in
    match fault with
    | None => ((put_writes (<[handle := after_write pending offset bytes next]> (writes s.1)) s.1, w), Ok tt)
    | Some count =>
        ((put_writes (<[handle := after_write pending offset (take count bytes) (pending_next_offset pending)]>
                        (writes s.1)) s.1, w),
         Err (remote_error EK_Transport Op_Write "ftp_local_staging_write_failed" Retry_UserAction))
    end.

Definition write_chunk (handle : Uuid) (offset : Z) (bytes : list Z) : session RemoteWriteReceipt :=
  ensure_ready Op_Write ;;;
  require (fail_if (length bytes =? 0)%nat || (MAX_REMOTE_CHUNK_BYTES <? Z.of_nat (length bytes))
             with invalid_input Op_Write "ftp_write_chunk_invalid_size" in Ok tt) ;;;
  pending <- pending_write handle ;;
  require (fail_if negb (offset =? pending_next_offset pending)
             with remote_error EK_Conflict Op_Write "ftp_write_offset_mismatch" Retry_UserAction in Ok tt) ;;;
  next <- require (ok_or (invalid_input Op_Write "ftp_write_offset_overflow")
                     (checked_u64 (offset + Z.of_nat (length bytes)))) ;;
  require (fail_if is_some_and (fun expected => expected <? next) (pending_expected_size pending)
             with invalid_input Op_Write "ftp_write_exceeds_expected_size" in Ok tt) ;;;
  stage_bytes handle pending offset bytes next ;;;
  ret {| receipt_handle := handle; receipt_next_offset := next; receipt_identity := None |}.

(** The checks of a commit, each of which leaves the write to be tried again. *)
Definition commit_ready (handle : Uuid) (expected_identity : option ObjectIdentity) : session PendingWrite :=
  ensure_ready Op_Write ;;;
  require (fail_if is_some expected_identity
             with unsupported Op_Write IDENTITY_PRECONDITION_UNSUPPORTED in Ok tt) ;;;
  pending <- take_write handle ;;
  or_put_back handle pending
    (require (fail_if is_some_and (fun expected => negb (expected =? pending_next_offset pending))
                        (pending_expected_size pending)
                with remote_error EK_Conflict Op_Write "ftp_write_size_mismatch" Retry_UserAction in Ok tt)) ;;;
  or_put_back handle pending (local Op_Write "ftp_local_staging_sync_failed" Call_SyncAll tt) ;;;
  ret pending.

Definition commit_upload (handle : Uuid) (pending : PendingWrite) (control : option RemoteIoControl) : session FtpPath :=
  final_path <- require (ftp_path (pending_final_path pending) Op_Write) ;;
  temporary <- require (ftp_path (pending_temporary_path pending) Op_Write) ;;
  or_put_back handle pending
    (on_backend Op_Write (fun config =>
       upload_with_temporary config (staged pending) temporary final_path (pending_resume_from pending) control)) ;;;
  ret final_path.

(** [.ok().flatten()] of a call. *)
Definition committed_size (final_path : FtpPath) : session (option Z) :=
  fun s => match on_backend Op_Write (fun config => stat_size config final_path) s with
           | (s', Ok size) => (s', Ok size)
           | (s', Err _) => (s', Ok None)
           end.

Definition commit_write (handle : Uuid) (expected_identity : option ObjectIdentity) : session RemoteEntry :=
  pending <- commit_ready handle expected_identity ;;
  final_path <- commit_upload handle pending None ;;
  size <- committed_size final_path ;;
  the_entry (pending_final_path pending) File size.

Definition commit_write_controlled (handle : Uuid) (expected_identity : option ObjectIdentity)
    (control : RemoteIoControl) : session RemoteEntry :=
  check control Op_Write ;;;
  pending <- commit_ready handle expected_identity ;;
  or_put_back handle pending (check control Op_Write) ;;;
  commit_upload handle pending (Some control) ;;;
  the_entry (pending_final_path pending) File None.

Definition abort_write (handle : Uuid) : session unit :=
  ensure_ready Op_Write ;;; take_write handle ;;; ret tt.

Definition transition (next : ConnectionState) (now : Z) : session bool :=
  fun s => match RemoteSession_transition next now (snapshot s.1) with
           | (r, Ok changed) => ((put_snapshot r s.1, s.2), Ok changed)
           | (r, Err _) => ((put_snapshot r s.1, s.2), Err internal_state_error)
           end.
Definition disconnect : session unit :=
  now <- on_world unix_time_ms ;;
  transition Closing now ;;;
  transition Disconnected now ;;;
  set_writes (fun _ => ∅).

Definition begin_write_controlled (request : BeginWriteRequest) (control : RemoteIoControl) :=
  check control Op_Write ;;; begin_write request.
Definition write_chunk_controlled (handle : Uuid) (offset : Z) (bytes : list Z) (control : RemoteIoControl) :=
  check control Op_Write ;;; write_chunk handle offset bytes.
Definition abort_write_controlled (handle : Uuid) (control : RemoteIoControl) :=
  check control Op_Write ;;; abort_write handle.
Definition disconnect_controlled (control : RemoteIoControl) := check control Op_Disconnect ;;; disconnect.

(** ** The adapter *)

Record RemoteFtpAdapter := {
  ftp_adapter_protocol : RemoteProtocol;
  ftp_security : SecurityMode;
  availability : AdapterAvailability;
  capabilities : CapabilityMatrix;
  active_mode : option DataMode;
}.

Definition explicit_ftps_adapter : RemoteFtpAdapter :=
  {| ftp_adapter_protocol := FtpsExplicit; ftp_security := ExplicitFtps; availability := Avail_Healthy;
     capabilities := ftp_capabilities; active_mode := None |}.
Definition plain_ftp (confirmation : PlainFtpConfirmation) : RemoteFtpAdapter :=
  {| ftp_adapter_protocol := Ftp; ftp_security := PlainFtp confirmation;
     availability := Avail_Degraded (static_reason "plain_ftp_explicitly_enabled");
     capabilities := ftp_capabilities; active_mode := None |}.
Definition with_active_binding (bind_address : IpAddr) (listen_port : Z) (a : RemoteFtpAdapter)
  : result RemoteFtpAdapter FtpError :=
  let mode := Active bind_address listen_port in
  let? _ := active_binding mode in
  Ok {| ftp_adapter_protocol := ftp_adapter_protocol a; ftp_security := ftp_security a;
        availability := availability a; capabilities := capabilities a; active_mode := Some mode |}.

Variable resolve_secret : SecretRef -> W -> result (list Z) SecretStoreError * W.

Abbreviation connecting A := (mut W A RemoteError) (only parsing).
Definition here {A} (r : result A RemoteError) : connecting A := lift (fun _ => r).
Definition ftp_connect {A} (r : result A FtpError) : connecting A := here (map_err (map_ftp_error Op_Connect) r).

Definition profile_data_mode (a : RemoteFtpAdapter) (options : ProfileOptions) : result DataMode RemoteError :=
  let mode (m : DataConnectionMode) :=
    match m with
    | RemoteCore.Passive => Ok FtpProtocol.Passive
    | ActiveRestricted => ok_or (unsupported Op_Connect "ftp_active_binding_required") (active_mode a)
    end in
  match options with
  | Options_Ftp m => mode m
  | Options_FtpsExplicit m _ => mode m
  | _ => Err (invalid_input Op_Connect "ftp_profile_options_mismatch")
  end.

Definition profile_credentials (profile : RemoteConnectionProfile) (control : option RemoteIoControl)
  : connecting Credentials :=
  match profile_authentication profile with
  | Anonymous => ftp_connect (Credentials_new (default "anonymous"%string (profile_username profile)) "")
  | Auth_Password secret =>
      check_control control Op_Connect ;;;
      username <- here (ok_or (remote_error EK_InvalidInput Op_Connect "ftp_username_required" Retry_UserAction)
                          (profile_username profile)) ;;
      value <- (fun w => let '(r, w') := resolve_secret secret w in (w', map_err map_secret_error r)) ;;
      check_control control Op_Connect ;;;
      here (fail_if negb (valid_utf8 value)
              with remote_error EK_InvalidInput Op_ResolveSecret "ftp_password_not_utf8" Retry_UserAction in Ok tt) ;;;
      ftp_connect (Credentials_new username (string_of_bytes value))
  | _ => throw (unsupported Op_Connect "ftp_authentication_not_supported")
  end.

Definition with_profile (a : RemoteFtpAdapter) (mode : DataMode) (trust : TrustPolicy) (c : FtpConfig) : FtpConfig :=
  {| ftp_host := ftp_host c; ftp_port := ftp_port c; credentials := credentials c;
     security := ftp_security a; data_mode := mode;
     ca_certificate_pem := match trust with
                           | PinnedTlsCertificate pem => Some (bytes pem)
                           | _ => ca_certificate_pem c
                           end;
     connect_timeout := connect_timeout c; operation_timeout := operation_timeout c |}.

Definition connect_profile (a : RemoteFtpAdapter) (profile : RemoteConnectionProfile)
    (control : option RemoteIoControl) : connecting FtpRemoteSession :=
  check_control control Op_Connect ;;;
  here (map_err (fun _ => invalid_input Op_Connect "ftp_profile_invalid") (RemoteConnectionProfile_validate profile)) ;;;
  here (fail_if negb (eqb (profile_protocol profile) (ftp_adapter_protocol a))
          with invalid_input Op_Connect "ftp_profile_protocol_mismatch" in Ok tt) ;;;
  here (fail_if is_some (profile_domain profile)
          with unsupported Op_Connect "ftp_domain_not_supported" in Ok tt) ;;;
  mode <- here (profile_data_mode a (profile_options profile)) ;;
  here (fail_if match profile_options profile with Options_FtpsExplicit _ false => true | _ => false end
          with unsupported Op_Connect "ftps_protected_data_required" in Ok tt) ;;;
  cred <- profile_credentials profile control ;;
  here (fail_if endpoint_port (profile_endpoint profile) =? 0
          with invalid_input Op_Connect "ftp_port_invalid" in Ok tt) ;;;
  base <- ftp_connect (explicit_ftps (endpoint_host (profile_endpoint profile))
                         (endpoint_port (profile_endpoint profile)) cred) ;;
  let config := with_profile a mode (profile_trust profile) base in
  ftp_connect (FtpConfig_validate config) ;;;
  check_control control Op_Connect ;;;
  ftp_connect (FtpConfig_validate config) ;;;
  mut_map_err (map_ftp_error Op_Connect) (probe config control) ;;;
  check_control control Op_Connect ;;;
  now <- unix_time_ms ;;
  id <- fresh_id ;;
  ret {| snapshot := {| session_id := id; session_profile_id := profile_id profile;
                        session_protocol := profile_protocol profile; session_state := Ready;
                        session_capabilities := capabilities a;
                        session_opened_at_unix_ms := now; session_updated_at_unix_ms := now |};
         writes := ∅; backend := config |}.

Definition connect (a : RemoteFtpAdapter) (profile : RemoteConnectionProfile) : connecting FtpRemoteSession :=
  connect_profile a profile None.
Definition connect_controlled (a : RemoteFtpAdapter) (profile : RemoteConnectionProfile) (control : RemoteIoControl)
  : connecting FtpRemoteSession :=
  check_control (Some control) Op_Connect ;;; connect_profile a profile (Some control).
End Session.
