(* ===== verification/FtpSessionFacts.v ===== *)
(** Sessions: what is committed is what was written; an upload that was cut off
    cannot be taken up again; a session for FTPS is one over TLS. *)

From S2P Require Import Prelude RemoteCore Text FtpProtocol FtpProtocolFacts FtpTransport FtpTransportFacts FtpSession.

(** ** The staging file *)

Lemma write_at_end file bytes : write_at file (length file) bytes = file ++ bytes.
Proof.
  unfold write_at. replace (length file - length file)%nat with 0%nat by lia. simpl.
  rewrite app_nil_r, firstn_all, drop_ge by lia. by rewrite app_nil_r.
Qed.

Section Session.
Context {W : Type} `{Env : FtpEnv W} (files : W -> gmap string (list Z)).
Abbreviation state := (FtpRemoteSession * W)%type (only parsing).
Definition server_files (s : FtpRemoteSession * W) : gmap string (list Z) := files s.2.

(** The write calls of an upload, one after the other. *)
Fixpoint write_chunks (handle : Uuid) (offset : Z) (chunks : list (list Z)) : mut (FtpRemoteSession * W) Z RemoteError :=
  match chunks with
  | [] => ret offset
  | chunk :: chunks =>
      receipt <- write_chunk handle offset chunk ;;
      write_chunks handle (receipt_next_offset receipt) chunks
  end.
Definition commit (handle : Uuid) (control : option RemoteIoControl) : mut (FtpRemoteSession * W) RemoteEntry RemoteError :=
  match control with
  | Some control => commit_write_controlled handle None control
  | None => commit_write handle None
  end.

Lemma require_ok {A} (x : result A RemoteError) (s s' : state) a : require x s = (s', Ok a) -> s' = s /\ x = Ok a.
Proof. by intros [-> ->]%lift_ok. Qed.

(** *** What a chunk changes *)

Lemma write_chunk_ok handle offset bytes (s s' : state) receipt :
  write_chunk handle offset bytes s = (s', Ok receipt) ->
  exists p w next, writes s.1 !! handle = Some p /\ offset = pending_next_offset p /\
    next = offset + Z.of_nat (length bytes) /\ receipt_next_offset receipt = next /\
    (exists c, local_call c s.2 = (None, w)) /\
    s' = (put_writes (<[handle := after_write p offset bytes next]> (writes s.1)) s.1, w).
Proof.
  unfold write_chunk. intros H1. apply bind_ok in H1 as (s1 & [] & (-> & _)%lift_ok & H1).
  apply bind_ok in H1 as (s1 & [] & (-> & _)%require_ok & H1).
  apply bind_ok in H1 as (s1 & p & [-> Hp]%lift_ok & H1).
  apply bind_ok in H1 as (s1 & [] & (-> & Hoff)%require_ok & H1).
  apply bind_ok in H1 as (s1 & next & (-> & Hnext)%require_ok & H1).
  apply bind_ok in H1 as (s1 & [] & (-> & _)%require_ok & H1).
  apply bind_ok in H1 as (s1 & [] & Hst & H1). apply ret_ok in H1 as [-> ->].
  destruct (offset =? pending_next_offset p) eqn:Ho; [| done]. apply Z.eqb_eq in Ho.
  destruct (writes s.1 !! handle) as [p' |] eqn:Hw; [| done]. injection Hp as ->.
  destruct (checked_u64 _) as [n |] eqn:Hc; [| done]. injection Hnext as ->. apply checked_u64_some in Hc as [-> _].
  unfold stage_bytes in Hst. destruct (local_call _ s.2) as [[k |] w] eqn:Hl; [done |]. injection Hst as <-.
  exists p, w, (offset + Z.of_nat (length bytes)). split_and!; eauto.
Qed.

(** A pending write of [acc] after [k] bytes that are on the server. *)
Definition holds_upload (handle : Uuid) (final_path temporary : RemotePath) (resume_from : option Z) (acc : list Z)
    (s : state) : Prop :=
  exists p, writes s.1 !! handle = Some p /\ pending_final_path p = final_path /\
    pending_temporary_path p = temporary /\ pending_resume_from p = resume_from /\
    staged p = replicate (Z.to_nat (default 0 resume_from)) 0 ++ acc /\
    pending_next_offset p = Z.of_nat (length (staged p)).

Context (config : FtpConfig) `{!FtpServer config files}.

Lemma write_chunks_ok handle f t resume chunks : forall acc offset (s s' : state) n,
  holds_upload handle f t resume acc s -> write_chunks handle offset chunks s = (s', Ok n) ->
  holds_upload handle f t resume (acc ++ concat chunks) s' /\ server_files s' = server_files s /\
  backend s'.1 = backend s.1 /\ (chunks <> [] -> n = default 0 resume `max` 0 + Z.of_nat (length (acc ++ concat chunks))).
Proof.
  induction chunks as [| chunk chunks IH]; intros acc offset s s' n Hh; simpl.
  - intros [-> ->]%ret_ok. by rewrite app_nil_r.
  - intros (s1 & receipt & Hw & Hr)%bind_ok.
    apply write_chunk_ok in Hw as (p & w & next & Hp & Hoff & -> & Hnext & [c Hl] & ->).
    destruct Hh as (p' & Hp' & Hf & Ht & Hres & Hst & Hn). rewrite Hp in Hp'. injection Hp' as <-.
    assert (Hh : holds_upload handle f t resume (acc ++ chunk)
              (put_writes (<[handle := after_write p offset chunk (offset + Z.of_nat (length chunk))]> (writes s.1)) s.1, w)).
    { eexists. split; [apply lookup_insert_eq |]. cbn [after_write pending_final_path pending_temporary_path
        pending_resume_from staged pending_next_offset]. split_and!; [done | done | done | |].
      - rewrite Hoff, Hn, Nat2Z.id, write_at_end, Hst. by rewrite app_assoc.
      - rewrite Hoff, Hn, Nat2Z.id, write_at_end, length_app. lia. }
    rewrite Hnext in Hr. destruct chunks as [| chunk2 chunks'].
    + apply ret_ok in Hr as [-> ->]. simpl. rewrite app_nil_r. split_and!; [done | | done |].
      * unfold server_files. simpl. by rewrite <- (idle_local (config := config) c s.2), Hl.
      * intros _. rewrite Hoff, Hn, Hst, !length_app, length_replicate. lia.
    + apply (IH _ _ _ _ _ Hh) in Hr as (Hh' & Hfiles & Hb & Hlen). rewrite <- app_assoc in Hh', Hlen.
      split_and!; [done | | done |].
      * rewrite Hfiles. unfold server_files. simpl. by rewrite <- (idle_local (config := config) c s.2), Hl.
      * intros _. by apply Hlen.
Qed.

(** *** Beginning *)

Abbreviation keeps m := (preserves server_files m) (only parsing).

Lemma keeps_lift_s {A} (f : state -> result A RemoteError) : keeps (lift f).
Proof. by intros s s' r [= <- _]. Qed.
Lemma keeps_set_writes f : keeps (set_writes f).
Proof. by intros s s' r [= <- _]. Qed.
Lemma keeps_on_world {A E} (m : mut W A E) : preserves files m -> preserves server_files (on_world m : mut state A E).
Proof.
  intros Hm s s' r. unfold on_world, zoom. destruct (m s.2) as [w x] eqn:H1. intros [= <- _].
  by apply Hm in H1.
Qed.
Lemma keeps_local {A} op reason c (a : A) : keeps (local op reason c a).
Proof.
  intros s s' r. unfold local, mut_map_err. destruct (on_world _ s) as [s1 x] eqn:H1. intros [= <- _].
  revert H1. apply (keeps_on_world _ (keeps_call config files c a)).
Qed.

Lemma on_backend_ok {A} op (m : FtpConfig -> mut W A FtpError) (s s' : state) a :
  on_backend op m s = (s', Ok a) <-> exists w, m (backend s.1) s.2 = (w, Ok a) /\ s' = (s.1, w).
Proof.
  unfold on_backend, mut_map_err, on_world, zoom. destruct (m (backend s.1) s.2) as [w [x | e]]; naive_solver.
Qed.
Lemma on_backend_result {A} op (m : FtpConfig -> mut W A FtpError) (s s' : state) r :
  on_backend op m s = (s', r) -> exists w x, m (backend s.1) s.2 = (w, x) /\ s' = (s.1, w) /\ r = map_err (map_ftp_error op) x.
Proof.
  unfold on_backend, mut_map_err, on_world, zoom. destruct (m (backend s.1) s.2) as [w x]. intros [= <- <-]. eauto.
Qed.

Lemma local_ok {A} op reason c (a b : A) (s s' : state) :
  local op reason c a s = (s', Ok b) -> s'.1 = s.1 /\ b = a.
Proof.
  unfold local, mut_map_err, on_world, zoom, call. destruct (local_call c s.2) as [[k |] w]; [done |].
  by intros [= <- <-].
Qed.

Definition partial_of (req : BeginWriteRequest) (s : state) : list Z :=
  match begin_resume_from req with
  | Some _ => default [] (server_files s !! RemotePath_str (begin_temporary_path req))
  | None => []
  end.

Lemma ftp_path_ok path op p : ftp_path path op = Ok p -> FtpPath_str p = RemotePath_str path.
Proof.
  unfold ftp_path, FtpPath_new. destruct (negb _); [done |]. destruct (_ || _); [done |]. by intros [= <-].
Qed.

Lemma begin_write_ok req (s s' : state) receipt : backend s.1 = config -> 0 <= default 0 (begin_resume_from req) ->
  begin_write req s = (s', Ok receipt) ->
  holds_upload (receipt_handle receipt) (begin_final_path req) (begin_temporary_path req) (begin_resume_from req) [] s' /\
  server_files s' = server_files s /\ backend s'.1 = config /\
  receipt_next_offset receipt = default 0 (begin_resume_from req) /\
  begin_final_path req <> begin_temporary_path req /\
  (forall n, begin_resume_from req = Some n -> n <> 0 ->
     exists c, server_files s !! RemotePath_str (begin_temporary_path req) = Some c /\ n = Z.of_nat (length c)).
Proof.
  intros Hb Hnn. unfold begin_write. intros H1.
  apply bind_ok in H1 as (s1 & [] & (-> & _)%lift_ok & H1). apply bind_ok in H1 as (s1 & [] & (-> & _)%require_ok & H1).
  apply bind_ok in H1 as (s1 & [] & (-> & _)%lift_ok & H1).
  apply bind_ok in H1 as (s1 & [] & H2 & H1).
  assert (s1 = s) as -> by (unfold when in H2; destruct (is_some _); [by apply lift_ok in H2 as [-> _] | by apply ret_ok in H2 as [-> _]]).
  clear H2. apply bind_ok in H1 as (s1 & [] & (-> & Hpaths)%require_ok & H1).
  apply bind_ok in H1 as (s1 & [] & (-> & _)%require_ok & H1). apply bind_ok in H1 as (s1 & fp & (-> & Hfp)%require_ok & H1).
  apply bind_ok in H1 as (s1 & tp & (-> & Htp)%require_ok & H1). apply ftp_path_ok in Htp.
  apply bind_ok in H1 as (s1 & [] & Hres & H1).
  assert (Hs1 : server_files s1 = server_files s /\ s1.1 = s.1 /\ (forall n, begin_resume_from req = Some n -> n <> 0 ->
     exists c, server_files s !! RemotePath_str (begin_temporary_path req) = Some c /\ n = Z.of_nat (length c))).
  { destruct (begin_resume_from req) as [n |]; [| by apply ret_ok in Hres as [-> _]].
    apply bind_ok in Hres as (s2 & found & Hst & Hreq). apply require_ok in Hreq as [-> Hreq].
    apply on_backend_ok in Hst as (w & Hst & ->). rewrite Hb in Hst.
    apply (remote_size_run config files) in Hst as [Hf Hn]. split_and!; [done | done |].
    intros n' [= <-] Hne. destruct (default 0 found =? n) eqn:Heq; [| done]. apply Z.eqb_eq in Heq.
    destruct found as [m |]; simpl in Heq; [subst m | by subst n].
    rewrite <- Htp. by apply Hn. }
  destruct Hs1 as (Hf1 & Hs1 & Hpart). clear Hres.
  apply bind_ok in H1 as (s2 & [] & Hl & H1). apply keeps_local in Hl as Hf2. apply local_ok in Hl as [Hs2 _].
  apply bind_ok in H1 as (s3 & file & Hl & H1). apply keeps_local in Hl as Hf3. apply local_ok in Hl as [Hs3 ->].
  apply bind_ok in H1 as (s4 & handle & Hid & H1).
  assert (Hs4 : s4.1 = s3.1 /\ server_files s4 = server_files s3).
  { revert Hid. unfold on_world, zoom, fresh_id. pose proof (idle_uuid (config := config) (files := files) s3.2) as Hu.
    destruct (new_uuid s3.2) as [u w]. by intros [= <- _]. }
  destruct Hs4 as [Hs4 Hf4]. apply bind_ok in H1 as (s5 & [] & Hset & H1). apply ret_ok in H1 as [-> ->].
  apply modify_ok in Hset as ->. cbn [receipt_handle receipt_next_offset]. split_and!.
  - eexists. split; [apply lookup_insert_eq |]. cbn. rewrite app_nil_r. split_and!; try done.
    rewrite length_replicate. lia.
  - unfold server_files in *. simpl. congruence.
  - simpl. congruence.
  - done.
  - intros Heq. rewrite Heq, eqb_refl in Hpaths. done.
  - done.
Qed.

(** *** Committing *)

Lemma keeps_check_control control op : keeps (check control op).
Proof.
  apply keeps_on_world. intros w w' r. unfold check_control.
  pose proof (idle_instant (config := config) (files := files) w) as Hi. destruct (instant w). by intros [= <- _].
Qed.
Lemma check_fst control op (s s' : state) r : check control op s = (s', r) -> s'.1 = s.1.
Proof. unfold check, on_world, zoom. destruct (check_control _ _ s.2). by intros [= <- _]. Qed.

Lemma or_put_back_ok {A} handle p (m : mut state A RemoteError) s s' a :
  or_put_back handle p m s = (s', Ok a) <-> m s = (s', Ok a).
Proof. unfold or_put_back. destruct (m s) as [s1 [x | e]]; naive_solver. Qed.

Lemma commit_ready_ok handle (s s' : state) p : commit_ready handle None s = (s', Ok p) ->
  writes s.1 !! handle = Some p /\ server_files s' = server_files s /\ backend s'.1 = backend s.1.
Proof.
  unfold commit_ready. intros H1. apply bind_ok in H1 as (s1 & [] & (-> & _)%lift_ok & H1).
  apply bind_ok in H1 as (s1 & [] & (-> & _)%require_ok & H1).
  apply bind_ok in H1 as (s1 & q & Ht & H1). apply bind_ok in Ht as (s2 & q' & [-> Hq]%lift_ok & Ht).
  apply bind_ok in Ht as (s3 & [] & ->%modify_ok & [-> ->]%ret_ok).
  apply bind_ok in H1 as (s4 & [] & Hr & H1). apply or_put_back_ok, require_ok in Hr as [-> _].
  apply bind_ok in H1 as (s4 & [] & Hr & H1). apply or_put_back_ok in Hr.
  apply keeps_local in Hr as Hf. apply local_ok in Hr as [Hs _]. apply ret_ok in H1 as [-> ->].
  split_and!; [| by rewrite Hf | by rewrite Hs]. destruct (writes s.1 !! handle); naive_solver.
Qed.

(** An upload that is committed: the server has what it had of it and then what
    was written, under the final name alone. *)
Lemma commit_ok handle final_path temporary resume acc control (s s' : state) e :
  backend s.1 = config -> 0 <= default 0 resume -> final_path <> temporary ->
  (forall n, resume = Some n -> n <> 0 -> exists c, server_files s !! RemotePath_str temporary = Some c /\ n = Z.of_nat (length c)) ->
  holds_upload handle final_path temporary resume acc s ->
  commit handle control s = (s', Ok e) ->
  let partial := if 0 <? default 0 resume then default [] (server_files s !! RemotePath_str temporary) else [] in
  server_files s' !! RemotePath_str final_path = Some (partial ++ acc) /\
  server_files s' !! RemotePath_str temporary = None /\
  (forall q, q <> RemotePath_str temporary -> q <> RemotePath_str final_path -> server_files s' !! q = server_files s !! q).
Proof.
  intros Hb Hnn Hne Hpart (p & Hp & Hf & Ht & Hres & Hst & Hn) Hc partial.
  assert (Hmid : exists s1 fp, server_files s1 = server_files s /\ backend s1.1 = config /\
            (exists s2, commit_upload handle p control s1 = (s2, Ok fp) /\ server_files s' = server_files s2)).
  { destruct control as [control |]; simpl in Hc.
    - apply bind_ok in Hc as (s1 & [] & Hchk & Hc). apply keeps_check_control in Hchk as K1. apply check_fst in Hchk as F1.
      apply bind_ok in Hc as (s2 & q & Hr & Hc). apply commit_ready_ok in Hr as (Hq & K2 & F2).
      rewrite F1, Hp in Hq. injection Hq as <-.
      apply bind_ok in Hc as (s3 & [] & Hchk2 & Hc). apply or_put_back_ok in Hchk2.
      apply keeps_check_control in Hchk2 as K3. apply check_fst in Hchk2 as F3.
      apply bind_ok in Hc as (s4 & fp & Hu & Hc). apply gets_ok in Hc as [-> ->].
      exists s3, fp. split_and!; [congruence | congruence |]. by exists s4.
    - apply bind_ok in Hc as (s2 & q & Hr & Hc). apply commit_ready_ok in Hr as (Hq & K2 & F2).
      rewrite Hp in Hq. injection Hq as <-.
      apply bind_ok in Hc as (s4 & fp & Hu & Hc). apply bind_ok in Hc as (s5 & size & Hs & Hc). apply gets_ok in Hc as [-> ->].
      exists s2, fp. split_and!; [congruence | congruence |]. exists s4. split; [done |].
      revert Hs. unfold committed_size.
      destruct (on_backend Op_Write (fun c => stat_size c fp) s4) as [s6 x] eqn:H6.
      apply on_backend_result in H6 as (w & y & Hw & -> & ->).
      assert (Hb4 : backend s4.1 = config).
      { unfold commit_upload in Hu. apply bind_ok in Hu as (s7 & f7 & (-> & _)%require_ok & Hu).
        apply bind_ok in Hu as (s8 & f8 & (-> & _)%require_ok & Hu). apply bind_ok in Hu as (s9 & [] & Hu & Hr).
        apply ret_ok in Hr as [-> ->]. apply or_put_back_ok, on_backend_ok in Hu as (w9 & _ & ->). simpl. congruence. }
      rewrite Hb4 in Hw. apply (keeps_size config files) in Hw as Kw.
      destruct (map_err _ y); intros [= <- _]; exact Kw. }
  destruct Hmid as (s1 & fp & K1 & F1 & s2 & Hu & K2). unfold commit_upload in Hu.
  apply bind_ok in Hu as (s3 & f & (-> & Hfp)%require_ok & Hu). apply bind_ok in Hu as (s4 & t & (-> & Htp)%require_ok & Hu).
  apply bind_ok in Hu as (s5 & [] & Hu & Hr). apply ret_ok in Hr as [-> ->].
  apply or_put_back_ok, on_backend_ok in Hu as (w & Hu & ->). rewrite F1, Hres, Hst in Hu.
  apply ftp_path_ok in Hfp, Htp. rewrite Hf in Hfp. rewrite Ht in Htp.
  apply (upload_run_with_temporary config files) in Hu as [Hother [[_ Hbad] | (Hfin & Htmp & _)]]; [by destruct Hbad | | done |].
  2: { rewrite Hfp, Htp. intros Heq. apply Hne. destruct final_path as [x], temporary as [y]. simpl in Heq. by rewrite Heq. }
  rewrite Hfp, Htp in *. unfold server_files in *. rewrite K2. simpl. rewrite K1 in Hfin, Hother. split_and!; [| exact Htmp | exact Hother].
  rewrite Hfin. f_equal. unfold uploaded. subst partial. destruct (0 <? default 0 resume) eqn:Hpos.
  - f_equal. rewrite drop_app_ge by (rewrite length_replicate; lia). rewrite length_replicate, Nat.sub_diag. done.
  - replace (Z.to_nat (default 0 resume)) with 0%nat by lia. done.
Qed.


Lemma abort_write_keeps handle (s s' : state) r : abort_write handle s = (s', r) ->
  server_files s' = server_files s /\ backend s'.1 = backend s.1.
Proof.
  unfold abort_write, bind, ensure_ready, take_write, pending_write, set_writes, modify, lift, ret.
  destruct (negb (eqb (session_state (snapshot s.1)) Ready)); cbn.
  - by intros [= <- <-].
  - destruct (writes s.1 !! handle); cbn; by intros [= <- <-].
Qed.

Definition resuming (req : BeginWriteRequest) (n : Z) : BeginWriteRequest :=
  {| begin_final_path := begin_final_path req; begin_temporary_path := begin_temporary_path req;
     begin_expected_size_bytes := begin_expected_size_bytes req; begin_resume_from := Some n;
     begin_expected_destination := begin_expected_destination req |}.

End Session.

(** ** Connecting *)

Section Connect.
Context {W : Type} `{FtpEnv W}.
Variable resolve_secret : SecretRef -> W -> result (list Z) SecretStoreError * W.

Lemma here_ok {A} (r : result A RemoteError) (w w' : W) a : here r w = (w', Ok a) -> w' = w /\ r = Ok a.
Proof. by intros [-> ->]%lift_ok. Qed.

(** A session that stands was asked for by a valid profile of the adapter's
    protocol; it talks to the profile's endpoint under a checked configuration
    with the security of the adapter and the certificate of the profile, and
    FTPS without a protected data channel is never agreed to. *)
Theorem connected_session_is_configured a profile control w w' f :
  connect_profile resolve_secret a profile control w = (w', Ok f) ->
  RemoteConnectionProfile_validate profile = Ok tt /\ profile_protocol profile = ftp_adapter_protocol a /\
  FtpConfig_validate (backend f) = Ok tt /\ security (backend f) = ftp_security a /\
  ftp_host (backend f) = endpoint_host (profile_endpoint profile) /\
  ftp_port (backend f) = endpoint_port (profile_endpoint profile) /\ ftp_port (backend f) <> 0 /\
  (forall pem, profile_trust profile = PinnedTlsCertificate pem -> ca_certificate_pem (backend f) = Some (bytes pem)) /\
  (forall m protected_data, profile_options profile = Options_FtpsExplicit m protected_data -> protected_data = true) /\
  session_state (snapshot f) = Ready /\ session_capabilities (snapshot f) = capabilities a /\ writes f = ∅.
Proof.
  unfold connect_profile. intros H1. apply bind_ok in H1 as (w1 & [] & _ & H1).
  apply bind_ok in H1 as (w2 & [] & (-> & Hv)%here_ok & H1). apply map_err_ok in Hv.
  apply bind_ok in H1 as (w2 & [] & (-> & Hproto)%here_ok & H1).
  apply bind_ok in H1 as (w2 & [] & (-> & _)%here_ok & H1).
  apply bind_ok in H1 as (w2 & mode & (-> & _)%here_ok & H1).
  apply bind_ok in H1 as (w2 & [] & (-> & Hprot)%here_ok & H1).
  apply bind_ok in H1 as (w2 & cred & _ & H1). apply bind_ok in H1 as (w3 & [] & (-> & Hport)%here_ok & H1).
  apply bind_ok in H1 as (w3 & base & (-> & Hbase)%here_ok & H1). apply map_err_ok in Hbase.
  cbv zeta in H1. apply bind_ok in H1 as (w3 & [] & (-> & _)%here_ok & H1).
  apply bind_ok in H1 as (w3 & [] & _ & H1). apply bind_ok in H1 as (w4 & [] & (-> & Hval)%here_ok & H1).
  apply map_err_ok in Hval. apply bind_ok in H1 as (w4 & [] & _ & H1). apply bind_ok in H1 as (w5 & [] & _ & H1).
  apply bind_ok in H1 as (w6 & now & _ & H1). apply bind_ok in H1 as (w7 & id & _ & H1).
  apply ret_ok in H1 as [-> ->]. cbn [backend snapshot writes session_state session_capabilities].
  unfold explicit_ftps in Hbase. apply result_bind_ok in Hbase as ([] & _ & Hbase). injection Hbase as <-.
  destruct (negb (eqb _ _)) eqn:Hp in Hproto; [done |]. apply negb_false_iff in Hp. apply eqb_eq in Hp.
  destruct (_ =? 0) eqn:Hz in Hport; [done |]. apply Z.eqb_neq in Hz.
  split_and!; try done; simpl.
  - intros pem Hpem. by rewrite Hpem.
  - intros m prot Hopt. rewrite Hopt in Hprot. by destruct prot.
Qed.
End Connect.

(** * A server in memory for the theorems on FTP: it keeps files by path, agrees
    to every protection, and answers at once. *)

Record ServerWorld := { kept : gmap string (list Z); ticks : Z }.

Definition witness_config : FtpConfig :=
  explicit_ftps_config "files.example" 21 {| cred_username := "someone"; cred_password := "secret" |}.

Definition protected_session : list (InfoType * list Z) :=
  (fun '(info, text) => (info, bytes text ++ [13; 10])) <$>
    [(Info_HeaderIn, "220 ready"); (Info_HeaderOut, "AUTH TLS"); (Info_HeaderIn, "234 go ahead");
     (Info_HeaderOut, "USER someone"); (Info_HeaderIn, "331 password"); (Info_HeaderOut, "PASS secret");
     (Info_HeaderIn, "230 in"); (Info_HeaderOut, "PBSZ 0"); (Info_HeaderIn, "200 ok");
     (Info_HeaderOut, "PROT P"); (Info_HeaderIn, "200 ok")]%string.

Definition refused_by_server : CurlError :=
  {| is_peer_failed_verification := false; is_ssl_certproblem := false; is_ssl_cacert := false;
     is_ssl_cacert_badfile := false; is_ssl_issuer_error := false; is_login_denied := false;
     is_remote_access_denied := false; is_operation_timedout := false; is_quote_error := true;
     curl_description := "refused" |}.

Definition answer (r : result unit CurlError) (code : option Z) (size : Z) : Performed :=
  {| seen := protected_session; received_bytes := []; curl_result := r; response_code := code;
     content_length := Ok size; local_io_failed := false |}.
Definition not_found : Performed := answer (Err refused_by_server) (Some 550) (-1).

Definition path_of_url (url : string) : option string :=
  rest ← strip_prefix ("ftp://" +:+ authority witness_config) url; string_of_bytes <$> percent_decode rest.

Definition with_files (m : gmap string (list Z)) (w : ServerWorld) : ServerWorld :=
  {| kept := m; ticks := ticks w |}.

Definition serve_request (easy : list EasyOption) (input : option (list Z)) (w : ServerWorld) : Performed * ServerWorld :=
  match request_of easy, input with
  | Req_Size url, None =>
      match path_of_url url ≫= fun p => kept w !! p with
      | Some c => (answer (Ok tt) (Some 213) (Z.of_nat (length c)), w)
      | None => (not_found, w)
      end
  | Req_Store url offset, Some input =>
      match path_of_url url with
      | Some p =>
          (answer (Ok tt) (Some 226) (-1),
           with_files (<[p := if 0 <? offset then default [] (kept w !! p) ++ drop (Z.to_nat offset) input
                              else input]> (kept w)) w)
      | None => (not_found, w)
      end
  | Req_Commands [from; to], None =>
      match strip_prefix "RNFR " from, strip_prefix "RNTO " to with
      | Some from, Some to =>
          match kept w !! from with
          | Some c => (answer (Ok tt) (Some 250) (-1), with_files (<[to := c]> (delete from (kept w))) w)
          | None => (not_found, w)
          end
      | _, _ => (not_found, w)
      end
  | _, _ => (answer (Ok tt) (Some 200) (-1), w)
  end.

#[local] Instance memory_server : FtpEnv ServerWorld := {
  instant w := (ticks w, {| kept := kept w; ticks := ticks w + 1 |});
  flags_of _ := ∅;
  unix_millis w := (Some 1700000000000, w);
  new_uuid w := (ticks w + 1, {| kept := kept w; ticks := ticks w + 1 |});
  local_call _ w := (None, w);
  set_option _ _ _ := None;
  perform := serve_request;
}.

Lemma path_of_url_of p : path_of_url (url_of witness_config p) = Some (FtpPath_str p).
Proof.
  unfold path_of_url, url_of. replace ("ftp://" +:+ authority witness_config +:+ encoded p)%string
    with (("ftp://" +:+ authority witness_config) +:+ encoded p)%string by (by rewrite append_assoc).
  rewrite strip_prefix_app. simpl. unfold encoded. rewrite percent_round_trip by apply bytes_are_bytes.
  simpl. by rewrite bytes_string.
Qed.

#[local] Instance memory_server_laws : FtpServer witness_config kept.
Proof.
  split; try done.
  - intros easy w p w' path Hp Hreq. simpl in Hp. unfold serve_request in Hp. rewrite Hreq, path_of_url_of in Hp. simpl in Hp.
    destruct (kept w !! FtpPath_str path) as [c |] eqn:Hc; injection Hp as <- <-; (split; [done |]); simpl.
    + intros n _ [= <-] _. by exists c.
    + done.
  - intros easy input w p w' path offset Hp Hreq. simpl in Hp. unfold serve_request in Hp.
    rewrite Hreq, path_of_url_of in Hp. injection Hp as <- <-. simpl. by eexists (Some _).
  - intros easy w p w' from to Hp Hreq. simpl in Hp. unfold serve_request in Hp. rewrite Hreq in Hp.
    unfold rename_commands in Hp. rewrite !strip_prefix_app in Hp.
    destruct (kept w !! FtpPath_str from) as [c |] eqn:Hc; injection Hp as <- <-; [right; by exists c | by left].
Qed.

Definition start_world : ServerWorld := {| kept := {[ "/other"%string := [9] ]}; ticks := 0 |}.
Definition witness_state : FtpRemoteSession * ServerWorld :=
  ({| snapshot := {| session_id := 1; session_profile_id := 2; session_protocol := FtpsExplicit; session_state := Ready;
                     session_capabilities := ftp_capabilities; session_opened_at_unix_ms := 0;
                     session_updated_at_unix_ms := 0 |};
      writes := ∅; backend := witness_config |}, start_world).
Definition witness_begin : BeginWriteRequest :=
  {| begin_final_path := {| RemotePath_str := "/a b" |}; begin_temporary_path := {| RemotePath_str := "/a b.part" |};
     begin_expected_size_bytes := Some 5; begin_resume_from := None; begin_expected_destination := None |}.
Definition witness_chunks : list (list Z) := [[1; 2]; [3; 4; 5]].

Definition state_after {A} (m : mut (FtpRemoteSession * ServerWorld) A RemoteError) s := fst (m s).





(** A profile, and a connection with it. *)
Definition witness_profile : RemoteConnectionProfile :=
  {| profile_id := 2; profile_label := "files"; profile_protocol := FtpsExplicit;
     profile_endpoint := {| endpoint_host := "files.example"; endpoint_port := 21 |};
     profile_username := Some "someone"%string; profile_domain := None;
     profile_authentication := Auth_Password {| secret_backend := SecretService; secret_item_id := 7 |};
     profile_trust := SystemTls; profile_options := Options_FtpsExplicit RemoteCore.Passive true |}.
Definition witness_secrets (_ : SecretRef) (w : ServerWorld) : result (list Z) SecretStoreError * ServerWorld :=
  (Ok (bytes "secret"), w).

Lemma connected_session_is_configured_witness :
  let run := connect_profile witness_secrets explicit_ftps_adapter witness_profile None start_world in
  match run.2 with
  | Ok f => backend f = witness_config /\ security (backend f) = ExplicitFtps
  | Err _ => False
  end.
Proof.
  intros run. destruct (run.2) as [f | e] eqn:Hr; [| vm_compute in Hr; discriminate].
  split; [vm_compute in Hr; by injection Hr as <- |].
  refine (proj1 (proj2 (proj2 (proj2 (connected_session_is_configured witness_secrets explicit_ftps_adapter witness_profile
    None start_world run.1 f _))))). rewrite <- Hr. apply surjective_pairing.
Defined.
