(* ===== verification/TransferModel.v ===== *)
(** [crates/transfers/src/model.rs]: endpoints, directions, features, bandwidth
    limits, retry policies and progress of a transfer. *)

From S2P Require Import Prelude RemoteCore.

Definition MAX_RETRY_ATTEMPTS : Z := 20.
Definition MAX_BANDWIDTH_BYTES_PER_SECOND : Z := 1024 * 1024 * 1024 * 1024.

Abbreviation TransferId := Z (only parsing).
Abbreviation LocalFileHandle := Z (only parsing).
Abbreviation ProfileId := Z (only parsing).

Record RemoteTransferEndpoint := {
  ep_profile_id : ProfileId;
  ep_protocol : RemoteProtocol;
  ep_path : RemotePath;
}.
#[export] Instance RemoteTransferEndpoint_eq_dec : EqDecision RemoteTransferEndpoint.
Proof. solve_decision. Defined.

Inductive TransferEndpoint :=
| Local (handle : LocalFileHandle)
| Remote (remote : RemoteTransferEndpoint).
#[export] Instance TransferEndpoint_eq_dec : EqDecision TransferEndpoint.
Proof. solve_decision. Defined.

Definition TransferEndpoint_remote (e : TransferEndpoint) : option RemoteTransferEndpoint :=
  match e with Local _ => None | Remote r => Some r end.

Inductive TransferDirection := Upload | Download.
#[export] Instance TransferDirection_eq_dec : EqDecision TransferDirection.
Proof. solve_decision. Defined.

Inductive TransferValidationError :=
| DirectionEndpointMismatch | InvalidBandwidthLimit | InconsistentExpectedSize.

Definition validate_endpoints (d : TransferDirection) (source destination : TransferEndpoint)
  : result unit TransferValidationError :=
  match d, source, destination with
  | Upload, Local _, Remote _ | Download, Remote _, Local _ => Ok tt
  | _, _, _ => Err DirectionEndpointMismatch
  end.

Definition resume_operation (d : TransferDirection) : FileOperation :=
  match d with Upload => FileOp_ResumeWrite | Download => FileOp_ResumeRead end.

Inductive FeatureSupport := Supported | Unsupported (reason : SafeReason).
#[export] Instance FeatureSupport_eq_dec : EqDecision FeatureSupport.
Proof. solve_decision. Defined.

Inductive ResumeValidation := RV_RemoteIdentity | RV_SizeOnly.
#[export] Instance ResumeValidation_eq_dec : EqDecision ResumeValidation.
Proof. solve_decision. Defined.

Definition FeatureSupport_is_supported (f : FeatureSupport) : bool :=
  match f with Supported => true | Unsupported _ => false end.

Definition FeatureSupport_from (s : CapabilityStatus) : FeatureSupport :=
  match s with Cap_Supported => Supported | Cap_Unsupported r => Unsupported r end.

Record TransferFeatureSet := {
  feat_pause : FeatureSupport;
  feat_resume : FeatureSupport;
  feat_resume_validation : option ResumeValidation;
}.
#[export] Instance TransferFeatureSet_eq_dec : EqDecision TransferFeatureSet.
Proof. solve_decision. Defined.

(** [None] when [capabilities.status] panics on an incomplete matrix. *)
Definition TransferFeatureSet_from_adapter (d : TransferDirection) (p : RemoteProtocol)
    (capabilities : CapabilityMatrix) : option TransferFeatureSet :=
  status ← CapabilityMatrix_status capabilities (resume_operation d);
  let resume := FeatureSupport_from status in
  let validation :=
    if FeatureSupport_is_supported resume
    then Some match p with
              | Ftp | FtpsExplicit => RV_SizeOnly
              | Sftp => RV_RemoteIdentity
              | Ssh | Smb => RV_SizeOnly
              end
    else None in
  Some {| feat_pause := Unsupported (static_reason "transfer_pause_requires_inflight_control");
          feat_resume := resume;
          feat_resume_validation := validation |}.

Inductive ConflictPolicy := Policy_Fail | Policy_Overwrite | Policy_Rename | Policy_Resume.
#[export] Instance ConflictPolicy_eq_dec : EqDecision ConflictPolicy.
Proof. solve_decision. Defined.

(** [Option<NonZeroU64>]: [None] is unlimited. *)
Record BandwidthLimit := { limit_get : option Z }.
#[export] Instance BandwidthLimit_eq_dec : EqDecision BandwidthLimit.
Proof. solve_decision. Defined.

Definition BandwidthLimit_unlimited : BandwidthLimit := {| limit_get := None |}.

Definition BandwidthLimit_bytes_per_second (value : Z) : result BandwidthLimit TransferValidationError :=
  fail_if value =? 0 with InvalidBandwidthLimit in
  fail_if MAX_BANDWIDTH_BYTES_PER_SECOND <? value with InvalidBandwidthLimit in
  Ok {| limit_get := Some value |}.

Record RetryPolicy := {
  max_attempts : Z;
  initial_backoff_ms : Z;
  max_backoff_ms : Z;
}.
#[export] Instance RetryPolicy_eq_dec : EqDecision RetryPolicy.
Proof. solve_decision. Defined.

Inductive RetryPolicyError := InvalidAttempts | InvalidBackoff.

Definition RetryPolicy_new (attempts initial max : Z) : result RetryPolicy RetryPolicyError :=
  fail_if (attempts =? 0) || (MAX_RETRY_ATTEMPTS <? attempts) with InvalidAttempts in
  fail_if (initial =? 0) || (max <? initial) || (24 * 60 * 60 * 1000 <? max) with InvalidBackoff in
  Ok {| max_attempts := attempts; initial_backoff_ms := initial; max_backoff_ms := max |}.

(** [u16::saturating_sub], a shift of [1_u64] by at most 31, and
    [u64::saturating_mul]. *)
Definition backoff_ms (p : RetryPolicy) (completed_attempts : Z) : Z :=
  let exponent := Z.min (Z.max 0 (completed_attempts - 1)) 31 in
  Z.min (sat_u64 (initial_backoff_ms p * Z.shiftl 1 exponent)) (max_backoff_ms p).

Definition RetryPolicy_default : RetryPolicy :=
  {| max_attempts := 5; initial_backoff_ms := 1000; max_backoff_ms := 60000 |}.

Record TransferProgress := {
  bytes_transferred : Z;
  total_bytes : option Z;
  bytes_per_second : option Z;
  sampled_at_unix_ms : option Z;
}.
#[export] Instance TransferProgress_eq_dec : EqDecision TransferProgress.
Proof. solve_decision. Defined.

Definition TransferProgress_pending (total : option Z) : TransferProgress :=
  {| bytes_transferred := 0; total_bytes := total; bytes_per_second := None;
     sampled_at_unix_ms := None |}.

Definition expected_size (identity : option ObjectIdentity) : option Z :=
  identity ≫= size_bytes.

(** ** Retry policies

    A validated policy, and the exponential backoff it gives. *)

(** The fields are a [u16] and two [u64]s. *)
Definition valid_policy (p : RetryPolicy) : Prop :=
  0 <= max_attempts p /\ 0 <= initial_backoff_ms p
  /\ RetryPolicy_new (max_attempts p) (initial_backoff_ms p) (max_backoff_ms p) = Ok p.

Lemma valid_policy_bounds p :
  valid_policy p <->
  1 <= max_attempts p <= 20 /\ 1 <= initial_backoff_ms p <= max_backoff_ms p
  /\ max_backoff_ms p <= 86400000.
Proof.
  unfold valid_policy, RetryPolicy_new, MAX_RETRY_ATTEMPTS. destruct p as [a i m]; simpl.
  repeat case_match; (split; [intros (? & ? & [=]); lia | intros; split_and!; first [done | exfalso; lia | lia]]).
Qed.

Lemma backoff_exact p n :
  0 <= initial_backoff_ms p ->
  backoff_ms p n =
  Z.min (Z.min u64_max (initial_backoff_ms p * 2 ^ Z.min (Z.max 0 (n - 1)) 31)) (max_backoff_ms p).
Proof.
  intros Hi. unfold backoff_ms. rewrite Z.shiftl_1_l. f_equal. unfold sat_u64, clamp.
  assert (0 <= initial_backoff_ms p * 2 ^ Z.min (Z.max 0 (n - 1)) 31)
    by (apply Z.mul_nonneg_nonneg; [done | apply Z.pow_nonneg; lia]).
  rewrite Z.max_r; [done |]. unfold u64_max. lia.
Qed.

Lemma backoff_mono p m n :
  0 <= initial_backoff_ms p -> m <= n -> backoff_ms p m <= backoff_ms p n.
Proof.
  intros Hi Hmn. unfold backoff_ms. rewrite !Z.shiftl_1_l.
  apply Z.min_le_compat_r. unfold sat_u64, clamp.
  apply Z.max_le_compat_l, Z.min_le_compat_l, Z.mul_le_mono_nonneg_l; [done |].
  apply Z.pow_le_mono_r; lia.
Qed.

(** * [crates/transfers/src/state.rs]: the transfer task and its state machine.
    Every [&mut self] method of [TransferTask] is a [mut] program with the
    method's checks in the method's order. The fields are the struct's; the
    private [generation] names the run that may report on the task. *)

Record RunToken := { token_task_id : TransferId; token_generation : Z }.
#[export] Instance RunToken_eq_dec : EqDecision RunToken.
Proof. solve_decision. Defined.

Inductive StateChange := Changed | Unchanged.
#[export] Instance StateChange_eq_dec : EqDecision StateChange.
Proof. solve_decision. Defined.

Inductive TransferStateKind :=
| K_Queued | K_Running | K_Pausing | K_Paused | K_Cancelling | K_RetryScheduled
| K_Conflict | K_Completed | K_Failed | K_Cancelled.
#[export] Instance TransferStateKind_eq_dec : EqDecision TransferStateKind.
Proof. solve_decision. Defined.

Inductive VerificationLevel := Verify_Size | Verify_RemoteIdentity | Verify_Checksum | Verify_Unverified.
#[export] Instance VerificationLevel_eq_dec : EqDecision VerificationLevel.
Proof. solve_decision. Defined.

Record TransferCheckpoint := {
  cp_offset : Z;
  cp_source_identity : option ObjectIdentity;
  cp_destination_identity : option ObjectIdentity;
  cp_verification : VerificationLevel;
  cp_verified_at_unix_ms : Z;
}.
#[export] Instance TransferCheckpoint_eq_dec : EqDecision TransferCheckpoint.
Proof. solve_decision. Defined.

Record TransferFailure := {
  fail_kind : RemoteErrorKind;
  fail_operation : RemoteOperation;
  fail_reason : SafeReason;
  fail_retry : RetryDisposition;
}.
#[export] Instance TransferFailure_eq_dec : EqDecision TransferFailure.
Proof. solve_decision. Defined.

Definition TransferFailure_from (e : RemoteError) : TransferFailure :=
  {| fail_kind := err_kind e; fail_operation := err_operation e;
     fail_reason := err_reason e; fail_retry := err_retry e |}.

Definition TransferFailure_is_retryable (f : TransferFailure) : bool :=
  RetryDisposition_is_retryable (fail_retry f).

Record TransferCompletion := {
  done_verification : VerificationLevel;
  done_identity : option ObjectIdentity;
  completed_at_unix_ms : Z;
}.
#[export] Instance TransferCompletion_eq_dec : EqDecision TransferCompletion.
Proof. solve_decision. Defined.

Record TransferConflict := {
  conflict_reason : SafeReason;
  conflict_checkpoint : option TransferCheckpoint;
}.
#[export] Instance TransferConflict_eq_dec : EqDecision TransferConflict.
Proof. solve_decision. Defined.

Inductive TransferState :=
| Queued
| Running
| Pausing
| Paused (checkpoint : TransferCheckpoint)
| Cancelling
| RetryScheduled (not_before_unix_ms : Z) (failure : TransferFailure)
| Conflict (conflict : TransferConflict)
| Completed (completion : TransferCompletion)
| Failed (failure : TransferFailure)
| Cancelled (checkpoint : option TransferCheckpoint) (cancelled_at_unix_ms : Z).
#[export] Instance TransferState_eq_dec : EqDecision TransferState.
Proof. solve_decision. Defined.

Definition TransferState_kind (s : TransferState) : TransferStateKind :=
  match s with
  | Queued => K_Queued
  | Running => K_Running
  | Pausing => K_Pausing
  | Paused _ => K_Paused
  | Cancelling => K_Cancelling
  | RetryScheduled _ _ => K_RetryScheduled
  | Conflict _ => K_Conflict
  | Completed _ => K_Completed
  | Failed _ => K_Failed
  | Cancelled _ _ => K_Cancelled
  end.

Definition is_active (s : TransferState) : bool :=
  match TransferState_kind s with
  | K_Running | K_Pausing | K_Cancelling => true
  | _ => false
  end.

Record TransferTask := {
  id : TransferId;
  source : TransferEndpoint;
  destination : TransferEndpoint;
  direction : TransferDirection;
  expected_source : option ObjectIdentity;
  expected_destination : option ObjectIdentity;
  state : TransferState;
  progress : TransferProgress;
  retry_policy : RetryPolicy;
  completed_attempts : Z;
  bandwidth_limit : BandwidthLimit;
  conflict_policy : ConflictPolicy;
  features : TransferFeatureSet;
  revision : Z;
  generation : Z;
  created_at_unix_ms : Z;
  updated_at_unix_ms : Z;
}.
#[export] Instance TransferTask_eq_dec : EqDecision TransferTask.
Proof. solve_decision. Defined.

Inductive TransferMutationError :=
| InvalidState (operation : string) (at_state : TransferStateKind)
| StaleRunToken
| TimestampRegressed
| ProgressRegressed
| TotalChanged
| ProgressExceedsTotal
| ReportedSpeedOutOfRange
| CheckpointExceedsProgress
| IncompleteProgress
| UnsupportedFeature (reason : SafeReason)
| RetryNotReady
| NotRetryable
| RetryExhausted.

(** Assignments to one field of [self]. *)
Definition with_state (s : TransferState) (t : TransferTask) : TransferTask :=
  {| id := id t; source := source t; destination := destination t; direction := direction t;
     expected_source := expected_source t; expected_destination := expected_destination t;
     state := s; progress := progress t; retry_policy := retry_policy t;
     completed_attempts := completed_attempts t; bandwidth_limit := bandwidth_limit t;
     conflict_policy := conflict_policy t; features := features t; revision := revision t;
     generation := generation t; created_at_unix_ms := created_at_unix_ms t;
     updated_at_unix_ms := updated_at_unix_ms t |}.

Definition with_progress (p : TransferProgress) (t : TransferTask) : TransferTask :=
  {| id := id t; source := source t; destination := destination t; direction := direction t;
     expected_source := expected_source t; expected_destination := expected_destination t;
     state := state t; progress := p; retry_policy := retry_policy t;
     completed_attempts := completed_attempts t; bandwidth_limit := bandwidth_limit t;
     conflict_policy := conflict_policy t; features := features t; revision := revision t;
     generation := generation t; created_at_unix_ms := created_at_unix_ms t;
     updated_at_unix_ms := updated_at_unix_ms t |}.

Definition with_conflict_policy (p : ConflictPolicy) (t : TransferTask) : TransferTask :=
  {| id := id t; source := source t; destination := destination t; direction := direction t;
     expected_source := expected_source t; expected_destination := expected_destination t;
     state := state t; progress := progress t; retry_policy := retry_policy t;
     completed_attempts := completed_attempts t; bandwidth_limit := bandwidth_limit t;
     conflict_policy := p; features := features t; revision := revision t;
     generation := generation t; created_at_unix_ms := created_at_unix_ms t;
     updated_at_unix_ms := updated_at_unix_ms t |}.

(** [completed_attempts += 1] and the counters of a run. *)
Definition with_counters (attempts gen rev at_unix_ms : Z) (t : TransferTask) : TransferTask :=
  {| id := id t; source := source t; destination := destination t; direction := direction t;
     expected_source := expected_source t; expected_destination := expected_destination t;
     state := state t; progress := progress t; retry_policy := retry_policy t;
     completed_attempts := attempts; bandwidth_limit := bandwidth_limit t;
     conflict_policy := conflict_policy t; features := features t; revision := rev;
     generation := gen; created_at_unix_ms := created_at_unix_ms t;
     updated_at_unix_ms := at_unix_ms |}.

Definition invalidate_run (t : TransferTask) : TransferTask :=
  with_counters (completed_attempts t) (sat_u64 (generation t + 1)) (revision t)
    (updated_at_unix_ms t) t.

Definition changed (at_unix_ms : Z) (t : TransferTask) : TransferTask :=
  with_counters (completed_attempts t) (generation t) (sat_u64 (revision t + 1)) at_unix_ms t.

(** [self.completed_attempts += 1]: a [u16] that overflows in a build without
    overflow checks wraps. *)
Definition bump_attempts (t : TransferTask) : TransferTask :=
  with_counters ((completed_attempts t + 1) mod 65536) (generation t) (revision t)
    (updated_at_unix_ms t) t.

Definition TransferTask_new (tid : TransferId) (src dst : TransferEndpoint)
    (dir : TransferDirection) (exp_src exp_dst : option ObjectIdentity)
    (policy : RetryPolicy) (limit : BandwidthLimit) (conflict : ConflictPolicy)
    (feats : TransferFeatureSet) (created : Z)
  : result TransferTask TransferValidationError :=
  let? _ := validate_endpoints dir src dst in
  Ok {| id := tid; source := src; destination := dst; direction := dir;
        expected_source := exp_src; expected_destination := exp_dst;
        state := Queued; progress := TransferProgress_pending (expected_size exp_src);
        retry_policy := policy; completed_attempts := 0; bandwidth_limit := limit;
        conflict_policy := conflict; features := feats; revision := 0; generation := 0;
        created_at_unix_ms := created; updated_at_unix_ms := created |}.

Abbreviation task_mut A := (mut TransferTask A TransferMutationError).

Definition check_token (token : RunToken) : task_mut unit := lift (fun t =>
  fail_if negb (token_task_id token =? id t) || negb (token_generation token =? generation t)
    with StaleRunToken in Ok tt).

Definition check_time (now : Z) : task_mut unit := lift (fun t =>
  fail_if now <? updated_at_unix_ms t with TimestampRegressed in Ok tt).

Definition ensure_checkpoint (checkpoint : TransferCheckpoint) : task_mut unit := lift (fun t =>
  fail_if bytes_transferred (progress t) <? cp_offset checkpoint
    with CheckpointExceedsProgress in Ok tt).

Definition ensure_checkpoint_opt (checkpoint : option TransferCheckpoint) : task_mut unit :=
  match checkpoint with Some c => ensure_checkpoint c | None => ret tt end.

Definition current_checkpoint (t : TransferTask) : option TransferCheckpoint :=
  match state t with
  | Paused c => Some c
  | Conflict {| conflict_checkpoint := Some c |} => Some c
  | _ => None
  end.

Definition invalid_state {A} (operation : string) : task_mut A :=
  k <- gets (fun t => TransferState_kind (state t)) ;;
  throw (InvalidState operation k).

(** [if !matches!(self.state, ...) { return Err(self.invalid_state(op)) }] *)
Definition require_state (ok : TransferState -> bool) (operation : string) : task_mut unit :=
  s <- gets state ;;
  if ok s then ret tt else invalid_state operation.

Definition is_running (s : TransferState) : bool := match s with Running => true | _ => false end.
Definition is_pausing (s : TransferState) : bool := match s with Pausing => true | _ => false end.
Definition is_cancelling (s : TransferState) : bool := match s with Cancelling => true | _ => false end.
Definition is_running_or_pausing (s : TransferState) : bool := is_running s || is_pausing s.
Definition is_conflict (s : TransferState) : bool := match s with Conflict _ => true | _ => false end.

Definition start (now : Z) : task_mut RunToken :=
  check_time now ;;;
  s <- gets state ;;
  match s with
  | Queued => ret tt
  | RetryScheduled not_before _ => if not_before <=? now then ret tt else throw RetryNotReady
  | _ => invalid_state "start"
  end ;;;
  lift (fun t => fail_if max_attempts (retry_policy t) <=? completed_attempts t
                   with RetryExhausted in Ok tt) ;;;
  modify bump_attempts ;;;
  modify invalidate_run ;;;
  modify (with_state Running) ;;;
  modify (changed now) ;;;
  gets (fun t => {| token_task_id := id t; token_generation := generation t |}).

Definition record_progress (token : RunToken) (bytes : Z) (total : option Z)
    (speed : option Z) (now : Z) : task_mut StateChange :=
  check_token token ;;;
  check_time now ;;;
  require_state is_running_or_pausing "record_progress" ;;;
  lift (fun t => fail_if bytes <? bytes_transferred (progress t) with ProgressRegressed in Ok tt) ;;;
  lift (fun t => match total_bytes (progress t), total with
                 | Some previous, Some next =>
                     fail_if negb (previous =? next) with TotalChanged in Ok tt
                 | _, _ => Ok tt
                 end) ;;;
  total' <- gets (fun t => or_else total (total_bytes (progress t))) ;;
  lift (fun _ => fail_if is_some_and (fun v => v <? bytes) total' with ProgressExceedsTotal in Ok tt) ;;;
  lift (fun _ => fail_if is_some_and (fun v => MAX_BANDWIDTH_BYTES_PER_SECOND <? v) speed
                   with ReportedSpeedOutOfRange in Ok tt) ;;;
  let next := {| bytes_transferred := bytes; total_bytes := total';
                 bytes_per_second := speed; sampled_at_unix_ms := Some now |} in
  same <- gets (fun t => eqb (progress t) next) ;;
  if (same : bool) then ret Unchanged
  else modify (with_progress next) ;;; modify (changed now) ;;; ret Changed.

(** [match &self.features.pause { Supported => {}, Unsupported(r) => return Err(..) }] *)
Definition require_feature (feature : TransferFeatureSet -> FeatureSupport) : task_mut unit :=
  lift (fun t => match feature (features t) with
                 | Supported => Ok tt
                 | Unsupported reason => Err (UnsupportedFeature reason)
                 end).

Definition request_pause (now : Z) : task_mut StateChange :=
  check_time now ;;;
  require_feature feat_pause ;;;
  s <- gets state ;;
  match s with
  | Paused _ | Pausing => ret Unchanged
  | Running => modify (with_state Pausing) ;;; modify (changed now) ;;; ret Changed
  | _ => invalid_state "request_pause"
  end.

Definition confirm_paused (token : RunToken) (checkpoint : TransferCheckpoint) (now : Z)
  : task_mut StateChange :=
  check_token token ;;;
  check_time now ;;;
  require_state is_pausing "confirm_paused" ;;;
  ensure_checkpoint checkpoint ;;;
  modify (with_state (Paused checkpoint)) ;;;
  modify invalidate_run ;;;
  modify (changed now) ;;;
  ret Changed.

Definition resume (now : Z) : task_mut StateChange :=
  check_time now ;;;
  require_feature feat_resume ;;;
  s <- gets state ;;
  match s with
  | Queued => ret Unchanged
  | Paused _ => modify (with_state Queued) ;;; modify (changed now) ;;; ret Changed
  | _ => invalid_state "resume"
  end.

Definition request_cancel (now : Z) : task_mut StateChange :=
  check_time now ;;;
  s <- gets state ;;
  match s with
  | Cancelled _ _ | Cancelling => ret Unchanged
  | Completed _ => invalid_state "request_cancel"
  | Running | Pausing =>
      modify (with_state Cancelling) ;;; modify (changed now) ;;; ret Changed
  | _ =>
      checkpoint <- gets current_checkpoint ;;
      modify (with_state (Cancelled checkpoint now)) ;;;
      modify invalidate_run ;;; modify (changed now) ;;; ret Changed
  end.

Definition confirm_cancelled (token : RunToken) (checkpoint : option TransferCheckpoint) (now : Z)
  : task_mut StateChange :=
  check_token token ;;;
  check_time now ;;;
  require_state is_cancelling "confirm_cancelled" ;;;
  ensure_checkpoint_opt checkpoint ;;;
  modify (with_state (Cancelled checkpoint now)) ;;;
  modify invalidate_run ;;;
  modify (changed now) ;;;
  ret Changed.

Definition complete (token : RunToken) (completion : TransferCompletion) : task_mut StateChange :=
  check_token token ;;;
  check_time (completed_at_unix_ms completion) ;;;
  require_state is_running "complete" ;;;
  lift (fun t => fail_if is_some_and (fun total => negb (bytes_transferred (progress t) =? total))
                                     (total_bytes (progress t))
                   with IncompleteProgress in Ok tt) ;;;
  modify (with_state (Completed completion)) ;;;
  modify invalidate_run ;;;
  modify (changed (completed_at_unix_ms completion)) ;;;
  ret Changed.

Definition fail (token : RunToken) (failure : TransferFailure) (now : Z) : task_mut StateChange :=
  check_token token ;;;
  check_time now ;;;
  require_state is_running_or_pausing "fail" ;;;
  modify (with_state (Failed failure)) ;;;
  modify invalidate_run ;;;
  modify (changed now) ;;;
  ret Changed.

Definition schedule_retry (now : Z) : task_mut StateChange :=
  check_time now ;;;
  s <- gets state ;;
  match s with
  | Failed failure =>
      (if negb (TransferFailure_is_retryable failure) then throw NotRetryable else ret tt) ;;;
      lift (fun t => fail_if max_attempts (retry_policy t) <=? completed_attempts t
                       with RetryExhausted in Ok tt) ;;;
      delay <- gets (fun t => backoff_ms (retry_policy t) (completed_attempts t)) ;;
      modify (with_state (RetryScheduled (sat_i64 (now + delay)) failure)) ;;;
      modify (changed now) ;;;
      ret Changed
  | RetryScheduled _ _ => ret Unchanged
  | _ => invalid_state "schedule_retry"
  end.

Definition enter_conflict (token : RunToken) (conflict : TransferConflict) (now : Z)
  : task_mut StateChange :=
  check_token token ;;;
  check_time now ;;;
  require_state is_running_or_pausing "enter_conflict" ;;;
  ensure_checkpoint_opt (conflict_checkpoint conflict) ;;;
  modify (with_state (Conflict conflict)) ;;;
  modify invalidate_run ;;;
  modify (changed now) ;;;
  ret Changed.

Definition resolve_conflict (policy : ConflictPolicy) (now : Z) : task_mut StateChange :=
  check_time now ;;;
  require_state is_conflict "resolve_conflict" ;;;
  (if eqb policy Policy_Resume then require_feature feat_resume else ret tt) ;;;
  modify (with_conflict_policy policy) ;;;
  modify (with_state Queued) ;;;
  modify (changed now) ;;;
  ret Changed.

Definition restart_failure (d : TransferDirection) : TransferFailure :=
  {| fail_kind := EK_Transport;
     fail_operation := match d with Upload => Op_Write | Download => Op_Read end;
     fail_reason := static_reason "app_restarted_state_unverified";
     fail_retry := Retry_Backoff |}.

Definition recover_after_restart (now : Z) : task_mut StateChange :=
  check_time now ;;;
  s <- gets state ;;
  if negb (is_active s) then ret Unchanged
  else
    d <- gets direction ;;
    modify (with_state (Failed (restart_failure d))) ;;;
    modify invalidate_run ;;;
    modify (changed now) ;;;
    ret Changed.

(** [None] is the panic of [expect("validated transfer has one remote endpoint")]. *)
Definition remote_profile_id (t : TransferTask) : option ProfileId :=
  option_map ep_profile_id
    (or_else (TransferEndpoint_remote (source t)) (TransferEndpoint_remote (destination t))).
