(* ===== verification/TransferStateFacts.v ===== *)
(** The transfer state machine as a step relation, and what it guarantees:
    the relation is exactly what the methods of [state.rs] do, the task
    invariant, the shape of the state graph, run tokens, revisions and retry
    bounds. *)
From S2P Require Import Prelude RemoteCore TransferModel.

(** ** Calls: one constructor per [&mut self] method *)

Inductive task_call :=
| Call_start (now : Z)
| Call_record_progress (token : RunToken) (bytes : Z) (total speed : option Z) (now : Z)
| Call_request_pause (now : Z)
| Call_confirm_paused (token : RunToken) (checkpoint : TransferCheckpoint) (now : Z)
| Call_resume (now : Z)
| Call_request_cancel (now : Z)
| Call_confirm_cancelled (token : RunToken) (checkpoint : option TransferCheckpoint) (now : Z)
| Call_complete (token : RunToken) (completion : TransferCompletion)
| Call_fail (token : RunToken) (failure : TransferFailure) (now : Z)
| Call_schedule_retry (now : Z)
| Call_enter_conflict (token : RunToken) (conflict : TransferConflict) (now : Z)
| Call_resolve_conflict (policy : ConflictPolicy) (now : Z)
| Call_recover_after_restart (now : Z).

(** [start] answers a token, the other methods whether they changed the task. *)
Definition as_change {A} (m : task_mut A) : task_mut StateChange := m ;;; ret Changed.

Definition call (c : task_call) : task_mut StateChange :=
  match c with
  | Call_start now => as_change (start now)
  | Call_record_progress tok b t s now => record_progress tok b t s now
  | Call_request_pause now => request_pause now
  | Call_confirm_paused tok cp now => confirm_paused tok cp now
  | Call_resume now => resume now
  | Call_request_cancel now => request_cancel now
  | Call_confirm_cancelled tok cp now => confirm_cancelled tok cp now
  | Call_complete tok d => complete tok d
  | Call_fail tok f now => fail tok f now
  | Call_schedule_retry now => schedule_retry now
  | Call_enter_conflict tok cf now => enter_conflict tok cf now
  | Call_resolve_conflict p now => resolve_conflict p now
  | Call_recover_after_restart now => recover_after_restart now
  end.

Definition call_time (c : task_call) : Z :=
  match c with
  | Call_start now | Call_record_progress _ _ _ _ now | Call_request_pause now
  | Call_confirm_paused _ _ now | Call_resume now | Call_request_cancel now
  | Call_confirm_cancelled _ _ now | Call_fail _ _ now | Call_schedule_retry now
  | Call_enter_conflict _ _ now | Call_resolve_conflict _ now
  | Call_recover_after_restart now => now
  | Call_complete _ d => completed_at_unix_ms d
  end.

Definition call_token (c : task_call) : option RunToken :=
  match c with
  | Call_record_progress tok _ _ _ _ | Call_confirm_paused tok _ _
  | Call_confirm_cancelled tok _ _ | Call_complete tok _ | Call_fail tok _ _
  | Call_enter_conflict tok _ _ => Some tok
  | _ => None
  end.

Definition token_of (t : TransferTask) : RunToken :=
  {| token_task_id := id t; token_generation := generation t |}.

(** ** The step relation *)

(** A step that ends the run in progress, and one that keeps it. *)
Definition finish (s : TransferState) (now : Z) (t : TransferTask) : TransferTask :=
  changed now (invalidate_run (with_state s t)).
Definition continue (s : TransferState) (now : Z) (t : TransferTask) : TransferTask :=
  changed now (with_state s t).

Definition ready_to_start (s : TransferState) (now : Z) : Prop :=
  match s with
  | Queued => True
  | RetryScheduled not_before _ => not_before <= now
  | _ => False
  end.

Definition checkpoint_le (t : TransferTask) (c : option TransferCheckpoint) : Prop :=
  match c with Some cp => cp_offset cp <= bytes_transferred (progress t) | None => True end.

Definition total_agrees (t : TransferTask) (total : option Z) : Prop :=
  match total_bytes (progress t), total with
  | Some a, Some b => a = b
  | _, _ => True
  end.

Definition next_progress (t : TransferTask) (bytes : Z) (total speed : option Z) (now : Z)
  : TransferProgress :=
  {| bytes_transferred := bytes; total_bytes := or_else total (total_bytes (progress t));
     bytes_per_second := speed; sampled_at_unix_ms := Some now |}.

Definition bounded_by (limit : option Z) (v : Z) : Prop :=
  match limit with Some l => v <= l | None => True end.
Definition speed_ok (speed : option Z) : Prop :=
  match speed with Some v => v <= MAX_BANDWIDTH_BYTES_PER_SECOND | None => True end.

Inductive step : task_call -> TransferTask -> TransferTask -> Prop :=
| step_start t now :
    ready_to_start (state t) now -> completed_attempts t < max_attempts (retry_policy t) ->
    step (Call_start now) t
      (changed now (with_state Running (invalidate_run (bump_attempts t))))
| step_progress t bytes total speed now :
    is_running_or_pausing (state t) = true ->
    bytes_transferred (progress t) <= bytes -> total_agrees t total ->
    bounded_by (or_else total (total_bytes (progress t))) bytes -> speed_ok speed ->
    progress t <> next_progress t bytes total speed now ->
    step (Call_record_progress (token_of t) bytes total speed now) t
      (changed now (with_progress (next_progress t bytes total speed now) t))
| step_request_pause t now :
    feat_pause (features t) = Supported -> state t = Running ->
    step (Call_request_pause now) t (continue Pausing now t)
| step_confirm_paused t cp now :
    state t = Pausing -> checkpoint_le t (Some cp) ->
    step (Call_confirm_paused (token_of t) cp now) t (finish (Paused cp) now t)
| step_resume t cp now :
    feat_resume (features t) = Supported -> state t = Paused cp ->
    step (Call_resume now) t (continue Queued now t)
| step_cancel_active t now :
    is_running_or_pausing (state t) = true ->
    step (Call_request_cancel now) t (continue Cancelling now t)
| step_cancel_idle t now :
    match TransferState_kind (state t) with
    | K_Queued | K_Paused | K_RetryScheduled | K_Conflict | K_Failed => True
    | _ => False
    end ->
    step (Call_request_cancel now) t (finish (Cancelled (current_checkpoint t) now) now t)
| step_confirm_cancelled t cp now :
    state t = Cancelling -> checkpoint_le t cp ->
    step (Call_confirm_cancelled (token_of t) cp now) t (finish (Cancelled cp now) now t)
| step_complete t d :
    state t = Running ->
    match total_bytes (progress t) with
    | Some total => bytes_transferred (progress t) = total
    | None => True
    end ->
    step (Call_complete (token_of t) d) t (finish (Completed d) (completed_at_unix_ms d) t)
| step_fail t f now :
    is_running_or_pausing (state t) = true ->
    step (Call_fail (token_of t) f now) t (finish (Failed f) now t)
| step_schedule_retry t f now :
    state t = Failed f -> TransferFailure_is_retryable f = true ->
    completed_attempts t < max_attempts (retry_policy t) ->
    step (Call_schedule_retry now) t
      (continue (RetryScheduled (sat_i64 (now + backoff_ms (retry_policy t) (completed_attempts t))) f)
         now t)
| step_enter_conflict t cf now :
    is_running_or_pausing (state t) = true -> checkpoint_le t (conflict_checkpoint cf) ->
    step (Call_enter_conflict (token_of t) cf now) t (finish (Conflict cf) now t)
| step_resolve_conflict t cf p now :
    state t = Conflict cf -> (p = Policy_Resume -> feat_resume (features t) = Supported) ->
    step (Call_resolve_conflict p now) t (continue Queued now (with_conflict_policy p t))
| step_recover t now :
    is_active (state t) = true ->
    step (Call_recover_after_restart now) t (finish (Failed (restart_failure (direction t))) now t).

(** ** The methods implement the relation *)

Lemma check_token_ok tok u t t' :
  check_token tok t = (t', Ok u) <-> t' = t /\ tok = token_of t.
Proof.
  unfold check_token. rewrite lift_ok. destruct tok as [i g], u; unfold token_of; simpl.
  split; intros [-> H]; split; try done.
  - bool_facts. congruence.
  - injection H as -> ->. by rewrite !Z.eqb_refl.
Qed.

Lemma check_time_ok now u t t' :
  check_time now t = (t', Ok u) <-> t' = t /\ updated_at_unix_ms t <= now.
Proof.
  unfold check_time. rewrite lift_ok. destruct u. split; intros [-> H]; split; try done.
  - by bool_facts.
  - case_match; [bool_facts; lia | done].
Qed.

Lemma require_state_ok p op u t t' :
  require_state p op t = (t', Ok u) <-> t' = t /\ p (state t) = true.
Proof.
  unfold require_state, invalid_state. split; intros H.
  - inv_ok. case_match; inv_ok; done.
  - destruct H as [-> H], u. unfold bind, gets. by rewrite H.
Qed.

Lemma require_feature_ok f u t t' :
  require_feature f t = (t', Ok u) <-> t' = t /\ f (features t) = Supported.
Proof.
  unfold require_feature. rewrite lift_ok. destruct u, (f (features t)); split; intros [? ?]; done.
Qed.

Lemma ensure_checkpoint_opt_ok cp u t t' :
  ensure_checkpoint_opt cp t = (t', Ok u) <-> t' = t /\ checkpoint_le t cp.
Proof.
  unfold ensure_checkpoint_opt, ensure_checkpoint, checkpoint_le. destruct cp, u.
  - rewrite lift_ok. split; intros [-> H]; split; try done.
    + by bool_facts.
    + case_match; [bool_facts; lia | done].
  - rewrite ret_ok. naive_solver.
Qed.

Ltac inv_task :=
  repeat (inv_ok; match goal with
    | H : check_token _ _ = (_, Ok _) |- _ => apply check_token_ok in H as [? ?]
    | H : check_time _ _ = (_, Ok _) |- _ => apply check_time_ok in H as [? ?]
    | H : require_state _ _ _ = (_, Ok _) |- _ => apply require_state_ok in H as [? ?]
    | H : require_feature _ _ = (_, Ok _) |- _ => apply require_feature_ok in H as [? ?]
    | H : ensure_checkpoint ?c _ = (_, Ok _) |- _ =>
        apply (ensure_checkpoint_opt_ok (Some c)) in H as [? ?]
    | H : ensure_checkpoint_opt _ _ = (_, Ok _) |- _ =>
        apply ensure_checkpoint_opt_ok in H as [? ?]
    | H : invalid_state _ _ = (_, Ok _) |- _ => unfold invalid_state in H
    end); inv_ok; bool_facts.

(** Unfolds the method of a call in [H]. *)
Ltac unfold_call H :=
  unfold call, as_change, start, record_progress, request_pause, confirm_paused, resume,
    request_cancel, confirm_cancelled, complete, fail, schedule_retry, enter_conflict,
    resolve_conflict, recover_after_restart in H.
Ltac unfold_call_goal :=
  unfold call, as_change, start, record_progress, request_pause, confirm_paused, resume,
    request_cancel, confirm_cancelled, complete, fail, schedule_retry, enter_conflict,
    resolve_conflict, recover_after_restart, check_token, check_time, require_state,
    require_feature, ensure_checkpoint_opt, ensure_checkpoint, invalid_state.

Lemma call_atomic c : atomic (call c).
Proof. destruct c; unfold_call_goal; solve_atomic. Qed.

Lemma call_ok_time c t t' r : call c t = (t', Ok r) -> updated_at_unix_ms t <= call_time c.
Proof. intros H. destruct c; unfold_call H; inv_task; done. Qed.

Ltac prove_step :=
  solve [econstructor; unfold is_running_or_pausing, is_running, is_pausing, is_cancelling,
    is_conflict, ready_to_start, checkpoint_le in *;
  repeat match goal with H : state ?t = _ |- context [state ?t] => rewrite H end; simpl;
  repeat case_match; simplify_eq; simpl in *; bool_facts; eauto; first [done | lia]].

Lemma start_step now tok t t' :
  start now t = (t', Ok tok) -> step (Call_start now) t t' /\ tok = token_of t'.
Proof.
  unfold start. intros H. inv_task.
  repeat (case_match; inv_task; try done); (split; [prove_step | done]).
Qed.

Lemma bounded_by_iff limit v : is_some_and (fun l => l <? v) limit = false <-> bounded_by limit v.
Proof. destruct limit; simpl; [lia | done]. Qed.

Lemma speed_ok_iff speed :
  is_some_and (fun v => MAX_BANDWIDTH_BYTES_PER_SECOND <? v) speed = false <-> speed_ok speed.
Proof. destruct speed; simpl; [lia | done]. Qed.

Lemma record_progress_step tok bytes total speed now t t' :
  record_progress tok bytes total speed now t = (t', Ok Changed) ->
  step (Call_record_progress tok bytes total speed now) t t'.
Proof.
  unfold record_progress. intros H. inv_task.
  case_match; inv_task; [done |]. apply step_progress; [done | done | | | |].
  - unfold total_agrees. repeat case_match; simplify_eq; bool_facts; done.
  - by apply bounded_by_iff.
  - by apply speed_ok_iff.
  - done.
Qed.

(** A call answers [Changed] exactly when it makes a step of the relation. *)
Lemma call_changed_step c t t' : call c t = (t', Ok Changed) -> step c t t'.
Proof.
  destruct c; unfold call, as_change; intros H.
  - inv_ok. eapply start_step; eassumption.
  - by apply record_progress_step.
  - unfold request_pause in H. inv_task. repeat (case_match; inv_task; try done). prove_step.
  - unfold confirm_paused in H. inv_task. prove_step.
  - unfold resume in H. inv_task. repeat (case_match; inv_task; try done). prove_step.
  - unfold request_cancel in H. inv_task. repeat (case_match; inv_task; try done); prove_step.
  - unfold confirm_cancelled in H. inv_task. prove_step.
  - unfold complete in H. inv_task. prove_step.
  - unfold fail in H. inv_task. prove_step.
  - unfold schedule_retry in H. inv_task. repeat (case_match; inv_task; try done). prove_step.
  - unfold enter_conflict in H. inv_task. prove_step.
  - unfold resolve_conflict in H. inv_task.
    destruct (state t) eqn:Hs; try done.
    case_match; inv_task; (eapply step_resolve_conflict; [done |]); intros ->; [done |].
    done.
  - unfold recover_after_restart in H. inv_task. repeat (case_match; inv_task; try done). prove_step.
Qed.

(** A call that answers [Unchanged] leaves the task as it is. *)
Lemma call_unchanged c t t' : call c t = (t', Ok Unchanged) -> t' = t.
Proof. intros H. destruct c; unfold_call H; inv_task; try done;
  repeat (case_match; inv_task; try done). Qed.

(** *** The relation's steps are calls that succeed *)

Ltac run_task :=
  repeat match goal with
    | |- bind _ _ _ = (_, Ok _) => apply bind_ok; eexists _, _; split
    | |- check_token _ _ = _ => apply check_token_ok; split; [reflexivity |]; simpl
    | |- check_time _ _ = _ => apply check_time_ok; split; [reflexivity |]; simpl
    | |- require_state _ _ _ = _ => apply require_state_ok; split; [reflexivity |]
    | |- require_feature _ _ = _ => apply require_feature_ok; split; [reflexivity |]
    | |- ensure_checkpoint ?c _ = _ => apply (ensure_checkpoint_opt_ok (Some c)); split; [reflexivity |]
    | |- ensure_checkpoint_opt _ _ = _ => apply ensure_checkpoint_opt_ok; split; [reflexivity |]
    | |- gets _ _ = _ => reflexivity
    | |- modify _ _ = _ => reflexivity
    | |- ret _ _ = _ => reflexivity
    | H : state ?t = _ |- context [state ?t] => rewrite H; simpl
    | |- lift _ _ = _ => apply lift_ok; split; [reflexivity |]; simpl
    | |- (if _ then Err _ else Ok _) = _ => apply guard_ok
    end.

Lemma step_call c t t' :
  step c t t' -> updated_at_unix_ms t <= call_time c -> call c t = (t', Ok Changed).
Proof.
  intros Hstep Htime. destruct Hstep; simpl in Htime; unfold call, as_change;
    unfold start, record_progress, request_pause, confirm_paused, resume,
    request_cancel, confirm_cancelled, complete, fail, schedule_retry, enter_conflict,
    resolve_conflict, recover_after_restart.
  all: run_task; try done; try lia.
  - unfold ready_to_start in *. case_match; try done. apply Z.leb_le in H. by rewrite H.
  - unfold total_agrees in *. destruct (total_bytes _), total; try done. apply guard_ok. lia.
  - by apply bounded_by_iff.
  - by apply speed_ok_iff.
  - unfold next_progress in *. rewrite (proj2 (eqb_false _ _)) by eassumption. done.
  - unfold is_running_or_pausing, is_running, is_pausing in *. by case_match.
  - by destruct (state t).
  - destruct (total_bytes (progress t)); simpl; lia.
  - by rewrite H0.
  - destruct (eqb p Policy_Resume) eqn:Heq; [| done]. apply eqb_eq in Heq.
    apply require_feature_ok. eauto.
  - by rewrite H.
  Unshelve. all: exact tt.
Qed.
