(* ===== verification/TransferInvariant.v ===== *)
(** What the transfer state machine guarantees: runs of calls, the task
    invariant, the exact state graph, run tokens, attempts, retries, restarts. *)
From S2P Require Import Prelude RemoteCore TransferModel TransferStateFacts.

(** ** Runs

    A run applies calls one after the other; a call that fails leaves the task
    as it was. *)

Definition apply_call (t : TransferTask) (c : task_call) : TransferTask := fst (call c t).
Definition run (cs : list task_call) (t : TransferTask) : TransferTask := fold_left apply_call cs t.

Definition changes (c : task_call) (t : TransferTask) : bool :=
  match call c t with (_, Ok Changed) => true | _ => false end.

Lemma apply_call_cases c t :
  (changes c t = true /\ step c t (apply_call t c) /\ updated_at_unix_ms t <= call_time c)
  \/ (changes c t = false /\ apply_call t c = t).
Proof.
  unfold changes, apply_call. destruct (call c t) as [t' [[|] | e]] eqn:H; simpl.
  - left. split; [done |]. split; [by apply call_changed_step | by eapply call_ok_time].
  - right. split; [done |]. by apply call_unchanged in H.
  - right. split; [done |]. by apply call_atomic in H.
Qed.

(** An invariant of the steps is an invariant of runs. *)
Lemma run_invariant (P : TransferTask -> Prop) (Q : task_call -> Prop) :
  (forall c t t', P t -> Q c -> updated_at_unix_ms t <= call_time c -> step c t t' -> P t') ->
  forall cs t, P t -> Forall Q cs -> P (run cs t).
Proof.
  intros Hstep cs. induction cs as [| c cs IH]; intros t HP HQ; [done |].
  apply Forall_cons in HQ as [Hc Hcs]. apply IH; [| done].
  destruct (apply_call_cases c t) as [(_ & Hs & Ht) | (_ & ->)]; [eauto | done].
Qed.

(** A reflexive and transitive relation that contains the steps contains the
    runs. *)
Lemma run_relation (R : relation TransferTask) `{!PreOrder R} :
  (forall c t t', updated_at_unix_ms t <= call_time c -> step c t t' -> R t t') ->
  forall cs t, R t (run cs t).
Proof.
  intros Hstep cs. induction cs as [| c cs IH]; intros t; simpl; [done |].
  etrans; [| apply IH].
  destruct (apply_call_cases c t) as [(_ & Hs & Ht) | (_ & ->)]; [eauto | done].
Qed.

Lemma run_fixpoint t : (forall c, apply_call t c = t) -> forall cs, run cs t = t.
Proof. intros H cs. induction cs as [| c cs IH]; simpl; [done |]. by rewrite H. Qed.

(** ** Effects of a step *)

Lemma step_frame c t t' :
  step c t t' ->
  id t' = id t /\ source t' = source t /\ destination t' = destination t
  /\ direction t' = direction t /\ expected_source t' = expected_source t
  /\ expected_destination t' = expected_destination t /\ retry_policy t' = retry_policy t
  /\ bandwidth_limit t' = bandwidth_limit t /\ features t' = features t
  /\ created_at_unix_ms t' = created_at_unix_ms t
  /\ revision t' = sat_u64 (revision t + 1) /\ updated_at_unix_ms t' = call_time c.
Proof. destruct 1; simpl; done. Qed.

Lemma step_generation c t t' :
  step c t t' ->
  generation t' = generation t \/ generation t' = sat_u64 (generation t + 1).
Proof. destruct 1; simpl; auto. Qed.

Lemma step_progress_effect c t t' :
  step c t t' ->
  bytes_transferred (progress t) <= bytes_transferred (progress t')
  /\ (forall v, total_bytes (progress t) = Some v -> total_bytes (progress t') = Some v).
Proof.
  destruct 1; simpl; try (split; [lia | done]). split; [done |]. intros v Hv.
  unfold total_agrees in *. rewrite Hv in *. destruct total; simpl; congruence.
Qed.

Lemma step_attempts c t t' :
  step c t t' -> 0 <= completed_attempts t -> max_attempts (retry_policy t) <= 20 ->
  completed_attempts t' =
    completed_attempts t + match c with Call_start _ => 1 | _ => 0 end.
Proof. destruct 1; simpl; intros; try lia. rewrite Z.mod_small; lia. Qed.

(** A step that ends the run or starts one changes the generation. *)
Lemma step_new_generation c t t' :
  step c t t' -> is_active (state t) = true -> is_active (state t') = false ->
  generation t' = sat_u64 (generation t + 1).
Proof.
  destruct 1; simpl; try done; unfold is_active; simpl; try done;
    match goal with H : state ?t = _ |- _ => rewrite H; simpl; try done | _ => idtac end;
    intros; congruence.
Qed.

(** ** The task invariant *)

Definition state_wf (t : TransferTask) : Prop :=
  match state t with
  | Queued => True
  | Running | Pausing | Cancelling | Failed _ => 1 <= completed_attempts t
  | Paused cp => 1 <= completed_attempts t /\ checkpoint_le t (Some cp)
  | RetryScheduled not_before f =>
      1 <= completed_attempts t < max_attempts (retry_policy t)
      /\ TransferFailure_is_retryable f = true
      /\ not_before =
           sat_i64 (updated_at_unix_ms t + backoff_ms (retry_policy t) (completed_attempts t))
  | Conflict cf => 1 <= completed_attempts t /\ checkpoint_le t (conflict_checkpoint cf)
  | Completed d =>
      1 <= completed_attempts t
      /\ is_none_or (Z.eqb (bytes_transferred (progress t))) (total_bytes (progress t)) = true
      /\ completed_at_unix_ms d = updated_at_unix_ms t
  | Cancelled cp at_ms => checkpoint_le t cp /\ at_ms = updated_at_unix_ms t
  end.

Record task_wf (t : TransferTask) : Prop := {
  wf_endpoints : validate_endpoints (direction t) (source t) (destination t) = Ok tt;
  wf_policy : valid_policy (retry_policy t);
  wf_attempts : 0 <= completed_attempts t <= max_attempts (retry_policy t);
  wf_bytes : in_u64 (bytes_transferred (progress t)) = true;
  wf_total : bounded_by (total_bytes (progress t)) (bytes_transferred (progress t));
  wf_speed : speed_ok (bytes_per_second (progress t));
  wf_revision : in_u64 (revision t) = true;
  wf_generation : in_u64 (generation t) = true;
  wf_times : created_at_unix_ms t <= updated_at_unix_ms t;
  wf_state : state_wf t;
}.

(** The [u64] argument of a call. *)
Definition call_typed (c : task_call) : Prop :=
  match c with Call_record_progress _ bytes _ _ _ => in_u64 bytes = true | _ => True end.

Lemma state_wf_attempts t :
  state_wf t -> match state t with Queued | Cancelled _ _ => True | _ => 1 <= completed_attempts t end.
Proof. unfold state_wf. destruct (state t); naive_solver. Qed.

Lemma state_wf_current_checkpoint t : state_wf t -> checkpoint_le t (current_checkpoint t).
Proof.
  unfold state_wf, current_checkpoint. destruct (state t); try done; [naive_solver |].
  destruct conflict as [r [cp |]]; simpl; [naive_solver | done].
Qed.

Lemma policy_at_most_20 t : task_wf t -> max_attempts (retry_policy t) <= 20.
Proof. intros H. pose proof (wf_policy t H) as Hp. apply valid_policy_bounds in Hp. lia. Qed.

Lemma step_state_wf c t t' :
  task_wf t -> step c t t' -> state_wf t'.
Proof.
  intros Hwf Hs. pose proof (policy_at_most_20 t Hwf). pose proof (wf_attempts t Hwf).
  pose proof (wf_state t Hwf) as Hst.
  pose proof (state_wf_attempts t Hst). pose proof (state_wf_current_checkpoint t Hst).
  unfold state_wf in Hst. destruct Hs; unfold state_wf; simpl;
    try match goal with H : state ?t = _ |- _ => rewrite H in * end; try done.
  - rewrite Z.mod_small; lia.
  - by destruct (state t).
  - by destruct (state t).
  - unfold is_none_or. destruct (total_bytes (progress t)); [| done].
    by rewrite (proj2 (Z.eqb_eq _ _)).
  - by destruct (state t).
  - by destruct (state t).
  - by destruct (state t).
Qed.

Lemma step_task_wf c t t' :
  task_wf t -> call_typed c -> updated_at_unix_ms t <= call_time c -> step c t t' -> task_wf t'.
Proof.
  intros Hwf Hc Ht Hs.
  pose proof (step_frame _ _ _ Hs) as (_ & Hsrc & Hdst & Hdir & _ & _ & Hpol & _ & _ & Hcr & Hrev & Hup).
  pose proof (step_attempts _ _ _ Hs) as Hatt. pose proof (policy_at_most_20 t Hwf) as H20.
  split.
  - rewrite Hsrc, Hdst, Hdir. apply Hwf.
  - rewrite Hpol. apply Hwf.
  - rewrite Hpol, Hatt by (try done; apply Hwf). pose proof (wf_attempts t Hwf).
    destruct Hs; simpl; lia.
  - pose proof (wf_bytes t Hwf). destruct Hs; done.
  - pose proof (wf_total t Hwf). destruct Hs; done.
  - pose proof (wf_speed t Hwf). destruct Hs; done.
  - rewrite Hrev. apply sat_u64_range.
  - destruct (step_generation _ _ _ Hs) as [-> | ->]; [apply Hwf | apply sat_u64_range].
  - rewrite Hcr, Hup. pose proof (wf_times t Hwf). lia.
  - by eapply step_state_wf.
Qed.

(** A task as [TransferTask::new] makes it from typed arguments. *)
Definition identity_typed (i : option ObjectIdentity) : Prop :=
  bounded_by (Some u64_max) (default 0 (expected_size i)) /\ 0 <= default 0 (expected_size i).

Lemma new_task_wf tid src dst dir es ed pol lim conf feats created t :
  valid_policy pol -> identity_typed es ->
  TransferTask_new tid src dst dir es ed pol lim conf feats created = Ok t -> task_wf t.
Proof.
  unfold TransferTask_new. intros Hp Hi H. apply result_bind_ok in H as ([] & Hv & [= <-]).
  pose proof (proj1 (valid_policy_bounds _) Hp).
  split; simpl; try done.
  - lia.
  - destruct Hi. destruct (expected_size es); simpl in *; done.
Qed.

(** ** The abstract state graph *)

Definition edge (k k' : TransferStateKind) : bool :=
  match k, k' with
  | K_Queued, (K_Running | K_Cancelled)
  | K_RetryScheduled, (K_Running | K_Cancelled)
  | K_Running, (K_Running | K_Pausing | K_Cancelling | K_Completed | K_Failed | K_Conflict)
  | K_Pausing, (K_Pausing | K_Paused | K_Cancelling | K_Failed | K_Conflict)
  | K_Paused, (K_Queued | K_Cancelled)
  | K_Cancelling, (K_Cancelled | K_Failed)
  | K_Conflict, (K_Queued | K_Cancelled)
  | K_Failed, (K_RetryScheduled | K_Cancelled) => true
  | _, _ => false
  end.

Lemma step_edge c t t' :
  step c t t' -> edge (TransferState_kind (state t)) (TransferState_kind (state t')) = true.
Proof.
  destruct 1; simpl; try match goal with H : state ?t = _ |- _ => rewrite H end; try done;
    unfold ready_to_start, is_active, is_running_or_pausing in *; destruct (state _); done.
Qed.

(** Concrete tasks that take every edge. *)
Definition demo_path : RemotePath := {| RemotePath_str := "/a" |}.
Definition demo_identity : ObjectIdentity :=
  {| size_bytes := Some 4; modified_at_unix_ms := None; etag := None |}.
Definition demo_features : TransferFeatureSet :=
  {| feat_pause := Supported; feat_resume := Supported; feat_resume_validation := None |}.
Definition demo_task : TransferTask :=
  {| id := 1; source := Local 2;
     destination := Remote {| ep_profile_id := 3; ep_protocol := Sftp; ep_path := demo_path |};
     direction := Upload; expected_source := Some demo_identity; expected_destination := None;
     state := Queued; progress := TransferProgress_pending (Some 4);
     retry_policy := RetryPolicy_default; completed_attempts := 0;
     bandwidth_limit := BandwidthLimit_unlimited; conflict_policy := Policy_Fail;
     features := demo_features; revision := 0; generation := 0;
     created_at_unix_ms := 0; updated_at_unix_ms := 0 |}.
Definition demo_checkpoint : TransferCheckpoint :=
  {| cp_offset := 0; cp_source_identity := None; cp_destination_identity := None;
     cp_verification := Verify_Size; cp_verified_at_unix_ms := 0 |}.
Definition demo_failure : TransferFailure := restart_failure Upload.
Definition demo_token (n : Z) : RunToken := {| token_task_id := 1; token_generation := n |}.
Definition demo_conflict : TransferConflict :=
  {| conflict_reason := static_reason "changed"; conflict_checkpoint := None |}.
Definition demo_completion : TransferCompletion :=
  {| done_verification := Verify_Size; done_identity := None; completed_at_unix_ms := 3 |}.

(** A run that reaches a state of the kind. *)
Definition path_to (k : TransferStateKind) : list task_call :=
  match k with
  | K_Queued => []
  | K_Running => [Call_start 1]
  | K_Pausing => [Call_start 1; Call_request_pause 1]
  | K_Paused => [Call_start 1; Call_request_pause 1;
                 Call_confirm_paused (demo_token 1) demo_checkpoint 1]
  | K_Cancelling => [Call_start 1; Call_request_cancel 1]
  | K_RetryScheduled => [Call_start 1; Call_fail (demo_token 1) demo_failure 1; Call_schedule_retry 1]
  | K_Conflict => [Call_start 1; Call_enter_conflict (demo_token 1) demo_conflict 1]
  | K_Completed => [Call_start 1; Call_record_progress (demo_token 1) 4 None None 1;
                    Call_complete (demo_token 1) demo_completion]
  | K_Failed => [Call_start 1; Call_fail (demo_token 1) demo_failure 1]
  | K_Cancelled => [Call_request_cancel 1]
  end.

(** A call that takes the edge from there. *)
Definition edge_call (k k' : TransferStateKind) : list task_call :=
  match k, k' with
  | _, K_Running =>
      match k with
      | K_Running => [Call_record_progress (demo_token 1) 4 None None 2]
      | _ => [Call_start 5000]
      end
  | K_Running, K_Pausing => [Call_request_pause 2]
  | K_Pausing, K_Pausing => [Call_record_progress (demo_token 1) 4 None None 2]
  | K_Pausing, K_Paused => [Call_confirm_paused (demo_token 1) demo_checkpoint 2]
  | (K_Running | K_Pausing), K_Cancelling => [Call_request_cancel 2]
  | K_Running, K_Completed =>
      [Call_record_progress (demo_token 1) 4 None None 2; Call_complete (demo_token 1) demo_completion]
  | K_Cancelling, K_Failed => [Call_recover_after_restart 2]
  | _, K_Failed => [Call_fail (demo_token 1) demo_failure 2]
  | _, K_Conflict => [Call_enter_conflict (demo_token 1) demo_conflict 2]
  | K_Conflict, K_Queued => [Call_resolve_conflict Policy_Overwrite 2]
  | _, K_Queued => [Call_resume 2]
  | K_Cancelling, K_Cancelled => [Call_confirm_cancelled (demo_token 1) None 2]
  | _, K_Cancelled => [Call_request_cancel 2]
  | _, K_RetryScheduled => [Call_schedule_retry 2]
  | _, _ => []
  end.

(** ** Properties *)


(** a method of [TransferTask] commits once or not at all: a [Changed]
    answer raises the revision by one (saturating) and stamps the call's time,
    and keeps the task's identity, endpoints, policy and creation time; an
    [Unchanged] answer and every error leave the task as it was. *)
Theorem call_commits_once_or_not c t :
  match call c t with
  | (t', Ok Changed) =>
      revision t' = sat_u64 (revision t + 1) /\ updated_at_unix_ms t' = call_time c
      /\ updated_at_unix_ms t <= call_time c /\ id t' = id t /\ source t' = source t
      /\ destination t' = destination t /\ direction t' = direction t
      /\ retry_policy t' = retry_policy t /\ features t' = features t
      /\ created_at_unix_ms t' = created_at_unix_ms t
  | (t', Ok Unchanged) => t' = t
  | (t', Err _) => t' = t
  end.
Proof.
  destruct (call c t) as [t' [[|] | e]] eqn:H.
  - pose proof (call_ok_time _ _ _ _ H). apply call_changed_step, step_frame in H. naive_solver.
  - by apply call_unchanged in H.
  - by apply call_atomic in H.
Qed.

(** every task that [TransferTask::new] makes from a validated retry policy
    keeps the task invariant through every run of method calls: the direction
    fits the endpoints, attempts stay within the policy, progress stays below
    the total and within 64 bits, checkpoints stay below the progress, a
    completed task has transferred its total, a scheduled retry starts the
    policy's backoff after the failure. *)
Theorem run_keeps_task_wf tid src dst dir es ed pol lim conf feats created t cs :
  valid_policy pol -> identity_typed es ->
  TransferTask_new tid src dst dir es ed pol lim conf feats created = Ok t ->
  Forall call_typed cs -> task_wf (run cs t).
Proof.
  intros Hp Hi Hnew. apply (run_invariant task_wf call_typed).
  - intros. by eapply step_task_wf.
  - by eapply new_task_wf.
Qed.

Lemma run_keeps_task_wf_witness :
  task_wf (run (path_to K_Completed) demo_task).
Proof.
  apply (run_keeps_task_wf 1 (Local 2)
           (Remote {| ep_profile_id := 3; ep_protocol := Sftp; ep_path := demo_path |}) Upload
           (Some demo_identity) None
           RetryPolicy_default BandwidthLimit_unlimited Policy_Fail demo_features 0).
  - by vm_compute.
  - by vm_compute.
  - reflexivity.
  - by repeat constructor.
Defined.

(** the kinds of states a call moves between are exactly the edges of the
    state graph: no call takes a missing edge, and each edge is taken by a
    call on a task reached from a new one. *)
Theorem state_graph_exact k k' :
  edge k k' = true <->
  exists t c, task_wf t /\ changes c t = true
    /\ TransferState_kind (state t) = k /\ TransferState_kind (state (apply_call t c)) = k'.
Proof.
  split.
  - intros He.
    set (t := run (path_to k ++ removelast (edge_call k k')) demo_task).
    exists t, (List.last (edge_call k k') (Call_resume 0)). split.
    + apply (run_invariant task_wf call_typed).
      * intros. by eapply step_task_wf.
      * apply (new_task_wf 1 (Local 2) (destination demo_task) Upload (Some demo_identity) None
                 RetryPolicy_default BandwidthLimit_unlimited Policy_Fail demo_features 0);
          by vm_compute.
      * subst t. destruct k, k'; try discriminate He; repeat constructor.
    + subst t. destruct k, k'; try discriminate He; by vm_compute.
  - intros (t & c & _ & Hc & <- & <-).
    destruct (apply_call_cases c t) as [(_ & Hs & _) | (Hn & _)]; [by eapply step_edge | congruence].
Qed.

(** a completed or cancelled task never changes again, whatever is called. *)
Theorem terminal_states_absorb cs t :
  match state t with Completed _ | Cancelled _ _ => run cs t = t | _ => True end.
Proof.
  destruct (state t) eqn:Hs; try done; apply run_fixpoint; intros c;
    (destruct (apply_call_cases c t) as [(_ & Hst & _) | (_ & ?)]; [| done]);
    apply step_edge in Hst; rewrite Hs in Hst; discriminate Hst.
Qed.

(** along every run, bytes transferred never decrease, a total once known
    never changes, and the update time never goes back. *)
Theorem run_progress_monotone cs t :
  bytes_transferred (progress t) <= bytes_transferred (progress (run cs t))
  /\ (forall v, total_bytes (progress t) = Some v -> total_bytes (progress (run cs t)) = Some v)
  /\ updated_at_unix_ms t <= updated_at_unix_ms (run cs t).
Proof.
  set (R := fun t t' =>
    bytes_transferred (progress t) <= bytes_transferred (progress t')
    /\ (forall v, total_bytes (progress t) = Some v -> total_bytes (progress t') = Some v)
    /\ updated_at_unix_ms t <= updated_at_unix_ms t').
  assert (PreOrder R).
  { split.
    - intros x. unfold R. split_and!; [lia | done | lia].
    - intros x y z (? & ? & ?) (? & ? & ?). unfold R. split_and!; [lia | auto | lia]. }
  apply (run_relation R). intros c x x' Ht Hs. unfold R.
  pose proof (step_progress_effect _ _ _ Hs) as [? ?].
  pose proof (step_frame _ _ _ Hs). split_and!; [done | done |]. destruct_and!. lia.
Qed.

(** *** Attempts *)

(** The starts of a run that succeeded. *)
Fixpoint starts (cs : list task_call) (t : TransferTask) : Z :=
  match cs with
  | [] => 0
  | c :: cs' =>
      (match c with Call_start _ => if changes c t then 1 else 0 | _ => 0 end)
      + starts cs' (apply_call t c)
  end.

Lemma starts_counted cs t :
  task_wf t -> Forall call_typed cs ->
  completed_attempts (run cs t) = completed_attempts t + starts cs t.
Proof.
  revert t. induction cs as [| c cs IH]; intros t Hwf Hty; simpl; [lia |].
  apply Forall_cons in Hty as [Hc Hcs].
  destruct (apply_call_cases c t) as [(Hch & Hs & Ht) | (Hch & Heq)]; rewrite Hch.
  - rewrite IH by (try done; by eapply step_task_wf).
    pose proof (wf_attempts t Hwf).
    rewrite (step_attempts _ _ _ Hs) by (try apply Hwf; by apply policy_at_most_20).
    destruct c; lia.
  - rewrite Heq, IH by done. destruct c; lia.
Qed.

(** in any run, the number of successful [start]s is what
    [completed_attempts] grew by; counted from a new task it never exceeds the
    policy's [max_attempts], which is at most twenty. *)
Theorem starts_bounded_by_policy cs t :
  task_wf t -> Forall call_typed cs ->
  completed_attempts (run cs t) = completed_attempts t + starts cs t
  /\ completed_attempts t + starts cs t <= max_attempts (retry_policy t) <= 20.
Proof.
  intros Hwf Hty. pose proof (starts_counted cs t Hwf Hty) as Hn. split; [done |].
  assert (task_wf (run cs t) /\ retry_policy (run cs t) = retry_policy t) as [Hwf' Hp].
  { split.
    - apply (run_invariant task_wf call_typed); try done. intros. by eapply step_task_wf.
    - apply (run_invariant (fun t' => retry_policy t' = retry_policy t) call_typed); try done.
      intros c x y Hx _ _ Hs. apply step_frame in Hs. destruct_and!. congruence. }
  pose proof (wf_attempts _ Hwf'). pose proof (policy_at_most_20 t Hwf). rewrite <- Hn, <- Hp.
  split; [lia |]. by apply policy_at_most_20.
Qed.

Lemma demo_task_wf : task_wf demo_task.
Proof.
  apply (new_task_wf 1 (Local 2) (destination demo_task) Upload (Some demo_identity) None
           RetryPolicy_default BandwidthLimit_unlimited Policy_Fail demo_features 0);
    by vm_compute.
Qed.

Lemma starts_bounded_by_policy_witness :
  completed_attempts (run (path_to K_RetryScheduled ++ [Call_start 5000]) demo_task) = 2
  /\ 0 + 2 <= 5 <= 20.
Proof.
  exact (starts_bounded_by_policy (path_to K_RetryScheduled ++ [Call_start 5000]) demo_task
           demo_task_wf ltac:(repeat constructor)).
Defined.

(** *** Run tokens *)

Lemma run_generation cs t :
  in_u64 (generation t) = true -> generation t + Z.of_nat (length cs) <= u64_max ->
  generation t <= generation (run cs t) <= generation t + Z.of_nat (length cs)
  /\ (is_active (state t) = true -> is_active (state (run cs t)) = false ->
      generation t < generation (run cs t)).
Proof.
  revert t. induction cs as [| c cs IH]; intros t Ht Hlen; simpl run.
  - simpl. split; [lia | congruence].
  - simpl length in Hlen |- *.
    destruct (apply_call_cases c t) as [(_ & Hs & _) | (_ & Heq)].
    + destruct (is_active (state (apply_call t c))) eqn:Ha.
      * destruct (step_generation _ _ _ Hs) as [Hg | Hg].
        -- destruct (IH (apply_call t c)) as [? ?]; rewrite ?Hg; [done | lia |].
           rewrite Hg in *. split; [lia | auto].
        -- rewrite sat_u64_id in Hg by width.
           destruct (IH (apply_call t c)) as [? ?]; rewrite ?Hg; [width | lia |].
           split; [lia |]. intros; lia.
      * destruct (step_generation _ _ _ Hs) as [Hg | Hg].
        -- destruct (IH (apply_call t c)) as [? ?]; rewrite ?Hg; [done | lia |].
           rewrite Hg in *. split; [lia |]. intros Hact _.
           apply (step_new_generation _ _ _ Hs Hact) in Ha. rewrite sat_u64_id in Ha by width. lia.
        -- rewrite sat_u64_id in Hg by width.
           destruct (IH (apply_call t c)) as [? ?]; rewrite ?Hg; [width | lia |].
           split; [lia |]. intros; lia.
    + rewrite Heq. destruct (IH t) as [? ?]; [done | lia |]. split; [lia | done].
Qed.

Lemma run_app cs1 cs2 t : run (cs1 ++ cs2) t = run cs2 (run cs1 t).
Proof. unfold run. by rewrite fold_left_app. Qed.

Lemma stale_token_error c tok t :
  call_token c = Some tok -> token_generation tok <> generation t ->
  call c t = (t, Err StaleRunToken).
Proof.
  intros Hc Hg.
  assert (forall A (m : task_mut A), (check_token tok ;;; m) t = (t, Err StaleRunToken)) as H.
  { intros A m. unfold bind, check_token, lift. destruct (_ =? _); simpl; [| done].
    by rewrite (proj2 (Z.eqb_neq _ _) Hg). }
  destruct c; simplify_eq/=; apply H.
Qed.

(** once the run a token was issued for is over - the task was active, and
    left the active states at some point - the token is refused as stale by
    every method that takes one, and the task is not touched, however the task
    moves on (a run of fewer than 2^64 calls, so that the generation counter
    does not saturate). *)
Theorem finished_run_token_is_stale cs1 cs2 t c :
  task_wf t -> is_active (state t) = true -> is_active (state (run cs1 t)) = false ->
  generation t + Z.of_nat (length (cs1 ++ cs2)) <= u64_max ->
  call_token c = Some (token_of t) ->
  call c (run (cs1 ++ cs2) t) = (run (cs1 ++ cs2) t, Err StaleRunToken).
Proof.
  intros Hwf Ha Hi Hlen Htok. apply (stale_token_error _ (token_of t)); [done |]. simpl.
  rewrite run_app. rewrite length_app in Hlen. pose proof (wf_generation t Hwf) as Hg.
  destruct (run_generation cs1 t) as [H1 H2]; [done | lia |].
  destruct (run_generation cs2 (run cs1 t)) as [H3 _]; [width | lia |].
  specialize (H2 Ha Hi). lia.
Qed.

Lemma running_demo_wf : task_wf (run [Call_start 1] demo_task).
Proof.
  apply (run_invariant task_wf call_typed); [intros; by eapply step_task_wf | |];
    [apply demo_task_wf | repeat constructor].
Qed.

Lemma finished_run_token_is_stale_witness :
  let t := run [Call_start 1] demo_task in
  let t' := run ([Call_fail (demo_token 1) demo_failure 2] ++ [Call_schedule_retry 2; Call_start 5000]) t in
  call (Call_record_progress (demo_token 1) 2 None None 6000) t' = (t', Err StaleRunToken).
Proof.
  apply (finished_run_token_is_stale [Call_fail (demo_token 1) demo_failure 2]
           [Call_schedule_retry 2; Call_start 5000] (run [Call_start 1] demo_task)).
  - apply running_demo_wf.
  - reflexivity.
  - reflexivity.
  - vm_compute. discriminate.
  - reflexivity.
Defined.

(** *** Retries *)

Lemma valid_backoff p n :
  valid_policy p ->
  backoff_ms p n = Z.min (initial_backoff_ms p * 2 ^ Z.min (Z.max 0 (n - 1)) 31) (max_backoff_ms p)
  /\ initial_backoff_ms p <= backoff_ms p n <= max_backoff_ms p.
Proof.
  intros Hp%valid_policy_bounds. rewrite backoff_exact by lia.
  set (e := Z.min (Z.max 0 (n - 1)) 31).
  assert (1 <= 2 ^ e <= 2147483648) as He.
  { assert (2 ^ 0 <= 2 ^ e <= 2 ^ 31) by (split; apply Z.pow_le_mono_r; lia). simpl in *. lia. }
  assert (initial_backoff_ms p * 2 ^ e <= 86400000 * 2147483648) by (apply Z.mul_le_mono_nonneg; lia).
  assert (initial_backoff_ms p <= initial_backoff_ms p * 2 ^ e) by nia.
  rewrite (Z.min_r u64_max) by (unfold u64_max; lia). split; [done | lia].
Qed.

(** the backoff of a validated policy doubles from the initial delay with
    every attempt after the first and is capped at the maximum; the 64-bit
    product never saturates, the delay lies between the two bounds (at most 24
    hours), and it never shrinks as attempts accumulate. *)
Theorem backoff_doubles_up_to_the_cap p n :
  valid_policy p -> 1 <= n <= 20 ->
  backoff_ms p n = Z.min (initial_backoff_ms p * 2 ^ (n - 1)) (max_backoff_ms p)
  /\ initial_backoff_ms p <= backoff_ms p n <= max_backoff_ms p
  /\ max_backoff_ms p <= 24 * 60 * 60 * 1000
  /\ backoff_ms p n <= backoff_ms p (n + 1).
Proof.
  intros Hp Hn. pose proof (proj1 (valid_policy_bounds p) Hp). destruct (valid_backoff p n Hp) as [Heq ?].
  split_and!; [| lia | lia | lia | apply backoff_mono; lia].
  rewrite Heq. do 3 f_equal. lia.
Qed.

Lemma backoff_doubles_up_to_the_cap_witness :
  backoff_ms RetryPolicy_default 7 = 60000.
Proof.
  rewrite (proj1 (backoff_doubles_up_to_the_cap RetryPolicy_default 7
                    ltac:(by vm_compute) ltac:(lia))).
  reflexivity.
Defined.

(** a retry is delayed by exactly the policy's backoff: after
    [schedule_retry] succeeds, [start] before the deadline answers
    [RetryNotReady] without touching the task, and at the deadline it starts
    the next attempt with a fresh token. *)
Theorem retry_waits_for_backoff t now later :
  task_wf t -> in_i64 (now + 86400000) = true -> 0 <= now -> now <= later ->
  changes (Call_schedule_retry now) t = true ->
  let t' := apply_call t (Call_schedule_retry now) in
  let due := now + backoff_ms (retry_policy t) (completed_attempts t) in
  (later < due -> start later t' = (t', Err RetryNotReady))
  /\ (due <= later ->
      exists t'', start later t' = (t'', Ok (token_of t'')) /\ state t'' = Running
        /\ completed_attempts t'' = completed_attempts t + 1).
Proof.
  intros Hwf Hnow H0 Hl Hch t' due.
  destruct (apply_call_cases (Call_schedule_retry now) t) as [(_ & Hs & Ht) | [Hn _]]; [| congruence].
  destruct (valid_backoff _ (completed_attempts t) (wf_policy t Hwf)) as [_ Hb].
  pose proof (proj1 (valid_policy_bounds _) (wf_policy t Hwf)) as Hpol.
  pose proof (wf_attempts t Hwf) as Hatt.
  subst t'. generalize dependent (apply_call t (Call_schedule_retry now)). intros t' Hs.
  assert (exists f, state t' = RetryScheduled due f /\ updated_at_unix_ms t' = now
            /\ completed_attempts t' = completed_attempts t
            /\ completed_attempts t < max_attempts (retry_policy t')) as (f & Hst & Hup & Hca & Hlt).
  { inversion Hs; subst. exists f. simpl. split_and!; try done. f_equal.
    unfold due. width. }
  split; intros Hd.
  - unfold start, bind, check_time, gets, lift, throw. rewrite Hup, (proj2 (Z.ltb_ge _ _)) by lia.
    rewrite Hst, (proj2 (Z.leb_gt _ _)) by lia. done.
  - assert (step (Call_start later) t'
              (changed later (with_state Running (invalidate_run (bump_attempts t'))))) as Hst'.
    { constructor; [by rewrite Hst | lia]. }
    pose proof (step_attempts _ _ _ Hst') as Ha.
    apply step_call in Hst'; [| simpl; lia]. unfold call, as_change in Hst'. inv_ok.
    match goal with H : start _ _ = _ |- _ => pose proof (start_step _ _ _ _ H) as [Hs' ->] end.
    eexists. split; [eassumption |]. split; [done |]. rewrite Ha; simpl; [lia | lia |].
    inversion Hs; subst; simpl. lia.
Qed.

Lemma retry_waits_for_backoff_witness :
  let t := run (path_to K_Failed) demo_task in
  start 1000 (apply_call t (Call_schedule_retry 2)) = (apply_call t (Call_schedule_retry 2), Err RetryNotReady).
Proof.
  apply (retry_waits_for_backoff (run (path_to K_Failed) demo_task) 2 1000).
  - apply (run_invariant task_wf call_typed); [intros; by eapply step_task_wf | apply demo_task_wf |].
    repeat constructor.
  - reflexivity.
  - lia.
  - lia.
  - reflexivity.
  - vm_compute. reflexivity.
Defined.

(** *** Cancellation and restart *)

(** a task that is not completed can always be cancelled: [request_cancel]
    succeeds at any time not before the last change; if a run is in progress
    the task waits in [Cancelling], where no progress or completion is accepted
    any more, until the run confirms with its token; otherwise it is
    [Cancelled] at once. *)
Theorem cancellation_always_terminates t now :
  updated_at_unix_ms t <= now ->
  (forall d, state t <> Completed d) ->
  let t1 := apply_call t (Call_request_cancel now) in
  let t2 := apply_call t1 (Call_confirm_cancelled (token_of t1) None now) in
  (state t1 = Cancelling \/ exists cp at_ms, state t1 = Cancelled cp at_ms)
  /\ (exists cp at_ms, state t2 = Cancelled cp at_ms)
  /\ (forall b total speed d, state t1 = Cancelling ->
        is_err (snd (call (Call_record_progress (token_of t1) b total speed now) t1)) = true
        /\ is_err (snd (call (Call_complete (token_of t1) d) t1)) = true).
Proof.
  intros Ht Hc t1 t2.
  assert (H1 : (state t1 = Cancelling /\ updated_at_unix_ms t1 <= now)
               \/ exists cp at_ms, state t1 = Cancelled cp at_ms).
  { subst t1. unfold apply_call. simpl. unfold request_cancel, bind, check_time, lift, gets.
    rewrite (proj2 (Z.ltb_ge _ _)) by done. destruct (state t) eqn:Hs;
      try (right; eexists _, _; reflexivity); try (left; split; simpl; [done | lia]).
    try (by destruct (Hc completion)). right. simpl. eauto. }
  split_and!; [naive_solver | |].
  - subst t2. destruct H1 as [[H1 Hu] | (cp & at_ms & H1)].
    + exists None, now.
      pose proof (step_confirm_cancelled t1 None now H1 I) as Hstep.
      apply step_call in Hstep; [| done]. unfold apply_call. by rewrite Hstep.
    + exists cp, at_ms. rewrite <- H1. f_equal.
      destruct (apply_call_cases (Call_confirm_cancelled (token_of t1) None now) t1)
        as [(_ & Hs & _) | (_ & ->)]; [| done].
      apply step_edge in Hs. rewrite H1 in Hs. discriminate Hs.
  - intros b total speed d Hcan.
    split; apply not_false_is_true; rewrite is_err_false_iff; intros [r Hr].
    + destruct (call _ t1) as [x y] eqn:Hcall. simpl in Hr. subst y. simpl in Hcall.
      unfold record_progress in Hcall. inv_task; by rewrite Hcan in *.
    + destruct (call _ t1) as [x y] eqn:Hcall. simpl in Hr. subst y. simpl in Hcall.
      unfold complete in Hcall. inv_task; by rewrite Hcan in *.
Qed.

Lemma cancellation_always_terminates_witness :
  let t := run (path_to K_Running) demo_task in
  let t1 := apply_call t (Call_request_cancel 7) in
  exists cp at_ms, state (apply_call t1 (Call_confirm_cancelled (token_of t1) None 7)) = Cancelled cp at_ms.
Proof.
  apply (cancellation_always_terminates (run (path_to K_Running) demo_task) 7).
  - vm_compute. discriminate.
  - intros d. vm_compute. discriminate.
Defined.

(** after a restart no task is left in an active state: at any time not
    before the task's last change, [recover_after_restart] succeeds, turns a
    task that was running, pausing or cancelling into a retryable failure whose
    old token is dead, leaves every other task as it was, keeps the
    transferred bytes, and a second recovery changes nothing. *)
Theorem restart_leaves_no_active_task t now :
  updated_at_unix_ms t <= now ->
  let t' := apply_call t (Call_recover_after_restart now) in
  is_active (state t') = false /\ progress t' = progress t
  /\ completed_attempts t' = completed_attempts t
  /\ (if is_active (state t)
      then state t' = Failed (restart_failure (direction t))
           /\ TransferFailure_is_retryable (restart_failure (direction t)) = true
           /\ generation t' = sat_u64 (generation t + 1)
      else t' = t)
  /\ recover_after_restart now t' = (t', Ok Unchanged).
Proof.
  intros Ht t'. subst t'. unfold apply_call. simpl.
  unfold recover_after_restart, bind, check_time, lift, gets, ret, modify.
  rewrite (proj2 (Z.ltb_ge _ _)) by done. destruct (is_active (state t)) eqn:Ha; simpl.
  - by rewrite (proj2 (Z.ltb_ge now now)) by lia.
  - by rewrite (proj2 (Z.ltb_ge _ _)), Ha by done.
Qed.

Lemma restart_leaves_no_active_task_witness :
  is_active (state (apply_call (run (path_to K_Pausing) demo_task) (Call_recover_after_restart 9))) = false.
Proof.
  apply (restart_leaves_no_active_task (run (path_to K_Pausing) demo_task) 9).
  vm_compute. discriminate.
Defined.
