(* ===== verification/TransferPublic.v ===== *)
(** [crates/transfers/src/public.rs]: the public contract of transfers - local
    file grants, drafts, queries, pages, commands, results - and its validators.

    [serde_json] is a parameter: [TaskCodec] is the serialised form of a task
    as the transfer crate uses it, in this file only for its length. *)
From S2P Require Import Prelude RemoteCore TransferModel.

(** What the crate uses of [serde_json] and the derived (de)serialisers:
    [to_json] may fail, as may [from_json]; [json_len] is the byte length. *)
Class TaskCodec (J : Type) := {
  to_json : TransferTask -> option J;
  from_json : J -> option TransferTask;
  json_len : J -> Z;
}.

(** The derived serialiser and deserialiser of a type are inverse. *)
Class TaskCodecLaws (J : Type) `{TaskCodec J} := {
  json_round_trip : forall t j, to_json t = Some j -> from_json j = Some t;
}.

Definition TRANSFER_PUBLIC_SCHEMA_VERSION : Z := 1.
Definition MAX_TRANSFER_PAGE_TASKS : Z := 64.
Definition MAX_TRANSFER_QUERY_OFFSET : Z := 100000.
Definition MAX_TRANSFER_STATE_FILTERS : Z := 10.
Definition MAX_TRANSFER_REMOTE_PATH_BYTES : Z := 8 * 1024.
Definition MAX_TRANSFER_ETAG_BYTES : Z := 4 * 1024.
Definition MAX_PUBLIC_TRANSFER_TASK_BYTES : Z := 48 * 1024.
Definition MAX_LOCAL_HANDLE_DISPLAY_NAME_BYTES : Z := 255.

Inductive TransferPublicError :=
| InvalidTransferId | InvalidLocalHandle | InvalidLocalHandleGrant | InvalidProfileId
| Public_DirectionEndpointMismatch | RemotePathTooLarge | IdentityTooLarge | InvalidRetryPolicy
| InvalidBandwidth | InvalidQueryLimit | InvalidQueryOffset | InvalidStateFilters
| Public_InvalidPage | InvalidTask | TaskTooLarge | ResultMismatch.
#[export] Instance TransferPublicError_eq_dec : EqDecision TransferPublicError.
Proof. solve_decision. Defined.

Definition public_from_validation (e : TransferValidationError) : TransferPublicError :=
  match e with
  | DirectionEndpointMismatch => Public_DirectionEndpointMismatch
  | InvalidBandwidthLimit => InvalidBandwidth
  | InconsistentExpectedSize => InvalidTask
  end.

Definition public_from_retry_policy (_ : RetryPolicyError) : TransferPublicError := InvalidRetryPolicy.

(** ** Shared validators *)

Definition validate_id (i : TransferId) : result unit TransferPublicError :=
  fail_if is_nil i with InvalidTransferId in Ok tt.

Definition validate_bandwidth (l : BandwidthLimit) : result unit TransferPublicError :=
  fail_if is_some_and (fun v => MAX_BANDWIDTH_BYTES_PER_SECOND <? v) (limit_get l)
    with InvalidBandwidth in
  Ok tt.

Definition validate_retry_policy (p : RetryPolicy) : result unit TransferPublicError :=
  map_err public_from_retry_policy
    (result_bind (RetryPolicy_new (max_attempts p) (initial_backoff_ms p) (max_backoff_ms p))
       (fun _ => Ok tt)).

Definition validate_identity (i : option ObjectIdentity) : result unit TransferPublicError :=
  fail_if is_some_and (fun e => (MAX_TRANSFER_ETAG_BYTES <? len e) || any_control e) (i ≫= etag)
    with IdentityTooLarge in
  Ok tt.

Definition validate_path (p : RemotePath) : result unit TransferPublicError :=
  fail_if (MAX_TRANSFER_REMOTE_PATH_BYTES <? len (RemotePath_str p)) || any_control (RemotePath_str p)
    with RemotePathTooLarge in
  Ok tt.

Definition state_checkpoint (s : TransferState) : option TransferCheckpoint :=
  match s with
  | Paused c => Some c
  | Conflict {| conflict_checkpoint := Some c |} => Some c
  | Cancelled (Some c) _ => Some c
  | _ => None
  end.

Definition validate_state_identities (s : TransferState) : result unit TransferPublicError :=
  let? _ := match state_checkpoint s with
            | Some c =>
                let? _ := validate_identity (cp_source_identity c) in
                validate_identity (cp_destination_identity c)
            | None => Ok tt
            end in
  match s with
  | Completed d => validate_identity (done_identity d)
  | _ => Ok tt
  end.

(** ** Local grants and drafts *)

Inductive TransferLocalHandlePurpose := UploadSource | DownloadDestination.
#[export] Instance TransferLocalHandlePurpose_eq_dec : EqDecision TransferLocalHandlePurpose.
Proof. solve_decision. Defined.

Record TransferLocalHandleGrant := {
  grant_handle : LocalFileHandle;
  grant_purpose : TransferLocalHandlePurpose;
  grant_display_name : string;
  grant_size_bytes : option Z;
}.

Definition TransferLocalHandleGrant_validate (g : TransferLocalHandleGrant)
  : result unit TransferPublicError :=
  fail_if is_nil (grant_handle g) with InvalidLocalHandle in
  fail_if is_empty (grant_display_name g)
          || (MAX_LOCAL_HANDLE_DISPLAY_NAME_BYTES <? len (grant_display_name g))
          || any_control (grant_display_name g)
          || contains_byte (ch "/") (grant_display_name g)
          || contains_byte (ch "\") (grant_display_name g)
          || (eqb (grant_purpose g) DownloadDestination && is_some (grant_size_bytes g))
    with InvalidLocalHandleGrant in
  Ok tt.

Inductive TransferDraftEndpoint :=
| Draft_Local (handle : LocalFileHandle)
| Draft_Remote (profile : ProfileId) (path : RemotePath).

Definition draft_local_handle (e : TransferDraftEndpoint) : option LocalFileHandle :=
  match e with Draft_Local h => Some h | Draft_Remote _ _ => None end.

Definition draft_remote_profile_id (e : TransferDraftEndpoint) : option ProfileId :=
  match e with Draft_Local _ => None | Draft_Remote p _ => Some p end.

Definition draft_endpoint (e : TransferDraftEndpoint) (protocol : RemoteProtocol) : TransferEndpoint :=
  match e with
  | Draft_Local h => Local h
  | Draft_Remote p path => Remote {| ep_profile_id := p; ep_protocol := protocol; ep_path := path |}
  end.

Record TransferDraft := {
  draft_id : TransferId;
  draft_source : TransferDraftEndpoint;
  draft_destination : TransferDraftEndpoint;
  draft_direction : TransferDirection;
  draft_expected_source : option ObjectIdentity;
  draft_expected_destination : option ObjectIdentity;
  draft_retry_policy : RetryPolicy;
  draft_bandwidth_limit : BandwidthLimit;
  draft_conflict_policy : ConflictPolicy;
}.

Definition validate_draft_endpoints (d : TransferDirection) (source destination : TransferDraftEndpoint)
  : result unit TransferPublicError :=
  match d, source, destination with
  | Upload, Draft_Local handle, Draft_Remote profile path
  | Download, Draft_Remote profile path, Draft_Local handle =>
      fail_if is_nil handle with InvalidLocalHandle in
      fail_if is_nil profile with InvalidProfileId in
      validate_path path
  | _, _, _ => Err Public_DirectionEndpointMismatch
  end.

Definition TransferDraft_validate (d : TransferDraft) : result unit TransferPublicError :=
  let? _ := validate_id (draft_id d) in
  let? _ := validate_draft_endpoints (draft_direction d) (draft_source d) (draft_destination d) in
  let? _ := validate_identity (draft_expected_source d) in
  let? _ := validate_identity (draft_expected_destination d) in
  let? _ := validate_retry_policy (draft_retry_policy d) in
  let? _ := validate_bandwidth (draft_bandwidth_limit d) in
  Ok tt.

(** [None] is the panic of the [expect]s. *)
Definition TransferDraft_remote_profile_id (d : TransferDraft) : option ProfileId :=
  or_else (draft_remote_profile_id (draft_source d)) (draft_remote_profile_id (draft_destination d)).
Definition TransferDraft_local_handle (d : TransferDraft) : option LocalFileHandle :=
  or_else (draft_local_handle (draft_source d)) (draft_local_handle (draft_destination d)).

(** ** Queries *)

Record TransferQuery := {
  q_limit : Z;
  q_offset : Z;
  q_states : list TransferStateKind;
  q_direction : option TransferDirection;
  q_profile_id : option ProfileId;
}.
#[export] Instance TransferQuery_eq_dec : EqDecision TransferQuery.
Proof. solve_decision. Defined.

(** Some state equals an earlier one. *)
Fixpoint has_earlier (seen l : list TransferStateKind) : bool :=
  match l with
  | s :: l' => contains s seen || has_earlier (seen ++ [s]) l'
  | [] => false
  end.

Definition TransferQuery_validate (q : TransferQuery) : result unit TransferPublicError :=
  fail_if (q_limit q =? 0) || (MAX_TRANSFER_PAGE_TASKS <? q_limit q) with InvalidQueryLimit in
  fail_if MAX_TRANSFER_QUERY_OFFSET <? q_offset q with InvalidQueryOffset in
  fail_if (MAX_TRANSFER_STATE_FILTERS <? Z.of_nat (length (q_states q))) || has_earlier [] (q_states q)
    with InvalidStateFilters in
  fail_if is_some_and is_nil (q_profile_id q) with InvalidProfileId in
  Ok tt.

(** A profile filter on a task without a remote endpoint panics in the code;
    [validate_endpoints] excludes such tasks and the model answers [false]. *)
Definition TransferQuery_matches (q : TransferQuery) (t : TransferTask) : bool :=
  (Nat.eqb (length (q_states q)) 0 || contains (TransferState_kind (state t)) (q_states q))
  && is_none_or (fun d => eqb d (direction t)) (q_direction q)
  && is_none_or (fun p => eqb (Some p) (remote_profile_id t)) (q_profile_id q).

(** ** Tasks, pages, commands and outputs *)

Section Public.
Context {J : Type} `{TaskCodec J}.

Definition validate_public_endpoint (e : TransferEndpoint) : result unit TransferPublicError :=
  match e with
  | Local handle => fail_if is_nil handle with InvalidLocalHandle in Ok tt
  | Remote remote =>
      fail_if is_nil (ep_profile_id remote) with InvalidProfileId in
      validate_path (ep_path remote)
  end.

Definition validate_public (t : TransferTask) : result unit TransferPublicError :=
  let? _ := validate_id (id t) in
  let? _ := map_err public_from_validation
              (validate_endpoints (direction t) (source t) (destination t)) in
  let? _ := try_for_each validate_public_endpoint [source t; destination t] in
  let? _ := validate_identity (expected_source t) in
  let? _ := validate_identity (expected_destination t) in
  let? _ := validate_state_identities (state t) in
  let? _ := validate_retry_policy (retry_policy t) in
  let? _ := validate_bandwidth (bandwidth_limit t) in
  fail_if (max_attempts (retry_policy t) <? completed_attempts t)
          || (created_at_unix_ms t <? 0)
          || (updated_at_unix_ms t <? created_at_unix_ms t)
          || is_some_and (fun total => total <? bytes_transferred (progress t))
               (total_bytes (progress t))
          || is_some_and (fun speed => MAX_BANDWIDTH_BYTES_PER_SECOND <? speed)
               (bytes_per_second (progress t))
    with InvalidTask in
  fail_if match feat_resume (features t), feat_resume_validation (features t) with
          | Supported, None | Unsupported _, Some _ => true
          | _, _ => false
          end with InvalidTask in
  let? encoded := ok_or InvalidTask (to_json t) in
  fail_if MAX_PUBLIC_TRANSFER_TASK_BYTES <? json_len encoded with TaskTooLarge in
  Ok tt.

Definition into_task (d : TransferDraft) (protocol : RemoteProtocol) (feats : TransferFeatureSet)
    (created : Z) : result TransferTask TransferPublicError :=
  let? _ := TransferDraft_validate d in
  let? task := map_err public_from_validation
    (TransferTask_new (draft_id d) (draft_endpoint (draft_source d) protocol)
       (draft_endpoint (draft_destination d) protocol) (draft_direction d)
       (draft_expected_source d) (draft_expected_destination d) (draft_retry_policy d)
       (draft_bandwidth_limit d) (draft_conflict_policy d) feats created) in
  let? _ := validate_public task in
  Ok task.

Record TransferPage := {
  page_query : TransferQuery;
  page_tasks : list TransferTask;
  has_more : bool;
  next_offset : option Z;
}.

Definition TransferPage_validate (p : TransferPage) : result unit TransferPublicError :=
  let? _ := TransferQuery_validate (page_query p) in
  fail_if (q_limit (page_query p) <? Z.of_nat (length (page_tasks p)))
          || existsb (fun t => is_err (validate_public t)
                               || negb (TransferQuery_matches (page_query p) t)) (page_tasks p)
    with Public_InvalidPage in
  let? count := ok_or Public_InvalidPage (checked_u32 (Z.of_nat (length (page_tasks p)))) in
  let? expected_next := ok_or Public_InvalidPage (checked_u32 (q_offset (page_query p) + count)) in
  if has_more p
  then fail_if Nat.eqb (length (page_tasks p)) 0 || negb (eqb (next_offset p) (Some expected_next))
         with Public_InvalidPage in
       Ok tt
  else fail_if is_some (next_offset p) with Public_InvalidPage in Ok tt.

Inductive TransferCommand :=
| Enqueue (draft : TransferDraft)
| List (query : TransferQuery)
| Get (tid : TransferId)
| Cancel (tid : TransferId) (expected_rev : Z)
| Retry (tid : TransferId) (expected_rev : Z)
| ResolveConflict (tid : TransferId) (expected_rev : Z) (policy : ConflictPolicy).

Definition TransferCommand_validate (c : TransferCommand) : result unit TransferPublicError :=
  match c with
  | Enqueue draft => TransferDraft_validate draft
  | List query => TransferQuery_validate query
  | Get tid | Cancel tid _ | Retry tid _ | ResolveConflict tid _ _ => validate_id tid
  end.

Definition command_task_id (c : TransferCommand) : option TransferId :=
  match c with
  | Enqueue draft => Some (draft_id draft)
  | List _ => None
  | Get tid | Cancel tid _ | Retry tid _ | ResolveConflict tid _ _ => Some tid
  end.

Definition command_expected_revision (c : TransferCommand) : option Z :=
  match c with
  | Cancel _ r | Retry _ r | ResolveConflict _ r _ => Some r
  | _ => None
  end.

Inductive TransferMutationResult :=
| Updated (task : TransferTask)
| MutationConflict (expected_rev : Z) (current : TransferTask).

Inductive TransferOutput :=
| Output_Task (task : TransferTask)
| Output_Page (page : TransferPage)
| Output_Mutation (r : TransferMutationResult).

Definition validate_mutation (tid : TransferId) (expected_rev : Z) (r : TransferMutationResult)
  : result unit TransferPublicError :=
  match r with
  | Updated task =>
      if (id task =? tid) && (expected_rev <=? revision task) && is_ok (validate_public task)
      then Ok tt else Err ResultMismatch
  | MutationConflict returned current =>
      if (returned =? expected_rev) && (id current =? tid)
         && negb (revision current =? expected_rev) && is_ok (validate_public current)
      then Ok tt else Err ResultMismatch
  end.

Definition TransferOutput_validate_for (o : TransferOutput) (c : TransferCommand)
  : result unit TransferPublicError :=
  let? _ := TransferCommand_validate c in
  match c, o with
  | Enqueue draft, Output_Task task =>
      if (id task =? draft_id draft) && is_ok (validate_public task)
      then Ok tt else Err ResultMismatch
  | Get tid, Output_Task task =>
      if (id task =? tid) && is_ok (validate_public task) then Ok tt else Err ResultMismatch
  | List query, Output_Page page =>
      if eqb (page_query page) query && is_ok (TransferPage_validate page)
      then Ok tt else Err ResultMismatch
  | Cancel tid rev, Output_Mutation r | Retry tid rev, Output_Mutation r
  | ResolveConflict tid rev _, Output_Mutation r => validate_mutation tid rev r
  | _, _ => Err ResultMismatch
  end.
End Public.

(** A codec that keeps the task as it is, for concrete runs. *)
Definition identity_codec : TaskCodec TransferTask :=
  {| to_json := Some; from_json := Some; json_len := fun _ => 512 |}.
