(* ===== verification/TransferPublicFacts.v ===== *)
(** Properties of the public transfer contract: what validated queries, drafts
    and tasks are, and that the state machine never leaves the contract. *)
From S2P Require Import Prelude RemoteCore TransferModel TransferStateFacts TransferInvariant TransferPublic.

(** ** Queries *)

Lemma has_earlier_NoDup seen l :
  has_earlier seen l = false <-> NoDup l /\ (forall s, s ∈ l -> s ∉ seen).
Proof.
  revert seen. induction l as [| s l IH]; intros seen; simpl.
  - split; [| done]. intros _. split; [constructor | intros s Hs; by apply elem_of_nil in Hs].
  - rewrite orb_false_iff, IH, contains_false, NoDup_cons. set_solver.
Qed.

Definition STATE_KINDS : list TransferStateKind :=
  [K_Queued; K_Running; K_Pausing; K_Paused; K_Cancelling; K_RetryScheduled; K_Conflict;
   K_Completed; K_Failed; K_Cancelled].

Lemma NoDup_states_length (l : list TransferStateKind) : NoDup l -> (length l <= 10)%nat.
Proof.
  intros Hnd. change 10%nat with (length STATE_KINDS). apply submseteq_length, NoDup_submseteq; [done |].
  intros s _. apply (contains_true s STATE_KINDS). by destruct s.
Qed.

(** a query validates exactly when its limit is 1 to 64, its offset is at
    most 100000, its state filters do not repeat and it does not filter by the
    nil profile: the length bound on the filters follows from the others. *)
Theorem query_validate_exact q :
  0 <= q_limit q ->
  TransferQuery_validate q = Ok tt <->
  1 <= q_limit q <= 64 /\ q_offset q <= 100000 /\ NoDup (q_states q) /\ q_profile_id q <> Some 0.
Proof.
  intros H0. unfold TransferQuery_validate, MAX_TRANSFER_PAGE_TASKS, MAX_TRANSFER_QUERY_OFFSET,
    MAX_TRANSFER_STATE_FILTERS.
  split.
  - intros H. bool_facts.
    match goal with H : has_earlier _ _ = false |- _ => apply has_earlier_NoDup in H as [Hnd _] end.
    split_and!; try lia; [done |]. intros Hq. rewrite Hq in *. done.
  - intros (H1 & H2 & Hnd & Hp). pose proof (NoDup_states_length _ Hnd).
    rewrite (proj2 (has_earlier_NoDup [] (q_states q))) by (split; [done | set_solver]).
    replace (is_some_and is_nil (q_profile_id q)) with false.
    2:{ symmetry. destruct (q_profile_id q) as [p |]; [| done]. unfold is_some_and, is_nil.
        apply Z.eqb_neq. congruence. }
    repeat case_match; try done; exfalso; bool_facts; lia.
Qed.

Lemma query_validate_exact_witness :
  TransferQuery_validate {| q_limit := 3; q_offset := 0; q_states := [K_Queued; K_Failed];
    q_direction := None; q_profile_id := None |} = Ok tt.
Proof.
  apply query_validate_exact; [simpl; lia |]. split_and!; simpl; try lia; [| done].
  by apply (bool_decide_unpack _).
Defined.

(** ** Drafts become tasks *)

Section Facts.
Context {J : Type} `{TaskCodec J}.

Lemma remote_profile_id_some t :
  validate_endpoints (direction t) (source t) (destination t) = Ok tt ->
  exists p, remote_profile_id t = Some p.
Proof.
  unfold remote_profile_id, validate_endpoints.
  destruct (direction t), (source t), (destination t); try discriminate; simpl; eauto.
Qed.

(** a draft that becomes a task becomes a task of the public contract: the
    task is queued at revision zero with the draft's id, endpoints and bounds,
    satisfies [validate_public], names the remote profile of the draft (so the
    lookups that [expect] a remote endpoint cannot panic), and is accepted as
    the answer to the enqueue command. *)
Theorem into_task_meets_contract d protocol feats created t :
  into_task d protocol feats created = Ok t ->
  validate_public t = Ok tt
  /\ state t = Queued /\ revision t = 0 /\ generation t = 0 /\ id t = draft_id d
  /\ source t = draft_endpoint (draft_source d) protocol
  /\ destination t = draft_endpoint (draft_destination d) protocol
  /\ (exists p, remote_profile_id t = Some p /\ TransferDraft_remote_profile_id d = Some p)
  /\ TransferOutput_validate_for (Output_Task t) (Enqueue d) = Ok tt.
Proof.
  unfold into_task. intros Hi.
  apply result_bind_ok in Hi as ([] & Hd & Hi). apply result_bind_ok in Hi as (t' & Ht & Hi).
  apply result_bind_ok in Hi as ([] & Hv & [= ->]).
  unfold TransferTask_new in Ht.
  destruct (validate_endpoints _ _ _) as [[] |] eqn:He in Ht; [| discriminate Ht].
  injection Ht as <-. split; [done |]. split_and!; try done.
  - unfold remote_profile_id, TransferDraft_remote_profile_id. simpl.
    destruct (draft_direction d), (draft_source d), (draft_destination d); try discriminate He;
      simpl; eauto.
  - unfold TransferOutput_validate_for, TransferCommand_validate. rewrite Hd.
    cbn [result_bind id]. by rewrite Z.eqb_refl, Hv.
Qed.
End Facts.

Definition demo_draft : TransferDraft :=
  {| draft_id := 1; draft_source := Draft_Local 2; draft_destination := Draft_Remote 3 demo_path;
     draft_direction := Upload; draft_expected_source := Some demo_identity;
     draft_expected_destination := None; draft_retry_policy := RetryPolicy_default;
     draft_bandwidth_limit := BandwidthLimit_unlimited; draft_conflict_policy := Policy_Fail |}.

Definition public_features : TransferFeatureSet :=
  {| feat_pause := Supported; feat_resume := Supported; feat_resume_validation := Some RV_SizeOnly |}.

Definition public_task : TransferTask :=
  {| id := 1; source := Local 2;
     destination := Remote {| ep_profile_id := 3; ep_protocol := Sftp; ep_path := demo_path |};
     direction := Upload; expected_source := Some demo_identity; expected_destination := None;
     state := Queued; progress := TransferProgress_pending (Some 4);
     retry_policy := RetryPolicy_default; completed_attempts := 0;
     bandwidth_limit := BandwidthLimit_unlimited; conflict_policy := Policy_Fail;
     features := public_features; revision := 0; generation := 0;
     created_at_unix_ms := 0; updated_at_unix_ms := 0 |}.

Lemma into_task_meets_contract_witness :
  @validate_public TransferTask identity_codec public_task = Ok tt.
Proof.
  refine (proj1 (@into_task_meets_contract TransferTask identity_codec demo_draft Sftp public_features 0
            public_task _)).
  reflexivity.
Defined.

(** ** The state machine stays inside the contract *)

(** The identities a call carries respect the bounds of the contract. *)
Definition call_public (c : task_call) : Prop :=
  match c with
  | Call_confirm_paused _ cp _ => validate_state_identities (Paused cp) = Ok tt
  | Call_confirm_cancelled _ cp now => validate_state_identities (Cancelled cp now) = Ok tt
  | Call_complete _ d => validate_state_identities (Completed d) = Ok tt
  | Call_enter_conflict _ cf _ => validate_state_identities (Conflict cf) = Ok tt
  | _ => True
  end.

Lemma checkpoint_cancelled t now :
  validate_state_identities (state t) = Ok tt ->
  validate_state_identities (Cancelled (current_checkpoint t) now) = Ok tt.
Proof.
  unfold validate_state_identities, current_checkpoint.
  destruct (state t) as [| | | cp | | | [r [cp |]] | | | cp ?]; simpl; try done; destruct cp; done.
Qed.

Lemma step_state_identities c t t' :
  call_public c -> step c t t' -> validate_state_identities (state t) = Ok tt ->
  validate_state_identities (state t') = Ok tt.
Proof. intros Hc Hs. destruct Hs; simpl in *; try done. intros. by apply checkpoint_cancelled. Qed.

Section Contract.
Context {J : Type} `{TaskCodec J}.

Lemma validate_public_intro t j :
  to_json t = Some j -> json_len j <= MAX_PUBLIC_TRANSFER_TASK_BYTES ->
  task_wf t -> validate_id (id t) = Ok tt ->
  try_for_each validate_public_endpoint [source t; destination t] = Ok tt ->
  validate_identity (expected_source t) = Ok tt -> validate_identity (expected_destination t) = Ok tt ->
  validate_state_identities (state t) = Ok tt -> validate_bandwidth (bandwidth_limit t) = Ok tt ->
  0 <= created_at_unix_ms t ->
  match feat_resume (features t), feat_resume_validation (features t) with
  | Supported, None | Unsupported _, Some _ => true
  | _, _ => false
  end = false ->
  validate_public t = Ok tt.
Proof.
  intros Hj Hlen Hwf Hid Heps H1 H2 Hst Hbw Hcr Hf. unfold validate_public.
  rewrite Hid, (wf_endpoints t Hwf), Heps, H1, H2, Hst, Hf, Hj, Hbw.
  unfold validate_retry_policy. destruct (wf_policy t Hwf) as (_ & _ & ->).
  cbn [result_bind map_err ok_or].
  pose proof (wf_attempts t Hwf). pose proof (wf_times t Hwf).
  pose proof (proj2 (bounded_by_iff _ _) (wf_total t Hwf)) as ->.
  pose proof (proj2 (speed_ok_iff _) (wf_speed t Hwf)) as ->.
  repeat case_match; try done; exfalso; bool_facts; try lia; congruence.
Qed.

(** no method call takes a task out of the public contract: if a task with
    the task invariant passes [validate_public], then after any successful call
    whose identities respect the contract's bounds it passes again, its
    serialised size permitting. *)
Theorem calls_preserve_public_contract c t :
  task_wf t -> validate_public t = Ok tt -> call_typed c -> call_public c ->
  (exists j, to_json (apply_call t c) = Some j /\ json_len j <= MAX_PUBLIC_TRANSFER_TASK_BYTES) ->
  validate_public (apply_call t c) = Ok tt.
Proof.
  intros Hwf Hv Hty Hpub (j & Hj & Hlen).
  destruct (apply_call_cases c t) as [(_ & Hs & Ht) | (_ & ->)]; [| done].
  unfold validate_public in Hv.
  apply result_bind_ok in Hv as ([] & Hid & Hv). apply result_bind_ok in Hv as ([] & _ & Hv).
  apply result_bind_ok in Hv as ([] & Heps & Hv). apply result_bind_ok in Hv as ([] & H1 & Hv).
  apply result_bind_ok in Hv as ([] & H2 & Hv). apply result_bind_ok in Hv as ([] & Hst & Hv).
  apply result_bind_ok in Hv as ([] & _ & Hv). apply result_bind_ok in Hv as ([] & Hbw & Hv).
  bool_facts. clear Hv.
  pose proof (step_frame _ _ _ Hs) as (Hi & Hsrc & Hdst & Hdir & Hes & Hed & Hpol & Hl & Hfe & Hcr & _).
  apply (validate_public_intro _ j); try done.
  - by eapply step_task_wf.
  - by rewrite Hi.
  - by rewrite Hsrc, Hdst.
  - by rewrite Hes.
  - by rewrite Hed.
  - by eapply step_state_identities.
  - by rewrite Hl.
  - rewrite Hcr. lia.
  - by rewrite Hfe.
Qed.
End Contract.

Lemma calls_preserve_public_contract_witness :
  @validate_public TransferTask identity_codec (apply_call public_task (Call_start 1)) = Ok tt.
Proof.
  apply (@calls_preserve_public_contract TransferTask identity_codec (Call_start 1) public_task).
  - apply (new_task_wf 1 (Local 2) (destination demo_task) Upload (Some demo_identity) None
             RetryPolicy_default BandwidthLimit_unlimited Policy_Fail public_features 0); by vm_compute.
  - reflexivity.
  - done.
  - done.
  - eexists. split; [reflexivity |]. vm_compute. discriminate.
Defined.
