(* ===== verification/TransferStore.v ===== *)
(** [crates/transfers/src/persistence.rs]: the store interface, its in-memory
    and SQLite implementations, and the contract both meet.

    SQLite, serde and the text form of a UUID are not this repository's code. A
    connection is its table and an oracle [faults] that says, call by call,
    which SQLite calls fail; [TaskCodec] is the JSON document; [UuidText] is
    [Uuid::to_string]. A transaction that is not committed leaves the table as
    it was. *)
From S2P Require Import Prelude RemoteCore TransferModel TransferPublic.

Inductive StoreError :=
| AlreadyExists | NotFound | RevisionConflict | Unavailable | Corrupt | UnsupportedSchema
| DocumentTooLarge.
#[export] Instance StoreError_eq_dec : EqDecision StoreError.
Proof. solve_decision. Defined.

(** ** The interface and its contract *)

Class TransferStore (St : Type) := {
  load_all : mut St (list TransferTask) StoreError;
  insert_task : TransferTask -> mut St unit StoreError;
  compare_and_swap : Z -> TransferTask -> mut St unit StoreError;
}.

Abbreviation task_map := (gmap Z TransferTask).

(** What a store promises: it holds a map of tasks; reads return it; an insert
    adds a new task or fails; a swap replaces the task at the expected revision
    or fails; a failure changes nothing. Revisions are [u64]s, so not negative. *)
Class StoreLaws (St : Type) `{TransferStore St} := {
  view : St -> task_map;
  store_ok : St -> Prop;
  load_all_law : forall s s' r, store_ok s -> load_all s = (s', r) ->
    store_ok s' /\ view s' = view s
    /\ (forall l, r = Ok l ->
          NoDup (id <$> l) /\ forall k t, view s !! k = Some t <-> t ∈ l /\ k = id t);
  insert_law : forall s s' r t, 0 <= revision t -> store_ok s -> insert_task t s = (s', r) ->
    store_ok s' /\ match r with
                   | Ok _ => view s !! id t = None /\ view s' = <[id t := t]> (view s)
                   | Err _ => view s' = view s
                   end;
  swap_law : forall s s' r t rev, 0 <= revision t -> store_ok s -> compare_and_swap rev t s = (s', r) ->
    store_ok s' /\ match r with
                   | Ok _ => (exists cur, view s !! id t = Some cur /\ revision cur = rev)
                             /\ view s' = <[id t := t]> (view s)
                   | Err RevisionConflict =>
                       view s' = view s /\ exists cur, view s !! id t = Some cur /\ revision cur <> rev
                   | Err NotFound => view s' = view s /\ view s !! id t = None
                   | Err _ => view s' = view s
                   end;
}.

(** ** The in-memory store *)

Record InMemoryTransferStore := { mem_tasks : task_map }.

Definition with_tasks (l : list TransferTask) : InMemoryTransferStore :=
  {| mem_tasks := fold_left (fun m t => <[id t := t]> m) l ∅ |}.

Definition mem_insert (t : TransferTask) : mut InMemoryTransferStore unit StoreError :=
  lift (fun s => fail_if is_some (mem_tasks s !! id t) with AlreadyExists in Ok tt) ;;;
  modify (fun s => {| mem_tasks := <[id t := t]> (mem_tasks s) |}).

Definition mem_swap (expected : Z) (t : TransferTask) : mut InMemoryTransferStore unit StoreError :=
  current <- lift (fun s => ok_or NotFound (mem_tasks s !! id t)) ;;
  lift (fun _ => fail_if negb (revision current =? expected) with RevisionConflict in Ok tt) ;;;
  modify (fun s => {| mem_tasks := <[id t := t]> (mem_tasks s) |}).

#[export] Instance in_memory_store : TransferStore InMemoryTransferStore := {
  load_all := gets (fun s => btree_values (mem_tasks s));
  insert_task := mem_insert;
  compare_and_swap := mem_swap;
}.

(** ** SQLite *)

Definition SQLITE_TRANSFER_SCHEMA_VERSION : Z := 1.
Definition MAX_TRANSFER_DOCUMENT_BYTES : Z := 256 * 1024.

(** The error codes the code tells apart. *)
Inductive ErrorCode := ConstraintViolation | DatabaseCorrupt | NotADatabase | SchemaChanged | OtherCode.
Inductive SqliteError := SqliteFailure (code : ErrorCode) | OtherSqliteError.

Definition is_constraint_violation (e : SqliteError) : bool :=
  match e with SqliteFailure ConstraintViolation => true | _ => false end.

Definition map_sqlite_error (e : SqliteError) : StoreError :=
  match e with
  | SqliteFailure (DatabaseCorrupt | NotADatabase | SchemaChanged) => Corrupt
  | _ => Unavailable
  end.

Definition state_code (k : TransferStateKind) : string :=
  match k with
  | K_Queued => "queued"
  | K_Running => "running"
  | K_Pausing => "pausing"
  | K_Paused => "paused"
  | K_Cancelling => "cancelling"
  | K_RetryScheduled => "retry_scheduled"
  | K_Conflict => "conflict"
  | K_Completed => "completed"
  | K_Failed => "failed"
  | K_Cancelled => "cancelled"
  end.

Class UuidText := { uuid_string : Uuid -> string }.
Class UuidTextLaws `{UuidText} := { uuid_string_inj : forall a b, uuid_string a = uuid_string b -> a = b }.

Section Sqlite.
Context {J : Type} `{TaskCodec J} `{UuidText}.

Record row := {
  row_task_id : string;
  row_revision : Z;
  row_state : string;
  row_document : J;
  row_updated_at_unix_ms : Z;
}.

Record connection := {
  rows : list row;
  user_version : Z;
  quick_check : string;
  faults : list (option SqliteError);
}.

Definition set_rows (l : list row) (c : connection) : connection :=
  {| rows := l; user_version := user_version c; quick_check := quick_check c; faults := faults c |}.
Definition set_version (v : Z) (c : connection) : connection :=
  {| rows := rows c; user_version := v; quick_check := quick_check c; faults := faults c |}.
Definition set_faults (l : list (option SqliteError)) (c : connection) : connection :=
  {| rows := rows c; user_version := user_version c; quick_check := quick_check c; faults := l |}.

(** A SQLite call: it fails if the oracle says so. *)
Definition sql_try : mut connection unit SqliteError :=
  fun c => match faults c with
           | [] => (c, Ok tt)
           | None :: l => (set_faults l c, Ok tt)
           | Some e :: l => (set_faults l c, Err e)
           end.
Definition sql : mut connection unit StoreError := mut_map_err map_sqlite_error sql_try.

Definition encode (t : TransferTask) : result J StoreError :=
  let? document := ok_or Corrupt (to_json t) in
  fail_if MAX_TRANSFER_DOCUMENT_BYTES <? json_len document with DocumentTooLarge in
  Ok document.

Definition decode_row (r : row) : result TransferTask StoreError :=
  fail_if (MAX_TRANSFER_DOCUMENT_BYTES <? json_len (row_document r)) || (row_revision r <? 0)
    with Corrupt in
  let? task := ok_or Corrupt (from_json (row_document r)) in
  let? rev := ok_or Corrupt (checked_u64 (row_revision r)) in
  fail_if negb (String.eqb (uuid_string (id task)) (row_task_id r))
          || negb (revision task =? rev)
          || negb (String.eqb (state_code (TransferState_kind (state task))) (row_state r))
          || negb (updated_at_unix_ms task =? row_updated_at_unix_ms r)
    with Corrupt in
  Ok task.

(** [ORDER BY updated_at_unix_ms ASC, task_id ASC] *)
Definition row_le (a b : row) : Prop :=
  row_updated_at_unix_ms a < row_updated_at_unix_ms b
  \/ (row_updated_at_unix_ms a = row_updated_at_unix_ms b
      /\ String.leb (row_task_id a) (row_task_id b) = true).
#[global] Instance row_le_dec a b : Decision (row_le a b).
Proof. unfold row_le. apply _. Defined.

(** The loop over [rows.next()]: one call for the row, one for each of its five
    columns, and one that finds the end. *)
Fixpoint load_rows (l : list row) (tasks : list TransferTask)
  : mut connection (list TransferTask) StoreError :=
  match l with
  | [] => sql ;;; ret tasks
  | r :: l' =>
      sql ;;; sql ;;; sql ;;; sql ;;; sql ;;; sql ;;;
      task <- lift (fun _ => decode_row r) ;;
      load_rows l' (tasks ++ [task])
  end.

Definition sqlite_load_all : mut connection (list TransferTask) StoreError :=
  sql ;;; sql ;;;
  sorted <- gets (fun c => merge_sort row_le (rows c)) ;;
  load_rows sorted [].

Definition row_of (t : TransferTask) (document : J) : row :=
  {| row_task_id := uuid_string (id t); row_revision := revision t;
     row_state := state_code (TransferState_kind (state t)); row_document := document;
     row_updated_at_unix_ms := updated_at_unix_ms t |}.

Definition has_id (s : string) (r : row) : bool := String.eqb (row_task_id r) s.

(** The primary key rejects a second row of a task. *)
Definition sql_insert (r : row) : mut connection (list row) SqliteError :=
  sql_try ;;;
  lift (fun c => fail_if existsb (has_id (row_task_id r)) (rows c)
                   with SqliteFailure ConstraintViolation in Ok (rows c ++ [r])).

Definition sqlite_insert (t : TransferTask) : mut connection unit StoreError :=
  document <- lift (fun _ => encode t) ;;
  lift (fun _ => ok_or Corrupt (checked_i64 (revision t))) ;;;
  sql ;;;
  rows' <- mut_map_err (fun e => if is_constraint_violation e then AlreadyExists else map_sqlite_error e)
             (sql_insert (row_of t document)) ;;
  sql ;;;
  modify (set_rows rows').

(** [SQLITE_COMPARE_AND_SWAP_TASK]: the table after the update and the number
    of rows it changed. *)
Definition swaps (s : string) (expected : Z) (r : row) : bool :=
  has_id s r && (row_revision r =? expected).
Definition sql_update (expected : Z) (new : row) (l : list row) : list row * nat :=
  ((fun r => if swaps (row_task_id new) expected r then new else r) <$> l,
   length (List.filter (swaps (row_task_id new) expected) l)).

Definition sqlite_swap (expected : Z) (t : TransferTask) : mut connection unit StoreError :=
  document <- lift (fun _ => encode t) ;;
  expected_i64 <- lift (fun _ => ok_or Corrupt (checked_i64 expected)) ;;
  lift (fun _ => ok_or Corrupt (checked_i64 (revision t))) ;;;
  sql ;;;
  sql ;;;
  updated <- gets (fun c => sql_update expected_i64 (row_of t document) (rows c)) ;;
  if Nat.eqb (snd updated) 0
  then sql ;;;
       lift (fun c => Err (if existsb (has_id (uuid_string (id t))) (rows c)
                           then RevisionConflict else NotFound))
  else sql ;;; modify (set_rows (fst updated)).

(** [from_connection]: busy timeout, [quick_check], version, pragmas, and the
    schema in one transaction. *)
Definition from_connection : mut connection unit StoreError :=
  sql ;;;
  sql ;;;
  lift (fun c => fail_if negb (String.eqb (quick_check c) "ok") with Corrupt in Ok tt) ;;;
  sql ;;;
  version <- gets user_version ;;
  lift (fun _ => fail_if SQLITE_TRANSFER_SCHEMA_VERSION <? version with UnsupportedSchema in Ok tt) ;;;
  sql ;;;
  if version =? 0
  then sql ;;; sql ;;; sql ;;; modify (set_version SQLITE_TRANSFER_SCHEMA_VERSION)
  else if version =? SQLITE_TRANSFER_SCHEMA_VERSION then ret tt
  else throw UnsupportedSchema.

#[export] Instance sqlite_store : TransferStore connection := {
  load_all := sqlite_load_all;
  insert_task := sqlite_insert;
  compare_and_swap := sqlite_swap;
}.
End Sqlite.
Arguments row : clear implicits.
Arguments connection : clear implicits.
