(* ===== verification/TransferStoreFacts.v ===== *)
(** Both stores keep the contract of [TransferStore]. *)
From stdpp Require Import pretty.
From S2P Require Import Prelude RemoteCore TransferModel TransferStateFacts TransferInvariant TransferPublic TransferPublicFacts TransferStore.

(** ** In memory *)

Definition keyed (m : task_map) : Prop := forall k t, m !! k = Some t -> id t = k.

Lemma keyed_insert m t : keyed m -> keyed (<[id t := t]> m).
Proof.
  intros Hm k t' H. apply lookup_insert_Some in H as [[<- <-] | [_ H]]; [done | by apply Hm].
Qed.

Lemma keyed_values m : keyed m ->
  NoDup (id <$> btree_values m) /\ forall k t, m !! k = Some t <-> t ∈ btree_values m /\ k = id t.
Proof.
  intros Hm. split.
  - replace (id <$> btree_values m) with (btree_entries m).*1.
    + rewrite btree_entries_perm. apply NoDup_fst_map_to_list.
    + unfold btree_values. rewrite <- list_fmap_compose. apply list_fmap_ext.
      intros i [k t] Hl. simpl. symmetry. apply Hm, btree_entries_elem. by eapply list_elem_of_lookup_2.
  - intros k t. rewrite btree_values_elem. split.
    + intros H. split; [by exists k | symmetry; by apply Hm].
    + intros [[k' H] ->]. by rewrite (Hm _ _ H).
Qed.

#[export] Program Instance in_memory_laws : StoreLaws InMemoryTransferStore := {
  view := mem_tasks;
  store_ok := fun s => keyed (mem_tasks s);
}.
Next Obligation.
  intros s s' r Hok H. simpl in H. unfold gets in H. injection H as <- <-.
  split; [done |]. split; [done |]. intros l [= <-]. by apply keyed_values.
Qed.
Next Obligation.
  intros s s' r t _ Hok H. simpl in H. unfold mem_insert, bind, lift, modify in H.
  destruct (mem_tasks s !! id t) eqn:Hl; simpl in H; injection H as <- <-; [done |].
  simpl. split; [by apply keyed_insert | done].
Qed.
Next Obligation.
  intros s s' r t rev _ Hok H. simpl in H. unfold mem_swap, bind, lift, modify in H.
  destruct (mem_tasks s !! id t) as [cur |] eqn:Hl; simpl in H; [| by injection H as <- <-].
  destruct (revision cur =? rev) eqn:Hr; simpl in H; injection H as <- <-; bool_facts.
  - simpl. split; [by apply keyed_insert |]. eauto.
  - simpl. eauto.
Qed.

(** ** SQLite *)

Section SqliteFacts.
Context {J : Type} {codec : TaskCodec J} {codec_laws : TaskCodecLaws J}
  {uuid : UuidText} {uuid_laws : UuidTextLaws}.

Lemma sql_try_cases (c c' : connection J) r :
  sql_try c = (c', r) -> rows c' = rows c /\ user_version c' = user_version c.
Proof. unfold sql_try. intros Ht. destruct (faults c) as [| [e |] l]; by simplify_eq/=. Qed.

Lemma sql_rows : preserves rows (sql (J := J)).
Proof.
  unfold sql, mut_map_err. intros c c' r Hs. destruct (sql_try c) eqn:Ht.
  apply sql_try_cases in Ht. simplify_eq/=. by destruct_and?.
Qed.
#[local] Hint Resolve sql_rows : rust_effects.

Lemma load_rows_rows l tasks : preserves rows (load_rows (J := J) l tasks).
Proof. revert tasks. induction l; intros tasks; simpl; solve_preserves. Qed.
#[local] Hint Resolve load_rows_rows : rust_effects.

Lemma load_rows_ok l tasks (c c' : connection J) ts :
  load_rows l tasks c = (c', Ok ts) ->
  exists ts', ts = tasks ++ ts' /\ Forall2 (fun r t => decode_row r = Ok t) l ts'.
Proof.
  revert tasks c. induction l as [| r l IH]; intros tasks c Hl; simpl in Hl; inv_ok.
  - exists []. by rewrite app_nil_r.
  - apply IH in Hl as (ts' & -> & Hf). eexists (_ :: ts'). rewrite <- app_assoc. split; [done |].
    by constructor.
Qed.

Definition decoded (r : row J) : option TransferTask :=
  match decode_row r with Ok t => Some t | Err _ => None end.

Lemma decoded_some r t : decoded r = Some t <-> decode_row r = Ok t.
Proof. unfold decoded. destruct (decode_row r); naive_solver. Qed.

Definition sqlite_view (c : connection J) : task_map :=
  list_to_map ((fun t => (id t, t)) <$> omap decoded (rows c)).

Definition rows_ok (l : list (row J)) : Prop :=
  NoDup (row_task_id <$> l) /\ Forall (fun r => exists t, decode_row r = Ok t) l.

Lemma decode_row_fields r t :
  decode_row r = Ok t ->
  uuid_string (id t) = row_task_id r /\ revision t = row_revision r.
Proof.
  unfold decode_row. intros Hd. bool_facts.
  apply result_bind_ok in Hd as (t' & _ & Hd). apply result_bind_ok in Hd as (rev & Hrev & Hd).
  bool_facts. injection Hd as ->.
  destruct (checked_u64 (row_revision r)) eqn:Hc; [| done]. injection Hrev as <-.
  apply checked_u64_some in Hc as [-> _]. split; [by apply String.eqb_eq | done].
Qed.

(** The row written for a task decodes to it. *)
Lemma decode_row_of t document :
  0 <= revision t -> encode t = Ok document -> is_some (checked_i64 (revision t)) = true ->
  decode_row (row_of t document) = Ok t.
Proof.
  intros Hpos He Hrev. unfold encode in He. apply result_bind_ok in He as (j & Hj & He).
  destruct (to_json t) as [j' |] eqn:Hto; [| done]. injection Hj as ->. bool_facts.
  injection He as <-.
  destruct (checked_i64 (revision t)) eqn:Hc; [| done]. apply checked_i64_some in Hc as [-> Hc].
  unfold decode_row, row_of. simpl.
  rewrite (json_round_trip _ _ Hto), (proj2 (Z.ltb_ge _ _)) by done.
  rewrite (proj2 (Z.ltb_ge (revision t) 0)) by done. simpl.
  unfold checked_u64. replace (in_u64 (revision t)) with true by width. simpl.
  by rewrite !String.eqb_refl, !Z.eqb_refl.
Qed.

Lemma view_lookup c k t :
  rows_ok (rows c) ->
  sqlite_view c !! k = Some t <-> k = id t /\ exists r, r ∈ rows c /\ decode_row r = Ok t.
Proof.
  intros [Hnd Hok]. unfold sqlite_view.
  assert (Hids : NoDup ((fun t => (id t, t)) <$> omap decoded (rows c)).*1).
  { induction (rows c) as [| r l IH]; [constructor |]. 
    apply NoDup_cons in Hnd as [Hr Hnd]. apply Forall_cons in Hok as [[t' Ht'] Hok].
    cbn [omap list_omap]. rewrite (proj2 (decoded_some r t') Ht').
    rewrite !fmap_cons. apply NoDup_cons. split; [| by apply IH].
    intros ([k' t''] & Hk & Hin)%list_elem_of_fmap. simpl in Hk. subst k'.
    apply list_elem_of_fmap in Hin as (t3 & [= Hid ->] & Hin).
    apply list_elem_of_omap in Hin as (r' & Hr' & Hdr%decoded_some).
    apply decode_row_fields in Hdr as [Hu _]. apply decode_row_fields in Ht' as [Hu' _].
    apply Hr, list_elem_of_fmap. exists r'. split; [| done]. congruence. }
  rewrite <- elem_of_list_to_map by done. rewrite list_elem_of_fmap. split.
  - intros (t' & [= -> ->] & Hin). split; [done |].
    apply list_elem_of_omap in Hin as (r & Hr & Hd%decoded_some). by exists r.
  - intros (-> & r & Hr & Hd). exists t. split; [done |]. apply list_elem_of_omap.
    exists r. split; [done |]. by apply decoded_some.
Qed.

Lemma view_lookup_none c t :
  rows_ok (rows c) -> existsb (has_id (uuid_string (id t))) (rows c) = false ->
  sqlite_view c !! id t = None.
Proof.
  intros Hok Hex. destruct (sqlite_view c !! id t) as [t' |] eqn:Hv; [| done]. exfalso.
  apply view_lookup in Hv as (Hid & r & Hr & Hd); [| done].
  apply decode_row_fields in Hd as [Hu _].
  assert (existsb (has_id (uuid_string (id t))) (rows c) = true) as Hex'; [| congruence].
  apply existsb_exists. exists r. split; [by apply list_elem_of_In |].
  unfold has_id. apply String.eqb_eq. congruence.
Qed.

Lemma view_rows c c' : rows c' = rows c -> sqlite_view c' = sqlite_view c.
Proof. unfold sqlite_view. by intros ->. Qed.

Lemma load_all_rows : preserves rows (sqlite_load_all (J := J)).
Proof. unfold sqlite_load_all. solve_preserves. Qed.

Lemma load_all_result c c' ts :
  sqlite_load_all c = (c', Ok ts) ->
  Forall2 (fun r t => decode_row r = Ok t) (merge_sort row_le (rows c)) ts.
Proof.
  unfold sqlite_load_all. intros Hl. inv_ok.
  match goal with Hs : load_rows _ _ _ = _ |- _ => apply load_rows_ok in Hs as (ts' & -> & Hf) end.
  simpl. repeat match goal with
    | Hs : sql ?x = (?y, _) |- _ => apply sql_rows in Hs
    end. congruence.
Qed.

Lemma sql_insert_rows (r : row J) : preserves rows (sql_insert r).
Proof.
  unfold sql_insert. apply preserves_bind; [| intros; apply preserves_read_only; auto with rust_effects].
  intros c c' x Hs. by apply sql_try_cases in Hs as [-> _].
Qed.

Lemma map_err_rows {A E F} (f : E -> F) (m : mut (connection J) A E) :
  preserves rows m -> preserves rows (mut_map_err f m).
Proof.
  unfold preserves, mut_map_err. intros Hm c c' r Hs. destruct (m c) eqn:He.
  injection Hs as <- _. by eapply Hm.
Qed.
Lemma mapped_insert_rows {F} (f : SqliteError -> F) (r : row J) :
  preserves rows (mut_map_err f (sql_insert r)).
Proof. apply map_err_rows, sql_insert_rows. Qed.
#[local] Hint Resolve mapped_insert_rows : rust_effects.

Lemma insert_fails t : fails_preserving rows (sqlite_insert (J := J) t).
Proof. unfold sqlite_insert. solve_fails_preserving. Qed.

Lemma swap_fails rev t : fails_preserving rows (sqlite_swap (J := J) rev t).
Proof. unfold sqlite_swap. solve_fails_preserving. Qed.

Ltac same_rows :=
  repeat match goal with
    | Hs : sql _ = (_, _) |- _ => apply sql_rows in Hs
    | Hs : mut_map_err _ (sql_insert _) _ = (_, _) |- _ =>
        pose proof (mapped_insert_rows _ _ _ _ _ Hs); revert Hs
    end; intros.

Lemma insert_succeeds t c c' u :
  sqlite_insert t c = (c', Ok u) ->
  exists document : J, encode t = Ok document /\ is_some (checked_i64 (revision t)) = true
    /\ existsb (has_id (uuid_string (id t))) (rows c) = false
    /\ rows c' = rows c ++ [row_of t document].
Proof.
  unfold sqlite_insert. intros Hi. inv_ok. same_rows.
  match goal with Hs : mut_map_err _ _ _ = _ |- _ => apply mut_map_err_ok in Hs end.
  unfold sql_insert in *. inv_ok.
  match goal with Hs : sql_try _ = _ |- _ => apply sql_try_cases in Hs as [Ht _] end.
  bool_facts. simplify_eq. eexists. split; [eassumption |]. simpl in *.
  split; [by destruct (checked_i64 (revision t)) |]. split; congruence.
Qed.

Lemma filter_length_existsb {A} (p : A -> bool) l :
  (length (List.filter p l) =? 0)%nat = negb (existsb p l).
Proof. induction l as [| a l IH]; simpl; [done |]. by destruct (p a). Qed.

Lemma swap_ok rev t (c c' : connection J) u :
  sqlite_swap rev t c = (c', Ok u) ->
  exists document : J, encode t = Ok document /\ is_some (checked_i64 (revision t)) = true
    /\ existsb (swaps (uuid_string (id t)) rev) (rows c) = true
    /\ rows c' = (fun r => if swaps (uuid_string (id t)) rev r then row_of t document else r) <$> rows c.
Proof.
  unfold sqlite_swap. intros Hi. inv_ok. same_rows. case_match; inv_ok; [done |]. same_rows.
  simpl in *. rewrite filter_length_existsb in *. bool_facts.
  destruct (checked_i64 rev) eqn:Hrev; [| done]. apply checked_i64_some in Hrev as [-> _].
  simplify_eq/=. eexists. split; [eassumption |].
  split; [by destruct (checked_i64 (revision t)) |].
  replace (rows c) with (rows x7) by congruence. done.
Qed.

Lemma sql_err (c c' : connection J) e : sql c = (c', Err e) -> e = Corrupt \/ e = Unavailable.
Proof.
  unfold sql, mut_map_err. intros Hs. destruct (sql_try c) as [c1 [? | e1]]; [done |].
  injection Hs as _ <-. destruct e1 as [[] |]; auto.
Qed.

Lemma encode_err t e : encode (J := J) t = Err e -> e = Corrupt \/ e = DocumentTooLarge.
Proof. unfold encode. destruct (to_json t); simpl; [case_match |]; naive_solver. Qed.

(** Why a swap failed: the two errors that speak of the table. *)
Lemma swap_err rev t (c c' : connection J) e :
  sqlite_swap rev t c = (c', Err e) ->
  match e with
  | RevisionConflict => existsb (has_id (uuid_string (id t))) (rows c) = true
                        /\ existsb (swaps (uuid_string (id t)) rev) (rows c) = false
  | NotFound => existsb (has_id (uuid_string (id t))) (rows c) = false
  | _ => True
  end.
Proof.
  unfold sqlite_swap. intros Hs.
  apply bind_err in Hs as [Hs | (c1 & document & H1 & Hs)].
  { unfold lift in Hs. injection Hs as _ Hs. by apply encode_err in Hs as [-> | ->]. }
  apply bind_err in Hs as [Hs | (c2 & rev' & H2 & Hs)].
  { unfold lift in Hs. destruct (checked_i64 rev); by simplify_eq/=. }
  apply bind_err in Hs as [Hs | (c3 & rev'' & H3 & Hs)].
  { unfold lift in Hs. destruct (checked_i64 (revision t)); by simplify_eq/=. }
  apply bind_err in Hs as [Hs | (c4 & u4 & H4 & Hs)]; [by apply sql_err in Hs as [-> | ->] |].
  apply bind_err in Hs as [Hs | (c5 & u5 & H5 & Hs)]; [by apply sql_err in Hs as [-> | ->] |].
  apply bind_err in Hs as [Hs | (c6 & u6 & H6 & Hs)]; [done |]. inv_ok. same_rows.
  simpl in Hs. rewrite filter_length_existsb in Hs.
  destruct (checked_i64 rev) eqn:Hrev; [| done]. apply checked_i64_some in Hrev as [-> _].
  simplify_eq/=. assert (rows c5 = rows c) as Hrows by congruence. rewrite Hrows in *.
  destruct (existsb (swaps _ _) _) eqn:Hex; simpl in Hs.
  - apply bind_err in Hs as [Hs | (c7 & u7 & H7 & Hs)]; [by apply sql_err in Hs as [-> | ->] | done].
  - apply bind_err in Hs as [Hs | (c7 & u7 & H7 & Hs)]; [by apply sql_err in Hs as [-> | ->] |].
    same_rows. unfold lift in Hs. injection Hs as _ <-.
    replace (rows c7) with (rows c) by congruence.
    by destruct (existsb (has_id _) _) eqn:Hid.
Qed.

Lemma rows_ok_insert l t (d : J) :
  rows_ok l -> existsb (has_id (uuid_string (id t))) l = false ->
  decode_row (row_of t d) = Ok t -> rows_ok (l ++ [row_of t d]).
Proof.
  intros [Hnd Hok] Hex Hd. split.
  - rewrite fmap_app. apply NoDup_app. split; [done |]. split; [| apply NoDup_singleton].
    intros x (r & -> & Hr)%list_elem_of_fmap Hx. apply list_elem_of_singleton in Hx. simpl in Hx.
    assert (existsb (has_id (uuid_string (id t))) l = true); [| congruence].
    apply existsb_exists. exists r. split; [by apply list_elem_of_In |]. by apply String.eqb_eq.
  - apply Forall_app. split; [done |]. repeat constructor. eauto.
Qed.

Lemma swapped_ids (l : list (row J)) t rev (d : J) :
  row_task_id <$> ((fun r => if swaps (uuid_string (id t)) rev r then row_of t d else r) <$> l)
  = row_task_id <$> l.
Proof.
  rewrite <- list_fmap_compose. apply list_fmap_ext. intros i r _. simpl.
  unfold swaps, has_id. destruct (String.eqb_spec (row_task_id r) (uuid_string (id t))); simpl; [| done].
  by destruct (_ =? _).
Qed.

Lemma rows_ok_swap l t rev (d : J) :
  rows_ok l -> decode_row (row_of t d) = Ok t ->
  rows_ok ((fun r => if swaps (uuid_string (id t)) rev r then row_of t d else r) <$> l).
Proof.
  intros [Hnd Hok] Hd. split; [by rewrite swapped_ids |].
  apply Forall_fmap. eapply Forall_impl; [exact Hok |]. intros r Hr. simpl.
  case_match; [eauto | done].
Qed.

Lemma unique_row l (r1 r2 : row J) :
  NoDup (row_task_id <$> l) -> r1 ∈ l -> r2 ∈ l -> row_task_id r1 = row_task_id r2 -> r1 = r2.
Proof.
  intros Hnd (i & Hi)%list_elem_of_lookup (j & Hj)%list_elem_of_lookup Heq.
  assert (i = j) as ->; [| congruence].
  eapply NoDup_lookup; [exact Hnd | |]; rewrite list_lookup_fmap; [by rewrite Hi | rewrite Hj; simpl; congruence].
Qed.

Lemma view_insert c c' t (d : J) :
  rows_ok (rows c) -> rows_ok (rows c') -> rows c' = rows c ++ [row_of t d] ->
  decode_row (row_of t d) = Ok t ->
  existsb (has_id (uuid_string (id t))) (rows c) = false ->
  sqlite_view c' = <[id t := t]> (sqlite_view c).
Proof.
  intros Hok Hok' Hrows Hd Hex. apply map_eq. intros k. apply option_eq. intros t'.
  rewrite view_lookup by done. rewrite Hrows. split.
  - intros (-> & r & [Hr | Hr%list_elem_of_singleton]%elem_of_app & Hdr).
    + rewrite lookup_insert_ne.
      * apply view_lookup; [done |]. split; [done |]. by exists r.
      * intros Heq. pose proof (view_lookup_none c t Hok Hex) as Hn.
        assert (sqlite_view c !! id t = Some t') as Hs; [| congruence].
        apply view_lookup; [done |]. split; [done |]. by exists r.
    + subst r. assert (t' = t) as -> by congruence. by rewrite lookup_insert_eq.
  - intros [[<- <-] | [Hne Hv]]%lookup_insert_Some.
    + split; [done |]. exists (row_of t d). split; [set_solver | done].
    + apply view_lookup in Hv as (-> & r & Hr & Hdr); [| done]. split; [done |].
      exists r. split; [set_solver | done].
Qed.

Lemma swapped_row c t rev :
  rows_ok (rows c) -> existsb (swaps (uuid_string (id t)) rev) (rows c) = true ->
  exists r cur, r ∈ rows c /\ decode_row r = Ok cur /\ row_task_id r = uuid_string (id t)
    /\ id cur = id t /\ revision cur = rev.
Proof.
  intros [_ Hok] (r & Hr%list_elem_of_In & Hs)%existsb_exists.
  rewrite Forall_forall in Hok. destruct (Hok r Hr) as [cur Hcur].
  unfold swaps, has_id in Hs. bool_facts.
  match goal with Hq : String.eqb _ _ = true |- _ => apply String.eqb_eq in Hq end.
  pose proof (decode_row_fields _ _ Hcur) as [Hu Hrev].
  exists r, cur. split_and!; try done; [apply uuid_string_inj; congruence | congruence].
Qed.

Lemma view_swap c c' t rev (d : J) :
  rows_ok (rows c) -> rows_ok (rows c') ->
  rows c' = (fun r => if swaps (uuid_string (id t)) rev r then row_of t d else r) <$> rows c ->
  decode_row (row_of t d) = Ok t ->
  existsb (swaps (uuid_string (id t)) rev) (rows c) = true ->
  (exists cur, sqlite_view c !! id t = Some cur /\ revision cur = rev)
  /\ sqlite_view c' = <[id t := t]> (sqlite_view c).
Proof.
  intros Hok Hok' Hrows Hd Hex.
  destruct (swapped_row c t rev Hok Hex) as (r0 & cur & Hr0 & Hcur & Hid0 & Hid & Hrev).
  assert (swaps (uuid_string (id t)) rev r0 = true) as Hs0.
  { unfold swaps, has_id. pose proof (decode_row_fields _ _ Hcur) as [_ Hr].
    rewrite Hid0, String.eqb_refl, <- Hr, Hrev. simpl. lia. }
  split.
  { exists cur. split; [| done]. apply view_lookup; [done |]. split; [done |]. by exists r0. }
  apply map_eq. intros k. apply option_eq. intros t'.
  rewrite view_lookup by done. rewrite Hrows. split.
  - intros (-> & r & (r1 & -> & Hr1)%list_elem_of_fmap & Hdr).
    destruct (swaps (uuid_string (id t)) rev r1) eqn:Hsw.
    + assert (t' = t) as -> by congruence. by rewrite lookup_insert_eq.
    + rewrite lookup_insert_ne; [apply view_lookup; [done |]; split; [done |]; by exists r1 |].
      intros Heq. apply decode_row_fields in Hdr as [Hu _].
      assert (r1 = r0) as ->; [| congruence].
      apply (unique_row (rows c)); [apply Hok | done | done | congruence].
  - intros [[<- <-] | [Hne Hv]]%lookup_insert_Some.
    + split; [done |]. exists (row_of t d). split; [| done]. apply list_elem_of_fmap.
      exists r0. by rewrite Hs0.
    + apply view_lookup in Hv as (-> & r & Hr & Hdr); [| done]. split; [done |].
      exists r. split; [| done]. apply list_elem_of_fmap. exists r. split; [| done].
      destruct (swaps _ _ r) eqn:Hsw; [| done]. exfalso. apply Hne.
      unfold swaps, has_id in Hsw. bool_facts.
      match goal with Hq : String.eqb _ _ = true |- _ => apply String.eqb_eq in Hq end.
      apply decode_row_fields in Hdr as [Hu _]. apply uuid_string_inj. congruence.
Qed.

#[export] Program Instance sqlite_laws : StoreLaws (connection J) := {
  view := sqlite_view;
  store_ok := fun c => rows_ok (rows c);
}.
Next Obligation.
  intros c c' r Hok Hl. cbv beta in *. pose proof (load_all_rows _ _ _ Hl) as Hrows.
  rewrite Hrows. split; [done |]. split; [by apply view_rows |]. intros ts ->.
  apply load_all_result in Hl. pose proof (merge_sort_Permutation row_le (rows c)) as Hp.
  assert (uuid_string <$> (id <$> ts) = row_task_id <$> merge_sort row_le (rows c)) as Hids.
  { clear Hp. induction Hl as [| r t l ts Hd Hl IH]; [done |]. rewrite !fmap_cons, IH. f_equal.
    by apply decode_row_fields in Hd as [? _]. }
  split.
  - apply (NoDup_fmap_1 uuid_string). rewrite Hids, Hp. apply Hok.
  - intros k t. simpl. rewrite view_lookup by done. split.
    + intros (-> & r & Hr & Hd). split; [| done]. rewrite <- Hp in Hr.
      apply list_elem_of_lookup in Hr as [i Hi].
      destruct (Forall2_lookup_l _ _ _ _ _ Hl Hi) as (t' & Ht' & Hd').
      assert (t = t') as -> by congruence. by eapply list_elem_of_lookup_2.
    + intros [[i Hi]%list_elem_of_lookup ->]. split; [done |].
      destruct (Forall2_lookup_r _ _ _ _ _ Hl Hi) as (r & Hr & Hd).
      exists r. split; [| done]. rewrite <- Hp. by eapply list_elem_of_lookup_2.
Qed.
Next Obligation.
  intros c c' r t Hpos Hok Hi. cbv beta in *. simpl in Hi. destruct r as [u | e].
  - destruct (insert_succeeds _ _ _ _ Hi) as (d & He & Hrev & Hex & Hrows).
    pose proof (decode_row_of t d Hpos He Hrev) as Hd.
    assert (rows_ok (rows c')) as Hok' by (rewrite Hrows; by apply rows_ok_insert).
    split; [done |]. simpl. split; [by apply view_lookup_none | by eapply view_insert].
  - apply insert_fails in Hi. rewrite Hi. split; [done | by apply view_rows].
Qed.
Next Obligation.
  intros c c' r t rev Hpos Hok Hs. cbv beta in *. simpl in Hs. destruct r as [u | e].
  - destruct (swap_ok _ _ _ _ _ Hs) as (d & He & Hrev & Hex & Hrows).
    pose proof (decode_row_of t d Hpos He Hrev) as Hd.
    assert (rows_ok (rows c')) as Hok' by (rewrite Hrows; by apply rows_ok_swap).
    split; [done |]. by eapply view_swap.
  - pose proof (swap_err _ _ _ _ _ Hs) as Herr. apply swap_fails in Hs. rewrite Hs.
    split; [done |]. simpl. rewrite (view_rows _ _ Hs). destruct e; try done.
    + split; [done |]. by apply view_lookup_none.
    + split; [done |]. destruct Herr as [Hid Hsw].
      apply existsb_exists in Hid as (r & Hr%list_elem_of_In & Hid).
      destruct Hok as [Hnd Hok]. pose proof Hok as Hok0. rewrite Forall_forall in Hok0.
      destruct (Hok0 r Hr) as [cur Hcur]. pose proof (decode_row_fields _ _ Hcur) as [Hu Hrev].
      apply String.eqb_eq in Hid. exists cur. split.
      * apply view_lookup; [done |]. split; [apply uuid_string_inj; congruence |]. by exists r.
      * intros Heq. assert (existsb (swaps (uuid_string (id t)) rev) (rows c) = true); [| congruence].
        apply existsb_exists. exists r. split; [by apply list_elem_of_In |].
        unfold swaps, has_id. rewrite Hid, String.eqb_refl. simpl. lia.
Qed.
End SqliteFacts.

(** ** Refinement of the in-memory store *)

Inductive store_op :=
| Store_insert (t : TransferTask)
| Store_swap (expected : Z) (t : TransferTask).

Definition store_op_task (o : store_op) : TransferTask :=
  match o with Store_insert t | Store_swap _ t => t end.

Definition run_op {St} `{TransferStore St} (o : store_op) : mut St unit StoreError :=
  match o with
  | Store_insert t => insert_task t
  | Store_swap expected t => compare_and_swap expected t
  end.

(** The store after the operations, and what each answered. *)
Fixpoint exec {St} `{TransferStore St} (ops : list store_op) (s : St)
  : St * list (result unit StoreError) :=
  match ops with
  | [] => (s, [])
  | o :: ops' =>
      let '(s1, r) := run_op o s in
      let '(s2, rs) := exec ops' s1 in
      (s2, r :: rs)
  end.

(** The answers that say something of the map, as opposed to a fault. *)
Definition speaks_of_map (o : store_op) (r : result unit StoreError) : bool :=
  match o, r with
  | _, Ok _ => true
  | Store_swap _ _, Err (RevisionConflict | NotFound) => true
  | _, Err _ => false
  end.

(** The in-memory store run on the same operations, skipping the failed ones;
    [None] if it answers otherwise. *)
Fixpoint replay (ops : list store_op) (rs : list (result unit StoreError))
    (m : InMemoryTransferStore) : option InMemoryTransferStore :=
  match ops, rs with
  | [], [] => Some m
  | o :: ops', r :: rs' =>
      if speaks_of_map o r
      then let '(m', r') := run_op o m in
           match r, r' with
           | Ok _, Ok _ => replay ops' rs' m'
           | Err e, Err e' => if decide (e = e') then replay ops' rs' m' else None
           | _, _ => None
           end
      else replay ops' rs' m
  | _, _ => None
  end.

(** a store that keeps the contract behaves, over any sequence of inserts
    and revision swaps and whatever faults occur, as the in-memory map on which
    the failed operations were never tried: same answers, same final contents,
    no lost or half-done update. *)
Theorem store_simulates_map {St} `{StoreLaws St} (ops : list store_op) (s : St) :
  store_ok s -> Forall (fun o => 0 <= revision (store_op_task o)) ops ->
  let '(s', rs) := exec ops s in
  store_ok s' /\ replay ops rs {| mem_tasks := view s |} = Some {| mem_tasks := view s' |}.
Proof.
  revert s. induction ops as [| o ops IH]; intros s Hok Hty; simpl; [done |].
  apply Forall_cons in Hty as [Ho Hty].
  destruct (run_op o s) as [s1 r] eqn:Hr. destruct (exec ops s1) as [s2 rs] eqn:He.
  assert (store_ok s1 /\ (if speaks_of_map o r
            then run_op o {| mem_tasks := view s |} = ({| mem_tasks := view s1 |}, r)
            else view s1 = view s)) as [Hok1 Hstep].
  { destruct o as [t | rev t]; simpl in Hr, Ho |- *.
    - destruct (insert_law _ _ _ _ Ho Hok Hr) as [Hok1 Hl]. split; [done |].
      destruct r as [[] | e]; [| done]. destruct Hl as [Hnone ->].
      unfold mem_insert, bind, lift, modify. simpl. by rewrite Hnone.
    - destruct (swap_law _ _ _ _ _ Ho Hok Hr) as [Hok1 Hl]. split; [done |].
      unfold mem_swap, bind, lift, modify. simpl.
      destruct r as [[] | e].
      + destruct Hl as [(cur & -> & Hrev) ->]. simpl. by rewrite Hrev, Z.eqb_refl.
      + destruct e; try done.
        * by destruct Hl as [-> ->].
        * destruct Hl as [-> (cur & -> & Hrev)]. simpl.
          by rewrite (proj2 (Z.eqb_neq _ _) Hrev). }
  specialize (IH s1 Hok1 Hty). rewrite He in IH. destruct IH as [Hok2 IH]. split; [done |].
  destruct (speaks_of_map o r).
  - rewrite Hstep. destruct r; [done |]. by rewrite decide_True.
  - by rewrite <- Hstep.
Qed.

#[local] Instance pretty_uuid : UuidText := { uuid_string := pretty }.
#[local] Instance pretty_uuid_laws : UuidTextLaws.
Proof. constructor. intros a b. apply (inj pretty). Qed.
#[local] Instance identity_codec_laws : @TaskCodecLaws TransferTask identity_codec.
Proof. constructor. by intros t j [= ->]. Qed.

Definition empty_connection (l : list (option SqliteError)) : connection TransferTask :=
  {| rows := []; user_version := 1; quick_check := "ok"; faults := l |}.

Lemma store_simulates_map_witness :
  let started := apply_call public_task (Call_start 1) in
  let '(c, rs) := @exec _ (@sqlite_store _ identity_codec pretty_uuid)
    [Store_insert public_task; Store_swap 0 started; Store_swap 0 started]
    (empty_connection [None; Some OtherSqliteError]) in
  replay [Store_insert public_task; Store_swap 0 started; Store_swap 0 started] rs {| mem_tasks := ∅ |}
  = Some {| mem_tasks := @sqlite_view _ identity_codec pretty_uuid c |}.
Proof.
  pose proof (@store_simulates_map _ (@sqlite_store _ identity_codec pretty_uuid)
    (@sqlite_laws _ identity_codec _ pretty_uuid _)
    [Store_insert public_task; Store_swap 0 (apply_call public_task (Call_start 1));
     Store_swap 0 (apply_call public_task (Call_start 1))]
    (empty_connection [None; Some OtherSqliteError])) as Hs.
  cbv zeta. destruct (exec _ _) as [c rs] in Hs |- *. apply Hs.
  - split; constructor.
  - repeat constructor; vm_compute; discriminate.
Defined.

Section SqliteOpen.
Context {J : Type}.

Lemma sql_version : preserves user_version (sql (J := J)).
Proof.
  unfold sql, mut_map_err. intros c c' r Hs. destruct (sql_try c) eqn:Ht.
  apply sql_try_cases in Ht as [_ Ht]. by simplify_eq/=.
Qed.
#[local] Hint Resolve sql_version sql_rows : rust_effects.

Lemma sql_quick : preserves quick_check (sql (J := J)).
Proof.
  unfold sql, mut_map_err, sql_try. intros c c' r Hs.
  destruct (faults c) as [| [e |] l]; by simplify_eq/=.
Qed.

(** opening a database never loses or rebuilds data: whatever SQLite calls
    fail, the rows stay as they were; a failed open also leaves the schema
    version; an open succeeds only on an intact database of version 0 or 1 and
    ends at version 1. *)
Theorem open_preserves_database (c c' : connection J) r :
  from_connection c = (c', r) ->
  rows c' = rows c
  /\ match r with
     | Ok _ => (user_version c = 0 \/ user_version c = 1) /\ user_version c' = 1
               /\ quick_check c = "ok"%string
     | Err _ => user_version c' = user_version c
     end.
Proof.
  intros Ho. split.
  - revert Ho. generalize c c' r. change (preserves rows (from_connection (J := J))).
    unfold from_connection. solve_preserves; by apply preserves_modify.
  - destruct r as [[] | e].
    + unfold from_connection in Ho. inv_ok.
      repeat match goal with Hs : sql _ = _ |- _ =>
        pose proof (sql_quick _ _ _ Hs); apply sql_version in Hs end.
      bool_facts. repeat match goal with Hq : String.eqb _ _ = true |- _ =>
        apply String.eqb_eq in Hq end.
      repeat (case_match; inv_ok);
        repeat match goal with Hs : sql _ = _ |- _ => apply sql_version in Hs end;
        bool_facts; unfold SQLITE_TRANSFER_SCHEMA_VERSION in *; simpl;
        split_and!; (congruence || lia).
    + revert Ho. generalize c c' e. change (fails_preserving user_version (from_connection (J := J))).
      unfold from_connection. solve_fails_preserving.
Qed.
End SqliteOpen.

Lemma open_preserves_database_witness :
  user_version (from_connection (set_version 0 (empty_connection [None; None; None]))).1 = 1.
Proof.
  pose proof (open_preserves_database (set_version 0 (empty_connection [None; None; None]))
                _ _ (surjective_pairing _)) as [_ Ho].
  apply Ho.
Defined.

(** a stored row answers for its document: the row the code writes for a
    task decodes to that task, and whatever row decodes carries the id, state
    code, revision and update time of the task its document holds, so a row
    whose columns disagree with its document is reported as corrupt. *)
Theorem row_round_trip {J} `{TaskCodecLaws J} `{UuidText} t (document : J) r t' :
  0 <= revision t <= i64_max -> encode t = Ok document ->
  decode_row (row_of t document) = Ok t
  /\ (decode_row r = Ok t' ->
      from_json (row_document r) = Some t' /\ row_task_id r = uuid_string (id t')
      /\ row_revision r = revision t' /\ row_updated_at_unix_ms r = updated_at_unix_ms t'
      /\ row_state r = state_code (TransferState_kind (state t'))).
Proof.
  intros Hrev He. split.
  - apply decode_row_of; [lia | done |]. unfold checked_i64.
    by replace (in_i64 (revision t)) with true by width.
  - unfold decode_row. intros Hd. bool_facts.
    apply result_bind_ok in Hd as (task & Hj & Hd). apply result_bind_ok in Hd as (rev & Hr & Hd).
    bool_facts. injection Hd as ->.
    destruct (checked_u64 (row_revision r)) eqn:Hc; [| done]. injection Hr as <-.
    apply checked_u64_some in Hc as [-> _].
    repeat match goal with Hq : String.eqb _ _ = true |- _ => apply String.eqb_eq in Hq end.
    destruct (from_json (row_document r)); simplify_eq/=. done.
Qed.

Lemma row_round_trip_witness :
  @decode_row _ identity_codec pretty_uuid (@row_of _ pretty_uuid public_task public_task) = Ok public_task.
Proof.
  refine (proj1 (@row_round_trip _ identity_codec _ pretty_uuid public_task public_task
                   (@row_of _ pretty_uuid public_task public_task) public_task _ _)).
  - vm_compute. split; discriminate.
  - reflexivity.
Defined.
