(* ===== verification/TransferQueue.v ===== *)
(** [crates/transfers/src/queue.rs]: the queue that keeps the tasks in memory
    and writes every change through a store. *)
From S2P Require Import Prelude RemoteCore TransferModel TransferPublic TransferStore.

Definition MAX_QUEUED_TASKS : Z := 10000.
Definition MAX_CONCURRENT_TRANSFERS : Z := 64.

Record QueueLimits := {
  max_tasks : Z;
  max_concurrent : Z;
  max_concurrent_per_profile : Z;
}.

Inductive QueueLimitsError := InvalidTaskLimit | InvalidConcurrency | InvalidPerProfileConcurrency.

Definition QueueLimits_new (tasks concurrent per_profile : Z) : result QueueLimits QueueLimitsError :=
  fail_if (tasks =? 0) || (MAX_QUEUED_TASKS <? tasks) with InvalidTaskLimit in
  fail_if (concurrent =? 0) || (MAX_CONCURRENT_TRANSFERS <? concurrent) with InvalidConcurrency in
  fail_if (per_profile =? 0) || (concurrent <? per_profile) with InvalidPerProfileConcurrency in
  Ok {| max_tasks := tasks; max_concurrent := concurrent; max_concurrent_per_profile := per_profile |}.

Definition QueueLimits_default : QueueLimits :=
  {| max_tasks := 1000; max_concurrent := 4; max_concurrent_per_profile := 2 |}.

Inductive QueueError :=
| QueueFull
| TaskNotFound
| DuplicateTask (tid : TransferId)
| Mutation (e : TransferMutationError)
| Store (e : StoreError)
| InvalidPublicContract (e : TransferPublicError).

(** The order of pages and of starting: creation time, then id. *)
Definition task_le (a b : TransferTask) : Prop :=
  created_at_unix_ms a < created_at_unix_ms b
  \/ (created_at_unix_ms a = created_at_unix_ms b /\ id a <= id b).
#[export] Instance task_le_dec a b : Decision (task_le a b).
Proof. unfold task_le. apply _. Defined.

(** [Iterator::min_by_key]: the first of the least elements. *)
Fixpoint min_task (l : list TransferTask) : option TransferTask :=
  match l with
  | [] => None
  | t :: l' =>
      match min_task l' with
      | None => Some t
      | Some m => if decide (task_le t m) then Some t else Some m
      end
  end.

Section Queue.
Context {St : Type} `{TransferStore St}.

Record TransferQueue := {
  queue_store : St;
  queue_tasks : task_map;
  queue_limits : QueueLimits;
}.

Abbreviation queue_mut A := (mut TransferQueue A QueueError).

Definition put_store (s : St) (q : TransferQueue) : TransferQueue :=
  {| queue_store := s; queue_tasks := queue_tasks q; queue_limits := queue_limits q |}.
Definition put_task (t : TransferTask) (q : TransferQueue) : TransferQueue :=
  {| queue_store := queue_store q; queue_tasks := <[id t := t]> (queue_tasks q);
     queue_limits := queue_limits q |}.

Definition on_store {A} (m : mut St A StoreError) : queue_mut A :=
  zoom queue_store put_store (mut_map_err Store m).

(** The loop of [open] over the loaded tasks, and its body. *)
Definition open_task (task : TransferTask) (tasks : task_map) (now : Z)
  : mut St task_map QueueError :=
  (if is_some (tasks !! id task) then throw (DuplicateTask (id task)) else ret tt) ;;;
  let '(task', r) := recover_after_restart now task in
  change <- lift (fun _ => map_err Mutation r) ;;
  when (eqb change Changed) (mut_map_err Store (compare_and_swap (revision task) task')) ;;;
  ret (<[id task' := task']> tasks).

Fixpoint open_loop (loaded : list TransferTask) (tasks : task_map) (now : Z)
  : mut St task_map QueueError :=
  match loaded with
  | [] => ret tasks
  | task :: loaded' => tasks' <- open_task task tasks now ;; open_loop loaded' tasks' now
  end.

(** [open] consumes the store; a failed open leaves the store it was given. *)
Definition TransferQueue_open (limits : QueueLimits) (now : Z) : mut St TransferQueue QueueError :=
  loaded <- mut_map_err Store load_all ;;
  lift (fun _ => fail_if max_tasks limits <? Z.of_nat (length loaded) with QueueFull in Ok tt) ;;;
  tasks <- open_loop loaded ∅ now ;;
  gets (fun s => {| queue_store := s; queue_tasks := tasks; queue_limits := limits |}).

Definition enqueue (task : TransferTask) : queue_mut unit :=
  lift (fun q => fail_if max_tasks (queue_limits q) <=? Z.of_nat (size (queue_tasks q))
                   with QueueFull in Ok tt) ;;;
  lift (fun q => fail_if is_some (queue_tasks q !! id task) with DuplicateTask (id task) in Ok tt) ;;;
  on_store (insert_task task) ;;;
  modify (put_task task).

Definition task (tid : TransferId) (q : TransferQueue) : option TransferTask := queue_tasks q !! tid.

Definition tasks (q : TransferQueue) : list TransferTask := btree_values (queue_tasks q).

Definition matching (query : TransferQuery) (q : TransferQueue) : list TransferTask :=
  merge_sort task_le (List.filter (TransferQuery_matches query) (tasks q)).

(** [u32::try_from(consumed)] is evaluated whether or not there is more. *)
Definition page {J} `{TaskCodec J} (query : TransferQuery) (q : TransferQueue)
  : result TransferPage QueueError :=
  let? _ := map_err InvalidPublicContract (TransferQuery_validate query) in
  let all := matching query q in
  let tasks := take (Z.to_nat (q_limit query)) (drop (Z.to_nat (q_offset query)) all) in
  let consumed := q_offset query + Z.of_nat (length tasks) in
  let more := consumed <? Z.of_nat (length all) in
  let? consumed_u32 := ok_or (InvalidPublicContract Public_InvalidPage) (checked_u32 consumed) in
  let p := {| page_query := query; page_tasks := tasks; has_more := more;
              next_offset := if more then Some consumed_u32 else None |} in
  let? _ := map_err InvalidPublicContract (TransferPage_validate p) in
  Ok p.

Definition mutate {T} (tid : TransferId) (mutation : task_mut T) : queue_mut T :=
  current <- lift (fun q => ok_or TaskNotFound (queue_tasks q !! tid)) ;;
  let expected_revision := revision current in
  let '(next, r) := mutation current in
  res <- lift (fun _ => map_err Mutation r) ;;
  when (negb (revision next =? expected_revision))
    (on_store (compare_and_swap expected_revision next) ;;;
     modify (fun q => {| queue_store := queue_store q;
                         queue_tasks := <[tid := next]> (queue_tasks q);
                         queue_limits := queue_limits q |})) ;;;
  ret res.

Definition active_profiles (q : TransferQueue) : list (option ProfileId) :=
  remote_profile_id <$> List.filter (fun t => is_active (state t)) (tasks q).

Definition runnable (now : Z) (t : TransferTask) : bool :=
  match state t with
  | Queued => true
  | RetryScheduled not_before _ => not_before <=? now
  | _ => false
  end.

Definition below_profile_limit (q : TransferQueue) (t : TransferTask) : bool :=
  Z.of_nat (length (List.filter (fun p => eqb p (remote_profile_id t)) (active_profiles q)))
  <? max_concurrent_per_profile (queue_limits q).

Definition candidate (now : Z) (q : TransferQueue) : option TransferTask :=
  min_task (List.filter (fun t => runnable now t && below_profile_limit q t) (tasks q)).

Definition start_next (now : Z) : queue_mut (option RunToken) :=
  active <- gets active_profiles ;;
  full <- gets (fun q => max_concurrent (queue_limits q) <=? Z.of_nat (length active)) ;;
  if full : bool then ret None
  else
    c <- gets (candidate now) ;;
    match c with
    | None => ret None
    | Some t => token <- mutate (id t) (start now) ;; ret (Some token)
    end.
End Queue.
Arguments TransferQueue : clear implicits.
