(* ===== verification/TransferQueueFacts.v ===== *)
(** What the queue guarantees on every store that keeps the store contract:
    memory and store agree, concurrency stays within the limits, restarts
    recover every task, pages list the matching tasks once and in order, and
    the oldest runnable task starts next. *)
From S2P Require Import Prelude RemoteCore TransferModel TransferStateFacts TransferInvariant TransferPublic TransferPublicFacts TransferStore TransferStoreFacts TransferQueue.

(** ** Memory and store agree *)

Section QueueFacts.
Context {St : Type} {store : TransferStore St} {laws : StoreLaws St}.

Record queue_ok (q : TransferQueue St) : Prop := {
  ok_store : store_ok (queue_store q);
  ok_view : view (queue_store q) = queue_tasks q;
  ok_keyed : keyed (queue_tasks q);
  ok_revisions : map_Forall (fun _ t => 0 <= revision t) (queue_tasks q);
}.

(** The operations on an open queue: [enqueue], [start_next], and [mutate] with
    a method of the task. *)
Inductive queue_op :=
| Q_enqueue (t : TransferTask)
| Q_start_next (now : Z)
| Q_mutate (tid : TransferId) (c : task_call).

Definition queue_run (o : queue_op) : mut (TransferQueue St) unit QueueError :=
  match o with
  | Q_enqueue t => enqueue t
  | Q_start_next now => start_next now ;;; ret tt
  | Q_mutate tid c => mutate tid (call c) ;;; ret tt
  end.

Lemma call_id c t : id (apply_call t c) = id t /\ (0 <= revision t -> 0 <= revision (apply_call t c)).
Proof.
  destruct (apply_call_cases c t) as [(_ & Hs & _) | (_ & ->)]; [| done].
  apply step_frame in Hs. destruct_and!. split; [done |]. intros. width.
Qed.

(** [mutate] with a task mutation that keeps ids and revisions' type, on every
    outcome of the mutation and the store. *)
Lemma mutate_cases {T} tid (m : task_mut T) q q' r :
  queue_ok q ->
  (forall t, id (fst (m t)) = id t /\ (0 <= revision t -> 0 <= revision (fst (m t)))) ->
  mutate tid m q = (q', r) ->
  queue_ok q' /\ queue_limits q' = queue_limits q
  /\ (queue_tasks q' = queue_tasks q
      \/ exists t, queue_tasks q !! tid = Some t /\ is_ok r = true /\ is_ok (snd (m t)) = true
           /\ queue_tasks q' = <[tid := fst (m t)]> (queue_tasks q)).
Proof.
  intros Hok Hm Hr. unfold mutate in Hr. unfold bind at 1, lift in Hr.
  destruct (queue_tasks q !! tid) as [t |] eqn:Ht; simpl in Hr; [| injection Hr as <- <-; auto].
  destruct (Hm t) as [Hid Hpos]. pose proof (ok_keyed q Hok tid t Ht) as Hkey.
  pose proof (ok_revisions q Hok tid t Ht) as Hrev. simpl in Hrev.
  destruct (m t) as [next [x | e]] eqn:Hmt; simpl in Hid, Hpos.
  2:{ unfold bind, lift in Hr. simpl in Hr. injection Hr as <- <-. auto. }
  unfold bind, lift, when in Hr. simpl in Hr.
  destruct (revision next =? revision t); simpl in Hr.
  { unfold ret in Hr. injection Hr as <- <-. auto. }
  unfold on_store, zoom, mut_map_err, modify in Hr.
  destruct (compare_and_swap (revision t) next (queue_store q)) as [s1 r1] eqn:Hcas.
  destruct (swap_law _ _ _ _ _ (Hpos Hrev) (ok_store q Hok) Hcas) as [Hs1 Hlaw].
  destruct r1 as [[] | e]; simpl in Hr; injection Hr as <- <-; simpl.
  - destruct Hlaw as [_ Hview]. rewrite (ok_view q Hok), Hid, Hkey in Hview.
    split; [| split; [done |]; right; exists t; by rewrite Hmt].
    split; simpl; [done | done | |].
    + rewrite <- Hkey, <- Hid. apply keyed_insert, Hok.
    + apply map_Forall_insert_2; [auto | apply Hok].
  - split; [| auto]. split; simpl; [done | | apply Hok | apply Hok].
    rewrite <- (ok_view q Hok). destruct e; naive_solver.
Qed.

Lemma start_fst now t :
  fst (start now t) = apply_call t (Call_start now).
Proof.
  unfold apply_call, call, as_change, bind. by destruct (start now t) as [t' [tok | e]].
Qed.

Lemma enqueue_cases t q q' r :
  0 <= revision t -> queue_ok q -> enqueue t q = (q', r) ->
  queue_ok q' /\ queue_limits q' = queue_limits q
  /\ (queue_tasks q' = queue_tasks q
      \/ (queue_tasks q !! id t = None /\ queue_tasks q' = <[id t := t]> (queue_tasks q)
          /\ Z.of_nat (size (queue_tasks q)) < max_tasks (queue_limits q) /\ r = Ok tt)).
Proof.
  intros Hpos Hok Hr. unfold enqueue, bind, lift in Hr.
  destruct (max_tasks (queue_limits q) <=? _) eqn:Hmax; simpl in Hr; [injection Hr as <- <-; auto |].
  destruct (queue_tasks q !! id t) eqn:Ht; simpl in Hr; [injection Hr as <- <-; auto |].
  unfold on_store, zoom, mut_map_err, modify in Hr.
  destruct (insert_task t (queue_store q)) as [s1 r1] eqn:Hins.
  destruct (insert_law _ _ _ _ Hpos (ok_store q Hok) Hins) as [Hs1 Hlaw].
  destruct r1 as [[] | e]; simpl in Hr; injection Hr as <- <-.
  - destruct Hlaw as [_ Hview]. rewrite (ok_view q Hok) in Hview.
    split; [| split; [done |]; right; split_and!; try done; bool_facts; lia].
    split; simpl; [done | done | |].
    + apply keyed_insert, Hok.
    + apply map_Forall_insert_2; [done | apply Hok].
  - split; [| auto]. split; simpl; [done | | apply Hok | apply Hok].
    by rewrite <- (ok_view q Hok).
Qed.

Lemma start_next_cases now q q' r :
  queue_ok q -> start_next now q = (q', r) ->
  queue_ok q' /\ queue_limits q' = queue_limits q
  /\ (queue_tasks q' = queue_tasks q
      \/ exists t, is_ok r = true /\ candidate now q = Some t
           /\ Z.of_nat (length (active_profiles q)) < max_concurrent (queue_limits q)
           /\ queue_tasks q !! id t = Some t
           /\ is_ok (snd (start now t)) = true
           /\ queue_tasks q' = <[id t := fst (start now t)]> (queue_tasks q)).
Proof.
  intros Hok Hr. unfold start_next, bind, gets in Hr.
  destruct (max_concurrent (queue_limits q) <=? _) eqn:Hmax; [injection Hr as <- <-; auto |].
  destruct (candidate now q) as [t |] eqn:Hc; [| injection Hr as <- <-; auto].
  destruct (mutate (id t) (start now) q) as [q1 r1] eqn:Hm.
  assert (q' = q1 /\ is_ok r = is_ok r1) as [-> ->]
    by (unfold ret in Hr; destruct r1; injection Hr as <- <-; done).
  apply mutate_cases in Hm as (Hok1 & Hl & Hcase); [| done |].
  2:{ intros t'. rewrite start_fst. apply call_id. }
  split; [done |]. split; [done |].
  destruct Hcase as [Heq | (t' & Ht' & Hr1 & Hst & Heq)]; [auto | right].
  exists t. split; [by destruct r1 |]. assert (t' = t) as ->.
  { assert (t ∈ tasks q) as Hin.
    { unfold candidate in Hc. clear -Hc.
      assert (forall l, min_task l = Some t -> t ∈ l) as Hmin.
      { intros l. revert t Hc. induction l as [| a l IH]; intros t Hc Hl; simpl in Hl; [done |].
        destruct (min_task l) as [m |] eqn:Hml; [case_decide |]; simplify_eq.
        - by left.
        - right. by apply IH.
        - by left. }
      apply Hmin in Hc. apply list_elem_of_In in Hc. apply filter_In in Hc as [Hc _].
      by apply list_elem_of_In. }
    unfold tasks in Hin. apply btree_values_elem in Hin as [k Hk].
    rewrite <- (ok_keyed q Hok k t Hk) in Hk. congruence. }
  split_and!; try done. bool_facts. lia.
Qed.

Definition queue_runs (ops : list queue_op) (q : TransferQueue St) : TransferQueue St :=
  fold_left (fun q o => fst (queue_run o q)) ops q.

Definition op_typed (o : queue_op) : Prop :=
  match o with Q_enqueue t => 0 <= revision t | _ => True end.

Lemma queue_run_cases o q q' r :
  queue_ok q -> op_typed o -> queue_run o q = (q', r) ->
  queue_ok q' /\ queue_limits q' = queue_limits q
  /\ (queue_tasks q' = queue_tasks q
      \/ is_ok r = true
         /\ match o with
            | Q_enqueue t => queue_tasks q !! id t = None /\ queue_tasks q' = <[id t := t]> (queue_tasks q)
            | Q_start_next now =>
                exists t, candidate now q = Some t
                  /\ Z.of_nat (length (active_profiles q)) < max_concurrent (queue_limits q)
                  /\ queue_tasks q !! id t = Some t
                  /\ queue_tasks q' = <[id t := apply_call t (Call_start now)]> (queue_tasks q)
            | Q_mutate tid c =>
                exists t, queue_tasks q !! tid = Some t
                  /\ queue_tasks q' = <[tid := apply_call t c]> (queue_tasks q)
            end).
Proof.
  intros Hok Hty Hr. destruct o as [t | now | tid c]; simpl in Hr, Hty.
  - destruct (enqueue_cases t q q' r Hty Hok Hr) as (? & ? & Hc). naive_solver.
  - unfold bind, ret in Hr. destruct (start_next now q) as [q1 r1] eqn:Hs.
    assert (q' = q1 /\ is_ok r = is_ok r1) as [-> ->] by (destruct r1; injection Hr as <- <-; done).
    destruct (start_next_cases now q q1 r1 Hok Hs) as (? & ? & Hc). split; [done |]. split; [done |].
    destruct Hc as [? | (t & ? & ? & ? & ? & ? & Heq)]; [auto | right].
    rewrite start_fst in Heq. eauto 10.
  - unfold bind, ret in Hr. destruct (mutate tid (call c) q) as [q1 r1] eqn:Hs.
    assert (q' = q1 /\ is_ok r = is_ok r1) as [-> ->] by (destruct r1; injection Hr as <- <-; done).
    apply mutate_cases in Hs as (? & ? & Hc); [| done | intros; apply call_id].
    split; [done |]. split; [done |].
    destruct Hc as [? | (t & ? & ? & ? & ?)]; [auto | right]. eauto.
Qed.

Lemma queue_runs_ok ops q :
  queue_ok q -> Forall op_typed ops -> queue_ok (queue_runs ops q).
Proof.
  revert q. induction ops as [| o ops IH]; intros q Hok Hty; simpl; [done |].
  apply Forall_cons in Hty as [Ho Hty]. destruct (queue_run o q) as [q1 r] eqn:Hr.
  apply IH; [| done]. simpl. by apply (queue_run_cases o q q1 r).
Qed.

(** C12: memory and store never diverge: on any store that keeps the store
    contract, whatever faults it reports, after any sequence of enqueues,
    starts and task mutations the map in memory is the map in the store, and an
    operation that fails changes neither. *)
Theorem queue_memory_matches_store ops q o :
  queue_ok q -> Forall op_typed (ops ++ [o]) ->
  let q1 := queue_runs ops q in
  let '(q2, r) := queue_run o q1 in
  view (queue_store q1) = queue_tasks q1 /\ view (queue_store q2) = queue_tasks q2
  /\ (is_err r = true -> queue_tasks q2 = queue_tasks q1).
Proof.
  intros Hok Hty q1. apply Forall_app in Hty as [Hty Ho]. apply Forall_inv in Ho.
  pose proof (queue_runs_ok ops q Hok Hty) as Hok1. fold q1 in Hok1.
  destruct (queue_run o q1) as [q2 r] eqn:Hr.
  destruct (queue_run_cases o q1 q2 r Hok1 Ho Hr) as (Hok2 & _ & Hc).
  split; [by apply ok_view |]. split; [by apply ok_view |].
  intros He. destruct Hc as [? | [Hr' _]]; [done |]. unfold is_err in He. by rewrite Hr' in He.
Qed.
End QueueFacts.

Definition memory_queue (l : list TransferTask) (limits : QueueLimits) : TransferQueue InMemoryTransferStore :=
  {| queue_store := with_tasks l; queue_tasks := mem_tasks (with_tasks l); queue_limits := limits |}.

Lemma empty_memory_queue_ok limits : queue_ok (memory_queue [] limits).
Proof. by split. Qed.

Lemma queue_memory_matches_store_witness :
  let q := queue_runs [Q_enqueue public_task; Q_start_next 1] (memory_queue [] QueueLimits_default) in
  view (queue_store q) = queue_tasks q.
Proof.
  pose proof (queue_memory_matches_store [Q_enqueue public_task; Q_start_next 1]
    (memory_queue [] QueueLimits_default) (Q_mutate 1 (Call_request_cancel 2))
    (empty_memory_queue_ok QueueLimits_default)) as Hq.
  cbv zeta in Hq |- *. destruct (queue_run _ _) as [q2 r] in Hq. apply Hq.
  repeat constructor; vm_compute; discriminate.
Defined.

(** ** Concurrency limits *)

Definition count {A} (p : A -> bool) (l : list A) : nat := length (List.filter p l).

Lemma count_perm {A} (p : A -> bool) l l' : l ≡ₚ l' -> count p l = count p l'.
Proof.
  unfold count. induction 1 as [| x l l' _ IH | x y l | l1 l2 l3 _ IH1 _ IH2]; simpl; [done | | |].
  - destruct (p x); simpl; congruence.
  - by destruct (p x), (p y).
  - congruence.
Qed.

Lemma count_cons {A} (p : A -> bool) a l : count p (a :: l) = ((if p a then 1 else 0) + count p l)%nat.
Proof. unfold count. simpl. by case_match. Qed.

Lemma count_fmap_filter {A B} (f : A -> B) (h : A -> bool) (g : B -> bool) l :
  count g (f <$> List.filter h l) = count (fun x => h x && g (f x)) l.
Proof.
  unfold count. induction l as [| a l IH]; simpl; [done |].
  destruct (h a); [rewrite fmap_cons; simpl; destruct (g (f a)); simpl; by rewrite IH | done].
Qed.

Lemma count_insert (p : TransferTask -> bool) (m : task_map) k t t' :
  m !! k = Some t ->
  (count p (btree_values (<[k := t']> m)) + (if p t then 1 else 0)
   = count p (btree_values m) + (if p t' then 1 else 0))%nat.
Proof.
  intros Hk. rewrite (count_perm p _ _ (btree_values_delete m k t Hk)), count_cons.
  assert (<[k := t']> m !! k = Some t') as Hk' by apply lookup_insert_eq.
  rewrite (count_perm p _ _ (btree_values_delete _ k t' Hk')), count_cons.
  rewrite delete_insert_eq. lia.
Qed.

Lemma count_insert_new (p : TransferTask -> bool) (m : task_map) k t' :
  m !! k = None ->
  count p (btree_values (<[k := t']> m)) = (count p (btree_values m) + (if p t' then 1 else 0))%nat.
Proof.
  intros Hk. rewrite (count_perm p _ _ (btree_values_insert_new m k t' Hk)), count_cons. lia.
Qed.

Definition active_for (p : option ProfileId) (t : TransferTask) : bool :=
  is_active (state t) && eqb (remote_profile_id t) p.

Definition is_start (c : task_call) : bool := match c with Call_start _ => true | _ => false end.

(** Only [start] makes a task active; no call moves it to another profile. *)
Lemma call_activity c t :
  is_start c = false -> is_active (state (apply_call t c)) = true -> is_active (state t) = true.
Proof.
  intros Hc Ha. destruct (apply_call_cases c t) as [(_ & Hs & _) | (_ & Heq)]; [| by rewrite <- Heq].
  destruct Hs; simpl in *; try done; unfold is_active, is_running_or_pausing in *;
    repeat match goal with H : state ?t = _ |- _ => rewrite H in * end; try done;
    by destruct (state _).
Qed.

Lemma call_profile c t : remote_profile_id (apply_call t c) = remote_profile_id t.
Proof.
  destruct (apply_call_cases c t) as [(_ & Hs & _) | (_ & ->)]; [| done].
  apply step_frame in Hs. unfold remote_profile_id. destruct_and!. congruence.
Qed.

Section Concurrency.
Context {St : Type} {store : TransferStore St} {laws : StoreLaws St}.

Definition within_limits (q : TransferQueue St) : Prop :=
  Z.of_nat (count (fun t => is_active (state t)) (tasks q)) <= max_concurrent (queue_limits q)
  /\ forall p, Z.of_nat (count (active_for p) (tasks q)) <= max_concurrent_per_profile (queue_limits q).

(** Tasks are enqueued idle and started by [start_next] only. *)
Definition op_admissible (o : queue_op) : Prop :=
  match o with
  | Q_enqueue t => 0 <= revision t /\ is_active (state t) = false
  | Q_start_next _ => True
  | Q_mutate _ c => is_start c = false
  end.

Lemma candidate_elem now (q : TransferQueue St) t :
  candidate now q = Some t ->
  t ∈ tasks q /\ runnable now t = true /\ below_profile_limit q t = true
  /\ forall u, u ∈ tasks q -> runnable now u = true -> below_profile_limit q u = true -> task_le t u.
Proof.
  unfold candidate. intros Hc.
  assert (forall l m, min_task l = Some m -> m ∈ l /\ forall u, u ∈ l -> task_le m u) as Hmin.
  { intros l. induction l as [| a l IH]; intros m Hm; simpl in Hm; [done |].
    destruct (min_task l) as [m' |] eqn:Hl.
    - destruct (IH m' eq_refl) as [Hin Hle]. case_decide as Hd; injection Hm as <-.
      + split; [by left |]. intros u [-> | Hu]%elem_of_cons; [unfold task_le; lia |].
        specialize (Hle u Hu). unfold task_le in *. lia.
      + split; [by right |]. intros u [-> | Hu]%elem_of_cons; [unfold task_le in *; lia | by apply Hle].
    - injection Hm as <-. split; [by left |]. intros u [-> | Hu]%elem_of_cons; [unfold task_le; lia |].
      destruct l as [| b l]; [by apply elem_of_nil in Hu | simpl in Hl; repeat case_match; discriminate]. }
  apply Hmin in Hc as [Hin Hle].
  apply list_elem_of_In, filter_In in Hin as [Hin Hp]. apply list_elem_of_In in Hin. bool_facts.
  split_and!; try done. intros u Hu Hr Hb. apply Hle, list_elem_of_In, filter_In.
  split; [by apply list_elem_of_In |]. by rewrite Hr, Hb.
Qed.

Lemma below_limit_count (q : TransferQueue St) t :
  below_profile_limit q t = true ->
  Z.of_nat (count (active_for (remote_profile_id t)) (tasks q)) < max_concurrent_per_profile (queue_limits q).
Proof.
  unfold below_profile_limit, active_profiles. fold (@count (option Z)). intros Hb. bool_facts.
  change (length (List.filter ?p ?l)) with (count p l) in Hb. by rewrite count_fmap_filter in Hb.
Qed.

Lemma queue_run_limits o q q' r :
  queue_ok q -> op_admissible o -> within_limits q -> queue_run o q = (q', r) -> within_limits q'.
Proof.
  intros Hok Ho [Htot Hper] Hr.
  assert (op_typed o) as Hty by (destruct o; simpl in *; naive_solver).
  destruct (queue_run_cases o q q' r Hok Hty Hr) as (_ & Hlim & Hc).
  unfold within_limits, tasks in *. rewrite Hlim. destruct Hc as [-> | [_ Hc]]; [done |].
  destruct o as [t | now | tid c]; simpl in Ho.
  - destruct Hc as [Hnew ->]. destruct Ho as [_ Ho]. rewrite count_insert_new, Ho by done.
    split; [lia |]. intros p. rewrite count_insert_new by done. unfold active_for at 2.
    rewrite Ho. simpl. specialize (Hper p). lia.
  - destruct Hc as (t & Hcand & Hlt & Hl & ->). apply candidate_elem in Hcand as (_ & _ & Hb & _).
    apply below_limit_count in Hb. unfold tasks in Hb.
    assert (length (active_profiles q) = count (fun t => is_active (state t)) (btree_values (queue_tasks q))) as Hlen
      by (unfold active_profiles, count, tasks; by rewrite length_fmap).
    split.
    + pose proof (count_insert (fun t => is_active (state t)) _ _ t (apply_call t (Call_start now)) Hl) as Hn.
      simpl in Hn. repeat case_match; lia.
    + intros p. pose proof (count_insert (active_for p) _ _ t (apply_call t (Call_start now)) Hl) as Hn.
      specialize (Hper p). unfold active_for at 2 4 in Hn. rewrite call_profile in Hn.
      destruct (eqb (remote_profile_id t) p) eqn:Hp.
      * bool_facts. subst p. repeat case_match; lia.
      * rewrite !andb_false_r in Hn. lia.
  - destruct Hc as (t & Hl & ->). split.
    + pose proof (count_insert (fun t => is_active (state t)) _ _ t (apply_call t c) Hl) as Hn.
      simpl in Hn. pose proof (call_activity c t Ho).
      destruct (is_active (state t)), (is_active (state (apply_call t c))); try lia; naive_solver.
    + intros p. pose proof (count_insert (active_for p) _ _ t (apply_call t c) Hl) as Hn.
      specialize (Hper p). unfold active_for at 2 4 in Hn. rewrite call_profile in Hn.
      pose proof (call_activity c t Ho).
      destruct (is_active (state t)), (is_active (state (apply_call t c))), (eqb _ p); simpl in *;
        try lia; naive_solver.
Qed.

(** the concurrency limits hold throughout: starting within the limits,
    after any sequence of enqueues of idle tasks, [start_next]s and task
    mutations, on any store and with any faults, at most [max_concurrent] tasks
    are active, and at most [max_concurrent_per_profile] on any one profile. *)
Theorem concurrency_stays_within_limits ops q :
  queue_ok q -> within_limits q -> Forall op_admissible ops -> within_limits (queue_runs ops q).
Proof.
  revert q. induction ops as [| o ops IH]; intros q Hok Hw Hops; simpl; [done |].
  apply Forall_cons in Hops as [Ho Hops]. destruct (queue_run o q) as [q1 r] eqn:Hr.
  apply IH; [| | done].
  - simpl. apply (queue_run_cases o q q1 r); [done | | done]. destruct o; simpl in *; naive_solver.
  - simpl. by eapply queue_run_limits.
Qed.
End Concurrency.

Definition numbered_task (n : Z) : TransferTask :=
  {| id := n; source := Local 2;
     destination := Remote {| ep_profile_id := 3; ep_protocol := Sftp; ep_path := demo_path |};
     direction := Upload; expected_source := None; expected_destination := None;
     state := Queued; progress := TransferProgress_pending (Some 4);
     retry_policy := {| max_attempts := 1; initial_backoff_ms := 1000; max_backoff_ms := 1000 |};
     completed_attempts := 0; bandwidth_limit := BandwidthLimit_unlimited;
     conflict_policy := Policy_Fail; features := public_features; revision := 0; generation := 0;
     created_at_unix_ms := n; updated_at_unix_ms := n |}.

Lemma concurrency_stays_within_limits_witness :
  within_limits (queue_runs
    [Q_enqueue (numbered_task 1); Q_enqueue (numbered_task 2); Q_enqueue (numbered_task 3);
     Q_start_next 5; Q_start_next 5; Q_start_next 5] (memory_queue [] QueueLimits_default)).
Proof.
  apply concurrency_stays_within_limits.
  - apply empty_memory_queue_ok.
  - split; [vm_compute; discriminate |]. intros p. vm_compute. discriminate.
  - repeat constructor; vm_compute; discriminate.
Defined.

(** ** Opening *)

Definition recovered (now : Z) (t : TransferTask) : TransferTask :=
  apply_call t (Call_recover_after_restart now).

Section Open.
Context {St : Type} {store : TransferStore St} {laws : StoreLaws St}.

(** The store after the loop ran over [loaded]: those tasks are recovered or as
    they were, all others untouched. *)
Definition partly_recovered (now : Z) (loaded : list TransferTask) (m m' : task_map) : Prop :=
  (forall k, (forall t, t ∈ loaded -> id t <> k) -> m' !! k = m !! k)
  /\ forall t, t ∈ loaded -> m' !! id t = Some t \/ m' !! id t = Some (recovered now t).

Lemma recover_frame now t :
  id (recovered now t) = id t /\ (0 <= revision t -> 0 <= revision (recovered now t)).
Proof. apply call_id. Qed.

Lemma recover_result now t t' r :
  recover_after_restart now t = (t', r) ->
  match r with
  | Ok _ => t' = recovered now t /\ updated_at_unix_ms t <= now
  | Err _ => True
  end.
Proof.
  intros Hr. destruct r as [ch | e]; [| done].
  assert (call (Call_recover_after_restart now) t = (t', Ok ch)) as Hc by done.
  split; [unfold recovered, apply_call; by rewrite Hc | by apply call_ok_time in Hc].
Qed.

Lemma recovered_idle now t t' :
  recover_after_restart now t = (t', Ok Unchanged) -> recovered now t = t.
Proof.
  intros Hr. assert (call (Call_recover_after_restart now) t = (t', Ok Unchanged)) as Hc by done.
  unfold recovered, apply_call. rewrite Hc. simpl. by apply call_unchanged in Hc.
Qed.

Lemma open_task_spec now t tasks s s1 r :
  store_ok s -> view s !! id t = Some t -> 0 <= revision t ->
  open_task t tasks now s = (s1, r) ->
  store_ok s1 /\ (view s1 = view s \/ view s1 = <[id t := recovered now t]> (view s))
  /\ forall m, r = Ok m ->
       m = <[id t := recovered now t]> tasks /\ view s1 !! id t = Some (recovered now t)
       /\ updated_at_unix_ms t <= now.
Proof.
  intros Hok Hvt Hpos Hr. unfold open_task in Hr. destruct (recover_frame now t) as [Hid Hp].
  unfold bind at 1 in Hr. destruct (is_some (tasks !! id t)).
  { unfold throw in Hr. injection Hr as <- <-. naive_solver. }
  unfold ret in Hr. destruct (recover_after_restart now t) as [t' rr] eqn:Hrec.
  pose proof (recover_result _ _ _ _ Hrec) as Hres.
  unfold bind at 1, lift in Hr. destruct rr as [ch | e]; simpl in Hr.
  2:{ injection Hr as <- <-. naive_solver. }
  destruct Hres as [-> Htime]. unfold bind, when in Hr. destruct ch.
  - change (eqb Changed Changed) with true in Hr. unfold mut_map_err in Hr.
    destruct (compare_and_swap (revision t) (recovered now t) s) as [s2 r2] eqn:Hcas.
    destruct (swap_law _ _ _ _ _ (Hp Hpos) Hok Hcas) as [Hok2 Hlaw].
    destruct r2 as [[] | e]; simpl in Hr; injection Hr as <- <-; (split; [done |]).
    + destruct Hlaw as [_ Hview]. rewrite Hid in *. split; [by right |]. intros m [= <-].
      split; [done |]. split; [| done]. rewrite Hview. apply lookup_insert_eq.
    + split; [| done]. left. destruct e; naive_solver.
  - change (eqb Unchanged Changed) with false in Hr. unfold ret in Hr. injection Hr as <- <-.
    apply recovered_idle in Hrec. rewrite Hrec. split; [done |]. split; [by left |].
    by intros m [= <-].
Qed.

Lemma open_loop_spec now loaded tasks s s' r :
  store_ok s -> NoDup (id <$> loaded) ->
  (forall t, t ∈ loaded -> view s !! id t = Some t /\ 0 <= revision t) ->
  open_loop loaded tasks now s = (s', r) ->
  store_ok s' /\ partly_recovered now loaded (view s) (view s')
  /\ forall m, r = Ok m ->
       m = fold_left (fun m t => <[id t := recovered now t]> m) loaded tasks
       /\ forall t, t ∈ loaded -> view s' !! id t = Some (recovered now t) /\ updated_at_unix_ms t <= now.
Proof.
  revert tasks s. induction loaded as [| t loaded IH]; intros tasks s Hok Hnd Hv Hr; simpl in Hr.
  { injection Hr as <- <-. split; [done |]. split.
    - split; [done |]. intros t Ht. by apply elem_of_nil in Ht.
    - intros m [= <-]. split; [done |]. intros t Ht. by apply elem_of_nil in Ht. }
  rewrite fmap_cons in Hnd. apply NoDup_cons in Hnd as [Hnew Hnd].
  assert (Hne : forall u, u ∈ loaded -> id u <> id t).
  { intros u Hu Heq. apply Hnew, list_elem_of_fmap. by exists u. }
  destruct (Hv t ltac:(by left)) as [Hvt Hpos]. unfold bind in Hr.
  destruct (open_task t tasks now s) as [s1 r1] eqn:Ht.
  destruct (open_task_spec _ _ _ _ _ _ Hok Hvt Hpos Ht) as (Hok1 & Hview & Hm1).
  assert (Hv1 : view s1 !! id t = Some t \/ view s1 !! id t = Some (recovered now t)).
  { destruct Hview as [-> | ->]; [by left | right; apply lookup_insert_eq]. }
  assert (Hv2 : forall k, k <> id t -> view s1 !! k = view s !! k).
  { intros k Hk. destruct Hview as [-> | ->]; [done | by apply lookup_insert_ne]. }
  destruct r1 as [m1 | e].
  2:{ injection Hr as <- <-. split; [done |]. split; [| done]. split.
      - intros k Hk. apply Hv2. intros ->. by apply (Hk t); [left |].
      - intros u [-> | Hu]%elem_of_cons; [done |]. left. rewrite Hv2 by (by apply Hne).
        apply Hv. by right. }
  destruct (Hm1 m1 eq_refl) as (-> & Hrec & Htime).
  assert (Hv' : forall u, u ∈ loaded -> view s1 !! id u = Some u /\ 0 <= revision u).
  { intros u Hu. rewrite Hv2 by (by apply Hne). apply Hv. by right. }
  destruct (IH _ s1 Hok1 Hnd Hv' Hr) as (Hok' & [Hout Hin] & Hm).
  assert (Ht' : view s' !! id t = Some (recovered now t)).
  { rewrite Hout; [done |]. intros u Hu. by apply Hne. }
  split; [done |]. split; [split |].
  - intros k Hk. rewrite Hout; [apply Hv2; intros ->; by apply (Hk t); [left |] |].
    intros u Hu. apply Hk. by right.
  - intros u [-> | Hu]%elem_of_cons; [by right | by apply Hin].
  - intros m Hrm. destruct (Hm m Hrm) as [-> Hall]. split; [done |].
    intros u [-> | Hu]%elem_of_cons; [done | by apply Hall].
Qed.

Lemma fold_insert_out (f : TransferTask -> TransferTask) l (m : task_map) k :
  (forall t, t ∈ l -> id t <> k) -> fold_left (fun m t => <[id t := f t]> m) l m !! k = m !! k.
Proof.
  revert m. induction l as [| a l IH]; intros m Hk; simpl; [done |].
  rewrite IH by (intros; apply Hk; by right). apply lookup_insert_ne, Hk. by left.
Qed.

Lemma fold_insert_in (f : TransferTask -> TransferTask) l (m : task_map) t :
  NoDup (id <$> l) -> t ∈ l -> fold_left (fun m t => <[id t := f t]> m) l m !! id t = Some (f t).
Proof.
  revert m. induction l as [| a l IH]; intros m Hnd Ht; simpl; [by apply elem_of_nil in Ht |].
  rewrite fmap_cons in Hnd. apply NoDup_cons in Hnd as [Ha Hnd].
  apply elem_of_cons in Ht as [-> | Ht]; [| by apply IH].
  rewrite fold_insert_out; [apply lookup_insert_eq |]. intros u Hu Heq.
  apply Ha, list_elem_of_fmap. by exists u.
Qed.

Lemma loaded_size (m : task_map) (l : list TransferTask) :
  NoDup (id <$> l) -> (forall k t, m !! k = Some t <-> t ∈ l /\ k = id t) -> size m = length l.
Proof.
  intros Hnd Hin. assert (m = list_to_map ((fun t => (id t, t)) <$> l)) as ->.
  { apply map_eq. intros k. apply option_eq. intros t. rewrite Hin, <- elem_of_list_to_map.
    - rewrite list_elem_of_fmap. naive_solver.
    - by rewrite <- list_fmap_compose. }
  rewrite map_size_list_to_map; [by rewrite !length_fmap |]. by rewrite <- list_fmap_compose.
Qed.

Lemma open_loads now limits s s' r :
  store_ok s -> map_Forall (fun _ t => 0 <= revision t) (view s) ->
  TransferQueue_open limits now s = (s', r) ->
  store_ok s'
  /\ (forall k, match view s !! k with
                | None => view s' !! k = None
                | Some t => view s' !! k = Some t \/ view s' !! k = Some (recovered now t)
                end)
  /\ forall q, r = Ok q ->
       queue_store q = s' /\ queue_limits q = limits /\ queue_tasks q = view s'
       /\ Z.of_nat (size (view s)) <= max_tasks limits
       /\ forall k t, view s !! k = Some t ->
            queue_tasks q !! k = Some (recovered now t) /\ updated_at_unix_ms t <= now.
Proof.
  intros Hok Hpos Ho. unfold TransferQueue_open in Ho. unfold bind at 1, mut_map_err in Ho.
  destruct (load_all s) as [s1 r1] eqn:Hl.
  destruct (load_all_law _ _ _ Hok Hl) as (Hok1 & Hv1 & Hres).
  destruct r1 as [loaded | e]; simpl in Ho.
  2:{ injection Ho as <- <-. split; [done |]. split; [| done]. intros k. rewrite Hv1.
      destruct (view s !! k); auto. }
  destruct (Hres loaded eq_refl) as [Hnd Hin]. unfold bind at 1, lift in Ho.
  destruct (max_tasks limits <? Z.of_nat (length loaded)) eqn:Hmax; simpl in Ho.
  { injection Ho as <- <-. split; [done |]. split; [| done]. intros k. rewrite Hv1.
    destruct (view s !! k); auto. }
  unfold bind in Ho. destruct (open_loop loaded ∅ now s1) as [s2 r2] eqn:Hloop.
  assert (Hv : forall t, t ∈ loaded -> view s1 !! id t = Some t /\ 0 <= revision t).
  { intros t Ht. rewrite Hv1. assert (view s !! id t = Some t) as Hvt by (by apply Hin).
    split; [done | by apply (Hpos _ _ Hvt)]. }
  destruct (open_loop_spec _ _ _ _ _ _ Hok1 Hnd Hv Hloop) as (Hok2 & [Hout Hpart] & Hm).
  assert (Hnone : forall k, view s !! k = None -> forall t, t ∈ loaded -> id t <> k).
  { intros k Hk t Ht <-. rewrite (proj2 (Hin _ t) (conj Ht eq_refl)) in Hk. done. }
  assert (s' = s2) as -> by (destruct r2; simpl in Ho; unfold gets in Ho; congruence).
  split; [done |]. split.
  - intros k. destruct (view s !! k) as [t |] eqn:Hk.
    + apply Hin in Hk as [Ht ->]. by apply Hpart.
    + rewrite Hout, Hv1 by (by apply Hnone). done.
  - intros q ->. destruct r2 as [m |]; [| discriminate Ho]. unfold gets in Ho.
    injection Ho as <-. simpl. destruct (Hm m eq_refl) as [-> Hall].
    assert (Hlook : forall k t, view s !! k = Some t ->
      fold_left (fun m t => <[id t := recovered now t]> m) loaded (∅ : task_map) !! k = Some (recovered now t)).
    { intros k t Hk. apply Hin in Hk as [Ht ->]. by apply fold_insert_in. }
    split_and!; try done.
    + apply map_eq. intros k. destruct (view s !! k) as [t |] eqn:Hk.
      * rewrite (Hlook _ _ Hk). apply Hin in Hk as [Ht ->]. symmetry. by apply Hall.
      * rewrite Hout, Hv1, Hk by (by apply Hnone).
        rewrite fold_insert_out by (by apply Hnone). apply lookup_empty.
    + bool_facts. rewrite (loaded_size _ loaded) by done. lia.
    + intros k t Hk. split; [by apply Hlook |]. apply Hin in Hk as [Ht ->]. by apply Hall.
Qed.

(** opening the queue recovers every stored task or opens nothing: on
    success the queue holds exactly the stored tasks, each put through
    [recover_after_restart] and written back, none of them active, within the
    task limit and with nothing dated after [now]; on failure - a full queue, a
    task from the future, any store fault - every task in the store is as it was
    or already recovered, and none is lost or added. *)
Theorem open_recovers_every_task limits now s s' r :
  store_ok s -> map_Forall (fun _ t => 0 <= revision t) (view s) ->
  TransferQueue_open limits now s = (s', r) ->
  match r with
  | Ok q =>
      queue_ok q /\ queue_store q = s' /\ queue_tasks q = recovered now <$> view s
      /\ map_Forall (fun _ t => is_active (state t) = false) (queue_tasks q)
      /\ map_Forall (fun _ t => updated_at_unix_ms t <= now) (view s)
      /\ Z.of_nat (size (view s)) <= max_tasks limits
  | Err _ =>
      forall k, match view s !! k with
                | None => view s' !! k = None
                | Some t => view s' !! k = Some t \/ view s' !! k = Some (recovered now t)
                end
  end.
Proof.
  intros Hok Hpos Ho. destruct (open_loads _ _ _ _ _ Hok Hpos Ho) as (Hok' & Hpart & Hq).
  destruct r as [q | e]; [| done]. destruct (Hq q eq_refl) as (<- & _ & Hview & Hsize & Hall).
  assert (Htasks : queue_tasks q = recovered now <$> view s).
  { apply map_eq. intros k. rewrite lookup_fmap. destruct (view s !! k) as [t |] eqn:Hk; simpl.
    - by apply Hall.
    - specialize (Hpart k). rewrite Hk in Hpart. by rewrite Hview. }
  assert (Hrec : forall k t', queue_tasks q !! k = Some t' ->
    exists t, view s !! k = Some t /\ t' = recovered now t /\ updated_at_unix_ms t <= now).
  { intros k t' Hk. rewrite Htasks, lookup_fmap in Hk.
    destruct (view s !! k) as [t |] eqn:Hv; [| done]. injection Hk as <-. exists t.
    split_and!; try done. by apply (Hall k). }
  split_and!; try done.
  - split; [done | done | |].
    + intros k t' Hk. destruct (Hrec _ _ Hk) as (t & Hv & -> & _).
      rewrite (proj1 (recover_frame now t)).
      destruct (load_all s) as [s1 r1] eqn:Hl. destruct (load_all_law _ _ _ Hok Hl) as (_ & _ & Hres).
      unfold TransferQueue_open, bind at 1, mut_map_err in Ho. rewrite Hl in Ho.
      destruct r1 as [loaded | e]; [| discriminate Ho].
      by apply (proj2 (Hres loaded eq_refl)) in Hv as [_ ->].
    + intros k t' Hk. destruct (Hrec _ _ Hk) as (t & Hv & -> & _).
      apply recover_frame, (Hpos _ _ Hv).
  - intros k t' Hk. destruct (Hrec _ _ Hk) as (t & _ & -> & Ht). unfold recovered, apply_call.
    simpl. unfold recover_after_restart, bind, check_time, lift, gets, ret, modify.
    rewrite (proj2 (Z.ltb_ge _ _)) by done. by destruct (is_active (state t)) eqn:Ha.
  - intros k t Hk. by apply (Hall k).
Qed.
End Open.

Lemma open_recovers_every_task_witness :
  match (TransferQueue_open QueueLimits_default 9
          (with_tasks [apply_call (numbered_task 1) (Call_start 2); numbered_task 3])).2 with
  | Ok q => map_Forall (fun _ t => is_active (state t) = false) (queue_tasks q)
  | Err _ => False
  end.
Proof.
  pose proof (open_recovers_every_task QueueLimits_default 9
    (with_tasks [apply_call (numbered_task 1) (Call_start 2); numbered_task 3])
    _ _ ltac:(by apply (bool_decide_unpack _)) ltac:(by apply (bool_decide_unpack _))
    (surjective_pairing _)) as Ho.
  assert (is_ok (TransferQueue_open QueueLimits_default 9
    (with_tasks [apply_call (numbered_task 1) (Call_start 2); numbered_task 3])).2 = true) as Hr
    by (vm_compute; reflexivity).
  destruct (TransferQueue_open _ _ _).2; [apply Ho | discriminate Hr].
Defined.

(** ** Starting in order *)

Section Order.
Context {St : Type} {store : TransferStore St} {laws : StoreLaws St}.

(** [start_next] starts the oldest runnable task: when it answers a token,
    a task that was queued or whose retry was due now runs under that token,
    its profile was below its limit, every other task that could have run was
    created later (or at the same time with a greater id), and no other task
    changed; when it answers no token, nothing changed. *)
Theorem start_next_starts_oldest now (q q' : TransferQueue St) r :
  queue_ok q -> start_next now q = (q', Ok r) ->
  match r with
  | None => queue_tasks q' = queue_tasks q
  | Some token =>
      exists t t', queue_tasks q !! id t = Some t /\ runnable now t = true
        /\ below_profile_limit q t = true
        /\ (forall u, u ∈ tasks q -> runnable now u = true -> below_profile_limit q u = true ->
             task_le t u)
        /\ start now t = (t', Ok token) /\ state t' = Running /\ token = token_of t'
        /\ (revision t < u64_max -> queue_tasks q' = <[id t := t']> (queue_tasks q))
  end.
Proof.
  intros Hok Hr. unfold start_next, bind, gets in Hr.
  destruct (max_concurrent (queue_limits q) <=? _); [by injection Hr as <- <- |].
  destruct (candidate now q) as [t |] eqn:Hc; [| by injection Hr as <- <-].
  destruct (mutate (id t) (start now) q) as [q1 r1] eqn:Hm. destruct r1 as [token |]; [| discriminate Hr].
  unfold ret in Hr. injection Hr as <- <-.
  destruct (candidate_elem now q t Hc) as (Hin & Hrun & Hbelow & Hmin).
  assert (Hl : queue_tasks q !! id t = Some t).
  { unfold tasks in Hin. apply btree_values_elem in Hin as [k Hk].
    by rewrite (ok_keyed q Hok k t Hk). }
  unfold mutate, bind at 1, lift in Hm. rewrite Hl in Hm. simpl in Hm.
  destruct (start now t) as [t' [tok | e]] eqn:Hs; simpl in Hm; [| discriminate Hm].
  destruct (start_step _ _ _ _ Hs) as [Hstep ->].
  exists t, t'. unfold bind, lift in Hm. simpl in Hm.
  assert (revision t' = sat_u64 (revision t + 1)) as Hrev by (inversion Hstep; done).
  assert (token = token_of t' /\ (revision t < u64_max -> queue_tasks q1 = <[id t := t']> (queue_tasks q)))
    as [-> Hq].
  { unfold when in Hm. destruct (revision t' =? revision t) eqn:Heq; simpl in Hm.
    - unfold ret in Hm. injection Hm as <- <-. split; [done |]. intros Hlt. exfalso. bool_facts.
      pose proof (ok_revisions q Hok _ _ Hl) as Hpos. simpl in Hpos. width.
    - unfold on_store, zoom, mut_map_err, modify, ret in Hm.
      destruct (compare_and_swap _ _ _) as [s1 [[] | e]]; simpl in Hm; [| discriminate Hm].
      injection Hm as <- <-. done. }
  split_and!; try done. by inversion Hstep.
Qed.

(** an exhausted task at the head of the queue blocks every other one: if
    the oldest runnable task has no attempts left, [start_next] fails with
    [RetryExhausted] and changes nothing, whatever else is ready to run. *)
Theorem exhausted_head_blocks_queue now (q : TransferQueue St) t :
  queue_ok q ->
  Z.of_nat (length (active_profiles q)) < max_concurrent (queue_limits q) ->
  candidate now q = Some t -> updated_at_unix_ms t <= now ->
  max_attempts (retry_policy t) <= completed_attempts t ->
  start_next now q = (q, Err (Mutation RetryExhausted)).
Proof.
  intros Hok Hact Hc Ht Hmax.
  destruct (candidate_elem now q t Hc) as (Hin & Hrun & _).
  assert (Hl : queue_tasks q !! id t = Some t).
  { unfold tasks in Hin. apply btree_values_elem in Hin as [k Hk].
    by rewrite (ok_keyed q Hok k t Hk). }
  assert (Hs : start now t = (t, Err RetryExhausted)).
  { unfold start, bind, check_time, lift, gets. rewrite (proj2 (Z.ltb_ge _ _) Ht).
    unfold runnable in Hrun. destruct (state t); try discriminate Hrun;
      rewrite ?Hrun; unfold ret; by rewrite (proj2 (Z.leb_le _ _) Hmax). }
  assert (Hm : mutate (id t) (start now) q = (q, Err (Mutation RetryExhausted))).
  { unfold mutate, bind, lift. rewrite Hl. simpl. by rewrite Hs. }
  unfold start_next, bind, gets. rewrite (proj2 (Z.leb_gt _ _) Hact), Hc. by rewrite Hm.
Qed.
End Order.

Definition two_task_runs : list queue_op :=
  [Q_enqueue (numbered_task 1); Q_enqueue (numbered_task 2); Q_start_next 5].

Lemma start_next_starts_oldest_witness :
  let q := queue_runs [Q_enqueue (numbered_task 2); Q_enqueue (numbered_task 1)]
             (memory_queue [] QueueLimits_default) in
  exists t t', queue_tasks q !! id t = Some t /\ start 5 t = (t', Ok (demo_token 1)).
Proof.
  intros q. destruct (start_next 5 q) as [q' r] eqn:Hs.
  assert (r = Ok (Some (demo_token 1))) as -> by (revert Hs; vm_compute; congruence).
  pose proof (start_next_starts_oldest 5 q q' (Some (demo_token 1))) as H.
  destruct H as (t & t' & H1 & _ & _ & _ & H2 & _).
  - apply queue_runs_ok; [apply empty_memory_queue_ok |]. repeat constructor; vm_compute; discriminate.
  - exact Hs.
  - by exists t, t'.
Defined.

(** The task resolves a conflict after its only attempt and is queued again,
    ahead of a task that could run. *)
Definition blocked_queue : TransferQueue InMemoryTransferStore :=
  queue_runs (two_task_runs
    ++ [Q_mutate 1 (Call_enter_conflict (demo_token 1) demo_conflict 6);
        Q_mutate 1 (Call_resolve_conflict Policy_Overwrite 7)])
    (memory_queue [] QueueLimits_default).

Lemma exhausted_head_blocks_queue_witness :
  runnable 8 (numbered_task 2) = true /\ queue_tasks blocked_queue !! 2 = Some (numbered_task 2)
  /\ start_next 8 blocked_queue = (blocked_queue, Err (Mutation RetryExhausted)).
Proof.
  split; [done |]. split; [by vm_compute |].
  destruct (candidate 8 blocked_queue) as [t |] eqn:Hc; [| by vm_compute in Hc].
  apply (exhausted_head_blocks_queue 8 blocked_queue t).
  - apply queue_runs_ok; [apply empty_memory_queue_ok |]. repeat constructor; vm_compute; discriminate.
  - by vm_compute.
  - exact Hc.
  - vm_compute in Hc. injection Hc as <-. vm_compute. discriminate.
  - vm_compute in Hc. injection Hc as <-. vm_compute. discriminate.
Defined.

(** ** Pages *)

Section Pages.
Context {St : Type} {store : TransferStore St} {laws : StoreLaws St}.
Context {J : Type} {codec : TaskCodec J}.

Definition all_public (q : TransferQueue St) : Prop :=
  forall t, t ∈ tasks q -> validate_public t = Ok tt.

Lemma matching_elem query (q : TransferQueue St) t :
  t ∈ matching query q <-> t ∈ tasks q /\ TransferQuery_matches query t = true.
Proof.
  unfold matching. rewrite merge_sort_Permutation.
  by rewrite !list_elem_of_In, filter_In.
Qed.

#[local] Instance task_le_total : Total task_le.
Proof. intros a b. unfold task_le. lia. Qed.
#[local] Instance task_le_trans : Transitive task_le.
Proof. intros a b c. unfold task_le. lia. Qed.

Lemma matching_sorted query (q : TransferQueue St) : StronglySorted task_le (matching query q).
Proof. apply StronglySorted_merge_sort; apply _. Qed.

Lemma matching_NoDup query (q : TransferQueue St) : queue_ok q -> NoDup (matching query q).
Proof.
  intros Hok. unfold matching. rewrite merge_sort_Permutation.
  assert (NoDup (tasks q)) as Hnd.
  { destruct (keyed_values _ (ok_keyed q Hok)) as [Hnd _]. exact (NoDup_fmap_1 id _ Hnd). }
  clear Hok. induction (tasks q) as [| a l IH]; simpl; [constructor |].
  apply NoDup_cons in Hnd as [Ha Hnd]. case_match; [| by apply IH].
  apply NoDup_cons. split; [| by apply IH]. rewrite list_elem_of_In, filter_In, <- list_elem_of_In.
  naive_solver.
Qed.

(** A valid query on a queue of public tasks always gets its slice. *)
Lemma page_slice query (q : TransferQueue St) :
  all_public q -> TransferQuery_validate query = Ok tt -> 0 <= q_limit query -> 0 <= q_offset query ->
  let all := matching query q in
  let slice := take (Z.to_nat (q_limit query)) (drop (Z.to_nat (q_offset query)) all) in
  let consumed := q_offset query + Z.of_nat (length slice) in
  page query q = Ok {| page_query := query; page_tasks := slice;
    has_more := consumed <? Z.of_nat (length all);
    next_offset := if consumed <? Z.of_nat (length all) then Some consumed else None |}.
Proof.
  intros Hpub Hq Hl Ho all slice consumed. pose proof Hq as Hq'.
  apply query_validate_exact in Hq' as (Hlim & Hoff & _); [| done].
  assert (Hlen : Z.of_nat (length slice) <= q_limit query) by (subst slice; rewrite length_take; lia).
  assert (Hc : checked_u32 consumed = Some consumed).
  { unfold checked_u32. replace (in_u32 consumed) with true; [done |]. subst consumed. width. }
  assert (Hv : existsb (fun t => is_err (validate_public t) || negb (TransferQuery_matches query t)) slice = false).
  { apply not_true_is_false. intros (t & Ht & He)%existsb_exists. apply list_elem_of_In in Ht.
    subst slice. assert (t ∈ all) as Hin.
    { eapply elem_of_submseteq; [exact Ht |]. apply sublist_submseteq.
      etrans; [apply sublist_take | apply sublist_drop]. }
    apply matching_elem in Hin as [Hin Hm]. by rewrite (Hpub t Hin), Hm in He. }
  unfold page. rewrite Hq. cbn [map_err result_bind]. fold all slice consumed. rewrite Hc.
  cbn [ok_or result_bind]. unfold TransferPage_validate. cbn [page_query page_tasks has_more next_offset].
  rewrite Hq. cbn [result_bind]. rewrite (proj2 (Z.ltb_ge _ _) Hlen), Hv. cbn [orb].
  unfold checked_u32 at 1. replace (in_u32 (Z.of_nat (length slice))) with true by width.
  cbn [ok_or result_bind]. fold consumed. rewrite Hc. cbn [ok_or result_bind].
  destruct (consumed <? Z.of_nat (length all)) eqn:Hmore; [| done].
  rewrite eqb_refl. destruct slice as [| t l] eqn:Hs; [| done]. exfalso. bool_facts.
  subst consumed slice. simpl in Hmore. assert (length (take (Z.to_nat (q_limit query))
    (drop (Z.to_nat (q_offset query)) all)) = 0%nat) as H0 by (by rewrite Hs).
  rewrite length_take, length_drop in H0. lia.
Qed.

Definition at_offset (o : Z) (query : TransferQuery) : TransferQuery :=
  {| q_limit := q_limit query; q_offset := o; q_states := q_states query;
     q_direction := q_direction query; q_profile_id := q_profile_id query |}.

(** A client that follows [next_offset]. *)
Fixpoint walk (fuel : nat) (query : TransferQuery) (q : TransferQueue St) : option (list TransferTask) :=
  match fuel with
  | O => None
  | S n =>
      match page query q with
      | Ok p =>
          match next_offset p with
          | None => Some (page_tasks p)
          | Some o => option_map (app (page_tasks p)) (walk n (at_offset o query) q)
          end
      | Err _ => None
      end
  end.

Lemma take_drop_length {A} n (l : list A) : take n l ++ drop (length (take n l)) l = l.
Proof.
  destruct (decide (n <= length l)%nat).
  - rewrite length_take_le by done. apply take_drop.
  - rewrite !take_ge by lia. by rewrite drop_all, app_nil_r.
Qed.

Lemma walk_from query (q : TransferQueue St) fuel :
  all_public q -> TransferQuery_validate query = Ok tt -> 0 <= q_limit query -> 0 <= q_offset query ->
  Z.of_nat (length (matching query q)) <= 100000 ->
  (length (drop (Z.to_nat (q_offset query)) (matching query q)) < fuel)%nat ->
  walk fuel query q = Some (drop (Z.to_nat (q_offset query)) (matching query q)).
Proof.
  revert query. induction fuel as [| fuel IH]; intros query Hpub Hq Hl Ho Hsize Hfuel; [lia |].
  pose proof Hq as Hq'. apply query_validate_exact in Hq' as (Hlim & Hoff & Hrest); [| done].
  simpl. rewrite (page_slice query q) by done. cbn [next_offset page_tasks].
  set (all := matching query q) in *. set (rest := drop (Z.to_nat (q_offset query)) all) in *.
  set (slice := take (Z.to_nat (q_limit query)) rest).
  assert (Hslice : length slice = Nat.min (Z.to_nat (q_limit query)) (length rest))
    by (subst slice; by rewrite length_take).
  assert (Hrl : length rest = (length all - Z.to_nat (q_offset query))%nat)
    by (subst rest; by rewrite length_drop).
  destruct (_ <? _) eqn:Hmore; bool_facts.
  - set (query' := at_offset (q_offset query + Z.of_nat (length slice)) query).
    assert (Hall : matching query' q = all) by done.
    assert (Hdrop : drop (Z.to_nat (q_offset query')) all = drop (length slice) rest).
    { subst rest. rewrite drop_drop. f_equal. simpl. lia. }
    rewrite (IH query'); rewrite ?Hall, ?Hdrop; try done; try (simpl; lia).
    + simpl. f_equal. subst slice. apply take_drop_length.
    + apply query_validate_exact; [done |]. simpl. split; [done |]. split; [lia | done].
    + rewrite length_drop. lia.
  - f_equal. subst slice. apply take_ge. lia.
Qed.

(** paging loses and repeats nothing: on a queue of public tasks a valid
    query never fails, and a client that follows [next_offset] from offset zero
    receives, whatever the page size, exactly the matching tasks, each once, in
    the order of creation time and id. *)
Theorem pages_list_matching_once query q :
  queue_ok q -> all_public q -> TransferQuery_validate query = Ok tt -> 0 <= q_limit query ->
  q_offset query = 0 -> Z.of_nat (size (queue_tasks q)) <= MAX_QUEUED_TASKS ->
  exists l, walk (S (size (queue_tasks q))) query q = Some l
    /\ NoDup l /\ StronglySorted task_le l
    /\ forall t, t ∈ l <-> queue_tasks q !! id t = Some t /\ TransferQuery_matches query t = true.
Proof.
  intros Hok Hpub Hq Hl Ho Hsize.
  assert (Hlen : (length (matching query q) <= size (queue_tasks q))%nat).
  { unfold matching. rewrite merge_sort_Permutation. unfold tasks.
    rewrite <- btree_values_length. apply List.filter_length_le. }
  exists (matching query q). split_and!.
  - unfold MAX_QUEUED_TASKS in Hsize.
    rewrite walk_from; rewrite ?Ho; change (Z.to_nat 0) with 0%nat; rewrite ?drop_0; try done; lia.
  - by apply matching_NoDup.
  - apply matching_sorted.
  - intros t. rewrite matching_elem. unfold tasks. rewrite btree_values_elem. split.
    + intros [[k Hk] Hm]. by rewrite (ok_keyed q Hok k t Hk).
    + intros [Hk Hm]. eauto.
Qed.
End Pages.

Lemma pages_list_matching_once_witness :
  let q := queue_runs two_task_runs (memory_queue [] QueueLimits_default) in
  let query := {| q_limit := 1; q_offset := 0; q_states := []; q_direction := Some Upload;
                  q_profile_id := Some 3 |} in
  exists l, @walk _ _ identity_codec 3 query q = Some l /\ NoDup l.
Proof.
  intros q query.
  destruct (@pages_list_matching_once _ _ _ _ identity_codec query q) as (l & Hl & Hnd & _).
  - apply queue_runs_ok; [apply empty_memory_queue_ok |]. repeat constructor; vm_compute; discriminate.
  - intros t Ht. apply btree_values_elem in Ht as [k Hk]. subst q.
    apply elem_of_map_to_list in Hk. vm_compute in Hk.
    repeat (apply elem_of_cons in Hk as [Hk | Hk]; [injection Hk as _ ->; by vm_compute |]).
    by apply elem_of_nil in Hk.
  - by vm_compute.
  - by vm_compute.
  - done.
  - by vm_compute.
  - by exists l.
Defined.
