(* ===== verification/LocalFiles.v ===== *)
(** [crates/transfers/src/executor.rs], local side: [LocalHandleOwner], which
    reads upload sources and writes downloads to a staged file that is renamed
    into place on commit, with its helpers.

    The operating system is a map from paths to files, an oracle [io_faults]
    that says call by call which system calls fail (and how much a failing write
    wrote), and a clock. Paths are an absolute flag and their components. Locks
    are not poisoned: no code that holds one panics. *)
From S2P Require Import Prelude RemoteCore TransferModel TransferStore.

Abbreviation Path := (bool * list string)%type.

Definition is_absolute (p : Path) : bool := fst p.
Definition parent (p : Path) : option Path :=
  match snd p with [] => None | l => Some (fst p, removelast l) end.
Definition join (p : Path) (name : string) : Path := (fst p, snd p ++ [name]).
Definition file_name (p : Path) : option string := last (snd p).
Definition with_file_name (p : Path) (name : string) : Path :=
  match file_name p with
  | Some _ => (fst p, removelast (snd p) ++ [name])
  | None => join p name
  end.

Inductive IoErrorKind := Io_NotFound | Io_PermissionDenied | Io_Other.

Record io_fault := { fault_kind : IoErrorKind; fault_written : nat }.

(** What a path names; a symbolic link says whether its target exists. *)
Inductive node :=
| RegularFile (owner : Z) (content : list Z) (modified : option Z)
| DirectoryNode (owner : Z)
| SymlinkNode (owner : Z) (resolves : bool).

Inductive LocalHandleAccess := ReadSource | StagedDestination.
#[export] Instance LocalHandleAccess_eq_dec : EqDecision LocalHandleAccess.
Proof. solve_decision. Defined.

Abbreviation LocalWriteHandle := Z (only parsing).

Record LocalReadChunk := {
  local_chunk_offset : Z;
  local_chunk_bytes : list Z;
  local_chunk_eof : bool;
  local_chunk_identity : ObjectIdentity;
}.

Record LocalWriteReceipt := {
  local_receipt_handle : LocalWriteHandle;
  local_receipt_next_offset : Z;
  local_receipt_identity : option ObjectIdentity;
}.

Record LocalBinding := { binding_path : Path; binding_access : LocalHandleAccess }.

Record StagedWrite := {
  staged_file : Path;
  final_file : Path;
  staged_conflict_policy : ConflictPolicy;
}.

(** [LocalHandleOwner] with the operating system it acts on. *)
Record LocalHandleOwner := {
  bindings : gmap Z LocalBinding;
  staged : gmap Z StagedWrite;
  owner_uid : Z;
  files : gmap Path node;
  io_faults : list (option io_fault);
  fs_now : option Z;
  flags : gset nat;
  clock : nat -> Z;
  tick : nat;
}.

Definition set_bindings (b : gmap Z LocalBinding) (o : LocalHandleOwner) : LocalHandleOwner :=
  {| bindings := b; staged := staged o; owner_uid := owner_uid o; files := files o;
     io_faults := io_faults o; fs_now := fs_now o; flags := flags o; clock := clock o; tick := tick o |}.
Definition set_staged (s : gmap Z StagedWrite) (o : LocalHandleOwner) : LocalHandleOwner :=
  {| bindings := bindings o; staged := s; owner_uid := owner_uid o; files := files o;
     io_faults := io_faults o; fs_now := fs_now o; flags := flags o; clock := clock o; tick := tick o |}.
Definition set_files (f : gmap Path node) (o : LocalHandleOwner) : LocalHandleOwner :=
  {| bindings := bindings o; staged := staged o; owner_uid := owner_uid o; files := f;
     io_faults := io_faults o; fs_now := fs_now o; flags := flags o; clock := clock o; tick := tick o |}.
Definition set_io_faults (l : list (option io_fault)) (o : LocalHandleOwner) : LocalHandleOwner :=
  {| bindings := bindings o; staged := staged o; owner_uid := owner_uid o; files := files o;
     io_faults := l; fs_now := fs_now o; flags := flags o; clock := clock o; tick := tick o |}.
Definition set_flags (f : gset nat) (o : LocalHandleOwner) : LocalHandleOwner :=
  {| bindings := bindings o; staged := staged o; owner_uid := owner_uid o; files := files o;
     io_faults := io_faults o; fs_now := fs_now o; flags := f; clock := clock o; tick := tick o |}.
Definition advance_tick (o : LocalHandleOwner) : LocalHandleOwner :=
  {| bindings := bindings o; staged := staged o; owner_uid := owner_uid o; files := files o;
     io_faults := io_faults o; fs_now := fs_now o; flags := flags o; clock := clock o;
     tick := S (tick o) |}.

Abbreviation owner_mut A := (mut LocalHandleOwner A RemoteError).

(** ** Errors *)

Definition error (kind : RemoteErrorKind) (operation : RemoteOperation) (reason : string)
    (retry : RetryDisposition) : RemoteError :=
  {| err_kind := kind; err_operation := operation; err_reason := static_reason reason;
     err_retry := retry |}.
Definition invalid (operation : RemoteOperation) (reason : string) : RemoteError :=
  error EK_InvalidInput operation reason Retry_Never.
Definition unsupported (operation : RemoteOperation) (reason : string) : RemoteError :=
  error EK_Unsupported operation reason Retry_Never.
Definition protocol_error (operation : RemoteOperation) (reason : string) : RemoteError :=
  error EK_RemoteProtocol operation reason Retry_Never.
Definition io_error (operation : RemoteOperation) (reason : string) : RemoteError :=
  error EK_Transport operation reason Retry_Backoff.
Definition stat_error : RemoteError := io_error Op_Stat "local_file_stat_failed".
Definition missing_write_handle : RemoteError :=
  error EK_NotFound Op_Write "local_write_handle_not_found" Retry_Never.

(** ** The operating system *)

Definition instant_now {E} : mut LocalHandleOwner Z E :=
  now <- gets (fun o => clock o (tick o)) ;; modify advance_tick ;;; ret now.

Definition check (c : RemoteIoControl) (operation : RemoteOperation) : owner_mut unit :=
  now <- instant_now ;; lift (fun o => RemoteIoControl_check c (flags o) now operation).

(** A system call: it fails if the oracle says so. *)
Definition sys : mut LocalHandleOwner unit io_fault :=
  fun o => match io_faults o with
           | [] => (o, Ok tt)
           | None :: l => (set_io_faults l o, Ok tt)
           | Some e :: l => (set_io_faults l o, Err e)
           end.
Definition sys_kind : mut LocalHandleOwner unit IoErrorKind := mut_map_err fault_kind sys.

Record Metadata := {
  meta_symlink : bool;
  meta_file : bool;
  meta_dir : bool;
  meta_uid : Z;
  meta_len : Z;
  meta_modified : option Z;
}.

Definition metadata_of (n : node) : Metadata :=
  match n with
  | RegularFile uid content m =>
      {| meta_symlink := false; meta_file := true; meta_dir := false; meta_uid := uid;
         meta_len := Z.of_nat (length content); meta_modified := m |}
  | DirectoryNode uid =>
      {| meta_symlink := false; meta_file := false; meta_dir := true; meta_uid := uid;
         meta_len := 4096; meta_modified := None |}
  | SymlinkNode uid _ =>
      {| meta_symlink := true; meta_file := false; meta_dir := false; meta_uid := uid;
         meta_len := 0; meta_modified := None |}
  end.

Definition symlink_metadata (p : Path) : mut LocalHandleOwner Metadata IoErrorKind :=
  sys_kind ;;; lift (fun o => ok_or Io_NotFound (option_map metadata_of (files o !! p))).

(** [Path::exists] follows links and answers [false] on an error. *)
Definition exists_ (p : Path) : owner_mut bool :=
  fun o => match sys o with
           | (o', Ok _) =>
               (o', Ok match files o' !! p with
                       | Some (SymlinkNode _ resolves) => resolves
                       | Some _ => true
                       | None => false
                       end)
           | (o', Err _) => (o', Ok false)
           end.

(** [OpenOptions::open] with [O_NOFOLLOW]. *)
Definition open_call (p : Path) (write create truncate : bool) : mut LocalHandleOwner unit IoErrorKind :=
  sys_kind ;;;
  n <- gets (fun o => files o !! p) ;;
  match n with
  | None =>
      if create
      then modify (fun o => set_files (<[p := RegularFile (owner_uid o) [] (fs_now o)]> (files o)) o)
      else throw Io_NotFound
  | Some (SymlinkNode _ _) => throw Io_Other
  | Some (DirectoryNode _) => if write then throw Io_Other else ret tt
  | Some (RegularFile uid _ _) =>
      if truncate
      then modify (fun o => set_files (<[p := RegularFile uid [] (fs_now o)]> (files o)) o)
      else ret tt
  end.

Definition open_file (p : Path) (write create truncate : bool) (operation : RemoteOperation)
  : owner_mut unit :=
  mut_map_err (fun k =>
    match negb write, k with
    | true, Io_PermissionDenied =>
        error EK_PermissionDenied operation "local_file_permission_denied" Retry_UserAction
    | _, _ => io_error operation (if write then "local_staged_open_failed" else "local_source_open_failed")
    end) (open_call p write create truncate).

(** [file.metadata()] of an open file. *)
Definition file_metadata (p : Path) (e : RemoteError) : owner_mut Metadata :=
  mut_map_err (fun _ => e) (symlink_metadata p).

Definition identity (m : Metadata) : ObjectIdentity :=
  {| size_bytes := Some (meta_len m); modified_at_unix_ms := meta_modified m; etag := None |}.

(** ** Checks on local files *)

Definition ensure_identity (expected actual : option ObjectIdentity) (operation : RemoteOperation)
  : result unit RemoteError :=
  match expected with
  | None => Ok tt
  | Some e =>
      let matches := is_some_and (fun a =>
        is_none_or (fun v => eqb (size_bytes a) (Some v)) (size_bytes e)
        && is_none_or (fun v => eqb (modified_at_unix_ms a) (Some v)) (modified_at_unix_ms e)
        && is_none_or (fun v => eqb (etag a) (Some v)) (etag e)) actual in
      if matches then Ok tt
      else Err (error EK_Conflict operation "transfer_object_identity_changed" Retry_UserAction)
  end.

Definition validate_owned_file (p : Path) (uid : Z) (operation : RemoteOperation)
  : owner_mut ObjectIdentity :=
  lift (fun _ => fail_if negb (is_absolute p)
                   with invalid operation "local_owner_path_must_be_absolute" in Ok tt) ;;;
  m <- mut_map_err (fun _ => error EK_NotFound operation "local_file_not_found" Retry_UserAction)
         (symlink_metadata p) ;;
  lift (fun _ => fail_if meta_symlink m || negb (meta_file m) || negb (meta_uid m =? uid)
                   with error EK_PermissionDenied operation "local_file_unsafe" Retry_Never in
                 Ok (identity m)).

Definition open_source_file (p : Path) (operation : RemoteOperation) : owner_mut ObjectIdentity :=
  lift (fun _ => fail_if negb (is_absolute p)
                   with invalid operation "local_owner_path_must_be_absolute" in Ok tt) ;;;
  pm <- mut_map_err (fun _ => error EK_NotFound operation "local_file_not_found" Retry_UserAction)
          (symlink_metadata p) ;;
  lift (fun _ => fail_if meta_symlink pm || negb (meta_file pm)
                   with error EK_PermissionDenied operation "local_file_unsafe" Retry_Never in
                 Ok tt) ;;;
  open_file p false false false operation ;;;
  m <- file_metadata p (io_error operation "local_source_metadata_failed") ;;
  lift (fun _ => fail_if negb (meta_file m)
                   with error EK_PermissionDenied operation "local_file_unsafe" Retry_Never in
                 Ok (identity m)).

Definition validate_destination (p : Path) (uid : Z) : owner_mut unit :=
  lift (fun _ => fail_if negb (is_absolute p)
                   with invalid Op_Write "local_owner_path_must_be_absolute" in Ok tt) ;;;
  dir <- lift (fun _ => ok_or (invalid Op_Write "local_destination_parent_invalid") (parent p)) ;;
  m <- mut_map_err (fun _ => stat_error) (symlink_metadata dir) ;;
  lift (fun _ => fail_if meta_symlink m || negb (meta_dir m) || negb (meta_uid m =? uid)
                   with error EK_PermissionDenied Op_Write "local_destination_parent_unsafe" Retry_Never in
                 Ok tt) ;;;
  there <- exists_ p ;;
  if there : bool then validate_owned_file p uid Op_Write ;;; ret tt else ret tt.

Definition optional_identity (p : Path) (uid : Z) (operation : RemoteOperation)
  : owner_mut (option ObjectIdentity) :=
  fun o => match symlink_metadata p o with
           | (o', Ok _) => (i <- validate_owned_file p uid operation ;; ret (Some i)) o'
           | (o', Err Io_NotFound) => (o', Ok None)
           | (o', Err _) => (o', Err stat_error)
           end.

Section Owner.
Context `{UuidText}.

(** String concatenation of [format!]. *)
Definition staged_path (p : Path) (handle : LocalFileHandle) : result Path RemoteError :=
  let? dir := ok_or stat_error (parent p) in
  Ok (join dir (".localdesk-transfer-" +:+ uuid_string handle +:+ ".part")).

(** File names are UTF-8 here. *)
Definition renamed_path (p : Path) (handle : LocalFileHandle) : Path :=
  with_file_name p (default "download"%string (file_name p) +:+ ".localdesk-" +:+ uuid_string handle).

(** ** The owner *)

Definition bind_path (handle : LocalFileHandle) (p : Path) (access : LocalHandleAccess) : owner_mut unit :=
  lift (fun _ => fail_if negb (is_absolute p)
                   with error EK_InvalidInput Op_Stat "local_owner_path_must_be_absolute" Retry_Never in
                 Ok tt) ;;;
  lift (fun o => fail_if is_some (bindings o !! handle)
                   with error EK_Conflict Op_Stat "local_handle_already_bound" Retry_UserAction in
                 Ok tt) ;;;
  modify (fun o => set_bindings
    (<[handle := {| binding_path := p; binding_access := access |}]> (bindings o)) o).

Definition bind_source (handle : LocalFileHandle) (p : Path) : owner_mut unit :=
  open_source_file p Op_Read ;;; bind_path handle p ReadSource.

Definition bind_destination (handle : LocalFileHandle) (p : Path) : owner_mut unit :=
  uid <- gets owner_uid ;; validate_destination p uid ;;; bind_path handle p StagedDestination.

Definition unbind (handle : LocalFileHandle) : owner_mut bool :=
  was <- gets (fun o => is_some (bindings o !! handle)) ;;
  modify (fun o => set_bindings (delete handle (bindings o)) o) ;;; ret was.

Definition bound_path (handle : LocalFileHandle) (access : LocalHandleAccess)
    (operation : RemoteOperation) : owner_mut Path :=
  lift (fun o =>
    let? binding := ok_or (error EK_NotFound operation "local_handle_not_bound" Retry_UserAction)
                      (bindings o !! handle) in
    fail_if negb (eqb (binding_access binding) access)
      with error EK_PermissionDenied operation "local_handle_access_mismatch" Retry_Never in
    Ok (binding_path binding)).

Definition validate_handle (handle : LocalFileHandle) (access : LocalHandleAccess) : owner_mut unit :=
  bound_path handle access match access with ReadSource => Op_Read | StagedDestination => Op_Write end ;;;
  ret tt.

Definition source_identity (handle : LocalFileHandle) (control : RemoteIoControl)
  : owner_mut ObjectIdentity :=
  check control Op_Stat ;;;
  p <- bound_path handle ReadSource Op_Stat ;;
  open_source_file p Op_Stat.

Definition content_of (n : option node) : list Z :=
  match n with Some (RegularFile _ c _) => c | _ => [] end.

Definition read_chunk (handle : LocalFileHandle) (offset max_bytes : Z)
    (expected_identity : option ObjectIdentity) (control : RemoteIoControl) : owner_mut LocalReadChunk :=
  check control Op_Read ;;;
  lift (fun _ => fail_if (max_bytes =? 0) || (MAX_REMOTE_CHUNK_BYTES <? max_bytes)
                   with invalid Op_Read "local_read_chunk_unbounded" in Ok tt) ;;;
  p <- bound_path handle ReadSource Op_Read ;;
  ident <- open_source_file p Op_Read ;;
  lift (fun _ => ensure_identity expected_identity (Some ident) Op_Read) ;;;
  mut_map_err (fun _ => io_error Op_Read "local_source_seek_failed") sys ;;;
  mut_map_err (fun _ => io_error Op_Read "local_source_read_failed") sys ;;;
  content <- gets (fun o => content_of (files o !! p)) ;;
  check control Op_Read ;;;
  let bytes := take (Z.to_nat max_bytes) (drop (Z.to_nat offset) content) in
  let next := sat_u64 (offset + Z.of_nat (length bytes)) in
  ret {| local_chunk_offset := offset; local_chunk_bytes := bytes;
         local_chunk_eof := is_some_and (fun size => size <=? next) (size_bytes ident);
         local_chunk_identity := ident |}.

(** The identity of the file in the way, and where the download will go. *)
Definition staged_target (handle : LocalFileHandle) (expected_destination : option ObjectIdentity)
    (conflict_policy : ConflictPolicy) (control : RemoteIoControl)
  : owner_mut (option ObjectIdentity * Path) :=
  check control Op_Write ;;;
  bound <- bound_path handle StagedDestination Op_Write ;;
  uid <- gets owner_uid ;;
  validate_destination bound uid ;;;
  current <- optional_identity bound uid Op_Write ;;
  lift (fun _ => ensure_identity expected_destination current Op_Write) ;;;
  lift (fun _ =>
    if is_some current
    then match conflict_policy with
         | Policy_Fail => Err (error EK_Conflict Op_Write "local_destination_exists" Retry_UserAction)
         | Policy_Rename => Ok (current, renamed_path bound handle)
         | Policy_Overwrite | Policy_Resume => Ok (current, bound)
         end
    else Ok (current, bound)).

Definition begin_staged_write (handle : LocalFileHandle) (expected_size resume_from : option Z)
    (expected_destination : option ObjectIdentity) (conflict_policy : ConflictPolicy)
    (control : RemoteIoControl) : owner_mut LocalWriteReceipt :=
  target <- staged_target handle expected_destination conflict_policy control ;;
  let '(current, final_path) := target in
  staged_file <- lift (fun _ => staged_path final_path handle) ;;
  let offset := default 0 resume_from in
  lift (fun _ => fail_if is_some_and (fun size => size <? offset) expected_size
                   with error EK_Conflict Op_Resume "local_resume_offset_exceeds_size" Retry_UserAction in
                 Ok tt) ;;;
  open_file staged_file true true (is_none resume_from) Op_Write ;;;
  when (is_some resume_from)
    (m <- file_metadata staged_file stat_error ;;
     lift (fun _ => fail_if negb (meta_len m =? offset)
                      with error EK_Conflict Op_Resume "local_partial_size_changed" Retry_UserAction in
                    Ok tt)) ;;;
  modify (fun o => set_staged (<[handle := {| staged_file := staged_file; final_file := final_path;
                                              staged_conflict_policy := conflict_policy |}]> (staged o)) o) ;;;
  ret {| local_receipt_handle := handle; local_receipt_next_offset := offset;
         local_receipt_identity := current |}.

(** [write_all] after [seek]: a failing one has written a prefix. *)
Definition write_at (p : Path) (offset : Z) (data : list Z) : mut LocalHandleOwner unit io_fault :=
  let put n := modify (fun o =>
    match files o !! p with
    | Some (RegularFile uid c _) =>
        set_files (<[p := RegularFile uid (take (Z.to_nat offset) c ++ take n data
                                           ++ drop (Z.to_nat offset + n) c) (fs_now o)]> (files o)) o
    | _ => o
    end) in
  fun o => match sys o with
           | (o1, Err e) => (o1, Err e)
           | (o1, Ok _) =>
               match sys o1 with
               | (o2, Err e) => (put (fault_written e) ;;; throw e) o2
               | (o2, Ok _) => (put (length data) ;;; sys) o2
               end
           end.

Definition write_chunk (handle : LocalWriteHandle) (offset : Z) (data : list Z)
    (control : RemoteIoControl) : owner_mut LocalWriteReceipt :=
  check control Op_Write ;;;
  lift (fun _ => fail_if Nat.eqb (length data) 0 || (MAX_REMOTE_CHUNK_BYTES <? Z.of_nat (length data))
                   with invalid Op_Write "local_write_chunk_invalid_size" in Ok tt) ;;;
  s <- lift (fun o => ok_or missing_write_handle (staged o !! handle)) ;;
  open_file (staged_file s) true false false Op_Write ;;;
  m <- file_metadata (staged_file s) stat_error ;;
  lift (fun _ => fail_if negb (meta_len m =? offset)
                   with error EK_Conflict Op_Write "local_write_offset_mismatch" Retry_UserAction in
                 Ok tt) ;;;
  mut_map_err (fun _ => io_error Op_Write "local_staged_write_failed")
    (write_at (staged_file s) offset data) ;;;
  check control Op_Write ;;;
  ret {| local_receipt_handle := handle;
         local_receipt_next_offset := sat_u64 (offset + Z.of_nat (length data));
         local_receipt_identity := None |}.

(** [rename(2)]; with [noreplace] it fails if the target exists. *)
Definition rename_call (from to : Path) (noreplace : bool) : mut LocalHandleOwner unit IoErrorKind :=
  sys_kind ;;;
  lift (fun o => match files o !! to with
                 | Some (DirectoryNode _) => Err Io_Other
                 | Some _ => if noreplace then Err Io_Other else Ok tt
                 | None => Ok tt
                 end) ;;;
  n <- lift (fun o => ok_or Io_NotFound (files o !! from)) ;;
  modify (fun o => set_files (<[to := n]> (delete from (files o))) o).

Definition rename_staged (s : StagedWrite) : owner_mut unit :=
  match staged_conflict_policy s with
  | Policy_Fail =>
      mut_map_err (fun _ => error EK_Conflict Op_Write "local_destination_changed_before_commit"
                              Retry_UserAction)
        (rename_call (staged_file s) (final_file s) true)
  | _ =>
      mut_map_err (fun _ => io_error Op_Write "local_staged_commit_failed")
        (rename_call (staged_file s) (final_file s) false)
  end.

Definition commit_staged_write (handle : LocalWriteHandle) (expected_size : option Z)
    (control : RemoteIoControl) : owner_mut ObjectIdentity :=
  check control Op_Write ;;;
  s <- lift (fun o => ok_or missing_write_handle (staged o !! handle)) ;;
  m <- mut_map_err (fun _ => stat_error) (symlink_metadata (staged_file s)) ;;
  lift (fun _ => fail_if is_some_and (fun e => negb (meta_len m =? e)) expected_size
                   with error EK_Conflict Op_Write "local_staged_size_mismatch" Retry_UserAction in
                 Ok tt) ;;;
  rename_staged s ;;;
  check control Op_Write ;;;
  modify (fun o => set_staged (delete handle (staged o)) o) ;;;
  uid <- gets owner_uid ;;
  validate_owned_file (final_file s) uid Op_Write.

Definition abort_staged_write (handle : LocalWriteHandle) (control : RemoteIoControl) : owner_mut unit :=
  check control Op_Write ;;;
  s <- gets (fun o => staged o !! handle) ;;
  modify (fun o => set_staged (delete handle (staged o)) o) ;;;
  match s with
  | None => ret tt
  | Some s =>
      fun o => match sys_kind o with
               | (o1, Ok _) =>
                   match files o1 !! staged_file s with
                   | Some (DirectoryNode _) => (o1, Err (io_error Op_Write "local_staged_abort_failed"))
                   | _ => (set_files (delete (staged_file s) (files o1)) o1, Ok tt)
                   end
               | (o1, Err Io_NotFound) => (o1, Ok tt)
               | (o1, Err _) => (o1, Err (io_error Op_Write "local_staged_abort_failed"))
               end
  end.
End Owner.
