(* ===== verification/LocalFilesFacts.v ===== *)
(** What the local file owner does to the disk: which calls only read, what a
    chunk write and a commit change, and why an aborted download cannot be
    resumed. *)
From S2P Require Import Prelude RemoteCore TransferModel TransferStore LocalFiles.

(** The part of the owner that chunk writes and commits act on. *)
Definition disk (o : LocalHandleOwner)
  : gmap Path node * gmap Z StagedWrite * (Z * gmap Z LocalBinding) :=
  (files o, staged o, (owner_uid o, bindings o)).

Lemma disk_eq o o' :
  disk o' = disk o -> files o' = files o /\ staged o' = staged o /\ owner_uid o' = owner_uid o.
Proof. by intros [= -> -> -> _]. Qed.

Lemma disk_bindings o o' : disk o' = disk o -> bindings o' = bindings o.
Proof. by intros [= _ _ _ ->]. Qed.

Lemma preserves_map_err {S X A E F} (f : S -> X) (g : E -> F) (m : mut S A E) :
  preserves f m -> preserves f (mut_map_err g m).
Proof.
  unfold preserves, mut_map_err. intros Hm s s' r Hs. destruct (m s) eqn:He.
  injection Hs as <- _. by eapply Hm.
Qed.

Lemma instant_disk {E} : preserves disk (instant_now (E := E)).
Proof.
  unfold instant_now. solve_preserves. by apply preserves_modify.
Qed.

Lemma check_disk c op : preserves disk (check c op).
Proof. unfold check. apply preserves_bind; [apply instant_disk | intros; solve_preserves]. Qed.

Lemma sys_disk : preserves disk sys.
Proof.
  unfold sys. intros o o' r Hs. destruct (io_faults o) as [| [e |] l]; by simplify_eq/=.
Qed.

Lemma sys_kind_disk : preserves disk sys_kind.
Proof. apply preserves_map_err, sys_disk. Qed.

Lemma symlink_metadata_disk p : preserves disk (symlink_metadata p).
Proof.
  unfold symlink_metadata. apply preserves_bind; [apply sys_kind_disk | intros; solve_preserves].
Qed.

Lemma exists_disk p : preserves disk (exists_ p).
Proof.
  unfold exists_. intros o o' r Hs. destruct (sys o) as [o1 [[] | e]] eqn:H1;
    apply sys_disk in H1; by injection Hs as <- _.
Qed.
#[export] Hint Resolve check_disk sys_disk sys_kind_disk symlink_metadata_disk exists_disk
  preserves_map_err : rust_effects.

Ltac solve_disk :=
  repeat first
    [ progress intros
    | solve [eauto 3 with rust_effects]
    | solve [apply preserves_read_only; solve_effects]
    | apply preserves_bind
    | case_match ].

Lemma validate_owned_disk p uid op : preserves disk (validate_owned_file p uid op).
Proof. unfold validate_owned_file. solve_disk. Qed.
#[export] Hint Resolve validate_owned_disk : rust_effects.

Lemma validate_destination_disk p uid : preserves disk (validate_destination p uid).
Proof. unfold validate_destination. solve_disk. Qed.

Lemma optional_identity_disk p uid op : preserves disk (optional_identity p uid op).
Proof.
  unfold optional_identity. intros o o' r Hs.
  destruct (symlink_metadata p o) as [o1 [m | e]] eqn:H1; apply symlink_metadata_disk in H1.
  - rewrite <- H1. revert Hs. generalize o1 o' r.
    change (preserves disk (i <- validate_owned_file p uid op ;; ret (Some i))). solve_disk.
  - destruct e; by injection Hs as <- _.
Qed.

Lemma bound_path_disk h a op : preserves disk (bound_path h a op).
Proof. unfold bound_path. solve_disk. Qed.
#[export] Hint Resolve validate_destination_disk optional_identity_disk bound_path_disk : rust_effects.

Lemma open_existing_disk p write op : preserves disk (open_file p write false false op).
Proof. unfold open_file, open_call. apply preserves_map_err. solve_disk. Qed.

Lemma open_source_disk p op : preserves disk (open_source_file p op).
Proof.
  unfold open_source_file, file_metadata. solve_disk. all: apply open_existing_disk.
Qed.
#[export] Hint Resolve open_existing_disk open_source_disk : rust_effects.

(** Reading an upload source changes nothing on disk. *)
Lemma read_chunk_disk h offset max e c : preserves disk (read_chunk h offset max e c).
Proof. unfold read_chunk. solve_disk. Qed.

Lemma source_identity_disk h c : preserves disk (source_identity h c).
Proof. unfold source_identity. solve_disk. Qed.

(** ** A chunk write *)

Definition same_but (p : Path) (o o' : LocalHandleOwner) : Prop :=
  staged o' = staged o /\ owner_uid o' = owner_uid o
  /\ forall q, q <> p -> files o' !! q = files o !! q.

Lemma same_but_disk p o o' : disk o' = disk o -> same_but p o o'.
Proof. intros (Hf & Hs & Hu)%disk_eq. split_and!; try done. by rewrite Hf. Qed.

Lemma same_but_eq p o o' :
  files o' = files o -> staged o' = staged o -> owner_uid o' = owner_uid o -> same_but p o o'.
Proof. intros Hf Hs Hu. split_and!; try done. by rewrite Hf. Qed.

Lemma same_but_trans p o1 o2 o3 : same_but p o1 o2 -> same_but p o2 o3 -> same_but p o1 o3.
Proof.
  intros (H1 & H2 & H3) (H4 & H5 & H6). split_and!; [congruence | congruence |].
  intros q Hq. by rewrite H6, H3.
Qed.

(** Programs that change no file but [p]. *)
Definition modifies {A E} (p : Path) (m : mut LocalHandleOwner A E) : Prop :=
  forall o o' r, m o = (o', r) -> same_but p o o'.

Lemma modifies_disk {A E} p (m : mut LocalHandleOwner A E) : preserves disk m -> modifies p m.
Proof. intros Hm o o' r H. by apply same_but_disk, (Hm o o' r). Qed.

Lemma modifies_bind {A B E} p (m : mut LocalHandleOwner A E) (k : A -> mut LocalHandleOwner B E) :
  modifies p m -> (forall a, modifies p (k a)) -> modifies p (bind m k).
Proof.
  intros Hm Hk o o' r H. unfold bind in H. destruct (m o) as [o1 [a | e]] eqn:H1.
  - eapply same_but_trans; [by eapply Hm | by eapply Hk].
  - injection H as <- <-. by eapply Hm.
Qed.

Lemma modifies_map_err {A E F} p (g : E -> F) (m : mut LocalHandleOwner A E) :
  modifies p m -> modifies p (mut_map_err g m).
Proof.
  intros Hm o o' r H. unfold mut_map_err in H. destruct (m o) eqn:H1.
  injection H as <- _. by eapply Hm.
Qed.

Lemma write_at_modifies p offset data : modifies p (write_at p offset data).
Proof.
  intros o o' r Hw. unfold write_at in Hw.
  destruct (sys o) as [o1 [[] | e]] eqn:H1; apply sys_disk in H1.
  2:{ injection Hw as <- <-. by apply same_but_disk. }
  apply same_but_disk with (p := p) in H1.
  assert (Hput : forall n o, same_but p o (match files o !! p with
    | Some (RegularFile uid c _) =>
        set_files (<[p := RegularFile uid (take (Z.to_nat offset) c ++ take n data
                                           ++ drop (Z.to_nat offset + n) c) (fs_now o)]> (files o)) o
    | _ => o
    end)).
  { intros n q. destruct (files q !! p) as [[uid c m | |] |]; try done.
    split_and!; try done. intros x Hx. simpl. by rewrite lookup_insert_ne. }
  eapply same_but_trans; [exact H1 |].
  destruct (sys o1) as [o2 [[] | e]] eqn:H2; apply sys_disk in H2;
    apply same_but_disk with (p := p) in H2; (eapply same_but_trans; [exact H2 |]).
  - unfold bind, modify in Hw. apply sys_disk in Hw.
    eapply same_but_trans; [apply (Hput (length data) o2) | by apply same_but_disk].
  - unfold bind, modify, throw in Hw. injection Hw as <- <-. apply Hput.
Qed.

(** A complete write appends the data to a file of the offset's length. *)
Lemma write_at_appends p offset data o o' uid c m :
  files o !! p = Some (RegularFile uid c m) -> Z.of_nat (length c) = offset ->
  write_at p offset data o = (o', Ok tt) ->
  exists m', files o' !! p = Some (RegularFile uid (c ++ data) m').
Proof.
  intros Hf Hlen Hw. unfold write_at in Hw.
  destruct (sys o) as [o1 [[] | e]] eqn:H1; [| done]. apply sys_disk, disk_eq in H1 as (H1 & _ & _).
  destruct (sys o1) as [o2 [[] | e]] eqn:H2; [| done]. apply sys_disk, disk_eq in H2 as (H2 & _ & _).
  unfold bind, modify in Hw. rewrite H2, H1, Hf in Hw.
  set (o3 := set_files _ o2) in Hw. destruct (sys o3) as [o4 r4] eqn:H4.
  apply sys_disk, disk_eq in H4 as (H4 & _ & _). injection Hw as <- _.
  exists (fs_now o2). rewrite H4. subst o3. simpl. rewrite lookup_insert_eq. do 2 f_equal.
  rewrite (take_ge c), (take_ge data), (drop_ge c) by lia. by rewrite app_nil_r.
Qed.

Lemma mut_map_err_inv {S A E F} (f : E -> F) (m : mut S A E) s s' r :
  mut_map_err f m s = (s', r) -> exists r0, m s = (s', r0) /\ r = map_err f r0.
Proof. unfold mut_map_err. destruct (m s) as [s1 r1]. intros [= <- <-]. eauto. Qed.

(** Runs one primitive of a program in [H] that leaves the disk alone. *)
Ltac disk_step H :=
  let o1 := fresh "o" in let r1 := fresh "r" in let H1 := fresh "H" in
  unfold bind in H at 1;
  match type of H with
  | context [match ?m ?o with _ => _ end] =>
      destruct (m o) as [o1 r1] eqn:H1;
      assert (disk o1 = disk o)
        by (revert H1; generalize o o1 r1; change (preserves disk m); solve_disk);
      destruct r1 as [? | ?]
  end.

Lemma metadata_len p o o' mm uid c m :
  files o !! p = Some (RegularFile uid c m) -> symlink_metadata p o = (o', Ok mm) ->
  meta_len mm = Z.of_nat (length c).
Proof.
  intros Hf Hm. unfold symlink_metadata in Hm. unfold bind at 1 in Hm.
  destruct (sys_kind o) as [o1 [? | ?]] eqn:H1; [| done].
  apply sys_kind_disk, disk_eq in H1 as (H1 & _ & _).
  unfold lift in Hm. rewrite H1, Hf in Hm. by injection Hm as _ <-.
Qed.

(** A program that leaves the disk alone, run from a known disk. *)
Ltac disk_of H :=
  match type of H with
  | ?m ?o = (?o1, ?r1) =>
      assert (disk o1 = disk o)
        by (revert H; generalize o o1 r1; change (preserves disk m); solve_disk)
  end.

Lemma write_chunk_modifies h offset data c o o' r s :
  staged o !! h = Some s -> write_chunk h offset data c o = (o', r) -> same_but (staged_file s) o o'.
Proof.
  intros Hs Hw. unfold write_chunk in Hw.
  do 2 (disk_step Hw; [| injection Hw as <- <-; apply same_but_disk; congruence]).
  match goal with Hd : disk ?x = disk o0, He : disk o0 = disk o |- _ =>
    assert (disk x = disk o) as Hdx by congruence;
    eapply same_but_trans; [apply same_but_disk, Hdx |];
    apply disk_eq in Hdx as (_ & Hst & _) end.
  unfold bind at 1, lift in Hw. rewrite Hst, Hs in Hw. simpl in Hw.
  revert Hw. generalize o1 o' r. change (modifies (staged_file s)
    (open_file (staged_file s) true false false Op_Write;;;
     m <- file_metadata (staged_file s) stat_error;;
     lift (fun _ => if negb (meta_len m =? offset)
       then Err (error EK_Conflict Op_Write "local_write_offset_mismatch" Retry_UserAction) else Ok tt);;;
     mut_map_err (fun _ => io_error Op_Write "local_staged_write_failed")
       (write_at (staged_file s) offset data);;;
     check c Op_Write;;;
     ret {| local_receipt_handle := h;
            local_receipt_next_offset := sat_u64 (offset + Z.of_nat (length data));
            local_receipt_identity := None |})).
  apply modifies_bind; [apply modifies_disk; solve_disk | intros _].
  apply modifies_bind; [apply modifies_disk; unfold file_metadata; solve_disk | intros m].
  apply modifies_bind; [apply modifies_disk; solve_disk | intros _].
  apply modifies_bind; [apply modifies_map_err, write_at_modifies | intros _].
  apply modifies_disk. solve_disk.
Qed.

Lemma write_chunk_appends h offset data c o o' rc s uid cont m :
  staged o !! h = Some s -> files o !! staged_file s = Some (RegularFile uid cont m) ->
  write_chunk h offset data c o = (o', Ok rc) ->
  local_receipt_next_offset rc = sat_u64 (offset + Z.of_nat (length data))
  /\ Z.of_nat (length cont) = offset
  /\ exists m', files o' !! staged_file s = Some (RegularFile uid (cont ++ data) m').
Proof.
  intros Hs Hf Hw. unfold write_chunk in Hw. inv_ok.
  repeat match goal with
    | H : check _ _ _ = _ |- _ => apply check_disk, disk_eq in H as (? & ? & ?)
    | H : open_file _ _ _ _ _ _ = _ |- _ => apply open_existing_disk, disk_eq in H as (? & ? & ?)
    | H : mut_map_err _ _ _ = (_, Ok _) |- _ => apply mut_map_err_ok in H
    | H : file_metadata _ _ _ = (_, Ok _) |- _ => apply mut_map_err_ok in H
    | H : staged ?x = staged _, H' : ok_or _ (staged ?x !! _) = Ok _ |- _ =>
        rewrite H, Hs in H'; injection H' as <-
    end.
  match goal with Hm : symlink_metadata _ ?x = _ |- _ =>
    assert (files x !! staged_file s = Some (RegularFile uid cont m)) as Hx by congruence;
    pose proof (metadata_len _ _ _ _ _ _ _ Hx Hm) as Hlen;
    apply symlink_metadata_disk, disk_eq in Hm as (Hm & _ & _) end.
  bool_facts. split; [done |]. split; [congruence |].
  match goal with Hw : write_at _ _ _ ?y = (_, Ok ?u), Hm : files ?y = files ?x |- _ =>
    rewrite <- Hm in Hx; destruct u;
    destruct (write_at_appends _ offset _ _ _ _ _ _ Hx ltac:(congruence) Hw) as [m' Hy] end.
  exists m'. congruence.
Qed.

(** ** Committing and aborting *)

(** The staged file has replaced the final one. *)
Definition renamed (s : StagedWrite) (o o' : LocalHandleOwner) : Prop :=
  exists n, files o !! staged_file s = Some n
            /\ files o' = <[final_file s := n]> (delete (staged_file s) (files o)).

Lemma rename_call_cases from to b o o' r :
  rename_call from to b o = (o', r) ->
  staged o' = staged o /\ owner_uid o' = owner_uid o /\
  match r with
  | Ok _ => exists n, files o !! from = Some n /\ files o' = <[to := n]> (delete from (files o))
  | Err _ => files o' = files o
  end.
Proof.
  intros Hr. unfold rename_call in Hr. unfold bind at 1 in Hr.
  destruct (sys_kind o) as [o1 [[] | e]] eqn:H1; apply sys_kind_disk, disk_eq in H1 as (H1 & H2 & H3);
    [| by injection Hr as <- <-].
  unfold bind, lift in Hr. rewrite H1 in Hr.
  case_match eqn:Hto; [| by injection Hr as <- <-].
  destruct (files o !! from) as [n |] eqn:Hn; simpl in Hr; injection Hr as <- <-; [| done].
  simpl. rewrite H1. eauto.
Qed.

(** A failing commit has changed nothing or has renamed the file; a successful
    one has renamed a file of the expected size. *)
Lemma commit_cases h e c o o' r s :
  staged o !! h = Some s -> commit_staged_write h e c o = (o', r) ->
  owner_uid o' = owner_uid o
  /\ (staged o' = staged o \/ staged o' = delete h (staged o))
  /\ ((files o' = files o /\ is_err r = true) \/ renamed s o o').
Proof.
  intros Hs Hc. unfold commit_staged_write in Hc.
  unfold bind at 1 in Hc. destruct (check c Op_Write o) as [o1 [[] | ?]] eqn:H1;
    apply check_disk, disk_eq in H1 as (Hf1 & Hs1 & Hu1); [| injection Hc as <- <-; by auto].
  unfold bind at 1, lift in Hc. rewrite Hs1, Hs in Hc. simpl in Hc.
  unfold bind at 1, mut_map_err at 1 in Hc.
  destruct (symlink_metadata (staged_file s) o1) as [o2 [m | ?]] eqn:H2;
    apply symlink_metadata_disk, disk_eq in H2 as (Hf2 & Hs2 & Hu2); simpl in Hc;
    [| injection Hc as <- <-; split_and!; [congruence | left; congruence | left; split; [congruence | done]]].
  unfold bind at 1 in Hc. case_match eqn:Hg;
    [| injection Hc as <- <-; split_and!; [congruence | left; congruence | left; split; [congruence | done]]].
  unfold bind at 1 in Hc.
  destruct (rename_staged s o2) as [o3 r3] eqn:H3.
  assert (exists r0, rename_call (staged_file s) (final_file s)
                       (eqb (staged_conflict_policy s) Policy_Fail) o2 = (o3, r0)
                     /\ is_err r0 = is_err r3) as (r0 & H3' & Hr0).
  { unfold rename_staged in H3.
    destruct (staged_conflict_policy s); apply mut_map_err_inv in H3 as (r0 & H3 & ->);
      exists r0; (split; [exact H3 | by destruct r0]). }
  apply rename_call_cases in H3' as (Hs3 & Hu3 & Hf3).
  destruct r3 as [[] | ?]; destruct r0; try discriminate Hr0.
  2:{ injection Hc as <- <-. split_and!; [congruence | left; congruence | left; split; [congruence | done]]. }
  destruct Hf3 as (n & Hn & Hf3).
  assert (renamed s o o3) as Hren by (exists n; split; congruence).
  unfold bind at 1 in Hc. destruct (check c Op_Write o3) as [o4 [[] | ?]] eqn:H4;
    apply check_disk, disk_eq in H4 as (Hf4 & Hs4 & Hu4).
  2:{ injection Hc as <- <-. split_and!; [congruence | left; congruence | right].
      destruct Hren as (n' & ? & ?). exists n'. split; congruence. }
  unfold bind, modify, gets in Hc.
  apply validate_owned_disk, disk_eq in Hc as (Hf5 & Hs5 & Hu5). simpl in *.
  split_and!; [congruence | right; congruence | right].
  destruct Hren as (n' & ? & ?). exists n'. split; congruence.
Qed.

(** An abort forgets the write and removes its partial, at most. *)
Lemma abort_cases h c o o' r s :
  staged o !! h = Some s -> abort_staged_write h c o = (o', r) ->
  same_but (staged_file s) (set_staged (staged o') o) o'.
Proof.
  intros Hs Ha. unfold abort_staged_write in Ha. unfold bind at 1 in Ha.
  destruct (check c Op_Write o) as [o1 [[] | ?]] eqn:H1;
    apply check_disk, disk_eq in H1 as (Hf1 & Hs1 & Hu1).
  2:{ injection Ha as <- <-. split_and!; simpl; [done | done |]. intros. by rewrite Hf1. }
  unfold bind, gets, modify in Ha. rewrite Hs1, Hs in Ha. simpl in Ha.
  set (o2 := set_staged _ o1) in Ha.
  destruct (sys_kind o2) as [o3 [[] | []]] eqn:H3; apply sys_kind_disk, disk_eq in H3 as (Hf3 & Hs3 & Hu3).
  - repeat case_match; injection Ha as <- <-; (split_and!; simpl; [done | by rewrite Hu3 |]);
      intros q Hq; rewrite ?lookup_delete_ne by done; by rewrite Hf3; simpl; rewrite Hf1.
  - injection Ha as <- <-. split_and!; simpl; [done | by rewrite Hu3 |].
    intros. by rewrite Hf3; simpl; rewrite Hf1.
  - injection Ha as <- <-. split_and!; simpl; [done | by rewrite Hu3 |].
    intros. by rewrite Hf3; simpl; rewrite Hf1.
  - injection Ha as <- <-. split_and!; simpl; [done | by rewrite Hu3 |].
    intros. by rewrite Hf3; simpl; rewrite Hf1.
Qed.

(** ** Beginning *)

Lemma open_call_cases p trunc o o' r :
  open_call p true true trunc o = (o', r) ->
  same_but p o o' /\
  (is_err r = false ->
   exists uid c m, files o' !! p = Some (RegularFile uid c m)
     /\ (c = [] \/ trunc = false /\ files o !! p = Some (RegularFile uid c m))).
Proof.
  intros Hop. unfold open_call in Hop. unfold bind at 1 in Hop.
  destruct (sys_kind o) as [o1 [[] | e]] eqn:H1; apply sys_kind_disk, disk_eq in H1 as (Hf & Hs & Hu).
  2:{ injection Hop as <- <-. split; [by apply same_but_eq | done]. }
  unfold bind, gets in Hop. simpl in Hop. rewrite Hf in Hop.
  assert (Hput : forall n, same_but p o (set_files (<[p := n]> (files o1)) o1)).
  { intros n. split_and!; simpl; [done | done |]. intros q Hq. rewrite lookup_insert_ne by done. by rewrite Hf. }
  destruct (files o !! p) as [[uid c m | uid | uid b] |] eqn:Hn; simpl in Hop.
  - destruct trunc; unfold modify, ret in Hop; injection Hop as <- <-.
    + split; [apply Hput |]. intros _. exists uid, [], (fs_now o1). simpl.
      rewrite lookup_insert_eq. auto.
    + split; [by apply same_but_eq |]. intros _.
      exists uid, c, m. rewrite Hf. auto.
  - injection Hop as <- <-. split; [by apply same_but_eq | done].
  - injection Hop as <- <-. split; [by apply same_but_eq | done].
  - unfold modify in Hop. injection Hop as <- <-. split; [apply Hput |]. intros _.
    exists (owner_uid o1), [], (fs_now o1). simpl. rewrite lookup_insert_eq. auto.
Qed.

Section Begin.
Context `{UuidText}.

(** The final file and the partial a staged write of [p] under [h] may use. *)
Definition stages (p : Path) (h : Z) (final sf : Path) : Prop :=
  (final = p \/ final = renamed_path p h) /\ staged_path final h = Ok sf.

(** What a successful begin has prepared: an empty partial, or the partial
    there was, of the length to resume from. *)
Definition prepared (h : Z) (resume_from : option Z) (s : StagedWrite) (o o' : LocalHandleOwner) : Prop :=
  staged o' !! h = Some s /\ owner_uid o' = owner_uid o /\
  exists uid c m, files o' !! staged_file s = Some (RegularFile uid c m)
    /\ is_none_or (fun offset => Z.of_nat (length c) =? offset) resume_from = true
    /\ (c = [] \/ is_some resume_from = true /\ files o !! staged_file s = Some (RegularFile uid c m)).

Lemma staged_target_disk h e pol c : preserves disk (staged_target h e pol c).
Proof. unfold staged_target. solve_disk. Qed.

Lemma staged_target_ok h e pol c o o' current final p :
  bindings o !! h = Some {| binding_path := p; binding_access := StagedDestination |} ->
  staged_target h e pol c o = (o', Ok (current, final)) ->
  final = p \/ final = renamed_path p h.
Proof.
  intros Hb Ht. unfold staged_target in Ht. inv_ok.
  match goal with Hc : check _ _ _ = _ |- _ => apply check_disk, disk_bindings in Hc end.
  match goal with Hp : bound_path _ _ _ _ = _ |- _ => unfold bound_path in Hp; inv_ok end.
  match goal with Hp : result_bind _ _ = Ok _, Hx : bindings _ = bindings _ |- _ =>
    rewrite Hx, Hb in Hp; simpl in Hp; injection Hp as <- end.
  case_match; [destruct pol |]; simplify_eq; auto.
Qed.

Lemma partial_check sf resume o o' r uid c m :
  files o !! sf = Some (RegularFile uid c m) ->
  when (is_some resume)
    (mm <- file_metadata sf stat_error ;;
     lift (fun _ => fail_if negb (meta_len mm =? default 0 resume)
                      with error EK_Conflict Op_Resume "local_partial_size_changed" Retry_UserAction in
                    Ok tt)) o = (o', r) ->
  disk o' = disk o
  /\ (is_err r = false -> is_none_or (fun offset => Z.of_nat (length c) =? offset) resume = true).
Proof.
  intros Hf Hr. destruct resume as [offset |]; simpl in Hr; [| by injection Hr as <- <-].
  unfold bind at 1 in Hr. destruct (file_metadata sf stat_error o) as [o1 r1] eqn:H1.
  apply mut_map_err_inv in H1 as (r0 & H1 & ->). pose proof H1 as Hd. apply symlink_metadata_disk in Hd.
  destruct r0 as [mm | ?]; simpl in Hr; [| by injection Hr as <- <-].
  apply (metadata_len _ _ _ _ _ _ _ Hf) in H1. unfold lift in Hr. rewrite H1 in Hr.
  injection Hr as <- <-. split; [done |]. simpl. by destruct (_ =? offset).
Qed.

(** The steps after the checks. *)
Lemma begin_cases h size resume e pol c o o' r p :
  bindings o !! h = Some {| binding_path := p; binding_access := StagedDestination |} ->
  begin_staged_write h size resume e pol c o = (o', r) ->
  (disk o' = disk o /\ is_err r = true) \/
  exists final sf, stages p h final sf
    /\ (forall q, q <> sf -> files o' !! q = files o !! q)
    /\ match r with
       | Err _ => True
       | Ok receipt =>
           local_receipt_handle receipt = h /\ local_receipt_next_offset receipt = default 0 resume
           /\ prepared h resume {| staged_file := sf; final_file := final; staged_conflict_policy := pol |} o o'
       end.
Proof.
  intros Hb Hr. unfold begin_staged_write in Hr. unfold bind at 1 in Hr.
  destruct (staged_target h e pol c o) as [o1 [[current final] | ?]] eqn:Ht;
    [| injection Hr as <- <-; left; split; [by apply staged_target_disk in Ht | done]].
  pose proof (staged_target_ok _ _ _ _ _ _ _ _ _ Hb Ht) as Hfinal.
  apply staged_target_disk in Ht.
  unfold bind at 1, lift at 1 in Hr. destruct (staged_path final h) as [sf |] eqn:Hsf;
    [| injection Hr as <- <-; by left].
  unfold bind at 1, lift at 1 in Hr. case_match;
    [| injection Hr as <- <-; by left].
  right. exists final, sf. split; [done |]. apply disk_eq in Ht as (Hf1 & Hs1 & Hu1).
  unfold bind at 1 in Hr.
  destruct (open_file sf true true (is_none resume) Op_Write o1) as [o2 r2] eqn:Ho.
  apply mut_map_err_inv in Ho as (r0 & Ho & ->).
  apply open_call_cases in Ho as ((Hs2 & Hu2 & Hf2) & Hfile).
  destruct r0 as [[] | ?]; simpl in Hr.
  2:{ injection Hr as <- <-. split; [| done]. intros q Hq. by rewrite Hf2, Hf1. }
  destruct (Hfile eq_refl) as (uid & cont & m & Hcont & Hprev). clear Hfile.
  unfold bind at 1 in Hr. destruct (when _ _ o2) as [o3 r3] eqn:H3.
  apply (partial_check _ _ _ _ _ uid cont m Hcont) in H3 as [Hd3 Hsize].
  apply disk_eq in Hd3 as (Hf3 & Hs3 & Hu3).
  destruct r3 as [[] | ?].
  2:{ injection Hr as <- <-. split; [| done]. intros q Hq. by rewrite Hf3, Hf2, Hf1. }
  injection Hr as <- <-. simpl. split; [intros q Hq; by rewrite Hf3, Hf2, Hf1 |].
  split_and!; [done | done |]. split_and!; simpl; [apply lookup_insert_eq | congruence |].
  exists uid, cont, m. rewrite Hf3. split_and!; [done | by apply Hsize |].
  destruct Hprev as [-> | [Hres Hprev]]; [by left | right].
  split; [by destruct resume | congruence].
Qed.

(** A resume whose partial is not there is refused. *)
Lemma resume_needs_partial h size offset e pol c o o' r p :
  bindings o !! h = Some {| binding_path := p; binding_access := StagedDestination |} ->
  0 < offset ->
  (forall final sf, stages p h final sf -> files o !! sf = None) ->
  begin_staged_write h size (Some offset) e pol c o = (o', r) -> is_err r = true.
Proof.
  intros Hb Hpos Habs Hr. destruct (begin_cases _ _ _ _ _ _ _ _ _ _ Hb Hr)
    as [[_ He] | (final & sf & Hst & _ & Hok)]; [done |].
  destruct r as [rc |]; [| done]. exfalso.
  destruct Hok as (_ & _ & _ & _ & uid & cont & m & Hf & Hlen & Hprev). simpl in *.
  apply Z.eqb_eq in Hlen. destruct Hprev as [-> | [_ Hprev]]; [simpl in Hlen; lia |].
  by rewrite (Habs _ _ Hst) in Hprev.
Qed.
End Begin.

(** ** Time

    Every call leaves the clock alone and moves the time on. *)

Definition later (o o' : LocalHandleOwner) : Prop := clock o' = clock o /\ (tick o <= tick o')%nat.

#[export] Instance later_refl : Reflexive later.
Proof. intros o. by split. Qed.
#[export] Instance later_trans : Transitive later.
Proof. intros o1 o2 o3 [H1 H2] [H3 H4]. split; [congruence | lia]. Qed.

Lemma later_modify {E} (g : LocalHandleOwner -> LocalHandleOwner) :
  (forall o, clock (g o) = clock o /\ tick (g o) = tick o) ->
  respects later (modify g : mut LocalHandleOwner unit E).
Proof. intros Hg. apply respects_modify. intros o. destruct (Hg o). split; [done | lia]. Qed.

Lemma instant_later {E} : respects later (instant_now (E := E)).
Proof.
  unfold instant_now. solve_respects. apply respects_modify. intros o. split; [done | simpl; lia].
Qed.

Lemma sys_later : respects later sys.
Proof. unfold sys. intros o o' r Hs. destruct (io_faults o) as [| [e |] l]; by simplify_eq/=. Qed.
#[export] Hint Resolve instant_later sys_later : rust_effects.

Lemma check_later c op : respects later (check c op).
Proof. unfold check. solve_respects. Qed.

Lemma sys_kind_later : respects later sys_kind.
Proof. unfold sys_kind. solve_respects. Qed.
#[export] Hint Resolve check_later sys_kind_later : rust_effects.

Lemma symlink_metadata_later p : respects later (symlink_metadata p).
Proof. unfold symlink_metadata. solve_respects. Qed.
#[export] Hint Resolve symlink_metadata_later : rust_effects.

Lemma open_file_later p w b t op : respects later (open_file p w b t op).
Proof. unfold open_file, open_call. solve_respects; by apply later_modify. Qed.

Lemma file_metadata_later p e : respects later (file_metadata p e).
Proof. unfold file_metadata. solve_respects. Qed.

Lemma validate_owned_later p uid op : respects later (validate_owned_file p uid op).
Proof. unfold validate_owned_file. solve_respects. Qed.
#[export] Hint Resolve open_file_later file_metadata_later validate_owned_later : rust_effects.

Lemma write_at_later p offset data : respects later (write_at p offset data).
Proof.
  intros o o' r Hw. unfold write_at in Hw.
  assert (Hput : forall n o, later o (match files o !! p with
    | Some (RegularFile uid c _) =>
        set_files (<[p := RegularFile uid (take (Z.to_nat offset) c ++ take n data
                                           ++ drop (Z.to_nat offset + n) c) (fs_now o)]> (files o)) o
    | _ => o
    end)) by (intros n x; repeat case_match; by split).
  destruct (sys o) as [o1 [[] | e]] eqn:H1; apply sys_later in H1; [| by injection Hw as <- _].
  etrans; [exact H1 |].
  destruct (sys o1) as [o2 [[] | e]] eqn:H2; apply sys_later in H2; (etrans; [exact H2 |]).
  - unfold bind, modify in Hw. apply sys_later in Hw. etrans; [apply (Hput (length data)) | exact Hw].
  - unfold bind, modify, throw in Hw. injection Hw as <- _. apply Hput.
Qed.
#[export] Hint Resolve write_at_later : rust_effects.

Lemma write_chunk_later h offset data c : respects later (write_chunk h offset data c).
Proof. unfold write_chunk. solve_respects. Qed.

Lemma exists_later p : respects later (exists_ p).
Proof.
  unfold exists_. intros o o' r Hs. destruct (sys o) as [o1 [[] | e]] eqn:H1;
    apply sys_later in H1; by injection Hs as <- _.
Qed.
#[export] Hint Resolve exists_later : rust_effects.

Lemma validate_destination_later p uid : respects later (validate_destination p uid).
Proof. unfold validate_destination. solve_respects. Qed.

Lemma optional_identity_later p uid op : respects later (optional_identity p uid op).
Proof.
  unfold optional_identity. intros o o' r Hs.
  destruct (symlink_metadata p o) as [o1 [m | e]] eqn:H1; apply symlink_metadata_later in H1.
  - etrans; [exact H1 |]. revert Hs. generalize o1 o' r.
    change (respects later (i <- validate_owned_file p uid op ;; ret (Some i))). solve_respects.
  - destruct e; by injection Hs as <- _.
Qed.

Lemma bound_path_later h a op : respects later (bound_path h a op).
Proof. unfold bound_path. solve_respects. Qed.
#[export] Hint Resolve validate_destination_later optional_identity_later bound_path_later : rust_effects.

Lemma begin_later `{UuidText} h size resume e pol c :
  respects later (begin_staged_write h size resume e pol c).
Proof.
  unfold begin_staged_write, staged_target, when. solve_respects. all: by apply later_modify.
Qed.
