(* ===== verification/TransferExecutor.v ===== *)
(** [crates/transfers/src/executor.rs], the executor: public operations on the
    queue, the run of a started task (upload and download loops), the handling
    of its failure, cancellation and shutdown.

    The remote side is an interface, [RemoteOps]: the sessions of the protocol
    crates, which are trait objects here. Its operations act on the whole
    [World], so that whatever other tasks do while a run awaits the network is
    part of what they do. The floating-point target time of the bandwidth
    throttle is a parameter. *)
From S2P Require Import Prelude RemoteCore TransferModel TransferPublic TransferStore TransferQueue LocalFiles.

(** ** Limits *)

Definition DEFAULT_TRANSFER_CHUNK_BYTES : Z := 256 * 1024.
Definition DEFAULT_EXECUTOR_CONCURRENCY : Z := 4.

(** [Duration]s are nanoseconds. *)
Definition seconds (n : Z) : Z := n * 1000000000.
Definition MAX_OPERATION_TIMEOUT : Z := seconds (5 * 60).
Definition MAX_TOTAL_TIMEOUT : Z := seconds (24 * 60 * 60).

Record ExecutorLimits := {
  exec_max_concurrent : Z;
  chunk_bytes_limit : Z;
  operation_timeout : Z;
  total_timeout : Z;
}.

Inductive ExecutorLimitsError := Exec_InvalidConcurrency | InvalidChunkSize | InvalidTimeout.

Definition ExecutorLimits_new (concurrent chunk operation total : Z)
  : result ExecutorLimits ExecutorLimitsError :=
  fail_if (concurrent =? 0) || (MAX_CONCURRENT_TRANSFERS <? concurrent) with Exec_InvalidConcurrency in
  fail_if (chunk =? 0) || (MAX_REMOTE_CHUNK_BYTES <? chunk) with InvalidChunkSize in
  fail_if (operation =? 0) || (MAX_OPERATION_TIMEOUT <? operation) || (total <? operation)
          || (MAX_TOTAL_TIMEOUT <? total)
    with InvalidTimeout in
  Ok {| exec_max_concurrent := concurrent; chunk_bytes_limit := chunk;
        operation_timeout := operation; total_timeout := total |}.

Definition ExecutorLimits_default : ExecutorLimits :=
  {| exec_max_concurrent := DEFAULT_EXECUTOR_CONCURRENCY;
     chunk_bytes_limit := DEFAULT_TRANSFER_CHUNK_BYTES;
     operation_timeout := seconds 30; total_timeout := seconds (60 * 60) |}.

(** ** Errors and checks *)

Inductive ExecutorError :=
| QueuePoisoned | TaskDisappeared | ExecutorClosed | WorkerFailed | PauseUnsupported
| Exec_Queue (e : QueueError)
| Exec_Remote (e : RemoteError).

Definition queue_error : RemoteError := io_error Op_Write "transfer_queue_unavailable".

Definition map_queue_error (e : QueueError) : RemoteError :=
  match e with
  | Mutation StaleRunToken => error EK_Cancelled Op_Write "transfer_run_token_stale" Retry_Never
  | _ => queue_error
  end.

(** [None] is the panic of the [expect]s: the task has no such endpoint. *)
Definition remote_endpoint (t : TransferTask) : option RemoteTransferEndpoint :=
  or_else (TransferEndpoint_remote (source t)) (TransferEndpoint_remote (destination t)).

Definition local_handle (t : TransferTask) : option LocalFileHandle :=
  match source t, destination t with
  | Local handle, _ | _, Local handle => Some handle
  | _, _ => None
  end.

Definition ensure_transfer_protocol (p : RemoteProtocol) : result unit RemoteError :=
  match p with
  | Sftp | Ftp | FtpsExplicit | Smb => Ok tt
  | Ssh => Err (unsupported Op_Connect "ssh_terminal_only")
  end.

(** A matrix without the operation panics in the code; here it is refused. *)
Definition require_capability (m : CapabilityMatrix) (op : FileOperation) : result unit RemoteError :=
  match CapabilityMatrix_status m op with
  | Some Cap_Supported => Ok tt
  | Some (Cap_Unsupported reason) =>
      Err {| err_kind := EK_Unsupported;
             err_operation := match op with
                              | FileOp_Read => Op_Read
                              | FileOp_Write => Op_Write
                              | FileOp_ResumeRead | FileOp_ResumeWrite => Op_Resume
                              | _ => Op_Connect
                              end;
             err_reason := reason; err_retry := Retry_Never |}
  | None => Err (protocol_error Op_Connect "capability_matrix_incomplete")
  end.

Definition checkpoint (t : TransferTask) (now : Z) : TransferCheckpoint :=
  {| cp_offset := bytes_transferred (progress t);
     cp_source_identity := expected_source t;
     cp_destination_identity := expected_destination t;
     cp_verification := match feat_resume_validation (features t) with
                        | Some RV_RemoteIdentity => Verify_RemoteIdentity
                        | Some RV_SizeOnly => Verify_Size
                        | None => Verify_Unverified
                        end;
     cp_verified_at_unix_ms := now |}.

Definition ensure_final_size (transferred : Z) (expected : option Z) (operation : RemoteOperation)
  : result unit RemoteError :=
  fail_if is_some_and (fun v => negb (v =? transferred)) expected
    with error EK_Conflict operation "transfer_source_size_changed" Retry_UserAction in
  Ok tt.

Definition completion_verification (p : RemoteProtocol) : VerificationLevel :=
  match p with
  | Sftp | Smb => Verify_RemoteIdentity
  | Ftp | FtpsExplicit => Verify_Size
  | Ssh => Verify_Unverified
  end.

Section UploadPath.
Context `{UuidText}.

Definition upload_final_path (t : TransferTask) (p : RemotePath) : result RemotePath RemoteError :=
  if eqb (conflict_policy t) Policy_Rename
  then map_err (fun _ => invalid Op_Write "transfer_renamed_path_invalid")
         (RemotePath_new (RemotePath_str p +:+ ".localdesk-" +:+ uuid_string (id t)))
  else Ok p.

Definition temporary_path (t : TransferTask) (final_path : RemotePath) : result RemotePath RemoteError :=
  map_err (fun _ => invalid Op_Write "transfer_staged_path_invalid")
    (RemotePath_new (RemotePath_str final_path +:+ ".localdesk-" +:+ uuid_string (id t) +:+ ".part")).
End UploadPath.

(** ** The world of an executor

    Its queue, the local side with clock and cancellation flags, the controls
    of the active runs, whether it was shut down, the next fresh flag, and the
    wall clock. *)

Section Executor.
Context {St J : Type} `{TransferStore St} `{TaskCodec J} `{UuidText}.

Record World := {
  w_queue : TransferQueue St;
  w_local : LocalHandleOwner;
  w_active : gmap Z RemoteIoControl;
  w_closed : bool;
  w_next_flag : nat;
  w_unix : nat -> Z;
}.

Definition put_queue (q : TransferQueue St) (w : World) : World :=
  {| w_queue := q; w_local := w_local w; w_active := w_active w; w_closed := w_closed w;
     w_next_flag := w_next_flag w; w_unix := w_unix w |}.
Definition put_local (o : LocalHandleOwner) (w : World) : World :=
  {| w_queue := w_queue w; w_local := o; w_active := w_active w; w_closed := w_closed w;
     w_next_flag := w_next_flag w; w_unix := w_unix w |}.
Definition put_active (a : gmap Z RemoteIoControl) (w : World) : World :=
  {| w_queue := w_queue w; w_local := w_local w; w_active := a; w_closed := w_closed w;
     w_next_flag := w_next_flag w; w_unix := w_unix w |}.
Definition put_closed (w : World) : World :=
  {| w_queue := w_queue w; w_local := w_local w; w_active := w_active w; w_closed := true;
     w_next_flag := w_next_flag w; w_unix := w_unix w |}.
Definition bump_flag (w : World) : World :=
  {| w_queue := w_queue w; w_local := w_local w; w_active := w_active w; w_closed := w_closed w;
     w_next_flag := S (w_next_flag w); w_unix := w_unix w |}.

Definition on_queue {A} (m : mut (TransferQueue St) A QueueError) : mut World A QueueError :=
  zoom w_queue put_queue m.
Definition on_local {A E} (m : mut LocalHandleOwner A E) : mut World A E := zoom w_local put_local m.

Definition world_instant {E} : mut World Z E := on_local instant_now.
Definition unix_time_ms {E} : mut World Z E :=
  now <- gets (fun w => w_unix w (tick (w_local w))) ;;
  modify (fun w => put_local (advance_tick (w_local w)) w) ;;;
  ret now.

Abbreviation exec_mut A := (mut World A ExecutorError).

(** ** Operations on the queue *)

Definition ensure_open : exec_mut unit :=
  lift (fun w => fail_if w_closed w with ExecutorClosed in Ok tt).

Definition public_check (t : TransferTask) : result unit ExecutorError :=
  map_err (fun e => Exec_Queue (InvalidPublicContract e)) (validate_public t).

Definition get_task (tid : TransferId) : exec_mut TransferTask :=
  lift (fun w => ok_or (Exec_Queue TaskNotFound) (task tid (w_queue w))).

(** A task without a local endpoint panics in the code; [validate_public] has
    excluded it. *)
Definition enqueue_public (t : TransferTask) : exec_mut TransferTask :=
  ensure_open ;;;
  lift (fun _ => public_check t) ;;;
  let access := match direction t with Upload => ReadSource | Download => StagedDestination end in
  handle <- lift (fun _ => ok_or WorkerFailed (local_handle t)) ;;
  mut_map_err Exec_Remote (on_local (validate_handle handle access)) ;;;
  mut_map_err Exec_Queue (on_queue (enqueue t)) ;;;
  ret t.

Definition get_public (tid : TransferId) : exec_mut TransferTask :=
  ensure_open ;;;
  t <- get_task tid ;;
  lift (fun _ => public_check t) ;;;
  ret t.

Definition list_public (query : TransferQuery) : exec_mut TransferPage :=
  ensure_open ;;;
  lift (fun w => map_err Exec_Queue (page query (w_queue w))).

Definition references_profile (p : ProfileId) : exec_mut bool :=
  ensure_open ;;;
  gets (fun w => existsb (fun t => eqb (remote_profile_id t) (Some p)) (tasks (w_queue w))).

(** The mutation is a closure that reads the time. *)
Definition mutate_public (tid : TransferId) (expected_rev : Z) (mutation : Z -> task_mut StateChange)
  : exec_mut TransferMutationResult :=
  current <- get_task tid ;;
  lift (fun _ => public_check current) ;;;
  if negb (revision current =? expected_rev)
  then ret (MutationConflict expected_rev current)
  else
    now <- unix_time_ms ;;
    mut_map_err Exec_Queue (on_queue (mutate tid (mutation now))) ;;;
    t <- lift (fun w => ok_or TaskDisappeared (task tid (w_queue w))) ;;
    lift (fun _ => public_check t) ;;;
    ret (Updated t).

(** [control.cancel()] of the run's control, if the task is being run. *)
Definition cancel_active (tid : TransferId) : exec_mut unit :=
  c <- gets (fun w => w_active w !! tid) ;;
  match c with
  | Some control =>
      modify (fun w => put_local (set_flags (RemoteIoControl_cancel control (flags (w_local w)))
                                    (w_local w)) w)
  | None => ret tt
  end.

Definition request_cancel_public (tid : TransferId) (expected_rev : Z) : exec_mut TransferMutationResult :=
  ensure_open ;;;
  r <- mutate_public tid expected_rev request_cancel ;;
  match r with Updated _ => cancel_active tid | MutationConflict _ _ => ret tt end ;;;
  ret r.

Definition request_retry_public (tid : TransferId) (expected_rev : Z) : exec_mut TransferMutationResult :=
  ensure_open ;;; mutate_public tid expected_rev schedule_retry.

Definition resolve_conflict_public (tid : TransferId) (expected_rev : Z) (policy : ConflictPolicy)
  : exec_mut TransferMutationResult :=
  ensure_open ;;; mutate_public tid expected_rev (resolve_conflict policy).

Definition exec_request_cancel (tid : TransferId) : exec_mut unit :=
  now <- unix_time_ms ;;
  mut_map_err Exec_Queue (on_queue (mutate tid (request_cancel now))) ;;;
  cancel_active tid.

Definition exec_request_pause (tid : TransferId) : exec_mut unit := throw PauseUnsupported.

(** The mutation [request_shutdown] makes on every task of an active run. *)
Definition cancel_if_active (now : Z) : task_mut StateChange :=
  s <- gets state ;; if is_active s then request_cancel now else ret Unchanged.

Fixpoint shutdown_loop (ids : list TransferId) (now : Z) : exec_mut unit :=
  match ids with
  | [] => ret tt
  | tid :: ids' =>
      mut_map_err Exec_Queue (on_queue (mutate tid (cancel_if_active now))) ;;; shutdown_loop ids' now
  end.

Fixpoint cancel_all (ids : list TransferId) : exec_mut unit :=
  match ids with [] => ret tt | tid :: ids' => cancel_active tid ;;; cancel_all ids' end.

(** The order of a [HashMap]'s iteration is unspecified; the ids come in map
    order here. *)
Definition request_shutdown : exec_mut Z :=
  ids <- gets (fun w => (map_to_list (w_active w)).*1) ;;
  cancel_all ids ;;;
  modify put_closed ;;;
  now <- unix_time_ms ;;
  shutdown_loop ids now ;;;
  ret (Z.of_nat (length ids)).

Definition exec_start_next : exec_mut (option (TransferTask * RunToken)) :=
  now <- unix_time_ms ;;
  token <- mut_map_err Exec_Queue (on_queue (start_next now)) ;;
  match token with
  | None => ret None
  | Some token =>
      t <- lift (fun w => ok_or TaskDisappeared (task (token_task_id token) (w_queue w))) ;;
      ret (Some (t, token))
  end.

(** ** Failures *)

Definition mutate_run {T} (tid : TransferId) (m : task_mut T) : exec_mut T :=
  mut_map_err Exec_Queue (on_queue (mutate tid m)).

Definition ignore_exhausted (m : exec_mut StateChange) : exec_mut unit :=
  fun w => match m w with
           | (w', Err (Exec_Queue (Mutation RetryExhausted))) => (w', Ok tt)
           | (w', Err e) => (w', Err e)
           | (w', Ok _) => (w', Ok tt)
           end.

Definition persist_failure (tid : TransferId) (token : RunToken) (failure : RemoteError) : exec_mut unit :=
  now <- unix_time_ms ;;
  current <- lift (fun w => ok_or TaskDisappeared (task tid (w_queue w))) ;;
  let cp := checkpoint current now in
  if eqb (TransferState_kind (state current)) K_Cancelling || eqb (err_kind failure) EK_Cancelled
  then mutate_run tid (confirm_cancelled token (Some cp) now) ;;; ret tt
  else if eqb (err_kind failure) EK_Conflict
  then mutate_run tid (enter_conflict token {| conflict_reason := err_reason failure;
                                               conflict_checkpoint := Some cp |} now) ;;; ret tt
  else
    mutate_run tid (fail token (TransferFailure_from failure) now) ;;;
    if RemoteError_is_retryable failure
    then ignore_exhausted (mutate_run tid (schedule_retry now))
    else ret tt.

(** ** The run of a task *)

(** A run fails with a remote error; [OutOfFuel] marks a loop cut off by the
    fuel of the model. *)
Inductive run_error := Run (e : RemoteError) | OutOfFuel.
Abbreviation run_mut A := (mut World A run_error).

Definition local {A} (m : owner_mut A) : run_mut A := mut_map_err Run (on_local m).
Definition remote {A} (m : mut World A RemoteError) : run_mut A := mut_map_err Run m.
Definition require {A} (r : result A RemoteError) : run_mut A := lift (fun _ => map_err Run r).

(** The sessions the protocol crates give. *)
Class RemoteOps := {
  factory_io_control_support : RemoteTransferEndpoint -> RemoteIoControlSupport;
  remote_open : RemoteTransferEndpoint -> RemoteIoControl -> mut World RemoteSession RemoteError;
  session_io_control_support : RemoteSession -> RemoteIoControlSupport;
  remote_begin_write : BeginWriteRequest -> RemoteIoControl -> mut World RemoteWriteReceipt RemoteError;
  remote_write_chunk : Uuid -> Z -> list Z -> RemoteIoControl -> mut World RemoteWriteReceipt RemoteError;
  remote_commit_write : Uuid -> option ObjectIdentity -> RemoteIoControl -> mut World ObjectIdentity RemoteError;
  remote_abort_write : Uuid -> RemoteIoControl -> mut World unit RemoteError;
  remote_read_chunk : RemoteReadRequest -> RemoteIoControl -> mut World RemoteReadChunk RemoteError;
  remote_disconnect : RemoteIoControl -> mut World unit RemoteError;
}.

Context {ops : RemoteOps}.
Variable limits : ExecutorLimits.

(** [Duration::from_secs_f64(bytes as f64 / limit as f64)], in nanoseconds. *)
Variable throttle_target : Z -> Z -> Z.

Definition operation_control (total : RemoteIoControl) : run_mut RemoteIoControl :=
  now <- world_instant ;; ret (RemoteIoControl_with_deadline total (now + operation_timeout limits)).

Definition new_control (deadline : Z) {E} : mut World RemoteIoControl E :=
  flag <- gets w_next_flag ;;
  modify bump_flag ;;;
  ret {| control_deadline := deadline; control_flag := flag |}.

Definition cleanup_control : run_mut RemoteIoControl :=
  now <- world_instant ;; new_control (now + operation_timeout limits).

Definition run_record_progress (tid : TransferId) (token : RunToken) (bytes : Z)
    (total speed : option Z) : run_mut unit :=
  now <- unix_time_ms ;;
  remote (mut_map_err map_queue_error
    (on_queue (mutate tid (record_progress token bytes total speed now)))) ;;;
  ret tt.

(** The sleep loop of the throttle; each turn reads the clock. *)
Fixpoint throttle_loop (fuel : nat) (expected started : Z) (control : RemoteIoControl) : run_mut unit :=
  match fuel with
  | O => throw OutOfFuel
  | S n =>
      now <- world_instant ;;
      if now - started <? expected
      then local (check control Op_Write) ;;; throttle_loop n expected started control
      else ret tt
  end.

Definition throttle_and_record (fuel : nat) (t : TransferTask) (token : RunToken) (bytes : Z)
    (total : option Z) (started : Z) (control : RemoteIoControl) : run_mut unit :=
  match limit_get (bandwidth_limit t) with
  | Some limit => throttle_loop fuel (throttle_target bytes limit) started control
  | None => ret tt
  end ;;;
  local (check control Op_Write) ;;;
  now <- world_instant ;;
  let elapsed_ms := Z.max 1 ((now - started) / 1000000) in
  run_record_progress (id t) token bytes total (Some (sat_u64 (bytes * 1000) / elapsed_ms)).

Definition record_zero_progress (t : TransferTask) (token : RunToken) (offset : Z) (total : option Z)
  : run_mut unit :=
  if (bytes_transferred (progress t) =? offset) && eqb total (Some offset)
  then run_record_progress (id t) token offset total None
  else ret tt.

Definition run_complete (t : TransferTask) (protocol : RemoteProtocol) (token : RunToken)
    (ident : ObjectIdentity) : run_mut unit :=
  now <- unix_time_ms ;;
  remote (mut_map_err map_queue_error
    (on_queue (mutate (id t) (complete token
      {| done_verification := completion_verification protocol; done_identity := Some ident;
         completed_at_unix_ms := now |})))) ;;;
  ret tt.

(** [while !total.is_some_and(|size| offset >= size)] *)
Fixpoint upload_loop (fuel : nat) (t : TransferTask) (token : RunToken) (control : RemoteIoControl)
    (handle : LocalFileHandle) (source_ident : ObjectIdentity) (total : option Z) (write_handle : Uuid)
    (started : Z) (offset : Z) : run_mut Z :=
  match fuel with
  | O => throw OutOfFuel
  | S n =>
      if is_some_and (fun size => size <=? offset) total then ret offset
      else
        local (check control Op_Read) ;;;
        c <- operation_control control ;;
        chunk <- local (read_chunk handle offset (chunk_bytes_limit limits) (Some source_ident) c) ;;
        require (fail_if negb (local_chunk_offset chunk =? offset)
                         || (Nat.eqb (length (local_chunk_bytes chunk)) 0 && negb (local_chunk_eof chunk))
                   with protocol_error Op_Read "local_read_chunk_invalid" in Ok tt) ;;;
        offset' <-
          (if Nat.eqb (length (local_chunk_bytes chunk)) 0 then ret offset
           else
             c <- operation_control control ;;
             receipt <- remote (remote_write_chunk write_handle offset (local_chunk_bytes chunk) c) ;;
             let offset' := sat_u64 (offset + Z.of_nat (length (local_chunk_bytes chunk))) in
             require (fail_if negb (receipt_next_offset receipt =? offset')
                        with protocol_error Op_Write "remote_write_offset_mismatch" in Ok tt) ;;;
             throttle_and_record n t token offset' total started control ;;;
             ret offset') ;;
        if local_chunk_eof chunk then ret offset'
        else upload_loop n t token control handle source_ident total write_handle started offset'
  end.

Definition upload_started (fuel : nat) (t : TransferTask) (protocol : RemoteProtocol) (token : RunToken)
    (control : RemoteIoControl) (handle : LocalFileHandle) (source_ident : ObjectIdentity)
    (total : option Z) (offset : Z) (write_handle : Uuid) : run_mut unit :=
  started <- world_instant ;;
  offset' <- upload_loop fuel t token control handle source_ident total write_handle started offset ;;
  require (ensure_final_size offset' total Op_Read) ;;;
  record_zero_progress t token offset' total ;;;
  c <- operation_control control ;;
  ident <- remote (remote_commit_write write_handle (expected_destination t) c) ;;
  run_complete t protocol token ident.

(** [if result.is_err() { let _ = abort; } result] *)
Definition or_abort (m : run_mut unit) (abort : run_mut unit) : run_mut unit :=
  fun w => match m w with
           | (w', Ok _) => (w', Ok tt)
           | (w', Err OutOfFuel) => (w', Err OutOfFuel)
           | (w', Err e) => (fst (abort w'), Err e)
           end.

Definition upload (fuel : nat) (t : TransferTask) (remote_ep : RemoteTransferEndpoint)
    (handle : LocalFileHandle) (token : RunToken) (control : RemoteIoControl) : run_mut unit :=
  c <- operation_control control ;;
  source_ident <- local (source_identity handle c) ;;
  require (ensure_identity (expected_source t) (Some source_ident) Op_Read) ;;;
  let total := size_bytes source_ident in
  let offset := bytes_transferred (progress t) in
  final_path <- require (upload_final_path t (ep_path remote_ep)) ;;
  temp <- require (temporary_path t final_path) ;;
  c <- operation_control control ;;
  receipt <- remote (remote_begin_write
    {| begin_final_path := final_path; begin_temporary_path := temp;
       begin_expected_size_bytes := total;
       begin_resume_from := if 0 <? offset then Some offset else None;
       begin_expected_destination := expected_destination t |} c) ;;
  require (fail_if negb (receipt_next_offset receipt =? offset)
             with protocol_error Op_Write "remote_write_offset_mismatch" in Ok tt) ;;;
  or_abort
    (upload_started fuel t (ep_protocol remote_ep) token control handle source_ident total offset
       (receipt_handle receipt))
    (c <- cleanup_control ;; remote (remote_abort_write (receipt_handle receipt) c)).

Fixpoint download_loop (fuel : nat) (t : TransferTask) (token : RunToken) (control : RemoteIoControl)
    (path : RemotePath) (write_handle : LocalWriteHandle) (started : Z) (total : option Z) (offset : Z)
  : run_mut (Z * option Z) :=
  match fuel with
  | O => throw OutOfFuel
  | S n =>
      local (check control Op_Read) ;;;
      c <- operation_control control ;;
      chunk <- remote (remote_read_chunk
        {| read_path := path; read_offset := offset; read_max_bytes := chunk_bytes_limit limits;
           read_expected_identity := expected_source t |} c) ;;
      require (fail_if negb (chunk_offset chunk =? offset)
                       || (Nat.eqb (length (chunk_bytes chunk)) 0 && negb (chunk_eof chunk))
                 with protocol_error Op_Read "remote_read_chunk_invalid" in Ok tt) ;;;
      let total' := or_else total (size_bytes (chunk_identity chunk)) in
      offset' <-
        (if Nat.eqb (length (chunk_bytes chunk)) 0 then ret offset
         else
           c <- operation_control control ;;
           receipt <- local (write_chunk write_handle offset (chunk_bytes chunk) c) ;;
           let offset' := sat_u64 (offset + Z.of_nat (length (chunk_bytes chunk))) in
           require (fail_if negb (local_receipt_next_offset receipt =? offset')
                      with protocol_error Op_Write "local_write_offset_mismatch" in Ok tt) ;;;
           throttle_and_record n t token offset' total' started control ;;;
           ret offset') ;;
      if chunk_eof chunk then ret (offset', total')
      else download_loop n t token control path write_handle started total' offset'
  end.

Definition download_started (fuel : nat) (t : TransferTask) (protocol : RemoteProtocol)
    (token : RunToken) (control : RemoteIoControl) (path : RemotePath) (total : option Z) (offset : Z)
    (write_handle : LocalWriteHandle) : run_mut unit :=
  started <- world_instant ;;
  ended <- download_loop fuel t token control path write_handle started total offset ;;
  let '(offset', total') := ended in
  require (ensure_final_size offset' total' Op_Read) ;;;
  record_zero_progress t token offset' total' ;;;
  c <- operation_control control ;;
  ident <- local (commit_staged_write write_handle total' c) ;;
  run_complete t protocol token ident.

Definition download (fuel : nat) (t : TransferTask) (remote_ep : RemoteTransferEndpoint)
    (handle : LocalFileHandle) (token : RunToken) (control : RemoteIoControl) : run_mut unit :=
  let offset := bytes_transferred (progress t) in
  let total := expected_source t ≫= size_bytes in
  c <- operation_control control ;;
  receipt <- local (begin_staged_write handle total (if 0 <? offset then Some offset else None)
                      (expected_destination t) (conflict_policy t) c) ;;
  require (fail_if negb (local_receipt_next_offset receipt =? offset)
             with protocol_error Op_Write "local_write_offset_mismatch" in Ok tt) ;;;
  or_abort
    (download_started fuel t (ep_protocol remote_ep) token control (ep_path remote_ep) total offset
       (local_receipt_handle receipt))
    (c <- cleanup_control ;; local (abort_staged_write (local_receipt_handle receipt) c)).

(** [let _ = session.disconnect_controlled(...)], with its answer. *)
Definition disconnect : run_mut unit := c <- cleanup_control ;; remote (remote_disconnect c).

Definition then_disconnect (m : run_mut unit) : run_mut unit :=
  fun w => match m w with
           | (w1, Err OutOfFuel) => (w1, Err OutOfFuel)
           | (w1, Err e) => (fst (disconnect w1), Err e)
           | (w1, Ok _) => disconnect w1
           end.

Definition refuse_io_control (s : RemoteIoControlSupport) : result unit RemoteError :=
  match s with
  | Io_Supported => Ok tt
  | Io_Unsupported reason =>
      Err {| err_kind := EK_Unsupported; err_operation := Op_Connect; err_reason := reason;
             err_retry := Retry_Never |}
  end.

Definition execute_io (fuel : nat) (t : TransferTask) (endpoint : RemoteTransferEndpoint)
    (handle : LocalFileHandle) (token : RunToken) (control : RemoteIoControl) : run_mut unit :=
  require (ensure_transfer_protocol (ep_protocol endpoint)) ;;;
  require (refuse_io_control (factory_io_control_support endpoint)) ;;;
  c <- operation_control control ;;
  session <- remote (remote_open endpoint c) ;;
  then_disconnect
    (require (fail_if negb (session_profile_id session =? ep_profile_id endpoint)
                      || negb (eqb (session_protocol session) (ep_protocol endpoint))
                with protocol_error Op_Connect "transfer_session_identity_mismatch" in Ok tt) ;;;
     require (refuse_io_control (session_io_control_support session)) ;;;
     require (require_capability (session_capabilities session)
                match direction t with Upload => FileOp_Write | Download => FileOp_Read end) ;;;
     (if 0 <? bytes_transferred (progress t)
      then require (require_capability (session_capabilities session) (resume_operation (direction t)))
      else ret tt) ;;;
     match direction t with
     | Upload => upload fuel t endpoint handle token control
     | Download => download fuel t endpoint handle token control
     end).

Record TransferRunOutcome := { outcome_task_id : TransferId; outcome_state : TransferStateKind }.

(** [None] stands for a loop cut off by the fuel. *)
Definition execute_started (fuel : nat) (t : TransferTask) (token : RunToken)
  : exec_mut (option TransferRunOutcome) :=
  ensure_open ;;;
  start <- world_instant ;;
  control <- new_control (start + total_timeout limits) ;;
  modify (fun w => put_active (<[id t := control]> (w_active w)) w) ;;;
  cancelling <- gets (fun w => is_some_and (fun c => eqb (TransferState_kind (state c)) K_Cancelling)
                                 (task (id t) (w_queue w))) ;;
  (if cancelling : bool then cancel_active (id t) else ret tt) ;;;
  endpoint <- lift (fun _ => ok_or WorkerFailed (remote_endpoint t)) ;;
  handle <- lift (fun _ => ok_or WorkerFailed (local_handle t)) ;;
  execution <- (fun w => let '(w', r) := execute_io fuel t endpoint handle token control w in
                         (w', Ok r)) ;;
  match execution with
  | Err OutOfFuel => ret None
  | _ =>
      persisted <- (fun w => match execution with
                             | Err (Run failure) =>
                                 let '(w', r) := persist_failure (id t) token failure w in (w', Ok r)
                             | _ => (w, Ok (Ok tt))
                             end) ;;
      modify (fun w => put_active (delete (id t) (w_active w)) w) ;;;
      lift (fun _ => persisted) ;;;
      current <- lift (fun w => ok_or TaskDisappeared (task (id t) (w_queue w))) ;;
      ret (Some {| outcome_task_id := id t; outcome_state := TransferState_kind (state current) |})
  end.

Definition run_next (fuel : nat) : exec_mut (option TransferRunOutcome) :=
  started <- exec_start_next ;;
  match started with
  | None => ret None
  | Some (t, token) => execute_started fuel t token
  end.
End Executor.
Arguments World : clear implicits.
