(* ===== verification/TransferDownloadFacts.v ===== *)
(** Downloads: what one leaves on disk, that it ends, and what it can be resumed
    from. *)
From stdpp Require Import pretty.
From S2P Require Import Prelude RemoteCore TransferModel TransferStateFacts TransferInvariant TransferPublic TransferPublicFacts TransferStore TransferStoreFacts TransferQueue TransferQueueFacts LocalFiles LocalFilesFacts TransferExecutor.

(** ** Programs of a run *)

Section Runs.
Context {St J : Type} {store : TransferStore St} {codec : TaskCodec J} {uuid : UuidText}.

(** A relation of local sides, on worlds. *)
Definition on_owner (R : relation LocalHandleOwner) : relation (World St) :=
  fun w w' => R (w_local w) (w_local w').

#[export] Instance on_owner_refl R `{!Reflexive R} : Reflexive (on_owner R).
Proof. intros w. by unfold on_owner. Qed.
#[export] Instance on_owner_trans R `{!Transitive R} : Transitive (on_owner R).
Proof. intros w1 w2 w3. unfold on_owner. by etrans. Qed.

Lemma local_respects {A} R (m : mut LocalHandleOwner A RemoteError) :
  respects R m -> respects (on_owner R) (local (St := St) m).
Proof.
  intros Hm. apply respects_map_err. unfold on_local. apply (respects_zoom R); [| done].
  by intros w o.
Qed.

Lemma on_queue_respects {A} R `{!Reflexive R} (m : mut (TransferQueue St) A QueueError) :
  respects (on_owner R) (on_queue m).
Proof.
  intros w w' r Hw. unfold on_queue, zoom in Hw. destruct (m _).
  injection Hw as <- _. red. simpl. reflexivity.
Qed.

Lemma remote_respects {A} R (m : mut (World St) A RemoteError) :
  respects R m -> respects R (remote m).
Proof. apply respects_map_err. Qed.

Lemma world_instant_respects {E} R : respects R (instant_now (E := E)) ->
  respects (on_owner R) (world_instant (St := St) (E := E)).
Proof.
  intros HR. unfold world_instant, on_local. apply (respects_zoom R); [| done]. by intros w o.
Qed.
End Runs.
#[export] Hint Resolve local_respects remote_respects world_instant_respects respects_map_err : rust_effects.
#[export] Hint Extern 1 (respects (on_owner _) (on_queue _)) =>
  apply on_queue_respects; apply _ : rust_effects.

(** ** Downloads *)

Section Download.
Context {St J : Type} {store : TransferStore St} {codec : TaskCodec J} {uuid : UuidText}.
Context {ops : RemoteOps (St := St)}.
Variable limits : ExecutorLimits.
Variable throttle_target : Z -> Z -> Z.

(** The paths a staged write to [p] may end at. *)
Definition target (p : Path) (h : Z) (q : Path) : Prop := q = p \/ q = renamed_path p h.

(** Nothing has touched the staged write [s] of [h], or a file it may end at. *)
Definition undisturbed (p : Path) (h : Z) (o o' : LocalHandleOwner) : Prop :=
  bindings o' !! h = bindings o !! h /\ staged o' !! h = staged o !! h
  /\ (forall q, target p h q \/ (exists final, stages p h final q) -> files o' !! q = files o !! q)
  /\ later o o'.

#[export] Instance undisturbed_refl p h : Reflexive (undisturbed p h).
Proof. intros o. by split_and!. Qed.
#[export] Instance undisturbed_trans p h : Transitive (undisturbed p h).
Proof.
  intros o1 o2 o3 (H1 & H2 & H3 & H4) (G1 & G2 & G3 & G4).
  split_and!; [congruence | congruence | intros q Hq; by rewrite G3, H3 | by etrans].
Qed.

Lemma undisturbed_disk {A E} p h (m : mut LocalHandleOwner A E) :
  preserves disk m -> respects later m -> respects (undisturbed p h) m.
Proof.
  intros Hm Hl o o' r H. pose proof (Hm o o' r H) as Hd.
  pose proof (disk_bindings _ _ Hd) as Hb. apply disk_eq in Hd as (Hf & Hs & Hu).
  split_and!; [by rewrite Hb | by rewrite Hs | intros; by rewrite Hf | by eapply Hl].
Qed.

(** A chunk write leaves everything but the partial. *)
Definition touches_partial (p : Path) (h : Z) (s : StagedWrite) (o o' : LocalHandleOwner) : Prop :=
  staged o' !! h = staged o !! h
  /\ (forall q, target p h q -> q <> staged_file s -> files o' !! q = files o !! q)
  /\ later o o'.

#[export] Instance touches_partial_refl p h s : Reflexive (touches_partial p h s).
Proof. intros o. by split_and!. Qed.
#[export] Instance touches_partial_trans p h s : Transitive (touches_partial p h s).
Proof.
  intros o1 o2 o3 (H1 & H2 & H3) (G1 & G2 & G3).
  split_and!; [congruence | intros q Hq Hn; by rewrite G2, H2 | by etrans].
Qed.

Lemma undisturbed_touches p h s o o' : undisturbed p h o o' -> touches_partial p h s o o'.
Proof. intros (_ & H1 & H2 & H3). split_and!; auto. Qed.

Lemma check_undisturbed p h c op : respects (undisturbed p h) (check c op).
Proof. apply undisturbed_disk; [apply check_disk | apply check_later]. Qed.

Lemma instant_undisturbed {E} p h : respects (undisturbed p h) (instant_now (E := E)).
Proof. apply undisturbed_disk; [apply instant_disk | apply instant_later]. Qed.

Lemma unix_time_undisturbed {E} p h :
  respects (on_owner (undisturbed p h)) (unix_time_ms (St := St) (E := E)).
Proof.
  unfold unix_time_ms. apply respects_bind; [apply _ | solve_respects | intros].
  apply respects_bind; [apply _ | | solve_respects].
  apply respects_modify. intros w. split_and!; try done. split; [done | simpl; lia].
Qed.
#[local] Hint Resolve check_undisturbed instant_undisturbed unix_time_undisturbed : rust_effects.

Lemma operation_control_undisturbed p h c :
  respects (on_owner (undisturbed p h)) (operation_control (St := St) limits c).
Proof. unfold operation_control. solve_respects. Qed.

Lemma cleanup_control_undisturbed p h :
  respects (on_owner (undisturbed p h)) (cleanup_control (St := St) limits).
Proof.
  unfold cleanup_control, new_control. solve_respects.
  apply respects_modify. intros w. by apply (reflexivity (R := undisturbed p h)).
Qed.

Lemma record_undisturbed p h tid token bytes total speed :
  respects (on_owner (undisturbed p h)) (run_record_progress tid token bytes total speed).
Proof. unfold run_record_progress. solve_respects. Qed.
#[local] Hint Resolve operation_control_undisturbed cleanup_control_undisturbed record_undisturbed : rust_effects.

Lemma throttle_loop_undisturbed p h fuel expected started c :
  respects (on_owner (undisturbed p h)) (throttle_loop (St := St) fuel expected started c).
Proof. induction fuel as [| fuel IH]; simpl; solve_respects. Qed.
#[local] Hint Resolve throttle_loop_undisturbed : rust_effects.

Lemma throttle_undisturbed p h fuel t token bytes total started c :
  respects (on_owner (undisturbed p h))
    (throttle_and_record throttle_target fuel t token bytes total started c).
Proof. unfold throttle_and_record. solve_respects. Qed.

Lemma zero_progress_undisturbed p h t token offset total :
  respects (on_owner (undisturbed p h)) (record_zero_progress t token offset total).
Proof. unfold record_zero_progress. solve_respects. Qed.

Lemma run_complete_undisturbed p h t protocol token ident :
  respects (on_owner (undisturbed p h)) (run_complete t protocol token ident).
Proof. unfold run_complete. solve_respects. Qed.
#[local] Hint Resolve throttle_undisturbed zero_progress_undisturbed run_complete_undisturbed : rust_effects.

(** A remote file that holds [data]: a read answers a part of it from the
    offset, and says the end only at the end; meanwhile nothing touches the
    download to [p] under [h]. Which reads fail, and how much one reads, is free. *)
Record serves (data : list Z) (path : RemotePath) (p : Path) (h : Z) : Prop := {
  serves_quietly : forall rq c, respects (on_owner (undisturbed p h)) (remote_read_chunk rq c);
  serves_data : forall rq c w w' chunk,
    read_path rq = path -> remote_read_chunk rq c w = (w', Ok chunk) ->
    (exists n, chunk_bytes chunk = take n (drop (Z.to_nat (read_offset rq)) data))
    /\ (chunk_eof chunk = true ->
        (length data <= Z.to_nat (read_offset rq) + length (chunk_bytes chunk))%nat);
}.

(** The partial of [s] holds the first [offset] bytes of [data]. *)
Definition holds (s : StagedWrite) (h : Z) (data : list Z) (offset : Z) (w : World St) : Prop :=
  staged (w_local w) !! h = Some s /\ 0 <= offset <= Z.of_nat (length data)
  /\ exists uid m, files (w_local w) !! staged_file s
       = Some (RegularFile uid (take (Z.to_nat offset) data) m).

Lemma holds_undisturbed p s h data offset w w' :
  (exists final, stages p h final (staged_file s)) ->
  on_owner (undisturbed p h) w w' -> holds s h data offset w -> holds s h data offset w'.
Proof.
  intros Hst (_ & Hs & Hf & _) (Hw1 & Hw2 & uid & m & Hw3). split_and!; [congruence | lia | lia |].
  exists uid, m. rewrite Hf; [done | by right].
Qed.

Lemma take_extend (data : list Z) n k :
  take n data ++ take k (drop n data) = take (n + length (take k (drop n data))) data.
Proof.
  rewrite <- (take_drop n (take (n + length (take k (drop n data))) data)), take_take. f_equal.
  - f_equal. lia.
  - rewrite skipn_firstn_comm. replace (n + length (take k (drop n data)) - n)%nat
      with (length (take k (drop n data))) by lia.
    destruct (decide (k <= length (drop n data))%nat).
    + by rewrite length_take_le.
    + by rewrite (take_ge (drop n data)), firstn_all by lia.
Qed.

(** A chunk appended to the partial. *)
Lemma write_chunk_holds p s h data offset bytes c w w' r k :
  (exists final, stages p h final (staged_file s)) ->
  Z.of_nat (length data) <= u64_max ->
  holds s h data offset w -> bytes = take k (drop (Z.to_nat offset) data) ->
  local (write_chunk h offset bytes c) w = (w', r) ->
  on_owner (touches_partial p h s) w w'
  /\ (is_err r = false -> holds s h data (offset + Z.of_nat (length bytes)) w'
      /\ sat_u64 (offset + Z.of_nat (length bytes)) = offset + Z.of_nat (length bytes)).
Proof.
  intros Hst Hmax (Hs & Hoff & uid & m & Hf) Hbytes Hr. unfold local in Hr.
  apply mut_map_err_inv in Hr as (r0 & Hr & ->). unfold on_local, zoom in Hr.
  destruct (write_chunk h offset bytes c (w_local w)) as [o' r1] eqn:Hw.
  injection Hr as <- <-. pose proof (write_chunk_later _ _ _ _ _ _ _ Hw) as Hl.
  destruct (write_chunk_modifies _ _ _ _ _ _ _ _ Hs Hw) as (Hs' & _ & Hf').
  split.
  - split_and!; simpl; [by rewrite Hs' | | done]. intros q _ Hq. by apply Hf'.
  - intros Hok. destruct r1 as [rc | ?]; [| discriminate Hok].
    destruct (write_chunk_appends _ _ _ _ _ _ _ _ _ _ _ Hs Hf Hw) as (_ & _ & m' & Hfw).
    assert (Hlen : (length bytes <= length data - Z.to_nat offset)%nat)
      by (subst bytes; rewrite length_take, length_drop; lia).
    split; [| width]. split_and!; simpl; [by rewrite Hs' | lia | lia |].
    exists uid, m'. rewrite Hfw, Hbytes at 1. do 2 f_equal.
    rewrite take_extend, <- Hbytes. f_equal. lia.
Qed.
(** *** Ending

    A clock that moves on with every reading bounds the turns of the throttle by
    the time left. *)

Definition ticking (o : LocalHandleOwner) : Prop := forall k, clock o k < clock o (S k).

Definition time_left (c : RemoteIoControl) (w : World St) : nat :=
  Z.to_nat (control_deadline c - clock (w_local w) (tick (w_local w))).

Definition timed (d : nat) (c : RemoteIoControl) (w : World St) : Prop :=
  ticking (w_local w) /\ (time_left c w <= d)%nat.

Lemma ticking_le o m n : ticking o -> (m <= n)%nat -> clock o m <= clock o n.
Proof. intros Ht. induction 1 as [| n _ IH]; [done |]. specialize (Ht n). lia. Qed.

Lemma timed_later d c w w' : on_owner later w w' -> timed d c w -> timed d c w'.
Proof.
  intros [Hc Ht] [Hw Hd]. unfold timed, ticking, time_left in *. rewrite Hc. split; [done |].
  pose proof (ticking_le (w_local w) _ _ Hw Ht). lia.
Qed.

Lemma check_before_deadline c op o o' u :
  check c op o = (o', Ok u) -> clock o (tick o) < control_deadline c /\ tick o' = S (tick o)
  /\ clock o' = clock o.
Proof.
  unfold check, instant_now. intros H. inv_ok. simpl in *.
  match goal with Hc : RemoteIoControl_check _ _ _ _ = Ok _ |- _ => unfold RemoteIoControl_check in Hc end.
  bool_facts. by repeat case_match; bool_facts.
Qed.

Lemma throttle_loop_ends n expected started c (w w' : World St) r :
  ticking (w_local w) -> (time_left c w < n)%nat ->
  throttle_loop n expected started c w = (w', r) -> r <> Err OutOfFuel.
Proof.
  revert w. induction n as [| n IH]; intros w Ht Hn; [lia |]. simpl. unfold bind at 1.
  set (w1 := put_local (advance_tick (w_local w)) w).
  change (world_instant w) with (w1, Ok (clock (w_local w) (tick (w_local w))) : result Z run_error).
  cbv beta iota. destruct (_ <? expected); [| by intros [= <- <-]]. unfold bind at 1.
  destruct (local (check c Op_Write) w1) as [w2 [u | e]] eqn:Hc; intros Hr.
  - unfold local in Hc. apply mut_map_err_inv in Hc as (r0 & Hc & Hr0). unfold on_local, zoom in Hc.
    destruct (check c Op_Write (w_local w1)) as [o2 [u' | ?]] eqn:Hch; simplify_eq/=.
    apply check_before_deadline in Hch as (Hlt & Htick & Hclock). simpl in *.
    apply IH in Hr; [done | |].
    + intros k. simpl. rewrite Hclock. apply Ht.
    + unfold time_left in *. simpl. rewrite Hclock, Htick.
      pose proof (Ht (tick (w_local w))). pose proof (Ht (S (tick (w_local w)))). lia.
  - injection Hr as <- <-. apply mut_map_err_inv in Hc as (r0 & _ & Hc). by destruct r0; simplify_eq/=.
Qed.

(** Errors of programs without loops. *)
Definition no_cut (e : run_error) : Prop := e <> OutOfFuel.

Lemma map_err_no_cut {A} (m : mut (World St) A RemoteError) : fails_within no_cut (mut_map_err Run m).
Proof.
  intros w w' e H. apply mut_map_err_inv in H as (r0 & _ & H). by destruct r0; simplify_eq/=.
Qed.

Lemma lift_no_cut {A} (f : World St -> result A RemoteError) :
  fails_within no_cut (lift (fun w => map_err Run (f w))).
Proof. unfold lift. intros w w' e [= _ H]. by destruct (f w); simplify_eq/=. Qed.

Lemma world_instant_no_cut : fails_within no_cut (world_instant (St := St)).
Proof. intros w w' e H. by unfold world_instant, on_local, zoom in H. Qed.

Lemma unix_time_no_cut : fails_within no_cut (unix_time_ms (St := St)).
Proof. unfold unix_time_ms. apply fails_within_infallible. solve_effects. Qed.
#[local] Hint Resolve map_err_no_cut lift_no_cut world_instant_no_cut unix_time_no_cut : rust_effects.

Ltac solve_no_cut :=
  repeat first
    [ progress intros
    | solve [eauto 2 with rust_effects]
    | solve [apply fails_within_infallible; solve_effects]
    | apply fails_within_bind
    | apply map_err_no_cut
    | apply (lift_no_cut (fun _ => _))
    | case_match ].

Lemma operation_control_no_cut c : fails_within no_cut (operation_control (St := St) limits c).
Proof. unfold operation_control. solve_no_cut. Qed.

Lemma record_no_cut tid token bytes total speed :
  fails_within no_cut (run_record_progress (St := St) tid token bytes total speed).
Proof. unfold run_record_progress. solve_no_cut. Qed.
#[local] Hint Resolve operation_control_no_cut record_no_cut : rust_effects.

Lemma zero_progress_no_cut t token offset total :
  fails_within no_cut (record_zero_progress (St := St) t token offset total).
Proof. unfold record_zero_progress. solve_no_cut. Qed.

Lemma run_complete_no_cut t protocol token ident :
  fails_within no_cut (run_complete (St := St) t protocol token ident).
Proof. unfold run_complete. solve_no_cut. Qed.
#[local] Hint Resolve zero_progress_no_cut run_complete_no_cut : rust_effects.

(** *** The loop

    [ok] says whether the fuel is known to suffice: without it the loop may be
    cut off, and everything else holds. *)

Definition uncut (ok : Prop) (e : run_error) : Prop := ok -> e <> OutOfFuel.

Definition going (ok : Prop) (d : nat) (c : RemoteIoControl) (s : StagedWrite) (h : Z)
    (data : list Z) (offset : Z) (w : World St) : Prop :=
  holds s h data offset w /\ (ok -> timed d c w).

(** Steps of a run that leave the download alone. *)
Lemma aside {A} p ok d c s h data offset (m : mut (World St) A run_error) :
  (exists final, stages p h final (staged_file s)) ->
  respects (on_owner (undisturbed p h)) m -> fails_within no_cut m ->
  hoare (on_owner (touches_partial p h s)) (uncut ok) (going ok d c s h data offset) m
    (fun _ => going ok d c s h data offset).
Proof.
  intros Hst Hm Hcut. apply (hoare_frame _ _ _ _ _ Hm).
  - intros w w' e He _. by eapply Hcut.
  - intros w w' Hw. by apply undisturbed_touches.
  - intros w w' Hw [Hh Ht]. split; [by apply (holds_undisturbed p s h data offset w) |].
    intros Hok. apply (timed_later _ _ w); [apply Hw | auto].
Qed.

Ltac step_aside p :=
  eapply hoare_bind;
    [apply _ | apply (aside p); [done | solve_respects | solve_no_cut] | intros ?; cbv beta].

Lemma throttle_going p ok d c s h data offset n t token bytes total started :
  (exists final, stages p h final (staged_file s)) -> (ok -> (d < n)%nat) ->
  hoare (on_owner (touches_partial p h s)) (uncut ok) (going ok d c s h data offset)
    (throttle_and_record throttle_target n t token bytes total started c)
    (fun _ => going ok d c s h data offset).
Proof.
  intros Hst Hn. unfold throttle_and_record.
  eapply hoare_bind; [apply _ | |].
  2:{ intros ?. cbv beta. step_aside p. step_aside p. apply (aside p); [done | solve_respects | solve_no_cut]. }
  destruct (limit_get (bandwidth_limit t)) as [limit |]; [| by apply (aside p); [| solve_respects | solve_no_cut]].
  intros w w' r [Hh Ht] Hr. pose proof Hr as Hq. apply (throttle_loop_undisturbed p h) in Hq.
  split; [by apply undisturbed_touches |]. destruct r as [u | e].
  - split; [by apply (holds_undisturbed p s h data offset w) |].
    intros Hok. apply (timed_later _ _ w); [apply Hq | auto].
  - intros Hok. destruct (Ht Hok) as [Htick Hd]. specialize (Hn Hok).
    apply throttle_loop_ends in Hr; [congruence | done | lia].
Qed.

Lemma require_guard (R : relation (World St)) `{!Reflexive R} ok P (b : bool) e :
  hoare R (uncut ok) P (require (fail_if b with e in Ok tt)) (fun _ w => P w /\ b = false).
Proof.
  intros w w' r Hw Hr. unfold require, lift in Hr. injection Hr as <- <-. split; [done |].
  by destruct b.
Qed.

(** The whole loop: if it ends, the partial is the file. *)
Lemma download_loop_holds p ok d s h data path fuel t token c started total offset :
  (exists final, stages p h final (staged_file s)) ->
  Z.of_nat (length data) <= u64_max -> serves data path p h ->
  (ok -> (length data - Z.to_nat offset + d < fuel)%nat) ->
  hoare (on_owner (touches_partial p h s)) (uncut ok) (going ok d c s h data offset)
    (download_loop limits throttle_target fuel t token c path h started total offset)
    (fun _ => going ok d c s h data (Z.of_nat (length data))).
Proof.
  intros Hst Hmax Hserves. revert total offset.
  induction fuel as [| fuel IH]; intros total offset Hfuel; simpl.
  { apply hoare_throw; [apply _ |]. intros w _ Hok. specialize (Hfuel Hok). lia. }
  step_aside p. step_aside p.
  apply hoare_bind with (Q := fun chunk w => going ok d c s h data offset w
    /\ (0 <= offset <= Z.of_nat (length data)
        /\ (exists n, chunk_bytes chunk = take n (drop (Z.to_nat offset) data))
        /\ (chunk_eof chunk = true -> (length data <= Z.to_nat offset + length (chunk_bytes chunk))%nat)));
    [apply _ | |].
  { intros w w' r [Hw Ht] Hr. pose proof Hr as Hcut. apply mut_map_err_inv in Hr as (r0 & Hr & ->).
    pose proof (serves_quietly _ _ _ _ Hserves _ _ _ _ _ Hr) as Hq.
    split; [by apply undisturbed_touches |]. destruct r0 as [chunk | e]; [simpl | by intros _].
    split; [split; [by apply (holds_undisturbed p s h data offset w w') |] |].
    - intros Hok. apply (timed_later _ _ w); [apply Hq | auto].
    - split; [apply Hw |]. by eapply (serves_data _ _ _ _ Hserves) in Hr. }
  intros chunk. apply hoare_fact. intros (Hpos & [n Hn] & Heof).
  eapply hoare_bind; [apply _ | apply require_guard; apply _ |].
  intros ?. apply hoare_fact. intros Hchunk. apply orb_false_iff in Hchunk as [_ Hne].
  apply hoare_bind with (Q := fun offset' w =>
    going ok d c s h data (offset + Z.of_nat (length (chunk_bytes chunk))) w
    /\ offset' = offset + Z.of_nat (length (chunk_bytes chunk))); [apply _ | |].
  { case_match eqn:Hempty.
    - apply hoare_ret; [apply _ |]. intros w Hw. apply Nat.eqb_eq in Hempty.
      by rewrite Hempty, Z.add_0_r.
    - step_aside p.
      apply hoare_bind with (Q := fun _ => going ok d c s h data (offset + Z.of_nat (length (chunk_bytes chunk))));
        [apply _ | |].
      { intros w w' r [Hw Ht] Hr.
        destruct (write_chunk_holds _ _ _ _ _ _ _ _ _ _ _ Hst Hmax Hw Hn Hr) as [Hp Hh].
        split; [done |]. destruct r as [rc |].
        - split; [by apply Hh |]. intros Hok. apply (timed_later _ _ w); [apply Hp | auto].
        - intros _. by eapply map_err_no_cut in Hr. }
      intros rc. step_aside p.
      assert (ok -> (d < fuel)%nat) as Hd.
      { intros Hok. specialize (Hfuel Hok). apply Nat.eqb_neq in Hempty. 
        rewrite Hn, length_take, length_drop in Hempty. lia. }
      eapply hoare_bind; [apply _ | by apply throttle_going | intros ?; cbv beta].
      apply hoare_ret; [apply _ |]. intros w Hw. split; [done |]. destruct Hw as [(_ & Hw & _) _]. width. }
  intros offset'. apply hoare_fact. intros ->. destruct (chunk_eof chunk).
  - apply hoare_ret; [apply _ |]. intros w [(Hw1 & Hw2 & uid & m & Hw3) Ht]. split; [| done].
    split_and!; [done | lia | lia |]. exists uid, m. rewrite Hw3.
    specialize (Heof eq_refl). by rewrite !take_ge by lia.
  - apply IH. intros Hok. specialize (Hfuel Hok). rewrite andb_true_r in Hne.
    apply Nat.eqb_neq in Hne. rewrite Hn, length_take, length_drop in *. lia.
Qed.
(** The end of a download: the staged file holds [data], then replaces the
    final one. *)
Definition committed (p : Path) (h : Z) (s : StagedWrite) (data : list Z) (w w' : World St) : Prop :=
  (exists uid m, files (w_local w') !! final_file s = Some (RegularFile uid data m))
  /\ forall q, target p h q -> q <> final_file s -> q <> staged_file s ->
       files (w_local w') !! q = files (w_local w) !! q.

Definition kept (p : Path) (h : Z) (s : StagedWrite) (w w' : World St) : Prop :=
  forall q, target p h q -> q <> staged_file s -> files (w_local w') !! q = files (w_local w) !! q.

Lemma commit_holds p s h data e c w w' r :
  staged_file s <> final_file s ->
  holds s h data (Z.of_nat (length data)) w ->
  local (commit_staged_write h e c) w = (w', r) ->
  (staged (w_local w') !! h = Some s \/ staged (w_local w') !! h = None)
  /\ ((kept p h s w w' /\ is_err r = true) \/ committed p h s data w w').
Proof.
  intros Hne (Hs & _ & uid & m & Hf) Hr. rewrite Nat2Z.id, take_ge in Hf by lia.
  apply mut_map_err_inv in Hr as (r0 & Hr & ->). unfold on_local, zoom in Hr.
  destruct (commit_staged_write h e c (w_local w)) as [o' r1] eqn:Hc. injection Hr as <- <-.
  destruct (commit_cases _ _ _ _ _ _ _ Hs Hc) as (_ & Hst & Hcases). simpl. split.
  { destruct Hst as [-> | ->]; [by left | right; apply lookup_delete_eq]. }
  destruct Hcases as [[Hfiles He] | (n & Hn & Hfiles)].
  - left. split; [| by destruct r1]. intros q _ _. simpl. by rewrite Hfiles.
  - right. rewrite Hf in Hn. injection Hn as <-. split.
    + exists uid, m. simpl. rewrite Hfiles. apply lookup_insert_eq.
    + intros q _ Hq1 Hq2. simpl. rewrite Hfiles, lookup_insert_ne, lookup_delete_ne by congruence.
      done.
Qed.
(** A run that has ended, on its staged write and its target files. *)
Definition settled {A E} (p : Path) (h : Z) (s : StagedWrite) (data : list Z)
    (w w' : World St) (r : result A E) : Prop :=
  (staged (w_local w') !! h = Some s \/ staged (w_local w') !! h = None)
  /\ ((kept p h s w w' /\ is_err r = true) \/ committed p h s data w w').

Lemma settled_after {A E B} p h s data (w w1 w' : World St) (r : result A E) (r' : result B E) :
  on_owner (touches_partial p h s) w w1 -> (is_err r = true -> is_err r' = true) ->
  settled p h s data w1 w' r -> settled p h s data w w' r'.
Proof.
  intros (_ & Hf & _) He [Hs Hc]. split; [done |]. destruct Hc as [[Hk Hr] | [Hd Hk]]; [left | right].
  - split; [| auto]. intros q Hq Hn. by rewrite Hk, Hf.
  - split; [done |]. intros q Hq H1 H2. by rewrite Hk, Hf.
Qed.

Definition ends {A} (ok : Prop) (r : result A run_error) : Prop := ok -> r <> Err OutOfFuel.

Lemma settled_bind {A B} p ok d c h s data offset (m : mut (World St) A run_error) Q
    (k : A -> mut (World St) B run_error) w w' r :
  hoare (on_owner (touches_partial p h s)) (uncut ok) (going ok d c s h data offset) m Q ->
  (forall a w1 w2 r2, Q a w1 -> k a w1 = (w2, r2) -> settled p h s data w1 w2 r2 /\ ends ok r2) ->
  going ok d c s h data offset w -> bind m k w = (w', r) -> settled p h s data w w' r /\ ends ok r.
Proof.
  intros Hm Hk Hw Hr. unfold bind in Hr. destruct (m w) as [w1 [a | e]] eqn:H1;
    destruct (Hm _ _ _ Hw H1) as [Ht Ha].
  - destruct (Hk _ _ _ _ Ha Hr) as [Hset He]. split; [| done].
    eapply settled_after; [exact Ht | | exact Hset]. done.
  - injection Hr as <- <-. destruct Ht as (Hs & Hf & _). destruct Hw as ((Hw & _) & _).
    split; [| intros Hok; specialize (Ha Hok); congruence].
    split; [left; congruence |]. left. by split.
Qed.

Lemma download_started_settles p ok d s h data path fuel t protocol token c total offset w w' r :
  (exists final, stages p h final (staged_file s)) -> staged_file s <> final_file s ->
  target p h (final_file s) ->
  Z.of_nat (length data) <= u64_max -> serves data path p h ->
  (ok -> (length data - Z.to_nat offset + d < fuel)%nat) -> going ok d c s h data offset w ->
  download_started limits throttle_target fuel t protocol token c path total offset h w = (w', r) ->
  settled p h s data w w' r /\ ends ok r.
Proof.
  intros Hst Hne Htgt Hmax Hserves Hfuel Hw.
  apply (settled_bind _ ok d c _ _ _ offset _ (fun _ => going ok d c s h data offset)); [| | done].
  { apply (aside p); [done | solve_respects | solve_no_cut]. }
  intros a w1 w2 r2 Hw1.
  apply (settled_bind _ ok d c _ _ _ offset _ (fun _ => going ok d c s h data (Z.of_nat (length data)))); [| | done].
  { by apply download_loop_holds. }
  intros [offset' total'] w3 w4 r4 Hw3.
  do 3 (apply (settled_bind _ ok d c _ _ _ (Z.of_nat (length data)) _
                 (fun _ => going ok d c s h data (Z.of_nat (length data))));
    [apply (aside p); [done | solve_respects | solve_no_cut] | | done]; clear dependent w3; intros ? w3 ? ? Hw3).
  match goal with |- _ ?w1 = (?w2, ?r2) -> _ => rename w1 into v1, w2 into v2; rename r2 into rr end.
  match goal with |- bind (local (commit_staged_write h total' ?x)) _ _ = _ -> _ => rename x into c1 end.
  intros Hr. unfold bind in Hr.
  destruct (local (commit_staged_write h total' c1) v1) as [v3 [ident | e]] eqn:Hc;
    pose proof Hc as Hcut; destruct Hw3 as [Hw3 _];
    apply commit_holds with (1 := Hne) (2 := Hw3) (p := p) in Hc as [Hs Hc].
  - destruct Hc as [[_ ?] | [[uid [m Hd]] Hk]]; [done |].
    pose proof (run_complete_undisturbed p h t protocol token ident _ _ _ Hr) as (_ & Hs' & Hf & _).
    split.
    + split; [by rewrite Hs' |]. right. split.
      * exists uid, m. rewrite Hf by (by left). done.
      * intros q Hq H1 H2. rewrite Hf by (by left). by apply Hk.
    + intros _ ->. by apply run_complete_no_cut in Hr.
  - injection Hr as <- <-. split; [by split |]. intros _ [= ->]. by apply map_err_no_cut in Hcut.
Qed.

(** The abort of a download touches the partial only. *)
Lemma abort_keeps p s h w w' r :
  staged (w_local w) !! h = Some s \/ staged (w_local w) !! h = None ->
  (c <- cleanup_control limits ;; local (abort_staged_write h c)) w = (w', r) -> kept p h s w w'.
Proof.
  intros Hs Hr. unfold bind in Hr.
  destruct (cleanup_control limits w) as [w1 [c | e]] eqn:H1;
    apply (cleanup_control_undisturbed p h) in H1 as (_ & Hs1 & Hf1 & _).
  2:{ injection Hr as <- _. intros q Hq _. apply Hf1. by left. }
  apply mut_map_err_inv in Hr as (r0 & Hr & ->). unfold on_local, zoom in Hr.
  destruct (abort_staged_write h c (w_local w1)) as [o' r1] eqn:Ha. injection Hr as <- _.
  intros q Hq Hne. simpl. rewrite <- Hf1 by (by left). destruct Hs as [Hs | Hs]; rewrite <- Hs1 in Hs.
  - destruct (abort_cases _ _ _ _ _ _ Hs Ha) as (_ & _ & Hf). by rewrite Hf.
  - unfold abort_staged_write in Ha. unfold bind at 1 in Ha.
    destruct (check c Op_Write (w_local w1)) as [o1 [[] | ?]] eqn:Hc;
      apply check_disk, disk_eq in Hc as (Hf & Hs2 & _); [| injection Ha as <- _; by rewrite Hf].
    unfold bind, gets, modify in Ha. rewrite Hs2, Hs in Ha. injection Ha as <- _. simpl. by rewrite Hf.
Qed.

(** What a download to [p] leaves: the target files as they were and an error,
    or the whole remote file at one of them and the other as it was. *)
Definition download_outcome {A} (p : Path) (h : Z) (data : list Z) (w w' : World St)
    (r : result A run_error) : Prop :=
  (is_err r = true /\ forall q, target p h q -> files (w_local w') !! q = files (w_local w) !! q)
  \/ exists final, target p h final
       /\ (exists uid m, files (w_local w') !! final = Some (RegularFile uid data m))
       /\ forall q, target p h q -> q <> final -> files (w_local w') !! q = files (w_local w) !! q.

(** The partials of a download to [p] are not its target files, and one that is
    resumed holds what was received. *)
Definition ready (p : Path) (h : Z) (data : list Z) (offset : Z) (o : LocalHandleOwner) : Prop :=
  bindings o !! h = Some {| binding_path := p; binding_access := StagedDestination |}
  /\ forall final sf, stages p h final sf ->
       ~ target p h sf
       /\ forall uid c m, files o !! sf = Some (RegularFile uid c m) -> 0 < offset ->
            Z.of_nat (length c) = offset -> c = take (Z.to_nat offset) data.

Lemma settled_outcome p h s data (w w1 w2 : World St) (r : result unit run_error) :
  target p h (final_file s) -> ~ target p h (staged_file s) ->
  settled p h s data w w1 r -> kept p h s w1 w2 ->
  download_outcome p h data w w2 r.
Proof.
  intros Htgt Hnt [_ Hc] Hk.
  assert (Hall : forall q, target p h q -> files (w_local w2) !! q = files (w_local w1) !! q)
    by (intros q Hq; apply Hk; [done |]; by intros ->).
  destruct Hc as [[Hw He] | [[uid [m Hd]] Hw]].
  - left. split; [done |]. intros q Hq. rewrite Hall by done. apply Hw; [done |]. by intros ->.
  - right. exists (final_file s). split; [done |]. split.
    + exists uid, m. by rewrite Hall.
    + intros q Hq Hne. rewrite Hall by done. apply Hw; [done | done |]. by intros ->.
Qed.

(** A successful begin of a download leaves a partial to go on with. *)
Lemma begin_holds size e pol c p h data offset w w' r :
  let resume := if 0 <? offset then Some offset else None in
  0 <= offset <= Z.of_nat (length data) -> ready p h data offset (w_local w) ->
  local (begin_staged_write h size resume e pol c) w = (w', r) ->
  (forall q, target p h q -> files (w_local w') !! q = files (w_local w) !! q)
  /\ forall rc, r = Ok rc -> local_receipt_handle rc = h /\ local_receipt_next_offset rc = offset
       /\ exists s, target p h (final_file s) /\ stages p h (final_file s) (staged_file s)
            /\ holds s h data offset w'.
Proof.
  intros resume Hoff [Hb Hready] Hr. apply mut_map_err_inv in Hr as (r0 & Hr & ->).
  unfold on_local, zoom in Hr.
  destruct (begin_staged_write _ _ _ _ _ _ (w_local w)) as [o2 r1] eqn:Hbeg. injection Hr as <- <-.
  destruct (begin_cases _ _ _ _ _ _ _ _ _ _ Hb Hbeg) as [[Hd He] | (final & sf & Hst & Hf & Hok)].
  { apply disk_eq in Hd as (Hf & _). simpl. split; [intros q _; by rewrite Hf | by destruct r1]. }
  destruct (Hready _ _ Hst) as [Hnt Hres]. simpl. split.
  { intros q Hq. apply Hf. by intros ->. }
  intros rc Hrc. destruct r1 as [rc' |]; [| done]. injection Hrc as ->.
  destruct Hok as (Hh & Hn & Hs & _ & uid & cont & m & Hcont & Hlen & Hprev). simpl in *.
  split; [done |]. assert (default 0 resume = offset) as Hdef.
  { subst resume. destruct (0 <? offset) eqn:H0; simpl; bool_facts; lia. }
  split; [congruence |].
  exists {| staged_file := sf; final_file := final; staged_conflict_policy := pol |}. split; [exact (proj1 Hst) |].
  split; [exact Hst |].
  split; [exact Hs |]. split; [done |]. exists uid, m. simpl. rewrite Hcont. do 2 f_equal.
  subst resume. destruct (0 <? offset) eqn:H0; simpl in *; bool_facts.
  - destruct Hprev as [-> | [_ Hprev]]; [simpl in Hlen; lia |]. by apply (Hres uid cont m).
  - replace offset with 0 by lia. by destruct Hprev as [-> | [? _]].
Qed.

Lemma ready_undisturbed p h data offset o o' :
  undisturbed p h o o' -> ready p h data offset o -> ready p h data offset o'.
Proof.
  intros (Hb & _ & Hf & _) [Hr1 Hr2]. split; [congruence |]. intros final sf Hst.
  destruct (Hr2 _ _ Hst) as [Hn Hc]. split; [done |]. intros uid c m. rewrite Hf by eauto. apply Hc.
Qed.

Lemma download_cases ok d fuel t ep h token control data p w w' r :
  let offset := bytes_transferred (progress t) in
  0 <= offset <= Z.of_nat (length data) -> Z.of_nat (length data) <= u64_max ->
  serves data (ep_path ep) p h -> ready p h data offset (w_local w) ->
  (ok -> (length data - Z.to_nat offset + d < fuel)%nat) -> (ok -> timed d control w) ->
  download limits throttle_target fuel t ep h token control w = (w', r) ->
  download_outcome p h data w w' r /\ ends ok r.
Proof.
  intros offset Hoff Hmax Hserves Hready Hfuel Htimed Hr. unfold download in Hr. fold offset in Hr.
  set (resume := if 0 <? offset then Some offset else None) in Hr.
  unfold bind at 1 in Hr. destruct (operation_control limits control w) as [w1 [c | e]] eqn:H1;
    pose proof H1 as He1; apply (operation_control_undisturbed p h) in H1; pose proof H1 as (_ & _ & Hf1 & _).
  2:{ pose proof (operation_control_no_cut control _ _ _ He1) as Hcut. injection Hr as <- <-.
      split; [left; split; [done |] | by intros _ [= ->]]. intros q Hq. apply Hf1. by left. }
  apply (ready_undisturbed _ _ _ _ _ _ H1) in Hready.
  unfold bind at 1 in Hr. destruct (local _ w1) as [w2 r2] eqn:Hbeg.
  destruct (begin_holds _ _ _ _ _ _ _ _ _ _ _ Hoff Hready Hbeg) as [Hf2 Hok].
  assert (forall q, target p h q -> files (w_local w2) !! q = files (w_local w) !! q) as Hf.
  { intros q Hq. rewrite Hf2 by done. apply Hf1. by left. }
  destruct r2 as [rc | ?]; [| pose proof (map_err_no_cut _ _ _ _ Hbeg) as Hcut; injection Hr as <- <-;
     split; [by left | by intros _ [= ->]]].
  destruct (Hok rc eq_refl) as (Hh & Hn & s & Htgt & Hst & Hholds). clear Hok.
  assert (~ target p h (staged_file s)) as Hnt by (by apply Hready in Hst as [? _]).
  unfold bind at 1, require, lift in Hr. rewrite Hn, Z.eqb_refl, Hh in Hr. simpl in Hr.
  unfold or_abort in Hr. destruct (download_started _ _ _ _ _ _ _ _ _ _ _ w2) as [w3 r3] eqn:Hrun.
  assert (staged_file s <> final_file s) as Hne by (intros Heq; by rewrite Heq in Hnt).
  assert (ok -> timed d control w2) as Htimed2.
  { intros Hok. apply (timed_later _ _ w1); [by eapply local_respects in Hbeg; [| apply begin_later] |].
    apply (timed_later _ _ w); [apply H1 | auto]. }
  eapply download_started_settles in Hrun as [Hrun Hends];
    [| eauto | done | done | done | done | exact Hfuel | by split].
  assert (exists w4, kept p h s w3 w4 /\ w' = w4 /\ r = r3) as (w4 & Hk & -> & ->).
  { destruct r3 as [[] | [e |]]; injection Hr as <- <-.
    - exists w3. by split_and!.
    - destruct ((_ <- cleanup_control limits ;; _) w3) as [w4 r4] eqn:Ha.
      exists w4. split_and!; [| done | done]. eapply abort_keeps; [apply Hrun | exact Ha].
    - exists w3. by split_and!. }
  assert (download_outcome p h data w2 w4 r3) as Ho by (by eapply settled_outcome).
  split; [| done]. unfold download_outcome in *.
  destruct Ho as [[? Hq] | (final & ? & ? & Hq)]; [left | right; exists final]; split_and!; try done;
    intros q; intros; by rewrite Hq, Hf.
Qed.
(** C1: a download is atomic: whatever the remote side and the disk do - reads
    of any size that fail at any point, system calls that fail, cancellation,
    the deadline, a failing queue - if what the remote reads answer is the file's
    bytes, then after the run the destination (and the file a rename policy would
    create) is as it was and the run failed, or it holds exactly the whole remote
    file; a run that succeeds has delivered the file. *)
Theorem download_is_atomic fuel t ep h token control data p w w' r :
  let offset := bytes_transferred (progress t) in
  0 <= offset <= Z.of_nat (length data) -> Z.of_nat (length data) <= u64_max ->
  serves data (ep_path ep) p h -> ready p h data offset (w_local w) ->
  download limits throttle_target fuel t ep h token control w = (w', r) ->
  download_outcome p h data w w' r.
Proof.
  intros offset Hoff Hmax Hserves Hready Hr.
  by eapply (download_cases False 0) in Hr as [Ho _].
Qed.

(** every download ends: on a clock that moves with every reading, fuel for
    the bytes that are missing and the time to the deadline lets the loop end by
    itself, throttled or not, whatever fails on the way. *)
Theorem download_terminates fuel t ep h token control data p w w' r :
  let offset := bytes_transferred (progress t) in
  0 <= offset <= Z.of_nat (length data) -> Z.of_nat (length data) <= u64_max ->
  serves data (ep_path ep) p h -> ready p h data offset (w_local w) ->
  ticking (w_local w) ->
  (length data - Z.to_nat offset + time_left control w < fuel)%nat ->
  download limits throttle_target fuel t ep h token control w = (w', r) ->
  r <> Err OutOfFuel.
Proof.
  intros offset Hoff Hmax Hserves Hready Htick Hfuel Hr.
  eapply (download_cases True (time_left control w)) in Hr as [_ He]; eauto.
  intros _. by split.
Qed.
End Download.

(** *** A download of three bytes *)

#[local] Existing Instance identity_codec.
#[export] Instance executor_uuid : UuidText := { uuid_string := pretty }.

Definition demo_data : list Z := [10; 20; 30].

Definition demo_destination : Path := (true, ["home"; "report"]%string).

(** A remote side that serves the three bytes, two at a time. *)
Definition demo_ops : RemoteOps (St := InMemoryTransferStore) := {|
  factory_io_control_support _ := Io_Supported;
  remote_open _ _ := throw queue_error;
  session_io_control_support _ := Io_Supported;
  remote_begin_write _ _ := throw queue_error;
  remote_write_chunk _ _ _ _ := throw queue_error;
  remote_commit_write _ _ _ := throw queue_error;
  remote_abort_write _ _ := ret tt;
  remote_read_chunk rq _ :=
    let bytes := take 2 (drop (Z.to_nat (read_offset rq)) demo_data) in
    ret {| chunk_offset := read_offset rq; chunk_bytes := bytes;
           chunk_eof := bool_decide (length demo_data <= Z.to_nat (read_offset rq) + length bytes)%nat;
           chunk_identity := {| size_bytes := Some 3; modified_at_unix_ms := None; etag := None |} |};
  remote_disconnect _ := ret tt;
|}.

Definition demo_download : TransferTask :=
  {| id := 1; source := Remote {| ep_profile_id := 3; ep_protocol := Sftp; ep_path := demo_path |};
     destination := Local 7;
     direction := Download; expected_source := None; expected_destination := None;
     state := Queued; progress := TransferProgress_pending None;
     retry_policy := RetryPolicy_default;
     completed_attempts := 0; bandwidth_limit := BandwidthLimit_unlimited;
     conflict_policy := Policy_Fail; features := public_features; revision := 0; generation := 0;
     created_at_unix_ms := 1; updated_at_unix_ms := 1 |}.

Definition demo_owner : LocalHandleOwner :=
  {| bindings := {[ 7 := {| binding_path := demo_destination; binding_access := StagedDestination |} ]};
     staged := ∅; owner_uid := 1000;
     files := {[ (true, ["home"]%string) := DirectoryNode 1000 ]};
     io_faults := []; fs_now := Some 5; flags := ∅; clock := Z.of_nat; tick := 0 |}.

Definition demo_world : World InMemoryTransferStore :=
  {| w_queue := queue_runs [Q_enqueue demo_download; Q_start_next 2] (memory_queue [] QueueLimits_default);
     w_local := demo_owner; w_active := ∅; w_closed := false; w_next_flag := 1; w_unix := fun _ => 5 |}.

Definition demo_throttle (bytes limit : Z) : Z := seconds bytes / limit.

Definition demo_control : RemoteIoControl := {| control_deadline := 100; control_flag := 0 |}.

Definition demo_endpoint : RemoteTransferEndpoint :=
  {| ep_profile_id := 3; ep_protocol := Sftp; ep_path := demo_path |}.

Lemma demo_serves p h : serves (ops := demo_ops) demo_data demo_path p h.
Proof.
  split.
  - intros rq c. apply respects_read_only; [apply _ | exact (read_only_ret _)].
  - intros rq c w w' chunk _ [= _ <-]. cbn [chunk_bytes chunk_eof]. split; [by exists 2%nat |].
    intros He. by apply bool_decide_eq_true in He.
Qed.

Lemma demo_ready : ready demo_destination 7 demo_data 0 demo_owner.
Proof.
  split; [done |]. intros final sf [Hf Hs]. split; [| lia].
  destruct Hf as [-> | ->]; vm_compute in Hs; injection Hs as <-; intros [Ht | Ht];
    vm_compute in Ht; discriminate Ht.
Qed.

(** The download and what it left. *)
Definition demo_run : World InMemoryTransferStore * result unit run_error :=
  download (ops := demo_ops) ExecutorLimits_default demo_throttle 200 demo_download demo_endpoint 7
    {| token_task_id := 1; token_generation := 1 |} demo_control demo_world.

Example demo_run_ends :
  snd demo_run = Ok tt
  /\ files (w_local (fst demo_run)) !! demo_destination = Some (RegularFile 1000 demo_data (Some 5)).
Proof. by vm_compute. Qed.

Lemma download_is_atomic_witness :
  download_outcome demo_destination 7 demo_data demo_world (fst demo_run) (snd demo_run).
Proof.
  apply (download_is_atomic (ops := demo_ops) ExecutorLimits_default demo_throttle 200 demo_download
    demo_endpoint 7 {| token_task_id := 1; token_generation := 1 |} demo_control).
  - vm_compute. by split.
  - by vm_compute.
  - apply demo_serves.
  - apply demo_ready.
  - apply surjective_pairing.
Defined.

Lemma download_terminates_witness : snd demo_run <> Err OutOfFuel.
Proof.
  apply (download_terminates (ops := demo_ops) ExecutorLimits_default demo_throttle 200 demo_download
    demo_endpoint 7 {| token_task_id := 1; token_generation := 1 |} demo_control demo_data
    demo_destination demo_world (fst demo_run)).
  - vm_compute. by split.
  - by vm_compute.
  - apply demo_serves.
  - apply demo_ready.
  - intros k. simpl. lia.
  - vm_compute. lia.
  - apply surjective_pairing.
Defined.

(** The task of [demo_world] as it runs. *)
Definition demo_running : TransferTask := apply_call demo_download (Call_start 2).

Lemma demo_queue_ok : queue_ok (w_queue demo_world).
Proof.
  apply queue_runs_ok; [apply empty_memory_queue_ok |]. repeat constructor; vm_compute; discriminate.
Qed.


(** ** Resuming *)

Section Resume.
Context {St J : Type} {store : TransferStore St} {codec : TaskCodec J} {uuid : UuidText}.
Context {ops : RemoteOps (St := St)}.

(** a download whose partial is gone can never go on: with progress on
    record and no partial file, every attempt fails before the first byte is
    read, whatever the remote side offers. An aborted attempt removes its
    partial and keeps its progress (see [aborted_attempt_conflicts]), so its
    retry ends here. *)
Theorem lost_partial_blocks_resume limits throttle fuel t ep h token control p (w w' : World St) r :
  0 < bytes_transferred (progress t) ->
  bindings (w_local w) !! h = Some {| binding_path := p; binding_access := StagedDestination |} ->
  (forall final sf, stages p h final sf -> files (w_local w) !! sf = None) ->
  download limits throttle fuel t ep h token control w = (w', r) -> is_err r = true.
Proof.
  intros Hpos Hb Hgone Hr. unfold download in Hr. rewrite (proj2 (Z.ltb_lt _ _) Hpos) in Hr.
  unfold bind at 1 in Hr. destruct (operation_control limits control w) as [w1 [c | e]] eqn:H1;
    apply (operation_control_undisturbed limits p h) in H1 as (Hb1 & _ & Hf1 & _); [| by injection Hr as <- <-].
  unfold bind at 1 in Hr. destruct (local _ w1) as [w2 r2] eqn:Hbeg.
  apply mut_map_err_inv in Hbeg as (r0 & Hbeg & ->). unfold on_local, zoom in Hbeg.
  destruct (begin_staged_write _ _ _ _ _ _ _) as [o2 r1] eqn:Hb2. injection Hbeg as <- <-.
  apply (resume_needs_partial _ _ _ _ _ _ _ _ _ p) in Hb2; [| congruence | done |].
  - destruct r1; [done |]. by injection Hr as <- <-.
  - intros final sf Hst. rewrite Hf1; [by eapply Hgone |]. right. by exists final.
Qed.
End Resume.

(** A task that has received two bytes, and a disk without its partial. *)
Definition demo_resumed : TransferTask :=
  apply_call demo_running (Call_record_progress (token_of demo_running) 2 (Some 3) None 3).

Lemma lost_partial_blocks_resume_witness :
  is_err (snd (download (ops := demo_ops) ExecutorLimits_default demo_throttle 200 demo_resumed demo_endpoint 7
    (token_of demo_running) demo_control demo_world)) = true.
Proof.
  apply (lost_partial_blocks_resume (ops := demo_ops) ExecutorLimits_default demo_throttle 200 demo_resumed
    demo_endpoint 7 (token_of demo_running) demo_control demo_destination demo_world
    (fst (download (ops := demo_ops) ExecutorLimits_default demo_throttle 200 demo_resumed demo_endpoint 7
    (token_of demo_running) demo_control demo_world))).
  - by vm_compute.
  - by vm_compute.
  - intros final sf [Hf Hs]. destruct Hf as [-> | ->]; vm_compute in Hs; injection Hs as <-; by vm_compute.
  - apply surjective_pairing.
Defined.

(** A remote side that loses the connection after the first chunk. *)
Definition broken_ops : RemoteOps (St := InMemoryTransferStore) := {|
  factory_io_control_support _ := Io_Supported;
  remote_open _ _ := throw queue_error;
  session_io_control_support _ := Io_Supported;
  remote_begin_write _ _ := throw queue_error;
  remote_write_chunk _ _ _ _ := throw queue_error;
  remote_commit_write _ _ _ := throw queue_error;
  remote_abort_write _ _ := ret tt;
  remote_read_chunk rq c :=
    if read_offset rq =? 0 then remote_read_chunk (RemoteOps := demo_ops) rq c
    else throw (io_error Op_Read "connection_lost");
  remote_disconnect _ := ret tt;
|}.

(** The first attempt fails and its retry is scheduled; with the remote side
    working again, the retry conflicts. *)
Example aborted_attempt_conflicts :
  let first := fst (download (ops := broken_ops) ExecutorLimits_default demo_throttle 200 demo_download
                      demo_endpoint 7 (token_of demo_running) demo_control demo_world) in
  let failed := fst (persist_failure 1 (token_of demo_running) (io_error Op_Read "connection_lost") first) in
  let restarted := put_queue (fst (start_next 100000 (w_queue failed))) failed in
  match task 1 (w_queue restarted) with
  | Some t => state t = Running /\ bytes_transferred (progress t) = 2
      /\ snd (download (ops := demo_ops) ExecutorLimits_default demo_throttle 200 t demo_endpoint 7
                (token_of t) demo_control restarted)
         = Err (Run (error EK_Conflict Op_Resume "local_partial_size_changed" Retry_UserAction))
  | None => False
  end.
Proof. by vm_compute. Qed.
