(* ===== verification/TransferExecutorFacts.v ===== *)
(** The executor around its runs: how a failed run is recorded, what a public
    mutation answers, and what the outcome of a run says. *)
From S2P Require Import Prelude RemoteCore TransferModel TransferStateFacts TransferInvariant TransferPublic TransferPublicFacts TransferStore TransferStoreFacts TransferQueue TransferQueueFacts LocalFiles LocalFilesFacts TransferExecutor TransferDownloadFacts.

#[local] Existing Instance identity_codec.
#[local] Existing Instance executor_uuid.

(** ** Failures *)

Section Failures.
Context {St : Type} {store : TransferStore St} {laws : StoreLaws St}.

(** A step of the task, through the queue: it is written or the store failed
    and nothing changed. *)
Lemma mutate_step tid c t t' (q q' : TransferQueue St) r :
  queue_ok q -> queue_tasks q !! tid = Some t -> step c t t' -> updated_at_unix_ms t <= call_time c ->
  revision t < u64_max -> mutate tid (call c) q = (q', r) ->
  queue_ok q' /\
  ((exists e, r = Err (Store e) /\ queue_tasks q' = queue_tasks q)
   \/ (r = Ok Changed /\ queue_tasks q' = <[tid := t']> (queue_tasks q))).
Proof.
  intros Hok Ht Hstep Htime Hrev Hm.
  pose proof (step_call _ _ _ Hstep Htime) as Hcall.
  split; [by eapply mutate_cases in Hm as [? _]; [| | intros x; apply call_id] |].
  pose proof (step_frame _ _ _ Hstep) as Hframe. destruct_and! Hframe.
  pose proof (ok_revisions q Hok _ _ Ht) as Hpos. simpl in Hpos.
  unfold mutate, bind, lift in Hm. rewrite Ht in Hm. simpl in Hm. rewrite Hcall in Hm. simpl in Hm.
  unfold when in Hm. destruct (revision t' =? revision t) eqn:Heq; simpl in Hm; [exfalso; bool_facts; width |].
  unfold on_store, zoom, mut_map_err, modify, ret in Hm.
  destruct (compare_and_swap (revision t) t' (queue_store q)) as [s1 [[] | e]] eqn:Hsw; simpl in Hm;
    injection Hm as <- <-; [by right | left; eauto].
Qed.

Lemma mutate_run_step tid c t t' (w w' : World St) r :
  queue_ok (w_queue w) -> task tid (w_queue w) = Some t -> step c t t' ->
  updated_at_unix_ms t <= call_time c -> revision t < u64_max ->
  mutate_run tid (call c) w = (w', r) ->
  queue_ok (w_queue w') /\
  ((exists e, r = Err (Exec_Queue (Store e)) /\ queue_tasks (w_queue w') = queue_tasks (w_queue w))
   \/ (r = Ok Changed /\ task tid (w_queue w') = Some t')).
Proof.
  intros Hok Ht Hstep Htime Hrev Hr. unfold mutate_run in Hr.
  apply mut_map_err_inv in Hr as (r0 & Hr & ->). unfold on_queue, zoom in Hr.
  destruct (mutate tid (call c) (w_queue w)) as [q1 r1] eqn:Hm. injection Hr as <- <-.
  destruct (mutate_step _ _ _ _ _ _ _ Hok Ht Hstep Htime Hrev Hm) as [Hok' [[e [-> He]] | [-> He]]]; simpl.
  - split; [done |]. left. by exists e.
  - split; [done |]. right. split; [done |]. unfold task. rewrite He. apply lookup_insert_eq.
Qed.

(** The state a failed run is recorded in. *)
Definition recorded (failure : RemoteError) (now : Z) (t : TransferTask) : TransferState :=
  if eqb (TransferState_kind (state t)) K_Cancelling then Cancelled (Some (checkpoint t now)) now
  else if eqb (err_kind failure) EK_Conflict
  then Conflict {| conflict_reason := err_reason failure; conflict_checkpoint := Some (checkpoint t now) |}
  else if RemoteError_is_retryable failure && (completed_attempts t <? max_attempts (retry_policy t))
  then RetryScheduled (sat_i64 (now + backoff_ms (retry_policy t) (completed_attempts t)))
         (TransferFailure_from failure)
  else Failed (TransferFailure_from failure).

Definition records (tid : TransferId) (s : TransferState) (w' : World St) (r : result unit ExecutorError)
  : Prop :=
  queue_ok (w_queue w') /\
  match r with
  | Ok _ => exists t', task tid (w_queue w') = Some t' /\ state t' = s
  | Err e => exists se, e = Exec_Queue (Store se)
  end.

Lemma step_records tid c t t' (w w' : World St) r :
  queue_ok (w_queue w) -> task tid (w_queue w) = Some t -> step c t t' ->
  updated_at_unix_ms t <= call_time c -> revision t < u64_max ->
  (mutate_run tid (call c) ;;; ret tt) w = (w', r) -> records tid (state t') w' r.
Proof.
  intros Hok Ht Hstep Htime Hrev Hr. unfold bind in Hr.
  destruct (mutate_run tid (call c) w) as [w1 r1] eqn:Hm.
  destruct (mutate_run_step _ _ _ _ _ _ _ Hok Ht Hstep Htime Hrev Hm) as [Hok' [(e & -> & _) | [-> Ht']]];
    injection Hr as <- <-; split; eauto.
Qed.

(** A retryable failure is scheduled again while attempts are left. *)
Lemma retry_records tid f now t (w w' : World St) r :
  queue_ok (w_queue w) -> task tid (w_queue w) = Some t -> state t = Failed f ->
  TransferFailure_is_retryable f = true -> updated_at_unix_ms t <= now -> revision t < u64_max ->
  ignore_exhausted (mutate_run tid (schedule_retry now)) w = (w', r) ->
  records tid (if completed_attempts t <? max_attempts (retry_policy t)
               then RetryScheduled (sat_i64 (now + backoff_ms (retry_policy t) (completed_attempts t))) f
               else Failed f) w' r.
Proof.
  intros Hok Ht Hs Hf Htime Hrev Hr. unfold ignore_exhausted in Hr.
  destruct (mutate_run tid (schedule_retry now) w) as [w1 r1] eqn:Hm.
  destruct (completed_attempts t <? max_attempts (retry_policy t)) eqn:Hleft; bool_facts.
  - change (schedule_retry now) with (call (Call_schedule_retry now)) in Hm.
    destruct (mutate_run_step _ _ _ _ _ _ _ Hok Ht (step_schedule_retry _ _ _ Hs Hf Hleft) Htime Hrev Hm)
      as [Hok' [(e & -> & _) | [-> Ht']]];
      injection Hr as <- <-; split; try done; [by exists e | by eexists].
  - assert (Herr : schedule_retry now t = (t, Err RetryExhausted)).
    { unfold schedule_retry, bind, check_time, lift, gets, ret. rewrite (proj2 (Z.ltb_ge _ _) Htime), Hs, Hf.
      simpl. by rewrite (proj2 (Z.leb_le _ _) Hleft). }
    unfold mutate_run, mut_map_err, on_queue, zoom, mutate, bind, lift in Hm. unfold task in Ht.
    rewrite Ht in Hm. simpl in Hm. rewrite Herr in Hm. injection Hm as <- <-. injection Hr as <- <-.
    split; [done |]. exists t. by rewrite <- Hs.
Qed.

(** the end of a failed run is recorded: for the run's own task, unless the
    failure is a cancellation nobody asked the task for, [persist_failure] moves
    the task to a cancelled, conflict, retry or failed state as the failure and
    the attempts left say; the only error is a failing store. *)
Theorem failed_run_is_recorded tid token failure t (w w' : World St) r :
  let now := w_unix w (tick (w_local w)) in
  queue_ok (w_queue w) -> task tid (w_queue w) = Some t -> is_active (state t) = true ->
  token = token_of t -> updated_at_unix_ms t <= now -> revision t + 1 < u64_max ->
  (err_kind failure = EK_Cancelled -> state t = Cancelling) ->
  persist_failure tid token failure w = (w', r) ->
  queue_ok (w_queue w') /\
  match r with
  | Ok _ => exists t', task tid (w_queue w') = Some t' /\ state t' = recorded failure now t
              /\ is_active (state t') = false
  | Err e => exists se, e = Exec_Queue (Store se)
  end.
Proof.
  intros now Hok Ht Hact -> Htime Hrev Hcancel Hr. unfold persist_failure in Hr.
  unfold bind at 1 in Hr. set (w1 := put_local (advance_tick (w_local w)) w) in Hr.
  change (unix_time_ms w) with ((w1, Ok now) : World St * result Z ExecutorError) in Hr.
  cbv beta iota in Hr. unfold bind at 1, lift at 1 in Hr. change (w_queue w1) with (w_queue w) in Hr.
  rewrite Ht in Hr. cbn [ok_or] in Hr.
  change (w_queue w) with (w_queue w1) in Hok, Ht.
  assert (Hrec : records tid (recorded failure now t) w' r);
    [| destruct Hrec as [? Hrec]; split; [done |]; destruct r; [| done];
       destruct Hrec as (t' & ? & Hs); exists t'; split_and!; [done | done |];
       rewrite Hs; unfold recorded; by repeat case_match ].
  unfold recorded. destruct (eqb (TransferState_kind (state t)) K_Cancelling) eqn:Hk; cbn [orb] in Hr.
  - assert (state t = Cancelling) as Hs by (apply eqb_eq in Hk; by destruct (state t)).
    assert (step (Call_confirm_cancelled (token_of t) (Some (checkpoint t now)) now) t
              (finish (Cancelled (Some (checkpoint t now)) now) now t)) as Hstep
      by (apply step_confirm_cancelled; [done | simpl; lia]).
    exact (step_records _ _ _ _ _ _ _ Hok Ht Hstep Htime ltac:(lia) Hr).
  - assert (is_running_or_pausing (state t) = true) as Hrun
      by (destruct (state t); try discriminate Hact; try done; by vm_compute in Hk).
    destruct (eqb (err_kind failure) EK_Cancelled) eqn:Hc.
    { apply eqb_eq in Hc. rewrite (Hcancel Hc) in Hk. by vm_compute in Hk. }
    destruct (eqb (err_kind failure) EK_Conflict) eqn:Hconf.
    + set (cf := {| conflict_reason := err_reason failure; conflict_checkpoint := Some (checkpoint t now) |}) in *.
      assert (step (Call_enter_conflict (token_of t) cf now) t (finish (Conflict cf) now t)) as Hstep
        by (apply step_enter_conflict; [done | simpl; lia]).
      exact (step_records _ _ _ _ _ _ _ Hok Ht Hstep Htime ltac:(lia) Hr).
    + set (f := TransferFailure_from failure) in *. unfold bind at 1 in Hr.
      destruct (mutate_run tid (fail (token_of t) f now) w1) as [w2 r2] eqn:Hm.
      change (fail (token_of t) f now) with (call (Call_fail (token_of t) f now)) in Hm.
      destruct (mutate_run_step _ _ _ _ _ _ _ Hok Ht (step_fail _ f now Hrun) Htime ltac:(lia) Hm)
        as [Hok2 [(e & -> & _) | [-> Ht2]]];
        [injection Hr as <- <-; split; [done | by exists e] |].
      destruct (RemoteError_is_retryable failure) eqn:Hret; cbn [andb].
      * apply (retry_records tid f now (finish (Failed f) now t)) in Hr;
          [exact Hr | done | exact Ht2 | done | done | simpl; lia |].
        simpl. width.
      * injection Hr as <- <-. split; [done |]. by eexists.
Qed.

(** a run that reports a cancellation nobody asked the task for strands it:
    [persist_failure] refuses to record it, and the task stays running with no
    run behind it. *)
Theorem unasked_cancellation_strands_task tid failure t (w : World St) :
  task tid (w_queue w) = Some t -> is_running_or_pausing (state t) = true ->
  updated_at_unix_ms t <= w_unix w (tick (w_local w)) -> err_kind failure = EK_Cancelled ->
  let '(w', r) := persist_failure tid (token_of t) failure w in
  r = Err (Exec_Queue (Mutation (InvalidState "confirm_cancelled" (TransferState_kind (state t)))))
  /\ w_queue w' = w_queue w.
Proof.
  intros Ht Hrun Htime Hk. unfold persist_failure. unfold bind at 1.
  set (now := w_unix w (tick (w_local w))) in *. set (w1 := put_local (advance_tick (w_local w)) w).
  change (unix_time_ms w) with ((w1, Ok now) : World St * result Z ExecutorError).
  cbv beta iota. unfold bind at 1, lift at 1. change (w_queue w1) with (w_queue w). rewrite Ht.
  cbn [ok_or]. rewrite Hk, eqb_refl, orb_true_r.
  assert (confirm_cancelled (token_of t) (Some (checkpoint t now)) now t
          = (t, Err (InvalidState "confirm_cancelled" (TransferState_kind (state t))))) as Hc.
  { unfold confirm_cancelled, check_token, check_time, require_state, invalid_state, bind, lift, gets, throw.
    simpl. rewrite !Z.eqb_refl, (proj2 (Z.ltb_ge _ _) Htime). simpl.
    revert Hrun. destruct (state t) eqn:Hs; simpl; try discriminate; by rewrite Hs. }
  unfold bind at 1, mutate_run, mut_map_err, on_queue, zoom, mutate, bind, lift.
  change (w_queue w1) with (w_queue w). unfold task in Ht. rewrite Ht. simpl. rewrite Hc. by destruct w, (w_queue).
Qed.

(** ** Public mutations *)

Context {J : Type} {codec : TaskCodec J}.

(** A call through the queue: it is applied, or fails and changes nothing. *)
Lemma mutate_call_cases tid c t (q q' : TransferQueue St) r :
  queue_ok q -> queue_tasks q !! tid = Some t -> mutate tid (call c) q = (q', r) ->
  queue_ok q' /\
  match r with
  | Ok _ => queue_tasks q' !! tid
      = Some (if revision (apply_call t c) =? revision t then t else apply_call t c)
  | Err _ => queue_tasks q' = queue_tasks q
  end.
Proof.
  intros Hok Ht Hm. pose proof Hm as Hc. apply mutate_cases in Hc as (Hok' & _ & _);
    [| done | intros x; apply call_id]. split; [done |].
  unfold mutate, bind, lift in Hm. rewrite Ht in Hm. unfold apply_call. simpl in Hm.
  destruct (call c t) as [t' [x | e]]; simpl in Hm |- *; [| by injection Hm as <- <-].
  unfold when in Hm. destruct (revision t' =? revision t); simpl in Hm.
  - by injection Hm as <- <-.
  - unfold on_store, zoom, mut_map_err, modify, ret in Hm.
    destruct (compare_and_swap (revision t) t' (queue_store q)) as [s1 [[] | e]]; simpl in Hm;
      injection Hm as <- <-; [apply lookup_insert_eq | done].
Qed.

(** What a call does to the revision. *)
Lemma call_revision c t :
  0 <= revision t -> revision t < u64_max ->
  revision (apply_call t c) = (if changes c t then revision t + 1 else revision t)
  /\ (if revision (apply_call t c) =? revision t then t else apply_call t c) = apply_call t c.
Proof.
  intros Hpos Hmax. destruct (apply_call_cases c t) as [(-> & Hs & _) | (-> & ->)].
  - apply step_frame in Hs as (_ & _ & _ & _ & _ & _ & _ & _ & _ & _ & Hr & _).
    replace (sat_u64 (revision t + 1)) with (revision t + 1) in Hr by width.
    split; [done |]. by rewrite (proj2 (Z.eqb_neq _ _)) by lia.
  - split; [done |]. by destruct (_ =? _).
Qed.

(** a public mutation is a compare-and-swap on the revision the client
    read: a conflict leaves the world as it was and answers the current task,
    whose revision differs; an update had that revision, put the task through
    the call and, if the call changed it, moved the revision on by one, so a
    second client that read the same revision gets a conflict; every answer
    meets [validate_mutation]; an error leaves the tasks as they were, unless
    the new task itself breaks the public contract. *)
Theorem public_mutation_is_compare_and_swap tid rev (c : Z -> task_call) (w w' : World St) r :
  let now := w_unix w (tick (w_local w)) in
  queue_ok (w_queue w) -> map_Forall (fun _ t => revision t <= u64_max) (queue_tasks (w_queue w)) ->
  mutate_public tid rev (fun now => call (c now)) w = (w', r) ->
  queue_ok (w_queue w') /\
  match r with
  | Ok (MutationConflict expected current) =>
      w' = w /\ expected = rev /\ task tid (w_queue w) = Some current /\ revision current <> rev
  | Ok (Updated t') =>
      exists t, task tid (w_queue w) = Some t /\ revision t = rev
        /\ task tid (w_queue w') = Some t'
        /\ (rev < u64_max -> t' = apply_call t (c now)
            /\ revision t' = if changes (c now) t then rev + 1 else rev)
  | Err _ => queue_tasks (w_queue w') = queue_tasks (w_queue w)
             \/ exists t', task tid (w_queue w') = Some t' /\ validate_public t' <> Ok tt
  end /\ forall m, r = Ok m -> validate_mutation tid rev m = Ok tt.
Proof.
  intros now Hok Hty Hr. unfold mutate_public in Hr.
  unfold bind at 1, get_task, lift at 1 in Hr.
  destruct (task tid (w_queue w)) as [t |] eqn:Ht; simpl in Hr;
    [| injection Hr as <- <-; split_and!; [done | by left | done]].
  unfold bind at 1, lift at 1 in Hr. unfold public_check at 1 in Hr.
  destruct (validate_public t) as [[] | e] eqn:Hpub; simpl in Hr;
    [| injection Hr as <- <-; split_and!; [done | by left | done]].
  pose proof (ok_keyed _ Hok _ _ Ht) as Hid.
  destruct (revision t =? rev) eqn:Hrev; simpl in Hr; bool_facts.
  2:{ injection Hr as <- <-. split_and!; try done. intros m [= <-]. unfold validate_mutation.
      rewrite Z.eqb_refl, <- Hid, Z.eqb_refl, (proj2 (Z.eqb_neq _ _) Hrev). simpl. by rewrite Hpub. }
  unfold bind at 1 in Hr. set (w1 := put_local (advance_tick (w_local w)) w) in Hr.
  change (unix_time_ms w) with ((w1, Ok now) : World St * result Z ExecutorError) in Hr. cbv beta iota in Hr.
  unfold bind at 1 in Hr. unfold mut_map_err, on_queue, zoom in Hr. change (w_queue w1) with (w_queue w) in Hr.
  destruct (mutate tid (call (c now)) (w_queue w)) as [q2 r2] eqn:Hm.
  destruct (mutate_call_cases _ _ _ _ _ _ Hok Ht Hm) as [Hok2 Hcase].
  destruct r2 as [x | e]; simpl in Hr; [| injection Hr as <- <-; split_and!; [done | by left | done]].
  set (t' := if revision (apply_call t (c now)) =? revision t then t else apply_call t (c now)) in Hcase.
  unfold bind, lift in Hr. change (w_queue (put_queue q2 w1)) with q2 in Hr. unfold task in Hr at 1.
  rewrite Hcase in Hr. simpl in Hr. unfold public_check in Hr.
  pose proof (ok_revisions _ Hok _ _ Ht) as Hpos. pose proof (Hty _ _ Ht) as Hmax. simpl in Hpos, Hmax.
  destruct (validate_public t') as [[] | e'] eqn:Hpub'; simpl in Hr; injection Hr as <- <-.
  - split; [done |]. split.
    + exists t. split_and!; [done | done | done |]. intros Hlt.
      destruct (call_revision (c now) t) as [Hrc Heq]; [done | lia |].
      subst t'. rewrite Heq. split; [done |]. by rewrite Hrc, Hrev.
    + intros m [= <-]. unfold validate_mutation. rewrite Hpub'.
      rewrite (ok_keyed _ Hok2 _ _ Hcase), Z.eqb_refl.
      assert (rev <= revision t') as Hle.
      { subst t'. destruct (_ =? _); [lia |].
        destruct (apply_call_cases (c now) t) as [(_ & Hs & _) | (_ & ->)]; [| lia].
        apply step_frame in Hs. destruct_and!. width. }
      by rewrite (proj2 (Z.leb_le _ _) Hle).
  - split; [done |]. split; [| done]. right. exists t'. split; [done |]. by rewrite Hpub'.
Qed.
End Failures.

Definition demo_failed : World InMemoryTransferStore * result unit ExecutorError :=
  persist_failure 1 (token_of demo_running) stat_error demo_world.

Lemma failed_run_is_recorded_witness :
  exists t', task 1 (w_queue (fst demo_failed)) = Some t' /\ is_active (state t') = false.
Proof.
  pose proof (failed_run_is_recorded 1 (token_of demo_running) stat_error demo_running demo_world
    (fst demo_failed) (Ok tt) demo_queue_ok) as Hf.
  destruct Hf as [_ (t' & Ht & _ & Ha)]; [by vm_compute | by vm_compute | done | | | done | |].
  - vm_compute. discriminate.
  - by vm_compute.
  - by vm_compute.
  - by exists t'.
Defined.

Lemma unasked_cancellation_strands_task_witness :
  snd (persist_failure 1 (token_of demo_running)
         (error EK_Cancelled Op_Read "remote_io_cancelled" Retry_Never) demo_world)
  = Err (Exec_Queue (Mutation (InvalidState "confirm_cancelled" K_Running))).
Proof.
  pose proof (unasked_cancellation_strands_task 1
    (error EK_Cancelled Op_Read "remote_io_cancelled" Retry_Never) demo_running demo_world) as Hs.
  destruct (persist_failure _ _ _ _) as [w' r]. apply Hs; [by vm_compute | done | by vm_compute | done].
Defined.

Lemma public_mutation_is_compare_and_swap_witness :
  validate_mutation 1 1 (Updated (apply_call demo_running (Call_request_cancel 5))) = Ok tt.
Proof.
  refine (proj2 (proj2 (public_mutation_is_compare_and_swap 1 1 Call_request_cancel demo_world _ _
    demo_queue_ok _ (surjective_pairing _))) _ _).
  - apply (bool_decide_unpack _). by vm_compute.
  - by vm_compute.
Defined.

(** ** The outcome of a run *)

Section Outcome.
Context {St J : Type} {store : TransferStore St} {laws : StoreLaws St} {codec : TaskCodec J} {uuid : UuidText}.
Context {ops : RemoteOps (St := St)}.
Variable limits : ExecutorLimits.
Variable throttle_target : Z -> Z -> Z.

(** A task that is not active, or whose revision has run out of numbers. *)
Definition ended_task (t : TransferTask) : Prop :=
  is_active (state t) = false \/ u64_max <= revision t.
Definition ended (tid : TransferId) (w : World St) : Prop :=
  exists t, task tid (w_queue w) = Some t /\ ended_task t.
Definition completed_task (t : TransferTask) : Prop :=
  TransferState_kind (state t) = K_Completed \/ u64_max <= revision t.
Definition completed (tid : TransferId) (w : World St) : Prop :=
  exists t, task tid (w_queue w) = Some t /\ completed_task t.

(** The calls that end a run. *)
Definition ends_run (c : task_call) : bool :=
  match c with
  | Call_confirm_cancelled _ _ _ | Call_complete _ _ | Call_fail _ _ _ | Call_schedule_retry _
  | Call_enter_conflict _ _ _ => true
  | _ => false
  end.

Lemma ending_call c t t' x : ends_run c = true -> call c t = (t', Ok x) -> is_active (state t') = false.
Proof.
  intros Hc H. destruct c; try discriminate Hc; unfold_call H; inv_task; try done;
    repeat (case_match; inv_task; try done).
  all: unfold is_active in *; by repeat match goal with H : state ?t = _ |- _ => rewrite H end.
Qed.

Lemma completing_call token d t t' x :
  call (Call_complete token d) t = (t', Ok x) -> TransferState_kind (state t') = K_Completed.
Proof. intros H. unfold_call H. by inv_task. Qed.

(** After a successful call through the queue the task is the call's result,
    unless its revision has run out. *)
Lemma mutate_run_ok tid c (w w' : World St) x :
  queue_ok (w_queue w) -> mutate_run tid (call c) w = (w', Ok x) ->
  queue_ok (w_queue w') /\ exists t t1 t', task tid (w_queue w) = Some t /\ call c t = (t1, Ok x)
    /\ task tid (w_queue w') = Some t' /\ (t' = t1 \/ u64_max <= revision t').
Proof.
  intros Hok Hr. unfold mutate_run in Hr. apply mut_map_err_ok in Hr. unfold on_queue, zoom in Hr.
  destruct (mutate tid (call c) (w_queue w)) as [q1 r1] eqn:Hm. injection Hr as <- ->.
  destruct (task tid (w_queue w)) as [t |] eqn:Ht.
  2:{ unfold mutate, bind, lift in Hm. unfold task in Ht. by rewrite Ht in Hm. }
  destruct (mutate_call_cases _ _ _ _ _ _ Hok Ht Hm) as [Hok' Ht']. split; [done |].
  assert (call c t = (apply_call t c, Ok x)) as Hc.
  { unfold mutate, bind, lift in Hm. unfold task in Ht. rewrite Ht in Hm. simpl in Hm. unfold apply_call.
    destruct (call c t) as [t1 [y | e]]; simpl in Hm; [| discriminate Hm].
    unfold when in Hm. destruct (_ =? _); simpl in Hm.
    - by injection Hm as _ ->.
    - destruct (on_store _ _) as [q2 [[] | ?]]; simpl in Hm; [| discriminate Hm].
      unfold modify, ret in Hm. simpl in Hm. by injection Hm as _ ->. }
  eexists _, _, _. split_and!; [done | exact Hc | exact Ht' |].
  destruct (revision (apply_call t c) =? revision t) eqn:Hrev; [| by left]. bool_facts.
  destruct (apply_call_cases c t) as [(_ & Hs & _) | (_ & ->)]; [right | by left].
  apply step_frame in Hs. destruct_and!. pose proof (ok_revisions _ Hok _ _ Ht). simpl in *. width.
Qed.

Lemma ending_mutate tid c (w w' : World St) x :
  queue_ok (w_queue w) -> ends_run c = true -> mutate_run tid (call c) w = (w', Ok x) ->
  queue_ok (w_queue w') /\ ended tid w'.
Proof.
  intros Hok Hc Hr. destruct (mutate_run_ok _ _ _ _ _ Hok Hr) as (Hok' & t & t1 & t' & _ & Hcall & Ht' & Hor).
  split; [done |]. exists t'. split; [done |]. destruct Hor as [-> | ?]; [left | by right].
  by eapply ending_call.
Qed.

Lemma persist_failure_ends tid token failure (w w' : World St) :
  queue_ok (w_queue w) -> persist_failure tid token failure w = (w', Ok tt) -> ended tid w'.
Proof.
  intros Hok Hr. unfold persist_failure in Hr. inv_ok.
  match goal with Hu : unix_time_ms w = (?y, Ok ?n) |- _ =>
    assert (queue_ok (w_queue y)) as Hoky by (unfold unix_time_ms in Hu; inv_ok; done); set (now := n) in * end.
  repeat case_match; inv_ok.
  - by eapply (ending_mutate tid (Call_confirm_cancelled _ _ now)).
  - by eapply (ending_mutate tid (Call_enter_conflict _ _ now)).
  - match goal with Hf : mutate_run tid (fail _ ?f _) _ = _ |- _ =>
      apply (ending_mutate tid (Call_fail token f now)) in Hf as [Hok2 Hend]; [| done | done] end.
    unfold ignore_exhausted in Hr. destruct (mutate_run tid (schedule_retry now) _) as [w2 r2] eqn:Hm.
    destruct r2 as [ch | e].
    { injection Hr as <-. exact (proj2 (ending_mutate tid (Call_schedule_retry now) _ _ _ Hok2 eq_refl Hm)). }
    assert (w' = w2) as -> by (repeat case_match; by simplify_eq). clear Hr.
    destruct Hend as (t' & Ht' & Hend). exists t'. split; [| done]. rewrite <- Ht'. unfold task. f_equal.
    unfold mutate_run in Hm. apply mut_map_err_inv in Hm as (r0 & Hm & Hr0). unfold on_queue, zoom in Hm.
    destruct (mutate tid (schedule_retry now) _) as [q2 r1] eqn:Hq. injection Hm as <- <-.
    apply (mutate_call_cases tid (Call_schedule_retry now) t') in Hq as [_ Hq]; [| done | done].
    by destruct r1.
  - by eapply (ending_mutate tid (Call_fail token _ now)).
Qed.

(** Programs that keep the queue's invariant. *)
Definition keeps_queue (w w' : World St) : Prop := queue_ok (w_queue w) -> queue_ok (w_queue w').

#[export] Instance keeps_queue_refl : Reflexive keeps_queue.
Proof. intros w H. exact H. Qed.
#[export] Instance keeps_queue_trans : Transitive keeps_queue.
Proof. intros w1 w2 w3 H1 H2 H. auto. Qed.

Lemma local_keeps {A} (m : mut LocalHandleOwner A RemoteError) : respects keeps_queue (local (St := St) m).
Proof.
  apply respects_map_err. intros w w' r H. unfold on_local, zoom in H. destruct (m (w_local w)).
  injection H as <- _. intros Hok. exact Hok.
Qed.

Lemma world_instant_keeps {E} : respects keeps_queue (world_instant (St := St) (E := E)).
Proof. intros w w' r H. unfold world_instant, on_local, zoom in H. injection H as <- _. intros Hok. exact Hok. Qed.

Lemma unix_time_keeps {E} : respects keeps_queue (unix_time_ms (St := St) (E := E)).
Proof. intros w w' r H. injection H as <- _. intros Hok. exact Hok. Qed.

Lemma mutate_keeps tid c : respects keeps_queue (on_queue (St := St) (mutate tid (call c))).
Proof.
  intros w w' r H Hok. unfold on_queue, zoom in H.
  destruct (mutate tid (call c) (w_queue w)) as [q1 r1] eqn:Hm. injection H as <- _. simpl.
  eapply mutate_cases in Hm as [? _]; [done | done | intros x; apply call_id].
Qed.

(** The remote side keeps the queue's invariant, whatever other tasks do while
    a run waits for it, and nobody takes a completed task back. *)
Record well_behaved : Prop := {
  open_keeps : forall ep c, respects keeps_queue (remote_open ep c);
  begin_keeps : forall rq c, respects keeps_queue (remote_begin_write rq c);
  write_keeps : forall h o b c, respects keeps_queue (remote_write_chunk h o b c);
  commit_keeps : forall h e c, respects keeps_queue (remote_commit_write h e c);
  abort_keeps_queue : forall h c, respects keeps_queue (remote_abort_write h c);
  read_keeps : forall rq c, respects keeps_queue (remote_read_chunk rq c);
  disconnect_keeps : forall c, respects keeps_queue (remote_disconnect c);
  disconnect_completed : forall tid c,
    respects (fun w w' => completed tid w -> completed tid w') (remote_disconnect c);
}.
Hypothesis remote_ok : well_behaved.

#[local] Hint Resolve local_keeps world_instant_keeps unix_time_keeps
  open_keeps begin_keeps write_keeps commit_keeps abort_keeps_queue read_keeps disconnect_keeps : rust_effects.

Lemma new_control_keeps {E} d : respects keeps_queue (new_control (St := St) d (E := E)).
Proof. unfold new_control. solve_respects. apply respects_modify. intros w Hok. exact Hok. Qed.
#[local] Hint Resolve new_control_keeps : rust_effects.

Lemma operation_control_keeps c : respects keeps_queue (operation_control (St := St) limits c).
Proof. unfold operation_control. solve_respects. Qed.

Lemma cleanup_control_keeps : respects keeps_queue (cleanup_control (St := St) limits).
Proof. unfold cleanup_control. solve_respects. Qed.

Lemma record_keeps tid token bytes total speed :
  respects keeps_queue (run_record_progress (St := St) tid token bytes total speed).
Proof.
  unfold run_record_progress. apply respects_bind; [apply _ | solve_respects | intros now].
  apply respects_bind; [apply _ | | solve_respects]. do 2 apply respects_map_err.
  apply (mutate_keeps tid (Call_record_progress token bytes total speed now)).
Qed.
#[local] Hint Resolve operation_control_keeps cleanup_control_keeps record_keeps : rust_effects.

Lemma throttle_keeps fuel t token bytes total started c :
  respects keeps_queue (throttle_and_record (St := St) throttle_target fuel t token bytes total started c).
Proof.
  assert (forall n e, respects keeps_queue (throttle_loop (St := St) n e started c)) as Hloop.
  { intros n. induction n; intros e; simpl; solve_respects. }
  unfold throttle_and_record. solve_respects.
Qed.
#[local] Hint Resolve throttle_keeps : rust_effects.

Lemma upload_loop_keeps fuel t token c h i total wh started offset :
  respects keeps_queue (upload_loop limits throttle_target fuel t token c h i total wh started offset).
Proof. revert offset. induction fuel; intros offset; simpl; solve_respects. Qed.

Lemma download_loop_keeps fuel t token c path h started total offset :
  respects keeps_queue (download_loop limits throttle_target fuel t token c path h started total offset).
Proof. revert total offset. induction fuel; intros total offset; simpl; solve_respects. Qed.
#[local] Hint Resolve upload_loop_keeps download_loop_keeps : rust_effects.

Lemma record_zero_keeps t token offset total :
  respects keeps_queue (record_zero_progress (St := St) t token offset total).
Proof. unfold record_zero_progress. solve_respects. Qed.
#[local] Hint Resolve record_zero_keeps : rust_effects.

Lemma run_complete_keeps t protocol token ident :
  respects keeps_queue (run_complete (St := St) t protocol token ident).
Proof.
  unfold run_complete. apply respects_bind; [apply _ | solve_respects | intros now].
  apply respects_bind; [apply _ | | solve_respects]. do 2 apply respects_map_err.
  apply (mutate_keeps (id t) (Call_complete token _)).
Qed.
#[local] Hint Resolve run_complete_keeps : rust_effects.

(** A completion that is answered is in the queue. *)
Lemma run_complete_completes t protocol token ident (w w' : World St) u :
  queue_ok (w_queue w) -> run_complete t protocol token ident w = (w', Ok u) -> completed (id t) w'.
Proof.
  intros Hok Hr. unfold run_complete in Hr. inv_ok.
  match goal with Hu : unix_time_ms w = (?y, Ok _) |- _ =>
    assert (queue_ok (w_queue y)) as Hoky by (by apply unix_time_keeps in Hu; apply Hu) end.
  match goal with Hc : remote _ _ = _ |- _ => unfold remote in Hc; do 2 apply mut_map_err_ok in Hc; rename Hc into Hm end.
  match type of Hm with on_queue (mutate _ (complete token ?d)) ?y = (?w2, Ok ?x) =>
    assert (mutate_run (id t) (call (Call_complete token d)) y = (w2, Ok x)) as Hrun end.
  { unfold mutate_run. by apply mut_map_err_ok. }
  destruct (mutate_run_ok _ _ _ _ _ Hoky Hrun) as (_ & t0 & t1 & t' & _ & Hcall & Ht' & Hor).
  exists t'. split; [done |]. destruct Hor as [-> | ?]; [left | by right].
  by eapply completing_call.
Qed.

(** [m] keeps the queue and, when it succeeds, has completed the task. *)
Definition completes {A} (tid : TransferId) (m : mut (World St) A run_error) : Prop :=
  respects keeps_queue m
  /\ forall w w' a, queue_ok (w_queue w) -> m w = (w', Ok a) -> completed tid w'.

Lemma completes_bind {A B} tid (m : mut (World St) A run_error) (k : A -> mut (World St) B run_error) :
  respects keeps_queue m -> (forall a, completes tid (k a)) -> completes tid (bind m k).
Proof.
  intros Hm Hk. split; [apply respects_bind; [apply _ | done | intros a; apply Hk] |].
  intros w w' b Hok Hr. apply bind_ok in Hr as (w1 & a & H1 & Hr).
  eapply Hk; [| exact Hr]. by apply (Hm _ _ _ H1).
Qed.

Lemma run_complete_all t protocol token ident : completes (id t) (run_complete (St := St) t protocol token ident).
Proof. split; [apply run_complete_keeps | intros w w' u; apply run_complete_completes]. Qed.

Lemma or_abort_completes tid (m abort : mut (World St) unit run_error) :
  completes tid m -> respects keeps_queue abort -> completes tid (or_abort m abort).
Proof.
  intros [Hm Hc] Ha. split.
  - intros w w' r Hr. unfold or_abort in Hr. destruct (m w) as [w1 [[] | [e |]]] eqn:H1; apply Hm in H1.
    + by injection Hr as <- _.
    + injection Hr as <- _. destruct (abort w1) as [w2 r2] eqn:H2. etrans; [exact H1 | by eapply Ha].
    + by injection Hr as <- _.
  - intros w w' a Hok Hr. unfold or_abort in Hr. destruct (m w) as [w1 [[] | [e |]]] eqn:H1; try discriminate Hr.
    injection Hr as <- _. by eapply Hc.
Qed.

Ltac solve_completes :=
  repeat first
    [ progress intros
    | apply run_complete_all
    | apply or_abort_completes; [| solve [solve_respects]]
    | apply completes_bind; [solve [solve_respects] |]
    | case_match ].

Lemma upload_completes fuel t ep h token control :
  completes (id t) (upload limits throttle_target fuel t ep h token control).
Proof. unfold upload, upload_started. solve_completes. Qed.

Lemma download_completes fuel t ep h token control :
  completes (id t) (download limits throttle_target fuel t ep h token control).
Proof. unfold download, download_started. solve_completes. Qed.

Lemma cleanup_control_queue (w w' : World St) r :
  cleanup_control limits w = (w', r) -> w_queue w' = w_queue w.
Proof. intros H. by injection H as <- _. Qed.

Lemma disconnect_keeps_all : respects keeps_queue (disconnect limits).
Proof. unfold disconnect. solve_respects. Qed.

Lemma then_disconnect_completes tid (m : mut (World St) unit run_error) :
  completes tid m -> completes tid (then_disconnect limits m).
Proof.
  intros [Hm Hc]. split.
  - intros w w' r Hr. unfold then_disconnect in Hr. destruct (m w) as [w1 [[] | [e |]]] eqn:H1; apply Hm in H1.
    + etrans; [exact H1 | by eapply disconnect_keeps_all].
    + injection Hr as <- _. destruct (disconnect limits w1) as [w2 r2] eqn:H2.
      etrans; [exact H1 | by eapply disconnect_keeps_all].
    + by injection Hr as <- _.
  - intros w w' a Hok Hr. unfold then_disconnect in Hr. destruct (m w) as [w1 [[] | [e |]]] eqn:H1; try discriminate Hr.
    pose proof (Hc _ _ _ Hok H1) as (t' & Ht' & Hdone). unfold disconnect in Hr.
    apply bind_ok in Hr as (w2 & c & H2 & Hr). apply cleanup_control_queue in H2.
    apply mut_map_err_ok in Hr. apply (disconnect_completed remote_ok tid c _ _ _ Hr).
    exists t'. by rewrite H2.
Qed.

Lemma execute_io_completes fuel t ep h token control :
  completes (id t) (execute_io limits throttle_target fuel t ep h token control).
Proof.
  unfold execute_io. repeat (apply completes_bind; [solve [solve_respects] | intros ?]).
  apply then_disconnect_completes. repeat (apply completes_bind; [solve [solve_respects] | intros ?]).
  destruct (direction t); [apply upload_completes | apply download_completes].
Qed.

Lemma completed_ended tid w : completed tid w -> ended tid w.
Proof.
  intros (t & Ht & Hd). exists t. split; [done |]. destruct Hd as [Hk | ?]; [left | by right].
  unfold is_active. by rewrite Hk.
Qed.

End Outcome.

(** The whole run of the three-byte download, over a session of its profile. *)
Definition session_ops : RemoteOps (St := InMemoryTransferStore) := {|
  factory_io_control_support _ := Io_Supported;
  remote_open _ _ := ret
    {| session_id := 9; session_profile_id := 3; session_protocol := Sftp; session_state := Ready;
       session_capabilities := {| matrix_rows := [{| cap_operation := FileOp_Read; cap_status := Cap_Supported |}] |};
       session_opened_at_unix_ms := 1; session_updated_at_unix_ms := 1 |};
  session_io_control_support _ := Io_Supported;
  remote_begin_write _ _ := throw queue_error;
  remote_write_chunk _ _ _ _ := throw queue_error;
  remote_commit_write _ _ _ := throw queue_error;
  remote_abort_write _ _ := ret tt;
  remote_read_chunk := remote_read_chunk (RemoteOps := demo_ops);
  remote_disconnect _ := ret tt;
|}.

Lemma session_ops_well_behaved : well_behaved (ops := session_ops).
Proof.
  split; intros; try (apply respects_read_only;
    [intros w H; exact H | first [apply read_only_ret | apply read_only_throw]]).
Qed.

Definition demo_outcome :
    World InMemoryTransferStore * result (option TransferRunOutcome) ExecutorError :=
  execute_started (ops := session_ops) ExecutorLimits_default demo_throttle 200 demo_running
    (token_of demo_running) demo_world.

