(* ===== verification/UsageBucket.v ===== *)
(** [crates/usage/src/clock.rs] and [bucket.rs]: clock samples, and the split of
    the time between two samples into the minutes of the local clock.

    The calendar ([chrono]) is a parameter: [Chrono] says what it can represent,
    how it writes a date and a minute, and the weekday and ISO week of a date. *)
From S2P Require Import Prelude.

(** ** clock.rs *)

Record ClockSample := {
  boot_id : string;
  monotonic_ns : Z;
  wall_utc_ms : Z;
  utc_offset_seconds : Z;
  timezone_id : string;
}.
#[export] Instance ClockSample_eq_dec : EqDecision ClockSample.
Proof. solve_decision. Defined.

(** [i128] division truncates. *)
Definition interpolate_monotonic (s e : ClockSample) (target_ns : Z) : option ClockSample :=
  match checked_u64 (monotonic_ns e - monotonic_ns s) with
  | None => None
  | Some mono_span =>
      if (target_ns <? monotonic_ns s) || (monotonic_ns e <? target_ns) || (mono_span =? 0) then None
      else
        match checked_i64 (wall_utc_ms e - wall_utc_ms s) with
        | None => None
        | Some wall_span =>
            let elapsed := target_ns - monotonic_ns s in
            let wall_delta := Z.quot (wall_span * elapsed) mono_span in
            option_map (fun wall =>
              {| boot_id := boot_id s; monotonic_ns := target_ns; wall_utc_ms := wall;
                 utc_offset_seconds := utc_offset_seconds s; timezone_id := timezone_id s |})
              (checked_i64 (wall_utc_ms s + wall_delta))
        end
  end.

(** ** bucket.rs *)

Definition MINUTE_MS : Z := 60000.
Definition MAX_WALL_DRIFT_NS : Z := 5000000000.

Record BucketSlice := {
  minute_key : string;
  day_key : string;
  week_key : string;
  slice_timezone_id : string;
  slice_utc_offset_seconds : Z;
  bucket_start_utc_ms : Z;
  day_start_utc_ms : Z;
  week_start_utc_ms : Z;
  last_wall_utc_ms : Z;
  duration_ns : Z;
}.

Inductive SummaryKind := Daily | Weekly.

Record SummaryBucket := {
  summary_kind : SummaryKind;
  summary_bucket_key : string;
  summary_timezone_id : string;
  summary_utc_offset_seconds : Z;
  summary_bucket_start_utc_ms : Z;
}.

Inductive BucketError :=
| BootChanged | MonotonicRegression | TimezoneChanged | WallClockRegression | WallClockJump
| InvalidWallTime.
#[export] Instance BucketError_eq_dec : EqDecision BucketError.
Proof. solve_decision. Defined.

(** Rust's [{:0w}] of an integer: the sign, zeros up to the width, the digits. *)
Definition digit (n : Z) : ascii := ascii_of_N (Z.to_N (48 + n)).
Fixpoint digits (fuel : nat) (n : Z) : string :=
  match fuel with
  | O => EmptyString
  | S fuel' => if n <? 10 then String (digit n) EmptyString
               else (digits fuel' (n / 10) ++ String (digit (n mod 10)) EmptyString)%string
  end.
Fixpoint zeros (n : nat) : string := match n with O => EmptyString | S n' => String (digit 0) (zeros n') end.
Definition pad (width : nat) (z : Z) : string :=
  let body := digits 20 (Z.abs z) in
  if z <? 0 then ("-" ++ zeros (width - 1 - String.length body) ++ body)%string
  else (zeros (width - String.length body) ++ body)%string.

Definition DAY_MILLIS : Z := 86400000.

(** What the code takes from [chrono]: which offsets, instants (milliseconds)
    and dates (days since the epoch) it can represent, two of its formats, and
    the weekday and ISO week of a date. *)
Class Chrono := {
  east_opt : Z -> bool;
  utc_representable : Z -> bool;
  date_representable : Z -> bool;
  format_minute : Z -> Z -> string;
  format_date : Z -> string;
  num_days_from_monday : Z -> Z;
  iso_week : Z -> Z * Z;
}.

(** A [DateTime<FixedOffset>]. *)
Record DateTime := { timestamp_millis : Z; offset_seconds : Z }.
Definition local_millis (d : DateTime) : Z := timestamp_millis d + offset_seconds d * 1000.

Section Buckets.
Context `{Chrono}.

Definition FixedOffset_east_opt (seconds : Z) : result Z BucketError :=
  fail_if negb (east_opt seconds) with InvalidWallTime in Ok seconds.

Definition datetime (utc_ms offset : Z) : result DateTime BucketError :=
  fail_if negb (utc_representable utc_ms) with InvalidWallTime in
  Ok {| timestamp_millis := utc_ms; offset_seconds := offset |}.

Definition local_datetime (wall_utc_ms utc_offset_seconds : Z) : result DateTime BucketError :=
  let? offset := FixedOffset_east_opt utc_offset_seconds in
  datetime wall_utc_ms offset.

(** [from_local_datetime] of the midnight a date begins with. *)
Definition local_midnight (offset day : Z) : result DateTime BucketError :=
  datetime (day * DAY_MILLIS - offset * 1000) offset.

Definition week_text (week : Z * Z) : string := (pad 4 (fst week) ++ "-W" ++ pad 2 (snd week))%string.

(** The keys of the day and the week, and the instants they start at. *)
Definition local_summary_identity (local : DateTime) : result (string * string * Z * Z) BucketError :=
  let offset := offset_seconds local in
  let day := local_millis local / DAY_MILLIS in
  let? day_start := local_midnight offset day in
  let week_day := day - num_days_from_monday day in
  fail_if negb (date_representable week_day) with InvalidWallTime in
  let? week_start := local_midnight offset week_day in
  Ok (format_date day, week_text (iso_week day), timestamp_millis day_start, timestamp_millis week_start).

Definition SummaryBucket_for_sample (kind : SummaryKind) (s : ClockSample)
  : result SummaryBucket BucketError :=
  let? local := local_datetime (wall_utc_ms s) (utc_offset_seconds s) in
  let? identity := local_summary_identity local in
  let '(day_key, week_key, day_start_utc_ms, week_start_utc_ms) := identity in
  Ok {| summary_kind := kind;
        summary_bucket_key := match kind with Daily => day_key | Weekly => week_key end;
        summary_timezone_id := timezone_id s;
        summary_utc_offset_seconds := utc_offset_seconds s;
        summary_bucket_start_utc_ms :=
          match kind with Daily => day_start_utc_ms | Weekly => week_start_utc_ms end |}.

Definition offset_ms (s : ClockSample) : Z := utc_offset_seconds s * 1000.

(** [with_second(0)] and [with_nanosecond(0)]. *)
Definition start_of_minute (d : DateTime) : result DateTime BucketError :=
  datetime (local_millis d / MINUTE_MS * MINUTE_MS - offset_seconds d * 1000) (offset_seconds d).

Definition bucket_for_local_millis (local_ms slice_end_local_ms : Z) (s : ClockSample) (duration : Z)
  : result BucketSlice BucketError :=
  let? offset := FixedOffset_east_opt (utc_offset_seconds s) in
  let? utc_ms := ok_or InvalidWallTime (checked_i64 (local_ms - offset_ms s)) in
  let? local := local_datetime utc_ms (utc_offset_seconds s) in
  let? minute := start_of_minute local in
  let? identity := local_summary_identity local in
  let '(day_key, week_key, day_start_utc_ms, week_start_utc_ms) := identity in
  Ok {| minute_key := format_minute (local_millis minute / MINUTE_MS) (utc_offset_seconds s);
        day_key := day_key; week_key := week_key;
        slice_timezone_id := timezone_id s; slice_utc_offset_seconds := offset;
        bucket_start_utc_ms := timestamp_millis minute; day_start_utc_ms := day_start_utc_ms;
        week_start_utc_ms := week_start_utc_ms; last_wall_utc_ms := slice_end_local_ms - offset_ms s;
        duration_ns := duration |}.

(** The start of the next minute; [None] on overflow. *)
Definition next_minute (cursor : Z) : option Z :=
  match checked_i64 (cursor / MINUTE_MS + 1) with
  | Some m => checked_i64 (m * MINUTE_MS)
  | None => None
  end.

(** The time given to everything before [slice_end]. *)
Definition cumulative_ns (mono local_start local_end slice_end : Z) : Z :=
  if slice_end =? local_end then mono
  else mono * (slice_end - local_start) / (local_end - local_start).

(** The loop of [split_into_local_minutes]; [None] when the fuel is out. *)
Fixpoint split_loop (fuel : nat) (s : ClockSample) (mono local_start local_end cursor assigned : Z)
  : option (result (list BucketSlice) BucketError) :=
  if local_end <=? cursor then Some (Ok [])
  else match fuel with
  | O => None
  | S n =>
      match next_minute cursor with
      | None => Some (Err InvalidWallTime)
      | Some minute =>
          let slice_end := Z.min minute local_end in
          let cumulative := cumulative_ns mono local_start local_end slice_end in
          let duration := cumulative - assigned in
          if 0 <? duration then
            match bucket_for_local_millis cursor slice_end s duration with
            | Err e => Some (Err e)
            | Ok b => option_map (fun r => let? l := r in Ok (b :: l))
                        (split_loop n s mono local_start local_end slice_end cumulative)
            end
          else split_loop n s mono local_start local_end slice_end cumulative
      end
  end.

(** One turn per minute that is touched. *)
Definition split_fuel (local_start local_end : Z) : nat :=
  Z.to_nat (local_end / MINUTE_MS - local_start / MINUTE_MS + 1).

Definition split_into_local_minutes (s e : ClockSample) : result (list BucketSlice) BucketError :=
  fail_if negb (eqb (boot_id s) (boot_id e)) with BootChanged in
  fail_if monotonic_ns e <=? monotonic_ns s with MonotonicRegression in
  fail_if negb (utc_offset_seconds s =? utc_offset_seconds e)
          || negb (eqb (timezone_id s) (timezone_id e)) with TimezoneChanged in
  let? wall_ms := ok_or WallClockRegression (checked_i64 (wall_utc_ms e - wall_utc_ms s)) in
  fail_if wall_ms <=? 0 with WallClockRegression in
  let mono := monotonic_ns e - monotonic_ns s in
  fail_if MAX_WALL_DRIFT_NS <? Z.abs (wall_ms * 1000000 - mono) with WallClockJump in
  let? local_start := ok_or InvalidWallTime (checked_i64 (wall_utc_ms s + offset_ms s)) in
  let? local_end := ok_or InvalidWallTime (checked_i64 (wall_utc_ms e + offset_ms s)) in
  default (Err InvalidWallTime)
    (split_loop (split_fuel local_start local_end) s mono local_start local_end local_start 0).
End Buckets.
