(* ===== verification/UsageBucketFacts.v ===== *)
(** The split of a sampled interval into local minutes: it always ends, gives
    away exactly the time that has passed, and places each part in its minute. *)
From S2P Require Import Prelude UsageBucket.

Section Split.
Context `{Chrono}.
Variables (s : ClockSample) (mono local_start local_end : Z).
Hypothesis mono_pos : 0 < mono.
Hypothesis span_pos : local_start < local_end.

Definition share (x : Z) : Z := mono * (x - local_start) / (local_end - local_start).

Lemma cumulative_share x : cumulative_ns mono local_start local_end x = share x.
Proof.
  unfold cumulative_ns, share. destruct (x =? local_end) eqn:Hx; [bool_facts; subst | done].
  rewrite Z.div_mul; lia.
Qed.

Lemma share_start : share local_start = 0.
Proof. unfold share. by rewrite Z.sub_diag, Z.mul_0_r, Z.div_0_l by lia. Qed.

Lemma share_mono x y : x <= y -> share x <= share y.
Proof. intros Hxy. unfold share. apply Z.div_le_mono; nia. Qed.

Lemma next_minute_some c m : next_minute c = Some m -> m = (c / MINUTE_MS + 1) * MINUTE_MS.
Proof.
  unfold next_minute. destruct (checked_i64 (c / MINUTE_MS + 1)) as [k |] eqn:Hk; [| done].
  intros Hm. apply checked_i64_some in Hk as [-> _], Hm as [-> _]. done.
Qed.

Lemma next_minute_bounds c : c < (c / MINUTE_MS + 1) * MINUTE_MS <= c + MINUTE_MS.
Proof. unfold MINUTE_MS. pose proof (Z.div_mod c 60000). pose proof (Z.mod_pos_bound c 60000). lia. Qed.

(** A part carries the names of the local minute, day and week of an instant. *)
Definition named_by (c : Z) (b : BucketSlice) : Prop :=
  minute_key b = format_minute (c / MINUTE_MS) (utc_offset_seconds s)
  /\ day_key b = format_date (c / DAY_MILLIS)
  /\ week_key b = week_text (iso_week (c / DAY_MILLIS))
  /\ bucket_start_utc_ms b = c / MINUTE_MS * MINUTE_MS - offset_ms s.

(** Parts of [from .. local_end], [assigned] nanoseconds being given away. *)
Fixpoint parts (from assigned : Z) (l : list BucketSlice) : Prop :=
  match l with
  | [] => assigned = mono
  | b :: l' =>
      let upto := last_wall_utc_ms b + offset_ms s in
      0 < duration_ns b /\ assigned + duration_ns b = share upto /\ upto <= local_end
      /\ (exists c, from <= c < upto /\ c / MINUTE_MS = (upto - 1) / MINUTE_MS
            /\ named_by c b)
      /\ parts upto (share upto) l'
  end.

Lemma bucket_for_ok c upto d b :
  bucket_for_local_millis c upto s d = Ok b ->
  duration_ns b = d /\ last_wall_utc_ms b = upto - offset_ms s /\ named_by c b.
Proof.
  unfold bucket_for_local_millis, local_datetime, start_of_minute, local_summary_identity, local_midnight,
    datetime, FixedOffset_east_opt. intros Hb.
  destruct (negb (east_opt _)); [done |]. cbn [result_bind] in Hb.
  destruct (checked_i64 _) as [u |] eqn:Hc; [| done]. apply checked_i64_some in Hc as [-> _].
  cbn [result_bind ok_or] in Hb. destruct (negb (utc_representable _)); [done |].
  cbn [result_bind] in Hb. unfold local_millis in Hb. cbn [timestamp_millis offset_seconds] in Hb.
  replace (c - offset_ms s + utc_offset_seconds s * 1000) with c in Hb by (unfold offset_ms; lia).
  destruct (negb (utc_representable (c / MINUTE_MS * MINUTE_MS - _))); [done |]. cbn [result_bind] in Hb.
  destruct (negb (utc_representable _)); [done |]. cbn [result_bind] in Hb.
  destruct (negb (date_representable _)); [done |].
  destruct (negb (utc_representable _)); [done |]. cbn [result_bind] in Hb. injection Hb as <-.
  unfold named_by. cbn. rewrite Z.sub_add, Z.div_mul by done. by split_and!.
Qed.

Lemma parts_weaken from from' assigned l : from' <= from -> parts from assigned l -> parts from' assigned l.
Proof.
  intros Hf. destruct l as [| b l]; simpl; [done |]. intros (H1 & H2 & H3 & (c & Hc & H4) & H5).
  split_and!; try done. exists c. split; [lia | done].
Qed.

Definition turns (cursor : Z) : nat := Z.to_nat (local_end / MINUTE_MS - cursor / MINUTE_MS + 1).

Lemma share_end : share local_end = mono.
Proof. unfold share. apply Z.div_mul. lia. Qed.

Lemma split_loop_spec fuel cursor :
  local_start <= cursor <= local_end -> (cursor < local_end -> (turns cursor <= fuel)%nat) ->
  exists r, split_loop fuel s mono local_start local_end cursor (share cursor) = Some r
    /\ forall l, r = Ok l -> parts cursor (share cursor) l.
Proof.
  revert cursor. induction fuel as [| fuel IH]; intros cursor Hc Hfuel; simpl;
    (destruct (local_end <=? cursor) eqn:Hend; bool_facts;
     [eexists; split; [done |]; intros l [= <-]; simpl; replace cursor with local_end by lia;
      apply share_end |]); specialize (Hfuel Hend).
  { exfalso. unfold turns in Hfuel. pose proof (Z.div_le_mono cursor local_end MINUTE_MS).
    unfold MINUTE_MS in *. lia. }
  destruct (next_minute cursor) as [m |] eqn:Hm; [| by eexists].
  apply next_minute_some in Hm. pose proof (next_minute_bounds cursor) as Hb. rewrite <- Hm in Hb.
  set (upto := Z.min m local_end). rewrite cumulative_share.
  assert (cursor < upto <= local_end) as Hu by lia.
  assert (cursor / MINUTE_MS = (upto - 1) / MINUTE_MS) as Hmin.
  { apply Z.le_antisymm; [apply Z.div_le_mono; unfold MINUTE_MS; lia |].
    apply Z.lt_succ_r, Z.div_lt_upper_bound; [unfold MINUTE_MS; lia |]. unfold MINUTE_MS in *. lia. }
  assert (upto < local_end -> (turns upto <= fuel)%nat) as Hf.
  { intros Hlt. unfold turns in *. replace upto with m in * by lia.
    rewrite Hm, Z.div_mul by (unfold MINUTE_MS; lia). lia. }
  destruct (IH upto ltac:(lia) Hf) as (r & Hr & Hp).
  destruct (0 <? share upto - share cursor) eqn:Hd; bool_facts.
  - destruct (bucket_for_local_millis _ _ _ _) as [b | e] eqn:Hbk; [| by eexists].
    rewrite Hr. simpl. eexists. split; [done |]. intros l Hl.
    apply result_bind_ok in Hl as (l' & -> & Hl). injection Hl as <-.
    apply bucket_for_ok in Hbk as (Hdur & Hlast & Hkey). simpl.
    replace (last_wall_utc_ms b + offset_ms s) with upto by lia.
    split_and!; [lia | lia | lia | | by apply Hp]. exists cursor. split_and!; [lia | lia | done | done].
  - assert (share upto = share cursor) as Heq by (pose proof (share_mono cursor upto); lia).
    rewrite <- Heq, Hr. eexists. split; [done |]. intros l Hl. apply (parts_weaken upto); [lia |].
    by apply Hp.
Qed.

Lemma parts_prefix from a l :
  parts from a l -> forall l1 b l2, l = l1 ++ b :: l2 ->
  a + sum_of duration_ns (l1 ++ [b]) = share (last_wall_utc_ms b + offset_ms s).
Proof.
  revert from a. induction l as [| b0 l IH]; intros from a Hp l1 b l2 Hl; [by destruct l1 |].
  destruct Hp as (_ & Ha & _ & _ & Hp). destruct l1 as [| b1 l1]; simpl in Hl; injection Hl as -> ->; simpl.
  - lia.
  - specialize (IH _ _ Hp l1 b l2 eq_refl). simpl in IH. lia.
Qed.

Lemma parts_total from a l : parts from a l -> a + sum_of duration_ns l = mono.
Proof.
  revert from a. induction l as [| b l IH]; intros from a Hp; simpl in *; [lia |].
  destruct Hp as (_ & Ha & _ & _ & Hp). specialize (IH _ _ Hp). lia.
Qed.

Lemma split_loop_ok fuel cursor assigned :
  local_start <= cursor -> (cursor < local_end -> (turns cursor <= fuel)%nat) ->
  (forall c, local_start <= c < local_end -> next_minute c <> None
     /\ forall u d, is_ok (bucket_for_local_millis c u s d) = true) ->
  exists l, split_loop fuel s mono local_start local_end cursor assigned = Some (Ok l).
Proof.
  intros Hc Hfuel Hgood. revert cursor assigned Hc Hfuel.
  induction fuel as [| fuel IH]; intros cursor assigned Hc Hfuel; simpl;
    (destruct (local_end <=? cursor) eqn:Hend; bool_facts; [by eexists |]); specialize (Hfuel Hend).
  { exfalso. unfold turns in Hfuel. pose proof (Z.div_le_mono cursor local_end MINUTE_MS).
    unfold MINUTE_MS in *. lia. }
  destruct (Hgood cursor ltac:(lia)) as [Hn Hbk].
  destruct (next_minute cursor) as [m |] eqn:Hm; [| done]. clear Hn.
  apply next_minute_some in Hm. pose proof (next_minute_bounds cursor) as Hb. rewrite <- Hm in Hb.
  set (upto := Z.min m local_end).
  assert (upto < local_end -> (turns upto <= fuel)%nat) as Hf.
  { intros Hlt. unfold turns in *. replace upto with m in * by lia.
    rewrite Hm, Z.div_mul by (unfold MINUTE_MS; lia). lia. }
  destruct (IH upto (cumulative_ns mono local_start local_end upto) ltac:(lia) Hf) as [l ->].
  destruct (0 <? _); [| by eexists].
  specialize (Hbk upto (cumulative_ns mono local_start local_end upto - assigned)).
  destruct (bucket_for_local_millis _ _ _ _); [| done]. simpl. by eexists.
Qed.

(** A part lies in the interval, after [from], in one minute of the clock. *)
Definition placed (from : Z) (b : BucketSlice) : Prop :=
  0 < duration_ns b /\ last_wall_utc_ms b + offset_ms s <= local_end
  /\ exists c, from <= c < last_wall_utc_ms b + offset_ms s
       /\ c / MINUTE_MS = (last_wall_utc_ms b + offset_ms s - 1) / MINUTE_MS
       /\ named_by c b.

Lemma parts_placed from a l :
  parts from a l ->
  Forall (placed from) l /\ StronglySorted (fun x y => last_wall_utc_ms x < last_wall_utc_ms y) l.
Proof.
  revert from a. induction l as [| b l IH]; intros from a Hp; [split; constructor |].
  simpl in Hp. destruct Hp as (Hd & _ & Hle & (c & Hc & Hmin & Hkey) & Hp).
  destruct (IH _ _ Hp) as [Hpl Hso]. split.
  - constructor; [split_and!; [done | done |]; by exists c |].
    eapply Forall_impl; [exact Hpl |]. intros x (H1 & H2 & c' & H3 & H4). split_and!; [done | done |].
    exists c'. split; [lia | done].
  - constructor; [done |]. eapply Forall_impl; [exact Hpl |]. intros x (_ & _ & c' & H3 & _). lia.
Qed.
End Split.

Section Theorems.
Context `{Chrono}.

(** What the guards of the split let through. *)
Definition comparable (s e : ClockSample) : Prop :=
  boot_id s = boot_id e /\ monotonic_ns s < monotonic_ns e
  /\ utc_offset_seconds s = utc_offset_seconds e /\ timezone_id s = timezone_id e
  /\ wall_utc_ms s < wall_utc_ms e
  /\ Z.abs ((wall_utc_ms e - wall_utc_ms s) * 1000000 - (monotonic_ns e - monotonic_ns s))
     <= MAX_WALL_DRIFT_NS.

Lemma split_cases s e r :
  split_into_local_minutes s e = r ->
  (exists err, r = Err err)
  \/ comparable s e
     /\ let from := wall_utc_ms s + offset_ms s in
        let upto := wall_utc_ms e + offset_ms s in
        split_loop (split_fuel from upto) s (monotonic_ns e - monotonic_ns s) from upto from 0 = Some r.
Proof.
  intros <-. destruct (split_into_local_minutes s e) as [l | err] eqn:Hs; [right | left; eauto].
  unfold split_into_local_minutes in Hs. bool_facts.
  apply result_bind_ok in Hs as (wall & Hw & Hs). bool_facts.
  apply result_bind_ok in Hs as (from & Hf & Hs). apply result_bind_ok in Hs as (upto & Hu & Hs).
  destruct (checked_i64 (wall_utc_ms e - wall_utc_ms s)) as [w |] eqn:Hw'; [| done].
  destruct (checked_i64 (wall_utc_ms s + _)) as [f |] eqn:Hf'; [| done].
  destruct (checked_i64 (wall_utc_ms e + _)) as [u |] eqn:Hu'; [| done]. simplify_eq/=.
  apply checked_i64_some in Hw' as [-> _], Hf' as [-> _], Hu' as [-> _].
  split; [split_and!; try done; lia |]. cbv zeta.
  destruct (split_loop _ _ _ _ _ _ _) as [r |] eqn:Hr; simpl in Hs; [by subst | done].
Qed.

Lemma split_parts s e l :
  split_into_local_minutes s e = Ok l ->
  monotonic_ns s < monotonic_ns e /\ wall_utc_ms s < wall_utc_ms e
  /\ let from := wall_utc_ms s + offset_ms s in
     parts s (monotonic_ns e - monotonic_ns s) from (wall_utc_ms e + offset_ms s) from 0 l.
Proof.
  intros Hs. destruct (split_cases _ _ _ Hs) as [[err [=]] | [(_ & Hm & _ & _ & Hw & _) Hl]].
  split_and!; [done | done |]. cbv zeta in *.
  set (from := wall_utc_ms s + offset_ms s) in *. set (upto := wall_utc_ms e + offset_ms s) in *.
  destruct (split_loop_spec s (monotonic_ns e - monotonic_ns s) from upto ltac:(lia) ltac:(lia)
    (split_fuel from upto) from) as (r & Hr & Hp); [lia | done |].
  rewrite share_start in Hr, Hp by lia. rewrite Hl in Hr. injection Hr as <-. by apply Hp.
Qed.

(** The time of the parts, for clients of the split. *)
Lemma split_total s e l :
  split_into_local_minutes s e = Ok l ->
  sum_of duration_ns l = monotonic_ns e - monotonic_ns s /\ monotonic_ns s < monotonic_ns e.
Proof. intros (Hm & _ & Hp)%split_parts. pose proof (parts_total _ _ _ _ _ _ _ Hp). lia. Qed.

(** the split of an interval conserves its time: the parts add up to
    exactly the monotonic time between the samples, and up to each part's end
    they add up to the share of the wall clock, rounded down; every part is
    positive, ends inside the interval and after the one before, and lies in the
    one local minute whose key it carries. *)
Theorem split_conserves_time s e l :
  split_into_local_minutes s e = Ok l ->
  let mono := monotonic_ns e - monotonic_ns s in
  sum_of duration_ns l = mono
  /\ (forall l1 b l2, l = l1 ++ b :: l2 -> sum_of duration_ns (l1 ++ [b])
        = mono * (last_wall_utc_ms b - wall_utc_ms s) / (wall_utc_ms e - wall_utc_ms s))
  /\ StronglySorted (fun x y => last_wall_utc_ms x < last_wall_utc_ms y) l
  /\ Forall (fun b => 0 < duration_ns b /\ last_wall_utc_ms b <= wall_utc_ms e
       /\ exists t, wall_utc_ms s <= t < last_wall_utc_ms b
            /\ (t + offset_ms s) / MINUTE_MS = (last_wall_utc_ms b - 1 + offset_ms s) / MINUTE_MS
            /\ named_by s (t + offset_ms s) b) l.
Proof.
  intros Hs mono. destruct (split_parts _ _ _ Hs) as (Hm & Hw & Hp). cbv zeta in Hp. fold mono in Hp.
  set (from := wall_utc_ms s + offset_ms s) in *. set (upto := wall_utc_ms e + offset_ms s) in *.
  pose proof (parts_total _ _ _ _ _ _ _ Hp) as Htot.
  destruct (parts_placed _ _ _ _ _ _ _ Hp) as [Hpl Hso]. split; [lia |]. split; [| split; [done |]].
  - intros l1 b l2 Heq. pose proof (parts_prefix _ _ _ _ _ _ _ Hp l1 b l2 Heq) as Hpre.
    rewrite Z.add_0_l in Hpre. rewrite Hpre. unfold share. f_equal; [f_equal |]; lia.
  - eapply Forall_impl; [exact Hpl |]. intros b (H1 & H2 & c & H3 & H4 & H5). split; [done |].
    split; [lia |]. exists (c - offset_ms s). split; [lia |]. rewrite Z.sub_add. split; [| done].
    rewrite H4. f_equal. lia.
Qed.

(** The calendar can represent an instant, and the minute, day and week it
    falls in. *)
Definition calendar_knows (offset t : Z) : Prop :=
  is_ok (let? local := local_datetime t offset in
         let? _ := start_of_minute local in
         local_summary_identity local) = true.

Lemma bucket_answers c u s d :
  in_i64 (c - offset_ms s) = true -> calendar_knows (utc_offset_seconds s) (c - offset_ms s) ->
  is_ok (bucket_for_local_millis c u s d) = true.
Proof.
  unfold calendar_knows, bucket_for_local_millis, checked_i64, local_datetime. intros -> Hk.
  destruct (FixedOffset_east_opt _); [| done]. cbn [result_bind ok_or] in *.
  destruct (datetime _ _); [| done]. cbn [result_bind] in *.
  destruct (start_of_minute _); [| done]. cbn [result_bind] in *.
  by destruct (local_summary_identity _) as [[[[? ?] ?] ?] |].
Qed.

(** the split answers whenever the samples compare: with a calendar that
    knows the instants of the interval and local times in range, it succeeds
    exactly when both samples are of one boot and one time zone, both clocks
    advanced, and they drifted apart by at most five seconds; the loop always
    ends by itself. *)
Theorem split_answers_exactly s e :
  (forall t, wall_utc_ms s <= t <= wall_utc_ms e ->
     in_i64 t = true /\ calendar_knows (utc_offset_seconds s) t) ->
  (forall x, wall_utc_ms s <= x <= wall_utc_ms e + MINUTE_MS -> in_i64 (x + offset_ms s) = true) ->
  in_i64 (wall_utc_ms e - wall_utc_ms s) = true ->
  is_ok (split_into_local_minutes s e) = true <-> comparable s e.
Proof.
  intros Hcal Hrange Hspan. split.
  { intros Ho. apply is_ok_iff in Ho as [l Hl]. by destruct (split_cases _ _ _ Hl) as [[? [=]] | [Hc _]]. }
  intros (Hb & Hm & Ho & Ht & Hw & Hd). unfold split_into_local_minutes.
  rewrite Hb, eqb_refl, Ho, Z.eqb_refl, Ht, eqb_refl. rewrite (proj2 (Z.leb_gt _ _)) by lia.
  simpl negb. cbn [orb]. unfold checked_i64 at 1. rewrite Hspan. cbn [ok_or result_bind].
  rewrite (proj2 (Z.leb_gt _ _)), (proj2 (Z.ltb_ge _ _)) by lia.
  unfold MINUTE_MS in Hrange.
  assert (checked_i64 (wall_utc_ms s + offset_ms s) = Some (wall_utc_ms s + offset_ms s)) as ->
    by (unfold checked_i64; by rewrite Hrange by lia).
  assert (checked_i64 (wall_utc_ms e + offset_ms s) = Some (wall_utc_ms e + offset_ms s)) as ->
    by (unfold checked_i64; by rewrite Hrange by lia).
  cbn [ok_or result_bind].
  destruct (split_loop_ok s (monotonic_ns e - monotonic_ns s) (wall_utc_ms s + offset_ms s)
    (wall_utc_ms e + offset_ms s)
    (split_fuel (wall_utc_ms s + offset_ms s) (wall_utc_ms e + offset_ms s))
    (wall_utc_ms s + offset_ms s) 0) as [l Hl]; [lia | done | | by rewrite Hl].
  intros c Hc. split.
  - unfold next_minute. pose proof (next_minute_bounds c) as Hbound. unfold MINUTE_MS in *.
    pose proof (Hrange (c - offset_ms s) ltac:(lia)) as Hrc. rewrite Z.sub_add in Hrc.
    pose proof (Hrange ((c / 60000 + 1) * 60000 - offset_ms s) ltac:(lia)) as Hrm. rewrite Z.sub_add in Hrm.
    unfold checked_i64. replace (in_i64 (c / 60000 + 1)) with true; [by rewrite Hrm |].
    symmetry. width.
  - intros u d. destruct (Hcal (c - offset_ms s) ltac:(lia)) as [Hin Hk]. by apply bucket_answers.
Qed.
End Theorems.

(** ** A calendar to compute with

    Local minutes, days and weeks are counted from the epoch and named in unary. *)

Fixpoint unary (n : nat) : string :=
  match n with O => EmptyString | S n' => String "a" (unary n') end.

Definition unary_chrono : Chrono := {|
  east_opt o := in_range (-86399) 86399 o;
  utc_representable w := in_range (-8000000000000000) 8000000000000000 w;
  date_representable d := in_range (-90000000) 90000000 d;
  format_minute m o := unary (Z.to_nat m);
  format_date d := unary (Z.to_nat d);
  num_days_from_monday d := d mod 7;
  iso_week d := (d / 7 / 50, 1 + (d / 7) mod 50)
|}.

Definition sample_at (mono wall : Z) : ClockSample :=
  {| boot_id := "boot"; monotonic_ns := mono; wall_utc_ms := wall; utc_offset_seconds := 3600;
     timezone_id := "Europe/Madrid" |}.

Lemma split_conserves_time_witness :
  exists l, @split_into_local_minutes unary_chrono (sample_at 1000 30000) (sample_at 90000001001 120001) = Ok l
    /\ length l = 3%nat /\ sum_of duration_ns l = 90000000001.
Proof.
  eexists. split; [vm_compute; reflexivity |]. split; [reflexivity |].
  exact (proj1 (@split_conserves_time unary_chrono (sample_at 1000 30000) (sample_at 90000001001 120001) _
           ltac:(vm_compute; reflexivity))).
Defined.

Lemma unary_chrono_knows t :
  Z.abs t <= 1000000000000000 -> @calendar_knows unary_chrono 3600 t.
Proof.
  intros Ht. unfold calendar_knows, local_datetime, start_of_minute, local_summary_identity, local_midnight,
    datetime, FixedOffset_east_opt, local_millis. cbn.
  assert (forall lo hi x, lo <= x <= hi -> in_range lo hi x = true) as Hr
    by (intros; unfold in_range; rewrite !(proj2 (Z.leb_le _ _)) by lia; done).
  unfold MINUTE_MS, DAY_MILLIS. set (l := t + 3600 * 1000).
  pose proof (Z.div_mod l 60000). pose proof (Z.mod_pos_bound l 60000).
  pose proof (Z.div_mod l 86400000). pose proof (Z.mod_pos_bound l 86400000).
  pose proof (Z.mod_pos_bound (l / 86400000) 7).
  repeat (rewrite Hr by lia; cbn [negb result_bind timestamp_millis offset_seconds]; fold l). done.
Qed.

Lemma split_answers_exactly_witness :
  is_ok (@split_into_local_minutes unary_chrono (sample_at 1000 30000) (sample_at 90000001001 120001)) = true.
Proof.
  apply (@split_answers_exactly unary_chrono).
  - cbn [sample_at wall_utc_ms utc_offset_seconds]. intros t Ht.
    split; [width | by apply unary_chrono_knows; lia].
  - unfold offset_ms, MINUTE_MS. cbn [sample_at wall_utc_ms utc_offset_seconds]. intros x Hx. width.
  - reflexivity.
  - unfold comparable, MAX_WALL_DRIFT_NS. simpl. split_and!; try done; lia.
Defined.
