(* ===== verification/UsageKeys.v ===== *)
(** The keys of daily and weekly buckets sort as the dates do: what SQL
    comparisons of [start_key <= key AND end_key >= key] rely on. A day's key is
    [chrono]'s; a week's is written by this code, [{:04}-W{:02}]. *)
From S2P Require Import Prelude UsageBucket UsageBucketFacts.

Lemma digits_split n : 0 <= n < 100 -> pad 2 n = String (digit (n / 10)) (String (digit (n mod 10)) EmptyString).
Proof.
  intros Hn. unfold pad. rewrite (proj2 (Z.ltb_ge n 0)), Z.abs_eq by lia.
  destruct (n <? 10) eqn:Hd1; bool_facts.
  - replace (digits 20 n) with (String (digit n) EmptyString) by (simpl; by rewrite (proj2 (Z.ltb_lt n 10))).
    rewrite Z.div_small, Z.mod_small by lia. reflexivity.
  - assert (n / 10 < 10) by (apply Z.div_lt_upper_bound; lia).
    replace (digits 20 n) with (String (digit (n / 10)) (String (digit (n mod 10)) EmptyString)); [reflexivity |].
    simpl. rewrite (proj2 (Z.ltb_ge n 10)), (proj2 (Z.ltb_lt (n / 10) 10)) by lia. reflexivity.
Qed.

(** The four digits of a number below ten thousand. *)
Definition four_digits (n : Z) (rest : string) : string :=
  String (digit (n / 1000)) (String (digit (n / 100 mod 10)) (String (digit (n / 10 mod 10))
    (String (digit (n mod 10)) rest))).

Lemma pad_four n : 0 <= n < 10000 -> pad 4 n = four_digits n EmptyString.
Proof.
  intros Hn. unfold pad, four_digits. rewrite (proj2 (Z.ltb_ge n 0)), Z.abs_eq by lia.
  assert (forall a, 0 <= a < 10 -> a / 10 = 0 /\ a mod 10 = a) as Hs
    by (intros a Ha; split; [by apply Z.div_small | by apply Z.mod_small]).
  replace (n / 1000) with (n / 10 / 10 / 10) by (rewrite !Z.div_div by lia; done).
  replace (n / 100) with (n / 10 / 10) by (rewrite !Z.div_div by lia; done).
  pose proof (Z.div_mod n 10). pose proof (Z.mod_pos_bound n 10).
  pose proof (Z.div_mod (n / 10) 10). pose proof (Z.mod_pos_bound (n / 10) 10).
  pose proof (Z.div_mod (n / 10 / 10) 10). pose proof (Z.mod_pos_bound (n / 10 / 10) 10).
  simpl. destruct (n <? 10) eqn:Hd1; bool_facts.
  { destruct (Hs n) as [-> ->]; [lia |]. reflexivity. }
  destruct (n / 10 <? 10) eqn:Hd2; bool_facts.
  { destruct (Hs (n / 10)) as [-> ->]; [lia |]. reflexivity. }
  destruct (n / 10 / 10 <? 10) eqn:Hd3; bool_facts.
  { destruct (Hs (n / 10 / 10)) as [-> ->]; [lia |]. reflexivity. }
  rewrite (proj2 (Z.ltb_lt (n / 10 / 10 / 10) 10)) by lia. reflexivity.
Qed.

Lemma leb_same c s t : String.leb (String c s) (String c t) = String.leb s t.
Proof. unfold String.leb. simpl. unfold Ascii.compare. by rewrite N.compare_refl. Qed.

Lemma leb_digit a b s t :
  0 <= a < 10 -> 0 <= b < 10 -> String.leb (String (digit a) s) (String (digit b) t) = true ->
  a < b \/ a = b /\ String.leb s t = true.
Proof.
  intros Ha Hb Hl. unfold String.leb in Hl. simpl in Hl. unfold Ascii.compare, digit in Hl.
  rewrite !N_ascii_embedding in Hl by lia.
  destruct (N.compare_spec (Z.to_N (48 + a)) (Z.to_N (48 + b))) as [He | Hlt | Hgt]; [right | left; lia | done].
  split; [lia | exact Hl].
Qed.

Lemma leb_four_digits n m s t :
  0 <= n < 10000 -> 0 <= m < 10000 -> String.leb (four_digits n s) (four_digits m t) = true ->
  n < m \/ n = m /\ String.leb s t = true.
Proof.
  intros Hn Hm. unfold four_digits.
  replace (n / 1000) with (n / 10 / 10 / 10) by (rewrite !Z.div_div by lia; done).
  replace (n / 100) with (n / 10 / 10) by (rewrite !Z.div_div by lia; done).
  replace (m / 1000) with (m / 10 / 10 / 10) by (rewrite !Z.div_div by lia; done).
  replace (m / 100) with (m / 10 / 10) by (rewrite !Z.div_div by lia; done).
  pose proof (Z.div_mod n 10). pose proof (Z.mod_pos_bound n 10).
  pose proof (Z.div_mod (n / 10) 10). pose proof (Z.mod_pos_bound (n / 10) 10).
  pose proof (Z.div_mod (n / 10 / 10) 10). pose proof (Z.mod_pos_bound (n / 10 / 10) 10).
  pose proof (Z.div_mod m 10). pose proof (Z.mod_pos_bound m 10).
  pose proof (Z.div_mod (m / 10) 10). pose proof (Z.mod_pos_bound (m / 10) 10).
  pose proof (Z.div_mod (m / 10 / 10) 10). pose proof (Z.mod_pos_bound (m / 10 / 10) 10).
  intros Hl. apply leb_digit in Hl as [? | [? Hl]]; [lia | | lia | lia].
  apply leb_digit in Hl as [? | [? Hl]]; [lia | | lia | lia].
  apply leb_digit in Hl as [? | [? Hl]]; [lia | | lia | lia].
  apply leb_digit in Hl as [? | [? Hl]]; [lia | | lia | lia]. right. split; [lia | done].
Qed.

Lemma append_four_digits n s t : (four_digits n s ++ t)%string = four_digits n (s ++ t).
Proof. reflexivity. Qed.

(** The text of a week sorts by year, then week. *)
Lemma week_text_sorted y w y' w' :
  0 <= y < 10000 -> 0 <= y' < 10000 -> 0 <= w < 100 -> 0 <= w' < 100 ->
  String.leb (week_text (y, w)) (week_text (y', w')) = true -> y < y' \/ y = y' /\ w <= w'.
Proof.
  intros Hy Hy' Hw Hw'. unfold week_text. simpl. rewrite !pad_four, !append_four_digits by done.
  intros Hl. apply leb_four_digits in Hl as [? | [-> Hl]]; [by left | | done | done]. right. split; [done |].
  rewrite !digits_split in Hl by done. change (String.leb (String "-" (String "W" (String (digit (w / 10)) (String (digit (w mod 10)) EmptyString))))
    (String "-" (String "W" (String (digit (w' / 10)) (String (digit (w' mod 10)) EmptyString)))) = true) in Hl.
  rewrite !leb_same in Hl.
  pose proof (Z.div_mod w 10). pose proof (Z.mod_pos_bound w 10).
  pose proof (Z.div_mod w' 10). pose proof (Z.mod_pos_bound w' 10).
  apply leb_digit in Hl as [? | [? Hl]]; [lia | | lia | lia].
  apply leb_digit in Hl as [? | [? Hl]]; [lia | | lia | lia]. lia.
Qed.

Definition MAX_UTC_OFFSET_SECONDS : Z := 86399.

(** The end of the year 9999, up to which a year is written in four digits. *)
Definition END_OF_FOUR_DIGIT_YEARS : Z := 2932897.

(** What is relied on of [chrono] up to the year 9999: offsets are shorter than
    a day, dates written [%Y-%m-%d] sort as text, and the dates of one ISO week,
    or of an earlier one, lie within seven days of each other. *)
Class ChronoLaws `{Chrono} : Prop := {
  east_opt_range o : east_opt o = true -> Z.abs o <= MAX_UTC_OFFSET_SECONDS;
  format_date_sorted d d' :
    0 <= d < END_OF_FOUR_DIGIT_YEARS -> 0 <= d' < END_OF_FOUR_DIGIT_YEARS ->
    String.leb (format_date d) (format_date d') = true -> d <= d';
  iso_week_range d : 0 <= d < END_OF_FOUR_DIGIT_YEARS ->
    0 <= fst (iso_week d) < 10000 /\ 1 <= snd (iso_week d) <= 53;
  iso_week_sorted d d' :
    0 <= d < END_OF_FOUR_DIGIT_YEARS -> 0 <= d' < END_OF_FOUR_DIGIT_YEARS ->
    fst (iso_week d) < fst (iso_week d')
    \/ fst (iso_week d) = fst (iso_week d') /\ snd (iso_week d) <= snd (iso_week d') -> d < d' + 7;
}.

(** [key] names the bucket the instant [w] falls in under the offset [o]. *)
Definition in_bucket `{Chrono} (kind : SummaryKind) (w o : Z) (key : string) : Prop :=
  east_opt o = true
  /\ let day := (w + o * 1000) / DAY_MILLIS in
     0 <= day < END_OF_FOUR_DIGIT_YEARS
     /\ key = match kind with Daily => format_date day | Weekly => week_text (iso_week day) end.

Definition bucket_ms (kind : SummaryKind) : Z :=
  match kind with Daily => DAY_MILLIS | Weekly => 7 * DAY_MILLIS end.

(** Keys in order are instants in order, up to the length of a bucket and the
    difference of the offsets. *)
Lemma keys_sorted `{ChronoLaws} kind w o key w' o' key' :
  in_bucket kind w o key -> in_bucket kind w' o' key' -> String.leb key key' = true ->
  w - MAX_UTC_OFFSET_SECONDS * 1000 < w' + MAX_UTC_OFFSET_SECONDS * 1000 + bucket_ms kind.
Proof.
  intros (Ho & Hd & ->) (Ho' & Hd' & ->) Hle. apply east_opt_range in Ho, Ho'.
  set (d := (w + o * 1000) / DAY_MILLIS) in *. set (d' := (w' + o' * 1000) / DAY_MILLIS) in *.
  assert (w + o * 1000 < (d + 1) * DAY_MILLIS /\ d' * DAY_MILLIS <= w' + o' * 1000) as [H1 H2].
  { unfold d, d', DAY_MILLIS. split.
    - pose proof (Z.mul_succ_div_gt (w + o * 1000) 86400000). lia.
    - pose proof (Z.mul_div_le (w' + o' * 1000) 86400000). lia. }
  assert (d * DAY_MILLIS + DAY_MILLIS <= d' * DAY_MILLIS + bucket_ms kind); [| lia].
  unfold bucket_ms, DAY_MILLIS in *. destruct kind.
  - apply format_date_sorted in Hle; [lia | done | done].
  - destruct (iso_week_range d Hd) as [Hy Hw], (iso_week_range d' Hd') as [Hy' Hw'].
    rewrite (surjective_pairing (iso_week d)), (surjective_pairing (iso_week d')) in Hle.
    apply week_text_sorted in Hle; [| lia ..]. apply iso_week_sorted in Hle; [lia | done | done].
Qed.

(** The laws hold of the calendar the examples compute with. *)
Lemma unary_sorted n m : String.leb (unary n) (unary m) = true -> (n <= m)%nat.
Proof.
  revert m. induction n as [| n IH]; intros m; [lia |]. destruct m as [| m]; [done |].
  intros Hl. specialize (IH m). change (String.leb (unary (S n)) (unary (S m)))
    with (String.leb (unary n) (unary m)) in Hl. specialize (IH Hl). lia.
Qed.

Lemma unary_chrono_laws : @ChronoLaws unary_chrono.
Proof.
  split; simpl; unfold END_OF_FOUR_DIGIT_YEARS, MAX_UTC_OFFSET_SECONDS.
  - intros o Ho. unfold in_range in Ho. bool_facts. lia.
  - intros d d' Hd Hd' Hl. apply unary_sorted in Hl. lia.
  - intros d Hd. pose proof (Z.mod_pos_bound (d / 7) 50). split; [| lia].
    rewrite Z.div_div by lia. split; [apply Z.div_pos; lia | apply Z.div_lt_upper_bound; lia].
  - intros d d' Hd Hd' Hl. pose proof (Z.div_mod (d / 7) 50). pose proof (Z.div_mod (d' / 7) 50).
    pose proof (Z.mod_pos_bound (d / 7) 50). pose proof (Z.mod_pos_bound (d' / 7) 50).
    pose proof (Z.div_mod d 7). pose proof (Z.mod_pos_bound d 7).
    pose proof (Z.div_mod d' 7). pose proof (Z.mod_pos_bound d' 7). lia.
Qed.
