(* ===== verification/UsageStore.v ===== *)
(** [crates/usage/src/store.rs]: the tables of the usage database and the
    statements the tracker runs on them.

    SQLite is not this repository's code: a store is its tables and an oracle
    [sql_faults] that says, statement by statement, which fail. A statement is
    atomic, and a transaction that is not committed leaves the tables as they
    were. Constraints of the schema that a statement can violate are checked:
    the unique open interval, the unique open gap, and the range of an INTEGER
    in a STRICT table. *)
From S2P Require Import Prelude UsageBucket.

Definition DAY_MS : Z := 86400000.
Definition DAILY_COVERAGE_BOUNDARY_DAYS : Z := 3.
Definition WEEKLY_COVERAGE_BOUNDARY_DAYS : Z := 9.
Definition MAX_NIRI_APP_ID_BYTES : Z := 512.

(** [niri.rs]'s identity of a focused window. *)
Record WindowIdentity := {
  window_id : Z;
  app_id : string;
  window_pid : option Z;
}.
#[export] Instance WindowIdentity_eq_dec : EqDecision WindowIdentity.
Proof. solve_decision. Defined.

Inductive UsageStoreError :=
| Sqlite
| IntervalNotOpen (interval_id : Z)
| NumericOverflow | InvalidAppId | InvalidBucketKey | InvalidUsageEpoch | InvalidGapReason.

Inductive IntervalState := Interval_Open | Interval_Closed | Interval_Recovered.
#[export] Instance IntervalState_eq_dec : EqDecision IntervalState.
Proof. solve_decision. Defined.

(** A row of [focus_intervals]. *)
Record FocusInterval := {
  row_app_id : string;
  row_pid : option Z;
  row_window_id : Z;
  row_boot_id : string;
  started_monotonic_ns : Z;
  last_checkpoint_monotonic_ns : Z;
  ended_monotonic_ns : option Z;
  started_wall_utc_ms : Z;
  last_checkpoint_wall_utc_ms : Z;
  ended_wall_utc_ms : option Z;
  start_timezone_id : string;
  start_utc_offset_seconds : Z;
  end_timezone_id : option string;
  end_utc_offset_seconds : option Z;
  row_duration_ns : Z;
  row_state : IntervalState;
  end_reason : option string;
  recovered_at_wall_utc_ms : option Z;
}.

(** A row of one of the three aggregate tables, under its primary key: the
    application, the bucket, the time zone and its offset. *)
Record AggregateRow := {
  agg_bucket_start_utc_ms : Z;
  agg_last_wall_utc_ms : Z;
  agg_duration_ns : Z;
}.
Abbreviation AggregateKey := (string * string * string * Z)%type.
Abbreviation AggregateTable := (gmap (string * string * string * Z) AggregateRow).

Inductive AggregateKind := Agg_Minute | Agg_Daily | Agg_Weekly.
#[export] Instance AggregateKind_eq_dec : EqDecision AggregateKind.
Proof. solve_decision. Defined.

(** A row of [coverage_gaps]. *)
Record CoverageGap := {
  gap_started_wall_utc_ms : Z;
  gap_ended_wall_utc_ms : option Z;
  gap_start_daily_key : string;
  gap_end_daily_key : option string;
  gap_start_weekly_key : string;
  gap_end_weekly_key : option string;
  gap_reason : string;
  gap_occurrence_count : Z;
  gap_recovered_interval_count : Z;
}.

Record UsageTables := {
  focus_intervals : gmap Z FocusInterval;
  minute_aggregates : AggregateTable;
  daily_aggregates : AggregateTable;
  weekly_aggregates : AggregateTable;
  coverage_gaps : list CoverageGap;
  usage_epoch : option (Z * string * string);
}.

Record UsageStore := { tables : UsageTables; sql_faults : list bool }.

Abbreviation store_mut A := (mut UsageStore A UsageStoreError).

Definition with_intervals (m : gmap Z FocusInterval) (t : UsageTables) : UsageTables :=
  {| focus_intervals := m; minute_aggregates := minute_aggregates t;
     daily_aggregates := daily_aggregates t; weekly_aggregates := weekly_aggregates t;
     coverage_gaps := coverage_gaps t; usage_epoch := usage_epoch t |}.
Definition with_gaps (g : list CoverageGap) (t : UsageTables) : UsageTables :=
  {| focus_intervals := focus_intervals t; minute_aggregates := minute_aggregates t;
     daily_aggregates := daily_aggregates t; weekly_aggregates := weekly_aggregates t;
     coverage_gaps := g; usage_epoch := usage_epoch t |}.
Definition table_of (k : AggregateKind) (t : UsageTables) : AggregateTable :=
  match k with
  | Agg_Minute => minute_aggregates t
  | Agg_Daily => daily_aggregates t
  | Agg_Weekly => weekly_aggregates t
  end.
Definition with_table (k : AggregateKind) (m : AggregateTable) (t : UsageTables) : UsageTables :=
  {| focus_intervals := focus_intervals t;
     minute_aggregates := match k with Agg_Minute => m | _ => minute_aggregates t end;
     daily_aggregates := match k with Agg_Daily => m | _ => daily_aggregates t end;
     weekly_aggregates := match k with Agg_Weekly => m | _ => weekly_aggregates t end;
     coverage_gaps := coverage_gaps t; usage_epoch := usage_epoch t |}.

(** One SQL statement: [None] is a violated constraint. *)
Definition execute {A} (f : UsageTables -> option (UsageTables * A)) : store_mut A :=
  fun s =>
    let faults := tail (sql_faults s) in
    match head (sql_faults s) with
    | Some true => ({| tables := tables s; sql_faults := faults |}, Err Sqlite)
    | _ => match f (tables s) with
           | Some (t, a) => ({| tables := t; sql_faults := faults |}, Ok a)
           | None => ({| tables := tables s; sql_faults := faults |}, Err Sqlite)
           end
    end.

Definition query {A} (f : UsageTables -> A) : store_mut A := execute (fun t => Some (t, f t)).

(** [transaction_with_behavior(Immediate)] .. [commit]; dropped on an error. *)
Definition transaction {A} (m : store_mut A) : store_mut A :=
  fun s =>
    match (query (fun _ => tt) ;;; a <- m ;; query (fun _ => tt) ;;; ret a) s with
    | (s', Ok a) => (s', Ok a)
    | (s', Err e) => ({| tables := tables s; sql_faults := sql_faults s' |}, Err e)
    end.

Definition sql_u64 (value : Z) : store_mut Z := lift (fun _ => ok_or NumericOverflow (checked_i64 value)).

Definition is_open (r : FocusInterval) : bool := eqb (row_state r) Interval_Open.
Definition any_open (m : gmap Z FocusInterval) : bool :=
  existsb (fun p => is_open (snd p)) (map_to_list m).
Definition open_gap (g : CoverageGap) : bool := is_none (gap_ended_wall_utc_ms g).

(** The rowid SQLite gives: one more than the largest. *)
Definition next_rowid (m : gmap Z FocusInterval) : Z :=
  1 + fold_right Z.max 0 (map_to_list m).*1.

Definition valid_app_id (a : string) : bool :=
  negb (is_empty a || (MAX_NIRI_APP_ID_BYTES <? len a) || contains_byte nul a).

(** ** Intervals *)

Definition new_interval (i : WindowIdentity) (start : ClockSample) : FocusInterval :=
  {| row_app_id := app_id i; row_pid := window_pid i; row_window_id := window_id i;
     row_boot_id := boot_id start; started_monotonic_ns := monotonic_ns start;
     last_checkpoint_monotonic_ns := monotonic_ns start; ended_monotonic_ns := None;
     started_wall_utc_ms := wall_utc_ms start; last_checkpoint_wall_utc_ms := wall_utc_ms start;
     ended_wall_utc_ms := None; start_timezone_id := timezone_id start;
     start_utc_offset_seconds := utc_offset_seconds start; end_timezone_id := None;
     end_utc_offset_seconds := None; row_duration_ns := 0; row_state := Interval_Open;
     end_reason := None; recovered_at_wall_utc_ms := None |}.

Definition start_interval (i : WindowIdentity) (start : ClockSample) : store_mut Z :=
  lift (fun _ => fail_if negb (valid_app_id (app_id i)) with InvalidAppId in Ok tt) ;;;
  sql_u64 (monotonic_ns start) ;;;
  sql_u64 (window_id i) ;;;
  execute (fun t =>
    if any_open (focus_intervals t) then None
    else
      let rowid := next_rowid (focus_intervals t) in
      Some (with_intervals (<[rowid := new_interval i start]> (focus_intervals t)) t, rowid)).

(** [try_fold] of [checked_add] over the slices. *)
Definition slices_duration (slices : list BucketSlice) : result Z UsageStoreError :=
  fold_left (fun r b => let? total := r in ok_or NumericOverflow (checked_u64 (total + duration_ns b)))
    slices (Ok 0).

Definition checkpoint_interval (duration : Z) (e : ClockSample) (r : FocusInterval) : FocusInterval :=
  {| row_app_id := row_app_id r; row_pid := row_pid r; row_window_id := row_window_id r;
     row_boot_id := row_boot_id r; started_monotonic_ns := started_monotonic_ns r;
     last_checkpoint_monotonic_ns := monotonic_ns e; ended_monotonic_ns := ended_monotonic_ns r;
     started_wall_utc_ms := started_wall_utc_ms r; last_checkpoint_wall_utc_ms := wall_utc_ms e;
     ended_wall_utc_ms := ended_wall_utc_ms r; start_timezone_id := start_timezone_id r;
     start_utc_offset_seconds := start_utc_offset_seconds r; end_timezone_id := end_timezone_id r;
     end_utc_offset_seconds := end_utc_offset_seconds r; row_duration_ns := row_duration_ns r + duration;
     row_state := row_state r; end_reason := end_reason r;
     recovered_at_wall_utc_ms := recovered_at_wall_utc_ms r |}.

(** The insert-or-add of one aggregate row. *)
Definition upsert (key : AggregateKey) (start last duration : Z) (m : AggregateTable)
  : option AggregateTable :=
  match m !! key with
  | None => Some (<[key := {| agg_bucket_start_utc_ms := start; agg_last_wall_utc_ms := last;
                              agg_duration_ns := duration |}]> m)
  | Some r =>
      if in_i64 (agg_duration_ns r + duration)
      then Some (<[key := {| agg_bucket_start_utc_ms := agg_bucket_start_utc_ms r;
                             agg_last_wall_utc_ms := Z.max (agg_last_wall_utc_ms r) last;
                             agg_duration_ns := agg_duration_ns r + duration |}]> m)
      else None
  end.

Definition upsert_aggregate (k : AggregateKind) (app bucket_key : string) (b : BucketSlice) (start : Z)
  : store_mut unit :=
  d <- sql_u64 (duration_ns b) ;;
  execute (fun t => option_map (fun m => (with_table k m t, tt))
    (upsert (app, bucket_key, slice_timezone_id b, slice_utc_offset_seconds b) start
       (last_wall_utc_ms b) d (table_of k t))).

(** The loop over the slices. *)
Fixpoint upsert_slices (app : string) (slices : list BucketSlice) : store_mut unit :=
  match slices with
  | [] => ret tt
  | b :: slices' =>
      upsert_aggregate Agg_Minute app (minute_key b) b (bucket_start_utc_ms b) ;;;
      upsert_aggregate Agg_Daily app (day_key b) b (day_start_utc_ms b) ;;;
      upsert_aggregate Agg_Weekly app (week_key b) b (week_start_utc_ms b) ;;;
      upsert_slices app slices'
  end.

(** The [UPDATE] of the checkpoint answers how many rows it changed. *)
Definition update_checkpoint (interval_id duration : Z) (e : ClockSample) : store_mut Z :=
  execute (fun t =>
    match focus_intervals t !! interval_id with
    | Some r =>
        if is_open r then
          if in_i64 (row_duration_ns r + duration)
          then Some (with_intervals (<[interval_id := checkpoint_interval duration e r]>
                                       (focus_intervals t)) t, 1)
          else None
        else Some (t, 0)
    | None => Some (t, 0)
    end).

Definition append_segment (interval_id : Z) (app : string) (e : ClockSample) (slices : list BucketSlice)
  : store_mut unit :=
  duration <- lift (fun _ => slices_duration slices) ;;
  if duration =? 0 then ret tt
  else
    transaction
      (d <- sql_u64 duration ;;
       sql_u64 (monotonic_ns e) ;;;
       updated <- update_checkpoint interval_id d e ;;
       lift (fun _ => fail_if negb (updated =? 1) with IntervalNotOpen interval_id in Ok tt) ;;;
       upsert_slices app slices).

Definition end_interval (s : IntervalState) (tz : option string) (offset : option Z) (reason : string)
    (recovered : option Z) (r : FocusInterval) : FocusInterval :=
  {| row_app_id := row_app_id r; row_pid := row_pid r; row_window_id := row_window_id r;
     row_boot_id := row_boot_id r; started_monotonic_ns := started_monotonic_ns r;
     last_checkpoint_monotonic_ns := last_checkpoint_monotonic_ns r;
     ended_monotonic_ns := Some (last_checkpoint_monotonic_ns r);
     started_wall_utc_ms := started_wall_utc_ms r;
     last_checkpoint_wall_utc_ms := last_checkpoint_wall_utc_ms r;
     ended_wall_utc_ms := Some (last_checkpoint_wall_utc_ms r);
     start_timezone_id := start_timezone_id r; start_utc_offset_seconds := start_utc_offset_seconds r;
     end_timezone_id := or_else tz (end_timezone_id r);
     end_utc_offset_seconds := or_else offset (end_utc_offset_seconds r);
     row_duration_ns := row_duration_ns r; row_state := s; end_reason := Some reason;
     recovered_at_wall_utc_ms := or_else recovered (recovered_at_wall_utc_ms r) |}.

Definition close_interval (interval_id : Z) (e : ClockSample) (reason : string) : store_mut unit :=
  execute (fun t =>
    match focus_intervals t !! interval_id with
    | Some r =>
        if is_open r
        then Some (with_intervals (<[interval_id := end_interval Interval_Closed (Some (timezone_id e))
                     (Some (utc_offset_seconds e)) reason None r]> (focus_intervals t)) t, tt)
        else Some (t, tt)
    | None => Some (t, tt)
    end).

(** ** Coverage gaps *)

Definition validate_gap_reason (reason : string) : store_mut unit :=
  lift (fun _ => fail_if is_empty reason || (128 <? len reason) || contains_byte nul reason
                   with InvalidGapReason in Ok tt).

Section Gaps.
Context `{Chrono}.

Definition gap_bucket_keys (s : ClockSample) : store_mut (string * string) :=
  lift (fun _ =>
    let? daily := map_err (fun _ => InvalidUsageEpoch) (SummaryBucket_for_sample Daily s) in
    let? weekly := map_err (fun _ => InvalidUsageEpoch) (SummaryBucket_for_sample Weekly s) in
    Ok (summary_bucket_key daily, summary_bucket_key weekly)).

Definition begin_gap (reason : string) (start : ClockSample) : store_mut unit :=
  validate_gap_reason reason ;;;
  keys <- gap_bucket_keys start ;;
  execute (fun t =>
    if existsb open_gap (coverage_gaps t) then Some (t, tt)
    else Some (with_gaps (coverage_gaps t ++
           [{| gap_started_wall_utc_ms := wall_utc_ms start; gap_ended_wall_utc_ms := None;
               gap_start_daily_key := fst keys; gap_end_daily_key := None;
               gap_start_weekly_key := snd keys; gap_end_weekly_key := None;
               gap_reason := reason; gap_occurrence_count := 1; gap_recovered_interval_count := 0 |}]) t, tt)).

Definition close_gap (e : ClockSample) (keys : string * string) (g : CoverageGap) : CoverageGap :=
  if open_gap g then
    {| gap_started_wall_utc_ms := gap_started_wall_utc_ms g;
       gap_ended_wall_utc_ms := Some (Z.max (gap_started_wall_utc_ms g) (wall_utc_ms e));
       gap_start_daily_key := gap_start_daily_key g; gap_end_daily_key := Some (fst keys);
       gap_start_weekly_key := gap_start_weekly_key g; gap_end_weekly_key := Some (snd keys);
       gap_reason := gap_reason g; gap_occurrence_count := gap_occurrence_count g;
       gap_recovered_interval_count := gap_recovered_interval_count g |}
  else g.

Definition close_open_gaps (e : ClockSample) : store_mut unit :=
  keys <- gap_bucket_keys e ;;
  execute (fun t => Some (with_gaps (close_gap e keys <$> coverage_gaps t) t, tt)).

Definition record_gap_interval (reason : string) (start e : ClockSample) : store_mut unit :=
  validate_gap_reason reason ;;;
  skeys <- gap_bucket_keys start ;;
  ekeys <- gap_bucket_keys e ;;
  execute (fun t => Some (with_gaps (coverage_gaps t ++
    [{| gap_started_wall_utc_ms := wall_utc_ms start;
        gap_ended_wall_utc_ms := Some (Z.max (wall_utc_ms start) (wall_utc_ms e));
        gap_start_daily_key := fst skeys; gap_end_daily_key := Some (fst ekeys);
        gap_start_weekly_key := snd skeys; gap_end_weekly_key := Some (snd ekeys);
        gap_reason := reason; gap_occurrence_count := 1; gap_recovered_interval_count := 0 |}]) t, tt)).

Definition has_open_gap : store_mut bool := query (fun t => existsb open_gap (coverage_gaps t)).

(** ** Recovery after a crash *)

Definition count_recovered (n : Z) (g : CoverageGap) : CoverageGap :=
  if open_gap g then
    {| gap_started_wall_utc_ms := gap_started_wall_utc_ms g;
       gap_ended_wall_utc_ms := gap_ended_wall_utc_ms g;
       gap_start_daily_key := gap_start_daily_key g; gap_end_daily_key := gap_end_daily_key g;
       gap_start_weekly_key := gap_start_weekly_key g; gap_end_weekly_key := gap_end_weekly_key g;
       gap_reason := gap_reason g; gap_occurrence_count := gap_occurrence_count g;
       gap_recovered_interval_count := gap_recovered_interval_count g + n |}
  else g.

Definition open_intervals (m : gmap Z FocusInterval) : list FocusInterval :=
  List.filter is_open (map_to_list m).*2.

(** [SELECT MIN(...)]: nothing on no rows. *)
Definition min_of (l : list Z) : option Z :=
  match l with [] => None | z :: l' => Some (fold_left Z.min l' z) end.

Definition recover_open_intervals (at_ : ClockSample) : store_mut Z :=
  transaction
    (earliest <- query (fun t => min_of (last_checkpoint_wall_utc_ms <$> open_intervals (focus_intervals t))) ;;
     recovered <- execute (fun t =>
       Some (with_intervals
               ((fun r => if is_open r
                          then end_interval Interval_Recovered None None "crash_recovery"
                                 (Some (wall_utc_ms at_)) r
                          else r) <$> focus_intervals t) t,
             Z.of_nat (length (open_intervals (focus_intervals t))))) ;;
     when (0 <? recovered)
       (let started := default (wall_utc_ms at_) earliest in
        keys <- gap_bucket_keys {| boot_id := boot_id at_; monotonic_ns := monotonic_ns at_;
                                   wall_utc_ms := started;
                                   utc_offset_seconds := utc_offset_seconds at_;
                                   timezone_id := timezone_id at_ |} ;;
        execute (fun t => Some (with_gaps (count_recovered recovered <$> coverage_gaps t) t, tt)) ;;;
        execute (fun t =>
          if existsb open_gap (coverage_gaps t) then Some (t, tt)
          else Some (with_gaps (coverage_gaps t ++
                 [{| gap_started_wall_utc_ms := started; gap_ended_wall_utc_ms := None;
                     gap_start_daily_key := fst keys; gap_end_daily_key := None;
                     gap_start_weekly_key := snd keys; gap_end_weekly_key := None;
                     gap_reason := "crash_recovery"; gap_occurrence_count := 1;
                     gap_recovered_interval_count := recovered |}]) t,
               tt))) ;;;
     ret recovered).
End Gaps.

(** ** Coverage *)

(** [bytes] are ASCII digits. *)
Definition two_digits_in_range (l : list Z) (minimum maximum : Z) : bool :=
  match l with
  | [a; b] => is_ascii_digit a && is_ascii_digit b
              && in_range minimum maximum ((a - ch "0") * 10 + (b - ch "0"))
  | _ => false
  end.

Definition slice (l : list Z) (from upto : nat) : list Z := firstn (upto - from) (skipn from l).
Definition byte_at (l : list Z) (i : nat) (b : Z) : bool := eqb (l !! i) (Some b).

Definition valid_bucket_key (kind : SummaryKind) (value : string) : bool :=
  let l := bytes value in
  match kind with
  | Daily =>
      (len value =? 10) && byte_at l 4 (ch "-") && byte_at l 7 (ch "-")
      && forallb is_ascii_digit (slice l 0 4) && two_digits_in_range (slice l 5 7) 1 12
      && two_digits_in_range (slice l 8 10) 1 31
  | Weekly =>
      (len value =? 8) && byte_at l 4 (ch "-") && byte_at l 5 (ch "W")
      && forallb is_ascii_digit (slice l 0 4) && two_digits_in_range (slice l 6 8) 1 53
  end.

Definition validate_bucket_key (kind : SummaryKind) (value : string) : result unit UsageStoreError :=
  fail_if negb (valid_bucket_key kind value) with InvalidBucketKey in Ok tt.

Definition gap_start_key (kind : SummaryKind) (g : CoverageGap) : string :=
  match kind with Daily => gap_start_daily_key g | Weekly => gap_start_weekly_key g end.
Definition gap_end_key (kind : SummaryKind) (g : CoverageGap) : option string :=
  match kind with Daily => gap_end_daily_key g | Weekly => gap_end_weekly_key g end.

(** The [WHERE] clause; SQLite compares text bytewise. *)
Definition gap_covers (bucket : option (SummaryKind * string)) (g : CoverageGap) : bool :=
  match bucket with
  | None => true
  | Some (kind, key) =>
      String.leb (gap_start_key kind g) key && is_none_or (String.leb key) (gap_end_key kind g)
  end.

Definition gap_wall (g : CoverageGap) : Z := default (gap_started_wall_utc_ms g) (gap_ended_wall_utc_ms g).

Record UsageCoverageState := {
  event_gap_count : Z;
  recovered_interval_count : Z;
  last_gap_wall_utc_ms : option Z;
  last_gap_reason : option string;
  tracking_started_wall_utc_ms : option Z;
  tracking_start_daily_key : option string;
  tracking_start_weekly_key : option string;
}.

(** [ORDER BY wall DESC, id DESC LIMIT 1]: rows are in the order of their ids. *)
Definition latest_gap (l : list CoverageGap) : option CoverageGap :=
  fold_left (fun best g => match best with
                           | Some b => if gap_wall b <=? gap_wall g then Some g else best
                           | None => Some g
                           end) l None.

Definition query_coverage_state_filtered (bucket : option (SummaryKind * string))
  : store_mut UsageCoverageState :=
  counts <- execute (fun t =>
    let rows := List.filter (gap_covers bucket) (coverage_gaps t) in
    let gaps := sum_of gap_occurrence_count rows in
    let recovered := sum_of gap_recovered_interval_count rows in
    if in_i64 gaps && in_i64 recovered
    then Some (t, (gaps, recovered, option_map gap_wall (latest_gap rows))) else None) ;;
  reason <- match snd counts with
            | Some _ => query (fun t => option_map gap_reason
                          (latest_gap (List.filter (gap_covers bucket) (coverage_gaps t))))
            | None => ret None
            end ;;
  epoch <- query usage_epoch ;;
  gaps <- lift (fun _ => ok_or NumericOverflow (checked_u64 (fst (fst counts)))) ;;
  recovered <- lift (fun _ => ok_or NumericOverflow (checked_u64 (snd (fst counts)))) ;;
  ret {| event_gap_count := gaps; recovered_interval_count := recovered;
         last_gap_wall_utc_ms := snd counts; last_gap_reason := reason;
         tracking_started_wall_utc_ms := option_map (fun e => fst (fst e)) epoch;
         tracking_start_daily_key := option_map (fun e => snd (fst e)) epoch;
         tracking_start_weekly_key := option_map snd epoch |}.

Definition query_coverage_state : store_mut UsageCoverageState := query_coverage_state_filtered None.

Definition query_coverage_state_for_bucket (kind : SummaryKind) (bucket_key : string)
  : store_mut UsageCoverageState :=
  lift (fun _ => validate_bucket_key kind bucket_key) ;;;
  query_coverage_state_filtered (Some (kind, bucket_key)).

(** ** Queries and retention *)

(** [SUM] fails when it leaves 64 bits. *)
Definition aggregate_duration_ns (k : AggregateKind) (app bucket_key : string) : store_mut Z :=
  value <- execute (fun t =>
    let total := sum_of (fun p => let '(a, b, _, _, r) := p in
                           if eqb a app && eqb b bucket_key then agg_duration_ns r else 0)
                   (map_to_list (table_of k t)) in
    if in_i64 total then Some (t, total) else None) ;;
  lift (fun _ => ok_or NumericOverflow (checked_u64 value)).

Definition interval_count : store_mut Z := query (fun t => Z.of_nat (size (focus_intervals t))).
Definition open_interval_count : store_mut Z :=
  query (fun t => Z.of_nat (length (open_intervals (focus_intervals t)))).

Record RetentionPolicy := { raw_days : Z; minute_days : Z; daily_days : Z; weekly_weeks : Z }.

Definition cutoff_days (now days : Z) : store_mut Z :=
  lift (fun _ =>
    let? age := ok_or NumericOverflow (checked_i64 (days * DAY_MS)) in
    ok_or NumericOverflow (checked_i64 (now - age))).

Definition checked_days (days : Z) : store_mut Z :=
  lift (fun _ => ok_or NumericOverflow (checked_u32 days)).

Definition delete_older_than (k : AggregateKind) (cutoff : Z) : store_mut unit :=
  execute (fun t => Some (with_table k
    (filter (fun p => cutoff <= agg_last_wall_utc_ms (snd p)) (table_of k t)) t, tt)).

Definition interval_end_wall (r : FocusInterval) : Z :=
  default (last_checkpoint_wall_utc_ms r) (ended_wall_utc_ms r).

(** The rows a retention deletes nothing of. *)
Definition interval_kept (cutoff : Z) (p : Z * FocusInterval) : Prop :=
  row_state (snd p) = Interval_Open \/ cutoff <= interval_end_wall (snd p).
#[export] Instance interval_kept_dec cutoff p : Decision (interval_kept cutoff p).
Proof. unfold interval_kept. apply _. Defined.

Definition gap_kept (cutoff : Z) (g : CoverageGap) : bool :=
  is_none_or (fun e => cutoff <=? e) (gap_ended_wall_utc_ms g).

Definition apply_retention (now : Z) (policy : RetentionPolicy) : store_mut unit :=
  transaction
    (raw <- cutoff_days now (raw_days policy) ;;
     execute (fun t => Some (with_intervals (filter (interval_kept raw) (focus_intervals t)) t, tt)) ;;;
     minute <- cutoff_days now (minute_days policy) ;;
     delete_older_than Agg_Minute minute ;;;
     daily <- cutoff_days now (daily_days policy) ;;
     delete_older_than Agg_Daily daily ;;;
     weekly_days <- checked_days (weekly_weeks policy * 7) ;;
     weekly <- cutoff_days now weekly_days ;;
     delete_older_than Agg_Weekly weekly ;;;
     daily_coverage <- checked_days (daily_days policy + DAILY_COVERAGE_BOUNDARY_DAYS) ;;
     weekly_coverage <- checked_days (weekly_days + WEEKLY_COVERAGE_BOUNDARY_DAYS) ;;
     coverage <- cutoff_days now (Z.max daily_coverage weekly_coverage) ;;
     execute (fun t => Some (with_gaps (List.filter (gap_kept coverage) (coverage_gaps t)) t, tt))).
