(* ===== verification/UsageStoreFacts.v ===== *)
(** The books of the usage database balance: what each statement does to the
    time recorded for an application, in its intervals and in the three
    aggregate tables, with and without failing statements. *)

From S2P Require Import Prelude UsageBucket UsageBucketFacts UsageKeys UsageStore.

(** ** The time recorded for an application *)

Definition of_app (app : string) (a : string) (n : Z) : Z := if eqb a app then n else 0.

(** In its intervals. *)
Definition counted_time (app : string) (t : UsageTables) : Z :=
  sum_map (fun (_ : Z) r => of_app app (row_app_id r) (row_duration_ns r)) (focus_intervals t).

(** In the aggregates of a kind. *)
Definition aggregated_time (k : AggregateKind) (app : string) (t : UsageTables) : Z :=
  sum_map (fun key r => of_app app (fst (fst (fst key))) (agg_duration_ns r)) (table_of k t).

(** The books are in order: the duration of an interval is the monotonic time
    from its start to its last checkpoint, and at most one interval is open. *)
Definition spans (t : UsageTables) : Prop :=
  forall id r, focus_intervals t !! id = Some r ->
    row_duration_ns r = last_checkpoint_monotonic_ns r - started_monotonic_ns r.
Definition one_open (t : UsageTables) : Prop :=
  forall i j ri rj, focus_intervals t !! i = Some ri -> focus_intervals t !! j = Some rj ->
    is_open ri = true -> is_open rj = true -> i = j.
Definition books (t : UsageTables) : Prop := spans t /\ one_open t.

(** [t'] records [n] more for [app] than [t], in the intervals and in each of
    the aggregate tables, and as much for all others. *)
Definition charged (app : string) (n : Z) (t t' : UsageTables) : Prop :=
  forall app', counted_time app' t' = counted_time app' t + of_app app' app n
    /\ forall k, aggregated_time k app' t' = aggregated_time k app' t + of_app app' app n.

(** Everything but the coverage gaps. *)
Definition ledger (t : UsageTables) : gmap Z FocusInterval * AggregateTable * AggregateTable * AggregateTable :=
  (focus_intervals t, minute_aggregates t, daily_aggregates t, weekly_aggregates t).

Lemma of_app_zero app a : of_app app a 0 = 0.
Proof. unfold of_app. by destruct (eqb a app). Qed.

Lemma charged_zero app t t' :
  (forall app', counted_time app' t' = counted_time app' t) ->
  (forall k, table_of k t' = table_of k t) -> charged app 0 t t'.
Proof.
  intros Hc Ha app'. rewrite of_app_zero, Hc, Z.add_0_r. split; [done |].
  intros k. unfold aggregated_time. rewrite Ha. lia.
Qed.

Lemma charged_nothing app t t' : ledger t' = ledger t -> charged app 0 t t'.
Proof.
  destruct t, t'. unfold ledger. simpl. intros [= -> -> -> ->]. by apply charged_zero.
Qed.

Lemma charged_any app app' t t' : charged app 0 t t' -> charged app' 0 t t'.
Proof. unfold charged. intros Hc a. specialize (Hc a). by rewrite of_app_zero in *. Qed.

Lemma charged_trans app n m t t' t'' :
  charged app n t t' -> charged app m t' t'' -> charged app (n + m) t t''.
Proof.
  intros H1 H2 app'. destruct (H1 app') as [C1 A1], (H2 app') as [C2 A2].
  assert (of_app app' app (n + m) = of_app app' app n + of_app app' app m) as ->
    by (unfold of_app; destruct (eqb app app'); lia).
  split; [lia |]. intros k. rewrite A2, A1. lia.
Qed.

(** ** Statements *)

Lemma execute_cases {A} (f : UsageTables -> option (UsageTables * A)) s s' r :
  execute f s = (s', r) ->
  r = Err Sqlite /\ tables s' = tables s
  \/ exists a, r = Ok a /\ f (tables s) = Some (tables s', a).
Proof.
  unfold execute. intros H. destruct (head (sql_faults s)) as [[] |];
    [injection H as <- <-; auto | |];
    (destruct (f (tables s)) as [[t a] |] eqn:Hf; injection H as <- <-; [right; by exists a | auto]).
Qed.

Lemma query_tables {A} (f : UsageTables -> A) s s' r : query f s = (s', r) -> tables s' = tables s.
Proof.
  intros H. apply execute_cases in H as [[_ ?] | (a & _ & [=])]; [done |]. congruence.
Qed.

(** A transaction does all of its work or none. *)
Lemma transaction_cases {A} (m : store_mut A) s s' r :
  transaction m s = (s', r) ->
  (exists e, r = Err e /\ tables s' = tables s)
  \/ exists a s1 s2, r = Ok a /\ tables s1 = tables s /\ m s1 = (s2, Ok a) /\ tables s' = tables s2.
Proof.
  unfold transaction. intros H. destruct (bind _ _ s) as [s3 [a | e]] eqn:Hm.
  - injection H as <- <-. right.
    apply bind_ok in Hm as (s1 & [] & H1 & Hm). apply bind_ok in Hm as (s2 & a' & H2 & Hm).
    apply bind_ok in Hm as (s4 & [] & H4 & Hm). apply ret_ok in Hm as [-> ->].
    apply query_tables in H1, H4. by exists a', s1, s2.
  - injection H as <- <-. left. by exists e.
Qed.

Lemma sql_u64_ok z s s' v : sql_u64 z s = (s', Ok v) -> s' = s /\ v = z.
Proof.
  unfold sql_u64. intros H. inv_ok. split; [done |].
  destruct (checked_i64 z) as [w |] eqn:Hz; [| done]. simplify_eq/=.
  by apply checked_i64_some in Hz as [-> _].
Qed.

Lemma next_rowid_fresh m : m !! next_rowid m = None.
Proof.
  unfold next_rowid. destruct (m !! _) as [r |] eqn:Hr; [| done]. exfalso.
  apply elem_of_map_to_list, (list_elem_of_fmap_2 fst) in Hr. simpl in Hr. revert Hr.
  generalize (map_to_list m).*1. intros l.
  assert (forall z, z ∈ l -> z <= fold_right Z.max 0 l) as Hmax; [| intros Hin; specialize (Hmax _ Hin); lia].
  induction l as [| y l IH]; intros z Hz; simpl; [by apply elem_of_nil in Hz |].
  apply elem_of_cons in Hz as [-> | Hz]; [lia |]. specialize (IH z Hz). lia.
Qed.

Lemma any_open_iff m : any_open m = true <-> exists i r, m !! i = Some r /\ is_open r = true.
Proof.
  unfold any_open. rewrite existsb_exists. split.
  - intros ([i r] & Hin & Ho). exists i, r. split; [| done].
    by apply elem_of_map_to_list, list_elem_of_In.
  - intros (i & r & Hi & Ho). exists (i, r). split; [| done].
    by apply list_elem_of_In, elem_of_map_to_list.
Qed.

(** ** Aggregates *)

Lemma table_with_table k k' m t :
  table_of k (with_table k' m t) = if decide (k = k') then m else table_of k t.
Proof. by destruct k, k'. Qed.

Lemma upsert_sum app key st la d m m' :
  upsert key st la d m = Some m' ->
  let time := sum_map (fun (key : AggregateKey) r => of_app app (fst (fst (fst key))) (agg_duration_ns r)) in
  time m' = time m + of_app app (fst (fst (fst key))) d.
Proof.
  unfold upsert. intros Hu. simpl. destruct (m !! key) as [r |] eqn:Hk.
  - destruct (in_i64 _); [| done]. injection Hu as <-. rewrite (sum_map_update _ _ _ r) by done.
    simpl. unfold of_app. destruct (eqb _ app); lia.
  - injection Hu as <-. rewrite sum_map_fresh by done. simpl. unfold of_app. destruct (eqb _ app); lia.
Qed.

Lemma upsert_aggregate_ok k app key b start s s' :
  upsert_aggregate k app key b start s = (s', Ok tt) ->
  focus_intervals (tables s') = focus_intervals (tables s)
  /\ coverage_gaps (tables s') = coverage_gaps (tables s)
  /\ forall k' app', aggregated_time k' app' (tables s')
       = aggregated_time k' app' (tables s)
         + if decide (k' = k) then of_app app' app (duration_ns b) else 0.
Proof.
  unfold upsert_aggregate. intros H. apply bind_ok in H as (s1 & d & H1 & H).
  apply sql_u64_ok in H1 as [-> ->].
  apply execute_cases in H as [[[=] _] | ([] & _ & H)].
  destruct (upsert _ _ _ _ _) as [m |] eqn:Hu; [| done]. injection H as <-.
  split_and!; [done | done |]. intros k' app'. unfold aggregated_time. rewrite table_with_table.
  destruct (decide (k' = k)) as [-> |]; [| lia]. apply (upsert_sum app') in Hu. exact Hu.
Qed.

Lemma upsert_slices_ok app slices s s' :
  upsert_slices app slices s = (s', Ok tt) ->
  focus_intervals (tables s') = focus_intervals (tables s)
  /\ coverage_gaps (tables s') = coverage_gaps (tables s)
  /\ forall k app', aggregated_time k app' (tables s')
       = aggregated_time k app' (tables s) + of_app app' app (sum_of duration_ns slices).
Proof.
  revert s. induction slices as [| b slices IH]; intros s; simpl; intros H.
  { apply ret_ok in H as [-> _]. split_and!; [done | done |]. intros k app'. rewrite of_app_zero. lia. }
  apply bind_ok in H as (s1 & [] & H1 & H). apply bind_ok in H as (s2 & [] & H2 & H).
  apply bind_ok in H as (s3 & [] & H3 & H).
  apply upsert_aggregate_ok in H1 as (F1 & G1 & A1), H2 as (F2 & G2 & A2), H3 as (F3 & G3 & A3).
  apply IH in H as (F & G & A). split_and!; [congruence | congruence |].
  intros k app'. rewrite A, A3, A2, A1. unfold of_app.
  destruct k; simpl; destruct (eqb app app'); lia.
Qed.

Lemma slices_duration_ok slices d : slices_duration slices = Ok d -> d = sum_of duration_ns slices.
Proof.
  unfold slices_duration. enough (forall acc,
    fold_left (fun r b => let? total := r in ok_or NumericOverflow (checked_u64 (total + duration_ns b)))
      slices (Ok acc) = Ok d -> d = acc + sum_of duration_ns slices) as Hg by (intros H; apply (Hg 0 H)).
  assert (forall l e, fold_left (fun (r : result Z UsageStoreError) b => let? total := r in
    ok_or NumericOverflow (checked_u64 (total + duration_ns b))) l (Err e) = Err e) as Herr
    by (induction l; simpl; auto).
  induction slices as [| b l IH]; intros acc; simpl; [intros [= ->]; lia |].
  destruct (checked_u64 _) as [v |] eqn:Hv; simpl; [| by rewrite Herr].
  apply checked_u64_some in Hv as [-> _]. intros H. apply IH in H. lia.
Qed.

(** ** Intervals *)

(** A table of intervals with one row changed or added. *)
Lemma counted_update app t id r r' :
  focus_intervals t !! id = Some r ->
  counted_time app (with_intervals (<[id := r']> (focus_intervals t)) t)
  = counted_time app t - of_app app (row_app_id r) (row_duration_ns r)
    + of_app app (row_app_id r') (row_duration_ns r').
Proof. intros Hr. unfold counted_time. simpl. by rewrite (sum_map_update _ _ _ r). Qed.

Lemma counted_fresh app t id r' :
  focus_intervals t !! id = None ->
  counted_time app (with_intervals (<[id := r']> (focus_intervals t)) t)
  = counted_time app t + of_app app (row_app_id r') (row_duration_ns r').
Proof. intros Hr. unfold counted_time. simpl. rewrite sum_map_fresh by done. lia. Qed.

Lemma spans_insert t id r' :
  spans t -> row_duration_ns r' = last_checkpoint_monotonic_ns r' - started_monotonic_ns r' ->
  spans (with_intervals (<[id := r']> (focus_intervals t)) t).
Proof.
  intros Hs Hr' i ri. simpl. rewrite lookup_insert. case_decide; [by intros [= <-] | apply Hs].
Qed.

Lemma one_open_insert t id r' :
  one_open t -> (is_open r' = true -> forall i r, focus_intervals t !! i = Some r -> is_open r = true -> i = id) ->
  one_open (with_intervals (<[id := r']> (focus_intervals t)) t).
Proof.
  intros Ho Hr' i j ri rj. simpl. rewrite !lookup_insert.
  repeat case_decide; intros; simplify_eq; try done.
  - symmetry. by eapply Hr'.
  - by eapply Hr'.
  - by eapply Ho.
Qed.

Lemma start_interval_cases i start s s' r :
  start_interval i start s = (s', r) ->
  (exists e, r = Err e /\ tables s' = tables s)
  \/ any_open (focus_intervals (tables s)) = false
     /\ let id := next_rowid (focus_intervals (tables s)) in
        r = Ok id
        /\ tables s' = with_intervals (<[id := new_interval i start]> (focus_intervals (tables s))) (tables s).
Proof.
  unfold start_interval, sql_u64, bind, lift. intros H.
  destruct (negb _); [injection H as <- <-; left; eauto |].
  destruct (checked_i64 (monotonic_ns start)); simpl in H; [| injection H as <- <-; left; eauto].
  destruct (checked_i64 (window_id i)); simpl in H; [| injection H as <- <-; left; eauto].
  apply execute_cases in H as [[-> ?] | (a & -> & H)]; [left; eauto |]. right.
  destruct (any_open _); [done |]. injection H as <- <-. done.
Qed.

Lemma start_interval_books i start s s' r :
  start_interval i start s = (s', r) -> books (tables s) ->
  books (tables s') /\ charged (app_id i) 0 (tables s) (tables s')
  /\ (forall id, r = Ok id -> focus_intervals (tables s') !! id = Some (new_interval i start)).
Proof.
  intros H (Hs & Ho). apply start_interval_cases in H as [(e & -> & ->) | (Hn & -> & ->)].
  { split_and!; [done | by apply charged_nothing | done]. }
  set (id := next_rowid _).
  assert (forall app, counted_time app (with_intervals (<[id := new_interval i start]>
    (focus_intervals (tables s))) (tables s)) = counted_time app (tables s)) as Hc.
  { intros app. rewrite counted_fresh by apply next_rowid_fresh. simpl. rewrite of_app_zero. lia. }
  unfold books. split_and!.
  - apply spans_insert; [done | simpl; lia].
  - apply one_open_insert; [done |]. intros _ j rj Hj Hoj. exfalso.
    assert (any_open (focus_intervals (tables s)) = true); [apply any_open_iff; eauto | congruence].
  - by apply charged_zero; [| intros []].
  - intros id' [= <-]. simpl. apply lookup_insert_eq.
Qed.

(** A row whose checkpoint and duration stay, and which is opened by nothing. *)
Definition ended_as (r r' : FocusInterval) : Prop :=
  row_app_id r' = row_app_id r /\ row_duration_ns r' = row_duration_ns r
  /\ last_checkpoint_monotonic_ns r' = last_checkpoint_monotonic_ns r
  /\ started_monotonic_ns r' = started_monotonic_ns r /\ (is_open r' = true -> is_open r = true).

Lemma charged_fmap app t (g : FocusInterval -> FocusInterval) :
  (forall r, ended_as r (g r)) -> charged app 0 t (with_intervals (g <$> focus_intervals t) t).
Proof.
  intros Hg. apply charged_zero; [| by intros []]. intros app'. unfold counted_time. simpl.
  apply sum_map_fmap. intros _ r. destruct (Hg r) as (Ha & Hd & _). by rewrite Ha, Hd.
Qed.

Lemma books_fmap t (g : FocusInterval -> FocusInterval) :
  (forall r, ended_as r (g r)) -> books t -> books (with_intervals (g <$> focus_intervals t) t).
Proof.
  intros Hg (Hs & Ho). unfold books. split_and!.
  - intros i r. simpl. rewrite lookup_fmap. intros (r0 & Hi & ->)%fmap_Some.
    destruct (Hg r0) as (_ & Hd & Hl & Hm & _). rewrite Hd, Hl, Hm. by apply (Hs i).
  - intros i j ri rj. simpl. rewrite !lookup_fmap.
    intros (r0 & Hi & ->)%fmap_Some (r1 & Hj & ->)%fmap_Some Hoi Hoj.
    apply Hg in Hoi, Hoj. by eapply Ho.
Qed.

Lemma close_interval_cases id e reason s s' r :
  close_interval id e reason s = (s', r) ->
  r = Err Sqlite /\ tables s' = tables s
  \/ r = Ok tt /\ (forall row, focus_intervals (tables s) !! id = Some row -> is_open row = false)
     /\ tables s' = tables s
  \/ r = Ok tt /\ exists row, focus_intervals (tables s) !! id = Some row /\ is_open row = true
     /\ tables s' = with_intervals (<[id := end_interval Interval_Closed (Some (timezone_id e))
          (Some (utc_offset_seconds e)) reason None row]> (focus_intervals (tables s))) (tables s).
Proof.
  unfold close_interval. intros H.
  apply execute_cases in H as [[-> ?] | ([] & -> & H)]; [by left |]. right.
  destruct (focus_intervals (tables s) !! id) as [row |] eqn:Hi; [| injection H as <-; left; by split_and!].
  destruct (is_open row) eqn:Ho; injection H as <-; [right; eauto | left].
  split_and!; [done | by intros ? [= <-] | done].
Qed.

(** ** Closing and counting *)

Lemma ended_as_end r tz off reason rec st :
  st <> Interval_Open -> ended_as r (end_interval st tz off reason rec r).
Proof. intros Hst. split_and!; try done. unfold is_open. simpl. by destruct st. Qed.

Lemma close_interval_books id e reason s s' r :
  close_interval id e reason s = (s', r) -> books (tables s) ->
  books (tables s') /\ (forall app, charged app 0 (tables s) (tables s'))
  /\ (r = Ok tt -> forall row, focus_intervals (tables s') !! id = Some row -> is_open row = false).
Proof.
  intros H (Hs & Ho).
  apply close_interval_cases in H as [[-> ->] | [(-> & Hc & ->) | (-> & row & Hi & Hrow & ->)]].
  - split_and!; [done | intros; by apply charged_nothing | done].
  - split_and!; [done | intros; by apply charged_nothing | done].
  - set (row' := end_interval _ _ _ _ _ row).
    assert (ended_as row row') as (Ha & Hd & Hl & Hm & _) by (by apply ended_as_end).
    assert (forall app, counted_time app (with_intervals (<[id := row']> (focus_intervals (tables s)))
      (tables s)) = counted_time app (tables s)) as Hc.
    { intros app. rewrite (counted_update _ _ _ row) by done. rewrite Ha, Hd. lia. }
    unfold books. split_and!.
    + apply spans_insert; [done |]. rewrite Hd, Hl, Hm. by apply (Hs id).
    + by apply one_open_insert.
    + intros app. by apply charged_zero; [| intros []].
    + intros _ row0. simpl. rewrite lookup_insert_eq. by intros [= <-].
Qed.

Lemma append_segment_cases id app e slices s s' r :
  append_segment id app e slices s = (s', r) ->
  tables s' = tables s /\ (r = Ok tt -> sum_of duration_ns slices = 0)
  \/ r = Ok tt /\ exists row, focus_intervals (tables s) !! id = Some row /\ is_open row = true
     /\ let d := sum_of duration_ns slices in
        focus_intervals (tables s')
        = <[id := checkpoint_interval d e row]> (focus_intervals (tables s))
     /\ coverage_gaps (tables s') = coverage_gaps (tables s)
     /\ forall k app', aggregated_time k app' (tables s')
          = aggregated_time k app' (tables s) + of_app app' app d.
Proof.
  unfold append_segment. intros H. unfold bind at 1, lift at 1 in H.
  destruct (slices_duration slices) as [d | err] eqn:Hd; [| injection H as <- <-; by left].
  apply slices_duration_ok in Hd as ->.
  destruct (_ =? 0) eqn:Hz; [bool_facts; injection H as <- <-; by left |].
  apply transaction_cases in H as [(err & -> & ->) | ([] & s1 & s2 & -> & Ht & H & Ht')]; [by left |].
  right. split; [done |]. apply bind_ok in H as (s3 & d & H1 & H). apply sql_u64_ok in H1 as [-> ->].
  apply bind_ok in H as (s3 & m & H1 & H). apply sql_u64_ok in H1 as [-> ->].
  apply bind_ok in H as (s3 & n & H1 & H). apply bind_ok in H as (s4 & [] & H2 & H).
  apply lift_ok in H2 as [-> H2]. unfold update_checkpoint in H1.
  apply execute_cases in H1 as [[[=] _] | (n' & [= <-] & H1)].
  apply upsert_slices_ok in H as (F & G & A). rewrite <- Ht, Ht'.
  destruct (focus_intervals (tables s1) !! id) as [row |] eqn:Hi; [| injection H1 as _ <-; done].
  destruct (is_open row) eqn:Ho; [| injection H1 as _ <-; done].
  destruct (in_i64 _); [| done]. injection H1 as H1 _.
  exists row. split_and!; [done | done | by rewrite F, <- H1 | by rewrite G, <- H1 |].
  intros k app'. rewrite A, <- H1. done.
Qed.

Lemma append_segment_books id app e slices s s' r row :
  append_segment id app e slices s = (s', r) -> books (tables s) ->
  focus_intervals (tables s) !! id = Some row -> row_app_id row = app ->
  sum_of duration_ns slices = monotonic_ns e - last_checkpoint_monotonic_ns row ->
  sum_of duration_ns slices <> 0 ->
  books (tables s')
  /\ (charged app 0 (tables s) (tables s') /\ focus_intervals (tables s') = focus_intervals (tables s)
        /\ r <> Ok tt
      \/ charged app (sum_of duration_ns slices) (tables s) (tables s') /\ r = Ok tt
         /\ focus_intervals (tables s')
            = <[id := checkpoint_interval (sum_of duration_ns slices) e row]> (focus_intervals (tables s))
         /\ is_open row = true).
Proof.
  intros H (Hs & Ho) Hrow Happ Hsum Hnz.
  apply append_segment_cases in H as [[-> Hr] | (-> & row' & Hrow' & Hopen & F & G & A)].
  { split; [done |]. left. split_and!; [by apply charged_nothing | done | intros ?; auto]. }
  rewrite Hrow in Hrow'. injection Hrow' as <-. set (d := sum_of _ _) in *.
  assert (forall app', counted_time app' (tables s') = counted_time app' (tables s) + of_app app' app d) as Hc.
  { intros app'. unfold counted_time. rewrite F, (sum_map_update _ _ _ row) by done. simpl.
    rewrite Happ. unfold of_app. destruct (eqb app app'); lia. }
  split; [| right; split_and!; [by intros app' | done | done | done]]. unfold books. split_and!.
  - intros i r0. rewrite F, lookup_insert. case_decide; [| apply Hs].
    intros [= <-]. simpl. pose proof (Hs _ _ Hrow). lia.
  - intros i j ri rj. rewrite F, !lookup_insert. repeat case_decide; intros; simplify_eq; try done.
    + eapply Ho; done.
    + eapply Ho; done.
    + by eapply Ho.
Qed.

(** ** Coverage gaps leave the books alone *)

Lemma ledger_books t t' : ledger t' = ledger t -> books t -> books t'.
Proof. destruct t, t'. unfold ledger. simpl. by intros [= -> -> -> ->]. Qed.

Lemma ledger_intervals t t' : ledger t' = ledger t -> focus_intervals t' = focus_intervals t.
Proof. by intros [= -> _ _ _]. Qed.

Lemma gap_statement {A} (f : UsageTables -> option (UsageTables * A)) s s' r :
  (forall t t' a, f t = Some (t', a) -> ledger t' = ledger t) ->
  execute f s = (s', r) -> ledger (tables s') = ledger (tables s).
Proof. intros Hf H. apply execute_cases in H as [[_ ->] | (a & _ & H)]; [done | by eapply Hf]. Qed.

Definition keeps_ledger {A} (m : store_mut A) : Prop := preserves (fun s => ledger (tables s)) m.

Lemma keeps_ledger_lift {A} (f : UsageStore -> result A UsageStoreError) : keeps_ledger (lift f).
Proof. by intros s s' r [= <- _]. Qed.

Lemma keeps_ledger_execute {A} (f : UsageTables -> option (UsageTables * A)) :
  (forall t t' a, f t = Some (t', a) -> ledger t' = ledger t) -> keeps_ledger (execute f).
Proof. intros Hf s s' r H. by eapply gap_statement. Qed.

Section Gaps.
Context `{Chrono}.

Lemma keeps_ledger_gap_keys s : keeps_ledger (gap_bucket_keys s).
Proof. apply keeps_ledger_lift. Qed.

Lemma keeps_ledger_begin reason start : keeps_ledger (begin_gap reason start).
Proof.
  unfold begin_gap, validate_gap_reason.
  apply preserves_bind; [apply keeps_ledger_lift | intros _].
  apply preserves_bind; [apply keeps_ledger_gap_keys | intros keys]. apply keeps_ledger_execute.
  intros t t' x. by destruct (existsb _ _); intros [= <- _].
Qed.

Lemma keeps_ledger_close e : keeps_ledger (close_open_gaps e).
Proof.
  unfold close_open_gaps. apply preserves_bind; [apply keeps_ledger_gap_keys | intros keys].
  apply keeps_ledger_execute. by intros t t' a [= <- _].
Qed.

Lemma keeps_ledger_record reason start e : keeps_ledger (record_gap_interval reason start e).
Proof.
  unfold record_gap_interval, validate_gap_reason.
  apply preserves_bind; [apply keeps_ledger_lift | intros _].
  do 2 (apply preserves_bind; [apply keeps_ledger_gap_keys | intros ?]). apply keeps_ledger_execute.
  by intros t t' x [= <- _].
Qed.
End Gaps.

(** * What the usage database guarantees across a crash and across retention:
    recovery closes what was left open and records the gap, and retention never
    drops a gap that still covers an aggregate it keeps. *)

Section Recovery.
Context `{Chrono}.

Definition recovered_at (at_ : ClockSample) (r : FocusInterval) : FocusInterval :=
  if is_open r
  then end_interval Interval_Recovered None None "crash_recovery" (Some (wall_utc_ms at_)) r else r.

Lemma recovered_ended_as at_ r : ended_as r (recovered_at at_ r).
Proof.
  unfold recovered_at. destruct (is_open r) eqn:Ho; [by apply ended_as_end | by split_and!].
Qed.

Lemma recovered_closed at_ r : is_open (recovered_at at_ r) = false.
Proof. unfold recovered_at. by destruct (is_open r) eqn:Ho. Qed.

Lemma fold_min_le l y : fold_left Z.min l y <= y /\ forall z, z ∈ l -> fold_left Z.min l y <= z.
Proof.
  revert y. induction l as [| x l IH]; intros y; simpl; [split; [lia | by intros ? ?%elem_of_nil] |].
  destruct (IH (Z.min y x)) as [H1 H2]. split; [lia |].
  intros z [-> | Hz]%elem_of_cons; [lia | by apply H2].
Qed.

Lemma min_of_least l m z : min_of l = Some m -> z ∈ l -> m <= z.
Proof.
  destruct l as [| y l]; [done |]. intros [= <-] Hz. destruct (fold_min_le l y) as [H1 H2].
  apply elem_of_cons in Hz as [-> | Hz]; [done | by apply H2].
Qed.

Lemma open_intervals_in m r :
  r ∈ open_intervals m <-> exists id, m !! id = Some r /\ is_open r = true.
Proof.
  unfold open_intervals. rewrite list_elem_of_In, filter_In, <- list_elem_of_In, list_elem_of_fmap. split.
  - intros ([[id r'] [-> Hin]] & Ho). exists id. by apply elem_of_map_to_list in Hin.
  - intros (id & Hid & Ho). split; [| done]. exists (id, r). by split; [| apply elem_of_map_to_list].
Qed.

Lemma any_open_count m : any_open m = (0 <? Z.of_nat (length (open_intervals m))).
Proof.
  destruct (any_open m) eqn:Ha; symmetry.
  - apply any_open_iff in Ha as (id & r & Hi & Ho).
    assert (r ∈ open_intervals m) as Hin by (apply open_intervals_in; eauto).
    destruct (open_intervals m); [by apply elem_of_nil in Hin | done].
  - destruct (open_intervals m) as [| r l] eqn:Ho; [done |]. exfalso.
    assert (r ∈ open_intervals m) as Hin by (rewrite Ho; left).
    apply open_intervals_in in Hin as (id & Hi & Hr).
    assert (any_open m = true); [apply any_open_iff; eauto | congruence].
Qed.

(** What recovery leaves of the tables. *)
Definition recovered_tables (at_ : ClockSample) (keys : string * string) (n : Z) (t t' : UsageTables) : Prop :=
  ledger t' = ledger (with_intervals (recovered_at at_ <$> focus_intervals t) t)
  /\ (n = 0 -> coverage_gaps t' = coverage_gaps t)
  /\ (0 < n -> existsb open_gap (coverage_gaps t) = true ->
        coverage_gaps t' = count_recovered n <$> coverage_gaps t)
  /\ (0 < n -> existsb open_gap (coverage_gaps t) = false ->
        exists g, coverage_gaps t' = coverage_gaps t ++ [g] /\ open_gap g = true
          /\ gap_reason g = "crash_recovery"%string /\ gap_recovered_interval_count g = n
          /\ Some (gap_started_wall_utc_ms g)
             = min_of (last_checkpoint_wall_utc_ms <$> open_intervals (focus_intervals t))
          /\ (gap_start_daily_key g, gap_start_weekly_key g) = keys).

Lemma count_recovered_open n l : existsb open_gap (count_recovered n <$> l) = existsb open_gap l.
Proof.
  induction l as [| g l IH]; [done |]. rewrite fmap_cons. cbn [existsb]. rewrite IH. f_equal.
  unfold count_recovered. by destruct (open_gap g) eqn:Ho.
Qed.

Lemma count_recovered_none n l : existsb open_gap l = false -> count_recovered n <$> l = l.
Proof.
  induction l as [| g l IH]; [done |]. rewrite fmap_cons. cbn [existsb]. intros Ho. bool_facts.
  unfold count_recovered at 1. destruct (open_gap g); [done |]. f_equal. by apply IH.
Qed.

Lemma recover_cases at_ s s' r :
  recover_open_intervals at_ s = (s', r) ->
  (exists e, r = Err e /\ tables s' = tables s)
  \/ exists keys, let n := Z.of_nat (length (open_intervals (focus_intervals (tables s)))) in
     r = Ok n /\ recovered_tables at_ keys n (tables s) (tables s').
Proof.
  unfold recover_open_intervals. intros H'.
  apply transaction_cases in H' as [(e & -> & ->) | (n & s1 & s2 & -> & Ht & H' & Ht')]; [left; eauto |].
  right. apply bind_ok in H' as (s3 & earliest & H1 & H'). apply execute_cases in H1 as [[[=] _] | (x & [= <-] & H1)].
  injection H1 as H1 He. apply bind_ok in H' as (s4 & n' & H2 & H').
  apply execute_cases in H2 as [[[=] _] | (x & [= <-] & H2)]. injection H2 as H2 Hn.
  apply bind_ok in H' as (s5 & [] & H3 & H'). apply ret_ok in H' as [-> ->]. rewrite Ht', <- Ht.
  rewrite <- H1 in Hn, H2. rewrite <- Hn in *. clear Hn. cbv zeta.
  fold (recovered_at at_) in H2.
  set (n := Z.of_nat _) in *. unfold when in H3. destruct (0 <? n) eqn:Hpos; bool_facts.
  2:{ apply ret_ok in H3 as [<- _]. exists (EmptyString, EmptyString). split; [done |].
      rewrite <- H2. split_and!; [done | done | lia | lia]. }
  apply bind_ok in H3 as (s6 & keys & H4 & H3). apply lift_ok in H4 as [-> _].
  apply bind_ok in H3 as (s7 & [] & H5 & H3). apply execute_cases in H5 as [[[=] _] | (x & [= <-] & H5)].
  injection H5 as H5. exists keys. split; [done |].
  assert (coverage_gaps (tables s4) = coverage_gaps (tables s1)) as Hg by (by rewrite <- H2).
  apply execute_cases in H3 as [[[=] _] | (x & [= <-] & H3)]. rewrite <- H5 in H3. simpl in H3.
  rewrite count_recovered_open, Hg in H3. destruct (existsb open_gap (coverage_gaps (tables s1))) eqn:Ho;
    injection H3 as H3; rewrite <- H3, <- H2; (split; [done |]); (split; [lia |]); simpl.
  - split; [done | by rewrite Ho].
  - split; [by rewrite Ho |]. intros _ _. eexists. rewrite count_recovered_none by done.
    split_and!; try done; simpl; [| by destruct keys].
    destruct (open_intervals (focus_intervals (tables s1))) as [| x l] eqn:Hl; [simpl in n; lia |].
    by rewrite <- He.
Qed.

(** recovery after a crash is all or nothing, and exact. On an error the
    tables are as they were. Otherwise it answers how many intervals were open
    and leaves none open; it changes no recorded time; it ends each interval it
    closes at its last checkpoint and leaves every other one alone; and if there
    was one, an open gap has them counted: the one that was open already, or a
    new one that begins no later than any of their checkpoints. *)
Theorem recovery_is_exact at_ s s' r :
  recover_open_intervals at_ s = (s', r) ->
  (exists e, r = Err e /\ tables s' = tables s)
  \/ exists n, r = Ok n /\ n = Z.of_nat (length (open_intervals (focus_intervals (tables s))))
     /\ any_open (focus_intervals (tables s')) = false
     /\ (books (tables s) -> books (tables s'))
     /\ (forall app, charged app 0 (tables s) (tables s'))
     /\ (forall id row, focus_intervals (tables s) !! id = Some row ->
           exists row', focus_intervals (tables s') !! id = Some row'
             /\ if is_open row
                then row_state row' = Interval_Recovered
                     /\ ended_monotonic_ns row' = Some (last_checkpoint_monotonic_ns row)
                     /\ ended_wall_utc_ms row' = Some (last_checkpoint_wall_utc_ms row)
                else row' = row)
     /\ (0 < n ->
           (exists g, g ∈ coverage_gaps (tables s) /\ open_gap g = true
              /\ count_recovered n g ∈ coverage_gaps (tables s'))
           \/ exists g, g ∈ coverage_gaps (tables s') /\ open_gap g = true
                /\ gap_recovered_interval_count g = n
                /\ forall id row, focus_intervals (tables s) !! id = Some row -> is_open row = true ->
                     gap_started_wall_utc_ms g <= last_checkpoint_wall_utc_ms row).
Proof.
  intros H'. destruct (recover_cases _ _ _ _ H') as [He | (keys & -> & Hl & Hz & Hopen & Hnew)]; [by left | right].
  eexists. split; [done |]. split; [done |]. pose proof (ledger_intervals _ _ Hl) as Hi. simpl in Hi.
  split_and!.
  - destruct (any_open _) eqn:Ho; [| done]. apply any_open_iff in Ho as (id & row & Hid & Ho).
    rewrite Hi, lookup_fmap in Hid. apply fmap_Some in Hid as (r0 & _ & ->). by rewrite recovered_closed in Ho.
  - intros Hb. eapply ledger_books; [exact Hl |]. by apply books_fmap; [apply recovered_ended_as |].
  - intros app. apply (charged_trans app 0 0 _ (with_intervals (recovered_at at_ <$> focus_intervals (tables s)) (tables s)));
      [apply charged_fmap, recovered_ended_as | by apply charged_nothing].
  - intros id row Hrow. exists (recovered_at at_ row). rewrite Hi, lookup_fmap, Hrow. split; [done |].
    unfold recovered_at. by destruct (is_open row).
  - intros Hn. destruct (existsb open_gap (coverage_gaps (tables s))) eqn:Ho.
    + left. pose proof Ho as (g & Hin & Hg)%existsb_exists. apply list_elem_of_In in Hin.
      exists g. split_and!; [done | done |]. rewrite (Hopen Hn eq_refl). by apply list_elem_of_fmap_2.
    + right. destruct (Hnew Hn eq_refl) as (g & Hg & Hog & _ & Hc & Hs & _). exists g. split_and!; [| done | done |].
      * rewrite Hg. apply elem_of_app. right. by apply list_elem_of_singleton.
      * intros id row Hrow Horow. eapply min_of_least; [by symmetry |].
        apply list_elem_of_fmap_2, open_intervals_in. eauto.
Qed.
End Recovery.

(** ** Retention *)

Lemma cutoff_days_ok now days s s' c :
  cutoff_days now days s = (s', Ok c) -> s' = s /\ c = now - days * DAY_MS.
Proof.
  unfold cutoff_days. intros H. apply lift_ok in H as [-> H]. split; [done |].
  apply result_bind_ok in H as (age & Ha & H).
  destruct (checked_i64 (days * DAY_MS)) as [a |] eqn:H1; [| done]. simplify_eq/=.
  apply checked_i64_some in H1 as [-> _].
  destruct (checked_i64 _) as [c' |] eqn:H2; [| done]. simplify_eq/=.
  by apply checked_i64_some in H2 as [-> _].
Qed.

Lemma checked_days_ok days s s' d : checked_days days s = (s', Ok d) -> s' = s /\ d = days.
Proof.
  unfold checked_days. intros H. apply lift_ok in H as [-> H]. split; [done |].
  unfold checked_u32 in H. by destruct (in_u32 days); simplify_eq/=.
Qed.

Lemma delete_older_than_ok k cutoff s s' :
  delete_older_than k cutoff s = (s', Ok tt) ->
  focus_intervals (tables s') = focus_intervals (tables s)
  /\ coverage_gaps (tables s') = coverage_gaps (tables s)
  /\ table_of k (tables s')
     = filter (fun p => cutoff <= agg_last_wall_utc_ms (snd p)) (table_of k (tables s))
  /\ forall k', k' <> k -> table_of k' (tables s') = table_of k' (tables s).
Proof.
  intros H. apply execute_cases in H as [[[=] _] | (a & _ & [= <- _])].
  split_and!; [done | done | | intros k' Hk]; rewrite table_with_table; by case_decide.
Qed.

(** The first day whose rows of a kind are kept. *)
Definition retained_days (k : AggregateKind) (p : RetentionPolicy) : Z :=
  match k with
  | Agg_Minute => minute_days p
  | Agg_Daily => daily_days p
  | Agg_Weekly => weekly_weeks p * 7
  end.

Definition coverage_days (p : RetentionPolicy) : Z :=
  Z.max (daily_days p + DAILY_COVERAGE_BOUNDARY_DAYS) (weekly_weeks p * 7 + WEEKLY_COVERAGE_BOUNDARY_DAYS).

Lemma apply_retention_cases now p s s' r :
  apply_retention now p s = (s', r) ->
  (exists e, r = Err e /\ tables s' = tables s)
  \/ r = Ok tt
     /\ focus_intervals (tables s')
        = filter (interval_kept (now - raw_days p * DAY_MS)) (focus_intervals (tables s))
     /\ (forall k, table_of k (tables s')
           = filter (fun row => now - retained_days k p * DAY_MS <= agg_last_wall_utc_ms (snd row))
               (table_of k (tables s)))
     /\ coverage_gaps (tables s')
        = List.filter (gap_kept (now - coverage_days p * DAY_MS)) (coverage_gaps (tables s)).
Proof.
  unfold apply_retention. intros H.
  apply transaction_cases in H as [(e & -> & ->) | ([] & s1 & s2 & -> & Ht & H & Ht')]; [left; eauto |].
  right. split; [done |].
  apply bind_ok in H as (sa & raw & Ha & H). apply cutoff_days_ok in Ha as [-> ->].
  apply bind_ok in H as (sb & [] & Hb & H). apply execute_cases in Hb as [[[=] _] | (x & _ & [= Hb _])].
  apply bind_ok in H as (sc & m & Ha & H). apply cutoff_days_ok in Ha as [-> ->].
  apply bind_ok in H as (sc & [] & Hc & H). apply delete_older_than_ok in Hc as (Fc & Gc & Tc & Oc).
  apply bind_ok in H as (sd & d & Ha & H). apply cutoff_days_ok in Ha as [-> ->].
  apply bind_ok in H as (sd & [] & Hd & H). apply delete_older_than_ok in Hd as (Fd & Gd & Td & Od).
  apply bind_ok in H as (se & wd & Ha & H). apply checked_days_ok in Ha as [-> ->].
  apply bind_ok in H as (se & w & Ha & H). apply cutoff_days_ok in Ha as [-> ->].
  apply bind_ok in H as (se & [] & He & H). apply delete_older_than_ok in He as (Fe & Ge & Te & Oe).
  apply bind_ok in H as (sf & dc & Ha & H). apply checked_days_ok in Ha as [-> ->].
  apply bind_ok in H as (sf & wc & Ha & H). apply checked_days_ok in Ha as [-> ->].
  apply bind_ok in H as (sf & c & Ha & H). apply cutoff_days_ok in Ha as [-> ->].
  apply execute_cases in H as [[[=] _] | (y & _ & [= H _])].
  rewrite Ht' in *. clear Ht'. rewrite <- H. split_and!.
  - change (focus_intervals (with_gaps _ _)) with (focus_intervals (tables se)).
    rewrite Fe, Fd, Fc, <- Hb, Ht. reflexivity.
  - intros k. change (table_of k (with_gaps _ (tables se))) with (table_of k (tables se)).
    rewrite <- Ht. destruct k.
    + rewrite Oe, Od, Tc, <- Hb by done. done.
    + rewrite Oe, Td, Oc, <- Hb by done. done.
    + rewrite Te, Od, Oc, <- Hb by done. done.
  - simpl. rewrite Ge, Gd, Gc, <- Hb, <- Ht. done.
Qed.

(** Retention touches no open interval, and leaves the books in order. *)
Lemma retention_books now p s s' r :
  apply_retention now p s = (s', r) -> books (tables s) ->
  books (tables s')
  /\ forall id row, focus_intervals (tables s) !! id = Some row -> is_open row = true ->
       focus_intervals (tables s') !! id = Some row.
Proof.
  intros H [Hs Ho]. apply apply_retention_cases in H as [(e & -> & ->) | (-> & Hf & _ & _)]; [done |].
  split; [split |].
  - intros i ri. rewrite Hf. intros [Hi _]%map_lookup_filter_Some. by apply (Hs i).
  - intros i j ri rj. rewrite Hf. intros [Hi _]%map_lookup_filter_Some [Hj _]%map_lookup_filter_Some.
    by eapply Ho.
  - intros id row Hrow Hopen. rewrite Hf. apply map_lookup_filter_Some. split; [done |].
    left. simpl. unfold is_open in Hopen. by bool_facts.
Qed.

Section Coverage.
Context `{ChronoLaws}.

(** A gap that has ended ended in the bucket its row names, or later. *)
Definition ended_in_bucket (kind : SummaryKind) (g : CoverageGap) : Prop :=
  forall e, gap_ended_wall_utc_ms g = Some e ->
    exists key w o, gap_end_key kind g = Some key /\ w <= e /\ in_bucket kind w o key.

Definition sample_in_range (s : ClockSample) : Prop :=
  0 <= (wall_utc_ms s + offset_ms s) / DAY_MILLIS < END_OF_FOUR_DIGIT_YEARS.

Lemma summary_in_bucket kind s b :
  sample_in_range s -> SummaryBucket_for_sample kind s = Ok b ->
  in_bucket kind (wall_utc_ms s) (utc_offset_seconds s) (summary_bucket_key b).
Proof.
  intros Hr Hb. unfold SummaryBucket_for_sample, local_datetime, FixedOffset_east_opt, datetime,
    local_summary_identity in Hb. destruct (east_opt (utc_offset_seconds s)) eqn:Ho; [| done]. simpl in Hb.
  destruct (utc_representable (wall_utc_ms s)); [| done]. simpl in Hb.
  destruct (local_midnight _ _); [| done]. simpl in Hb. destruct (negb _); [done |].
  destruct (local_midnight _ _); [| done]. injection Hb as <-. by split.
Qed.

Lemma gap_keys_in_bucket kind e s s' keys :
  sample_in_range e -> gap_bucket_keys e s = (s', Ok keys) ->
  in_bucket kind (wall_utc_ms e) (utc_offset_seconds e)
    (match kind with Daily => fst keys | Weekly => snd keys end).
Proof.
  intros He Hk. unfold gap_bucket_keys in Hk. apply lift_ok in Hk as [_ Hk].
  destruct (SummaryBucket_for_sample Daily e) as [daily |] eqn:Hd; [| done].
  destruct (SummaryBucket_for_sample Weekly e) as [weekly |] eqn:Hw; [| done]. injection Hk as <-.
  destruct kind; by apply summary_in_bucket.
Qed.

(** The statements that end a gap keep it so. *)
Lemma close_open_gaps_end kind e s s' :
  sample_in_range e -> close_open_gaps e s = (s', Ok tt) ->
  (forall g, g ∈ coverage_gaps (tables s) -> ended_in_bucket kind g) ->
  forall g, g ∈ coverage_gaps (tables s') -> ended_in_bucket kind g.
Proof.
  intros He Hc Hg. unfold close_open_gaps in Hc. apply bind_ok in Hc as (s1 & keys & Hk & Hc).
  pose proof (gap_keys_in_bucket kind _ _ _ _ He Hk) as Hin. apply lift_ok in Hk as [-> _].
  apply execute_cases in Hc as [[[=] _] | (a & _ & [= <- _])]. simpl.
  intros g (g0 & -> & Hg0)%list_elem_of_fmap. unfold close_gap.
  destruct (open_gap g0) eqn:Ho; [| by apply Hg]. intros w [= <-].
  exists (match kind with Daily => fst keys | Weekly => snd keys end), (wall_utc_ms e), (utc_offset_seconds e).
  split_and!; [by destruct kind | lia | done].
Qed.

Lemma record_gap_end kind reason st e s s' :
  sample_in_range e -> record_gap_interval reason st e s = (s', Ok tt) ->
  (forall g, g ∈ coverage_gaps (tables s) -> ended_in_bucket kind g) ->
  forall g, g ∈ coverage_gaps (tables s') -> ended_in_bucket kind g.
Proof.
  intros He Hc Hg. unfold record_gap_interval in Hc.
  apply bind_ok in Hc as (s0 & [] & Hv & Hc). apply lift_ok in Hv as [-> _].
  apply bind_ok in Hc as (s1 & skeys & Hk & Hc). apply lift_ok in Hk as [-> _].
  apply bind_ok in Hc as (s1 & keys & Hk & Hc).
  pose proof (gap_keys_in_bucket kind _ _ _ _ He Hk) as Hin. apply lift_ok in Hk as [-> _].
  apply execute_cases in Hc as [[[=] _] | (a & _ & [= <- _])]. simpl.
  intros g [Hold | Hnew]%elem_of_app; [by apply Hg |]. apply list_elem_of_singleton in Hnew as ->.
  intros w [= <-].
  exists (match kind with Daily => fst keys | Weekly => snd keys end), (wall_utc_ms e), (utc_offset_seconds e).
  split_and!; [by destruct kind | lia | done].
Qed.

Definition summary_table (kind : SummaryKind) : AggregateKind :=
  match kind with Daily => Agg_Daily | Weekly => Agg_Weekly end.

(** retention never makes a partial bucket look complete: a gap that covers
    the bucket of a daily or weekly aggregate the retention keeps is kept with
    it, whatever the policy. The extra three and nine days suffice for any two
    UTC offsets: the aggregate's last sample and the gap's end may lie in one
    bucket under different ones. *)
Theorem retention_keeps_coverage kind now p s s' app key tz off row g :
  apply_retention now p s = (s', Ok tt) ->
  table_of (summary_table kind) (tables s') !! (app, key, tz, off) = Some row ->
  in_bucket kind (agg_last_wall_utc_ms row - 1) off key ->
  g ∈ coverage_gaps (tables s) -> gap_covers (Some (kind, key)) g = true -> ended_in_bucket kind g ->
  g ∈ coverage_gaps (tables s').
Proof.
  intros Hr Hrow Hkey Hg Hcov Hend.
  apply apply_retention_cases in Hr as [(e & [=] & _) | (_ & _ & Ht & Hgaps)].
  rewrite Ht in Hrow. apply map_lookup_filter_Some in Hrow as [_ Hkept]. simpl in Hkept.
  rewrite Hgaps. apply list_elem_of_In, filter_In. split; [by apply list_elem_of_In |].
  unfold gap_kept. destruct (gap_ended_wall_utc_ms g) as [e |] eqn:He; [simpl | done].
  destruct (Hend e He) as (ek & w & o & Hek & Hw & Hin).
  unfold gap_covers in Hcov. rewrite Hek in Hcov. simpl in Hcov. bool_facts.
  pose proof (keys_sorted kind _ _ _ _ _ _ Hkey Hin ltac:(done)) as Hlt.
  unfold coverage_days, retained_days, bucket_ms, DAILY_COVERAGE_BOUNDARY_DAYS,
    WEEKLY_COVERAGE_BOUNDARY_DAYS, DAY_MS, DAY_MILLIS, MAX_UTC_OFFSET_SECONDS in *.
  apply Z.leb_le. destruct kind; simpl in Hkept; lia.
Qed.
End Coverage.

(** ** The theorems at work *)

Definition empty_tables : UsageTables :=
  {| focus_intervals := ∅; minute_aggregates := ∅; daily_aggregates := ∅; weekly_aggregates := ∅;
     coverage_gaps := []; usage_epoch := None |}.

Definition terminal_window : WindowIdentity :=
  {| window_id := 1; app_id := "terminal"; window_pid := Some 100 |}.

(** A store whose tracker died with an interval open. *)
Definition crashed_store : UsageStore :=
  fst (start_interval terminal_window (sample_at 1000 30000) {| tables := empty_tables; sql_faults := [] |}).

Lemma recovery_is_exact_witness :
  snd (@recover_open_intervals unary_chrono (sample_at 5000 90000) crashed_store) = Ok 1
  /\ any_open (focus_intervals (tables crashed_store)) = true
  /\ any_open (focus_intervals (tables
       (fst (@recover_open_intervals unary_chrono (sample_at 5000 90000) crashed_store)))) = false.
Proof.
  split; [vm_compute; reflexivity |]. split; [vm_compute; reflexivity |].
  destruct (@recovery_is_exact unary_chrono (sample_at 5000 90000) crashed_store _ _ (surjective_pairing _))
    as [(e & He & _) | (n & _ & _ & Ho & _)]; [vm_compute in He; discriminate He | exact Ho].
Defined.

Definition kept_row : AggregateRow :=
  {| agg_bucket_start_utc_ms := -3600000; agg_last_wall_utc_ms := 100000; agg_duration_ns := 7 |}.
Definition kept_gap : CoverageGap :=
  {| gap_started_wall_utc_ms := 80000; gap_ended_wall_utc_ms := Some 90000; gap_start_daily_key := "";
     gap_end_daily_key := Some EmptyString; gap_start_weekly_key := ""; gap_end_weekly_key := Some EmptyString;
     gap_reason := "event_gap"; gap_occurrence_count := 1; gap_recovered_interval_count := 0 |}.
Definition partial_day : UsageStore :=
  {| tables := {| focus_intervals := ∅; minute_aggregates := ∅;
                  daily_aggregates := {[ ("terminal", "", "Europe/Madrid", 3600)%string := kept_row ]};
                  weekly_aggregates := ∅; coverage_gaps := [kept_gap]; usage_epoch := None |};
     sql_faults := [] |}.

(** The last instant the default policy keeps the row. *)
Definition last_day : Z := 400 * DAY_MS + 100000.
Definition default_retention : RetentionPolicy :=
  {| raw_days := 30; minute_days := 30; daily_days := 400; weekly_weeks := 260 |}.

Lemma retention_keeps_coverage_witness :
  kept_gap ∈ coverage_gaps (tables (fst (apply_retention last_day default_retention partial_day))).
Proof.
  assert (forall w, 0 <= w <= 100000 -> @in_bucket unary_chrono Daily w 3600 EmptyString) as Hday.
  { intros w Hw. split; [reflexivity |]. unfold END_OF_FOUR_DIGIT_YEARS, DAY_MILLIS.
    assert ((w + 3600 * 1000) / 86400000 = 0) as -> by (apply Z.div_small; lia). split; [lia | reflexivity]. }
  apply (@retention_keeps_coverage unary_chrono unary_chrono_laws Daily last_day default_retention partial_day _
    "terminal" "" "Europe/Madrid" 3600 kept_row kept_gap).
  - vm_compute. reflexivity.
  - vm_compute. reflexivity.
  - apply Hday. simpl. lia.
  - left.
  - reflexivity.
  - intros e [= <-]. exists EmptyString, 90000, 3600. split; [done |]. split; [lia |]. apply Hday. lia.
Defined.
