(* ===== verification/UsageTracker.v ===== *)
(** [crates/usage/src/tracker.rs], with the window state of [niri.rs] and the
    session state of [session.rs]: which time is counted for which application. *)
From S2P Require Import Prelude UsageBucket UsageStore.

(** ** session.rs *)

Definition MAX_SESSION_ID_BYTES : Z := 128.

Record SessionSnapshot := { session_active : bool; session_locked : bool; session_idle : bool }.
#[export] Instance SessionSnapshot_eq_dec : EqDecision SessionSnapshot.
Proof. solve_decision. Defined.

Definition permits_accounting (s : SessionSnapshot) : bool :=
  session_active s && negb (session_locked s) && negb (session_idle s).

Definition valid_session_id (s : string) : bool :=
  negb (is_empty s || (MAX_SESSION_ID_BYTES <? len s)
        || negb (forallb (fun b => is_ascii_alphanumeric b || (b =? ch "_") || (b =? ch "-")) (bytes s))).

Definition hex_digit (n : Z) : string :=
  match String.get (Z.to_nat n) "0123456789abcdef" with
  | Some a => String a EmptyString
  | None => EmptyString
  end.

(** One byte of a session id in the name of its D-Bus object. *)
Definition escape_byte (first : bool) (a : ascii) : string :=
  let b := byte_of a in
  if is_ascii_alphabetic b || (negb first && is_ascii_digit b) then String a EmptyString
  else ("_" ++ hex_digit (Z.shiftr b 4) ++ hex_digit (Z.land b 15))%string.

Fixpoint escape_session_id (first : bool) (s : string) : string :=
  match s with
  | EmptyString => EmptyString
  | String a s' => (escape_byte first a ++ escape_session_id false s')%string
  end.

Definition logind_session_object_path (session_id : string) : string :=
  ("/org/freedesktop/login1/session/" ++ escape_session_id true session_id)%string.

(** ** niri.rs

    [serde_json] has parsed a line into an event. *)

Definition MAX_NIRI_WINDOWS : Z := 4096.

Record RawWindow := {
  raw_id : Z;
  raw_app_id : option string;
  raw_pid : option Z;
  raw_is_focused : bool;
}.
Inductive RawEvent :=
| WindowsChanged (windows : list RawWindow)
| WindowOpenedOrChanged (window : RawWindow)
| WindowClosed (wid : Z)
| WindowFocusChanged (wid : option Z).

Inductive NiriUpdate :=
| FocusChanged (focus : option WindowIdentity)
| StateChanged
| Ignored.

Inductive NiriError := TooManyWindows | AppIdTooLong.

Record NiriState := { windows : gmap Z RawWindow; focused_id : option Z }.

Definition NiriState_default : NiriState := {| windows := ∅; focused_id := None |}.

(** The Unicode scalars of a string, each as its bytes. *)
Fixpoint scalars (s : string) : list string :=
  match s with
  | EmptyString => []
  | String a s1 =>
      if byte_of a <? 128 then String a EmptyString :: scalars s1
      else match s1 with
      | EmptyString => [s]
      | String a1 s2 =>
          if byte_of a <? 224 then String a (String a1 EmptyString) :: scalars s2
          else match s2 with
          | EmptyString => [s]
          | String a2 s3 =>
              if byte_of a <? 240 then String a (String a1 (String a2 EmptyString)) :: scalars s3
              else match s3 with
              | EmptyString => [s]
              | String a3 s4 => String a (String a1 (String a2 (String a3 EmptyString))) :: scalars s4
              end
          end
      end
  end.

Fixpoint drop_space (l : list string) : list string :=
  match l with
  | c :: l' => if existsb is_whitespace (chars c) then drop_space l' else l
  | [] => []
  end.

(** [str::trim] takes white space off both ends. *)
Definition trim (s : string) : string :=
  String.concat EmptyString (rev (drop_space (rev (drop_space (scalars s))))).

Definition validate_window (w : RawWindow) : result unit NiriError :=
  fail_if is_some_and (fun a => MAX_NIRI_APP_ID_BYTES <? len a) (raw_app_id w) with AppIdTooLong in
  Ok tt.
Definition validate_windows (l : list RawWindow) : result unit NiriError := try_for_each validate_window l.

Definition focused_identity (n : NiriState) : option WindowIdentity :=
  match focused_id n with
  | None => None
  | Some wid =>
      match windows n !! wid with
      | None => None
      | Some w =>
          match raw_app_id w with
          | None => None
          | Some a =>
              let app := trim a in
              if is_empty app then None
              else Some {| window_id := raw_id w; app_id := app; window_pid := raw_pid w |}
          end
      end
  end.

Definition set_focus (f : option Z) (n : NiriState) : NiriState :=
  {| windows := windows n; focused_id := f |}.
Definition set_windows (m : gmap Z RawWindow) (n : NiriState) : NiriState :=
  {| windows := m; focused_id := focused_id n |}.

(** [apply_json_line] on a parsed event. *)
Definition apply_event (e : RawEvent) : mut NiriState NiriUpdate NiriError :=
  match e with
  | WindowsChanged l =>
      lift (fun _ => fail_if MAX_NIRI_WINDOWS <? Z.of_nat (length l) with TooManyWindows in Ok tt) ;;;
      lift (fun _ => validate_windows l) ;;;
      modify (set_focus (option_map raw_id (List.find raw_is_focused l))) ;;;
      modify (set_windows (fold_left (fun m w => <[raw_id w := w]> m) l ∅)) ;;;
      f <- gets focused_identity ;;
      ret (FocusChanged f)
  | WindowOpenedOrChanged w =>
      lift (fun _ => validate_window w) ;;;
      lift (fun n => fail_if is_none (windows n !! raw_id w)
                             && (MAX_NIRI_WINDOWS <=? Z.of_nat (size (windows n)))
                       with TooManyWindows in Ok tt) ;;;
      modify (fun n => set_windows (<[raw_id w := w]> (windows n)) n) ;;;
      was <- gets focused_id ;;
      if raw_is_focused w then
        modify (set_focus (Some (raw_id w))) ;;;
        f <- gets focused_identity ;;
        ret (FocusChanged f)
      else if eqb was (Some (raw_id w)) then
        modify (set_focus None) ;;; ret (FocusChanged None)
      else ret StateChanged
  | WindowClosed wid =>
      modify (fun n => set_windows (delete wid (windows n)) n) ;;;
      was <- gets focused_id ;;
      if eqb was (Some wid) then modify (set_focus None) ;;; ret (FocusChanged None)
      else ret StateChanged
  | WindowFocusChanged wid =>
      modify (set_focus wid) ;;;
      f <- gets focused_identity ;;
      ret (FocusChanged f)
  end.

(** ** tracker.rs *)

Definition max_event_gap_default : Z := 30000000000.

Record ActiveInterval := {
  active_id : Z;
  active_identity : WindowIdentity;
  last_counted : ClockSample;
}.

Record UsageTracker := {
  tracker_store : UsageStore;
  max_event_gap_ns : Z;
  source_connected : bool;
  focus : option WindowIdentity;
  session : option SessionSnapshot;
  last_sample : option ClockSample;
  active : option ActiveInterval;
  gap_open : bool;
}.

Inductive TrackerError := Tracker_Store (e : UsageStoreError) | Tracker_Clock (e : BucketError).

Abbreviation tracker_mut A := (mut UsageTracker A TrackerError).

Definition set_store (s : UsageStore) (t : UsageTracker) : UsageTracker :=
  {| tracker_store := s; max_event_gap_ns := max_event_gap_ns t; source_connected := source_connected t;
     focus := focus t; session := session t; last_sample := last_sample t; active := active t;
     gap_open := gap_open t |}.
Definition set_connected (b : bool) (t : UsageTracker) : UsageTracker :=
  {| tracker_store := tracker_store t; max_event_gap_ns := max_event_gap_ns t; source_connected := b;
     focus := focus t; session := session t; last_sample := last_sample t; active := active t;
     gap_open := gap_open t |}.
Definition set_tracker_focus (f : option WindowIdentity) (t : UsageTracker) : UsageTracker :=
  {| tracker_store := tracker_store t; max_event_gap_ns := max_event_gap_ns t;
     source_connected := source_connected t; focus := f; session := session t;
     last_sample := last_sample t; active := active t; gap_open := gap_open t |}.
Definition set_session (s : option SessionSnapshot) (t : UsageTracker) : UsageTracker :=
  {| tracker_store := tracker_store t; max_event_gap_ns := max_event_gap_ns t;
     source_connected := source_connected t; focus := focus t; session := s;
     last_sample := last_sample t; active := active t; gap_open := gap_open t |}.
Definition set_last_sample (now : ClockSample) (t : UsageTracker) : UsageTracker :=
  {| tracker_store := tracker_store t; max_event_gap_ns := max_event_gap_ns t;
     source_connected := source_connected t; focus := focus t; session := session t;
     last_sample := Some now; active := active t; gap_open := gap_open t |}.
Definition set_active (a : option ActiveInterval) (t : UsageTracker) : UsageTracker :=
  {| tracker_store := tracker_store t; max_event_gap_ns := max_event_gap_ns t;
     source_connected := source_connected t; focus := focus t; session := session t;
     last_sample := last_sample t; active := a; gap_open := gap_open t |}.
Definition set_gap_open (b : bool) (t : UsageTracker) : UsageTracker :=
  {| tracker_store := tracker_store t; max_event_gap_ns := max_event_gap_ns t;
     source_connected := source_connected t; focus := focus t; session := session t;
     last_sample := last_sample t; active := active t; gap_open := b |}.

Definition on_usage {A} (m : store_mut A) : tracker_mut A :=
  mut_map_err Tracker_Store (zoom tracker_store set_store m).

(** [has_open_gap().unwrap_or(true)] *)
Definition UsageTracker_new (s : UsageStore) (max_gap : Z) : UsageTracker :=
  let '(s', r) := has_open_gap s in
  {| tracker_store := s'; max_event_gap_ns := max_gap; source_connected := false; focus := None;
     session := None; last_sample := None; active := None;
     gap_open := match r with Ok b => b | Err _ => true end |}.

Section Tracker.
Context `{Chrono}.

(** [self.active.take()], then the store. *)
Definition close_active (reason : string) : tracker_mut unit :=
  a <- gets active ;;
  match a with
  | None => ret tt
  | Some a =>
      modify (set_active None) ;;;
      on_usage (close_interval (active_id a) (last_counted a) reason)
  end.

Definition advance (now : ClockSample) (next_session : SessionSnapshot) : tracker_mut unit :=
  last <- gets last_sample ;;
  match last with
  | None => modify (set_last_sample now)
  | Some previous =>
      if (monotonic_ns now =? monotonic_ns previous) && (wall_utc_ms now =? wall_utc_ms previous)
         && eqb (boot_id now) (boot_id previous)
      then ret tt
      else
        max_gap <- gets max_event_gap_ns ;;
        if is_none_or (fun gap => max_gap <? gap) (checked_u64 (monotonic_ns now - monotonic_ns previous))
        then
          on_usage (record_gap_interval "event_gap" previous now) ;;;
          close_active "event_gap" ;;;
          modify (set_last_sample now)
        else
          a <- gets active ;;
          match a with
          | None => modify (set_last_sample now)
          | Some a =>
              if is_err (split_into_local_minutes previous now) then
                on_usage (record_gap_interval "clock_discontinuity" previous now) ;;;
                close_active "clock_discontinuity" ;;;
                modify (set_last_sample now)
              else if permits_accounting next_session then
                match split_into_local_minutes (last_counted a) now with
                | Ok slices =>
                    on_usage (append_segment (active_id a) (app_id (active_identity a)) now slices) ;;;
                    modify (set_active (Some {| active_id := active_id a;
                                                active_identity := active_identity a;
                                                last_counted := now |})) ;;;
                    modify (set_last_sample now)
                | Err error =>
                    on_usage (record_gap_interval "clock_discontinuity" previous now) ;;;
                    close_active "clock_discontinuity" ;;;
                    modify (set_last_sample now) ;;;
                    if eqb error MonotonicRegression then throw (Tracker_Clock error) else ret tt
                end
              else modify (set_last_sample now)
          end
  end.

Definition resume_or_advance (now : ClockSample) (s : SessionSnapshot) (ready : bool) : tracker_mut unit :=
  gap <- gets gap_open ;;
  if gap : bool then
    when ready (on_usage (close_open_gaps now) ;;; modify (set_gap_open false)) ;;;
    modify (set_last_sample now)
  else advance now s.

Definition desired (t : UsageTracker) : option WindowIdentity :=
  if source_connected t && is_some_and permits_accounting (session t) then focus t else None.

Definition reconcile (now : ClockSample) (close_reason : string) : tracker_mut unit :=
  want <- gets desired ;;
  matches <- gets (fun t => match active t, want with
                            | Some a, Some i => eqb (active_identity a) i
                            | _, _ => false
                            end) ;;
  if matches : bool then ret tt
  else
    close_active close_reason ;;;
    match want with
    | None => ret tt
    | Some i =>
        rowid <- on_usage (start_interval i now) ;;
        modify (set_active (Some {| active_id := rowid; active_identity := i; last_counted := now |}))
    end.

Definition observe_focus (f : option WindowIdentity) (s : SessionSnapshot) (now : ClockSample)
  : tracker_mut unit :=
  resume_or_advance now s true ;;;
  modify (set_connected true) ;;;
  modify (set_tracker_focus f) ;;;
  modify (set_session (Some s)) ;;;
  reconcile now "focus_or_session_changed".

Definition tracker_checkpoint (s : SessionSnapshot) (now : ClockSample) : tracker_mut unit :=
  connected <- gets source_connected ;;
  resume_or_advance now s connected ;;;
  modify (set_session (Some s)) ;;;
  reconcile now "session_changed".

Definition observe_niri_update (u : NiriUpdate) (s : SessionSnapshot) (now : ClockSample)
  : tracker_mut unit :=
  match u with
  | FocusChanged f => observe_focus f s now
  | StateChanged | Ignored => tracker_checkpoint s now
  end.

(** The gap both kinds of outage begin. *)
Definition open_gap_now (reason : string) : tracker_mut unit :=
  gap <- gets gap_open ;;
  last <- gets last_sample ;;
  match gap, last with
  | false, Some sample =>
      on_usage (begin_gap reason sample) ;;; modify (set_gap_open true)
  | _, _ => ret tt
  end.

Definition mark_event_gap (reason : string) : tracker_mut unit :=
  open_gap_now reason ;;;
  close_active reason ;;;
  modify (set_connected false) ;;;
  modify (set_tracker_focus None).

Definition mark_session_unavailable (reason : string) : tracker_mut unit :=
  open_gap_now reason ;;;
  close_active reason ;;;
  modify (set_session None).

Definition observe_session_edge (now : ClockSample) : tracker_mut unit :=
  s <- gets session ;;
  match s with
  | Some s => advance now s
  | None => modify (set_last_sample now)
  end ;;;
  close_active "logind_session_edge" ;;;
  modify (set_session None).

Definition into_store : tracker_mut UsageStore :=
  close_active "tracker_stopped" ;;; gets tracker_store.
End Tracker.
