(* ===== verification/UsageTrackerFacts.v ===== *)
(** Which time the tracker counts: under any failing statements its open
    interval, its last sample and the database agree, a step counts the time
    since the last counted sample exactly when the session and the clocks allow
    it, and nothing else ever changes the recorded time. *)
From S2P Require Import Prelude UsageBucket UsageBucketFacts UsageStore UsageStoreFacts UsageTracker.

Section Facts.
Context `{Chrono}.

Definition tabs (t : UsageTracker) : UsageTables := tables (tracker_store t).

Definition same_instant (a b : ClockSample) : Prop :=
  monotonic_ns a = monotonic_ns b /\ wall_utc_ms a = wall_utc_ms b /\ boot_id a = boot_id b.

(** The interval the tracker is timing is open in the database, for the same
    application and up to the last sample counted. *)
Definition linked (t : UsageTracker) : Prop :=
  forall a, active t = Some a -> exists row,
    focus_intervals (tabs t) !! active_id a = Some row /\ is_open row = true
    /\ row_app_id row = app_id (active_identity a)
    /\ last_checkpoint_monotonic_ns row = monotonic_ns (last_counted a).

(** Between two calls, what is being timed has been counted up to the last
    sample. *)
Definition synced (t : UsageTracker) : Prop :=
  forall a, active t = Some a -> exists p, last_sample t = Some p /\ same_instant p (last_counted a).

Definition tracker_ok (t : UsageTracker) : Prop :=
  books (tabs t) /\ linked t /\ synced t /\ (gap_open t = true -> active t = None).

(** The time a sample adds for the window being timed. *)
Definition counted (s : SessionSnapshot) (now : ClockSample) (t : UsageTracker) : Z :=
  match gap_open t, active t, last_sample t with
  | false, Some a, Some p =>
      if (monotonic_ns now =? monotonic_ns p) && (wall_utc_ms now =? wall_utc_ms p)
         && eqb (boot_id now) (boot_id p) then 0
      else if is_none_or (fun gap => max_event_gap_ns t <? gap)
                (checked_u64 (monotonic_ns now - monotonic_ns p)) then 0
      else if is_ok (split_into_local_minutes p now) && permits_accounting s
              && is_ok (split_into_local_minutes (last_counted a) now)
      then monotonic_ns now - monotonic_ns (last_counted a) else 0
  | _, _, _ => 0
  end.

Definition timed_app (t : UsageTracker) : string :=
  match active t with Some a => app_id (active_identity a) | None => EmptyString end.

(** What the samples do not change. *)
Definition settings (t : UsageTracker) : Z * bool * option WindowIdentity * option SessionSnapshot :=
  (max_event_gap_ns t, source_connected t, focus t, session t).

Lemma on_usage_run {A} (m : store_mut A) t t' r :
  on_usage m t = (t', r) ->
  exists s' r0, m (tracker_store t) = (s', r0) /\ t' = set_store s' t /\ r = map_err Tracker_Store r0.
Proof.
  unfold on_usage, mut_map_err, zoom. intros Hm. destruct (m (tracker_store t)) as [s' r0].
  injection Hm as <- <-. eauto.
Qed.

Lemma on_usage_ledger {A} (m : store_mut A) t t' r :
  keeps_ledger m -> on_usage m t = (t', r) ->
  exists s', t' = set_store s' t /\ ledger (tables s') = ledger (tabs t).
Proof.
  intros Hm Hr. apply on_usage_run in Hr as (s' & r0 & Hs & -> & _). exists s'.
  split; [done | by eapply Hm].
Qed.

(** A step that times nothing any more, and records nothing. *)
Definition stops (t t' : UsageTracker) : Prop :=
  books (tabs t') /\ (forall app, charged app 0 (tabs t) (tabs t'))
  /\ active t' = None /\ settings t' = settings t /\ last_sample t' = last_sample t
  /\ gap_open t' = gap_open t.

Lemma close_active_stops reason t t' r :
  books (tabs t) -> close_active reason t = (t', r) -> stops t t'.
Proof.
  intros Hb Hc. unfold close_active in Hc. unfold bind at 1, gets at 1 in Hc.
  destruct (active t) as [a |] eqn:Ha.
  - unfold bind, modify in Hc. apply on_usage_run in Hc as (s' & r0 & Hs & -> & ->).
    apply close_interval_books in Hs as (Hb' & Hch & _); [| done]. by split_and!.
  - injection Hc as <- _. split_and!; try done. intros app. by apply charged_nothing.
Qed.

Lemma stops_ok t t' : stops t t' -> tracker_ok t'.
Proof.
  intros (Hb & _ & Ha & _). unfold tracker_ok, linked, synced. rewrite Ha. by split_and!.
Qed.

Lemma stops_ledger t s' t' :
  ledger (tables s') = ledger (tabs t) -> stops (set_store s' t) t' -> stops t t'.
Proof.
  intros Hl (Hb & Hch & Hrest). split_and!; try apply Hrest; [done |].
  intros app. apply (charged_trans app 0 0 _ (tables s')); [by apply charged_nothing | apply Hch].
Qed.

(** A store with the same ledger under the same tracker is as good. *)
Lemma same_ledger_ok t s' :
  ledger (tables s') = ledger (tabs t) -> books (tabs t) -> linked t ->
  books (tabs (set_store s' t)) /\ linked (set_store s' t)
  /\ forall app, charged app 0 (tabs t) (tabs (set_store s' t)).
Proof.
  intros Hl Hb Hk. split_and!.
  - by eapply ledger_books.
  - intros a Ha. destruct (Hk a Ha) as (row & Hrow). exists row.
    unfold tabs. simpl. by rewrite (ledger_intervals _ _ Hl).
  - intros app. by apply charged_nothing.
Qed.

(** ** Counting up to a sample *)

(** The state between counting up to [now] and choosing what to time next. *)
Definition counted_up (s : SessionSnapshot) (now : ClockSample) (t t' : UsageTracker) : Prop :=
  (exists p, last_sample t' = Some p /\ same_instant p now)
  /\ forall a, active t' = Some a -> permits_accounting s = true -> same_instant (last_counted a) now.

Definition advanced (s : SessionSnapshot) (now : ClockSample) (t t' : UsageTracker)
    (r : result unit TrackerError) : Prop :=
  books (tabs t') /\ linked t' /\ settings t' = settings t
  /\ (gap_open t' = true -> gap_open t = true /\ active t' = None)
  /\ match r with
     | Ok _ => charged (timed_app t) (counted s now t) (tabs t) (tabs t') /\ counted_up s now t t'
     | Err _ => charged (timed_app t) 0 (tabs t) (tabs t') /\ synced t'
     end.

Ltac advanced_parts := unfold advanced; split_and!; try done; 
  try (by intros ?; simpl in *; split; [congruence | auto; congruence]).

(** The gap of a discontinuity is recorded and the interval closed. *)
Lemma discontinuity_advanced s now t t' r (gap : store_mut unit) reason (after : tracker_mut unit) :
  keeps_ledger gap -> tracker_ok t -> counted s now t = 0 ->
  (forall u u' r', after u = (u', r') -> u' = set_last_sample now u) ->
  bind (on_usage gap) (fun _ => bind (close_active reason) (fun _ => after)) t = (t', r) ->
  advanced s now t t' r.
Proof.
  intros Hgap (Hb & Hk & Hs & Hg) H0 Hafter Hr. unfold bind at 1 in Hr.
  destruct (on_usage gap t) as [t1 [[] | e]] eqn:H1;
    destruct (on_usage_ledger _ _ _ _ Hgap H1) as (s1 & -> & Hl).
  2:{ injection Hr as <- <-. destruct (same_ledger_ok _ _ Hl Hb Hk) as (Hb1 & Hk1 & Hc1).
      advanced_parts. }
  unfold bind at 1 in Hr. destruct (close_active reason _) as [t2 [[] | e]] eqn:H2;
    apply close_active_stops in H2; [| by apply (ledger_books (tabs t)) | | by apply (ledger_books (tabs t))];
    apply (stops_ledger t s1 t2 Hl) in H2; pose proof (stops_ok _ _ H2) as (Hb2 & Hk2 & Hs2 & Hg2);
    destruct H2 as (_ & Hc & Ha & Hset & Hlast & Hgo).
  - pose proof (Hafter _ _ _ Hr) as ->. destruct r as [[] | e].
    + advanced_parts; [by rewrite H0 |].
      split; [exists now; by split_and! | intros a; simpl; by rewrite Ha].
    + advanced_parts. intros a. simpl. by rewrite Ha.
  - injection Hr as <- <-. by advanced_parts.
Qed.

Lemma bind_gets {B} (f : UsageTracker -> B) (k : B -> tracker_mut unit) t : bind (gets f) k t = k (f t) t.
Proof. reflexivity. Qed.

Lemma sampled_advanced s now t :
  tracker_ok t -> counted s now t = 0 ->
  (forall a, active t = Some a -> permits_accounting s = true -> same_instant (last_counted a) now) ->
  advanced s now t (set_last_sample now t) (Ok tt).
Proof.
  intros (Hb & Hk & Hs & Hg) H0 Ha. advanced_parts.
  - rewrite H0. by apply charged_nothing.
  - split; [exists now; by split_and! | done].
Qed.

Lemma append_advanced s now t t' r a p slices :
  tracker_ok t -> active t = Some a -> last_sample t = Some p -> gap_open t = false ->
  split_into_local_minutes (last_counted a) now = Ok slices ->
  counted s now t = monotonic_ns now - monotonic_ns (last_counted a) ->
  bind (on_usage (append_segment (active_id a) (app_id (active_identity a)) now slices)) (fun _ =>
    bind (modify (set_active (Some {| active_id := active_id a; active_identity := active_identity a;
                                      last_counted := now |}))) (fun _ =>
    modify (set_last_sample now))) t = (t', r) ->
  advanced s now t t' r.
Proof.
  intros (Hb & Hk & Hs & Hg) Ha Hp Hgo Hsl Hcnt Hr.
  destruct (split_total _ _ _ Hsl) as [Hsum Hpos]. destruct (Hk a Ha) as (row & Hrow & Ho & Happ & Hck).
  unfold bind at 1 in Hr. destruct (on_usage _ t) as [t1 r1] eqn:H1.
  apply on_usage_run in H1 as (s1 & r0 & H1 & -> & ->).
  pose proof (append_segment_books _ _ _ _ _ _ _ row H1 Hb Hrow Happ ltac:(lia) ltac:(lia))
    as [Hb1 [(Hc & Hf & Hne) | (Hc & -> & Hf & _)]].
  - destruct r0 as [[] | e]; [done |]. injection Hr as <- <-.
    advanced_parts; [| unfold timed_app; by rewrite Ha].
    intros a' Ha'. unfold tabs. simpl. rewrite Hf. by apply Hk.
  - injection Hr as <- <-. advanced_parts; simpl.
    + intros a' [= <-]. simpl. unfold tabs. simpl. rewrite Hf, lookup_insert_eq. by eexists.
    + unfold timed_app. rewrite Ha, Hcnt, <- Hsum. done.
    + split; [exists now; by split_and! | intros a' [= <-] _; by split_and!].
Qed.

Lemma advance_advanced now s t t' r :
  tracker_ok t -> advance now s t = (t', r) -> advanced s now t t' r.
Proof.
  intros Hok Hr. pose proof Hok as (Hb & Hk & Hs & Hg).
  assert (active t = None -> counted s now t = 0) as H0
    by (intros Ha; unfold counted; rewrite Ha; by destruct (gap_open t)).
  assert (forall a, active t = Some a -> gap_open t = false) as Hgo
    by (intros a Ha; destruct (gap_open t); [by rewrite Hg in Ha | done]).
  unfold advance in Hr. rewrite bind_gets in Hr.
  destruct (last_sample t) as [p |] eqn:Hp.
  2:{ assert (active t = None) as Ha.
      { destruct (active t) as [a |] eqn:Ha; [| done]. destruct (Hs a Ha) as (? & ? & _). congruence. }
      injection Hr as <- <-. apply sampled_advanced; [done | by apply H0 | by rewrite Ha]. }
  destruct (_ && eqb (boot_id now) (boot_id p)) eqn:Hsame.
  { injection Hr as <- <-. advanced_parts.
    - assert (counted s now t = 0) as ->; [| by apply charged_nothing].
      unfold counted. rewrite Hp, Hsame. by destruct (gap_open t), (active t).
    - bool_facts. split; [exists p; by split_and! |]. intros a Ha _.
      destruct (Hs a Ha) as (p' & Hp' & ? & ? & ?). simplify_eq. split_and!; congruence. }
  rewrite bind_gets in Hr. destruct (is_none_or _ _) eqn:Hlong.
  { eapply discontinuity_advanced; [apply keeps_ledger_record | done | | | exact Hr].
    - unfold counted. rewrite Hp, Hsame, Hlong. by destruct (gap_open t), (active t).
    - by intros u u' r' [= <- _]. }
  rewrite bind_gets in Hr. destruct (active t) as [a |] eqn:Ha.
  2:{ injection Hr as <- <-. apply sampled_advanced; [done | by apply H0 | by rewrite Ha]. }
  specialize (Hgo a eq_refl).
  destruct (is_err (split_into_local_minutes p now)) eqn:Hjump.
  { eapply discontinuity_advanced; [apply keeps_ledger_record | done | | | exact Hr].
    - unfold counted. rewrite Hgo, Ha, Hp, Hsame, Hlong. by destruct (split_into_local_minutes p now).
    - by intros u u' r' [= <- _]. }
  assert (forall x, x = is_ok (split_into_local_minutes (last_counted a) now) ->
    counted s now t = if permits_accounting s && x then monotonic_ns now - monotonic_ns (last_counted a) else 0) as Hcnt.
  { intros x ->. unfold counted. rewrite Hgo, Ha, Hp, Hsame, Hlong.
    by destruct (split_into_local_minutes p now). }
  destruct (permits_accounting s) eqn:Hperm.
  2:{ injection Hr as <- <-. apply sampled_advanced; [done | by rewrite (Hcnt _ eq_refl) | congruence]. }
  destruct (split_into_local_minutes (last_counted a) now) as [slices | e] eqn:Hsl.
  - eapply append_advanced; [done | exact Ha | exact Hp | done | exact Hsl | by rewrite (Hcnt _ eq_refl) | exact Hr].
  - eapply discontinuity_advanced; [apply keeps_ledger_record | done | by rewrite (Hcnt _ eq_refl) | | exact Hr].
    intros u u' r'. unfold bind, modify, throw, ret. by case_match; intros [= <- _].
Qed.

Lemma resume_advanced now s ready t t' r :
  tracker_ok t -> resume_or_advance now s ready t = (t', r) ->
  advanced s now t t' r /\ (r = Ok tt -> gap_open t' = true -> ready = false).
Proof.
  intros Hok Hr. pose proof Hok as (Hb & Hk & Hs & Hg). unfold resume_or_advance in Hr.
  rewrite bind_gets in Hr. destruct (gap_open t) eqn:Hgo.
  2:{ pose proof (advance_advanced _ _ _ _ _ Hok Hr) as Hadv. split; [done |]. intros -> Hgo'.
      destruct Hadv as (_ & _ & _ & Hf & _). destruct (Hf Hgo'). congruence. }
  specialize (Hg eq_refl). assert (counted s now t = 0) as H0 by (unfold counted; by rewrite Hgo).
  assert (forall u, ledger (tabs u) = ledger (tabs t) -> active u = None -> settings u = settings t ->
    advanced s now t (set_last_sample now u) (Ok tt)) as Hdone.
  { intros u Hl Ha Hset. advanced_parts.
    - by apply (ledger_books (tabs t)).
    - intros a. simpl. by rewrite Ha.
    - rewrite H0. by apply charged_nothing.
    - split; [exists now; by split_and! | intros a; simpl; by rewrite Ha]. }
  unfold bind at 1, when in Hr. destruct ready.
  - unfold bind at 1 in Hr. destruct (on_usage _ t) as [t1 [[] | e]] eqn:H1;
      destruct (on_usage_ledger _ _ _ _ (keeps_ledger_close now) H1) as (s1 & -> & Hl);
      injection Hr as <- <-; [by split; [apply Hdone |] |].
    destruct (same_ledger_ok _ _ Hl Hb Hk) as (Hb1 & Hk1 & Hc1). split; [| done]. by advanced_parts.
  - injection Hr as <- <-. by split; [apply Hdone |].
Qed.

(** ** Choosing what to time *)

Definition reconciled (t t' : UsageTracker) (r : result unit TrackerError) : Prop :=
  tracker_ok t' /\ (forall app, charged app 0 (tabs t) (tabs t'))
  /\ settings t' = settings t /\ gap_open t' = gap_open t
  /\ (r = Ok tt -> option_map active_identity (active t') = desired t').

Lemma reconcile_reconciled now reason t t' r :
  books (tabs t) -> linked t -> (exists p, last_sample t = Some p /\ same_instant p now) ->
  (forall a, active t = Some a -> desired t <> None -> same_instant (last_counted a) now) ->
  (gap_open t = true -> active t = None /\ desired t = None) ->
  reconcile now reason t = (t', r) -> reconciled t t' r.
Proof.
  intros Hb Hk (p & Hp & Hpn) Ha Hg Hr. unfold reconcile in Hr. rewrite !bind_gets in Hr.
  assert (forall u, settings u = settings t -> desired u = desired t) as Hdes.
  { intros u [= _ H1 H2 H3]. unfold desired. by rewrite H1, H2, H3. }
  destruct (match active t with Some _ => _ | None => false end) eqn:Hm.
  { destruct (active t) as [a |] eqn:Hact; [| done]. destruct (desired t) as [i |] eqn:Hd; [| done].
    bool_facts. injection Hr as <- <-. split_and!; try done; [| intros app; by apply charged_nothing |].
    - split_and!; try done.
      + intros a' Ha'. exists p. rewrite Hact in Ha'. injection Ha' as <-. split; [done |].
        destruct (Ha a eq_refl ltac:(done)) as (? & ? & ?), Hpn as (? & ? & ?). split_and!; congruence.
      + intros Hgo. by destruct (Hg Hgo).
    - intros _. rewrite Hact, Hd. simpl. congruence. }
  unfold bind at 1 in Hr. destruct (close_active reason t) as [t1 [[] | e]] eqn:H1;
    apply close_active_stops in H1; try done; pose proof (stops_ok _ _ H1) as Hok1;
    destruct H1 as (Hb1 & Hc1 & Ha1 & Hset1 & Hl1 & Hgo1).
  2:{ injection Hr as <- <-. by split_and!. }
  destruct (desired t) as [i |] eqn:Hd.
  2:{ injection Hr as <- <-. split_and!; try done. intros _. by rewrite Ha1, Hdes. }
  unfold bind at 1 in Hr. destruct (on_usage _ t1) as [t2 r2] eqn:H2.
  apply on_usage_run in H2 as (s2 & r0 & H2 & -> & ->).
  apply start_interval_books in H2 as (Hb2 & Hc2 & Hrow); [| done].
  assert (forall app, charged app 0 (tabs t) (tables s2)) as Hc.
  { intros app. apply (charged_any (app_id i)), (charged_trans _ 0 0 _ _ _ (Hc1 (app_id i)) Hc2). }
  destruct r0 as [id | e].
  - injection Hr as <- <-. specialize (Hrow id eq_refl). split_and!; try done.
    + split_and!; [done | | |].
      * intros a [= <-]. simpl. by exists (new_interval i now).
      * intros a [= <-]. exists p. simpl. by rewrite Hl1.
      * simpl. intros Hgo. rewrite Hgo1 in Hgo. by destruct (Hg Hgo).
    + intros _. by rewrite Hdes.
  - injection Hr as <- <-. split_and!; try done. split_and!; try done; intros a; simpl; by rewrite Ha1.
Qed.

(** ** Calls *)

(** The calls the usage worker makes, retention included. *)
Inductive TrackerOp :=
| Observe_focus (f : option WindowIdentity) (s : SessionSnapshot) (now : ClockSample)
| Observe_niri_update (u : NiriUpdate) (s : SessionSnapshot) (now : ClockSample)
| Checkpoint (s : SessionSnapshot) (now : ClockSample)
| Mark_event_gap (reason : string)
| Mark_session_unavailable (reason : string)
| Observe_session_edge (now : ClockSample)
| Apply_retention (now : Z) (policy : RetentionPolicy).

Definition run_op (op : TrackerOp) : tracker_mut unit :=
  match op with
  | Observe_focus f s now => observe_focus f s now
  | Observe_niri_update u s now => observe_niri_update u s now
  | Checkpoint s now => tracker_checkpoint s now
  | Mark_event_gap reason => mark_event_gap reason
  | Mark_session_unavailable reason => mark_session_unavailable reason
  | Observe_session_edge now => observe_session_edge now
  | Apply_retention now policy => on_usage (apply_retention now policy)
  end.

(** An error is reported; the worker goes on with the state it left. *)
Definition run_ops (ops : list TrackerOp) (t : UsageTracker) : UsageTracker :=
  fold_left (fun t op => fst (run_op op t)) ops t.

Definition is_retention (op : TrackerOp) : bool :=
  match op with Apply_retention _ _ => true | _ => false end.

(** The session and the sample a call counts with, when it counts. *)
Definition op_sample (op : TrackerOp) (t : UsageTracker) : option (SessionSnapshot * ClockSample) :=
  match op with
  | Observe_focus _ s now | Observe_niri_update _ s now | Checkpoint s now => Some (s, now)
  | Observe_session_edge now => option_map (fun s => (s, now)) (session t)
  | _ => None
  end.
Definition op_counted (op : TrackerOp) (t : UsageTracker) : Z :=
  match op_sample op t with Some (s, now) => counted s now t | None => 0 end.

(** A call: what it leaves, and the time it records. *)
Definition records (n : Z) (t t' : UsageTracker) (r : result unit TrackerError) : Prop :=
  tracker_ok t'
  /\ (charged (timed_app t) n (tabs t) (tabs t')
      \/ is_ok r = false /\ charged (timed_app t) 0 (tabs t) (tabs t')).

Lemma records_after n t t1 t' r :
  charged (timed_app t) n (tabs t) (tabs t1) -> tracker_ok t' ->
  (forall app, charged app 0 (tabs t1) (tabs t')) -> records n t t' r.
Proof.
  intros H1 Hok H2. split; [done | left]. rewrite <- (Z.add_0_r n). by eapply charged_trans.
Qed.

(** Counting, the new settings, and the choice of what to time. *)
Lemma sample_then_reconcile now s ready reason (set : UsageTracker -> UsageTracker) t t' r :
  (forall u, tabs (set u) = tabs u /\ active (set u) = active u /\ last_sample (set u) = last_sample u
     /\ gap_open (set u) = gap_open u /\ session (set u) = Some s
     /\ (ready = false -> source_connected (set u) = source_connected u)) ->
  (ready = false -> source_connected t = false) ->
  tracker_ok t ->
  bind (resume_or_advance now s ready) (fun _ => bind (modify set) (fun _ => reconcile now reason)) t = (t', r) ->
  records (counted s now t) t t' r
  /\ (r = Ok tt -> option_map active_identity (active t') = desired t').
Proof.
  intros Hset Hready Hok Hr. unfold bind at 1 in Hr.
  destruct (resume_or_advance now s ready t) as [t1 [[] | e]] eqn:H1;
    destruct (resume_advanced _ _ _ _ _ _ Hok H1) as [(Hb & Hk & Hs1 & Hg & Hm) Hgap].
  2:{ injection Hr as <- <-. destruct Hm as [Hc Hsy]. split; [| done]. split; [| by right].
      unfold tracker_ok. split_and!; try done. intros Hgo. by apply Hg. }
  destruct Hm as (Hc & (p & Hp & Hpn) & Ha).
  change (reconcile now reason (set t1) = (t', r)) in Hr.
  destruct (Hset t1) as (E1 & E2 & E3 & E4 & E5 & E6).
  destruct (reconcile_reconciled now reason (set t1) t' r) as (Hok' & Hc' & _ & _ & Hdes); try done.
  - unfold tabs in *. by rewrite E1.
  - intros a. unfold tabs in *. rewrite E1, E2. apply Hk.
  - exists p. by rewrite E3.
  - intros a. rewrite E2. intros Hact Hd. apply Ha; [done |].
    unfold desired in Hd. rewrite E5 in Hd. simpl in Hd.
    destruct (permits_accounting s); [done |]. by rewrite andb_false_r in Hd.
  - rewrite E4, E2. intros Hgo. destruct (Hg Hgo) as [_ Hn]. split; [done |].
    unfold desired. specialize (Hgap eq_refl Hgo) as ->. injection Hs1 as _ Hcon _ _.
    by rewrite E6, Hcon, Hready.
  - split; [| done]. eapply records_after; [exact Hc | done |].
    intros app. specialize (Hc' app). unfold tabs in *. by rewrite E1 in Hc'.
Qed.

Lemma checkpoint_records s now t t' r :
  tracker_ok t -> tracker_checkpoint s now t = (t', r) ->
  records (counted s now t) t t' r /\ (r = Ok tt -> option_map active_identity (active t') = desired t').
Proof.
  intros Hok Hr. unfold tracker_checkpoint in Hr. rewrite bind_gets in Hr.
  destruct (source_connected t) eqn:Hcon;
    (eapply (sample_then_reconcile _ _ _ _ (set_session (Some s))); [| | done | exact Hr]); try done.
  Qed.

Lemma focus_records f s now t t' r :
  tracker_ok t -> observe_focus f s now t = (t', r) ->
  records (counted s now t) t t' r /\ (r = Ok tt -> option_map active_identity (active t') = desired t').
Proof.
  intros Hok Hr.
  apply (sample_then_reconcile now s true "focus_or_session_changed"
    (fun u => set_session (Some s) (set_tracker_focus f (set_connected true u)))); done.
Qed.

(** A program that ends by closing what is timed, then only changes settings. *)
Lemma close_then_records n reason (set : UsageTracker -> UsageTracker) t t1 t' r :
  (forall u, tabs (set u) = tabs u /\ active (set u) = active u) ->
  charged (timed_app t) n (tabs t) (tabs t1) -> books (tabs t1) ->
  bind (close_active reason) (fun _ => modify set) t1 = (t', r) -> records n t t' r /\ active t' = None.
Proof.
  intros Hset Hn Hb Hr. unfold bind, modify in Hr.
  destruct (close_active reason t1) as [t2 [[] | e]] eqn:H2;
    apply close_active_stops in H2; try done; pose proof (stops_ok _ _ H2) as Hok2;
    destruct H2 as (Hb2 & Hc2 & Ha2 & _); injection Hr as <- <-.
  - destruct (Hset t2) as [E1 E2]. split; [| congruence]. eapply records_after; [exact Hn | |].
    + unfold tracker_ok, linked, synced, tabs in *. rewrite E1, E2, Ha2. by split_and!.
    + unfold tabs in *. by rewrite E1.
  - split; [| done]. by eapply records_after.
Qed.

Lemma edge_records now t t' r :
  tracker_ok t -> observe_session_edge now t = (t', r) ->
  records (op_counted (Observe_session_edge now) t) t t' r.
Proof.
  intros Hok Hr. unfold observe_session_edge in Hr. rewrite bind_gets in Hr.
  unfold op_counted. simpl. destruct (session t) as [s |] eqn:Hs; simpl.
  - unfold bind at 1 in Hr. destruct (advance now s t) as [t1 [[] | e]] eqn:H1;
      apply advance_advanced in H1 as (Hb & Hk & _ & Hg & Hm); try done.
    + destruct Hm as [Hc _]. by eapply close_then_records in Hr as [Hrec _].
    + injection Hr as <- <-. destruct Hm as [Hc Hsy]. split; [| by right].
      unfold tracker_ok. split_and!; try done. intros Hgo. by apply Hg.
  - eapply close_then_records in Hr as [Hrec _]; [exact Hrec | done | by apply charged_nothing | by destruct Hok].
Qed.

(** The two kinds of outage. *)
Lemma outage_records reason (set : UsageTracker -> UsageTracker) t t' r :
  (forall u, tabs (set u) = tabs u /\ active (set u) = active u) -> tracker_ok t ->
  bind (open_gap_now reason) (fun _ => bind (close_active reason) (fun _ => modify set)) t = (t', r) ->
  records 0 t t' r.
Proof.
  intros Hset Hok Hr. pose proof Hok as (Hb & Hk & Hsy & Hg). unfold bind at 1 in Hr.
  destruct (open_gap_now reason t) as [t1 r1] eqn:H1.
  assert (ledger (tabs t1) = ledger (tabs t) /\ (r1 <> Ok tt -> tracker_ok t1)) as [Hl Herr].
  { unfold open_gap_now in H1. rewrite !bind_gets in H1.
    destruct (gap_open t) eqn:Hgo; [by injection H1 as <- <- |].
    destruct (last_sample t) as [p |] eqn:Hp; [| by injection H1 as <- <-].
    unfold bind in H1. destruct (on_usage _ t) as [t2 [[] | e]] eqn:H2;
      destruct (on_usage_ledger _ _ _ _ (keeps_ledger_begin reason p) H2) as (s2 & -> & Hl2);
      injection H1 as <- <-; [done |]. split; [done |]. intros _.
    destruct (same_ledger_ok _ _ Hl2 Hb Hk) as (Hb2 & Hk2 & _). unfold tracker_ok. split_and!; try done.
    simpl. congruence. }
  destruct r1 as [[] | e].
  - eapply close_then_records in Hr as [Hrec _]; [exact Hrec | done | by apply charged_nothing |].
    by eapply ledger_books.
  - injection Hr as <- <-. split; [by apply Herr | left]. by apply charged_nothing.
Qed.

Lemma op_records op t t' r :
  tracker_ok t -> is_retention op = false -> run_op op t = (t', r) ->
  records (op_counted op t) t t' r.
Proof.
  intros Hok Hop Hr. destruct op as [f s now | u s now | s now | reason | reason | now | now p]; simpl in Hr.
  - by apply focus_records in Hr as [? _].
  - destruct u; simpl in Hr; [by apply focus_records in Hr as [? _] | by apply checkpoint_records in Hr as [? _] ..].
  - by apply checkpoint_records in Hr as [? _].
  - apply (outage_records reason (fun u => set_tracker_focus None (set_connected false u))); done.
  - by apply (outage_records reason (set_session None)).
  - by apply edge_records.
  - done.
Qed.

Lemma retention_ok now p t t' r :
  tracker_ok t -> on_usage (apply_retention now p) t = (t', r) -> tracker_ok t'.
Proof.
  intros (Hb & Hk & Hs & Hg) Hr. apply on_usage_run in Hr as (s' & r0 & Hr & -> & _).
  apply retention_books in Hr as [Hb' Hopen]; [| done]. unfold tracker_ok. split_and!; try done.
  intros a Ha. destruct (Hk a Ha) as (row & Hrow & Ho & Hrest). exists row. split; [by apply Hopen | done].
Qed.

Lemma op_ok op t : tracker_ok t -> tracker_ok (fst (run_op op t)).
Proof.
  intros Hok. destruct (run_op op t) as [t' r] eqn:Hr. simpl. destruct (is_retention op) eqn:Hop.
  - destruct op; try done. by eapply retention_ok.
  - by eapply op_records.
Qed.

Lemma new_tracker_ok s max : books (tables s) -> tracker_ok (UsageTracker_new s max)
  /\ tabs (UsageTracker_new s max) = tables s.
Proof.
  intros Hb. unfold UsageTracker_new. destruct (has_open_gap s) as [s' r] eqn:Hq.
  apply query_tables in Hq. unfold tracker_ok, linked, synced, tabs. simpl. rewrite Hq. by split_and!.
Qed.

Lemma runs_ok ops t : tracker_ok t -> tracker_ok (run_ops ops t).
Proof.
  revert t. induction ops as [| op ops IH]; intros t Hok; simpl; [done |]. by apply IH, op_ok.
Qed.

(** The aggregates and the intervals grow together. *)
Definition grows_together (t t' : UsageTables) : Prop :=
  forall k app, aggregated_time k app t' - aggregated_time k app t = counted_time app t' - counted_time app t.

Lemma charged_grows app n t t' : charged app n t t' -> grows_together t t'.
Proof. intros Hc k app'. destruct (Hc app') as [C A]. rewrite A, C. lia. Qed.

Lemma runs_grow ops t :
  tracker_ok t -> forallb (fun op => negb (is_retention op)) ops = true ->
  grows_together (tabs t) (tabs (run_ops ops t)).
Proof.
  revert t. induction ops as [| op ops IH]; intros t Hok Hops; simpl; [intros k app; lia |].
  simpl in Hops. bool_facts. destruct (run_op op t) as [t1 r] eqn:Hr. simpl.
  assert (is_retention op = false) as Hop by done.
  destruct (op_records op t t1 r Hok Hop Hr) as [Hok1 Hc].
  assert (grows_together (tabs t) (tabs t1)) as Hgrow by (destruct Hc as [Hc | [_ Hc]]; by eapply charged_grows).
  intros k app. specialize (Hgrow k app). specialize (IH t1 Hok1 ltac:(done) k app). fold (run_ops ops t1). lia.
Qed.

(** C7: the tracker keeps its books under any failing statements: whatever the
    worker calls and whatever fails, every interval lasts exactly from its start
    to its last checkpoint, at most one is open, and the one being timed is open
    in the database for the focused application and counted up to the last
    sample; and without retention each aggregate table has grown, for every
    application, by exactly as much as its intervals. *)
Theorem tracker_runs_keep_the_books s max ops :
  books (tables s) ->
  tracker_ok (run_ops ops (UsageTracker_new s max))
  /\ (forallb (fun op => negb (is_retention op)) ops = true ->
      grows_together (tables s) (tabs (run_ops ops (UsageTracker_new s max)))).
Proof.
  intros Hb. destruct (new_tracker_ok s max Hb) as [Hok Ht]. split; [by apply runs_ok |].
  intros Hops. rewrite <- Ht. by apply runs_grow.
Qed.

Lemma counted_bounds s now t :
  synced t -> 0 <= max_event_gap_ns t -> 0 <= counted s now t <= max_event_gap_ns t.
Proof.
  intros Hs Hmax. unfold counted. destruct (gap_open t); [lia |].
  destruct (active t) as [a |] eqn:Ha; [| lia]. destruct (Hs a Ha) as (p & -> & Hm & _).
  destruct (_ && eqb _ _); [lia |].
  destruct (checked_u64 _) as [gap |] eqn:Hg; simpl; [| lia].
  apply checked_u64_some in Hg as [-> _]. destruct (_ <? _) eqn:Hlt; [lia |]. bool_facts.
  destruct (_ && is_ok (split_into_local_minutes (last_counted a) now)) eqn:Hok; [| lia].
  bool_facts. destruct (split_into_local_minutes (last_counted a) now) as [l |] eqn:Hl; [| done].
  apply split_total in Hl as [_ ?]. lia.
Qed.

(** C11: time is counted exactly: a call that succeeds records, for the
    application being timed and no other, in its interval and in each kind of
    aggregate, the time since the last counted sample if the session permits
    it, the clocks of the samples compare and the gap between them is short
    enough, and nothing otherwise; a call that fails records that or nothing.
    A call never records more than the longest gap allowed, and one that
    samples the focus or the session leaves exactly the wanted window being
    timed. *)
Theorem time_is_counted_exactly op t t' r :
  tracker_ok t -> 0 <= max_event_gap_ns t -> is_retention op = false -> run_op op t = (t', r) ->
  0 <= op_counted op t <= max_event_gap_ns t
  /\ (r = Ok tt -> charged (timed_app t) (op_counted op t) (tabs t) (tabs t'))
  /\ (r <> Ok tt -> charged (timed_app t) (op_counted op t) (tabs t) (tabs t')
                    \/ charged (timed_app t) 0 (tabs t) (tabs t'))
  /\ (r = Ok tt ->
      match op with Observe_focus _ _ _ | Observe_niri_update _ _ _ | Checkpoint _ _ => True | _ => False end ->
      option_map active_identity (active t') = desired t').
Proof.
  intros Hok Hmax Hop Hr. destruct (op_records _ _ _ _ Hok Hop Hr) as [_ Hc]. split_and!.
  - unfold op_counted. destruct (op_sample op t) as [[s now] |]; [| lia]. by apply counted_bounds; [apply Hok |].
  - unfold op_counted. destruct (op_sample op t) as [[s now] |]; [| lia]. by apply counted_bounds; [apply Hok |].
  - intros ->. destruct Hc as [Hc | [[=] _]]. exact Hc.
  - intros _. destruct Hc as [Hc | [_ Hc]]; auto.
  - intros Hrok Hkind. destruct op as [f s now | u s now | s now | | | |]; try done; simpl in Hr.
    + apply focus_records in Hr as [_ Hd]; auto.
    + destruct u; simpl in Hr; [apply focus_records in Hr as [_ Hd] | apply checkpoint_records in Hr as [_ Hd] ..]; auto.
    + apply checkpoint_records in Hr as [_ Hd]; auto.
Qed.

(** ** An interval nobody times *)

(** An open row of the database that the tracker has forgotten. *)
Definition orphaned (t : UsageTracker) : Prop :=
  active t = None /\ any_open (focus_intervals (tabs t)) = true.

Definition stuck (t t' : UsageTracker) : Prop := orphaned t -> orphaned t' /\ ledger (tabs t') = ledger (tabs t).

#[local] Instance stuck_preorder : PreOrder stuck.
Proof.
  split; [by intros t Ht |]. intros t1 t2 t3 H12 H23 Ho. destruct (H12 Ho) as [H2 L2].
  destruct (H23 H2) as [H3 L3]. split; [done | congruence].
Qed.

Lemma stuck_modify (g : UsageTracker -> UsageTracker) :
  (forall t, tabs (g t) = tabs t) -> (forall t, active t = None -> active (g t) = None) ->
  respects stuck (modify g : tracker_mut unit).
Proof.
  intros Ht Ha. apply respects_modify. intros t [H1 H2]. unfold orphaned. rewrite Ht. auto.
Qed.

Lemma stuck_usage {A} (m : store_mut A) : keeps_ledger m -> respects stuck (on_usage m).
Proof.
  intros Hm t t' r Hr. destruct (on_usage_ledger _ _ _ _ Hm Hr) as (s' & -> & Hl). intros [Ha Ho].
  split; [| done]. split; [done |]. unfold tabs. simpl. by rewrite (ledger_intervals _ _ Hl).
Qed.

Lemma stuck_close reason : respects stuck (close_active reason).
Proof.
  intros t t' r Hr Ho. pose proof Ho as [Ha _]. unfold close_active in Hr. rewrite bind_gets, Ha in Hr.
  by injection Hr as <- _.
Qed.

Lemma stuck_advance now s : respects stuck (advance now s).
Proof.
  intros t t' r Hr Ho. pose proof Ho as [Ha _]. unfold advance in Hr. rewrite bind_gets in Hr.
  enough (forall m : tracker_mut unit, m t = (t', r) -> respects stuck m ->
    orphaned t' /\ ledger (tabs t') = ledger (tabs t)) as Hm; [| by intros m Hmr Hm; apply (Hm _ _ _ Hmr)].
  destruct (last_sample t) as [p |]; [| by apply (Hm _ Hr), stuck_modify].
  destruct (_ && _); [by injection Hr as <- _ |]. rewrite bind_gets in Hr. destruct (is_none_or _ _).
  - apply (Hm _ Hr). apply respects_bind; [apply _ | apply stuck_usage, keeps_ledger_record | intros _].
    apply respects_bind; [apply _ | apply stuck_close | intros _]. by apply stuck_modify.
  - rewrite bind_gets, Ha in Hr. by apply (Hm _ Hr), stuck_modify.
Qed.

Lemma stuck_reconcile now reason : respects stuck (reconcile now reason).
Proof.
  intros t t' r Hr Ho. pose proof Ho as [Ha Hopen]. unfold reconcile in Hr. rewrite !bind_gets, Ha in Hr.
  unfold bind at 1, close_active in Hr. rewrite bind_gets, Ha in Hr. cbn [ret] in Hr.
  destruct (desired t) as [i |]; [| by injection Hr as <- _].
  unfold bind at 1 in Hr. destruct (on_usage _ t) as [t1 r1] eqn:H1.
  apply on_usage_run in H1 as (s1 & r0 & H1 & -> & ->).
  apply start_interval_cases in H1 as [(e & -> & Ht) | (Hn & _)]; [| unfold tabs in Hopen; congruence].
  injection Hr as <- _. unfold orphaned, tabs. simpl. rewrite Ht. by split.
Qed.

Lemma stuck_resume now s ready : respects stuck (resume_or_advance now s ready).
Proof.
  unfold resume_or_advance. apply respects_bind; [apply _ | |].
  - by intros t t' r [= <- _].
  - intros [|]; [| apply stuck_advance].
    apply respects_bind; [apply _ | | intros _; by apply stuck_modify].
    unfold when. destruct ready; [| by intros t t' r [= <- _]].
    apply respects_bind; [apply _ | apply stuck_usage, keeps_ledger_close | intros _; by apply stuck_modify].
Qed.

Lemma stuck_gap reason : respects stuck (open_gap_now reason).
Proof.
  unfold open_gap_now. do 2 (apply respects_bind; [apply _ | by intros t t' r [= <- _] | intros ?]).
  repeat case_match; try (by intros t t' r [= <- _]).
  apply respects_bind; [apply _ | apply stuck_usage, keeps_ledger_begin | intros _; by apply stuck_modify].
Qed.

Ltac solve_stuck :=
  repeat first
    [ apply stuck_resume | apply stuck_reconcile | apply stuck_gap | apply stuck_close | apply stuck_advance
    | by apply stuck_modify | by intros ? ? ? [= <- _]
    | apply respects_bind; [apply _ | | intros ?] | progress case_match ].

Lemma stuck_op op : is_retention op = false -> respects stuck (run_op op).
Proof.
  assert (forall f s now, respects stuck (observe_focus f s now)) as Hf by (intros; unfold observe_focus; solve_stuck).
  assert (forall s now, respects stuck (tracker_checkpoint s now)) as Hc
    by (intros; unfold tracker_checkpoint; solve_stuck).
  destruct op as [f s now | [f | |] s now | s now | reason | reason | now | now p]; simpl; intros Hop; auto.
  - unfold mark_event_gap. solve_stuck.
  - unfold mark_session_unavailable. solve_stuck.
  - unfold observe_session_edge. solve_stuck.
  - done.
Qed.

(** what a failed close costs: once the statement that closes an interval
    has failed, the row stays open and the tracker no longer knows it; from
    then on, whatever the worker calls, nothing is timed and no time of any
    application is ever recorded, for every start is refused by the one open
    interval, until the database is opened again. *)
Theorem failed_close_stops_accounting reason t t1 e ops :
  tracker_ok t -> active t <> None -> close_active reason t = (t1, Err e) ->
  forallb (fun op => negb (is_retention op)) ops = true ->
  active (run_ops ops t1) = None /\ ledger (tabs (run_ops ops t1)) = ledger (tabs t).
Proof.
  intros (_ & Hk & _) Hact Hc Hops.
  assert (orphaned t1 /\ ledger (tabs t1) = ledger (tabs t)) as [Ho Hl].
  { unfold close_active in Hc. rewrite bind_gets in Hc. destruct (active t) as [a |] eqn:Ha; [| done].
    unfold bind, modify in Hc. apply on_usage_run in Hc as (s' & r0 & Hs & -> & Hr).
    destruct (Hk a Ha) as (row & Hrow & Hopen & _).
    apply close_interval_cases in Hs as [[-> Ht] | [(-> & _) | (-> & _)]]; [| done | done].
    unfold orphaned, tabs in *. simpl in *. rewrite Ht. split; [split; [done |] | done].
    apply any_open_iff. eauto. }
  rewrite <- Hl. clear Hl Hc. revert t1 Ho. induction ops as [| op ops IH]; intros t1 Ho; [by destruct Ho |].
  simpl in Hops. apply andb_prop in Hops as [Hop Hops]. apply negb_true_iff in Hop.
  destruct (run_op op t1) as [t2 r] eqn:Hr. destruct (stuck_op op Hop _ _ _ Hr Ho) as [Ho2 Hl2].
  destruct (IH Hops t2 Ho2) as [IHa IHl]. simpl. rewrite Hr. split; [done |]. by rewrite <- Hl2.
Qed.
End Facts.

(** ** The theorems at work *)

Definition at_desk : SessionSnapshot := {| session_active := true; session_locked := false; session_idle := false |}.
Definition seconds (n : Z) : ClockSample := sample_at (n * 1000000000) (n * 1000).

Lemma empty_books : books empty_tables.
Proof. by split. Qed.

Definition fresh (faults : list bool) : UsageTracker :=
  UsageTracker_new {| tables := empty_tables; sql_faults := faults |} max_event_gap_default.
Definition focused (faults : list bool) : UsageTracker :=
  @run_ops unary_chrono [Observe_focus (Some terminal_window) at_desk (seconds 10)] (fresh faults).

Lemma fresh_ok faults : tracker_ok (fresh faults).
Proof. apply (new_tracker_ok {| tables := empty_tables; sql_faults := faults |}), empty_books. Qed.

Lemma focused_ok faults : tracker_ok (focused faults).
Proof. apply runs_ok, fresh_ok. Qed.

Lemma tracker_runs_keep_the_books_witness :
  grows_together empty_tables (tabs (@run_ops unary_chrono
    [Observe_focus (Some terminal_window) at_desk (seconds 10); Checkpoint at_desk (seconds 15);
     Mark_event_gap "niri_event_stream_disconnected"] (fresh [false; false; false; true]))).
Proof.
  apply (@tracker_runs_keep_the_books unary_chrono
    {| tables := empty_tables; sql_faults := [false; false; false; true] |} max_event_gap_default);
    [apply empty_books | reflexivity].
Defined.

Lemma time_is_counted_exactly_witness :
  charged "terminal" 5000000000 (tabs (focused []))
    (tabs (fst (@run_op unary_chrono (Checkpoint at_desk (seconds 15)) (focused [])))).
Proof.
  pose proof (@time_is_counted_exactly unary_chrono (Checkpoint at_desk (seconds 15)) (focused []) _ _
    (focused_ok []) ltac:(vm_compute; discriminate) eq_refl (surjective_pairing _)) as (_ & Hc & _).
  exact (Hc ltac:(vm_compute; reflexivity)).
Defined.

(** The third statement fails: the one that closes the interval. *)
Lemma failed_close_stops_accounting_witness :
  let closed := @close_active "focus_or_session_changed" (focused [false; false; true]) in
  snd closed = Err (Tracker_Store Sqlite)
  /\ active (@run_ops unary_chrono
       [Observe_focus (Some terminal_window) at_desk (seconds 15); Checkpoint at_desk (seconds 20)]
       (fst closed)) = None.
Proof.
  intros closed. split; [vm_compute; reflexivity |].
  apply (@failed_close_stops_accounting unary_chrono "focus_or_session_changed" (focused [false; false; true])
    (fst closed) (Tracker_Store Sqlite)
    [Observe_focus (Some terminal_window) at_desk (seconds 15); Checkpoint at_desk (seconds 20)]).
  - apply focused_ok.
  - vm_compute. discriminate.
  - vm_compute. reflexivity.
  - reflexivity.
Defined.
