(* ===== verification/Frame.v ===== *)
(** [crates/ipc/src/frame.rs]: length-prefixed frames over a byte stream, with
    deadlines and a budget of what a reader accepts.

    A byte stream is what arrives and when: chunks of any size, I/O errors, and
    perhaps an end. tokio's [read_exact] under [timeout_at] takes the bytes it
    needs chunk by chunk and gives up at the first that comes too late. A
    [usize] has 64 bits. *)
From S2P Require Import Prelude.

(** ** Byte streams *)

(** An [io::Error] is its kind, as far as the code asks, and its message. *)
Inductive IoError := Io_UnexpectedEof | Io_error (message : string).

(** Bytes, or an error, at the time they can be read. *)
Abbreviation arrival := (Z * result (list Z) IoError)%type.

(** [stream_closed] is when the peer closes the stream after all of it. *)
Record Stream := { arrivals : list (Z * result (list Z) IoError); stream_closed : option Z }.

Inductive ReadOutcome := Read_done (bytes : list Z) | Read_failed (e : IoError) | Read_timed_out.

(** [read_exact] of [need] bytes until [limit]: the time it ends, what is left
    of the stream, and how it ended. *)
Fixpoint read_exact (limit : Z) (need : nat) (now : Z) (closed : option Z)
    (l : list (Z * result (list Z) IoError))
  : Z * list (Z * result (list Z) IoError) * ReadOutcome :=
  match need with
  | O => (now, l, Read_done [])
  | _ =>
      match l with
      | [] =>
          match closed with
          | Some t => if Z.max now t <=? limit then (Z.max now t, [], Read_failed Io_UnexpectedEof)
                      else (limit, [], Read_timed_out)
          | None => (limit, [], Read_timed_out)
          end
      | (t, chunk) :: l' =>
          if limit <? Z.max now t then (limit, l, Read_timed_out)
          else match chunk with
          | Err e => (Z.max now t, l', Read_failed e)
          | Ok bs =>
              if (need <=? length bs)%nat
              then (Z.max now t, (t, Ok (skipn need bs)) :: l', Read_done (firstn need bs))
              else let '(now', l'', r) := read_exact limit (need - length bs) (Z.max now t) closed l' in
                   (now', l'', match r with Read_done bs' => Read_done (bs ++ bs') | _ => r end)
          end
      end
  end.

Definition u32_from_be_bytes (l : list Z) : Z := fold_left (fun n b => n * 256 + b) l 0.
Definition u32_to_be_bytes (n : Z) : list Z :=
  [Z.shiftr n 24; Z.land (Z.shiftr n 16) 255; Z.land (Z.shiftr n 8) 255; Z.land n 255].

(** ** frame.rs *)

Definition MAX_FRAME_PAYLOAD_BYTES : Z := 65536.
Definition FRAME_IDLE_TIMEOUT : Z := 2000.
Definition FRAME_PREFIX_BYTES : Z := 4.

Record WireBudget := {
  max_frames : Z;
  max_wire_bytes : Z;
  observed_frames : Z;
  observed_wire_bytes : Z;
}.

Inductive FrameError :=
| Frame_Io (e : IoError)
| IdleTimeout | Frame_DeadlineExceeded | Frame_UnexpectedEof | Frame_Empty | Oversize
| FrameLimitExceeded | WireBytesExceeded | BudgetOverflow | InvalidJson (message : string).

Definition WireBudget_new (frames wire_bytes : Z) : WireBudget :=
  {| max_frames := frames; max_wire_bytes := wire_bytes; observed_frames := 0; observed_wire_bytes := 0 |}.

Definition observe_payload_len (payload_len : Z) : mut WireBudget unit FrameError :=
  frames <- lift (fun b => ok_or BudgetOverflow (checked_u64 (observed_frames b + 1))) ;;
  lift (fun b => fail_if max_frames b <? frames with FrameLimitExceeded in Ok tt) ;;;
  frame_wire_bytes <- lift (fun _ => ok_or BudgetOverflow (checked_u64 (FRAME_PREFIX_BYTES + payload_len))) ;;
  wire_bytes <- lift (fun b => ok_or BudgetOverflow (checked_u64 (observed_wire_bytes b + frame_wire_bytes))) ;;
  lift (fun b => fail_if max_wire_bytes b <? wire_bytes with WireBytesExceeded in Ok tt) ;;;
  modify (fun b => {| max_frames := max_frames b; max_wire_bytes := max_wire_bytes b;
                      observed_frames := frames; observed_wire_bytes := wire_bytes |}).

(** The reader: its clock (milliseconds), its stream, its budget. *)
Record Reader := { reader_now : Z; reader_stream : Stream; reader_budget : WireBudget }.

Abbreviation reader_mut A := (mut Reader A FrameError).

Definition set_budget (b : WireBudget) (r : Reader) : Reader :=
  {| reader_now := reader_now r; reader_stream := reader_stream r; reader_budget := b |}.

(** [timed_io] of an operation that ends at a time with an outcome: the time
    limit, and the error of one that hits it. *)
Definition operation_deadline (now absolute_deadline idle_timeout : Z) : Z :=
  Z.min absolute_deadline (now + idle_timeout).
Definition timeout_error (operation absolute_deadline : Z) : FrameError :=
  if operation =? absolute_deadline then Frame_DeadlineExceeded else IdleTimeout.

Definition map_eof (e : IoError) : FrameError :=
  match e with Io_UnexpectedEof => Frame_UnexpectedEof | _ => Frame_Io e end.

(** [timed_io] of a [read_exact], with its errors mapped by [map_eof]. *)
Definition timed_read (need : nat) (deadline idle_timeout : Z) : reader_mut (list Z) :=
  fun r =>
    let now := reader_now r in
    if deadline <=? now then (r, Err Frame_DeadlineExceeded)
    else
      let limit := operation_deadline now deadline idle_timeout in
      let '(now', l, o) := read_exact limit need now (stream_closed (reader_stream r))
                             (arrivals (reader_stream r)) in
      ({| reader_now := now';
          reader_stream := {| arrivals := l; stream_closed := stream_closed (reader_stream r) |};
          reader_budget := reader_budget r |},
       match o with
       | Read_done bs => Ok bs
       | Read_failed e => Err (map_eof e)
       | Read_timed_out => Err (timeout_error limit deadline)
       end).

Definition read_frame_with_idle_timeout (deadline idle_timeout : Z) : reader_mut (list Z) :=
  header <- timed_read 4 deadline idle_timeout ;;
  let length := u32_from_be_bytes header in
  if length =? 0 then throw Frame_Empty
  else
    zoom reader_budget set_budget (observe_payload_len length) ;;;
    if MAX_FRAME_PAYLOAD_BYTES <? length then throw Oversize
    else timed_read (Z.to_nat length) deadline idle_timeout.

Definition read_frame (deadline : Z) : reader_mut (list Z) :=
  read_frame_with_idle_timeout deadline FRAME_IDLE_TIMEOUT.

(** The writer: its clock, the bytes it has written, and what its next
    operations will do: when each ends, how many bytes it gets to write, and
    whether it fails. *)
Record WriteStep := { done_at : Z; wrote : nat; write_error : option IoError }.
Record Writer := { writer_now : Z; written : list Z; write_steps : list WriteStep }.

Abbreviation writer_mut A := (mut Writer A FrameError).

(** [timed_io] of a [write_all] or, with no bytes, a [flush]. *)
Definition timed_write (bytes : list Z) (deadline idle_timeout : Z) : writer_mut unit :=
  fun w =>
    let now := writer_now w in
    if deadline <=? now then (w, Err Frame_DeadlineExceeded)
    else
      let limit := operation_deadline now deadline idle_timeout in
      let step := default {| done_at := now; wrote := 0; write_error := None |} (head (write_steps w)) in
      let ends := Z.max now (done_at step) in
      let late := limit <? ends in
      let complete := negb late && is_none (write_error step) in
      ({| writer_now := if late then limit else ends;
          written := written w ++ (if complete then bytes else firstn (wrote step) bytes);
          write_steps := tail (write_steps w) |},
       if late then Err (timeout_error limit deadline)
       else match write_error step with Some e => Err (Frame_Io e) | None => Ok tt end).

Definition write_frame_with_idle_timeout (payload : list Z) (deadline idle_timeout : Z) : writer_mut unit :=
  if (length payload =? 0)%nat then throw Frame_Empty
  else if MAX_FRAME_PAYLOAD_BYTES <? Z.of_nat (length payload) then throw Oversize
  else
    timed_write (u32_to_be_bytes (Z.of_nat (length payload)) ++ payload) deadline idle_timeout ;;;
    timed_write [] deadline idle_timeout.

Definition write_frame (payload : list Z) (deadline : Z) : writer_mut unit :=
  write_frame_with_idle_timeout payload deadline FRAME_IDLE_TIMEOUT.

(** ** JSON

    [serde_json] is a parameter: what it writes for a value, and reads back; an
    error is its message. *)
Class Json (A : Type) := {
  to_vec : A -> result (list Z) string;
  from_slice : list Z -> result A string;
}.

Definition write_json {A} `{Json A} (value : A) (deadline : Z) : writer_mut unit :=
  payload <- lift (fun _ => map_err InvalidJson (to_vec value)) ;;
  write_frame payload deadline.

Definition read_json_with_idle_timeout {A} `{Json A} (deadline idle_timeout : Z) : reader_mut A :=
  payload <- read_frame_with_idle_timeout deadline idle_timeout ;;
  lift (fun _ => map_err InvalidJson (from_slice payload)).

Definition read_json {A} `{Json A} (deadline : Z) : reader_mut A :=
  read_json_with_idle_timeout deadline FRAME_IDLE_TIMEOUT.

(** ** peer.rs *)

Record PeerIdentity := { peer_uid : Z; expected_uid : Z }.
Inductive PeerError := Credentials | WrongUid (actual expected : Z) | UnsupportedPlatform.

Definition verify_peer_uid_value (uid expected : Z) : result PeerIdentity PeerError :=
  fail_if negb (uid =? expected) with WrongUid uid expected in
  Ok {| peer_uid := uid; expected_uid := expected |}.
