(* ===== verification/FrameFacts.v ===== *)
(** Frames: what is written is what is read back, from any chunking of the
    stream that arrives in time; a read stays within its budget, its payload
    limit and its deadline whatever the peer sends. *)
From S2P Require Import Prelude Frame.

(** ** Big-endian lengths *)


Lemma u32_be_round_trip n : 0 <= n <= u32_max -> u32_from_be_bytes (u32_to_be_bytes n) = n.
Proof.
  intros Hn. unfold u32_from_be_bytes, u32_to_be_bytes. simpl.
  change 255 with (Z.ones 8). rewrite !Z.land_ones, !Z.shiftr_div_pow2 by lia.
  change (2 ^ 8) with 256. change (2 ^ 16) with (256 * 256). change (2 ^ 24) with (256 * 256 * 256).
  unfold u32_max in Hn. rewrite <- !Z.div_div by lia.
  pose proof (Z.div_mod n 256) as H0. pose proof (Z.div_mod (n / 256) 256) as H1.
  pose proof (Z.div_mod (n / 256 / 256) 256) as H2. lia.
Qed.

Lemma u32_to_be_length n : length (u32_to_be_bytes n) = 4%nat.
Proof. done. Qed.

(** ** The bytes of a stream *)

Definition chunk_bytes (a : Z * result (list Z) IoError) : list Z :=
  match a.2 with Ok bs => bs | Err _ => [] end.
Definition stream_bytes (l : list (Z * result (list Z) IoError)) : list Z := concat (map chunk_bytes l).

(** Every chunk is there by time [T], none is an error. *)
Definition in_time (T : Z) (l : list (Z * result (list Z) IoError)) : Prop :=
  Forall (fun a => a.1 <= T /\ is_ok a.2 = true) l.

Lemma read_exact_done T limit closed bs : forall l now rest,
  in_time T l -> now <= T -> T <= limit -> stream_bytes l = bs ++ rest ->
  exists now' l', read_exact limit (length bs) now closed l = (now', l', Read_done bs) /\
    now <= now' <= T /\ in_time T l' /\ stream_bytes l' = rest.
Proof.
  intros l. revert bs. induction l as [| [t [chunk | e]] l IH]; intros bs now rest Hin Hnow HT Hbs.
  - destruct bs; [| discriminate]. exists now, []. split_and!; first [done | lia].
  - apply Forall_cons in Hin as [[Ht _] Hin]. simpl in Ht.
    destruct bs as [| b0 bs0].
    { exists now, ((t, Ok chunk) :: l). split_and!; first [done | lia | by constructor]. }
    set (bs := b0 :: bs0) in *. change (length bs) with (S (length bs0)). cbn [read_exact].
    change (S (length bs0)) with (length bs).
    replace (limit <? Z.max now t) with false by lia.
    change (stream_bytes ((t, Ok chunk) :: l)) with (chunk ++ stream_bytes l) in Hbs.
    destruct (length bs <=? length chunk)%nat eqn:Hle.
    + apply Nat.leb_le in Hle. assert (Hp : bs = firstn (length bs) chunk).
      { rewrite <- (take_app_le _ (stream_bytes l)) by done. rewrite Hbs. by rewrite take_app_length. }
      exists (Z.max now t), ((t, Ok (skipn (length bs) chunk)) :: l). split_and!; try lia.
      * by rewrite <- Hp.
      * by constructor.
      * change (skipn (length bs) chunk ++ stream_bytes l = rest).
        rewrite <- drop_app_le by done. rewrite Hbs. by rewrite drop_app_length.
    + apply Nat.leb_gt in Hle. assert (Hsplit : bs = chunk ++ skipn (length chunk) bs).
      { rewrite <- (take_drop (length chunk) bs) at 1. f_equal.
        rewrite <- (take_app_le _ rest) by lia. rewrite <- Hbs. by rewrite take_app_length. }
      destruct (IH (skipn (length chunk) bs) (Z.max now t) rest) as (now' & l' & Hr & Hn & Hi & Hb);
        [done | lia | done | |].
      { rewrite Hsplit, <- app_assoc in Hbs. by apply app_inv_head in Hbs. }
      rewrite length_drop in Hr. rewrite Hr. exists now', l'. split_and!; try done; [| lia | lia].
      by rewrite <- Hsplit.
  - apply Forall_cons in Hin as [[_ He] _]. discriminate.
Qed.

(** A read never ends after its limit, and never gives other than the bytes
    asked for. *)
Lemma read_exact_bounds limit closed : forall l need now now' l' o,
  now <= limit -> read_exact limit need now closed l = (now', l', o) ->
  now <= now' <= limit /\ (forall bs, o = Read_done bs -> length bs = need).
Proof.
  induction l as [| [t c] l IH]; intros need now now' l' o Hnow H; destruct need as [| need]; cbn [read_exact] in H.
  1, 3: injection H as <- <- <-; split; [lia | by intros bs [= <-]].
  - destruct closed as [t |]; [destruct (Z.max now t <=? limit) eqn:Ht |]; injection H as <- <- <-; (split; [lia | done]).
  - destruct (limit <? Z.max now t) eqn:Ht; [injection H as <- <- <-; split; [lia | done] |].
    destruct c as [bs | e]; [| injection H as <- <- <-; split; [lia | done]].
    destruct (S need <=? length bs)%nat eqn:Hle.
    + injection H as <- <- <-. split; [lia |]. intros x [= <-]. apply Nat.leb_le in Hle.
      by rewrite length_take, Nat.min_l.
    + apply Nat.leb_gt in Hle. destruct (read_exact limit (S need - length bs) (Z.max now t) closed l) as [[n1 l1] o1] eqn:Hr.
      apply IH in Hr as [Hn Ho]; [| lia]. injection H as <- <- <-. split; [lia |].
      intros x Hx. destruct o1 as [b1 | |]; [| done | done]. injection Hx as <-.
      rewrite length_app, (Ho b1 eq_refl). lia.
Qed.

(** ** Budgets *)

(** The budget after [n] more frames of [wire] bytes. *)
Definition grow (n wire : Z) (b : WireBudget) : WireBudget :=
  {| max_frames := max_frames b; max_wire_bytes := max_wire_bytes b;
     observed_frames := observed_frames b + n; observed_wire_bytes := observed_wire_bytes b + wire |}.

Definition budget_ok (b : WireBudget) : Prop :=
  0 <= observed_frames b <= max_frames b /\ max_frames b <= u64_max /\
  0 <= observed_wire_bytes b <= max_wire_bytes b /\ max_wire_bytes b <= u64_max.

(** There is room for [n] more frames of [wire] bytes. *)
Definition room_for (n wire : Z) (b : WireBudget) : Prop :=
  observed_frames b + n <= max_frames b /\ observed_wire_bytes b + wire <= max_wire_bytes b.

Lemma observe_payload_len_spec n b b' r :
  budget_ok b -> 0 <= n <= u32_max -> observe_payload_len n b = (b', r) ->
  (room_for 1 (4 + n) b /\ b' = grow 1 (4 + n) b /\ r = Ok tt) \/
  (~ room_for 1 (4 + n) b /\ b' = b /\
   (r = Err FrameLimitExceeded \/ r = Err WireBytesExceeded \/ r = Err BudgetOverflow)).
Proof.
  unfold budget_ok, room_for, observe_payload_len, bind, lift, modify, ok_or, checked_u64, FRAME_PREFIX_BYTES.
  intros (Hf & Hf' & Hw & Hw') Hn H. unfold grow.
  destruct (in_u64 (observed_frames b + 1)) eqn:H1; cbn in H;
    [| injection H as <- <-; right; split_and!; [width | done | by right; right]].
  destruct (max_frames b <? observed_frames b + 1) eqn:H2; cbn in H;
    [injection H as <- <-; right; split_and!; [lia | done | by left] |].
  replace (in_u64 (4 + n)) with true in H by width. cbn in H.
  destruct (in_u64 (observed_wire_bytes b + (4 + n))) eqn:H3; cbn in H;
    [| injection H as <- <-; right; split_and!; [width | done | by right; right]].
  destruct (max_wire_bytes b <? observed_wire_bytes b + (4 + n)) eqn:H4; cbn in H; injection H as <- <-.
  - right. split_and!; [lia | done | by right; left].
  - left. split_and!; [lia | lia | done | done].
Qed.

Lemma room_for_le n wire n' wire' b : room_for n wire b -> n' <= n -> wire' <= wire -> room_for n' wire' b.
Proof. unfold room_for. lia. Qed.
Lemma grow_ok n wire b : budget_ok b -> 0 <= n -> 0 <= wire -> room_for n wire b -> budget_ok (grow n wire b).
Proof. unfold budget_ok, room_for, grow. simpl. lia. Qed.
Lemma grow_grow n wire n' wire' b : grow n' wire' (grow n wire b) = grow (n + n') (wire + wire') b.
Proof. unfold grow. simpl. f_equal; lia. Qed.
Lemma room_grow n wire n' wire' b : room_for (n + n') (wire + wire') b <-> room_for n' wire' (grow n wire b).
Proof. unfold room_for, grow. simpl. lia. Qed.

(** ** Reading *)

(** What is ready for a reader: all of its stream comes by [T], before the
    deadline and before the idle timeout. *)
Record ready (T deadline idle : Z) (r : Reader) : Prop := {
  ready_now : reader_now r <= T;
  ready_deadline : T < deadline;
  ready_idle : T <= reader_now r + idle;
  ready_stream : in_time T (arrivals (reader_stream r));
}.

Definition reader_bytes (r : Reader) : list Z := stream_bytes (arrivals (reader_stream r)).

Lemma timed_read_done T deadline idle r bs rest :
  ready T deadline idle r -> reader_bytes r = bs ++ rest ->
  exists r', timed_read (length bs) deadline idle r = (r', Ok bs) /\
    ready T deadline idle r' /\ reader_bytes r' = rest /\ reader_budget r' = reader_budget r.
Proof.
  intros [Hn Hd Hi Hs] Hb. unfold timed_read. replace (deadline <=? reader_now r) with false by lia.
  destruct (read_exact_done T (operation_deadline (reader_now r) deadline idle)
              (stream_closed (reader_stream r)) bs _ (reader_now r) rest Hs Hn) as (n & l & -> & Hn' & Hl & Hr);
    [unfold operation_deadline; lia | done |].
  eexists. split; [done |]. split_and!; [constructor; simpl; first [done | lia] | done | done].
Qed.

Lemma timed_read_bounds need deadline idle r r' x :
  0 <= idle -> timed_read need deadline idle r = (r', x) ->
  reader_budget r' = reader_budget r /\
  reader_now r <= reader_now r' <= Z.max (reader_now r) (Z.min deadline (reader_now r + idle)) /\
  (forall bs, x = Ok bs -> length bs = need).
Proof.
  intros Hi. unfold timed_read. destruct (deadline <=? reader_now r) eqn:Hd.
  - intros [= <- <-]. split_and!; [done | lia | lia | done].
  - destruct (read_exact _ _ _ _ _) as [[n l] o] eqn:Hr. intros [= <- <-].
    unfold operation_deadline in Hr. apply read_exact_bounds in Hr as [Hn Ho]; [| lia].
    simpl. split_and!; [done | lia | lia |]. intros bs Hb. destruct o; try discriminate Hb. apply Ho. congruence.
Qed.

(** ** Frames *)

Definition frame_of (payload : list Z) : list Z :=
  u32_to_be_bytes (Z.of_nat (length payload)) ++ payload.

Definition sendable (payload : list Z) : Prop := 1 <= Z.of_nat (length payload) <= MAX_FRAME_PAYLOAD_BYTES.

Definition wire_size (payloads : list (list Z)) : Z :=
  fold_right (fun p n => 4 + Z.of_nat (length p) + n) 0 payloads.

Lemma wire_size_nonneg ps : 0 <= wire_size ps.
Proof. induction ps; simpl; lia. Qed.

Lemma read_frame_done T deadline idle r payload rest :
  ready T deadline idle r -> sendable payload -> budget_ok (reader_budget r) ->
  room_for 1 (4 + Z.of_nat (length payload)) (reader_budget r) ->
  reader_bytes r = frame_of payload ++ rest ->
  exists r', read_frame_with_idle_timeout deadline idle r = (r', Ok payload) /\
    ready T deadline idle r' /\ reader_bytes r' = rest /\
    reader_budget r' = grow 1 (4 + Z.of_nat (length payload)) (reader_budget r).
Proof.
  intros Hr Hp Hok Hroom Hb. unfold frame_of in Hb. rewrite <- app_assoc in Hb.
  unfold sendable, MAX_FRAME_PAYLOAD_BYTES in Hp.
  destruct (timed_read_done T deadline idle r (u32_to_be_bytes (Z.of_nat (length payload))) _ Hr Hb)
    as (r1 & Hr1 & Hready1 & Hb1 & Hbud1).
  unfold read_frame_with_idle_timeout, bind at 1. rewrite u32_to_be_length in Hr1. rewrite Hr1. cbn beta iota.
  rewrite u32_be_round_trip by (unfold u32_max; lia).
  replace (Z.of_nat (length payload) =? 0) with false by lia. unfold bind, zoom.
  destruct (observe_payload_len _ (reader_budget r1)) as [b' x] eqn:Ho. rewrite Hbud1 in Ho.
  apply observe_payload_len_spec in Ho; [| done | unfold u32_max; lia].
  destruct Ho as [(_ & -> & ->) | [Hno _]]; [| done].
  unfold MAX_FRAME_PAYLOAD_BYTES. replace (65536 <? Z.of_nat (length payload)) with false by lia. rewrite Nat2Z.id.
  destruct (timed_read_done T deadline idle
              (set_budget (grow 1 (4 + Z.of_nat (length payload)) (reader_budget r)) r1) payload rest)
    as (r2 & Hr2 & Hready2 & Hb2 & Hbud2); [by destruct Hready1; constructor | done |].
  exists r2. split_and!; done.
Qed.

(** When the peer closes the stream is its own business. *)
Lemma timed_read_closed need deadline idle r :
  stream_closed (reader_stream (timed_read need deadline idle r).1) = stream_closed (reader_stream r).
Proof. unfold timed_read. destruct (_ <=? _); [done |]. by destruct (read_exact _ _ _ _ _) as [[]]. Qed.

Lemma read_frame_closed deadline idle r r' x : read_frame_with_idle_timeout deadline idle r = (r', x) ->
  stream_closed (reader_stream r') = stream_closed (reader_stream r).
Proof.
  unfold read_frame_with_idle_timeout, bind, zoom. pose proof (timed_read_closed 4 deadline idle r) as Hc1.
  destruct (timed_read 4 deadline idle r) as [r1 [header |]]; [| by intros [= <- _]].
  destruct (_ =? _); [by intros [= <- _] |].
  destruct (observe_payload_len _ _) as [b [u |]]; [| by intros [= <- _]].
  destruct (_ <? _); [by intros [= <- _] |]. intros Hr. simpl in Hc1. rewrite <- Hc1.
  pose proof (timed_read_closed (Z.to_nat (u32_from_be_bytes header)) deadline idle (set_budget b r1)) as Hc2.
  by rewrite Hr in Hc2.
Qed.

(** Reading and writing a number of frames. *)
Fixpoint read_frames (n : nat) (deadline idle : Z) : reader_mut (list (list Z)) :=
  match n with
  | O => ret []
  | S n => payload <- read_frame_with_idle_timeout deadline idle ;;
           payloads <- read_frames n deadline idle ;; ret (payload :: payloads)
  end.

Fixpoint write_frames (payloads : list (list Z)) (deadline idle : Z) : writer_mut unit :=
  match payloads with
  | [] => ret tt
  | p :: ps => write_frame_with_idle_timeout p deadline idle ;;; write_frames ps deadline idle
  end.

Lemma read_frames_done T deadline idle ps : forall r rest,
  ready T deadline idle r -> Forall sendable ps -> budget_ok (reader_budget r) ->
  room_for (Z.of_nat (length ps)) (wire_size ps) (reader_budget r) ->
  reader_bytes r = concat (map frame_of ps) ++ rest ->
  exists r', read_frames (length ps) deadline idle r = (r', Ok ps) /\ reader_bytes r' = rest /\
    reader_budget r' = grow (Z.of_nat (length ps)) (wire_size ps) (reader_budget r).
Proof.
  induction ps as [| p ps IH]; intros r rest Hr Hs Hok Hroom Hb.
  - exists r. split_and!; [done | done |]. unfold grow. simpl. rewrite !Z.add_0_r. by destruct (reader_budget r).
  - apply Forall_cons in Hs as [Hp Hs].
    cbn [map concat] in Hb. rewrite <- app_assoc in Hb. pose proof (wire_size_nonneg ps) as Hw. change (wire_size (p :: ps)) with (4 + Z.of_nat (length p) + wire_size ps) in *.
    simpl length in *. rewrite Nat2Z.inj_succ in *.
    destruct (read_frame_done T deadline idle r p (concat (map frame_of ps) ++ rest) Hr Hp Hok) as (r1 & H1 & Hr1 & Hb1 & Hg1); [| exact Hb |].
    { eapply room_for_le; [exact Hroom | lia | lia]. }
    destruct (IH r1 rest Hr1 Hs) as (r2 & H2 & Hb2 & Hg2); [| | exact Hb1 |].
    + rewrite Hg1. apply grow_ok; [done | lia | lia |]. eapply room_for_le; [exact Hroom | lia | lia].
    + rewrite Hg1. apply room_grow. eapply room_for_le; [exact Hroom | lia | lia].
    + exists r2. cbn [read_frames]. unfold bind. rewrite H1, H2. split_and!; [done | done |].
      rewrite Hg2, Hg1, grow_grow. f_equal; lia.
Qed.

(** ** Writing *)

Lemma timed_write_ok bytes deadline idle w w' :
  timed_write bytes deadline idle w = (w', Ok tt) ->
  written w' = written w ++ bytes.
Proof.
  unfold timed_write. destruct (deadline <=? writer_now w); [discriminate |]. cbv zeta.
  destruct (_ <? _) eqn:Hl; [discriminate |].
  destruct (write_error _) eqn:He; [discriminate |]. intros [= <-]. done.
Qed.

Lemma write_frame_ok payload deadline idle w w' :
  write_frame_with_idle_timeout payload deadline idle w = (w', Ok tt) ->
  sendable payload /\ written w' = written w ++ frame_of payload.
Proof.
  unfold write_frame_with_idle_timeout, sendable.
  destruct (length payload =? 0)%nat eqn:H0; [discriminate |]. apply Nat.eqb_neq in H0.
  destruct (MAX_FRAME_PAYLOAD_BYTES <? _) eqn:H1; [discriminate |]. intros H.
  apply bind_ok in H as (w1 & [] & Hw1 & Hw2). apply timed_write_ok in Hw1, Hw2.
  rewrite app_nil_r in Hw2. split; [lia |]. by rewrite Hw2, Hw1.
Qed.

Lemma write_frames_ok ps deadline idle : forall w w',
  write_frames ps deadline idle w = (w', Ok tt) ->
  Forall sendable ps /\ written w' = written w ++ concat (map frame_of ps).
Proof.
  induction ps as [| p ps IH]; intros w w' H; cbn [write_frames] in H.
  - injection H as <-. by rewrite app_nil_r.
  - apply bind_ok in H as (w1 & [] & H1 & H2). apply write_frame_ok in H1 as [Hp H1].
    apply IH in H2 as [Hs H2]. split; [by constructor |]. by rewrite H2, H1, <- app_assoc.
Qed.

(** ** Whatever the peer sends *)

(** The elements of a stream are bytes. *)
Definition bytes_ok (r : Reader) : Prop := Forall is_byte (reader_bytes r).

(** A read takes a part of the stream from its front; a read that is done gives it. *)
Lemma read_exact_takes limit closed : forall l need now now' l' o,
  read_exact limit need now closed l = (now', l', o) ->
  exists used, stream_bytes l = used ++ stream_bytes l' /\ (forall bs, o = Read_done bs -> used = bs).
Proof.
  induction l as [| [t c] l IH]; intros need now now' l' o H; destruct need as [| need]; cbn [read_exact] in H.
  1, 3: injection H as <- <- <-; exists []; split; [done | congruence].
  - exists []. destruct closed as [t |]; [destruct (Z.max now t <=? limit) |]; injection H as <- <- <-; done.
  - destruct (limit <? Z.max now t); [injection H as <- <- <-; by exists [] |].
    destruct c as [b | e]; [| injection H as <- <- <-; by exists []].
    change (stream_bytes ((t, Ok b) :: l)) with (b ++ stream_bytes l).
    destruct (S need <=? length b)%nat eqn:Hle.
    + injection H as <- <- <-. exists (firstn (S need) b). split; [| congruence].
      change (b ++ stream_bytes l = firstn (S need) b ++ skipn (S need) b ++ stream_bytes l).
      by rewrite app_assoc, firstn_skipn.
    + destruct (read_exact limit (S need - length b) _ closed l) as [[n1 l1] o1] eqn:Hr.
      apply IH in Hr as (used & Hu & Ho). injection H as <- <- <-. exists (b ++ used).
      rewrite Hu, app_assoc. split; [done |]. intros bs Hbs. destruct o1; try discriminate Hbs.
      injection Hbs as <-. by rewrite (Ho _ eq_refl).
Qed.

Lemma timed_read_takes need deadline idle r r' x :
  timed_read need deadline idle r = (r', x) ->
  exists used, reader_bytes r = used ++ reader_bytes r' /\ (forall bs, x = Ok bs -> used = bs).
Proof.
  unfold timed_read, reader_bytes. destruct (deadline <=? reader_now r); [intros [= <- <-]; by exists [] |].
  destruct (read_exact _ _ _ _ _) as [[n l] o] eqn:Hr. apply read_exact_takes in Hr as (used & Hu & Ho).
  intros [= <- <-]. exists used. split; [done |]. intros bs Hbs. destruct o; try discriminate Hbs.
  injection Hbs as <-. by apply Ho.
Qed.

Lemma u32_from_be_range bs : Forall is_byte bs -> length bs = 4%nat -> 0 <= u32_from_be_bytes bs <= u32_max.
Proof.
  intros Hb Hl. do 5 (destruct bs as [| ? bs]; [try discriminate Hl |]); [| discriminate Hl].
  unfold u32_from_be_bytes, u32_max. simpl.
  repeat (apply Forall_cons in Hb as [? Hb]). unfold is_byte in *. lia.
Qed.

Lemma read_frame_spec deadline idle r r' x :
  0 <= idle -> bytes_ok r -> budget_ok (reader_budget r) ->
  read_frame_with_idle_timeout deadline idle r = (r', x) ->
  (reader_now r <= reader_now r' <= Z.max (reader_now r) (Z.min deadline (reader_now r + 2 * idle)) /\
   budget_ok (reader_budget r') /\
   match x with
   | Ok payload => sendable payload /\
       reader_budget r' = grow 1 (4 + Z.of_nat (length payload)) (reader_budget r)
   | Err _ => reader_budget r' = reader_budget r \/
              exists n, reader_budget r' = grow 1 (4 + n) (reader_budget r)
   end) /\
  exists used, reader_bytes r = used ++ reader_bytes r' /\ (is_ok x = true -> (5 <= length used)%nat).
Proof.
  intros Hi Hbytes Hok. unfold read_frame_with_idle_timeout, bind at 1.
  destruct (timed_read 4 deadline idle r) as [r1 [header | e]] eqn:H1;
    pose proof (timed_read_takes _ _ _ _ _ _ H1) as (u1 & Hu1 & Hh1).
  2: { intros [= <- <-]. apply timed_read_bounds in H1 as (-> & Hn & _); [| done].
       split; [split_and!; [lia | lia | done | by left] | by exists u1]. }
  specialize (Hh1 _ eq_refl). subst u1.
  assert (Hh : Forall is_byte header) by (unfold bytes_ok in Hbytes; rewrite Hu1 in Hbytes; apply Forall_app in Hbytes; tauto).
  apply timed_read_bounds in H1 as (Hb1 & Hn1 & Hl1); [| done]. specialize (Hl1 _ eq_refl).
  pose proof (u32_from_be_range header Hh Hl1) as Hr. set (n := u32_from_be_bytes header) in *.
  destruct (n =? 0) eqn:H0.
  { intros [= <- <-]. rewrite Hb1. split; [split_and!; [lia | lia | done | by left] | by exists header]. }
  unfold bind, zoom. rewrite Hb1. destruct (observe_payload_len n (reader_budget r)) as [b' o] eqn:Ho.
  apply observe_payload_len_spec in Ho; [| done | done].
  destruct Ho as [(Hroom & -> & ->) | (_ & -> & Ho)].
  2: { assert (exists e, o = Err e) as [e ->] by (destruct Ho as [-> | [-> | ->]]; eauto).
       intros [= <- <-]. simpl. split; [split_and!; [lia | lia | done | by left] | by exists header]. }
  assert (Hok' : budget_ok (grow 1 (4 + n) (reader_budget r))) by (apply grow_ok; [done | lia | lia | done]).
  destruct (MAX_FRAME_PAYLOAD_BYTES <? n) eqn:Hmax.
  { intros [= <- <-]. simpl. split; [split_and!; [lia | lia | done | right; by exists n] | by exists header]. }
  intros H2. pose proof (timed_read_takes _ _ _ _ _ _ H2) as (u2 & Hu2 & Hh2).
  apply timed_read_bounds in H2 as (Hb2 & Hn2 & Hl2); [| done]. simpl in Hn2, Hb2. rewrite Hb2.
  change (reader_bytes (set_budget _ r1)) with (reader_bytes r1) in Hu2.
  split; [split_and!; [lia | lia | done |] |].
  - destruct x as [payload | e]; [| right; by exists n].
    specialize (Hl2 _ eq_refl). unfold sendable. rewrite Hl2, Z2Nat.id by lia. split; [lia | done].
  - exists (header ++ u2). rewrite <- app_assoc, <- Hu2. split; [done |]. intros Hx. rewrite length_app, Hl1.
    destruct x as [payload | e]; [| done]. rewrite (Hh2 _ eq_refl), (Hl2 _ eq_refl). lia.
Qed.

(** A read is bounded whatever the peer sends and whenever: it ends by the
    deadline and within two idle timeouts of its start; a payload it gives has
    between 1 and 65,536 bytes and is counted, with its prefix, in the budget;
    a failed read counts at most the frame whose length it saw; the budget's
    maxima are never exceeded. *)
Theorem read_frame_bounded deadline idle r r' x :
  0 <= idle -> bytes_ok r -> budget_ok (reader_budget r) ->
  read_frame_with_idle_timeout deadline idle r = (r', x) ->
  reader_now r <= reader_now r' <= Z.max (reader_now r) (Z.min deadline (reader_now r + 2 * idle)) /\
  budget_ok (reader_budget r') /\
  match x with
  | Ok payload => sendable payload /\
      reader_budget r' = grow 1 (4 + Z.of_nat (length payload)) (reader_budget r)
  | Err _ => reader_budget r' = reader_budget r \/
             exists n, reader_budget r' = grow 1 (4 + n) (reader_budget r)
  end.
Proof. intros Hi Hb Hok H. by destruct (read_frame_spec deadline idle r r' x Hi Hb Hok H) as [Hs _]. Qed.

(** Frames round trip: payloads written without an error are read back as
    they were, in order, from any chunking of the bytes that arrives before the
    deadline and the idle timeout, by a reader whose budget has room for them;
    what follows them on the stream is left for the next read, and the budget
    has grown by exactly the frames and bytes written. *)
Theorem frames_round_trip payloads deadline idle w w' T deadline' idle' r rest :
  write_frames payloads deadline idle w = (w', Ok tt) ->
  ready T deadline' idle' r -> budget_ok (reader_budget r) ->
  room_for (Z.of_nat (length payloads)) (wire_size payloads) (reader_budget r) ->
  reader_bytes r = drop (length (written w)) (written w') ++ rest ->
  exists r', read_frames (length payloads) deadline' idle' r = (r', Ok payloads) /\
    reader_bytes r' = rest /\
    reader_budget r' = grow (Z.of_nat (length payloads)) (wire_size payloads) (reader_budget r).
Proof.
  intros Hw Hready Hok Hroom Hb. apply write_frames_ok in Hw as [Hs Hw]. rewrite Hw, drop_app_length in Hb.
  by eapply read_frames_done.
Qed.

(** Witnesses: two payloads, read from chunks that cut the frames anywhere. *)
Definition sample_payloads : list (list Z) := [[1; 2; 3]; [7]].
Definition sample_writer : Writer := {| writer_now := 0; written := [9]; write_steps := [] |}.
Definition sample_reader : Reader :=
  {| reader_now := 0;
     reader_stream :=
       {| arrivals := [(0, Ok [0; 0]); (3, Ok [0; 3; 1]); (3, Ok [2; 3; 0; 0; 0; 1; 7; 5])];
          stream_closed := None |};
     reader_budget := WireBudget_new 2 12 |}.

Lemma sample_ready : ready 3 100 2000 sample_reader.
Proof. constructor; simpl; [lia | lia | lia |]. repeat constructor; simpl; lia. Qed.

Lemma frames_round_trip_witness :
  exists r', read_frames 2 100 2000 sample_reader = (r', Ok sample_payloads) /\
    reader_bytes r' = [5] /\ observed_wire_bytes (reader_budget r') = 12.
Proof.
  destruct (frames_round_trip sample_payloads 10 2000 sample_writer
              (fst (write_frames sample_payloads 10 2000 sample_writer)) 3 100 2000 sample_reader [5])
    as (r' & Hr & Hb & Hg).
  - vm_compute. reflexivity.
  - apply sample_ready.
  - vm_compute. intuition discriminate.
  - vm_compute. intuition discriminate.
  - vm_compute. reflexivity.
  - exists r'. split_and!; [done | done |]. by rewrite Hg.
Defined.

Lemma read_frame_bounded_witness :
  sendable [1; 2; 3] /\ budget_ok (grow 1 7 (WireBudget_new 2 12)).
Proof.
  destruct (read_frame_bounded 100 2000 sample_reader
              (fst (read_frame_with_idle_timeout 100 2000 sample_reader)) (Ok [1; 2; 3]))
    as (_ & Hok & Hp & Hg).
  - lia.
  - repeat constructor; vm_compute; try discriminate; intuition discriminate.
  - vm_compute. intuition discriminate.
  - vm_compute. reflexivity.
  - change (Z.of_nat (length [1; 2; 3])) with 3 in Hg. rewrite Hg in Hok. split; [exact Hp | exact Hok].
Defined.
