(* ===== verification/HelperFrame.v ===== *)
(** The framing the privileged helpers speak on their standard streams, as both
    [crates/network-helper-protocol] and [crates/telemetry-helper-protocol]
    have it, and the request loop [serve_stdio] of both
    [bins/network-helper/src/main.rs] and [bins/telemetry-helper/src/main.rs],
    over the interface [HelperProtocol] a protocol crate gives its helper. *)
From stdpp Require Import pretty.
From S2P Require Import Prelude Frame.

(** Standard input is the chunks and errors its reads give, the last followed
    by the end of the file ([read_exact] hides [Interrupted] from its caller).
    Standard output is the bytes written; [faults] are how the next
    [write_all]s and flushes end: [Some (n, e)] fails with [e] after [n]
    bytes. *)
Record Stdio := {
  stdin : list (result (list Z) IoError);
  stdout : list Z;
  faults : list (option (nat * IoError));
}.

Definition io_error_to_string (e : IoError) : string :=
  match e with
  | Io_UnexpectedEof => "failed to fill whole buffer"
  | Io_error message => message
  end.

Fixpoint input_exact (need : nat) (input : list (result (list Z) IoError))
  : list (result (list Z) IoError) * result (list Z) IoError :=
  match need with
  | O => (input, Ok [])
  | _ =>
      match input with
      | [] => ([], Err Io_UnexpectedEof)
      | Err e :: input' => (input', Err e)
      | Ok chunk :: input' =>
          if (need <=? length chunk)%nat
          then (Ok (skipn need chunk) :: input', Ok (firstn need chunk))
          else let '(rest, r) := input_exact (need - length chunk) input' in
               (rest, let? bs := r in Ok (chunk ++ bs))
      end
  end.

Definition stdin_read_exact (need : nat) : mut Stdio (list Z) IoError :=
  fun io => let '(rest, r) := input_exact need (stdin io) in
            ({| stdin := rest; stdout := stdout io; faults := faults io |}, r).

(** [write_all] and [flush]. *)
Definition stdout_write_all (bytes : list Z) : mut Stdio unit IoError :=
  fun io =>
    match head (faults io) with
    | Some (Some (n, e)) =>
        ({| stdin := stdin io; stdout := stdout io ++ firstn n bytes; faults := tail (faults io) |}, Err e)
    | _ => ({| stdin := stdin io; stdout := stdout io ++ bytes; faults := tail (faults io) |}, Ok tt)
    end.

Inductive FrameError :=
| Io (e : IoError)
| TruncatedLength | TruncatedPayload | Empty
| Oversized (length max : Z)
| LengthOverflow
| MalformedJson (message : string)
| UnsupportedVersion (version : Z)
| InvalidPayload (message : string).

(** [Display] of the error, as [thiserror] derives it. *)
Definition frame_error_to_string (error : FrameError) : string :=
  match error with
  | Io e => "frame read failed: " ++ io_error_to_string e
  | TruncatedLength => "frame ended before its length prefix completed"
  | TruncatedPayload => "frame ended before its payload completed"
  | Empty => "frame is empty"
  | Oversized length max => "frame length " ++ pretty length ++ " exceeds maximum " ++ pretty max
  | LengthOverflow => "frame length does not fit in a 32-bit prefix"
  | MalformedJson message => "JSON payload is malformed: " ++ message
  | UnsupportedVersion version => "unsupported protocol version: " ++ pretty version
  | InvalidPayload message => "protocol payload is invalid: " ++ message
  end%string.

Section Framing.
Context (MAX_FRAME_BYTES : Z).

Definition ensure_payload_size (payload : list Z) : result unit FrameError :=
  fail_if (length payload =? 0)%nat with Empty in
  fail_if MAX_FRAME_BYTES <? Z.of_nat (length payload)
    with Oversized (Z.of_nat (length payload)) MAX_FRAME_BYTES in
  Ok tt.

(** [Ok None] is the end of the input between two frames. *)
Definition read_frame : mut Stdio (option (list Z)) FrameError :=
  fun io =>
  match stdin_read_exact 1 io with
  | (io1, Err Io_UnexpectedEof) => (io1, Ok None)
  | (io1, Err error) => (io1, Err (Io error))
  | (io1, Ok first) =>
      (rest <- mut_map_err (fun _ => TruncatedLength) (stdin_read_exact 3) ;;
       let length := u32_from_be_bytes (first ++ rest) in
       if length =? 0 then throw Empty
       else if MAX_FRAME_BYTES <? length then throw (Oversized length MAX_FRAME_BYTES)
       else
         payload <- mut_map_err (fun _ => TruncatedPayload) (stdin_read_exact (Z.to_nat length)) ;;
         ret (Some payload)) io1
  end.

Definition write_frame (payload : list Z) : mut Stdio unit FrameError :=
  lift (fun _ => ensure_payload_size payload) ;;;
  length <- lift (fun _ => ok_or LengthOverflow (checked_u32 (Z.of_nat (length payload)))) ;;
  mut_map_err Io
    (stdout_write_all (u32_to_be_bytes length) ;;;
     stdout_write_all payload ;;;
     stdout_write_all []).

Definition encode {A} `{Json A} (value : A) : result (list Z) FrameError :=
  let? payload := map_err MalformedJson (to_vec value) in
  let? _ := ensure_payload_size payload in
  Ok payload.
End Framing.

(** ** The interface of a helper protocol, and a helper's loop *)

Class HelperProtocol := {
  Request : Type;
  Snapshot : Type;
  Error : Type;
  Reply : Type;
  frame_max : Z;
  decode_request : list Z -> result Request FrameError;
  request_generation : Request -> Z;
  reply_snapshot : Z -> Snapshot -> Reply;
  reply_error : Z -> Error -> Reply;
  reply_generation : Reply -> Z;
  error_of_frame : FrameError -> Error;
  encode_reply : Reply -> result (list Z) FrameError;
  decode_reply : list Z -> result Reply FrameError;
}.

Section Serve.
Context `{HelperProtocol} {C : Type} (collect : C -> Request -> C * result Snapshot Error).

(** What one frame is answered with. *)
Definition answer (c : C) (payload : list Z) : C * Reply :=
  match decode_request payload with
  | Err error => (c, reply_error 0 (error_of_frame error))
  | Ok request =>
      let '(c', r) := collect c request in
      (c', match r with
           | Ok snapshot => reply_snapshot (request_generation request) snapshot
           | Err error => reply_error (request_generation request) error
           end)
  end.

Definition write_reply (reply : Reply) : mut Stdio unit FrameError :=
  payload <- lift (fun _ => encode_reply reply) ;; write_frame frame_max payload.

(** [None] is a loop that needs more than [fuel] rounds. *)
Fixpoint serve_stdio (fuel : nat) (c : C) (io : Stdio) : option (C * (Stdio * result unit FrameError)) :=
  match fuel with
  | O => None
  | S fuel =>
      match read_frame frame_max io with
      | (io1, Err error) => Some (c, (io1, Err error))
      | (io1, Ok None) => Some (c, (io1, Ok tt))
      | (io1, Ok (Some payload)) =>
          let '(c1, reply) := answer c payload in
          match write_reply reply io1 with
          | (io2, Err error) => Some (c1, (io2, Err error))
          | (io2, Ok _) => serve_stdio fuel c1 io2
          end
      end
  end.
End Serve.
