(* ===== verification/HelperFrameFacts.v ===== *)
(** The helpers' loop: it always ends, and on framed requests it does what the
    reference [answers] says: one reply frame for each request frame, in order.
    Proved for any [HelperProtocol] with the laws of [HelperLaws]. *)
From S2P Require Import Prelude Frame FrameFacts HelperFrame.

(** What a protocol promises its helper and its client. *)
Class HelperLaws `{HelperProtocol} := {
  frame_max_u32 : 0 < frame_max <= u32_max;
  encoded_sendable : forall reply payload,
    encode_reply reply = Ok payload -> 1 <= Z.of_nat (length payload) <= frame_max;
  generation_of_snapshot : forall g s, reply_generation (reply_snapshot g s) = g;
  generation_of_error : forall g e, reply_generation (reply_error g e) = g;
}.

(** ** Standard input *)

Definition input_bytes (l : list (result (list Z) IoError)) : list Z :=
  concat (map (fun c => match c with Ok bs => bs | Err _ => [] end) l).
Definition no_errors (l : list (result (list Z) IoError)) : Prop := Forall (fun c => is_ok c = true) l.

Lemma input_exact_done : forall l bs rest,
  no_errors l -> input_bytes l = bs ++ rest ->
  exists l', input_exact (length bs) l = (l', Ok bs) /\ no_errors l' /\ input_bytes l' = rest.
Proof.
  induction l as [| [chunk | e] l IH]; intros bs rest Hok Hbs.
  - destruct bs; [| discriminate]. exists []. done.
  - apply Forall_cons in Hok as [_ Hok].
    destruct bs as [| b0 bs0]; [by exists (Ok chunk :: l); split; [| split; [constructor |]] |].
    set (bs := b0 :: bs0) in *. change (length bs) with (S (length bs0)). cbn [input_exact].
    change (S (length bs0)) with (length bs). change (chunk ++ input_bytes l = bs ++ rest) in Hbs.
    destruct (length bs <=? length chunk)%nat eqn:Hle.
    + apply Nat.leb_le in Hle. assert (Hp : bs = firstn (length bs) chunk).
      { rewrite <- (take_app_le _ (input_bytes l)) by done. rewrite Hbs. by rewrite take_app_length. }
      exists (Ok (skipn (length bs) chunk) :: l). split_and!; [by rewrite <- Hp | by constructor |].
      change (skipn (length bs) chunk ++ input_bytes l = rest).
      rewrite <- drop_app_le by done. rewrite Hbs. by rewrite drop_app_length.
    + apply Nat.leb_gt in Hle. assert (Hsplit : bs = chunk ++ skipn (length chunk) bs).
      { rewrite <- (take_drop (length chunk) bs) at 1. f_equal.
        rewrite <- (take_app_le _ rest) by lia. rewrite <- Hbs. by rewrite take_app_length. }
      destruct (IH (skipn (length chunk) bs) rest) as (l' & Hr & Hi & Hb); [done | |].
      { rewrite Hsplit, <- app_assoc in Hbs. by apply app_inv_head in Hbs. }
      rewrite length_drop in Hr. rewrite Hr. exists l'. split_and!; [| done | done].
      cbn. by rewrite <- Hsplit.
  - apply Forall_cons in Hok as [He _]. discriminate.
Qed.

Lemma input_exact_takes : forall l need l' r,
  input_exact need l = (l', r) ->
  (length (input_bytes l') <= length (input_bytes l))%nat /\
  (forall bs, r = Ok bs -> (length (input_bytes l') + need = length (input_bytes l))%nat).
Proof.
  induction l as [| c l IH]; intros need l' r H; destruct need as [| need]; cbn [input_exact] in H.
  1, 3: injection H as <- <-; split; [lia | intros; lia].
  - injection H as <- <-. split; [lia | done].
  - destruct c as [chunk | e]; [| injection H as <- <-; split; [by apply Nat.eq_le_incl | done]].
    change (input_bytes (Ok chunk :: l)) with (chunk ++ input_bytes l). rewrite length_app.
    destruct (S need <=? length chunk)%nat eqn:Hle.
    + apply Nat.leb_le in Hle. injection H as <- <-.
      change (input_bytes (Ok (skipn (S need) chunk) :: l)) with (skipn (S need) chunk ++ input_bytes l).
      rewrite length_app, length_drop. split; [lia | intros; lia].
    + apply Nat.leb_gt in Hle. destruct (input_exact _ l) as [rest r'] eqn:Hr.
      apply IH in Hr as [Hl Ht]. injection H as <- <-. split; [lia |].
      intros bs Hb. destruct r' as [bs' | e]; [| done]. specialize (Ht _ eq_refl). lia.
Qed.

Lemma stdin_read_done io bs rest :
  no_errors (stdin io) -> input_bytes (stdin io) = bs ++ rest ->
  exists l, stdin_read_exact (length bs) io = ({| stdin := l; stdout := stdout io; faults := faults io |}, Ok bs) /\
    no_errors l /\ input_bytes l = rest.
Proof.
  intros Hok Hb. unfold stdin_read_exact. destruct (input_exact_done _ _ _ Hok Hb) as (l & -> & Hl & Hr).
  by exists l.
Qed.

Lemma stdin_read_takes need io io' r :
  stdin_read_exact need io = (io', r) ->
  stdout io' = stdout io /\ faults io' = faults io /\
  (length (input_bytes (stdin io')) <= length (input_bytes (stdin io)))%nat /\
  (forall bs, r = Ok bs -> (length (input_bytes (stdin io')) + need = length (input_bytes (stdin io)))%nat).
Proof.
  unfold stdin_read_exact. destruct (input_exact need (stdin io)) as [l r'] eqn:Hr.
  intros [= <- <-]. apply input_exact_takes in Hr as [Hl Ht]. done.
Qed.

(** ** Reading a frame *)

Lemma helper_read_frame_done max io payload rest :
  max <= u32_max -> 1 <= Z.of_nat (length payload) <= max ->
  no_errors (stdin io) -> input_bytes (stdin io) = frame_of payload ++ rest ->
  exists l, read_frame max io = ({| stdin := l; stdout := stdout io; faults := faults io |}, Ok (Some payload)) /\
    no_errors l /\ input_bytes l = rest.
Proof.
  intros Hm Hp Hok Hb. unfold frame_of in Hb. set (header := u32_to_be_bytes (Z.of_nat (length payload))) in Hb.
  assert (Hh : u32_from_be_bytes header = Z.of_nat (length payload)) by (apply u32_be_round_trip; lia).
  change header with ([Z.shiftr (Z.of_nat (length payload)) 24] ++ tail header) in Hb, Hh.
  rewrite <- !app_assoc in Hb. unfold read_frame.
  destruct (stdin_read_done io _ _ Hok Hb) as (l1 & H1 & Hl1 & Hb1). cbn [length] in H1. rewrite H1. cbv iota.
  destruct (stdin_read_done {| stdin := l1; stdout := stdout io; faults := faults io |} (tail header) _ Hl1 Hb1)
    as (l2 & H2 & Hl2 & Hb2). cbn [stdout faults] in H2. change (length (tail header)) with 3%nat in H2.
  unfold bind at 1, mut_map_err at 1. rewrite H2. cbv beta iota zeta. cbn [map_err]. rewrite Hh.
  replace (Z.of_nat (length payload) =? 0) with false by lia.
  replace (max <? Z.of_nat (length payload)) with false by lia. rewrite Nat2Z.id.
  destruct (stdin_read_done {| stdin := l2; stdout := stdout io; faults := faults io |} payload rest Hl2 Hb2)
    as (l3 & H3 & Hl3 & Hb3). cbn [stdout faults] in H3.
  unfold bind, mut_map_err. rewrite H3. by exists l3.
Qed.

Lemma read_frame_end max io :
  no_errors (stdin io) -> input_bytes (stdin io) = [] -> read_frame max io = ({| stdin := []; stdout := stdout io; faults := faults io |}, Ok None).
Proof.
  intros Hok Hb. unfold read_frame, stdin_read_exact.
  assert (Hi : forall l, no_errors l -> input_bytes l = [] -> input_exact 1 l = ([], Err Io_UnexpectedEof)).
  { induction l as [| [chunk | e] l IH]; intros Hl Hbl; [done | |].
    - apply Forall_cons in Hl as [_ Hl]. change (chunk ++ input_bytes l = []) in Hbl.
      apply app_eq_nil in Hbl as [-> Hbl]. cbn [input_exact]. simpl length. cbn [Nat.leb Nat.sub].
      by rewrite (IH Hl Hbl).
    - apply Forall_cons in Hl as [He _]. discriminate. }
  by rewrite (Hi _ Hok Hb).
Qed.

Lemma read_frame_takes max io io' r :
  read_frame max io = (io', r) ->
  stdout io' = stdout io /\ faults io' = faults io /\
  (length (input_bytes (stdin io')) <= length (input_bytes (stdin io)))%nat /\
  (forall p, r = Ok (Some p) -> (length (input_bytes (stdin io')) < length (input_bytes (stdin io)))%nat).
Proof.
  unfold read_frame. destruct (stdin_read_exact 1 io) as [io1 r1] eqn:H1.
  apply stdin_read_takes in H1 as (Ho1 & Hf1 & Hl1 & Ht1). destruct r1 as [first | e].
  2: { destruct e; intros [= <- <-]; split_and!; congruence || lia || done. }
  specialize (Ht1 _ eq_refl). unfold bind at 1, mut_map_err at 1.
  destruct (stdin_read_exact 3 io1) as [io2 r2] eqn:H2. apply stdin_read_takes in H2 as (Ho2 & Hf2 & Hl2 & _).
  destruct r2 as [tl | e]; cbn [map_err];
    [| intros [= <- <-]; split_and!; congruence || lia || done].
  destruct (_ =? 0); [intros [= <- <-]; split_and!; congruence || lia || done |].
  destruct (_ <? _); [intros [= <- <-]; split_and!; congruence || lia || done |].
  unfold bind, mut_map_err. destruct (stdin_read_exact _ io2) as [io3 r3] eqn:H3.
  apply stdin_read_takes in H3 as (Ho3 & Hf3 & Hl3 & _).
  destruct r3; intros [= <- <-]; split_and!; congruence || lia || done.
Qed.

(** ** Writing a frame *)

Lemma write_frame_done max io payload :
  max <= u32_max -> 1 <= Z.of_nat (length payload) <= max -> faults io = [] ->
  write_frame max payload io =
    ({| stdin := stdin io; stdout := stdout io ++ frame_of payload; faults := [] |}, Ok tt).
Proof.
  intros Hm Hp Hf. unfold write_frame, ensure_payload_size, bind, lift.
  replace (length payload =? 0)%nat with false by (symmetry; apply Nat.eqb_neq; lia).
  replace (max <? Z.of_nat (length payload)) with false by lia. cbn [ok_or].
  unfold checked_u32. replace (in_u32 (Z.of_nat (length payload))) with true by width. cbn [ok_or].
  unfold mut_map_err, bind, stdout_write_all. rewrite Hf. cbn [head faults tail stdout stdin map_err].
  by rewrite app_nil_r, <- app_assoc.
Qed.

Lemma stdout_write_input bytes io io' r : stdout_write_all bytes io = (io', r) -> stdin io' = stdin io.
Proof. unfold stdout_write_all. destruct (head (faults io)) as [[[n e] |] |]; by intros [= <- _]. Qed.

Lemma write_frame_input max payload : preserves stdin (write_frame max payload).
Proof.
  unfold write_frame. apply preserves_bind; [apply preserves_read_only; solve_effects |]. intros _.
  apply preserves_bind; [apply preserves_read_only; solve_effects |]. intros n io io' r.
  unfold mut_map_err, bind. destruct (stdout_write_all _ io) as [io1 [[] | e]] eqn:H1; apply stdout_write_input in H1;
    [| intros [= <- _]; done].
  destruct (stdout_write_all payload io1) as [io2 [[] | e]] eqn:H2; apply stdout_write_input in H2;
    [| intros [= <- _]; congruence].
  destruct (stdout_write_all [] io2) as [io3 x] eqn:H3; apply stdout_write_input in H3. intros [= <- _]. congruence.
Qed.

(** ** The loop *)

Section Loop.
Context `{HelperLaws} {C : Type} (collect : C -> Request -> C * result Snapshot Error).

(** The reference: the reply payloads for request payloads, in order, up to a
    reply that cannot be encoded. *)
Fixpoint answers (c : C) (ps : list (list Z)) : C * list (list Z) * result unit FrameError :=
  match ps with
  | [] => (c, [], Ok tt)
  | p :: ps =>
      let '(c1, reply) := answer collect c p in
      match encode_reply reply with
      | Err e => (c1, [], Err e)
      | Ok out => let '(c2, outs, r) := answers c1 ps in (c2, out :: outs, r)
      end
  end.

(** The generation a request frame is answered with. *)
Definition generation_of (payload : list Z) : Z :=
  match decode_request payload with Ok request => request_generation request | Err _ => 0 end.

Lemma answer_generation c p c' reply : answer collect c p = (c', reply) -> reply_generation reply = generation_of p.
Proof.
  unfold answer, generation_of. destruct (decode_request p) as [request | e].
  - destruct (collect c request) as [c1 [s | e]]; intros [= <- <-];
      [apply generation_of_snapshot | apply generation_of_error].
  - intros [= <- <-]. apply generation_of_error.
Qed.

Lemma answers_sendable ps : forall c c' outs r,
  answers c ps = (c', outs, r) -> Forall (fun p => 1 <= Z.of_nat (length p) <= frame_max) outs.
Proof.
  induction ps as [| p ps IH]; intros c c' outs r; cbn [answers]; [by intros [= <- <- <-] |].
  destruct (answer collect c p) as [c1 reply]. destruct (encode_reply reply) as [out | e] eqn:He;
    [| by intros [= <- <- <-]].
  destruct (answers c1 ps) as [[c2 outs2] r2] eqn:Ha. intros [= <- <- <-].
  constructor; [by eapply encoded_sendable | by eapply IH].
Qed.

Lemma serve_answers ps : forall c io fuel,
  Forall (fun p => 1 <= Z.of_nat (length p) <= frame_max) ps ->
  no_errors (stdin io) -> input_bytes (stdin io) = concat (map frame_of ps) -> faults io = [] ->
  (length ps < fuel)%nat ->
  forall c' outs r, answers c ps = (c', outs, r) ->
  exists io', serve_stdio collect fuel c io = Some (c', (io', r)) /\
    stdout io' = stdout io ++ concat (map frame_of outs).
Proof.
  pose proof frame_max_u32 as Hmax.
  induction ps as [| p ps IH]; intros c io fuel Hps Hok Hb Hf Hfuel c' outs r Ha;
    (destruct fuel as [| fuel]; [simpl in Hfuel; lia |]); cbn [serve_stdio answers] in *.
  - rewrite read_frame_end by done. injection Ha as <- <- <-. eexists. split; [done |]. simpl. by rewrite app_nil_r.
  - apply Forall_cons in Hps as [Hp Hps]. cbn [map concat] in Hb.
    destruct (helper_read_frame_done frame_max io p _ (proj2 Hmax) Hp Hok Hb) as (l & Hr & Hl & Hbl). rewrite Hr.
    destruct (answer collect c p) as [c1 reply]. unfold write_reply, bind at 1, lift.
    destruct (encode_reply reply) as [out | e] eqn:He.
    2: { injection Ha as <- <- <-. eexists. split; [done |]. simpl. by rewrite app_nil_r. }
    rewrite write_frame_done; [| lia | by eapply encoded_sendable | done].
    destruct (answers c1 ps) as [[c2 outs2] r2] eqn:Ha2. injection Ha as <- <- <-.
    edestruct (IH c1 {| stdin := l; stdout := stdout io ++ frame_of out; faults := [] |} fuel)
      as (io' & Hs & Ho); [done | done | exact Hbl | done | simpl in Hfuel; lia | exact Ha2 |].
    exists io'. split; [exact Hs |]. rewrite Ho. cbn. by rewrite <- app_assoc.
Qed.

(** The helper's loop ends on any input, framed or not, with or without I/O
    errors, and whatever the output does: as many rounds as the input has
    bytes, and one, are enough, since a round that goes on has consumed a
    frame. *)
Theorem helper_loop_terminates c io fuel :
  (length (input_bytes (stdin io)) < fuel)%nat ->
  exists c' io' r, serve_stdio collect fuel c io = Some (c', (io', r)).
Proof.
  revert c io. induction fuel as [| fuel IH]; intros c io Hfuel; [lia |]. cbn [serve_stdio].
  destruct (read_frame frame_max io) as [io1 [[p |] | e]] eqn:Hr; [| by repeat eexists..].
  apply read_frame_takes in Hr as (_ & _ & _ & Ht). specialize (Ht p eq_refl).
  destruct (answer collect c p) as [c1 reply].
  destruct (write_reply reply io1) as [io2 [[] | e]] eqn:Hw; [| by repeat eexists].
  apply IH. assert (Hin : preserves stdin (write_reply reply)).
  { unfold write_reply. apply preserves_bind; [apply preserves_read_only; solve_effects | intros; apply write_frame_input]. }
  rewrite (Hin _ _ _ Hw). lia.
Qed.

(** C33: Every request frame is answered by one reply frame, in order: on
    requests framed on standard input in any chunks, the loop writes the
    replies of the reference [answers] and ends as it does; a client that
    splits the output into frames and decodes them gets, for each request, a
    reply with the generation of that request ([0] for one that does not
    decode), and if the loop ends well it gets one for every request. *)
Theorem helper_answers_in_order ps c io fuel :
  (forall reply out, encode_reply reply = Ok out ->
     exists reply', decode_reply out = Ok reply' /\ reply_generation reply' = reply_generation reply) ->
  Forall (fun p => 1 <= Z.of_nat (length p) <= frame_max) ps ->
  no_errors (stdin io) -> input_bytes (stdin io) = concat (map frame_of ps) -> faults io = [] ->
  (length ps < fuel)%nat ->
  exists c' io' outs r,
    answers c ps = (c', outs, r) /\ serve_stdio collect fuel c io = Some (c', (io', r)) /\
    stdout io' = stdout io ++ concat (map frame_of outs) /\
    Forall2 (fun p out => exists reply, decode_reply out = Ok reply /\ reply_generation reply = generation_of p)
      (take (length outs) ps) outs /\
    (r = Ok tt -> length outs = length ps).
Proof.
  intros Hdecode Hps Hok Hb Hf Hfuel.
  destruct (answers c ps) as [[c' outs] r] eqn:Ha.
  destruct (serve_answers ps c io fuel Hps Hok Hb Hf Hfuel _ _ _ Ha) as (io' & Hs & Ho).
  exists c', io', outs, r. split_and!; [done | done | done | |]; clear - Hdecode Ha H0; revert c c' outs r Ha.
  - induction ps as [| p ps IH]; intros c c' outs r Ha; cbn [answers] in Ha; [by injection Ha as <- <- <- |].
    destruct (answer collect c p) as [c1 reply] eqn:Hans.
    destruct (encode_reply reply) as [out | e] eqn:He; [| by injection Ha as <- <- <-].
    destruct (answers c1 ps) as [[c2 outs2] r2] eqn:Ha2. injection Ha as <- <- <-. cbn.
    constructor; [| by eapply IH]. destruct (Hdecode _ _ He) as (reply' & Hd & Hg).
    exists reply'. split; [done |]. rewrite Hg. by eapply answer_generation.
  - induction ps as [| p ps IH]; intros c c' outs r Ha Hr; cbn [answers] in Ha; [by injection Ha as <- <- <- |].
    destruct (answer collect c p) as [c1 reply] eqn:Hans.
    destruct (encode_reply reply) as [out | e] eqn:He; [| injection Ha as <- <- <-; discriminate].
    destruct (answers c1 ps) as [[c2 outs2] r2] eqn:Ha2. injection Ha as <- <- <-. cbn. f_equal. by eapply IH.
Qed.
End Loop.
