(* ===== verification/NetworkSampler.v ===== *)
(** [crates/network]: the types of [lib.rs], the rates and events of
    [sampler.rs], the per-application counters and the kernel support check of
    [core.rs], and [collect_per_application] of [lib.rs].

    A [Duration] is its nanoseconds. [f64] is a parameter (class [Float64]).
    A [HashSet] or [HashMap] iterates in an order of its own: the events of one
    observation that come from such an iteration have no order of their own. *)
From S2P Require Import Prelude.

Class Float64 := {
  f64 : Type;
  as_f64 : Z -> f64;              (* [as f64] of an integer *)
  as_secs_f64 : Z -> f64;         (* [Duration::as_secs_f64] *)
  f64_div : f64 -> f64 -> f64;
  f64_sum : list f64 -> f64;      (* [Iterator::sum] *)
  f64_le_zero : f64 -> bool;      (* [x <= 0.0] *)
}.

(** What the code relies on: a positive duration has a positive number of
    seconds (the smallest is 1e-9), and zero has not. *)
Class Float64Laws `{Float64} : Prop :=
  as_secs_sign : forall d, 0 <= d -> f64_le_zero (as_secs_f64 d) = (d =? 0).

(** ** lib.rs *)

Inductive CapabilityStatus := Healthy | Degraded | Unsupported | Unreachable.
#[export] Instance CapabilityStatus_eq_dec : EqDecision CapabilityStatus.
Proof. solve_decision. Defined.

Record CapabilityState := { cap_status : CapabilityStatus; cap_reason : string }.
Definition healthy (reason : string) : CapabilityState := {| cap_status := Healthy; cap_reason := reason |}.
Definition degraded (reason : string) : CapabilityState := {| cap_status := Degraded; cap_reason := reason |}.
Definition unsupported (reason : string) : CapabilityState := {| cap_status := Unsupported; cap_reason := reason |}.

Inductive InterfaceKind := Physical | Loopback | Tunnel | Virtual.
#[export] Instance InterfaceKind_eq_dec : EqDecision InterfaceKind.
Proof. solve_decision. Defined.

Inductive CounterWidth := Bits32 | Bits64.
#[export] Instance CounterWidth_eq_dec : EqDecision CounterWidth.
Proof. solve_decision. Defined.

Record LinkCounters := { rx_bytes : Z; tx_bytes : Z; width : CounterWidth }.

(** [InterfaceId]: index and name; a pair, for its decidable order and
    countability. *)
Abbreviation InterfaceId := (Z * string)%type.
Abbreviation id_index := (fst : InterfaceId -> Z).
Abbreviation id_name := (snd : InterfaceId -> string).

Record RawInterface := {
  id : InterfaceId;
  kind : InterfaceKind;
  kernel_kind : option string;
  is_up : bool;
  carrier_up : bool;
  counters : option LinkCounters;
}.

Inductive RateState := Known | WarmingUp | SamplingGap | CounterResetOrWrap | CountersUnavailable.
#[export] Instance RateState_eq_dec : EqDecision RateState.
Proof. solve_decision. Defined.

Inductive InterfaceTransition :=
| Stable | FirstObservation | HotplugAdded | Transition_SamplingGap
| Transition_CounterResetOrWrap | Transition_CountersUnavailable.
#[export] Instance InterfaceTransition_eq_dec : EqDecision InterfaceTransition.
Proof. solve_decision. Defined.

Inductive NetworkEvent :=
| InterfaceAdded (id : InterfaceId)
| InterfaceRemoved (id : InterfaceId)
| InterfaceRenamed (index : Z) (previous_name current_name : string)
| Event_CounterResetOrWrap (id : InterfaceId)
| Event_SamplingGap.

Record ByteTotals := { total_rx : Z; total_tx : Z }.
Definition no_bytes : ByteTotals := {| total_rx := 0; total_tx := 0 |}.
Definition ByteTotals_add (t : ByteTotals) (c : LinkCounters) : ByteTotals :=
  {| total_rx := sat_u64 (total_rx t + rx_bytes c); total_tx := sat_u64 (total_tx t + tx_bytes c) |}.

Record TrafficTotals := {
  all_interfaces : ByteTotals; physical : ByteTotals; loopback : ByteTotals;
  tunnel : ByteTotals; other_virtual : ByteTotals;
}.

Inductive LayeredAccounting := NotDetected | PossibleVpnUnderlayDoubleCounting.

Record NetworkCoverage := {
  reported_interfaces : Z; interfaces_with_counters : Z;
  includes_loopback : bool; includes_tunnels : bool;
  layered_accounting : LayeredAccounting; coverage_reason : string;
}.

Record ApplicationTraffic := { app_key : string; app_rx : Z; app_tx : Z }.

(** ** core.rs *)

Definition MAX_CGROUP_TRAFFIC_RECORDS : Z := 4096.
Definition MAX_APPLICATION_TRAFFIC_RECORDS : Z := 1024.
Definition MAX_APPLICATION_KEY_BYTES : Z := 512.
Definition CAP_NET_ADMIN : Z := 12.
Definition CAP_BPF : Z := 39.

Record CoreProbeFacts := {
  effective_uid : Z;
  effective_capabilities : option Z;
  unprivileged_bpf_disabled : option Z;
  kernel_btf_available : bool;
  libbpf_available : bool;
  collector_built : bool;
  collector_attached : bool;
}.

Definition assess_core_support (facts : CoreProbeFacts) : CapabilityState :=
  let has bit capabilities := negb (Z.land capabilities (Z.shiftl 1 bit) =? 0) in
  let privileged :=
    (effective_uid facts =? 0)
    || is_some_and (fun c => has CAP_BPF c && has CAP_NET_ADMIN c) (effective_capabilities facts) in
  if negb privileged && eqb (unprivileged_bpf_disabled facts) (Some 2)
  then unsupported "unprivileged_bpf_permanently_disabled"
  else if negb (kernel_btf_available facts) then unsupported "kernel_btf_unavailable"
  else if negb (libbpf_available facts) then unsupported "libbpf_runtime_unavailable"
  else if negb (collector_built facts) then unsupported "core_cgroup_collector_not_built"
  else if negb (collector_attached facts) then degraded "core_cgroup_collector_not_attached"
  else healthy "core_cgroup_collector_attached".

Record CgroupTraffic := { cgroup_id : Z; application_key : string; cgroup_rx : Z; cgroup_tx : Z }.

(** A [PerAppCollectorError] is its reason. The loop over the records: the
    cgroups seen, and the totals of each application. *)
Fixpoint aggregate_loop (seen_cgroups : gset Z) (applications : gmap string (Z * Z)) (records : list CgroupTraffic)
  : result (gmap string (Z * Z)) string :=
  match records with
  | [] => Ok applications
  | record :: records =>
      fail_if cgroup_id record =? 0 with "per_app_cgroup_id_invalid"%string in
      fail_if bool_decide (cgroup_id record ∈ seen_cgroups) with "per_app_cgroup_id_duplicate"%string in
      fail_if is_empty (application_key record) || (MAX_APPLICATION_KEY_BYTES <? len (application_key record))
              || contains_byte nul (application_key record)
        with "per_app_application_key_invalid"%string in
      let totals := default (0, 0) (applications !! application_key record) in
      let? rx := ok_or "per_app_counter_overflow"%string (checked_u64 (totals.1 + cgroup_rx record)) in
      let? tx := ok_or "per_app_counter_overflow"%string (checked_u64 (totals.2 + cgroup_tx record)) in
      aggregate_loop ({[cgroup_id record]} ∪ seen_cgroups) (<[application_key record := (rx, tx)]> applications) records
  end.

(** A [BTreeMap<String, _>] lists its entries in the order of the keys. *)
Definition key_le (a b : string * (Z * Z)) : Prop := String.leb a.1 b.1 = true.
#[export] Instance key_le_dec a b : Decision (key_le a b).
Proof. unfold key_le. apply _. Defined.

Definition aggregate_cgroup_traffic (records : list CgroupTraffic) : result (list ApplicationTraffic) string :=
  fail_if MAX_CGROUP_TRAFFIC_RECORDS <? Z.of_nat (length records) with "per_app_cgroup_record_limit_exceeded"%string in
  let? applications := aggregate_loop ∅ ∅ records in
  fail_if MAX_APPLICATION_TRAFFIC_RECORDS <? Z.of_nat (size applications)
    with "per_app_application_record_limit_exceeded"%string in
  Ok (map (fun e => {| app_key := e.1; app_rx := e.2.1; app_tx := e.2.2 |})
        (merge_sort key_le (map_to_list applications))).

(** ** sampler.rs *)

Section Sampler.
Context `{Float64}.

Record TrafficRate := {
  rx_bytes_per_second : option f64;
  tx_bytes_per_second : option f64;
  rate_state : RateState;
  rate_reason : string;
}.
Definition rate_unavailable (state : RateState) (reason : string) : TrafficRate :=
  {| rx_bytes_per_second := None; tx_bytes_per_second := None; rate_state := state; rate_reason := reason |}.

Record InterfaceTraffic := { interface : RawInterface; rate : TrafficRate; transition : InterfaceTransition }.

Record NetworkSnapshot := {
  snapshot_boottime : Z;
  system_traffic : CapabilityState;
  per_application : CapabilityState;
  coverage : NetworkCoverage;
  totals : TrafficTotals;
  snapshot_rate : TrafficRate;
  interfaces : list InterfaceTraffic;
  applications : list ApplicationTraffic;
  events : list NetworkEvent;
}.

Definition MAXIMUM_RATE_INTERVAL_DEFAULT : Z := 5 * 1000000000.

Record BaselineCounters := { observed_boottime : Z; baseline : LinkCounters }.

Record NetworkSampler := {
  maximum_rate_interval : Z;
  baselines : gmap InterfaceId BaselineCounters;
  names_by_index : gmap Z string;
  previous_ids : gset InterfaceId;
  observed_once : bool;
  previous_observed_boottime : option Z;
}.

Definition NetworkSampler_new (maximum_rate_interval : Z) : NetworkSampler :=
  {| maximum_rate_interval := maximum_rate_interval; baselines := ∅; names_by_index := ∅; previous_ids := ∅;
     observed_once := false; previous_observed_boottime := None |}.

Definition reset (s : NetworkSampler) : NetworkSampler := NetworkSampler_new (maximum_rate_interval s).

(** [Duration::checked_sub]. *)
Definition checked_sub (a b : Z) : option Z := if b <=? a then Some (a - b) else None.

Definition interface_rate (iface : RawInterface) (previous : option BaselineCounters) (now : Z)
    (observed_once sampling_gap : bool) : TrafficRate * InterfaceTransition :=
  match counters iface with
  | None => (rate_unavailable CountersUnavailable "interface_counters_missing", Transition_CountersUnavailable)
  | Some current =>
      match previous with
      | None => (rate_unavailable WarmingUp "interface_baseline_missing",
                 if observed_once then HotplugAdded else FirstObservation)
      | Some previous =>
          if sampling_gap
          then (rate_unavailable SamplingGap "sampling_or_suspend_gap", Transition_SamplingGap)
          else
            match checked_sub now (observed_boottime previous) with
            | None => (rate_unavailable SamplingGap "boottime_not_monotonic", Transition_SamplingGap)
            | Some elapsed =>
                let seconds := as_secs_f64 elapsed in
                if f64_le_zero seconds
                then (rate_unavailable SamplingGap "sample_interval_zero", Transition_SamplingGap)
                else if negb (eqb (width current) (width (baseline previous)))
                        || (rx_bytes current <? rx_bytes (baseline previous))
                        || (tx_bytes current <? tx_bytes (baseline previous))
                then (rate_unavailable CounterResetOrWrap "counter_reset_or_native_width_wrap",
                      Transition_CounterResetOrWrap)
                else
                  ({| rx_bytes_per_second :=
                        Some (f64_div (as_f64 (rx_bytes current - rx_bytes (baseline previous))) seconds);
                      tx_bytes_per_second :=
                        Some (f64_div (as_f64 (tx_bytes current - tx_bytes (baseline previous))) seconds);
                      rate_state := Known; rate_reason := "rate_from_monotonic_counter_delta" |}, Stable)
            end
      end
  end.

(** One round of the loop over the interfaces: the totals, and what was seen. *)
Record CoverageScan := {
  scan_totals : TrafficTotals; with_counters : Z;
  physical_present : bool; loopback_present : bool; tunnel_present : bool;
}.

Definition add_by_kind (k : InterfaceKind) (c : LinkCounters) (t : TrafficTotals) : TrafficTotals :=
  {| all_interfaces := ByteTotals_add (all_interfaces t) c;
     physical := if eqb k Physical then ByteTotals_add (physical t) c else physical t;
     loopback := if eqb k Loopback then ByteTotals_add (loopback t) c else loopback t;
     tunnel := if eqb k Tunnel then ByteTotals_add (tunnel t) c else tunnel t;
     other_virtual := if eqb k Virtual then ByteTotals_add (other_virtual t) c else other_virtual t |}.

Definition scan_interface (s : CoverageScan) (i : InterfaceTraffic) : CoverageScan :=
  let k := kind (interface i) in
  {| scan_totals := match counters (interface i) with
                    | Some c => add_by_kind k c (scan_totals s) | None => scan_totals s end;
     with_counters := with_counters s + (if is_some (counters (interface i)) then 1 else 0);
     physical_present := physical_present s || eqb k Physical;
     loopback_present := loopback_present s || eqb k Loopback;
     tunnel_present := tunnel_present s || eqb k Tunnel |}.

Definition empty_scan : CoverageScan :=
  {| scan_totals := {| all_interfaces := no_bytes; physical := no_bytes; loopback := no_bytes;
                       tunnel := no_bytes; other_virtual := no_bytes |};
     with_counters := 0; physical_present := false; loopback_present := false; tunnel_present := false |}.

Definition totals_and_coverage (l : list InterfaceTraffic) : TrafficTotals * NetworkCoverage * CapabilityState :=
  let s := fold_left scan_interface l empty_scan in
  let complete := with_counters s =? Z.of_nat (length l) in
  (scan_totals s,
   {| reported_interfaces := Z.of_nat (length l);
      interfaces_with_counters := with_counters s;
      includes_loopback := loopback_present s;
      includes_tunnels := tunnel_present s;
      layered_accounting := if physical_present s && tunnel_present s
                            then PossibleVpnUnderlayDoubleCounting else NotDetected;
      coverage_reason := if complete then "all_reported_interfaces_have_counters"
                         else "some_interface_counters_missing" |},
   if (length l =? 0)%nat then degraded "rtnetlink_no_interfaces_reported"
   else if complete then healthy "rtnetlink_system_counters_available"
   else degraded "rtnetlink_interface_coverage_partial").

Definition aggregate_rate (l : list InterfaceTraffic) (sampling_gap : bool) : TrafficRate :=
  if sampling_gap then rate_unavailable SamplingGap "sampling_or_suspend_gap"
  else if (length l =? 0)%nat then rate_unavailable CountersUnavailable "no_interfaces_reported"
  else
    match List.find (fun s => negb (eqb s Known)) (map (fun i => rate_state (rate i)) l) with
    | Some state =>
        rate_unavailable state
          match state with
          | CounterResetOrWrap => "aggregate_counter_reset_or_wrap"
          | SamplingGap => "aggregate_sampling_gap"
          | CountersUnavailable => "aggregate_counters_unavailable"
          | WarmingUp => "aggregate_rate_warming_up"
          | Known => "unreachable"
          end
    | None =>
        {| rx_bytes_per_second := Some (f64_sum (omap (fun i => rx_bytes_per_second (rate i)) l));
           tx_bytes_per_second := Some (f64_sum (omap (fun i => tx_bytes_per_second (rate i)) l));
           rate_state := Known;
           rate_reason := "sum_of_complete_interface_rates_may_include_layered_traffic" |}
    end.

(** The order of [sort_by_key(index)], a stable sort. *)
Definition index_le (a b : RawInterface) : Prop := id_index (id a) <= id_index (id b).
#[export] Instance index_le_dec a b : Decision (index_le a b).
Proof. unfold index_le. apply _. Defined.

Definition has_index (index : Z) (ids : gset InterfaceId) : bool :=
  existsb (fun i => id_index i =? index) (elements ids).

(** One interface of an observation: its events, and its traffic. *)
Definition observe_interface (s : NetworkSampler) (now : Z) (sampling_gap : bool) (i : RawInterface)
  : list NetworkEvent * InterfaceTraffic :=
  let renamed :=
    match names_by_index s !! id_index (id i) with
    | Some previous_name =>
        if eqb previous_name (id_name (id i)) then []
        else [InterfaceRenamed (id_index (id i)) previous_name (id_name (id i))]
    | None => []
    end in
  let '(r, t) := interface_rate i (baselines s !! id i) now (observed_once s) sampling_gap in
  let added :=
    if observed_once s && negb (bool_decide (id i ∈ previous_ids s)) && negb (has_index (id_index (id i)) (previous_ids s))
    then [InterfaceAdded (id i)] else [] in
  let wrapped := if eqb t Transition_CounterResetOrWrap then [Event_CounterResetOrWrap (id i)] else [] in
  (renamed ++ added ++ wrapped, {| interface := i; rate := r; transition := t |}).

Definition next_baseline (now : Z) (m : gmap InterfaceId BaselineCounters) (i : RawInterface)
  : gmap InterfaceId BaselineCounters :=
  match counters i with
  | Some c => <[id i := {| observed_boottime := now; baseline := c |}]> m
  | None => m
  end.

Definition observe (s : NetworkSampler) (raw_interfaces : list RawInterface) (now : Z)
  : NetworkSampler * NetworkSnapshot :=
  let raw := merge_sort index_le raw_interfaces in
  let sampling_gap :=
    is_some_and (fun previous => is_none_or (fun elapsed => maximum_rate_interval s <? elapsed) (checked_sub now previous))
      (previous_observed_boottime s) in
  let current_ids : gset InterfaceId := list_to_set (map id raw) in
  let gap_events := if sampling_gap then [Event_SamplingGap] else [] in
  let removed_events :=
    if observed_once s
    then map InterfaceRemoved
           (List.filter (fun p => negb (bool_decide (p ∈ current_ids)) && negb (has_index (id_index p) current_ids))
              (elements (previous_ids s)))
    else [] in
  let observed := map (observe_interface s now sampling_gap) raw in
  let interfaces := map snd observed in
  let '(totals, coverage, system_traffic) := totals_and_coverage interfaces in
  ({| maximum_rate_interval := maximum_rate_interval s;
      baselines := fold_left (next_baseline now) raw ∅;
      names_by_index := fold_left (fun m i => <[id_index (id i) := id_name (id i)]> m) raw ∅;
      previous_ids := current_ids;
      observed_once := true;
      previous_observed_boottime := Some now |},
   {| snapshot_boottime := now;
      system_traffic := system_traffic;
      per_application := unsupported "per_app_collector_not_probed";
      coverage := coverage;
      totals := totals;
      snapshot_rate := aggregate_rate interfaces sampling_gap;
      interfaces := interfaces;
      applications := [];
      events := gap_events ++ removed_events ++ concat (map fst observed) |}).

(** [collect_per_application], over a collector: its capability, and what its
    [collect] gives (asked only where the code asks); [probed] is what
    [probe_core_support] finds. *)
Definition set_applications (c : CapabilityState) (apps : list ApplicationTraffic) (s : NetworkSnapshot) : NetworkSnapshot :=
  {| snapshot_boottime := snapshot_boottime s; system_traffic := system_traffic s; per_application := c;
     coverage := coverage s; totals := totals s; snapshot_rate := snapshot_rate s; interfaces := interfaces s;
     applications := apps; events := events s |}.

Definition collect_per_application (s : NetworkSnapshot)
    (collector : option (CapabilityState * result (list CgroupTraffic) string)) (probed : CapabilityState)
  : NetworkSnapshot :=
  match collector with
  | None => set_applications probed (applications s) s
  | Some (capability, collected) =>
      if contains (cap_status capability) [Unsupported; Unreachable]
      then set_applications capability [] s
      else match (let? records := collected in aggregate_cgroup_traffic records) with
           | Ok apps => set_applications capability apps s
           | Err reason => set_applications (degraded reason) [] s
           end
  end.

(** [NetworkMonitor::collect] after [boottime_now] and the rtnetlink dump. *)
Definition monitor_collect (s : NetworkSampler) (raw : list RawInterface) (now : Z)
    (collector : option (CapabilityState * result (list CgroupTraffic) string)) (probed : CapabilityState)
  : NetworkSampler * NetworkSnapshot :=
  let '(s', snapshot) := observe s raw now in
  (s', collect_per_application snapshot collector probed).
End Sampler.
