(* ===== verification/NetworkSamplerFacts.v ===== *)
(** Network sampling: a rate is reported only for two consecutive observations
    of the same interface, and is the exact counter delta; per-application
    counters are the exact sums of the collector's records or nothing. *)
From S2P Require Import Prelude NetworkSampler.

(** ** Per-application aggregation *)

(** What a key's records sum to. *)
Definition sum_of (f : CgroupTraffic -> Z) (key : string) (l : list CgroupTraffic) : Z :=
  fold_right (fun r n => (if eqb (application_key r) key then f r else 0) + n) 0 l.

Definition valid_key (key : string) : bool :=
  negb (is_empty key || (MAX_APPLICATION_KEY_BYTES <? len key) || contains_byte nul key).

(** The counters are [u64]. *)
Definition typed_record (r : CgroupTraffic) : Prop := 0 <= cgroup_rx r <= u64_max /\ 0 <= cgroup_tx r <= u64_max.

Lemma sum_of_nonneg f key l : Forall (fun r => 0 <= f r) l -> 0 <= sum_of f key l.
Proof. induction 1 as [| r l Hr Hl IH]; simpl; [lia |]. destruct (eqb _ _); lia. Qed.

(** The records the loop accepts after those of [seen] and [apps]. *)
Definition acceptable (seen : gset Z) (apps : gmap string (Z * Z)) (l : list CgroupTraffic) : Prop :=
  Forall (fun r => cgroup_id r <> 0 /\ cgroup_id r ∉ seen) l /\ NoDup (map cgroup_id l) /\
  Forall (fun r => valid_key (application_key r) = true) l /\
  Forall (fun r => (default (0, 0) (apps !! application_key r)).1 + sum_of cgroup_rx (application_key r) l <= u64_max /\
                   (default (0, 0) (apps !! application_key r)).2 + sum_of cgroup_tx (application_key r) l <= u64_max) l.

(** What the loop leaves for a key. *)
Definition key_totals (apps : gmap string (Z * Z)) (l : list CgroupTraffic) (key : string) : option (Z * Z) :=
  if existsb (fun r => eqb (application_key r) key) l || is_some (apps !! key)
  then Some ((default (0, 0) (apps !! key)).1 + sum_of cgroup_rx key l,
             (default (0, 0) (apps !! key)).2 + sum_of cgroup_tx key l)
  else None.

Lemma typed_rx l : Forall typed_record l -> Forall (fun r => 0 <= cgroup_rx r) l.
Proof. intros Hl. eapply Forall_impl; [exact Hl |]. unfold typed_record. lia. Qed.
Lemma typed_tx l : Forall typed_record l -> Forall (fun r => 0 <= cgroup_tx r) l.
Proof. intros Hl. eapply Forall_impl; [exact Hl |]. unfold typed_record. lia. Qed.

Definition totals_ok (apps : gmap string (Z * Z)) : Prop :=
  forall key t, apps !! key = Some t -> 0 <= t.1 <= u64_max /\ 0 <= t.2 <= u64_max.

Lemma totals_default apps key : totals_ok apps ->
  0 <= (default (0, 0) (apps !! key)).1 <= u64_max /\ 0 <= (default (0, 0) (apps !! key)).2 <= u64_max.
Proof.
  intros Hok. destruct (apps !! key) as [t |] eqn:Ht; [by apply (Hok key) | simpl; width].
Qed.

(** Inserting the totals of one record is what the definitions above expect. *)
Lemma insert_default (apps : gmap string (Z * Z)) key v key' :
  default (0, 0) (<[key := v]> apps !! key') = if eqb key key' then v else default (0, 0) (apps !! key').
Proof.
  destruct (eqb key key') eqn:He; [apply eqb_eq in He as ->; by rewrite lookup_insert_eq |].
  apply eqb_neq in He. by rewrite lookup_insert_ne.
Qed.

Lemma key_totals_step apps r l key :
  key_totals apps (r :: l) key =
  key_totals (<[application_key r := ((default (0, 0) (apps !! application_key r)).1 + cgroup_rx r,
                                      (default (0, 0) (apps !! application_key r)).2 + cgroup_tx r)]> apps) l key.
Proof.
  unfold key_totals. rewrite insert_default. cbn [existsb sum_of fold_right]. fold (sum_of cgroup_rx key l) (sum_of cgroup_tx key l).
  destruct (eqb (application_key r) key) eqn:He.
  - apply eqb_eq in He as <-. rewrite lookup_insert_eq. cbn [is_some orb]. rewrite orb_true_r. cbn [fst snd].
    do 2 f_equal; lia.
  - apply eqb_neq in He. rewrite lookup_insert_ne by done. cbn [orb]. by rewrite !Z.add_0_l.
Qed.

Lemma sum_of_absent f key l : Forall (fun r => application_key r <> key) l -> sum_of f key l = 0.
Proof.
  induction 1 as [| r l Hr Hl IH]; simpl; [done |]. destruct (eqb _ _) eqn:He; [by apply eqb_eq in He | lia].
Qed.

(** The totals of a key after a record, plus the rest. *)
Lemma pending_step (apps : gmap string (Z * Z)) r l key :
  let t := default (0, 0) (apps !! application_key r) in
  let apps1 := <[application_key r := (t.1 + cgroup_rx r, t.2 + cgroup_tx r)]> apps in
  (default (0, 0) (apps1 !! key)).1 + sum_of cgroup_rx key l = (default (0, 0) (apps !! key)).1 + sum_of cgroup_rx key (r :: l) /\
  (default (0, 0) (apps1 !! key)).2 + sum_of cgroup_tx key l = (default (0, 0) (apps !! key)).2 + sum_of cgroup_tx key (r :: l).
Proof.
  intros t apps1. unfold apps1. rewrite insert_default. cbn [sum_of fold_right].
  fold (sum_of cgroup_rx key l) (sum_of cgroup_tx key l).
  destruct (eqb (application_key r) key) eqn:He; [apply eqb_eq in He as <-; fold t; simpl | simpl]; lia.
Qed.

Lemma acceptable_cons seen apps r l :
  Forall typed_record l ->
  let t := default (0, 0) (apps !! application_key r) in
  let apps1 := <[application_key r := (t.1 + cgroup_rx r, t.2 + cgroup_tx r)]> apps in
  acceptable seen apps (r :: l) <->
  cgroup_id r <> 0 /\ (cgroup_id r ∉ seen) /\ valid_key (application_key r) = true /\
  t.1 + cgroup_rx r <= u64_max /\ t.2 + cgroup_tx r <= u64_max /\ acceptable ({[cgroup_id r]} ∪ seen) apps1 l.
Proof.
  intros Hty t apps1. unfold acceptable. rewrite !Forall_cons. cbn [map]. rewrite NoDup_cons.
  pose proof (pending_step apps r l) as Hstep. cbv zeta in Hstep. fold t apps1 in Hstep.
  pose proof (sum_of_nonneg cgroup_rx (application_key r) l (typed_rx _ Hty)) as Hn1.
  pose proof (sum_of_nonneg cgroup_tx (application_key r) l (typed_tx _ Hty)) as Hn2.
  assert (Hself : default (0, 0) (apps1 !! application_key r) = (t.1 + cgroup_rx r, t.2 + cgroup_tx r)).
  { unfold apps1. rewrite insert_default, eqb_refl. done. }
  assert (Hb : Forall (fun r' => (default (0, 0) (apps1 !! application_key r')).1 + sum_of cgroup_rx (application_key r') l <= u64_max /\
                        (default (0, 0) (apps1 !! application_key r')).2 + sum_of cgroup_tx (application_key r') l <= u64_max) l <->
    Forall (fun r' => (default (0, 0) (apps !! application_key r')).1 + sum_of cgroup_rx (application_key r') (r :: l) <= u64_max /\
                        (default (0, 0) (apps !! application_key r')).2 + sum_of cgroup_tx (application_key r') (r :: l) <= u64_max) l).
  { apply Forall_proper; [| done]. intros r'. destruct (Hstep (application_key r')) as [-> ->]. done. }
  rewrite Hb. destruct (Hstep (application_key r)) as [Hs1 Hs2]. rewrite Hself in Hs1, Hs2. cbn [fst snd] in Hs1, Hs2.
  fold t. split.
  - intros ([[H0 Hseen] Hids] & [Hin Hnd] & [Hk Hks] & [[Hm1 Hm2] Hms]).
    split_and!; [done | done | done | fold t in Hs1; lia | fold t in Hs2; lia | | done | done | done].
    apply Forall_forall. intros r' Hr'. rewrite Forall_forall in Hids. destruct (Hids r' Hr') as [Hz Hns]. split; [done |].
    apply not_elem_of_union. split; [| done]. rewrite elem_of_singleton. intros He. apply Hin.
    rewrite <- He. by apply list_elem_of_fmap_2.
  - intros (H0 & Hseen & Hk & Hm1 & Hm2 & Hids & Hnd & Hks & Hms).
    assert (Hids' : Forall (fun r' => cgroup_id r' <> 0 /\ cgroup_id r' ∉ seen) l /\ cgroup_id r ∉ map cgroup_id l).
    { rewrite Forall_forall in Hids. split.
      - apply Forall_forall. intros r' Hr'. specialize (Hids r' Hr'). set_solver.
      - intros Hin. apply list_elem_of_fmap in Hin as (r' & He & Hr'). specialize (Hids r' Hr'). set_solver. }
    destruct Hids' as [Hids1 Hnin]. split_and!; try done.
    + destruct (decide (Exists (fun r' => application_key r' = application_key r) l)) as [He | Hne].
      * apply Exists_exists in He as (r' & Hr' & He). rewrite Forall_forall in Hms. specialize (Hms r' Hr').
        rewrite He in Hms. apply Hms.
      * apply Forall_Exists_neg in Hne. pose proof (sum_of_absent cgroup_rx (application_key r) l Hne). fold t in Hs1. lia.
    + destruct (decide (Exists (fun r' => application_key r' = application_key r) l)) as [He | Hne].
      * apply Exists_exists in He as (r' & Hr' & He). rewrite Forall_forall in Hms. specialize (Hms r' Hr').
        rewrite He in Hms. apply Hms.
      * apply Forall_Exists_neg in Hne. pose proof (sum_of_absent cgroup_tx (application_key r) l Hne). fold t in Hs2. lia.
Qed.

Lemma aggregate_loop_ok l : forall seen apps apps',
  totals_ok apps -> Forall typed_record l ->
  aggregate_loop seen apps l = Ok apps' <->
  acceptable seen apps l /\ (forall key, apps' !! key = key_totals apps l key).
Proof.
  induction l as [| r l IH]; intros seen apps apps' Hok Hty; cbn [aggregate_loop].
  - assert (Hnil : forall key, key_totals apps [] key = apps !! key).
    { intros key. unfold key_totals. simpl. destruct (apps !! key) as [[a b] |]; simpl; [by rewrite !Z.add_0_r | done]. }
    setoid_rewrite Hnil. split.
    + intros [= <-]. split; [repeat split; constructor | done].
    + intros [_ Hk]. f_equal. by apply map_eq.
  - apply Forall_cons in Hty as [[Hr1 Hr2] Hty]. pose proof (totals_default apps (application_key r) Hok) as Hd.
    rewrite acceptable_cons by done. setoid_rewrite (key_totals_step apps r l).
    set (t := default (0, 0) (apps !! application_key r)) in *.
    set (apps1 := <[application_key r := (t.1 + cgroup_rx r, t.2 + cgroup_tx r)]> apps).
    destruct (cgroup_id r =? 0) eqn:H0; [apply Z.eqb_eq in H0; split; [discriminate | intros [[? _] _]; done] |
      apply Z.eqb_neq in H0].
    case_bool_decide as Hin; [split; [discriminate | intros [(_ & ? & _) _]; done] |].
    unfold valid_key. destruct (_ || contains_byte nul _) eqn:Hk; [split; [discriminate | intros [(_ & _ & ? & _) _]; done] |].
    unfold checked_u64. destruct (in_u64 (t.1 + cgroup_rx r)) eqn:Hx; cbn [ok_or result_bind].
    2: { split; [discriminate |]. intros [(_ & _ & _ & Hb & _) _]. width. }
    destruct (in_u64 (t.2 + cgroup_tx r)) eqn:Hy; cbn [ok_or result_bind].
    2: { split; [discriminate |]. intros [(_ & _ & _ & _ & Hb & _) _]. width. }
    fold apps1. rewrite IH; [| | done].
    + split; [intros [Ha Hkt] | intros [(_ & _ & _ & _ & _ & Ha) Hkt]; done].
      split; [| done]. split_and!; try done; width.
    + intros key t'. unfold apps1. destruct (decide (application_key r = key)) as [<- | Hne].
      * rewrite lookup_insert_eq. intros [= <-]. simpl. width.
      * rewrite lookup_insert_ne by done. apply Hok.
Qed.

Definition keys_of (records : list CgroupTraffic) : gset string := list_to_set (map application_key records).

Lemma key_totals_empty records key :
  key_totals ∅ records key =
  (if bool_decide (key ∈ keys_of records) then Some (sum_of cgroup_rx key records, sum_of cgroup_tx key records) else None).
Proof.
  unfold key_totals. rewrite lookup_empty. cbn [is_some default fst snd]. rewrite orb_false_r.
  assert (Hk : existsb (fun r => eqb (application_key r) key) records = bool_decide (key ∈ keys_of records)).
  { apply eq_true_iff_eq. rewrite existsb_exists, bool_decide_eq_true. unfold keys_of. rewrite elem_of_list_to_set, list_elem_of_fmap.
    setoid_rewrite eqb_true. setoid_rewrite <- list_elem_of_In. naive_solver. }
  by rewrite Hk.
Qed.

(** What the records must be for their totals to be reported. *)
Definition reportable (records : list CgroupTraffic) : Prop :=
  Z.of_nat (length records) <= MAX_CGROUP_TRAFFIC_RECORDS /\
  Forall (fun r => cgroup_id r <> 0) records /\ NoDup (map cgroup_id records) /\
  Forall (fun r => valid_key (application_key r) = true /\
                   sum_of cgroup_rx (application_key r) records <= u64_max /\
                   sum_of cgroup_tx (application_key r) records <= u64_max) records /\
  Z.of_nat (size (keys_of records)) <= MAX_APPLICATION_TRAFFIC_RECORDS.

Lemma acceptable_empty records : acceptable ∅ ∅ records <->
  Forall (fun r => cgroup_id r <> 0) records /\ NoDup (map cgroup_id records) /\
  Forall (fun r => valid_key (application_key r) = true /\
                   sum_of cgroup_rx (application_key r) records <= u64_max /\
                   sum_of cgroup_tx (application_key r) records <= u64_max) records.
Proof.
  unfold acceptable. rewrite !Forall_forall. setoid_rewrite lookup_empty. cbn [default fst snd].
  setoid_rewrite Z.add_0_l. set_solver.
Qed.

(** Per-application counters are exact or not reported at all: the records
    are aggregated exactly when they are few enough, name distinct cgroups,
    carry usable keys, and no application's sum passes 64 bits; then every
    application with a record is reported once, with the sums of its records,
    and no other. *)
Theorem aggregation_is_exact records :
  Forall typed_record records ->
  (is_ok (aggregate_cgroup_traffic records) = true <-> reportable records) /\
  (forall apps, aggregate_cgroup_traffic records = Ok apps ->
     NoDup (map app_key apps) /\
     forall key rx tx, {| app_key := key; app_rx := rx; app_tx := tx |} ∈ apps <->
       key ∈ keys_of records /\ rx = sum_of cgroup_rx key records /\ tx = sum_of cgroup_tx key records).
Proof.
  intros Hty. unfold aggregate_cgroup_traffic, reportable.
  assert (Hok : totals_ok ∅) by (intros key t; by rewrite lookup_empty).
  destruct (MAX_CGROUP_TRAFFIC_RECORDS <? _) eqn:Hlen; [split; [split; [discriminate | lia] | discriminate] |].
  destruct (aggregate_loop ∅ ∅ records) as [m | e] eqn:Hl.
  2: { split; [| discriminate]. split; [discriminate |]. intros (_ & H1 & H2 & H3 & _).
       assert (Hacc : acceptable ∅ ∅ records) by (by apply acceptable_empty).
       exfalso. set (m := list_to_map (map (fun k => (k, (sum_of cgroup_rx k records, sum_of cgroup_tx k records)))
                             (elements (keys_of records))) : gmap string (Z * Z)).
       assert (Hm : aggregate_loop ∅ ∅ records = Ok m); [| congruence].
       apply aggregate_loop_ok; [done | done |]. split; [done |]. intros key. rewrite key_totals_empty. unfold m.
       case_bool_decide as Hk.
       - apply elem_of_list_to_map_1; [| apply list_elem_of_fmap; exists key; split; [done | by apply elem_of_elements]].
         rewrite <- list_fmap_compose. change (NoDup (map (fun k => k) (elements (keys_of records)))). rewrite map_id.
         apply NoDup_elements.
       - apply not_elem_of_list_to_map_1. rewrite <- list_fmap_compose.
         change (key ∉ map (fun k => k) (elements (keys_of records))). by rewrite map_id, elem_of_elements. }
  apply aggregate_loop_ok in Hl as [Hacc Hkt]; [| done | done]. apply acceptable_empty in Hacc as (H1 & H2 & H3).
  assert (Hdom : size m = size (keys_of records)).
  { rewrite <- (size_dom m). f_equal. apply set_eq. intros key. rewrite elem_of_dom, Hkt, key_totals_empty.
    case_bool_decide; [by split; [| intros; eexists] | split; [intros [? [=]] | done]]. }
  cbn [result_bind]. rewrite Hdom. destruct (MAX_APPLICATION_TRAFFIC_RECORDS <? _) eqn:Happ.
  { split; [split; [discriminate | lia] | discriminate]. }
  split; [split; [intros _; split_and!; first [done | lia] | done] |].
  intros apps [= <-]. split.
  - rewrite map_map. cbn [app_key]. change (NoDup (map fst (merge_sort key_le (map_to_list m)))).
    rewrite merge_sort_Permutation. apply NoDup_fst_map_to_list.
  - intros key rx tx. rewrite list_elem_of_fmap. setoid_rewrite merge_sort_Permutation.
    assert (Hm : m !! key = Some (rx, tx) <-> key ∈ keys_of records /\ rx = sum_of cgroup_rx key records /\ tx = sum_of cgroup_tx key records).
    { rewrite Hkt, key_totals_empty. case_bool_decide; naive_solver. }
    rewrite <- Hm, <- elem_of_map_to_list. split.
    + intros ([k [a b]] & [= -> -> ->] & Hin). exact Hin.
    + intros Hin. by exists (key, (rx, tx)).
Qed.

(** ** Rates *)

Section Rates.
Context `{Float64Laws}.

(** An observation: what the kernel reported, and when. *)
Abbreviation observation := (list RawInterface * Z)%type.

Definition after (interval : Z) (history : list (list RawInterface * Z)) : NetworkSampler :=
  fold_left (fun s o => fst (observe s o.1 o.2)) history (NetworkSampler_new interval).

Lemma observe_state s raw now :
  maximum_rate_interval (fst (observe s raw now)) = maximum_rate_interval s /\
  baselines (fst (observe s raw now)) = fold_left (next_baseline now) (merge_sort index_le raw) ∅ /\
  previous_observed_boottime (fst (observe s raw now)) = Some now.
Proof. unfold observe. destruct (totals_and_coverage _) as [[t c] y]. done. Qed.

Lemma after_interval interval history : maximum_rate_interval (after interval history) = interval.
Proof.
  unfold after. induction history as [| o history IH] using rev_ind; [done |].
  rewrite fold_left_app. etrans; [apply observe_state | exact IH].
Qed.

Lemma after_last interval history raw now :
  baselines (after interval (history ++ [(raw, now)])) = fold_left (next_baseline now) (merge_sort index_le raw) ∅ /\
  previous_observed_boottime (after interval (history ++ [(raw, now)])) = Some now.
Proof. unfold after. rewrite fold_left_app. apply observe_state. Qed.

Lemma next_baseline_lookup now l : NoDup (map id l) -> forall m k b,
  (forall i, i ∈ l -> m !! id i = None) ->
  fold_left (next_baseline now) l m !! k = Some b <->
  m !! k = Some b \/ exists j c, j ∈ l /\ id j = k /\ counters j = Some c /\ b = {| observed_boottime := now; baseline := c |}.
Proof.
  induction l as [| j l IH]; intros Hnd m k b Hm; cbn [fold_left].
  - split; [by left |]. intros [? | (j & c & Hj & _)]; [done | inversion Hj].
  - cbn [map] in Hnd. apply NoDup_cons in Hnd as [Hj Hnd].
    assert (Hne : forall i, i ∈ l -> id j <> id i) by (intros i Hi Heq; apply Hj; rewrite Heq; by apply list_elem_of_fmap_2).
    rewrite IH; [| done |].
    2: { intros i Hi. unfold next_baseline. destruct (counters j); [rewrite lookup_insert_ne by (by apply Hne) |];
         by apply Hm, list_elem_of_further. }
    assert (Hmj : m !! id j = None) by (apply Hm; left). unfold next_baseline.
    destruct (counters j) as [c |] eqn:Hc.
    + destruct (decide (id j = k)) as [<- | Hk].
      * rewrite lookup_insert_eq, Hmj. split.
        -- intros [[= <-] | (i & c' & Hi & Hid & _)]; [right; exists j, c; split_and!; [left | done | done | done] |].
           by apply Hne in Hi.
        -- intros [[=] | (i & c' & Hi & Hid & Hc' & ->)]. apply elem_of_cons in Hi as [-> | Hi]; [left; congruence |].
           by apply Hne in Hi.
      * rewrite lookup_insert_ne by done. setoid_rewrite elem_of_cons. naive_solver.
    + setoid_rewrite elem_of_cons. naive_solver.
Qed.

(** The rate a pair of counters of one interface gives. *)
Definition delta_rate (c0 c : LinkCounters) (elapsed : Z) : TrafficRate :=
  {| rx_bytes_per_second := Some (f64_div (as_f64 (rx_bytes c - rx_bytes c0)) (as_secs_f64 elapsed));
     tx_bytes_per_second := Some (f64_div (as_f64 (tx_bytes c - tx_bytes c0)) (as_secs_f64 elapsed));
     rate_state := Known; rate_reason := "rate_from_monotonic_counter_delta" |}.

Lemma interface_rate_known i previous now once gap r t :
  interface_rate i previous now once gap = (r, t) ->
  rate_state r = Known <->
  gap = false /\ exists c p, counters i = Some c /\ previous = Some p /\ observed_boottime p < now /\
    width c = width (baseline p) /\ rx_bytes (baseline p) <= rx_bytes c /\ tx_bytes (baseline p) <= tx_bytes c /\
    r = delta_rate (baseline p) c (now - observed_boottime p).
Proof.
  unfold interface_rate. destruct (counters i) as [c |]; [| intros [= <- <-]; simpl; naive_solver].
  destruct previous as [p |]; [| intros [= <- <-]; simpl; naive_solver].
  destruct gap; [intros [= <- <-]; simpl; naive_solver |].
  unfold checked_sub. destruct (observed_boottime p <=? now) eqn:Hle.
  2: { intros [= <- <-]. simpl. split; [done |]. intros (_ & c' & p' & [= <-] & [= <-] & Hlt & _). lia. }
  rewrite as_secs_sign by lia. destruct (now - observed_boottime p =? 0) eqn:Hz.
  { intros [= <- <-]. simpl. split; [done |]. intros (_ & c' & p' & [= <-] & [= <-] & Hlt & _). lia. }
  destruct (eqb (width c) _) eqn:Hw; cbn [negb orb];
    [apply eqb_eq in Hw | apply eqb_neq in Hw; intros [= <- <-]; simpl; naive_solver].
  destruct (rx_bytes c <? _) eqn:Hr; cbn [orb].
  { intros [= <- <-]. simpl. split; [done |]. intros (_ & c' & p' & [= <-] & [= <-] & _ & _ & Hx & _). lia. }
  destruct (tx_bytes c <? _) eqn:Ht.
  { intros [= <- <-]. simpl. split; [done |]. intros (_ & c' & p' & [= <-] & [= <-] & _ & _ & _ & Hx & _). lia. }
  intros [= <- <-]. split; [| done]. intros _. split; [done |]. exists c, p. split_and!; first [done | lia].
Qed.

(** The observation just before saw the interface, within the interval, with
    counters it has not gone back from; [r] is the rate they give. *)
Definition rate_from_previous (interval : Z) (history : list (list RawInterface * Z)) (now : Z) (i : RawInterface)
    (r : TrafficRate) : Prop :=
  exists earlier raw0 t0 j c0 c,
    history = earlier ++ [(raw0, t0)] /\ t0 < now /\ now - t0 <= interval /\
    j ∈ raw0 /\ id j = id i /\ counters j = Some c0 /\ counters i = Some c /\
    width c = width c0 /\ rx_bytes c0 <= rx_bytes c /\ tx_bytes c0 <= tx_bytes c /\ r = delta_rate c0 c (now - t0).

Definition distinct_ids (o : list RawInterface * Z) : Prop := NoDup (map id o.1).

Lemma observe_interfaces s raw now :
  let sampling_gap :=
    is_some_and (fun previous => is_none_or (fun elapsed => maximum_rate_interval s <? elapsed) (checked_sub now previous))
      (previous_observed_boottime s) in
  interfaces (snd (observe s raw now)) = map (fun i => snd (observe_interface s now sampling_gap i)) (merge_sort index_le raw) /\
  snapshot_rate (snd (observe s raw now)) = aggregate_rate (interfaces (snd (observe s raw now))) sampling_gap.
Proof. unfold observe. destruct (totals_and_coverage _) as [[t c] y]. simpl. by rewrite map_map. Qed.

Lemma observed_rate s now gap i :
  let o := snd (observe_interface s now gap i) in
  interface o = i /\ exists t, interface_rate i (baselines s !! id i) now (observed_once s) gap = (rate o, t).
Proof. unfold observe_interface. destruct (interface_rate _ _ _ _ _) as [r t]. simpl. split; [done | by exists t]. Qed.

Lemma known_after interval history now i gap t r :
  Forall distinct_ids history ->
  gap = is_some_and (fun previous => is_none_or (fun elapsed => interval <? elapsed) (checked_sub now previous))
          (previous_observed_boottime (after interval history)) ->
  interface_rate i (baselines (after interval history) !! id i) now (observed_once (after interval history)) gap = (r, t) ->
  rate_state r = Known <-> rate_from_previous interval history now i r.
Proof.
  intros Hd Hgap Hr. apply interface_rate_known in Hr. rewrite Hr. clear Hr.
  destruct history as [| [raw0 t0] earlier _] using rev_ind.
  { unfold after. simpl. rewrite lookup_empty. split; [naive_solver |].
    intros (e & raw0 & t0 & j & c0 & c & He & _). by destruct e. }
  apply Forall_app in Hd as [_ Hd]. apply Forall_cons in Hd as [Hd _]. unfold distinct_ids in Hd. simpl in Hd.
  destruct (after_last interval earlier raw0 t0) as [Hb Hp]. rewrite Hp in Hgap. rewrite Hb. simpl in Hgap.
  assert (Hnd : NoDup (map id (merge_sort index_le raw0))) by (by rewrite (merge_sort_Permutation index_le raw0)).
  assert (Hlook : forall b, fold_left (next_baseline t0) (merge_sort index_le raw0) ∅ !! id i = Some b <->
    exists j c, j ∈ raw0 /\ id j = id i /\ counters j = Some c /\ b = {| observed_boottime := t0; baseline := c |}).
  { intros b. rewrite next_baseline_lookup; [| done | intros; apply lookup_empty].
    rewrite lookup_empty. setoid_rewrite (merge_sort_Permutation index_le raw0). naive_solver. }
  unfold checked_sub in Hgap. split.
  - intros (-> & c & p & Hc & Hprev & Hlt & Hw & Hx & Ht & ->). apply Hlook in Hprev as (j & c0 & Hj & Hid & Hcj & ->).
    simpl in *. replace (t0 <=? now) with true in Hgap by lia. simpl in Hgap. symmetry in Hgap. apply Z.ltb_ge in Hgap.
    exists earlier, raw0, t0, j, c0, c. split_and!; done.
  - intros (e & raw1 & t1 & j & c0 & c & He & Hlt & Hi & Hj & Hid & Hcj & Hc & Hw & Hx & Ht & ->).
    apply app_inj_tail in He as [<- [= <- <-]]. split.
    + rewrite Hgap. replace (t0 <=? now) with true by lia. simpl. lia.
    + exists c, {| observed_boottime := t0; baseline := c0 |}. split_and!; try done. apply Hlook. by exists j, c0.
Qed.

Lemma aggregate_rate_known l gap :
  (gap = true -> Forall (fun i => rate_state (rate i) <> Known) l) ->
  rate_state (aggregate_rate l gap) = Known <-> l <> [] /\ Forall (fun i => rate_state (rate i) = Known) l.
Proof.
  intros Hg. unfold aggregate_rate. destruct gap.
  { split; [done |]. intros [Hne HF]. destruct l as [| i l]; [done |]. specialize (Hg eq_refl).
    apply Forall_cons in HF as [Hi _]. apply Forall_cons in Hg as [Hni _]. done. }
  destruct l as [| i0 l0]; [split; [done | by intros []] |]. set (l := i0 :: l0). cbn [length Nat.eqb].
  destruct (List.find _ _) as [state |] eqn:Hf.
  - apply find_some in Hf as [Hin Hs]. apply negb_true_iff, eqb_neq in Hs.
    split; [by intros ? |]. intros [_ HF]. apply list_elem_of_In, list_elem_of_fmap in Hin as (i & -> & Hi).
    rewrite Forall_forall in HF. by apply HF in Hi.
  - split; [| done]. intros _. split; [done |]. apply Forall_forall. intros i Hi.
    apply find_none with (x := rate_state (rate i)) in Hf; [by apply negb_false_iff, eqb_eq in Hf |].
    apply list_elem_of_In, list_elem_of_fmap. by exists i.
Qed.

(** C26: A rate is known only if it was measured: after any history of
    observations, an interface's rate is known exactly when the observation
    just before, within the sampling interval, saw the same interface with
    counters of the same width that have not gone back, and it is then their
    exact difference over the time between; the aggregate is known exactly when
    every interface's rate is, and is then their sum. *)
Theorem known_rate_is_measured interval history raw now :
  Forall distinct_ids history ->
  let snapshot := snd (observe (after interval history) raw now) in
  map interface (interfaces snapshot) = merge_sort index_le raw /\
  (forall i, i ∈ interfaces snapshot ->
     rate_state (rate i) = Known <-> rate_from_previous interval history now (interface i) (rate i)) /\
  (rate_state (snapshot_rate snapshot) = Known <->
     interfaces snapshot <> [] /\ Forall (fun i => rate_state (rate i) = Known) (interfaces snapshot)) /\
  (rate_state (snapshot_rate snapshot) = Known ->
     rx_bytes_per_second (snapshot_rate snapshot) = Some (f64_sum (omap (fun i => rx_bytes_per_second (rate i)) (interfaces snapshot))) /\
     tx_bytes_per_second (snapshot_rate snapshot) = Some (f64_sum (omap (fun i => tx_bytes_per_second (rate i)) (interfaces snapshot)))).
Proof.
  intros Hd snapshot. destruct (observe_interfaces (after interval history) raw now) as [Hi Ha].
  rewrite after_interval in Hi, Ha. set (gap := is_some_and _ _) in *. fold snapshot in Hi, Ha.
  assert (Heach : forall i, i ∈ interfaces snapshot ->
     rate_state (rate i) = Known <-> rate_from_previous interval history now (interface i) (rate i)).
  { intros i Hin. rewrite Hi in Hin. apply list_elem_of_fmap in Hin as (i0 & -> & _).
    destruct (observed_rate (after interval history) now gap i0) as [-> [t Ht]]. by eapply known_after. }
  assert (Hgapped : gap = true -> Forall (fun i => rate_state (rate i) <> Known) (interfaces snapshot)).
  { intros Hg. apply Forall_forall. intros i Hin. rewrite Hi in Hin. apply list_elem_of_fmap in Hin as (i0 & -> & _).
    destruct (observed_rate (after interval history) now gap i0) as [_ [t Ht]].
    apply interface_rate_known in Ht. rewrite Ht. intros [Hf _]. congruence. }
  split_and!; [| exact Heach | rewrite Ha; by apply aggregate_rate_known |].
  - rewrite Hi, map_map. rewrite <- (map_id (merge_sort index_le raw)) at 2. apply map_ext. intros i0.
    by destruct (observed_rate (after interval history) now gap i0) as [-> _].
  - rewrite Ha. unfold aggregate_rate. destruct gap; [done |]. destruct (_ =? _)%nat; [done |].
    destruct (List.find _ _) as [state |] eqn:Hf; [| done].
    apply find_some in Hf as [_ Hs]. apply negb_true_iff, eqb_neq in Hs. by intros Hk.
Qed.
End Rates.

(** ** Witnesses *)

(** A toy [f64]: nanoseconds for seconds, integers for rates. *)
#[local] Instance toy_float : Float64 :=
  {| f64 := Z; as_f64 z := z; as_secs_f64 d := d; f64_div a b := a * 1000000000 / b;
     f64_sum := fold_right Z.add 0; f64_le_zero x := x <=? 0 |}.
#[local] Instance toy_float_laws : Float64Laws.
Proof. intros d Hd. simpl. lia. Qed.

Definition eth0 (rx tx : Z) : RawInterface :=
  {| id := (2, "eth0"%string); kind := Physical; kernel_kind := None; is_up := true; carrier_up := true;
     counters := Some {| rx_bytes := rx; tx_bytes := tx; width := Bits64 |} |}.

Lemma known_rate_is_measured_witness :
  let history := [([eth0 100 200], 10000000000)] in
  let snapshot := snd (observe (after MAXIMUM_RATE_INTERVAL_DEFAULT history) [eth0 300 500] 12000000000) in
  map (fun i => rx_bytes_per_second (rate i)) (interfaces snapshot) = [Some 100] /\
  Forall (fun i => rate_from_previous MAXIMUM_RATE_INTERVAL_DEFAULT history 12000000000 (interface i) (rate i))
    (interfaces snapshot).
Proof.
  destruct (known_rate_is_measured MAXIMUM_RATE_INTERVAL_DEFAULT [([eth0 100 200], 10000000000)] [eth0 300 500] 12000000000)
    as (_ & Heach & _).
  - repeat constructor. intros Hin. inversion Hin.
  - split; [vm_compute; reflexivity |]. apply Forall_forall. intros i Hi. apply Heach; [exact Hi |].
    assert (HF : Forall (fun i => rate_state (rate i) = Known)
                   (interfaces (snd (observe (after MAXIMUM_RATE_INTERVAL_DEFAULT [([eth0 100 200], 10000000000)])
                                       [eth0 300 500] 12000000000)))) by (vm_compute; repeat constructor).
    rewrite Forall_forall in HF. by apply HF.
Defined.

Definition traffic (cgroup : Z) (key : string) (rx tx : Z) : CgroupTraffic :=
  {| cgroup_id := cgroup; application_key := key; cgroup_rx := rx; cgroup_tx := tx |}.

Lemma aggregation_is_exact_witness :
  reportable [traffic 10 "editor" 20 30; traffic 11 "editor" 5 7; traffic 12 "shell" 2 3].
Proof.
  apply (aggregation_is_exact [traffic 10 "editor" 20 30; traffic 11 "editor" 5 7; traffic 12 "shell" 2 3]).
  - repeat constructor; vm_compute; discriminate.
  - vm_compute. reflexivity.
Defined.
