(* ===== verification/Netlink.v ===== *)
(** [crates/network/src/netlink.rs]: the rtnetlink dump of the interfaces. The
    datagrams of the kernel are parsed byte by byte, within limits on their
    number and size and before a deadline; a dump the kernel interrupted is
    tried once more.

    The kernel is a parameter: an attempt comes with how its socket calls end
    and with the events of its [poll] and [recvfrom] calls, in order, each with
    its time (nanoseconds); after the last one nothing arrives any more. An I/O
    error is its code. [usize] has 64 bits, byte order is little-endian. A slice
    out of bounds is [Panic]. *)
From S2P Require Import Prelude Text NetworkSampler.

(** ** Bytes *)

Definition from_le (l : list Z) : Z := fold_right (fun b n => b + 256 * n) 0 l.
Definition to_i32 (n : Z) : Z := if n <? 2147483648 then n else n - 4294967296.

(** [bytes.get(..n)] read as an unsigned integer, and [bytes.get(n..)]. *)
Definition read_le (n : nat) (bytes : list Z) : option Z :=
  if (n <=? length bytes)%nat then Some (from_le (firstn n bytes)) else None.
Definition get_from (n : nat) (bytes : list Z) : option (list Z) :=
  if (n <=? length bytes)%nat then Some (skipn n bytes) else None.
Definition read_u16 : list Z -> option Z := read_le 2.
Definition read_u32 : list Z -> option Z := read_le 4.
Definition read_i32 (bytes : list Z) : option Z := to_i32 <$> read_le 4 bytes.
Definition read_u64 : list Z -> option Z := read_le 8.

Definition align4 (value : Z) : Z := Z.land (value + 3) (Z.lnot 3).

(** The bytes before the first NUL. *)
Fixpoint until_nul (l : list Z) : option (list Z) :=
  match l with
  | [] => None
  | b :: l => if b =? 0 then Some [] else bs ← until_nul l; Some (b :: bs)
  end.

Definition parse_nul_string (bytes : list Z) : option string :=
  terminated ← until_nul bytes;
  if valid_utf8 terminated then Some (string_of_bytes terminated) else None.

(** ** Constants and errors *)

Definition RTM_NEWLINK : Z := 16.
Definition NLMSG_ERROR : Z := 2.
Definition NLMSG_DONE : Z := 3.
Definition NLMSG_OVERRUN : Z := 4.
Definition NLM_F_DUMP_INTR : Z := 16.
Definition IFLA_IFNAME : Z := 3.
Definition IFLA_STATS : Z := 7.
Definition IFLA_LINKINFO : Z := 18.
Definition IFLA_STATS64 : Z := 23.
Definition IFLA_INFO_KIND : Z := 1.
Definition IFF_UP : Z := 1.
Definition IFF_LOOPBACK : Z := 8.
Definition IFF_LOWER_UP : Z := 65536.
Definition ARPHRD_LOOPBACK : Z := 772.
Definition AF_NETLINK : Z := 16.
Definition EBADF : Z := 9.
Definition MAX_DUMP_DATAGRAM_BYTES : Z := 64 * 1024.
Definition MAX_RAW_INTERFACES : Z := 256.
Definition MAX_DUMP_DATAGRAMS : Z := 256.
Definition MAX_DUMP_BYTES : Z := 8 * 1024 * 1024.
Definition RTNETLINK_RECEIVE_DEADLINE : Z := 2 * 1000000000.
Definition MAX_DUMP_ATTEMPTS : nat := 2.
Definition HEADER_SIZE : nat := 16.
Definition INTERFACE_INFO_SIZE : nat := 16.
Definition SOCKADDR_NL_SIZE : Z := 12.
Definition REQUEST_SIZE : Z := 32.

Record NetlinkHeader := {
  header_length : Z; message_type : Z; header_flags : Z; header_sequence : Z; header_port_id : Z;
}.

Inductive DumpLimit := Limit_DatagramBytes | Limit_Datagrams | Limit_Bytes | Limit_Interfaces.

Inductive CollectError :=
| Io (code : Z)
| Protocol (reason : string)
| Kernel (code : Z)
| ReceiveTimeout (deadline : Z)
| DumpInterrupted
| DumpOverrun
| NonKernelSender (port_id : Z)
| DumpLimitExceeded (limit : DumpLimit) (maximum observed : Z).

Definition is_retryable (e : CollectError) : bool :=
  match e with DumpInterrupted | DumpOverrun => true | _ => false end.

Inductive Failure := Failed (e : CollectError) | Panic.
Definition fail {A} (e : CollectError) : result A Failure := Err (Failed e).

(** [&bytes[a..b]] and [&bytes[a..]]. *)
Definition index_range (a b : nat) (bytes : list Z) : result (list Z) Failure :=
  if (a <=? b)%nat && (b <=? length bytes)%nat then Ok (firstn (b - a) (skipn a bytes)) else Err Panic.
Definition index_from (a : nat) (bytes : list Z) : result (list Z) Failure := index_range a (length bytes) bytes.

(** ** Attributes *)

(** [Attributes::next]: the item, and what remains. *)
Definition next_attribute (remaining : list Z) : option (result (Z * list Z) Failure * list Z) :=
  match remaining with
  | [] => None
  | _ =>
      Some
        (if (length remaining <? 4)%nat then (fail (Protocol "truncated rtnetlink attribute"), [])
         else
           let length' := Z.to_nat (default 0 (read_u16 remaining)) in
           match index_from 2 remaining with
           | Err p => (Err p, [])
           | Ok tail =>
               let kind := Z.land (default 0 (read_u16 tail)) 16383 in
               if (length' <? 4)%nat || (length remaining <? length')%nat
               then (fail (Protocol "invalid rtnetlink attribute length"), [])
               else
                 match index_range 4 length' remaining with
                 | Err p => (Err p, [])
                 | Ok value =>
                     let aligned := Z.to_nat (align4 (Z.of_nat length')) in
                     if (length remaining <=? aligned)%nat then (Ok (kind, value), [])
                     else match index_from aligned remaining with
                          | Err p => (Err p, [])
                          | Ok rest => (Ok (kind, value), rest)
                          end
                 end
           end)
  end.

(** [for attribute in Attributes::new(..) { let (kind, value) = attribute?; .. }]
    with a body that goes on with a state or returns. *)
Fixpoint for_attributes {S A} (body : S -> Z -> list Z -> result (S + A) Failure) (fuel : nat) (s : S) (remaining : list Z)
  : result (S + A) Failure :=
  match fuel with
  | O => Ok (inl s)
  | S fuel =>
      match next_attribute remaining with
      | None => Ok (inl s)
      | Some (item, rest) =>
          let? attribute := item in
          let? next := body s attribute.1 attribute.2 in
          match next with
          | inl s => for_attributes body fuel s rest
          | inr a => Ok (inr a)
          end
      end
  end.

Definition parse_link_kind (attributes : list Z) : result (option string) Failure :=
  let? found := for_attributes (fun (_ : unit) kind value =>
                  if kind =? IFLA_INFO_KIND then Ok (inr (parse_nul_string value)) else Ok (inl tt))
                  (length attributes) tt attributes in
  match found with inl _ => Ok None | inr name => Ok name end.

Definition parse_stats64 (bytes : list Z) : option LinkCounters :=
  rx_tail ← get_from 16 bytes; rx ← read_u64 rx_tail;
  tx_tail ← get_from 24 bytes; tx ← read_u64 tx_tail;
  Some {| rx_bytes := rx; tx_bytes := tx; width := Bits64 |}.

Definition parse_stats32 (bytes : list Z) : option LinkCounters :=
  rx_tail ← get_from 8 bytes; rx ← read_u32 rx_tail;
  tx_tail ← get_from 12 bytes; tx ← read_u32 tx_tail;
  Some {| rx_bytes := rx; tx_bytes := tx; width := Bits32 |}.

Definition is_tunnel_kind (kind : string) : bool :=
  contains kind ["tun"; "tap"; "wireguard"; "gre"; "gretap"; "ip6gre"; "ip6gretap"; "ipip"; "sit"; "vti"; "vti6";
                 "xfrm"; "erspan"; "ip6erspan"; "l2tp"; "ppp"]%string.

Section Dump.
(** Whether [/sys/class/net/<name>/device] exists. *)
Context (device_exists : string -> bool).

Definition classify_interface (name : string) (hardware_type flags : Z) (kernel_kind : option string) : InterfaceKind :=
  if (hardware_type =? ARPHRD_LOOPBACK) || negb (Z.land flags IFF_LOOPBACK =? 0) then Loopback
  else if is_some_and is_tunnel_kind kernel_kind then Tunnel
  else if negb (contains_byte (ch "/") name) && device_exists name then Physical
  else Virtual.

(** The attributes of a link, as the loop of [parse_link] collects them. *)
Record LinkAttributes := {
  attr_name : option string; attr_counters64 : option LinkCounters;
  attr_counters32 : option LinkCounters; attr_kernel_kind : option string;
}.
Definition no_attributes : LinkAttributes :=
  {| attr_name := None; attr_counters64 := None; attr_counters32 := None; attr_kernel_kind := None |}.

Definition link_attribute (s : LinkAttributes) (kind : Z) (value : list Z) : result (LinkAttributes + Empty_set) Failure :=
  if kind =? IFLA_IFNAME
  then Ok (inl {| attr_name := parse_nul_string value; attr_counters64 := attr_counters64 s;
                  attr_counters32 := attr_counters32 s; attr_kernel_kind := attr_kernel_kind s |})
  else if kind =? IFLA_STATS64
  then Ok (inl {| attr_name := attr_name s; attr_counters64 := parse_stats64 value;
                  attr_counters32 := attr_counters32 s; attr_kernel_kind := attr_kernel_kind s |})
  else if kind =? IFLA_STATS
  then Ok (inl {| attr_name := attr_name s; attr_counters64 := attr_counters64 s;
                  attr_counters32 := parse_stats32 value; attr_kernel_kind := attr_kernel_kind s |})
  else if kind =? IFLA_LINKINFO
  then let? kernel_kind := parse_link_kind value in
       Ok (inl {| attr_name := attr_name s; attr_counters64 := attr_counters64 s;
                  attr_counters32 := attr_counters32 s; attr_kernel_kind := kernel_kind |})
  else Ok (inl s).

(** [ifinfomsg] has its hardware type at 2, its index at 4, its flags at 8. *)
Definition parse_link (payload : list Z) : result RawInterface Failure :=
  if (length payload <? INTERFACE_INFO_SIZE)%nat then fail (Protocol "truncated ifinfomsg")
  else
    let field offset size := from_le (firstn size (skipn offset payload)) in
    let index := to_i32 (field 4%nat 4%nat) in
    let flags := field 8%nat 4%nat in
    if index <=? 0 then fail (Protocol "invalid interface index")
    else
      let? attributes := index_from INTERFACE_INFO_SIZE payload in
      let? parsed := for_attributes link_attribute (length attributes) no_attributes attributes in
      match parsed with
      | inr never => match never with end
      | inl s =>
          let? name := ok_or (Failed (Protocol "link is missing IFLA_IFNAME")) (attr_name s) in
          Ok {| id := (index, name);
                kind := classify_interface name (field 2%nat 2%nat) flags (attr_kernel_kind s);
                kernel_kind := attr_kernel_kind s;
                is_up := negb (Z.land flags IFF_UP =? 0);
                carrier_up := negb (Z.land flags IFF_LOWER_UP =? 0);
                counters := or_else (attr_counters64 s) (attr_counters32 s) |}
      end.

(** ** Messages and limits *)

Definition read_header (bytes : list Z) : result NetlinkHeader Failure :=
  if (length bytes <? HEADER_SIZE)%nat then fail (Protocol "truncated netlink header")
  else
    let field offset size := from_le (firstn size (skipn offset bytes)) in
    Ok {| header_length := field 0%nat 4%nat; message_type := field 4%nat 2%nat; header_flags := field 6%nat 2%nat;
          header_sequence := field 8%nat 4%nat; header_port_id := field 12%nat 4%nat |}.

(** [-code] wraps, as in a release build. *)
Definition parse_netlink_error (payload : list Z) : result unit Failure :=
  match read_i32 payload with
  | None => fail (Protocol "truncated NLMSG_ERROR")
  | Some code => if code =? 0 then Ok tt else fail (Kernel (if code =? -2147483648 then code else - code))
  end.

Definition validate_dump_header (header : NetlinkHeader) (sequence : Z) : result bool Failure :=
  if message_type header =? NLMSG_OVERRUN then fail DumpOverrun
  else if negb (header_sequence header =? sequence) then Ok false
  else if negb (Z.land (header_flags header) NLM_F_DUMP_INTR =? 0) then fail DumpInterrupted
  else Ok true.

Record Sender := { sender_length : Z; nl_family : Z; nl_pid : Z }.
Definition validate_kernel_sender (s : Sender) : result unit Failure :=
  if (sender_length s <? SOCKADDR_NL_SIZE) || negb (nl_family s =? AF_NETLINK)
  then fail (Protocol "rtnetlink sender address was truncated or invalid")
  else if negb (nl_pid s =? 0) then fail (NonKernelSender (nl_pid s))
  else Ok tt.

Record DumpBudget := { budget_datagrams : Z; budget_bytes : Z; budget_interfaces : Z }.
Definition DumpBudget_default : DumpBudget :=
  {| budget_datagrams := 0; budget_bytes := 0; budget_interfaces := 0 |}.

Definition enforce_dump_limit (limit : DumpLimit) (observed maximum : Z) : result unit Failure :=
  if maximum <? observed then fail (DumpLimitExceeded limit maximum observed) else Ok tt.

Definition counted (limit : DumpLimit) (maximum n : Z) : result Z Failure :=
  ok_or (Failed (DumpLimitExceeded limit maximum u64_max)) (checked_u64 n).

Definition record_datagram (bytes : Z) (b : DumpBudget) : result DumpBudget Failure :=
  let? datagrams := counted Limit_Datagrams MAX_DUMP_DATAGRAMS (budget_datagrams b + 1) in
  let? _ := enforce_dump_limit Limit_Datagrams datagrams MAX_DUMP_DATAGRAMS in
  let? total := counted Limit_Bytes MAX_DUMP_BYTES (budget_bytes b + bytes) in
  let? _ := enforce_dump_limit Limit_Bytes total MAX_DUMP_BYTES in
  Ok {| budget_datagrams := datagrams; budget_bytes := total; budget_interfaces := budget_interfaces b |}.

Definition record_interface (b : DumpBudget) : result DumpBudget Failure :=
  let? interfaces := counted Limit_Interfaces MAX_RAW_INTERFACES (budget_interfaces b + 1) in
  let? _ := enforce_dump_limit Limit_Interfaces interfaces MAX_RAW_INTERFACES in
  Ok {| budget_datagrams := budget_datagrams b; budget_bytes := budget_bytes b; budget_interfaces := interfaces |}.

(** One message: [inr] is [NLMSG_DONE]. *)
Definition handle_message (sequence : Z) (header : NetlinkHeader) (payload : list Z)
    (st : list RawInterface * DumpBudget) : result ((list RawInterface * DumpBudget) + list RawInterface) Failure :=
  let? ours := validate_dump_header header sequence in
  if ours : bool then
    if message_type header =? NLMSG_DONE then Ok (inr st.1)
    else if message_type header =? NLMSG_ERROR then let? _ := parse_netlink_error payload in Ok (inl st)
    else if message_type header =? RTM_NEWLINK then
      let? budget := record_interface st.2 in
      let? interface := parse_link payload in
      Ok (inl (st.1 ++ [interface], budget))
    else Ok (inl st)
  else Ok (inl st).

(** The messages of a datagram, from [offset]. *)
Fixpoint scan_datagram (fuel : nat) (sequence : Z) (buffer : list Z) (offset : nat) (st : list RawInterface * DumpBudget)
  : result ((list RawInterface * DumpBudget) + list RawInterface) Failure :=
  match fuel with
  | O => Ok (inl st)
  | S fuel =>
      if (offset + HEADER_SIZE <=? length buffer)%nat then
        let? rest := index_from offset buffer in
        let? header := read_header rest in
        let message_len := Z.to_nat (header_length header) in
        if (message_len <? HEADER_SIZE)%nat || (length buffer <? offset + message_len)%nat
        then fail (Protocol "invalid netlink message length")
        else
          let? payload := index_range (offset + HEADER_SIZE) (offset + message_len) buffer in
          let? next := handle_message sequence header payload st in
          match next with
          | inr interfaces => Ok (inr interfaces)
          | inl st =>
              let? offset := ok_or (Failed (Protocol "netlink offset overflow"))
                               (checked_u64 (Z.of_nat offset + align4 (Z.of_nat message_len))) in
              scan_datagram fuel sequence buffer (Z.to_nat offset) st
          end
      else Ok (inl st)
  end.

(** ** The socket *)

(** [received] is the length of the datagram, [buffer] its first bytes. *)
Inductive RecvOutcome :=
| Recv_interrupted
| Recv_failed (code : Z)
| Recv_datagram (received : Z) (buffer : list Z) (source : Sender).

(** How a [poll] that does not time out ends. *)
Inductive PollOutcome :=
| Poll_interrupted
| Poll_failed (code : Z)
| Poll_ready (invalid : bool) (recv : RecvOutcome).

Record SocketEvent := { event_at : Z; event : PollOutcome }.

Definition duration_to_poll_timeout (duration : Z) : Z :=
  clamp 1 2147483647 (duration / 1000000 + (if duration mod 1000000 =? 0 then 0 else 1)).

Definition receive_datagram (sequence received : Z) (buffer : list Z) (source : Sender)
    (st : list RawInterface * DumpBudget) : result ((list RawInterface * DumpBudget) + list RawInterface) Failure :=
  if MAX_DUMP_DATAGRAM_BYTES <? received
  then fail (DumpLimitExceeded Limit_DatagramBytes MAX_DUMP_DATAGRAM_BYTES received)
  else if received =? 0 then fail (Protocol "rtnetlink dump ended without NLMSG_DONE")
  else
    let? _ := validate_kernel_sender source in
    let? budget := record_datagram received st.2 in
    scan_datagram (length buffer) sequence buffer 0 (st.1, budget).

(** The loop of [receive_link_dump], with [wait_until_readable] at its head. *)
Fixpoint receive_loop (sequence deadline : Z) (events : list SocketEvent) (now : Z)
    (st : list RawInterface * DumpBudget) : result (list RawInterface) Failure :=
  if deadline <=? now then fail (ReceiveTimeout RTNETLINK_RECEIVE_DEADLINE)
  else
    match events with
    | [] => fail (ReceiveTimeout RTNETLINK_RECEIVE_DEADLINE)
    | e :: events =>
        let now' := Z.max now (event_at e) in
        if now + duration_to_poll_timeout (deadline - now) * 1000000 <? now'
        then fail (ReceiveTimeout RTNETLINK_RECEIVE_DEADLINE)
        else
          match event e with
          | Poll_interrupted => receive_loop sequence deadline events now' st
          | Poll_failed code => fail (Io code)
          | Poll_ready true _ => fail (Io EBADF)
          | Poll_ready false Recv_interrupted => receive_loop sequence deadline events now' st
          | Poll_ready false (Recv_failed code) => fail (Io code)
          | Poll_ready false (Recv_datagram received buffer source) =>
              let? next := receive_datagram sequence received buffer source st in
              match next with
              | inr interfaces => Ok interfaces
              | inl st => receive_loop sequence deadline events now' st
              end
          end
    end.

Definition receive_link_dump (sequence deadline now : Z) (events : list SocketEvent) : result (list RawInterface) Failure :=
  receive_loop sequence deadline events now ([], DumpBudget_default).

(** ** Attempts *)

(** An attempt: how [socket] and [bind] end, how many bytes [sendto] sends, and
    the events of the socket. *)
Record Attempt := {
  open_route_socket : result unit Z;
  sent : result Z Z;
  attempt_now : Z;
  attempt_events : list SocketEvent;
}.

Definition send_link_dump (sent : result Z Z) : result unit Failure :=
  match sent with
  | Err code => fail (Io code)
  | Ok n => if negb (n =? REQUEST_SIZE) then fail (Protocol "short rtnetlink request write") else Ok tt
  end.

(** [sequence.wrapping_add(1).max(1)]. *)
Definition next_sequence (sequence : Z) : Z := Z.max 1 ((sequence + 1) mod 4294967296).

Definition collect_once (deadline : Z) (a : Attempt) : mut Z (list RawInterface) Failure :=
  modify next_sequence ;;;
  sequence <- gets (fun s => s) ;;
  lift (fun _ =>
    let? _ := map_err (fun code => Failed (Io code)) (open_route_socket a) in
    let? _ := send_link_dump (sent a) in
    receive_link_dump sequence deadline (attempt_now a) (attempt_events a)).

(** [collect_dump_with_retry]: attempt [n] of [MAX_DUMP_ATTEMPTS]. *)
Fixpoint collect_with_retry (attempts : nat) (deadline : Z) (attempt : nat -> Attempt) (n : nat)
  : mut Z (list RawInterface) Failure :=
  match attempts with
  | O => throw Panic
  | S attempts => fun sequence =>
      match collect_once deadline (attempt n) sequence with
      | (sequence', Err (Failed e)) =>
          if is_retryable e && (n + 1 <? MAX_DUMP_ATTEMPTS)%nat
          then collect_with_retry attempts deadline attempt (n + 1) sequence'
          else (sequence', Err (Failed e))
      | r => r
      end
  end.

(** [RtnetlinkCollector::collect], whose state is its sequence number. *)
Definition collect (now : Z) (attempt : nat -> Attempt) : mut Z (list RawInterface) Failure :=
  collect_with_retry MAX_DUMP_ATTEMPTS (now + RTNETLINK_RECEIVE_DEADLINE) attempt 0.
End Dump.
