(* ===== verification/NetlinkFacts.v ===== *)
(** The rtnetlink dump: parsing never reads out of bounds and never takes more
    than the limits allow, whatever the kernel sends; what a kernel serializes
    is parsed back as the interfaces it lists. *)
From S2P Require Import Prelude Text NetworkSampler Netlink.

Lemma align4_eq n : align4 n = (n + 3) / 4 * 4.
Proof.
  unfold align4. rewrite <- Z.ldiff_land. replace (Z.ldiff (n + 3) 3) with (Z.ldiff (n + 3) (Z.ones 2)) by done.
  by rewrite Z.ldiff_ones_r, Z.shiftl_mul_pow2, Z.shiftr_div_pow2 by lia.
Qed.

Lemma align4_spec n : 0 <= n -> n <= align4 n < n + 4.
Proof.
  intros Hn. rewrite align4_eq. pose proof (Z.div_mod (n + 3) 4 ltac:(lia)).
  pose proof (Z.mod_pos_bound (n + 3) 4 ltac:(lia)). lia.
Qed.

(** ** No panic *)

(** Programs that do not panic, and whose answers satisfy [Q]. *)
Definition safe {A} (Q : A -> Prop) (r : result A Failure) : Prop :=
  match r with Ok a => Q a | Err (Failed _) => True | Err Panic => False end.

Lemma safe_bind {A B} (Q : A -> Prop) (Q' : B -> Prop) (r : result A Failure) (k : A -> result B Failure) :
  safe Q r -> (forall a, Q a -> safe Q' (k a)) -> safe Q' (result_bind r k).
Proof. destruct r as [a | [e |]]; simpl; auto. Qed.
Lemma safe_weaken {A} (Q Q' : A -> Prop) r : (forall a, Q a -> Q' a) -> safe Q r -> safe Q' r.
Proof. destruct r as [a | [e |]]; simpl; auto. Qed.
Lemma safe_ok_or {A} (o : option A) e : safe (fun a => o = Some a) (ok_or (Failed e) o).
Proof. by destruct o. Qed.

Lemma index_range_safe a b bytes : (a <= b <= length bytes)%nat ->
  safe (fun l => l = firstn (b - a) (skipn a bytes)) (index_range a b bytes).
Proof.
  intros [Hab Hb]. unfold index_range.
  rewrite (proj2 (Nat.leb_le _ _) Hab), (proj2 (Nat.leb_le _ _) Hb). done.
Qed.

Lemma index_from_safe a bytes : (a <= length bytes)%nat -> safe (fun l => l = skipn a bytes) (index_from a bytes).
Proof.
  intros Ha. eapply safe_weaken; [| apply index_range_safe; lia]. intros l ->. simpl.
  rewrite take_ge; [done | rewrite length_drop; lia].
Qed.

Lemma next_attribute_safe remaining item rest :
  next_attribute remaining = Some (item, rest) ->
  safe (fun _ => True) item /\ (length rest < length remaining)%nat.
Proof.
  unfold next_attribute. destruct remaining as [| b0 l0] eqn:Hrem; [done |]. rewrite <- Hrem.
  assert (Hpos : (0 < length remaining)%nat) by (rewrite Hrem; simpl; lia). clear Hrem b0 l0.
  destruct (length remaining <? 4)%nat eqn:H4; [intros [= <- <-]; split; [done | simpl; lia] |].
  apply Nat.ltb_ge in H4. set (len' := Z.to_nat (default 0 (read_u16 remaining))).
  pose proof (index_from_safe 2 remaining ltac:(lia)) as H2.
  destruct (index_from 2 remaining) as [tail | [e |]]; [| intros [= <- <-]; split; [done | simpl; lia] | done].
  destruct (len' <? 4)%nat eqn:Hl; [intros [= <- <-]; split; [done | simpl; lia] |]. apply Nat.ltb_ge in Hl.
  destruct (length remaining <? len')%nat eqn:Hr; [intros [= <- <-]; split; [done | simpl; lia] |]. apply Nat.ltb_ge in Hr.
  cbn [orb]. pose proof (index_range_safe 4 len' remaining ltac:(lia)) as Hv.
  destruct (index_range 4 len' remaining) as [v | [e |]]; [| intros [= <- <-]; split; [done | simpl; lia] | done].
  destruct (length remaining <=? _)%nat eqn:Ha; [intros [= <- <-]; split; [done | simpl; lia] |]. apply Nat.leb_gt in Ha.
  set (aligned := Z.to_nat (align4 (Z.of_nat len'))) in *.
  pose proof (index_from_safe aligned remaining ltac:(lia)) as Hx.
  destruct (index_from aligned remaining) as [x | [e |]]; [| intros [= <- <-]; split; [done | simpl; lia] | done].
  intros [= <- <-]. split; [done |]. simpl in Hx. rewrite Hx, length_drop.
  pose proof (align4_spec (Z.of_nat len') ltac:(lia)). unfold aligned. lia.
Qed.

Lemma for_attributes_safe {S A} (body : S -> Z -> list Z -> result (S + A) Failure) fuel :
  (forall s k v, safe (fun _ => True) (body s k v)) -> forall s remaining,
  safe (fun _ => True) (for_attributes body fuel s remaining).
Proof.
  intros Hb. induction fuel as [| fuel IH]; intros s remaining; [done |]. cbn [for_attributes].
  destruct (next_attribute remaining) as [[item rest] |] eqn:Hn; [| done].
  apply next_attribute_safe in Hn as [Hi _]. eapply safe_bind; [exact Hi |]. intros [k v] _.
  eapply safe_bind; [apply Hb |]. intros [s' | a] _; [apply IH | done].
Qed.

Lemma parse_link_kind_safe l : safe (fun _ => True) (parse_link_kind l).
Proof.
  unfold parse_link_kind. eapply safe_bind; [apply for_attributes_safe |].
  - intros s k v. by destruct (_ =? _).
  - by intros [s | a] _.
Qed.

Section Safety.
Context (device_exists : string -> bool).

Lemma parse_link_safe payload : safe (fun i => 0 < (NetworkSampler.id i).1) (parse_link device_exists payload).
Proof.
  unfold parse_link. destruct (_ <? INTERFACE_INFO_SIZE)%nat eqn:Hl; [done |]. apply Nat.ltb_ge in Hl.
  destruct (to_i32 _ <=? 0) eqn:Hi; [done |]. apply Z.leb_gt in Hi.
  eapply safe_bind; [by apply index_from_safe |]. intros attributes _.
  eapply safe_bind; [apply for_attributes_safe |].
  - intros s k v. unfold link_attribute. repeat case_match; try done.
    eapply safe_bind; [apply parse_link_kind_safe | done].
  - intros [s | []] _. eapply safe_bind; [apply safe_ok_or |]. intros name _. exact Hi.
Qed.

(** What is collected so far, within the limits. *)
Definition dump_ok (st : list RawInterface * DumpBudget) : Prop :=
  Z.of_nat (length st.1) = budget_interfaces st.2 /\ budget_interfaces st.2 <= MAX_RAW_INTERFACES /\
  0 <= budget_datagrams st.2 <= MAX_DUMP_DATAGRAMS /\ 0 <= budget_bytes st.2 <= MAX_DUMP_BYTES /\
  Forall (fun i => 0 < (NetworkSampler.id i).1) st.1.
Definition interfaces_ok (l : list RawInterface) : Prop :=
  Z.of_nat (length l) <= MAX_RAW_INTERFACES /\ Forall (fun i => 0 < (NetworkSampler.id i).1) l.
Definition next_ok (x : (list RawInterface * DumpBudget) + list RawInterface) : Prop :=
  match x with inl st => dump_ok st | inr l => interfaces_ok l end.

Lemma enforce_safe limit observed maximum : safe (fun _ => observed <= maximum) (enforce_dump_limit limit observed maximum).
Proof. unfold enforce_dump_limit. destruct (maximum <? observed) eqn:H; simpl; [done | lia]. Qed.
Lemma counted_safe limit maximum n : safe (fun m => m = n) (counted limit maximum n).
Proof. unfold counted. eapply safe_weaken; [| apply safe_ok_or]. intros m Hm. by apply checked_u64_some in Hm as [-> _]. Qed.

Lemma record_interface_safe l b : dump_ok (l, b) ->
  safe (fun b' => forall i, 0 < (NetworkSampler.id i).1 -> dump_ok (l ++ [i], b')) (record_interface b).
Proof.
  intros (Hl & Hm & Hd & Hb & Hi). simpl in *. unfold record_interface.
  eapply safe_bind; [apply counted_safe |]. intros n ->. eapply safe_bind; [apply enforce_safe |]. intros [] Hle.
  intros i Hpos. unfold dump_ok. simpl. rewrite length_app. simpl.
  split_and!; first [lia | apply Forall_app; split; [done | by constructor]].
Qed.

Lemma record_datagram_safe n l b : 0 <= n -> dump_ok (l, b) -> safe (fun b' => dump_ok (l, b')) (record_datagram n b).
Proof.
  intros Hn (Hl & Hm & Hd & Hb & Hi). simpl in *. unfold record_datagram.
  eapply safe_bind; [apply counted_safe |]. intros d ->. eapply safe_bind; [apply enforce_safe |]. intros [] Hle.
  eapply safe_bind; [apply counted_safe |]. intros t ->. eapply safe_bind; [apply enforce_safe |]. intros [] Hle2.
  unfold dump_ok. simpl. split_and!; first [lia | done].
Qed.

Lemma handle_message_safe sequence header payload st :
  dump_ok st -> safe next_ok (handle_message device_exists sequence header payload st).
Proof.
  destruct st as [l b]. intros Hst. unfold handle_message. eapply safe_bind with (Q := fun _ => True).
  { unfold validate_dump_header. repeat case_match; done. }
  intros [] _; [| exact Hst]. destruct (_ =? NLMSG_DONE).
  { destruct Hst as (Hl & Hm & _ & _ & Hi). split; [rewrite Hl; exact Hm | exact Hi]. }
  destruct (_ =? NLMSG_ERROR).
  { eapply safe_bind with (Q := fun _ => True); [| done]. unfold parse_netlink_error. repeat case_match; done. }
  destruct (_ =? RTM_NEWLINK); [| exact Hst].
  eapply safe_bind; [by apply record_interface_safe |]. intros b' Hb'.
  eapply safe_bind; [apply parse_link_safe |]. intros i Hi. by apply Hb'.
Qed.

Lemma scan_datagram_safe fuel sequence buffer : forall offset st,
  dump_ok st -> safe next_ok (scan_datagram device_exists fuel sequence buffer offset st).
Proof.
  induction fuel as [| fuel IH]; intros offset st Hst; cbn [scan_datagram]; [done |].
  destruct (offset + HEADER_SIZE <=? length buffer)%nat eqn:Ho; [| done]. apply Nat.leb_le in Ho. unfold HEADER_SIZE in *.
  eapply safe_bind; [apply index_from_safe; lia |]. intros rest ->.
  eapply safe_bind with (Q := fun _ => True); [unfold read_header; by destruct (_ <? _)%nat |]. intros header _.
  destruct (_ <? 16)%nat eqn:H1; [done |]. apply Nat.ltb_ge in H1.
  destruct (length buffer <? _)%nat eqn:H2; [done |]. apply Nat.ltb_ge in H2. cbn [orb].
  eapply safe_bind; [apply index_range_safe; lia |]. intros payload _.
  eapply safe_bind; [by apply handle_message_safe |]. intros [st' | l] Hn; [| exact Hn].
  eapply safe_bind; [apply safe_ok_or |]. intros o _. by apply IH.
Qed.

Lemma receive_datagram_safe sequence received buffer source st :
  0 <= received -> dump_ok st -> safe next_ok (receive_datagram device_exists sequence received buffer source st).
Proof.
  destruct st as [l b]. intros Hr Hst. unfold receive_datagram. destruct (_ <? received); [done |].
  destruct (received =? 0); [done |]. eapply safe_bind with (Q := fun _ => True).
  { unfold validate_kernel_sender. repeat case_match; done. }
  intros _ _. eapply safe_bind; [by apply record_datagram_safe |]. intros b' Hb'. by apply scan_datagram_safe.
Qed.

(** A datagram's length is not negative. *)
Definition event_ok (e : SocketEvent) : Prop :=
  match event e with Poll_ready _ (Recv_datagram received _ _) => 0 <= received | _ => True end.

Lemma receive_loop_safe sequence deadline events : Forall event_ok events -> forall now st,
  dump_ok st -> safe interfaces_ok (receive_loop device_exists sequence deadline events now st).
Proof.
  induction 1 as [| e events He Hes IH]; intros now st Hst; cbn [receive_loop]; [by destruct (deadline <=? now) |].
  destruct (deadline <=? now); [done |]. destruct (_ <? _); [done |]. unfold event_ok in He.
  destruct (event e) as [| code | [] [| code | received buffer source]]; try done; [by apply IH | by apply IH |].
  eapply safe_bind; [by apply receive_datagram_safe |]. intros [st' | l] Hn; [by apply IH | exact Hn].
Qed.

Lemma start_ok : dump_ok ([], DumpBudget_default).
Proof. unfold dump_ok. simpl. unfold MAX_RAW_INTERFACES, MAX_DUMP_DATAGRAMS, MAX_DUMP_BYTES. split_and!; first [lia | constructor]. Qed.

Lemma collect_once_safe deadline a s s' r :
  Forall event_ok (attempt_events a) -> collect_once device_exists deadline a s = (s', r) ->
  safe interfaces_ok r /\ 1 <= s' <= u32_max.
Proof.
  intros He. unfold collect_once, bind, modify, gets, lift. intros [= <- <-]. split.
  - eapply safe_bind with (Q := fun _ => True); [by destruct (open_route_socket a) |]. intros _ _.
    eapply safe_bind with (Q := fun _ => True); [unfold send_link_dump; repeat case_match; done |]. intros _ _.
    apply receive_loop_safe; [done | apply start_ok].
  - unfold next_sequence, u32_max. pose proof (Z.mod_pos_bound (s + 1) 4294967296). lia.
Qed.

Lemma retry_safe deadline attempt : (forall n, Forall event_ok (attempt_events (attempt n))) -> forall attempts n s s' r,
  (n < MAX_DUMP_ATTEMPTS)%nat -> (MAX_DUMP_ATTEMPTS <= n + attempts)%nat ->
  collect_with_retry device_exists attempts deadline attempt n s = (s', r) -> safe interfaces_ok r.
Proof.
  intros He. induction attempts as [| k IH]; intros n s s' r Hn Hk; [lia |]. cbn [collect_with_retry].
  destruct (collect_once device_exists deadline (attempt n) s) as [s1 r1] eqn:Hc.
  apply collect_once_safe in Hc as [Hs _]; [| apply He]. destruct r1 as [l | [e |]]; [by intros [= <- <-] | | done].
  destruct (is_retryable e && (n + 1 <? MAX_DUMP_ATTEMPTS)%nat) eqn:Hr; [| by intros [= <- <-]].
  apply andb_true_iff in Hr as [_ Hr]. apply Nat.ltb_lt in Hr. apply IH; lia.
Qed.

(** Whatever the kernel sends, on any socket events and in any bytes, a
    collection never reads outside of a buffer (no slice of the parser is out
    of bounds and no retry runs past its attempts), and what it gives has at
    most 256 interfaces, all with a positive index. *)
Theorem dump_parsing_is_safe now attempt s s' r :
  (forall n, Forall event_ok (attempt_events (attempt n))) ->
  collect device_exists now attempt s = (s', r) ->
  r <> Err Panic /\ forall l, r = Ok l -> interfaces_ok l.
Proof.
  intros He Hc. assert (Hs : safe interfaces_ok r).
  { eapply retry_safe; [exact He | | | exact Hc]; unfold MAX_DUMP_ATTEMPTS; lia. }
  split; [intros ->; exact Hs |]. by intros l ->.
Qed.
End Safety.

(** ** What a kernel writes *)

(** [n] bytes, little-endian. *)
Fixpoint to_le (n : nat) (v : Z) : list Z :=
  match n with O => [] | S n => v mod 256 :: to_le n (v / 256) end.

Lemma to_le_length n v : length (to_le n v) = n.
Proof. revert v. induction n; intros v; simpl; [done | by rewrite IHn]. Qed.

Lemma from_to_le n : forall v, 0 <= v < 256 ^ Z.of_nat n -> from_le (to_le n v) = v.
Proof.
  unfold from_le. induction n as [| n IH]; intros v Hv; [simpl in *; lia |]. cbn [to_le fold_right].
  rewrite Nat2Z.inj_succ, Z.pow_succ_r in Hv by lia. rewrite IH.
  - pose proof (Z.div_mod v 256 ltac:(lia)). lia.
  - split; [apply Z.div_pos; lia | apply Z.div_lt_upper_bound; lia].
Qed.

Lemma align4_plus4 n : 0 <= n -> align4 (4 + n) = 4 + align4 n.
Proof. intros Hn. rewrite !align4_eq. replace (4 + n + 3) with ((n + 3) + 1 * 4) by lia. rewrite Z.div_add by lia. lia. Qed.

(** The padding of [n] bytes to a multiple of four. *)
Definition padding (n : nat) : list Z := repeat 0 (Z.to_nat (align4 (Z.of_nat n)) - n).

Lemma padded_length n : (n + length (padding n) = Z.to_nat (align4 (Z.of_nat n)))%nat.
Proof. unfold padding. rewrite repeat_length. pose proof (align4_spec (Z.of_nat n) ltac:(lia)). lia. Qed.

(** [struct nlattr]: length, kind, value, padding. *)
Definition encode_attribute (a : Z * list Z) : list Z :=
  to_le 2 (4 + Z.of_nat (length a.2)) ++ to_le 2 a.1 ++ a.2 ++ padding (length a.2).
Definition attribute_fits (a : Z * list Z) : Prop := 0 <= a.1 < 16384 /\ 4 + Z.of_nat (length a.2) < 65536.

Lemma encode_attribute_length a :
  length (encode_attribute a) = Z.to_nat (align4 (Z.of_nat (4 + length a.2))).
Proof.
  unfold encode_attribute. rewrite !length_app, !to_le_length. pose proof (padded_length (length a.2)).
  rewrite Nat2Z.inj_add. change (Z.of_nat 4) with 4. rewrite align4_plus4 by lia.
  pose proof (align4_spec (Z.of_nat (length a.2)) ltac:(lia)). lia.
Qed.

Lemma default_some {A} (a b : A) : default a (Some b) = b.
Proof. done. Qed.
Lemma take_app_exact {A} n (l k : list A) : n = length l -> take n (l ++ k) = l.
Proof. intros ->. apply take_app_length. Qed.
Lemma drop_app_exact {A} n (l k : list A) : n = length l -> drop n (l ++ k) = k.
Proof. intros ->. apply drop_app_length. Qed.

Lemma read_le_app n v rest : 0 <= v < 256 ^ Z.of_nat n -> read_le n (to_le n v ++ rest) = Some v.
Proof.
  intros Hv. unfold read_le. rewrite length_app, to_le_length, (proj2 (Nat.leb_le _ _)) by lia.
  by rewrite take_app_exact, from_to_le by (by rewrite ?to_le_length).
Qed.

Lemma index_range_app a b (pre mid post : list Z) :
  a = length pre -> b = length (pre ++ mid) -> index_range a b (pre ++ mid ++ post) = Ok mid.
Proof.
  intros -> ->. unfold index_range. rewrite !length_app.
  rewrite !(proj2 (Nat.leb_le _ _)) by lia. cbn [andb]. rewrite drop_app_length.
  f_equal. apply take_app_exact. lia.
Qed.
Lemma index_from_app a (pre post : list Z) : a = length pre -> index_from a (pre ++ post) = Ok post.
Proof.
  intros Ha. unfold index_from. rewrite <- (app_nil_r post) at 2. apply index_range_app; [done |].
  by rewrite length_app.
Qed.

Lemma next_attribute_encoded a rest :
  attribute_fits a -> next_attribute (encode_attribute a ++ rest) = Some (Ok a, rest).
Proof.
  intros [Hk Hl]. set (n := length a.2) in *. unfold encode_attribute. fold n.
  set (bytes := (to_le 2 (4 + Z.of_nat n) ++ to_le 2 a.1 ++ a.2 ++ padding n) ++ rest).
  assert (Hlen : length bytes = (Z.to_nat (align4 (Z.of_nat (4 + n))) + length rest)%nat).
  { unfold bytes. rewrite length_app. f_equal. exact (encode_attribute_length a). }
  pose proof (align4_spec (Z.of_nat (4 + n)) ltac:(lia)) as Hal.
  unfold next_attribute. destruct bytes as [| b0 l0] eqn:Hb; [cbn [length] in Hlen; lia |]. rewrite <- Hb in *. clear b0 l0 Hb.
  replace (length bytes <? 4)%nat with false by (symmetry; apply Nat.ltb_ge; lia).
  assert (Hr : read_u16 bytes = Some (4 + Z.of_nat n)).
  { unfold read_u16, bytes. rewrite <- !app_assoc. apply read_le_app. change (256 ^ Z.of_nat 2) with 65536. lia. }
  rewrite Hr, default_some. replace (Z.to_nat (4 + Z.of_nat n)) with (4 + n)%nat by lia.
  assert (H2 : index_from 2 bytes = Ok (to_le 2 a.1 ++ a.2 ++ padding n ++ rest)).
  { unfold bytes. rewrite <- !app_assoc. by apply index_from_app. }
  assert (Hr2 : read_u16 (to_le 2 a.1 ++ a.2 ++ padding n ++ rest) = Some a.1).
  { apply read_le_app. change (256 ^ Z.of_nat 2) with 65536. lia. }
  rewrite H2, Hr2, default_some.
  change 16383 with (Z.ones 14). rewrite Z.land_ones, Z.mod_small by (change (2 ^ 14) with 16384; lia).
  replace (4 + n <? 4)%nat with false by (symmetry; apply Nat.ltb_ge; lia).
  replace (length bytes <? 4 + n)%nat with false by (symmetry; apply Nat.ltb_ge; lia). cbn [orb].
  assert (Hv : index_range 4 (4 + n) bytes = Ok a.2).
  { unfold bytes. rewrite <- !app_assoc. rewrite (app_assoc (to_le 2 _)).
    apply index_range_app; rewrite ?length_app, ?to_le_length; simpl; [done | unfold n; lia]. }
  rewrite Hv. destruct (length bytes <=? _)%nat eqn:Hle.
  - apply Nat.leb_le in Hle. destruct rest; [by destruct a | cbn [length] in Hlen; lia].
  - assert (Hrest : index_from (Z.to_nat (align4 (Z.of_nat (4 + n)))) bytes = Ok rest).
    { unfold bytes. apply index_from_app. symmetry. exact (encode_attribute_length a). }
    rewrite Hrest. by destruct a.
Qed.

(** The loop over encoded attributes is the loop over the attributes. *)
Fixpoint each_attribute {S A} (body : S -> Z -> list Z -> result (S + A) Failure) (s : S) (l : list (Z * list Z))
  : result (S + A) Failure :=
  match l with
  | [] => Ok (inl s)
  | a :: l =>
      let? next := body s a.1 a.2 in
      match next with inl s => each_attribute body s l | inr x => Ok (inr x) end
  end.

Lemma for_attributes_encoded {S A} (body : S -> Z -> list Z -> result (S + A) Failure) l : forall fuel s,
  Forall attribute_fits l -> (length l <= fuel)%nat ->
  for_attributes body fuel s (concat (map encode_attribute l)) = each_attribute body s l.
Proof.
  induction l as [| a l IH]; intros fuel s Hl Hf; [by destruct fuel |].
  destruct fuel as [| fuel]; [simpl in Hf; lia |]. apply Forall_cons in Hl as [Ha Hl].
  cbn [map concat for_attributes each_attribute]. rewrite next_attribute_encoded by done. cbn [result_bind].
  destruct (body s a.1 a.2) as [[s' | x] | e]; cbn [result_bind]; [| done | done].
  apply IH; [done | simpl in Hf; lia].
Qed.

Lemma encoded_count l : (length l <= length (concat (map encode_attribute l)))%nat.
Proof.
  induction l as [| a l IH]; [done |]. cbn [map concat length]. rewrite length_app, encode_attribute_length.
  pose proof (align4_spec (Z.of_nat (4 + length a.2)) ltac:(lia)). lia.
Qed.

(** ** Links and messages *)

(** A link as a kernel describes it: its name has no NUL and is UTF-8. *)
Record Link := {
  l_index : Z; l_hardware_type : Z; l_flags : Z; l_name : list Z;
  l_traffic : option (Z * Z); l_kind : option (list Z);
}.
Definition text_ok (l : list Z) : Prop := Forall (fun b => b <> 0) l /\ valid_utf8 l = true.
Definition is_u64 (z : Z) : Prop := 0 <= z <= u64_max.
Definition link_ok (k : Link) : Prop :=
  0 < l_index k < 2147483648 /\ 0 <= l_hardware_type k <= u16_max /\ 0 <= l_flags k <= u32_max /\
  text_ok (l_name k) /\ (length (l_name k) < 1000)%nat /\
  (forall t, l_traffic k = Some t -> is_u64 t.1 /\ is_u64 t.2) /\
  (forall s, l_kind k = Some s -> text_ok s /\ (length s < 1000)%nat).

(** [rtnl_link_stats64]: packets received and sent, then bytes. *)
Definition encode_stats64 (t : Z * Z) : list Z := to_le 8 0 ++ to_le 8 0 ++ to_le 8 t.1 ++ to_le 8 t.2.
Definition link_attributes (k : Link) : list (Z * list Z) :=
  [(IFLA_IFNAME, l_name k ++ [0])]
  ++ (match l_traffic k with Some t => [(IFLA_STATS64, encode_stats64 t)] | None => [] end)
  ++ (match l_kind k with
      | Some s => [(IFLA_LINKINFO, encode_attribute (IFLA_INFO_KIND, s ++ [0]))] | None => [] end).
Definition encode_link (k : Link) : list Z :=
  (to_le 2 0 ++ to_le 2 (l_hardware_type k) ++ to_le 4 (l_index k) ++ to_le 4 (l_flags k) ++ to_le 4 0)
  ++ concat (map encode_attribute (link_attributes k)).

Lemma until_nul_text l rest : Forall (fun b => b <> 0) l -> until_nul (l ++ 0 :: rest) = Some l.
Proof.
  induction 1 as [| b l Hb Hl IH]; [done |]. cbn [app until_nul]. replace (b =? 0) with false by lia. by rewrite IH.
Qed.

Lemma parse_text l : text_ok l -> parse_nul_string (l ++ [0]) = Some (string_of_bytes l).
Proof. intros [Hn Hu]. unfold parse_nul_string. rewrite until_nul_text by done. simpl. by rewrite Hu. Qed.

Lemma parse_stats_encoded t : is_u64 t.1 -> is_u64 t.2 ->
  parse_stats64 (encode_stats64 t) = Some {| rx_bytes := t.1; tx_bytes := t.2; width := Bits64 |}.
Proof.
  intros H1 H2. unfold parse_stats64, encode_stats64, is_u64, u64_max in *.
  assert (Hg16 : get_from 16 (to_le 8 0 ++ to_le 8 0 ++ to_le 8 t.1 ++ to_le 8 t.2) = Some (to_le 8 t.1 ++ to_le 8 t.2)) by done.
  assert (Hg24 : get_from 24 (to_le 8 0 ++ to_le 8 0 ++ to_le 8 t.1 ++ to_le 8 t.2) = Some (to_le 8 t.2 ++ [])) by done.
  rewrite Hg16, Hg24. cbn [mbind option_bind]. unfold read_u64.
  rewrite !read_le_app by (change (256 ^ Z.of_nat 8) with 18446744073709551616; lia). done.
Qed.

Lemma parse_kind_encoded s : text_ok s -> (length s < 1000)%nat ->
  parse_link_kind (encode_attribute (IFLA_INFO_KIND, s ++ [0])) = Ok (Some (string_of_bytes s)).
Proof.
  intros Hs Hl. set (l := [(IFLA_INFO_KIND, s ++ [0])]).
  assert (He : encode_attribute (IFLA_INFO_KIND, s ++ [0]) = concat (map encode_attribute l))
    by (cbn [l map concat]; by rewrite app_nil_r).
  rewrite He. unfold parse_link_kind. rewrite for_attributes_encoded; [| | apply encoded_count].
  - simpl. by rewrite parse_text.
  - constructor; [| constructor]. unfold attribute_fits, IFLA_INFO_KIND. cbn [fst snd]. rewrite length_app. cbn [length]. lia.
Qed.

Section RoundTrip.
Context (device_exists : string -> bool).

(** The interface a link is. *)
Definition interface_of (k : Link) : RawInterface :=
  let kernel_kind := string_of_bytes <$> l_kind k in
  {| NetworkSampler.id := (l_index k, string_of_bytes (l_name k));
     kind := classify_interface device_exists (string_of_bytes (l_name k)) (l_hardware_type k) (l_flags k) kernel_kind;
     NetworkSampler.kernel_kind := kernel_kind;
     is_up := negb (Z.land (l_flags k) IFF_UP =? 0);
     carrier_up := negb (Z.land (l_flags k) IFF_LOWER_UP =? 0);
     counters := (fun t => {| rx_bytes := t.1; tx_bytes := t.2; width := Bits64 |}) <$> l_traffic k |}.

Lemma link_attributes_fit k : link_ok k -> Forall attribute_fits (link_attributes k).
Proof.
  intros (_ & _ & _ & _ & Hn & _ & Hk). unfold link_attributes, attribute_fits.
  unfold IFLA_IFNAME, IFLA_STATS64, IFLA_LINKINFO. apply Forall_app. split; [| apply Forall_app; split].
  - constructor; [| constructor]. cbn [fst snd]. rewrite length_app. cbn [length]. lia.
  - destruct (l_traffic k); constructor; [| constructor]. split; [cbn; lia | done].
  - destruct (l_kind k) as [s |] eqn:Hs; constructor; [| constructor]. destruct (Hk s eq_refl) as [_ Hl].
    cbn [fst snd]. rewrite encode_attribute_length. cbn [snd]. rewrite length_app. cbn [length].
    pose proof (align4_spec (Z.of_nat (4 + (length s + 1))) ltac:(lia)). lia.
Qed.

Lemma parse_encoded_attributes k : link_ok k ->
  each_attribute link_attribute no_attributes (link_attributes k) =
  Ok (inl {| attr_name := Some (string_of_bytes (l_name k)); attr_counters64 := counters (interface_of k);
             attr_counters32 := None; attr_kernel_kind := string_of_bytes <$> l_kind k |}).
Proof.
  intros (_ & _ & _ & Ht & _ & Hc & Hk). unfold link_attributes, interface_of.
  destruct (l_traffic k) as [t |], (l_kind k) as [s |]; cbn -[encode_attribute encode_stats64 parse_nul_string parse_link_kind parse_stats64];
    try (destruct (Hc t eq_refl) as [Hc1 Hc2]; rewrite parse_stats_encoded by done);
    try (destruct (Hk s eq_refl) as [Hks Hkl]; rewrite parse_kind_encoded by done);
    cbn -[encode_attribute encode_stats64 parse_nul_string parse_stats64]; by rewrite parse_text.
Qed.

Lemma parse_link_encoded k : link_ok k -> parse_link device_exists (encode_link k) = Ok (interface_of k).
Proof.
  intros Hok. pose proof Hok as ((Hi1 & Hi2) & Hw & Hf & _). unfold u16_max, u32_max in *. unfold parse_link.
  assert (Hlen : (length (encode_link k) <? INTERFACE_INFO_SIZE)%nat = false).
  { apply Nat.ltb_ge. unfold encode_link. rewrite !length_app, !to_le_length. unfold INTERFACE_INFO_SIZE. lia. }
  rewrite Hlen. unfold encode_link. set (rest := concat _).
  change (firstn 4 (skipn 4 _)) with (to_le 4 (l_index k)). change (firstn 4 (skipn 8 _)) with (to_le 4 (l_flags k)).
  change (firstn 2 (skipn 2 _)) with (to_le 2 (l_hardware_type k)).
  rewrite !from_to_le.
  2: change (256 ^ Z.of_nat 4) with 4294967296; lia.
  2: change (256 ^ Z.of_nat 2) with 65536; lia.
  2: change (256 ^ Z.of_nat 4) with 4294967296; lia.
  unfold to_i32. replace (l_index k <? 2147483648) with true by lia. replace (l_index k <=? 0) with false by lia.
  rewrite index_from_app by done. cbn [result_bind]. unfold rest.
  rewrite for_attributes_encoded by (apply link_attributes_fit || apply encoded_count; done).
  rewrite parse_encoded_attributes by done. cbn [result_bind attr_name ok_or attr_counters64 attr_counters32 attr_kernel_kind].
  unfold interface_of. by destruct (l_traffic k).
Qed.

(** ** Messages and datagrams *)

Record Message := { m_type : Z; m_flags : Z; m_payload : list Z }.
Definition encode_message (sequence : Z) (m : Message) : list Z :=
  to_le 4 (16 + Z.of_nat (length (m_payload m))) ++ to_le 2 (m_type m) ++ to_le 2 (m_flags m)
  ++ to_le 4 sequence ++ to_le 4 0 ++ m_payload m ++ padding (length (m_payload m)).
Definition message_ok (m : Message) : Prop :=
  0 <= m_type m <= u16_max /\ 0 <= m_flags m <= u16_max /\ Z.of_nat (length (m_payload m)) <= 4000000000.
Definition message_header (sequence : Z) (m : Message) : NetlinkHeader :=
  {| header_length := 16 + Z.of_nat (length (m_payload m)); message_type := m_type m; header_flags := m_flags m;
     header_sequence := sequence; header_port_id := 0 |}.

Lemma encode_message_length sequence m :
  length (encode_message sequence m) = Z.to_nat (align4 (16 + Z.of_nat (length (m_payload m)))).
Proof.
  unfold encode_message. rewrite !length_app, !to_le_length. pose proof (padded_length (length (m_payload m))).
  rewrite !align4_eq in *. replace (16 + Z.of_nat (length (m_payload m)) + 3)
    with ((Z.of_nat (length (m_payload m)) + 3) + 4 * 4) by lia. rewrite Z.div_add by lia.
  assert (0 <= (Z.of_nat (length (m_payload m)) + 3) / 4) by (apply Z.div_pos; lia). lia.
Qed.

Lemma read_header_encoded sequence m rest :
  message_ok m -> 0 <= sequence <= u32_max ->
  read_header (encode_message sequence m ++ rest) = Ok (message_header sequence m).
Proof.
  intros (Ht & Hf & Hl) Hs. unfold u16_max, u32_max in *. unfold read_header.
  assert (Hlen : (length (encode_message sequence m ++ rest) <? HEADER_SIZE)%nat = false).
  { apply Nat.ltb_ge. rewrite length_app, encode_message_length. unfold HEADER_SIZE.
    pose proof (align4_spec (16 + Z.of_nat (length (m_payload m))) ltac:(lia)). lia. }
  rewrite Hlen. unfold encode_message, message_header.
  change (firstn 4 (skipn 0 _)) with (to_le 4 (16 + Z.of_nat (length (m_payload m)))).
  change (firstn 2 (skipn 4 _)) with (to_le 2 (m_type m)). change (firstn 2 (skipn 6 _)) with (to_le 2 (m_flags m)).
  change (firstn 4 (skipn 8 _)) with (to_le 4 sequence). change (firstn 4 (skipn 12 _)) with (to_le 4 0).
  rewrite !from_to_le; [done | ..].
  all: try change (256 ^ Z.of_nat 4) with 4294967296; try change (256 ^ Z.of_nat 2) with 65536; lia.
Qed.

Fixpoint each_message (sequence : Z) (l : list Message) (st : list RawInterface * DumpBudget)
  : result ((list RawInterface * DumpBudget) + list RawInterface) Failure :=
  match l with
  | [] => Ok (inl st)
  | m :: l =>
      let? next := handle_message device_exists sequence (message_header sequence m) (m_payload m) st in
      match next with inl st => each_message sequence l st | inr x => Ok (inr x) end
  end.

Lemma scan_encoded sequence l : 0 <= sequence <= u32_max -> forall fuel pre st,
  Forall message_ok l -> (length l <= fuel)%nat ->
  Z.of_nat (length (pre ++ concat (map (encode_message sequence) l))) <= MAX_DUMP_DATAGRAM_BYTES ->
  scan_datagram device_exists fuel sequence (pre ++ concat (map (encode_message sequence) l)) (length pre) st
  = each_message sequence l st.
Proof.
  intros Hs. induction l as [| m l IH]; intros fuel pre st Hl Hf Hb.
  { destruct fuel; [done |]. cbn [map concat scan_datagram each_message]. rewrite app_nil_r.
    replace (length pre + HEADER_SIZE <=? length pre)%nat with false; [done |]. symmetry. apply Nat.leb_gt. unfold HEADER_SIZE. lia. }
  destruct fuel as [| fuel]; [simpl in Hf; lia |]. apply Forall_cons in Hl as [Hm Hl]. cbn [map concat] in *.
  set (post := concat (map (encode_message sequence) l)) in *. set (n := length (m_payload m)).
  pose proof (encode_message_length sequence m) as Hel. fold n in Hel.
  pose proof (align4_spec (16 + Z.of_nat n) ltac:(lia)) as Hal.
  rewrite !length_app in Hb. unfold MAX_DUMP_DATAGRAM_BYTES in Hb.
  cbn [scan_datagram each_message]. unfold HEADER_SIZE.
  rewrite (proj2 (Nat.leb_le (length pre + 16) _)) by (rewrite !length_app; lia).
  rewrite index_from_app by done. cbn [result_bind]. rewrite read_header_encoded by done. cbn [result_bind header_length message_header].
  fold n. replace (Z.to_nat (16 + Z.of_nat n)) with (16 + n)%nat by lia.
  rewrite (proj2 (Nat.ltb_ge (16 + n) 16)) by lia. rewrite (proj2 (Nat.ltb_ge _ (length pre + (16 + n)))) by (rewrite !length_app; lia).
  cbn [orb].
  assert (Hp : index_range (length pre + 16) (length pre + (16 + n)) (pre ++ encode_message sequence m ++ post) = Ok (m_payload m)).
  { unfold encode_message.
    set (h := to_le 4 (16 + Z.of_nat (length (m_payload m))) ++ to_le 2 (m_type m) ++ to_le 2 (m_flags m) ++ to_le 4 sequence ++ to_le 4 0).
    replace (pre ++ _) with ((pre ++ h) ++ m_payload m ++ (padding (length (m_payload m)) ++ post))
      by (unfold h; by rewrite <- !app_assoc).
    apply index_range_app; rewrite !length_app; [done | fold n]. unfold h. rewrite !length_app, !to_le_length. lia. }
  rewrite Hp. cbn [result_bind]. destruct (handle_message _ _ _ _ _) as [[st' | x] | e]; cbn [result_bind]; [| done | done].
  replace (Z.of_nat (16 + n)) with (16 + Z.of_nat n) by lia.
  unfold checked_u64. replace (in_u64 _) with true by width. cbn [ok_or result_bind].
  replace (Z.to_nat (Z.of_nat (length pre) + align4 (16 + Z.of_nat n))) with (length (pre ++ encode_message sequence m))
    by (rewrite length_app; lia).
  rewrite app_assoc. apply IH; [done | cbn [length] in Hf; lia |]. rewrite !length_app. unfold MAX_DUMP_DATAGRAM_BYTES. fold post. lia.
Qed.

(** ** Dumps *)

Definition newlink (k : Link) : Message := {| m_type := RTM_NEWLINK; m_flags := 2; m_payload := encode_link k |}.
Definition done_message : Message := {| m_type := NLMSG_DONE; m_flags := 2; m_payload := to_le 4 0 |}.

Lemma newlink_ok k : link_ok k -> Z.of_nat (length (encode_link k)) <= 65536 -> message_ok (newlink k).
Proof. intros _ Hl. unfold message_ok, newlink, u16_max, RTM_NEWLINK. cbn [m_type m_flags m_payload]. lia. Qed.

Lemma handle_newlink sequence k l b :
  link_ok k -> 0 <= budget_interfaces b < MAX_RAW_INTERFACES ->
  handle_message device_exists sequence (message_header sequence (newlink k)) (m_payload (newlink k)) (l, b) =
  Ok (inl (l ++ [interface_of k],
           {| budget_datagrams := budget_datagrams b; budget_bytes := budget_bytes b; budget_interfaces := budget_interfaces b + 1 |})).
Proof.
  intros Hk Hb. unfold MAX_RAW_INTERFACES in Hb. unfold handle_message, validate_dump_header. cbn [message_header newlink message_type header_sequence header_flags m_type m_flags m_payload].
  change (RTM_NEWLINK =? NLMSG_OVERRUN) with false. rewrite Z.eqb_refl. cbn [negb].
  change (Z.land 2 NLM_F_DUMP_INTR =? 0) with true. cbn [negb result_bind].
  change (RTM_NEWLINK =? NLMSG_DONE) with false. change (RTM_NEWLINK =? NLMSG_ERROR) with false.
  change (RTM_NEWLINK =? RTM_NEWLINK) with true. cbv iota. unfold record_interface, counted, checked_u64. cbn [snd fst].
  replace (in_u64 (budget_interfaces b + 1)) with true by width. cbn [ok_or result_bind].
  unfold enforce_dump_limit. replace (MAX_RAW_INTERFACES <? budget_interfaces b + 1) with false by (unfold MAX_RAW_INTERFACES; lia).
  cbn [result_bind]. by rewrite parse_link_encoded.
Qed.

Lemma each_newlink sequence ks : forall l b,
  Forall link_ok ks -> 0 <= budget_interfaces b -> budget_interfaces b + Z.of_nat (length ks) <= MAX_RAW_INTERFACES ->
  each_message sequence (map newlink ks) (l, b) =
  Ok (inl (l ++ map interface_of ks,
           {| budget_datagrams := budget_datagrams b; budget_bytes := budget_bytes b;
              budget_interfaces := budget_interfaces b + Z.of_nat (length ks) |})).
Proof.
  induction ks as [| k ks IH]; intros l b Hk Hb Hm.
  - cbn. rewrite app_nil_r, Z.add_0_r. by destruct b.
  - apply Forall_cons in Hk as [Hk Hks]. cbn [length] in Hm. rewrite Nat2Z.inj_succ in Hm. cbn [map each_message].
    rewrite handle_newlink by (done || lia). cbn [result_bind]. rewrite IH by (done || (cbn; lia)).
    cbn [budget_datagrams budget_bytes budget_interfaces length app]. rewrite <- app_assoc, Nat2Z.inj_succ.
    replace (budget_interfaces b + 1 + Z.of_nat (length ks)) with (budget_interfaces b + Z.succ (Z.of_nat (length ks))) by lia. done.
Qed.

Lemma each_done sequence st : each_message sequence [done_message] st = Ok (inr st.1).
Proof.
  cbn [each_message]. unfold handle_message, validate_dump_header.
  cbn [message_header done_message message_type header_sequence header_flags m_type m_flags m_payload].
  by rewrite Z.eqb_refl.
Qed.

Definition kernel : Sender := {| sender_length := SOCKADDR_NL_SIZE; nl_family := AF_NETLINK; nl_pid := 0 |}.
Definition datagram_event (t : Z) (bytes : list Z) : SocketEvent :=
  {| event_at := t; event := Poll_ready false (Recv_datagram (Z.of_nat (length bytes)) bytes kernel) |}.

Definition group_bytes (sequence : Z) (ks : list Link) : list Z := concat (map (encode_message sequence) (map newlink ks)).

(** What one more datagram of [n] bytes makes of a budget. *)
Definition charge (n links : Z) (b : DumpBudget) : DumpBudget :=
  {| budget_datagrams := budget_datagrams b + 1; budget_bytes := budget_bytes b + n;
     budget_interfaces := budget_interfaces b + links |}.
Definition budget_typed (b : DumpBudget) : Prop :=
  0 <= budget_datagrams b /\ 0 <= budget_bytes b /\ 0 <= budget_interfaces b.

Lemma receive_encoded sequence ms l b :
  let bytes := concat (map (encode_message sequence) ms) in
  0 <= sequence <= u32_max -> Forall message_ok ms -> budget_typed b ->
  1 <= Z.of_nat (length bytes) <= MAX_DUMP_DATAGRAM_BYTES -> (length ms <= length bytes)%nat ->
  budget_datagrams b + 1 <= MAX_DUMP_DATAGRAMS -> budget_bytes b + Z.of_nat (length bytes) <= MAX_DUMP_BYTES ->
  receive_datagram device_exists sequence (Z.of_nat (length bytes)) bytes kernel (l, b) =
  each_message sequence ms (l, charge (Z.of_nat (length bytes)) 0 b).
Proof.
  intros bytes Hs Hm (Hb1 & Hb2 & Hb3) Hlen Hcount Hd Hbytes. unfold receive_datagram.
  replace (MAX_DUMP_DATAGRAM_BYTES <? _) with false by lia. replace (Z.of_nat (length bytes) =? 0) with false by lia.
  change (validate_kernel_sender kernel) with (Ok tt : result unit Failure). cbn [result_bind fst snd].
  unfold record_datagram, counted, checked_u64, MAX_DUMP_DATAGRAMS, MAX_DUMP_BYTES in *.
  replace (in_u64 (budget_datagrams b + 1)) with true by width. cbn [ok_or result_bind].
  unfold enforce_dump_limit at 1. replace (256 <? _) with false by lia. cbn [result_bind].
  replace (in_u64 (budget_bytes b + _)) with true by width. cbn [ok_or result_bind].
  unfold enforce_dump_limit. replace (8 * 1024 * 1024 <? _) with false by lia. cbn [result_bind].
  unfold charge. rewrite Z.add_0_r. apply (scan_encoded sequence ms Hs (length bytes) []); [done | done | cbn [app length]; fold bytes; lia].
Qed.

Lemma poll_covers d : 0 < d <= RTNETLINK_RECEIVE_DEADLINE -> d <= duration_to_poll_timeout d * 1000000.
Proof.
  unfold RTNETLINK_RECEIVE_DEADLINE. intros Hd. unfold duration_to_poll_timeout, clamp.
  pose proof (Z.div_mod d 1000000 ltac:(lia)). pose proof (Z.mod_pos_bound d 1000000 ltac:(lia)).
  destruct (d mod 1000000 =? 0) eqn:Hm; lia.
Qed.

Definition total_bytes (datagrams : list (list Z)) : Z := fold_right (fun d n => Z.of_nat (length d) + n) 0 datagrams.

Lemma total_bytes_nonneg ds : 0 <= total_bytes ds.
Proof. induction ds; simpl; lia. Qed.

Lemma receive_ready sequence deadline now t bytes events st :
  now < deadline -> deadline - now <= RTNETLINK_RECEIVE_DEADLINE -> t < deadline ->
  receive_loop device_exists sequence deadline (datagram_event t bytes :: events) now st =
  (let? next := receive_datagram device_exists sequence (Z.of_nat (length bytes)) bytes kernel st in
   match next with
   | inr interfaces => Ok interfaces
   | inl st => receive_loop device_exists sequence deadline events (Z.max now t) st
   end).
Proof.
  intros Hn Hd Ht. cbn [receive_loop datagram_event event_at event].
  replace (deadline <=? now) with false by lia. pose proof (poll_covers (deadline - now) ltac:(lia)).
  by replace (now + _ <? Z.max now t) with false by lia.
Qed.

Lemma group_bounds sequence ks :
  ks <> [] -> 1 <= Z.of_nat (length (group_bytes sequence ks)) /\
  (length (map newlink ks) <= length (group_bytes sequence ks))%nat /\
  Forall (fun k => (length (encode_link k) <= length (group_bytes sequence ks))%nat) ks.
Proof.
  assert (Hone : forall k, (1 <= length (encode_message sequence (newlink k)))%nat /\
                           (length (encode_link k) <= length (encode_message sequence (newlink k)))%nat).
  { intros k. rewrite encode_message_length. cbn [newlink m_payload].
    pose proof (align4_spec (16 + Z.of_nat (length (encode_link k))) ltac:(lia)). lia. }
  assert (Hall : (length (map newlink ks) <= length (group_bytes sequence ks))%nat /\
    Forall (fun k => (length (encode_link k) <= length (group_bytes sequence ks))%nat) ks).
  { unfold group_bytes. induction ks as [| k ks [IH1 IH2]]; [split; [done | constructor] |].
    cbn [map concat length]. rewrite length_app. destruct (Hone k) as [H1 H2]. split; [lia |].
    constructor; [lia |]. eapply Forall_impl; [exact IH2 |]. simpl. lia. }
  intros Hne. destruct Hall as [H1 H2]. split_and!; [| done | done].
  destruct ks; [done |]. cbn [map length] in H1. lia.
Qed.

Lemma receive_groups sequence deadline : 0 <= sequence <= u32_max -> forall groups times now l b,
  Forall (fun ks => ks <> [] /\ Forall link_ok ks) groups ->
  let datagrams := map (group_bytes sequence) groups ++ [encode_message sequence done_message] in
  length times = length datagrams -> Forall (fun t => t < deadline) times ->
  now < deadline -> deadline - now <= RTNETLINK_RECEIVE_DEADLINE ->
  Forall (fun d => Z.of_nat (length d) <= MAX_DUMP_DATAGRAM_BYTES) datagrams -> budget_typed b ->
  budget_interfaces b + Z.of_nat (length (concat groups)) <= MAX_RAW_INTERFACES ->
  budget_datagrams b + Z.of_nat (length datagrams) <= MAX_DUMP_DATAGRAMS ->
  budget_bytes b + total_bytes datagrams <= MAX_DUMP_BYTES ->
  receive_loop device_exists sequence deadline (zip_with datagram_event times datagrams) now (l, b)
  = Ok (l ++ map interface_of (concat groups)).
Proof.
  intros Hs. induction groups as [| ks groups IH]; intros times now l b Hg datagrams Hlen Ht Hn Hd Hsize Hb Hi Hdg Hby;
    unfold datagrams in *; clear datagrams.
  - cbn [map app] in *. destruct times as [| t [| ? ?]]; try discriminate Hlen. apply Forall_cons in Ht as [Ht _].
    apply Forall_cons in Hsize as [Hsize _]. cbn [zip_with]. rewrite receive_ready by done.
    replace (encode_message sequence done_message) with (concat (map (encode_message sequence) [done_message])) by apply app_nil_r.
    cbn [total_bytes fold_right length] in Hby, Hdg.
    rewrite receive_encoded; [rewrite each_done; cbn; by rewrite app_nil_r | done | | done | | | lia | ].
    + repeat constructor; vm_compute; discriminate.
    + split; [vm_compute; discriminate | vm_compute; discriminate].
    + vm_compute. lia.
    + change (concat _) with (encode_message sequence done_message ++ []). rewrite app_nil_r. lia.
  - apply Forall_cons in Hg as [[Hne Hks] Hg]. cbn [map app concat] in *. destruct times as [| t times]; [discriminate |].
    apply Forall_cons in Ht as [Ht Hts]. apply Forall_cons in Hsize as [Hsz Hsizes]. cbn [zip_with].
    destruct (group_bounds sequence ks Hne) as (Hg1 & Hg2 & Hg3). cbn [total_bytes fold_right] in Hby.
    set (rest := map (group_bytes sequence) groups ++ [encode_message sequence done_message]) in *.
    fold (total_bytes rest) in Hby. cbn [length] in Hdg, Hlen. pose proof (total_bytes_nonneg rest) as Hpos.
    rewrite length_app in Hi. destruct Hb as (Hb1 & Hb2 & Hb3).
    rewrite receive_ready by done. unfold group_bytes. rewrite receive_encoded; fold (group_bytes sequence ks);
      [| done | | done | lia | done | lia | lia].
    2: { rewrite Forall_map. apply Forall_forall. intros k Hk. rewrite Forall_forall in Hks, Hg3.
         apply newlink_ok; [by apply Hks |]. specialize (Hg3 k Hk). unfold MAX_DUMP_DATAGRAM_BYTES in Hsz. lia. }
    rewrite each_newlink; [| done | cbn; lia | cbn; lia]. cbn [result_bind charge budget_datagrams budget_bytes budget_interfaces].
    rewrite IH; first [done | lia | congruence | unfold budget_typed; cbn; lia | by rewrite map_app, app_assoc].
Qed.

End RoundTrip.

(** Witnesses: two datagrams of one link each, and the end of the dump. *)
Definition sample_link (index : Z) (name : string) (k : option (list Z)) : Link :=
  {| l_index := index; l_hardware_type := 1; l_flags := 65537; l_name := bytes name;
     l_traffic := Some (100 * index, 200 * index); l_kind := k |}.
Definition sample_groups : list (list Link) :=
  [[sample_link 2 "eth0" None]; [sample_link 3 "tun0" (Some (bytes "tun"))]].
Definition sample_attempt : nat -> Attempt := fun _ =>
  {| open_route_socket := Ok tt; sent := Ok REQUEST_SIZE; attempt_now := 5;
     attempt_events := zip_with datagram_event [6; 7; 9]
       (map (group_bytes 1) sample_groups ++ [encode_message 1 done_message]) |}.

Lemma sample_link_ok index name k : 0 < index < 1000 -> text_ok (bytes name) -> (length (bytes name) < 1000)%nat ->
  (forall s, k = Some s -> text_ok s /\ (length s < 1000)%nat) -> link_ok (sample_link index name k).
Proof.
  intros Hi Ht Hl Hk. unfold link_ok, is_u64, u64_max. cbn [sample_link l_index l_hardware_type l_flags l_name l_traffic l_kind].
  unfold u16_max, u32_max. split_and!; first [exact Ht | exact Hl | exact Hk | lia | intros t [= <-]; cbn; lia].
Qed.

Lemma text_bytes s : forallb (fun b => negb (b =? 0)) (bytes s) && valid_utf8 (bytes s) = true -> text_ok (bytes s).
Proof.
  intros H. apply andb_true_iff in H as [Hf Hu]. split; [| done]. rewrite forallb_forall in Hf. apply Forall_forall.
  intros b Hb. apply list_elem_of_In in Hb. specialize (Hf b Hb). lia.
Qed.


Lemma dump_parsing_is_safe_witness :
  snd (collect (fun _ => false) 0 sample_attempt 0) <> Err Panic.
Proof.
  apply (dump_parsing_is_safe (fun _ => false) 0 sample_attempt 0
           (fst (collect (fun _ => false) 0 sample_attempt 0)) (snd (collect (fun _ => false) 0 sample_attempt 0))).
  - intros n. repeat constructor; vm_compute; discriminate.
  - vm_compute. reflexivity.
Defined.
