(* ===== verification/NetworkHelper.v ===== *)
(** [crates/network-helper-protocol/src/lib.rs], the protocol of the network
    helper, and [bins/network-helper]: its request loop over the protocol and
    the collector of [collector.rs].

    [serde_json] is a parameter (class [Json]); so are [libbpf] and the kernel:
    the outcome of each of their calls is part of an environment a collection
    runs in. *)
From S2P Require Import Prelude Frame HelperFrame NetworkSampler.

(** ** The protocol *)

Definition PROTOCOL_VERSION : Z := 1.
Definition MAX_FRAME_BYTES : Z := 512 * 1024.
Definition MAX_BINDINGS : Z := 4096.
Definition MAX_COUNTER_RECORDS : Z := 4096.
Definition MAX_APPLICATION_KEY_BYTES : Z := 512.
Definition MAX_REASON_BYTES : Z := 256.

Inductive RequestKind := Collect.
#[export] Instance RequestKind_eq_dec : EqDecision RequestKind.
Proof. solve_decision. Defined.

Record CgroupBinding := { binding_cgroup_id : Z; binding_application_key : string }.
#[export] Instance CgroupBinding_eq_dec : EqDecision CgroupBinding.
Proof. solve_decision. Defined.

Record CollectionRequest := {
  request_version : Z;
  generation : Z;
  kind : RequestKind;
  bindings : list CgroupBinding;
}.
#[export] Instance CollectionRequest_eq_dec : EqDecision CollectionRequest.
Proof. solve_decision. Defined.

Definition CollectionRequest_collect (generation : Z) (bindings : list CgroupBinding) : CollectionRequest :=
  {| request_version := PROTOCOL_VERSION; generation := generation; kind := Collect; bindings := bindings |}.

Definition validate_version (version : Z) : result unit FrameError :=
  if version =? PROTOCOL_VERSION then Ok tt else Err (UnsupportedVersion version).

Definition validate_application_key (value : string) : result unit FrameError :=
  fail_if is_empty value || (MAX_APPLICATION_KEY_BYTES <? len value) || contains_byte nul value
    with InvalidPayload "application_key_invalid" in
  Ok tt.

(** The loop over bindings, and the one over counter records: [ids] are those
    seen. *)
Fixpoint validate_bindings (ids : gset Z) (l : list CgroupBinding) : result unit FrameError :=
  match l with
  | [] => Ok tt
  | binding :: l =>
      fail_if binding_cgroup_id binding =? 0 with InvalidPayload "cgroup_id_invalid" in
      fail_if bool_decide (binding_cgroup_id binding ∈ ids) with InvalidPayload "cgroup_id_duplicate" in
      let? _ := validate_application_key (binding_application_key binding) in
      validate_bindings ({[binding_cgroup_id binding]} ∪ ids) l
  end.

Definition CollectionRequest_validate (request : CollectionRequest) : result unit FrameError :=
  let? _ := validate_version (request_version request) in
  fail_if generation request =? 0 with InvalidPayload "generation_must_be_nonzero" in
  fail_if MAX_BINDINGS <? Z.of_nat (length (bindings request)) with InvalidPayload "binding_limit_exceeded" in
  validate_bindings ∅ (bindings request).

Inductive CapabilityStatus := Healthy | Degraded | Unsupported.
#[export] Instance CapabilityStatus_eq_dec : EqDecision CapabilityStatus.
Proof. solve_decision. Defined.

Inductive CapabilityReason :=
| CoreCgroupCollectorAttached | CoreCgroupCollectorNotAttached | CoreCgroupCollectorNotBuilt
| UnprivilegedBpfPermanentlyDisabled | KernelBtfUnavailable | LibbpfRuntimeUnavailable
| HelperPermissionDenied | IdentityBindingsUnavailable.
#[export] Instance CapabilityReason_eq_dec : EqDecision CapabilityReason.
Proof. solve_decision. Defined.

Record HelperCapability := { status : CapabilityStatus; reason : CapabilityReason }.
#[export] Instance HelperCapability_eq_dec : EqDecision HelperCapability.
Proof. solve_decision. Defined.

Definition HelperCapability_unsupported (reason : CapabilityReason) : HelperCapability :=
  {| status := Unsupported; reason := reason |}.

Definition HelperCapability_validate (c : HelperCapability) : result unit FrameError :=
  let valid :=
    match status c with
    | Healthy => eqb (reason c) CoreCgroupCollectorAttached
    | Degraded => contains (reason c)
        [CoreCgroupCollectorNotAttached; HelperPermissionDenied; IdentityBindingsUnavailable]
    | Unsupported => contains (reason c)
        [CoreCgroupCollectorNotBuilt; UnprivilegedBpfPermanentlyDisabled; KernelBtfUnavailable;
         LibbpfRuntimeUnavailable; HelperPermissionDenied]
    end in
  if valid then Ok tt else Err (InvalidPayload "capability_state_invalid").

Record CgroupCounter := { counter_cgroup_id : Z; rx_bytes : Z; tx_bytes : Z }.
#[export] Instance CgroupCounter_eq_dec : EqDecision CgroupCounter.
Proof. solve_decision. Defined.

Record CounterSnapshot := {
  capability : HelperCapability;
  captured_boottime_ns : option Z;
  records : list CgroupCounter;
}.
#[export] Instance CounterSnapshot_eq_dec : EqDecision CounterSnapshot.
Proof. solve_decision. Defined.

Fixpoint validate_records (ids : gset Z) (l : list CgroupCounter) : result unit FrameError :=
  match l with
  | [] => Ok tt
  | record :: l =>
      fail_if counter_cgroup_id record =? 0 with InvalidPayload "counter_cgroup_id_invalid" in
      fail_if bool_decide (counter_cgroup_id record ∈ ids) with InvalidPayload "counter_cgroup_id_duplicate" in
      validate_records ({[counter_cgroup_id record]} ∪ ids) l
  end.

Definition no_records (s : CounterSnapshot) : bool := (length (records s) =? 0)%nat.

Definition CounterSnapshot_validate (s : CounterSnapshot) : result unit FrameError :=
  let? _ := HelperCapability_validate (capability s) in
  fail_if MAX_COUNTER_RECORDS <? Z.of_nat (length (records s))
    with InvalidPayload "counter_record_limit_exceeded" in
  fail_if eqb (status (capability s)) Healthy && is_none (captured_boottime_ns s)
    with InvalidPayload "healthy_capture_time_missing" in
  fail_if eqb (status (capability s)) Unsupported && (negb (no_records s) || is_some (captured_boottime_ns s))
    with InvalidPayload "unsupported_snapshot_has_facts" in
  fail_if negb (no_records s) && is_none (captured_boottime_ns s)
    with InvalidPayload "counter_capture_time_missing" in
  validate_records ∅ (records s).

Inductive HelperErrorCode :=
| MalformedRequest | UnsupportedVersionCode | OversizedFrame | InvalidRequest
| CollectorUnavailable | PermissionDenied | LimitExceeded | Internal.
#[export] Instance HelperErrorCode_eq_dec : EqDecision HelperErrorCode.
Proof. solve_decision. Defined.

Record HelperError := { code : HelperErrorCode; retryable : bool; error_reason : string }.
#[export] Instance HelperError_eq_dec : EqDecision HelperError.
Proof. solve_decision. Defined.

Definition HelperError_validate (e : HelperError) : result unit FrameError :=
  fail_if is_empty (error_reason e) || (MAX_REASON_BYTES <? len (error_reason e))
          || contains_byte nul (error_reason e)
    with InvalidPayload "helper_reason_invalid" in
  Ok tt.

Inductive CollectionReplyBody :=
| Body_Snapshot (s : CounterSnapshot)
| Body_Error (e : HelperError).
#[export] Instance CollectionReplyBody_eq_dec : EqDecision CollectionReplyBody.
Proof. solve_decision. Defined.

Record CollectionReply := { reply_version : Z; reply_gen : Z; body : CollectionReplyBody }.
#[export] Instance CollectionReply_eq_dec : EqDecision CollectionReply.
Proof. solve_decision. Defined.

Definition CollectionReply_snapshot (generation : Z) (s : CounterSnapshot) : CollectionReply :=
  {| reply_version := PROTOCOL_VERSION; reply_gen := generation; body := Body_Snapshot s |}.
Definition CollectionReply_error (generation : Z) (e : HelperError) : CollectionReply :=
  {| reply_version := PROTOCOL_VERSION; reply_gen := generation; body := Body_Error e |}.

Definition CollectionReply_validate (r : CollectionReply) : result unit FrameError :=
  let? _ := validate_version (reply_version r) in
  match body r with
  | Body_Snapshot s =>
      fail_if reply_gen r =? 0 with InvalidPayload "snapshot_generation_must_be_nonzero" in
      CounterSnapshot_validate s
  | Body_Error e => HelperError_validate e
  end.

(** [frame_error] of the helper's [main.rs]. *)
Definition frame_error (error : FrameError) : HelperError :=
  let code :=
    match error with
    | UnsupportedVersion _ => UnsupportedVersionCode
    | Oversized _ _ => OversizedFrame
    | MalformedJson _ => MalformedRequest
    | InvalidPayload _ | Empty => InvalidRequest
    | Io _ | TruncatedLength | TruncatedPayload | LengthOverflow => Internal
    end in
  {| code := code; retryable := false; error_reason := frame_error_to_string error |}.

Section Codec.
Context `{Json CollectionRequest} `{Json CollectionReply}.

Definition encode_request (request : CollectionRequest) : result (list Z) FrameError :=
  let? _ := CollectionRequest_validate request in encode MAX_FRAME_BYTES request.

Definition decode_request (payload : list Z) : result CollectionRequest FrameError :=
  let? _ := ensure_payload_size MAX_FRAME_BYTES payload in
  let? request := map_err MalformedJson (from_slice payload) in
  let? _ := CollectionRequest_validate request in
  Ok request.

Definition encode_reply (reply : CollectionReply) : result (list Z) FrameError :=
  let? _ := CollectionReply_validate reply in encode MAX_FRAME_BYTES reply.

Definition decode_reply (payload : list Z) : result CollectionReply FrameError :=
  let? _ := ensure_payload_size MAX_FRAME_BYTES payload in
  let? reply := map_err MalformedJson (from_slice payload) in
  let? _ := CollectionReply_validate reply in
  Ok reply.

#[export] Instance network_protocol : HelperProtocol := {
  Request := CollectionRequest;
  Snapshot := CounterSnapshot;
  Error := HelperError;
  Reply := CollectionReply;
  frame_max := MAX_FRAME_BYTES;
  HelperFrame.decode_request := decode_request;
  request_generation := generation;
  reply_snapshot := CollectionReply_snapshot;
  reply_error := CollectionReply_error;
  reply_generation := reply_gen;
  error_of_frame := frame_error;
  HelperFrame.encode_reply := encode_reply;
  HelperFrame.decode_reply := decode_reply;
}.

(** [serve_stdio] of the helper's [main.rs]. *)
Definition network_serve_stdio {C} (collect : C -> CollectionRequest -> C * result CounterSnapshot HelperError)
  : nat -> C -> Stdio -> option (C * (Stdio * result unit FrameError)) :=
  serve_stdio (H := network_protocol) collect.
End Codec.

(** ** collector.rs *)

Definition TRAFFIC_VALUE_BYTES : nat := 24.
Definition HEALTH_VALUE_BYTES : nat := 8.
Definition TRAFFIC_COUNTER_OVERFLOW : Z := Z.shiftl 1 0.
Definition COLLECTOR_MAP_SATURATED : Z := Z.shiftl 1 0.

Definition helper_error (code : HelperErrorCode) (reason : string) : HelperError :=
  {| code := code; retryable := false; error_reason := reason |}.

(** Native byte order is little-endian. *)
Definition u64_from_ne_bytes (l : list Z) : Z := fold_right (fun b n => b + 256 * n) 0 l.
Definition read_u64 (value : list Z) (offset : nat) : Z := u64_from_ne_bytes (firstn 8 (skipn offset value)).

Definition validate_health_value (value : list Z) : result unit HelperError :=
  fail_if negb (length value =? HEALTH_VALUE_BYTES)%nat
    with helper_error Internal "network_bpf_health_value_invalid" in
  fail_if negb (Z.land (read_u64 value 0) COLLECTOR_MAP_SATURATED =? 0)
    with helper_error LimitExceeded "network_bpf_map_saturated" in
  Ok tt.
Definition validate_health_values (values : list (list Z)) : result unit HelperError :=
  try_for_each validate_health_value values.

Definition add_traffic_value (totals : Z * Z) (value : list Z) : result (Z * Z) HelperError :=
  fail_if negb (length value =? TRAFFIC_VALUE_BYTES)%nat
    with helper_error Internal "network_bpf_counter_value_invalid" in
  fail_if negb (Z.land (read_u64 value 16) TRAFFIC_COUNTER_OVERFLOW =? 0)
    with helper_error LimitExceeded "network_bpf_counter_overflow" in
  let overflow := helper_error LimitExceeded "network_bpf_counter_overflow" in
  let? rx := ok_or overflow (checked_u64 (totals.1 + read_u64 value 0)) in
  let? tx := ok_or overflow (checked_u64 (totals.2 + read_u64 value 8)) in
  Ok (rx, tx).

Fixpoint sum_traffic_from (totals : Z * Z) (values : list (list Z)) : result (Z * Z) HelperError :=
  match values with
  | [] => Ok totals
  | value :: values => let? totals := add_traffic_value totals value in sum_traffic_from totals values
  end.
Definition sum_traffic_values (values : list (list Z)) : result (Z * Z) HelperError :=
  sum_traffic_from (0, 0) values.

(** An error of [libbpf] is whether its kind is [PermissionDenied]. *)
Abbreviation bpf_result A := (result A bool).

(** What the calls of a collection give: loading the object, finding and
    attaching its two programs, the prerequisite probed before it, the maps
    (absent, or what [lookup_percpu] gives for a key), which are read while the
    kernel writes them (so the health map is read twice), and the boot clock. *)
Record CollectEnvironment := {
  env_load : bpf_result unit;
  env_ingress : option (bpf_result unit);
  env_egress : option (bpf_result unit);
  env_health_before : option (bpf_result (option (list (list Z))));
  env_counters : option (Z -> bpf_result (option (list (list Z))));
  env_health_after : option (bpf_result (option (list (list Z))));
  env_boottime_ns : bpf_result Z;
}.

Definition libbpf_failure (permission_denied : bool) (reason : string) : HelperError :=
  helper_error (if permission_denied then PermissionDenied else CollectorUnavailable) reason.

Definition attach (env : CollectEnvironment) : result unit HelperError :=
  let? _ := map_err (fun e => libbpf_failure e "network_bpf_load_failed") (env_load env) in
  let? ingress := ok_or (helper_error CollectorUnavailable "network_bpf_ingress_program_missing") (env_ingress env) in
  let? _ := map_err (fun e => libbpf_failure e "network_bpf_ingress_attach_failed") ingress in
  let? egress := ok_or (helper_error CollectorUnavailable "network_bpf_egress_program_missing") (env_egress env) in
  let? _ := map_err (fun e => libbpf_failure e "network_bpf_egress_attach_failed") egress in
  Ok tt.

Definition ensure_map_healthy (health : option (bpf_result (option (list (list Z))))) : result unit HelperError :=
  let? lookup := ok_or (helper_error CollectorUnavailable "network_bpf_health_map_missing") health in
  let? value := map_err (fun _ => helper_error Internal "network_bpf_health_read_failed") lookup in
  let? values := ok_or (helper_error Internal "network_bpf_health_value_missing") value in
  validate_health_values values.

(** The loop over the request's bindings. *)
Fixpoint collect_records (lookup : Z -> bpf_result (option (list (list Z)))) (l : list CgroupBinding)
  : result (list CgroupCounter) HelperError :=
  match l with
  | [] => Ok []
  | binding :: l =>
      let? per_cpu := map_err (fun _ => helper_error Internal "network_bpf_counter_read_failed")
                        (lookup (binding_cgroup_id binding)) in
      let? totals := match per_cpu with Some values => sum_traffic_values values | None => Ok (0, 0) end in
      let? rest := collect_records lookup l in
      Ok ({| counter_cgroup_id := binding_cgroup_id binding; rx_bytes := totals.1; tx_bytes := totals.2 |} :: rest)
  end.

Definition CoreCollector_collect (env : CollectEnvironment) (request : CollectionRequest)
  : result CounterSnapshot HelperError :=
  let? _ := ensure_map_healthy (env_health_before env) in
  let? counters := ok_or (helper_error CollectorUnavailable "network_bpf_counter_map_missing") (env_counters env) in
  let? records := collect_records counters (bindings request) in
  let? _ := ensure_map_healthy (env_health_after env) in
  let? ns := map_err (fun _ => helper_error Internal "network_boottime_capture_failed") (env_boottime_ns env) in
  let? ns := ok_or (helper_error Internal "network_boottime_capture_overflow") (checked_u64 ns) in
  Ok {| capability := {| status := Healthy; reason := CoreCgroupCollectorAttached |};
        captured_boottime_ns := Some ns;
        records := records |}.

(** The runtime: whether the programs are attached, and a capability that has
    become final. *)
Record CollectorRuntime := { collector : bool; terminal_capability : option HelperCapability }.

(** An I/O error is whether its kind is [PermissionDenied]. *)
Definition io_failure (permission_denied : bool) (reason : string) : HelperError :=
  helper_error (if permission_denied then PermissionDenied else CollectorUnavailable) reason.

(** What the file system says of the cgroup root: whether it is a directory,
    whether it is of a cgroup v2 file system ([None]: [statfs] failed), and how
    opening it ends. *)
Definition CollectorRuntime_new (metadata : result bool bool) (cgroup2 : option bool) (opened : result unit bool)
  : result CollectorRuntime HelperError :=
  let? is_dir := map_err (fun e => io_failure e "network_cgroup_root_unavailable") metadata in
  fail_if negb is_dir || default true (negb <$> cgroup2)
    with helper_error CollectorUnavailable "network_cgroup_root_not_cgroup_v2" in
  let? _ := map_err (fun e => io_failure e "network_cgroup_root_open_failed") opened in
  Ok {| collector := false; terminal_capability := None |}.

Definition unsupported_snapshot (c : HelperCapability) : CounterSnapshot :=
  {| capability := c; captured_boottime_ns := None; records := [] |}.

Definition map_prerequisite (reason : string) : result HelperCapability HelperError :=
  if eqb reason "unprivileged_bpf_permanently_disabled"%string
  then Ok (HelperCapability_unsupported UnprivilegedBpfPermanentlyDisabled)
  else if eqb reason "kernel_btf_unavailable"%string
  then Ok (HelperCapability_unsupported KernelBtfUnavailable)
  else if eqb reason "libbpf_runtime_unavailable"%string
  then Ok (HelperCapability_unsupported LibbpfRuntimeUnavailable)
  else Err (helper_error Internal "network_capability_reason_unmapped").

Definition finish (c : HelperCapability) : mut CollectorRuntime CounterSnapshot HelperError :=
  modify (fun r => {| collector := collector r; terminal_capability := Some c |}) ;;;
  ret (unsupported_snapshot c).

(** The prerequisite is what [probe_core_support_with_collector] of
    [crates/network] answers. *)
Definition CollectorRuntime_collect (env : CollectEnvironment) (request : CollectionRequest)
    (prerequisite : NetworkSampler.CapabilityState) : mut CollectorRuntime CounterSnapshot HelperError :=
  terminal <- gets terminal_capability ;;
  match terminal with
  | Some c => ret (unsupported_snapshot c)
  | None =>
      if eqb (NetworkSampler.cap_status prerequisite) NetworkSampler.Unsupported
      then c <- lift (fun _ => map_prerequisite (NetworkSampler.cap_reason prerequisite)) ;; finish c
      else
        attached <- gets collector ;;
        match if attached then Ok tt else attach env with
        | Ok _ =>
            modify (fun r => {| collector := true; terminal_capability := terminal_capability r |}) ;;;
            lift (fun _ => CoreCollector_collect env request)
        | Err error =>
            if eqb (code error) PermissionDenied
            then finish (HelperCapability_unsupported HelperPermissionDenied)
            else throw error
        end
  end.
