(* ===== verification/NetworkHelperFacts.v ===== *)
(** The network helper: its messages round trip, the counters it reports are
    the exact sums of the kernel's per-CPU values, and every answer of its
    collector passes the protocol's validation; the loop's theorems at this
    protocol. *)
From stdpp Require Import pretty.
From S2P Require Import Prelude Frame FrameFacts HelperFrame HelperFrameFacts NetworkHelper.

(** What the code relies on of [serde_json]: it reads back what it wrote. *)
Class JsonLaws (A : Type) `{Json A} : Prop :=
  json_round_trip : forall (v : A) bs, to_vec v = Ok bs -> from_slice bs = Ok v.

Lemma ensure_payload_size_ok max payload u :
  ensure_payload_size max payload = Ok u <-> 1 <= Z.of_nat (length payload) <= max.
Proof.
  unfold ensure_payload_size. destruct (length payload =? 0)%nat eqn:H0.
  - apply Nat.eqb_eq in H0. split; [discriminate | lia].
  - apply Nat.eqb_neq in H0. destruct u. destruct (max <? _) eqn:H1; split; (discriminate || lia || done).
Qed.

Lemma encode_ok {A} `{Json A} max (v : A) payload :
  encode max v = Ok payload <-> to_vec v = Ok payload /\ 1 <= Z.of_nat (length payload) <= max.
Proof.
  unfold encode. destruct (to_vec v) as [bs | e]; simpl; [| split; [discriminate | naive_solver]].
  rewrite result_bind_ok. split.
  - intros ([] & Hs & [= <-]). apply ensure_payload_size_ok in Hs. done.
  - intros [[= ->] Hs]. exists tt. split; [by apply ensure_payload_size_ok | done].
Qed.

Section Messages.
Context `{JsonLaws CollectionRequest} `{JsonLaws CollectionReply}.

#[export] Instance network_laws : HelperLaws.
Proof.
  constructor.
  - unfold frame_max, network_protocol, MAX_FRAME_BYTES, u32_max. lia.
  - intros reply payload He. cbn in He. unfold encode_reply in He.
    apply result_bind_ok in He as (? & _ & He). by apply encode_ok in He as [_ ?].
  - done.
  - done.
Qed.

Lemma reply_round_trip reply payload : encode_reply reply = Ok payload -> decode_reply payload = Ok reply.
Proof.
  unfold encode_reply, decode_reply. intros He. apply result_bind_ok in He as ([] & Hv & He).
  apply encode_ok in He as [Hj Hs]. rewrite (proj2 (ensure_payload_size_ok _ _ tt) Hs). simpl.
  by rewrite (json_round_trip _ _ Hj); simpl; rewrite Hv.
Qed.

Lemma request_round_trip request payload : encode_request request = Ok payload -> decode_request payload = Ok request.
Proof.
  unfold encode_request, decode_request. intros He. apply result_bind_ok in He as ([] & Hv & He).
  apply encode_ok in He as [Hj Hs]. rewrite (proj2 (ensure_payload_size_ok _ _ tt) Hs). simpl.
  by rewrite (json_round_trip _ _ Hj); simpl; rewrite Hv.
Qed.
End Messages.

(** ** Per-CPU counters *)

Definition value_rx (v : list Z) : Z := read_u64 v 0.
Definition value_tx (v : list Z) : Z := read_u64 v 8.
Definition total (f : list Z -> Z) (values : list (list Z)) : Z := fold_right (fun v n => f v + n) 0 values.

(** A value the kernel marks as exact. *)
Definition exact_value (v : list Z) : Prop :=
  length v = TRAFFIC_VALUE_BYTES /\ Z.land (read_u64 v 16) TRAFFIC_COUNTER_OVERFLOW = 0.

Lemma read_u64_nonneg v n : Forall is_byte v -> 0 <= read_u64 v n.
Proof.
  unfold read_u64, u64_from_ne_bytes. intros Hv. apply (Forall_drop _ n), (Forall_take _ 8) in Hv.
  induction Hv as [| b l Hb Hl IH]; simpl; [lia |]. unfold is_byte in Hb. lia.
Qed.

Lemma total_nonneg n values : Forall (Forall is_byte) values -> 0 <= total (fun v => read_u64 v n) values.
Proof. induction 1 as [| v l Hv Hl IH]; simpl; [lia |]. pose proof (read_u64_nonneg v n Hv). lia. Qed.

Lemma add_traffic_value_ok t v t' :
  0 <= t.1 -> 0 <= t.2 -> Forall is_byte v ->
  add_traffic_value t v = Ok t' <->
  exact_value v /\ t' = (t.1 + value_rx v, t.2 + value_tx v) /\ t'.1 <= u64_max /\ t'.2 <= u64_max.
Proof.
  intros H1 H2 Hv. pose proof (read_u64_nonneg v 0 Hv). pose proof (read_u64_nonneg v 8 Hv).
  unfold add_traffic_value, exact_value, value_rx, value_tx.
  destruct (length v =? TRAFFIC_VALUE_BYTES)%nat eqn:Hl; cbn [negb];
    [apply Nat.eqb_eq in Hl | apply Nat.eqb_neq in Hl; split; [discriminate | naive_solver]].
  destruct (Z.land _ _ =? 0) eqn:Hf; cbn [negb];
    [apply Z.eqb_eq in Hf | apply Z.eqb_neq in Hf; split; [discriminate | naive_solver]].
  unfold checked_u64. destruct (in_u64 (t.1 + _)) eqn:Hr; simpl.
  2: { split; [discriminate |]. intros (_ & -> & Hm & _). simpl in Hm. width. }
  destruct (in_u64 (t.2 + _)) eqn:Ht; simpl.
  2: { split; [discriminate |]. intros (_ & -> & _ & Hm). simpl in Hm. width. }
  split; [intros [= <-] | by intros (_ & -> & _)]. simpl. split_and!; first [done | width].
Qed.

Lemma sum_traffic_from_ok values : forall t t',
  0 <= t.1 <= u64_max -> 0 <= t.2 <= u64_max -> Forall (Forall is_byte) values ->
  sum_traffic_from t values = Ok t' <->
  Forall exact_value values /\ t' = (t.1 + total value_rx values, t.2 + total value_tx values) /\
  t'.1 <= u64_max /\ t'.2 <= u64_max.
Proof.
  induction values as [| v values IH]; intros t t' H1 H2 Hb; simpl.
  - rewrite !Z.add_0_r. destruct t as [a b]; simpl in *. split.
    + intros [= <-]. simpl. split_and!; first [done | lia | constructor].
    + by intros (_ & -> & _).
  - apply Forall_cons in Hb as [Hv Hb]. rewrite result_bind_ok, Forall_cons.
    pose proof (read_u64_nonneg v 0 Hv). pose proof (read_u64_nonneg v 8 Hv).
    pose proof (total_nonneg 0 values Hb) as Hn1. pose proof (total_nonneg 8 values Hb) as Hn2.
    fold value_rx in Hn1. fold value_tx in Hn2. unfold value_rx, value_tx in *.
    split.
    + intros (t1 & Ha & Hs). apply add_traffic_value_ok in Ha as (He & -> & Hm1 & Hm2); [| lia | lia | done].
      unfold value_rx, value_tx in *. simpl in *. apply IH in Hs as (Hf & -> & Hm3 & Hm4); [| simpl; lia | simpl; lia | done].
      simpl in *. split_and!; [done | done | by rewrite !Z.add_assoc | lia | lia].
    + intros ([He Hf] & -> & Hm1 & Hm2). simpl in *.
      exists (t.1 + read_u64 v 0, t.2 + read_u64 v 8). split.
      * apply add_traffic_value_ok; [lia | lia | done |]. simpl. split_and!; [done | done | lia | lia].
      * apply IH; [simpl; lia | simpl; lia | done |]. simpl. rewrite <- !Z.add_assoc. split_and!; [done | done | lia | lia].
Qed.

(** ** What the collector answers *)

(** A capability the runtime has settled on, and answers with from then on. *)
Definition final_capability (c : HelperCapability) : Prop :=
  status c = Unsupported /\ HelperCapability_validate c = Ok tt.

Definition runtime_ok (r : CollectorRuntime) : Prop :=
  forall c, terminal_capability r = Some c -> final_capability c.

Lemma validate_records_of_bindings : forall bs ids records,
  validate_bindings ids bs = Ok tt -> map counter_cgroup_id records = map binding_cgroup_id bs ->
  validate_records ids records = Ok tt.
Proof.
  induction bs as [| b bs IH]; intros ids [| r records] Hv Hm; try discriminate Hm; [done |].
  injection Hm as Hid Hm. cbn [validate_bindings validate_records] in *. rewrite Hid.
  destruct (binding_cgroup_id b =? 0); [discriminate |]. destruct (bool_decide _); [discriminate |].
  apply result_bind_ok in Hv as (_ & _ & Hv). by apply IH.
Qed.

(** The record the collector owes a binding: the exact totals of the values the
    map held for it, none being a zero count. *)
Definition exact_record (lookup : Z -> bpf_result (option (list (list Z)))) (b : CgroupBinding) (r : CgroupCounter) : Prop :=
  counter_cgroup_id r = binding_cgroup_id b /\
  exists per_cpu, lookup (binding_cgroup_id b) = Ok per_cpu /\
    let values := default [] per_cpu in
    Forall exact_value values /\
    rx_bytes r = total value_rx values /\ tx_bytes r = total value_tx values /\
    0 <= rx_bytes r <= u64_max /\ 0 <= tx_bytes r <= u64_max.

Lemma collect_records_ok lookup : (forall id values, lookup id = Ok (Some values) -> Forall (Forall is_byte) values) ->
  forall bs records, collect_records lookup bs = Ok records -> Forall2 (exact_record lookup) bs records.
Proof.
  intros Hbytes. induction bs as [| b bs IH]; intros records Hc; cbn [collect_records] in Hc; [by injection Hc as <- |].
  apply result_bind_ok in Hc as (per_cpu & Hl & Hc).
  destruct (lookup (binding_cgroup_id b)) as [x |] eqn:Hlook; [| discriminate Hl]. injection Hl as ->.
  apply result_bind_ok in Hc as (totals & Ht & Hc). apply result_bind_ok in Hc as (rest & Hr & [= <-]).
  constructor; [| by apply IH]. split; [done |]. exists per_cpu. split; [done |]. simpl.
  destruct per_cpu as [values |]; simpl.
  - pose proof (Hbytes _ _ Hlook) as Hb.
    apply sum_traffic_from_ok in Ht as (He & -> & Hm1 & Hm2); [| simpl; width | simpl; width | done]. simpl in *.
    pose proof (total_nonneg 0 values Hb). pose proof (total_nonneg 8 values Hb). unfold value_rx, value_tx in *.
    split_and!; first [done | lia].
  - injection Ht as <-. simpl. split_and!; first [done | constructor | width].
Qed.

(** The environment's bytes are bytes, the clock is not negative. *)
Definition env_ok (env : CollectEnvironment) : Prop :=
  match env_counters env with
  | Some lookup => forall id values, lookup id = Ok (Some values) -> Forall (Forall is_byte) values
  | None => True
  end.

(** The errors of the collector carry the crate's own reasons. *)
Definition static_error (e : HelperError) : Prop := HelperError_validate e = Ok tt.

Lemma bind_static {A B} (r : result A HelperError) (k : A -> result B HelperError) :
  (forall e, r = Err e -> static_error e) -> (forall a e, k a = Err e -> static_error e) ->
  forall e, result_bind r k = Err e -> static_error e.
Proof. intros Hr Hk e. destruct r as [a | e']; simpl; [apply Hk | intros [= <-]; by apply Hr]. Qed.

Lemma ok_or_static {A} (o : option A) e : static_error e -> forall e', ok_or e o = Err e' -> static_error e'.
Proof. intros He e'. destruct o; [discriminate | by intros [= <-]]. Qed.
Lemma map_err_static {A F} (r : result A F) f : (forall x, static_error (f x)) -> forall e, map_err f r = Err e -> static_error e.
Proof. intros Hf e. destruct r; [discriminate | by intros [= <-]]. Qed.
Lemma guard_static {A} (b : bool) e (k : result A HelperError) :
  static_error e -> (forall e', k = Err e' -> static_error e') ->
  forall e', (fail_if b with e in k) = Err e' -> static_error e'.
Proof. intros He Hk e'. destruct b; [by intros [= <-] | apply Hk]. Qed.

(** Every failure of a program built from these has a static error. *)
Ltac static_errors :=
  repeat first
    [ discriminate
    | match goal with |- forall e, result_bind _ _ = Err e -> _ => apply bind_static; [| intro] end
    | apply ok_or_static; reflexivity
    | apply map_err_static; intros []; reflexivity
    | match goal with |- forall e, (if _ then Err _ else _) = Err e -> _ => apply guard_static; [reflexivity |] end
    | intros ? [=]; done ].

Lemma try_for_each_static {A} (f : A -> result unit HelperError) l :
  (forall a e, f a = Err e -> static_error e) -> forall e, try_for_each f l = Err e -> static_error e.
Proof. intros Hf. induction l as [| a l IH]; simpl; [discriminate |]. apply bind_static; [exact (Hf a) | intros _; exact IH]. Qed.

Lemma health_static health : forall e, ensure_map_healthy health = Err e -> static_error e.
Proof.
  unfold ensure_map_healthy. static_errors.
  unfold validate_health_values. apply try_for_each_static. intros value.
  unfold validate_health_value. static_errors.
Qed.

Lemma sum_static values : forall t e, sum_traffic_from t values = Err e -> static_error e.
Proof.
  induction values as [| v values IH]; intros t; cbn [sum_traffic_from]; [discriminate |].
  apply bind_static; [| intros; by eapply IH]. unfold add_traffic_value. static_errors.
Qed.

Lemma collect_records_static lookup bs : forall e, collect_records lookup bs = Err e -> static_error e.
Proof.
  induction bs as [| b bs IH]; cbn [collect_records]; [discriminate |]. static_errors; [| exact IH].
  destruct a as [values |]; [apply sum_static | discriminate].
Qed.

Lemma core_collect_static env request : forall e, CoreCollector_collect env request = Err e -> static_error e.
Proof.
  unfold CoreCollector_collect. static_errors; [apply health_static | apply collect_records_static | apply health_static].
Qed.

Lemma attach_static env : forall e, attach env = Err e -> static_error e.
Proof. unfold attach. static_errors. Qed.

(** A snapshot of the attached collector is exact, and passes validation. *)
Lemma core_collect_ok env request s :
  env_ok env -> CollectionRequest_validate request = Ok tt -> CoreCollector_collect env request = Ok s ->
  status (capability s) = Healthy /\
  CollectionReply_validate (CollectionReply_snapshot (generation request) s) = Ok tt /\
  exists lookup, env_counters env = Some lookup /\ Forall2 (exact_record lookup) (bindings request) (records s).
Proof.
  intros Henv Hv Hc. unfold CollectionRequest_validate in Hv. apply result_bind_ok in Hv as ([] & _ & Hv).
  destruct (generation request =? 0) eqn:Hg; [discriminate |].
  destruct (MAX_BINDINGS <? _) eqn:Hm; [discriminate |].
  unfold CoreCollector_collect in Hc. apply result_bind_ok in Hc as ([] & _ & Hc).
  apply result_bind_ok in Hc as (lookup & Hl & Hc). apply result_bind_ok in Hc as (recs & Hrecs & Hc).
  apply result_bind_ok in Hc as ([] & _ & Hc). apply result_bind_ok in Hc as (ns & _ & Hc).
  apply result_bind_ok in Hc as (ns' & _ & [= <-]).
  destruct (env_counters env) as [lookup' |] eqn:Hcnt; [| discriminate Hl]. injection Hl as ->.
  unfold env_ok in Henv. rewrite Hcnt in Henv. apply (collect_records_ok _ Henv) in Hrecs.
  assert (Hids : map counter_cgroup_id recs = map binding_cgroup_id (bindings request)).
  { clear - Hrecs. induction Hrecs as [| b r bs rs [Hid _] _ IH]; [done |]. simpl. by rewrite Hid, IH. }
  pose proof (Forall2_length _ _ _ Hrecs) as Hlen. rewrite Hlen in Hm.
  split_and!; [done | | by exists lookup].
  unfold CollectionReply_validate, CounterSnapshot_validate.
  cbn [CollectionReply_snapshot reply_version reply_gen body capability records captured_boottime_ns status].
  change (validate_version PROTOCOL_VERSION) with (Ok tt : result unit FrameError). cbn [result_bind]. rewrite Hg.
  change (HelperCapability_validate _) with (Ok tt : result unit FrameError). cbn [result_bind].
  change MAX_COUNTER_RECORDS with MAX_BINDINGS. rewrite Hm. cbn [is_none is_some negb].
  rewrite !andb_false_r. change (eqb Healthy Unsupported) with false. cbn [andb].
  by eapply validate_records_of_bindings.
Qed.

Lemma final_runtime_ok c attached : final_capability c -> runtime_ok {| collector := attached; terminal_capability := Some c |}.
Proof. by intros Hc c' [= <-]. Qed.

Lemma unsupported_snapshot_ok g c :
  g <> 0 -> final_capability c ->
  CollectionReply_validate (CollectionReply_snapshot g (unsupported_snapshot c)) = Ok tt.
Proof.
  intros Hg [Hs Hc]. unfold CollectionReply_validate, CounterSnapshot_validate. cbn.
  replace (g =? 0) with false by lia. rewrite Hc, Hs. reflexivity.
Qed.

Lemma map_prerequisite_final reason c : map_prerequisite reason = Ok c -> final_capability c.
Proof. unfold map_prerequisite. repeat case_match; intros [= <-]; done. Qed.
Lemma map_prerequisite_static reason : forall e, map_prerequisite reason = Err e -> static_error e.
Proof. intros e. unfold map_prerequisite. repeat case_match; intros [= <-]; done. Qed.

(** Whatever the kernel's maps, the clock and the library calls give, the
    collector answers a valid request with something the protocol can carry: a
    snapshot that passes [CollectionReply::validate] or an error that does. A
    healthy snapshot has one record per binding, in order, each the exact sum of
    the per-CPU values the kernel held for the binding's cgroup, none of them
    marked as overflown and neither sum past 64 bits; a snapshot that is not
    healthy carries no counters. *)
Theorem collector_answers_are_valid env request prerequisite rt rt' r :
  runtime_ok rt -> env_ok env -> CollectionRequest_validate request = Ok tt ->
  CollectorRuntime_collect env request prerequisite rt = (rt', r) ->
  runtime_ok rt' /\
  match r with
  | Ok s =>
      CollectionReply_validate (CollectionReply_snapshot (generation request) s) = Ok tt /\
      (status (capability s) = Healthy ->
         exists lookup, env_counters env = Some lookup /\ Forall2 (exact_record lookup) (bindings request) (records s)) /\
      (status (capability s) <> Healthy -> records s = [])
  | Err e => CollectionReply_validate (CollectionReply_error (generation request) e) = Ok tt
  end.
Proof.
  intros Hrt Henv Hv.
  assert (Hg : generation request <> 0).
  { unfold CollectionRequest_validate in Hv. apply result_bind_ok in Hv as ([] & _ & Hv).
    destruct (generation request =? 0) eqn:Hg; [discriminate | lia]. }
  assert (Hfin : forall c, final_capability c ->
    CollectionReply_validate (CollectionReply_snapshot (generation request) (unsupported_snapshot c)) = Ok tt /\
    (status c = Healthy -> exists lookup, env_counters env = Some lookup /\
       Forall2 (exact_record lookup) (bindings request) (records (unsupported_snapshot c))) /\
    (status c <> Healthy -> records (unsupported_snapshot c) = [])).
  { intros c Hc. split_and!; [by apply unsupported_snapshot_ok | destruct Hc; congruence | done]. }
  unfold CollectorRuntime_collect, bind at 1, gets.
  destruct (terminal_capability rt) as [c |] eqn:Ht; [intros [= <- <-]; by split; [| apply Hfin, Hrt] |].
  destruct (eqb (NetworkSampler.cap_status prerequisite) NetworkSampler.Unsupported).
  - unfold bind at 1, lift. destruct (map_prerequisite (NetworkSampler.cap_reason prerequisite)) as [c | e] eqn:Hc.
    + apply map_prerequisite_final in Hc. unfold finish, bind, modify, ret. intros [= <- <-].
      split; [by apply final_runtime_ok | by apply Hfin].
    + intros [= <- <-]. split; [done | by eapply map_prerequisite_static].
  - unfold bind at 1. destruct (if collector rt then Ok tt else attach env) as [[] | e] eqn:Ha.
    + unfold bind, modify, lift. intros [= <- <-]. split; [by intros c' Hc'; simpl in Hc'; congruence |].
      destruct (CoreCollector_collect env request) as [s | e] eqn:Hc; [| by eapply core_collect_static].
      destruct (core_collect_ok _ _ _ Henv Hv Hc) as (Hh & Hval & Hex). by split_and!.
    + destruct (eqb (code e) PermissionDenied).
      * unfold finish, bind, modify, ret. intros [= <- <-]. split; [by apply final_runtime_ok | by apply Hfin].
      * unfold throw. intros [= <- <-]. split; [done |].
        destruct (collector rt); [discriminate |]. by eapply attach_static.
Qed.

(** Witness: two bindings, the first with two CPUs' values, the second unseen. *)
Definition cpu_value (rx tx : Z) : list Z := [rx] ++ repeat 0 7 ++ [tx] ++ repeat 0 7 ++ repeat 0 8.
Definition sample_env : CollectEnvironment :=
  {| env_load := Ok tt; env_ingress := Some (Ok tt); env_egress := Some (Ok tt);
     env_health_before := Some (Ok (Some [repeat 0 8]));
     env_counters := Some (fun id => if id =? 42 then Ok (Some [cpu_value 2 3; cpu_value 5 7]) else Ok None);
     env_health_after := Some (Ok (Some [repeat 0 8])); env_boottime_ns := Ok 9 |}.
Definition not_attached : NetworkSampler.CapabilityState :=
  NetworkSampler.degraded "core_cgroup_collector_not_attached".
Definition fresh_runtime : CollectorRuntime := {| collector := false; terminal_capability := None |}.
Definition sample_request : CollectionRequest :=
  CollectionRequest_collect 7
    [{| binding_cgroup_id := 42; binding_application_key := "editor" |};
     {| binding_cgroup_id := 43; binding_application_key := "shell" |}].
Definition sample_snapshot : CounterSnapshot :=
  {| capability := {| status := Healthy; reason := CoreCgroupCollectorAttached |};
     captured_boottime_ns := Some 9;
     records := [{| counter_cgroup_id := 42; rx_bytes := 7; tx_bytes := 10 |};
                 {| counter_cgroup_id := 43; rx_bytes := 0; tx_bytes := 0 |}] |}.
Definition sample_reply : CollectionReply := CollectionReply_snapshot 7 sample_snapshot.

Lemma collector_answers_are_valid_witness :
  CollectionReply_validate sample_reply = Ok tt /\
  exists lookup, env_counters sample_env = Some lookup /\
    Forall2 (exact_record lookup) (bindings sample_request) (records sample_snapshot).
Proof.
  assert (Hc : CollectorRuntime_collect sample_env sample_request not_attached fresh_runtime
               = ({| collector := true; terminal_capability := None |}, Ok sample_snapshot)) by (vm_compute; reflexivity).
  destruct (collector_answers_are_valid sample_env sample_request not_attached fresh_runtime
              _ _ ltac:(intros c [=])
              ltac:(intros id values; cbn; destruct (id =? 42); intros [= <-]; repeat constructor; unfold is_byte; lia)
              ltac:(vm_compute; reflexivity) Hc) as (_ & Hv & Hh & _).
  split; [exact Hv | by apply Hh].
Defined.

(** ** A codec of two messages, and the loop at it *)

#[export] Instance sample_request_json : Json CollectionRequest := {
  to_vec r := if eqb r sample_request then Ok [1] else Err "unknown"%string;
  from_slice bs := if eqb bs [1] then Ok sample_request else Err "expected value"%string;
}.
Definition parse_error_reply : CollectionReply :=
  CollectionReply_error 0 (frame_error (MalformedJson "expected value")).
#[export] Instance sample_reply_json : Json CollectionReply := {
  to_vec r := if eqb r sample_reply then Ok [2] else if eqb r parse_error_reply then Ok [3; 3] else Err "unknown"%string;
  from_slice bs := if eqb bs [2] then Ok sample_reply else if eqb bs [3; 3] then Ok parse_error_reply
                   else Err "expected value"%string;
}.
#[export] Instance sample_request_laws : JsonLaws CollectionRequest.
Proof. intros v bs. cbn. destruct (eqb v sample_request) eqn:H; [| done]. apply eqb_eq in H as ->. by intros [= <-]. Qed.
#[export] Instance sample_reply_laws : JsonLaws CollectionReply.
Proof.
  intros v bs. cbn. destruct (eqb v sample_reply) eqn:H1; [apply eqb_eq in H1 as ->; by intros [= <-] |].
  destruct (eqb v parse_error_reply) eqn:H2; [apply eqb_eq in H2 as ->; by intros [= <-] | done].
Qed.

Definition sample_collect (rt : CollectorRuntime) (request : CollectionRequest)
  : CollectorRuntime * result CounterSnapshot HelperError :=
  CollectorRuntime_collect sample_env request not_attached rt.

Definition sample_stdio : Stdio :=
  {| stdin := [Ok [0; 0; 0; 1]; Ok [1; 0; 0]; Ok [0; 2; 9; 9]]; stdout := []; faults := [] |}.

Lemma helper_loop_terminates_witness :
  exists c' io' r, network_serve_stdio sample_collect 20 fresh_runtime sample_stdio = Some (c', (io', r)).
Proof. apply (helper_loop_terminates (H := network_protocol) sample_collect fresh_runtime sample_stdio 20). cbn. lia. Defined.

Lemma helper_answers_in_order_witness :
  exists c' io' outs r,
    answers (H := network_protocol) sample_collect fresh_runtime [[1]; [9; 9]] = (c', outs, r) /\
    network_serve_stdio sample_collect 3 fresh_runtime sample_stdio = Some (c', (io', r)) /\
    length outs = 2%nat.
Proof.
  destruct (helper_answers_in_order (H := network_protocol) sample_collect [[1]; [9; 9]] fresh_runtime sample_stdio 3)
    as (c' & io' & outs & r & Ha & Hs & _ & _ & Hall).
  - intros reply out He. exists reply. split; [by apply reply_round_trip | done].
  - repeat constructor; vm_compute; discriminate.
  - repeat constructor.
  - reflexivity.
  - reflexivity.
  - cbn. lia.
  - exists c', io', outs, r. split_and!; [exact Ha | exact Hs |]. apply Hall.
    vm_compute in Ha. injection Ha as <- <- <-. reflexivity.
Defined.

(** A request whose parse error has a message of more than 229 bytes, as one
    that quotes an unknown field of the request has, is not answered: the error
    reply fails its own validation and the helper's loop ends with that
    failure. *)
Theorem long_parse_error_stops_the_helper `{Json CollectionRequest} `{Json CollectionReply} {C}
    (collect : C -> CollectionRequest -> C * result CounterSnapshot HelperError)
    c io payload rest message fuel :
  no_errors (stdin io) -> input_bytes (stdin io) = frame_of payload ++ rest ->
  1 <= Z.of_nat (length payload) <= MAX_FRAME_BYTES ->
  from_slice payload = (Err message : result CollectionRequest string) -> 229 < len message ->
  exists io', network_serve_stdio collect (S fuel) c io =
    Some (c, (io', Err (InvalidPayload "helper_reason_invalid"))) /\ stdout io' = stdout io.
Proof.
  intros Hok Hb Hp Hj Hlong. unfold network_serve_stdio. cbn [serve_stdio].
  destruct (helper_read_frame_done (@frame_max network_protocol) io payload rest) as (l & -> & _); [by vm_compute | exact Hp | done | done |].
  unfold answer, HelperFrame.decode_request. cbn. unfold decode_request.
  rewrite (proj2 (ensure_payload_size_ok _ _ tt) Hp). cbn. rewrite Hj. cbn.
  unfold write_reply, bind, lift. cbn. unfold encode_reply, CollectionReply_validate. cbn.
  unfold HelperError_validate. cbn [frame_error error_reason frame_error_to_string].
  set (s := ("JSON payload is malformed: " ++ message)%string).
  assert (Hs : len s = 27 + len message) by (unfold s; by rewrite len_app).
  replace (MAX_REASON_BYTES <? len s) with true by (unfold MAX_REASON_BYTES; lia).
  rewrite orb_true_r. cbn. eexists. split; [done |]. done.
Qed.
