(* ===== verification/TelemetryHelper.v ===== *)
(** [crates/telemetry-helper-protocol/src/lib.rs], the protocol of the telemetry
    helper with the reduction of replies that do not fit a frame
    ([bounded_reply]), and the request loop of [bins/telemetry-helper].

    [serde_json] and [f64] are parameters: the protocol carries percentages it
    never looks at. *)
From S2P Require Import Prelude Frame HelperFrame.

Definition PROTOCOL_VERSION : Z := 3.
Definition MAX_FRAME_BYTES : Z := 1024 * 1024.
Definition MAX_PROCESS_RECORDS : Z := 4096.
Definition MAX_APPLICATION_RECORDS : Z := 1024.
Definition MAX_CGROUP_RECORDS : Z := MAX_PROCESS_RECORDS.
Definition MAX_ISSUE_RECORDS : Z := 256.
Definition MAX_STRING_BYTES : Z := 4096.
Definition MAX_REASON_BYTES : Z := 256.

Inductive RequestKind := Collect.
#[export] Instance RequestKind_eq_dec : EqDecision RequestKind.
Proof. solve_decision. Defined.

Record CollectionRequest := { request_version : Z; generation : Z; kind : RequestKind }.
#[export] Instance CollectionRequest_eq_dec : EqDecision CollectionRequest.
Proof. solve_decision. Defined.

Definition CollectionRequest_collect (generation : Z) : CollectionRequest :=
  {| request_version := PROTOCOL_VERSION; generation := generation; kind := Collect |}.

Definition validate_version (version : Z) : result unit FrameError :=
  if version =? PROTOCOL_VERSION then Ok tt else Err (UnsupportedVersion version).

Definition CollectionRequest_validate (request : CollectionRequest) : result unit FrameError :=
  let? _ := validate_version (request_version request) in Ok tt.

Inductive HelperErrorCode :=
| MalformedRequest | UnsupportedVersionCode | OversizedFrame | InvalidRequest | ProcUnavailable
| ProcPermissionDenied | ProcRaced | ProcInvalid | LimitExceeded | ShuttingDown | Internal.
#[export] Instance HelperErrorCode_eq_dec : EqDecision HelperErrorCode.
Proof. solve_decision. Defined.

Record HelperError := { code : HelperErrorCode; retryable : bool; error_reason : string }.
#[export] Instance HelperError_eq_dec : EqDecision HelperError.
Proof. solve_decision. Defined.

Definition HelperError_validate (e : HelperError) : result unit FrameError :=
  fail_if is_empty (error_reason e) || (MAX_REASON_BYTES <? len (error_reason e))
    with InvalidPayload "helper error reason is empty or oversized" in
  Ok tt.

(** ** Snapshots *)

Inductive PrivateMetricState :=
| Known | Unknown | MetricPermissionDenied | Raced | Unbounded | WarmingUp | SamplingGap.
#[export] Instance PrivateMetricState_eq_dec : EqDecision PrivateMetricState.
Proof. solve_decision. Defined.

Record PrivateMetric (T : Type) := { value : option T; state : PrivateMetricState; reason : option string }.
Arguments value {T}. Arguments state {T}. Arguments reason {T}. Arguments Build_PrivateMetric {T}.

Definition PrivateMetric_known {T} (v : T) : PrivateMetric T :=
  {| value := Some v; state := Known; reason := None |}.
Definition PrivateMetric_unavailable {T} (state : PrivateMetricState) (reason : string) : PrivateMetric T :=
  {| value := None; state := state; reason := Some reason |}.

Record PrivateProcessIdentity := { identity_boot_id : string; pid : Z; start_time_ticks : Z; identity_euid : Z }.

Inductive PrivateGroupingResolution := DesktopEntryExact | CgroupScope | InheritedParent | GroupingUnknown.

Record PrivateIssueCount := { issue_code : string; count : Z }.

Section Snapshots.
Context {F64 : Type}.

Record PrivateProcessRecord := {
  identity : PrivateProcessIdentity;
  ppid : Z;
  comm : string;
  exe_basename : option string;
  cgroup_content : string;
  process_application_key : string;
  desktop_entry_id : option string;
  grouping_resolution : PrivateGroupingResolution;
  cpu_jiffies : Z;
  rss_bytes : PrivateMetric Z;
  pss_bytes : PrivateMetric Z;
  fd_used : PrivateMetric Z;
  fd_soft_limit : PrivateMetric Z;
  fd_percent_of_soft_limit : PrivateMetric F64;
}.

Record PrivateCgroupRecord := {
  cgroup_path : string;
  cgroup_application_key : string;
  cpu_usage_usec : PrivateMetric Z;
  cgroup_memory_current_bytes : PrivateMetric Z;
  cgroup_record_process_count : PrivateMetric Z;
}.

Record PrivateApplicationResourceRecord := {
  application_key : string;
  process_count : Z;
  proc_cpu_jiffies_sum : PrivateMetric Z;
  rss_sum_bytes : PrivateMetric Z;
  pss_sum_bytes : PrivateMetric Z;
  fd_used_sum : PrivateMetric Z;
  fd_soft_limit_sum : PrivateMetric Z;
  fd_percent_of_attributed_sum : PrivateMetric F64;
  fd_percent_of_soft_limit_sum : PrivateMetric F64;
  cgroup_cpu_usage_usec : PrivateMetric Z;
  memory_current_bytes : PrivateMetric Z;
  cgroup_process_count : PrivateMetric Z;
}.

Record PrivateSystemFdSnapshot := {
  file_nr_allocated : PrivateMetric Z;
  file_nr_max : PrivateMetric Z;
  file_max : PrivateMetric Z;
  pressure_percent : PrivateMetric F64;
}.

Definition PrivateSystemFdSnapshot_unavailable (state : PrivateMetricState) (reason : string)
  : PrivateSystemFdSnapshot :=
  {| file_nr_allocated := PrivateMetric_unavailable state reason;
     file_nr_max := PrivateMetric_unavailable state reason;
     file_max := PrivateMetric_unavailable state reason;
     pressure_percent := PrivateMetric_unavailable state reason |}.

Record PrivateSnapshot := {
  boot_id : string;
  euid : Z;
  captured_at_unix_ms : Z;
  captured_at_monotonic_ns : PrivateMetric Z;
  total_cpu_jiffies : Z;
  logical_cpu_count : Z;
  processes : list PrivateProcessRecord;
  cgroups : list PrivateCgroupRecord;
  applications : list PrivateApplicationResourceRecord;
  system_fd : PrivateSystemFdSnapshot;
  excluded_other_uid : Z;
  skipped_race : Z;
  permission_denied_counts : list PrivateIssueCount;
  issues : list PrivateIssueCount;
}.

(** ** Validation *)

Definition validate_string (s : string) (field : string) : result unit FrameError :=
  fail_if is_empty s || (MAX_STRING_BYTES <? len s) || contains_byte nul s
    with InvalidPayload (field ++ " is empty, contains NUL, or is oversized") in
  Ok tt.

Definition validate_issue_counts (l : list PrivateIssueCount) : result unit FrameError :=
  fail_if MAX_ISSUE_RECORDS <? Z.of_nat (length l) with InvalidPayload "issue record count exceeds 256" in
  try_for_each (fun issue => validate_string (issue_code issue) "issue.code") l.

Definition validate_metric {T} (metric : PrivateMetric T) : result unit FrameError :=
  fail_if is_some_and (fun r => is_empty r || (MAX_REASON_BYTES <? len r) || contains_byte nul r) (reason metric)
    with InvalidPayload "metric reason is empty, contains NUL, or is oversized" in
  fail_if eqb (state metric) Known && is_none (value metric)
    with InvalidPayload "known metric is missing its value" in
  fail_if negb (eqb (state metric) Known) && is_some (value metric)
    with InvalidPayload "unavailable metric must not carry a value" in
  Ok tt.

Definition validate_process (scope_boot_id : string) (scope_euid : Z) (process : PrivateProcessRecord)
  : result unit FrameError :=
  let? _ := validate_string (identity_boot_id (identity process)) "process.boot_id" in
  fail_if negb (eqb (identity_boot_id (identity process)) scope_boot_id)
          || negb (identity_euid (identity process) =? scope_euid)
    with InvalidPayload "process identity does not match snapshot scope" in
  let? _ := validate_string (comm process) "process.comm" in
  let? _ := validate_string (cgroup_content process) "process.cgroup_content" in
  let? _ := validate_string (process_application_key process) "process.application_key" in
  let? _ := match exe_basename process with
            | Some exe => validate_string exe "process.exe_basename" | None => Ok tt end in
  let? _ := match desktop_entry_id process with
            | Some desktop => validate_string desktop "process.desktop_entry_id" | None => Ok tt end in
  let? _ := validate_metric (rss_bytes process) in
  let? _ := validate_metric (pss_bytes process) in
  let? _ := validate_metric (fd_used process) in
  let? _ := validate_metric (fd_soft_limit process) in
  let? _ := validate_metric (fd_percent_of_soft_limit process) in
  Ok tt.

Definition validate_cgroup (cgroup : PrivateCgroupRecord) : result unit FrameError :=
  let? _ := validate_string (cgroup_path cgroup) "cgroup.cgroup_path" in
  fail_if negb (starts_with "/" (cgroup_path cgroup))
    with InvalidPayload "cgroup.cgroup_path must be absolute" in
  let? _ := validate_string (cgroup_application_key cgroup) "cgroup.application_key" in
  let? _ := validate_metric (cpu_usage_usec cgroup) in
  let? _ := validate_metric (cgroup_memory_current_bytes cgroup) in
  let? _ := validate_metric (cgroup_record_process_count cgroup) in
  Ok tt.

Definition validate_application (application : PrivateApplicationResourceRecord) : result unit FrameError :=
  let? _ := validate_string (application_key application) "application.application_key" in
  let? _ := validate_metric (proc_cpu_jiffies_sum application) in
  let? _ := validate_metric (rss_sum_bytes application) in
  let? _ := validate_metric (pss_sum_bytes application) in
  let? _ := validate_metric (fd_used_sum application) in
  let? _ := validate_metric (fd_soft_limit_sum application) in
  let? _ := validate_metric (fd_percent_of_attributed_sum application) in
  let? _ := validate_metric (fd_percent_of_soft_limit_sum application) in
  let? _ := validate_metric (cgroup_cpu_usage_usec application) in
  let? _ := validate_metric (memory_current_bytes application) in
  let? _ := validate_metric (cgroup_process_count application) in
  Ok tt.

Definition PrivateSnapshot_validate (s : PrivateSnapshot) : result unit FrameError :=
  let? _ := validate_string (boot_id s) "boot_id" in
  let? _ := validate_metric (captured_at_monotonic_ns s) in
  fail_if logical_cpu_count s =? 0 with InvalidPayload "logical_cpu_count must be positive" in
  fail_if MAX_PROCESS_RECORDS <? Z.of_nat (length (processes s))
    with InvalidPayload "process record count exceeds 4096" in
  fail_if MAX_CGROUP_RECORDS <? Z.of_nat (length (cgroups s))
    with InvalidPayload "cgroup record count exceeds 4096" in
  fail_if MAX_APPLICATION_RECORDS <? Z.of_nat (length (applications s))
    with InvalidPayload "application record count exceeds 1024" in
  let? _ := validate_issue_counts (permission_denied_counts s) in
  let? _ := validate_issue_counts (issues s) in
  let? _ := try_for_each (validate_process (boot_id s) (euid s)) (processes s) in
  let? _ := try_for_each validate_cgroup (cgroups s) in
  let? _ := try_for_each validate_application (applications s) in
  let? _ := validate_metric (file_nr_allocated (system_fd s)) in
  let? _ := validate_metric (file_nr_max (system_fd s)) in
  let? _ := validate_metric (file_max (system_fd s)) in
  let? _ := validate_metric (pressure_percent (system_fd s)) in
  Ok tt.

Inductive CollectionReplyBody :=
| Body_Snapshot (s : PrivateSnapshot)
| Body_Error (e : HelperError).

Record CollectionReply := { reply_version : Z; reply_gen : Z; body : CollectionReplyBody }.

Definition CollectionReply_snapshot (generation : Z) (s : PrivateSnapshot) : CollectionReply :=
  {| reply_version := PROTOCOL_VERSION; reply_gen := generation; body := Body_Snapshot s |}.
Definition CollectionReply_error (generation : Z) (e : HelperError) : CollectionReply :=
  {| reply_version := PROTOCOL_VERSION; reply_gen := generation; body := Body_Error e |}.

Definition CollectionReply_validate (r : CollectionReply) : result unit FrameError :=
  let? _ := validate_version (reply_version r) in
  match body r with
  | Body_Snapshot s => PrivateSnapshot_validate s
  | Body_Error e => HelperError_validate e
  end.
End Snapshots.
Arguments PrivateProcessRecord : clear implicits.
Arguments PrivateApplicationResourceRecord : clear implicits.
Arguments PrivateSystemFdSnapshot : clear implicits.
Arguments PrivateSnapshot : clear implicits.
Arguments CollectionReplyBody : clear implicits.
Arguments CollectionReply : clear implicits.

(** ** Replies within the frame limit *)

(** [str] order: bytes, lexicographically. [sort_by] is stable, as is
    [merge_sort]. *)
Definition str_le (a b : string) : Prop := String.leb a b = true.
#[export] Instance str_le_dec a b : Decision (str_le a b).
Proof. unfold str_le. apply _. Defined.
Definition code_le (a b : PrivateIssueCount) : Prop := str_le (issue_code a) (issue_code b).
#[export] Instance code_le_dec a b : Decision (code_le a b).
Proof. unfold code_le. apply _. Defined.

(** A [BTreeSet<String>] is its elements in order, each once. *)
Definition btree_set (l : list string) : list string := remove_dups (merge_sort str_le l).

(** [issues.iter_mut().find(..)], the first of that code. *)
Fixpoint bump_issue (code : string) (count' : Z) (l : list PrivateIssueCount) : option (list PrivateIssueCount) :=
  match l with
  | [] => None
  | issue :: l =>
      if eqb (issue_code issue) code
      then Some ({| issue_code := issue_code issue; count := sat_u64 (count issue + count') |} :: l)
      else l' ← bump_issue code count' l; Some (issue :: l')
  end.

Definition add_or_replace_issue (l : list PrivateIssueCount) (code : string) (count : Z) : list PrivateIssueCount :=
  match bump_issue code count l with
  | Some l' => l'
  | None =>
      (if Z.of_nat (length l) =? MAX_ISSUE_RECORDS then removelast l else l)
      ++ [{| issue_code := code; count := count |}]
  end.

(** [rposition] of an issue with another code, removed. *)
Definition BUDGET_ISSUE : string := "reply_budget_exceeded".
Definition remove_last_other (l : list PrivateIssueCount) : option (list PrivateIssueCount) :=
  (fix go l := match l with
               | [] => None
               | issue :: l =>
                   match go l with
                   | Some l' => Some (issue :: l')
                   | None => if eqb (issue_code issue) BUDGET_ISSUE then None else Some l
                   end
               end) l.

Section Bounded.
Context {F64 : Type} `{Json (CollectionReply F64)}.

Definition serialized_len (reply : CollectionReply F64) : result Z FrameError :=
  let? payload := map_err MalformedJson (to_vec reply) in Ok (Z.of_nat (length payload)).

(** Functional updates of the metadata and of the records of a snapshot. *)
Definition with_metadata (perms iss : list PrivateIssueCount) (s : PrivateSnapshot F64) : PrivateSnapshot F64 :=
  {| boot_id := boot_id s; euid := euid s; captured_at_unix_ms := captured_at_unix_ms s;
     captured_at_monotonic_ns := captured_at_monotonic_ns s; total_cpu_jiffies := total_cpu_jiffies s;
     logical_cpu_count := logical_cpu_count s; processes := processes s; cgroups := cgroups s;
     applications := applications s; system_fd := system_fd s; excluded_other_uid := excluded_other_uid s;
     skipped_race := skipped_race s; permission_denied_counts := perms; issues := iss |}.
Definition with_records ps cs apps (s : PrivateSnapshot F64) : PrivateSnapshot F64 :=
  {| boot_id := boot_id s; euid := euid s; captured_at_unix_ms := captured_at_unix_ms s;
     captured_at_monotonic_ns := captured_at_monotonic_ns s; total_cpu_jiffies := total_cpu_jiffies s;
     logical_cpu_count := logical_cpu_count s; processes := ps; cgroups := cs;
     applications := apps; system_fd := system_fd s; excluded_other_uid := excluded_other_uid s;
     skipped_race := skipped_race s; permission_denied_counts := permission_denied_counts s; issues := issues s |}.

(** One round's removal: the last permission count, else the last other issue. *)
Definition trim_step (s : PrivateSnapshot F64) : option (PrivateSnapshot F64) :=
  match permission_denied_counts s with
  | _ :: _ => Some (with_metadata (removelast (permission_denied_counts s)) (issues s) s)
  | [] => iss ← remove_last_other (issues s); Some (with_metadata [] iss s)
  end.

(** The loop; [fuel] bounds the removals there can be. *)
Fixpoint trim_loop (fuel : nat) (reply : CollectionReply F64) : CollectionReply F64 * result unit FrameError :=
  match serialized_len reply with
  | Err e => (reply, Err e)
  | Ok length =>
      if length <=? MAX_FRAME_BYTES then (reply, Ok tt)
      else
        match body reply with
        | Body_Error _ => (reply, Err (Oversized length MAX_FRAME_BYTES))
        | Body_Snapshot s =>
            match trim_step s, fuel with
            | Some s', S fuel =>
                trim_loop fuel {| reply_version := reply_version reply; reply_gen := reply_gen reply;
                                  body := Body_Snapshot s' |}
            | _, _ => (reply, Err (Oversized length MAX_FRAME_BYTES))
            end
        end
  end.

Definition metadata_size (reply : CollectionReply F64) : nat :=
  match body reply with
  | Body_Snapshot s => length (permission_denied_counts s) + length (issues s)
  | Body_Error _ => 0
  end.

Definition trim_issue_metadata_to_fit : mut (CollectionReply F64) unit FrameError :=
  fun reply => trim_loop (metadata_size reply) reply.

Definition budget_reduced : PrivateMetric F64 := PrivateMetric_unavailable Unknown "reply_budget_reduced".

Definition reduce_application (a : PrivateApplicationResourceRecord F64) : PrivateApplicationResourceRecord F64 :=
  {| application_key := application_key a; process_count := process_count a;
     proc_cpu_jiffies_sum := proc_cpu_jiffies_sum a; rss_sum_bytes := rss_sum_bytes a;
     pss_sum_bytes := pss_sum_bytes a; fd_used_sum := fd_used_sum a; fd_soft_limit_sum := fd_soft_limit_sum a;
     fd_percent_of_attributed_sum := budget_reduced;
     fd_percent_of_soft_limit_sum := fd_percent_of_soft_limit_sum a;
     cgroup_cpu_usage_usec := cgroup_cpu_usage_usec a; memory_current_bytes := memory_current_bytes a;
     cgroup_process_count := cgroup_process_count a |}.

Definition retained_processes (keys : list string) (s : PrivateSnapshot F64) :=
  List.filter (fun p => contains (process_application_key p) keys) (processes s).
Definition retained_cgroups (keys : list string) (s : PrivateSnapshot F64) :=
  List.filter (fun c => contains (cgroup_application_key c) keys) (cgroups s).
Definition retained_applications (keys : list string) (s : PrivateSnapshot F64) :=
  List.filter (fun a => contains (application_key a) keys) (applications s).

(** [usize::saturating_sub] and [saturating_add] of lengths. *)
Definition dropped_records (keys : list string) (s : PrivateSnapshot F64) : Z :=
  let dropped {A} (before after : list A) : Z := sat_u64 (Z.of_nat (length before) - Z.of_nat (length after)) in
  sat_u64 (sat_u64 (dropped (processes s) (retained_processes keys s)
                    + dropped (cgroups s) (retained_cgroups keys s))
           + dropped (applications s) (retained_applications keys s)).

Definition bounded_snapshot_reply (generation : Z) (s : PrivateSnapshot F64) (retained_keys : list string)
  : CollectionReply F64 :=
  let dropped := dropped_records retained_keys s in
  let apps := retained_applications retained_keys s in
  let s' := with_records (retained_processes retained_keys s) (retained_cgroups retained_keys s)
              (if 0 <? dropped then map reduce_application apps else apps) s in
  CollectionReply_snapshot generation
    (with_metadata (permission_denied_counts s')
       (add_or_replace_issue (issues s') BUDGET_ISSUE (Z.max dropped 1)) s').

(** The binary search for the number of applications that fit. *)
Fixpoint search (fuel : nat) (generation : Z) (s : PrivateSnapshot F64) (keys : list string) (lower upper : nat)
  : result nat FrameError :=
  match fuel with
  | O => Ok lower
  | S fuel =>
      if (lower <? upper)%nat then
        let candidate_count := (lower + (upper - lower + 1) / 2)%nat in
        let? length := serialized_len (bounded_snapshot_reply generation s (take candidate_count keys)) in
        if length <=? MAX_FRAME_BYTES
        then search fuel generation s keys candidate_count upper
        else search fuel generation s keys lower (candidate_count - 1)
      else Ok lower
  end.

Definition sorted_metadata (s : PrivateSnapshot F64) : PrivateSnapshot F64 :=
  with_metadata (merge_sort code_le (permission_denied_counts s))
    (add_or_replace_issue (merge_sort code_le (issues s)) BUDGET_ISSUE 1) s.

(** What is left to do when removing metadata was not enough. *)
Definition reduce_records (generation : Z) (s : PrivateSnapshot F64) : result (CollectionReply F64) FrameError :=
  let application_keys := btree_set (map application_key (applications s)) in
  let n := length application_keys in
  let? lower := search n generation s application_keys 0 n in
  match trim_issue_metadata_to_fit (bounded_snapshot_reply generation s (take lower application_keys)) with
  | (bounded, Ok _) => let? _ := CollectionReply_validate bounded in Ok bounded
  | (_, Err e) => Err e
  end.

Definition bounded_reply (reply : CollectionReply F64) : result (CollectionReply F64) FrameError :=
  let? _ := CollectionReply_validate reply in
  let? payload := map_err MalformedJson (to_vec reply) in
  if Z.of_nat (length payload) <=? MAX_FRAME_BYTES then Ok reply
  else
    match body reply with
    | Body_Error _ => Err (Oversized (Z.of_nat (length payload)) MAX_FRAME_BYTES)
    | Body_Snapshot s =>
        let metadata_bounded := {| reply_version := reply_version reply; reply_gen := reply_gen reply;
                                   body := Body_Snapshot (sorted_metadata s) |} in
        match trim_issue_metadata_to_fit metadata_bounded with
        | (bounded, Ok _) => let? _ := CollectionReply_validate bounded in Ok bounded
        | (bounded, Err (Oversized _ _)) =>
            match body bounded with
            | Body_Snapshot s => reduce_records (reply_gen reply) s
            | Body_Error _ => Err (InvalidPayload "unreachable")
            end
        | (_, Err e) => Err e
        end
    end.
End Bounded.

(** ** Messages and the helper's loop *)

Section Codec.
Context {F64 : Type} `{Json CollectionRequest} `{Json (CollectionReply F64)}.

Definition decode_request (payload : list Z) : result CollectionRequest FrameError :=
  let? _ := ensure_payload_size MAX_FRAME_BYTES payload in
  let? request := map_err MalformedJson (from_slice payload) in
  let? _ := CollectionRequest_validate request in
  Ok request.

Definition decode_reply (payload : list Z) : result (CollectionReply F64) FrameError :=
  let? _ := ensure_payload_size MAX_FRAME_BYTES payload in
  let? reply := map_err MalformedJson (from_slice payload) in
  let? _ := CollectionReply_validate reply in
  Ok reply.

(** [write_reply] up to [write_frame]. *)
Definition encode_reply (reply : CollectionReply F64) : result (list Z) FrameError :=
  let? reply := bounded_reply reply in encode MAX_FRAME_BYTES reply.

Definition write_request (request : CollectionRequest) : mut Stdio unit FrameError :=
  lift (fun _ => CollectionRequest_validate request) ;;;
  payload <- lift (fun _ => encode MAX_FRAME_BYTES request) ;;
  write_frame MAX_FRAME_BYTES payload.

(** [read_frame(..)?.map(..).transpose()]. *)
Definition read_decoded {A} (decode : list Z -> result A FrameError) : mut Stdio (option A) FrameError :=
  payload <- read_frame MAX_FRAME_BYTES ;;
  match payload with
  | Some payload => lift (fun _ => let? a := decode payload in Ok (Some a))
  | None => ret None
  end.
Definition read_request : mut Stdio (option CollectionRequest) FrameError := read_decoded decode_request.
Definition read_reply : mut Stdio (option (CollectionReply F64)) FrameError := read_decoded decode_reply.

(** [helper_error_from_frame] of [main.rs]. *)
Definition helper_error_from_frame (error : FrameError) : HelperError :=
  let code :=
    match error with
    | UnsupportedVersion _ => UnsupportedVersionCode
    | Oversized _ _ => OversizedFrame
    | MalformedJson _ => MalformedRequest
    | InvalidPayload _ | Empty => InvalidRequest
    | Io _ | TruncatedLength | TruncatedPayload | LengthOverflow => Internal
    end in
  {| code := code; retryable := false; error_reason := frame_error_to_string error |}.

#[export] Instance telemetry_protocol : HelperProtocol := {
  Request := CollectionRequest;
  Snapshot := PrivateSnapshot F64;
  Error := HelperError;
  Reply := CollectionReply F64;
  frame_max := MAX_FRAME_BYTES;
  HelperFrame.decode_request := decode_request;
  request_generation := generation;
  reply_snapshot := CollectionReply_snapshot;
  reply_error := CollectionReply_error;
  reply_generation := reply_gen;
  error_of_frame := helper_error_from_frame;
  HelperFrame.encode_reply := encode_reply;
  HelperFrame.decode_reply := decode_reply;
}.

(** [serve_stdio] of the helper's [main.rs]. *)
Definition telemetry_serve_stdio {C}
    (collect : C -> CollectionRequest -> C * result (PrivateSnapshot F64) HelperError)
  : nat -> C -> Stdio -> option (C * (Stdio * result unit FrameError)) :=
  serve_stdio (H := telemetry_protocol) collect.
End Codec.
