(* ===== verification/TelemetryHelperFacts.v ===== *)
(** The telemetry helper: a reply is sent whole when it fits a frame and is
    otherwise reduced to one that is valid, fits, and keeps as many whole
    applications as the binary search finds room for; the loop's laws hold of
    this protocol. *)
From S2P Require Import Prelude Frame FrameFacts HelperFrame HelperFrameFacts NetworkHelperFacts TelemetryHelper.

(** ** Issues *)

Lemma bump_issue_codes c n l l' : bump_issue c n l = Some l' -> map issue_code l' = map issue_code l.
Proof.
  revert l'. induction l as [| i l IH]; intros l' Hb; cbn [bump_issue] in Hb; [done |].
  destruct (eqb (issue_code i) c); [by injection Hb as <- |].
  destruct (bump_issue c n l) as [l1 |] eqn:H1; [| done]. injection Hb as <-. simpl. f_equal. by apply IH.
Qed.

Lemma bump_issue_none c n l : bump_issue c n l = None -> c ∉ map issue_code l.
Proof.
  induction l as [| i l IH]; intros Hb; cbn [bump_issue] in Hb; [intros Hc; inversion Hc |].
  destruct (eqb (issue_code i) c) eqn:He; [done |]. apply eqb_neq in He.
  destruct (bump_issue c n l) as [l1 |] eqn:H1; [done |]. simpl. intros Hc.
  apply elem_of_cons in Hc as [-> | Hc]; [done | by apply IH].
Qed.

Lemma removelast_sublist {A} (l : list A) : removelast l `sublist_of` l.
Proof.
  destruct l as [| x l _] using rev_ind; [done |]. rewrite removelast_last.
  rewrite <- (app_nil_r l) at 1. apply sublist_app; [done | apply sublist_nil_l].
Qed.

Lemma Forall_sublist {A} (P : A -> Prop) l l' : l' `sublist_of` l -> Forall P l -> Forall P l'.
Proof.
  induction 1 as [| x l1 l2 Hs IH | x l1 l2 Hs IH]; intros HF; [done | |].
  - apply Forall_cons in HF as [Hx HF]. constructor; auto.
  - apply Forall_cons in HF as [Hx HF]. auto.
Qed.

(** A list of issues that is valid stays so under the two operations on it. *)
Definition issues_ok (l : list PrivateIssueCount) : Prop := validate_issue_counts l = Ok tt.

Lemma issues_ok_iff l :
  issues_ok l <-> Z.of_nat (length l) <= MAX_ISSUE_RECORDS /\
                  Forall (fun c => validate_string c "issue.code" = Ok tt) (map issue_code l).
Proof.
  unfold issues_ok, validate_issue_counts. destruct (MAX_ISSUE_RECORDS <? _) eqn:Hl.
  - split; [discriminate | lia].
  - rewrite try_for_each_ok, Forall_map. split; [intros Hf; split; [lia | exact Hf] | by intros [_ Hf]].
Qed.

Lemma issues_ok_sublist l l' : l' `sublist_of` l -> issues_ok l -> issues_ok l'.
Proof.
  rewrite !issues_ok_iff. intros Hs [Hl Hf]. pose proof (sublist_length _ _ Hs). split; [lia |].
  rewrite Forall_map in *. by eapply Forall_sublist.
Qed.

Lemma issues_ok_perm l l' : l' ≡ₚ l -> issues_ok l -> issues_ok l'.
Proof.
  rewrite !issues_ok_iff. intros Hs [Hl Hf]. split; [by rewrite Hs |]. by rewrite Hs.
Qed.

Lemma add_or_replace_ok l n : issues_ok l -> issues_ok (add_or_replace_issue l BUDGET_ISSUE n).
Proof.
  intros Hok. unfold add_or_replace_issue. destruct (bump_issue BUDGET_ISSUE n l) as [l' |] eqn:Hb.
  - apply bump_issue_codes in Hb. apply issues_ok_iff in Hok as [Hl Hf]. apply issues_ok_iff. rewrite Hb.
    split; [| done]. rewrite <- (length_map issue_code), Hb, length_map. done.
  - assert (Hrest : issues_ok (if Z.of_nat (length l) =? MAX_ISSUE_RECORDS then removelast l else l) /\
      Z.of_nat (length (if Z.of_nat (length l) =? MAX_ISSUE_RECORDS then removelast l else l)) < MAX_ISSUE_RECORDS).
    { pose proof (proj1 (proj1 (issues_ok_iff l) Hok)) as Hl. destruct (_ =? _) eqn:He; [| split; [done | lia]].
      split; [eapply issues_ok_sublist; [apply removelast_sublist | done] |].
      apply Z.eqb_eq in He. destruct l as [| x l _] using rev_ind; [done |].
      rewrite removelast_last. rewrite length_app in He. simpl in He. lia. }
    destruct Hrest as [Hr Hlt]. apply issues_ok_iff in Hr as [_ Hf]. apply issues_ok_iff.
    rewrite length_app, map_app, Forall_app. simpl. split_and!; [lia | done |]. by repeat constructor.
Qed.

Lemma add_or_replace_mem l n : BUDGET_ISSUE ∈ map issue_code (add_or_replace_issue l BUDGET_ISSUE n).
Proof.
  unfold add_or_replace_issue. destruct (bump_issue BUDGET_ISSUE n l) as [l' |] eqn:Hb.
  - rewrite (bump_issue_codes _ _ _ _ Hb). revert l' Hb.
    induction l as [| i l IH]; intros l' Hb; cbn [bump_issue] in Hb; [done |]. simpl.
    destruct (eqb (issue_code i) BUDGET_ISSUE) eqn:He; [apply eqb_eq in He; rewrite He; by left |].
    destruct (bump_issue BUDGET_ISSUE n l) as [l1 |]; [| done]. right. by eapply IH.
  - rewrite map_app. apply elem_of_app. right. by left.
Qed.

Definition only_budget (l : list PrivateIssueCount) : Prop := Forall (fun i => issue_code i = BUDGET_ISSUE) l.

Lemma remove_last_other_some l l' : remove_last_other l = Some l' -> l' `sublist_of` l /\ length l = S (length l').
Proof.
  revert l'. induction l as [| i l IH]; intros l' Hr; [done |].
  change (remove_last_other (i :: l)) with
    (match remove_last_other l with Some l' => Some (i :: l')
     | None => if eqb (issue_code i) BUDGET_ISSUE then None else Some l end) in Hr.
  destruct (remove_last_other l) as [l1 |] eqn:H1.
  - injection Hr as <-. destruct (IH _ eq_refl) as [Hs Hl]. split; [by constructor |]. simpl. lia.
  - destruct (eqb _ _); [done |]. injection Hr as <-. split; [by constructor | done].
Qed.

Lemma remove_last_other_none l : remove_last_other l = None -> only_budget l.
Proof.
  induction l as [| i l IH]; intros Hr; [constructor |].
  change (remove_last_other (i :: l)) with
    (match remove_last_other l with Some l' => Some (i :: l')
     | None => if eqb (issue_code i) BUDGET_ISSUE then None else Some l end) in Hr.
  destruct (remove_last_other l) as [l1 |]; [done |]. destruct (eqb (issue_code i) BUDGET_ISSUE) eqn:He; [| done].
  apply eqb_eq in He. constructor; [done | by apply IH].
Qed.

Lemma add_or_replace_only_budget l n :
  only_budget l -> Z.of_nat (length l) <= MAX_ISSUE_RECORDS ->
  only_budget (add_or_replace_issue l BUDGET_ISSUE n) /\
  Z.of_nat (length (add_or_replace_issue l BUDGET_ISSUE n)) <= MAX_ISSUE_RECORDS.
Proof.
  intros Ho Hl. unfold add_or_replace_issue. destruct (bump_issue BUDGET_ISSUE n l) as [l' |] eqn:Hb.
  - apply bump_issue_codes in Hb. split; [| by rewrite <- (length_map issue_code), Hb, length_map].
    unfold only_budget in *. apply Forall_map with (f := issue_code) (P := fun c => c = BUDGET_ISSUE).
    rewrite Hb. by apply Forall_map.
  - destruct l as [| i l]; [split; [by repeat constructor | vm_compute; discriminate] |].
    exfalso. apply Forall_cons in Ho as [Hi _]. apply bump_issue_none in Hb. apply Hb. simpl. rewrite Hi. by left.
Qed.

(** ** Validity of what remains *)

Section Reduce.
Context {F64 : Type} `{Json (CollectionReply F64)}.
Implicit Types (s : PrivateSnapshot F64) (r : CollectionReply F64).

(** Validity, apart from the two lists of issues and the three of records. *)
Definition frame_valid s : Prop :=
  validate_string (boot_id s) "boot_id" = Ok tt /\ validate_metric (captured_at_monotonic_ns s) = Ok tt /\
  logical_cpu_count s <> 0 /\
  validate_metric (file_nr_allocated (system_fd s)) = Ok tt /\ validate_metric (file_nr_max (system_fd s)) = Ok tt /\
  validate_metric (file_max (system_fd s)) = Ok tt /\ validate_metric (pressure_percent (system_fd s)) = Ok tt.

Definition records_valid s : Prop :=
  Z.of_nat (length (processes s)) <= MAX_PROCESS_RECORDS /\ Z.of_nat (length (cgroups s)) <= MAX_CGROUP_RECORDS /\
  Z.of_nat (length (applications s)) <= MAX_APPLICATION_RECORDS /\
  Forall (fun p => validate_process (boot_id s) (euid s) p = Ok tt) (processes s) /\
  Forall (fun c => validate_cgroup c = Ok tt) (cgroups s) /\
  Forall (fun a => validate_application a = Ok tt) (applications s).

Lemma guard_ok_bind {E} (b : bool) (e : E) (k : result unit E) :
  (fail_if b with e in k) = Ok tt <-> b = false /\ k = Ok tt.
Proof. destruct b; naive_solver. Qed.
Lemma seq_ok {E} (m k : result unit E) : (let? _ := m in k) = Ok tt <-> m = Ok tt /\ k = Ok tt.
Proof. rewrite result_bind_ok. split; [intros ([] & ? & ?); done | intros [? ?]; by exists tt]. Qed.

Lemma snapshot_valid_iff s :
  PrivateSnapshot_validate s = Ok tt <->
  frame_valid s /\ issues_ok (permission_denied_counts s) /\ issues_ok (issues s) /\ records_valid s.
Proof.
  unfold PrivateSnapshot_validate, frame_valid, records_valid, issues_ok.
  rewrite !seq_ok, !guard_ok_bind, !seq_ok, !try_for_each_ok, Z.eqb_neq, !Z.ltb_ge. naive_solver.
Qed.

Lemma with_metadata_valid s perms iss :
  PrivateSnapshot_validate s = Ok tt -> issues_ok perms -> issues_ok iss ->
  PrivateSnapshot_validate (with_metadata perms iss s) = Ok tt.
Proof. rewrite !snapshot_valid_iff. intros (Hf & _ & _ & Hr) Hp Hi. split_and!; assumption. Qed.

Lemma validate_reduced (a : PrivateApplicationResourceRecord F64) : validate_application a = Ok tt -> validate_application (reduce_application a) = Ok tt.
Proof.
  unfold validate_application. rewrite !seq_ok. cbn [reduce_application application_key proc_cpu_jiffies_sum
    rss_sum_bytes pss_sum_bytes fd_used_sum fd_soft_limit_sum fd_percent_of_attributed_sum
    fd_percent_of_soft_limit_sum cgroup_cpu_usage_usec memory_current_bytes cgroup_process_count].
  intros (? & ? & ? & ? & ? & ? & ? & ? & ? & ? & ? & ?). split_and!; done.
Qed.

Lemma filter_sublist {A} (p : A -> bool) (l : list A) : List.filter p l `sublist_of` l.
Proof. induction l as [| x l IH]; simpl; [done |]. destruct (p x); by constructor. Qed.

Lemma with_records_valid s ps cs apps :
  PrivateSnapshot_validate s = Ok tt -> ps `sublist_of` processes s -> cs `sublist_of` cgroups s ->
  (length apps <= length (applications s))%nat -> Forall (fun a : PrivateApplicationResourceRecord F64 => validate_application a = Ok tt) apps ->
  PrivateSnapshot_validate (with_records ps cs apps s) = Ok tt.
Proof.
  rewrite !snapshot_valid_iff. intros (Hf & Hp & Hi & Hr1 & Hr2 & Hr3 & Hr4 & Hr5 & Hr6) Hps Hcs Ha Hav.
  pose proof (sublist_length _ _ Hps). pose proof (sublist_length _ _ Hcs).
  split_and!; [exact Hf | exact Hp | exact Hi |]. unfold records_valid. simpl. split_and!.
  1-3: lia.
  - by eapply Forall_sublist.
  - by eapply Forall_sublist.
  - done.
Qed.

Lemma bounded_snapshot_valid g s keys :
  PrivateSnapshot_validate s = Ok tt -> CollectionReply_validate (bounded_snapshot_reply g s keys) = Ok tt.
Proof.
  intros Hv. unfold CollectionReply_validate, bounded_snapshot_reply. cbn [CollectionReply_snapshot reply_version body].
  change (validate_version PROTOCOL_VERSION) with (Ok tt : result unit FrameError). cbn [result_bind].
  pose proof (filter_sublist (fun a => contains (application_key a) keys) (applications s)) as Hs.
  pose proof (sublist_length _ _ Hs) as Hlen.
  pose proof (proj1 (snapshot_valid_iff s) Hv) as (_ & Hp & Hi & _ & _ & _ & _ & _ & Happs).
  assert (Hav : Forall (fun a => validate_application a = Ok tt) (retained_applications keys s))
    by (eapply Forall_sublist; [exact Hs | done]).
  apply with_metadata_valid; [| exact Hp | by apply add_or_replace_ok].
  apply with_records_valid; [done | apply filter_sublist | apply filter_sublist | |].
  - unfold retained_applications. destruct (0 <? _); [rewrite length_map |]; done.
  - destruct (0 <? _); [| done]. rewrite Forall_map. eapply Forall_impl; [exact Hav |]. apply validate_reduced.
Qed.

(** ** Trimming the metadata *)

Definition fits r : Prop := exists n, serialized_len r = Ok n /\ n <= MAX_FRAME_BYTES.
Definition too_long r : Prop := exists n, serialized_len r = Ok n /\ MAX_FRAME_BYTES < n.

Definition budget_reported s : Prop := BUDGET_ISSUE ∈ map issue_code (issues s).

(** The metadata of [s'] is part of that of [s], the budget's issue excepted
    from the removals; everything else is the same. *)
Definition trimmed s s' : Prop :=
  exists perms iss, s' = with_metadata perms iss s /\
    perms `sublist_of` permission_denied_counts s /\ iss `sublist_of` issues s /\
    (budget_reported s -> BUDGET_ISSUE ∈ map issue_code iss).

Lemma trimmed_refl s : trimmed s s.
Proof. exists (permission_denied_counts s), (issues s). split_and!; [by destruct s | done | done | done]. Qed.
Lemma trimmed_trans s1 s2 s3 : trimmed s1 s2 -> trimmed s2 s3 -> trimmed s1 s3.
Proof.
  intros (p & i & -> & Hp & Hi & Hb) (p' & i' & -> & Hp' & Hi' & Hb').
  exists p', i'. split_and!; [done | by etrans | by etrans |].
  intros Hs. by apply Hb', Hb.
Qed.

Lemma remove_last_other_budget l l' :
  remove_last_other l = Some l' -> BUDGET_ISSUE ∈ map issue_code l -> BUDGET_ISSUE ∈ map issue_code l'.
Proof.
  revert l'. induction l as [| i l IH]; intros l' Hr; [done |].
  change (remove_last_other (i :: l)) with
    (match remove_last_other l with Some l' => Some (i :: l')
     | None => if eqb (issue_code i) BUDGET_ISSUE then None else Some l end) in Hr.
  destruct (remove_last_other l) as [l1 |] eqn:H1.
  - injection Hr as <-. simpl. intros Hb. apply elem_of_cons in Hb as [Hb | Hb]; [rewrite Hb; by left |].
    right. by apply IH.
  - destruct (eqb (issue_code i) BUDGET_ISSUE) eqn:He; [done |]. apply eqb_neq in He. injection Hr as <-.
    simpl. intros Hb. by apply elem_of_cons in Hb as [Hb | Hb].
Qed.

Definition exhausted s : Prop := permission_denied_counts s = [] /\ only_budget (issues s).

Lemma trim_step_spec s :
  match trim_step s with
  | Some s' => trimmed s s' /\
      length (permission_denied_counts s) + length (issues s) =
      S (length (permission_denied_counts s') + length (issues s'))
  | None => exhausted s
  end%nat.
Proof.
  unfold trim_step. destruct (permission_denied_counts s) as [| p ps] eqn:Hp.
  - destruct (remove_last_other (issues s)) as [iss |] eqn:Hr; simpl.
    + pose proof (remove_last_other_some _ _ Hr) as [Hs Hl]. split; [| lia].
      exists [], iss. rewrite Hp. split_and!; [done | done | done |]. by apply remove_last_other_budget.
    + split; [done | by apply remove_last_other_none].
  - rewrite <- Hp. split.
    + exists (removelast (permission_denied_counts s)), (issues s).
      split_and!; [done | apply removelast_sublist | done | done].
    + cbn [with_metadata permission_denied_counts issues]. rewrite Hp.
      assert (Hl : forall (x : PrivateIssueCount) l, length (x :: l) = S (length (removelast (x :: l)))).
      { intros x l. destruct (exists_last (l := x :: l) ltac:(discriminate)) as (l' & y & ->).
        rewrite removelast_last, length_app. simpl. lia. }
      rewrite (Hl p ps). lia.
Qed.

Definition trimmed_reply r r' : Prop :=
  reply_version r' = reply_version r /\ reply_gen r' = reply_gen r /\
  match body r, body r' with
  | Body_Snapshot s, Body_Snapshot s' => trimmed s s'
  | Body_Error e, Body_Error e' => e' = e
  | _, _ => False
  end.

Lemma trimmed_reply_refl r : trimmed_reply r r.
Proof. split_and!; [done | done |]. destruct (body r); [apply trimmed_refl | done]. Qed.

(** How trimming ends: with a reply that fits, with one too long that has no
    metadata left to remove, or with a failure of the serializer. *)
Lemma trim_loop_spec fuel : forall r r' x,
  trim_loop fuel r = (r', x) -> (metadata_size r <= fuel)%nat ->
  trimmed_reply r r' /\
  ((x = Ok tt /\ fits r') \/
   (exists n, x = Err (Oversized n MAX_FRAME_BYTES) /\ too_long r' /\
      match body r' with Body_Snapshot s => exhausted s | Body_Error _ => True end) \/
   (exists m, x = Err (MalformedJson m) /\ to_vec r' = Err m)).
Proof.
  induction fuel as [| fuel IH]; intros r r' x Hl Hf; cbn [trim_loop] in Hl; unfold fits, too_long;
    destruct (serialized_len r) as [n | e] eqn:Hn.
  2, 4: injection Hl as <- <-; (split; [apply trimmed_reply_refl |]); right; right;
        unfold serialized_len in Hn; destruct (to_vec r) eqn:Hv; [discriminate | injection Hn as <-; by eauto].
  all: destruct (n <=? MAX_FRAME_BYTES) eqn:Hle;
    [injection Hl as <- <-; split; [apply trimmed_reply_refl | left; split; [done | exists n; split; [done | lia]]] |].
  all: destruct (body r) as [s | e] eqn:Hb;
    [| injection Hl as <- <-; split; [apply trimmed_reply_refl |]; right; left; exists n;
       rewrite Hb; split; [done | split; [exists n; split; [done | lia] | done]]].
  all: pose proof (trim_step_spec s) as Hs; destruct (trim_step s) as [s' |].
  2, 4: injection Hl as <- <-; split; [apply trimmed_reply_refl |]; right; left; exists n;
        rewrite Hb; split; [done | split; [exists n; split; [done | lia] | exact Hs]].
  - destruct Hs as [_ Hs]. unfold metadata_size in Hf. rewrite Hb in Hf. lia.
  - destruct Hs as [Ht Hs]. apply IH in Hl as [(Hv & Hg & Hbody) Hx].
    2: { unfold metadata_size in *. rewrite Hb in Hf. simpl. lia. }
    split; [| exact Hx]. split_and!; [exact Hv | exact Hg |]. simpl in Hbody. rewrite Hb.
    destruct (body r') as [s2 | e2]; [by eapply trimmed_trans | done].
Qed.

Lemma trimmed_valid s s' : trimmed s s' -> PrivateSnapshot_validate s = Ok tt -> PrivateSnapshot_validate s' = Ok tt.
Proof.
  intros (p & i & -> & Hp & Hi & _) Hv. pose proof (proj1 (snapshot_valid_iff s) Hv) as (_ & Hvp & Hvi & _).
  apply with_metadata_valid; [done | by eapply issues_ok_sublist | by eapply issues_ok_sublist].
Qed.

Lemma trimmed_reply_valid r r' : trimmed_reply r r' -> CollectionReply_validate r = Ok tt -> CollectionReply_validate r' = Ok tt.
Proof.
  unfold CollectionReply_validate. intros (-> & _ & Hb). rewrite !seq_ok. intros [? Hv]. split; [done |].
  destruct (body r) as [s | e], (body r') as [s' | e']; try done; [by eapply trimmed_valid | by subst].
Qed.

(** ** The search *)

Lemma search_spec fuel g s keys : forall lower upper k,
  (upper - lower <= fuel)%nat -> (lower <= upper <= length keys)%nat ->
  search fuel g s keys lower upper = Ok k ->
  (lower <= k <= upper)%nat /\
  (k = lower \/ fits (bounded_snapshot_reply g s (take k keys))) /\
  (k = upper \/ too_long (bounded_snapshot_reply g s (take (S k) keys))).
Proof.
  induction fuel as [| fuel IH]; intros lower upper k Hf Hlu Hs; cbn [search] in Hs.
  { injection Hs as <-. split_and!; [lia | lia | by left | left; lia]. }
  destruct (lower <? upper)%nat eqn:Hlt; [apply Nat.ltb_lt in Hlt | apply Nat.ltb_ge in Hlt; injection Hs as <-;
    split_and!; [lia | lia | by left | left; lia]].
  set (c := (lower + (upper - lower + 1) / 2)%nat) in *.
  assert (Hc : (lower < c <= upper)%nat).
  { unfold c. pose proof (Nat.div_mod (upper - lower + 1) 2 ltac:(lia)).
    pose proof (Nat.mod_upper_bound (upper - lower + 1) 2 ltac:(lia)). lia. }
  apply result_bind_ok in Hs as (n & Hn & Hs). destruct (n <=? MAX_FRAME_BYTES) eqn:Hle.
  - apply IH in Hs as (Hk & Hfit & Hnext); [| lia | lia]. split_and!; [lia | lia | | done].
    destruct Hfit as [-> | Hfit]; right; [exists n; split; [done | lia] | done].
  - apply IH in Hs as (Hk & Hfit & Hnext); [| lia | lia]. split_and!; [lia | lia | done |].
    destruct Hnext as [-> | Hnext]; right; [| done]. exists n. split; [| lia].
    by replace (S (c - 1)) with c by lia.
Qed.

Lemma search_total fuel g s keys : (forall r, exists p, to_vec r = Ok p) -> forall lower upper,
  exists k, search fuel g s keys lower upper = Ok k.
Proof.
  intros Hj. induction fuel as [| fuel IH]; intros lower upper; cbn [search]; [by eexists |].
  destruct (lower <? upper)%nat; [| by eexists]. unfold serialized_len at 1.
  destruct (Hj (bounded_snapshot_reply g s (take (lower + (upper - lower + 1) / 2) keys))) as [p ->]. cbn.
  destruct (_ <=? _); apply IH.
Qed.

(** ** Bounded replies *)

(** The scope and the totals of a snapshot. *)
Definition same_scope s s' : Prop :=
  boot_id s' = boot_id s /\ euid s' = euid s /\ captured_at_unix_ms s' = captured_at_unix_ms s /\
  captured_at_monotonic_ns s' = captured_at_monotonic_ns s /\ total_cpu_jiffies s' = total_cpu_jiffies s /\
  logical_cpu_count s' = logical_cpu_count s /\ system_fd s' = system_fd s /\
  excluded_other_uid s' = excluded_other_uid s /\ skipped_race s' = skipped_race s.

Definition same_records s s' : Prop :=
  processes s' = processes s /\ cgroups s' = cgroups s /\ applications s' = applications s.

(** The records of the applications of [keys], all of them and no others; when
    anything was dropped, the share of the attributed total is unknown. *)
Definition kept_records (keys : list string) s s' : Prop :=
  processes s' = retained_processes keys s /\ cgroups s' = retained_cgroups keys s /\
  applications s' = (if 0 <? dropped_records keys s
                     then map reduce_application (retained_applications keys s)
                     else retained_applications keys s).

Definition keys_of s : list string := btree_set (map application_key (applications s)).

(** A reduced snapshot: of the sorted, trimmed metadata, with all records or
    with those of the first [k] applications, one more being too long. *)
Definition reduction (g : Z) s s' : Prop :=
  same_records s s' \/
  exists s1 k, trimmed (sorted_metadata s) s1 /\ exhausted s1 /\
    too_long {| reply_version := PROTOCOL_VERSION; reply_gen := g; body := Body_Snapshot s1 |} /\
    (k <= length (keys_of s))%nat /\ kept_records (take k (keys_of s)) s s' /\
    (k = length (keys_of s) \/ too_long (bounded_snapshot_reply g s1 (take (S k) (keys_of s)))).

Lemma sorted_metadata_ok s : PrivateSnapshot_validate s = Ok tt ->
  PrivateSnapshot_validate (sorted_metadata s) = Ok tt /\ budget_reported (sorted_metadata s).
Proof.
  intros Hv. pose proof (proj1 (snapshot_valid_iff s) Hv) as (_ & Hp & Hi & _). split; [| apply add_or_replace_mem].
  apply with_metadata_valid; [done | | apply add_or_replace_ok].
  all: eapply issues_ok_perm; [apply merge_sort_Permutation | done].
Qed.

Lemma reply_valid_iff r : CollectionReply_validate r = Ok tt <->
  reply_version r = PROTOCOL_VERSION /\
  match body r with Body_Snapshot s => PrivateSnapshot_validate s = Ok tt | Body_Error e => HelperError_validate e = Ok tt end.
Proof.
  unfold CollectionReply_validate, validate_version. rewrite seq_ok. destruct (_ =? _) eqn:Hv.
  - apply Z.eqb_eq in Hv. destruct (body r); naive_solver.
  - apply Z.eqb_neq in Hv. naive_solver.
Qed.

Lemma reduce_records_spec g s r' :
  reduce_records g s = Ok r' -> PrivateSnapshot_validate s = Ok tt ->
  CollectionReply_validate r' = Ok tt /\ fits r' /\ reply_gen r' = g /\
  exists s' k, body r' = Body_Snapshot s' /\ (k <= length (keys_of s))%nat /\
    same_scope s s' /\ budget_reported s' /\ kept_records (take k (keys_of s)) s s' /\
    (k = length (keys_of s) \/ too_long (bounded_snapshot_reply g s (take (S k) (keys_of s)))).
Proof.
  intros Hr Hv. unfold reduce_records in Hr. apply result_bind_ok in Hr as (k & Hk & Hr). fold (keys_of s) in Hk, Hr.
  apply search_spec in Hk as (Hk & _ & Hnext); [| lia | lia].
  destruct (trim_issue_metadata_to_fit _) as [b [[] | e]] eqn:Ht; [| discriminate].
  apply result_bind_ok in Hr as ([] & Hval & [= <-]).
  apply trim_loop_spec in Ht as [(_ & Hg & Hb) [[_ Hfit] | [(n & Hx & _) | (m & Hx & _)]]]; try discriminate; [| done].
  split_and!; [done | done | exact Hg |]. cbn [bounded_snapshot_reply CollectionReply_snapshot body] in Hb.
  destruct (body b) as [s' | e]; [| done]. exists s', k. destruct Hb as (p & i & -> & _ & _ & Hbud).
  split_and!; [done | lia | by unfold same_scope | | by unfold kept_records | done].
  apply Hbud. apply add_or_replace_mem.
Qed.

(** A reply that [bounded_reply] gives is valid, fits a frame, and answers
    the same generation. A reply that fits is sent as it is. A snapshot that
    does not keeps its scope and totals, reports [reply_budget_exceeded], and
    either loses issue metadata only, or, all other metadata gone, keeps
    exactly the processes, cgroups and applications of the first [k] keys in
    order, where the first [k + 1] would not have fitted. *)
Theorem bounded_reply_reduces r r' :
  bounded_reply r = Ok r' ->
  CollectionReply_validate r' = Ok tt /\ fits r' /\ reply_gen r' = reply_gen r /\
  (r' = r \/
   too_long r /\
   exists s s', body r = Body_Snapshot s /\ body r' = Body_Snapshot s' /\
     same_scope s s' /\ budget_reported s' /\ reduction (reply_gen r) s s').
Proof.
  intros Hr. unfold bounded_reply in Hr. apply result_bind_ok in Hr as ([] & Hv & Hr).
  apply result_bind_ok in Hr as (payload & Hj & Hr).
  assert (Hlen : serialized_len r = Ok (Z.of_nat (length payload))) by (unfold serialized_len; by rewrite Hj).
  destruct (_ <=? _) eqn:Hle.
  { injection Hr as <-. split_and!; [done | exists (Z.of_nat (length payload)); split; [done | lia] | done | by left]. }
  assert (Hlong : too_long r) by (exists (Z.of_nat (length payload)); split; [done | lia]).
  destruct (body r) as [s | e] eqn:Hb; [| discriminate].
  pose proof (proj1 (reply_valid_iff r) Hv) as [Hver Hvs]. rewrite Hb in Hvs.
  destruct (sorted_metadata_ok s Hvs) as [Hsv Hsb].
  destruct (trim_issue_metadata_to_fit _) as [b x] eqn:Ht.
  apply trim_loop_spec in Ht as [(Hbv & Hbg & Hbody) Hx]; [| done]. cbn [body reply_version reply_gen] in *.
  destruct (body b) as [s1 | e] eqn:Hb1; [| done].
  pose proof (trimmed_valid _ _ Hbody Hsv) as Hv1.
  destruct Hx as [[-> Hfit] | [(n & -> & Hl & Hex) | (m & -> & _)]]; [| | discriminate].
  - apply result_bind_ok in Hr as ([] & Hval & [= <-]). split_and!; [done | done | done |]. right. split; [done |].
    destruct Hbody as (p & i & -> & _ & _ & Hbud). eexists s, _. split_and!; [done | exact Hb1 | | by apply Hbud | by left].
    by split_and!.
  - apply reduce_records_spec in Hr as (Hval & Hfit & Hg & s' & k & Hb' & Hk & Hsc & Hbud & Hkept & Hnext); [| done].
    split_and!; [done | done | done |]. right. split; [done |]. exists s, s'. rewrite Hb'.
    assert (Hlong1 : too_long {| reply_version := PROTOCOL_VERSION; reply_gen := reply_gen r; body := Body_Snapshot s1 |}).
    { rewrite <- Hver, <- Hbv, <- Hbg, <- Hb1. by destruct b. }
    destruct Hbody as (p & i & -> & Hp & Hi & Hbud').
    split_and!; [done | done | exact Hsc | done |]. right. eexists _, k.
    split; [by exists p, i |]. split; [exact Hex |]. split; [exact Hlong1 |]. by split_and!.
Qed.

Lemma trim_fits r : fits r -> trim_issue_metadata_to_fit r = (r, Ok tt).
Proof.
  intros (n & Hn & Hle). unfold trim_issue_metadata_to_fit. destruct (metadata_size r); cbn [trim_loop]; rewrite Hn;
    by replace (n <=? MAX_FRAME_BYTES) with true by lia.
Qed.

Lemma retained_none {A} (f : A -> string) (l : list A) : List.filter (fun x => contains (f x) []) l = [].
Proof. induction l; [done | exact IHl]. Qed.

(** A valid snapshot is never refused for its size: if serialization does
    not fail and the snapshot without its records and its metadata, the
    budget's issue excepted, fits a frame, [bounded_reply] gives a reply. *)
Theorem bounded_reply_total r s :
  body r = Body_Snapshot s -> CollectionReply_validate r = Ok tt ->
  (forall r0 : CollectionReply F64, exists p, to_vec r0 = Ok p) ->
  (forall iss, only_budget iss -> Z.of_nat (length iss) <= MAX_ISSUE_RECORDS ->
     fits (CollectionReply_snapshot (reply_gen r) (with_metadata [] iss (with_records [] [] [] s)))) ->
  exists r', bounded_reply r = Ok r'.
Proof.
  intros Hb Hv Hj Hbare. unfold bounded_reply. rewrite Hv. cbn [result_bind]. destruct (Hj r) as [p Hp]. rewrite Hp.
  cbn [map_err result_bind]. destruct (_ <=? _); [by eexists |]. rewrite Hb.
  pose proof (proj1 (reply_valid_iff r) Hv) as [Hver Hvs]. rewrite Hb in Hvs.
  destruct (sorted_metadata_ok s Hvs) as [Hsv Hsb].
  destruct (trim_issue_metadata_to_fit _) as [b x] eqn:Ht.
  apply trim_loop_spec in Ht as [Htr Hx]; [| done].
  assert (Hbval : CollectionReply_validate b = Ok tt)
    by (eapply trimmed_reply_valid; [exact Htr | by apply reply_valid_iff]).
  destruct Htr as (Hbv & Hbg & Hbody). cbn [body] in Hbody. destruct (body b) as [s1 | e] eqn:Hb1; [| done].
  destruct Hx as [[-> _] | [(n & -> & _ & Hex) | (m & _ & Hm)]].
  - rewrite Hbval. by eexists.
  - pose proof (trimmed_valid _ _ Hbody Hsv) as Hv1. unfold reduce_records. fold (keys_of s1).
    destruct (search_total (length (keys_of s1)) (reply_gen r) s1 (keys_of s1) Hj 0 (length (keys_of s1))) as [k Hk].
    rewrite Hk. cbn [result_bind]. apply search_spec in Hk as (_ & Hfit & _); [| lia | lia].
    assert (Hf : fits (bounded_snapshot_reply (reply_gen r) s1 (take k (keys_of s1)))).
    { destruct Hfit as [-> | Hfit]; [| done]. cbn [take]. destruct Hex as [Hperm Hiss].
      pose proof (proj1 (snapshot_valid_iff s1) Hv1) as (_ & _ & Hvi & _). apply issues_ok_iff in Hvi as [Hlen _].
      unfold bounded_snapshot_reply, retained_processes, retained_cgroups, retained_applications.
      rewrite !retained_none. cbn [map]. rewrite Tauto.if_same.
      destruct (add_or_replace_only_budget _ (Z.max (dropped_records [] s1) 1) Hiss Hlen) as [Ho Hl].
      specialize (Hbare _ Ho Hl). destruct Hbody as (p1 & i1 & -> & _). cbn in Hperm. subst p1. exact Hbare. }
    rewrite (trim_fits _ Hf), bounded_snapshot_valid by done. by eexists.
  - destruct (Hj b) as [p' Hp']. congruence.
Qed.
End Reduce.

(** ** The protocol's laws *)

Section Laws.
Context {F64 : Type} `{JsonLaws CollectionRequest} `{JsonLaws (CollectionReply F64)}.

#[export] Instance telemetry_laws : @HelperLaws telemetry_protocol.
Proof.
  constructor.
  - unfold frame_max, telemetry_protocol, MAX_FRAME_BYTES, u32_max. lia.
  - intros reply payload He. cbn in He. unfold encode_reply in He.
    apply result_bind_ok in He as (? & _ & He). by apply encode_ok in He as [_ ?].
  - done.
  - done.
Qed.

(** What the helper writes for a reply, its client decodes as the reduced
    reply: encoding after [bounded_reply] and decoding round trip, so a decoded
    snapshot is one [bounded_reply] gave, with the reply's generation. *)
Theorem telemetry_reply_round_trip (reply : CollectionReply F64) payload :
  encode_reply reply = Ok payload ->
  exists reduced, bounded_reply reply = Ok reduced /\ decode_reply payload = Ok reduced.
Proof.
  unfold encode_reply, decode_reply. intros He. apply result_bind_ok in He as (reduced & Hb & He).
  exists reduced. split; [done |]. apply encode_ok in He as [Hj Hs].
  rewrite (proj2 (ensure_payload_size_ok _ _ tt) Hs). cbn [result_bind]. rewrite (json_round_trip _ _ Hj).
  cbn [map_err result_bind]. assert (Hv : CollectionReply_validate reduced = Ok tt).
  { clear - Hb. unfold bounded_reply in Hb. apply result_bind_ok in Hb as ([] & Hv & Hb).
    apply result_bind_ok in Hb as (bs & _ & Hb). destruct (_ <=? _); [by injection Hb as <- |].
    destruct (body reply); [| discriminate]. destruct (trim_issue_metadata_to_fit _) as [b [[] | []]]; try discriminate.
    - by apply result_bind_ok in Hb as ([] & Hv' & [= <-]).
    - destruct (body b); [| discriminate]. unfold reduce_records in Hb. apply result_bind_ok in Hb as (k & _ & Hb).
      destruct (trim_issue_metadata_to_fit _) as [b' [[] | []]]; try discriminate.
      by apply result_bind_ok in Hb as ([] & Hv' & [= <-]). }
  by rewrite Hv.
Qed.
End Laws.

(** Witnesses: a serializer that takes 400,000 bytes per application. *)
Definition size_of (r : CollectionReply Z) : nat :=
  match body r with
  | Body_Snapshot s => Z.to_nat (1000 + 400000 * Z.of_nat (length (applications s)))
  | Body_Error _ => 100
  end.
#[local] Instance sized_json : Json (CollectionReply Z) :=
  { to_vec r := Ok (repeat 0 (size_of r)); from_slice _ := Err "not read back"%string }.

Definition sample_application (key : string) : PrivateApplicationResourceRecord Z :=
  let m {T} : PrivateMetric T := PrivateMetric_unavailable Unknown "none" in
  {| application_key := key; process_count := 0; proc_cpu_jiffies_sum := m; rss_sum_bytes := m; pss_sum_bytes := m;
     fd_used_sum := m; fd_soft_limit_sum := m; fd_percent_of_attributed_sum := m; fd_percent_of_soft_limit_sum := m;
     cgroup_cpu_usage_usec := m; memory_current_bytes := m; cgroup_process_count := m |}.
Definition sample_private_snapshot : PrivateSnapshot Z :=
  {| boot_id := "boot"; euid := 1000; captured_at_unix_ms := 1; captured_at_monotonic_ns := PrivateMetric_known 1;
     total_cpu_jiffies := 1; logical_cpu_count := 1; processes := []; cgroups := [];
     applications := [sample_application "c"; sample_application "a"; sample_application "b"];
     system_fd := PrivateSystemFdSnapshot_unavailable Unknown "none"; excluded_other_uid := 0; skipped_race := 0;
     permission_denied_counts := []; issues := [{| issue_code := "proc_raced"; count := 2 |}] |}.

Lemma bounded_reply_total_witness :
  exists r', bounded_reply (CollectionReply_snapshot 5 sample_private_snapshot) = Ok r'.
Proof.
  apply (bounded_reply_total _ sample_private_snapshot).
  - reflexivity.
  - vm_compute. reflexivity.
  - intros r0. by eexists.
  - intros iss _ _. exists 1000. split; [| vm_compute; discriminate].
    unfold serialized_len. cbn [to_vec sized_json map_err result_bind]. by rewrite repeat_length.
Defined.

Definition sample_error_reply : CollectionReply Z :=
  CollectionReply_error 4 (helper_error_from_frame (UnsupportedVersion 99)).

Lemma bounded_reply_reduces_witness :
  fits sample_error_reply /\ CollectionReply_validate sample_error_reply = Ok tt.
Proof.
  destruct (bounded_reply_reduces sample_error_reply sample_error_reply) as (Hv & Hf & _).
  - vm_compute. reflexivity.
  - split; [exact Hf | exact Hv].
Defined.

(** A serializer of errors only, that writes their generation. *)
Definition error_json : Json (CollectionReply Z) :=
  {| to_vec r := match body r with
                 | Body_Error e => if eqb e (helper_error_from_frame (UnsupportedVersion 99)) && (reply_version r =? 3)
                                   then Ok [reply_gen r] else Err "unused"%string
                 | _ => Err "unused"%string end;
     from_slice bs := match bs with
                      | [g] => Ok (CollectionReply_error g (helper_error_from_frame (UnsupportedVersion 99)))
                      | _ => Err "unused"%string end |}.
Lemma error_json_laws : @JsonLaws (CollectionReply Z) error_json.
Proof.
  intros [v g b] bs. cbn. destruct b as [| e]; [done |]. destruct (eqb e _) eqn:He; [| done].
  destruct (v =? 3) eqn:Hv; [| done]. apply eqb_eq in He as ->. apply Z.eqb_eq in Hv as ->. by intros [= <-].
Qed.

Lemma telemetry_reply_round_trip_witness :
  exists reduced, @bounded_reply Z error_json sample_error_reply = Ok reduced /\
    @decode_reply Z error_json [4] = Ok reduced.
Proof.
  apply (telemetry_reply_round_trip (H1 := error_json) (H2 := error_json_laws) sample_error_reply [4]).
  vm_compute. reflexivity.
Defined.
