(* ===== verification/Sql.v ===== *)
(** SQLite, as the code that calls it sees it: tables, and an oracle that says
    which of the statements to come fail.

    A statement is atomic: it fails, by a fault or a violated constraint, and
    leaves the tables as they were, or it does what it says. A transaction that
    is dropped without a commit, and one whose commit fails, leaves the tables
    as they were when it began. *)
From S2P Require Import Prelude.

Record Db (T : Type) := { db_tables : T; db_faults : list bool }.
Arguments db_tables {T} d.
Arguments db_faults {T} d.
Arguments Build_Db {T} db_tables db_faults.

(** How the body of a transaction ends: [commit()?] and then [Ok(a)], or
    [return Ok(a)] without a commit. *)
Inductive ending (A : Type) := Commit (a : A) | Drop (a : A).
Arguments Commit {A} a.
Arguments Drop {A} a.

Definition ended {A} (e : ending A) : A := match e with Commit a | Drop a => a end.

Section Sql.
Context {T E : Type} (sql_error : E).

(** One statement: [None] is a violated constraint. *)
Definition execute {A} (f : T -> option (T * A)) : mut (Db T) A E :=
  fun s =>
    let faults := tail (db_faults s) in
    match head (db_faults s) with
    | Some true => (Build_Db (db_tables s) faults, Err sql_error)
    | _ => match f (db_tables s) with
           | Some (t, a) => (Build_Db t faults, Ok a)
           | None => (Build_Db (db_tables s) faults, Err sql_error)
           end
    end.

Definition select {A} (f : T -> A) : mut (Db T) A E := execute (fun t => Some (t, f t)).

Definition transaction {A} (m : mut (Db T) (ending A) E) : mut (Db T) A E :=
  fun s =>
    let roll_back (s' : Db T) := Build_Db (db_tables s) (db_faults s') in
    match (select (fun _ => tt) ;;; m) s with
    | (s1, Ok (Commit a)) =>
        match select (fun _ => tt) s1 with
        | (s2, Ok _) => (s2, Ok a)
        | (s2, Err e) => (roll_back s2, Err e)
        end
    | (s1, Ok (Drop a)) => (roll_back s1, Ok a)
    | (s1, Err e) => (roll_back s1, Err e)
    end.

Lemma execute_ok {A} (f : T -> option (T * A)) s s' a :
  execute f s = (s', Ok a) -> f (db_tables s) = Some (db_tables s', a).
Proof.
  unfold execute. destruct (head (db_faults s)) as [[] |]; [done | |];
    destruct (f (db_tables s)) as [[t b] |]; intros [= <- <-]; done.
Qed.

Lemma execute_err {A} (f : T -> option (T * A)) s s' e :
  execute f s = (s', Err e) -> db_tables s' = db_tables s /\ e = sql_error.
Proof.
  unfold execute. destruct (head (db_faults s)) as [[] |]; [by intros [= <- <-] | |];
    destruct (f (db_tables s)) as [[t b] |]; intros [= <- <-]; done.
Qed.

Lemma select_ok {A} (f : T -> A) s s' a :
  select f s = (s', Ok a) -> db_tables s' = db_tables s /\ a = f (db_tables s).
Proof. unfold select. intros H. apply execute_ok in H. simplify_eq. split; congruence. Qed.

Lemma select_tables {A} (f : T -> A) : preserves db_tables (select f).
Proof.
  intros s s' [a | e] H; [by apply select_ok in H as [-> _] | by apply execute_err in H as [-> _]].
Qed.

(** A transaction that commits did what its body did; any other left the
    tables as they were. *)
Lemma transaction_ok {A} (m : mut (Db T) (ending A) E) s s' a :
  transaction m s = (s', Ok a) ->
  exists s0 s1 x, db_tables s0 = db_tables s /\ m s0 = (s1, Ok x) /\ a = ended x /\
    db_tables s' = match x with Commit _ => db_tables s1 | Drop _ => db_tables s end.
Proof.
  unfold transaction, bind. destruct (select (fun _ => tt) s) as [s0 [[] | e]] eqn:H0; [| done].
  apply select_ok in H0 as [H0 _]. destruct (m s0) as [s1 [[b | b] | e]] eqn:H1; [| | done].
  - destruct (select (fun _ => tt) s1) as [s2 [[] | e]] eqn:H2; [| done]. intros [= <- <-].
    apply select_ok in H2 as [H2 _]. by exists s0, s1, (Commit b).
  - intros [= <- <-]. by exists s0, s1, (Drop b).
Qed.

Lemma transaction_err {A} (m : mut (Db T) (ending A) E) s s' e :
  transaction m s = (s', Err e) ->
  db_tables s' = db_tables s /\
  (e = sql_error \/ exists s0 s1, db_tables s0 = db_tables s /\ m s0 = (s1, Err e)).
Proof.
  unfold transaction, bind. destruct (select (fun _ => tt) s) as [s0 [[] | e0]] eqn:H0.
  - apply select_ok in H0 as [H0 _]. destruct (m s0) as [s1 [[b | b] | e1]] eqn:H1; [| done |].
    + destruct (select (fun _ => tt) s1) as [s2 [[] | e2]] eqn:H2; [done |]. intros [= <- <-].
      apply execute_err in H2 as [_ ->]. auto.
    + intros [= <- <-]. split; [done |]. right. by exists s0, s1.
  - intros [= <- <-]. apply execute_err in H0 as [_ ->]. auto.
Qed.

(** Without faults to come, statements fail only on constraints. *)
Definition faultless (s : Db T) : Prop := db_faults s = [].

Lemma execute_faultless {A} (f : T -> option (T * A)) t :
  execute f (Build_Db t []) =
  match f t with Some (t', a) => (Build_Db t' [], Ok a) | None => (Build_Db t [], Err sql_error) end.
Proof. reflexivity. Qed.

Lemma select_faultless {A} (f : T -> A) t : select f (Build_Db t []) = (Build_Db t [], Ok (f t)).
Proof. reflexivity. Qed.

Lemma transaction_faultless {A} (m : mut (Db T) (ending A) E) t t' a :
  m (Build_Db t []) = (Build_Db t' [], Ok (Commit a)) ->
  transaction m (Build_Db t []) = (Build_Db t' [], Ok a).
Proof. intros H. unfold transaction, bind. by rewrite select_faultless, H, select_faultless. Qed.
End Sql.
