(* ===== verification/NotesDomain.v ===== *)
(** [crates/domain/src/notes.rs]: the notes as the daemon's clients see them,
    and the checks on every command and answer.

    [Uuid::parse_str] and [Uuid::to_string] are the uuid crate's: the class
    [UuidFormat]. A [Result<(), &'static str>] is a [result unit string]. *)
From S2P Require Import Prelude Text.

Definition NOTES_SCHEMA_VERSION : Z := 1.
Definition MAX_NOTE_TITLE_CHARS : Z := 512.
Definition MAX_NOTE_BODY_BYTES : Z := 4 * 1024 * 1024.
Definition MAX_NOTE_TAGS : Z := 64.
Definition MAX_NOTE_TAG_CHARS : Z := 64.
Definition MAX_NOTE_QUERY_LIMIT : Z := 64.
Definition MAX_NOTE_QUERY_OFFSET : Z := 100000.
Definition MAX_NOTE_SEARCH_CHARS : Z := 512.
Definition NOTE_CONTENT_CHUNK_BYTES : Z := 45056.
Definition MAX_NOTE_CONTENT_BASE64_BYTES : Z := 60076.
Definition MAX_NOTE_UPLOAD_SESSIONS : Z := 4.
Definition MAX_NOTE_STAGED_BYTES : Z := 16 * 1024 * 1024.
Definition MAX_NOTE_EXPORT_DATA_FRAMES : Z := 598.
Definition MAX_NOTE_EXPORT_BYTES : Z := NOTE_CONTENT_CHUNK_BYTES * MAX_NOTE_EXPORT_DATA_FRAMES.

Class UuidFormat := {
  uuid_to_string : Z -> string;
  parse_str : string -> option Z;
}.

Inductive NoteStatus := Draft | Active | Completed | Archived.
#[export] Instance NoteStatus_eq_dec : EqDecision NoteStatus.
Proof. solve_decision. Defined.

Inductive NoteDeletedFilter := Exclude | Include | Only.
#[export] Instance NoteDeletedFilter_eq_dec : EqDecision NoteDeletedFilter.
Proof. solve_decision. Defined.

Inductive NoteSort := UpdatedDesc | CreatedDesc | TitleAsc | DiaryDateDesc.
#[export] Instance NoteSort_eq_dec : EqDecision NoteSort.
Proof. solve_decision. Defined.

(** ** Dates and digests *)

(** Every byte but those at 4 and 7 is a digit. *)
Definition date_digits (l : list Z) : bool :=
  forallb (fun p => contains (fst p) [4%nat; 7%nat] || is_ascii_digit (snd p)) (imap pair l).

Definition is_leap (year : Z) : bool :=
  (year mod 400 =? 0) || ((year mod 4 =? 0) && negb (year mod 100 =? 0)).

Definition max_day (year month : Z) : option Z :=
  if contains month [1; 3; 5; 7; 8; 10; 12] then Some 31
  else if contains month [4; 6; 9; 11] then Some 30
  else if (month =? 2) && is_leap year then Some 29
  else if month =? 2 then Some 28
  else None.

Definition valid_calendar_date (value : string) : bool :=
  let l := bytes value in
  if negb (len value =? 10) || negb (byte_is l 4 (ch "-")) || negb (byte_is l 7 (ch "-")) then false
  else if negb (date_digits l) then false
  else match parse_digits (slice l 0 4) with
  | None => false
  | Some year =>
      match parse_digits (slice l 5 7) with
      | None => false
      | Some month =>
          match parse_digits (slice l 8 10) with
          | None => false
          | Some day =>
              match max_day year month with
              | Some last => in_range 1 last day
              | None => false
              end
          end
      end
  end.

Definition validate_sha256 (value : string) : result unit string :=
  fail_if negb ((len value =? 64)
                && forallb (fun b => is_ascii_digit b || in_range (ch "a") (ch "f") b) (bytes value))
    with "note_sha256_invalid"%string in Ok tt.

(** ** Drafts, summaries, documents *)

Record NoteDraftMeta := {
  meta_title : string;
  meta_diary_date : option string;
  meta_tags : list string;
  meta_status : NoteStatus;
  meta_pinned : bool;
}.
#[export] Instance NoteDraftMeta_eq_dec : EqDecision NoteDraftMeta.
Proof. solve_decision. Defined.

Definition tag_invalid (tag : string) : bool :=
  is_empty tag || (MAX_NOTE_TAG_CHARS <? chars_count tag) || contains_byte nul tag.

Definition NoteDraftMeta_validate (m : NoteDraftMeta) : result unit string :=
  fail_if MAX_NOTE_TITLE_CHARS <? chars_count (meta_title m)
    with "note_title_exceeds_512_characters"%string in
  fail_if contains_byte nul (meta_title m) with "note_title_contains_nul"%string in
  fail_if MAX_NOTE_TAGS <? Z.of_nat (length (meta_tags m)) with "note_tags_exceeds_64"%string in
  fail_if existsb tag_invalid (meta_tags m) with "note_tag_invalid"%string in
  fail_if is_some_and (fun d => negb (valid_calendar_date d)) (meta_diary_date m)
    with "note_diary_date_invalid"%string in
  Ok tt.

Record NoteSummary := {
  sum_id : string;
  sum_title : string;
  sum_diary_date : option string;
  sum_tags : list string;
  sum_status : NoteStatus;
  sum_pinned : bool;
  sum_created_at_ms : Z;
  sum_updated_at_ms : Z;
  sum_deleted_at_ms : option Z;
  sum_revision : Z;
  sum_body_bytes : Z;
  sum_body_sha256 : string;
}.

Record NoteDocument := { doc_summary : NoteSummary; doc_body_markdown : string }.

Record NoteQuery := {
  query_search : option string;
  query_diary_date_from : option string;
  query_diary_date_to : option string;
  query_tags : list string;
  query_status : option NoteStatus;
  query_deleted : NoteDeletedFilter;
  query_sort : NoteSort;
  query_limit : Z;
  query_offset : Z;
}.
#[export] Instance NoteQuery_eq_dec : EqDecision NoteQuery.
Proof. solve_decision. Defined.

Definition NoteQuery_validate (q : NoteQuery) : result unit string :=
  fail_if negb (in_range 1 MAX_NOTE_QUERY_LIMIT (query_limit q)) with "note_query_limit_invalid"%string in
  fail_if MAX_NOTE_QUERY_OFFSET <? query_offset q with "note_query_offset_invalid"%string in
  fail_if is_some_and (fun s => (MAX_NOTE_SEARCH_CHARS <? chars_count s) || contains_byte nul s)
            (query_search q)
    with "note_query_search_invalid"%string in
  fail_if (MAX_NOTE_TAGS <? Z.of_nat (length (query_tags q))) || existsb tag_invalid (query_tags q)
    with "note_query_tags_invalid"%string in
  try_for_each (fun d => fail_if negb (valid_calendar_date d) with "note_query_date_invalid"%string in Ok tt)
    (omap id [query_diary_date_from q; query_diary_date_to q]).

Definition NoteQuery_default : NoteQuery :=
  {| query_search := None; query_diary_date_from := None; query_diary_date_to := None;
     query_tags := []; query_status := None; query_deleted := Exclude; query_sort := UpdatedDesc;
     query_limit := 64; query_offset := 0 |}.

Record NotePage := {
  page_query : NoteQuery;
  page_notes : list NoteSummary;
  page_has_more : bool;
  page_next_offset : option Z;
}.

Inductive NoteWriteIntent :=
| Create
| Save (id : string) (expected_revision : Z) (autosave : bool).
#[export] Instance NoteWriteIntent_eq_dec : EqDecision NoteWriteIntent.
Proof. solve_decision. Defined.

Inductive NoteExportFormat := Export_Markdown | Export_Json.
#[export] Instance NoteExportFormat_eq_dec : EqDecision NoteExportFormat.
Proof. solve_decision. Defined.

Record NoteExport := {
  export_format : NoteExportFormat;
  export_content : string;
  export_content_bytes : Z;
  export_content_sha256 : string;
}.

(** ** Commands and answers *)

Inductive NotesCommand :=
| C_List (query : NoteQuery)
| C_Get (id : string)
| C_WriteInline (intent : NoteWriteIntent) (meta : NoteDraftMeta) (body_markdown : string)
| C_Delete (id : string) (expected_revision : Z)
| C_Restore (id : string) (expected_revision : Z)
| C_Export (query : NoteQuery) (format : NoteExportFormat)
| C_UploadBegin (intent : NoteWriteIntent) (meta : NoteDraftMeta) (expected_total_bytes : Z)
    (body_sha256 : string)
| C_UploadAppend (upload_id : Z) (sequence offset : Z) (data_base64 : string)
| C_UploadCommit (upload_id : Z) (intent : NoteWriteIntent)
| C_UploadAbort (upload_id : Z).

Inductive NoteMutationResult :=
| Stored (note : NoteSummary)
| Deleted (note : NoteSummary)
| Restored (note : NoteSummary)
| Conflict (expected_revision : Z) (current : NoteSummary)
| UploadBegun (upload_id : Z) (max_chunk_raw_bytes : Z)
| UploadAccepted (upload_id : Z) (next_sequence next_offset : Z)
| UploadAborted (upload_id : Z).

Inductive NotesOutput :=
| O_Mutation (m : NoteMutationResult)
| O_Page (p : NotePage)
| O_Document (d : NoteDocument)
| O_Export (e : NoteExport).

Section Validation.
Context `{UuidFormat}.

Definition NoteSummary_validate (s : NoteSummary) : result unit string :=
  fail_if is_none (parse_str (sum_id s)) with "note_id_invalid"%string in
  let? _ := NoteDraftMeta_validate
    {| meta_title := sum_title s; meta_diary_date := sum_diary_date s; meta_tags := sum_tags s;
       meta_status := sum_status s; meta_pinned := sum_pinned s |} in
  fail_if (sum_revision s =? 0) || (MAX_NOTE_BODY_BYTES <? sum_body_bytes s)
    with "note_summary_revision_or_size_invalid"%string in
  validate_sha256 (sum_body_sha256 s).

Definition NoteDocument_validate (d : NoteDocument) : result unit string :=
  let? _ := NoteSummary_validate (doc_summary d) in
  fail_if negb (len (doc_body_markdown d) =? sum_body_bytes (doc_summary d))
    with "note_document_body_length_mismatch"%string in
  Ok tt.

Definition NotePage_validate (p : NotePage) : result unit string :=
  let? _ := NoteQuery_validate (page_query p) in
  fail_if (query_limit (page_query p) <? Z.of_nat (length (page_notes p)))
          || existsb (fun n => is_err (NoteSummary_validate n)) (page_notes p)
    with "note_page_records_invalid"%string in
  let? expected_next :=
    if page_has_more p
    then let? n := ok_or "note_page_next_offset_overflow"%string
                     (checked_u32 (query_offset (page_query p) + Z.of_nat (length (page_notes p)))) in
         Ok (Some n)
    else Ok None in
  fail_if negb (eqb (page_next_offset p) expected_next) with "note_page_next_offset_invalid"%string in
  Ok tt.

Definition NoteWriteIntent_validate (i : NoteWriteIntent) : result unit string :=
  match i with
  | Create => Ok tt
  | Save id expected_revision _ =>
      fail_if negb (is_some (parse_str id) && (0 <? expected_revision))
        with "note_write_intent_invalid"%string in
      Ok tt
  end.

Definition NotesCommand_validate (c : NotesCommand) : result unit string :=
  let? _ :=
    match c with
    | C_List query | C_Export query _ => NoteQuery_validate query
    | C_Get id | C_Delete id _ | C_Restore id _ =>
        fail_if negb (is_some (parse_str id)) with "note_id_invalid"%string in Ok tt
    | C_WriteInline intent meta body_markdown =>
        let? _ := NoteWriteIntent_validate intent in
        let? _ := NoteDraftMeta_validate meta in
        fail_if MAX_NOTE_BODY_BYTES <? len body_markdown with "note_body_exceeds_4_mib"%string in Ok tt
    | C_UploadBegin intent meta expected_total_bytes body_sha256 =>
        let? _ := NoteWriteIntent_validate intent in
        let? _ := NoteDraftMeta_validate meta in
        fail_if MAX_NOTE_BODY_BYTES <? expected_total_bytes with "note_body_exceeds_4_mib"%string in
        validate_sha256 body_sha256
    | C_UploadAppend upload_id _ _ data_base64 =>
        fail_if (upload_id =? 0) || (MAX_NOTE_CONTENT_BASE64_BYTES <? len data_base64)
          with "note_upload_append_invalid"%string in Ok tt
    | C_UploadCommit upload_id intent =>
        let? _ := NoteWriteIntent_validate intent in
        fail_if upload_id =? 0 with "note_upload_id_invalid"%string in Ok tt
    | C_UploadAbort upload_id =>
        fail_if upload_id =? 0 with "note_upload_id_invalid"%string in Ok tt
    end in
  fail_if match c with
          | C_Delete _ expected_revision | C_Restore _ expected_revision => expected_revision =? 0
          | _ => false
          end
    with "note_expected_revision_invalid"%string in
  Ok tt.

Definition NoteExport_validate (e : NoteExport) : result unit string :=
  fail_if negb (len (export_content e) =? export_content_bytes e)
          || (MAX_NOTE_EXPORT_BYTES <? len (export_content e))
    with "note_export_length_invalid"%string in
  validate_sha256 (export_content_sha256 e).
End Validation.
