(* ===== verification/NotesModel.v ===== *)
(** [crates/notes/src/model.rs]: notes, queries and the checklists in a note's
    Markdown. *)
From S2P Require Import Prelude Text NotesDomain.

Definition MAX_TITLE_CHARS : Z := 512.
Definition MAX_BODY_BYTES : Z := 4 * 1024 * 1024.
Definition MAX_TAGS : Z := 64.
Definition MAX_TAG_CHARS : Z := 64.
Definition MAX_QUERY_LIMIT : Z := 500.

Inductive NoteStatus := St_Draft | St_Active | St_Completed | St_Archived.
#[export] Instance NoteStatus_eq_dec : EqDecision NoteStatus.
Proof. solve_decision. Defined.

Definition NoteStatus_as_str (s : NoteStatus) : string :=
  match s with
  | St_Draft => "draft"
  | St_Active => "active"
  | St_Completed => "completed"
  | St_Archived => "archived"
  end.

Definition NoteStatus_parse (value : string) : option NoteStatus :=
  if String.eqb value "draft" then Some St_Draft
  else if String.eqb value "active" then Some St_Active
  else if String.eqb value "completed" then Some St_Completed
  else if String.eqb value "archived" then Some St_Archived
  else None.

Record Note := {
  id : string;
  title : string;
  body_markdown : string;
  diary_date : option string;
  tags : list string;
  status : NoteStatus;
  pinned : bool;
  created_at_ms : Z;
  updated_at_ms : Z;
  deleted_at_ms : option Z;
  revision : Z;
}.
#[export] Instance Note_eq_dec : EqDecision Note.
Proof. solve_decision. Defined.

(** [NoteDraft]; [CreateNote] has the same fields and converts to it. *)
Record NoteDraft := {
  d_title : string;
  d_body_markdown : string;
  d_diary_date : option string;
  d_tags : list string;
  d_status : NoteStatus;
  d_pinned : bool;
}.
#[export] Instance NoteDraft_eq_dec : EqDecision NoteDraft.
Proof. solve_decision. Defined.

Record SaveNote := { save_id : string; save_expected_revision : Z; save_draft : NoteDraft }.
Record NoteRevision := { rev_note : Note; rev_recorded_at_ms : Z }.

Inductive DeletedFilter := Del_Exclude | Del_Include | Del_Only.
Inductive NoteSort := Sort_UpdatedDesc | Sort_CreatedDesc | Sort_TitleAsc | Sort_DiaryDateDesc.

Record NoteQuery := {
  q_search : option string;
  q_diary_date_from : option string;
  q_diary_date_to : option string;
  q_tags : list string;
  q_status : option NoteStatus;
  q_deleted : DeletedFilter;
  q_sort : NoteSort;
  q_limit : Z;
  q_offset : Z;
}.

Record RetentionPolicy := {
  purge_deleted_before_ms : option Z;
  prune_revisions_before_ms : option Z;
  keep_latest_revisions : Z;
}.
Record RetentionResult := { purged_notes : Z; pruned_revisions : Z }.

(** ** Checklists *)

Record ChecklistItem := { item_index : nat; item_line : nat; checked : bool; item_text : string }.

(** [trim_start_matches([' ', '\t'])]. *)
Fixpoint trim_indent (s : string) : string :=
  match s with
  | String a s' => if contains (byte_of a) [32; 9] then trim_indent s' else s
  | EmptyString => s
  end.

Definition checklist_marker_offset (line : string) : option nat :=
  let trimmed := trim_indent line in
  let indent := (String.length line - String.length trimmed)%nat in
  match bytes trimmed with
  | b0 :: b1 :: b2 :: b3 :: b4 :: _ =>
      if negb (contains b0 [ch "-"; ch "*"; ch "+"]) || negb (b1 =? ch " ") then None
      else if negb (b2 =? ch "[") || negb (contains b3 [ch " "; ch "x"; ch "X"]) || negb (b4 =? ch "]")
      then None
      else Some (indent + 2)%nat
  | _ => None
  end.

Definition checklist_marker (line : string) : option (bool * string) :=
  marker ← checklist_marker_offset line;
  let mark := bytes line !! (marker + 1)%nat in
  Some (is_some_and (fun b => contains b [ch "x"; ch "X"]) mark,
        str_trim_start (str_drop (marker + 3) line)).

Definition numbered_lines (markdown : string) : list (nat * string) := imap pair (lines markdown).

Definition checklist_items (markdown : string) : list ChecklistItem :=
  imap (fun index p => {| item_index := index; item_line := p.1; checked := p.2.1; item_text := p.2.2 |})
    (omap (fun p => m ← checklist_marker p.2; Some (p.1, m)) (numbered_lines markdown)).

(** The text of the other box. *)
Definition set_marker (marker : nat) (checked : bool) (line : string) : string :=
  str_take (marker + 1) line +:+ (if checked then "x" else " ") +:+ str_drop (marker + 2) line.

Fixpoint set_line (target : nat) (checked : bool) (ls : list string) : option string :=
  match ls with
  | [] => Some EmptyString
  | line :: ls' =>
      match target with
      | O => marker ← checklist_marker_offset line; Some (set_marker marker checked line +:+ joined ls')
      | S target => rest ← set_line target checked ls'; Some (line +:+ rest)
      end
  end.

Definition set_checklist_item (markdown : string) (item_index : nat) (checked : bool) : option string :=
  item ← checklist_items markdown !! item_index;
  set_line (item_line item) checked (split_inclusive markdown).

(** ** Dates *)

Definition validate_date (value : string) : bool :=
  let l := bytes value in
  if negb (len value =? 10) || negb (byte_is l 4 (ch "-")) || negb (byte_is l 7 (ch "-"))
     || negb (date_digits l)
  then false
  else match parse_digits (slice l 0 4), parse_digits (slice l 5 7), parse_digits (slice l 8 10) with
  | Some year, Some month, Some day =>
      match max_day year month with
      | Some last => (1 <=? day) && (day <=? last)
      | None => false
      end
  | _, _, _ => false
  end.

Lemma validate_date_calendar value : validate_date value = valid_calendar_date value.
Proof.
  unfold validate_date, valid_calendar_date. repeat case_match; simplify_eq; try done; bool_facts; try done;
    destruct (date_digits _); simpl in *; destruct (len value =? 10); simpl in *; try done;
    repeat destruct (byte_is _ _ _); simpl in *; done.
Qed.
