(* ===== verification/NotesModelFacts.v ===== *)
(** Ticking a box of a checklist: [set_checklist_item] changes the one byte
    between the brackets of that item, and nothing else. *)
From S2P Require Import Prelude Text NotesDomain NotesModel.

(** ** Lines *)

Lemma split_tail s l ls : split_inclusive s = l :: ls -> split_inclusive (joined ls) = ls.
Proof.
  revert l. induction s as [| a s IH]; intros l H; simpl in H; [done |].
  destruct (Ascii.eqb a newline).
  - injection H as _ <-. by rewrite split_inclusive_joined.
  - destruct (split_inclusive s) as [| l0 ls0] eqn:Hs; injection H as _ <-; [done | by eapply IH].
Qed.

(** A line that is not the last is one before any other text. *)
Lemma split_head s l m ls t :
  split_inclusive s = l :: m :: ls -> split_inclusive (l ++ t)%string = l :: split_inclusive t.
Proof.
  revert l. induction s as [| a s IH]; intros l H; simpl in H; [done |].
  destruct (Ascii.eqb a newline) eqn:Ha.
  - injection H as <- _. change (split_inclusive (String a t) = String a "" :: split_inclusive t).
    simpl. by rewrite Ha.
  - destruct (split_inclusive s) as [| l0 ls0] eqn:Hs; [done |]. injection H as <- ->.
    rewrite append_cons. simpl. by rewrite Ha, (IH l0 eq_refl).
Qed.

(** Newlines at the same places. *)
Fixpoint same_newlines (s t : string) : Prop :=
  match s, t with
  | EmptyString, EmptyString => True
  | String a s, String b t => Ascii.eqb a newline = Ascii.eqb b newline /\ same_newlines s t
  | _, _ => False
  end.

Lemma same_newlines_refl s : same_newlines s s.
Proof. induction s; simpl; auto. Qed.

Lemma same_newlines_app p s t : same_newlines s t -> same_newlines (p ++ s) (p ++ t).
Proof. intros H. induction p as [| a p IH]; [exact H |]. by split. Qed.

Lemma split_changed_line s l ls l' :
  split_inclusive s = l :: ls -> same_newlines l l' -> split_inclusive (l' ++ joined ls)%string = l' :: ls.
Proof.
  revert l l'. induction s as [| a s IH]; intros l l' H Hl; simpl in H; [done |].
  destruct (Ascii.eqb a newline) eqn:Ha.
  - injection H as <- <-. rewrite split_inclusive_joined. destruct l' as [| b l']; [done |].
    destruct Hl as [Hb Hl]. destruct l'; [| done]. rewrite Ha in Hb.
    change (split_inclusive (String b s) = [String b ""] ++ split_inclusive s).
    simpl. by rewrite <- Hb.
  - destruct l' as [| b l']; [by destruct (split_inclusive s); injection H as <- <- |].
    destruct (split_inclusive s) as [| l0 ls0] eqn:Hs; injection H as <- <-; destruct Hl as [Hb Hl].
    + destruct l'; [| done]. simpl. by rewrite <- Hb, Ha.
    + rewrite append_cons. simpl. by rewrite <- Hb, Ha, (IH l0 l' eq_refl Hl).
Qed.

Lemma split_changed s l1 l l2 l' :
  split_inclusive s = l1 ++ l :: l2 -> same_newlines l l' ->
  split_inclusive (joined (l1 ++ l' :: l2)) = l1 ++ l' :: l2.
Proof.
  revert s. induction l1 as [| m l1 IH]; intros s H Hl.
  - by apply (split_changed_line s l).
  - change ((m :: l1) ++ ?x) with (m :: (l1 ++ x)) in *. rewrite joined_cons.
    destruct (l1 ++ l :: l2) as [| x ls] eqn:Hls; [by apply app_eq_nil in Hls as [_ ?] |].
    rewrite (split_head _ _ _ _ _ H), (IH (joined (l1 ++ l :: l2))); [done | | done].
    rewrite Hls. by apply split_tail in H.
Qed.

(** ** One item *)

(** The bytes of an item: its indent, bullet, box, and what follows it. *)
Definition item_line_text (indent : string) (bullet box : ascii) (rest : string) : string :=
  indent +:+ String bullet (String " " (String "[" (String box (String "]" rest)))).

Definition blank_indent (s : string) : Prop := Forall (fun b => b = 32 \/ b = 9) (bytes s).
Definition is_bullet (a : ascii) : bool := contains (byte_of a) [ch "-"; ch "*"; ch "+"].
Definition is_box (a : ascii) : bool := contains (byte_of a) [ch " "; ch "x"; ch "X"].
Definition ticked (a : ascii) : bool := contains (byte_of a) [ch "x"; ch "X"].

Lemma byte_of_inj a b : byte_of a = byte_of b -> a = b.
Proof.
  unfold byte_of. intros H%N2Z.inj. by rewrite <- (ascii_N_embedding a), <- (ascii_N_embedding b), H.
Qed.

Lemma trim_indent_parts s :
  exists ind, s = (ind ++ trim_indent s)%string /\ blank_indent ind.
Proof.
  induction s as [| a s (ind & Hs & Hi)]; [by exists EmptyString; split; [| constructor] |]. cbn [trim_indent].
  destruct (contains (byte_of a) [32; 9]) eqn:Ha.
  - exists (String a ind). split; [rewrite append_cons; by f_equal |].
    constructor; [| done]. apply contains_true in Ha. set_solver.
  - exists EmptyString. by split; [| constructor].
Qed.

Lemma trim_indent_app ind a s :
  blank_indent ind -> contains (byte_of a) [32; 9] = false ->
  trim_indent (ind ++ String a s)%string = String a s.
Proof.
  intros Hi Ha. induction ind as [| b ind IH].
  - change (trim_indent (String a s) = String a s). cbn [trim_indent]. by rewrite Ha.
  - rewrite append_cons. cbn [trim_indent]. apply Forall_cons in Hi as [Hb Hi].
    replace (contains (byte_of b) [32; 9]) with true by (by destruct Hb as [-> | ->]); auto.
Qed.

Lemma bullet_not_blank a : is_bullet a = true -> contains (byte_of a) [32; 9] = false.
Proof.
  unfold is_bullet. rewrite contains_true, contains_false, !list_elem_of_In. simpl.
  change (ch "-") with 45. change (ch "*") with 42. change (ch "+") with 43. lia.
Qed.

Lemma marker_offset_item ind bullet box rest :
  blank_indent ind -> is_bullet bullet = true -> is_box box = true ->
  checklist_marker_offset (item_line_text ind bullet box rest) = Some (String.length ind + 2)%nat.
Proof.
  intros Hi Hb Hx. unfold checklist_marker_offset, item_line_text.
  rewrite trim_indent_app by (try done; by apply bullet_not_blank).
  rewrite string_length_app. cbn [bytes]. unfold is_bullet in Hb. rewrite Hb.
  unfold is_box in Hx. rewrite Hx. simpl. f_equal. lia.
Qed.

Lemma marker_offset_some line m :
  checklist_marker_offset line = Some m ->
  exists ind bullet box rest, line = item_line_text ind bullet box rest /\ blank_indent ind /\
    is_bullet bullet = true /\ is_box box = true.
Proof.
  unfold checklist_marker_offset. destruct (trim_indent_parts line) as (ind & Hl & Hi).
  destruct (trim_indent line) as [| a0 [| a1 [| a2 [| a3 [| a4 rest]]]]]; try done. cbn [bytes].
  destruct (_ || _) eqn:H1; [done |]. destruct (_ || _ || _) eqn:H2; [done |]. intros _.
  apply orb_false_iff in H1 as [H0 H1]. apply orb_false_iff in H2 as [[H2 H3]%orb_false_iff H4].
  apply negb_false_iff in H0, H1, H2, H3, H4. apply Z.eqb_eq in H1, H2, H4.
  apply (byte_of_inj a1 " "%char) in H1. apply (byte_of_inj a2 "["%char) in H2. apply (byte_of_inj a4 "]"%char) in H4.
  subst a1 a2 a4. by exists ind, a0, a3, rest.
Qed.

Lemma item_line_split ind bullet box rest :
  item_line_text ind bullet box rest = ((ind +:+ String bullet " [") +:+ String box (String "]" rest))%string.
Proof. unfold item_line_text. by rewrite <- append_assoc, append_cons. Qed.

Lemma set_marker_item ind bullet box rest c :
  set_marker (String.length ind + 2) c (item_line_text ind bullet box rest) =
  item_line_text ind bullet (if c then "x" else " ")%char rest.
Proof.
  unfold set_marker.
  replace (str_take (String.length ind + 2 + 1) (item_line_text ind bullet box rest))
    with (ind +:+ String bullet " [").
  2:{ rewrite item_line_split, <- (str_take_app (ind +:+ String bullet " [") (String box (String "]" rest))) at 1.
      f_equal. rewrite string_length_app. simpl. lia. }
  replace (str_drop (String.length ind + 2 + 2) (item_line_text ind bullet box rest)) with (String "]" rest).
  2:{ unfold item_line_text. change (String bullet (String " " (String "[" (String box (String "]" rest)))))
        with ((String bullet (String " " (String "[" (String box "")))) +:+ String "]" rest).
      rewrite append_assoc, <- (str_drop_app (ind +:+ String bullet (String " " (String "[" (String box "")))) (String "]" rest)) at 1.
      f_equal. rewrite string_length_app. simpl. lia. }
  rewrite item_line_split. by destruct c.
Qed.

Lemma checklist_marker_item ind bullet box rest :
  blank_indent ind -> is_bullet bullet = true -> is_box box = true ->
  checklist_marker (item_line_text ind bullet box rest) = Some (ticked box, str_trim_start rest).
Proof.
  intros Hi Hb Hx. unfold checklist_marker. rewrite marker_offset_item by done. simpl. f_equal. f_equal.
  - rewrite item_line_split, bytes_app, lookup_app_r by (rewrite bytes_length, string_length_app; simpl; lia).
    replace (_ - _)%nat with 0%nat by (rewrite bytes_length, string_length_app; simpl; lia). done.
  - f_equal. unfold item_line_text.
    change (String bullet (String " " (String "[" (String box (String "]" rest)))))
        with ((String bullet (String " " (String "[" (String box "]")))) +:+ rest).
    rewrite append_assoc. etrans; [| by apply (str_drop_app (ind +:+ String bullet (String " " (String "[" (String box "]")))) rest)].
    f_equal. rewrite string_length_app. simpl. lia.
Qed.

(** ** Text of a line *)

Lemma strip_last_cons c a b s : strip_last c (String a (String b s)) = String a <$> strip_last c (String b s).
Proof. done. Qed.

Lemma line_text_cons a s :
  Ascii.eqb a newline = false -> Ascii.eqb a carriage_return = false ->
  line_text (String a s) = String a (line_text s).
Proof.
  intros Hn Hc. unfold line_text. destruct s as [| b s]; [simpl; by rewrite Hn |].
  rewrite strip_last_cons. destruct (strip_last newline (String b s)) as [l |]; [| done]. cbn [fmap option_fmap option_map].
  destruct l as [| d l]; [simpl; by rewrite Hc |]. rewrite strip_last_cons.
  by destruct (strip_last carriage_return (String d l)).
Qed.

Lemma not_line_end a : byte_of a <> 10 -> byte_of a <> 13 ->
  Ascii.eqb a newline = false /\ Ascii.eqb a carriage_return = false.
Proof. intros H1 H2. split; apply Ascii.eqb_neq; intros ->; [by apply H1 | by apply H2]. Qed.

Lemma member_not_line_end a l :
  contains (byte_of a) l = true -> contains 10 l = false -> contains 13 l = false ->
  Ascii.eqb a newline = false /\ Ascii.eqb a carriage_return = false.
Proof. intros Ha H1 H2. apply not_line_end; intros He; rewrite He in Ha; by rewrite ?H1, ?H2 in Ha. Qed.

Lemma line_text_item ind bullet box rest :
  blank_indent ind -> is_bullet bullet = true -> is_box box = true ->
  line_text (item_line_text ind bullet box rest) = item_line_text ind bullet box (line_text rest).
Proof.
  intros Hi Hb Hx. unfold item_line_text. induction ind as [| a ind IH].
  - destruct (member_not_line_end _ _ Hb) as [? ?]; [done | done |].
    destruct (member_not_line_end _ _ Hx) as [? ?]; [done | done |].
    change ("" +:+ ?s)%string with s. rewrite !line_text_cons by done. done.
  - apply Forall_cons in Hi as [Ha Hi]. rewrite !append_cons, line_text_cons by (apply not_line_end; lia).
    f_equal. by apply IH.
Qed.

Lemma strip_last_some c s t : strip_last c s = Some t -> s = (t +:+ String c "")%string.
Proof.
  revert t. induction s as [| a s IH]; intros t H; [done |]. destruct s as [| b s].
  - simpl in H. destruct (Ascii.eqb_spec a c) as [-> |]; [| done]. by injection H as <-.
  - rewrite strip_last_cons in H. destruct (strip_last c (String b s)) as [u |]; [| done].
    injection H as <-. by rewrite append_cons, <- (IH u eq_refl).
Qed.

Lemma line_text_prefix l : exists suffix, l = (line_text l +:+ suffix)%string.
Proof.
  unfold line_text. destruct (strip_last newline l) as [u |] eqn:Hu; [| exists EmptyString; by rewrite append_nil].
  apply strip_last_some in Hu as ->. destruct (strip_last carriage_return u) as [v |] eqn:Hv; simpl.
  - apply strip_last_some in Hv as ->. eexists. by rewrite <- append_assoc.
  - by eexists.
Qed.

(** A line with an item, whether or not its end was stripped. *)
Lemma marker_of_text line m :
  checklist_marker (line_text line) = Some m ->
  exists ind bullet box rest, line = item_line_text ind bullet box rest /\ blank_indent ind /\
    is_bullet bullet = true /\ is_box box = true /\ m = (ticked box, str_trim_start (line_text rest)).
Proof.
  intros H. destruct (checklist_marker_offset (line_text line)) as [k |] eqn:Hk;
    [| by unfold checklist_marker in H; rewrite Hk in H].
  apply marker_offset_some in Hk as (ind & bullet & box & rest & Hl & Hi & Hb & Hx).
  destruct (line_text_prefix line) as [suffix Hline].
  assert (line = item_line_text ind bullet box (rest +:+ suffix)) as Hshape.
  { rewrite Hline, Hl. unfold item_line_text. by rewrite <- append_assoc, !append_cons. }
  exists ind, bullet, box, (rest +:+ suffix)%string. split_and!; try done.
  rewrite Hshape, line_text_item, checklist_marker_item in H by done. by injection H as <-.
Qed.

(** ** The list of items *)

Lemma omap_insert {A B} (f : A -> option B) (l : list A) (i : nat) b :
  (omap f l : list B) !! i = Some b ->
  exists (k : nat) a, l !! k = Some a /\ f a = Some b /\
    forall a' b', f a' = Some b' -> (omap f (<[k := a']> l) : list B) = <[i := b']> (omap f l).
Proof.
  revert i. induction l as [| a l IH]; intros i H; [done |]. simpl in H. destruct (f a) as [b0 |] eqn:Ha.
  - destruct i as [| i]; simpl in H.
    + injection H as <-. exists 0%nat, a. split_and!; try done. intros a' b' H'. simpl. by rewrite H', Ha.
    + apply IH in H as (k & a1 & Hk & H1 & Hi). exists (S k), a1. split_and!; try done.
      intros a' b' H'. simpl. rewrite Ha. simpl. f_equal. by apply Hi.
  - apply IH in H as (k & a1 & Hk & H1 & Hi). exists (S k), a1. split_and!; try done.
    intros a' b' H'. simpl. rewrite Ha. by apply Hi.
Qed.

Lemma imap_insert_at {A B} (f : nat -> A -> B) (l : list A) (i : nat) a :
  imap f (<[i := a]> l) = <[i := f i a]> (imap f l).
Proof.
  apply list_eq. intros j. rewrite list_lookup_imap. destruct (decide (i = j)) as [<- |].
  - destruct (decide (i < length l)%nat).
    + rewrite !list_lookup_insert_eq by (by rewrite ?length_imap). done.
    + rewrite !list_insert_ge by (rewrite ?length_imap; lia). by rewrite list_lookup_imap.
  - rewrite !list_lookup_insert_ne by done. by rewrite list_lookup_imap.
Qed.

Lemma set_line_exact (k : nat) c (ls : list string) line m :
  ls !! k = Some line -> checklist_marker_offset line = Some m ->
  set_line k c ls = Some (joined (<[k := set_marker m c line]> ls)).
Proof.
  revert k. induction ls as [| l ls IH]; intros [| k] Hl Hm; simpl in Hl; try done.
  - injection Hl as ->. simpl. by rewrite Hm.
  - simpl. by rewrite (IH k Hl Hm).
Qed.

Lemma joined_len (ls : list string) (k : nat) line line' :
  ls !! k = Some line -> String.length line' = String.length line ->
  String.length (joined (<[k := line']> ls)) = String.length (joined ls).
Proof.
  revert k. induction ls as [| l ls IH]; intros [| k] Hl Hlen; simpl in Hl; try done.
  - injection Hl as ->. change (<[0%nat := line']> (line :: ls)) with (line' :: ls).
    rewrite !joined_cons, !string_length_app. lia.
  - change (<[S k := line']> (l :: ls)) with (l :: <[k := line']> ls).
    by rewrite !joined_cons, !string_length_app, (IH k Hl Hlen).
Qed.

Lemma numbered_insert (k : nat) line (ls : list string) :
  imap pair (line_text <$> <[k := line]> ls) = <[k := (k, line_text line)]> (imap pair (line_text <$> ls)).
Proof. by rewrite list_fmap_insert, imap_insert_at. Qed.

Definition with_checked (c : bool) (i : ChecklistItem) : ChecklistItem :=
  {| item_index := item_index i; item_line := item_line i; checked := c; item_text := item_text i |}.

(** Ticking a box changes that box. An item number that is not in the list is
    refused; otherwise the text is as long as it was, its lines are those it
    had but for the item's, and the items read back are those it had, with this
    one ticked or not as asked. *)
Theorem set_checklist_item_exact md i c :
  match checklist_items md !! i with
  | None => set_checklist_item md i c = None
  | Some item =>
      exists md' line',
        set_checklist_item md i c = Some md' /\
        len md' = len md /\
        split_inclusive md' = <[item_line item := line']> (split_inclusive md) /\
        checklist_items md' = <[i := with_checked c item]> (checklist_items md)
  end.
Proof.
  unfold set_checklist_item. destruct (checklist_items md !! i) as [item |] eqn:Hi; [| done]. simpl.
  pose proof Hi as Hitem. unfold checklist_items, numbered_lines, lines in Hi.
  rewrite list_lookup_imap in Hi.
  destruct (omap _ _ !! i) as [[k m] |] eqn:Ho in Hi; [| done]. injection Hi as <-. simpl.
  apply omap_insert in Ho as (k' & [n text] & Hk & Hm & Hset). rewrite list_lookup_imap in Hk.
  destruct ((line_text <$> split_inclusive md) !! k') as [t |] eqn:Ht; [| done]. injection Hk as <- <-.
  rewrite list_lookup_fmap in Ht. destruct (split_inclusive md !! k') as [line |] eqn:Hline; [| done].
  injection Ht as <-. simpl in Hm. destruct (checklist_marker (line_text line)) as [m' |] eqn:Hmark; [| done].
  injection Hm as -> ->. apply marker_of_text in Hmark as (ind & bullet & box & rest & Hl & Hind & Hb & Hx & ->).
  assert (checklist_marker_offset line = Some (String.length ind + 2)%nat) as Hoff
    by (rewrite Hl; by apply marker_offset_item).
  set (box' := (if c then "x" else " ")%char).
  assert (is_box box' = true) as Hx' by (by destruct c).
  assert (ticked box' = c) as Htick by (by destruct c).
  exists (joined (<[k := item_line_text ind bullet box' rest]> (split_inclusive md))),
    (item_line_text ind bullet box' rest).
  assert (split_inclusive (joined (<[k := item_line_text ind bullet box' rest]> (split_inclusive md))) =
          <[k := item_line_text ind bullet box' rest]> (split_inclusive md)) as Hsplit.
  { pose proof (take_drop_middle _ _ _ Hline) as Hmid. rewrite insert_take_drop by (by eapply lookup_lt_Some).
    eapply split_changed; [by symmetry; exact Hmid |]. rewrite Hl, !item_line_split.
    apply same_newlines_app. split; [| apply same_newlines_refl].
    destruct (member_not_line_end _ _ Hx) as [-> _]; [done | done |]. by destruct c.
  }
  split_and!; [| | exact Hsplit |].
  - rewrite (set_line_exact _ _ _ _ _ Hline Hoff), Hl, set_marker_item. done.
  - unfold len. rewrite (joined_len _ _ _ _ Hline), split_inclusive_joined; [done |].
    rewrite Hl. unfold item_line_text. rewrite !string_length_app. simpl. lia.
  - unfold checklist_items, numbered_lines, lines. rewrite Hsplit, numbered_insert.
    rewrite (Hset (k, _) (k, (c, str_trim_start (line_text rest)))); [by rewrite imap_insert_at |]. simpl.
    rewrite line_text_item, checklist_marker_item by done. by rewrite Htick.
Qed.
