(* ===== verification/NotesRepository.v ===== *)
(** [crates/notes/src/repository.rs]: notes, their tags and their history in
    three SQLite tables.

    The tables are finite maps under their primary keys; what a statement can
    violate (keys, the CHECKs, the foreign keys) is checked, and a deleted note
    takes its tags and history with it. SQLite compares text bytewise, and its
    [lower] folds ASCII letters only. serde_json's text of a list of tags and
    [str::to_lowercase] are parameters. *)
From S2P Require Import Prelude Text NotesDomain NotesModel Sql.

Record NoteConflict := {
  conflict_expected_revision : Z;
  conflict_current : Note;
  conflict_submitted : NoteDraft;
}.

Inductive NotesError :=
| E_Sql
| E_Json
| E_NotFound (id : string)
| E_Conflict (conflict : NoteConflict)
| E_Validation (field reason : string)
| E_UnsupportedSchema (found supported : Z)
| E_MigrationBackup (reason : string)
| E_CorruptData (field value : string).

(** ** The tables *)

(** A row of [notes] without its key; the rows of [note_revisions] repeat it. *)
Record NoteRow := {
  row_title : string;
  row_body_markdown : string;
  row_diary_date : option string;
  row_status : string;
  row_pinned : bool;
  row_created_at_ms : Z;
  row_updated_at_ms : Z;
  row_deleted_at_ms : option Z;
  row_revision : Z;
}.

Record RevisionRow := { rv_row : NoteRow; rv_tags_json : string; rv_recorded_at_ms : Z }.

Record NotesTables := {
  notes : gmap string NoteRow;
  note_tags : gmap (string * string) string;
  note_revisions : gmap (string * Z) RevisionRow;
}.

Definition with_notes (m : gmap string NoteRow) (t : NotesTables) : NotesTables :=
  {| notes := m; note_tags := note_tags t; note_revisions := note_revisions t |}.
Definition with_note_tags (m : gmap (string * string) string) (t : NotesTables) : NotesTables :=
  {| notes := notes t; note_tags := m; note_revisions := note_revisions t |}.
Definition with_revisions (m : gmap (string * Z) RevisionRow) (t : NotesTables) : NotesTables :=
  {| notes := notes t; note_tags := note_tags t; note_revisions := m |}.

Abbreviation NotesRepository := (Db NotesTables).
Abbreviation repo_mut A := (mut (Db NotesTables) A NotesError).

(** The CHECK clauses of a row. *)
Definition row_checks (r : NoteRow) : bool :=
  is_some (NoteStatus_parse (row_status r)) && (0 <? row_revision r).

Definition execute {A} (f : NotesTables -> option (NotesTables * A)) : repo_mut A := Sql.execute E_Sql f.
Definition select {A} (f : NotesTables -> A) : repo_mut A := Sql.select E_Sql f.
Definition transaction {A} (m : repo_mut (ending A)) : repo_mut A := Sql.transaction E_Sql m.

(** The JSON text of the tags of a revision. *)
Class TagsJson := {
  tags_to_string : list string -> option string;
  tags_from_str : string -> option (list string);
}.

Definition validation (field reason : string) : NotesError := E_Validation field reason.

Definition revision_to_i64 (rev : Z) : result Z NotesError :=
  ok_or (validation "revision" "must fit SQLite INTEGER") (checked_i64 rev).

Definition row_of (n : Note) (rev : Z) : NoteRow :=
  {| row_title := title n; row_body_markdown := body_markdown n; row_diary_date := diary_date n;
     row_status := NoteStatus_as_str (status n); row_pinned := pinned n;
     row_created_at_ms := created_at_ms n; row_updated_at_ms := updated_at_ms n;
     row_deleted_at_ms := deleted_at_ms n; row_revision := rev |}.

(** [note_from_row]: [None] is a conversion failure. *)
Definition note_from_row (note_id : string) (r : NoteRow) : option Note :=
  st ← NoteStatus_parse (row_status r);
  if row_revision r <? 0 then None
  else Some {| id := note_id; title := row_title r; body_markdown := row_body_markdown r;
               diary_date := row_diary_date r; tags := []; status := st; pinned := row_pinned r;
               created_at_ms := row_created_at_ms r; updated_at_ms := row_updated_at_ms r;
               deleted_at_ms := row_deleted_at_ms r; revision := row_revision r |}.

Definition with_tags (ts : list string) (n : Note) : Note :=
  {| id := id n; title := title n; body_markdown := body_markdown n; diary_date := diary_date n;
     tags := ts; status := status n; pinned := pinned n; created_at_ms := created_at_ms n;
     updated_at_ms := updated_at_ms n; deleted_at_ms := deleted_at_ms n; revision := revision n |}.

(** The rows of [note_tags] of one note, [ORDER BY tag_key ASC]. *)
Definition tag_rows (note_id : string) (t : NotesTables) : list (string * string) :=
  omap (fun p => if String.eqb p.1.1 note_id then Some (p.1.2, p.2) else None) (map_to_list (note_tags t)).
Definition key_le (p q : string * string) : Prop := String.leb p.1 q.1 = true.
#[export] Instance key_le_dec p q : Decision (key_le p q).
Proof. unfold key_le. apply _. Defined.
Definition sorted_tag_rows (note_id : string) (t : NotesTables) : list (string * string) :=
  merge_sort key_le (tag_rows note_id t).

Section Repository.
Context `{UnicodeCase} `{TagsJson}.

(** ** Drafts *)

Definition normalize_tag_key (tag : string) : result string NotesError :=
  let tag := str_trim tag in
  fail_if is_empty tag with validation "tags" "tags must not be empty" in
  Ok (to_lowercase tag).

(** The loop over the tags: what was kept so far, by key. *)
Fixpoint normalize_tags (kept : list (string * string)) (ts : list string)
  : result (list (string * string)) NotesError :=
  match ts with
  | [] => Ok kept
  | tag :: ts' =>
      let display := str_trim tag in
      fail_if is_empty display with validation "tags" "tags must not be empty" in
      fail_if MAX_TAG_CHARS <? chars_count display
        with validation "tags" "each tag must not exceed 64 characters" in
      let? key := normalize_tag_key display in
      normalize_tags
        (if existsb (fun p => String.eqb p.1 key) kept then kept else kept ++ [(key, display)]) ts'
  end.

Definition normalize_draft (d : NoteDraft) : result NoteDraft NotesError :=
  fail_if MAX_TITLE_CHARS <? chars_count (d_title d)
    with validation "title" "must not exceed 512 characters" in
  fail_if MAX_BODY_BYTES <? len (d_body_markdown d)
    with validation "body_markdown" "must not exceed 4194304 bytes" in
  fail_if is_some_and (fun date => negb (validate_date date)) (d_diary_date d)
    with validation "diary_date" "must be a valid YYYY-MM-DD date" in
  fail_if MAX_TAGS <? Z.of_nat (length (d_tags d))
    with validation "tags" "must not contain more than 64 tags" in
  let? kept := normalize_tags [] (d_tags d) in
  Ok {| d_title := d_title d; d_body_markdown := d_body_markdown d; d_diary_date := d_diary_date d;
        d_tags := (merge_sort key_le kept).*2; d_status := d_status d; d_pinned := d_pinned d |}.

Definition same_draft (n : Note) (d : NoteDraft) : bool :=
  String.eqb (title n) (d_title d) && String.eqb (body_markdown n) (d_body_markdown d)
  && eqb (diary_date n) (d_diary_date d) && eqb (tags n) (d_tags d)
  && eqb (status n) (d_status d) && Bool.eqb (pinned n) (d_pinned d).

Definition draft_from_note (n : Note) : NoteDraft :=
  {| d_title := title n; d_body_markdown := body_markdown n; d_diary_date := diary_date n;
     d_tags := tags n; d_status := status n; d_pinned := pinned n |}.

(** ** Statements *)

Definition insert_note (n : Note) : repo_mut unit :=
  rev <- lift (fun _ => revision_to_i64 (revision n)) ;;
  execute (fun t =>
    if is_some (notes t !! id n) || negb (row_checks (row_of n rev)) then None
    else Some (with_notes (<[id n := row_of n rev]> (notes t)) t, tt)).

(** The [UPDATE] answers how many rows it changed; it leaves [created_at_ms]. *)
Definition updated_row (n : Note) (rev : Z) (r : NoteRow) : NoteRow :=
  {| row_title := title n; row_body_markdown := body_markdown n; row_diary_date := diary_date n;
     row_status := NoteStatus_as_str (status n); row_pinned := pinned n;
     row_created_at_ms := row_created_at_ms r; row_updated_at_ms := updated_at_ms n;
     row_deleted_at_ms := deleted_at_ms n; row_revision := rev |}.

Definition update_note (n : Note) (expected_revision : Z) : repo_mut unit :=
  rev <- lift (fun _ => revision_to_i64 (revision n)) ;;
  expected <- lift (fun _ => revision_to_i64 expected_revision) ;;
  changed <- execute (fun t =>
    match notes t !! id n with
    | Some r =>
        if row_revision r =? expected then
          if row_checks (updated_row n rev r)
          then Some (with_notes (<[id n := updated_row n rev r]> (notes t)) t, 1)
          else None
        else Some (t, 0)
    | None => Some (t, 0)
    end) ;;
  if negb (changed =? 1) then throw E_Sql else ret tt.

Definition insert_tag (note_id key display : string) : repo_mut unit :=
  execute (fun t =>
    if is_some (note_tags t !! (note_id, key)) || is_none (notes t !! note_id) then None
    else Some (with_note_tags (<[(note_id, key) := display]> (note_tags t)) t, tt)).

Fixpoint insert_tags (note_id : string) (ts : list string) : repo_mut unit :=
  match ts with
  | [] => ret tt
  | display :: ts' =>
      key <- lift (fun _ => normalize_tag_key display) ;;
      insert_tag note_id key display ;;;
      insert_tags note_id ts'
  end.

Definition replace_tags (note_id : string) (ts : list string) : repo_mut unit :=
  execute (fun t =>
    Some (with_note_tags (filter (fun p => p.1.1 <> note_id) (note_tags t)) t, tt)) ;;;
  insert_tags note_id ts.

Definition insert_revision (n : Note) (recorded_at_ms : Z) : repo_mut unit :=
  tags_json <- lift (fun _ => ok_or E_Json (tags_to_string (tags n))) ;;
  rev <- lift (fun _ => revision_to_i64 (revision n)) ;;
  execute (fun t =>
    if is_some (note_revisions t !! (id n, rev)) || is_none (notes t !! id n)
       || negb (row_checks (row_of n rev))
    then None
    else Some (with_revisions
                 (<[(id n, rev) := {| rv_row := row_of n rev; rv_tags_json := tags_json;
                                      rv_recorded_at_ms := recorded_at_ms |}]> (note_revisions t)) t,
               tt)).

Definition load_tags (note_id : string) : repo_mut (list string) :=
  select (fun t => (sorted_tag_rows note_id t).*2).

Definition load_note (note_id : string) : repo_mut Note :=
  row <- select (fun t => notes t !! note_id) ;;
  n <- lift (fun _ =>
    match row with
    | None => Err (E_NotFound note_id)
    | Some r => ok_or E_Sql (note_from_row note_id r)
    end) ;;
  ts <- load_tags note_id ;;
  ret (with_tags ts n).

Definition note_exists (note_id : string) : repo_mut bool := select (fun t => is_some (notes t !! note_id)).

(** ** Operations *)

Definition new_note (uuid : string) (d : NoteDraft) (now_ms : Z) : Note :=
  {| id := uuid; title := d_title d; body_markdown := d_body_markdown d; diary_date := d_diary_date d;
     tags := d_tags d; status := d_status d; pinned := d_pinned d; created_at_ms := now_ms;
     updated_at_ms := now_ms; deleted_at_ms := None; revision := 1 |}.

(** [uuid] is the text of the [Uuid::new_v4] of the call. *)
Definition create (uuid : string) (input : NoteDraft) (now_ms : Z) : repo_mut Note :=
  draft <- lift (fun _ => normalize_draft input) ;;
  let note := new_note uuid draft now_ms in
  transaction
    (insert_note note ;;;
     replace_tags (id note) (tags note) ;;;
     insert_revision note now_ms ;;;
     ret (Commit note)).

Definition get (note_id : string) : repo_mut Note := load_note note_id.

Definition next_revision (rev : Z) : result Z NotesError :=
  ok_or (validation "revision" "revision exhausted") (checked_u64 (rev + 1)).

Definition saved_note (current : Note) (d : NoteDraft) (now_ms rev : Z) : Note :=
  {| id := id current; title := d_title d; body_markdown := d_body_markdown d;
     diary_date := d_diary_date d; tags := d_tags d; status := d_status d; pinned := d_pinned d;
     created_at_ms := created_at_ms current; updated_at_ms := Z.max now_ms (updated_at_ms current);
     deleted_at_ms := deleted_at_ms current; revision := rev |}.

Definition save (input : SaveNote) (now_ms : Z) : repo_mut Note :=
  submitted <- lift (fun _ => normalize_draft (save_draft input)) ;;
  transaction
    (current <- load_note (save_id input) ;;
     if negb (revision current =? save_expected_revision input) then
       throw (E_Conflict {| conflict_expected_revision := save_expected_revision input;
                            conflict_current := current; conflict_submitted := submitted |})
     else if same_draft current submitted then ret (Drop current)
     else
       rev <- lift (fun _ => next_revision (revision current)) ;;
       let saved := saved_note current submitted now_ms rev in
       update_note saved (save_expected_revision input) ;;;
       replace_tags (id saved) (tags saved) ;;;
       insert_revision saved now_ms ;;;
       ret (Commit saved)).

Definition deleted_note (current : Note) (deleted : option Z) (now_ms rev : Z) : Note :=
  {| id := id current; title := title current; body_markdown := body_markdown current;
     diary_date := diary_date current; tags := tags current; status := status current;
     pinned := pinned current; created_at_ms := created_at_ms current;
     updated_at_ms := Z.max now_ms (updated_at_ms current); deleted_at_ms := deleted; revision := rev |}.

Definition set_deleted (note_id : string) (expected_revision : Z) (deleted : option Z) (now_ms : Z)
  : repo_mut Note :=
  transaction
    (current <- load_note note_id ;;
     if negb (revision current =? expected_revision) then
       throw (E_Conflict {| conflict_expected_revision := expected_revision; conflict_current := current;
                            conflict_submitted := draft_from_note current |})
     else if eqb (deleted_at_ms current) deleted
             || (is_some deleted && is_some (deleted_at_ms current))
     then ret (Drop current)
     else
       rev <- lift (fun _ => next_revision (revision current)) ;;
       let saved := deleted_note current deleted now_ms rev in
       update_note saved expected_revision ;;;
       insert_revision saved now_ms ;;;
       ret (Commit saved)).

Definition soft_delete (note_id : string) (expected_revision now_ms : Z) : repo_mut Note :=
  set_deleted note_id expected_revision (Some now_ms) now_ms.
Definition restore (note_id : string) (expected_revision now_ms : Z) : repo_mut Note :=
  set_deleted note_id expected_revision None now_ms.

(** ** History *)

Definition revision_from_row (note_id : string) (r : RevisionRow) : option NoteRevision :=
  ts ← tags_from_str (rv_tags_json r);
  n ← note_from_row note_id (rv_row r);
  Some {| rev_note := with_tags ts n; rev_recorded_at_ms := rv_recorded_at_ms r |}.

Definition revision_rows (note_id : string) (t : NotesTables) : list (Z * RevisionRow) :=
  omap (fun p => if String.eqb p.1.1 note_id then Some (p.1.2, p.2) else None)
    (map_to_list (note_revisions t)).
Definition newer (p q : Z * RevisionRow) : Prop := q.1 <= p.1.
#[export] Instance newer_dec p q : Decision (newer p q).
Proof. unfold newer. apply _. Defined.

Definition revisions (note_id : string) : repo_mut (list NoteRevision) :=
  found <- note_exists note_id ;;
  if negb found then throw (E_NotFound note_id)
  else
    rows <- select (fun t => (merge_sort newer (revision_rows note_id t)).*2) ;;
    lift (fun _ => ok_or E_Sql (mapM (revision_from_row note_id) rows)).

(** [row_number()] over the revisions of a note, newest first. *)
Definition position (note_id : string) (rev : Z) (t : NotesTables) : Z :=
  1 + Z.of_nat (length (List.filter (fun p => rev <? p.1) (revision_rows note_id t))).

Definition expired (before : Z) (r : NoteRow) : bool :=
  is_some_and (fun deleted => deleted <=? before) (row_deleted_at_ms r).

(** Deleting notes deletes their tags and revisions. *)
Definition purge (before : Z) (t : NotesTables) : NotesTables * Z :=
  let gone := List.filter (fun p => expired before p.2) (map_to_list (notes t)) in
  let kept (note_id : string) := negb (contains note_id gone.*1) in
  ({| notes := filter (fun p => expired before p.2 = false) (notes t);
      note_tags := filter (fun p => kept p.1.1 = true) (note_tags t);
      note_revisions := filter (fun p => kept p.1.1 = true) (note_revisions t) |},
   Z.of_nat (length gone)).

Definition pruned (before keep : Z) (t : NotesTables) (p : (string * Z) * RevisionRow) : bool :=
  (rv_recorded_at_ms p.2 <=? before) && (keep <? position p.1.1 p.1.2 t).

Definition prune (before keep : Z) (t : NotesTables) : NotesTables * Z :=
  (with_revisions (filter (fun p => pruned before keep t p = false) (note_revisions t)) t,
   Z.of_nat (length (List.filter (pruned before keep t) (map_to_list (note_revisions t))))).

Definition apply_retention (policy : RetentionPolicy) : repo_mut RetentionResult :=
  if keep_latest_revisions policy =? 0
  then throw (validation "keep_latest_revisions" "must be at least 1")
  else
    transaction
      (purged <- match purge_deleted_before_ms policy with
                 | Some before => execute (fun t => Some (purge before t))
                 | None => ret 0
                 end ;;
       revs <- match prune_revisions_before_ms policy with
               | Some before => execute (fun t => Some (prune before (keep_latest_revisions policy) t))
               | None => ret 0
               end ;;
       ret (Commit {| purged_notes := purged; pruned_revisions := revs |})).

(** ** Queries *)

Definition validate_query (q : NoteQuery) : result unit NotesError :=
  fail_if (q_limit q =? 0) || (MAX_QUERY_LIMIT <? q_limit q)
    with validation "limit" "must be between 1 and 500" in
  let? _ := try_for_each (fun p => fail_if is_some_and (fun d => negb (validate_date d)) (p.2 : option string)
                                     with validation p.1 "must be a valid YYYY-MM-DD date" in Ok tt)
              [("diary_date_from"%string, q_diary_date_from q); ("diary_date_to"%string, q_diary_date_to q)] in
  fail_if match q_diary_date_from q, q_diary_date_to q with
          | Some from, Some to => String.ltb to from
          | _, _ => false
          end
    with validation "diary_date" "from must not be after to" in
  fail_if is_some_and (fun s => 512 <? chars_count s) (q_search q)
    with validation "search" "must not exceed 512 characters" in
  fail_if MAX_TAGS <? Z.of_nat (length (q_tags q))
    with validation "tags" "must not contain more than 64 tags" in
  Ok tt.

(** [instr(lower(text), lower(search)) > 0]. *)
Definition finds (search text : string) : bool := contains_str (ascii_lowercase search) (ascii_lowercase text).

Definition searched (q : NoteQuery) : option string :=
  s ← q_search q; let s := str_trim s in if is_empty s then None else Some s.

(** The [WHERE] clause; [keys] are the tag keys it was built with. *)
Definition selected (q : NoteQuery) (keys : list string) (t : NotesTables) (note_id : string) (r : NoteRow)
  : bool :=
  match q_deleted q with
  | Del_Exclude => is_none (row_deleted_at_ms r)
  | Del_Only => is_some (row_deleted_at_ms r)
  | Del_Include => true
  end
  && is_none_or (fun s => String.eqb (row_status r) (NoteStatus_as_str s)) (q_status q)
  && is_none_or (fun from => is_some_and (String.leb from) (row_diary_date r)) (q_diary_date_from q)
  && is_none_or (fun to => is_some_and (fun d => String.leb d to) (row_diary_date r)) (q_diary_date_to q)
  && is_none_or (fun s => finds s (row_title r) || finds s (row_body_markdown r)
                          || existsb (fun p => finds s p.2) (tag_rows note_id t)) (searched q)
  && forallb (fun key => is_some (note_tags t !! (note_id, key))) keys.

(** The [ORDER BY] clause. *)
Definition flag (b : bool) : Z := if b then 1 else 0.
Definition by_date_desc (a b : option string) : comparison :=
  then_by (flag (is_none a) ?= flag (is_none b))
    match a, b with Some x, Some y => String.compare y x | _, _ => Eq end.

Definition order (s : NoteSort) (p q : string * NoteRow) : comparison :=
  let (a, b) := (p.2, q.2) in
  then_by (flag (row_pinned b) ?= flag (row_pinned a))
    (then_by
       match s with
       | Sort_UpdatedDesc => row_updated_at_ms b ?= row_updated_at_ms a
       | Sort_CreatedDesc => row_created_at_ms b ?= row_created_at_ms a
       | Sort_TitleAsc => String.compare (ascii_lowercase (row_title a)) (ascii_lowercase (row_title b))
       | Sort_DiaryDateDesc =>
           then_by (by_date_desc (row_diary_date a) (row_diary_date b))
             (row_updated_at_ms b ?= row_updated_at_ms a)
       end
       (String.compare p.1 q.1)).
Definition ordered (s : NoteSort) (p q : string * NoteRow) : Prop := order s p q <> Gt.
#[export] Instance ordered_dec s p q : Decision (ordered s p q).
Proof. unfold ordered. apply _. Defined.

(** All the notes a query is about, in its order, before [LIMIT] and [OFFSET]. *)
Definition listing (q : NoteQuery) (keys : list string) (t : NotesTables) : list (string * NoteRow) :=
  merge_sort (ordered (q_sort q)) (List.filter (fun p => selected q keys t p.1 p.2) (map_to_list (notes t))).
Definition page_rows (q : NoteQuery) (keys : list string) (t : NotesTables) : list (string * NoteRow) :=
  firstn (Z.to_nat (q_limit q)) (skipn (Z.to_nat (q_offset q)) (listing q keys t)).

Fixpoint tag_keys (ts : list string) : result (list string) NotesError :=
  match ts with
  | [] => Ok []
  | tag :: ts' => let? key := normalize_tag_key tag in let? keys := tag_keys ts' in Ok (key :: keys)
  end.

(** The loop over the rows, for a visitor with a state of its own. *)
Section Visit.
Context {V : Type} (visitor : Note -> mut V unit NotesError).

Definition in_repo {A} (m : repo_mut A) : mut (NotesRepository * V) A NotesError :=
  zoom fst (fun s p => (s, snd p)) m.
Definition in_visitor {A} (m : mut V A NotesError) : mut (NotesRepository * V) A NotesError :=
  zoom snd (fun v p => (fst p, v)) m.

Fixpoint visit_rows (rows : list (string * NoteRow)) : mut (NotesRepository * V) unit NotesError :=
  match rows with
  | [] => in_repo (select (fun _ => tt))
  | (note_id, r) :: rows' =>
      in_repo (select (fun _ => tt)) ;;;
      n <- lift (fun _ => ok_or E_Sql (note_from_row note_id r)) ;;
      ts <- in_repo (load_tags note_id) ;;
      in_visitor (visitor (with_tags ts n)) ;;;
      visit_rows rows'
  end.

Definition visit_query (q : NoteQuery) : mut (NotesRepository * V) unit NotesError :=
  lift (fun _ => validate_query q) ;;;
  keys <- lift (fun _ => tag_keys (q_tags q)) ;;
  rows <- in_repo (select (page_rows q keys)) ;;
  visit_rows rows.
End Visit.

Definition query (q : NoteQuery) : repo_mut (list Note) :=
  fun s =>
    match visit_query (fun n => modify (fun l => l ++ [n])) q (s, []) with
    | ((s', l), Ok _) => (s', Ok l)
    | ((s', _), Err e) => (s', Err e)
    end.
End Repository.
