(* ===== verification/NotesRepositoryFacts.v ===== *)
(** What the notes repository promises: its tables are a map from identifiers
    to notes with the history of each, whatever statements fail. *)
From S2P Require Import Prelude Text NotesDomain NotesModel Sql NotesRepository.

(** What is relied on of serde_json: it reads back the tags it wrote. *)
Class TagsJsonLaws `{TagsJson} := {
  tags_json_round_trip : forall ts s, tags_to_string ts = Some s -> tags_from_str s = Some ts;
}.

(** ** Tags *)

#[export] Instance key_compare : TotalPreorder (fun p q : string * string => String.compare p.1 q.1).
Proof. apply (compare_on String.compare fst). apply _. Qed.

Lemma key_le_antisym p q l :
  NoDup l.*1 -> p ∈ l -> q ∈ l -> key_le p q -> key_le q p -> p = q.
Proof.
  unfold key_le. intros Hl Hp Hq H1 H2. destruct p as [k d], q as [k' d']. simpl in *.
  pose proof (String.leb_antisym _ _ H1 H2) as <-. f_equal.
  apply list_elem_of_lookup in Hp as [i Hi]. apply list_elem_of_lookup in Hq as [j Hj].
  assert (i = j) as <-; [| congruence].
  eapply NoDup_lookup; [exact Hl | |]; by rewrite list_lookup_fmap, ?Hi, ?Hj.
Qed.

Lemma sorted_keys_unique l l' :
  NoDup l.*1 -> StronglySorted key_le l -> StronglySorted key_le l' -> l ≡ₚ l' -> l = l'.
Proof.
  intros Hn Hl Hl' Hp. apply (StronglySorted_unique_strong key_le); [| done..].
  intros x y Hx Hy. apply (key_le_antisym x y l); [done | done |]. by rewrite Hp.
Qed.

Lemma sort_keys_sorted l : StronglySorted key_le (merge_sort key_le l).
Proof. eapply merge_sort_sorted; [apply key_compare |]. intros x y. apply leb_compare. Qed.

Lemma tag_rows_elem note_id t k d :
  (k, d) ∈ tag_rows note_id t <-> note_tags t !! (note_id, k) = Some d.
Proof.
  unfold tag_rows. rewrite list_elem_of_omap. split.
  - intros ([[i k'] d'] & Hin & Heq). simpl in Heq. destruct (String.eqb_spec i note_id) as [-> |]; [| done].
    injection Heq as -> ->. by apply elem_of_map_to_list in Hin.
  - intros Hk. exists ((note_id, k), d). split; [by apply elem_of_map_to_list |]. simpl.
    by rewrite String.eqb_refl.
Qed.

Lemma tag_rows_nodup note_id t : NoDup (tag_rows note_id t).*1.
Proof.
  unfold tag_rows. pose proof (NoDup_fst_map_to_list (note_tags t)) as Hn. revert Hn.
  generalize (map_to_list (note_tags t)) as l.
  induction l as [| [[i k] d] l IH]; intros Hl; [constructor |].
  apply NoDup_cons in Hl as [Hk Hl]. simpl in Hk |- *.
  destruct (String.eqb_spec i note_id) as [-> |]; simpl; [| by apply IH]. constructor; [| by apply IH].
  intros Hin. apply Hk. apply list_elem_of_fmap in Hin as ([k' d'] & Heq & Hin). simpl in Heq. subst k'.
  apply list_elem_of_omap in Hin as ([[i' k'] e] & Hin & Heq). simpl in Heq.
  destruct (String.eqb_spec i' note_id) as [-> |]; [| done]. injection Heq as -> ->.
  apply list_elem_of_fmap. by exists ((note_id, k), d').
Qed.

Lemma sorted_tag_rows_is note_id t keyed :
  StronglySorted key_le keyed -> NoDup keyed.*1 ->
  (forall k d, (k, d) ∈ keyed <-> note_tags t !! (note_id, k) = Some d) ->
  sorted_tag_rows note_id t = keyed.
Proof.
  intros Hs Hn Hk. symmetry. apply sorted_keys_unique; [done | done | apply sort_keys_sorted |].
  unfold sorted_tag_rows. rewrite merge_sort_Permutation. apply NoDup_Permutation.
  - by apply NoDup_fmap_1 in Hn.
  - by apply (NoDup_fmap_1 fst), tag_rows_nodup.
  - intros [k d]. by rewrite tag_rows_elem, Hk.
Qed.

Definition tags_of (note_id : string) (t : NotesTables) : list string := (sorted_tag_rows note_id t).*2.

Lemma tags_of_ext note_id t t' :
  (forall k, note_tags t' !! (note_id, k) = note_tags t !! (note_id, k)) -> tags_of note_id t' = tags_of note_id t.
Proof.
  intros Hk. unfold tags_of. f_equal. apply sorted_tag_rows_is.
  - apply sort_keys_sorted.
  - unfold sorted_tag_rows. rewrite merge_sort_Permutation. apply tag_rows_nodup.
  - intros k d. unfold sorted_tag_rows. rewrite merge_sort_Permutation, tag_rows_elem. by rewrite Hk.
Qed.

(** ** The notes that the tables hold *)

Definition stored (t : NotesTables) (note_id : string) : option Note :=
  r ← notes t !! note_id;
  n ← note_from_row note_id r;
  Some (with_tags (tags_of note_id t) n).

Lemma stored_some t note_id n :
  stored t note_id = Some n <->
  exists r n0, notes t !! note_id = Some r /\ note_from_row note_id r = Some n0 /\
    n = with_tags (tags_of note_id t) n0.
Proof.
  unfold stored. split.
  - destruct (notes t !! note_id) as [r |]; [| done]. simpl.
    destruct (note_from_row note_id r) as [n0 |] eqn:Hn; [| done]. intros [= <-]. by exists r, n0.
  - intros (r & n0 & -> & Hn & ->). simpl. by rewrite Hn.
Qed.

(** A row and a note that say the same. *)
Lemma note_from_row_some note_id r n :
  note_from_row note_id r = Some n ->
  id n = note_id /\ r = row_of n (revision n) /\ revision n = row_revision r /\ tags n = [].
Proof.
  unfold note_from_row. destruct (NoteStatus_parse (row_status r)) as [st |] eqn:Hst; [| done]. simpl.
  destruct (row_revision r <? 0); [done |]. intros [= <-]. split_and!; try done.
  assert (row_status r = NoteStatus_as_str st) as Hs.
  { unfold NoteStatus_parse in Hst. repeat case_match; simplify_eq; by apply String.eqb_eq. }
  destruct r. unfold row_of. simpl in *. by rewrite Hs.
Qed.

Lemma status_round_trip s : NoteStatus_parse (NoteStatus_as_str s) = Some s.
Proof. by destruct s. Qed.

Lemma note_from_row_of n rev :
  0 <= rev -> note_from_row (id n) (row_of n rev) =
  Some {| id := id n; title := title n; body_markdown := body_markdown n; diary_date := diary_date n;
          tags := []; status := status n; pinned := pinned n; created_at_ms := created_at_ms n;
          updated_at_ms := updated_at_ms n; deleted_at_ms := deleted_at_ms n; revision := rev |}.
Proof.
  intros Hr. unfold note_from_row, row_of. simpl. rewrite status_round_trip. simpl.
  by rewrite (proj2 (Z.ltb_ge rev 0)).
Qed.

Lemma row_checks_of n rev : 0 < rev -> row_checks (row_of n rev) = true.
Proof.
  intros Hr. unfold row_checks, row_of. simpl. rewrite status_round_trip. simpl. by apply Z.ltb_lt.
Qed.

(** The tables a component of this program wrote. *)
Section Wf.
Context `{TagsJson}.

(** The newest entry of a note's history is the note as it stands. *)
Definition current_recorded (t : NotesTables) (note_id : string) (r : NoteRow) : Prop :=
  exists v, note_revisions t !! (note_id, row_revision r) = Some v /\ rv_row v = r /\
    tags_from_str (rv_tags_json v) = Some (tags_of note_id t).

Record tables_wf (t : NotesTables) : Prop := {
  wf_rows : forall i r, notes t !! i = Some r -> row_checks r = true /\ row_revision r <= i64_max;
  wf_tags : forall i k d, note_tags t !! (i, k) = Some d -> is_Some (notes t !! i);
  wf_history : forall i rev v, note_revisions t !! (i, rev) = Some v ->
    exists r, notes t !! i = Some r /\ row_revision (rv_row v) = rev /\ 1 <= rev <= row_revision r;
  wf_current : forall i r, notes t !! i = Some r -> current_recorded t i r;
  wf_decodes : forall i rev v, note_revisions t !! (i, rev) = Some v -> is_Some (revision_from_row i v);
}.

Lemma stored_wf t i r : tables_wf t -> notes t !! i = Some r ->
  exists n, stored t i = Some n /\ r = row_of n (revision n) /\ 1 <= revision n <= i64_max /\
    id n = i /\ tags n = tags_of i t.
Proof.
  intros Hwf Hr. destruct (wf_rows t Hwf i r Hr) as [Hc Hm]. unfold row_checks in Hc. bool_facts.
  assert (exists n, note_from_row i r = Some n) as [n0 Hn0].
  { unfold note_from_row. destruct (NoteStatus_parse _); [| done]. simpl.
    rewrite (proj2 (Z.ltb_ge (row_revision r) 0)) by lia. eauto. }
  exists (with_tags (tags_of i t) n0). pose proof (note_from_row_some _ _ _ Hn0) as (Hi & Hrow & Hrev & _).
  split_and!; [| done | simpl; lia | simpl; lia | done | done]. apply stored_some. eauto.
Qed.

Lemma stored_none t i : tables_wf t -> stored t i = None -> notes t !! i = None.
Proof.
  intros Hwf Hs. destruct (notes t !! i) as [r |] eqn:Hr; [| done].
  destruct (stored_wf t i r Hwf Hr) as (n & Hn & _). congruence.
Qed.
End Wf.

Section Facts.
Context {case : UnicodeCase} {json : TagsJson} {laws : TagsJsonLaws}.

(** ** Drafts *)

(** Tags as [normalize_draft] leaves them: trimmed, bounded, in the order of
    their keys, no two with one key. *)
Definition tag_normal (p : string * string) : Prop :=
  normalize_tag_key p.2 = Ok p.1 /\ str_trim p.2 = p.2 /\ is_empty p.2 = false /\
  chars_count p.2 <= MAX_TAG_CHARS.
Definition tags_normal (keyed : list (string * string)) : Prop :=
  NoDup keyed.*1 /\ Forall tag_normal keyed.

Lemma normalize_tags_ok kept ts kept' :
  normalize_tags kept ts = Ok kept' -> tags_normal kept ->
  tags_normal kept' /\ (length kept' <= length kept + length ts)%nat.
Proof.
  revert kept. induction ts as [| tag ts IH]; intros kept H Hk; cbn [normalize_tags] in H.
  - injection H as <-. split; [done | simpl; lia].
  - destruct (is_empty (str_trim tag)) eqn:He; [done |].
    destruct (MAX_TAG_CHARS <? chars_count (str_trim tag)) eqn:Hc; [done |]. bool_facts.
    destruct (normalize_tag_key (str_trim tag)) as [key |] eqn:Hkey; [| done]. simpl in H.
    apply IH in H as [H Hlen].
    + split; [done |]. revert Hlen. destruct (existsb _ kept); rewrite ?length_app; simpl; lia.
    + destruct (existsb _ kept) eqn:Hx; [done |]. destruct Hk as [Hn Hf]. split.
      * rewrite fmap_app. apply NoDup_app. split; [done |]. split; [| apply NoDup_singleton].
        intros k Hin Hk%list_elem_of_singleton. simpl in Hk. subst k.
        apply list_elem_of_fmap in Hin as (p & Hp & Hin).
        apply not_true_iff_false in Hx. apply Hx. apply existsb_exists. exists p.
        split; [by apply list_elem_of_In | rewrite Hp; apply String.eqb_refl].
      * apply Forall_app. split; [done |]. constructor; [| done]. split_and!; try done.
        apply str_trim_twice.
Qed.

(** The keys a draft's tags were given. *)
Definition draft_tags (d : NoteDraft) (keyed : list (string * string)) : Prop :=
  d_tags d = keyed.*2 /\ StronglySorted key_le keyed /\ tags_normal keyed.

Lemma normalize_draft_ok d d' :
  normalize_draft d = Ok d' ->
  (exists keyed, draft_tags d' keyed) /\ d_title d' = d_title d /\ d_body_markdown d' = d_body_markdown d /\
  d_diary_date d' = d_diary_date d /\ d_status d' = d_status d /\ d_pinned d' = d_pinned d /\
  Z.of_nat (length (d_tags d')) <= MAX_TAGS /\ chars_count (d_title d') <= MAX_TITLE_CHARS /\
  len (d_body_markdown d') <= MAX_BODY_BYTES /\ is_some_and (fun x => negb (validate_date x)) (d_diary_date d') = false.
Proof.
  unfold normalize_draft. repeat case_match; try done. bool_facts.
  destruct (normalize_tags [] (d_tags d)) as [kept |] eqn:Hk; [| done]. intros [= <-]. simpl.
  apply normalize_tags_ok in Hk as [Hk Hlen]; [| by split; constructor].
  split_and!; try done; [| rewrite length_fmap, merge_sort_Permutation; simpl in Hlen; lia].
  exists (merge_sort key_le kept). split_and!; [done | apply sort_keys_sorted |].
  split; by rewrite merge_sort_Permutation; destruct Hk.
Qed.

(** ** Statements *)

Lemma revision_to_i64_ok rev z : revision_to_i64 rev = Ok z -> z = rev /\ in_i64 rev = true.
Proof.
  unfold revision_to_i64. destruct (checked_i64 rev) eqn:Hc; [| done]. apply checked_i64_some in Hc as [-> Hc].
  by intros [= <-].
Qed.

Ltac inv_statement :=
  inv_ok; repeat match goal with
    | H : revision_to_i64 _ = Ok _ |- _ => apply revision_to_i64_ok in H as [-> ?]
    | H : Sql.execute _ _ _ = (_, Ok _) |- _ => apply Sql.execute_ok in H
    | H : execute _ _ = (_, Ok _) |- _ => apply Sql.execute_ok in H
    end.

Lemma insert_note_ok n s s' u :
  insert_note n s = (s', Ok u) ->
  notes (db_tables s) !! id n = None /\ in_i64 (revision n) = true /\
  db_tables s' = with_notes (<[id n := row_of n (revision n)]> (notes (db_tables s))) (db_tables s).
Proof.
  unfold insert_note. intros H. inv_statement. destruct (is_some _) eqn:Hs; [done |]. simpl in H. destruct (negb _); [done |]. simplify_eq.
  split_and!; [by destruct (notes _ !! _) | done | congruence].
Qed.

Lemma update_note_ok n expected s s' u :
  update_note n expected s = (s', Ok u) ->
  exists r, notes (db_tables s) !! id n = Some r /\ row_revision r = expected /\ in_i64 (revision n) = true /\
    row_checks (updated_row n (revision n) r) = true /\
    db_tables s' = with_notes (<[id n := updated_row n (revision n) r]> (notes (db_tables s))) (db_tables s).
Proof.
  unfold update_note. intros H. inv_statement.
  destruct (negb _) eqn:Hc; [done |]. apply negb_false_iff, Z.eqb_eq in Hc. inv_ok.
  repeat case_match; simplify_eq. bool_facts. eexists. split_and!; eauto.
Qed.

(** Tags of other notes are not touched. *)
Definition same_tags_but (note_id : string) (t t' : NotesTables) : Prop :=
  forall i k, i <> note_id -> note_tags t' !! (i, k) = note_tags t !! (i, k).

Lemma insert_tags_ok note_id keyed s s' u :
  insert_tags note_id keyed.*2 s = (s', Ok u) -> Forall tag_normal keyed -> NoDup keyed.*1 ->
  exists m, db_tables s' = with_note_tags m (db_tables s) /\ same_tags_but note_id (db_tables s) (db_tables s') /\
    (forall k d, m !! (note_id, k) = Some d <-> (k, d) ∈ keyed \/ note_tags (db_tables s) !! (note_id, k) = Some d) /\
    (keyed <> [] -> is_Some (notes (db_tables s) !! note_id)).
Proof.
  revert s. induction keyed as [| [key display] keyed IH]; intros s H Hf Hn.
  - apply ret_ok in H as [-> _]. exists (note_tags (db_tables s)). split_and!; [by destruct (db_tables s) | done | | done].
    intros k d. split; [by right | intros [?%elem_of_nil | ?]; done].
  - cbn [fmap list_fmap insert_tags] in H. apply Forall_cons in Hf as [(Hkey & _) Hf].
    apply NoDup_cons in Hn as [Hnew Hn]. simpl in Hnew, Hkey, H. inv_ok.
    match goal with H : normalize_tag_key _ = Ok ?x |- _ => assert (x = key) as -> by congruence end.
    match goal with H : insert_tag _ _ _ _ = _ |- _ => apply Sql.execute_ok in H; rename H into Hi end.
    destruct (is_some _) eqn:Hfree in Hi; [done |]. simpl in Hi. destruct (is_none _) eqn:Hex in Hi; [done |].
    injection Hi as Hi. symmetry in Hi. apply IH in H as (m & Hm & Hother & Hin & Hnote); [| done | done].
    rewrite Hi in Hm, Hin, Hnote. exists m. split_and!.
    + by rewrite Hm.
    + intros i k Hik. rewrite Hother, Hi by done. simpl. by rewrite lookup_insert_ne by naive_solver.
    + intros k d. rewrite Hin. simpl. rewrite elem_of_cons.
      destruct (decide (k = key)) as [-> | Hk].
      * rewrite lookup_insert_eq. destruct (note_tags _ !! (note_id, key)); [done |]. split.
        -- intros [Hd | [= ->]]; [| by left; left]. exfalso. apply Hnew. apply list_elem_of_fmap. by exists (key, d).
        -- intros [[[= ->] | Hd] | [=]]; [by right | by left].
      * rewrite lookup_insert_ne by naive_solver. naive_solver.
    + intros _. by destruct (notes _ !! note_id).
Qed.

Lemma replace_tags_ok note_id keyed s s' u :
  replace_tags note_id keyed.*2 s = (s', Ok u) -> StronglySorted key_le keyed -> tags_normal keyed ->
  exists m, db_tables s' = with_note_tags m (db_tables s) /\ same_tags_but note_id (db_tables s) (db_tables s') /\
    tags_of note_id (db_tables s') = keyed.*2 /\
    (forall k d, m !! (note_id, k) = Some d -> is_Some (notes (db_tables s) !! note_id)).
Proof.
  intros H Hs [Hn Hf]. unfold replace_tags in H. inv_ok.
  match goal with H : execute _ _ = _ |- _ => apply Sql.execute_ok in H; injection H as Hx end. symmetry in Hx.
  apply insert_tags_ok in H as (m & Hm & Hother & Hin & Hnote); [| done | done].
  rewrite Hx in Hm, Hin, Hnote. simpl in Hin, Hnote.
  assert (forall k d, m !! (note_id, k) = Some d <-> (k, d) ∈ keyed) as Hkeyed.
  { intros k d. rewrite Hin, map_lookup_filter_Some. naive_solver. }
  exists m. split_and!.
  - by rewrite Hm.
  - intros i k Hik. rewrite Hother, Hx by done. simpl.
    destruct (note_tags (db_tables s) !! (i, k)) as [d |] eqn:Hd.
    + by apply map_lookup_filter_Some.
    + apply map_lookup_filter_None. by left.
  - unfold tags_of. f_equal. apply sorted_tag_rows_is; [done | done |]. intros k d. rewrite Hm. simpl. by rewrite Hkeyed.
  - intros k d Hd%Hkeyed. apply Hnote. intros ->. by apply elem_of_nil in Hd.
Qed.

Lemma insert_revision_ok n recorded s s' u :
  insert_revision n recorded s = (s', Ok u) ->
  exists json_text, tags_to_string (tags n) = Some json_text /\
    note_revisions (db_tables s) !! (id n, revision n) = None /\ is_Some (notes (db_tables s) !! id n) /\
    in_i64 (revision n) = true /\
    db_tables s' = with_revisions (<[(id n, revision n) :=
      {| rv_row := row_of n (revision n); rv_tags_json := json_text; rv_recorded_at_ms := recorded |}]>
        (note_revisions (db_tables s))) (db_tables s).
Proof.
  unfold insert_revision. intros H. inv_statement.
  destruct (tags_to_string (tags n)) as [j |]; [| done].
  match goal with H : ok_or _ (Some j) = Ok _ |- _ => injection H as <- end.
  destruct (is_some _) eqn:Hs; [done |]. destruct (is_none _) eqn:Hn; [done |]. simpl in H.
  destruct (negb _); [done |]. simplify_eq. exists j.
  split_and!; [done | by destruct (note_revisions _ !! _) | by destruct (notes _ !! id n) | done | congruence].
Qed.

Lemma load_note_cases i s s' r :
  load_note i s = (s', r) ->
  db_tables s' = db_tables s /\
  match r with
  | Ok n => stored (db_tables s) i = Some n
  | Err e => (e = E_NotFound i /\ notes (db_tables s) !! i = None) \/ e = E_Sql
  end.
Proof.
  unfold load_note, bind, lift.
  destruct (select _ s) as [s1 [row | e]] eqn:H1.
  2:{ apply Sql.execute_err in H1 as [H1 ->]. intros [= <- <-]. auto. }
  apply Sql.select_ok in H1 as [H1 ->].
  destruct (notes (db_tables s) !! i) as [row |] eqn:Hr; [| intros [= <- <-]; auto].
  destruct (note_from_row i row) as [n0 |] eqn:Hn; simpl; [| intros [= <- <-]; auto].
  unfold load_tags. destruct (select _ s1) as [s2 [ts | e]] eqn:H2.
  - apply Sql.select_ok in H2 as [H2 ->]. intros [= <- <-]. rewrite H2, H1. split; [done |].
    unfold stored. by rewrite Hr; simpl; rewrite Hn.
  - apply Sql.execute_err in H2 as [H2 ->]. intros [= <- <-]. rewrite H2. auto.
Qed.

(** ** Versions *)

(** [n] became the current version of its note: it is what the tables hold, its
    history has it as a new entry, and nothing else changed. *)
Definition committed (t t' : NotesTables) (n : Note) (recorded : Z) : Prop :=
  stored t' (id n) = Some n /\ (forall i, i <> id n -> stored t' i = stored t i) /\
  note_revisions t !! (id n, revision n) = None /\
  exists v, revision_from_row (id n) v = Some {| rev_note := n; rev_recorded_at_ms := recorded |} /\
    note_revisions t' = <[(id n, revision n) := v]> (note_revisions t).

Definition written (t : NotesTables) (m : gmap (string * string) string) (n : Note) (json_text : string)
    (recorded : Z) : NotesTables :=
  {| notes := <[id n := row_of n (revision n)]> (notes t); note_tags := m;
     note_revisions := <[(id n, revision n) :=
       {| rv_row := row_of n (revision n); rv_tags_json := json_text; rv_recorded_at_ms := recorded |}]>
       (note_revisions t) |}.

Lemma stored_written t m n json_text recorded :
  0 <= revision n -> tags_of (id n) (written t m n json_text recorded) = tags n ->
  stored (written t m n json_text recorded) (id n) = Some n.
Proof.
  intros Hr Ht. unfold stored. simpl. rewrite lookup_insert_eq. simpl.
  rewrite note_from_row_of by done. simpl. unfold with_tags. simpl. rewrite Ht. by destruct n.
Qed.

Lemma written_committed t m n json_text recorded :
  tables_wf t -> 1 <= revision n -> in_i64 (revision n) = true ->
  tags_to_string (tags n) = Some json_text ->
  (forall i k, i <> id n -> m !! (i, k) = note_tags t !! (i, k)) ->
  tags_of (id n) (written t m n json_text recorded) = tags n ->
  (forall rev v, note_revisions t !! (id n, rev) = Some v -> rev < revision n) ->
  tables_wf (written t m n json_text recorded) /\ committed t (written t m n json_text recorded) n recorded.
Proof.
  intros Hwf Hr Hi Hj Hm Ht Hnew.
  assert (forall i, i <> id n -> tags_of i (written t m n json_text recorded) = tags_of i t) as Hother.
  { intros i Hne. apply tags_of_ext. intros k. simpl. auto. }
  assert (note_revisions t !! (id n, revision n) = None) as Hfree.
  { destruct (note_revisions t !! (id n, revision n)) eqn:Hl; [| done]. apply Hnew in Hl. lia. }
  assert (revision_from_row (id n) {| rv_row := row_of n (revision n); rv_tags_json := json_text;
            rv_recorded_at_ms := recorded |} = Some {| rev_note := n; rev_recorded_at_ms := recorded |}) as Hdecode.
  { unfold revision_from_row. simpl. rewrite (tags_json_round_trip _ _ Hj). simpl.
    rewrite note_from_row_of by lia. simpl. unfold with_tags. simpl. by destruct n. }
  split; [split |].
  - intros i r. simpl. rewrite lookup_insert_Some. intros [[<- <-] | [_ Hl]]; [| by eapply wf_rows].
    split; [apply row_checks_of; lia | simpl; width].
  - intros i k d. simpl. destruct (decide (i = id n)) as [-> | Hne]; [by rewrite lookup_insert_eq |].
    rewrite Hm, lookup_insert_ne by done. by apply wf_tags.
  - intros i rev v. simpl. rewrite lookup_insert_Some. intros [[[= <- <-] <-] | [Hne Hl]].
    + exists (row_of n (revision n)). rewrite lookup_insert_eq. split_and!; [done | done | lia | simpl; lia].
    + pose proof (wf_history t Hwf _ _ _ Hl) as (r & Hr' & Hrev & Hle).
      destruct (decide (i = id n)) as [-> | Hni].
      * exists (row_of n (revision n)). rewrite lookup_insert_eq. apply Hnew in Hl.
        split_and!; [done | done | lia | simpl; lia].
      * exists r. by rewrite lookup_insert_ne.
  - intros i r. simpl. rewrite lookup_insert_Some. intros [[<- <-] | [Hne Hl]].
    + eexists. simpl. rewrite lookup_insert_eq. split_and!; [done | done |]. simpl. rewrite Ht.
      by apply tags_json_round_trip.
    + destruct (wf_current t Hwf _ _ Hl) as (v & Hv & Hrow & Htags). exists v. simpl.
      rewrite lookup_insert_ne by naive_solver. by rewrite Hother.
  - intros i rev v. simpl. rewrite lookup_insert_Some. intros [[[= <- <-] <-] | [_ Hl]]; [| by eapply wf_decodes].
    rewrite Hdecode. by eexists.
  - split_and!; [apply stored_written; [lia | done] | | done | by eexists].
    intros i Hne. unfold stored. simpl. by rewrite lookup_insert_ne, Hother.
Qed.

(** A committed version bears the next revision number, if the note existed. *)
Lemma stored_next t i n : tables_wf t -> stored t i = Some n ->
  exists r, notes t !! i = Some r /\ r = row_of n (revision n) /\ 1 <= revision n <= i64_max /\ id n = i /\
    tags n = tags_of i t /\ forall rev v, note_revisions t !! (i, rev) = Some v -> rev <= revision n.
Proof.
  intros Hwf Hs. pose proof Hs as (r & n0 & Hr & _)%stored_some.
  destruct (stored_wf t i r Hwf Hr) as (n' & Hs' & Hrow & Hrange & Hid & Htags).
  assert (n' = n) as -> by congruence. exists r. split_and!; try done; try lia.
  intros rev v Hv. apply (wf_history t Hwf) in Hv as (r' & Hr' & _ & Hle).
  assert (r' = r) as -> by congruence. rewrite Hrow in Hle. simpl in Hle. lia.
Qed.

Lemma next_revision_ok rev z : next_revision rev = Ok z -> z = rev + 1.
Proof.
  unfold next_revision. destruct (checked_u64 (rev + 1)) eqn:Hc; [| done]. apply checked_u64_some in Hc as [-> _].
  by intros [= <-].
Qed.

Lemma tags_draft_sorted t i : exists keyed, tags_of i t = keyed.*2 /\ sorted_tag_rows i t = keyed.
Proof. by eexists. Qed.

(** Every operation answers from the tables as they are, or commits one
    version, or fails and changes nothing. *)
Definition changes_only (t t' : NotesTables) (P : Note -> Prop) (recorded : Z) (r : result Note NotesError) : Prop :=
  match r with
  | Ok n => P n /\ (t' = t \/ (tables_wf t' /\ committed t t' n recorded))
  | Err _ => t' = t
  end.

Lemma create_cases uuid input now s s' r :
  tables_wf (db_tables s) -> create uuid input now s = (s', r) ->
  match r with
  | Ok n => exists draft, normalize_draft input = Ok draft /\ n = new_note uuid draft now /\
      stored (db_tables s) uuid = None /\ tables_wf (db_tables s') /\
      committed (db_tables s) (db_tables s') n now
  | Err _ => db_tables s' = db_tables s
  end.
Proof.
  intros Hwf H. unfold create, bind at 1, lift in H.
  destruct (normalize_draft input) as [draft | e] eqn:Hd; [| by injection H as <- <-].
  destruct r as [n | e]; [| by apply Sql.transaction_err in H as [-> _]].
  apply Sql.transaction_ok in H as (s0 & s1 & x & Ht0 & Hb & Hn & Ht). inv_ok.
  repeat match goal with
    | H : insert_note _ _ = (_, Ok _) |- _ => apply insert_note_ok in H as (Hfree & _ & Hx1)
    | H : insert_revision _ _ _ = (_, Ok _) |- _ =>
        apply insert_revision_ok in H as (j & Hj & _ & _ & _ & Hx3)
    end.
  apply normalize_draft_ok in Hd as Hnorm. destruct Hnorm as ((keyed & Htags & Hsorted & Hnormal) & _).
  match goal with H : replace_tags _ _ _ = _ |- _ => simpl in H; rewrite Htags in H;
    apply replace_tags_ok in H as (m & Hx2 & Hother & Htags' & _); [| done | done] end.
  rewrite Ht0 in Hfree, Hx1. rewrite Hx1 in Hx2, Hother. rewrite Hx2 in Hx3, Hother, Htags'. simpl in *.
  assert (db_tables s' = written (db_tables s) m (new_note uuid draft now) j now) as Hw by (rewrite Ht, Hx3; done).
  exists draft. destruct (written_committed (db_tables s) m (new_note uuid draft now) j now) as [Hw1 Hw2];
    [done | simpl; lia | done | done | | | |].
  - exact Hother.
  - simpl. rewrite Htags, <- Htags'. by apply tags_of_ext.
  - intros rev v Hv. apply (wf_history _ Hwf) in Hv as (row & Hrow & _). simpl in Hrow. congruence.
  - rewrite Hw. split_and!; try done. unfold stored. by rewrite Hfree.
Qed.

(** Only the check of the revision answers a conflict. *)
Definition no_conflict (e : NotesError) : Prop := forall c, e <> E_Conflict c.

Lemma execute_no_conflict {A} (f : NotesTables -> option (NotesTables * A)) : fails_within no_conflict (execute f).
Proof. intros s s' e H. apply Sql.execute_err in H as [_ ->]. by intros c. Qed.

Lemma lift_no_conflict {A} (f : NotesRepository -> result A NotesError) :
  (forall s e, f s = Err e -> no_conflict e) -> fails_within no_conflict (lift f).
Proof. intros Hf s s' e H. injection H as _ He. by eapply Hf. Qed.

Ltac solve_no_conflict :=
  repeat first
    [ progress intros
    | apply execute_no_conflict
    | apply fails_within_infallible; solve [auto with rust_effects]
    | apply fails_within_throw; by intros ?
    | apply fails_within_bind
    | apply lift_no_conflict; intros ? ? ?
    | case_match ].

Lemma revision_to_i64_no_conflict rev e : revision_to_i64 rev = Err e -> no_conflict e.
Proof. unfold revision_to_i64. destruct (checked_i64 rev); [done |]. by intros [= <-] c. Qed.

Lemma normalize_tag_key_no_conflict tag e : normalize_tag_key tag = Err e -> no_conflict e.
Proof. unfold normalize_tag_key. case_match; [| done]. by intros [= <-] c. Qed.

Lemma next_revision_no_conflict rev e : next_revision rev = Err e -> no_conflict e.
Proof. unfold next_revision. destruct (checked_u64 (rev + 1)); [done |]. by intros [= <-] c. Qed.

Lemma update_note_no_conflict n expected : fails_within no_conflict (update_note n expected).
Proof. unfold update_note. solve_no_conflict; eauto using revision_to_i64_no_conflict. Qed.

Lemma insert_note_no_conflict n : fails_within no_conflict (insert_note n).
Proof. unfold insert_note. solve_no_conflict; eauto using revision_to_i64_no_conflict. Qed.

Lemma replace_tags_no_conflict note_id ts : fails_within no_conflict (replace_tags note_id ts).
Proof.
  unfold replace_tags. apply fails_within_bind; [apply execute_no_conflict |]. intros _.
  induction ts as [| tag ts IH]; simpl; [apply fails_within_infallible; auto with rust_effects |].
  unfold insert_tag. solve_no_conflict; eauto using normalize_tag_key_no_conflict.
Qed.

Lemma insert_revision_no_conflict n recorded : fails_within no_conflict (insert_revision n recorded).
Proof.
  unfold insert_revision. solve_no_conflict; eauto using revision_to_i64_no_conflict.
  destruct (tags_to_string (tags n)); simplify_eq/=. by intros c.
Qed.

(** The end of a transaction that writes a version of a note that exists. *)
Lemma version_written t current n :
  tables_wf t -> stored t (id n) = Some current -> created_at_ms n = created_at_ms current ->
  revision n = revision current + 1 ->
  (forall r, notes t !! id n = Some r -> updated_row n (revision n) r = row_of n (revision n)) /\
  (forall rev v, note_revisions t !! (id n, rev) = Some v -> rev < revision n) /\ 1 <= revision n.
Proof.
  intros Hwf Hs Hc Hrev. destruct (stored_next _ _ _ Hwf Hs) as (r & Hr & Hrow & Hrange & _ & _ & Hhist).
  split_and!; [| intros rev v Hv; apply Hhist in Hv; lia | lia].
  intros r' Hr'. assert (r' = r) as -> by congruence. unfold updated_row, row_of. by rewrite Hrow, Hc.
Qed.

(** [save] and [set_deleted] write a version in the same way, but for the tags. *)
Lemma save_writes current n expected keyed now s s' x :
  tables_wf (db_tables s) -> stored (db_tables s) (id n) = Some current ->
  created_at_ms n = created_at_ms current -> revision n = revision current + 1 ->
  tags n = keyed.*2 -> StronglySorted key_le keyed -> tags_normal keyed ->
  (update_note n expected ;;; replace_tags (id n) (tags n) ;;; insert_revision n now ;;; ret (Commit n)) s
    = (s', Ok x) ->
  x = Commit n /\ tables_wf (db_tables s') /\ committed (db_tables s) (db_tables s') n now.
Proof.
  intros Hwf Hcur Hc Hrev Htags Hsorted Hnormal H. inv_ok.
  repeat match goal with
    | H : update_note _ _ _ = (_, Ok _) |- _ => apply update_note_ok in H as (row & Hrow & _ & Hi & _ & Hx1)
    | H : insert_revision _ _ _ = (_, Ok _) |- _ => apply insert_revision_ok in H as (j & Hj & _ & _ & _ & Hx3)
    | H : replace_tags _ _ _ = _ |- _ =>
        rewrite Htags in H; apply replace_tags_ok in H as (m & Hx2 & Hother & Htags' & _); [| done | done]
    end.
  destruct (version_written (db_tables s) current n Hwf Hcur Hc Hrev) as (Hup & Hhist & Hpos).
  rewrite (Hup _ Hrow) in Hx1. rewrite Hx1 in Hx2, Hother. rewrite Hx2 in Hx3, Hother, Htags'.
  change (db_tables x4 = written (db_tables s) m n j now) in Hx3. rewrite Hx3. split; [done |].
  apply written_committed; try done. rewrite Htags, <- Htags'. by apply tags_of_ext.
Qed.

Lemma delete_writes current n expected now s s' x :
  tables_wf (db_tables s) -> stored (db_tables s) (id n) = Some current ->
  created_at_ms n = created_at_ms current -> revision n = revision current + 1 ->
  tags n = tags current ->
  (update_note n expected ;;; insert_revision n now ;;; ret (Commit n)) s = (s', Ok x) ->
  x = Commit n /\ tables_wf (db_tables s') /\ committed (db_tables s) (db_tables s') n now.
Proof.
  intros Hwf Hcur Hc Hrev Htags H. inv_ok.
  repeat match goal with
    | H : update_note _ _ _ = (_, Ok _) |- _ => apply update_note_ok in H as (row & Hrow & _ & Hi & _ & Hx1)
    | H : insert_revision _ _ _ = (_, Ok _) |- _ => apply insert_revision_ok in H as (j & Hj & _ & _ & _ & Hx3)
    end.
  destruct (version_written (db_tables s) current n Hwf Hcur Hc Hrev) as (Hup & Hhist & Hpos).
  destruct (stored_next _ _ _ Hwf Hcur) as (_ & _ & _ & _ & _ & Hof & _).
  rewrite (Hup _ Hrow) in Hx1. rewrite Hx1 in Hx3.
  change (db_tables x2 = written (db_tables s) (note_tags (db_tables s)) n j now) in Hx3. rewrite Hx3.
  split; [done |]. apply written_committed; try done. rewrite Htags, Hof. by apply tags_of_ext.
Qed.

(** The part of a mutation that follows the check of the revision. *)
Lemma save_writes_no_conflict n expected now ts :
  fails_within no_conflict
    (update_note n expected ;;; replace_tags (id n) ts ;;; insert_revision n now ;;; ret (Commit n)).
Proof.
  apply fails_within_bind; [apply update_note_no_conflict |]. intros _.
  apply fails_within_bind; [apply replace_tags_no_conflict |]. intros _.
  apply fails_within_bind; [apply insert_revision_no_conflict |]. intros _.
  apply fails_within_infallible. auto with rust_effects.
Qed.

Lemma delete_writes_no_conflict n expected now :
  fails_within no_conflict (update_note n expected ;;; insert_revision n now ;;; ret (Commit n)).
Proof.
  apply fails_within_bind; [apply update_note_no_conflict |]. intros _.
  apply fails_within_bind; [apply insert_revision_no_conflict |]. intros _.
  apply fails_within_infallible. auto with rust_effects.
Qed.

Lemma normalize_draft_no_conflict d e : normalize_draft d = Err e -> no_conflict e.
Proof.
  assert (forall ts kept e, normalize_tags kept ts = Err e -> no_conflict e) as Hno.
  { induction ts as [| tag ts IH]; intros kept e0; [done |]. cbn [normalize_tags].
    repeat case_match; try (intros [= <-]; by intros ?).
    destruct (normalize_tag_key (str_trim tag)) eqn:Hk; simpl; [by apply IH |].
    intros [= <-]. by eapply normalize_tag_key_no_conflict. }
  unfold normalize_draft. repeat case_match; try (intros [= <-]; by intros ?).
  destruct (normalize_tags [] (d_tags d)) eqn:Ht; [done |]. intros [= <-]. by eapply Hno.
Qed.

(** A transaction that loads a note, checks its revision and goes on: what it
    loaded is what the tables hold, and a conflict reports it. *)
Lemma checked_transaction i expected submitted (k : Note -> repo_mut (ending Note)) s s' r :
  (forall n, fails_within no_conflict (k n)) ->
  transaction (current <- load_note i ;;
               if negb (revision current =? expected)
               then throw (E_Conflict {| conflict_expected_revision := expected; conflict_current := current;
                                         conflict_submitted := submitted current |})
               else k current) s = (s', r) ->
  match r with
  | Ok n => exists current s0 s1 x, db_tables s0 = db_tables s /\ stored (db_tables s) i = Some current /\
      revision current = expected /\ k current s0 = (s1, Ok x) /\ n = ended x /\
      db_tables s' = match x with Commit _ => db_tables s1 | Drop _ => db_tables s end
  | Err e => db_tables s' = db_tables s /\
      forall c, e = E_Conflict c ->
        stored (db_tables s) i = Some (conflict_current c) /\ revision (conflict_current c) <> expected /\
        conflict_expected_revision c = expected /\ conflict_submitted c = submitted (conflict_current c)
  end.
Proof.
  intros Hk H. destruct r as [n | e].
  - apply Sql.transaction_ok in H as (s0 & s1 & x & Ht0 & Hb & Hn & Ht).
    apply bind_ok in Hb as (s2 & current & Hload & Hb). apply load_note_cases in Hload as [Ht2 Hcur].
    rewrite Ht0 in Ht2, Hcur. destruct (negb _) eqn:Hrev; [by apply throw_ok in Hb |].
    apply negb_false_iff, Z.eqb_eq in Hrev. by exists current, s2, s1, x.
  - apply Sql.transaction_err in H as [Ht He]. split; [done |]. intros c ->.
    destruct He as [? | (s0 & s1 & Ht0 & Hb)]; [done |]. apply bind_err in Hb as [Hload | (s2 & current & Hload & Hb)].
    { apply load_note_cases in Hload as [_ [[? _] | ?]]; done. }
    apply load_note_cases in Hload as [Ht2 Hcur]. rewrite Ht0 in Hcur. destruct (negb _) eqn:Hrev.
    + injection Hb as _ <-. by apply negb_true_iff, Z.eqb_neq in Hrev.
    + by apply Hk in Hb as Hno; destruct (Hno c).
Qed.

Lemma save_cases input now s s' r :
  tables_wf (db_tables s) -> save input now s = (s', r) ->
  match r with
  | Ok n => exists current d, normalize_draft (save_draft input) = Ok d /\
      stored (db_tables s) (save_id input) = Some current /\ revision current = save_expected_revision input /\
      ((same_draft current d = true /\ n = current /\ db_tables s' = db_tables s) \/
       (same_draft current d = false /\ n = saved_note current d now (revision current + 1) /\
        tables_wf (db_tables s') /\ committed (db_tables s) (db_tables s') n now))
  | Err e => db_tables s' = db_tables s /\
      forall c, e = E_Conflict c ->
        stored (db_tables s) (save_id input) = Some (conflict_current c) /\
        revision (conflict_current c) <> save_expected_revision input /\
        conflict_expected_revision c = save_expected_revision input /\
        normalize_draft (save_draft input) = Ok (conflict_submitted c)
  end.
Proof.
  intros Hwf H. unfold save in H. unfold bind at 1, lift at 1 in H.
  destruct (normalize_draft (save_draft input)) as [d | e] eqn:Hd.
  2:{ injection H as <- <-. split; [done |]. intros c ->. by destruct (normalize_draft_no_conflict _ _ Hd c). }
  apply (checked_transaction _ _ (fun _ => d)) in H.
  2:{ intros n. case_match; [apply fails_within_infallible; auto with rust_effects |].
      apply fails_within_bind; [apply lift_no_conflict; intros _ ?; apply next_revision_no_conflict |].
      intros rev. apply save_writes_no_conflict. }
  destruct r as [n | e]; [| destruct H as [Ht He]; split; [done |]; intros c Hc; destruct (He c Hc) as (? & ? & ? & Hs);
    split_and!; try done; by rewrite Hs].
  destruct H as (current & s0 & s1 & x & Ht0 & Hcur & Hrev & Hk & -> & Ht). exists current, d. split_and!; try done.
  destruct (same_draft current d) eqn:Hsame; [left; by apply ret_ok in Hk as [-> ->] |]. right.
  apply bind_ok in Hk as (s2 & rev & Hnext & Hk). apply lift_ok in Hnext as [-> ->%next_revision_ok].
  apply normalize_draft_ok in Hd as ((keyed & Htags & Hsorted & Hnormal) & _).
  destruct (stored_next _ _ _ Hwf Hcur) as (_ & _ & _ & _ & Hid & _).
  rewrite <- Ht0 in Hwf, Hcur. rewrite <- Hid in Hcur.
  apply (save_writes current _ _ keyed) in Hk as (-> & Hwf' & Hc); try done. rewrite Ht, <- Ht0. done.
Qed.

Definition unchanged_deletion (current : Note) (deleted : option Z) : bool :=
  eqb (deleted_at_ms current) deleted || (is_some deleted && is_some (deleted_at_ms current)).

Lemma set_deleted_cases i expected deleted now s s' r :
  tables_wf (db_tables s) -> set_deleted i expected deleted now s = (s', r) ->
  match r with
  | Ok n => exists current,
      stored (db_tables s) i = Some current /\ revision current = expected /\
      ((unchanged_deletion current deleted = true /\ n = current /\ db_tables s' = db_tables s) \/
       (unchanged_deletion current deleted = false /\ n = deleted_note current deleted now (revision current + 1) /\
        tables_wf (db_tables s') /\ committed (db_tables s) (db_tables s') n now))
  | Err e => db_tables s' = db_tables s /\
      forall c, e = E_Conflict c ->
        stored (db_tables s) i = Some (conflict_current c) /\ revision (conflict_current c) <> expected /\
        conflict_expected_revision c = expected /\ conflict_submitted c = draft_from_note (conflict_current c)
  end.
Proof.
  intros Hwf H. unfold set_deleted in H. apply (checked_transaction _ _ draft_from_note) in H.
  2:{ intros n. case_match; [apply fails_within_infallible; auto with rust_effects |].
      apply fails_within_bind; [apply lift_no_conflict; intros _ ?; apply next_revision_no_conflict |].
      intros rev. apply delete_writes_no_conflict. }
  destruct r as [n | e]; [| done].
  destruct H as (current & s0 & s1 & x & Ht0 & Hcur & Hrev & Hk & -> & Ht). exists current. split_and!; try done.
  unfold unchanged_deletion. destruct (_ || _) eqn:Hsame; [left; by apply ret_ok in Hk as [-> ->] |]. right.
  apply bind_ok in Hk as (s2 & rev & Hnext & Hk). apply lift_ok in Hnext as [-> ->%next_revision_ok].
  destruct (stored_next _ _ _ Hwf Hcur) as (_ & _ & _ & _ & Hid & _).
  rewrite <- Ht0 in Hwf, Hcur. rewrite <- Hid in Hcur.
  apply (delete_writes current) in Hk as (-> & Hwf' & Hc); try done. rewrite Ht, <- Ht0. done.
Qed.
(** ** Retention *)

Lemma purge_kept before t i r :
  notes t !! i = Some r -> expired before r = false ->
  negb (contains i (List.filter (fun p => expired before p.2) (map_to_list (notes t))).*1) = true.
Proof.
  intros Hr He. apply negb_true_iff, contains_false. intros Hin.
  apply list_elem_of_fmap in Hin as ([i' r'] & -> & Hin). apply list_elem_of_In, filter_In in Hin as [Hin He'].
  apply list_elem_of_In, elem_of_map_to_list in Hin. simpl in *. congruence.
Qed.

Lemma purge_gone before t i r :
  notes t !! i = Some r -> expired before r = true ->
  negb (contains i (List.filter (fun p => expired before p.2) (map_to_list (notes t))).*1) = false.
Proof.
  intros Hr He. apply negb_false_iff, contains_true. apply list_elem_of_fmap. exists (i, r). split; [done |].
  apply list_elem_of_In, filter_In. split; [by apply list_elem_of_In, elem_of_map_to_list | done].
Qed.

Lemma purge_note before t i r :
  notes (purge before t).1 !! i = Some r <-> notes t !! i = Some r /\ expired before r = false.
Proof. simpl. by rewrite map_lookup_filter_Some. Qed.

Lemma purge_tags_of before t i r :
  notes t !! i = Some r -> expired before r = false -> tags_of i (purge before t).1 = tags_of i t.
Proof.
  intros Hr He. apply tags_of_ext. intros k. simpl. destruct (note_tags t !! (i, k)) as [d |] eqn:Hd.
  - apply map_lookup_filter_Some. split; [done |]. by apply (purge_kept before t i r).
  - apply map_lookup_filter_None. by left.
Qed.

Lemma purge_wf before t : tables_wf t -> tables_wf (purge before t).1.
Proof.
  intros Hwf. assert (forall i, is_Some (notes t !! i) ->
    negb (contains i (List.filter (fun p => expired before p.2) (map_to_list (notes t))).*1) = true ->
    exists r, notes (purge before t).1 !! i = Some r /\ notes t !! i = Some r) as Hkept.
  { intros i [r Hr] Hk. exists r. rewrite purge_note. destruct (expired before r) eqn:He; [| done].
    by rewrite (purge_gone before t i r) in Hk. }
  split.
  - intros i r [Hr _]%purge_note. by eapply wf_rows.
  - intros i k d. simpl. rewrite map_lookup_filter_Some. intros [Hd Hk]. apply (wf_tags t Hwf) in Hd.
    destruct (Hkept i Hd Hk) as (r & Hr & _). simpl in Hr. by rewrite Hr.
  - intros i rev v. simpl. rewrite map_lookup_filter_Some. intros [Hv Hk].
    destruct (wf_history t Hwf _ _ _ Hv) as (r & Hr & Hrest). destruct (Hkept i) as (r' & Hr' & Heq); [by eexists | done |].
    exists r'. assert (r' = r) as -> by congruence. done.
  - intros i r [Hr He]%purge_note. destruct (wf_current t Hwf _ _ Hr) as (v & Hv & Hrow & Htags). exists v.
    rewrite (purge_tags_of before t i r Hr He). split_and!; [| done | done]. simpl.
    apply map_lookup_filter_Some. split; [done |]. by apply (purge_kept before t i r).
  - intros i rev v. simpl. rewrite map_lookup_filter_Some. intros [Hv _]. by eapply wf_decodes.
Qed.

(** The newest entry of a history is the first one, so it is never pruned. *)
Lemma revision_rows_elem i rev v t : (rev, v) ∈ revision_rows i t <-> note_revisions t !! (i, rev) = Some v.
Proof.
  unfold revision_rows. rewrite list_elem_of_omap. split.
  - intros ([[i' rev'] v'] & Hin & Heq). simpl in Heq. destruct (String.eqb_spec i' i) as [-> |]; [| done].
    injection Heq as -> ->. by apply elem_of_map_to_list in Hin.
  - intros Hv. exists ((i, rev), v). split; [by apply elem_of_map_to_list |]. simpl. by rewrite String.eqb_refl.
Qed.

Lemma newest_position t i r : tables_wf t -> notes t !! i = Some r -> position i (row_revision r) t = 1.
Proof.
  intros Hwf Hr. unfold position.
  replace (List.filter _ _) with (@nil (Z * RevisionRow)); [done |]. symmetry. apply elem_of_nil_inv.
  intros [rev v] Hin. apply list_elem_of_In, filter_In in Hin as [Hin Hlt]. simpl in Hlt.
  apply list_elem_of_In, revision_rows_elem in Hin. destruct (wf_history t Hwf _ _ _ Hin) as (r' & Hr' & _ & Hle).
  assert (r' = r) as -> by congruence. bool_facts. lia.
Qed.

Lemma prune_wf before keep t : 1 <= keep -> tables_wf t -> tables_wf (prune before keep t).1.
Proof.
  intros Hkeep Hwf.
  assert (forall i, tags_of i (prune before keep t).1 = tags_of i t) as Htags by (intros i; by apply tags_of_ext).
  split; simpl.
  - apply (wf_rows t Hwf).
  - apply (wf_tags t Hwf).
  - intros i rev v [Hv _]%map_lookup_filter_Some. by apply (wf_history t Hwf).
  - intros i r Hr. destruct (wf_current t Hwf _ _ Hr) as (v & Hv & Hrow & Hjson). exists v.
    rewrite Htags. split_and!; [| done | done]. simpl. apply map_lookup_filter_Some. split; [done |].
    unfold pruned. simpl. rewrite (newest_position t i r Hwf Hr), (proj2 (Z.ltb_ge keep 1) Hkeep).
    by rewrite andb_false_r.
  - intros i rev v [Hv _]%map_lookup_filter_Some. by eapply wf_decodes.
Qed.

(** What retention removes, it removes from the tables it found. *)
Definition only_removes (t t' : NotesTables) : Prop :=
  (forall k v, note_revisions t' !! k = Some v -> note_revisions t !! k = Some v) /\
  (forall i n, stored t' i = Some n -> stored t i = Some n).

Lemma only_removes_trans t1 t2 t3 : only_removes t1 t2 -> only_removes t2 t3 -> only_removes t1 t3.
Proof. intros [H1 H2] [H3 H4]. split; eauto. Qed.

Lemma purge_only_removes before t : only_removes t (purge before t).1.
Proof.
  split.
  - intros k v. simpl. by rewrite map_lookup_filter_Some; intros [? _].
  - intros i n (r & n0 & [Hr He]%purge_note & Hn & ->)%stored_some. apply stored_some. exists r, n0.
    by rewrite (purge_tags_of before t i r Hr He).
Qed.

Lemma prune_only_removes before keep t : only_removes t (prune before keep t).1.
Proof.
  split.
  - intros k v. simpl. by rewrite map_lookup_filter_Some; intros [? _].
  - intros i n (r & n0 & Hr & Hn & ->)%stored_some. apply stored_some. by exists r, n0.
Qed.

Lemma purge_and_prune_cases policy s s' r :
  tables_wf (db_tables s) -> 0 <= keep_latest_revisions policy -> apply_retention policy s = (s', r) ->
  tables_wf (db_tables s') /\ only_removes (db_tables s) (db_tables s') /\
  (is_ok r = false -> db_tables s' = db_tables s).
Proof.
  intros Hwf Hkeep H. unfold apply_retention in H.
  assert (only_removes (db_tables s) (db_tables s)) as Hrefl by done.
  destruct (keep_latest_revisions policy =? 0) eqn:Hz; [by injection H as <- <- |]. bool_facts.
  destruct r as [res | e]; [| apply Sql.transaction_err in H as [-> _]; done].
  apply Sql.transaction_ok in H as (s0 & s1 & x & Ht0 & Hb & _ & Ht). rewrite <- Ht0 in *.
  apply bind_ok in Hb as (s2 & purged & H1 & Hb). apply bind_ok in Hb as (s3 & revs & H2 & Hb).
  apply ret_ok in Hb as [-> ->]. simpl in Ht. rewrite Ht.
  assert (tables_wf (db_tables s2) /\ only_removes (db_tables s0) (db_tables s2)) as [Hwf2 Ho2].
  { destruct (purge_deleted_before_ms policy) as [before |].
    - apply Sql.execute_ok in H1. injection H1 as H1 _. rewrite <- H1.
      split; [by apply purge_wf | apply purge_only_removes].
    - by apply ret_ok in H1 as [-> _]. }
  destruct (prune_revisions_before_ms policy) as [before |].
  - apply Sql.execute_ok in H2. injection H2 as H2 _. rewrite <- H2.
    split_and!; [apply prune_wf; [lia | done] | | done].
    eapply only_removes_trans; [exact Ho2 | apply prune_only_removes].
  - apply ret_ok in H2 as [-> _]. done.
Qed.
End Facts.
