(* ===== verification/NotesHistoryFacts.v ===== *)
(** The history of a note: whatever calls are made and whatever statements
    fail, it only grows, its newest entry is the note as it stands, and what a
    call answered is what the next reads give. *)

From S2P Require Import Prelude Text Sql NotesDomain NotesModel NotesRepository NotesRepositoryFacts.

Section History.
Context {case : UnicodeCase} {json : TagsJson} {laws : TagsJsonLaws}.

(** ** Runs of calls *)

Inductive NotesCall :=
| Call_create (uuid : string) (input : NoteDraft) (now_ms : Z)
| Call_save (input : SaveNote) (now_ms : Z)
| Call_soft_delete (note_id : string) (expected_revision now_ms : Z)
| Call_restore (note_id : string) (expected_revision now_ms : Z)
| Call_retention (policy : RetentionPolicy).

(** What is left of the database after a call, answered or not. *)
Definition perform (s : NotesRepository) (c : NotesCall) : NotesRepository :=
  match c with
  | Call_create uuid input now_ms => (create uuid input now_ms s).1
  | Call_save input now_ms => (save input now_ms s).1
  | Call_soft_delete note_id expected now_ms => (soft_delete note_id expected now_ms s).1
  | Call_restore note_id expected now_ms => (restore note_id expected now_ms s).1
  | Call_retention policy => (apply_retention policy s).1
  end.
Definition after (calls : list NotesCall) (s : NotesRepository) : NotesRepository := fold_left perform calls s.

(** [keep_latest_revisions] is a [u32]. *)
Definition call_ok (c : NotesCall) : Prop :=
  match c with Call_retention policy => 0 <= keep_latest_revisions policy | _ => True end.
Definition is_retention (c : NotesCall) : Prop := match c with Call_retention _ => True | _ => False end.
#[local] Instance is_retention_dec c : Decision (is_retention c).
Proof. destruct c; apply _. Defined.
Definition created (c : NotesCall) : option string :=
  match c with Call_create uuid _ _ => Some uuid | _ => None end.

Definition empty_tables : NotesTables := {| notes := ∅; note_tags := ∅; note_revisions := ∅ |}.

Lemma empty_wf : tables_wf empty_tables.
Proof. by split. Qed.

(** One call: nothing, one new version, or a removal by retention. *)
Inductive effect (c : NotesCall) (t t' : NotesTables) : Prop :=
| Effect_none : t' = t -> effect c t t'
| Effect_version n recorded :
    committed t t' n recorded -> created c = Some (id n) -> stored t (id n) = None -> effect c t t'
| Effect_next n current recorded :
    committed t t' n recorded -> stored t (id n) = Some current -> revision n = revision current + 1 ->
    effect c t t'
| Effect_removal : is_retention c -> only_removes t t' -> effect c t t'.

Lemma set_deleted_effect c i expected deleted now s s' r :
  tables_wf (db_tables s) -> set_deleted i expected deleted now s = (s', r) ->
  tables_wf (db_tables s') /\ effect c (db_tables s) (db_tables s').
Proof.
  intros Hwf H. pose proof (set_deleted_cases _ _ _ _ _ _ _ Hwf H) as Hc. destruct r as [n | e].
  - destruct Hc as (current & Hcur & _ & [(_ & _ & ->) | (_ & -> & Hwf' & Hcommit)]); [by split; [| apply Effect_none] |].
    split; [done |]. destruct (stored_next _ _ _ Hwf Hcur) as (_ & _ & _ & _ & Hid & _). rewrite <- Hid in Hcur.
    by eapply Effect_next.
  - destruct Hc as [-> _]. by split; [| apply Effect_none].
Qed.

Lemma perform_effect c s :
  tables_wf (db_tables s) -> call_ok c ->
  tables_wf (db_tables (perform s c)) /\ effect c (db_tables s) (db_tables (perform s c)).
Proof.
  intros Hwf Hok. destruct c as [uuid input now | input now | i expected now | i expected now | policy]; simpl.
  - destruct (create uuid input now s) as [s' r] eqn:H. pose proof (create_cases _ _ _ _ _ _ Hwf H) as Hc.
    simpl. destruct r as [n | e]; [| by rewrite Hc; split; [| apply Effect_none]].
    destruct Hc as (d & _ & -> & Hnone & Hwf' & Hcommit). split; [done |]. by eapply Effect_version.
  - destruct (save input now s) as [s' r] eqn:H. pose proof (save_cases _ _ _ _ _ Hwf H) as Hc. simpl.
    destruct r as [n | e]; [| destruct Hc as [-> _]; by split; [| apply Effect_none]].
    destruct Hc as (current & d & _ & Hcur & _ & [(_ & _ & ->) | (_ & -> & Hwf' & Hcommit)]); [by split; [| apply Effect_none] |].
    split; [done |]. destruct (stored_next _ _ _ Hwf Hcur) as (_ & _ & _ & _ & Hid & _). rewrite <- Hid in Hcur.
    by eapply Effect_next.
  - unfold soft_delete. destruct (set_deleted _ _ _ _ s) as [s' r] eqn:H. by eapply set_deleted_effect.
  - unfold restore. destruct (set_deleted _ _ _ _ s) as [s' r] eqn:H. by eapply set_deleted_effect.
  - destruct (apply_retention policy s) as [s' r] eqn:H. simpl.
    destruct (purge_and_prune_cases _ _ _ _ Hwf Hok H) as (Hwf' & Ho & _). split; [done |]. by apply Effect_removal.
Qed.

Lemma after_wf calls s : tables_wf (db_tables s) -> Forall call_ok calls -> tables_wf (db_tables (after calls s)).
Proof.
  revert s. induction calls as [| c calls IH]; intros s Hwf Hok; [done |].
  apply Forall_cons in Hok as [Hc Hok]. apply (IH (perform s c)); [| done]. by apply perform_effect.
Qed.

(** How the history of a note that exists goes on. *)
Definition goes_on (i : string) (r1 : NoteRow) (t1 t2 : NotesTables) : Prop :=
  (forall rev v, note_revisions t2 !! (i, rev) = Some v ->
     note_revisions t1 !! (i, rev) = Some v \/ row_revision r1 < rev) /\
  (forall r2, notes t2 !! i = Some r2 -> row_revision r1 <= row_revision r2).

Lemma committed_note t t' n recorded :
  tables_wf t' -> committed t t' n recorded -> notes t' !! id n = Some (row_of n (revision n)).
Proof.
  intros Hwf (Hs & _). destruct (stored_next _ _ _ Hwf Hs) as (r & Hr & -> & _). done.
Qed.

Lemma other_note t t' i : tables_wf t -> tables_wf t' -> stored t' i = stored t i -> notes t' !! i = notes t !! i.
Proof.
  intros Hwf Hwf' Hs. destruct (stored t i) as [n |] eqn:Hi.
  - destruct (stored_next _ _ _ Hwf Hi) as (r & Hr & -> & _).
    destruct (stored_next _ _ _ Hwf' Hs) as (r' & Hr' & -> & _). congruence.
  - by rewrite (stored_none t i), (stored_none t' i).
Qed.

Lemma goes_on_step i r1 t1 c t t' :
  tables_wf t -> tables_wf t' -> effect c t t' -> created c <> Some i ->
  goes_on i r1 t1 t -> goes_on i r1 t1 t'.
Proof.
  intros Hwf Hwf' Heff Hnew [Hh Hr]. destruct Heff as [-> | n recorded Hc Hcr Hnone | n cur recorded Hc Hcur Hrev | _ [Ho Hos]].
  - done.
  - destruct Hc as (Hs & Hother & _ & v' & _ & Hrevs). assert (i <> id n) as Hne by congruence. split.
    + intros rev v. rewrite Hrevs, lookup_insert_ne by naive_solver. apply Hh.
    + rewrite (other_note t t' i) by auto. exact Hr.
  - pose proof (committed_note _ _ _ _ Hwf' Hc) as Hn. destruct Hc as (Hs & Hother & _ & v' & _ & Hrevs).
    destruct (decide (i = id n)) as [-> | Hne].
    + destruct (stored_next _ _ _ Hwf Hcur) as (r & Hnr & -> & _ ). pose proof (Hr _ Hnr) as Hle. simpl in Hle. split.
      * intros rev v. rewrite Hrevs, lookup_insert_Some. intros [[[= <-] _] | [_ Hv]]; [right; lia | by apply Hh].
      * intros r2 Hr2. rewrite Hn in Hr2. injection Hr2 as <-. simpl. lia.
    + split.
      * intros rev v. rewrite Hrevs, lookup_insert_ne by naive_solver. apply Hh.
      * rewrite (other_note t t' i) by auto. exact Hr.
  - split; [intros rev v Hv; apply Hh; by apply Ho |]. intros r2 Hr2.
    destruct (stored_wf t' i r2 Hwf' Hr2) as (n & Hn & -> & _). apply Hos in Hn.
    destruct (stored_next _ _ _ Hwf Hn) as (r & Hnr & -> & _). by apply Hr in Hnr.
Qed.

Lemma goes_on_after i r1 t1 calls s :
  tables_wf (db_tables s) -> Forall call_ok calls -> i ∉ omap created calls ->
  goes_on i r1 t1 (db_tables s) -> goes_on i r1 t1 (db_tables (after calls s)).
Proof.
  revert s. induction calls as [| c calls IH]; intros s Hwf Hok Hi Hg; [done |].
  apply Forall_cons in Hok as [Hc Hok]. destruct (perform_effect c s Hwf Hc) as [Hwf' Heff].
  assert (created c <> Some i /\ i ∉ omap created calls) as [Hci Hi'].
  { simpl in Hi. destruct (created c); [| done]. apply not_elem_of_cons in Hi as [? ?]. split; [congruence | done]. }
  apply (IH (perform s c)); [done | done | done |]. by apply (goes_on_step i r1 t1 c (db_tables s)).
Qed.

(** Only retention removes an entry. *)
Lemma entry_kept c s k v :
  tables_wf (db_tables s) -> call_ok c -> ~ is_retention c ->
  note_revisions (db_tables s) !! k = Some v -> note_revisions (db_tables (perform s c)) !! k = Some v.
Proof.
  intros Hwf Hok Hr Hv. destruct (perform_effect c s Hwf Hok) as [_ [-> | n recorded Hc _ _ | n cur recorded Hc _ _ | ? _]];
    [done | | | done]; destruct Hc as (_ & _ & Hfree & v' & _ & ->); rewrite lookup_insert_ne; congruence.
Qed.

Lemma entries_kept calls s k v :
  tables_wf (db_tables s) -> Forall call_ok calls -> Forall (fun c => ~ is_retention c) calls ->
  note_revisions (db_tables s) !! k = Some v -> note_revisions (db_tables (after calls s)) !! k = Some v.
Proof.
  revert s. induction calls as [| c calls IH]; intros s Hwf Hok Hr Hv; [done |].
  apply Forall_cons in Hok as [Hc Hok]. apply Forall_cons in Hr as [Hrc Hr].
  apply (IH (perform s c)); [by apply perform_effect | done | done |]. by apply entry_kept.
Qed.

(** C21: The history of a note is append-only. Take any calls on an empty database,
    with any statements failing, and stop at any point at which note [i]
    exists. In whatever calls follow, an entry of its history is as it was, or
    is gone and retention was among the calls; and an entry that was not there
    bears a greater revision than the note had. At the end, as at every point,
    the tables are well formed: for every note the newest entry is the note as
    it stands, tags and entries belong to notes that exist, and every entry can
    be read. A note's UUID is not given to another. *)
Theorem history_is_append_only faults calls1 calls2 i r1 :
  Forall call_ok calls1 -> Forall call_ok calls2 ->
  let s1 := after calls1 (Build_Db empty_tables faults) in
  let s2 := after calls2 s1 in
  notes (db_tables s1) !! i = Some r1 -> i ∉ omap created calls2 ->
  tables_wf (db_tables s2) /\
  forall rev,
    match note_revisions (db_tables s1) !! (i, rev), note_revisions (db_tables s2) !! (i, rev) with
    | Some v1, Some v2 => v2 = v1
    | Some _, None => Exists is_retention calls2
    | None, Some _ => row_revision r1 < rev
    | None, None => True
    end.
Proof.
  intros Hok1 Hok2 s1 s2 Hr1 Hi.
  assert (tables_wf (db_tables s1)) as Hwf1 by (apply after_wf; [apply empty_wf | done]).
  split; [by apply after_wf |]. intros rev.
  assert (goes_on i r1 (db_tables s1) (db_tables s2)) as [Hh _].
  { apply goes_on_after; try done. split; [by left | intros r2 Hr2; simplify_eq; lia]. }
  destruct (note_revisions (db_tables s1) !! (i, rev)) as [v1 |] eqn:H1;
    destruct (note_revisions (db_tables s2) !! (i, rev)) as [v2 |] eqn:H2.
  - destruct (Hh _ _ H2) as [Heq | Hlt]; [congruence |].
    destruct (wf_history _ Hwf1 _ _ _ H1) as (r & Hr & _ & Hle). assert (r = r1) as -> by congruence. lia.
  - destruct (decide (Exists is_retention calls2)) as [He | He]; [done |].
    apply not_Exists_Forall in He; [| intros c; apply is_retention_dec].
    pose proof (entries_kept calls2 s1 _ _ Hwf1 Hok2 He H1) as Hk. unfold s2 in H2. congruence.
  - destruct (Hh _ _ H2) as [Heq | Hlt]; [congruence | done].
  - done.
Qed.
(** ** Reading back *)

Lemma newest_first l :
  StronglySorted newer l -> NoDup l.*1 -> StronglySorted Z.gt l.*1.
Proof.
  induction l as [| p l IH]; intros Hs Hn; [constructor |].
  apply StronglySorted_inv in Hs as [Hs Hp]. apply NoDup_cons in Hn as [Hnp Hn].
  constructor; [by apply IH |]. apply Forall_fmap, Forall_forall. intros q Hq. simpl.
  rewrite Forall_forall in Hp. pose proof (Hp q Hq) as Hle. unfold newer in Hle.
  assert (p.1 <> q.1); [| lia]. intros He. apply Hnp. rewrite He. apply list_elem_of_fmap. by exists q.
Qed.

Lemma revision_rows_nodup i t : NoDup (revision_rows i t).*1.
Proof.
  unfold revision_rows. pose proof (NoDup_fst_map_to_list (note_revisions t)) as Hn. revert Hn.
  generalize (map_to_list (note_revisions t)) as l.
  induction l as [| [[j k] d] l IH]; intros Hl; [constructor |].
  apply NoDup_cons in Hl as [Hk Hl]. simpl in Hk |- *.
  destruct (String.eqb_spec j i) as [-> |]; simpl; [| by apply IH]. constructor; [| by apply IH].
  intros Hin. apply Hk. apply list_elem_of_fmap in Hin as ([k' d'] & Heq & Hin). simpl in Heq. subst k'.
  apply list_elem_of_omap in Hin as ([[j' k'] e] & Hin & Heq). simpl in Heq.
  destruct (String.eqb_spec j' i) as [-> |]; [| done]. injection Heq as -> ->.
  apply list_elem_of_fmap. by exists ((i, k), d').
Qed.

Definition history_rows (i : string) (t : NotesTables) : list (Z * RevisionRow) :=
  merge_sort newer (revision_rows i t).

Lemma history_rows_sorted i t : StronglySorted Z.gt (history_rows i t).*1.
Proof.
  apply newest_first.
  - apply StronglySorted_merge_sort; unfold newer; [intros x y z | intros x y]; lia.
  - unfold history_rows. rewrite merge_sort_Permutation. apply revision_rows_nodup.
Qed.

Lemma history_rows_elem i t rev v : (rev, v) ∈ history_rows i t <-> note_revisions t !! (i, rev) = Some v.
Proof. unfold history_rows. by rewrite merge_sort_Permutation, revision_rows_elem. Qed.

Lemma revision_from_row_revision i v x :
  revision_from_row i v = Some x -> revision (rev_note x) = row_revision (rv_row v).
Proof.
  unfold revision_from_row. destruct (tags_from_str _) as [ts |]; [| done]. simpl.
  destruct (note_from_row i (rv_row v)) as [n |] eqn:Hn; [| done]. intros [= <-]. simpl.
  by apply note_from_row_some in Hn as (_ & _ & -> & _).
Qed.

Lemma decoded_history i t :
  tables_wf t -> exists l, mapM (revision_from_row i) (history_rows i t).*2 = Some l /\
    ((fun x => revision (rev_note x)) <$> l) = (history_rows i t).*1.
Proof.
  intros Hwf.
  assert (Forall (fun p => note_revisions t !! (i, p.1) = Some p.2) (history_rows i t)) as Hall.
  { apply Forall_forall. intros [rev v] Hp. by apply history_rows_elem. }
  setoid_rewrite mapM_Some. induction (history_rows i t) as [| [rev v] l IH]; [by exists []; split; [constructor |] |].
  apply Forall_cons in Hall as [Hv Hall]. destruct (IH Hall) as (l' & Hm & Hl').
  destruct (wf_decodes t Hwf _ _ _ Hv) as [x Hx]. destruct (wf_history t Hwf _ _ _ Hv) as (r & _ & Hrev & _).
  exists (x :: l'). split; [by constructor |].
  rewrite !fmap_cons, Hl'. f_equal. simpl. rewrite (revision_from_row_revision _ _ _ Hx). exact Hrev.
Qed.

Lemma history_head i t r :
  tables_wf t -> notes t !! i = Some r ->
  exists v l, history_rows i t = (row_revision r, v) :: l /\ note_revisions t !! (i, row_revision r) = Some v /\
    rv_row v = r /\ tags_from_str (rv_tags_json v) = Some (tags_of i t).
Proof.
  intros Hwf Hr. destruct (wf_current t Hwf _ _ Hr) as (v & Hv & Hrow & Htags).
  pose proof (proj2 (history_rows_elem i t _ _) Hv) as Hin. pose proof (history_rows_sorted i t) as Hs.
  assert (forall rev w, (rev, w) ∈ history_rows i t -> rev <= row_revision r) as Hmax.
  { intros rev w Hw%history_rows_elem. destruct (wf_history t Hwf _ _ _ Hw) as (r' & Hr' & _ & Hle).
    assert (r' = r) as -> by congruence. lia. }
  destruct (history_rows i t) as [| [rev w] l]; [by apply elem_of_nil in Hin |].
  apply elem_of_cons in Hin as [[= <- <-] | Hin]; [by exists v, l |].
  exfalso. simpl in Hs. apply StronglySorted_inv in Hs as [_ Hs]. rewrite Forall_forall in Hs.
  assert (rev > row_revision r); [apply Hs; apply list_elem_of_fmap; by exists (row_revision r, v) |].
  pose proof (Hmax rev w ltac:(by left)). lia.
Qed.

Lemma stored_reads_back t i n :
  tables_wf t -> stored t i = Some n ->
  get i (Build_Db t []) = (Build_Db t [], Ok n) /\
  exists l, revisions i (Build_Db t []) = (Build_Db t [], Ok l) /\ rev_note <$> head l = Some n /\
    StronglySorted Z.gt ((fun x => revision (rev_note x)) <$> l).
Proof.
  intros Hwf Hs. pose proof Hs as (r & n0 & Hr & Hn0 & Hn)%stored_some. split.
  - unfold get, load_note, bind, lift, load_tags, select, Sql.select, Sql.execute. simpl. rewrite Hr. simpl.
    rewrite Hn0. simpl. by rewrite Hn.
  - destruct (decoded_history i t Hwf) as (l & Hm & Hl). exists l. split_and!.
    + unfold revisions, note_exists, bind, lift, select, Sql.select, Sql.execute. simpl. rewrite Hr. simpl.
      fold (history_rows i t). by rewrite Hm.
    + destruct (history_head i t r Hwf Hr) as (v & l' & Hh & Hv & Hrow & Htags). rewrite Hh in Hm.
      apply mapM_Some in Hm. inversion Hm as [| ? x ? ? Hx]; subst. simpl in Hx |- *.
      unfold revision_from_row in Hx. rewrite Htags in Hx. simpl in Hx. rewrite Hn0 in Hx. simpl in Hx.
      by injection Hx as <-.
    + rewrite Hl. apply history_rows_sorted.
Qed.

(** What a mutation answers, the next reads give: when [create], [save],
    [soft_delete] or [restore] answers a note on tables that are well formed,
    [get] answers that same note - tags, order of tags and all - and
    [revisions] answers its history, newest first, beginning with that note,
    if no statement of the reads fails. *)
Theorem written_note_reads_back s s' n :
  tables_wf (db_tables s) ->
  (exists uuid input now, create uuid input now s = (s', Ok n)) \/
  (exists input now, save input now s = (s', Ok n)) \/
  (exists i expected now, soft_delete i expected now s = (s', Ok n)) \/
  (exists i expected now, restore i expected now s = (s', Ok n)) ->
  let quiet := Build_Db (db_tables s') [] in
  get (id n) quiet = (quiet, Ok n) /\
  exists l, revisions (id n) quiet = (quiet, Ok l) /\ rev_note <$> head l = Some n /\
    StronglySorted Z.gt ((fun x => revision (rev_note x)) <$> l).
Proof.
  intros Hwf H. assert (tables_wf (db_tables s') /\ stored (db_tables s') (id n) = Some n) as [Hwf' Hs];
    [| by apply stored_reads_back].
  assert (forall i expected deleted now, set_deleted i expected deleted now s = (s', Ok n) ->
            tables_wf (db_tables s') /\ stored (db_tables s') (id n) = Some n) as Hdel.
  { intros i expected deleted now Hd. apply set_deleted_cases in Hd as (cur & Hcur & _ & Hd); [| done].
    destruct (stored_next _ _ _ Hwf Hcur) as (_ & _ & _ & _ & Hid & _).
    destruct Hd as [(_ & -> & ->) | (_ & -> & Hw & Hc & _)]; [by rewrite Hid | done]. }
  destruct H as [(uuid & input & now & H) | [(input & now & H) | [(i & e & now & H) | (i & e & now & H)]]].
  - apply create_cases in H as (d & _ & -> & _ & Hw & Hc & _); [done | done].
  - apply save_cases in H as (cur & d & _ & Hcur & _ & H); [| done].
    destruct (stored_next _ _ _ Hwf Hcur) as (_ & _ & _ & _ & Hid & _).
    destruct H as [(_ & -> & ->) | (_ & -> & Hw & Hc & _)]; [by rewrite Hid | done].
  - by eapply Hdel.
  - by eapply Hdel.
Qed.

(** A save is a compare-and-swap on the revision the client read. It answers
    only if the note was at the expected revision, and then, with what
    [normalize_draft] makes of the draft, either that is what the note already
    said and nothing is written, or the note is that draft at the next revision,
    never updated before it was, recorded in its history, and no other note
    changes. On any error, a conflict or a failed statement, the tables are as
    they were; a conflict is answered exactly for a note at another revision and
    carries that note and the draft that was submitted, so neither is lost. *)
Theorem note_save_is_compare_and_swap input now s s' r :
  tables_wf (db_tables s) -> save input now s = (s', r) ->
  match r with
  | Ok n => exists current d, normalize_draft (save_draft input) = Ok d /\
      stored (db_tables s) (save_id input) = Some current /\ revision current = save_expected_revision input /\
      if same_draft current d
      then n = current /\ db_tables s' = db_tables s
      else n = saved_note current d now (revision current + 1) /\ updated_at_ms current <= updated_at_ms n /\
           committed (db_tables s) (db_tables s') n now
  | Err e => db_tables s' = db_tables s /\
      forall c, e = E_Conflict c ->
        stored (db_tables s) (save_id input) = Some (conflict_current c) /\
        revision (conflict_current c) <> save_expected_revision input /\
        conflict_expected_revision c = save_expected_revision input /\
        normalize_draft (save_draft input) = Ok (conflict_submitted c)
  end.
Proof.
  intros Hwf H. apply save_cases in H; [| done]. destruct r as [n | e]; [| done].
  destruct H as (current & d & Hd & Hcur & Hrev & H). exists current, d. split_and!; try done.
  destruct H as [(-> & -> & Ht) | (-> & -> & _ & Hc)]; [done |]. split_and!; [done | simpl; lia | done].
Qed.
End History.

(** ** Witnesses *)

(** A text for lists of strings. *)
Fixpoint quote_tag (s rest : string) : string :=
  match s with
  | EmptyString => String "-" rest
  | String a s => String "+" (String a (quote_tag s rest))
  end.
Definition quote_tags (ts : list string) : string := fold_right quote_tag EmptyString ts.
Fixpoint unquote_tags (s : string) : option (list string) :=
  match s with
  | EmptyString => Some []
  | String "-" s => l ← unquote_tags s; Some ("" :: l)
  | String "+" (String a s) =>
      l ← unquote_tags s;
      match l with
      | t :: l => Some (String a t :: l)
      | [] => None
      end
  | _ => None
  end%string.

#[local] Instance quoted_tags : TagsJson :=
  { tags_to_string := fun ts => Some (quote_tags ts); tags_from_str := unquote_tags }.
#[local] Instance quoted_tags_laws : TagsJsonLaws.
Proof.
  split. intros ts s [= <-]. change (unquote_tags (quote_tags ts) = Some ts).
  induction ts as [| t ts IH]; [done |]. change (unquote_tags (quote_tag t (quote_tags ts)) = Some (t :: ts)).
  induction t as [| a t IHt]; simpl; [by rewrite IH | by rewrite IHt].
Qed.
#[local] Instance ascii_case : UnicodeCase := { to_lowercase := ascii_lowercase }.

Definition plan_draft (body : string) : NoteDraft :=
  {| d_title := "plan"; d_body_markdown := body; d_diary_date := Some "2026-02-28";
     d_tags := ["work"; " Home "; "HOME"]; d_status := St_Active; d_pinned := false |}.
Definition plan_created : list NotesCall := [Call_create "n1" (plan_draft "one") 100].
Definition plan_goes_on : list NotesCall :=
  [Call_save {| save_id := "n1"; save_expected_revision := 1; save_draft := plan_draft "two" |} 200;
   Call_soft_delete "n1" 2 300; Call_restore "n1" 3 250;
   Call_retention {| purge_deleted_before_ms := Some 1000; prune_revisions_before_ms := Some 250;
                     keep_latest_revisions := 1 |}].
(** The second statement of the deletion fails, and it is asked for again. *)
Definition plan_faults : list bool := repeat false 22 ++ [true].

Lemma history_is_append_only_witness :
  exists r1, notes (db_tables (after plan_created (Build_Db empty_tables plan_faults))) !! "n1"%string = Some r1 /\
  tables_wf (db_tables (after plan_goes_on (after plan_created (Build_Db empty_tables plan_faults)))).
Proof.
  destruct (notes (db_tables (after plan_created (Build_Db empty_tables plan_faults))) !! "n1"%string) as [r1 |] eqn:Hr.
  - exists r1. split; [reflexivity |].
    refine (proj1 (history_is_append_only plan_faults plan_created plan_goes_on "n1" r1 _ _ Hr _)).
    + repeat constructor.
    + repeat constructor. unfold call_ok, keep_latest_revisions. lia.
    + apply not_elem_of_nil.
  - exfalso. revert Hr. vm_compute. discriminate.
Defined.

Lemma written_note_reads_back_witness :
  exists s' n, create "n1" (plan_draft "one") 100 (Build_Db empty_tables []) = (s', Ok n) /\
    get (id n) (Build_Db (db_tables s') []) = (Build_Db (db_tables s') [], Ok n).
Proof.
  destruct (create "n1" (plan_draft "one") 100 (Build_Db empty_tables [])) as [s' [n | e]] eqn:Hc.
  - exists s', n. split; [reflexivity |].
    refine (proj1 (written_note_reads_back (Build_Db empty_tables []) s' n empty_wf _)).
    left. exists "n1"%string, (plan_draft "one"), 100. exact Hc.
  - exfalso. revert Hc. vm_compute. discriminate.
Defined.

Lemma note_save_is_compare_and_swap_witness :
  let s := after plan_created (Build_Db empty_tables []) in
  exists r s', save {| save_id := "n1"; save_expected_revision := 1; save_draft := plan_draft "two" |} 200 s = (s', r) /\
    is_ok r = true /\ match r with
                      | Ok n => exists current, stored (db_tables s) "n1" = Some current /\ revision current = 1
                      | Err _ => False
                      end.
Proof.
  assert (tables_wf (db_tables (after plan_created (Build_Db empty_tables [])))) as Hwf.
  { apply after_wf; [apply empty_wf | repeat constructor]. }
  destruct (save {| save_id := "n1"; save_expected_revision := 1; save_draft := plan_draft "two" |} 200
              (after plan_created (Build_Db empty_tables []))) as [s' r] eqn:Hs.
  exists r, s'. split; [exact Hs |].
  pose proof (note_save_is_compare_and_swap _ _ _ _ _ Hwf Hs) as Hc. destruct r as [n | e].
  - split; [reflexivity |]. destruct Hc as (current & _ & _ & Hcur & Hrev & _). exists current. split; [exact Hcur | exact Hrev].
  - exfalso. revert Hs. vm_compute. discriminate.
Defined.

(** What the calls of the witness leave: the two oldest entries are pruned. *)
Example plan_history :
  let t := db_tables (after plan_goes_on (after plan_created (Build_Db empty_tables []))) in
  fst <$> history_rows "n1" t = [4; 3] /\ (updated_at_ms <$> stored t "n1") = Some 300.
Proof. vm_compute. by split. Qed.

(** * Queries: what a query answers is a slice of one listing, sorted, of the
    notes it is about. *)

(** A visitor fed with notes, one after the other. *)
Fixpoint feed {V} (visitor : Note -> mut V unit NotesError) (l : list Note) : mut V unit NotesError :=
  match l with
  | [] => ret tt
  | n :: l' => visitor n ;;; feed visitor l'
  end.

Definition collect (n : Note) : mut (list Note) unit NotesError := modify (fun l => l ++ [n]).

Lemma feed_collect l l0 : feed collect l l0 = (l0 ++ l, Ok tt).
Proof.
  revert l0. induction l as [| n l IH]; intros l0; simpl; [by rewrite app_nil_r |].
  unfold bind, collect at 1, modify. by rewrite IH, <- app_assoc.
Qed.

(** The notes of some rows of the table. *)
Definition rows_of (t : NotesTables) (rows : list (string * NoteRow)) : Prop :=
  Forall (fun p => notes t !! p.1 = Some p.2) rows.
Definition are_stored (t : NotesTables) (rows : list (string * NoteRow)) (l : list Note) : Prop :=
  Forall2 (fun p n => stored t p.1 = Some n) rows l.

Section Query.
Context {case : UnicodeCase} {json : TagsJson}.

Lemma in_repo_select {V A} (f : NotesTables -> A) (s : NotesRepository) (v : V) s' v' r :
  in_repo (select f) (s, v) = ((s', v'), r) ->
  db_tables s' = db_tables s /\ v' = v /\
  match r with Ok a => a = f (db_tables s) | Err e => e = E_Sql end.
Proof.
  unfold in_repo, zoom. simpl. destruct (select f s) as [s1 r1] eqn:H. intros [= <- <- <-].
  destruct r1 as [a | e]; [apply Sql.select_ok in H as [? ?] | apply Sql.execute_err in H as [? ?]]; auto.
Qed.

(** What the loop over the rows does: it feeds the visitor with the notes of the
    rows, until a statement fails. *)
Lemma visit_rows_cases {V} (visitor : Note -> mut V unit NotesError) rows s v s' v' r :
  rows_of (db_tables s) rows -> visit_rows visitor rows (s, v) = ((s', v'), r) ->
  db_tables s' = db_tables s /\
  match r with
  | Ok _ => exists l, are_stored (db_tables s) rows l /\ feed visitor l v = (v', Ok tt)
  | Err e => e = E_Sql \/ exists l n v1, feed visitor l v = (v1, Ok tt) /\ visitor n v1 = (v', Err e)
  end.
Proof.
  revert s v. induction rows as [| [i row] rows IH]; intros s v Hrows H; cbn [visit_rows] in H.
  - apply in_repo_select in H as (Ht & -> & Hr). split; [done |]. destruct r; [| by left].
    exists []. by split; [constructor |].
  - apply Forall_cons in Hrows as [Hrow Hrows]. simpl in Hrow. unfold bind at 1 in H.
    destruct (in_repo (select (fun _ => tt)) (s, v)) as [[s1 v1] r1] eqn:H1.
    apply in_repo_select in H1 as (Ht1 & -> & Hr1). destruct r1 as [[] | e]; [| injection H as <- <- <-; by split; [| left]].
    unfold bind at 1, lift in H. destruct (note_from_row i row) as [n |] eqn:Hn;
      [| injection H as <- <- <-; by split; [| left]].
    simpl in H. unfold bind at 1 in H. destruct (in_repo (load_tags i) (s1, v)) as [[s2 v2] r2] eqn:H2.
    apply in_repo_select in H2 as (Ht2 & -> & Hr2). rewrite Ht1 in Ht2.
    destruct r2 as [ts | e]; [| injection H as <- <- <-; by split; [| left]].
    unfold bind at 1, in_visitor, zoom in H. simpl in H.
    assert (stored (db_tables s) i = Some (with_tags ts n)) as Hst.
    { unfold stored. rewrite Hrow. simpl. rewrite Hn. simpl. by rewrite Hr2, Ht1. }
    destruct (visitor (with_tags ts n) v) as [v3 [[] | e]] eqn:Hv.
    + apply IH in H as [Ht Hr]; [| by rewrite Ht2]. rewrite Ht2 in Ht, Hr. split; [done |].
      destruct r as [u | e].
      * destruct Hr as (l & Hl & Hf). exists (with_tags ts n :: l). split; [by constructor |].
        simpl. unfold bind. by rewrite Hv.
      * destruct Hr as [-> | (l & n' & v4 & Hf & He)]; [by left | right].
        exists (with_tags ts n :: l), n', v4. simpl. unfold bind. by rewrite Hv.
    + injection H as <- <- <-. split; [done |]. right. by exists [], (with_tags ts n), v.
Qed.

(** Without failing statements. *)
Lemma visit_rows_quiet {V} (visitor : Note -> mut V unit NotesError) t rows v :
  tables_wf t -> rows_of t rows ->
  exists l, are_stored t rows l /\
    visit_rows visitor rows (Build_Db t [], v) =
    (let (v', r) := feed visitor l v in ((Build_Db t [], v'), r)).
Proof.
  intros Hwf. revert v. induction rows as [| [i row] rows IH]; intros v Hrows.
  { exists []. by split; [constructor |]. }
  apply Forall_cons in Hrows as [Hrow Hrows]. simpl in Hrow.
  destruct (stored_wf t i row Hwf Hrow) as (n & Hn & _). pose proof Hn as (row' & n0 & Hr' & Hn0 & Htags)%stored_some.
  assert (row' = row) as -> by congruence.
  destruct (visitor n v) as [v1 [[] | e]] eqn:Hv.
  - destruct (IH v1 Hrows) as (l & Hl & Hf). exists (n :: l). split; [by constructor |].
    cbn [visit_rows feed]. unfold bind, in_repo, in_visitor, zoom, lift, load_tags, select, Sql.select, Sql.execute.
    simpl. rewrite Hn0. simpl. fold (tags_of i t). rewrite <- Htags, Hv. exact Hf.
  - destruct (IH v Hrows) as (l & Hl & _). exists (n :: l). split; [by constructor |].
    cbn [visit_rows feed]. unfold bind, in_repo, in_visitor, zoom, lift, load_tags, select, Sql.select, Sql.execute.
    simpl. rewrite Hn0. simpl. fold (tags_of i t). by rewrite <- Htags, Hv.
Qed.

Lemma listing_rows q keys t : rows_of t (listing q keys t).
Proof.
  apply Forall_forall. intros [i r] Hp. unfold listing in Hp. rewrite merge_sort_Permutation in Hp.
  apply list_elem_of_In, filter_In in Hp as [Hp _]. by apply list_elem_of_In, elem_of_map_to_list in Hp.
Qed.

Lemma page_rows_rows q keys t : rows_of t (page_rows q keys t).
Proof. unfold page_rows, rows_of. apply Forall_take, Forall_drop, listing_rows. Qed.

Lemma visit_query_cases {V} (visitor : Note -> mut V unit NotesError) q s v s' v' r :
  visit_query visitor q (s, v) = ((s', v'), r) ->
  db_tables s' = db_tables s /\
  match r with
  | Ok _ => validate_query q = Ok tt /\ exists keys l, tag_keys (q_tags q) = Ok keys /\
      are_stored (db_tables s) (page_rows q keys (db_tables s)) l /\ feed visitor l v = (v', Ok tt)
  | Err e => validate_query q = Err e \/ tag_keys (q_tags q) = Err e \/ e = E_Sql \/
      exists l n v1, feed visitor l v = (v1, Ok tt) /\ visitor n v1 = (v', Err e)
  end.
Proof.
  unfold visit_query, bind at 1, lift at 1. destruct (validate_query q) as [[] | e] eqn:Hq;
    [| intros [= <- <- <-]; auto].
  unfold bind at 1, lift. destruct (tag_keys (q_tags q)) as [keys | e] eqn:Hk; [| intros [= <- <- <-]; auto].
  unfold bind at 1. destruct (in_repo (select (page_rows q keys)) (s, v)) as [[s1 v1] r1] eqn:H1.
  apply in_repo_select in H1 as (Ht1 & -> & Hr1). destruct r1 as [rows | e]; [| intros [= <- <- <-]; auto 6].
  subst rows. intros H. apply visit_rows_cases in H as [Ht Hr]; [| rewrite Ht1; apply page_rows_rows].
  rewrite Ht1 in *. split; [done |]. destruct r as [u | e].
  - split; [done |]. destruct Hr as (l & Hl & Hf). by exists keys, l.
  - destruct Hr as [-> | Hr]; auto.
Qed.

Lemma visit_query_quiet {V} (visitor : Note -> mut V unit NotesError) q keys t v :
  tables_wf t -> validate_query q = Ok tt -> tag_keys (q_tags q) = Ok keys ->
  exists l, are_stored t (page_rows q keys t) l /\
    visit_query visitor q (Build_Db t [], v) = (let (v', r) := feed visitor l v in ((Build_Db t [], v'), r)).
Proof.
  intros Hwf Hq Hk. destruct (visit_rows_quiet visitor t (page_rows q keys t) v Hwf (page_rows_rows q keys t))
    as (l & Hl & Hv). exists l. split; [done |]. rewrite <- Hv. unfold visit_query, bind, lift. rewrite Hq, Hk. done.
Qed.

Lemma query_cases q s s' r :
  query q s = (s', r) ->
  db_tables s' = db_tables s /\
  match r with
  | Ok l => validate_query q = Ok tt /\ exists keys, tag_keys (q_tags q) = Ok keys /\
      are_stored (db_tables s) (page_rows q keys (db_tables s)) l
  | Err e => validate_query q = Err e \/ tag_keys (q_tags q) = Err e \/ e = E_Sql
  end.
Proof.
  unfold query. fold collect. destruct (visit_query _ q (s, [])) as [[s1 l1] r1] eqn:H. intros Hr.
  apply (visit_query_cases collect) in H as [Ht H]. destruct r1 as [u | e]; injection Hr as <- <-.
  - destruct H as (Hq & keys & l & Hk & Hl & Hf). rewrite feed_collect in Hf. injection Hf as <-.
    split; [done |]. split; [done |]. by exists keys.
  - split; [done |]. destruct H as [H | [H | [H | (l & n & v1 & _ & H)]]]; auto. done.
Qed.

Lemma query_quiet q keys t :
  tables_wf t -> validate_query q = Ok tt -> tag_keys (q_tags q) = Ok keys ->
  exists l, are_stored t (page_rows q keys t) l /\ query q (Build_Db t []) = (Build_Db t [], Ok l).
Proof.
  intros Hwf Hq Hk. destruct (visit_query_quiet collect q keys t [] Hwf Hq Hk) as (l & Hl & Hv).
  exists l. split; [done |]. unfold query. fold collect. rewrite Hv, feed_collect. done.
Qed.

(** ** The order *)

#[export] Instance by_date_desc_order : TotalPreorder by_date_desc.
Proof.
  unfold by_date_desc. split.
  - intros [x |] [y |]; simpl; try done. apply compare_opp.
  - intros [x |] [y |] [z |]; simpl; try done. intros H1 H2. by apply (compare_le_trans z y x).
Qed.

Lemma order_preorder sort : TotalPreorder (order sort).
Proof.
  assert (forall f : NoteRow -> Z, TotalPreorder (fun p q : string * NoteRow => f q.2 ?= f p.2)) as Hdesc.
  { intros f. exact (compare_on (fun x y => y ?= x) (fun p : string * NoteRow => f p.2) _). }
  assert (TotalPreorder (fun p q : string * NoteRow =>
            String.compare (ascii_lowercase (row_title p.2)) (ascii_lowercase (row_title q.2)))) as Htitle
    by exact (compare_on String.compare (fun p : string * NoteRow => ascii_lowercase (row_title p.2)) _).
  assert (TotalPreorder (fun p q : string * NoteRow =>
            by_date_desc (row_diary_date p.2) (row_diary_date q.2))) as Hdate
    by exact (compare_on by_date_desc (fun p : string * NoteRow => row_diary_date p.2) _).
  assert (TotalPreorder (fun p q : string * NoteRow => String.compare p.1 q.1)) as Hid
    by exact (compare_on String.compare fst _).
  pose proof (Hdesc (fun r => flag (row_pinned r))) as Hpin.
  pose proof (Hdesc row_updated_at_ms) as Hup. pose proof (Hdesc row_created_at_ms) as Hcr.
  destruct sort.
  - exact (compare_then _ _ Hpin (compare_then _ _ Hup Hid)).
  - exact (compare_then _ _ Hpin (compare_then _ _ Hcr Hid)).
  - exact (compare_then _ _ Hpin (compare_then _ _ Htitle Hid)).
  - exact (compare_then _ _ Hpin (compare_then _ _ (compare_then _ _ Hdate Hup) Hid)).
Qed.

Lemma listing_sorted q keys t : StronglySorted (ordered (q_sort q)) (listing q keys t).
Proof. eapply merge_sort_sorted; [apply (order_preorder (q_sort q)) | done]. Qed.

Lemma listing_elem q keys t i r :
  (i, r) ∈ listing q keys t <-> notes t !! i = Some r /\ selected q keys t i r = true.
Proof.
  unfold listing. rewrite merge_sort_Permutation, list_elem_of_In, filter_In, <- list_elem_of_In. simpl.
  by rewrite elem_of_map_to_list.
Qed.

Lemma listing_nodup q keys t : NoDup (listing q keys t).*1.
Proof.
  unfold listing. rewrite merge_sort_Permutation. pose proof (NoDup_fst_map_to_list (notes t)) as Hn. revert Hn.
  generalize (map_to_list (notes t)) as l. induction l as [| p l IH]; intros Hl; [constructor |].
  apply NoDup_cons in Hl as [Hp Hl]. simpl. destruct (selected q keys t p.1 p.2); [| by apply IH].
  constructor; [| by apply IH]. intros Hin. apply Hp. apply list_elem_of_fmap in Hin as (p' & He & Hin).
  apply list_elem_of_In, filter_In in Hin as [Hin _]. apply list_elem_of_fmap. exists p'.
  split; [done | by apply list_elem_of_In].
Qed.

Lemma are_stored_exists t rows : tables_wf t -> rows_of t rows -> exists l, are_stored t rows l.
Proof. intros Hwf Hr. destruct (visit_rows_quiet collect t rows [] Hwf Hr) as (l & Hl & _). by exists l. Qed.

Lemma are_stored_unique t rows l l' : are_stored t rows l -> are_stored t rows l' -> l = l'.
Proof.
  intros Hl. revert l'. induction Hl as [| p n rows l Hp Hl IH]; intros l' Hl'; inversion Hl'; subst; [done |].
  f_equal; [congruence | auto].
Qed.

Lemma are_stored_page q keys t all l :
  are_stored t (listing q keys t) all -> are_stored t (page_rows q keys t) l ->
  l = firstn (Z.to_nat (q_limit q)) (skipn (Z.to_nat (q_offset q)) all).
Proof.
  intros Hall Hl. eapply are_stored_unique; [exact Hl |]. unfold page_rows. by apply Forall2_take, Forall2_drop.
Qed.

(** A query answers exactly: on tables that are well formed, and if no
    statement fails, a query that passes validation is answered with the notes
    from [offset] on, at most [limit] of them, of one listing; the listing has
    every note the query selects, once, and no other, in an order that is total
    - pinned notes first, then as the sort says, then by identifier - so that
    pages never overlap. *)
Theorem query_answers_a_sorted_slice q keys t :
  tables_wf t -> validate_query q = Ok tt -> tag_keys (q_tags q) = Ok keys ->
  exists all l,
    query q (Build_Db t []) = (Build_Db t [], Ok l) /\
    l = firstn (Z.to_nat (q_limit q)) (skipn (Z.to_nat (q_offset q)) all) /\
    are_stored t (listing q keys t) all /\
    StronglySorted (ordered (q_sort q)) (listing q keys t) /\
    NoDup (listing q keys t).*1 /\
    (forall i r, (i, r) ∈ listing q keys t <-> notes t !! i = Some r /\ selected q keys t i r = true) /\
    (forall p p', ordered (q_sort q) p p' -> ordered (q_sort q) p' p -> p.1 = p'.1).
Proof.
  intros Hwf Hq Hk. destruct (are_stored_exists t (listing q keys t) Hwf (listing_rows q keys t)) as [all Hall].
  destruct (query_quiet q keys t Hwf Hq Hk) as (l & Hl & Hrun). exists all, l.
  split_and!; [done | by eapply are_stored_page | done | apply listing_sorted | apply listing_nodup | apply listing_elem |].
  intros p p' H1 H2. unfold ordered in H1, H2. pose proof (order_preorder (q_sort q)) as Ho.
  rewrite (compare_opp p p') in H2. destruct (order (q_sort q) p p') eqn:He; [| done | done].
  unfold order in He. destruct (_ ?= _) in He; [| done | done]. simpl in He.
  destruct (match q_sort q with Sort_UpdatedDesc => _ | _ => _ end) in He; [| done | done].
  by apply String.compare_eq_iff in He.
Qed.
End Query.

#[local] Existing Instance quoted_tags.
#[local] Existing Instance quoted_tags_laws.
#[local] Existing Instance ascii_case.

Definition all_notes : NoteQuery :=
  {| q_search := Some " PLAN "; q_diary_date_from := Some "2026-02-01"; q_diary_date_to := Some "2026-02-28";
     q_tags := ["work"]; q_status := Some St_Active; q_deleted := Del_Exclude; q_sort := Sort_DiaryDateDesc;
     q_limit := 10; q_offset := 0 |}.

Definition plan_tables : NotesTables := db_tables (after plan_created (Build_Db empty_tables [])).

Lemma plan_tables_wf : tables_wf plan_tables.
Proof. apply after_wf; [apply empty_wf | repeat constructor]. Qed.

Lemma query_answers_a_sorted_slice_witness :
  exists l, query all_notes (Build_Db plan_tables []) = (Build_Db plan_tables [], Ok l) /\ (id <$> l) = ["n1"%string].
Proof.
  assert (tag_keys (q_tags all_notes) = Ok ["work"%string]) as Hk by (vm_compute; reflexivity).
  destruct (query_answers_a_sorted_slice all_notes ["work"%string] plan_tables plan_tables_wf eq_refl Hk)
    as (all & l & Hl & _). exists l. split; [exact Hl |].
  assert ((match (query all_notes (Build_Db plan_tables [])).2 with Ok l => id <$> l | Err _ => [] end) = ["n1"%string]) as Hid
    by (vm_compute; reflexivity).
  rewrite Hl in Hid. exact Hid.
Defined.
