(* ===== verification/NotesService.v ===== *)
(** [crates/notes/src/export.rs] and [service.rs]: the commands of the daemon's
    clients, bodies uploaded in chunks, and bounded exports.

    The fragments serde_json writes for a note, base64 and SHA-256 are
    parameters. An [Instant] is a number of nanoseconds; [uuid] is the
    [Uuid::new_v4] of a call. *)
From stdpp Require Import pretty.
From S2P Require Import Prelude Text Encoding NotesDomain NotesModel Sql NotesRepository.

(** ** Exports *)

Inductive ExportFormat := Markdown | Json.
#[export] Instance ExportFormat_eq_dec : EqDecision ExportFormat.
Proof. solve_decision. Defined.

Definition EXPORT_SCHEMA : string := "localdesk.notes.export.v1".
Definition EXPORT_LIMIT_FIELD : string := "export".
Definition EXPORT_LIMIT_REASON : string := "serialized export exceeds transport budget".

(** What [serde_json::to_writer] writes for a note, fragment by fragment, and
    whether it then succeeds; [serde_json::to_string] of a text. *)
Class NoteJson := {
  note_fragments : Note -> list string * bool;
  text_to_string : string -> option string;
}.

Record BoundedExporter := {
  ex_format : ExportFormat;
  ex_max_bytes : Z;
  ex_note_count : Z;
  ex_content : string;
}.

Definition with_content (c : string) (e : BoundedExporter) : BoundedExporter :=
  {| ex_format := ex_format e; ex_max_bytes := ex_max_bytes e; ex_note_count := ex_note_count e;
     ex_content := c |}.
Definition count_note (e : BoundedExporter) : BoundedExporter :=
  {| ex_format := ex_format e; ex_max_bytes := ex_max_bytes e; ex_note_count := ex_note_count e + 1;
     ex_content := ex_content e |}.

Abbreviation exporter_mut A := (mut BoundedExporter A NotesError).

Definition export_too_large : NotesError := E_Validation EXPORT_LIMIT_FIELD EXPORT_LIMIT_REASON.
Definition is_export_too_large (e : NotesError) : bool :=
  match e with
  | E_Validation field reason => String.eqb field EXPORT_LIMIT_FIELD && String.eqb reason EXPORT_LIMIT_REASON
  | _ => false
  end.

(** [checked_add] of lengths. *)
Definition checked_len (content fragment : string) : option Z := checked_u64 (len content + len fragment).

Definition append (fragment : string) : exporter_mut unit :=
  required <- lift (fun e => ok_or export_too_large (checked_len (ex_content e) fragment)) ;;
  lift (fun e => fail_if ex_max_bytes e <? required with export_too_large in Ok tt) ;;;
  modify (fun e => with_content (ex_content e +:+ fragment) e).

Fixpoint append_all (fragments : list string) : exporter_mut unit :=
  match fragments with
  | [] => ret tt
  | f :: fragments' => append f ;;; append_all fragments'
  end.

(** The double quote. *)
Definition quote : string := String (ascii_of_N 34) EmptyString.
Definition quoted (s : string) : string := quote +:+ s +:+ quote.

Definition new_exporter (format : ExportFormat) (max_bytes : Z) : result BoundedExporter NotesError :=
  let exporter := {| ex_format := format; ex_max_bytes := max_bytes; ex_note_count := 0; ex_content := "" |} in
  match format with
  | Json =>
      match append_all ["{" +:+ quoted "schema" +:+ ":" +:+ quote; EXPORT_SCHEMA;
                        quote +:+ "," +:+ quoted "notes" +:+ ":["]%string exporter with
      | (e, Ok _) => Ok e
      | (_, Err e) => Err e
      end
  | Markdown => Ok exporter
  end.

(** [BoundedStringWriter]: what is written before the limit stays. *)
Fixpoint write_fragments (limit : Z) (content : string) (fragments : list string) : string * bool :=
  match fragments with
  | [] => (content, false)
  | f :: fragments' =>
      match checked_len content f with
      | None => (content, true)
      | Some required =>
          if limit <? required then (content, true)
          else write_fragments limit (content +:+ f) fragments'
      end
  end.

Section Exporting.
Context `{TagsJson} `{NoteJson}.

Definition push_json (n : Note) : exporter_mut unit :=
  fun e =>
    if ex_max_bytes e <? 2 then (e, Err export_too_large)
    else
      let (fragments, ok) := note_fragments n in
      let (content, overflowed) := write_fragments (ex_max_bytes e - 2) (ex_content e) fragments in
      (with_content content e,
       if overflowed then Err export_too_large else if ok then Ok tt else Err E_Json).

Definition markdown_fragments (n : Note) (title_text tags_text revision_text : string) : list string :=
  ["---" +:+ String newline "schema: "; EXPORT_SCHEMA;
   String newline "id: "; id n;
   String newline "revision: "; revision_text;
   String newline "status: "; NoteStatus_as_str (status n);
   String newline "diary_date: "; default "null" (diary_date n);
   String newline "tags: "; tags_text;
   String newline "title: "; title_text;
   String newline ("---" +:+ String newline (String newline "# ")); title n;
   String newline (String newline ""); body_markdown n]%string.

(** [revision.to_string()]. *)
Definition decimal (n : Z) : string := pretty n.

Definition push_markdown (n : Note) : exporter_mut unit :=
  title_text <- lift (fun _ => ok_or E_Json (text_to_string (title n))) ;;
  tags_text <- lift (fun _ => ok_or E_Json (tags_to_string (tags n))) ;;
  append_all (markdown_fragments n title_text tags_text (decimal (revision n))).

Definition separator (format : ExportFormat) (note_count : Z) : string :=
  if note_count =? 0 then ""
  else match format with
       | Json => ","
       | Markdown => String newline (String newline ("---" +:+ String newline (String newline "")))
       end.

Definition push (n : Note) : exporter_mut unit :=
  fun e =>
    match append (separator (ex_format e) (ex_note_count e)) e with
    | (e1, Err error) => (e1, Err error)
    | (e1, Ok _) =>
        match match ex_format e1 with Json => push_json n e1 | Markdown => push_markdown n e1 end with
        | (e2, Err error) => (with_content (str_take (String.length (ex_content e)) (ex_content e2)) e2, Err error)
        | (e2, Ok _) => (count_note e2, Ok tt)
        end
    end.

Definition finish (e : BoundedExporter) : result string NotesError :=
  let? e := match ex_format e with
            | Json => match append "]}" e with (e', Ok _) => Ok e' | (_, Err error) => Err error end
            | Markdown => Ok e
            end in
  if valid_utf8 (bytes (ex_content e)) then Ok (ex_content e)
  else Err (E_CorruptData "export" "invalid utf-8").
End Exporting.

(** ** The service *)

Definition NOTE_UPLOAD_IDLE_TTL : Z := 60 * 1000000000.

Record PendingUpload := {
  up_intent : NoteWriteIntent;
  up_meta : NoteDraftMeta;
  up_expected_total_bytes : Z;
  up_expected_sha256 : string;
  up_bytes : list Z;
  up_next_sequence : Z;
  up_last_activity : Z;
}.

Record NotesService := {
  repository : NotesRepository;
  uploads : gmap Z PendingUpload;
  reserved_staged_bytes : Z;
  accepting_uploads : bool;
}.

Inductive NotesServiceError :=
| InvalidCommand (reason : string)
| Repository (error : NotesError)
| UploadCapacity | UploadNotFound | UploadSequence | UploadOffset | UploadChunk | UploadLength
| UploadHash | UploadUtf8 | UploadClosed | ExportTooLarge.

Definition reason_code (e : NotesServiceError) : string :=
  match e with
  | InvalidCommand reason => reason
  | Repository (E_NotFound _) => "note_not_found"
  | Repository (E_UnsupportedSchema _ _) => "notes_schema_unsupported"
  | Repository (E_MigrationBackup reason) => reason
  | Repository (E_Conflict _) => "note_revision_conflict"
  | Repository (E_Validation _ _) => "note_validation_failed"
  | Repository (E_CorruptData _ _) => "notes_database_corrupt"
  | Repository (E_Sql | E_Json) => "notes_storage_failed"
  | UploadCapacity => "note_upload_capacity_exceeded"
  | UploadNotFound => "note_upload_not_found"
  | UploadSequence => "note_upload_sequence_invalid"
  | UploadOffset => "note_upload_offset_invalid"
  | UploadChunk => "note_upload_chunk_invalid"
  | UploadLength => "note_upload_length_mismatch"
  | UploadHash => "note_upload_hash_mismatch"
  | UploadUtf8 => "note_upload_utf8_invalid"
  | UploadClosed => "note_uploads_closed"
  | ExportTooLarge => "note_export_too_large"
  end.

Definition retryable (e : NotesServiceError) : bool :=
  match e with Repository E_Sql | UploadCapacity => true | _ => false end.

Abbreviation service_mut A := (mut NotesService A NotesServiceError).

Definition NotesService_new (r : NotesRepository) : NotesService :=
  {| repository := r; uploads := ∅; reserved_staged_bytes := 0; accepting_uploads := true |}.
Definition with_repository (r : NotesRepository) (s : NotesService) : NotesService :=
  {| repository := r; uploads := uploads s; reserved_staged_bytes := reserved_staged_bytes s;
     accepting_uploads := accepting_uploads s |}.
Definition with_uploads (u : gmap Z PendingUpload) (reserved : Z) (s : NotesService) : NotesService :=
  {| repository := repository s; uploads := u; reserved_staged_bytes := reserved;
     accepting_uploads := accepting_uploads s |}.

(** A repository operation, its error as the service's. *)
Definition on_repository {A} (m : mut NotesRepository A NotesError) : mut NotesService A NotesError :=
  zoom repository with_repository m.

Definition note_status (s : NotesDomain.NoteStatus) : NoteStatus :=
  match s with
  | Draft => St_Draft | Active => St_Active | Completed => St_Completed | Archived => St_Archived
  end.
Definition public_status (s : NoteStatus) : NotesDomain.NoteStatus :=
  match s with
  | St_Draft => Draft | St_Active => Active | St_Completed => Completed | St_Archived => Archived
  end.

Definition repository_query (q : NotesDomain.NoteQuery) : NoteQuery :=
  {| q_search := query_search q; q_diary_date_from := query_diary_date_from q;
     q_diary_date_to := query_diary_date_to q; q_tags := query_tags q;
     q_status := note_status <$> query_status q;
     q_deleted := match query_deleted q with
                  | Exclude => Del_Exclude | Include => Del_Include | Only => Del_Only
                  end;
     q_sort := match query_sort q with
               | UpdatedDesc => Sort_UpdatedDesc | CreatedDesc => Sort_CreatedDesc
               | TitleAsc => Sort_TitleAsc | DiaryDateDesc => Sort_DiaryDateDesc
               end;
     q_limit := query_limit q; q_offset := query_offset q |}.
Definition with_limit (limit : Z) (q : NoteQuery) : NoteQuery :=
  {| q_search := q_search q; q_diary_date_from := q_diary_date_from q; q_diary_date_to := q_diary_date_to q;
     q_tags := q_tags q; q_status := q_status q; q_deleted := q_deleted q; q_sort := q_sort q;
     q_limit := limit; q_offset := q_offset q |}.

Section Service.
Context `{UuidFormat} `{UnicodeCase} `{TagsJson} `{NoteJson} `{Base64} `{Sha256}.

Definition as_u32 (n : Z) : Z := n mod 4294967296.

Definition note_summary (n : Note) : NoteSummary :=
  {| sum_id := id n; sum_title := title n; sum_diary_date := diary_date n; sum_tags := tags n;
     sum_status := public_status (status n); sum_pinned := pinned n; sum_created_at_ms := created_at_ms n;
     sum_updated_at_ms := updated_at_ms n; sum_deleted_at_ms := deleted_at_ms n;
     sum_revision := revision n; sum_body_bytes := as_u32 (len (body_markdown n));
     sum_body_sha256 := sha256_hex (bytes (body_markdown n)) |}.
Definition note_document (n : Note) : NoteDocument :=
  {| doc_summary := note_summary n; doc_body_markdown := body_markdown n |}.

(** A mutation that conflicts is an answer, not an error. *)
Definition mutation (m : mut NotesService Note NotesError) (f : NoteSummary -> NoteMutationResult)
  : service_mut NotesOutput :=
  fun s =>
    match m s with
    | (s', Ok n) => (s', Ok (O_Mutation (f (note_summary n))))
    | (s', Err (E_Conflict c)) =>
        (s', Ok (O_Mutation (Conflict (conflict_expected_revision c) (note_summary (conflict_current c)))))
    | (s', Err e) => (s', Err (Repository e))
    end.

Definition list_notes (q : NotesDomain.NoteQuery) : service_mut NotesOutput :=
  found <- mut_map_err Repository (on_repository (query (with_limit (query_limit q + 1) (repository_query q)))) ;;
  let has_more := query_limit q <? Z.of_nat (length found) in
  let found := if has_more then firstn (Z.to_nat (query_limit q)) found else found in
  let summaries := note_summary <$> found in
  let page := {| page_query := q; page_notes := summaries; page_has_more := has_more;
                 page_next_offset := if has_more
                                     then checked_u32 (query_offset q + as_u32 (Z.of_nat (length summaries)))
                                     else None |} in
  lift (fun _ => map_err InvalidCommand (NotePage_validate page)) ;;;
  ret (O_Page page).

Definition get_note (note_id : string) : service_mut NotesOutput :=
  n <- mut_map_err Repository (on_repository (get note_id)) ;;
  lift (fun _ => map_err InvalidCommand (NoteDocument_validate (note_document n))) ;;;
  ret (O_Document (note_document n)).

Definition delete_note (note_id : string) (expected_revision now_ms : Z) : service_mut NotesOutput :=
  mutation (on_repository (soft_delete note_id expected_revision now_ms)) Deleted.
Definition restore_note (note_id : string) (expected_revision now_ms : Z) : service_mut NotesOutput :=
  mutation (on_repository (restore note_id expected_revision now_ms)) Restored.

Definition map_export_error (e : NotesError) : NotesServiceError :=
  if is_export_too_large e then ExportTooLarge else Repository e.

(** [visit_query] with the exporter as the visitor. *)
Definition export_query (q : NoteQuery) (e : BoundedExporter) : mut NotesRepository BoundedExporter NotesError :=
  fun r =>
    match visit_query push q (r, e) with
    | ((r', e'), Ok _) => (r', Ok e')
    | ((r', _), Err error) => (r', Err error)
    end.

Definition export (q : NotesDomain.NoteQuery) (format : NoteExportFormat) : service_mut NotesOutput :=
  exporter <- lift (fun _ => map_err map_export_error
    (new_exporter match format with Export_Markdown => Markdown | Export_Json => Json end MAX_NOTE_EXPORT_BYTES)) ;;
  exporter <- mut_map_err map_export_error (on_repository (export_query (repository_query q) exporter)) ;;
  content <- lift (fun _ => map_err map_export_error (finish exporter)) ;;
  ret (O_Export {| export_format := format; export_content := content;
                   export_content_bytes := as_u32 (len content);
                   export_content_sha256 := sha256_hex (bytes content) |}).

(** ** Uploads *)

Definition remove_upload (upload_id : Z) (s : NotesService) : NotesService * option PendingUpload :=
  match uploads s !! upload_id with
  | None => (s, None)
  | Some u =>
      (with_uploads (delete upload_id (uploads s))
         (Z.max 0 (reserved_staged_bytes s - up_expected_total_bytes u)) s, Some u)
  end.

Definition discard (upload_id : Z) : service_mut unit := modify (fun s => fst (remove_upload upload_id s)).

Definition begin_upload (uuid : Z) (intent : NoteWriteIntent) (meta : NoteDraftMeta)
    (expected_total_bytes : Z) (expected_sha256 : string) (now : Z) : service_mut NotesOutput :=
  lift (fun s => fail_if negb (accepting_uploads s) with UploadClosed in Ok tt) ;;;
  lift (fun s =>
    fail_if (MAX_NOTE_UPLOAD_SESSIONS <=? Z.of_nat (size (uploads s)))
            || is_none_or (fun total => MAX_NOTE_STAGED_BYTES <? total)
                 (checked_u64 (reserved_staged_bytes s + expected_total_bytes))
      with UploadCapacity in Ok tt) ;;;
  modify (fun s => with_uploads
    (<[uuid := {| up_intent := intent; up_meta := meta; up_expected_total_bytes := expected_total_bytes;
                  up_expected_sha256 := expected_sha256; up_bytes := []; up_next_sequence := 0;
                  up_last_activity := now |}]> (uploads s))
    (reserved_staged_bytes s + expected_total_bytes) s) ;;;
  ret (O_Mutation (UploadBegun uuid NOTE_CONTENT_CHUNK_BYTES)).

Definition with_chunk (decoded : list Z) (u : PendingUpload) : PendingUpload :=
  {| up_intent := up_intent u; up_meta := up_meta u; up_expected_total_bytes := up_expected_total_bytes u;
     up_expected_sha256 := up_expected_sha256 u; up_bytes := up_bytes u ++ decoded;
     up_next_sequence := up_next_sequence u; up_last_activity := up_last_activity u |}.
Definition with_progress (next_sequence now : Z) (u : PendingUpload) : PendingUpload :=
  {| up_intent := up_intent u; up_meta := up_meta u; up_expected_total_bytes := up_expected_total_bytes u;
     up_expected_sha256 := up_expected_sha256 u; up_bytes := up_bytes u;
     up_next_sequence := next_sequence; up_last_activity := now |}.
Definition set_upload (upload_id : Z) (u : PendingUpload) : service_mut unit :=
  modify (fun s => with_uploads (<[upload_id := u]> (uploads s)) (reserved_staged_bytes s) s).

Definition append_upload (upload_id sequence offset : Z) (data_base64 : string) (now : Z)
  : service_mut NotesOutput :=
  match base64_decode data_base64 with
  | Some (b :: decoded) =>
      let decoded := b :: decoded in
      if Z.of_nat (length decoded) <=? NOTE_CONTENT_CHUNK_BYTES then
        u <- lift (fun s => ok_or UploadNotFound (uploads s !! upload_id)) ;;
        if negb (sequence =? up_next_sequence u) then discard upload_id ;;; throw UploadSequence
        else if negb (offset =? Z.of_nat (length (up_bytes u))) then discard upload_id ;;; throw UploadOffset
        else if up_expected_total_bytes u <? Z.of_nat (length (up_bytes u) + length decoded)
        then discard upload_id ;;; throw UploadLength
        else
          let u := with_chunk decoded u in
          set_upload upload_id u ;;;
          next_sequence <- lift (fun _ => ok_or UploadSequence (checked_u32 (up_next_sequence u + 1))) ;;
          let u := with_progress next_sequence now u in
          set_upload upload_id u ;;;
          ret (O_Mutation (UploadAccepted upload_id next_sequence (as_u32 (Z.of_nat (length (up_bytes u))))))
      else discard upload_id ;;; throw UploadChunk
  | _ => discard upload_id ;;; throw UploadChunk
  end.

Definition draft_of (meta : NoteDraftMeta) (body : string) : NoteDraft :=
  {| d_title := meta_title meta; d_body_markdown := body; d_diary_date := meta_diary_date meta;
     d_tags := meta_tags meta; d_status := note_status (meta_status meta); d_pinned := meta_pinned meta |}.

Definition commit_draft (uuid : Z) (intent : NoteWriteIntent) (meta : NoteDraftMeta) (body : string)
    (now_ms : Z) : service_mut NotesOutput :=
  if MAX_NOTE_BODY_BYTES <? len body then throw (InvalidCommand "note_body_exceeds_4_mib")
  else
    mutation
      (on_repository match intent with
         | Create => create (uuid_to_string uuid) (draft_of meta body) now_ms
         | Save note_id expected_revision _ =>
             save {| save_id := note_id; save_expected_revision := expected_revision;
                     save_draft := draft_of meta body |} now_ms
         end)
      Stored.

Definition take_upload (upload_id : Z) : service_mut PendingUpload :=
  fun s => let (s', u) := remove_upload upload_id s in (s', ok_or UploadNotFound u).

Definition commit_upload (uuid upload_id : Z) (intent : NoteWriteIntent) (now_ms : Z) : service_mut NotesOutput :=
  u <- take_upload upload_id ;;
  if negb (eqb (up_intent u) intent) then throw (InvalidCommand "note_upload_intent_mismatch")
  else if negb (Z.of_nat (length (up_bytes u)) =? up_expected_total_bytes u) then throw UploadLength
  else if negb (String.eqb (sha256_hex (up_bytes u)) (up_expected_sha256 u)) then throw UploadHash
  else if negb (valid_utf8 (up_bytes u)) then throw UploadUtf8
  else commit_draft uuid (up_intent u) (up_meta u) (string_of_bytes (up_bytes u)) now_ms.

Definition abort_upload (upload_id : Z) : service_mut NotesOutput :=
  discard upload_id ;;; ret (O_Mutation (UploadAborted upload_id)).

Definition expired_upload (now : Z) (u : PendingUpload) : bool :=
  (up_last_activity u <=? now) && (NOTE_UPLOAD_IDLE_TTL <=? now - up_last_activity u).

Definition cleanup_expired (now : Z) (s : NotesService) : NotesService * Z :=
  let gone := (List.filter (fun p => expired_upload now p.2) (map_to_list (uploads s))).*1 in
  (fold_left (fun s upload_id => fst (remove_upload upload_id s)) gone s, Z.of_nat (length gone)).

Definition execute (uuid : Z) (command : NotesCommand) (now_ms now : Z) : service_mut NotesOutput :=
  lift (fun _ => map_err InvalidCommand (NotesCommand_validate command)) ;;;
  modify (fun s => fst (cleanup_expired now s)) ;;;
  match command with
  | C_List q => list_notes q
  | C_Get note_id => get_note note_id
  | C_WriteInline intent meta body => commit_draft uuid intent meta body now_ms
  | C_Delete note_id expected_revision => delete_note note_id expected_revision now_ms
  | C_Restore note_id expected_revision => restore_note note_id expected_revision now_ms
  | C_Export q format => export q format
  | C_UploadBegin intent meta expected_total_bytes body_sha256 =>
      begin_upload uuid intent meta expected_total_bytes body_sha256 now
  | C_UploadAppend upload_id sequence offset data_base64 =>
      append_upload upload_id sequence offset data_base64 now
  | C_UploadCommit upload_id intent => commit_upload uuid upload_id intent now_ms
  | C_UploadAbort upload_id => abort_upload upload_id
  end.

Definition begin_shutdown (s : NotesService) : NotesService :=
  {| repository := repository s; uploads := uploads s; reserved_staged_bytes := reserved_staged_bytes s;
     accepting_uploads := false |}.

Definition shutdown : service_mut unit :=
  modify begin_shutdown ;;;
  modify (with_uploads ∅ 0) ;;;
  mut_map_err Repository (on_repository (select (fun _ => tt))).
End Service.
