(* ===== verification/NotesUploadFacts.v ===== *)
(** Uploads: what is staged is what was reserved, and a body uploaded in chunks
    is the body written in one piece. *)
From S2P Require Import Prelude Text Encoding NotesDomain NotesModel Sql NotesRepository NotesRepositoryFacts NotesHistoryFacts NotesService.

(** The bytes the pending uploads were promised. *)
Definition staged (u : gmap Z PendingUpload) : Z := sum_map (fun _ => up_expected_total_bytes) u.
Definition held (u : gmap Z PendingUpload) : Z := sum_map (fun _ x => Z.of_nat (length (up_bytes x))) u.

Definition upload_ok (u : PendingUpload) : Prop :=
  Z.of_nat (length (up_bytes u)) <= up_expected_total_bytes u <= MAX_NOTE_BODY_BYTES /\
  0 <= up_next_sequence u <= Z.of_nat (length (up_bytes u)).

Record uploads_wf (s : NotesService) : Prop := {
  uw_sum : staged (uploads s) = reserved_staged_bytes s;
  uw_total : reserved_staged_bytes s <= MAX_NOTE_STAGED_BYTES;
  uw_count : Z.of_nat (size (uploads s)) <= MAX_NOTE_UPLOAD_SESSIONS;
  uw_each : map_Forall (fun _ => upload_ok) (uploads s);
}.

Lemma staged_nonneg m : map_Forall (fun _ => upload_ok) m -> 0 <= staged m.
Proof. intros Hm. apply sum_map_nonneg. intros i u Hi. destruct (Hm i u Hi) as [? _]. lia. Qed.

(** [remove_upload] gives back exactly what was reserved. *)
Lemma remove_upload_wf i s : uploads_wf s -> uploads_wf (fst (remove_upload i s)).
Proof.
  intros [Hs Ht Hc He]. unfold remove_upload. destruct (uploads s !! i) as [u |] eqn:Hi; [| done]. simpl.
  assert (map_Forall (fun _ => upload_ok) (delete i (uploads s))) as He' by by apply map_Forall_delete.
  pose proof (staged_nonneg _ He').
  pose proof (sum_map_delete (fun _ => up_expected_total_bytes) _ _ _ Hi : staged _ = _ + staged _). destruct (He i u Hi) as [Hu _].
  split; simpl; [lia | lia | | done]. rewrite map_size_delete_Some by (by eexists). lia.
Qed.

Lemma remove_uploads_wf l s : uploads_wf s -> uploads_wf (fold_left (fun s i => fst (remove_upload i s)) l s).
Proof. revert s. induction l as [| i l IH]; intros s Hs; simpl; [done |]. by apply IH, remove_upload_wf. Qed.

Lemma cleanup_wf now s : uploads_wf s -> uploads_wf (fst (cleanup_expired now s)).
Proof. apply remove_uploads_wf. Qed.

(** Programs that leave the uploads as they are. *)
Definition upload_state (s : NotesService) : gmap Z PendingUpload * Z * bool :=
  (uploads s, reserved_staged_bytes s, accepting_uploads s).

Lemma uploads_wf_state s s' : upload_state s' = upload_state s -> uploads_wf s -> uploads_wf s'.
Proof. intros [= Hu Hr _] [? ? ? ?]. split; rewrite ?Hu, ?Hr; done. Qed.

Lemma on_repository_state {A} (m : mut NotesRepository A NotesError) : preserves upload_state (on_repository m).
Proof.
  unfold on_repository, zoom. intros s s' r H. destruct (m (repository s)) as [r' x]. by injection H as <- _.
Qed.

Lemma map_err_state {A} (f : NotesError -> NotesServiceError) (m : mut NotesService A NotesError) :
  preserves upload_state m -> preserves upload_state (mut_map_err f m).
Proof.
  unfold mut_map_err. intros Hm s s' r H. destruct (m s) as [s1 x] eqn:H1. injection H as <- _. by eapply Hm.
Qed.

Section Uploads.
Context {format : UuidFormat} {case : UnicodeCase} {json : TagsJson} {njson : NoteJson} {b64 : Base64} {sha : Sha256}.

Lemma mutation_state m f : preserves upload_state m -> preserves upload_state (mutation m f).
Proof.
  unfold mutation. intros Hm s s' r H. destruct (m s) as [s1 [n | e]] eqn:H1.
  - injection H as <- _. by eapply Hm.
  - destruct e; injection H as <- _; by eapply Hm.
Qed.

Lemma commit_draft_state uuid intent meta body now_ms : preserves upload_state (commit_draft uuid intent meta body now_ms).
Proof.
  unfold commit_draft. case_match; [apply preserves_read_only; solve_effects |].
  apply mutation_state, on_repository_state.
Qed.

Lemma list_notes_state q : preserves upload_state (list_notes q).
Proof.
  unfold list_notes. apply preserves_bind; [apply map_err_state, on_repository_state |].
  intros found. apply preserves_read_only. solve_effects.
Qed.

Lemma get_note_state i : preserves upload_state (get_note i).
Proof.
  unfold get_note. apply preserves_bind; [apply map_err_state, on_repository_state |].
  intros n. apply preserves_read_only. solve_effects.
Qed.

Lemma export_state q f : preserves upload_state (export q f).
Proof.
  unfold export. apply preserves_bind; [apply preserves_read_only; solve_effects |]. intros e.
  apply preserves_bind; [apply map_err_state, on_repository_state |].
  intros e'. apply preserves_read_only. solve_effects.
Qed.

(** ** Operations on uploads *)

Lemma discard_wf i s s' r : uploads_wf s -> discard i s = (s', r) -> uploads_wf s'.
Proof. intros Hs [= <- _]. by apply remove_upload_wf. Qed.

Lemma begin_upload_wf uuid intent meta expected sha_text now s s' r :
  uploads_wf s -> uploads s !! uuid = None -> 0 <= expected <= MAX_NOTE_BODY_BYTES ->
  begin_upload uuid intent meta expected sha_text now s = (s', r) -> uploads_wf s'.
Proof.
  intros Hs Hfree Hex. unfold begin_upload, bind, lift, modify.
  destruct (negb (accepting_uploads s)); [by intros [= <- _] |]. simpl.
  destruct (MAX_NOTE_UPLOAD_SESSIONS <=? Z.of_nat (size (uploads s))) eqn:Hc; [by intros [= <- _] |]. simpl.
  destruct (checked_u64 _) as [total |] eqn:Ht; [| by intros [= <- _]]. simpl.
  apply checked_u64_some in Ht as [-> _].
  destruct (MAX_NOTE_STAGED_BYTES <? _) eqn:Hm; [by intros [= <- _] |]. intros [= <- _]. bool_facts.
  destruct Hs as [Hsum Htot Hcount Heach]. split; simpl.
  - unfold staged in *. rewrite sum_map_fresh by done. simpl. lia.
  - lia.
  - rewrite map_size_insert_None by done. lia.
  - apply map_Forall_insert_2; [| done]. split; simpl; lia.
Qed.

Lemma set_upload_wf i u u' s s' r :
  uploads_wf s -> uploads s !! i = Some u -> up_expected_total_bytes u' = up_expected_total_bytes u ->
  upload_ok u' -> set_upload i u' s = (s', r) -> uploads_wf s'.
Proof.
  intros [Hsum Htot Hcount Heach] Hi He Hok [= <- _]. split; simpl.
  - unfold staged in *. rewrite (sum_map_update _ _ i u) by done. lia.
  - done.
  - rewrite map_size_insert_Some by (by eexists). done.
  - by apply map_Forall_insert_2.
Qed.

Lemma append_upload_wf i sequence offset data now s s' r :
  uploads_wf s -> append_upload i sequence offset data now s = (s', r) -> uploads_wf s'.
Proof.
  intros Hs. unfold append_upload.
  assert (forall e s1 (r1 : result NotesOutput NotesServiceError),
    (discard i ;;; throw e) s = (s1, r1) -> uploads_wf s1) as Hdiscard.
  { intros e s1 r1 H. unfold bind in H. destruct (discard i s) as [s2 [[] | e2]] eqn:Hd;
      injection H as <- _; by eapply discard_wf. }
  destruct (base64_decode data) as [[| b decoded] |]; try apply Hdiscard.
  destruct (_ <=? NOTE_CONTENT_CHUNK_BYTES); [| apply Hdiscard].
  unfold bind at 1, lift at 1. destruct (uploads s !! i) as [u |] eqn:Hi; simpl; [| by intros [= <- _]].
  destruct (negb (sequence =? _)); [apply Hdiscard |]. destruct (negb (offset =? _)); [apply Hdiscard |].
  destruct (up_expected_total_bytes u <? _) eqn:Hlen; [apply Hdiscard |]. bool_facts.
  destruct (uw_each s Hs i u Hi) as [Hu1 Hu2].
  assert (upload_ok (with_chunk (b :: decoded) u)) as Hok.
  { unfold upload_ok, with_chunk. simpl. rewrite length_app. simpl in *. lia. }
  unfold bind at 1. destruct (set_upload i _ s) as [s1 r1] eqn:H1.
  pose proof H1 as Hw. eapply set_upload_wf in Hw; [| done | done | done | done].
  injection H1 as <- <-. unfold bind at 1, lift at 1. simpl.
  destruct (checked_u32 (up_next_sequence u + 1)) as [n |] eqn:Hn; simpl; [| by intros [= <- _]].
  assert (n = up_next_sequence u + 1) as -> by (unfold checked_u32 in Hn; case_match; congruence).
  unfold bind. destruct (set_upload i _ _) as [s2 r2] eqn:H2. intros H.
  eapply set_upload_wf in H2; [| done | simpl; by rewrite lookup_insert_eq | done |].
  - destruct r2; injection H as <- _; done.
  - unfold upload_ok, with_chunk. simpl. rewrite length_app. simpl in *. lia.
Qed.

Lemma take_upload_wf i s s' r : uploads_wf s -> take_upload i s = (s', r) -> uploads_wf s'.
Proof.
  intros Hs. unfold take_upload. pose proof (remove_upload_wf i s Hs) as Hw.
  destruct (remove_upload i s) as [s1 u]. by intros [= <- _].
Qed.

Lemma commit_upload_wf uuid i intent now_ms s s' r :
  uploads_wf s -> commit_upload uuid i intent now_ms s = (s', r) -> uploads_wf s'.
Proof.
  intros Hs. unfold commit_upload, bind at 1. destruct (take_upload i s) as [s1 [u | e]] eqn:H1;
    apply take_upload_wf in H1 as Hw; try done; [| by intros [= <- _]].
  repeat (case_match; [by intros [= <- _] |]). intros Hc. apply commit_draft_state in Hc. by eapply uploads_wf_state.
Qed.

(** ** Requests *)

Record Request := { req_uuid : Z; req_command : NotesCommand; req_now_ms : Z; req_now : Z }.
Definition respond (s : NotesService) (q : Request) : NotesService :=
  fst (execute (req_uuid q) (req_command q) (req_now_ms q) (req_now q) s).

(** An [expected_total_bytes] is a [u32]. *)
Definition request_ok (q : Request) : Prop :=
  match req_command q with C_UploadBegin _ _ expected _ => 0 <= expected | _ => True end.

(** A new upload has an identifier of its own. *)
Definition fresh (s : NotesService) (q : Request) : Prop := uploads s !! req_uuid q = None.

Lemma cleanup_fresh now s i : uploads s !! i = None -> uploads (fst (cleanup_expired now s)) !! i = None.
Proof.
  unfold cleanup_expired. simpl. generalize ((List.filter (fun p => expired_upload now p.2) (map_to_list (uploads s))).*1).
  intros l. revert s. induction l as [| j l IH]; intros s Hs; simpl; [done |]. apply IH.
  unfold remove_upload. destruct (uploads s !! j); [| done]. simpl. rewrite lookup_delete_None. by right.
Qed.

Lemma respond_wf q s : uploads_wf s -> request_ok q -> fresh s q -> uploads_wf (respond s q).
Proof.
  intros Hs Hok Hf. unfold respond. destruct (execute _ _ _ _ s) as [s' r] eqn:H. simpl. unfold execute in H.
  unfold bind at 1, lift in H. destruct (NotesCommand_validate (req_command q)) as [[] | e] eqn:Hv; [| by injection H as <- _].
  simpl in H. unfold bind at 1, modify in H. apply (cleanup_wf (req_now q)) in Hs.
  apply (cleanup_fresh (req_now q)) in Hf. set (s1 := fst (cleanup_expired (req_now q) s)) in *.
  destruct q as [uuid command now_ms now]. simpl in *.
  destruct command; simpl in H.
  all: try (apply list_notes_state in H; by eapply uploads_wf_state).
  all: try (apply get_note_state in H; by eapply uploads_wf_state).
  all: try (apply commit_draft_state in H; by eapply uploads_wf_state).
  all: try (apply export_state in H; by eapply uploads_wf_state).
  all: try (apply mutation_state in H; [by eapply uploads_wf_state | apply on_repository_state]).
  - eapply begin_upload_wf in H; try done. split; [exact Hok |].
    unfold NotesCommand_validate in Hv. simpl in Hv.
    destruct (NoteWriteIntent_validate intent); [| done]. destruct (NoteDraftMeta_validate meta); [| done]. simpl in Hv.
    destruct (MAX_NOTE_BODY_BYTES <? expected_total_bytes) eqn:Hb; [done |]. by bool_facts.
  - by eapply append_upload_wf.
  - by eapply commit_upload_wf.
  - unfold abort_upload, bind in H. destruct (discard upload_id _) as [s2 r2] eqn:Hd in H.
    apply discard_wf in Hd; [| exact Hs]. destruct r2; injection H as <- _; done.
Qed.

(** Requests whose identifiers are fresh when they are made. *)
Fixpoint requests_ok (s : NotesService) (l : list Request) : Prop :=
  match l with
  | [] => True
  | q :: l' => request_ok q /\ fresh s q /\ requests_ok (respond s q) l'
  end.

Lemma held_staged m : map_Forall (fun _ => upload_ok) m -> held m <= staged m.
Proof. intros Hm. apply sum_map_le. intros i u Hi. by destruct (Hm i u Hi) as [[? _] _]. Qed.

(** The staging budget holds: whatever requests clients send, in any order,
    valid or not, answered or not, there are never more than four uploads; the
    bytes reserved are exactly the sum of what the pending uploads announced,
    never above 16 MiB; and no upload holds more than it announced, so the bytes
    held are within the budget too. Nothing leaks: without uploads, nothing is
    reserved. *)
Theorem uploads_stay_within_budget r l :
  requests_ok (NotesService_new r) l ->
  let s := fold_left respond l (NotesService_new r) in
  Z.of_nat (size (uploads s)) <= MAX_NOTE_UPLOAD_SESSIONS /\
  reserved_staged_bytes s = staged (uploads s) /\
  held (uploads s) <= reserved_staged_bytes s <= MAX_NOTE_STAGED_BYTES /\
  (uploads s = ∅ -> reserved_staged_bytes s = 0).
Proof.
  intros Hl s. assert (uploads_wf s) as Hs.
  { unfold s. clear s. revert Hl. generalize (NotesService_new r) (ltac:(by split) : uploads_wf (NotesService_new r)).
    induction l as [| q l IH]; intros s Hs Hl; simpl; [done |]. destruct Hl as (Hq & Hf & Hl).
    apply IH; [by apply respond_wf | done]. }
  destruct Hs as [Hsum Htot Hcount Heach]. pose proof (held_staged _ Heach). split_and!; [done | done | lia | done |].
  intros He. by rewrite <- Hsum, He.
Qed.

(** ** Chunks *)

Lemma cleanup_repository now s : repository (fst (cleanup_expired now s)) = repository s.
Proof.
  unfold cleanup_expired. simpl. generalize ((List.filter (fun p => expired_upload now p.2) (map_to_list (uploads s))).*1).
  intros l. revert s. induction l as [| j l IH]; intros s; simpl; [done |]. rewrite IH.
  unfold remove_upload. by destruct (uploads s !! j).
Qed.

Lemma remove_uploads_keep l s i u :
  uploads s !! i = Some u -> i ∉ l ->
  uploads (fold_left (fun s j => fst (remove_upload j s)) l s) !! i = Some u.
Proof.
  revert s. induction l as [| j l IH]; intros s Hi Hl; simpl; [done |].
  apply not_elem_of_cons in Hl as [Hj Hl]. apply IH; [| done].
  unfold remove_upload. destruct (uploads s !! j); [| done]. simpl. by rewrite lookup_delete_ne.
Qed.

Lemma cleanup_keeps now s i u :
  uploads s !! i = Some u -> expired_upload now u = false -> uploads (fst (cleanup_expired now s)) !! i = Some u.
Proof.
  intros Hi He. apply remove_uploads_keep; [done |]. intros Hin.
  apply list_elem_of_fmap in Hin as ([j v] & -> & Hin). apply list_elem_of_In, filter_In in Hin as [Hin Hv].
  apply list_elem_of_In, elem_of_map_to_list in Hin. simpl in *. congruence.
Qed.

#[local] Opaque cleanup_expired.

(** What a mutation answers and leaves in the repository depends on the
    repository only. *)
Definition answer {A} (x : NotesService * A) : NotesRepository * A := (repository x.1, x.2).

Lemma mutation_answer m f s s' :
  repository s = repository s' -> answer (mutation (on_repository m) f s) = answer (mutation (on_repository m) f s').
Proof.
  intros Hr. unfold mutation, on_repository, zoom. rewrite Hr.
  destruct (m (repository s')) as [r [n | e]]; [done |]. by destruct e.
Qed.

Lemma commit_draft_answer uuid intent meta body now_ms s s' :
  repository s = repository s' ->
  answer (commit_draft uuid intent meta body now_ms s) = answer (commit_draft uuid intent meta body now_ms s').
Proof.
  intros Hr. unfold commit_draft. case_match; [unfold throw, answer; simpl; by rewrite Hr |].
  by apply mutation_answer.
Qed.

(** A chunk of an upload, its text, and when it comes. *)
Record Chunk := { chunk_data : string; chunk_bytes : list Z; chunk_now : Z }.

Definition chunk_ok (c : Chunk) : Prop :=
  base64_decode (chunk_data c) = Some (chunk_bytes c) /\ chunk_bytes c <> [] /\
  Z.of_nat (length (chunk_bytes c)) <= NOTE_CONTENT_CHUNK_BYTES /\
  len (chunk_data c) <= MAX_NOTE_CONTENT_BASE64_BYTES.

(** No pause reaches the idle limit. *)
Fixpoint in_time (last : Z) (times : list Z) : Prop :=
  match times with
  | [] => True
  | now :: times' => last <= now < last + NOTE_UPLOAD_IDLE_TTL /\ in_time now times'
  end.

Fixpoint append_requests (upload_id uuid sequence offset : Z) (chunks : list Chunk) : list Request :=
  match chunks with
  | [] => []
  | c :: chunks' =>
      {| req_uuid := uuid; req_command := C_UploadAppend upload_id sequence offset (chunk_data c);
         req_now_ms := 0; req_now := chunk_now c |}
      :: append_requests upload_id uuid (sequence + 1) (offset + Z.of_nat (length (chunk_bytes c))) chunks'
  end.

Definition chunks_bytes (chunks : list Chunk) : list Z := concat (chunk_bytes <$> chunks).

Lemma append_step upload_id uuid c u s :
  upload_id <> 0 -> chunk_ok c -> uploads s !! upload_id = Some u ->
  up_last_activity u <= chunk_now c < up_last_activity u + NOTE_UPLOAD_IDLE_TTL ->
  Z.of_nat (length (up_bytes u) + length (chunk_bytes c)) <= up_expected_total_bytes u ->
  0 <= up_next_sequence u < u32_max ->
  let s' := respond s {| req_uuid := uuid; req_command := C_UploadAppend upload_id (up_next_sequence u)
                           (Z.of_nat (length (up_bytes u))) (chunk_data c); req_now_ms := 0; req_now := chunk_now c |} in
  repository s' = repository s /\
  uploads s' !! upload_id = Some (with_progress (up_next_sequence u + 1) (chunk_now c) (with_chunk (chunk_bytes c) u)).
Proof.
  intros Hid (Hdec & Hne & Hlen & Htext) Hu Htime Hfit Hseq s'.
  set (s1 := fst (cleanup_expired (chunk_now c) s)).
  assert (uploads s1 !! upload_id = Some u) as Hu1.
  { apply cleanup_keeps; [done |]. unfold expired_upload. apply andb_false_iff. right. apply Z.leb_gt. lia. }
  assert (repository s1 = repository s) as Hr1 by apply cleanup_repository.
  set (u1 := with_chunk (chunk_bytes c) u).
  assert (s' = with_uploads (<[upload_id := with_progress (up_next_sequence u + 1) (chunk_now c) u1]>
                 (<[upload_id := u1]> (uploads s1))) (reserved_staged_bytes s1)
                 (with_uploads (<[upload_id := u1]> (uploads s1)) (reserved_staged_bytes s1) s1)) as ->;
    [| simpl; split; [done | by rewrite lookup_insert_eq]].
  subst s'. unfold respond, execute. simpl.
  assert (NotesCommand_validate (C_UploadAppend upload_id (up_next_sequence u) (Z.of_nat (length (up_bytes u)))
            (chunk_data c)) = Ok tt) as Hv.
  { unfold NotesCommand_validate. simpl.
    by rewrite (proj2 (Z.eqb_neq upload_id 0) Hid), (proj2 (Z.ltb_ge _ _) Htext). }
  unfold bind at 1, lift at 1. rewrite Hv. cbn [map_err]. unfold bind at 1, modify at 1. fold s1.
  unfold append_upload. rewrite Hdec. subst u1. destruct (chunk_bytes c) as [| b decoded] eqn:Hc; [done |].
  rewrite (proj2 (Z.leb_le _ _) Hlen). unfold bind at 1, lift at 1. rewrite Hu1. cbn [ok_or].
  rewrite !Z.eqb_refl. cbn [negb].
  rewrite (proj2 (Z.ltb_ge (up_expected_total_bytes u) _)) by exact Hfit.
  unfold bind, lift, set_upload, modify, checked_u32. cbn [up_next_sequence with_chunk].
  assert (in_u32 (up_next_sequence u + 1) = true) as -> by (apply andb_true_iff; split; apply Z.leb_le; lia).
  reflexivity.
Qed.

Lemma append_chunks upload_id uuid chunks u s :
  upload_id <> 0 -> Forall chunk_ok chunks -> uploads s !! upload_id = Some u ->
  in_time (up_last_activity u) (chunk_now <$> chunks) ->
  Z.of_nat (length (up_bytes u) + length (chunks_bytes chunks)) <= up_expected_total_bytes u ->
  0 <= up_next_sequence u -> up_next_sequence u + Z.of_nat (length chunks) <= u32_max ->
  let s' := fold_left respond (append_requests upload_id uuid (up_next_sequence u)
              (Z.of_nat (length (up_bytes u))) chunks) s in
  repository s' = repository s /\
  exists u', uploads s' !! upload_id = Some u' /\ up_intent u' = up_intent u /\ up_meta u' = up_meta u /\
    up_expected_total_bytes u' = up_expected_total_bytes u /\ up_expected_sha256 u' = up_expected_sha256 u /\
    up_bytes u' = up_bytes u ++ chunks_bytes chunks /\
    up_last_activity u' = default (up_last_activity u) (last (chunk_now <$> chunks)).
Proof.
  intros Hid Hok. revert u s. induction Hok as [| c chunks Hc Hok IH]; intros u s Hu Ht Hfit Hseq Hmax; simpl.
  - split; [done |]. exists u. split_and!; try done. unfold chunks_bytes. simpl. by rewrite app_nil_r.
  - simpl in Ht. destruct Ht as [Hnow Ht]. change (chunks_bytes (c :: chunks)) with (chunk_bytes c ++ chunks_bytes chunks) in Hfit |- *.
    rewrite length_app in Hfit. simpl in Hmax.
    destruct (append_step upload_id uuid c u s Hid Hc Hu Hnow) as [Hr Hu']; [lia | lia |].
    set (u1 := with_progress (up_next_sequence u + 1) (chunk_now c) (with_chunk (chunk_bytes c) u)) in *.
    replace (Z.of_nat (length (up_bytes u)) + Z.of_nat (length (chunk_bytes c)))
      with (Z.of_nat (length (up_bytes u1))) by (simpl; rewrite length_app; lia).
    change (up_next_sequence u + 1) with (up_next_sequence u1).
    edestruct (IH u1) as (Hr2 & u2 & Hu2 & Hi & Hm & He & Hs & Hb & Hl); [exact Hu' | exact Ht | | simpl; lia | simpl; lia |].
    { simpl. rewrite length_app. lia. }
    rewrite Hr2. split; [done |]. exists u2. split_and!; try done.
    + rewrite Hb. simpl. by rewrite app_assoc.
    + rewrite Hl. simpl. destruct chunks as [| c' chunks]; [done |]. simpl.
      destruct (last_is_Some (chunk_now c' :: (chunk_now <$> chunks))) as [_ Hsome].
      destruct Hsome as [z Hz]; [done |]. simpl in Hz. unfold fmap in *. by rewrite Hz.
Qed.

(** The requests that upload a body. *)
Definition upload_requests (upload_id uuid : Z) (intent : NoteWriteIntent) (meta : NoteDraftMeta) (body : string)
    (began : Z) (chunks : list Chunk) : list Request :=
  {| req_uuid := upload_id;
     req_command := C_UploadBegin intent meta (len body) (sha256_hex (bytes body));
     req_now_ms := 0; req_now := began |} :: append_requests upload_id uuid 0 0 chunks.

Definition has_room (s : NotesService) (n : Z) : Prop :=
  accepting_uploads s = true /\ Z.of_nat (size (uploads s)) < MAX_NOTE_UPLOAD_SESSIONS /\
  0 <= reserved_staged_bytes s /\ reserved_staged_bytes s + n <= MAX_NOTE_STAGED_BYTES.

Lemma begin_step upload_id intent meta body began s :
  NotesCommand_validate (C_WriteInline intent meta body) = Ok tt ->
  validate_sha256 (sha256_hex (bytes body)) = Ok tt ->
  has_room (fst (cleanup_expired began s)) (len body) ->
  let s' := respond s {| req_uuid := upload_id;
              req_command := C_UploadBegin intent meta (len body) (sha256_hex (bytes body));
              req_now_ms := 0; req_now := began |} in
  repository s' = repository s /\
  uploads s' !! upload_id = Some
    {| up_intent := intent; up_meta := meta; up_expected_total_bytes := len body;
       up_expected_sha256 := sha256_hex (bytes body); up_bytes := []; up_next_sequence := 0;
       up_last_activity := began |}.
Proof.
  intros Hv Hsha (Hacc & Hcount & Hpos & Hroom) s'. set (s1 := fst (cleanup_expired began s)) in *.
  assert (repository s1 = repository s) as Hr1 by apply cleanup_repository.
  set (u0 := {| up_intent := intent |}).
  assert (s' = with_uploads (<[upload_id := u0]> (uploads s1)) (reserved_staged_bytes s1 + len body) s1) as ->;
    [| simpl; split; [done | by rewrite lookup_insert_eq]].
  subst s'. unfold respond, execute. cbn [req_command req_uuid req_now_ms req_now].
  assert (NotesCommand_validate (C_UploadBegin intent meta (len body) (sha256_hex (bytes body))) = Ok tt) as Hv'.
  { unfold NotesCommand_validate in Hv |- *. simpl in Hv |- *.
    destruct (NoteWriteIntent_validate intent); [| done]. destruct (NoteDraftMeta_validate meta); [| done]. simpl in *.
    destruct (MAX_NOTE_BODY_BYTES <? len body); [done |]. by rewrite Hsha. }
  unfold bind at 1, lift at 1. rewrite Hv'. cbn [map_err]. unfold bind at 1, modify at 1. fold s1.
  unfold begin_upload, bind, lift, modify. rewrite Hacc. cbn [negb].
  rewrite (proj2 (Z.leb_gt MAX_NOTE_UPLOAD_SESSIONS _) Hcount). cbn [orb].
  pose proof (len_nonneg body).
  assert (checked_u64 (reserved_staged_bytes s1 + len body) = Some (reserved_staged_bytes s1 + len body)) as ->.
  { apply checked_u64_some. split; [done |]. unfold MAX_NOTE_STAGED_BYTES in Hroom. width. }
  cbn [is_none_or]. rewrite (proj2 (Z.ltb_ge MAX_NOTE_STAGED_BYTES _) Hroom). reflexivity.
Qed.

Lemma chunks_count chunks : Forall chunk_ok chunks -> (length chunks <= length (chunks_bytes chunks))%nat.
Proof.
  induction 1 as [| c chunks (_ & Hne & _) _ IH]; [done |].
  change (chunks_bytes (c :: chunks)) with (chunk_bytes c ++ chunks_bytes chunks). rewrite length_app.
  destruct (chunk_bytes c); [done |]. simpl. lia.
Qed.

Lemma execute_inline uuid intent meta body now_ms now s :
  NotesCommand_validate (C_WriteInline intent meta body) = Ok tt ->
  execute uuid (C_WriteInline intent meta body) now_ms now s =
  commit_draft uuid intent meta body now_ms (fst (cleanup_expired now s)).
Proof. intros Hv. unfold execute, bind, lift, modify. by rewrite Hv. Qed.

Lemma execute_commit uuid upload_id intent now_ms now s :
  NotesCommand_validate (C_UploadCommit upload_id intent) = Ok tt ->
  execute uuid (C_UploadCommit upload_id intent) now_ms now s =
  commit_upload uuid upload_id intent now_ms (fst (cleanup_expired now s)).
Proof. intros Hv. unfold execute, bind, lift, modify. by rewrite Hv. Qed.

(** Once the last chunk is there. *)
Lemma commit_whole uuid upload_id intent u now_ms s :
  uploads s !! upload_id = Some u -> up_intent u = intent ->
  Z.of_nat (length (up_bytes u)) = up_expected_total_bytes u ->
  sha256_hex (up_bytes u) = up_expected_sha256 u -> valid_utf8 (up_bytes u) = true ->
  answer (commit_upload uuid upload_id intent now_ms s) =
  answer (commit_draft uuid intent (up_meta u) (string_of_bytes (up_bytes u)) now_ms s).
Proof.
  intros Hu Hi Hl Hs Hv. unfold commit_upload, bind, take_upload, remove_upload. rewrite Hu. cbn [ok_or].
  by rewrite Hi, eqb_refl, Hl, Z.eqb_refl, Hs, String.eqb_refl, Hv; apply commit_draft_answer.
Qed.

(** C23: An upload is a write: take a body that may be written inline and any way to
    cut it into chunks that fit. If the service has room when the upload
    begins and no pause between its requests reaches the idle limit, committing
    it answers what [WriteInline] of the same body would have answered before
    the upload began, and leaves the repository as that would have. *)
Theorem chunked_upload_is_inline_write upload_id uuid intent meta body began chunks now_ms committed_at now s :
  upload_id <> 0 ->
  NotesCommand_validate (C_WriteInline intent meta body) = Ok tt ->
  validate_sha256 (sha256_hex (bytes body)) = Ok tt -> valid_utf8 (bytes body) = true ->
  Forall chunk_ok chunks -> chunks_bytes chunks = bytes body ->
  in_time began ((chunk_now <$> chunks) ++ [committed_at]) ->
  has_room (fst (cleanup_expired began s)) (len body) ->
  let s' := fold_left respond (upload_requests upload_id uuid intent meta body began chunks) s in
  answer (execute uuid (C_UploadCommit upload_id intent) now_ms committed_at s') =
  answer (execute uuid (C_WriteInline intent meta body) now_ms now s).
Proof.
  intros Hid Hv Hsha Hutf Hchunks Hbody Htime Hroom. simpl.
  destruct (begin_step upload_id intent meta body began s Hv Hsha Hroom) as [Hr0 Hu0].
  set (s0 := respond s _) in *. set (u0 := {| up_intent := intent |}) in *.
  assert (len body <= MAX_NOTE_BODY_BYTES) as Hmax.
  { unfold NotesCommand_validate in Hv. simpl in Hv. destruct (NoteWriteIntent_validate intent); [| done].
    destruct (NoteDraftMeta_validate meta); [| done]. simpl in Hv.
    destruct (MAX_NOTE_BODY_BYTES <? len body) eqn:Hb; [done |]. by bool_facts. }
  assert (Z.of_nat (length (chunks_bytes chunks)) = len body) as Hlen by (rewrite Hbody; apply length_bytes).
  pose proof (chunks_count chunks Hchunks) as Hcount.
  assert (in_time began (chunk_now <$> chunks) /\
          (default began (last (chunk_now <$> chunks)) <= committed_at <
           default began (last (chunk_now <$> chunks)) + NOTE_UPLOAD_IDLE_TTL)) as [Ht1 Ht2].
  { clear -Htime. revert began Htime. induction (chunk_now <$> chunks) as [| t l IH]; intros began [Ht Hl].
    - by split; [| simpl].
    - apply IH in Hl as [Hl1 Hl2]. split; [done |]. destruct l as [| t' l]; [done |].
      destruct (last_is_Some (t' :: l)) as [_ Hs]. destruct Hs as [z Hz]; [done |].
      change (last (t :: t' :: l)) with (last (t' :: l)). by rewrite Hz in *. }
  destruct (append_chunks upload_id uuid chunks u0 s0 Hid Hchunks Hu0 Ht1) as (Hr1 & u1 & Hu1 & Hi & Hm & He & Hs & Hb & Hl).
  { simpl. lia. } { simpl. lia. } { simpl. unfold MAX_NOTE_BODY_BYTES in Hmax. width. }
  simpl in Hi, Hm, He, Hs, Hb, Hl, Hu1, Hr1 |- *. set (s1 := fold_left respond _ s0) in *.
  assert (NotesCommand_validate (C_UploadCommit upload_id intent) = Ok tt) as Hv'.
  { unfold NotesCommand_validate in Hv |- *. simpl in Hv |- *. destruct (NoteWriteIntent_validate intent); [| done]. simpl.
    by rewrite (proj2 (Z.eqb_neq upload_id 0) Hid). }
  assert (uploads (fst (cleanup_expired committed_at s1)) !! upload_id = Some u1) as Hu2.
  { apply cleanup_keeps; [done |]. unfold expired_upload. apply andb_false_iff. right. apply Z.leb_gt. lia. }
  rewrite Hbody in Hb. rewrite execute_commit, execute_inline by done.
  rewrite (commit_whole _ _ _ u1); [| done | done | rewrite Hb, He; apply length_bytes | by rewrite Hb, Hs | by rewrite Hb].
  rewrite Hb, Hm, bytes_string. apply commit_draft_answer. by rewrite !cleanup_repository, Hr1, Hr0.
Qed.
End Uploads.

(** ** Witnesses *)

#[local] Existing Instance quoted_tags.
#[local] Existing Instance quoted_tags_laws.
#[local] Existing Instance ascii_case.

(** A UUID as the 32 hexadecimal digits of its 16 bytes. *)
Fixpoint be_bytes (n : nat) (z : Z) : list Z :=
  match n with
  | O => []
  | S n => (z / 256 ^ Z.of_nat n) mod 256 :: be_bytes n z
  end.
#[local] Instance hex_uuids : UuidFormat := {
  uuid_to_string := fun u => hex (be_bytes 16 u);
  parse_str := fun s =>
    if (len s =? 32) && forallb is_hex (bytes s)
    then Some (fold_left (fun n b => n * 16 + (if is_ascii_digit b then b - 48 else b - 87)) (bytes s) 0)
    else None;
}.
#[local] Instance raw_chunks : Base64 := 
  { base64_encode := string_of_bytes; base64_decode := fun s => Some (bytes s) }.
#[local] Existing Instance checksum.
#[local] Instance quoted_notes : NoteJson := {
  note_fragments := fun n => ([quoted (title n); quoted (body_markdown n)], true);
  text_to_string := fun s => Some (quoted s);
}.

Definition plan_meta : NoteDraftMeta :=
  {| meta_title := "plan"; meta_diary_date := Some "2026-02-28"%string; meta_tags := ["work"; "home"]%string;
     meta_status := Active; meta_pinned := true |}.
Definition plan_chunks : list Chunk :=
  [{| chunk_data := "first, "; chunk_bytes := bytes "first, "; chunk_now := 20 |};
   {| chunk_data := "second"; chunk_bytes := bytes "second"; chunk_now := 30 |}].
Definition plan_service : NotesService := NotesService_new (Build_Db empty_tables []).

Lemma uploads_stay_within_budget_witness :
  let l := upload_requests 5 7 Create plan_meta "first, second" 10 plan_chunks in
  let s := fold_left respond l plan_service in
  uploads s <> ∅ /\ reserved_staged_bytes s = staged (uploads s).
Proof.
  set (l := upload_requests 5 7 Create plan_meta "first, second" 10 plan_chunks).
  assert (requests_ok plan_service l) as Hl.
  { unfold l, upload_requests, requests_ok, append_requests, plan_chunks, request_ok, fresh.
    repeat split; try (vm_compute; reflexivity); try (vm_compute; discriminate). }
  split.
  - intros He. apply (f_equal size) in He. revert He. vm_compute. discriminate.
  - exact (proj1 (proj2 (uploads_stay_within_budget (Build_Db empty_tables []) l Hl))).
Defined.

Lemma chunked_upload_is_inline_write_witness :
  is_ok (execute 7 (C_WriteInline Create plan_meta "first, second") 1000 50 plan_service).2 = true /\
  let s' := fold_left respond (upload_requests 5 7 Create plan_meta "first, second" 10 plan_chunks) plan_service in
  answer (execute 7 (C_UploadCommit 5 Create) 1000 40 s') =
  answer (execute 7 (C_WriteInline Create plan_meta "first, second") 1000 50 plan_service).
Proof.
  split; [vm_compute; reflexivity |].
  refine (chunked_upload_is_inline_write 5 7 Create plan_meta "first, second" 10 plan_chunks 1000 40 50 plan_service
            _ _ _ _ _ _ _ _).
  - discriminate.
  - vm_compute. reflexivity.
  - vm_compute. reflexivity.
  - vm_compute. reflexivity.
  - repeat constructor; vm_compute; discriminate.
  - vm_compute. reflexivity.
  - unfold in_time, plan_chunks, NOTE_UPLOAD_IDLE_TTL. simpl. lia.
  - unfold has_room. repeat split; vm_compute; congruence.
Defined.
