(* ===== verification/NotesServiceFacts.v ===== *)
(** The notes service as its clients see it: what it answers is valid, pages
    list every note once, and an export is the notes of its query or too large. *)

From S2P Require Import Prelude Text Encoding Sql NotesDomain NotesModel NotesRepository NotesRepositoryFacts NotesHistoryFacts NotesService NotesUploadFacts.

(** What is relied on: the crate parses the UUIDs it prints, and a SHA-256 has
    32 bytes. *)
Class UuidFormatLaws `{UuidFormat} := { parse_uuid_string : forall u, is_Some (parse_str (uuid_to_string u)) }.

Section Answers.
Context {format : UuidFormat} {format_laws : UuidFormatLaws} {case : UnicodeCase} {json : TagsJson}
  {json_laws : TagsJsonLaws} {njson : NoteJson} {b64 : Base64} {sha : Sha256} {sha_laws : Sha256Laws}.

(** ** Digests *)

Lemma sha256_hex_valid l : validate_sha256 (sha256_hex l) = Ok tt.
Proof.
  unfold validate_sha256, sha256_hex. rewrite hex_length, sha256_length. simpl.
  change (fun b => is_ascii_digit b || in_range (ch "a") (ch "f") b) with is_hex.
  by rewrite (hex_digits _ (sha256_bytes l)).
Qed.

(** ** Notes that may be shown *)

Definition meta_of (n : Note) : NoteDraftMeta :=
  {| meta_title := title n; meta_diary_date := diary_date n; meta_tags := tags n;
     meta_status := public_status (status n); meta_pinned := pinned n |}.

Record public_note (n : Note) : Prop := {
  pn_id : is_Some (parse_str (id n));
  pn_meta : NoteDraftMeta_validate (meta_of n) = Ok tt;
  pn_revision : revision n <> 0;
  pn_body : len (body_markdown n) <= MAX_NOTE_BODY_BYTES;
}.

Lemma body_bytes n : len (body_markdown n) <= MAX_NOTE_BODY_BYTES ->
  as_u32 (len (body_markdown n)) = len (body_markdown n).
Proof.
  intros Hb. pose proof (len_nonneg (body_markdown n)). unfold MAX_NOTE_BODY_BYTES in Hb. apply Z.mod_small. lia.
Qed.

Lemma public_summary n : public_note n -> NoteSummary_validate (note_summary n) = Ok tt.
Proof.
  intros [[u Hid] Hm Hr Hb]. unfold NoteSummary_validate, note_summary. simpl. rewrite Hid. simpl.
  fold (meta_of n). rewrite Hm. simpl. rewrite body_bytes by done.
  rewrite (proj2 (Z.eqb_neq _ 0) Hr), (proj2 (Z.ltb_ge MAX_NOTE_BODY_BYTES _) Hb). simpl. apply sha256_hex_valid.
Qed.

Lemma public_document n : public_note n -> NoteDocument_validate (note_document n) = Ok tt.
Proof.
  intros Hn. unfold NoteDocument_validate. simpl. rewrite public_summary by done. simpl.
  rewrite body_bytes by apply Hn. by rewrite Z.eqb_refl.
Qed.

(** *** Normalized drafts keep what validation established *)

Lemma normalize_tags_from kept ts kept' p :
  normalize_tags kept ts = Ok kept' -> p ∈ kept' -> p ∈ kept \/ exists tag, tag ∈ ts /\ p.2 = str_trim tag.
Proof.
  revert kept. induction ts as [| tag ts IH]; intros kept H Hp; cbn [normalize_tags] in H.
  - injection H as <-. by left.
  - destruct (is_empty (str_trim tag)); [done |]. destruct (MAX_TAG_CHARS <? _); [done |].
    destruct (normalize_tag_key (str_trim tag)) as [key |]; [| done]. simpl in H.
    apply IH in H as [H | (tag' & Hin & He)]; [| right; exists tag'; by split; [right |] | done].
    destruct (existsb _ kept); [by left |]. apply elem_of_app in H as [H | ->%list_elem_of_singleton]; [by left |].
    right. exists tag. by split; [left |].
Qed.

Lemma contains_byte_app b s t : contains_byte b (s ++ t) = contains_byte b s || contains_byte b t.
Proof. unfold contains_byte. by rewrite bytes_app, existsb_app. Qed.

Lemma trimmed_nul tag : contains_byte nul tag = false -> contains_byte nul (str_trim tag) = false.
Proof.
  intros H. destruct (str_trim_parts tag) as (a & b & Ht). rewrite Ht, !contains_byte_app in H.
  by apply orb_false_iff in H as [_ [H _]%orb_false_iff].
Qed.

Lemma validated_meta m : NoteDraftMeta_validate m = Ok tt ->
  (MAX_NOTE_TITLE_CHARS <? chars_count (meta_title m)) = false /\ contains_byte nul (meta_title m) = false /\
  (MAX_NOTE_TAGS <? Z.of_nat (length (meta_tags m))) = false /\ existsb tag_invalid (meta_tags m) = false /\
  is_some_and (fun d => negb (valid_calendar_date d)) (meta_diary_date m) = false.
Proof. unfold NoteDraftMeta_validate. repeat case_match; done. Qed.

(** The note a normalized draft becomes. *)
Lemma draft_meta m body d n :
  NoteDraftMeta_validate m = Ok tt -> normalize_draft (draft_of m body) = Ok d ->
  title n = d_title d -> diary_date n = d_diary_date d -> tags n = d_tags d ->
  NoteDraftMeta_validate (meta_of n) = Ok tt.
Proof.
  intros Hm Hd Ht Hdate Htags. apply validated_meta in Hm as (H1 & H2 & H3 & H4 & H5).
  pose proof (normalize_draft_ok _ _ Hd) as ((keyed & Hk & _ & _ & Hnormal) & Htitle & _ & Hdd & _ & _ & Hlen & _).
  assert (existsb tag_invalid (d_tags d) = false) as Hvalid.
  { apply not_true_iff_false. intros (tag & Hin & Hbad)%existsb_exists. rewrite Hk in Hin.
    apply list_elem_of_In, list_elem_of_fmap in Hin as (p & -> & Hp).
    assert (exists tag, tag ∈ meta_tags m /\ p.2 = str_trim tag) as (tag & Htag & He).
    { unfold normalize_draft in Hd. repeat (case_match; [done |]). simpl in Hd.
      destruct (normalize_tags [] (meta_tags m)) as [kept |] eqn:Hn; [| done]. injection Hd as Hd.
      assert (p.2 ∈ (merge_sort key_le kept).*2) as Hin.
      { rewrite <- Hd in Hk. simpl in Hk. rewrite Hk. apply list_elem_of_fmap. by exists p. }
      apply list_elem_of_fmap in Hin as (p' & He & Hin). rewrite merge_sort_Permutation in Hin.
      destruct (normalize_tags_from _ _ _ _ Hn Hin) as [Hnil | (tag & Htag & Ht')]; [by apply elem_of_nil in Hnil |].
      exists tag. by rewrite He. }
    rewrite Forall_forall in Hnormal. destruct (Hnormal p Hp) as (_ & _ & Hne & Hchars).
    unfold tag_invalid in Hbad. rewrite Hne in Hbad. unfold MAX_TAG_CHARS in Hchars.
    rewrite (proj2 (Z.ltb_ge MAX_NOTE_TAG_CHARS _)) in Hbad by (unfold MAX_NOTE_TAG_CHARS; lia). simpl in Hbad.
    rewrite He, trimmed_nul in Hbad; [done |]. apply not_true_iff_false in H4.
    destruct (contains_byte nul tag) eqn:Hnul; [| done]. exfalso. apply H4, existsb_exists. exists tag.
    split; [by apply list_elem_of_In |]. unfold tag_invalid. by rewrite Hnul, orb_true_r. }
  unfold NoteDraftMeta_validate, meta_of. simpl. rewrite Ht, Hdate, Htags, Htitle, Hdd. simpl. simpl in H1, H2, H5.
  rewrite H1, H2, Hvalid, H5. rewrite (proj2 (Z.ltb_ge MAX_NOTE_TAGS _)); [done |].
  unfold MAX_TAGS in Hlen. unfold MAX_NOTE_TAGS. lia.
Qed.

(** ** Every state of the service *)

Definition notes_public (t : NotesTables) : Prop := forall i n, stored t i = Some n -> public_note n.

Definition upload_valid (u : PendingUpload) : Prop :=
  NoteWriteIntent_validate (up_intent u) = Ok tt /\ NoteDraftMeta_validate (up_meta u) = Ok tt /\
  Z.of_nat (length (up_bytes u)) <= up_expected_total_bytes u <= MAX_NOTE_BODY_BYTES.

Record service_ok (s : NotesService) : Prop := {
  so_tables : tables_wf (db_tables (repository s));
  so_public : notes_public (db_tables (repository s));
  so_uploads : map_Forall (fun _ => upload_valid) (uploads s);
}.

Definition output_valid (o : NotesOutput) : Prop :=
  match o with
  | O_Mutation (Stored n | Deleted n | Restored n | Conflict _ n) => NoteSummary_validate n = Ok tt
  | O_Mutation _ => True
  | O_Page p => NotePage_validate p = Ok tt
  | O_Document d => NoteDocument_validate d = Ok tt
  | O_Export e => NoteExport_validate e = Ok tt
  end.

(** The one refusal that is not the command's own. *)
Definition own_refusal (e : NotesServiceError) : Prop :=
  match e with InvalidCommand reason => reason = "note_upload_intent_mismatch"%string | _ => True end.

Definition runs_ok (m : service_mut NotesOutput) : Prop :=
  forall s s' r, service_ok s -> m s = (s', r) ->
    service_ok s' /\ match r with Ok o => output_valid o | Err e => own_refusal e end.

Lemma service_ok_state s s' :
  service_ok s -> upload_state s' = upload_state s ->
  tables_wf (db_tables (repository s')) -> notes_public (db_tables (repository s')) -> service_ok s'.
Proof. intros [_ _ Hu] [= Hs _ _] Hw Hp. split; [done | done | by rewrite Hs]. Qed.

Lemma committed_public t t' n recorded :
  notes_public t -> committed t t' n recorded -> public_note n -> notes_public t'.
Proof.
  intros Hp (Hs & Hother & _) Hn i n' Hi. destruct (decide (i = id n)) as [-> | Hne].
  - assert (n' = n) as -> by congruence. done.
  - apply (Hp i). by rewrite <- Hother.
Qed.

(** A mutation whose answer is public, as is the note of a conflict. *)
Lemma mutation_runs_ok (m : repo_mut Note) f :
  (forall n, output_valid (O_Mutation (f n)) <-> NoteSummary_validate n = Ok tt) ->
  (forall s s' r, tables_wf (db_tables s) -> notes_public (db_tables s) -> m s = (s', r) ->
     tables_wf (db_tables s') /\ notes_public (db_tables s') /\
     match r with
     | Ok n => public_note n
     | Err e => forall c, e = E_Conflict c -> public_note (conflict_current c)
     end) ->
  runs_ok (mutation (on_repository m) f).
Proof.
  intros Hf Hm s s' r Hs H. pose proof (mutation_state _ f (on_repository_state m) _ _ _ H) as Hstate.
  unfold mutation, on_repository, zoom in H. destruct (m (repository s)) as [r' x] eqn:Hr.
  apply Hm in Hr as (Hw & Hp & Hx); [| apply Hs | apply Hs].
  assert (service_ok (with_repository r' s)) as Hs' by (by eapply service_ok_state; [exact Hs | ..]).
  destruct x as [n | e].
  - injection H as <- <-. split; [done |]. apply Hf. by apply public_summary.
  - destruct e; injection H as <- <-; split; try done. simpl. by apply public_summary, Hx.
Qed.

Lemma stored_public t i n : notes_public t -> stored t i = Some n -> public_note n.
Proof. intros Hp. apply Hp. Qed.

Lemma create_public uuid m body now s s' r :
  NoteDraftMeta_validate m = Ok tt -> len body <= MAX_NOTE_BODY_BYTES ->
  tables_wf (db_tables s) -> notes_public (db_tables s) ->
  create (uuid_to_string uuid) (draft_of m body) now s = (s', r) ->
  tables_wf (db_tables s') /\ notes_public (db_tables s') /\
  match r with Ok n => public_note n | Err e => forall c, e = E_Conflict c -> public_note (conflict_current c) end.
Proof.
  intros Hm Hb Hw Hp H. pose proof (create_cases _ _ _ _ _ _ Hw H) as Hc. destruct r as [n | e].
  - destruct Hc as (d & Hd & -> & _ & Hw' & Hcommit).
    assert (public_note (new_note (uuid_to_string uuid) d now)) as Hn; [| by split_and!; [| eapply committed_public |]].
    pose proof (normalize_draft_ok _ _ Hd) as (_ & _ & Hbody & _).
    split; simpl; [apply parse_uuid_string | by eapply draft_meta | done | by rewrite Hbody].
  - rewrite Hc. split_and!; [done | done |]. intros c ->. exfalso.
    unfold create, bind at 1, lift at 1 in H. destruct (normalize_draft _) as [d | e'] eqn:Hd.
    + apply Sql.transaction_err in H as [_ [? | (s0 & s1 & _ & Hb')]]; [done |].
      assert (no_conflict (E_Conflict c)) as Hno; [| by destruct (Hno c)]. revert Hb'.
      match goal with |- ?p s0 = _ -> _ => assert (fails_within no_conflict p) as Hf; [| intros Hx; by eapply Hf] end.
      apply fails_within_bind; [apply insert_note_no_conflict |]. intros _.
      apply fails_within_bind; [apply replace_tags_no_conflict |]. intros _.
      apply fails_within_bind; [apply insert_revision_no_conflict |]. intros _.
      apply fails_within_infallible. auto with rust_effects.
    + injection H as _ ->. by destruct (normalize_draft_no_conflict _ _ Hd c).
Qed.

Lemma save_public note_id expected m body now s s' r :
  NoteDraftMeta_validate m = Ok tt -> len body <= MAX_NOTE_BODY_BYTES ->
  tables_wf (db_tables s) -> notes_public (db_tables s) ->
  save {| save_id := note_id; save_expected_revision := expected; save_draft := draft_of m body |} now s = (s', r) ->
  tables_wf (db_tables s') /\ notes_public (db_tables s') /\
  match r with Ok n => public_note n | Err e => forall c, e = E_Conflict c -> public_note (conflict_current c) end.
Proof.
  intros Hm Hb Hw Hp H. pose proof (save_cases _ _ _ _ _ Hw H) as Hc. destruct r as [n | e].
  - destruct Hc as (cur & d & Hd & Hcur & _ & [(_ & -> & ->) | (_ & -> & Hw' & Hcommit)]).
    + split_and!; [done | done | by eapply stored_public].
    + pose proof (normalize_draft_ok _ _ Hd) as (_ & _ & Hbody & _). simpl in Hd, Hcur.
      pose proof (stored_public _ _ _ Hp Hcur) as [Hid _ _ _].
      destruct (stored_next _ _ _ Hw Hcur) as (_ & _ & _ & Hrev & _).
      assert (public_note (saved_note cur d now (revision cur + 1))) as Hn;
        [| by split_and!; [| eapply committed_public |]].
      split; simpl; [done | by eapply draft_meta | lia | by rewrite Hbody].
  - destruct Hc as [-> Hc]. split_and!; [done | done |]. intros c He.
    destruct (Hc c He) as [Hcur _]. by eapply stored_public.
Qed.

Lemma set_deleted_public note_id expected deleted now s s' r :
  tables_wf (db_tables s) -> notes_public (db_tables s) ->
  set_deleted note_id expected deleted now s = (s', r) ->
  tables_wf (db_tables s') /\ notes_public (db_tables s') /\
  match r with Ok n => public_note n | Err e => forall c, e = E_Conflict c -> public_note (conflict_current c) end.
Proof.
  intros Hw Hp H. pose proof (set_deleted_cases _ _ _ _ _ _ _ Hw H) as Hc. destruct r as [n | e].
  - destruct Hc as (cur & Hcur & _ & [(_ & -> & ->) | (_ & -> & Hw' & Hcommit)]).
    + split_and!; [done | done | by eapply stored_public].
    + pose proof (stored_public _ _ _ Hp Hcur) as [Hid Hm _ Hb].
      destruct (stored_next _ _ _ Hw Hcur) as (_ & _ & _ & Hrev & _).
      assert (public_note (deleted_note cur deleted now (revision cur + 1))) as Hn;
        [| by split_and!; [| eapply committed_public |]].
      split; simpl; [done | exact Hm | lia | done].
  - destruct Hc as [-> Hc]. split_and!; [done | done |]. intros c He.
    destruct (Hc c He) as [Hcur _]. by eapply stored_public.
Qed.

Lemma commit_draft_ok uuid intent m body now_ms :
  NoteDraftMeta_validate m = Ok tt -> len body <= MAX_NOTE_BODY_BYTES ->
  runs_ok (commit_draft uuid intent m body now_ms).
Proof.
  intros Hm Hb. unfold commit_draft. rewrite (proj2 (Z.ltb_ge MAX_NOTE_BODY_BYTES _) Hb).
  apply mutation_runs_ok; [done |]. intros s s' r Hw Hp. destruct intent.
  - by apply create_public.
  - by apply save_public.
Qed.

(** ** Pages, documents, exports *)

(** A program on the repository that keeps the tables. *)
Lemma on_repository_ok {A} (m : repo_mut A) g s s' (r : result A NotesServiceError) :
  (forall d d' x, m d = (d', x) -> db_tables d' = db_tables d) ->
  service_ok s -> mut_map_err g (on_repository m) s = (s', r) ->
  service_ok s' /\ exists d' x, m (repository s) = (d', x) /\ r = map_err g x.
Proof.
  intros Hm Hs H. unfold mut_map_err, on_repository, zoom in H.
  destruct (m (repository s)) as [d' x] eqn:Hx. injection H as <- <-.
  split; [| by exists d', x]. apply Hm in Hx. destruct Hs as [Hw Hp Hu]. split; simpl; [by rewrite Hx | by rewrite Hx | done].
Qed.

Lemma get_note_ok i : runs_ok (get_note i).
Proof.
  intros s s' r Hs H. unfold get_note, bind at 1 in H.
  destruct (mut_map_err Repository (on_repository (get i)) s) as [s1 r1] eqn:H1.
  apply on_repository_ok in H1 as (Hs1 & d' & x & Hx & ->); [| intros d d0 x Hx; by apply load_note_cases in Hx as [-> _] | done].
  destruct x as [n | e]; simpl in H; [| by injection H as <- <-].
  apply load_note_cases in Hx as [_ Hn]. apply (so_public s Hs) in Hn.
  unfold bind, lift in H. rewrite public_document in H by done. injection H as <- <-. split; [done |]. by apply public_document.
Qed.

Lemma are_stored_public t rows l : notes_public t -> are_stored t rows l -> Forall public_note l.
Proof. intros Hp. induction 1 as [| p n rows l Hn _ IH]; constructor; [by eapply Hp | done]. Qed.

Lemma summaries_valid l : Forall public_note l ->
  existsb (fun n => is_err (NoteSummary_validate n)) (note_summary <$> l) = false.
Proof.
  induction 1 as [| n l Hn _ IH]; [done |]. cbn [fmap list_fmap existsb]. by rewrite public_summary.
Qed.

Lemma query_validated q : NoteQuery_validate q = Ok tt -> 1 <= query_limit q <= 64 /\ query_offset q <= MAX_NOTE_QUERY_OFFSET.
Proof.
  unfold NoteQuery_validate. destruct (negb (in_range 1 MAX_NOTE_QUERY_LIMIT (query_limit q))) eqn:H1; [done |].
  destruct (MAX_NOTE_QUERY_OFFSET <? query_offset q) eqn:H2; [done |]. intros _. bool_facts.
  unfold in_range, MAX_NOTE_QUERY_LIMIT in H1. bool_facts. lia.
Qed.

(** The page that [list] makes of what the repository found. *)
Definition page_of (q : NotesDomain.NoteQuery) (found : list Note) : NotePage :=
  let has_more := query_limit q <? Z.of_nat (length found) in
  let shown := if has_more then firstn (Z.to_nat (query_limit q)) found else found in
  {| page_query := q; page_notes := note_summary <$> shown; page_has_more := has_more;
     page_next_offset := if has_more
                         then checked_u32 (query_offset q + as_u32 (Z.of_nat (length (note_summary <$> shown))))
                         else None |}.

Lemma page_valid q found :
  NoteQuery_validate q = Ok tt -> 0 <= query_offset q -> Forall public_note found ->
  NotePage_validate (page_of q found) = Ok tt.
Proof.
  intros Hq Ho Hf. destruct (query_validated q Hq) as [Hlim Hoff]. unfold MAX_NOTE_QUERY_OFFSET in Hoff.
  unfold NotePage_validate, page_of. cbn [page_query page_notes page_has_more page_next_offset]. rewrite Hq. cbn [result_bind].
  set (more := query_limit q <? Z.of_nat (length found)).
  assert (Z.of_nat (length (if more then firstn (Z.to_nat (query_limit q)) found else found)) <= query_limit q) as Hlen.
  { unfold more. destruct (_ <? _) eqn:Hm; bool_facts; rewrite ?length_take; lia. }
  assert (Forall public_note (if more then firstn (Z.to_nat (query_limit q)) found else found)) as Hf'
    by (destruct more; [by apply Forall_take | done]).
  revert Hlen Hf'. generalize (if more then firstn (Z.to_nat (query_limit q)) found else found) as shown.
  intros shown Hlen Hf'. rewrite summaries_valid, length_fmap by done.
  rewrite (proj2 (Z.ltb_ge (query_limit q) _) Hlen). cbn [orb].
  assert (as_u32 (Z.of_nat (length shown)) = Z.of_nat (length shown)) as -> by (unfold as_u32; apply Z.mod_small; lia).
  assert (checked_u32 (query_offset q + Z.of_nat (length shown)) = Some (query_offset q + Z.of_nat (length shown))) as ->.
  { unfold checked_u32. assert (in_u32 (query_offset q + Z.of_nat (length shown)) = true) as -> by width. done. }
  destruct more; cbn [ok_or result_bind]; by rewrite eqb_refl.
Qed.

Lemma list_notes_unfold q s :
  list_notes q s =
  (found <- mut_map_err Repository (on_repository (query (with_limit (query_limit q + 1) (repository_query q)))) ;;
   lift (fun _ => map_err InvalidCommand (NotePage_validate (page_of q found))) ;;; ret (O_Page (page_of q found))) s.
Proof. reflexivity. Qed.

Lemma list_notes_ok q : NoteQuery_validate q = Ok tt -> 0 <= query_offset q -> runs_ok (list_notes q).
Proof.
  intros Hq Ho s s' r Hs H. rewrite list_notes_unfold in H. unfold bind at 1 in H.
  destruct (mut_map_err Repository _ s) as [s1 r1] eqn:H1.
  apply on_repository_ok in H1 as (Hs1 & d' & x & Hx & ->); [| intros d d0 x Hx; by apply query_cases in Hx as [-> _] | done].
  destruct x as [found | e]; simpl in H; [| by injection H as <- <-].
  apply query_cases in Hx as (_ & _ & keys & _ & Hl). apply (are_stored_public _ _ _ (so_public s Hs)) in Hl.
  unfold bind, lift in H. rewrite page_valid in H by done. injection H as <- <-. split; [done |]. by apply page_valid.
Qed.

(** The exporter never holds more than its limit. *)
Definition exporter_fits (e : BoundedExporter) : Prop := len (ex_content e) <= ex_max_bytes e.

Lemma checked_len_some c f n : checked_len c f = Some n -> n = len (c +:+ f).
Proof. unfold checked_len. intros [-> _]%checked_u64_some. by rewrite len_app. Qed.

Lemma append_fits f e e' r : exporter_fits e -> append f e = (e', r) ->
  exporter_fits e' /\ ex_max_bytes e' = ex_max_bytes e.
Proof.
  unfold append, bind, lift, modify. intros He. destruct (checked_len (ex_content e) f) as [n |] eqn:Hn; simpl;
    [| by intros [= <- _]]. apply checked_len_some in Hn.
  destruct (ex_max_bytes e <? n) eqn:Hm; [by intros [= <- _] |]. intros [= <- _]. bool_facts.
  unfold exporter_fits. simpl. by rewrite <- Hn.
Qed.

Lemma append_all_fits l e e' r : exporter_fits e -> append_all l e = (e', r) ->
  exporter_fits e' /\ ex_max_bytes e' = ex_max_bytes e.
Proof.
  revert e. induction l as [| f l IH]; intros e He; cbn [append_all]; [by intros [= <- _] |].
  unfold bind. destruct (append f e) as [e1 [[] | x]] eqn:H1; apply append_fits in H1 as [He1 Hm]; try done.
  - intros H. apply IH in H as [? ?]; [split; [done | congruence] | done].
  - by intros [= <- _].
Qed.

Lemma write_fragments_fits limit l c c' o :
  write_fragments limit c l = (c', o) -> len c' <= Z.max (len c) limit.
Proof.
  revert c. induction l as [| f l IH]; intros c; cbn [write_fragments]; [intros [= <- _]; lia |].
  destruct (checked_len c f) as [n |] eqn:Hn; [| intros [= <- _]; lia]. apply checked_len_some in Hn.
  destruct (limit <? n) eqn:Hl; [intros [= <- _]; lia |]. bool_facts. intros H. apply IH in H. lia.
Qed.

Lemma len_take n s : len (str_take n s) <= len s.
Proof.
  revert s. induction n as [| n IH]; intros [| a s]; simpl; try (unfold len; simpl; lia).
  specialize (IH s). unfold len in *. cbn [String.length]. lia.
Qed.

Lemma push_markdown_unfold n e :
  push_markdown n e =
  match text_to_string (title n), tags_to_string (tags n) with
  | Some title_text, Some tags_text =>
      append_all (markdown_fragments n title_text tags_text (decimal (revision n))) e
  | _, _ => (e, Err E_Json)
  end.
Proof.
  unfold push_markdown, bind, lift. destruct (text_to_string (title n)); [| done]. cbn [ok_or].
  by destruct (tags_to_string (tags n)).
Qed.

Lemma push_fits n e e' r : exporter_fits e -> push n e = (e', r) ->
  exporter_fits e' /\ ex_max_bytes e' = ex_max_bytes e.
Proof.
  intros He. unfold push. destruct (append _ e) as [e1 [[] | x]] eqn:H1; apply append_fits in H1 as [He1 Hm]; try done;
    [| by intros [= <- _]].
  assert (forall e2 x, (match ex_format e1 with Json => push_json n e1 | Markdown => push_markdown n e1 end) = (e2, x) ->
            exporter_fits e2 /\ ex_max_bytes e2 = ex_max_bytes e1) as Hpush.
  { intros e2 x. destruct (ex_format e1).
    - rewrite push_markdown_unfold. destruct (text_to_string _); [| by intros [= <- _]].
      destruct (tags_to_string _); [| by intros [= <- _]]. by apply append_all_fits.
    - unfold push_json. destruct (ex_max_bytes e1 <? 2); [by intros [= <- _] |].
      destruct (note_fragments n) as [fragments ok]. destruct (write_fragments _ _ fragments) as [c o] eqn:Hw.
      intros [= <- _]. apply write_fragments_fits in Hw. unfold exporter_fits in *. simpl. split; [lia | done]. }
  destruct (match ex_format e1 with Json => push_json n e1 | Markdown => push_markdown n e1 end) as [e2 [[] | x]] eqn:H2;
    destruct (Hpush _ _ eq_refl) as [He2 Hm2]; intros [= <- _]; unfold exporter_fits in *; simpl; split; try congruence; try done.
  pose proof (len_take (String.length (ex_content e)) (ex_content e2)). lia.
Qed.

Lemma feed_push_fits l e e' r : exporter_fits e -> feed push l e = (e', r) ->
  exporter_fits e' /\ ex_max_bytes e' = ex_max_bytes e.
Proof.
  revert e. induction l as [| n l IH]; intros e He; cbn [feed]; [by intros [= <- _] |].
  unfold bind. destruct (push n e) as [e1 [[] | x]] eqn:H1; apply push_fits in H1 as [He1 Hm]; try done.
  - intros H. apply IH in H as [? ?]; [split; [done | congruence] | done].
  - by intros [= <- _].
Qed.

Lemma new_exporter_fits f e : new_exporter f MAX_NOTE_EXPORT_BYTES = Ok e ->
  exporter_fits e /\ ex_max_bytes e = MAX_NOTE_EXPORT_BYTES.
Proof.
  unfold new_exporter. destruct f; [by intros [= <-] |].
  destruct (append_all _ _) as [e1 [[] | x]] eqn:H; [| done]. intros [= <-]. by apply append_all_fits in H.
Qed.

Lemma finish_fits e content : exporter_fits e -> finish e = Ok content -> len content <= ex_max_bytes e.
Proof.
  unfold finish. intros He. destruct (ex_format e).
  - simpl. destruct (valid_utf8 _); [| done]. by intros [= <-].
  - destruct (append "]}" e) as [e1 [[] | x]] eqn:H; [| done]. apply append_fits in H as [He1 Hm]; [| done]. simpl.
    destruct (valid_utf8 _); [| done]. intros [= <-]. unfold exporter_fits in He1. lia.
Qed.

Lemma export_ok q f : runs_ok (export q f).
Proof.
  intros s s' r Hs H. unfold export, bind at 1, lift at 1 in H.
  destruct (new_exporter _ MAX_NOTE_EXPORT_BYTES) as [e | x] eqn:He; simpl in H;
    [| injection H as <- <-; split; [done |]; unfold map_export_error; by case_match].
  apply new_exporter_fits in He as [He Hmax]. unfold bind at 1 in H.
  destruct (mut_map_err map_export_error _ s) as [s1 r1] eqn:H1.
  assert (forall d d' x, export_query (repository_query q) e d = (d', x) -> db_tables d' = db_tables d) as Htables.
  { intros d d' x Hx. unfold export_query in Hx. destruct (visit_query push _ (d, e)) as [[d1 e1] y] eqn:Hv.
    apply visit_query_cases in Hv as [Ht _]. by destruct y; injection Hx as <- _. }
  apply on_repository_ok in H1 as (Hs1 & d' & x & Hx & ->); [| done | done].
  destruct x as [e1 | x]; simpl in H; [| injection H as <- <-; split; [done |]; unfold map_export_error; by case_match].
  assert (exporter_fits e1 /\ ex_max_bytes e1 = MAX_NOTE_EXPORT_BYTES) as [He1 Hmax1].
  { unfold export_query in Hx. destruct (visit_query push _ (repository s, e)) as [[d1 e2] y] eqn:Hv.
    apply visit_query_cases in Hv as [_ Hv]. destruct y as [u | y]; [| done]. injection Hx as _ <-.
    destruct Hv as (_ & keys & l & _ & _ & Hfeed). apply feed_push_fits in Hfeed as [? ?]; [| done]. split; [done | congruence]. }
  unfold bind, lift in H. destruct (finish e1) as [content | x] eqn:Hf; simpl in H;
    [| injection H as <- <-; split; [done |]; unfold map_export_error; by case_match].
  apply finish_fits in Hf; [| done]. injection H as <- <-. split; [done |]. rewrite Hmax1 in Hf.
  unfold output_valid, NoteExport_validate. simpl. pose proof (len_nonneg content).
  assert (as_u32 (len content) = len content) as -> by (apply Z.mod_small; change MAX_NOTE_EXPORT_BYTES with 26943488 in Hf; lia).
  rewrite Z.eqb_refl, (proj2 (Z.ltb_ge MAX_NOTE_EXPORT_BYTES _) Hf). simpl. apply sha256_hex_valid.
Qed.

(** ** Uploads *)

Lemma with_uploads_ok u reserved s :
  service_ok s -> map_Forall (fun _ => upload_valid) u -> service_ok (with_uploads u reserved s).
Proof. intros [Hw Hp _] Hu. by split. Qed.

Lemma remove_upload_ok i s : service_ok s -> service_ok (fst (remove_upload i s)).
Proof.
  intros Hs. unfold remove_upload. destruct (uploads s !! i); [| done]. simpl.
  apply with_uploads_ok; [done |]. apply map_Forall_delete, Hs.
Qed.

Lemma cleanup_ok now s : service_ok s -> service_ok (fst (cleanup_expired now s)).
Proof.
  unfold cleanup_expired. simpl. generalize ((List.filter (fun p => expired_upload now p.2) (map_to_list (uploads s))).*1).
  intros l. revert s. induction l as [| j l IH]; intros s Hs; simpl; [done |]. by apply IH, remove_upload_ok.
Qed.

Lemma discard_throw_ok i e : own_refusal e -> runs_ok (discard i ;;; throw e).
Proof.
  intros He s s' r Hs. unfold bind, discard, modify, throw. intros [= <- <-]. split; [by apply remove_upload_ok | done].
Qed.

Lemma begin_upload_ok uuid intent meta expected sha_text now :
  NoteWriteIntent_validate intent = Ok tt -> NoteDraftMeta_validate meta = Ok tt ->
  0 <= expected <= MAX_NOTE_BODY_BYTES -> runs_ok (begin_upload uuid intent meta expected sha_text now).
Proof.
  intros Hi Hm Hb s s' r Hs. unfold begin_upload, bind, lift, modify. destruct (negb _); [by intros [= <- <-] |].
  destruct (_ || _); [by intros [= <- <-] |]. intros [= <- <-]. split; [| done]. apply with_uploads_ok; [done |].
  apply map_Forall_insert_2; [| apply Hs]. unfold upload_valid. simpl. split_and!; try done; lia.
Qed.

Lemma append_upload_ok i sequence offset data now : runs_ok (append_upload i sequence offset data now).
Proof.
  unfold append_upload. destruct (base64_decode data) as [[| b decoded] |]; try by apply discard_throw_ok.
  destruct (_ <=? NOTE_CONTENT_CHUNK_BYTES); [| by apply discard_throw_ok]. intros s s' r Hs.
  unfold bind at 1, lift at 1. destruct (uploads s !! i) as [u |] eqn:Hu; simpl; [| by intros [= <- <-]].
  destruct (negb (sequence =? _)); [by apply discard_throw_ok |]. destruct (negb (offset =? _)); [by apply discard_throw_ok |].
  destruct (up_expected_total_bytes u <? _) eqn:Hlen; [by apply discard_throw_ok |]. bool_facts.
  destruct (so_uploads s Hs i u Hu) as (Hui & Hum & Hub).
  assert (forall n t, upload_valid (with_progress n t (with_chunk (b :: decoded) u)) /\
                      upload_valid (with_chunk (b :: decoded) u)) as Hv.
  { intros n t. unfold upload_valid. simpl. rewrite length_app. simpl in *. split_and!; try done; lia. }
  unfold bind, lift, set_upload, modify. simpl. destruct (Hv 0 0) as [_ Hv1].
  destruct (checked_u32 _) as [n |]; simpl; intros [= <- <-]; split; try done.
  - apply with_uploads_ok; [apply with_uploads_ok; [done |] |]; repeat apply map_Forall_insert_2; try apply Hs; try done.
  - apply with_uploads_ok; [done |]. apply map_Forall_insert_2; [done | apply Hs].
Qed.

Lemma commit_upload_ok uuid i intent now_ms : runs_ok (commit_upload uuid i intent now_ms).
Proof.
  intros s s' r Hs. unfold commit_upload, bind, take_upload, remove_upload.
  destruct (uploads s !! i) as [u |] eqn:Hu; simpl; [| by intros [= <- <-]].
  destruct (so_uploads s Hs i u Hu) as (Hui & Hum & Hub).
  assert (service_ok (with_uploads (delete i (uploads s))
            (Z.max 0 (reserved_staged_bytes s - up_expected_total_bytes u)) s)) as Hs'.
  { apply with_uploads_ok; [done |]. apply map_Forall_delete, Hs. }
  destruct (negb _) eqn:Hi; [by intros [= <- <-] |]. destruct (negb (Z.of_nat _ =? _)) eqn:Hl; [by intros [= <- <-] |].
  destruct (negb (String.eqb _ _)); [by intros [= <- <-] |]. destruct (negb (valid_utf8 _)); [by intros [= <- <-] |].
  apply commit_draft_ok; [done | | done].
  rewrite len_string_of_bytes. lia.
Qed.

(** The integers of a command are [u32]s. *)
Definition command_typed (c : NotesCommand) : Prop :=
  match c with
  | C_List q | C_Export q _ => 0 <= query_offset q
  | C_UploadBegin _ _ expected _ => 0 <= expected
  | _ => True
  end.

Lemma service_execute_ok q s s' r :
  service_ok s -> command_typed (req_command q) ->
  execute (req_uuid q) (req_command q) (req_now_ms q) (req_now q) s = (s', r) ->
  service_ok s' /\
  match r with
  | Ok o => output_valid o
  | Err e => own_refusal e \/
             exists reason, e = InvalidCommand reason /\ NotesCommand_validate (req_command q) = Err reason
  end.
Proof.
  intros Hs Ht H. unfold execute in H. unfold bind at 1, lift in H.
  destruct (NotesCommand_validate (req_command q)) as [[] | reason] eqn:Hv.
  2:{ injection H as <- <-. split; [done |]. right. by exists reason. }
  cbn [map_err] in H. unfold bind at 1, modify in H. apply (cleanup_ok (req_now q)) in Hs.
  assert (runs_ok (fun s1 =>
            match req_command q with
            | C_List q => list_notes q
            | C_Get note_id => get_note note_id
            | C_WriteInline intent meta body => commit_draft (req_uuid q) intent meta body (req_now_ms q)
            | C_Delete note_id expected_revision => delete_note note_id expected_revision (req_now_ms q)
            | C_Restore note_id expected_revision => restore_note note_id expected_revision (req_now_ms q)
            | C_Export q format => export q format
            | C_UploadBegin intent meta expected_total_bytes body_sha256 =>
                begin_upload (req_uuid q) intent meta expected_total_bytes body_sha256 (req_now q)
            | C_UploadAppend upload_id sequence offset data_base64 =>
                append_upload upload_id sequence offset data_base64 (req_now q)
            | C_UploadCommit upload_id intent => commit_upload (req_uuid q) upload_id intent (req_now_ms q)
            | C_UploadAbort upload_id => abort_upload upload_id
            end s1)) as Hrun.
  2:{ apply Hrun in H; [| done]. destruct r; destruct H; auto. }
  clear H s Hs. destruct (req_command q); unfold NotesCommand_validate in Hv; simpl in Hv, Ht.
  - apply list_notes_ok; [| done]. destruct (NoteQuery_validate query) as [[] |]; done.
  - apply get_note_ok.
  - destruct (NoteWriteIntent_validate intent) as [[] |]; [| done]. destruct (NoteDraftMeta_validate meta) as [[] |] eqn:Hm; [| done].
    simpl in Hv. destruct (MAX_NOTE_BODY_BYTES <? len body_markdown) eqn:Hb; [done |]. bool_facts. by apply commit_draft_ok.
  - apply mutation_runs_ok; [done |]. intros s s1 r1. apply set_deleted_public.
  - apply mutation_runs_ok; [done |]. intros s s1 r1. apply set_deleted_public.
  - apply export_ok.
  - destruct (NoteWriteIntent_validate intent) as [[] |] eqn:Hi; [| done]. destruct (NoteDraftMeta_validate meta) as [[] |] eqn:Hm; [| done].
    simpl in Hv. destruct (MAX_NOTE_BODY_BYTES <? expected_total_bytes) eqn:Hb; [done |]. bool_facts. by apply begin_upload_ok.
  - apply append_upload_ok.
  - apply commit_upload_ok.
  - intros s s1 r1 Hs. unfold abort_upload, bind, discard, modify, ret. intros [= <- <-]. split; [by apply remove_upload_ok | done].
Qed.

Lemma responds_ok l s : service_ok s -> Forall (fun q => command_typed (req_command q)) l ->
  service_ok (fold_left respond l s).
Proof.
  intros Hs Hl. revert s Hs. induction Hl as [| q l Hq Hl IH]; intros s Hs; simpl; [done |]. apply IH.
  unfold respond. destruct (execute _ _ _ _ s) as [s' r] eqn:H. by apply service_execute_ok in H as [H _].
Qed.

Lemma empty_service_ok faults : service_ok (NotesService_new (Build_Db empty_tables faults)).
Proof. split; [apply empty_wf | | done]. intros i n (r & n0 & Hr & _)%stored_some. done. Qed.

(** Clients only ever see valid answers: after any requests on a new database,
    whatever statements failed, what a request is answered with passes the
    validation the client applies to it - the page and its next offset, the
    document, the summary of the note that was written, deleted, restored or
    conflicts, the export and its length - and the service never refuses to
    show what it stored: a request is called invalid only for what validation of
    the command itself says, or because an upload was begun for another write. *)
Theorem service_answers_are_valid faults l q :
  Forall (fun q => command_typed (req_command q)) (l ++ [q]) ->
  let s := fold_left respond l (NotesService_new (Build_Db empty_tables faults)) in
  match (execute (req_uuid q) (req_command q) (req_now_ms q) (req_now q) s).2 with
  | Ok o => output_valid o
  | Err (InvalidCommand reason) =>
      reason = "note_upload_intent_mismatch"%string \/ NotesCommand_validate (req_command q) = Err reason
  | Err _ => True
  end.
Proof.
  intros Hl s. apply Forall_app in Hl as [Hl [Hq _]%Forall_cons].
  assert (service_ok s) as Hs by (apply responds_ok; [apply empty_service_ok | done]).
  destruct (execute _ _ _ _ s) as [s' r] eqn:H. apply service_execute_ok in H as [_ H]; [| done | done]. simpl.
  destruct r as [o | e]; [done |]. destruct e; try done. destruct H as [H | (x & [= ->] & H)]; auto.
Qed.
End Answers.

#[local] Existing Instance quoted_tags.
#[local] Existing Instance quoted_tags_laws.
#[local] Existing Instance ascii_case.
#[local] Existing Instance hex_uuids.
#[local] Existing Instance raw_chunks.
#[local] Existing Instance checksum.
#[local] Existing Instance quoted_notes.

#[local] Instance hex_uuids_laws : UuidFormatLaws.
Proof.
  split. intros u. change (is_Some (if (len (hex (be_bytes 16 u)) =? 32) && forallb is_hex (bytes (hex (be_bytes 16 u)))
    then Some (fold_left (fun n b => n * 16 + (if is_ascii_digit b then b - 48 else b - 87)) (bytes (hex (be_bytes 16 u))) 0)
    else None)).
  rewrite hex_length. change (2 * Z.of_nat (length (be_bytes 16 u)) =? 32) with true.
  rewrite hex_digits; [by eexists |]. generalize 16%nat. intros n.
  induction n as [| n IH]; constructor; [apply Z.mod_pos_bound; lia | done].
Qed.
#[local] Existing Instance checksum_laws.

Lemma service_answers_are_valid_witness :
  let q := {| req_uuid := 9; req_command := C_List NoteQuery_default; req_now_ms := 2000; req_now := 60 |} in
  let l := [{| req_uuid := 7; req_command := C_WriteInline Create plan_meta "first, second"; req_now_ms := 1000; req_now := 50 |}] in
  let s := fold_left respond l (NotesService_new (Build_Db empty_tables [])) in
  match (execute (req_uuid q) (req_command q) (req_now_ms q) (req_now q) s).2 with
  | Ok o => output_valid o
  | Err (InvalidCommand reason) =>
      reason = "note_upload_intent_mismatch"%string \/ NotesCommand_validate (req_command q) = Err reason
  | Err _ => True
  end.
Proof.
  intros q l. refine (service_answers_are_valid [] l q _).
  repeat constructor; unfold command_typed; simpl; lia.
Defined.

Example a_page_is_answered :
  let l := [{| req_uuid := 7; req_command := C_WriteInline Create plan_meta "first, second"; req_now_ms := 1000; req_now := 50 |}] in
  match (execute 9 (C_List NoteQuery_default) 2000 60 (fold_left respond l plan_service)).2 with
  | Ok (O_Page p) => sum_title <$> page_notes p = ["plan"%string] /\ page_next_offset p = None
  | _ => False
  end.
Proof. vm_compute. by split. Qed.

(** * Pages and exports of notes, exactly. *)

Section Pages.
Context {format : UuidFormat} {case : UnicodeCase} {json : TagsJson}
  {json_laws : TagsJsonLaws} {njson : NoteJson} {b64 : Base64} {sha : Sha256}
  {format_laws : UuidFormatLaws} {sha_laws : Sha256Laws}.

(** ** Pages *)

Definition at_offset (offset : Z) (q : NotesDomain.NoteQuery) : NotesDomain.NoteQuery :=
  {| query_search := query_search q; query_diary_date_from := query_diary_date_from q;
     query_diary_date_to := query_diary_date_to q; query_tags := query_tags q; query_status := query_status q;
     query_deleted := query_deleted q; query_sort := query_sort q; query_limit := query_limit q;
     query_offset := offset |}.

(** A client that asks for the page at [offset] and follows [next_offset]. *)
Fixpoint follow (fuel : nat) (q : NotesDomain.NoteQuery) (offset : Z) (s : NotesService)
  : option (list NoteSummary) :=
  match fuel with
  | O => None
  | S fuel =>
      match list_notes (at_offset offset q) s with
      | (s', Ok (O_Page p)) =>
          match page_next_offset p with
          | None => Some (page_notes p)
          | Some next => rest ← follow fuel q next s'; Some (page_notes p ++ rest)
          end
      | _ => None
      end
  end.

Definition quiet (s : NotesService) : Prop := db_faults (repository s) = [].

Lemma quiet_repository s : quiet s -> repository s = Build_Db (db_tables (repository s)) [].
Proof. unfold quiet. destruct (repository s) as [t f]. simpl. by intros ->. Qed.

(** The repository's query of a page: one note more than the page shows. *)
Definition page_query_of (q : NotesDomain.NoteQuery) : NoteQuery := with_limit (query_limit q + 1) (repository_query q).

Lemma validate_page_query q offset :
  NoteQuery_validate q = Ok tt ->
  validate_query (page_query_of q) = Ok tt -> validate_query (page_query_of (at_offset offset q)) = Ok tt.
Proof. done. Qed.

Lemma at_offset_valid q offset : NoteQuery_validate q = Ok tt -> offset <= MAX_NOTE_QUERY_OFFSET ->
  NoteQuery_validate (at_offset offset q) = Ok tt.
Proof.
  unfold NoteQuery_validate. simpl. intros Hq Ho. rewrite (proj2 (Z.ltb_ge MAX_NOTE_QUERY_OFFSET _) Ho).
  repeat case_match; done.
Qed.

Lemma list_notes_quiet q offset keys all s :
  service_ok s -> quiet s -> NoteQuery_validate q = Ok tt -> 0 <= offset <= MAX_NOTE_QUERY_OFFSET ->
  validate_query (page_query_of q) = Ok tt -> tag_keys (query_tags q) = Ok keys ->
  are_stored (db_tables (repository s)) (listing (repository_query q) keys (db_tables (repository s))) all ->
  list_notes (at_offset offset q) s =
  (s, Ok (O_Page (page_of (at_offset offset q)
            (firstn (Z.to_nat (query_limit q + 1)) (skipn (Z.to_nat offset) all))))).
Proof.
  intros Hs Hquiet Hq Ho Hv Hk Hall. rewrite list_notes_unfold.
  destruct (query_quiet (page_query_of (at_offset offset q)) keys (db_tables (repository s))) as (l & Hl & Hrun);
    [apply (so_tables s Hs) | done | done |].
  assert (l = firstn (Z.to_nat (query_limit q + 1)) (skipn (Z.to_nat offset) all)) as Heq.
  { by apply (are_stored_page (page_query_of (at_offset offset q)) keys (db_tables (repository s)) all l). }
  assert (Forall public_note l) as Hpub by (eapply are_stored_public; [apply (so_public s Hs) | exact Hl]).
  unfold bind, mut_map_err, on_repository, zoom, lift. rewrite (quiet_repository s Hquiet) at 1.
  fold (page_query_of (at_offset offset q)). rewrite Hrun. cbn [map_err].
  rewrite page_valid; [| by apply at_offset_valid; [| lia] | simpl; lia | done]. simpl.
  rewrite Heq. f_equal. unfold with_repository. rewrite <- (quiet_repository s Hquiet). by destruct s.
Qed.

Lemma follow_pages fuel q offset keys all s :
  service_ok s -> quiet s -> NoteQuery_validate q = Ok tt -> 0 <= offset ->
  validate_query (page_query_of q) = Ok tt -> tag_keys (query_tags q) = Ok keys ->
  are_stored (db_tables (repository s)) (listing (repository_query q) keys (db_tables (repository s))) all ->
  Z.of_nat (length all) <= MAX_NOTE_QUERY_OFFSET -> offset <= Z.of_nat (length all) ->
  (length (skipn (Z.to_nat offset) all) < fuel)%nat ->
  follow fuel q offset s = Some (note_summary <$> skipn (Z.to_nat offset) all).
Proof.
  intros Hs Hquiet Hq Ho Hv Hk Hall Hmax. revert offset Ho. induction fuel as [| fuel IH]; intros offset Ho Hle Hfuel; [lia |].
  cbn [follow]. destruct (query_validated q Hq) as [Hlim _].
  rewrite (list_notes_quiet q offset keys all s) by (done || lia). cbn [page_next_offset page_of page_notes].
  set (rest := skipn (Z.to_nat offset) all) in *. change (query_limit (at_offset offset q)) with (query_limit q).
  rewrite length_take. destruct (query_limit q <? _) eqn:Hmore; bool_facts.
  - rewrite take_take, Nat.min_l by lia.
    assert (length (firstn (Z.to_nat (query_limit q)) rest) = Z.to_nat (query_limit q)) as Hlen
      by (rewrite length_take; lia).
    rewrite length_fmap, Hlen, Z2Nat.id by lia. change (query_offset (at_offset offset q)) with offset.
    assert (as_u32 (query_limit q) = query_limit q) as -> by (unfold as_u32; apply Z.mod_small; lia).
    assert (length rest = length all - Z.to_nat offset)%nat as Hrest by apply length_drop.
    assert (checked_u32 (offset + query_limit q) = Some (offset + query_limit q)) as ->.
    { unfold checked_u32. assert (in_u32 (offset + query_limit q) = true) as ->; [| done].
      unfold MAX_NOTE_QUERY_OFFSET in Hmax. width. }
    assert (skipn (Z.to_nat (offset + query_limit q)) all = skipn (Z.to_nat (query_limit q)) rest) as Hskip.
    { unfold rest. rewrite drop_drop. f_equal. lia. }
    rewrite IH by (rewrite ?Hskip, ?length_drop; lia). simpl. rewrite Hskip.
    by rewrite <- fmap_app, take_drop.
  - rewrite take_ge by lia. done.
Qed.

(** C22: Pages list every note once: on a service in which no statement fails, a
    client that asks for the first page of a valid query and follows
    [next_offset] until there is none is shown, in order, the summaries of
    exactly the notes the query selects, each once - as long as there are at
    most 100,000 of them, the largest offset a query may have. *)
Theorem note_pages_list_each_note_once q keys s :
  service_ok s -> quiet s -> NoteQuery_validate q = Ok tt -> query_offset q = 0 ->
  validate_query (page_query_of q) = Ok tt -> tag_keys (query_tags q) = Ok keys ->
  let rows := listing (repository_query q) keys (db_tables (repository s)) in
  Z.of_nat (length rows) <= MAX_NOTE_QUERY_OFFSET ->
  exists all, are_stored (db_tables (repository s)) rows all /\
    follow (S (length rows)) q 0 s = Some (note_summary <$> all).
Proof.
  intros Hs Hquiet Hq Hzero Hv Hk rows Hmax.
  destruct (are_stored_exists (db_tables (repository s)) rows) as [all Hall];
    [apply (so_tables s Hs) | apply listing_rows |].
  pose proof (Forall2_length _ _ _ Hall) as Hlen. exists all. split; [done |].
  rewrite (follow_pages _ q 0 keys all s); rewrite ?skipn_O; try done; lia.
Qed.

(** ** Exports *)

(** serde_json writes something for every note, and does not fail. *)
Definition json_total : Prop := forall n, snd (note_fragments n) = true /\ fst (note_fragments n) <> [].

Definition json_text (n : Note) : string := joined (fst (note_fragments n)).
Definition markdown_text (n : Note) : string :=
  joined (markdown_fragments n (default "" (text_to_string (title n))) (default "" (tags_to_string (tags n)))
            (decimal (revision n))).

(** The text of some notes, the first of them the [count]-th. *)
Fixpoint rendered (f : ExportFormat) (count : Z) (l : list Note) : string :=
  match l with
  | [] => ""
  | n :: l' => separator f count +:+ (match f with Json => json_text n | Markdown => markdown_text n end)
                 +:+ rendered f (count + 1) l'
  end.

Definition json_head : string :=
  "{" +:+ quoted "schema" +:+ ":" +:+ quote +:+ EXPORT_SCHEMA +:+ quote +:+ "," +:+ quoted "notes" +:+ ":[".

Definition text_of (f : ExportFormat) (n : Note) : string :=
  match f with Json => json_text n | Markdown => markdown_text n end.

(** What stands between two notes. *)
Definition between (f : ExportFormat) : string :=
  match f with
  | Json => ","
  | Markdown => String newline (String newline ("---" +:+ String newline (String newline "")))
  end.

Definition document (f : ExportFormat) (l : list Note) : string :=
  let notes := String.concat (between f) (text_of f <$> l) in
  match f with
  | Json => json_head +:+ notes +:+ "]}"
  | Markdown => notes
  end.

(** What the closing of the document needs. *)
Definition reserve (f : ExportFormat) : Z := match f with Json => 2 | Markdown => 0 end.

Lemma append_exact f e :
  0 <= ex_max_bytes e <= u64_max ->
  append f e =
  if ex_max_bytes e <? len (ex_content e) + len f then (e, Err export_too_large)
  else (with_content (ex_content e +:+ f) e, Ok tt).
Proof.
  intros Hmax. unfold append, bind, lift, modify, checked_len.
  pose proof (len_nonneg (ex_content e)). pose proof (len_nonneg f).
  destruct (checked_u64 _) as [n |] eqn:Hn; simpl.
  - apply checked_u64_some in Hn as [-> _]. by destruct (ex_max_bytes e <? _).
  - rewrite (proj2 (Z.ltb_lt (ex_max_bytes e) _)); [done |].
    unfold checked_u64 in Hn. destruct (in_u64 _) eqn:Hu in Hn; [done |]. width.
Qed.

Lemma append_all_exact l e :
  0 <= ex_max_bytes e <= u64_max -> len (ex_content e) <= ex_max_bytes e ->
  if ex_max_bytes e <? len (ex_content e) + len (joined l)
  then exists e', append_all l e = (e', Err export_too_large)
  else append_all l e = (with_content (ex_content e +:+ joined l) e, Ok tt).
Proof.
  intros Hmax. revert e Hmax. induction l as [| f l IH]; intros e Hmax Hc.
  - change (joined []) with EmptyString. rewrite append_nil, (proj2 (Z.ltb_ge _ _)) by (unfold len at 2; simpl; lia).
    cbn [append_all]. by destruct e.
  - cbn [append_all]. unfold bind. rewrite append_exact, joined_cons, len_app by done.
    pose proof (len_nonneg (joined l)). destruct (ex_max_bytes e <? len (ex_content e) + len f) eqn:Hf; bool_facts.
    + rewrite (proj2 (Z.ltb_lt _ _)) by lia. by eexists.
    + specialize (IH (with_content (ex_content e +:+ f) e)). simpl in IH. rewrite len_app in IH.
      specialize (IH Hmax ltac:(lia)). rewrite append_assoc, Z.add_assoc. exact IH.
Qed.

Lemma write_fragments_exact limit l c :
  limit <= u64_max -> l <> [] ->
  if limit <? len c + len (joined l)
  then snd (write_fragments limit c l) = true
  else write_fragments limit c l = (c +:+ joined l, false).
Proof.
  intros Hmax. revert c. induction l as [| f l IH]; intros c Hne; [done |]. cbn [write_fragments].
  rewrite joined_cons, len_app. pose proof (len_nonneg c). pose proof (len_nonneg f). pose proof (len_nonneg (joined l)).
  unfold checked_len. destruct (checked_u64 (len c + len f)) as [n |] eqn:Hn.
  - apply checked_u64_some in Hn as [-> _]. destruct (limit <? len c + len f) eqn:Hf; bool_facts.
    + by rewrite (proj2 (Z.ltb_lt _ _)) by lia.
    + destruct l as [| g l].
      * change (joined []) with EmptyString. rewrite append_nil. unfold len at 3. cbn [String.length].
        by rewrite (proj2 (Z.ltb_ge _ _)) by lia.
      * specialize (IH (c +:+ f) ltac:(done)). rewrite len_app in IH. rewrite append_assoc, Z.add_assoc. exact IH.
  - rewrite (proj2 (Z.ltb_lt _ _)); [done |]. unfold checked_u64 in Hn. destruct (in_u64 _) eqn:Hu in Hn; [done |]. width.
Qed.

(** The exporter with a note more. *)
Definition pushed (e : BoundedExporter) (text : string) : BoundedExporter :=
  count_note (with_content (ex_content e +:+ separator (ex_format e) (ex_note_count e) +:+ text) e).

(** Every part of a note's text can be written. *)
Definition texts_total : Prop :=
  json_total /\ (forall n, is_Some (text_to_string (title n)) /\ is_Some (tags_to_string (tags n))).

Lemma push_exact n e :
  texts_total -> reserve (ex_format e) <= ex_max_bytes e <= u64_max ->
  len (ex_content e) <= ex_max_bytes e - reserve (ex_format e) ->
  if ex_max_bytes e - reserve (ex_format e)
       <? len (ex_content e) + (len (separator (ex_format e) (ex_note_count e)) + len (text_of (ex_format e) n))
  then exists e', push n e = (e', Err export_too_large)
  else push n e = (pushed e (text_of (ex_format e) n), Ok tt).
Proof.
  intros [Hjson Htext] Hmax Hc. unfold push. set (sep := separator _ _).
  pose proof (len_nonneg (text_of (ex_format e) n)). assert (0 <= reserve (ex_format e)) by (by destruct (ex_format e)).
  rewrite append_exact by lia. destruct (ex_max_bytes e <? len (ex_content e) + len sep) eqn:Hs; bool_facts.
  { rewrite (proj2 (Z.ltb_lt _ _)) by lia. by eexists. }
  cbn [ex_format with_content]. unfold pushed. fold sep. destruct (ex_format e) eqn:Hf; cbn [reserve text_of] in *.
  - rewrite push_markdown_unfold. destruct (Htext n) as [[t Ht] [g Hg]]. unfold markdown_text. rewrite Ht, Hg. cbn [default].
    pose proof (append_all_exact (markdown_fragments n t g (decimal (revision n)))
      (with_content (ex_content e +:+ sep) e)) as Ha. cbn [ex_content ex_max_bytes with_content] in Ha.
    rewrite len_app in Ha. specialize (Ha ltac:(lia) ltac:(lia)).
    rewrite <- Z.add_assoc in Ha. rewrite Z.sub_0_r. unfold id in Ha.
    destruct (ex_max_bytes e <? _).
    + destruct Ha as [e' ->]. by eexists.
    + rewrite Ha. by rewrite append_assoc.
  - unfold push_json. cbn [ex_content ex_max_bytes with_content]. rewrite (proj2 (Z.ltb_ge (ex_max_bytes e) 2)) by lia.
    destruct (Hjson n) as [Hok Hne]. unfold json_text. destruct (note_fragments n) as [fragments ok]. cbn [fst snd] in *. subst ok.
    pose proof (write_fragments_exact (ex_max_bytes e - 2) fragments (ex_content e +:+ sep) ltac:(lia) Hne) as Hw.
    rewrite len_app, <- Z.add_assoc in Hw. destruct (ex_max_bytes e - 2 <? _).
    + destruct (write_fragments _ _ fragments) as [c o]. simpl in Hw. subst o. by eexists.
    + rewrite Hw. by rewrite append_assoc.
Qed.

Lemma separator_text f count n l :
  rendered f count (n :: l) = separator f count +:+ text_of f n +:+ rendered f (count + 1) l.
Proof. by destruct f. Qed.

Lemma feed_push_exact l e :
  texts_total -> reserve (ex_format e) <= ex_max_bytes e <= u64_max -> 0 <= ex_note_count e ->
  len (ex_content e) <= ex_max_bytes e - reserve (ex_format e) ->
  if ex_max_bytes e - reserve (ex_format e) <? len (ex_content e) + len (rendered (ex_format e) (ex_note_count e) l)
  then exists e', feed push l e = (e', Err export_too_large)
  else exists e', feed push l e = (e', Ok tt) /\ ex_format e' = ex_format e /\ ex_max_bytes e' = ex_max_bytes e /\
         ex_content e' = ex_content e +:+ rendered (ex_format e) (ex_note_count e) l.
Proof.
  intros Htot. revert e. induction l as [| n l IH]; intros e Hmax Hcount Hc.
  - cbn [rendered feed]. rewrite (proj2 (Z.ltb_ge _ _)) by (unfold len at 2; simpl; lia).
    exists e. by rewrite append_nil.
  - rewrite separator_text, !len_app. cbn [feed]. unfold bind.
    pose proof (push_exact n e Htot Hmax Hc) as Hp. pose proof (len_nonneg (rendered (ex_format e) (ex_note_count e + 1) l)).
    destruct (_ <? len (ex_content e) + (len (separator _ _) + len (text_of _ n))) eqn:Hfit in Hp; bool_facts.
    + destruct Hp as [e' ->]. rewrite (proj2 (Z.ltb_lt _ _)) by lia. by eexists.
    + rewrite Hp. set (e1 := pushed e _) in *.
      assert (len (ex_content e1) = len (ex_content e) + (len (separator (ex_format e) (ex_note_count e))
                + len (text_of (ex_format e) n))) as Hlen by (unfold e1, pushed; simpl; rewrite !len_app; lia).
      specialize (IH e1). rewrite Hlen in IH.
      change (ex_format e1) with (ex_format e) in IH. change (ex_max_bytes e1) with (ex_max_bytes e) in IH.
      change (ex_note_count e1) with (ex_note_count e + 1) in IH.
      specialize (IH Hmax ltac:(lia) ltac:(lia)).
      match type of IH with (if _ <? ?x then _ else _) =>
        match goal with |- (if _ <? ?y then _ else _) => replace x with y in IH by lia end end.
      destruct (_ <? _); [exact IH |].
      destruct IH as (e' & Hfeed & Hf & Hm & Hcont). exists e'. split_and!; [done | done | done |].
      rewrite Hcont. unfold e1, pushed. simpl. by rewrite !append_assoc.
Qed.

Definition format_of (f : NoteExportFormat) : ExportFormat :=
  match f with Export_Markdown => Markdown | Export_Json => Json end.
Definition head_of (f : ExportFormat) : string := match f with Json => json_head | Markdown => "" end.
Definition tail_of (f : ExportFormat) : string := match f with Json => "]}" | Markdown => "" end.

Lemma rendered_concat f l count : 0 <= count ->
  rendered f count l =
  match l with
  | [] => ""
  | _ => separator f count +:+ String.concat (between f) (text_of f <$> l)
  end.
Proof.
  revert count. induction l as [| n l IH]; intros count Hc; [done |].
  rewrite separator_text, IH by lia. destruct l as [| n' l]; cbn [fmap list_fmap String.concat].
  - by rewrite append_nil.
  - assert (separator f (count + 1) = between f) as -> by (unfold separator; by rewrite (proj2 (Z.eqb_neq _ _)) by lia).
    done.
Qed.

Lemma document_parts f l : document f l = head_of f +:+ rendered f 0 l +:+ tail_of f.
Proof.
  assert (rendered f 0 l = String.concat (between f) (text_of f <$> l)) as -> by (rewrite rendered_concat by done; by destruct l).
  destruct f; cbn [document head_of tail_of]; [by rewrite append_nil | done].
Qed.

Lemma new_exporter_exact f :
  new_exporter f MAX_NOTE_EXPORT_BYTES =
  Ok {| ex_format := f; ex_max_bytes := MAX_NOTE_EXPORT_BYTES; ex_note_count := 0; ex_content := head_of f |}.
Proof. destruct f; [reflexivity | vm_compute; reflexivity]. Qed.

Lemma finish_exact e :
  0 <= ex_max_bytes e <= u64_max -> len (ex_content e) <= ex_max_bytes e - reserve (ex_format e) ->
  finish e =
  let content := ex_content e +:+ tail_of (ex_format e) in
  if valid_utf8 (bytes content) then Ok content else Err (E_CorruptData "export" "invalid utf-8").
Proof.
  intros Hmax Hc. unfold finish. destruct (ex_format e); cbn [reserve tail_of] in *.
  - cbn [result_bind]. by rewrite append_nil.
  - rewrite append_exact by done. change (len "]}") with 2.
    by rewrite (proj2 (Z.ltb_ge (ex_max_bytes e) _)) by lia.
Qed.

(** C24: An export is exact: on a service in which no statement fails, the export of
    a valid query is the document made of its notes - for JSON the schema and
    the notes' JSON separated by commas, for Markdown each note's front matter
    and body separated by rules - if that is at most [MAX_NOTE_EXPORT_BYTES]
    long, and is refused as too large exactly if it is longer; nothing is ever
    cut off. The export changes nothing. *)
Theorem note_export_is_exact q f keys s :
  texts_total -> tables_wf (db_tables (repository s)) -> quiet s ->
  validate_query (repository_query q) = Ok tt -> tag_keys (query_tags q) = Ok keys ->
  exists l, are_stored (db_tables (repository s))
              (page_rows (repository_query q) keys (db_tables (repository s))) l /\
    export q f s =
    (s, let content := document (format_of f) l in
        if MAX_NOTE_EXPORT_BYTES <? len content then Err ExportTooLarge
        else if valid_utf8 (bytes content)
             then Ok (O_Export {| export_format := f; export_content := content;
                                  export_content_bytes := len content;
                                  export_content_sha256 := sha256_hex (bytes content) |})
             else Err (Repository (E_CorruptData "export" "invalid utf-8"))).
Proof.
  intros Htot Hwf Hquiet Hv Hk.
  set (e0 := {| ex_format := format_of f; ex_max_bytes := MAX_NOTE_EXPORT_BYTES; ex_note_count := 0;
                ex_content := head_of (format_of f) |}).
  destruct (visit_query_quiet push (repository_query q) keys (db_tables (repository s)) e0 Hwf Hv Hk) as (l & Hl & Hrun).
  exists l. split; [done |]. unfold export. fold (format_of f).
  unfold bind at 1, lift at 1. rewrite new_exporter_exact. cbn [map_err]. fold e0.
  unfold bind at 1, mut_map_err, on_repository, zoom, export_query. rewrite (quiet_repository s Hquiet) at 1. rewrite Hrun.
  assert (reserve (format_of f) + len (head_of (format_of f)) <= MAX_NOTE_EXPORT_BYTES <= u64_max) as Hsizes
    by (by destruct f; vm_compute).
  pose proof (len_nonneg (head_of (format_of f))). assert (0 <= reserve (format_of f)) by (by destruct f).
  pose proof (feed_push_exact l e0 Htot) as Hfeed. cbn [ex_format ex_max_bytes ex_note_count ex_content e0] in Hfeed.
  specialize (Hfeed ltac:(lia) ltac:(lia) ltac:(lia)).
  assert (len (tail_of (format_of f)) = reserve (format_of f)) as Htail by (by destruct f).
  assert (with_repository (Build_Db (db_tables (repository s)) []) s = s) as Hsame.
  { unfold with_repository. rewrite <- (quiet_repository s Hquiet). by destruct s. }
  rewrite document_parts, !len_app, Htail. cbv zeta.
  destruct (_ <? len (head_of _) + len (rendered _ 0 l)) eqn:Hfit in Hfeed; bool_facts.
  - destruct Hfeed as [e' ->]. rewrite (proj2 (Z.ltb_lt MAX_NOTE_EXPORT_BYTES _)) by lia. cbn [map_err].
    by rewrite Hsame.
  - destruct Hfeed as (e' & -> & Hf & Hm & Hc). rewrite (proj2 (Z.ltb_ge MAX_NOTE_EXPORT_BYTES _)) by lia. cbn [map_err].
    rewrite Hsame. unfold bind, lift. rewrite finish_exact; rewrite ?Hf, ?Hm, ?Hc, ?len_app; [| lia | lia].
    rewrite <- append_assoc. cbv zeta. destruct (valid_utf8 _); [| done]. cbn [map_err ret].
    pose proof (len_nonneg (rendered (format_of f) 0 l)). unfold ret, as_u32. rewrite !len_app, Htail.
    rewrite Z.mod_small; [done |]. change MAX_NOTE_EXPORT_BYTES with 26943488 in *. lia.
Qed.
End Pages.

(** ** Witnesses *)

#[local] Existing Instance quoted_tags.
#[local] Existing Instance quoted_tags_laws.
#[local] Existing Instance ascii_case.
#[local] Existing Instance hex_uuids.
#[local] Existing Instance raw_chunks.
#[local] Existing Instance checksum.
#[local] Existing Instance quoted_notes.

#[local] Existing Instance hex_uuids_laws.
#[local] Existing Instance checksum_laws.

Definition written_service : NotesService :=
  fold_left respond
    [{| req_uuid := 7; req_command := C_WriteInline Create plan_meta "first, second"; req_now_ms := 1000; req_now := 50 |};
     {| req_uuid := 8; req_command := C_WriteInline Create plan_meta "third"; req_now_ms := 1100; req_now := 60 |}]
    plan_service.

Lemma written_service_ok : service_ok written_service.
Proof. apply responds_ok; [apply empty_service_ok | repeat constructor]. Qed.

Definition one_per_page : NotesDomain.NoteQuery :=
  {| query_search := None; query_diary_date_from := None; query_diary_date_to := None; query_tags := ["Work"%string];
     query_status := None; query_deleted := Exclude; query_sort := TitleAsc; query_limit := 1; query_offset := 0 |}.

Lemma note_pages_list_each_note_once_witness :
  exists fuel summaries, follow fuel one_per_page 0 written_service = Some summaries /\ length summaries = 2%nat.
Proof.
  destruct (note_pages_list_each_note_once one_per_page ["work"%string] written_service) as (all & _ & Hf).
  - apply written_service_ok.
  - vm_compute. reflexivity.
  - vm_compute. reflexivity.
  - reflexivity.
  - vm_compute. reflexivity.
  - vm_compute. reflexivity.
  - vm_compute. discriminate.
  - eexists _, (note_summary <$> all). split; [exact Hf |].
    assert (length <$> follow (S (length (listing (repository_query one_per_page) ["work"%string]
              (db_tables (repository written_service))))) one_per_page 0 written_service = Some 2%nat) as Hn
      by (vm_compute; reflexivity).
    rewrite Hf in Hn. injection Hn as Hn. exact Hn.
Defined.

Lemma quoted_texts_total : texts_total.
Proof. split; [done |]. intros n. split; by eexists. Qed.

Lemma note_export_is_exact_witness :
  exists l, are_stored (db_tables (repository written_service))
              (page_rows (repository_query NoteQuery_default) [] (db_tables (repository written_service))) l /\
    is_ok (export NoteQuery_default Export_Json written_service).2 = true.
Proof.
  destruct (note_export_is_exact NoteQuery_default Export_Json [] written_service quoted_texts_total) as (l & Hl & _).
  - apply (so_tables _ written_service_ok).
  - vm_compute. reflexivity.
  - vm_compute. reflexivity.
  - reflexivity.
  - exists l. split; [exact Hl | vm_compute; reflexivity].
Defined.
