(* ===== verification/Domain.v ===== *)
(** [crates/domain/src/capability.rs] and [health.rs]: the capabilities the
    daemon reports and the health of a request. *)

From S2P Require Import Prelude Text Encoding RemoteCore.

(** ** capability.rs *)

Definition APPD_HEALTH_CAPABILITY : string := "appd.health.v1".
Definition TELEMETRY_SNAPSHOT_CAPABILITY : string := "telemetry.snapshot.v1".
Definition NETWORK_SYSTEM_CAPABILITY : string := "network.system.v1".
Definition NETWORK_PER_APP_CAPABILITY : string := "network.per_app.v1".
Definition NETWORK_SPEEDTEST_CAPABILITY : string := "network.speedtest.v1".
Definition NETWORK_IP_PURITY_CAPABILITY : string := "network.ip_purity.v1".
Definition NETWORK_DEEPTEST_CAPABILITY : string := "network.deeptest.v1".
Definition USAGE_FOREGROUND_CAPABILITY : string := "usage.foreground.v1".
Definition REMOTE_SSH_CAPABILITY : string := "remote.ssh.v1".
Definition REMOTE_SFTP_CAPABILITY : string := "remote.sftp.v1".
Definition REMOTE_FTP_CAPABILITY : string := "remote.ftp.v1".
Definition REMOTE_SMB_CAPABILITY : string := "remote.smb.v1".
Definition TRANSFERS_CAPABILITY : string := "transfers.v1".
Definition NOTES_CAPABILITY : string := "notes.v1".
Definition NOT_IMPLEMENTED_REASON : string := "not_implemented".

Definition KNOWN_CAPABILITIES : list string :=
  [APPD_HEALTH_CAPABILITY; TELEMETRY_SNAPSHOT_CAPABILITY; NETWORK_SYSTEM_CAPABILITY;
   NETWORK_PER_APP_CAPABILITY; NETWORK_SPEEDTEST_CAPABILITY; NETWORK_IP_PURITY_CAPABILITY;
   NETWORK_DEEPTEST_CAPABILITY; USAGE_FOREGROUND_CAPABILITY; REMOTE_SSH_CAPABILITY;
   REMOTE_SFTP_CAPABILITY; REMOTE_FTP_CAPABILITY; REMOTE_SMB_CAPABILITY; TRANSFERS_CAPABILITY;
   NOTES_CAPABILITY].

Inductive CapabilityAvailability := Cap_Healthy | Cap_Degraded | Cap_Unsupported | Cap_Unreachable.
#[export] Instance CapabilityAvailability_eq_dec : EqDecision CapabilityAvailability.
Proof. solve_decision. Defined.

Record Capability := { cap_id : string; cap_status : CapabilityAvailability; cap_reason : string }.
#[export] Instance Capability_eq_dec : EqDecision Capability.
Proof. solve_decision. Defined.

Record CapabilityRuntimeState := { run_status : CapabilityAvailability; run_reason : string }.
#[export] Instance CapabilityRuntimeState_eq_dec : EqDecision CapabilityRuntimeState.
Proof. solve_decision. Defined.

Definition run_healthy (reason : string) : CapabilityRuntimeState :=
  {| run_status := Cap_Healthy; run_reason := reason |}.
Definition run_degraded (reason : string) : CapabilityRuntimeState :=
  {| run_status := Cap_Degraded; run_reason := reason |}.
Definition run_unsupported (reason : string) : CapabilityRuntimeState :=
  {| run_status := Cap_Unsupported; run_reason := reason |}.
Definition run_unreachable (reason : string) : CapabilityRuntimeState :=
  {| run_status := Cap_Unreachable; run_reason := reason |}.

Record CapabilityRuntime := {
  appd_health : CapabilityRuntimeState;
  telemetry_snapshot : CapabilityRuntimeState;
  network_system : CapabilityRuntimeState;
  network_per_app : CapabilityRuntimeState;
  network_speedtest : CapabilityRuntimeState;
  network_ip_purity : CapabilityRuntimeState;
  network_deeptest : CapabilityRuntimeState;
  usage_foreground : CapabilityRuntimeState;
  remote_ssh : CapabilityRuntimeState;
  remote_sftp : CapabilityRuntimeState;
  remote_ftp : CapabilityRuntimeState;
  remote_smb : CapabilityRuntimeState;
  transfers : CapabilityRuntimeState;
  notes : CapabilityRuntimeState;
}.

Definition CapabilityRuntime_new (appd telemetry system per_app usage : CapabilityRuntimeState)
  : CapabilityRuntime :=
  {| appd_health := appd; telemetry_snapshot := telemetry; network_system := system;
     network_per_app := per_app;
     network_speedtest := run_unsupported "speedtest_tools_not_detected";
     network_ip_purity := run_unsupported "ip_purity_tools_not_detected";
     network_deeptest := run_unsupported "deeptest_tools_not_detected";
     usage_foreground := usage;
     remote_ssh := run_unsupported "appd_remote_adapter_not_wired";
     remote_sftp := run_unsupported "appd_remote_adapter_not_wired";
     remote_ftp := run_unsupported "appd_remote_adapter_not_wired";
     remote_smb := run_unsupported "smb_diagnostic_only";
     transfers := run_unsupported "sqlite_driver_not_implemented";
     notes := run_unsupported "appd_notes_not_wired" |}.

Definition with_speedtest (speedtest ip_purity deeptest : CapabilityRuntimeState) (r : CapabilityRuntime)
  : CapabilityRuntime :=
  {| appd_health := appd_health r; telemetry_snapshot := telemetry_snapshot r;
     network_system := network_system r; network_per_app := network_per_app r;
     network_speedtest := speedtest; network_ip_purity := ip_purity; network_deeptest := deeptest;
     usage_foreground := usage_foreground r; remote_ssh := remote_ssh r; remote_sftp := remote_sftp r;
     remote_ftp := remote_ftp r; remote_smb := remote_smb r; transfers := transfers r; notes := notes r |}.

Definition with_remote (ssh sftp ftp smb transfers : CapabilityRuntimeState) (r : CapabilityRuntime)
  : CapabilityRuntime :=
  {| appd_health := appd_health r; telemetry_snapshot := telemetry_snapshot r;
     network_system := network_system r; network_per_app := network_per_app r;
     network_speedtest := network_speedtest r; network_ip_purity := network_ip_purity r;
     network_deeptest := network_deeptest r; usage_foreground := usage_foreground r;
     remote_ssh := ssh; remote_sftp := sftp; remote_ftp := ftp; remote_smb := smb;
     transfers := transfers; notes := notes r |}.

Definition with_notes (notes : CapabilityRuntimeState) (r : CapabilityRuntime) : CapabilityRuntime :=
  {| appd_health := appd_health r; telemetry_snapshot := telemetry_snapshot r;
     network_system := network_system r; network_per_app := network_per_app r;
     network_speedtest := network_speedtest r; network_ip_purity := network_ip_purity r;
     network_deeptest := network_deeptest r; usage_foreground := usage_foreground r;
     remote_ssh := remote_ssh r; remote_sftp := remote_sftp r; remote_ftp := remote_ftp r;
     remote_smb := remote_smb r; transfers := transfers r; notes := notes |}.

Definition static_capability_reason (id : string) : string :=
  if String.eqb id NOTES_CAPABILITY then "appd_notes_not_wired" else NOT_IMPLEMENTED_REASON.

(** The chain of comparisons of [capability_catalog]. *)
Definition runtime_state (r : CapabilityRuntime) (id : string) : CapabilityRuntimeState :=
  if String.eqb id APPD_HEALTH_CAPABILITY then appd_health r
  else if String.eqb id TELEMETRY_SNAPSHOT_CAPABILITY then telemetry_snapshot r
  else if String.eqb id NETWORK_SYSTEM_CAPABILITY then network_system r
  else if String.eqb id NETWORK_PER_APP_CAPABILITY then network_per_app r
  else if String.eqb id NETWORK_SPEEDTEST_CAPABILITY then network_speedtest r
  else if String.eqb id NETWORK_IP_PURITY_CAPABILITY then network_ip_purity r
  else if String.eqb id NETWORK_DEEPTEST_CAPABILITY then network_deeptest r
  else if String.eqb id USAGE_FOREGROUND_CAPABILITY then usage_foreground r
  else if String.eqb id REMOTE_SSH_CAPABILITY then remote_ssh r
  else if String.eqb id REMOTE_SFTP_CAPABILITY then remote_sftp r
  else if String.eqb id REMOTE_FTP_CAPABILITY then remote_ftp r
  else if String.eqb id REMOTE_SMB_CAPABILITY then remote_smb r
  else if String.eqb id TRANSFERS_CAPABILITY then transfers r
  else if String.eqb id NOTES_CAPABILITY then notes r
  else run_unsupported (static_capability_reason id).

Definition capability_catalog (r : CapabilityRuntime) : list Capability :=
  (fun id => {| cap_id := id; cap_status := run_status (runtime_state r id);
                cap_reason := run_reason (runtime_state r id) |}) <$> KNOWN_CAPABILITIES.

(** ** health.rs *)

Inductive HealthState := Healthy | Degraded | Unsupported | Unreachable.
#[export] Instance HealthState_eq_dec : EqDecision HealthState.
Proof. solve_decision. Defined.

Definition is_online (s : HealthState) : bool :=
  match s with Healthy | Degraded => true | _ => false end.
Definition is_healthy (s : HealthState) : bool := match s with Healthy => true | _ => false end.

Definition health_reason (s : HealthState) : string :=
  match s with
  | Healthy => "all_requested_capabilities_available"
  | Degraded => "appd_online_with_unavailable_capabilities"
  | Unsupported => "protocol_or_runtime_unsupported"
  | Unreachable => "appd_unreachable"
  end.

Record RequestHealth := { health : HealthState; health_text : string }.
#[export] Instance RequestHealth_eq_dec : EqDecision RequestHealth.
Proof. solve_decision. Defined.

Definition RequestHealth_from_state (s : HealthState) : RequestHealth :=
  {| health := s; health_text := health_reason s |}.

Definition aggregate_request_health (daemon : option RequestHealth) (requested : list Capability)
  : option RequestHealth :=
  daemon ← daemon;
  if negb (is_online (health daemon)) then Some daemon
  else match List.find (fun c => negb (eqb (cap_status c) Cap_Healthy)) requested with
       | Some c => Some {| health := Degraded; health_text := cap_reason c |}
       | None => Some daemon
       end.

(** * [crates/domain/src/network.rs]: the network snapshot the daemon publishes. *)

Definition NETWORK_SCHEMA_VERSION : Z := 1.
Definition MAX_NETWORK_INTERFACES : Z := 256.
Definition MAX_NETWORK_APPLICATIONS : Z := 1024.
Definition MAX_INTERFACE_NAME_BYTES : Z := 256.
Definition NETWORK_TOTAL_SCOPE : string := "inclusive_interfaces".

Inductive NetworkFreshness := Net_Fresh | Net_WarmingUp | Net_Stale | Net_Unknown.
#[export] Instance NetworkFreshness_eq_dec : EqDecision NetworkFreshness.
Proof. solve_decision. Defined.

Inductive NetworkInterfaceKind := Physical | Loopback | Tunnel | Virtual.

Inductive NetworkRateState :=
| Rate_Known | Rate_WarmingUp | Rate_SamplingGap | Rate_CounterResetOrWrap | Rate_CountersUnavailable.
#[export] Instance NetworkRateState_eq_dec : EqDecision NetworkRateState.
Proof. solve_decision. Defined.

Inductive NetworkInterfaceTransition :=
| Stable | FirstObservation | HotplugAdded | Tr_SamplingGap | Tr_CounterResetOrWrap | Tr_CountersUnavailable.

Inductive NetworkLayeredAccounting := NotDetected | PossibleVpnUnderlayDoubleCounting.

Record NetworkCapabilityState := { ncs_status : CapabilityAvailability; ncs_reason : string }.

Record NetworkByteTotals := { total_rx_bytes : Z; total_tx_bytes : Z }.

Record NetworkTrafficTotals := {
  totals_scope : string;
  all_interfaces : NetworkByteTotals;
  physical : NetworkByteTotals;
  loopback : NetworkByteTotals;
  tunnel : NetworkByteTotals;
  other_virtual : NetworkByteTotals;
}.

Record NetworkRate := {
  rx_bytes_per_second : option f64;
  tx_bytes_per_second : option f64;
  rate_state : NetworkRateState;
  rate_reason : string;
}.

Record NetworkInterfaceSample := {
  if_index : Z;
  if_name : string;
  if_kind : NetworkInterfaceKind;
  if_kernel_kind : option string;
  if_is_up : bool;
  if_carrier_up : bool;
  if_counters : option NetworkByteTotals;
  if_rate : NetworkRate;
  if_transition : NetworkInterfaceTransition;
}.

Record NetworkApplicationTraffic := {
  traffic_application_key : string;
  traffic_rx_bytes : Z;
  traffic_tx_bytes : Z;
  rx_share_percent : option f64;
  tx_share_percent : option f64;
}.

Record NetworkCoverage := {
  reported_interfaces : Z;
  interfaces_with_counters : Z;
  includes_loopback : bool;
  includes_tunnels : bool;
  layered_accounting : NetworkLayeredAccounting;
  coverage_reason : string;
}.

Record NetworkSnapshot := {
  net_schema_version : Z;
  net_snapshot_id : Uuid;
  net_captured_at_unix_ms : option Z;
  net_observed_boottime_ms : option Z;
  net_sample_interval_ms : option Z;
  net_last_success_at_unix_ms : option Z;
  net_freshness : NetworkFreshness;
  net_retryable : bool;
  net_system_traffic : NetworkCapabilityState;
  net_per_application : NetworkCapabilityState;
  net_coverage : NetworkCoverage;
  net_totals : option NetworkTrafficTotals;
  net_aggregate_rate : NetworkRate;
  net_interfaces : list NetworkInterfaceSample;
  net_applications : list NetworkApplicationTraffic;
}.

(** [uuid] is the fresh identifier. *)
Definition NetworkSnapshot_unavailable (uuid : Uuid) (reason : string) : NetworkSnapshot :=
  {| net_schema_version := NETWORK_SCHEMA_VERSION; net_snapshot_id := uuid;
     net_captured_at_unix_ms := None; net_observed_boottime_ms := None; net_sample_interval_ms := None;
     net_last_success_at_unix_ms := None; net_freshness := Net_Unknown; net_retryable := true;
     net_system_traffic := {| ncs_status := Cap_Unreachable; ncs_reason := reason |};
     net_per_application := {| ncs_status := Cap_Unsupported; ncs_reason := "per_app_collector_unavailable" |};
     net_coverage := {| reported_interfaces := 0; interfaces_with_counters := 0; includes_loopback := false;
                        includes_tunnels := false; layered_accounting := NotDetected;
                        coverage_reason := reason |};
     net_totals := None;
     net_aggregate_rate := {| rx_bytes_per_second := None; tx_bytes_per_second := None;
                              rate_state := Rate_CountersUnavailable;
                              rate_reason := "network_snapshot_unavailable" |};
     net_interfaces := []; net_applications := [] |}.

Definition valid_percent (value : option f64) : bool :=
  is_none_or (fun v => is_finite v && f64_contains f64_zero f64_hundred v) value.

Definition valid_rate (rate : NetworkRate) : bool :=
  let values_are_valid :=
    forallb (is_none_or (fun v => is_finite v && f64_le f64_zero v))
      [rx_bytes_per_second rate; tx_bytes_per_second rate] in
  let known_shape :=
    if eqb (rate_state rate) Rate_Known
    then is_some (rx_bytes_per_second rate) && is_some (tx_bytes_per_second rate)
    else is_none (rx_bytes_per_second rate) && is_none (tx_bytes_per_second rate) in
  values_are_valid && known_shape.

Definition interface_name_invalid (i : NetworkInterfaceSample) : bool :=
  is_empty (if_name i) || (MAX_INTERFACE_NAME_BYTES <? len (if_name i)) || contains_byte nul (if_name i).
Definition application_invalid (a : NetworkApplicationTraffic) : bool :=
  is_empty (traffic_application_key a) || (512 <? len (traffic_application_key a))
  || contains_byte nul (traffic_application_key a)
  || negb (valid_percent (rx_share_percent a)) || negb (valid_percent (tx_share_percent a)).

Definition NetworkSnapshot_validate (s : NetworkSnapshot) : result unit string :=
  fail_if negb (net_schema_version s =? NETWORK_SCHEMA_VERSION) with "network_schema_must_be_1"%string in
  fail_if MAX_NETWORK_INTERFACES <? Z.of_nat (length (net_interfaces s))
    with "network_interfaces_exceeds_256"%string in
  fail_if MAX_NETWORK_APPLICATIONS <? Z.of_nat (length (net_applications s))
    with "network_applications_exceeds_1024"%string in
  fail_if negb (reported_interfaces (net_coverage s) =? Z.of_nat (length (net_interfaces s)))
    with "network_reported_interface_count_mismatch"%string in
  fail_if reported_interfaces (net_coverage s) <? interfaces_with_counters (net_coverage s)
    with "network_counter_coverage_invalid"%string in
  fail_if existsb interface_name_invalid (net_interfaces s) with "network_interface_name_invalid"%string in
  fail_if existsb application_invalid (net_applications s) with "network_application_record_invalid"%string in
  fail_if negb (valid_rate (net_aggregate_rate s))
          || existsb (fun i => negb (valid_rate (if_rate i))) (net_interfaces s)
    with "network_rate_invalid"%string in
  fail_if is_some_and (fun t => negb (String.eqb (totals_scope t) NETWORK_TOTAL_SCOPE)) (net_totals s)
    with "network_total_scope_invalid"%string in
  fail_if eqb (ncs_status (net_system_traffic s)) Cap_Healthy
          && (is_none (net_captured_at_unix_ms s) || is_none (net_observed_boottime_ms s)
              || is_none (net_last_success_at_unix_ms s) || is_none (net_totals s)
              || negb (eqb (net_freshness s) Net_Fresh))
    with "network_healthy_state_missing_facts"%string in
  fail_if eqb (ncs_status (net_per_application s)) Cap_Unsupported
          && negb (length (net_applications s) =? 0)%nat
    with "network_unsupported_per_app_has_records"%string in
  Ok tt.

(** * [crates/domain/src/usage.rs]: the usage summary the daemon publishes. *)

Definition USAGE_SCHEMA_VERSION : Z := 3.
Definition MAX_USAGE_APPLICATIONS : Z := 1024.
Definition MAX_USAGE_APP_ID_BYTES : Z := 512.
Definition MAX_USAGE_BUCKET_KEY_BYTES : Z := 10.
Definition USAGE_DEFINITION : string := "foreground_unlocked_input_active_300s_monotonic".

Inductive UsagePeriod := Daily | Weekly.
#[export] Instance UsagePeriod_eq_dec : EqDecision UsagePeriod.
Proof. solve_decision. Defined.

Record UsageSummaryQuery := { period : UsagePeriod; query_bucket_key : string }.
#[export] Instance UsageSummaryQuery_eq_dec : EqDecision UsageSummaryQuery.
Proof. solve_decision. Defined.

Definition ascii_digits (l : list Z) : bool := forallb is_ascii_digit l.

(** The value is a [u8]: at most 99. *)
Definition two_digits_in_range (l : list Z) (minimum maximum : Z) : bool :=
  match l with
  | [a; b] => if negb (ascii_digits l) then false
              else in_range minimum maximum ((a - ch "0") * 10 + (b - ch "0"))
  | _ => false
  end.

Definition valid_daily_key (l : list Z) : bool :=
  (length l =? 10)%nat && byte_is l 4 (ch "-") && byte_is l 7 (ch "-") && ascii_digits (slice l 0 4)
  && two_digits_in_range (slice l 5 7) 1 12 && two_digits_in_range (slice l 8 10) 1 31.

Definition valid_weekly_key (l : list Z) : bool :=
  (length l =? 8)%nat && byte_is l 4 (ch "-") && byte_is l 5 (ch "W") && ascii_digits (slice l 0 4)
  && two_digits_in_range (slice l 6 8) 1 53.

Definition UsageSummaryQuery_validate (q : UsageSummaryQuery) : result unit string :=
  let l := bytes (query_bucket_key q) in
  fail_if (length l =? 0)%nat || (MAX_USAGE_BUCKET_KEY_BYTES <? Z.of_nat (length l))
          || contains_byte nul (query_bucket_key q)
    with "usage_bucket_key_invalid"%string in
  let valid := match period q with Daily => valid_daily_key l | Weekly => valid_weekly_key l end in
  fail_if negb valid with "usage_bucket_key_invalid"%string in
  Ok tt.

Record UsageApplicationDuration := {
  usage_app_id : string;
  usage_bucket_key : string;
  usage_timezone_id : string;
  usage_utc_offset_seconds : Z;
  usage_duration_ns : Z;
  usage_last_wall_utc_ms : Z;
}.

Record UsageCoverage := {
  uc_status : CapabilityAvailability;
  uc_reason : string;
  niri_event_stream_connected : bool;
  logind_session_available : bool;
  event_gap_count : Z;
  last_checkpoint_unix_ms : option Z;
  tracking_started_unix_ms : option Z;
  bucket_start_covered : bool;
  definition : string;
}.

Record UsageSummary := {
  us_schema_version : Z;
  us_snapshot_id : Uuid;
  us_captured_at_unix_ms : option Z;
  us_query : UsageSummaryQuery;
  us_status : CapabilityAvailability;
  us_reason : string;
  us_retryable : bool;
  us_coverage : UsageCoverage;
  us_applications : list UsageApplicationDuration;
}.

(** [uuid] is the fresh identifier. *)
Definition UsageSummary_unavailable (uuid : Uuid) (query : UsageSummaryQuery) (reason : string)
    (retryable : bool) : UsageSummary :=
  {| us_schema_version := USAGE_SCHEMA_VERSION; us_snapshot_id := uuid; us_captured_at_unix_ms := None;
     us_query := query; us_status := Cap_Unreachable; us_reason := reason; us_retryable := retryable;
     us_coverage := {| uc_status := Cap_Unreachable; uc_reason := reason;
                       niri_event_stream_connected := false; logind_session_available := false;
                       event_gap_count := 0; last_checkpoint_unix_ms := None;
                       tracking_started_unix_ms := None; bucket_start_covered := false;
                       definition := USAGE_DEFINITION |};
     us_applications := [] |}.

Definition duration_invalid (q : UsageSummaryQuery) (d : UsageApplicationDuration) : bool :=
  is_empty (usage_app_id d) || (MAX_USAGE_APP_ID_BYTES <? len (usage_app_id d))
  || contains_byte nul (usage_app_id d)
  || negb (String.eqb (usage_bucket_key d) (query_bucket_key q))
  || is_empty (usage_timezone_id d) || (128 <? len (usage_timezone_id d))
  || contains_byte nul (usage_timezone_id d).

Definition UsageSummary_validate (s : UsageSummary) : result unit string :=
  fail_if negb (us_schema_version s =? USAGE_SCHEMA_VERSION) with "usage_schema_must_be_3"%string in
  let? _ := UsageSummaryQuery_validate (us_query s) in
  fail_if MAX_USAGE_APPLICATIONS <? Z.of_nat (length (us_applications s))
    with "usage_applications_exceeds_1024"%string in
  fail_if negb (String.eqb (definition (us_coverage s)) USAGE_DEFINITION)
    with "usage_definition_invalid"%string in
  fail_if existsb (duration_invalid (us_query s)) (us_applications s)
    with "usage_application_record_invalid"%string in
  fail_if eqb (us_status s) Cap_Healthy
          && (negb (niri_event_stream_connected (us_coverage s))
              || negb (logind_session_available (us_coverage s))
              || negb (eqb (uc_status (us_coverage s)) Cap_Healthy)
              || is_none (us_captured_at_unix_ms s)
              || is_none (last_checkpoint_unix_ms (us_coverage s))
              || is_none (tracking_started_unix_ms (us_coverage s))
              || negb (bucket_start_covered (us_coverage s)))
    with "usage_healthy_state_missing_coverage"%string in
  Ok tt.

(** * [crates/domain/src/telemetry.rs]: the telemetry snapshot the daemon
    publishes. *)

Definition TELEMETRY_SCHEMA_VERSION : Z := 4.
Definition TELEMETRY_SCOPE_SAME_EUID : string := "same_euid".
Definition TELEMETRY_SCOPE_FULL_CGROUP : string := "full_cgroup".
Definition TELEMETRY_SCOPE_SYSTEM : string := "system".

Inductive TelemetryStatus := Tel_Complete | Tel_Partial | Tel_Unavailable.
#[export] Instance TelemetryStatus_eq_dec : EqDecision TelemetryStatus.
Proof. solve_decision. Defined.

Inductive TelemetryFreshness := Tel_Fresh | Tel_WarmingUp | Tel_Stale | Tel_Unknown.
#[export] Instance TelemetryFreshness_eq_dec : EqDecision TelemetryFreshness.
Proof. solve_decision. Defined.

Inductive MetricState :=
| Metric_Known | Metric_Unknown | Metric_PermissionDenied | Metric_Raced | Metric_Unbounded
| Metric_WarmingUp | Metric_SamplingGap.
#[export] Instance MetricState_eq_dec : EqDecision MetricState.
Proof. solve_decision. Defined.

Record MetricValue (T : Type) := {
  metric_value : option T;
  metric_state : MetricState;
  metric_reason : option string;
}.
Arguments metric_value {T}.
Arguments metric_state {T}.
Arguments metric_reason {T}.
Arguments Build_MetricValue {T}.

Definition MetricValue_known {T} (v : T) : MetricValue T :=
  {| metric_value := Some v; metric_state := Metric_Known; metric_reason := None |}.
(** The assertion that [s] is not [Known] is kept by every caller. *)
Definition MetricValue_unavailable {T} (s : MetricState) (reason : string) : MetricValue T :=
  {| metric_value := None; metric_state := s; metric_reason := Some reason |}.
Definition MetricValue_is_known {T} (m : MetricValue T) : bool :=
  eqb (metric_state m) Metric_Known && is_some (metric_value m).

Inductive GroupingResolution := Group_DesktopEntryExact | Group_CgroupScope | Group_InheritedParent | Group_Unknown.
#[export] Instance GroupingResolution_eq_dec : EqDecision GroupingResolution.
Proof. solve_decision. Defined.

Record IssueCount := { issue_code : string; issue_count : Z }.

Record ApplicationSample := {
  sample_application_key : string;
  sample_desktop_entry_id : option string;
  sample_display_label : string;
  sample_grouping_resolution : GroupingResolution;
  sample_process_count : Z;
  sample_process_scope : string;
  sample_cgroup_scope : string;
  cpu_percent_total_capacity_sum : MetricValue f64;
  sample_rss_sum_bytes : MetricValue Z;
  sample_pss_sum_bytes : MetricValue Z;
  sample_fd_used_sum : MetricValue Z;
  sample_fd_soft_limit_sum : MetricValue Z;
  sample_fd_percent_of_attributed_sum : MetricValue f64;
  sample_fd_percent_of_soft_limit_sum : MetricValue f64;
  fd_max_process_percent_of_soft_limit : MetricValue f64;
  cgroup_cpu_percent_total_capacity : MetricValue f64;
  sample_memory_current_bytes : MetricValue Z;
  sample_cgroup_process_count : MetricValue Z;
}.

Record SystemFdSample := {
  fd_scope : string;
  fd_file_nr_allocated : MetricValue Z;
  fd_file_nr_max : MetricValue Z;
  fd_file_max : MetricValue Z;
  fd_pressure_percent : MetricValue f64;
}.

Definition SystemFdSample_unavailable (reason : string) : SystemFdSample :=
  {| fd_scope := TELEMETRY_SCOPE_SYSTEM;
     fd_file_nr_allocated := MetricValue_unavailable Metric_Unknown reason;
     fd_file_nr_max := MetricValue_unavailable Metric_Unknown reason;
     fd_file_max := MetricValue_unavailable Metric_Unknown reason;
     fd_pressure_percent := MetricValue_unavailable Metric_Unknown reason |}.

Record TelemetrySnapshot := {
  tel_schema_version : Z;
  tel_snapshot_id : Uuid;
  tel_captured_at_unix_ms : option Z;
  tel_sample_interval_ms : option Z;
  tel_logical_cpu_count : option Z;
  tel_freshness : TelemetryFreshness;
  tel_status : TelemetryStatus;
  tel_reason : string;
  tel_retryable : bool;
  tel_scope : string;
  tel_last_success_at_unix_ms : option Z;
  tel_permission_denied_counts : list IssueCount;
  tel_issues : list IssueCount;
  tel_system_fd : SystemFdSample;
  tel_applications : list ApplicationSample;
}.

(** [uuid] is the fresh identifier. *)
Definition TelemetrySnapshot_unavailable_with_retryable (uuid : Uuid) (reason : string) (retryable : bool)
  : TelemetrySnapshot :=
  {| tel_schema_version := TELEMETRY_SCHEMA_VERSION; tel_snapshot_id := uuid;
     tel_captured_at_unix_ms := None; tel_sample_interval_ms := None; tel_logical_cpu_count := None;
     tel_freshness := Tel_Unknown; tel_status := Tel_Unavailable; tel_reason := reason;
     tel_retryable := retryable; tel_scope := TELEMETRY_SCOPE_SAME_EUID;
     tel_last_success_at_unix_ms := None; tel_permission_denied_counts := []; tel_issues := [];
     tel_system_fd := SystemFdSample_unavailable "telemetry_unavailable"; tel_applications := [] |}.

Definition TelemetrySnapshot_unavailable (uuid : Uuid) (reason : string) : TelemetrySnapshot :=
  TelemetrySnapshot_unavailable_with_retryable uuid reason true.

(** A snapshot whose floating-point values are all finite: JSON has no other. *)
Definition metric_finite (m : MetricValue f64) : bool := is_none_or is_finite (metric_value m).
Definition sample_finite (a : ApplicationSample) : bool :=
  forallb metric_finite
    [cpu_percent_total_capacity_sum a; sample_fd_percent_of_attributed_sum a;
     sample_fd_percent_of_soft_limit_sum a; fd_max_process_percent_of_soft_limit a;
     cgroup_cpu_percent_total_capacity a].

(** * [crates/domain/src/speedtest.rs]: speed-test stages, deep-test commands and
    their validated results. *)

Definition SPEEDTEST_SCHEMA_VERSION : Z := 2.
Definition SPEEDTEST_LATENCY_PROBES_PER_TARGET : Z := 3.
Definition SPEEDTEST_MAX_LATENCY_TARGETS : Z := 16.
Definition SPEEDTEST_MAX_MIRRORS : Z := 8.
Definition SPEEDTEST_MAX_BANDWIDTH_MEASUREMENTS : Z := SPEEDTEST_MAX_MIRRORS + 1.
Definition SPEEDTEST_MAX_REASON_BYTES : Z := 128.

Inductive SpeedTestStage := Stage_Latency | Stage_Bandwidth | Stage_IpPurity.
#[export] Instance SpeedTestStage_eq_dec : EqDecision SpeedTestStage.
Proof. solve_decision. Defined.

Inductive SpeedTestRunKind := Run_Basic | Run_IpPurity.
#[export] Instance SpeedTestRunKind_eq_dec : EqDecision SpeedTestRunKind.
Proof. solve_decision. Defined.

Definition SpeedTestRunKind_classify (stages : list SpeedTestStage) : option SpeedTestRunKind :=
  let has_basic := existsb (fun s => match s with Stage_Latency | Stage_Bandwidth => true | _ => false end) stages in
  let has_purity := contains Stage_IpPurity stages in
  match has_basic, has_purity with
  | true, false => Some Run_Basic
  | false, true => Some Run_IpPurity
  | _, _ => None
  end.

(** [as_deref().is_none_or(|e| e.len() <= SPEEDTEST_MAX_REASON_BYTES)]. *)
Definition reason_fits (e : option string) : bool := is_none_or (fun e => len e <=? SPEEDTEST_MAX_REASON_BYTES) e.
Definition len_le {A} (l : list A) (n : Z) : bool := Z.of_nat (length l) <=? n.

Record LatencyProbe := {
  connect_ms : option Z;
  ttfb_ms : option Z;
  probe_http_code : option Z;
  probe_error : option string;
}.

Record LatencyTargetResult := {
  target_host : string;
  target_probes : list LatencyProbe;
  avg_ttfb_ms : option Z;
}.

Definition LatencyTargetResult_validate (t : LatencyTargetResult) : bool :=
  negb (is_empty (target_host t)) && (len (target_host t) <=? 253)
  && negb (len_le (target_probes t) 0) && len_le (target_probes t) SPEEDTEST_LATENCY_PROBES_PER_TARGET
  && forallb (fun p => reason_fits (probe_error p)) (target_probes t).

Inductive BandwidthKind := International | Domestic.

Record BandwidthMeasurement := {
  bw_kind : BandwidthKind;
  bw_label : string;
  bw_source : string;
  bw_parallel_streams : Z;
  bw_download_bits_per_second : option Z;
  bw_upload_bits_per_second : option Z;
  bw_http_code : option Z;
  bw_error : option string;
}.

Definition BandwidthMeasurement_validate (m : BandwidthMeasurement) : bool :=
  negb (is_empty (bw_label m)) && (len (bw_label m) <=? 128)
  && negb (is_empty (bw_source m)) && (len (bw_source m) <=? 512)
  && in_range 1 16 (bw_parallel_streams m) && reason_fits (bw_error m).

Record IpRiskSource := { risk_source : string; risk : option Z; risk_weight : option f64 }.

Definition IpRiskSource_validate (s : IpRiskSource) : bool :=
  negb (is_empty (risk_source s)) && (len (risk_source s) <=? 64)
  && is_none_or (fun r => r <=? 100) (risk s)
  && is_none_or (f64_contains f64_zero f64_one) (risk_weight s).

Record IpPurityResult := {
  ip_source : string;
  ip_address : option string;
  ip_country : option string;
  ip_region : option string;
  ip_city : option string;
  ip_isp : option string;
  ip_org : option string;
  ip_asn : option string;
  ip_asname : option string;
  ip_proxy : option bool;
  ip_hosting : option bool;
  ip_mobile : option bool;
  risk_score : option Z;
  ip_type : option string;
  signals : list string;
  risk_sources : list IpRiskSource;
  blocklist_checked : option Z;
  blocklist_listed : list string;
  risk_error : option string;
  ip_error : option string;
}.

Definition label_ok (s : string) : bool := negb (is_empty s) && (len s <=? 64).

Definition IpPurityResult_validate (r : IpPurityResult) : bool :=
  negb (is_empty (ip_source r)) && (len (ip_source r) <=? 128) && reason_fits (ip_error r)
  && is_none_or (fun score => score <=? 100) (risk_score r)
  && len_le (risk_sources r) 8 && forallb IpRiskSource_validate (risk_sources r)
  && len_le (signals r) 8 && forallb label_ok (signals r)
  && len_le (blocklist_listed r) 16 && forallb label_ok (blocklist_listed r)
  && reason_fits (risk_error r).

Inductive SpeedTestStageData :=
| Data_Latency (targets : list LatencyTargetResult)
| Data_Bandwidth (measurements : list BandwidthMeasurement)
| Data_IpPurity (purity : IpPurityResult).

Definition SpeedTestStageData_stage (d : SpeedTestStageData) : SpeedTestStage :=
  match d with
  | Data_Latency _ => Stage_Latency | Data_Bandwidth _ => Stage_Bandwidth | Data_IpPurity _ => Stage_IpPurity
  end.

Definition SpeedTestStageData_validate (d : SpeedTestStageData) : bool :=
  match d with
  | Data_Latency targets =>
      negb (len_le targets 0) && len_le targets SPEEDTEST_MAX_LATENCY_TARGETS
      && forallb LatencyTargetResult_validate targets
  | Data_Bandwidth measurements =>
      negb (len_le measurements 0) && len_le measurements SPEEDTEST_MAX_BANDWIDTH_MEASUREMENTS
      && forallb BandwidthMeasurement_validate measurements
  | Data_IpPurity purity => IpPurityResult_validate purity
  end.

Record SpeedTestBasicEnd := {
  end_schema_version : Z;
  end_started_at_unix_ms : Z;
  end_ended_at_unix_ms : Z;
  end_stages : list SpeedTestStageData;
  end_cancelled : bool;
  end_error : option string;
}.

Definition SpeedTestBasicEnd_validate (e : SpeedTestBasicEnd) : bool :=
  (end_schema_version e =? SPEEDTEST_SCHEMA_VERSION) && len_le (end_stages e) 3
  && forallb SpeedTestStageData_validate (end_stages e) && reason_fits (end_error e).

Inductive Iperf3Direction := Iperf3_Download | Iperf3_Upload | Iperf3_Bidirectional.
#[export] Instance Iperf3Direction_eq_dec : EqDecision Iperf3Direction.
Proof. solve_decision. Defined.

Inductive SpeedTestDeepCommand :=
| Iperf3Start (server : string) (port : Z) (direction : Iperf3Direction) (duration_secs parallel : Z)
| Iperf3Stop
| WifiScan
| LinssidLaunch.

Definition SpeedTestDeepCommand_validate (c : SpeedTestDeepCommand) : result unit string :=
  match c with
  | Iperf3Start server port _ duration_secs parallel =>
      fail_if is_empty server || (253 <? len server) || any_control server
              || existsb is_whitespace (chars server)
        with "iperf3_server_invalid"%string in
      fail_if port =? 0 with "iperf3_port_invalid"%string in
      fail_if (duration_secs =? 0) || (60 <? duration_secs) with "iperf3_duration_out_of_range"%string in
      fail_if (parallel =? 0) || (8 <? parallel) with "iperf3_parallel_out_of_range"%string in
      Ok tt
  | Iperf3Stop | WifiScan | LinssidLaunch => Ok tt
  end.

Record Iperf3Result := {
  iperf3_server : string;
  iperf3_port : Z;
  iperf3_direction : Iperf3Direction;
  iperf3_duration_secs : Z;
  iperf3_parallel : Z;
  iperf3_started_at_unix_ms : Z;
  iperf3_ended_at_unix_ms : Z;
  iperf3_download_bits_per_second : option Z;
  iperf3_upload_bits_per_second : option Z;
  iperf3_retransmits : option Z;
  iperf3_jitter_ms : option f64;
  iperf3_error : option string;
}.

Definition Iperf3Result_validate (r : Iperf3Result) : bool :=
  (len (iperf3_server r) <=? 253) && reason_fits (iperf3_error r).

Record WifiNetwork := {
  ssid : string;
  signal_percent : option Z;
  signal_dbm : option Z;
  signal_bars : option string;
  wifi_channel : option Z;
  wifi_band : option string;
  wifi_security : option string;
}.

Record WifiScanResult := {
  scanned_at_unix_ms : Z;
  scan_source : string;
  networks : list WifiNetwork;
  scan_error : option string;
}.

Definition WifiNetwork_ok (n : WifiNetwork) : bool :=
  (len (ssid n) <=? 128) && is_none_or (fun s => s <=? 100) (signal_percent n)
  && is_none_or (in_range (-200) 100) (signal_dbm n)
  && is_none_or (fun b => len b <=? 16) (signal_bars n).

Definition WifiScanResult_validate (r : WifiScanResult) : bool :=
  (len (scan_source r) <=? 128) && len_le (networks r) 256 && forallb WifiNetwork_ok (networks r)
  && reason_fits (scan_error r).

Record LinssidLaunchResult := { launched : bool; executable : option string; launch_reason : string }.

Definition LinssidLaunchResult_validate (r : LinssidLaunchResult) : bool :=
  (len (launch_reason r) <=? SPEEDTEST_MAX_REASON_BYTES)
  && is_none_or (fun e => len e <=? 512) (executable r).

Inductive SpeedTestDeepOutput :=
| Deep_Iperf3 (r : Iperf3Result)
| Deep_WifiScan (r : WifiScanResult)
| Deep_Linssid (r : LinssidLaunchResult).

Definition SpeedTestDeepOutput_validate_for (o : SpeedTestDeepOutput) (c : SpeedTestDeepCommand) : bool :=
  match o, c with
  | Deep_Iperf3 r, Iperf3Start _ _ _ _ _ => Iperf3Result_validate r
  | Deep_WifiScan r, WifiScan => WifiScanResult_validate r
  | Deep_Linssid r, LinssidLaunch => LinssidLaunchResult_validate r
  | Deep_Iperf3 r, Iperf3Stop =>
      Iperf3Result_validate r && is_none_or (fun e => String.eqb e "iperf3_not_running") (iperf3_error r)
  | _, _ => false
  end.

Record SpeedTestCancelResult := { cancel_run_kind : SpeedTestRunKind; was_cancelled : bool; cancel_reason : string }.

Definition SpeedTestCancelResult_validate (r : SpeedTestCancelResult) : bool :=
  len (cancel_reason r) <=? SPEEDTEST_MAX_REASON_BYTES.
