(* ===== verification/TelemetryParse.v ===== *)
(** [crates/telemetry/src/procfs.rs], its data and what it makes of the text of
    the kernel: process records, metrics, the lines of [stat], [status],
    [limits], [uptime] and [cgroup], and the names of desktop entries.

    A path is its bytes as a string. [f64] arithmetic is that of [SpecFloat]. *)
From Stdlib Require Import SpecFloat.
From stdpp Require Import pretty.
From S2P Require Import Prelude TelemetryHelper RemoteCore Text Encoding Domain.

(** ** Floating point *)

(** [as f64] of an unsigned number, and the arithmetic of percentages. *)
Definition f64_of (n : Z) : f64 := binary_normalize 53 1024 n 0 false.
Definition f64_add (x y : f64) : f64 := SFadd 53 1024 x y.
Definition f64_mul (x y : f64) : f64 := SFmul 53 1024 x y.
Definition f64_div (x y : f64) : f64 := SFdiv 53 1024 x y.
(** [n as f64 * 100.0 / d as f64]. *)
Definition percent (n d : Z) : f64 := f64_div (f64_mul (f64_of n) f64_hundred) (f64_of d).

(** ** Records *)

Definition MAX_COMM_BYTES : nat := 256.
Definition MAX_CGROUP_BYTES : Z := MAX_STRING_BYTES.

Inductive ProcError :=
| BootIdUnavailable | BootIdInvalid | CpuStatUnavailable | CpuStatInvalid | Proc_Root
| Proc_SystemConfig | ProcessLimitExceeded | SnapshotInvalid (text : string).
#[export] Instance ProcError_eq_dec : EqDecision ProcError.
Proof. solve_decision. Defined.

Definition ProcError_reason_code (e : ProcError) : string :=
  match e with
  | BootIdUnavailable => "boot_id_unavailable"
  | BootIdInvalid => "boot_id_invalid"
  | CpuStatUnavailable => "cpu_stat_unavailable"
  | CpuStatInvalid => "cpu_stat_invalid"
  | Proc_Root => "proc_root_unavailable"
  | Proc_SystemConfig => "system_config_unavailable"
  | ProcessLimitExceeded => "process_limit_exceeded"
  | SnapshotInvalid _ => "snapshot_invalid"
  end.
Definition ProcError_retryable (e : ProcError) : bool :=
  match e with SnapshotInvalid _ => false | _ => true end.

Inductive StatParseError :=
| MissingCommand | MissingFields | InvalidField (name : string) | NegativeRss | RssOverflow.
#[export] Instance StatParseError_eq_dec : EqDecision StatParseError.
Proof. solve_decision. Defined.

Record ProcessIdentity := { pi_boot_id : string; pi_pid : Z; pi_start_time_ticks : Z; pi_euid : Z }.
#[export] Instance ProcessIdentity_eq_dec : EqDecision ProcessIdentity.
Proof. solve_decision. Defined.
Definition identity_tuple (i : ProcessIdentity) : string * Z * Z * Z :=
  (pi_boot_id i, pi_pid i, pi_start_time_ticks i, pi_euid i).

Definition stable_key (i : ProcessIdentity) : string :=
  pi_boot_id i +:+ ":" +:+ decimal_of (pi_pid i) +:+ ":" +:+ decimal_of (pi_start_time_ticks i).

Record ParsedStat := {
  stat_identity : ProcessIdentity;
  stat_ppid : Z;
  stat_comm : string;
  stat_cpu_jiffies : Z;
  stat_rss_bytes : result Z StatParseError;
}.

Record RawProcess := {
  rp_identity : ProcessIdentity;
  rp_ppid : Z;
  rp_comm : string;
  rp_exe_basename : option string;
  rp_cgroup_content : string;
  rp_application_key : string;
  rp_desktop_entry_id : option string;
  rp_grouping_resolution : GroupingResolution;
  rp_cpu_jiffies : Z;
  rp_rss_bytes : MetricValue Z;
  rp_pss_bytes : MetricValue Z;
  rp_fd_used : MetricValue Z;
  rp_fd_soft_limit : MetricValue Z;
  rp_fd_percent_of_soft_limit : MetricValue f64;
}.

Record RawCgroupRecord := {
  rc_cgroup_path : string;
  rc_application_key : string;
  rc_cpu_usage_usec : MetricValue Z;
  rc_memory_current_bytes : MetricValue Z;
  rc_process_count : MetricValue Z;
}.

Record RawSystemFdSnapshot := {
  rf_file_nr_allocated : MetricValue Z;
  rf_file_nr_max : MetricValue Z;
  rf_file_max : MetricValue Z;
  rf_pressure_percent : MetricValue f64;
}.

Record RawApplicationResourceRecord := {
  ra_application_key : string;
  ra_process_count : Z;
  ra_proc_cpu_jiffies_sum : MetricValue Z;
  ra_rss_sum_bytes : MetricValue Z;
  ra_pss_sum_bytes : MetricValue Z;
  ra_fd_used_sum : MetricValue Z;
  ra_fd_soft_limit_sum : MetricValue Z;
  ra_fd_percent_of_attributed_sum : MetricValue f64;
  ra_fd_percent_of_soft_limit_sum : MetricValue f64;
  ra_cgroup_cpu_usage_usec : MetricValue Z;
  ra_memory_current_bytes : MetricValue Z;
  ra_cgroup_process_count : MetricValue Z;
}.

Record RawSnapshot := {
  raw_boot_id : string;
  raw_euid : Z;
  raw_captured_at_unix_ms : Z;
  raw_captured_at_monotonic_ns : MetricValue Z;
  raw_total_cpu_jiffies : Z;
  raw_logical_cpu_count : Z;
  raw_processes : list RawProcess;
  raw_cgroups : list RawCgroupRecord;
  raw_applications : list RawApplicationResourceRecord;
  raw_system_fd : RawSystemFdSnapshot;
  raw_excluded_other_uid : Z;
  raw_skipped_race : Z;
  raw_permission_denied_counts : list IssueCount;
  raw_issues : list IssueCount;
}.

(** ** Text *)

(** [find] and [rfind] of one ASCII character: the byte where it is. *)
Definition find_char (c : ascii) (s : string) : option nat := (fun p => String.length p.1) <$> split_once c s.
Definition rfind_char (c : ascii) (s : string) : option nat := (fun p => String.length p.1) <$> rsplit_once c s.
(** [&s[from..upto]] at character boundaries. *)
Definition substring_at (from upto : nat) (s : string) : string := str_take (upto - from) (str_drop from s).

(** [parse::<i64>]. *)
Definition parse_i64 (s : string) : option Z :=
  match bytes s with
  | b :: digits =>
      if b =? ch "-"
      then match digits with [] => None | _ => Z.opp <$> digits_value (i64_max + 1) 0 digits end
      else parse_unsigned i64_max s
  | [] => None
  end.

Definition replacement : list Z := [239; 191; 189].

(** [String::from_utf8_lossy]: what begins no character, as far as it could
    have, becomes one replacement character. *)
Fixpoint lossy_bytes (l : list Z) : list Z :=
  match l with
  | [] => []
  | b :: l1 =>
      if in_range 0 127 b then b :: lossy_bytes l1
      else match l1 with
      | [] => replacement
      | b1 :: l2 =>
          if in_range 194 223 b
          then if utf8_cont b1 then b :: b1 :: lossy_bytes l2 else replacement ++ lossy_bytes l1
          else if (in_range 224 239 b
                   && in_range (if b =? 224 then 160 else 128) (if b =? 237 then 159 else 191) b1)
                  || (in_range 240 244 b
                      && in_range (if b =? 240 then 144 else 128) (if b =? 244 then 143 else 191) b1)
          then match l2 with
               | [] => replacement
               | b2 :: l3 =>
                   if utf8_cont b2
                   then if b <? 240 then b :: b1 :: b2 :: lossy_bytes l3
                        else match l3 with
                             | [] => replacement
                             | b3 :: l4 =>
                                 if utf8_cont b3 then b :: b1 :: b2 :: b3 :: lossy_bytes l4
                                 else replacement ++ lossy_bytes l3
                             end
                   else replacement ++ lossy_bytes l2
               end
          else replacement ++ lossy_bytes l1
      end
  end.
Definition lossy (s : string) : string := string_of_bytes (lossy_bytes (bytes s)).

Definition bound_comm (comm : string) : string :=
  joined (List.filter (fun p => negb (contains (char_of p) [0; 10; 13])) (take MAX_COMM_BYTES (pieces comm))).

(** [trim_end_matches('/').rsplit('/').next()], which always is something. *)
Definition last_component (path : string) : string :=
  let kept := joined (skip_end (String.eqb "/") (pieces path)) in
  match rsplit_once "/" kept with Some (_, component) => component | None => kept end.

(** ** Paths *)

(** [Path::join] and [Path::file_name]. *)
Definition path_join (root name : string) : string :=
  if starts_with "/" name || is_empty root then name
  else if ends_with "/" root then root +:+ name
  else root +:+ "/" +:+ name.
Definition components (path : string) : list string :=
  List.filter (fun c => negb (is_empty c) && negb (String.eqb c ".")) (split_char "/" path).
Definition path_file_name (path : string) : option string :=
  name ← last (components path); if String.eqb name ".." then None else Some name.

Definition cgroup_path_on_disk (root cgroup_path : string) : string :=
  fold_left path_join (List.filter (fun c => negb (String.eqb c "..")) (components cgroup_path)) root.

Definition bounded_path_basename (path : string) : option string :=
  name ← path_file_name path;
  let bounded := bound_comm (lossy name) in
  if is_empty bounded then None else Some bounded.

(** ** [/proc/<pid>/stat] *)

Definition parse_field (fields : list string) (i : nat) (name : string) (parse : string -> option Z)
  : result Z StatParseError :=
  ok_or (InvalidField name) (f ← fields !! i; parse f).

Definition parse_process_stat (content : string) (pid : Z) (boot_id : string) (page_size : Z)
  : result ParsedStat StatParseError :=
  let? open := ok_or MissingCommand (find_char "(" content) in
  let? close := ok_or MissingCommand (rfind_char ")" content) in
  fail_if (close <=? open)%nat with MissingCommand in
  let comm := bound_comm (substring_at (open + 1) close content) in
  let fields := split_whitespace (str_drop (close + 1) content) in
  fail_if (length fields <=? 21)%nat with MissingFields in
  let? ppid := parse_field fields 1 "ppid" parse_u32 in
  let? utime := parse_field fields 11 "utime" parse_u64 in
  let? stime := parse_field fields 12 "stime" parse_u64 in
  let? start_time_ticks := parse_field fields 19 "starttime" parse_u64 in
  let? rss_pages := parse_field fields 21 "rss" parse_i64 in
  let? cpu_jiffies := ok_or (InvalidField "cpu") (checked_u64 (utime + stime)) in
  let rss_bytes := if rss_pages <? 0 then Err NegativeRss
                   else ok_or RssOverflow (checked_u64 (rss_pages * page_size)) in
  Ok {| stat_identity := {| pi_boot_id := boot_id; pi_pid := pid; pi_start_time_ticks := start_time_ticks;
                            pi_euid := 0 |};
        stat_ppid := ppid; stat_comm := comm; stat_cpu_jiffies := cpu_jiffies; stat_rss_bytes := rss_bytes |}.

(** ** Whole files *)

(** The answer of [read_boot_id] for the content of the file. *)
Definition boot_id_of (content : string) : result string ProcError :=
  let boot_id := str_trim content in
  fail_if is_empty boot_id || (128 <? len boot_id) || existsb is_whitespace (chars boot_id)
    with BootIdInvalid in
  Ok boot_id.

Fixpoint cpu_total (total : Z) (fields : list string) : result Z ProcError :=
  match fields with
  | [] => Ok total
  | field :: fields =>
      let? value := ok_or CpuStatInvalid (parse_u64 field) in
      let? total := ok_or CpuStatInvalid (checked_u64 (total + value)) in
      cpu_total total fields
  end.

Definition is_cpu_label (line : string) : bool :=
  is_some_and (fun label =>
    is_some_and (fun suffix => negb (is_empty suffix) && forallb is_ascii_digit (bytes suffix))
      (strip_prefix "cpu" label)) (head (split_whitespace line)).

Fixpoint cpu_lines (aggregate : option Z) (logical : Z) (l : list string) : result (Z * Z) ProcError :=
  match l with
  | [] => ok_or CpuStatInvalid ((fun total => (total, Z.max logical 1)) <$> aggregate)
  | line :: l =>
      match strip_prefix "cpu " line with
      | Some rest =>
          let fields := take 8 (split_whitespace rest) in
          fail_if (length fields <? 8)%nat with CpuStatInvalid in
          let? total := cpu_total 0 fields in
          cpu_lines (Some total) logical l
      | None => cpu_lines aggregate (if is_cpu_label line then Z.min u32_max (logical + 1) else logical) l
      end
  end.
Definition cpu_stat_of (content : string) : result (Z * Z) ProcError := cpu_lines None 0 (lines content).

(** [find_map] over the lines. *)
Fixpoint find_map {A B} (f : A -> option B) (l : list A) : option B :=
  match l with [] => None | a :: l => match f a with Some b => Some b | None => find_map f l end end.

Definition parse_uids (status : string) : option (Z * Z) :=
  find_map (fun line =>
    rest ← strip_prefix "Uid:" line;
    let values := split_whitespace rest in
    if (length values <? 2)%nat then None
    else real ← (v ← values !! 0%nat; parse_u32 v);
         effective ← (v ← values !! 1%nat; parse_u32 v);
         Some (real, effective)) (lines status).

(** ** Metrics *)

Inductive ProcIo := Proc_PermissionDenied | Proc_NotFound | Proc_OtherIo.
#[export] Instance ProcIo_eq_dec : EqDecision ProcIo.
Proof. solve_decision. Defined.

Inductive ProcReadError :=
| Read_Stat (e : StatParseError) | Read_Status | Read_Race | Read_Permission | Read_Oversized (detail : string)
| Read_Other.
#[export] Instance ProcReadError_eq_dec : EqDecision ProcReadError.
Proof. solve_decision. Defined.

Definition ProcReadError_reason_code (e : ProcReadError) : string :=
  match e with
  | Read_Stat _ => "process_stat_invalid"
  | Read_Status => "process_status_invalid"
  | Read_Race => "process_raced"
  | Read_Permission => "process_permission_denied"
  | Read_Oversized _ => "process_detail_oversized"
  | Read_Other => "process_read_error"
  end.

Definition metric_for_io {T} (error : ProcIo) (metric : string) : MetricValue T :=
  match error with
  | Proc_PermissionDenied => MetricValue_unavailable Metric_PermissionDenied (metric +:+ "_permission_denied")
  | Proc_NotFound => MetricValue_unavailable Metric_Raced (metric +:+ "_raced")
  | Proc_OtherIo => MetricValue_unavailable Metric_Unknown (metric +:+ "_unknown")
  end.
Definition metric_for_stable_io {T} (error : ProcIo) (metric : string) : MetricValue T :=
  match error with
  | Proc_PermissionDenied => MetricValue_unavailable Metric_PermissionDenied (metric +:+ "_permission_denied")
  | _ => MetricValue_unavailable Metric_Unknown (metric +:+ "_unknown")
  end.
Definition classify_io (error : ProcIo) : ProcReadError :=
  match error with
  | Proc_PermissionDenied => Read_Permission
  | Proc_NotFound => Read_Race
  | Proc_OtherIo => Read_Other
  end.

(** A metric that is a number read, or unknown for a reason. *)
Definition known_or {T} (reason : string) (o : option T) : MetricValue T :=
  match o with Some v => MetricValue_known v | None => MetricValue_unavailable Metric_Unknown reason end.

(** The readers of a file, given what [fs::read_to_string] of it answered. *)
Definition read_pss_bytes (content : result string ProcIo) : MetricValue Z :=
  match content with
  | Err error => metric_for_stable_io error "pss"
  | Ok content =>
      match List.find (starts_with "Pss:") (lines content) with
      | None => MetricValue_unavailable Metric_Unknown "pss_missing"
      | Some line =>
          match split_whitespace line with
          | [_; number; unit_] =>
              if negb (String.eqb unit_ "kB") then MetricValue_unavailable Metric_Unknown "pss_invalid"
              else known_or "pss_invalid" (v ← parse_u64 number; checked_u64 (v * 1024))
          | _ => MetricValue_unavailable Metric_Unknown "pss_invalid"
          end
      end
  end.

Definition read_cpu_usage_usec (content : result string ProcIo) : MetricValue Z :=
  match content with
  | Err error => metric_for_io error "cgroup_cpu_usage"
  | Ok content =>
      known_or "cgroup_cpu_usage_invalid"
        (find_map (fun line => v ← strip_prefix "usage_usec " line; parse_u64 (str_trim v)) (lines content))
  end.

Definition read_u64_metric (content : result string ProcIo) (name : string) : MetricValue Z :=
  match content with
  | Err error => metric_for_io error name
  | Ok content => known_or (name +:+ "_invalid") (parse_u64 (str_trim content))
  end.
Definition read_u64_stable_metric (content : result string ProcIo) (name : string) : MetricValue Z :=
  match content with
  | Err error => metric_for_stable_io error name
  | Ok content => known_or (name +:+ "_invalid") (parse_u64 (str_trim content))
  end.

Definition read_line_count (content : result string ProcIo) (name : string) : MetricValue Z :=
  match content with
  | Err error => metric_for_io error name
  | Ok content =>
      if forallb (fun line => is_some (parse_u32 (str_trim line))) (lines content)
      then MetricValue_known (Z.min u64_max (Z.of_nat (length (lines content))))
      else MetricValue_unavailable Metric_Unknown (name +:+ "_invalid")
  end.

Definition parse_file_nr (content : string) : MetricValue Z * MetricValue Z :=
  let invalid := (MetricValue_unavailable Metric_Unknown "file_nr_invalid",
                  MetricValue_unavailable Metric_Unknown "file_nr_invalid") in
  match split_whitespace content with
  | [allocated; _; maximum] =>
      match parse_u64 allocated, parse_u64 maximum with
      | Some allocated, Some maximum => (MetricValue_known allocated, MetricValue_known maximum)
      | _, _ => invalid
      end
  | _ => invalid
  end.

Definition read_fd_soft_limit (content : result string ProcIo) : MetricValue Z :=
  match content with
  | Err error => metric_for_io error "fd_limit"
  | Ok content =>
      match List.find (fun line => starts_with "Max open files" (str_trim_start line)) (lines content) with
      | None => MetricValue_unavailable Metric_Unknown "fd_limit_missing"
      | Some line =>
          let fields := split_whitespace line in
          if (length fields <? 5)%nat then MetricValue_unavailable Metric_Unknown "fd_limit_invalid"
          else if eqb (fields !! 3%nat) (Some "unlimited"%string)
          then MetricValue_unavailable Metric_Unbounded "fd_limit_unlimited"
          else match f ← fields !! 3%nat; parse_u64 f with
               | Some 0 => MetricValue_unavailable Metric_Unknown "fd_limit_zero"
               | Some value => MetricValue_known value
               | None => MetricValue_unavailable Metric_Unknown "fd_limit_invalid"
               end
      end
  end.

(** The first nine digits of the fraction, as nanoseconds. *)
Definition fraction_ns (fraction : string) : Z :=
  let digits := take 9 (bytes fraction) in
  fold_left (fun n b => n * 10 + (b - ch "0")) digits 0 * 10 ^ (9 - Z.of_nat (length digits)).

Definition read_monotonic_ns (content : result string ProcIo) : MetricValue Z :=
  match content with
  | Err Proc_PermissionDenied => MetricValue_unavailable Metric_PermissionDenied "proc_uptime_permission_denied"
  | Err _ => MetricValue_unavailable Metric_Unknown "proc_uptime_unavailable"
  | Ok content =>
      known_or "proc_uptime_invalid"
        (value ← head (split_whitespace content);
         let '(seconds, fraction) := default (value, EmptyString) (split_once "." value) in
         s ← parse_u64 seconds;
         seconds_ns ← checked_u64 (s * 1000000000);
         if negb (forallb is_ascii_digit (bytes fraction)) then None
         else checked_u64 (seconds_ns + fraction_ns fraction))
  end.

Definition derived_metric_state (metrics : list (MetricValue Z)) : MetricState :=
  default Metric_Unknown
    (List.find (fun s => existsb (fun m => eqb (metric_state m) s) metrics)
       [Metric_PermissionDenied; Metric_Raced; Metric_Unbounded]).

Definition derive_percent (numerator denominator : MetricValue Z) (reason : string) : MetricValue f64 :=
  match metric_value numerator, metric_value denominator with
  | Some n, Some d =>
      if 0 <? d then MetricValue_known (percent n d)
      else MetricValue_unavailable (derived_metric_state [numerator; denominator]) reason
  | _, _ => MetricValue_unavailable (derived_metric_state [numerator; denominator]) reason
  end.

Definition derive_fd_percent (used limit : MetricValue Z) : MetricValue f64 :=
  let other :=
    if eqb (metric_state used) Metric_PermissionDenied || eqb (metric_state limit) Metric_PermissionDenied
    then MetricValue_unavailable Metric_PermissionDenied "fd_percent_permission_denied"
    else if eqb (metric_state limit) Metric_Unbounded
    then MetricValue_unavailable Metric_Unbounded "fd_limit_unlimited"
    else if eqb (metric_state used) Metric_Raced || eqb (metric_state limit) Metric_Raced
    then MetricValue_unavailable Metric_Raced "fd_percent_raced"
    else MetricValue_unavailable Metric_Unknown "fd_percent_unknown" in
  match metric_value used, metric_value limit with
  | Some u, Some l => if (u <=? l) && (0 <? l) then MetricValue_known (percent u l) else other
  | _, _ => other
  end.

(** ** Issues *)

Fixpoint count_issue (code : string) (l : list IssueCount) : option (list IssueCount) :=
  match l with
  | [] => None
  | issue :: l =>
      if String.eqb (issue_code issue) code
      then Some ({| issue_code := issue_code issue; issue_count := sat_u64 (issue_count issue + 1) |} :: l)
      else l' ← count_issue code l; Some (issue :: l')
  end.
Definition add_issue (code : string) (l : list IssueCount) : list IssueCount :=
  default (l ++ [{| issue_code := code; issue_count := 1 |}]) (count_issue code l).

(** The two lists a collection fills: issues, and denied permissions. *)
Abbreviation issue_log := (list IssueCount * list IssueCount)%type (only parsing).

Definition record_metric_issue {T} (metric : MetricValue T) (log : issue_log) : issue_log :=
  if eqb (metric_state metric) Metric_Known then log
  else
    let reason := default "metric_unknown"%string (metric_reason metric) in
    (add_issue reason log.1,
     if eqb (metric_state metric) Metric_PermissionDenied then add_issue reason log.2 else log.2).

(** ** Sums *)

Fixpoint checked_sum (total : Z) (values : list Z) : option Z :=
  match values with
  | [] => Some total
  | v :: values => next ← checked_u64 (total + v); checked_sum next values
  end.
Definition checked_sum_u64 (values : list Z) (reason : string) : MetricValue Z :=
  known_or reason (checked_sum 0 values).

Definition sum_u64_metrics (metrics : list (MetricValue Z)) (reason : string) : MetricValue Z :=
  if existsb (fun m => negb (MetricValue_is_known m)) metrics
  then MetricValue_unavailable (derived_metric_state metrics) reason
  else checked_sum_u64 (omap metric_value metrics) reason.

(** ** Scopes and desktop entries *)

Definition cgroup_scope (content : string) : option string :=
  find_map (fun line =>
    '(_, path) ← rsplit_once ":" line;
    let path := str_trim path in
    if ends_with ".scope" (last_component path) then Some path else None) (lines content).

Definition cgroup_v2_scope (content : string) : option string :=
  find_map (fun line =>
    path ← strip_prefix "0::" line;
    scope ← cgroup_scope line;
    if String.eqb (str_trim path) scope then Some scope else None) (lines content).

Definition scope_label (scope : string) : string :=
  let component := last_component scope in
  default component (strip_suffix ".scope" (default component (strip_prefix "app-" component))).

(** [fuel] is the length of the label: each turn drops a part of it. *)
Fixpoint stripped (fuel : nat) (current : string) : list string :=
  current ::
  match fuel, rsplit_once "-" current with
  | S fuel, Some (base, suffix) =>
      if is_empty suffix || negb (forallb is_ascii_digit (bytes suffix)) then [] else stripped fuel base
  | _, _ => []
  end.
Definition strip_numbers (label : string) : list string := stripped (String.length label) label.

Definition desktop_name_candidates (label : string) : list string :=
  match rsplit_once "@" label with
  | Some (base, _) =>
      fold_left (fun candidates c => if contains c candidates then candidates else candidates ++ [c])
        (strip_numbers base) (strip_numbers label)
  | None => strip_numbers label
  end.

(** [is_file] is the file system's answer for a path. *)
Definition desktop_id_for_scope (is_file : string -> bool) (scope : string) (desktop_roots : list string)
  : option string :=
  let label := scope_label scope in
  if is_empty label then None
  else find_map (fun root =>
         find_map (fun candidate =>
           let path := path_join root (candidate +:+ ".desktop") in
           if is_file path then Some (default candidate (lossy <$> path_file_name path)) else None)
           (desktop_name_candidates label)) desktop_roots.

Definition DESKTOP_ENTRY_MAX_READ_BYTES : nat := 16 * 1024.
Definition DESKTOP_ENTRY_NAME_MAX_CHARS : nat := 128.

Definition is_boundary (s : string) (i : nat) : bool :=
  match bytes (str_drop i s) with b :: _ => negb (utf8_cont b) | [] => true end.
(** [String::truncate], which panics ([None]) within a character. *)
Definition truncate (n : nat) (s : string) : option string :=
  if (String.length s <=? n)%nat then Some s
  else if is_boundary s n then Some (str_take n s) else None.

(** The value of a line [Name=..] that is not blank. *)
Definition entry_name (line : list Z) : option string :=
  rest ← strip_prefix "Name=" (string_of_bytes line);
  let value := str_trim (lossy rest) in
  if is_empty value then None else Some value.

(** [read_entry] is the file at a path, if it can be opened and read; the
    answer is [None] where [truncate] panics. *)
Fixpoint desktop_display_name (is_file : string -> bool) (read_entry : string -> option (list Z))
    (desktop_id : string) (desktop_roots : list string) : option (option string) :=
  match desktop_roots with
  | [] => Some None
  | root :: roots =>
      let path := path_join root desktop_id in
      if negb (is_file path) then desktop_display_name is_file read_entry desktop_id roots
      else match read_entry path with
           | None => Some None
           | Some content =>
               match find_map entry_name
                       (split_on (Z.eqb 10) (take DESKTOP_ENTRY_MAX_READ_BYTES content)) with
               | Some value => Some <$> truncate DESKTOP_ENTRY_NAME_MAX_CHARS value
               | None => Some None
               end
           end
  end.

(** The environment gives [XDG_DATA_HOME], [HOME] and [XDG_DATA_DIRS]. *)
Definition desktop_roots_from_env (data_home home data_dirs : option string) : list string :=
  match data_home, home with
  | Some data_home, _ => [path_join data_home "applications"]
  | None, Some home => [path_join home ".local/share/applications"]
  | None, None => []
  end
  ++ ((fun dir => path_join dir "applications") <$>
        List.filter (fun d => negb (is_empty d))
          (split_char ":" (default "/usr/local/share:/usr/share"%string (lossy <$> data_dirs)))).

(** ** Examples *)

Example stat_example :
  parse_process_stat "42 (a (b) c) S 7 1 1 0 -1 4194304 10 0 0 0 30 12 0 0 20 0 1 0 99 1000 25 0 0" 42 "boot" 4096
  = Ok {| stat_identity := {| pi_boot_id := "boot"; pi_pid := 42; pi_start_time_ticks := 99; pi_euid := 0 |};
          stat_ppid := 7; stat_comm := "a (b) c"; stat_cpu_jiffies := 42; stat_rss_bytes := Ok 102400 |}.
Proof. vm_compute. reflexivity. Qed.

Example scope_example :
  desktop_name_candidates (scope_label "/user.slice/app-codex-desktop-970898.scope") =
    ["codex-desktop-970898"; "codex-desktop"]%string.
Proof. vm_compute. reflexivity. Qed.

Example uptime_example : read_monotonic_ns (Ok "12.5 40.00"%string) = MetricValue_known 12500000000.
Proof. vm_compute. reflexivity. Qed.

Example percent_example : percent 1 4 = S754_finite false 7036874417766400 (-48).
Proof. vm_compute. reflexivity. Qed.
