(* ===== verification/TelemetryIdentity.v ===== *)
(** [crates/telemetry/src/identity.rs]: which application a process belongs to.

    A process in the scope of a desktop entry is of that application; one in
    another scope gets an opaque key of its own; one in no scope follows its
    parents. [scope_of] and [desktop_of] below are [cgroup_scope] of a process
    and [desktop_id_for_scope]; the theorems hold for any. The recursion of
    [resolve_process] and the loop of adoptions carry fuel, of which
    [grouping_is_exact] shows there is enough. *)
From S2P Require Import Prelude TelemetryHelper RemoteCore Text Encoding Domain TelemetryParse.

Record Assignment := {
  assigned_key : string;
  assigned_desktop : option string;
  assigned_resolution : GroupingResolution;
}.

(** ** Keys *)

(** [{:016x}]. *)
Definition hex_digit (d : Z) : ascii := ascii_of_N (Z.to_N (if d <? 10 then 48 + d else 87 + d)).
Fixpoint hex_digits (n : nat) (z : Z) : string :=
  match n with
  | O => EmptyString
  | S n => hex_digits n (z / 16) +:+ String (hex_digit (z mod 16)) EmptyString
  end.

Definition fnv1a64 (l : list Z) (offset : Z) : Z :=
  fold_left (fun hash b => Z.lxor hash b * 0x100000001b3 mod 2 ^ 64) l offset.

Definition opaque_key (prefix material : string) (identity_salt : Z) : string :=
  let material := decimal_of identity_salt +:+ ":" +:+ material in
  let left_ := fnv1a64 (bytes material) 0xcbf29ce484222325 in
  let right_ := fnv1a64 (bytes material) 0x84222325cbf29ce4 in
  prefix +:+ ":" +:+ hex_digits 16 left_ +:+ hex_digits 16 right_.

Definition opaque_unknown_key (process : RawProcess) (identity_salt : Z) : string :=
  opaque_key "unknown" (stable_key (rp_identity process)) identity_salt.
Definition opaque_cgroup_key (scope : string) (identity_salt : Z) : string :=
  opaque_key "cgroup" scope identity_salt.

Definition unknown_assignment (process : RawProcess) (identity_salt : Z) : Assignment :=
  {| assigned_key := opaque_unknown_key process identity_salt; assigned_desktop := None;
     assigned_resolution := Group_Unknown |}.

Definition pid_of (p : RawProcess) : Z := pi_pid (rp_identity p).

(** ** The passes *)

Section Grouping.
Context (identity_salt : Z) (is_file : string -> bool) (desktop_roots : list string).

Definition direct_assignment (scope : string) : Assignment :=
  match desktop_id_for_scope is_file scope desktop_roots with
  | Some desktop_id => {| assigned_key := desktop_id; assigned_desktop := Some desktop_id;
                          assigned_resolution := Group_DesktopEntryExact |}
  | None => {| assigned_key := opaque_cgroup_key scope identity_salt; assigned_desktop := None;
               assigned_resolution := Group_CgroupScope |}
  end.
Definition own_assignment (process : RawProcess) : option Assignment :=
  direct_assignment <$> cgroup_scope (rp_cgroup_content process).

Definition direct_assignments (processes : list RawProcess) : gmap Z Assignment :=
  fold_left (fun direct process =>
    match own_assignment process with
    | Some assignment => <[pid_of process := assignment]> direct
    | None => direct
    end) processes ∅.

Record resolving := { resolved : gmap Z Assignment; visiting : gset Z }.
Definition put_resolved (pid : Z) (a : Assignment) (st : resolving) : resolving :=
  {| resolved := <[pid := a]> (resolved st); visiting := visiting st |}.

Definition inherited (parent : Assignment) : option Assignment :=
  if eqb (assigned_resolution parent) Group_Unknown then None
  else Some {| assigned_key := assigned_key parent; assigned_desktop := assigned_desktop parent;
               assigned_resolution := Group_InheritedParent |}.

(** [position] of the parent. *)
Definition parent_index (processes : list RawProcess) (process : RawProcess) : option nat :=
  position (fun candidate => pid_of candidate =? rp_ppid process) processes.

Fixpoint resolve_process (fuel : nat) (index : nat) (processes : list RawProcess) (direct : gmap Z Assignment)
    (st : resolving) : option (Assignment * resolving) :=
  process ← processes !! index;
  let pid := pid_of process in
  match resolved st !! pid with
  | Some assignment => Some (assignment, st)
  | None =>
      match direct !! pid with
      | Some assignment => Some (assignment, put_resolved pid assignment st)
      | None =>
          if bool_decide (pid ∈ visiting st)
          then let assignment := unknown_assignment process identity_salt in
               Some (assignment, put_resolved pid assignment st)
          else
            match fuel with
            | O => None
            | S fuel =>
                let st := {| resolved := resolved st; visiting := {[pid]} ∪ visiting st |} in
                '(found, st) ← match parent_index processes process with
                               | Some parent =>
                                   '(a, st) ← resolve_process fuel parent processes direct st; Some (inherited a, st)
                               | None => Some (None, st)
                               end;
                let assignment := default (unknown_assignment process identity_salt) found in
                Some (assignment, put_resolved pid assignment
                                    {| resolved := resolved st; visiting := visiting st ∖ {[pid]} |})
            end
      end
  end.

Definition assign (a : Assignment) (p : RawProcess) : RawProcess :=
  {| rp_identity := rp_identity p; rp_ppid := rp_ppid p; rp_comm := rp_comm p;
     rp_exe_basename := rp_exe_basename p; rp_cgroup_content := rp_cgroup_content p;
     rp_application_key := assigned_key a; rp_desktop_entry_id := assigned_desktop a;
     rp_grouping_resolution := assigned_resolution a; rp_cpu_jiffies := rp_cpu_jiffies p;
     rp_rss_bytes := rp_rss_bytes p; rp_pss_bytes := rp_pss_bytes p; rp_fd_used := rp_fd_used p;
     rp_fd_soft_limit := rp_fd_soft_limit p; rp_fd_percent_of_soft_limit := rp_fd_percent_of_soft_limit p |}.
Definition assignment_of (p : RawProcess) : Assignment :=
  {| assigned_key := rp_application_key p; assigned_desktop := rp_desktop_entry_id p;
     assigned_resolution := rp_grouping_resolution p |}.

Fixpoint assign_all (indices : list nat) (processes : list RawProcess) (direct : gmap Z Assignment) (st : resolving)
  : option (list RawProcess) :=
  match indices with
  | [] => Some processes
  | index :: indices =>
      '(assignment, st) ← resolve_process (length processes) index processes direct st;
      assign_all indices (alter (assign assignment) index processes) direct st
  end.

(** [for _ in 0..=processes.len()]. *)
Fixpoint ancestor_loop (turns : nat) (parent_pid : Z) (processes : list RawProcess) : option RawProcess :=
  match turns with
  | O => None
  | S turns =>
      parent ← snd <$> list_find (fun candidate => pid_of candidate = parent_pid) processes;
      match rp_grouping_resolution parent with
      | Group_DesktopEntryExact => Some parent
      | Group_Unknown => None
      | Group_CgroupScope | Group_InheritedParent => ancestor_loop turns (rp_ppid parent) processes
      end
  end.
Definition nearest_desktop_resolved_ancestor (process : RawProcess) (processes : list RawProcess)
  : option RawProcess :=
  ancestor_loop (S (length processes)) (rp_ppid process) processes.

Definition adoption (processes : list RawProcess) (process : RawProcess) : option Assignment :=
  if negb (eqb (rp_grouping_resolution process) Group_CgroupScope) then None
  else ancestor ← nearest_desktop_resolved_ancestor process processes;
       Some {| assigned_key := rp_application_key ancestor; assigned_desktop := rp_desktop_entry_id ancestor;
               assigned_resolution := Group_InheritedParent |}.

(** One turn of the loop: who adopts is found before anyone is changed. *)
Definition adoptions (processes : list RawProcess) : list (nat * Assignment) :=
  omap (fun '(index, process) => a ← adoption processes process; Some (index, a)) (imap pair processes).
Definition adopt (processes : list RawProcess) (l : list (nat * Assignment)) : list RawProcess :=
  fold_left (fun processes '(index, a) => alter (assign a) index processes) l processes.

Fixpoint adoption_loop (fuel : nat) (processes : list RawProcess) : option (list RawProcess) :=
  match adoptions processes with
  | [] => Some processes
  | l => match fuel with O => None | S fuel => adoption_loop fuel (adopt processes l) end
  end.

Definition resolve_grouping (processes : list RawProcess) : option (list RawProcess) :=
  processes ← assign_all (seq 0 (length processes)) processes (direct_assignments processes)
                {| resolved := ∅; visiting := ∅ |};
  adoption_loop 1 processes.
End Grouping.

(** * What a grouping is *)

Section GroupingFacts.
Context (identity_salt : Z) (is_file : string -> bool) (desktop_roots : list string).
#[local] Abbreviation own := (own_assignment identity_salt is_file desktop_roots).

Definition parent_in (processes : list RawProcess) (p : RawProcess) : option RawProcess :=
  i ← parent_index processes p; processes !! i.

(** [home p q]: going up from [p] through processes without a scope, [q] is
    the first that has one. *)
Inductive home (processes : list RawProcess) : RawProcess -> RawProcess -> Prop :=
| home_self p a : own p = Some a -> home processes p p
| home_parent p q r : own p = None -> parent_in processes p = Some q -> home processes q r -> home processes p r.

(** What the first pass gives a process: its own scope's assignment, that of
    the nearest parent with a scope, or a key of its own. *)
Definition follows (processes : list RawProcess) (p : RawProcess) (a : Assignment) : Prop :=
  match own p with
  | Some b => a = b
  | None =>
      (exists q b, home processes p q /\ own q = Some b /\
         a = {| assigned_key := assigned_key b; assigned_desktop := assigned_desktop b;
                assigned_resolution := Group_InheritedParent |}) \/
      ((forall q, ~ home processes p q) /\ a = unknown_assignment p identity_salt)
  end.

Lemma own_is_known p a : own p = Some a -> assigned_resolution a <> Group_Unknown.
Proof.
  unfold own_assignment, direct_assignment. intros (s & _ & ->)%fmap_Some. by destruct (desktop_id_for_scope _ _ _).
Qed.

Lemma home_inv processes p q : home processes p q ->
  (exists a, own p = Some a /\ q = p) \/
  (own p = None /\ exists r, parent_in processes p = Some r /\ home processes r q).
Proof. destruct 1; [left | right]; eauto 6. Qed.

(** A process without a scope follows what its parent got. *)
Lemma follows_parent processes p q b : own p = None -> parent_in processes p = Some q -> follows processes q b ->
  follows processes p (default (unknown_assignment p identity_salt) (inherited b)).
Proof.
  intros Hp Hq Hb. unfold follows at 1. rewrite Hp. unfold inherited. unfold follows in Hb.
  destruct (own q) as [c |] eqn:Hc.
  - subst c. pose proof (own_is_known _ _ Hc) as Hk. left. exists q, b.
    rewrite (proj2 (eqb_false _ _) Hk). split_and!; [| done | done].
    eapply home_parent; [done | done |]. by eapply home_self.
  - destruct Hb as [(r & c & Hr & Hc' & ->) | [Hno ->]]; simpl.
    + left. exists r, c. split_and!; [by eapply home_parent | done | done].
    + right. split; [| done]. intros r [(a & Ha & _) | (_ & q' & Hq' & Hr)]%home_inv; [congruence |].
      rewrite Hq in Hq'. injection Hq' as <-. by eapply Hno.
Qed.

Lemma follows_orphan processes p : own p = None -> parent_in processes p = None ->
  follows processes p (unknown_assignment p identity_salt).
Proof.
  intros Hp Hq. unfold follows. rewrite Hp. right. split; [| done].
  intros r [(a & Ha & _) | (_ & q' & Hq' & _)]%home_inv; congruence.
Qed.

(** Up one parent from a process without a scope. *)
Definition up (processes : list RawProcess) (p q : RawProcess) : Prop :=
  own p = None /\ parent_in processes p = Some q.

Lemma no_home_on_a_cycle processes p q : tc (up processes) p p -> ~ home processes p q.
Proof.
  intros Hc Hh. induction Hh as [p a Ha | p r q Hp Hr _ IH].
  - inversion Hc as [? ? [H _] | ? ? ? [H _]]; congruence.
  - apply IH.
    assert (Hback : rtc (up processes) r p).
    { inversion Hc as [? ? [_ H] | ? y ? [_ H] Hy]; subst; rewrite Hr in H; injection H as <-; [done |].
      by apply tc_rtc. }
    apply tc_rtc_l with p; [done |]. by constructor.
Qed.

Lemma follows_on_a_cycle processes p : own p = None -> tc (up processes) p p ->
  follows processes p (unknown_assignment p identity_salt).
Proof. intros Hp Hc. unfold follows. rewrite Hp. right. split; [| done]. intros q. by apply no_home_on_a_cycle. Qed.

(** ** The first pass *)

Definition pids (processes : list RawProcess) : gset Z := list_to_set (pid_of <$> processes).

Section Resolving.
Context (processes : list RawProcess) (Hnd : NoDup (pid_of <$> processes)).
#[local] Abbreviation direct := (direct_assignments identity_salt is_file desktop_roots processes).

Lemma same_pid p q : p ∈ processes -> q ∈ processes -> pid_of p = pid_of q -> p = q.
Proof.
  intros [i Hi]%list_elem_of_lookup [j Hj]%list_elem_of_lookup E.
  assert (i = j) as ->; [| congruence].
  eapply NoDup_lookup; [exact Hnd | by rewrite list_lookup_fmap, Hi | by rewrite list_lookup_fmap, Hj; simpl; congruence].
Qed.

Lemma direct_fold (l : list RawProcess) (m : gmap Z Assignment) (pid : Z) :
  NoDup (pid_of <$> l) ->
  fold_left (fun d p => match own p with Some a => <[pid_of p := a]> d | None => d end) l m !! pid
  = match list_find (fun p => pid_of p = pid) l with
    | Some (_, p) => match own p with Some a => Some a | None => m !! pid end
    | None => m !! pid
    end.
Proof.
  revert m. induction l as [| p l IH]; intros m Hl; [done |].
  apply NoDup_cons in Hl as [Hp Hl]. cbn [fold_left]. rewrite IH by done. cbn [list_find].
  destruct (decide (pid_of p = pid)) as [<- | Hne].
  - rewrite (proj2 (list_find_None _ l)).
    + destruct (own p); [by rewrite lookup_insert_eq | done].
    + apply Forall_forall. intros q Hq E. apply Hp. rewrite <- E. by apply list_elem_of_fmap_2.
  - destruct (list_find (fun q => pid_of q = pid) l) as [[? q] |] eqn:Hq; simpl.
    + destruct (own q); [done |]. destruct (own p); [by rewrite lookup_insert_ne | done].
    + destruct (own p); [by rewrite lookup_insert_ne | done].
Qed.

Lemma direct_lookup p : p ∈ processes -> direct !! pid_of p = own p.
Proof.
  intros Hp. unfold direct_assignments. rewrite direct_fold by done.
  destruct (list_find (fun q => pid_of q = pid_of p) processes) as [[i q] |] eqn:Hf.
  - apply list_find_Some in Hf as (Hi & Hq & _). apply list_elem_of_lookup_2 in Hi.
    rewrite (same_pid q p) by done. rewrite lookup_empty. by destruct (own p).
  - apply list_find_None in Hf. rewrite Forall_forall in Hf. by destruct (Hf p Hp).
Qed.

Lemma parent_in_elem p q : parent_in processes p = Some q -> q ∈ processes.
Proof. unfold parent_in. intros (i & _ & Hi)%bind_Some. by eapply list_elem_of_lookup_2. Qed.

Definition resolved_ok (m : gmap Z Assignment) : Prop :=
  forall pid a, m !! pid = Some a -> exists p, p ∈ processes /\ pid_of p = pid /\ follows processes p a.

Lemma resolved_ok_insert m p a : p ∈ processes -> follows processes p a -> resolved_ok m ->
  resolved_ok (<[pid_of p := a]> m).
Proof.
  intros Hp Ha Hm pid b. rewrite lookup_insert_Some. intros [[<- <-] | [_ Hb]]; [eauto | by apply Hm].
Qed.

(** Where the recursion stands: whoever is being visited has come here by way of
    parents. *)
Definition on_the_way (st : resolving) (p : RawProcess) : Prop :=
  forall v, v ∈ processes -> pid_of v ∈ visiting st -> tc (up processes) v p.

Lemma resolve_process_spec fuel : forall index p st,
  processes !! index = Some p -> resolved_ok (resolved st) -> on_the_way st p ->
  (size (pids processes ∖ visiting st) <= fuel)%nat ->
  exists a st', resolve_process identity_salt fuel index processes direct st = Some (a, st') /\
    follows processes p a /\ resolved_ok (resolved st') /\ visiting st' = visiting st.
Proof.
  induction fuel as [| fuel IH]; intros index p st Hi Hok Hway Hsize;
    pose proof (list_elem_of_lookup_2 _ _ _ Hi) as Hin; cbn [resolve_process]; rewrite Hi; cbn [mbind option_bind].
  all: destruct (resolved st !! pid_of p) as [a |] eqn:Hr;
    [ exists a, st; split_and!; try done; destruct (Hok _ _ Hr) as (q & Hq & E & Hf); by rewrite <- (same_pid q p) |].
  all: rewrite direct_lookup by done; destruct (own p) as [a |] eqn:Hown.
  all: try (exists a; eexists; split_and!; [reflexivity | unfold follows; by rewrite Hown | | done];
            apply resolved_ok_insert; [done | unfold follows; by rewrite Hown | done]).
  all: case_bool_decide as Hv.
  all: try (assert (follows processes p (unknown_assignment p identity_salt)) as Hf
              by (apply follows_on_a_cycle; [done | by apply Hway]);
            eexists _, _; split_and!; [reflexivity | done | by apply resolved_ok_insert | done]).
  { exfalso. apply (not_elem_of_empty (C := gset Z) (pid_of p)).
    rewrite <- (size_empty_inv (pids processes ∖ visiting st)) by lia.
    apply elem_of_difference. split; [| done]. apply elem_of_list_to_set. by apply list_elem_of_fmap_2. }
  set (st1 := {| resolved := resolved st; visiting := {[pid_of p]} ∪ visiting st |}).
  assert (Hback : ({[pid_of p]} ∪ visiting st) ∖ {[pid_of p]} = visiting st) by set_solver.
  destruct (parent_index processes p) as [parent |] eqn:Hpar.
  - destruct (processes !! parent) as [q |] eqn:Hq.
    2: { unfold parent_index in Hpar. apply position_some in Hpar as (? & ? & _). congruence. }
    assert (Hp : parent_in processes p = Some q) by (unfold parent_in; by rewrite Hpar).
    destruct (IH parent q st1 Hq Hok) as (a & st2 & -> & Ha & Hok2 & Hv2).
    + intros v Hvin Hvis. simpl in Hvis. apply elem_of_union in Hvis as [E%elem_of_singleton | Hvis].
      * rewrite (same_pid v p) by done. by constructor.
      * eapply tc_r; [by apply Hway | done].
    + simpl. assert (size (pids processes ∖ ({[pid_of p]} ∪ visiting st)) < size (pids processes ∖ visiting st))%nat; [| lia].
      apply subset_size. split; [set_solver |]. intros Hsub. assert (pid_of p ∈ pids processes ∖ visiting st).
      { apply elem_of_difference. split; [| done]. apply elem_of_list_to_set. by apply list_elem_of_fmap_2. }
      set_solver.
    + assert (Hf := follows_parent _ _ _ _ Hown Hp Ha).
      eexists _, _. split_and!; [reflexivity | exact Hf | by apply resolved_ok_insert |].
      simpl. by rewrite Hv2.
  - assert (Hf : follows processes p (unknown_assignment p identity_salt)).
    { apply follows_orphan; [done |]. unfold parent_in. by rewrite Hpar. }
    eexists _, _. split_and!; [reflexivity | exact Hf | by apply resolved_ok_insert | done].
Qed.
End Resolving.

(** [resolve_process] reads who a process is and who its parent is, nothing
    else. *)
Definition alike (p q : RawProcess) : Prop := rp_identity p = rp_identity q /\ rp_ppid p = rp_ppid q.

Lemma alike_parent_index l l' p q : Forall2 alike l l' -> alike p q -> parent_index l p = parent_index l' q.
Proof.
  intros Hl [_ E]. unfold parent_index, position. rewrite E. clear E.
  induction Hl as [| a b l l' [Hab _] _ IH]; [done |]. cbn [list_find].
  assert (pid_of a = pid_of b) as -> by (unfold pid_of; by rewrite Hab).
  case_decide; [done |]. revert IH.
  destruct (list_find _ l) as [[] |], (list_find _ l') as [[] |]; simpl; congruence.
Qed.

Lemma resolve_process_alike direct fuel l l' : Forall2 alike l l' -> forall index st,
  resolve_process identity_salt fuel index l direct st = resolve_process identity_salt fuel index l' direct st.
Proof.
  intros Hl. induction fuel as [| fuel IH]; intros index st; cbn [resolve_process];
    pose proof (proj1 (Forall2_lookup _ _ _) Hl index) as Hi;
    destruct (l !! index) as [p |], (l' !! index) as [q |]; inversion Hi as [? ? Hpq |]; subst; try done.
  all: pose proof Hpq as [E1 _]; cbn [mbind option_bind]; unfold unknown_assignment, opaque_unknown_key, pid_of;
    rewrite E1; try done.
  destruct (resolved st !! _); [done |]. destruct (direct !! _); [done |]. case_bool_decide; [done |].
  rewrite (alike_parent_index l l' p q) by done. destruct (parent_index l' q); [by rewrite IH | done].
Qed.

(** After the first pass. *)
Definition assigned (processes : list RawProcess) (p p' : RawProcess) : Prop :=
  exists a, follows processes p a /\ p' = assign a p.

Lemma assign_all_spec processes : NoDup (pid_of <$> processes) ->
  forall todo done_ current st,
  todo = drop (length done_) processes -> Forall2 (assigned processes) (take (length done_) processes) done_ ->
  current = done_ ++ todo -> resolved_ok processes (resolved st) -> visiting st = ∅ ->
  exists final, assign_all identity_salt (seq (length done_) (length todo)) current
                  (direct_assignments identity_salt is_file desktop_roots processes) st = Some final /\
    Forall2 (assigned processes) processes final.
Proof.
  intros Hnd todo. induction todo as [| p todo IH]; intros done_ current st Ht Hd -> Hok Hv; simpl.
  - exists done_. rewrite app_nil_r. split; [done |].
    rewrite take_ge in Hd; [done |]. symmetry in Ht. apply (f_equal length) in Ht. rewrite length_drop in Ht. simpl in Ht. lia.
  - assert (Hp : processes !! length done_ = Some p).
    { rewrite <- (Nat.add_0_r (length done_)), <- lookup_drop, <- Ht. done. }
    assert (Halike : Forall2 alike (done_ ++ p :: todo) processes).
    { rewrite <- (take_drop (length done_) processes), <- Ht. apply Forall2_app.
      - apply Forall2_flip. eapply Forall2_impl; [exact Hd |]. intros q q' (a & _ & ->). done.
      - apply Forall_Forall2_diag, Forall_forall. done. }
    rewrite (resolve_process_alike _ _ _ _ Halike).
    destruct (resolve_process_spec processes Hnd (length (done_ ++ p :: todo)) (length done_) p st Hp Hok)
      as (a & st' & -> & Ha & Hok' & Hv').
    + intros v _. rewrite Hv. set_solver.
    + rewrite Hv, (Forall2_length _ _ _ Halike). unfold pids.
      rewrite difference_empty_L, size_list_to_set by done. by rewrite length_fmap.
    + cbn [mbind option_bind].
      rewrite alter_app_r_alt, Nat.sub_diag by done. simpl.
      replace (S (length done_)) with (length (done_ ++ [assign a p])) by (rewrite length_app; simpl; lia).
      apply IH; [| | by rewrite <- app_assoc | done | congruence].
      * rewrite length_app. simpl. rewrite Nat.add_1_r. rewrite (drop_S _ _ _ Hp) in Ht. congruence.
      * rewrite length_app. simpl. rewrite Nat.add_1_r, (take_S_r _ _ p) by done.
        apply Forall2_app; [done |]. repeat constructor. by exists a.
Qed.

(** ** Adoption *)

Lemma adopted_lookup l L i p : NoDup L.*1 -> l !! i = Some p ->
  adopt l L !! i = Some (match list_find (fun x => x.1 = i) L with Some (_, (_, a)) => assign a p | None => p end).
Proof.
  revert l p. induction L as [| [j a] L IH]; intros l p Hnd Hi; [done |].
  apply NoDup_cons in Hnd as [Hj Hnd]. cbn [adopt fold_left list_find fst]. fold (adopt (alter (assign a) j l) L).
  destruct (decide (j = i)) as [-> | Hne].
  - rewrite (IH _ (assign a p)); [| done | by rewrite list_lookup_alter_eq, Hi].
    rewrite (proj2 (list_find_None _ L)); [done |]. apply Forall_forall. intros x Hx <-. apply Hj.
    by apply (list_elem_of_fmap_2 fst L x).
  - rewrite (IH _ p); [| done | by rewrite list_lookup_alter_ne].
    by destruct (list_find _ L) as [[? [? ?]] |].
Qed.

Lemma adopt_length l L : length (adopt l L) = length l.
Proof. revert l. induction L as [| [j a] L IH]; intros l; [done |]. etrans; [apply IH | apply length_alter]. Qed.

Lemma adoptions_from all l k :
  omap (fun '(i, p) => a ← adoption all p; Some (i, a)) (imap (fun i p => ((k + i)%nat, p)) l)
  = omap (fun '(i, p) => a ← adoption all p; Some (i, a)) (zip (seq k (length l)) l).
Proof.
  revert k. induction l as [| p l IH]; intros k; [done |]. simpl. rewrite Nat.add_0_r.
  rewrite <- IH. erewrite imap_ext; [reflexivity |]. intros i q _. simpl. by rewrite Nat.add_succ_r.
Qed.

Lemma adoptions_spec all : forall l k,
  let L := omap (fun '(i, p) => a ← adoption all p; Some (i, a)) (zip (seq k (length l)) l) in
  NoDup L.*1 /\ Forall (fun x => (k <= x.1)%nat) L /\
  forall i p, l !! i = Some p ->
    match list_find (fun x : nat * Assignment => x.1 = (k + i)%nat) L with Some (_, (_, a)) => Some a | None => None end
    = adoption all p.
Proof.
  induction l as [| p l IH]; intros k L; [split_and!; [constructor | constructor | done] |].
  pose proof (IH (S k)) as IHk. cbv zeta in IHk.
  assert (EL : L = match adoption all p with
                   | Some a => (k, a) :: omap (fun '(i, p) => a ← adoption all p; Some (i, a)) (zip (seq (S k) (length l)) l)
                   | None => omap (fun '(i, p) => a ← adoption all p; Some (i, a)) (zip (seq (S k) (length l)) l)
                   end) by (unfold L; simpl; by destruct (adoption all p)).
  revert IHk EL. generalize (omap (fun '(i, p) => a ← adoption all p; Some (i, a)) (zip (seq (S k) (length l)) l)).
  intros L' (Hnd & Hge & Hf) EL. clear IH. clearbody L. subst L.
  assert (Hge' : Forall (fun x : nat * Assignment => (k <= x.1)%nat) L') by (eapply Forall_impl; [exact Hge |]; simpl; lia).
  assert (Hout : list_find (fun x : nat * Assignment => x.1 = k) L' = None).
  { apply list_find_None. eapply Forall_impl; [exact Hge |]. simpl. lia. }
  assert (Hnext : forall i q, l !! i = Some q ->
    match list_find (fun x : nat * Assignment => x.1 = (k + S i)%nat) L' with Some (_, (_, a)) => Some a | None => None end
    = adoption all q) by (intros i q Hq; rewrite <- (Hf i q Hq); by rewrite Nat.add_succ_r).
  destruct (adoption all p) as [a |] eqn:Ha; split_and!; try done.
  - apply NoDup_cons. split; [| done]. intros ([j b] & E & Hin)%list_elem_of_fmap. rewrite Forall_forall in Hge.
    specialize (Hge _ Hin). simpl in *. lia.
  - by constructor.
  - intros [| i] q Hq; simpl in Hq; cbn [list_find fst].
    + injection Hq as <-. by rewrite decide_True by lia.
    + rewrite decide_False by lia. rewrite <- (Hnext i q Hq).
      by destruct (list_find (fun x : nat * Assignment => x.1 = (k + S i)%nat) L') as [[? [? ?]] |].
  - intros [| i] q Hq; simpl in Hq; [| by apply Hnext].
    injection Hq as <-. by rewrite Nat.add_0_r, Hout, Ha.
Qed.

(** A turn of the loop changes each process as [adoption] says. *)
Definition after_adoption (l : list RawProcess) (p : RawProcess) : RawProcess :=
  match adoption l p with Some a => assign a p | None => p end.

Lemma adopt_spec l : adopt l (adoptions l) = after_adoption l <$> l.
Proof.
  assert (E : adoptions l = omap (fun '(i, p) => a ← adoption l p; Some (i, a)) (zip (seq 0 (length l)) l))
    by apply (adoptions_from l l 0).
  destruct (adoptions_spec l l 0) as (Hnd & _ & Hf). rewrite E. set (L := omap _ _) in *.
  apply list_eq. intros i. destruct (l !! i) as [p |] eqn:Hi.
  - rewrite (adopted_lookup _ _ _ p), list_lookup_fmap, Hi by done. simpl. f_equal.
    unfold after_adoption. rewrite <- (Hf i p Hi). by destruct (list_find _ L) as [[? [? ?]] |].
  - rewrite list_lookup_fmap, Hi. simpl. apply lookup_ge_None. rewrite adopt_length. by apply lookup_ge_None.
Qed.

Lemma no_adoptions l : adoptions l = [] <-> forall p, p ∈ l -> adoption l p = None.
Proof.
  assert (E : adoptions l = omap (fun '(i, p) => a ← adoption l p; Some (i, a)) (zip (seq 0 (length l)) l))
    by apply (adoptions_from l l 0).
  destruct (adoptions_spec l l 0) as (_ & _ & Hf). rewrite E. set (L := omap _ _) in *. split.
  - intros HL p [i Hi]%list_elem_of_lookup. rewrite <- (Hf i p Hi). by rewrite HL.
  - intros H. apply elem_of_nil_inv. intros [j a] Hx. apply list_elem_of_omap in Hx as ([j' p] & Hin & Ha).
    apply bind_Some in Ha as (b & Hb & _). rewrite H in Hb; [done |].
    by eapply elem_of_zip_r.
Qed.

(** Adopting changes who is where on the way up, but not where it leads. *)
Lemma ancestor_after l turns : forall pid,
  ancestor_loop turns pid (after_adoption l <$> l) = None <-> ancestor_loop turns pid l = None.
Proof.
  induction turns as [| turns IH]; intros pid; [done |]. cbn [ancestor_loop].
  rewrite list_find_fmap.
  replace (list_find ((fun candidate => pid_of candidate = pid) ∘ after_adoption l) l)
    with (list_find (fun candidate => pid_of candidate = pid) l).
  2: { apply list_find_ext. intros p. unfold after_adoption. simpl. by destruct (adoption l p). }
  destruct (list_find _ l) as [[i p] |]; [| done]. cbn [fmap option_fmap option_map prod_map snd mbind option_bind].
  assert (rp_ppid (after_adoption l p) = rp_ppid p) as -> by (unfold after_adoption; by destruct (adoption l p)).
  unfold after_adoption at 1, adoption.
  destruct (rp_grouping_resolution p) eqn:Hp; simpl; try (rewrite Hp; done).
  destruct (nearest_desktop_resolved_ancestor p l); simpl; [| rewrite Hp]; apply IH.
Qed.

Lemma adoption_settles l : adoption_loop 1 l = Some (after_adoption l <$> l).
Proof.
  unfold adoption_loop at 1. destruct (adoptions l) as [| x L] eqn:HL.
  - f_equal. symmetry. trans (id <$> l); [| apply list_fmap_id]. apply list_fmap_ext. intros i p Hi.
    unfold after_adoption. apply no_adoptions with (p := p) in HL; [by rewrite HL | by eapply list_elem_of_lookup_2].
  - rewrite <- HL, adopt_spec. clear HL.
    assert (Hno : adoptions (after_adoption l <$> l) = []); [| cbn [adoption_loop]; by rewrite Hno].
    apply no_adoptions. intros q (p & -> & Hp)%list_elem_of_fmap. unfold adoption.
    destruct (negb _) eqn:Hres; [done |].
    assert (Hn : adoption l p = None /\ rp_grouping_resolution p = Group_CgroupScope).
    { apply negb_false_iff, eqb_eq in Hres. unfold after_adoption in Hres.
      destruct (adoption l p) as [a |] eqn:Ha; [| done]. exfalso. unfold adoption in Ha.
      destruct (negb _); [done |]. by apply bind_Some in Ha as (? & _ & [= <-]). }
    destruct Hn as [Hn Hscope]. unfold after_adoption. rewrite Hn.
    unfold nearest_desktop_resolved_ancestor. rewrite length_fmap.
    rewrite (proj2 (ancestor_after l _ _)); [done |].
    unfold adoption in Hn. rewrite Hscope in Hn. simpl in Hn. unfold nearest_desktop_resolved_ancestor in Hn.
    by destruct (ancestor_loop _ _ l).
Qed.

End GroupingFacts.

(** ** At concrete processes *)

Section GroupingWitness.
Definition some_process (pid ppid : Z) (cgroup : string) : RawProcess :=
  {| rp_identity := {| pi_boot_id := "boot"; pi_pid := pid; pi_start_time_ticks := pid; pi_euid := 1000 |};
     rp_ppid := ppid; rp_comm := "c"; rp_exe_basename := None; rp_cgroup_content := cgroup;
     rp_application_key := ""; rp_desktop_entry_id := None; rp_grouping_resolution := Group_Unknown;
     rp_cpu_jiffies := 0; rp_rss_bytes := MetricValue_known 0; rp_pss_bytes := MetricValue_known 0;
     rp_fd_used := MetricValue_known 0; rp_fd_soft_limit := MetricValue_known 1;
     rp_fd_percent_of_soft_limit := MetricValue_known f64_zero |}.

(** An editor with a desktop entry, a helper it started in a scope of its own,
    a child of the helper in no scope, and two processes that are each other's
    parents. *)
Definition family : list RawProcess :=
  [some_process 1 0 "0::/app-editor.scope"; some_process 2 1 "0::/run-2.scope"; some_process 3 2 "0::/";
   some_process 4 5 "0::/"; some_process 5 4 "0::/"]%string.
Definition has_editor (path : string) : bool := String.eqb path "/apps/editor.desktop".


(** The helper joins the editor, but its child keeps the key of the scope the
    helper was in: it inherits in the first pass and is not looked at again. *)
Example inherited_child_is_left_behind :
  option_map (List.map rp_application_key) (resolve_grouping 7 has_editor ["/apps"%string] family)
  = Some ["editor.desktop"; "editor.desktop"; opaque_cgroup_key "/run-2.scope" 7;
          opaque_unknown_key (some_process 4 5 "0::/") 7; opaque_unknown_key (some_process 5 4 "0::/") 7]%string.
Proof. vm_compute. reflexivity. Qed.
End GroupingWitness.
