(* ===== verification/TelemetryProc.v ===== *)
(** [crates/telemetry/src/procfs.rs], [ProcCollector]: one collection of the
    processes of a user, and the records the helper sends and the daemon gets
    back.

    The file system is a parameter ([ProcFs]): what a call answers depends on
    when it is made, so that processes come and go between two reads. A
    directory is listed when it is opened. Desktop entries do not change during
    a collection. *)
From S2P Require Import Prelude Frame HelperFrame TelemetryHelper RemoteCore Text Encoding Domain TelemetryParse TelemetryIdentity.

Class ProcFs (W : Type) := {
  fs_read : string -> W -> W * result (list Z) ProcIo;
  fs_read_dir : string -> W -> W * result (list (result string ProcIo)) ProcIo;
  fs_read_link : string -> W -> W * result string ProcIo;
  (** [File::open] and one [read] into a buffer of that size. *)
  fs_read_start : string -> nat -> W -> W * result (list Z) ProcIo;
  fs_is_file : W -> string -> bool;
  (** The milliseconds since the epoch, if the clock is after it. *)
  fs_unix_millis : W -> W * option Z;
  process_id : Z;
}.

Record ProcCollector (W : Type) := {
  proc_root : string;
  cgroup_root : string;
  collector_desktop_roots : list string;
  collector_euid : Z;
  page_size : Z;
  clk_tck : Z;
  collector_salt : Z;
  revalidation_hook : option (string -> W -> W);
}.
Arguments proc_root {W}. Arguments cgroup_root {W}. Arguments collector_desktop_roots {W}.
Arguments collector_euid {W}. Arguments page_size {W}. Arguments clk_tck {W}. Arguments collector_salt {W}.
Arguments revalidation_hook {W}.

Definition with_config_and_cgroup_root {W} (proc_root cgroup_root : string) (euid page_size clk_tck : Z)
    (desktop_roots : list string) (uuid : Uuid) : ProcCollector W :=
  {| proc_root := proc_root; cgroup_root := cgroup_root; collector_desktop_roots := desktop_roots;
     collector_euid := euid; page_size := page_size; clk_tck := clk_tck; collector_salt := uuid;
     revalidation_hook := None |}.
Definition with_config {W} (proc_root : string) (euid page_size clk_tck : Z) (desktop_roots : list string)
    (uuid : Uuid) : ProcCollector W :=
  with_config_and_cgroup_root proc_root "/sys/fs/cgroup" euid page_size clk_tck desktop_roots uuid.
(** [sysconf] answers an [i64], or nothing. *)
Definition ProcCollector_new {W} (proc_root : string) (page_size clk_tck : option Z) (euid : Z)
    (desktop_roots : list string) (uuid : Uuid) : result (ProcCollector W) ProcError :=
  let positive o := v ← o; if 0 <? v then Some v else None in
  let? page_size := ok_or Proc_SystemConfig (positive page_size) in
  let? clk_tck := ok_or Proc_SystemConfig (positive clk_tck) in
  Ok (with_config proc_root euid page_size clk_tck desktop_roots uuid).
Definition with_revalidation_hook {W} (hook : string -> W -> W) (c : ProcCollector W) : ProcCollector W :=
  {| proc_root := proc_root c; cgroup_root := cgroup_root c; collector_desktop_roots := collector_desktop_roots c;
     collector_euid := collector_euid c; page_size := page_size c; clk_tck := clk_tck c;
     collector_salt := collector_salt c; revalidation_hook := Some hook |}.

Inductive ProcessOutcome := Included (process : RawProcess) | Excluded.

Section Collector.
Context {W : Type} `{ProcFs W} (collector : ProcCollector W).

(** ** Reading *)

(** [fs::read_to_string]: text that is not UTF-8 is an error of its own. *)
Definition read_to_string (path : string) (w : W) : W * result string ProcIo :=
  let '(w, r) := fs_read path w in
  (w, let? content := r in if valid_utf8 content then Ok (string_of_bytes content) else Err Proc_OtherIo).
(** The result of a read is looked at by what comes after. *)
Definition reading {A E} (m : W -> W * A) : mut W A E := fun w => let '(w, a) := m w in (w, Ok a).
Definition require_read {E} (error : ProcIo -> E) (path : string) : mut W string E :=
  fun w => let '(w, r) := read_to_string path w in (w, map_err error r).

Definition read_boot_id : mut W string ProcError :=
  content <- require_read (fun _ => BootIdUnavailable) (path_join (proc_root collector) "sys/kernel/random/boot_id") ;;
  lift (fun _ => boot_id_of content).
Definition read_cpu_stat : mut W (Z * Z) ProcError :=
  content <- require_read (fun _ => CpuStatUnavailable) (path_join (proc_root collector) "stat") ;;
  lift (fun _ => cpu_stat_of content).

Fixpoint count_entries (count : Z) (entries : list (result string ProcIo)) : MetricValue Z :=
  match entries with
  | [] => MetricValue_known count
  | Ok _ :: entries => count_entries (Z.min u64_max (count + 1)) entries
  | Err error :: _ => metric_for_io error "fd"
  end.
Definition read_fd_count (entries : result (list (result string ProcIo)) ProcIo) : MetricValue Z :=
  match entries with
  | Ok entries => count_entries 0 entries
  | Err error => metric_for_io error "fd"
  end.

Definition argv0_basename (r : result (list Z) ProcIo) : option string :=
  match r with
  | Ok start =>
      end_ ← position (Z.eqb 0) start;
      bounded_path_basename (string_of_bytes (lossy_bytes (take end_ start)))
  | Err _ => None
  end.
Definition read_executable_basename {E} (process_root : string) : mut W (option string) E :=
  link <- reading (fs_read_link (path_join process_root "exe")) ;;
  match (match link with Ok path => bounded_path_basename path | Err _ => None end) with
  | Some name => ret (Some name)
  | None =>
      start <- reading (fs_read_start (path_join process_root "cmdline") (Z.to_nat MAX_STRING_BYTES)) ;;
      ret (argv0_basename start)
  end.

(** ** One process *)

Definition rss_metric (rss : result Z StatParseError) : MetricValue Z :=
  match rss with
  | Ok value => MetricValue_known value
  | Err NegativeRss => MetricValue_unavailable Metric_Unknown "negative_rss"
  | Err RssOverflow => MetricValue_unavailable Metric_Unknown "rss_overflow"
  | Err _ => MetricValue_unavailable Metric_Unknown "rss_unknown"
  end.

Definition same_process (stat final_stat : ParsedStat) (effective_uid final_effective_uid : Z) : bool :=
  (pi_pid (stat_identity final_stat) =? pi_pid (stat_identity stat))
  && (pi_start_time_ticks (stat_identity final_stat) =? pi_start_time_ticks (stat_identity stat))
  && (final_effective_uid =? effective_uid) && (final_effective_uid =? collector_euid collector).

Definition read_process (pid : Z) (boot_id : string) : mut W ProcessOutcome ProcReadError :=
  let process_root := path_join (proc_root collector) (decimal_of pid) in
  stat_content <- require_read classify_io (path_join process_root "stat") ;;
  stat <- lift (fun _ => map_err Read_Stat (parse_process_stat stat_content pid boot_id (page_size collector))) ;;
  status <- require_read classify_io (path_join process_root "status") ;;
  uids <- lift (fun _ => ok_or Read_Status (parse_uids status)) ;;
  let effective_uid := uids.2 in
  if negb (effective_uid =? collector_euid collector) then ret Excluded
  else
    rollup <- reading (read_to_string (path_join process_root "smaps_rollup")) ;;
    cgroup_content <- require_read classify_io (path_join process_root "cgroup") ;;
    lift (fun _ => fail_if MAX_CGROUP_BYTES <? len cgroup_content with Read_Oversized "cgroup" in Ok tt) ;;;
    exe_basename <- read_executable_basename process_root ;;
    fds <- reading (fs_read_dir (path_join process_root "fd")) ;;
    limits <- reading (read_to_string (path_join process_root "limits")) ;;
    let fd_used := read_fd_count fds in
    let fd_soft_limit := read_fd_soft_limit limits in
    modify (fun w => match revalidation_hook collector with Some hook => hook process_root w | None => w end) ;;;
    final_content <- require_read classify_io (path_join process_root "stat") ;;
    final_stat <- lift (fun _ => map_err (fun _ => Read_Race)
                          (parse_process_stat final_content pid boot_id (page_size collector))) ;;
    final_status <- require_read classify_io (path_join process_root "status") ;;
    final_uids <- lift (fun _ => ok_or Read_Race (parse_uids final_status)) ;;
    lift (fun _ => fail_if negb (same_process stat final_stat effective_uid final_uids.2) with Read_Race in Ok tt) ;;;
    ret (Included
      {| rp_identity := {| pi_boot_id := pi_boot_id (stat_identity stat); pi_pid := pi_pid (stat_identity stat);
                           pi_start_time_ticks := pi_start_time_ticks (stat_identity stat); pi_euid := effective_uid |};
         rp_ppid := stat_ppid stat; rp_comm := stat_comm stat; rp_exe_basename := exe_basename;
         rp_cgroup_content := cgroup_content; rp_application_key := ""; rp_desktop_entry_id := None;
         rp_grouping_resolution := Group_Unknown; rp_cpu_jiffies := stat_cpu_jiffies stat;
         rp_rss_bytes := rss_metric (stat_rss_bytes stat); rp_pss_bytes := read_pss_bytes rollup;
         rp_fd_used := fd_used; rp_fd_soft_limit := fd_soft_limit;
         rp_fd_percent_of_soft_limit := derive_fd_percent fd_used fd_soft_limit |}).

(** ** All processes *)

Record collecting := {
  found : list RawProcess;
  excluded : Z;
  skipped : Z;
  col_log : issue_log;
  numeric : Z;
}.
Definition with_log (log : issue_log) (c : collecting) : collecting :=
  {| found := found c; excluded := excluded c; skipped := skipped c; col_log := log; numeric := numeric c |}.

Definition log_read_error (e : ProcReadError) (log : issue_log) : issue_log :=
  (add_issue (ProcReadError_reason_code e) log.1,
   match e with Read_Permission => add_issue (ProcReadError_reason_code e) log.2 | _ => log.2 end).

Definition trim_cgroup (p : RawProcess) : RawProcess :=
  {| rp_identity := rp_identity p; rp_ppid := rp_ppid p; rp_comm := rp_comm p;
     rp_exe_basename := rp_exe_basename p; rp_cgroup_content := str_trim (rp_cgroup_content p);
     rp_application_key := rp_application_key p; rp_desktop_entry_id := rp_desktop_entry_id p;
     rp_grouping_resolution := rp_grouping_resolution p; rp_cpu_jiffies := rp_cpu_jiffies p;
     rp_rss_bytes := rp_rss_bytes p; rp_pss_bytes := rp_pss_bytes p; rp_fd_used := rp_fd_used p;
     rp_fd_soft_limit := rp_fd_soft_limit p; rp_fd_percent_of_soft_limit := rp_fd_percent_of_soft_limit p |}.

(** What the answer for a process does to the collection. *)
Definition record_process (c : collecting) (r : result ProcessOutcome ProcReadError) : collecting :=
  match r with
  | Ok (Included process) =>
      {| found := found c ++ [trim_cgroup process]; excluded := excluded c; skipped := skipped c;
         col_log := record_metric_issue (rp_pss_bytes process) (col_log c); numeric := numeric c |}
  | Ok Excluded =>
      {| found := found c; excluded := excluded c + 1; skipped := skipped c; col_log := col_log c;
         numeric := numeric c |}
  | Err error =>
      {| found := found c; excluded := excluded c;
         skipped := match error with Read_Race => sat_u64 (skipped c + 1) | _ => skipped c end;
         col_log := log_read_error error (col_log c); numeric := numeric c |}
  end.
Definition record_entry_error (c : collecting) (error : ProcIo) : collecting :=
  match error with
  | Proc_PermissionDenied =>
      with_log (add_issue "process_dir_permission_denied" (col_log c).1,
                add_issue "process_dir_permission_denied" (col_log c).2) c
  | _ => with_log (add_issue "process_dir_read_error" (col_log c).1, (col_log c).2) c
  end.

Fixpoint collect_entries (boot_id : string) (entries : list (result string ProcIo)) (c : collecting)
  : mut W collecting ProcError :=
  match entries with
  | [] => ret c
  | Err error :: entries => collect_entries boot_id entries (record_entry_error c error)
  | Ok name :: entries =>
      match (if valid_utf8 (bytes name) then parse_u32 name else None) with
      | None => collect_entries boot_id entries c
      | Some pid =>
          if pid =? process_id then collect_entries boot_id entries c
          else
            let c := {| found := found c; excluded := excluded c; skipped := skipped c; col_log := col_log c;
                        numeric := numeric c + 1 |} in
            lift (fun _ => fail_if MAX_PROCESS_RECORDS <? numeric c with ProcessLimitExceeded in Ok tt) ;;;
            outcome <- reading (read_process pid boot_id) ;;
            collect_entries boot_id entries (record_process c outcome)
      end
  end.

(** ** Control groups *)

Definition scope_key (processes : list RawProcess) (path : string) (first : RawProcess) : string :=
  default (rp_application_key first)
    (rp_application_key <$>
       List.find (fun member => eqb (cgroup_v2_scope (rp_cgroup_content member)) (Some path)
                                && is_some (rp_desktop_entry_id member)) processes).

(** The [BTreeMap] of scopes, each with the key its first process finds. *)
Definition scopes (processes : list RawProcess) : list (string * string) :=
  let firsts := fold_left (fun (l : list (string * string)) process =>
    match cgroup_v2_scope (rp_cgroup_content process) with
    | Some path => if contains path l.*1 then l else l ++ [(path, scope_key processes path process)]
    | None => l
    end) processes [] in
  merge_sort (fun a b => str_le a.1 b.1) firsts.

Definition read_cgroup {E} (path_key : string * string) : mut W RawCgroupRecord E :=
  let root := cgroup_path_on_disk (cgroup_root collector) path_key.1 in
  cpu <- reading (read_to_string (path_join root "cpu.stat")) ;;
  memory <- reading (read_to_string (path_join root "memory.current")) ;;
  procs <- reading (read_to_string (path_join root "cgroup.procs")) ;;
  ret {| rc_cgroup_path := path_key.1; rc_application_key := path_key.2;
         rc_cpu_usage_usec := read_cpu_usage_usec cpu;
         rc_memory_current_bytes := read_u64_metric memory "cgroup_memory_current";
         rc_process_count := read_line_count procs "cgroup_process_count" |}.

Definition log_cgroup (cgroup : RawCgroupRecord) (log : issue_log) : issue_log :=
  record_metric_issue (rc_process_count cgroup)
    (record_metric_issue (rc_memory_current_bytes cgroup)
       (record_metric_issue (rc_cpu_usage_usec cgroup) log)).

Fixpoint collect_cgroups {E} (l : list (string * string)) (log : issue_log)
  : mut W (list RawCgroupRecord * issue_log) E :=
  match l with
  | [] => ret ([], log)
  | path_key :: l =>
      cgroup <- read_cgroup path_key ;;
      rest <- collect_cgroups l (log_cgroup cgroup log) ;;
      ret (cgroup :: rest.1, rest.2)
  end.

(** ** Applications *)

Definition attributed_fds (processes : list RawProcess) : Z * Z :=
  fold_left (fun '(total, skipped) process =>
    match metric_value (rp_fd_used process) with
    | Some value => (sat_u64 (total + value), skipped)
    | None => (total, sat_u64 (skipped + 1))
    end) processes (0, 0).
Definition attributed_fd_total (processes : list RawProcess) : MetricValue Z :=
  let '(total, skipped) := attributed_fds processes in
  if (0 <? total) || (skipped =? 0) then MetricValue_known total
  else MetricValue_unavailable Metric_Unknown "attributed_fd_total_unknown".

(** The keys of a [BTreeMap<String, Vec<_>>] built by insertion. *)
Definition application_keys (processes : list RawProcess) : list string :=
  btree_set (rp_application_key <$> processes).
Definition members_of (key : string) (processes : list RawProcess) : list RawProcess :=
  List.filter (fun p => String.eqb (rp_application_key p) key) processes.

Definition sum_cgroup_metric (cgroups : list RawCgroupRecord) (select : RawCgroupRecord -> MetricValue Z)
    (reason : string) : MetricValue Z :=
  match cgroups with
  | [] => MetricValue_unavailable Metric_Unknown reason
  | _ => sum_u64_metrics (select <$> cgroups) reason
  end.

Definition private_application (processes : list RawProcess) (cgroups : list RawCgroupRecord) (key : string)
  : RawApplicationResourceRecord :=
  let members := members_of key processes in
  let app_cgroups := List.filter (fun c => String.eqb (rc_application_key c) key) cgroups in
  let fd_used_sum := sum_u64_metrics (rp_fd_used <$> members) "application_fd_used_unknown" in
  let fd_soft_limit_sum := sum_u64_metrics (rp_fd_soft_limit <$> members) "application_fd_limit_unknown" in
  {| ra_application_key := key;
     ra_process_count := Z.of_nat (length members);
     ra_proc_cpu_jiffies_sum := checked_sum_u64 (rp_cpu_jiffies <$> members) "application_cpu_counter_overflow";
     ra_rss_sum_bytes := sum_u64_metrics (rp_rss_bytes <$> members) "application_rss_unknown";
     ra_pss_sum_bytes := sum_u64_metrics (rp_pss_bytes <$> members) "application_pss_unknown";
     ra_fd_used_sum := fd_used_sum;
     ra_fd_soft_limit_sum := fd_soft_limit_sum;
     ra_fd_percent_of_attributed_sum :=
       derive_percent fd_used_sum (attributed_fd_total processes) "application_fd_attributed_percent_unknown";
     ra_fd_percent_of_soft_limit_sum :=
       derive_percent fd_used_sum fd_soft_limit_sum "application_fd_limit_percent_unknown";
     ra_cgroup_cpu_usage_usec := sum_cgroup_metric app_cgroups rc_cpu_usage_usec "application_cgroup_cpu_unknown";
     ra_memory_current_bytes :=
       sum_cgroup_metric app_cgroups rc_memory_current_bytes "application_memory_current_unknown";
     ra_cgroup_process_count :=
       sum_cgroup_metric app_cgroups rc_process_count "application_cgroup_process_count_unknown" |}.

Definition aggregate_private_applications (processes : list RawProcess) (cgroups : list RawCgroupRecord)
    (issues : list IssueCount) : list RawApplicationResourceRecord * list IssueCount :=
  (private_application processes cgroups <$> application_keys processes,
   if 0 <? (attributed_fds processes).2 then add_issue "attributed_fd_partial" issues else issues).

Definition read_system_fd {E} : mut W RawSystemFdSnapshot E :=
  nr <- reading (read_to_string (path_join (proc_root collector) "sys/fs/file-nr")) ;;
  max <- reading (read_to_string (path_join (proc_root collector) "sys/fs/file-max")) ;;
  let '(allocated, nr_max) :=
    match nr with
    | Ok content => parse_file_nr content
    | Err error => (metric_for_stable_io error "file_nr", metric_for_stable_io error "file_nr")
    end in
  let file_max := read_u64_stable_metric max "file_max" in
  ret {| rf_file_nr_allocated := allocated; rf_file_nr_max := nr_max; rf_file_max := file_max;
         rf_pressure_percent := derive_percent allocated file_max "system_fd_pressure_unknown" |}.

(** ** A collection *)

(** [i64::try_from] of the milliseconds; 0 where there are none. *)
Definition unix_ms (w : W) : W * Z :=
  let '(w, millis) := fs_unix_millis w in (w, default 0 (m ← millis; checked_i64 m)).

(** [resolve_grouping] always answers ([grouping_is_exact]). *)
Definition grouped (w : W) (processes : list RawProcess) : list RawProcess :=
  default processes
    (resolve_grouping (collector_salt collector) (fs_is_file w) (collector_desktop_roots collector) processes).

Definition collect_raw : mut W RawSnapshot ProcError :=
  boot_id <- read_boot_id ;;
  cpu <- read_cpu_stat ;;
  entries <- (fun w => let '(w, r) := fs_read_dir (proc_root collector) w in (w, map_err (fun _ => Proc_Root) r)) ;;
  c <- collect_entries boot_id entries
         {| found := []; excluded := 0; skipped := 0; col_log := ([], []); numeric := 0 |} ;;
  processes <- gets (fun w => grouped w (found c)) ;;
  cgroups <- collect_cgroups (scopes processes) (col_log c) ;;
  system_fd <- read_system_fd ;;
  let '(applications, issues) := aggregate_private_applications processes cgroups.1 cgroups.2.1 in
  let log := record_metric_issue (rf_file_max system_fd)
               (record_metric_issue (rf_file_nr_max system_fd)
                  (record_metric_issue (rf_file_nr_allocated system_fd) (issues, cgroups.2.2))) in
  uptime <- reading (read_to_string (path_join (proc_root collector) "uptime")) ;;
  let captured_at_monotonic_ns := read_monotonic_ns uptime in
  let log := record_metric_issue captured_at_monotonic_ns log in
  now <- reading unix_ms ;;
  ret {| raw_boot_id := boot_id; raw_euid := collector_euid collector; raw_captured_at_unix_ms := now;
         raw_captured_at_monotonic_ns := captured_at_monotonic_ns; raw_total_cpu_jiffies := cpu.1;
         raw_logical_cpu_count := cpu.2; raw_processes := processes; raw_cgroups := cgroups.1;
         raw_applications := applications; raw_system_fd := system_fd;
         raw_excluded_other_uid := excluded c; raw_skipped_race := skipped c;
         raw_permission_denied_counts := log.2; raw_issues := log.1 |}.
End Collector.

(** ** The helper's protocol *)

Definition metric_state_into_protocol (s : MetricState) : PrivateMetricState :=
  match s with
  | Metric_Known => Known
  | Metric_Unknown => Unknown
  | Metric_PermissionDenied => MetricPermissionDenied
  | Metric_Raced => Raced
  | Metric_Unbounded => Unbounded
  | Metric_WarmingUp => WarmingUp
  | Metric_SamplingGap => SamplingGap
  end.
Definition metric_state_from_protocol (s : PrivateMetricState) : MetricState :=
  match s with
  | Known => Metric_Known
  | Unknown => Metric_Unknown
  | MetricPermissionDenied => Metric_PermissionDenied
  | Raced => Metric_Raced
  | Unbounded => Metric_Unbounded
  | WarmingUp => Metric_WarmingUp
  | SamplingGap => Metric_SamplingGap
  end.
Definition metric_into_protocol {T} (m : MetricValue T) : PrivateMetric T :=
  match metric_state m, metric_value m with
  | Metric_Known, Some v => PrivateMetric_known v
  | s, _ => PrivateMetric_unavailable (metric_state_into_protocol s)
              (default "metric_unknown"%string (metric_reason m))
  end.
Definition metric_from_protocol {T} (m : PrivateMetric T) : MetricValue T :=
  match TelemetryHelper.state m, TelemetryHelper.value m with
  | Known, Some v => MetricValue_known v
  | s, _ => MetricValue_unavailable (metric_state_from_protocol s)
              (default "metric_unknown"%string (TelemetryHelper.reason m))
  end.

Definition grouping_into_protocol (g : GroupingResolution) : PrivateGroupingResolution :=
  match g with
  | Group_DesktopEntryExact => DesktopEntryExact
  | Group_CgroupScope => CgroupScope
  | Group_InheritedParent => InheritedParent
  | Group_Unknown => GroupingUnknown
  end.
Definition grouping_from_protocol (g : PrivateGroupingResolution) : GroupingResolution :=
  match g with
  | DesktopEntryExact => Group_DesktopEntryExact
  | CgroupScope => Group_CgroupScope
  | InheritedParent => Group_InheritedParent
  | GroupingUnknown => Group_Unknown
  end.

Definition issue_into_protocol (i : IssueCount) : PrivateIssueCount :=
  {| TelemetryHelper.issue_code := issue_code i; TelemetryHelper.count := issue_count i |}.
Definition issue_from_protocol (i : PrivateIssueCount) : IssueCount :=
  {| issue_code := TelemetryHelper.issue_code i; issue_count := TelemetryHelper.count i |}.

Definition process_into_protocol (p : RawProcess) : PrivateProcessRecord f64 :=
  {| TelemetryHelper.identity :=
       {| TelemetryHelper.identity_boot_id := pi_boot_id (rp_identity p); TelemetryHelper.pid := pi_pid (rp_identity p);
          TelemetryHelper.start_time_ticks := pi_start_time_ticks (rp_identity p);
          TelemetryHelper.identity_euid := pi_euid (rp_identity p) |};
     TelemetryHelper.ppid := rp_ppid p; TelemetryHelper.comm := rp_comm p;
     TelemetryHelper.exe_basename := rp_exe_basename p; TelemetryHelper.cgroup_content := rp_cgroup_content p;
     TelemetryHelper.process_application_key := rp_application_key p;
     TelemetryHelper.desktop_entry_id := rp_desktop_entry_id p;
     TelemetryHelper.grouping_resolution := grouping_into_protocol (rp_grouping_resolution p);
     TelemetryHelper.cpu_jiffies := rp_cpu_jiffies p;
     TelemetryHelper.rss_bytes := metric_into_protocol (rp_rss_bytes p);
     TelemetryHelper.pss_bytes := metric_into_protocol (rp_pss_bytes p);
     TelemetryHelper.fd_used := metric_into_protocol (rp_fd_used p);
     TelemetryHelper.fd_soft_limit := metric_into_protocol (rp_fd_soft_limit p);
     TelemetryHelper.fd_percent_of_soft_limit := metric_into_protocol (rp_fd_percent_of_soft_limit p) |}.
Definition process_from_protocol (p : PrivateProcessRecord f64) : RawProcess :=
  {| rp_identity :=
       {| pi_boot_id := TelemetryHelper.identity_boot_id (TelemetryHelper.identity p);
          pi_pid := TelemetryHelper.pid (TelemetryHelper.identity p);
          pi_start_time_ticks := TelemetryHelper.start_time_ticks (TelemetryHelper.identity p);
          pi_euid := TelemetryHelper.identity_euid (TelemetryHelper.identity p) |};
     rp_ppid := TelemetryHelper.ppid p; rp_comm := TelemetryHelper.comm p;
     rp_exe_basename := TelemetryHelper.exe_basename p; rp_cgroup_content := TelemetryHelper.cgroup_content p;
     rp_application_key := TelemetryHelper.process_application_key p;
     rp_desktop_entry_id := TelemetryHelper.desktop_entry_id p;
     rp_grouping_resolution := grouping_from_protocol (TelemetryHelper.grouping_resolution p);
     rp_cpu_jiffies := TelemetryHelper.cpu_jiffies p;
     rp_rss_bytes := metric_from_protocol (TelemetryHelper.rss_bytes p);
     rp_pss_bytes := metric_from_protocol (TelemetryHelper.pss_bytes p);
     rp_fd_used := metric_from_protocol (TelemetryHelper.fd_used p);
     rp_fd_soft_limit := metric_from_protocol (TelemetryHelper.fd_soft_limit p);
     rp_fd_percent_of_soft_limit := metric_from_protocol (TelemetryHelper.fd_percent_of_soft_limit p) |}.

Definition cgroup_into_protocol (c : RawCgroupRecord) : PrivateCgroupRecord :=
  {| TelemetryHelper.cgroup_path := rc_cgroup_path c;
     TelemetryHelper.cgroup_application_key := rc_application_key c;
     TelemetryHelper.cpu_usage_usec := metric_into_protocol (rc_cpu_usage_usec c);
     TelemetryHelper.cgroup_memory_current_bytes := metric_into_protocol (rc_memory_current_bytes c);
     TelemetryHelper.cgroup_record_process_count := metric_into_protocol (rc_process_count c) |}.
Definition cgroup_from_protocol (c : PrivateCgroupRecord) : RawCgroupRecord :=
  {| rc_cgroup_path := TelemetryHelper.cgroup_path c;
     rc_application_key := TelemetryHelper.cgroup_application_key c;
     rc_cpu_usage_usec := metric_from_protocol (TelemetryHelper.cpu_usage_usec c);
     rc_memory_current_bytes := metric_from_protocol (TelemetryHelper.cgroup_memory_current_bytes c);
     rc_process_count := metric_from_protocol (TelemetryHelper.cgroup_record_process_count c) |}.

Definition application_into_protocol (a : RawApplicationResourceRecord) : PrivateApplicationResourceRecord f64 :=
  {| TelemetryHelper.application_key := ra_application_key a; TelemetryHelper.process_count := ra_process_count a;
     TelemetryHelper.proc_cpu_jiffies_sum := metric_into_protocol (ra_proc_cpu_jiffies_sum a);
     TelemetryHelper.rss_sum_bytes := metric_into_protocol (ra_rss_sum_bytes a);
     TelemetryHelper.pss_sum_bytes := metric_into_protocol (ra_pss_sum_bytes a);
     TelemetryHelper.fd_used_sum := metric_into_protocol (ra_fd_used_sum a);
     TelemetryHelper.fd_soft_limit_sum := metric_into_protocol (ra_fd_soft_limit_sum a);
     TelemetryHelper.fd_percent_of_attributed_sum := metric_into_protocol (ra_fd_percent_of_attributed_sum a);
     TelemetryHelper.fd_percent_of_soft_limit_sum := metric_into_protocol (ra_fd_percent_of_soft_limit_sum a);
     TelemetryHelper.cgroup_cpu_usage_usec := metric_into_protocol (ra_cgroup_cpu_usage_usec a);
     TelemetryHelper.memory_current_bytes := metric_into_protocol (ra_memory_current_bytes a);
     TelemetryHelper.cgroup_process_count := metric_into_protocol (ra_cgroup_process_count a) |}.
Definition application_from_protocol (a : PrivateApplicationResourceRecord f64) : RawApplicationResourceRecord :=
  {| ra_application_key := TelemetryHelper.application_key a; ra_process_count := TelemetryHelper.process_count a;
     ra_proc_cpu_jiffies_sum := metric_from_protocol (TelemetryHelper.proc_cpu_jiffies_sum a);
     ra_rss_sum_bytes := metric_from_protocol (TelemetryHelper.rss_sum_bytes a);
     ra_pss_sum_bytes := metric_from_protocol (TelemetryHelper.pss_sum_bytes a);
     ra_fd_used_sum := metric_from_protocol (TelemetryHelper.fd_used_sum a);
     ra_fd_soft_limit_sum := metric_from_protocol (TelemetryHelper.fd_soft_limit_sum a);
     ra_fd_percent_of_attributed_sum := metric_from_protocol (TelemetryHelper.fd_percent_of_attributed_sum a);
     ra_fd_percent_of_soft_limit_sum := metric_from_protocol (TelemetryHelper.fd_percent_of_soft_limit_sum a);
     ra_cgroup_cpu_usage_usec := metric_from_protocol (TelemetryHelper.cgroup_cpu_usage_usec a);
     ra_memory_current_bytes := metric_from_protocol (TelemetryHelper.memory_current_bytes a);
     ra_cgroup_process_count := metric_from_protocol (TelemetryHelper.cgroup_process_count a) |}.

Definition system_fd_into_protocol (s : RawSystemFdSnapshot) : PrivateSystemFdSnapshot f64 :=
  {| TelemetryHelper.file_nr_allocated := metric_into_protocol (rf_file_nr_allocated s);
     TelemetryHelper.file_nr_max := metric_into_protocol (rf_file_nr_max s);
     TelemetryHelper.file_max := metric_into_protocol (rf_file_max s);
     TelemetryHelper.pressure_percent := metric_into_protocol (rf_pressure_percent s) |}.
Definition system_fd_from_protocol (s : PrivateSystemFdSnapshot f64) : RawSystemFdSnapshot :=
  {| rf_file_nr_allocated := metric_from_protocol (TelemetryHelper.file_nr_allocated s);
     rf_file_nr_max := metric_from_protocol (TelemetryHelper.file_nr_max s);
     rf_file_max := metric_from_protocol (TelemetryHelper.file_max s);
     rf_pressure_percent := metric_from_protocol (TelemetryHelper.pressure_percent s) |}.

Definition snapshot_into_protocol (raw : RawSnapshot) : PrivateSnapshot f64 :=
  {| TelemetryHelper.boot_id := raw_boot_id raw; TelemetryHelper.euid := raw_euid raw;
     TelemetryHelper.captured_at_unix_ms := raw_captured_at_unix_ms raw;
     TelemetryHelper.captured_at_monotonic_ns := metric_into_protocol (raw_captured_at_monotonic_ns raw);
     TelemetryHelper.total_cpu_jiffies := raw_total_cpu_jiffies raw;
     TelemetryHelper.logical_cpu_count := raw_logical_cpu_count raw;
     TelemetryHelper.processes := process_into_protocol <$> raw_processes raw;
     TelemetryHelper.cgroups := cgroup_into_protocol <$> raw_cgroups raw;
     TelemetryHelper.applications := application_into_protocol <$> raw_applications raw;
     TelemetryHelper.system_fd := system_fd_into_protocol (raw_system_fd raw);
     TelemetryHelper.excluded_other_uid := raw_excluded_other_uid raw;
     TelemetryHelper.skipped_race := raw_skipped_race raw;
     TelemetryHelper.permission_denied_counts := issue_into_protocol <$> raw_permission_denied_counts raw;
     TelemetryHelper.issues := issue_into_protocol <$> raw_issues raw |}.

Definition snapshot_invalid (e : FrameError) : ProcError := SnapshotInvalid (frame_error_to_string e).
Definition into_protocol (raw : RawSnapshot) : result (PrivateSnapshot f64) ProcError :=
  let snapshot := snapshot_into_protocol raw in
  let? _ := map_err snapshot_invalid (PrivateSnapshot_validate snapshot) in
  Ok snapshot.

Definition raw_from_protocol (s : PrivateSnapshot f64) : result RawSnapshot ProcError :=
  let? _ := map_err snapshot_invalid (PrivateSnapshot_validate s) in
  Ok {| raw_boot_id := TelemetryHelper.boot_id s; raw_euid := TelemetryHelper.euid s;
        raw_captured_at_unix_ms := TelemetryHelper.captured_at_unix_ms s;
        raw_captured_at_monotonic_ns := metric_from_protocol (TelemetryHelper.captured_at_monotonic_ns s);
        raw_total_cpu_jiffies := TelemetryHelper.total_cpu_jiffies s;
        raw_logical_cpu_count := TelemetryHelper.logical_cpu_count s;
        raw_processes := process_from_protocol <$> TelemetryHelper.processes s;
        raw_cgroups := cgroup_from_protocol <$> TelemetryHelper.cgroups s;
        raw_applications := application_from_protocol <$> TelemetryHelper.applications s;
        raw_system_fd := system_fd_from_protocol (TelemetryHelper.system_fd s);
        raw_excluded_other_uid := TelemetryHelper.excluded_other_uid s;
        raw_skipped_race := TelemetryHelper.skipped_race s;
        raw_permission_denied_counts := issue_from_protocol <$> TelemetryHelper.permission_denied_counts s;
        raw_issues := issue_from_protocol <$> TelemetryHelper.issues s |}.

Definition collect_protocol {W} `{ProcFs W} (collector : ProcCollector W) : mut W (PrivateSnapshot f64) ProcError :=
  raw <- collect_raw collector ;;
  lift (fun _ => into_protocol raw).
