(* ===== verification/TelemetryProcFacts.v ===== *)
(** A collection of the processes: what the daemon gets is what the helper has
    found, every process is counted in one application, and the line of a
    process is read whatever its name is. *)
From stdpp Require Import pretty.
From S2P Require Import Prelude Frame HelperFrame TelemetryHelper TelemetryHelperFacts RemoteCore Text Encoding Domain TelemetryParse TelemetryIdentity TelemetryProc.

(** ** Metrics that are values or have a reason *)

Definition plain {T} (m : MetricValue T) : Prop :=
  (exists v, m = MetricValue_known v) \/
  exists s r, s <> Metric_Known /\ m = MetricValue_unavailable s r.

Create HintDb plain.

Lemma plain_known {T} (v : T) : plain (MetricValue_known v).
Proof. left. eauto. Qed.
Lemma plain_unavailable {T} s r : s <> Metric_Known -> plain (MetricValue_unavailable (T := T) s r).
Proof. right. eauto. Qed.
Lemma plain_known_or {T} r (o : option T) : plain (known_or r o).
Proof. destruct o; [apply plain_known | by apply plain_unavailable]. Qed.
#[export] Hint Resolve plain_known plain_unavailable plain_known_or : plain.
#[export] Hint Extern 1 (_ <> Metric_Known) => discriminate : plain.

Ltac solve_plain :=
  repeat (case_match; simpl); eauto with plain.

Lemma plain_io {T} e name : plain (metric_for_io (T := T) e name).
Proof. destruct e; simpl; auto with plain. Qed.
Lemma plain_stable_io {T} e name : plain (metric_for_stable_io (T := T) e name).
Proof. destruct e; simpl; auto with plain. Qed.
#[export] Hint Resolve plain_io plain_stable_io : plain.

Lemma derived_is_not_known ms : derived_metric_state ms <> Metric_Known.
Proof.
  unfold derived_metric_state. destruct (List.find _ _) as [s |] eqn:E; [| done].
  apply find_some in E as [[<- | [<- | [<- | []]]] _]; done.
Qed.
#[export] Hint Resolve derived_is_not_known : plain.

Lemma plain_pss c : plain (read_pss_bytes c).
Proof. unfold read_pss_bytes. solve_plain. Qed.
Lemma plain_cpu_usage c : plain (read_cpu_usage_usec c).
Proof. unfold read_cpu_usage_usec. solve_plain. Qed.
Lemma plain_u64 c name : plain (read_u64_metric c name).
Proof. unfold read_u64_metric. solve_plain. Qed.
Lemma plain_u64_stable c name : plain (read_u64_stable_metric c name).
Proof. unfold read_u64_stable_metric. solve_plain. Qed.
Lemma plain_line_count c name : plain (read_line_count c name).
Proof. unfold read_line_count. solve_plain. Qed.
Lemma plain_file_nr c : plain (parse_file_nr c).1 /\ plain (parse_file_nr c).2.
Proof. unfold parse_file_nr. repeat case_match; simpl; auto with plain. Qed.
Lemma plain_fd_soft_limit c : plain (read_fd_soft_limit c).
Proof. unfold read_fd_soft_limit. solve_plain. Qed.
Lemma plain_monotonic c : plain (read_monotonic_ns c).
Proof. unfold read_monotonic_ns. solve_plain. Qed.
Lemma plain_percent n d r : plain (derive_percent n d r).
Proof. unfold derive_percent. solve_plain. Qed.
Lemma plain_fd_percent u l : plain (derive_fd_percent u l).
Proof. unfold derive_fd_percent. solve_plain. Qed.
Lemma plain_checked_sum l r : plain (checked_sum_u64 l r).
Proof. unfold checked_sum_u64. auto with plain. Qed.
#[export] Hint Resolve plain_pss plain_cpu_usage plain_u64 plain_u64_stable plain_line_count plain_fd_soft_limit
  plain_monotonic plain_percent plain_fd_percent plain_checked_sum : plain.
Lemma plain_sum_metrics ms r : plain (sum_u64_metrics ms r).
Proof. unfold sum_u64_metrics. case_match; auto with plain. Qed.
#[export] Hint Resolve plain_sum_metrics : plain.
Lemma plain_sum_cgroup l f r : plain (sum_cgroup_metric l f r).
Proof. unfold sum_cgroup_metric. case_match; auto with plain. Qed.
Lemma plain_rss r : plain (rss_metric r).
Proof. unfold rss_metric. solve_plain. Qed.
Lemma plain_fd_count entries : plain (read_fd_count entries).
Proof.
  destruct entries as [l | e]; simpl; [| auto with plain]. generalize 0.
  induction l as [| [? | ?] l IH]; intros n; simpl; auto with plain.
Qed.
#[export] Hint Resolve plain_sum_cgroup plain_rss plain_fd_count : plain.

(** ** Across the protocol *)

Lemma metric_round_trip {T} (m : MetricValue T) : plain m -> metric_from_protocol (metric_into_protocol m) = m.
Proof. intros [[v ->] | (s & r & Hs & ->)]; [done |]. by destruct s. Qed.

Definition process_plain (p : RawProcess) : Prop :=
  plain (rp_rss_bytes p) /\ plain (rp_pss_bytes p) /\ plain (rp_fd_used p) /\ plain (rp_fd_soft_limit p) /\
  plain (rp_fd_percent_of_soft_limit p).
Definition cgroup_plain (c : RawCgroupRecord) : Prop :=
  plain (rc_cpu_usage_usec c) /\ plain (rc_memory_current_bytes c) /\ plain (rc_process_count c).
Definition application_plain (a : RawApplicationResourceRecord) : Prop :=
  plain (ra_proc_cpu_jiffies_sum a) /\ plain (ra_rss_sum_bytes a) /\ plain (ra_pss_sum_bytes a) /\
  plain (ra_fd_used_sum a) /\ plain (ra_fd_soft_limit_sum a) /\ plain (ra_fd_percent_of_attributed_sum a) /\
  plain (ra_fd_percent_of_soft_limit_sum a) /\ plain (ra_cgroup_cpu_usage_usec a) /\
  plain (ra_memory_current_bytes a) /\ plain (ra_cgroup_process_count a).
Definition system_fd_plain (s : RawSystemFdSnapshot) : Prop :=
  plain (rf_file_nr_allocated s) /\ plain (rf_file_nr_max s) /\ plain (rf_file_max s) /\ plain (rf_pressure_percent s).
Definition snapshot_plain (r : RawSnapshot) : Prop :=
  plain (raw_captured_at_monotonic_ns r) /\ Forall process_plain (raw_processes r) /\
  Forall cgroup_plain (raw_cgroups r) /\ Forall application_plain (raw_applications r) /\
  system_fd_plain (raw_system_fd r).

Lemma process_round_trip p : process_plain p -> process_from_protocol (process_into_protocol p) = p.
Proof.
  destruct p as [[] ? ? ? ? ? ? g]. intros (? & ? & ? & ? & ?). unfold process_from_protocol, process_into_protocol. simpl in *.
  rewrite !metric_round_trip by done. by destruct g.
Qed.
Lemma cgroup_round_trip c : cgroup_plain c -> cgroup_from_protocol (cgroup_into_protocol c) = c.
Proof.
  destruct c. intros (? & ? & ?). unfold cgroup_from_protocol, cgroup_into_protocol. simpl in *.
  by rewrite !metric_round_trip by done.
Qed.
Lemma application_round_trip a : application_plain a -> application_from_protocol (application_into_protocol a) = a.
Proof.
  destruct a. intros (? & ? & ? & ? & ? & ? & ? & ? & ? & ?).
  unfold application_from_protocol, application_into_protocol. simpl in *. by rewrite !metric_round_trip by done.
Qed.
Lemma system_fd_round_trip s : system_fd_plain s -> system_fd_from_protocol (system_fd_into_protocol s) = s.
Proof.
  destruct s. intros (? & ? & ? & ?). unfold system_fd_from_protocol, system_fd_into_protocol. simpl in *.
  by rewrite !metric_round_trip by done.
Qed.

Lemma map_round_trip {A B} (f : A -> B) (g : B -> A) P (l : list A) :
  (forall a, P a -> g (f a) = a) -> Forall P l -> g <$> (f <$> l) = l.
Proof. intros Hgf Hl. induction Hl as [| a l Ha _ IH]; [done |]. rewrite !fmap_cons. by rewrite Hgf, IH. Qed.

Lemma snapshot_round_trip raw s : snapshot_plain raw -> into_protocol raw = Ok s -> raw_from_protocol s = Ok raw.
Proof.
  unfold into_protocol, raw_from_protocol. intros (Hm & Hp & Hc & Ha & Hs) H.
  apply result_bind_ok in H as ([] & Hv & [= <-]). rewrite Hv. simpl. f_equal.
  destruct raw; simpl in *. f_equal.
  - by apply metric_round_trip.
  - by apply (map_round_trip _ _ process_plain); [apply process_round_trip |].
  - by apply (map_round_trip _ _ cgroup_plain); [apply cgroup_round_trip |].
  - by apply (map_round_trip _ _ application_plain); [apply application_round_trip |].
  - by apply system_fd_round_trip.
  - apply (map_round_trip _ _ (fun _ => True)); [by intros [] | by apply Forall_true].
  - apply (map_round_trip _ _ (fun _ => True)); [by intros [] | by apply Forall_true].
Qed.

(** ** What a collection holds *)

Lemma resolve_grouping_forall (P : RawProcess -> Prop) salt is_file roots l l' :
  (forall a p, P p -> P (assign a p)) -> Forall P l -> resolve_grouping salt is_file roots l = Some l' -> Forall P l'.
Proof.
  intros HP Hl Hr. unfold resolve_grouping in Hr. apply bind_Some in Hr as (l1 & H1 & H2).
  assert (Halter : forall a i l, Forall P l -> Forall P (alter (assign a) i l)).
  { intros a i m Hm. by apply Forall_alter; [| intros; apply HP]. }
  assert (Hl1 : Forall P l1).
  { clear H2. revert H1 Hl. generalize (seq 0 (length l)) as is_, {| resolved := ∅; visiting := ∅ |} as st.
    generalize (direct_assignments salt is_file roots l) as d. intros d is_. revert l.
    induction is_ as [| i is_ IH]; intros l st; simpl; [by intros [= ->] |].
    intros ([a st'] & _ & H)%bind_Some Hl. eapply IH; [exact H | by apply Halter]. }
  rewrite adoption_settles in H2. injection H2 as <-. apply Forall_fmap.
  eapply Forall_impl; [exact Hl1 |]. intros p Hp. unfold after_adoption. simpl. destruct (adoption l1 p); auto.
Qed.

Section Collecting.
Context {W : Type} `{ProcFs W} (collector : ProcCollector W).

Lemma reading_ok {A E} (m : W -> W * A) w w' a : (reading m : mut W A E) w = (w', Ok a) -> m w = (w', a).
Proof. unfold reading. destruct (m w) as [w1 b]. by intros [= <- <-]. Qed.

Lemma included_is_plain pid boot w w' p : read_process collector pid boot w = (w', Ok (Included p)) -> process_plain p.
Proof.
  unfold read_process. intros Hr. do 4 (apply bind_ok in Hr as (? & ? & _ & Hr)).
  destruct (negb _); [by apply ret_ok in Hr as [_ [=]] |].
  do 12 (apply bind_ok in Hr as (? & ? & _ & Hr)). apply ret_ok in Hr as [_ [= ->]].
  repeat split; simpl; auto with plain.
Qed.

Lemma record_process_plain c r :
  Forall process_plain (found c) -> (forall p, r = Ok (Included p) -> process_plain p) ->
  Forall process_plain (found (record_process c r)).
Proof.
  intros Hc Hr. destruct r as [[p |] | e]; simpl; [| done ..]. apply Forall_app. split; [done |].
  constructor; [exact (Hr p eq_refl) | constructor].
Qed.

Lemma collected_are_plain boot entries : forall c w w' c',
  Forall process_plain (found c) -> collect_entries collector boot entries c w = (w', Ok c') ->
  Forall process_plain (found c').
Proof.
  induction entries as [| [name | e] entries IH]; intros c w w' c' Hc; simpl.
  - by intros [_ ->]%ret_ok.
  - destruct (if valid_utf8 _ then _ else _) as [pid |]; [| by apply IH].
    destruct (pid =? process_id); [by apply IH |].
    intros (w1 & [] & _ & (w2 & r & Hr & Hrest)%bind_ok)%bind_ok. apply reading_ok in Hr.
    eapply IH; [| exact Hrest]. apply record_process_plain; [done |]. intros p ->. eapply included_is_plain, Hr.
  - apply IH. by destruct e.
Qed.

Lemma cgroups_are_plain {E} l : forall log w w' r,
  (collect_cgroups collector l log : mut W _ E) w = (w', Ok r) -> Forall cgroup_plain r.1.
Proof.
  induction l as [| x l IH]; intros log w w' r; simpl.
  - intros [_ ->]%ret_ok. constructor.
  - intros (w1 & c & Hc & (w2 & rest & Hrest & [_ ->]%ret_ok)%bind_ok)%bind_ok. simpl.
    constructor; [| by eapply IH]. unfold read_cgroup in Hc. do 3 (apply bind_ok in Hc as (? & ? & _ & Hc)).
    apply ret_ok in Hc as [_ ->]. repeat split; simpl; auto with plain.
Qed.

Lemma raw_is_plain w w' raw : collect_raw collector w = (w', Ok raw) -> snapshot_plain raw.
Proof.
  unfold collect_raw. intros Hr.
  do 3 (apply bind_ok in Hr as (? & ? & _ & Hr)).
  apply bind_ok in Hr as (? & c & Hc & Hr). apply collected_are_plain in Hc; [| constructor].
  apply bind_ok in Hr as (? & processes & [_ Hp]%gets_ok & Hr).
  apply bind_ok in Hr as (? & cgroups & Hcg & Hr). apply cgroups_are_plain in Hcg.
  apply bind_ok in Hr as (? & fd & Hfd & Hr).
  do 2 (apply bind_ok in Hr as (? & ? & _ & Hr)). apply ret_ok in Hr as [_ ->].
  split_and!; simpl; [auto with plain | | done | |].
  - subst processes. unfold grouped. destruct (resolve_grouping _ _ _ _) as [l |] eqn:Hl; [| done].
    eapply (resolve_grouping_forall process_plain); [| exact Hc | exact Hl]. by intros a p.
  - apply Forall_forall. intros a (k & -> & _)%list_elem_of_fmap. repeat split; simpl; auto with plain.
  - unfold read_system_fd in Hfd. apply bind_ok in Hfd as (? & nr & _ & Hfd).
    apply bind_ok in Hfd as (? & max & _ & Hfd). revert Hfd.
    destruct nr as [content | e].
    + pose proof (plain_file_nr content) as [P1 P2]. destruct (parse_file_nr content) as [a m].
      intros [_ ->]%ret_ok. repeat split; simpl; auto with plain.
    + intros [_ ->]%ret_ok. repeat split; simpl; auto with plain.
Qed.
End Collecting.


(** ** Decimal numbers *)

Lemma parse_decimal_i64 n : 0 <= n <= i64_max -> parse_i64 (decimal_of n) = Some n.
Proof.
  intros Hn. destruct (decimal_digits n) as (l & E & Hl & Hne & Hv); [lia |].
  pose proof (parse_decimal i64_max n Hn) as Hp. unfold parse_i64.
  rewrite E. destruct l as [| b l]; [done |]. inversion Hl as [| ? ? Hb _]; subst. unfold digit in Hb.
  replace (b =? ch "-") with false by (change (ch "-") with 45; lia). exact Hp.
Qed.

(** ** Words *)

(** Visible ASCII characters, none of them a parenthesis. *)
Definition graphic (b : Z) : Prop := 33 <= b <= 126 /\ b <> 40 /\ b <> 41.
Definition word (w : string) : Prop := Forall graphic (bytes w) /\ w <> EmptyString.

Lemma decimal_word n : 0 <= n -> word (decimal_of n).
Proof.
  intros Hn. destruct (decimal_digits n Hn) as (l & E & Hl & Hne & _). split.
  - rewrite E. eapply Forall_impl; [exact Hl |]. unfold digit, graphic. lia.
  - intros E'. rewrite E' in E. simpl in E. congruence.
Qed.

Lemma pieces_ascii a r : byte_of a < 128 -> pieces (String a r) = String a EmptyString :: pieces r.
Proof. intros Ha. cbn [pieces]. by rewrite (proj2 (Z.ltb_lt _ _) Ha). Qed.

Lemma pieces_word_app w r : Forall graphic (bytes w) -> pieces (w ++ r)%string = pieces w ++ pieces r.
Proof.
  induction w as [| a w IH]; [done |]. intros Hw. inversion Hw as [| ? ? Ha Hw']; subst. unfold graphic in Ha.
  change ((String a w ++ r)%string) with (String a (w ++ r)%string). rewrite !pieces_ascii by lia. by rewrite IH.
Qed.

Lemma graphic_visible a : graphic (byte_of a) -> blank (String a EmptyString) = false.
Proof.
  unfold graphic, blank, char_of. intros Ha. cbn [chars]. rewrite (proj2 (Z.ltb_lt (byte_of a) 128)) by lia. simpl.
  unfold is_whitespace, contains, in_range, eqb. simpl. repeat (rewrite bool_decide_eq_false_2 by lia). lia.
Qed.

Lemma word_pieces_visible w : Forall graphic (bytes w) -> Forall (fun p => blank p = false) (pieces w).
Proof.
  induction w as [| a w IH]; [constructor |]. intros Hw. inversion Hw as [| ? ? Ha Hw']; subst.
  rewrite pieces_ascii by (unfold graphic in Ha; lia). constructor; [by apply graphic_visible | by apply IH].
Qed.

(** What the kernel writes after the name: fields, each after a space, and the
    end of the line. *)
Definition kernel_fields (ws : list string) : string :=
  fold_right (fun w s => String " " (w +:+ s)) (String newline EmptyString) ws.

Lemma kernel_fields_split ws : Forall word ws ->
  split_on blank (pieces (kernel_fields ws)) = [] :: (pieces <$> ws) ++ [[]].
Proof.
  induction 1 as [| w ws [Hw _] _ IH]; [done |].
  cbn [kernel_fields fold_right]. fold (kernel_fields ws).
  change (pieces (String " " (w +:+ kernel_fields ws))) with (" "%string :: pieces (w +:+ kernel_fields ws)).
  change (split_on blank (" "%string :: pieces (w +:+ kernel_fields ws))) with
    ([] :: split_on blank (pieces (w +:+ kernel_fields ws))). f_equal.
  rewrite (pieces_word_app w) by done.
  assert (Hb : exists b r, pieces (kernel_fields ws) = b :: r /\ blank b = true).
  { destruct ws as [| w' ws']; [by exists (String newline EmptyString), [] |].
    exists " "%string, (pieces (w' +:+ kernel_fields ws')). done. }
  destruct Hb as (b & r & E & Hb). rewrite E in IH |- *. rewrite split_on_app by (done || by apply word_pieces_visible).
  rewrite fmap_cons. cbn [app]. f_equal. cbn [split_on] in IH. rewrite Hb in IH. by injection IH.
Qed.

Lemma kernel_fields_words ws : Forall word ws -> split_whitespace (kernel_fields ws) = ws.
Proof.
  intros Hws. unfold split_whitespace. rewrite kernel_fields_split by done. rewrite fmap_cons, fmap_app. simpl.
  rewrite filter_cons_False, filter_app, filter_cons_False, app_nil_r by done. induction Hws as [| w ws [_ Hne] _ IH]; [done |].
  rewrite !fmap_cons, pieces_joined, filter_cons_True, IH; [done |]. by destruct w.
Qed.

Lemma no_byte_in_word c w : byte_of c = 40 \/ byte_of c = 41 -> Forall graphic (bytes w) ->
  rsplit_once c w = None /\ split_once c w = None.
Proof.
  intros Hc. induction w as [| a w IH]; [done |]. intros Hw. inversion Hw as [| ? ? Ha Hw']; subst.
  destruct (IH Hw') as [E1 E2]. cbn [rsplit_once split_once]. rewrite E1, E2.
  destruct (Ascii.eqb_spec a c) as [-> | _]; [| done]. unfold graphic in Ha. lia.
Qed.

Lemma rsplit_once_app c s t : rsplit_once c t = None -> rsplit_once c (s +:+ String c t) = Some (s, t).
Proof.
  intros Ht. induction s as [| a s IH]; cbn [append rsplit_once].
  - change (EmptyString +:+ String c t) with (String c t). cbn [rsplit_once]. by rewrite Ht, Ascii.eqb_refl.
  - change (String a s +:+ String c t) with (String a (s +:+ String c t)). cbn [rsplit_once]. by rewrite IH.
Qed.
Lemma split_once_app c s t : split_once c s = None -> split_once c (s +:+ String c t) = Some (s, t).
Proof.
  induction s as [| a s IH]; intros Hs.
  - change (EmptyString +:+ String c t) with (String c t). cbn [split_once]. by rewrite Ascii.eqb_refl.
  - change (String a s +:+ String c t) with (String a (s +:+ String c t)). cbn [split_once] in Hs |- *.
    destruct (Ascii.eqb a c); [done |]. destruct (split_once c s) as [[] |]; [done |]. by rewrite IH.
Qed.

Lemma rsplit_none_app c s t : rsplit_once c s = None -> rsplit_once c t = None -> rsplit_once c (s +:+ t) = None.
Proof.
  intros Hs Ht. induction s as [| a s IH]; [done |].
  change (String a s +:+ t) with (String a (s +:+ t)). cbn [rsplit_once] in Hs |- *.
  destruct (rsplit_once c s) as [[] |]; [done |]. destruct (Ascii.eqb a c); [done |]. by rewrite IH.
Qed.

Lemma kernel_fields_no_close ws : Forall word ws -> rsplit_once ")" (kernel_fields ws) = None.
Proof.
  induction 1 as [| w ws [Hw _] _ IH]; [done |]. cbn [kernel_fields fold_right]. fold (kernel_fields ws).
  cbn [rsplit_once]. rewrite rsplit_none_app; [done | | done]. by apply no_byte_in_word; [right |].
Qed.

(** ** The line of a process *)

Lemma str_length_app s t : String.length (s +:+ t) = (String.length s + String.length t)%nat.
Proof. induction s as [| a s IH]; [done |]. change (String a s +:+ t) with (String a (s +:+ t)). simpl. by rewrite IH. Qed.
Lemma str_app_assoc s t u : (s +:+ t) +:+ u = s +:+ (t +:+ u).
Proof. induction s as [| a s IH]; [done |].
  change (String a ((s +:+ t) +:+ u) = String a (s +:+ (t +:+ u))). by rewrite IH. Qed.

(** What stands between the brackets, whatever it is. *)
Definition kernel_line (pid : Z) (comm : string) (fields : list string) : string :=
  decimal_of pid +:+ " " +:+ String "(" (comm +:+ String ")" (kernel_fields fields)).

Lemma kernel_line_cut pid comm fields : 0 <= pid -> Forall word fields ->
  let before := decimal_of pid +:+ " " in
  find_char "(" (kernel_line pid comm fields) = Some (String.length before) /\
  rfind_char ")" (kernel_line pid comm fields) = Some (String.length before + 1 + String.length comm)%nat /\
  substring_at (String.length before + 1) (String.length before + 1 + String.length comm) (kernel_line pid comm fields) = comm /\
  str_drop (String.length before + 1 + String.length comm + 1) (kernel_line pid comm fields) = kernel_fields fields.
Proof.
  intros Hpid Hf before. pose proof (decimal_word pid Hpid) as [Hw _].
  assert (E1 : kernel_line pid comm fields = before +:+ String "(" (comm +:+ String ")" (kernel_fields fields))).
  { unfold kernel_line, before. by rewrite str_app_assoc. }
  assert (E2 : kernel_line pid comm fields = (before +:+ String "(" comm) +:+ String ")" (kernel_fields fields)).
  { rewrite E1, str_app_assoc. done. }
  assert (E3 : kernel_line pid comm fields = (before +:+ "(") +:+ (comm +:+ String ")" (kernel_fields fields))).
  { rewrite E1, str_app_assoc. done. }
  assert (E4 : kernel_line pid comm fields = (before +:+ String "(" comm +:+ ")") +:+ kernel_fields fields).
  { rewrite E1, !str_app_assoc. done. }
  assert (Hlen1 : String.length (before +:+ "(") = (String.length before + 1)%nat) by (by rewrite str_length_app).
  split_and!.
  - unfold find_char. rewrite E1, split_once_app; [done |]. unfold before.
    destruct (split_once "(" (decimal_of pid)) as [p |] eqn:E.
    { destruct (no_byte_in_word "(" (decimal_of pid)) as [_ E']; [by left | done | congruence]. }
    clear -E. induction (decimal_of pid) as [| a s IH]; [done |].
    change (String a s +:+ " ") with (String a (s +:+ " ")). cbn [split_once] in E |- *.
    destruct (Ascii.eqb a "("); [done |]. destruct (split_once "(" s) as [[] |]; [done |]. by rewrite IH.
  - unfold rfind_char. rewrite E2, rsplit_once_app by by apply kernel_fields_no_close. simpl.
    rewrite str_length_app. simpl. f_equal. lia.
  - unfold substring_at. rewrite E3, <- Hlen1, str_drop_app.
    replace (String.length (before +:+ "(") + String.length comm - String.length (before +:+ "("))%nat
      with (String.length comm) by lia. apply str_take_app.
  - rewrite E4. replace (String.length before + 1 + String.length comm + 1)%nat
      with (String.length (before +:+ String "(" comm +:+ ")")); [apply str_drop_app |].
    rewrite !str_length_app. simpl. lia.
Qed.

(** C32: The line the kernel writes for a process is read as what it says, whatever
    the name of the process is: brackets and spaces in it are no end of it. *)
Theorem stat_line_is_read pid comm fields boot page ppid utime stime start rss :
  0 <= pid -> Forall word fields -> (21 < length fields)%nat ->
  fields !! 1%nat = Some (decimal_of ppid) -> 0 <= ppid <= u32_max ->
  fields !! 11%nat = Some (decimal_of utime) -> fields !! 12%nat = Some (decimal_of stime) ->
  0 <= utime -> 0 <= stime -> utime + stime <= u64_max ->
  fields !! 19%nat = Some (decimal_of start) -> 0 <= start <= u64_max ->
  fields !! 21%nat = Some (decimal_of rss) -> 0 <= rss <= i64_max ->
  parse_process_stat (kernel_line pid comm fields) pid boot page
  = Ok {| stat_identity := {| pi_boot_id := boot; pi_pid := pid; pi_start_time_ticks := start; pi_euid := 0 |};
          stat_ppid := ppid; stat_comm := bound_comm comm; stat_cpu_jiffies := utime + stime;
          stat_rss_bytes := ok_or RssOverflow (checked_u64 (rss * page)) |}.
Proof.
  intros Hpid Hf Hlen Fppid Hppid Futime Fstime Hu Hs Hsum Fstart Hstart Frss Hrss.
  destruct (kernel_line_cut pid comm fields Hpid Hf) as (Eo & Ec & Esub & Edrop).
  unfold parse_process_stat. rewrite Eo, Ec. cbn [ok_or result_bind].
  rewrite (proj2 (Nat.leb_gt _ _)) by lia. rewrite Esub, Edrop, kernel_fields_words by done.
  rewrite (proj2 (Nat.leb_gt _ _)) by lia. unfold parse_field. rewrite Fppid, Futime, Fstime, Fstart, Frss.
  cbn [mbind option_bind]. unfold parse_u32, parse_u64. rewrite !parse_decimal, parse_decimal_i64 by lia.
  cbn [ok_or result_bind]. rewrite (proj2 (Z.ltb_ge rss 0)) by lia.
  unfold checked_u64 at 1, in_u64, in_range.
  by replace ((0 <=? utime + stime) && (utime + stime <=? u64_max)) with true by lia.
Qed.

(** ** The sums of an application *)

Lemma checked_sum_spec l : Forall (fun v => 0 <= v) l -> forall total, 0 <= total <= u64_max ->
  checked_sum total l = if total + sum_of id l <=? u64_max then Some (total + sum_of id l) else None.
Proof.
  induction 1 as [| v l Hv Hl IH]; intros total Ht; simpl.
  - rewrite Z.add_0_r. by rewrite (proj2 (Z.leb_le _ _)) by lia.
  - assert (0 <= sum_of id l) by (clear -Hl; induction Hl; simpl; unfold id in *; lia).
    change (id v) with v. unfold checked_u64, in_u64, in_range. replace (0 <=? total + v) with true by lia. simpl.
    destruct (total + v <=? u64_max) eqn:E; simpl.
    + rewrite IH by lia. by rewrite Z.add_assoc.
    + by rewrite (proj2 (Z.leb_gt _ _)) by lia.
Qed.

(** A sum is known exactly if every part is and it fits, and then it is their
    sum. *)
Lemma sum_metrics_spec ms r n : Forall (fun m => forall v, metric_value m = Some v -> 0 <= v) ms ->
  metric_value (sum_u64_metrics ms r) = Some n <->
  Forall (fun m => MetricValue_is_known m = true) ms /\ n = sum_of (fun m => default 0 (metric_value m)) ms /\ n <= u64_max.
Proof.
  intros Hnn. unfold sum_u64_metrics. destruct (existsb _ ms) eqn:E.
  - split; [done |]. intros [Hk _]. apply existsb_exists in E as (m & Hm & Hneg).
    rewrite Forall_forall in Hk. rewrite Hk in Hneg; [done |]. by apply list_elem_of_In.
  - assert (Hk : Forall (fun m => MetricValue_is_known m = true) ms).
    { apply Forall_forall. intros m Hm. apply not_false_is_true. intros Hf.
      assert (existsb (fun m => negb (MetricValue_is_known m)) ms = true); [| congruence].
      apply existsb_exists. exists m. rewrite Hf. split; [by apply list_elem_of_In | done]. }
    assert (Hsum : sum_of id (omap metric_value ms) = sum_of (fun m => default 0 (metric_value m)) ms /\
                   Forall (fun v => 0 <= v) (omap metric_value ms)).
    { clear E. induction ms as [| m ms IH]; [split; [done | constructor] |]. inversion Hnn as [| ? ? Hm Hms]; subst.
      inversion Hk as [| ? ? Hkm Hkms]; subst. destruct (IH Hms Hkms) as [IH1 IH2].
      unfold MetricValue_is_known in Hkm.
      change (omap metric_value (m :: ms)) with
        (match metric_value m with Some v => v :: omap metric_value ms | None => omap metric_value ms end).
      change (sum_of (fun m => default 0 (metric_value m)) (m :: ms)) with
        (default 0 (metric_value m) + sum_of (fun m => default 0 (metric_value m)) ms).
      destruct (metric_value m) as [v |]; [| by rewrite andb_false_r in Hkm]. rewrite <- IH1.
      split; [done |]. constructor; [by apply Hm | done]. }
    destruct Hsum as [Hsum Hpos]. unfold checked_sum_u64. rewrite checked_sum_spec by (done || unfold u64_max; lia).
    rewrite Z.add_0_l, Hsum. destruct (_ <=? u64_max) eqn:Hle; simpl.
    + split; [intros [= <-]; split_and!; [done | done | lia] | by intros (_ & -> & _)].
    + split; [done |]. intros (_ & -> & ?). lia.
Qed.

Lemma sum_of_cons {A} (f : A -> Z) a l : sum_of f (a :: l) = f a + sum_of f l.
Proof. done. Qed.

Lemma members_cons p ps (keys : list string) : NoDup keys ->
  sum_of (fun k => Z.of_nat (length (members_of k (p :: ps)))) keys
  = (if decide (rp_application_key p ∈ keys) then 1 else 0)
    + sum_of (fun k => Z.of_nat (length (members_of k ps))) keys.
Proof.
  induction 1 as [| k keys Hk Hnd IH]; [done |]. rewrite !sum_of_cons, IH.
  unfold members_of at 1. cbn [List.filter]. fold (members_of k ps).
  destruct (String.eqb_spec (rp_application_key p) k) as [E | Hne].
  - rewrite decide_False by congruence. rewrite decide_True by (rewrite E; left). cbn [length]. lia.
  - destruct (decide (rp_application_key p ∈ keys)) as [Hin | Hout].
    + rewrite decide_True by by right. lia.
    + rewrite decide_False by by apply not_elem_of_cons. lia.
Qed.

Lemma members_partition (keys : list string) ps : NoDup keys -> (forall p, p ∈ ps -> rp_application_key p ∈ keys) ->
  sum_of (fun k => Z.of_nat (length (members_of k ps))) keys = Z.of_nat (length ps).
Proof.
  intros Hnd. induction ps as [| p ps IH]; intros Hin.
  - clear. induction keys as [| k keys IH]; [done |]. by rewrite sum_of_cons, IH.
  - rewrite members_cons, IH by (done || intros q Hq; apply Hin; by right).
    rewrite decide_True by (apply Hin; by left). cbn [length]. lia.
Qed.

Lemma application_keys_spec ps : NoDup (application_keys ps) /\
  forall k, k ∈ application_keys ps <-> exists p, p ∈ ps /\ rp_application_key p = k.
Proof.
  unfold application_keys, btree_set. split; [apply NoDup_remove_dups |]. intros k.
  rewrite elem_of_remove_dups, merge_sort_Permutation, list_elem_of_fmap. naive_solver.
Qed.

(** C30: What the helper says of applications is the exact account of its processes:
    each process is counted in one application; an application uses the
    resident and proportional memory and the file descriptors of its processes:
    their sum, when all of them are known and it fits 64 bits, and
    otherwise nothing but a reason. *)
Theorem application_sums_are_exact processes cgroups issues apps issues' :
  Forall (fun p => (forall v, metric_value (rp_rss_bytes p) = Some v -> 0 <= v) /\
                   (forall v, metric_value (rp_pss_bytes p) = Some v -> 0 <= v) /\
                   (forall v, metric_value (rp_fd_used p) = Some v -> 0 <= v)) processes ->
  aggregate_private_applications processes cgroups issues = (apps, issues') ->
  NoDup (ra_application_key <$> apps) /\
  (forall p, p ∈ processes -> rp_application_key p ∈ ra_application_key <$> apps) /\
  sum_of ra_process_count apps = Z.of_nat (length processes) /\
  forall a, a ∈ apps ->
    let members := members_of (ra_application_key a) processes in
    ra_process_count a = Z.of_nat (length members) /\
    (forall sum part, (sum, part) ∈ [(ra_rss_sum_bytes a, rp_rss_bytes); (ra_pss_sum_bytes a, rp_pss_bytes);
                                     (ra_fd_used_sum a, rp_fd_used)] ->
       forall n, metric_value sum = Some n <->
         (forall p, p ∈ members -> MetricValue_is_known (part p) = true) /\
         n = sum_of (fun p => default 0 (metric_value (part p))) members /\ n <= u64_max).
Proof.
  intros Hnn [= <- _]. destruct (application_keys_spec processes) as [Hnd Hin].
  assert (Ekeys : ra_application_key <$> (private_application processes cgroups <$> application_keys processes)
                  = application_keys processes).
  { rewrite <- list_fmap_compose. apply list_fmap_id. }
  split_and!.
  - by rewrite Ekeys.
  - intros p Hp. rewrite Ekeys. apply Hin. eauto.
  - etrans; [| apply (members_partition (application_keys processes)); [done | intros p Hp; apply Hin; eauto]].
    clear. induction (application_keys processes) as [| k l IH]; [done |].
    rewrite fmap_cons, !sum_of_cons, IH. done.
  - intros a (k & -> & _)%list_elem_of_fmap members. split; [done |].
    assert (Hmem : forall p, p ∈ members -> p ∈ processes).
    { intros p Hp. apply list_elem_of_In, filter_In in Hp as [Hp _]. by apply list_elem_of_In. }
    rewrite Forall_forall in Hnn.
    assert (Hspec : forall (part : RawProcess -> MetricValue Z) r n,
      (forall p, p ∈ members -> forall v, metric_value (part p) = Some v -> 0 <= v) ->
      metric_value (sum_u64_metrics (part <$> members) r) = Some n <->
      (forall p, p ∈ members -> MetricValue_is_known (part p) = true) /\
      n = sum_of (fun p => default 0 (metric_value (part p))) members /\ n <= u64_max).
    { intros part r n Hpos. rewrite sum_metrics_spec by (rewrite Forall_fmap; apply Forall_forall; exact Hpos).
      rewrite Forall_fmap, Forall_forall.
      replace (sum_of (fun m => default 0 (metric_value m)) (part <$> members))
        with (sum_of (fun p => default 0 (metric_value (part p))) members); [done |].
      clear. induction members as [| p l IH]; [done |]. by rewrite fmap_cons, !sum_of_cons, IH. }
    intros sum part Hsp n. rewrite !elem_of_cons in Hsp.
    destruct Hsp as [[= -> ->] | [[= -> ->] | [[= -> ->] | []%not_elem_of_nil]]];
      apply Hspec; intros p Hp; by apply Hnn, Hmem.
Qed.

(** ** At concrete processes *)

Section ProcWitness.
Definition shell_fields : list string :=
  ["S"; decimal_of 7; "1"; "1"; "0"; "-1"; "4194304"; "10"; "0"; "0"; "0"; decimal_of 30; decimal_of 12; "0"; "0";
   "20"; "0"; "1"; "0"; decimal_of 99; "1000"; decimal_of 25; "0"]%string.

Lemma shell_fields_are_words : Forall word shell_fields.
Proof.
  unfold shell_fields, word, graphic.
  repeat (apply Forall_cons; split; [split; [vm_compute; repeat constructor; discriminate | discriminate] |]).
  constructor.
Qed.

Lemma stat_line_is_read_witness :
  parse_process_stat (kernel_line 42 "a) S (b" shell_fields) 42 "boot" 4096
  = Ok {| stat_identity := {| pi_boot_id := "boot"; pi_pid := 42; pi_start_time_ticks := 99; pi_euid := 0 |};
          stat_ppid := 7; stat_comm := bound_comm "a) S (b"; stat_cpu_jiffies := 30 + 12;
          stat_rss_bytes := ok_or RssOverflow (checked_u64 (25 * 4096)) |}.
Proof.
  apply (stat_line_is_read 42 "a) S (b" shell_fields "boot" 4096 7 30 12 99 25);
    try (apply shell_fields_are_words); try reflexivity; unfold u32_max, u64_max, i64_max; try lia.
  vm_compute. lia.
Defined.

Lemma application_sums_are_exact_witness :
  sum_of ra_process_count (aggregate_private_applications family [] []).1 = 5.
Proof.
  refine (proj1 (proj2 (proj2 (application_sums_are_exact family [] [] _ _ _ (surjective_pairing _))))).
  repeat (apply Forall_cons; split; [split_and!; intros v [= <-]; lia |]). constructor.
Defined.

(** A user with one process of two. *)
Definition toy_files (path : string) : option string :=
  if String.eqb path "/proc/sys/kernel/random/boot_id" then Some "boot"%string
  else if String.eqb path "/proc/stat" then Some ("cpu  1 2 3 4 5 6 7 8" +:+ String newline "cpu0 1")
  else if String.eqb path "/proc/42/stat" then Some (kernel_line 42 "sh" shell_fields)
  else if String.eqb path "/proc/42/status" then Some "Uid:	1000	1000	1000	1000"%string
  else if String.eqb path "/proc/42/cgroup" then Some "0::/"%string
  else if String.eqb path "/proc/43/stat" then Some (kernel_line 43 "init" shell_fields)
  else if String.eqb path "/proc/43/status" then Some "Uid:	0	0	0	0"%string
  else if String.eqb path "/proc/uptime" then Some "12.5 40.0"%string
  else None.
#[local] Instance toy_fs : ProcFs unit := {
  fs_read path w := (w, match toy_files path with Some s => Ok (bytes s) | None => Err Proc_NotFound end);
  fs_read_dir path w := (w, if String.eqb path "/proc" then Ok [Ok "42"%string; Ok "stat"%string; Ok "43"%string]
                            else Err Proc_PermissionDenied);
  fs_read_link path w := (w, Ok "/bin/sh"%string);
  fs_read_start path n w := (w, Err Proc_NotFound);
  fs_is_file w path := false;
  fs_unix_millis w := (w, Some 1000);
  process_id := 1;
}.
Definition toy_collector : ProcCollector unit := with_config "/proc" 1000 4096 100 [] 7.

End ProcWitness.
