(* ===== verification/TelemetrySampler.v ===== *)
(** [crates/telemetry/src/sampler.rs]: from one collection to the next, the
    shares of the processor, and the snapshot the daemon publishes.

    [is_file] and [read_entry] are what the desktop entries give (see
    [desktop_display_name], which can panic: [Panicked]). [uuid] is the fresh
    identifier. Sums of [u64] wrap around. A [HashMap] collected from pairs
    keeps the last of equal keys. *)
From Stdlib Require Import SpecFloat.
From S2P Require Import Prelude Frame HelperFrame TelemetryHelper RemoteCore Text Encoding Domain TelemetryParse TelemetryIdentity TelemetryProc.

Definition SAMPLE_INTERVAL_MS : Z := 1000.
Definition MIN_SAMPLE_INTERVAL_MS : Z := 750.
Definition MAX_SAMPLE_INTERVAL_MS : Z := 2500.

Inductive SamplerError :=
| Sampler_InvalidSnapshot (text : string) | Sampler_ProcessLimitExceeded | Sampler_ApplicationLimitExceeded.
#[export] Instance SamplerError_eq_dec : EqDecision SamplerError.
Proof. solve_decision. Defined.

(** How a reduction can end without a snapshot. *)
Inductive sampling := Sampling (e : SamplerError) | Panicked.

Record Baseline := {
  base_boot_id : string;
  base_captured_at_monotonic_ns : MetricValue Z;
  base_total_cpu_jiffies : Z;
  process_cpu : gmap (string * Z * Z * Z) Z;
  application_cgroup_cpu_usec : gmap string Z;
}.

Record Sampler := { baseline : option Baseline; sampler_desktop_roots : option (list string) }.
Definition Sampler_new : Sampler := {| baseline := None; sampler_desktop_roots := None |}.
Definition with_desktop_roots (roots : list string) : Sampler :=
  {| baseline := None; sampler_desktop_roots := Some roots |}.
Definition Sampler_reset (s : Sampler) : Sampler :=
  {| baseline := None; sampler_desktop_roots := sampler_desktop_roots s |}.

(** ** States of metrics *)

Definition unavailable_priority (s : MetricState) : Z :=
  match s with
  | Metric_Known => 0
  | Metric_Unknown => 1
  | Metric_WarmingUp => 2
  | Metric_SamplingGap => 3
  | Metric_Unbounded => 4
  | Metric_Raced => 5
  | Metric_PermissionDenied => 6
  end.
Definition dominant_state (left_ right_ : MetricState) : MetricState :=
  if unavailable_priority right_ <=? unavailable_priority left_ then left_ else right_.
Definition normalized_unavailable_state {T} (m : MetricValue T) : MetricState :=
  if eqb (metric_state m) Metric_Known && is_some (metric_value m) then Metric_Known
  else if eqb (metric_state m) Metric_Known then Metric_Unknown
  else metric_state m.
Definition dominant_unavailable_state {T} (ms : list (MetricValue T)) : MetricState :=
  fold_left (fun s m => dominant_state s (normalized_unavailable_state m)) ms Metric_Known.

(** [metric.value.filter(|_| metric.state == Known)]. *)
Definition known_value {T} (m : MetricValue T) : option T :=
  if eqb (metric_state m) Metric_Known then metric_value m else None.

Definition sum_metric {T} (zero : T) (add : T -> T -> T) (ms : list (MetricValue T)) (reason : string) : MetricValue T :=
  let '(total, unavailable) :=
    fold_left (fun '(total, unavailable) m =>
      match known_value m with
      | Some v => (add total v, unavailable)
      | None => (total, dominant_state unavailable (normalized_unavailable_state m))
      end) ms (zero, Metric_Known) in
  if eqb unavailable Metric_Known then MetricValue_known total else MetricValue_unavailable unavailable reason.
Definition sum_u64 : list (MetricValue Z) -> string -> MetricValue Z :=
  sum_metric 0 (fun a b => (a + b) mod 2 ^ 64).
Definition sum_f64 : list (MetricValue f64) -> string -> MetricValue f64 := sum_metric f64_zero f64_add.

(** [f64::max]. *)
Definition is_nan (x : f64) : bool := match x with S754_nan => true | _ => false end.
Definition f64_max (x y : f64) : f64 :=
  if is_nan x then y else if is_nan y then x else if SFltb x y then y else x.

Definition max_fd_percent (ms : list (MetricValue f64)) : MetricValue f64 :=
  let '(maximum, unavailable) :=
    fold_left (fun '(maximum, unavailable) m =>
      match known_value m with
      | Some v => (Some (match maximum with Some current => f64_max current v | None => v end), unavailable)
      | None => (maximum, dominant_state unavailable (normalized_unavailable_state m))
      end) ms (None, Metric_Known) in
  if negb (eqb unavailable Metric_Known)
  then MetricValue_unavailable unavailable "application_fd_max_process_percent_unknown"
  else known_or "application_fd_max_process_percent_unknown" maximum.

(** ** Intervals *)

(** Nanoseconds, and rounded to milliseconds; or why there is no interval. *)
Definition capture_interval (previous current : MetricValue Z) : result (Z * Z) (MetricState * string) :=
  let unavailable := dominant_unavailable_state [previous; current] in
  fail_if negb (eqb unavailable Metric_Known) with (unavailable, "capture_interval_unavailable"%string) in
  match metric_value previous, metric_value current with
  | Some previous, Some current =>
      if 0 <? current - previous
      then Ok (current - previous, sat_u64 (current - previous + 500000) / 1000000)
      else Err (Metric_SamplingGap, "capture_interval_non_monotonic"%string)
  | _, _ => Err (Metric_Unknown, "capture_interval_unavailable"%string)
  end.

Definition reason_for_interval_state (s : MetricState) (fallback : string) : string :=
  match s with
  | Metric_PermissionDenied => "capture_interval_permission_denied"
  | Metric_Raced => "capture_interval_raced"
  | Metric_Unbounded => "capture_interval_unbounded"
  | Metric_SamplingGap => "capture_interval_non_monotonic"
  | Metric_WarmingUp => "capture_interval_warming_up"
  | Metric_Unknown | Metric_Known => fallback
  end.

Definition cpu_unavailable_state (reason : string) : MetricState :=
  if contains reason ["warming_up"; "boot_changed"; "capture_interval_warming_up"]%string then Metric_WarmingUp
  else if contains reason ["sampling_gap"; "cpu_denominator_zero"; "capture_interval_non_monotonic"]%string
  then Metric_SamplingGap
  else if String.eqb reason "capture_interval_permission_denied" then Metric_PermissionDenied
  else if String.eqb reason "capture_interval_raced" then Metric_Raced
  else if String.eqb reason "capture_interval_unbounded" then Metric_Unbounded
  else Metric_Unknown.

(** ** Processes *)

Record PrivateProcessSample := {
  ps_exe_basename : option string;
  ps_application_key : string;
  ps_grouping_resolution : GroupingResolution;
  ps_cpu_percent_total_capacity : MetricValue f64;
  ps_rss_bytes : MetricValue Z;
  ps_pss_bytes : MetricValue Z;
  ps_fd_used : MetricValue Z;
  ps_fd_soft_limit : MetricValue Z;
  ps_fd_percent_of_soft_limit : MetricValue f64;
}.

(** What is known of the time since the last collection: nothing, the last
    collection only, or also how many jiffies all processors spent. *)
Abbreviation cpu_context := (option (Baseline * option Z)) (only parsing).

Definition process_cpu_percent (process : RawProcess) (cpu : cpu_context) (reason : string) : MetricValue f64 :=
  match cpu with
  | None => MetricValue_unavailable (cpu_unavailable_state reason) reason
  | Some (baseline, Some total_delta) =>
      match process_cpu baseline !! identity_tuple (rp_identity process) with
      | Some previous =>
          if previous <=? rp_cpu_jiffies process
          then MetricValue_known (percent (rp_cpu_jiffies process - previous) total_delta)
          else MetricValue_unavailable Metric_SamplingGap "cpu_counter_reset"
      | None => MetricValue_unavailable Metric_WarmingUp "process_baseline_missing"
      end
  | Some (_, None) => MetricValue_unavailable Metric_SamplingGap "cpu_denominator_zero"
  end.

Definition process_sample (process : RawProcess) (cpu : cpu_context) (reason : string) : PrivateProcessSample :=
  {| ps_exe_basename := rp_exe_basename process; ps_application_key := rp_application_key process;
     ps_grouping_resolution := rp_grouping_resolution process;
     ps_cpu_percent_total_capacity := process_cpu_percent process cpu reason;
     ps_rss_bytes := rp_rss_bytes process; ps_pss_bytes := rp_pss_bytes process; ps_fd_used := rp_fd_used process;
     ps_fd_soft_limit := rp_fd_soft_limit process;
     ps_fd_percent_of_soft_limit := rp_fd_percent_of_soft_limit process |}.

(** ** Applications *)

Abbreviation member := (RawProcess * PrivateProcessSample)%type (only parsing).

Definition grouping_priority (g : GroupingResolution) : Z :=
  match g with
  | Group_DesktopEntryExact => 4
  | Group_CgroupScope => 3
  | Group_InheritedParent => 2
  | Group_Unknown => 1
  end.
(** [max_by_key]: the last of the greatest. *)
Definition strongest_grouping (l : list GroupingResolution) : GroupingResolution :=
  default Group_Unknown
    (fold_left (fun best g => match best with
       | Some b => if grouping_priority b <=? grouping_priority g then Some g else Some b
       | None => Some g
       end) l None).

Definition aggregate_fd_percent (members : list member) : MetricValue f64 :=
  let used := sum_u64 (ps_fd_used <$> members.*2) "application_fd_used_unknown" in
  let limit := sum_u64 (ps_fd_soft_limit <$> members.*2) "application_fd_limit_unknown" in
  let unknown := MetricValue_unavailable
    (dominant_unavailable_state (concat ((fun s => [ps_fd_used s; ps_fd_soft_limit s]) <$> members.*2)))
    "application_fd_percent_unknown" in
  match metric_value used, metric_value limit with
  | Some u, Some l => if 0 <? l then MetricValue_known (percent u l) else unknown
  | _, _ => unknown
  end.

Definition is_shell_launcher (name : string) : bool :=
  contains name ["sh"; "bash"; "dash"; "zsh"; "fish"; "ksh"; "mksh"; "csh"; "tcsh"; "nu"]%string.

Fixpoint process_tree_depth (turns : nat) (parent_pid : Z) (by_pid : gmap Z RawProcess) : Z :=
  match turns with
  | O => 0
  | S turns =>
      match by_pid !! parent_pid with
      | Some parent => 1 + process_tree_depth turns (rp_ppid parent) by_pid
      | None => 0
      end
  end.

(** The key of [min_by_key], and its order. *)
Definition executable_rank (by_pid : gmap Z RawProcess) (turns : nat) (process : RawProcess) (name : string) : Z * Z * Z * Z :=
  ((if is_shell_launcher name then 1 else 0), process_tree_depth turns (rp_ppid process) by_pid,
   pi_start_time_ticks (rp_identity process), pi_pid (rp_identity process)).
Definition rank_lt (a b : Z * Z * Z * Z) : bool :=
  let '(a1, a2, a3, a4) := a in let '(b1, b2, b3, b4) := b in
  (a1 <? b1) || ((a1 =? b1) && ((a2 <? b2) || ((a2 =? b2) && ((a3 <? b3) || ((a3 =? b3) && (a4 <? b4)))))).

Definition representative_executable_label (members : list member) : option string :=
  let by_pid : gmap Z RawProcess := list_to_map (reverse ((fun m : member => (pi_pid (rp_identity m.1), m.1)) <$> members)) in
  let named := omap (fun m : member =>
    name ← ps_exe_basename m.2;
    if is_empty name then None
    else Some (executable_rank by_pid (length members) m.1 name, name)) members in
  snd <$> fold_left (fun best x => match best with
    | Some b => if rank_lt x.1 b.1 then Some x else Some b
    | None => Some x
    end) named None.

Record SamplingContext := {
  ctx_baseline : option Baseline;
  ctx_capture_interval_ns : option Z;
  ctx_logical_cpu_count : Z;
  ctx_reason : string;
  ctx_desktop_roots : list string;
}.

(** [(delta as f64) * 100.0 / ((interval_ns as f64) / 1_000.0 * count as f64)]. *)
Definition cgroup_percent (delta interval_ns count : Z) : f64 :=
  f64_div (f64_mul (f64_of delta) f64_hundred) (f64_mul (f64_div (f64_of interval_ns) (f64_of 1000)) (f64_of count)).

Definition cgroup_cpu_percent (resource : option RawApplicationResourceRecord) (context : SamplingContext) : MetricValue f64 :=
  match resource with
  | None => MetricValue_unavailable Metric_Unknown "application_cgroup_cpu_missing"
  | Some resource =>
      let usage := ra_cgroup_cpu_usage_usec resource in
      match metric_value usage with
      | None =>
          MetricValue_unavailable
            (if eqb (metric_state usage) Metric_Known then Metric_Unknown else metric_state usage)
            (default "application_cgroup_cpu_unknown"%string (metric_reason usage))
      | Some current =>
          match ctx_capture_interval_ns context with
          | None => MetricValue_unavailable (cpu_unavailable_state (ctx_reason context)) (ctx_reason context)
          | Some interval_ns =>
              match ctx_baseline context with
              | None => MetricValue_unavailable Metric_WarmingUp "cgroup_cpu_warming_up"
              | Some baseline =>
                  match application_cgroup_cpu_usec baseline !! ra_application_key resource with
                  | None => MetricValue_unavailable Metric_WarmingUp "cgroup_cpu_baseline_missing"
                  | Some previous =>
                      if current <? previous
                      then MetricValue_unavailable Metric_SamplingGap "cgroup_cpu_counter_reset"
                      else if ctx_logical_cpu_count context =? 0
                      then MetricValue_unavailable Metric_Unknown "logical_cpu_count_unknown"
                      else MetricValue_known
                             (cgroup_percent (current - previous) interval_ns (ctx_logical_cpu_count context))
                  end
              end
          end
      end
  end.

Section Reduce.
Context (is_file : string -> bool) (read_entry : string -> option (list Z)).

Definition desktop_entry_of (members : list member) : option string := find_map (fun m : member => rp_desktop_entry_id m.1) members.

Definition display_label (key : string) (members : list member) (roots : list string) : result string sampling :=
  let? shown := match desktop_entry_of members with
                | Some id => ok_or Panicked (desktop_display_name is_file read_entry id roots)
                | None => Ok None
                end in
  Ok (default key (or_else shown (or_else (desktop_entry_of members) (representative_executable_label members)))).

(** A field of the resource record, if there is one. *)
Definition resource_metric {T} (resource : option RawApplicationResourceRecord)
    (field : RawApplicationResourceRecord -> MetricValue T) (reason : string) : MetricValue T :=
  match resource with Some r => field r | None => MetricValue_unavailable Metric_Unknown reason end.

Definition application_sample (context : SamplingContext) (resources : gmap string RawApplicationResourceRecord)
    (key : string) (members : list member) : result ApplicationSample sampling :=
  let resource := resources !! key in
  let samples := members.*2 in
  let? label := display_label key members (ctx_desktop_roots context) in
  Ok {| sample_application_key := key;
        sample_desktop_entry_id := desktop_entry_of members;
        sample_display_label := label;
        sample_grouping_resolution := strongest_grouping (ps_grouping_resolution <$> samples);
        sample_process_count := match resource with Some r => ra_process_count r | None => Z.of_nat (length members) end;
        sample_process_scope := TELEMETRY_SCOPE_SAME_EUID;
        sample_cgroup_scope := TELEMETRY_SCOPE_FULL_CGROUP;
        cpu_percent_total_capacity_sum := sum_f64 (ps_cpu_percent_total_capacity <$> samples) "application_cpu_unknown";
        sample_rss_sum_bytes := sum_u64 (ps_rss_bytes <$> samples) "application_rss_unknown";
        sample_pss_sum_bytes := resource_metric resource ra_pss_sum_bytes "application_pss_missing";
        sample_fd_used_sum := sum_u64 (ps_fd_used <$> samples) "application_fd_used_unknown";
        sample_fd_soft_limit_sum := sum_u64 (ps_fd_soft_limit <$> samples) "application_fd_limit_unknown";
        sample_fd_percent_of_attributed_sum :=
          resource_metric resource ra_fd_percent_of_attributed_sum "application_fd_attributed_percent_missing";
        sample_fd_percent_of_soft_limit_sum := aggregate_fd_percent members;
        fd_max_process_percent_of_soft_limit := max_fd_percent (ps_fd_percent_of_soft_limit <$> samples);
        cgroup_cpu_percent_total_capacity := cgroup_cpu_percent resource context;
        sample_memory_current_bytes :=
          resource_metric resource ra_memory_current_bytes "application_memory_current_missing";
        sample_cgroup_process_count :=
          resource_metric resource ra_cgroup_process_count "application_cgroup_process_count_missing" |}.

Fixpoint collect_samples (l : list (result ApplicationSample sampling)) : result (list ApplicationSample) sampling :=
  match l with
  | [] => Ok []
  | r :: l => let? a := r in let? rest := collect_samples l in Ok (a :: rest)
  end.

(** The groups of a [HashMap], in the order they are sorted to afterwards. *)
Definition group_members (key : string) (l : list member) : list member :=
  List.filter (fun m : member => String.eqb (ps_application_key m.2) key) l.

Definition aggregate_applications (raw : list RawProcess) (samples : list PrivateProcessSample)
    (resources : list RawApplicationResourceRecord) (context : SamplingContext)
  : result (list ApplicationSample) sampling :=
  let members := zip raw samples in
  let keys := btree_set (ps_application_key <$> members.*2) in
  fail_if MAX_APPLICATION_RECORDS <? Z.of_nat (length keys) with Sampling Sampler_ApplicationLimitExceeded in
  let by_key : gmap string RawApplicationResourceRecord :=
    list_to_map (reverse ((fun r => (ra_application_key r, r)) <$> resources)) in
  collect_samples ((fun key => application_sample context by_key key (group_members key members)) <$> keys).

(** ** Snapshots *)

Definition ensure_issue (code : string) (l : list IssueCount) : list IssueCount :=
  if existsb (fun i => String.eqb (issue_code i) code) l then l
  else l ++ [{| issue_code := code; issue_count := 1 |}].

(** Issues, denied permissions, and whether everything is still complete. *)
Abbreviation report := (list IssueCount * list IssueCount * TelemetryStatus)%type (only parsing).

Definition note_metric {T} (metric : MetricValue T) (denied : string) (r : report) : report :=
  let '(issues, permission_denied, status) := r in
  if eqb (metric_state metric) Metric_Known then r
  else (add_issue (default "metric_unknown"%string (metric_reason metric)) issues,
        (if eqb (metric_state metric) Metric_PermissionDenied
         then add_issue (default denied (metric_reason metric)) permission_denied else permission_denied),
        Tel_Partial).
Definition demote (unless_ : bool) (r : report) : report :=
  let '(issues, permission_denied, status) := r in (issues, permission_denied, if unless_ then status else Tel_Partial).

Definition note_process (process : PrivateProcessSample) (r : report) : report :=
  let r := fold_left (fun r m => note_metric m "metric_permission_denied" r)
             [ps_rss_bytes process; ps_pss_bytes process; ps_fd_used process; ps_fd_soft_limit process] r in
  let r := note_metric (ps_fd_percent_of_soft_limit process) "fd_percent_permission_denied" r in
  demote (eqb (metric_state (ps_cpu_percent_total_capacity process)) Metric_Known) r.

Definition issue_le (a b : IssueCount) : Prop := str_le (issue_code a) (issue_code b).
#[export] Instance issue_le_dec a b : Decision (issue_le a b).
Proof. unfold issue_le. apply _. Defined.

Definition application_known (a : ApplicationSample) : bool :=
  forallb (fun s => eqb s Metric_Known)
    [metric_state (sample_pss_sum_bytes a); metric_state (sample_fd_percent_of_attributed_sum a);
     metric_state (cgroup_cpu_percent_total_capacity a); metric_state (sample_memory_current_bytes a);
     metric_state (sample_cgroup_process_count a)].
Definition system_known (s : RawSystemFdSnapshot) : bool :=
  forallb (fun s => eqb s Metric_Known)
    [metric_state (rf_file_nr_allocated s); metric_state (rf_file_nr_max s); metric_state (rf_file_max s);
     metric_state (rf_pressure_percent s)].

Definition build_snapshot (uuid : Uuid) (raw : RawSnapshot) (cpu : cpu_context)
    (sample_interval_ms capture_interval_ns : option Z) (status : TelemetryStatus) (reason : string)
    (roots : list string) : result TelemetrySnapshot sampling :=
  let processes := (fun p => process_sample p cpu reason) <$> raw_processes raw in
  let? applications := aggregate_applications (raw_processes raw) processes (raw_applications raw)
    {| ctx_baseline := fst <$> cpu; ctx_capture_interval_ns := capture_interval_ns;
       ctx_logical_cpu_count := raw_logical_cpu_count raw; ctx_reason := reason; ctx_desktop_roots := roots |} in
  let about_interval := starts_with "capture_interval_" reason in
  let issues := if about_interval then ensure_issue reason (raw_issues raw) else raw_issues raw in
  let permission_denied :=
    if about_interval && eqb (cpu_unavailable_state reason) Metric_PermissionDenied
    then ensure_issue reason (raw_permission_denied_counts raw) else raw_permission_denied_counts raw in
  let '(issues, permission_denied, status) :=
    fold_left (fun r p => note_process p r) processes (issues, permission_denied, status) in
  let status := if forallb application_known applications && system_known (raw_system_fd raw) then status
                else Tel_Partial in
  let fd := raw_system_fd raw in
  Ok {| tel_schema_version := TELEMETRY_SCHEMA_VERSION; tel_snapshot_id := uuid;
        tel_captured_at_unix_ms := Some (raw_captured_at_unix_ms raw);
        tel_sample_interval_ms := sample_interval_ms;
        tel_logical_cpu_count := if 0 <? raw_logical_cpu_count raw then Some (raw_logical_cpu_count raw) else None;
        tel_freshness := if contains reason ["warming_up"; "boot_changed"]%string then Tel_WarmingUp else Tel_Fresh;
        tel_status := status;
        tel_reason := if eqb status Tel_Complete then "complete" else reason;
        tel_retryable := false; tel_scope := TELEMETRY_SCOPE_SAME_EUID;
        tel_last_success_at_unix_ms := Some (raw_captured_at_unix_ms raw);
        tel_permission_denied_counts := merge_sort issue_le permission_denied;
        tel_issues := merge_sort issue_le issues;
        tel_system_fd := {| fd_scope := TELEMETRY_SCOPE_SYSTEM; fd_file_nr_allocated := rf_file_nr_allocated fd;
                            fd_file_nr_max := rf_file_nr_max fd; fd_file_max := rf_file_max fd;
                            fd_pressure_percent := rf_pressure_percent fd |};
        tel_applications := applications |}.

(** ** The sampler *)

Definition baseline_of (raw : RawSnapshot) : Baseline :=
  {| base_boot_id := raw_boot_id raw; base_captured_at_monotonic_ns := raw_captured_at_monotonic_ns raw;
     base_total_cpu_jiffies := raw_total_cpu_jiffies raw;
     process_cpu := list_to_map (reverse ((fun p => (identity_tuple (rp_identity p), rp_cpu_jiffies p)) <$> raw_processes raw));
     application_cgroup_cpu_usec :=
       list_to_map (reverse (omap (fun a => v ← metric_value (ra_cgroup_cpu_usage_usec a); Some (ra_application_key a, v))
                               (raw_applications raw))) |}.

Definition no_issue (raw : RawSnapshot) : bool :=
  match raw_issues raw with [] => raw_skipped_race raw =? 0 | _ => false end.

Definition snapshot_of (uuid : Uuid) (roots : list string) (previous : option Baseline) (raw : RawSnapshot)
  : result TelemetrySnapshot sampling :=
  let build cpu interval ns status reason := build_snapshot uuid raw cpu interval ns status reason roots in
  match previous with
  | None => build None None None Tel_Partial "warming_up"
  | Some previous =>
      if negb (String.eqb (base_boot_id previous) (raw_boot_id raw)) then build None None None Tel_Partial "boot_changed"
      else match capture_interval (base_captured_at_monotonic_ns previous) (raw_captured_at_monotonic_ns raw) with
      | Err (s, reason) => build None None None Tel_Partial (reason_for_interval_state s reason)
      | Ok (capture_interval_ns, interval) =>
          if negb (in_range (sat_u64 (MIN_SAMPLE_INTERVAL_MS * 1000000)) (sat_u64 (MAX_SAMPLE_INTERVAL_MS * 1000000))
                     capture_interval_ns)
          then build None (Some interval) (Some capture_interval_ns) Tel_Partial "sampling_gap"
          else
            let total_delta := raw_total_cpu_jiffies raw - base_total_cpu_jiffies previous in
            if negb (0 <? total_delta)
            then build (Some (previous, None)) (Some interval) (Some capture_interval_ns) Tel_Partial "cpu_denominator_zero"
            else build (Some (previous, Some total_delta)) (Some interval) (Some capture_interval_ns)
                   (if no_issue raw then Tel_Complete else Tel_Partial)
                   (if no_issue raw then "complete" else "partial_metrics")
      end
  end.

(** [desktop_roots_from_env] is given as [env_roots]. *)
Definition observe (uuid : Uuid) (env_roots : list string) (raw : RawSnapshot) : mut Sampler TelemetrySnapshot sampling :=
  fun s =>
    ({| baseline := Some (baseline_of raw); sampler_desktop_roots := sampler_desktop_roots s |},
     snapshot_of uuid (default env_roots (sampler_desktop_roots s)) (baseline s) raw).

Definition reduce_raw (uuid : Uuid) (env_roots : list string) (raw : RawSnapshot) : mut Sampler TelemetrySnapshot sampling :=
  lift (fun _ => fail_if MAX_PROCESS_RECORDS <? Z.of_nat (length (raw_processes raw))
                   with Sampling Sampler_ProcessLimitExceeded in Ok tt) ;;;
  observe uuid env_roots raw.

(** The text of an error of the operating system is left out. *)
Definition ProcError_to_string (e : ProcError) : string :=
  match e with
  | BootIdUnavailable => "proc boot id is unavailable"
  | BootIdInvalid => "proc boot id is invalid"
  | CpuStatUnavailable => "aggregate proc cpu stat is unavailable"
  | CpuStatInvalid => "aggregate proc cpu stat is invalid"
  | Proc_Root => "proc root cannot be read"
  | Proc_SystemConfig => "system page or clock size is unavailable"
  | ProcessLimitExceeded => "numeric process entry count exceeds 4096"
  | SnapshotInvalid text => "private telemetry snapshot is invalid: " +:+ text
  end.

Definition reduce_snapshot (uuid : Uuid) (env_roots : list string) (snapshot : PrivateSnapshot f64)
  : mut Sampler TelemetrySnapshot sampling :=
  raw <- lift (fun _ => map_err (fun e => Sampling (Sampler_InvalidSnapshot (ProcError_to_string e)))
                          (raw_from_protocol snapshot)) ;;
  reduce_raw uuid env_roots raw.
End Reduce.
