(* ===== verification/TelemetrySamplerFacts.v ===== *)
(** What a snapshot of the processes says: a share of the processor was
    measured between two collections, and a complete snapshot lacks nothing. *)
From S2P Require Import Prelude Frame HelperFrame TelemetryHelper RemoteCore Text Encoding Domain TelemetryParse TelemetryIdentity TelemetryProc TelemetryProcFacts TelemetrySampler.

(** ** Sums of metrics *)

Lemma dominant_not_known s t : s <> Metric_Known \/ t <> Metric_Known -> dominant_state s t <> Metric_Known.
Proof. destruct s, t; simpl; naive_solver. Qed.

Lemma normalized_not_known {T} (m : MetricValue T) : known_value m = None -> normalized_unavailable_state m <> Metric_Known.
Proof. destruct m as [[v |] [] ?]; unfold known_value, normalized_unavailable_state; simpl; done. Qed.

Lemma unavailable_unknown {T} s r : known_value (MetricValue_unavailable (T := T) s r) = None.
Proof. unfold known_value. by destruct (eqb _ _). Qed.

(** The total of the values before the first that is missing. *)
Lemma sum_metric_fold {T} (add : T -> T -> T) ms : forall total unavailable,
  let r := fold_left (fun '(total, unavailable) m =>
      match known_value m with
      | Some v => (add total v, unavailable)
      | None => (total, dominant_state unavailable (normalized_unavailable_state m))
      end) ms (total, unavailable) in
  (r.2 = Metric_Known <-> unavailable = Metric_Known /\ Forall (fun m => is_Some (known_value m)) ms) /\
  (r.2 = Metric_Known -> r.1 = fold_left add (omap known_value ms) total).
Proof.
  induction ms as [| m ms IH]; intros total unavailable r.
  { unfold r. simpl. split; [| done]. split; [intros ->; by split | by intros [-> _]]. }
  unfold r. cbn [fold_left].
  change (omap known_value (m :: ms)) with
    (match known_value m with Some v => v :: omap known_value ms | None => omap known_value ms end).
  destruct (known_value m) as [v |] eqn:Hm.
  - destruct (IH (add total v) unavailable) as [IH1 IH2]. split; [| exact IH2].
    rewrite IH1, Forall_cons. naive_solver.
  - destruct (IH total (dominant_state unavailable (normalized_unavailable_state m))) as [IH1 IH2].
    assert (Hd : dominant_state unavailable (normalized_unavailable_state m) <> Metric_Known)
      by (apply dominant_not_known; right; by apply normalized_not_known).
    split; [| intros Hk; apply IH1 in Hk as [Hk _]; done].
    rewrite IH1, Forall_cons, Hm. split; [by intros [? _] | by intros (_ & [] & _)].
Qed.

Lemma sum_metric_spec {T} (zero : T) add ms r v :
  metric_value (sum_metric zero add ms r) = Some v <->
  exists vs, Forall2 (fun m x => known_value m = Some x) ms vs /\ v = fold_left add vs zero.
Proof.
  unfold sum_metric. pose proof (sum_metric_fold add ms zero Metric_Known) as [H1 H2].
  destruct (fold_left _ ms _) as [total unavailable]. simpl in H1, H2.
  assert (Hvs : Forall (fun m => is_Some (known_value m)) ms ->
                Forall2 (fun m x => known_value m = Some x) ms (omap known_value ms)).
  { clear. induction 1 as [| m ms [x Hx] _ IH]; [constructor |].
    change (omap known_value (m :: ms)) with
      (match known_value m with Some v => v :: omap known_value ms | None => omap known_value ms end).
    rewrite Hx. by constructor. }
  assert (Huniq : forall vs, Forall2 (fun m x => known_value m = Some x) ms vs ->
                  Forall (fun m => is_Some (known_value m)) ms /\ vs = omap known_value ms).
  { clear. induction 1 as [| m x ms vs Hx _ [IH1 ->]]; [done |]. split; [by constructor; eauto |].
    change (omap known_value (m :: ms)) with
      (match known_value m with Some v => v :: omap known_value ms | None => omap known_value ms end).
    by rewrite Hx. }
  destruct (eqb unavailable Metric_Known) eqn:E.
  - apply eqb_eq in E. rewrite E in *. destruct (proj1 H1 eq_refl) as [_ Hall]. simpl. split.
    + intros [= <-]. exists (omap known_value ms). split; [by apply Hvs | by apply H2].
    + intros (vs & Hv & ->). apply Huniq in Hv as [_ ->]. f_equal. by apply H2.
  - apply eqb_neq in E. split; [done |]. intros (vs & Hv & ->). apply Huniq in Hv as [Hall _].
    exfalso. apply E, H1. by split.
Qed.

(** ** Applications of a snapshot *)

Section Applications.
Context (is_file : string -> bool) (read_entry : string -> option (list Z)).

Lemma collect_samples_elem l apps a : collect_samples l = Ok apps -> a ∈ apps -> Ok a ∈ l.
Proof.
  revert apps. induction l as [| r l IH]; intros apps; simpl; [by intros [= <-] ?%not_elem_of_nil |].
  intros (x & -> & (rest & Hrest & [= <-])%result_bind_ok)%result_bind_ok [-> | Ha]%elem_of_cons; [left |].
  right. by eapply IH.
Qed.

Lemma group_of_zip (f : RawProcess -> PrivateProcessSample) key ps :
  (forall p, ps_application_key (f p) = rp_application_key p) ->
  group_members key (zip ps (f <$> ps)) = (fun p => (p, f p)) <$> members_of key ps.
Proof.
  intros Hf. induction ps as [| p ps IH]; [done |]. cbn [fmap list_fmap zip zip_with group_members members_of List.filter].
  simpl. rewrite Hf. fold (group_members key (zip ps (f <$> ps))). fold (members_of key ps).
  destruct (String.eqb _ _); [| exact IH]. rewrite fmap_cons. f_equal. exact IH.
Qed.

Lemma zip_samples (f : RawProcess -> PrivateProcessSample) ps : (zip ps (f <$> ps)).*2 = f <$> ps.
Proof. induction ps as [| p ps IH]; [done |]. cbn. by f_equal. Qed.

(** An application of a snapshot, with the processes it was made of. *)
Lemma application_of_snapshot uuid raw cpu interval ns status reason roots snap a :
  build_snapshot is_file read_entry uuid raw cpu interval ns status reason roots = Ok snap ->
  a ∈ tel_applications snap ->
  let members := members_of (sample_application_key a) (raw_processes raw) in
  members <> [] /\
  application_sample is_file read_entry
    {| ctx_baseline := fst <$> cpu; ctx_capture_interval_ns := ns; ctx_logical_cpu_count := raw_logical_cpu_count raw;
       ctx_reason := reason; ctx_desktop_roots := roots |}
    (list_to_map (reverse ((fun r => (ra_application_key r, r)) <$> raw_applications raw)))
    (sample_application_key a) ((fun p => (p, process_sample p cpu reason)) <$> members) = Ok a.
Proof.
  unfold build_snapshot. intros (apps & Happs & H)%result_bind_ok Ha.
  assert (Ea : a ∈ apps) by (revert H; destruct (fold_left _ _ _) as [[? ?] ?]; intros [= <-]; exact Ha). clear H Ha.
  unfold aggregate_applications in Happs. guards Happs.
  apply (collect_samples_elem _ _ a) in Happs; [| done].
  apply list_elem_of_fmap in Happs as (key & Hs & Hkey). symmetry in Hs.
  rewrite group_of_zip in Hs by done.
  assert (Ek : sample_application_key a = key).
  { unfold application_sample in Hs. by apply result_bind_ok in Hs as (? & _ & [= <-]). }
  rewrite Ek. split; [| exact Hs].
  unfold btree_set in Hkey. rewrite elem_of_remove_dups, merge_sort_Permutation in Hkey.
  rewrite zip_samples in Hkey. apply list_elem_of_fmap in Hkey as (s & -> & (p & -> & Hp)%list_elem_of_fmap).
  intros Hnil. apply (not_elem_of_nil p). rewrite <- Hnil. apply list_elem_of_In, filter_In.
  split; [by apply list_elem_of_In | apply String.eqb_refl].
Qed.

(** The processor share of an application, from the shares of its processes. *)
Lemma application_cpu context resources key members a v :
  application_sample is_file read_entry context resources key members = Ok a ->
  metric_value (cpu_percent_total_capacity_sum a) = Some v ->
  exists vs, Forall2 (fun (m : RawProcess * PrivateProcessSample) x => known_value (ps_cpu_percent_total_capacity m.2) = Some x) members vs /\
    v = fold_left f64_add vs f64_zero.
Proof.
  unfold application_sample. intros (label & _ & [= <-])%result_bind_ok. simpl. intros Hv.
  apply sum_metric_spec in Hv as (vs & Hvs & ->). exists vs. split; [| done].
  clear -Hvs. revert vs Hvs. induction members as [| m members IH]; intros vs Hvs.
  - inversion Hvs. constructor.
  - inversion Hvs as [| ? x ? vs' Hx Hvs']; subst. constructor; [done | by apply IH].
Qed.

Definition elapsed_between (before after : RawSnapshot) (ns : Z) : Prop :=
  exists t1 t2, metric_value (raw_captured_at_monotonic_ns before) = Some t1 /\
    metric_value (raw_captured_at_monotonic_ns after) = Some t2 /\ ns = t2 - t1.

Lemma capture_interval_ok m1 m2 ns ms : capture_interval m1 m2 = Ok (ns, ms) ->
  exists t1 t2, metric_value m1 = Some t1 /\ metric_value m2 = Some t2 /\ ns = t2 - t1 /\ 0 < ns.
Proof.
  unfold capture_interval. intros H. guards H. destruct (metric_value m1) as [t1 |], (metric_value m2) as [t2 |]; try done.
  destruct (0 <? t2 - t1) eqn:E; [| done]. injection H as <- _. exists t1, t2. split_and!; try done. lia.
Qed.

Lemma baseline_process raw tuple jiffies : process_cpu (baseline_of raw) !! tuple = Some jiffies ->
  exists q, q ∈ raw_processes raw /\ identity_tuple (rp_identity q) = tuple /\ rp_cpu_jiffies q = jiffies.
Proof.
  simpl. intros H%elem_of_list_to_map_2. apply elem_of_reverse, list_elem_of_fmap in H as (q & [= -> ->] & Hq).
  by exists q.
Qed.

Lemma identity_tuple_inj i j : identity_tuple i = identity_tuple j -> i = j.
Proof. destruct i, j. by intros [= -> -> -> ->]. Qed.
End Applications.

Section Measured.
Context (is_file : string -> bool) (read_entry : string -> option (list Z)).

Lemma unmeasured_share uuid raw cpu interval ns status reason roots snap a :
  (forall p, known_value (process_cpu_percent p cpu reason) = None) ->
  build_snapshot is_file read_entry uuid raw cpu interval ns status reason roots = Ok snap ->
  a ∈ tel_applications snap -> metric_value (cpu_percent_total_capacity_sum a) = None.
Proof.
  intros Hno Hb Ha. destruct (application_of_snapshot _ _ _ _ _ _ _ _ _ _ _ _ Hb Ha) as [Hne Hs].
  destruct (metric_value _) as [v |] eqn:Hv; [| done]. destruct (application_cpu _ _ _ _ _ _ _ _ Hs Hv) as (vs & Hvs & _).
  destruct (members_of _ _) as [| p l]; [done |]. rewrite fmap_cons in Hvs. inversion Hvs as [| ? ? ? ? Hx _]; subst.
  simpl in Hx. by rewrite Hno in Hx.
Qed.

(** C27: A share of the processor is measured: the sampler gives an application one
    only if the collection before was of the same boot, between three quarters
    of a second and two and a half seconds earlier, and had every process of
    the application; and it is then the sum, over these processes, of the time
    each of them has used since, in percent of the time of all processors. *)
Theorem processor_share_is_measured uuid1 uuid2 roots s s1 s2 before after r snap a v :
  observe is_file read_entry uuid1 roots before s = (s1, r) ->
  observe is_file read_entry uuid2 roots after s1 = (s2, Ok snap) ->
  a ∈ tel_applications snap -> metric_value (cpu_percent_total_capacity_sum a) = Some v ->
  let total := raw_total_cpu_jiffies after - raw_total_cpu_jiffies before in
  let members := members_of (sample_application_key a) (raw_processes after) in
  raw_boot_id before = raw_boot_id after /\ 0 < total /\ members <> [] /\
  (exists ns, elapsed_between before after ns /\ 750000000 <= ns <= 2500000000) /\
  exists earlier, Forall2 (fun p q => q ∈ raw_processes before /\ rp_identity q = rp_identity p /\
                                      rp_cpu_jiffies q <= rp_cpu_jiffies p) members earlier /\
    v = fold_left f64_add (zip_with (fun p q => percent (rp_cpu_jiffies p - rp_cpu_jiffies q) total) members earlier) f64_zero.
Proof.
  unfold observe. intros [= <- _] [= _ Hsnap] Ha Hv. cbv zeta.
  set (total := raw_total_cpu_jiffies after - raw_total_cpu_jiffies before).
  set (members := members_of (sample_application_key a) (raw_processes after)). cbn [baseline sampler_desktop_roots] in Hsnap.
  assert (Hno : forall cpu interval ns status reason,
    build_snapshot is_file read_entry uuid2 after cpu interval ns status reason
      (default roots (sampler_desktop_roots s)) = Ok snap ->
    ~ forall p, known_value (process_cpu_percent p cpu reason) = None).
  { intros cpu interval ns status reason Hb Hp. rewrite (unmeasured_share _ _ _ _ _ _ _ _ _ _ Hp Hb Ha) in Hv. done. }
  unfold snapshot_of in Hsnap. cbn [base_boot_id base_captured_at_monotonic_ns base_total_cpu_jiffies baseline_of] in Hsnap.
  fold (baseline_of before) in Hsnap.
  destruct (String.eqb_spec (raw_boot_id before) (raw_boot_id after)) as [Hboot |]; [| exfalso; eapply Hno; [exact Hsnap | intros p; apply unavailable_unknown]].
  cbn [negb] in Hsnap. destruct (capture_interval _ _) as [[ns ms] | [state why]] eqn:Hc; [| exfalso; eapply Hno; [exact Hsnap | intros p; apply unavailable_unknown]].
  destruct (in_range _ _ ns) eqn:Hr; cbn [negb] in Hsnap; [| exfalso; eapply Hno; [exact Hsnap | intros p; apply unavailable_unknown]].
  destruct (0 <? _) eqn:Ht; cbn [negb] in Hsnap; [| exfalso; eapply Hno; [exact Hsnap | intros p; apply unavailable_unknown]].
  apply capture_interval_ok in Hc as (t1 & t2 & Et1 & Et2 & Ens & _).
  destruct (application_of_snapshot _ _ _ _ _ _ _ _ _ _ _ _ Hsnap Ha) as [Hne Hs]. fold members in Hne, Hs.
  destruct (application_cpu _ _ _ _ _ _ _ _ Hs Hv) as (vs & Hvs & ->).
  split_and!; [done | unfold total; lia | done | |].
  { exists ns. split; [exists t1, t2; auto |]. unfold in_range in Hr. vm_compute (sat_u64 _) in Hr. lia. }
  assert (H : exists earlier, Forall2 (fun p q => q ∈ raw_processes before /\ rp_identity q = rp_identity p /\
                rp_cpu_jiffies q <= rp_cpu_jiffies p) members earlier /\
              vs = zip_with (fun p q => percent (rp_cpu_jiffies p - rp_cpu_jiffies q) total) members earlier).
  { clear -Hvs. revert vs Hvs. induction members as [| p l IH]; intros vs Hvs.
    - inversion Hvs. by exists [].
    - rewrite fmap_cons in Hvs. inversion Hvs as [| ? x ? vs' Hx Hvs']; subst. apply IH in Hvs' as (earlier & He & ->).
      simpl in Hx. destruct (list_to_map _ !! _) as [before_cpu |] eqn:Hl in Hx; [| done].
      destruct (before_cpu <=? rp_cpu_jiffies p) eqn:Hle; [| done]. injection Hx as <-.
      destruct (baseline_process before _ _ Hl) as (q & Hq & Hid & <-). apply identity_tuple_inj in Hid.
      exists (q :: earlier). split; [| done]. constructor; [| done]. split_and!; [done | done | lia]. }
  destruct H as (earlier & He & ->). by exists earlier.
Qed.
End Measured.

(** ** Complete snapshots *)

Definition process_known (p : PrivateProcessSample) : Prop :=
  metric_state (ps_rss_bytes p) = Metric_Known /\ metric_state (ps_pss_bytes p) = Metric_Known /\
  metric_state (ps_fd_used p) = Metric_Known /\ metric_state (ps_fd_soft_limit p) = Metric_Known /\
  metric_state (ps_fd_percent_of_soft_limit p) = Metric_Known /\
  metric_state (ps_cpu_percent_total_capacity p) = Metric_Known.

Lemma note_metric_complete {T} (m : MetricValue T) denied r : (note_metric m denied r).2 = Tel_Complete ->
  metric_state m = Metric_Known /\ note_metric m denied r = r.
Proof.
  destruct r as [[issues denied_counts] status]. unfold note_metric.
  destruct (eqb _ _) eqn:E; [| done]. apply eqb_eq in E. by intros _.
Qed.

Lemma note_process_complete p r : (note_process p r).2 = Tel_Complete -> process_known p /\ note_process p r = r.
Proof.
  unfold note_process, process_known. cbn [fold_left]. intros H.
  assert (Hd : forall b (x : list IssueCount * list IssueCount * TelemetryStatus), (demote b x).2 = Tel_Complete -> b = true /\ demote b x = x).
  { intros [] [[? ?] ?]; [done | done]. }
  apply Hd in H as Hc. destruct Hc as [Hcpu Hc]. rewrite Hc in H |- *. apply eqb_eq in Hcpu.
  do 5 (apply note_metric_complete in H as Hm; destruct Hm as [? Hm]; rewrite Hm in H |- *; clear Hm).
  done.
Qed.

Lemma note_all_complete l : forall r,
  (fold_left (fun r p => note_process p r) l r).2 = Tel_Complete ->
  Forall process_known l /\ fold_left (fun r p => note_process p r) l r = r.
Proof.
  induction l as [| p l IH]; intros r H; [by split; [constructor |] |]. cbn [fold_left] in H |- *.
  destruct (IH _ H) as [Hl E]. rewrite E in H |- *. apply note_process_complete in H as [Hp E']. split; [by constructor | done].
Qed.


(** ** At concrete collections *)

Section SamplerWitness.
Definition busy_process (pid cpu : Z) : RawProcess :=
  {| rp_identity := {| pi_boot_id := "boot"; pi_pid := pid; pi_start_time_ticks := pid; pi_euid := 1000 |};
     rp_ppid := 1; rp_comm := "c"; rp_exe_basename := Some "c"%string; rp_cgroup_content := "0::/";
     rp_application_key := "editor"; rp_desktop_entry_id := None; rp_grouping_resolution := Group_Unknown;
     rp_cpu_jiffies := cpu; rp_rss_bytes := MetricValue_known 4096; rp_pss_bytes := MetricValue_known 4096;
     rp_fd_used := MetricValue_known 3; rp_fd_soft_limit := MetricValue_known 1024;
     rp_fd_percent_of_soft_limit := MetricValue_known f64_zero |}.
Definition editor_resources : RawApplicationResourceRecord :=
  {| ra_application_key := "editor"; ra_process_count := 1; ra_proc_cpu_jiffies_sum := MetricValue_known 5;
     ra_rss_sum_bytes := MetricValue_known 4096; ra_pss_sum_bytes := MetricValue_known 4096;
     ra_fd_used_sum := MetricValue_known 3; ra_fd_soft_limit_sum := MetricValue_known 1024;
     ra_fd_percent_of_attributed_sum := MetricValue_known f64_hundred;
     ra_fd_percent_of_soft_limit_sum := MetricValue_known f64_zero;
     ra_cgroup_cpu_usage_usec := MetricValue_known 1000; ra_memory_current_bytes := MetricValue_known 8192;
     ra_cgroup_process_count := MetricValue_known 1 |}.
Definition collection_at (ms jiffies : Z) (processes : list RawProcess) : RawSnapshot :=
  {| raw_boot_id := "boot"; raw_euid := 1000; raw_captured_at_unix_ms := ms;
     raw_captured_at_monotonic_ns := MetricValue_known (ms * 1000000); raw_total_cpu_jiffies := jiffies;
     raw_logical_cpu_count := 2; raw_processes := processes; raw_cgroups := []; raw_applications := [editor_resources];
     raw_system_fd := {| rf_file_nr_allocated := MetricValue_known 1; rf_file_nr_max := MetricValue_known 2;
                         rf_file_max := MetricValue_known 2; rf_pressure_percent := MetricValue_known f64_one |};
     raw_excluded_other_uid := 0; raw_skipped_race := 0; raw_permission_denied_counts := []; raw_issues := [] |}.

Definition no_file (path : string) : bool := false.
Definition no_entry (path : string) : option (list Z) := None.
Definition first_collection : RawSnapshot := collection_at 1000 100 [busy_process 5 10].
Definition second_collection : RawSnapshot := collection_at 2000 300 [busy_process 5 60].
(** A second process has started in between. *)
Definition grown_collection : RawSnapshot := collection_at 2000 300 [busy_process 5 60; busy_process 6 0].

Definition after_first : Sampler := (observe no_file no_entry 1 [] first_collection Sampler_new).1.
Definition observed (raw : RawSnapshot) : option TelemetrySnapshot :=
  match (observe no_file no_entry 2 [] raw after_first).2 with Ok snap => Some snap | Err _ => None end.

Example a_quarter_of_the_processors :
  option_map (fun snap => (tel_status snap, tel_reason snap,
                           List.map (fun a => metric_value (cpu_percent_total_capacity_sum a)) (tel_applications snap)))
    (observed second_collection)
  = Some (Tel_Complete, "complete"%string, [Some (percent 50 200)]).
Proof. vm_compute. reflexivity. Qed.

(** A snapshot that is not complete gives "complete" as the reason: it was
    demoted for a process that had just started. *)
Example partial_snapshot_says_complete :
  option_map (fun snap => (tel_status snap, tel_reason snap, tel_issues snap)) (observed grown_collection)
  = Some (Tel_Partial, "complete"%string, []).
Proof. vm_compute. reflexivity. Qed.

Lemma processor_share_is_measured_witness :
  exists snap a v, a ∈ tel_applications snap /\ metric_value (cpu_percent_total_capacity_sum a) = Some v /\
    0 < raw_total_cpu_jiffies second_collection - raw_total_cpu_jiffies first_collection.
Proof.
  destruct (observe no_file no_entry 2 [] second_collection after_first) as [s2 r] eqn:E.
  destruct r as [snap | e]; [| exfalso; apply (f_equal (fun x => is_ok x.2)) in E; vm_compute in E; discriminate E].
  assert (H : exists a v, a ∈ tel_applications snap /\ metric_value (cpu_percent_total_capacity_sum a) = Some v).
  { assert (Ho : observed second_collection = Some snap) by (unfold observed; by rewrite E).
    pose proof a_quarter_of_the_processors as Hq. rewrite Ho in Hq. cbn [option_map] in Hq.
    destruct (tel_applications snap) as [| a l]; [discriminate Hq |]. exists a, (percent 50 200).
    split; [left |]. injection Hq. intros. cbn [List.map] in *. congruence. }
  destruct H as (a & v & Ha & Hv). exists snap, a, v. split; [exact Ha |]. split; [exact Hv |].
  refine (proj1 (proj2 (processor_share_is_measured no_file no_entry 1 2 [] Sampler_new after_first s2
    first_collection second_collection _ snap a v (surjective_pairing _) E Ha Hv))).
Defined.


(** A desktop entry whose name has a letter of two bytes across byte 128: cutting
    it there is a panic, and no snapshot comes of the collection. *)
Fixpoint repeated (n : nat) (s : string) : string := match n with O => EmptyString | S n => s +:+ repeated n s end.
Definition e_acute : string := string_of_bytes [195; 169].
Definition long_entry (path : string) : option (list Z) := Some (bytes ("Name=" +:+ repeated 127 "a" +:+ e_acute)).
Definition named_process : RawProcess :=
  assign {| assigned_key := "editor.desktop"; assigned_desktop := Some "editor.desktop"%string;
            assigned_resolution := Group_DesktopEntryExact |} (busy_process 5 10).

Example long_display_name_panics :
  (observe (fun _ => true) long_entry 1 ["/apps"%string] (collection_at 1000 100 [named_process]) Sampler_new).2
  = Err Panicked.
Proof. vm_compute. reflexivity. Qed.
End SamplerWitness.
