(* ===== verification/TelemetryStore.v ===== *)
(** [crates/telemetry/src/lib.rs]: the store of the last snapshot and the
    manager that feeds it the replies of the helper.

    An [Instant] and a [Duration] are nanoseconds; [uuid] is the identifier a
    call makes. Locks are not poisoned. The theorem says what a client is given:
    the calls of the manager refine a small abstract machine, whatever the order
    in which replies, failures and the end come. *)
From S2P Require Import Prelude Frame HelperFrame TelemetryHelper RemoteCore Text Encoding Domain TelemetryParse TelemetryIdentity TelemetryProc TelemetrySampler.

Definition STALE_AFTER_MS : Z := 3000.
Definition MAX_STALE_MS : Z := 10000.

Record CgroupApplicationBinding := { binding_cgroup_path : string; binding_application_key : string }.
Record CgroupBindingSnapshot := {
  bindings_available : bool;
  bindings_reason : string;
  bindings : list CgroupApplicationBinding;
}.
Definition CgroupBindingSnapshot_unavailable (reason : string) : CgroupBindingSnapshot :=
  {| bindings_available := false; bindings_reason := reason; bindings := [] |}.

Record TelemetryStoreConfig := { stale_after : Z; max_stale : Z }.
Definition TelemetryStoreConfig_default : TelemetryStoreConfig :=
  {| stale_after := STALE_AFTER_MS * 1000000; max_stale := MAX_STALE_MS * 1000000 |}.

Inductive PublishResult := Published | DroppedLateGeneration | RejectedShuttingDown.
#[export] Instance PublishResult_eq_dec : EqDecision PublishResult.
Proof. solve_decision. Defined.

Inductive StoreError := Store_Poisoned | Store_ShuttingDown | Store_GenerationExhausted.
#[export] Instance StoreError_eq_dec : EqDecision StoreError.
Proof. solve_decision. Defined.
Definition StoreError_to_string (e : StoreError) : string :=
  match e with
  | Store_Poisoned => "telemetry store lock was poisoned"
  | Store_ShuttingDown => "telemetry store is shutting down"
  | Store_GenerationExhausted => "telemetry sample generation is exhausted"
  end.

Definition SamplerError_to_string (e : SamplerError) : string :=
  match e with
  | Sampler_InvalidSnapshot text => "private telemetry snapshot is invalid: " +:+ text
  | Sampler_ProcessLimitExceeded => "process record count exceeds 4096"
  | Sampler_ApplicationLimitExceeded => "application record count exceeds 1024"
  end.

Inductive TelemetryError :=
| Tel_Collection (code : string) (retryable : bool) (reason : string)
| Tel_Sampler (e : SamplerError)
| Tel_Store (e : StoreError)
| Tel_InvalidReply (text : string).
#[export] Instance TelemetryError_eq_dec : EqDecision TelemetryError.
Proof. solve_decision. Defined.

Definition TelemetryError_code (e : TelemetryError) : string :=
  match e with
  | Tel_Collection _ _ _ => "collection_error"
  | Tel_Sampler _ => "reducer_error"
  | Tel_Store _ => "store_error"
  | Tel_InvalidReply _ => "invalid_reply"
  end.
Definition TelemetryError_retryable (e : TelemetryError) : bool :=
  match e with Tel_Collection _ retryable _ => retryable | _ => false end.
Definition TelemetryError_to_string (e : TelemetryError) : string :=
  match e with
  | Tel_Collection code _ reason => "telemetry collection failed with " +:+ code +:+ ": " +:+ reason
  | Tel_Sampler e => SamplerError_to_string e
  | Tel_Store e => StoreError_to_string e
  | Tel_InvalidReply text => "telemetry reply is invalid: " +:+ text
  end.
Definition TelemetryError_of_proc (e : ProcError) : TelemetryError :=
  Tel_Collection (ProcError_reason_code e) (ProcError_retryable e) (ProcError_to_string e).

Definition HelperErrorCode_as_str (c : HelperErrorCode) : string :=
  match c with
  | MalformedRequest => "malformed_request"
  | UnsupportedVersionCode => "unsupported_version"
  | OversizedFrame => "oversized_frame"
  | InvalidRequest => "invalid_request"
  | ProcUnavailable => "proc_unavailable"
  | ProcPermissionDenied => "proc_permission_denied"
  | ProcRaced => "proc_raced"
  | ProcInvalid => "proc_invalid"
  | LimitExceeded => "limit_exceeded"
  | ShuttingDown => "shutting_down"
  | Internal => "internal"
  end.
Definition TelemetryError_of_helper (e : HelperError) : TelemetryError :=
  Tel_Collection (HelperErrorCode_as_str (TelemetryHelper.code e)) (TelemetryHelper.retryable e)
    (TelemetryHelper.error_reason e).

(** ** The store *)

Record StoreState := {
  current_generation : Z;
  st_snapshot : TelemetrySnapshot;
  last_success_snapshot : option TelemetrySnapshot;
  last_success_mono : option Z;
  cgroup_bindings : list CgroupApplicationBinding;
  shutting_down : bool;
}.

Definition StoreState_new (uuid : Uuid) : StoreState :=
  {| current_generation := 0;
     st_snapshot := TelemetrySnapshot_unavailable_with_retryable uuid "collector_unavailable" true;
     last_success_snapshot := None; last_success_mono := None; cgroup_bindings := []; shutting_down := false |}.

Definition put_snapshot (snapshot : TelemetrySnapshot) (s : StoreState) : StoreState :=
  {| current_generation := current_generation s; st_snapshot := snapshot;
     last_success_snapshot := last_success_snapshot s; last_success_mono := last_success_mono s;
     cgroup_bindings := cgroup_bindings s; shutting_down := shutting_down s |}.

(** [let mut retained = last_success.clone()] and what is set on it. *)
Definition retained (s : TelemetrySnapshot) (freshness : TelemetryFreshness) (reason : string) (retryable : bool)
  : TelemetrySnapshot :=
  {| tel_schema_version := tel_schema_version s; tel_snapshot_id := tel_snapshot_id s;
     tel_captured_at_unix_ms := tel_captured_at_unix_ms s; tel_sample_interval_ms := tel_sample_interval_ms s;
     tel_logical_cpu_count := tel_logical_cpu_count s; tel_freshness := freshness; tel_status := Tel_Partial;
     tel_reason := reason; tel_retryable := retryable; tel_scope := tel_scope s;
     tel_last_success_at_unix_ms := tel_last_success_at_unix_ms s;
     tel_permission_denied_counts := tel_permission_denied_counts s; tel_issues := tel_issues s;
     tel_system_fd := tel_system_fd s; tel_applications := tel_applications s |}.
Definition unavailable_since (uuid : Uuid) (reason : string) (retryable : bool) (last : option Z) : TelemetrySnapshot :=
  let s := TelemetrySnapshot_unavailable_with_retryable uuid reason retryable in
  {| tel_schema_version := tel_schema_version s; tel_snapshot_id := tel_snapshot_id s;
     tel_captured_at_unix_ms := tel_captured_at_unix_ms s; tel_sample_interval_ms := tel_sample_interval_ms s;
     tel_logical_cpu_count := tel_logical_cpu_count s; tel_freshness := tel_freshness s; tel_status := tel_status s;
     tel_reason := tel_reason s; tel_retryable := tel_retryable s; tel_scope := tel_scope s;
     tel_last_success_at_unix_ms := last;
     tel_permission_denied_counts := tel_permission_denied_counts s; tel_issues := tel_issues s;
     tel_system_fd := tel_system_fd s; tel_applications := tel_applications s |}.

Section Store.
Context (config : TelemetryStoreConfig).

(** [saturating_duration_since]. *)
Definition duration_since (now then_ : Z) : Z := Z.max 0 (now - then_).

Definition failure_snapshot (uuid : Uuid) (last_success : option TelemetrySnapshot) (last_success_mono : option Z)
    (now : Z) (retryable : bool) (reason : string) : TelemetrySnapshot :=
  match last_success with
  | None => TelemetrySnapshot_unavailable_with_retryable uuid reason retryable
  | Some last_success =>
      let age := match last_success_mono with
                 | Some instant => duration_since now instant | None => max_stale config + 1 end in
      if max_stale config <? age
      then unavailable_since uuid reason retryable (tel_last_success_at_unix_ms last_success)
      else retained last_success (if stale_after config <? age then Tel_Stale else Tel_Fresh) reason retryable
  end.

Definition refresh_snapshot (uuid : Uuid) (now : Z) (s : StoreState) : StoreState :=
  if shutting_down s then s
  else match last_success_snapshot s, last_success_mono s with
  | Some last_success, Some last_success_mono =>
      let age := duration_since now last_success_mono in
      if age <=? stale_after config then s
      else if age <=? max_stale config
      then put_snapshot (retained last_success Tel_Stale "stale" true) s
      else put_snapshot (unavailable_since uuid "telemetry_stale" true (tel_last_success_at_unix_ms last_success)) s
  | _, _ => s
  end.

Definition start_generation : mut StoreState Z StoreError :=
  fun s =>
    if shutting_down s then (s, Err Store_ShuttingDown)
    else match checked_u64 (current_generation s + 1) with
    | None => (s, Err Store_GenerationExhausted)
    | Some generation =>
        ({| current_generation := generation; st_snapshot := st_snapshot s;
            last_success_snapshot := last_success_snapshot s; last_success_mono := last_success_mono s;
            cgroup_bindings := cgroup_bindings s; shutting_down := shutting_down s |}, Ok generation)
    end.

Definition is_current_generation (generation : Z) (s : StoreState) : bool :=
  negb (shutting_down s) && (current_generation s =? generation).

Definition publish_if_current (generation : Z) (snapshot : TelemetrySnapshot)
    (new_bindings : list CgroupApplicationBinding) (now : Z) (s : StoreState) : StoreState * PublishResult :=
  if shutting_down s then (s, RejectedShuttingDown)
  else if negb (current_generation s =? generation) then (s, DroppedLateGeneration)
  else ({| current_generation := current_generation s; st_snapshot := snapshot;
           last_success_snapshot := Some snapshot; last_success_mono := Some now;
           cgroup_bindings := new_bindings; shutting_down := shutting_down s |}, Published).

Definition error_of (e : TelemetryError) : bool * string :=
  match e with
  | Tel_Collection _ retryable reason => (retryable, reason)
  | other => (TelemetryError_retryable other, TelemetryError_to_string other)
  end.

Definition publish_error_if_current (uuid : Uuid) (generation : Z) (error : TelemetryError) (now : Z) (s : StoreState)
  : StoreState * PublishResult :=
  if shutting_down s then (s, RejectedShuttingDown)
  else if negb (current_generation s =? generation) then (s, DroppedLateGeneration)
  else (put_snapshot (failure_snapshot uuid (last_success_snapshot s) (last_success_mono s) now
                        (error_of error).1 (error_of error).2) s, Published).

Definition cgroup_bindings_at (now : Z) (s : StoreState) : CgroupBindingSnapshot :=
  if shutting_down s then CgroupBindingSnapshot_unavailable "telemetry_cgroup_bindings_shutting_down"
  else match last_success_mono s with
  | None => CgroupBindingSnapshot_unavailable "telemetry_cgroup_bindings_unavailable"
  | Some sampled_at =>
      if max_stale config <? duration_since now sampled_at
      then CgroupBindingSnapshot_unavailable "telemetry_cgroup_bindings_stale"
      else {| bindings_available := true; bindings_reason := "telemetry_cgroup_bindings_available";
              bindings := cgroup_bindings s |}
  end.

Definition snapshot_at (uuid : Uuid) (now : Z) (s : StoreState) : StoreState * TelemetrySnapshot :=
  let s := refresh_snapshot uuid now s in (s, st_snapshot s).

Definition mark_shutting_down (uuid : Uuid) (s : StoreState) : StoreState :=
  {| current_generation := current_generation s;
     st_snapshot := unavailable_since uuid "shutting_down" false
                      (last ← last_success_snapshot s; tel_last_success_at_unix_ms last);
     last_success_snapshot := last_success_snapshot s; last_success_mono := last_success_mono s;
     cgroup_bindings := []; shutting_down := true |}.

(** ** The manager *)

Record TelemetryManager := { reducer : Sampler; store : StoreState }.
Definition TelemetryManager_new (uuid : Uuid) : TelemetryManager :=
  {| reducer := Sampler_new; store := StoreState_new uuid |}.

(** A call fails, or the reducer panics. *)
Inductive manager_failure := Manager_Failed (e : TelemetryError) | Manager_Panicked.
Definition sampling_failure (e : sampling) : manager_failure :=
  match e with Sampling e => Manager_Failed (Tel_Sampler e) | Panicked => Manager_Panicked end.

Context (is_file : string -> bool) (read_entry : string -> option (list Z)) (env_roots : list string).

Definition on_store {A} (f : StoreState -> StoreState * A) : mut TelemetryManager A manager_failure :=
  fun m => let '(s, a) := f (store m) in ({| reducer := reducer m; store := s |}, Ok a).
Definition on_reducer {A} (f : mut Sampler A sampling) : mut TelemetryManager A manager_failure :=
  fun m => let '(s, r) := f (reducer m) in ({| reducer := s; store := store m |}, map_err sampling_failure r).

Definition begin_sample : mut TelemetryManager Z manager_failure :=
  fun m => let '(s, r) := start_generation (store m) in
           ({| reducer := reducer m; store := s |}, map_err (fun e => Manager_Failed (Tel_Store e)) r).

Definition accept_snapshot (uuid : Uuid) (now generation : Z) (snapshot : PrivateSnapshot f64)
  : mut TelemetryManager PublishResult manager_failure :=
  current <- gets (fun m => is_current_generation generation (store m)) ;;
  if negb current then ret DroppedLateGeneration
  else
    public_snapshot <- on_reducer (reduce_snapshot is_file read_entry uuid env_roots snapshot) ;;
    on_store (publish_if_current generation public_snapshot
      ((fun c => {| binding_cgroup_path := TelemetryHelper.cgroup_path c;
                    binding_application_key := TelemetryHelper.cgroup_application_key c |}) <$>
         TelemetryHelper.cgroups snapshot) now).

Definition accept_error (uuid : Uuid) (now generation : Z) (error : TelemetryError)
  : mut TelemetryManager PublishResult manager_failure :=
  on_store (publish_error_if_current uuid generation error now).
Definition accept_collection_error (uuid : Uuid) (now generation : Z) (error : HelperError)
  : mut TelemetryManager PublishResult manager_failure :=
  accept_error uuid now generation (TelemetryError_of_helper error).

Definition accept_reply (uuid : Uuid) (now : Z) (reply : CollectionReply f64)
  : mut TelemetryManager PublishResult manager_failure :=
  lift (fun _ => map_err (fun e => Manager_Failed (Tel_InvalidReply (frame_error_to_string e)))
                   (CollectionReply_validate reply)) ;;;
  match TelemetryHelper.body reply with
  | Body_Snapshot snapshot => accept_snapshot uuid now (TelemetryHelper.reply_gen reply) snapshot
  | Body_Error error => accept_collection_error uuid now (TelemetryHelper.reply_gen reply) error
  end.

Definition manager_shutdown (uuid : Uuid) : mut TelemetryManager unit manager_failure :=
  fun m => ({| reducer := Sampler_reset (reducer m); store := mark_shutting_down uuid (store m) |}, Ok tt).
Definition manager_snapshot (uuid : Uuid) (now : Z) : mut TelemetryManager TelemetrySnapshot manager_failure :=
  on_store (snapshot_at uuid now).
Definition manager_cgroup_bindings (now : Z) : mut TelemetryManager CgroupBindingSnapshot manager_failure :=
  gets (fun m => cgroup_bindings_at now (store m)).
End Store.

(** * What a client is given *)

Section Refinement.
Context (config : TelemetryStoreConfig) (Hconfig : 0 <= stale_after config <= max_stale config).
Context (is_file : string -> bool) (read_entry : string -> option (list Z)) (env_roots : list string).

(** A snapshot up to its identifier. *)
Definition anonymous (s : TelemetrySnapshot) : TelemetrySnapshot :=
  {| tel_schema_version := tel_schema_version s; tel_snapshot_id := 0;
     tel_captured_at_unix_ms := tel_captured_at_unix_ms s; tel_sample_interval_ms := tel_sample_interval_ms s;
     tel_logical_cpu_count := tel_logical_cpu_count s; tel_freshness := tel_freshness s; tel_status := tel_status s;
     tel_reason := tel_reason s; tel_retryable := tel_retryable s; tel_scope := tel_scope s;
     tel_last_success_at_unix_ms := tel_last_success_at_unix_ms s;
     tel_permission_denied_counts := tel_permission_denied_counts s; tel_issues := tel_issues s;
     tel_system_fd := tel_system_fd s; tel_applications := tel_applications s |}.

(** The abstract machine remembers the generation, the last success and when it
    was, the last error since then, and whether the end has come. *)
Record view := {
  v_generation : Z;
  v_down : bool;
  v_last : option (Z * TelemetrySnapshot * list CgroupApplicationBinding);
  v_error : option (bool * string);
}.
Definition view_new : view := {| v_generation := 0; v_down := false; v_last := None; v_error := None |}.

(** What it shows at a time: the last success for three seconds - as it is, or
    with the error since then -, as stale up to ten seconds, and then nothing. *)
Definition view_snapshot (now : Z) (v : view) : TelemetrySnapshot :=
  if v_down v
  then unavailable_since 0 "shutting_down" false (l ← v_last v; tel_last_success_at_unix_ms l.1.2)
  else match v_last v with
  | None =>
      match v_error v with
      | None => TelemetrySnapshot_unavailable_with_retryable 0 "collector_unavailable" true
      | Some (retryable, reason) => TelemetrySnapshot_unavailable_with_retryable 0 reason retryable
      end
  | Some (at_, good, _) =>
      if now - at_ <=? stale_after config
      then match v_error v with
           | None => good
           | Some (retryable, reason) => retained good Tel_Fresh reason retryable
           end
      else if now - at_ <=? max_stale config then retained good Tel_Stale "stale" true
      else unavailable_since 0 "telemetry_stale" true (tel_last_success_at_unix_ms good)
  end.
Definition view_bindings (now : Z) (v : view) : CgroupBindingSnapshot :=
  if v_down v then CgroupBindingSnapshot_unavailable "telemetry_cgroup_bindings_shutting_down"
  else match v_last v with
  | None => CgroupBindingSnapshot_unavailable "telemetry_cgroup_bindings_unavailable"
  | Some (at_, _, b) =>
      if now - at_ <=? max_stale config
      then {| bindings_available := true; bindings_reason := "telemetry_cgroup_bindings_available"; bindings := b |}
      else CgroupBindingSnapshot_unavailable "telemetry_cgroup_bindings_stale"
  end.

Inductive manager_call :=
| Call_begin
| Call_reply (reply : CollectionReply f64)
| Call_error (generation : Z) (error : TelemetryError)
| Call_shutdown
| Call_snapshot
| Call_bindings.
Inductive manager_answer :=
| Answer_generation (r : result Z manager_failure)
| Answer_publish (r : result PublishResult manager_failure)
| Answer_done
| Answer_snapshot (s : TelemetrySnapshot)
| Answer_bindings (b : CgroupBindingSnapshot)
| Answer_none.

Definition manager_step (call : manager_call) (uuid : Uuid) (now : Z) (m : TelemetryManager)
  : TelemetryManager * manager_answer :=
  match call with
  | Call_begin => let '(m, r) := begin_sample m in (m, Answer_generation r)
  | Call_reply reply =>
      let '(m, r) := accept_reply config is_file read_entry env_roots uuid now reply m in (m, Answer_publish r)
  | Call_error generation error =>
      let '(m, r) := accept_error config uuid now generation error m in (m, Answer_publish r)
  | Call_shutdown => ((manager_shutdown uuid m).1, Answer_done)
  | Call_snapshot =>
      let '(m, r) := manager_snapshot config uuid now m in
      (m, match r with Ok s => Answer_snapshot (anonymous s) | Err _ => Answer_none end)
  | Call_bindings =>
      let '(m, r) := manager_cgroup_bindings config now m in
      (m, match r with Ok b => Answer_bindings b | Err _ => Answer_none end)
  end.

(** Whether the view takes what is said of a generation. *)
Definition view_accepts (generation : Z) (v : view) : PublishResult :=
  if v_down v then RejectedShuttingDown
  else if v_generation v =? generation then Published else DroppedLateGeneration.
Definition view_failed (error : bool * string) (v : view) : view :=
  {| v_generation := v_generation v; v_down := v_down v; v_last := v_last v; v_error := Some error |}.

Definition spec_error (generation : Z) (error : TelemetryError) (s : Sampler * view) : (Sampler * view) * manager_answer :=
  let answer := view_accepts generation s.2 in
  (if eqb answer Published then (s.1, view_failed (error_of error) s.2) else s, Answer_publish (Ok answer)).

Definition spec_snapshot (uuid : Uuid) (now generation : Z) (snapshot : PrivateSnapshot f64) (s : Sampler * view)
  : (Sampler * view) * manager_answer :=
  if eqb (view_accepts generation s.2) Published
  then match reduce_snapshot is_file read_entry uuid env_roots snapshot s.1 with
       | (sampler, Ok public) =>
           let b := (fun c => {| binding_cgroup_path := TelemetryHelper.cgroup_path c;
                                 binding_application_key := TelemetryHelper.cgroup_application_key c |}) <$>
                      TelemetryHelper.cgroups snapshot in
           ((sampler, {| v_generation := v_generation s.2; v_down := v_down s.2; v_last := Some (now, public, b);
                         v_error := None |}), Answer_publish (Ok Published))
       | (sampler, Err e) => ((sampler, s.2), Answer_publish (Err (sampling_failure e)))
       end
  else (s, Answer_publish (Ok DroppedLateGeneration)).

Definition spec_step (call : manager_call) (uuid : Uuid) (now : Z) (s : Sampler * view)
  : (Sampler * view) * manager_answer :=
  match call with
  | Call_begin =>
      if v_down s.2 then (s, Answer_generation (Err (Manager_Failed (Tel_Store Store_ShuttingDown))))
      else if v_generation s.2 <? u64_max
      then ((s.1, {| v_generation := v_generation s.2 + 1; v_down := v_down s.2; v_last := v_last s.2;
                     v_error := v_error s.2 |}), Answer_generation (Ok (v_generation s.2 + 1)))
      else (s, Answer_generation (Err (Manager_Failed (Tel_Store Store_GenerationExhausted))))
  | Call_reply reply =>
      match CollectionReply_validate reply with
      | Err e => (s, Answer_publish (Err (Manager_Failed (Tel_InvalidReply (frame_error_to_string e)))))
      | Ok _ =>
          match TelemetryHelper.body reply with
          | Body_Snapshot snapshot => spec_snapshot uuid now (TelemetryHelper.reply_gen reply) snapshot s
          | Body_Error e => spec_error (TelemetryHelper.reply_gen reply) (TelemetryError_of_helper e) s
          end
      end
  | Call_error generation error => spec_error generation error s
  | Call_shutdown =>
      ((Sampler_reset s.1, {| v_generation := v_generation s.2; v_down := true; v_last := v_last s.2;
                              v_error := v_error s.2 |}), Answer_done)
  | Call_snapshot => (s, Answer_snapshot (anonymous (view_snapshot now s.2)))
  | Call_bindings => (s, Answer_bindings (view_bindings now s.2))
  end.

Fixpoint manager_run (calls : list (manager_call * Uuid * Z)) (m : TelemetryManager) : list manager_answer :=
  match calls with
  | [] => []
  | (call, uuid, now) :: calls => let '(m, a) := manager_step call uuid now m in a :: manager_run calls m
  end.
Fixpoint spec_run (calls : list (manager_call * Uuid * Z)) (s : Sampler * view) : list manager_answer :=
  match calls with
  | [] => []
  | (call, uuid, now) :: calls => let '(s, a) := spec_step call uuid now s in a :: spec_run calls s
  end.

(** ** The simulation *)

Record simulates (now : Z) (s : StoreState) (v : view) : Prop := {
  sim_generation : current_generation s = v_generation v /\ 0 <= v_generation v <= u64_max;
  sim_down : shutting_down s = v_down v;
  sim_last : last_success_snapshot s = (fun l => l.1.2) <$> v_last v /\ last_success_mono s = (fun l => l.1.1) <$> v_last v;
  sim_bindings : v_down v = false -> cgroup_bindings s = match v_last v with Some l => l.2 | None => cgroup_bindings s end;
  sim_before : forall l, v_last v = Some l -> l.1.1 <= now;
  sim_shown : forall uuid later, now <= later ->
    anonymous (st_snapshot (refresh_snapshot config uuid later s)) = anonymous (view_snapshot later v);
}.

Lemma duration_since_past now at_ : at_ <= now -> duration_since now at_ = now - at_.
Proof. unfold duration_since. lia. Qed.

Lemma simulates_new now uuid : simulates now (StoreState_new uuid) view_new.
Proof. by split. Qed.

Lemma simulates_later now later s v : now <= later -> simulates now s v -> simulates later s v.
Proof. intros Hle []. split; try done. - intros l Hl. specialize (sim_before0 l Hl). lia. - intros. apply sim_shown0. lia. Qed.

(** What is shown once depends on the last success and on what is stored for
    the time it is fresh. *)
Lemma shown_by_last now uuid s v l : v_down v = false -> shutting_down s = false -> v_last v = Some l -> l.1.1 <= now ->
  last_success_snapshot s = Some l.1.2 -> last_success_mono s = Some l.1.1 ->
  (now - l.1.1 <= stale_after config -> anonymous (st_snapshot s) = anonymous (view_snapshot now v)) ->
  anonymous (st_snapshot (refresh_snapshot config uuid now s)) = anonymous (view_snapshot now v).
Proof.
  intros Hv Hs Hl Hle E1 E2 Hfresh. unfold refresh_snapshot. rewrite Hs, E1, E2, duration_since_past by done.
  destruct (now - l.1.1 <=? stale_after config) eqn:Ha; [apply Hfresh; lia |].
  unfold view_snapshot. rewrite Hv, Hl. destruct l as [[at_ good] b]. cbn [fst snd] in *. rewrite Ha.
  by destruct (now - at_ <=? max_stale config).
Qed.

Lemma simulates_publish now s v generation snapshot b : simulates now s v -> v_down v = false ->
  simulates now (publish_if_current generation snapshot b now s).1
    (if v_generation v =? generation
     then {| v_generation := v_generation v; v_down := v_down v; v_last := Some (now, snapshot, b); v_error := None |}
     else v).
Proof.
  intros Hsim Hv. unfold publish_if_current. pose proof Hsim as []. destruct sim_generation0 as [Eg Hg].
  rewrite sim_down0, Hv, Eg. destruct (v_generation v =? generation); cbn [negb fst]; [| done].
  split; simpl; try done.
  - by intros l [= <-].
  - intros uuid later Hle. apply (shown_by_last _ _ _ _ (now, snapshot, b)); simpl; try done.
    intros Ha. unfold view_snapshot. cbn [v_down v_last v_error]. by rewrite (proj2 (Z.leb_le _ _)) by lia.
Qed.

Lemma simulates_error now s v uuid generation error : simulates now s v -> v_down v = false ->
  simulates now (publish_error_if_current config uuid generation error now s).1
    (if v_generation v =? generation then view_failed (error_of error) v else v).
Proof.
  intros Hsim Hv. unfold publish_error_if_current. pose proof Hsim as []. destruct sim_generation0 as [Eg Hg].
  destruct sim_last0 as [E1 E2].
  rewrite sim_down0, Hv, Eg. destruct (v_generation v =? generation); cbn [negb fst]; [| done].
  split; simpl; try done.
  intros uuid' later Hle. destruct (v_last v) as [[[at_ good] b] |] eqn:El; simpl in E1, E2.
  - specialize (sim_before0 _ eq_refl). cbn [fst snd] in sim_before0.
    apply (shown_by_last _ _ _ _ (at_, good, b)); simpl; try done; [by rewrite sim_down0 | lia |].
    intros Ha. rewrite E1, E2. unfold failure_snapshot. rewrite duration_since_past by done.
    rewrite (proj2 (Z.ltb_ge _ _)) by lia. rewrite (proj2 (Z.ltb_ge _ _)) by lia.
    unfold view_snapshot, view_failed. cbn [v_down v_last v_error]. rewrite Hv, El, (proj2 (Z.leb_le _ _)) by lia.
    by destruct (error_of error).
  - unfold refresh_snapshot, put_snapshot. simpl. rewrite E1, E2. simpl.
    unfold view_snapshot, view_failed. cbn [v_down v_last v_error]. rewrite Hv, El.
    destruct (shutting_down s); by destruct (error_of error).
Qed.

Lemma simulates_shutdown now s v uuid : simulates now s v ->
  simulates now (mark_shutting_down uuid s)
    {| v_generation := v_generation v; v_down := true; v_last := v_last v; v_error := v_error v |}.
Proof.
  intros []. destruct sim_last0 as [E1 E2]. split; try done.
  intros uuid' later _. unfold refresh_snapshot, view_snapshot. simpl. rewrite E1. by destruct (v_last v).
Qed.

Lemma simulates_begin now s v : simulates now s v -> v_down v = false -> v_generation v < u64_max ->
  simulates now {| current_generation := v_generation v + 1; st_snapshot := st_snapshot s;
                   last_success_snapshot := last_success_snapshot s; last_success_mono := last_success_mono s;
                   cgroup_bindings := cgroup_bindings s; shutting_down := v_down v |}
    {| v_generation := v_generation v + 1; v_down := v_down v; v_last := v_last v; v_error := v_error v |}.
Proof.
  intros [] Hv Hg. split; simpl; try done; [lia |]. intros uuid later Hle.
  specialize (sim_shown0 uuid later Hle). revert sim_shown0. unfold refresh_snapshot. simpl. rewrite sim_down0.
  unfold view_snapshot. simpl. rewrite !Hv. destruct (last_success_snapshot s), (last_success_mono s); try done.
  destruct (_ <=? stale_after config); [done |]. by destruct (_ <=? max_stale config).
Qed.

(** A refresh only stores another snapshot, and a later one does not see it. *)
Lemma refresh_again now later uuid uuid' s : now <= later ->
  refresh_snapshot config uuid' later (refresh_snapshot config uuid now s) = refresh_snapshot config uuid' later s.
Proof.
  intros Hle. destruct s as [gen shown last mono b down]. unfold refresh_snapshot. cbn [shutting_down].
  destruct down; [done |]. cbn [last_success_snapshot last_success_mono].
  destruct last as [good |], mono as [at_ |]; try done.
  destruct (duration_since now at_ <=? stale_after config) eqn:Ha; [done |].
  assert (Hb : (duration_since later at_ <=? stale_after config) = false) by (revert Ha; unfold duration_since; lia).
  destruct (duration_since now at_ <=? max_stale config); unfold put_snapshot;
    cbn [shutting_down last_success_snapshot last_success_mono current_generation cgroup_bindings];
    rewrite Hb; by destruct (_ <=? max_stale config).
Qed.

Lemma refresh_keeps now uuid s : exists t, refresh_snapshot config uuid now s = put_snapshot t s.
Proof.
  unfold refresh_snapshot. assert (Hs : s = put_snapshot (st_snapshot s) s) by (by destruct s).
  repeat case_match; eauto.
Qed.

Lemma simulates_refresh now uuid s v : simulates now s v -> simulates now (refresh_snapshot config uuid now s) v.
Proof.
  intros Hsim. pose proof Hsim as []. destruct (refresh_keeps now uuid s) as [t E].
  split; [.. |]; [by rewrite E | by rewrite E | by rewrite E | by rewrite E | done |].
  intros uuid' later Hle. rewrite refresh_again by done. by apply sim_shown0.
Qed.

Definition manager_simulates (now : Z) (m : TelemetryManager) (s : Sampler * view) : Prop :=
  reducer m = s.1 /\ simulates now (store m) s.2.

Definition simulated (now : Z) (x : TelemetryManager * manager_answer) (y : (Sampler * view) * manager_answer) : Prop :=
  manager_simulates now x.1 y.1 /\ x.2 = y.2.

Lemma error_simulated now uuid generation error m s : manager_simulates now m s ->
  simulated now (let '(m, r) := accept_error config uuid now generation error m in (m, Answer_publish r))
    (spec_error generation error s).
Proof.
  intros [Er Hsim]. unfold accept_error, on_store, spec_error, view_accepts.
  destruct (v_down s.2) eqn:Hv.
  - unfold publish_error_if_current. rewrite (sim_down _ _ _ Hsim), Hv. by destruct m.
  - pose proof (simulates_error now _ _ uuid generation error Hsim Hv) as Hnext. revert Hnext.
    assert (Ha : (publish_error_if_current config uuid generation error now (store m)).2 =
                 if v_generation s.2 =? generation then Published else DroppedLateGeneration).
    { unfold publish_error_if_current. rewrite (sim_down _ _ _ Hsim), Hv, (proj1 (sim_generation _ _ _ Hsim)).
      by destruct (_ =? _). }
    revert Ha. destruct (publish_error_if_current _ _ _ _ _ _) as [store' a]. cbn [fst snd]. intros ->.
    by destruct (_ =? _).
Qed.

Lemma snapshot_simulated now uuid generation snapshot m s : manager_simulates now m s ->
  simulated now
    (let '(m, r) := accept_snapshot is_file read_entry env_roots uuid now generation snapshot m in (m, Answer_publish r))
    (spec_snapshot uuid now generation snapshot s).
Proof.
  intros [Er Hsim]. unfold accept_snapshot, spec_snapshot, view_accepts, bind, gets, is_current_generation.
  rewrite (sim_down _ _ _ Hsim), (proj1 (sim_generation _ _ _ Hsim)).
  destruct (v_down s.2) eqn:Hv; [done |]. destruct (v_generation s.2 =? generation) eqn:Hg; [| done].
  simpl. unfold on_reducer. rewrite Er.
  destruct (reduce_snapshot _ _ _ _ _ _) as [sampler [public | e]]; [| done]. simpl. unfold on_store.
  set (b := _ <$> TelemetryHelper.cgroups snapshot).
  pose proof (simulates_publish now _ _ generation public b Hsim Hv) as Hnext. revert Hnext. simpl.
  assert (Ha : (publish_if_current generation public b now (store m)).2 = Published).
  { unfold publish_if_current. by rewrite (sim_down _ _ _ Hsim), Hv, (proj1 (sim_generation _ _ _ Hsim)), Hg. }
  revert Ha. destruct (publish_if_current _ _ _ _ _) as [store' a]. cbn [fst snd]. intros ->. by rewrite Hg, Hv.
Qed.

Lemma bindings_simulated now s v : simulates now s v -> cgroup_bindings_at config now s = view_bindings now v.
Proof.
  intros []. destruct sim_last0 as [E1 E2]. unfold cgroup_bindings_at, view_bindings. rewrite sim_down0, E2.
  destruct (v_down v); [done |]. rewrite sim_bindings0 by done. destruct (v_last v) as [[[at_ good] b] |]; [| done]. simpl.
  rewrite duration_since_past by (by apply (sim_before0 _ eq_refl)).
  rewrite Z.ltb_antisym. by destruct (_ <=? _).
Qed.

Lemma step_simulated call uuid now m s : manager_simulates now m s ->
  simulated now (manager_step call uuid now m) (spec_step call uuid now s).
Proof.
  intros Hsim. pose proof Hsim as [Er Hst]. destruct call as [| reply | generation error | | |]; simpl.
  - unfold begin_sample, start_generation. rewrite (sim_down _ _ _ Hst), (proj1 (sim_generation _ _ _ Hst)).
    destruct (v_down s.2) eqn:Hv; [by destruct m |]. pose proof (proj2 (sim_generation _ _ _ Hst)) as Hrange.
    destruct (v_generation s.2 <? u64_max) eqn:Hg.
    + rewrite (proj2 (checked_u64_some _ (v_generation s.2 + 1))) by (split; [done | unfold in_u64, in_range; lia]).
      split; [split; [done |] | done]. rewrite <- Hv. apply simulates_begin; [done | done | lia].
    + assert (E : checked_u64 (v_generation s.2 + 1) = None).
      { unfold checked_u64, in_u64, in_range. case_match; [lia | done]. }
      rewrite E. by destruct m.
  - unfold accept_reply, bind, lift. destruct (CollectionReply_validate reply); [| done]. simpl.
    destruct (TelemetryHelper.body reply); [by apply snapshot_simulated | by apply error_simulated].
  - by apply error_simulated.
  - split; [split; [by rewrite <- Er | by apply simulates_shutdown] | done].
  - split; [split; [done | by apply simulates_refresh] |]. simpl. unfold snapshot_at. simpl.
    by rewrite (sim_shown _ _ _ Hst).
  - split; [done |]. simpl. by rewrite (bindings_simulated _ _ _ Hst).
Qed.

(** The clock of the calls does not go back. *)
Fixpoint times_from (now : Z) (calls : list (manager_call * Uuid * Z)) : Prop :=
  match calls with [] => True | (_, _, t) :: calls => now <= t /\ times_from t calls end.

Lemma run_simulated calls : forall now m s, times_from now calls -> manager_simulates now m s ->
  manager_run calls m = spec_run calls s.
Proof.
  induction calls as [| [[call uuid] t] calls IH]; [done |]. intros now m s [Hle Hcalls] [Er Hsim]. simpl.
  assert (Ht : manager_simulates t m s) by (split; [done | by apply (simulates_later now)]).
  pose proof (step_simulated call uuid t m s Ht) as [Hnext Ha]. revert Hnext Ha.
  destruct (manager_step _ _ _ _) as [m' a], (spec_step _ _ _ _) as [s' a']. cbn [fst snd]. intros Hnext ->.
  f_equal. by apply (IH t).
Qed.
End Refinement.

(** C25: The telemetry manager refines the view. Whatever calls are made of a
    new manager - samples begun, replies of the helper accepted, valid or not,
    for the current sample or a late one, failures, the end of the daemon -, at
    times that do not go back, its answers are those of a machine that only
    remembers the number of the last sample, the last good snapshot with the
    time it came, the last error since then and whether the end has come: a
    client sees the last good snapshot for three seconds, with the error since
    then as its reason, the same marked stale up to ten seconds, and after that
    a snapshot that shows nothing; the bindings of the last good snapshot as
    long as it is shown; and nothing after the end. *)
Theorem telemetry_manager_refines_view config is_file read_entry env_roots calls uuid now :
  0 <= stale_after config <= max_stale config -> times_from now calls ->
  manager_run config is_file read_entry env_roots calls (TelemetryManager_new uuid) =
  spec_run config is_file read_entry env_roots calls (Sampler_new, view_new).
Proof. intros Hconfig Htimes. apply (run_simulated _ Hconfig _ _ _ _ now); [done |]. split; [done | apply simulates_new]. Qed.

(** ** A run of the manager *)

Section StoreWitness.
Definition quiet_collection : PrivateSnapshot f64 :=
  snapshot_into_protocol
    {| raw_boot_id := "boot"; raw_euid := 1000; raw_captured_at_unix_ms := 1000;
       raw_captured_at_monotonic_ns := MetricValue_known 1000; raw_total_cpu_jiffies := 100;
       raw_logical_cpu_count := 2; raw_processes := [];
       raw_cgroups := [{| rc_cgroup_path := "/a"; rc_application_key := "editor";
                          rc_cpu_usage_usec := MetricValue_known 1; rc_memory_current_bytes := MetricValue_known 2;
                          rc_process_count := MetricValue_known 0 |}];
       raw_applications := [];
       raw_system_fd := {| rf_file_nr_allocated := MetricValue_known 1; rf_file_nr_max := MetricValue_known 2;
                           rf_file_max := MetricValue_known 2; rf_pressure_percent := MetricValue_known f64_one |};
       raw_excluded_other_uid := 0; raw_skipped_race := 0; raw_permission_denied_counts := []; raw_issues := [] |}.
Definition proc_gone : HelperError := {| code := ProcUnavailable; retryable := true; error_reason := "no /proc" |}.
Definition second : Z := 1000000000.
(** A reply, a failure, the reply to a sample given up, and the last good
    snapshot as it grows old. *)
Definition day_of_calls : list (manager_call * Uuid * Z) :=
  [(Call_snapshot, 1, 0); (Call_begin, 2, 0); (Call_reply (CollectionReply_snapshot 1 quiet_collection), 3, second);
   (Call_begin, 4, 2 * second); (Call_reply (CollectionReply_error 2 proc_gone), 5, 3 * second);
   (Call_snapshot, 6, 4 * second); (Call_reply (CollectionReply_snapshot 1 quiet_collection), 7, 5 * second);
   (Call_snapshot, 8, 6 * second); (Call_bindings, 9, 7 * second); (Call_snapshot, 10, 12 * second);
   (Call_bindings, 11, 12 * second); (Call_shutdown, 12, 13 * second); (Call_begin, 13, 14 * second);
   (Call_reply (CollectionReply_snapshot 2 quiet_collection), 14, 15 * second); (Call_snapshot, 15, 16 * second)].
Definition said (a : manager_answer) : string :=
  match a with
  | Answer_generation (Ok _) => "begun"
  | Answer_publish (Ok Published) => "published"
  | Answer_publish (Ok DroppedLateGeneration) => "late"
  | Answer_snapshot s => tel_reason s
  | Answer_bindings b => bindings_reason b
  | Answer_done => "done"
  | _ => "refused"
  end.
Definition said_of_the_day : list string :=
  ["collector_unavailable"; "begun"; "published"; "begun"; "published"; "no /proc"; "late"; "stale";
   "telemetry_cgroup_bindings_available"; "telemetry_stale"; "telemetry_cgroup_bindings_stale"; "done";
   "refused"; "late"; "shutting_down"]%string.

Lemma telemetry_manager_refines_view_witness :
  said <$> spec_run TelemetryStoreConfig_default (fun _ => false) (fun _ => None) [] day_of_calls (Sampler_new, view_new)
  = said_of_the_day.
Proof.
  rewrite <- (telemetry_manager_refines_view TelemetryStoreConfig_default (fun _ => false) (fun _ => None) []
                day_of_calls 0 0); [vm_compute; reflexivity | vm_compute; split; discriminate |].
  simpl. unfold second. lia.
Defined.
End StoreWitness.
