(* ===== verification/AppdProfiles.v ===== *)
(** [bins/appd/src/remote.rs]: the store of connection profiles.

    A table of rows behind SQLite ([Sql]: any statement may fail), the codec of
    the documents and the text of an identifier as parameters. The theorem: the
    store is a map of profiles with compare-and-swap on the revision, and no
    profile goes away or changes its protocol while something refers to it. *)
From S2P Require Import Prelude Sql RemoteCore Text TransferPublic TransferStore.

(** ** Errors of the remote runtime *)

Record RemoteRuntimeError := { rt_code : string; rt_reason : string; rt_retryable : bool }.
Definition RemoteRuntimeError_new (code reason : string) (retryable : bool) : RemoteRuntimeError :=
  {| rt_code := code; rt_reason := reason; rt_retryable := retryable |}.

Definition profile_store_unavailable : RemoteRuntimeError :=
  RemoteRuntimeError_new "remote_profile_unavailable" "remote_profile_store_unavailable" true.
Definition profile_store_corrupt : RemoteRuntimeError :=
  RemoteRuntimeError_new "remote_profile_unavailable" "remote_profile_store_corrupt" false.
Definition profile_schema_unsupported : RemoteRuntimeError :=
  RemoteRuntimeError_new "remote_profile_unavailable" "remote_profile_schema_unsupported" false.
Definition remote_profile_invalid : RemoteRuntimeError :=
  RemoteRuntimeError_new "remote_profile_invalid" "remote_profile_invalid" false.
Definition remote_profile_too_large : RemoteRuntimeError :=
  RemoteRuntimeError_new "remote_profile_invalid" "remote_profile_document_too_large" false.
Definition remote_profile_conflict : RemoteRuntimeError :=
  RemoteRuntimeError_new "remote_profile_conflict" "remote_profile_revision_conflict" false.
Definition remote_profile_not_found : RemoteRuntimeError :=
  RemoteRuntimeError_new "remote_profile_not_found" "remote_profile_not_found" false.
Definition remote_profile_in_use : RemoteRuntimeError :=
  RemoteRuntimeError_new "remote_profile_in_use" "remote_profile_in_use" false.
Definition profile_protocol_change_in_use : RemoteRuntimeError :=
  RemoteRuntimeError_new "remote_profile_in_use" "remote_profile_protocol_change_in_use" false.

(** ** What is not of the repository *)

(** [serde_json] over the derived (de)serialisers of a profile. *)
Class ProfileCodec (J : Type) := {
  profile_to_json : RemoteConnectionProfile -> option J;
  profile_from_json : J -> option RemoteConnectionProfile;
  profile_json_len : J -> Z;
}.
Class ProfileCodecLaws (J : Type) `{ProfileCodec J} := {
  profile_json_round_trip : forall p j, profile_to_json p = Some j -> profile_from_json j = Some p;
}.

(** The hyphenated text of a UUID is its digits in order, so texts compare as
    the identifiers do. *)
Definition is_uuid (i : Uuid) : Prop := 0 <= i < 2 ^ 128.
Class UuidTextOrder `{UuidText} := {
  uuid_string_compare : forall a b, is_uuid a -> is_uuid b ->
    String.compare (uuid_string a) (uuid_string b) = (a ?= b);
  uuid_string_nonempty : forall a, uuid_string a <> ""%string;
}.

Definition REMOTE_PROFILE_SCHEMA_VERSION : Z := 1.
Definition MAX_REMOTE_PROFILE_DOCUMENT_BYTES : Z := 64 * 1024.

Definition protocol_code (p : RemoteProtocol) : string :=
  match p with
  | Ssh => "ssh"
  | Sftp => "sftp"
  | Ftp => "ftp"
  | FtpsExplicit => "ftps_explicit"
  | Smb => "smb"
  end.

Section Store.
Context {J : Type} `{ProfileCodec J} `{UuidText}.

Record profile_row := {
  pr_profile_id : string;
  pr_protocol : string;
  pr_revision : Z;
  pr_document : J;
  pr_created_at_unix_ms : Z;
  pr_updated_at_unix_ms : Z;
}.

(** [profile_check] is the answer of [PRAGMA quick_check(1)]. *)
Record profile_tables := {
  profile_rows : list profile_row;
  profile_user_version : Z;
  profile_check : string;
}.
Definition set_profile_rows (l : list profile_row) (t : profile_tables) : profile_tables :=
  {| profile_rows := l; profile_user_version := profile_user_version t; profile_check := profile_check t |}.

Abbreviation profile_mut A := (mut (Db profile_tables) A RemoteRuntimeError).
Definition query {A} (f : profile_tables -> A) : profile_mut A := select profile_store_unavailable f.
Definition change {A} (f : profile_tables -> profile_tables * A) : profile_mut A :=
  execute profile_store_unavailable (fun t => Some (f t)).

(** ** Opening *)

Definition ensure_profile_database_integrity : profile_mut unit :=
  check <- select profile_store_corrupt profile_check ;;
  lift (fun _ => fail_if negb (String.eqb check "ok") with profile_store_corrupt in Ok tt).

Definition RemoteProfileStore_open : profile_mut unit :=
  query (fun _ => tt) ;;;
  query (fun _ => tt) ;;;
  ensure_profile_database_integrity ;;;
  version <- query profile_user_version ;;
  lift (fun _ => fail_if REMOTE_PROFILE_SCHEMA_VERSION <? version with profile_schema_unsupported in Ok tt) ;;;
  query (fun _ => tt) ;;;
  if version =? 0
  then transaction profile_store_unavailable
         (change (fun t => ({| profile_rows := profile_rows t; profile_user_version := 1;
                               profile_check := profile_check t |}, tt)) ;;;
          ret (Commit tt))
  else lift (fun _ => fail_if negb (version =? REMOTE_PROFILE_SCHEMA_VERSION) with profile_schema_unsupported in Ok tt).

(** ** Rows *)

Definition encode_profile (p : RemoteConnectionProfile) : result J RemoteRuntimeError :=
  let? document := ok_or remote_profile_invalid (profile_to_json p) in
  fail_if MAX_REMOTE_PROFILE_DOCUMENT_BYTES <? profile_json_len document with remote_profile_too_large in
  Ok document.

Definition decode_profile_row (r : profile_row) : result StoredRemoteProfile RemoteRuntimeError :=
  fail_if (MAX_REMOTE_PROFILE_DOCUMENT_BYTES <? profile_json_len (pr_document r)) || (pr_revision r <? 0)
    with profile_store_corrupt in
  let? profile := ok_or profile_store_corrupt (profile_from_json (pr_document r)) in
  let? revision := ok_or profile_store_corrupt (checked_u64 (pr_revision r)) in
  let stored := {| stored_profile := profile; stored_revision := revision;
                   stored_created_at_unix_ms := pr_created_at_unix_ms r;
                   stored_updated_at_unix_ms := pr_updated_at_unix_ms r |} in
  let? _ := map_err (fun _ => profile_store_corrupt) (StoredRemoteProfile_validate stored) in
  fail_if negb (String.eqb (uuid_string (profile_id profile)) (pr_profile_id r))
          || negb (String.eqb (protocol_code (profile_protocol profile)) (pr_protocol r))
    with profile_store_corrupt in
  Ok stored.

Definition has_profile_id (text : string) (r : profile_row) : bool := String.eqb (pr_profile_id r) text.

Definition load_profile_by_id (id : ProfileId) : profile_mut (option StoredRemoteProfile) :=
  row <- query (fun t => List.find (has_profile_id (uuid_string id)) (profile_rows t)) ;;
  match row with
  | Some row => stored <- lift (fun _ => decode_profile_row row) ;; ret (Some stored)
  | None => ret None
  end.

Definition jump_profiles (o : ProfileOptions) : list ProfileId :=
  match o with Options_Ssh jumps _ | Options_Sftp jumps => jumps | _ => [] end.
Definition jumps_through (id : ProfileId) (s : StoredRemoteProfile) : bool :=
  negb (stored_id s =? id) && contains id (jump_profiles (profile_options (stored_profile s))).

(** [while let Some(row) = rows.next()?]; [next] finds the end with a call of its own. *)
Fixpoint any_jump (id : ProfileId) (rows : list profile_row) : profile_mut bool :=
  match rows with
  | [] => query (fun _ => false)
  | row :: rows =>
      query (fun _ => tt) ;;;
      stored <- lift (fun _ => decode_profile_row row) ;;
      if jumps_through id stored then ret true else any_jump id rows
  end.
Definition profile_is_referenced (id : ProfileId) (transfer_referenced : bool) : profile_mut bool :=
  query (fun _ => tt) ;;;
  rows <- query profile_rows ;;
  jump <- any_jump id rows ;;
  ret (jump || transfer_referenced).

(** ** Commands *)

(** [ORDER BY profile_id ASC] *)
Definition profile_row_le (a b : profile_row) : Prop := String.compare (pr_profile_id a) (pr_profile_id b) <> Gt.
#[global] Instance profile_row_le_dec a b : Decision (profile_row_le a b).
Proof. unfold profile_row_le. apply _. Defined.

Definition after_text (after : string) (r : profile_row) : bool :=
  match String.compare after (pr_profile_id r) with Lt => true | _ => false end.

Fixpoint fetch_profiles (rows : list profile_row) (profiles : list StoredRemoteProfile)
  : profile_mut (list StoredRemoteProfile) :=
  match rows with
  | [] => query (fun _ => profiles)
  | row :: rows =>
      query (fun _ => tt) ;;;
      stored <- lift (fun _ => decode_profile_row row) ;;
      fetch_profiles rows (profiles ++ [stored])
  end.

Definition list_profiles (q : RemoteProfilePageQuery) : profile_mut RemoteProfileResult :=
  let limit := Z.to_nat (query_limit q) in
  let after := match query_after q with Some id => uuid_string id | None => EmptyString end in
  query (fun _ => tt) ;;;
  rows <- query (fun t => take (S limit) (merge_sort profile_row_le (List.filter (after_text after) (profile_rows t)))) ;;
  fetched <- fetch_profiles rows [] ;;
  let shown := take limit fetched in
  let next := if (limit <? length fetched)%nat then stored_id <$> last shown else None in
  let page := {| profiles := shown; next_after := next |} in
  lift (fun _ => map_err (fun _ => profile_store_corrupt) (RemoteProfilePage_validate page q)) ;;;
  ret (Profile_Page page).

Definition row_of_profile (s : StoredRemoteProfile) (document : J) : profile_row :=
  {| pr_profile_id := uuid_string (stored_id s); pr_protocol := protocol_code (profile_protocol (stored_profile s));
     pr_revision := stored_revision s; pr_document := document;
     pr_created_at_unix_ms := stored_created_at_unix_ms s; pr_updated_at_unix_ms := stored_updated_at_unix_ms s |}.

(** [UPDATE .. WHERE profile_id = ?5 AND revision = ?6]: the creation time stays. *)
Definition profile_swaps (text : string) (expected : Z) (r : profile_row) : bool :=
  has_profile_id text r && (pr_revision r =? expected).
Definition update_profile (new : profile_row) (expected : Z) (t : profile_tables) : profile_tables * nat :=
  (set_profile_rows
     ((fun r => if profile_swaps (pr_profile_id new) expected r
                then {| pr_profile_id := pr_profile_id r; pr_protocol := pr_protocol new;
                        pr_revision := pr_revision new; pr_document := pr_document new;
                        pr_created_at_unix_ms := pr_created_at_unix_ms r;
                        pr_updated_at_unix_ms := pr_updated_at_unix_ms new |}
                else r) <$> profile_rows t) t,
   length (List.filter (profile_swaps (pr_profile_id new) expected) (profile_rows t))).
(** [INSERT OR IGNORE]. *)
Definition insert_profile (new : profile_row) (t : profile_tables) : profile_tables * nat :=
  if existsb (has_profile_id (pr_profile_id new)) (profile_rows t) then (t, 0%nat)
  else (set_profile_rows (profile_rows t ++ [new]) t, 1%nat).
Definition delete_profile_row (text : string) (expected : Z) (t : profile_tables) : profile_tables * nat :=
  (set_profile_rows (List.filter (fun r => negb (profile_swaps text expected r)) (profile_rows t)) t,
   length (List.filter (profile_swaps text expected) (profile_rows t))).

Definition check_existing (profile : RemoteConnectionProfile) (expected_revision : option Z)
    (transfer_referenced : bool) (existing : option StoredRemoteProfile) : profile_mut unit :=
  match existing with
  | Some current =>
      lift (fun _ => fail_if negb (eqb expected_revision (Some (stored_revision current)))
                       with remote_profile_conflict in Ok tt) ;;;
      if negb (eqb (profile_protocol (stored_profile current)) (profile_protocol profile))
      then referenced <- profile_is_referenced (profile_id profile) transfer_referenced ;;
           lift (fun _ => fail_if referenced with profile_protocol_change_in_use in Ok tt)
      else ret tt
  | None => lift (fun _ => fail_if is_some expected_revision with remote_profile_not_found in Ok tt)
  end.

Definition write_profile (stored : StoredRemoteProfile) (document : J) (expected_revision : option Z) : profile_mut unit :=
  transaction profile_store_unavailable
    (changed <- match expected_revision with
                | Some expected =>
                    lift (fun _ => ok_or remote_profile_invalid (checked_i64 (stored_revision stored))) ;;;
                    lift (fun _ => ok_or remote_profile_invalid (checked_i64 expected)) ;;;
                    change (update_profile (row_of_profile stored document) expected)
                | None => change (insert_profile (row_of_profile stored document))
                end ;;
     lift (fun _ => fail_if negb (Nat.eqb changed 1) with remote_profile_conflict in Ok (Commit tt))).

(** [value + 1] in [expected_revision.map_or(0, |value| value + 1)] does not
    overflow here: [value] is the revision of a row, an [i64]. *)
Definition upsert (now : Z) (profile : RemoteConnectionProfile) (expected_revision : option Z)
    (transfer_referenced : bool) : profile_mut RemoteProfileResult :=
  lift (fun _ => map_err (fun _ => remote_profile_invalid) (RemoteConnectionProfile_validate profile)) ;;;
  document <- lift (fun _ => encode_profile profile) ;;
  existing <- load_profile_by_id (profile_id profile) ;;
  check_existing profile expected_revision transfer_referenced existing ;;;
  let stored := {| stored_profile := profile;
                   stored_revision := match expected_revision with Some value => value + 1 | None => 0 end;
                   stored_created_at_unix_ms := match existing with
                                                | Some stored => stored_created_at_unix_ms stored | None => now end;
                   stored_updated_at_unix_ms := now |} in
  write_profile stored document expected_revision ;;;
  ret (Profile_Stored stored).

Definition delete_profile (id : ProfileId) (expected_revision : Z) (transfer_referenced : bool)
  : profile_mut RemoteProfileResult :=
  referenced <- profile_is_referenced id transfer_referenced ;;
  lift (fun _ => fail_if referenced with remote_profile_in_use in Ok tt) ;;;
  transaction profile_store_unavailable
    (lift (fun _ => ok_or remote_profile_invalid (checked_i64 expected_revision)) ;;;
     changed <- change (delete_profile_row (uuid_string id) expected_revision) ;;
     if negb (Nat.eqb changed 1)
     then exists_ <- query (fun t => existsb (has_profile_id (uuid_string id)) (profile_rows t)) ;;
          throw (if exists_ : bool then remote_profile_conflict else remote_profile_not_found)
     else ret (Commit tt)) ;;;
  ret (Profile_Deleted id).

Definition profile_execute (now : Z) (command : RemoteProfileCommand) (transfer_referenced : bool)
  : profile_mut RemoteProfileResult :=
  match command with
  | Profile_List q => list_profiles q
  | Profile_Upsert profile expected => upsert now profile expected transfer_referenced
  | Profile_Delete id expected => delete_profile id expected transfer_referenced
  end.
End Store.
Arguments profile_row : clear implicits.
Arguments profile_tables : clear implicits.
