(* ===== verification/AppdProfilesFacts.v ===== *)
(** The store of connection profiles ([AppdProfiles]) is a map of profiles: any
    command either does to the table what [profile_spec] does to the map and
    answers the same, or a statement failed and nothing changed. *)
From S2P Require Import Prelude Sql RemoteCore Text TransferPublic TransferStore AppdProfiles.

Section ProfileFacts.
Context {J : Type} `{ProfileCodecLaws J} `{UuidTextOrder}.

Abbreviation profile_map := (gmap Z StoredRemoteProfile).
Abbreviation tables := (profile_tables J).

(** ** The map *)

Definition referenced_in (id : ProfileId) (transfer_referenced : bool) (m : profile_map) : bool :=
  existsb (jumps_through id) (btree_values m) || transfer_referenced.

Definition after_spec (q : RemoteProfilePageQuery) (s : StoredRemoteProfile) : bool :=
  match query_after q with Some id => id <? stored_id s | None => true end.
Definition page_spec (q : RemoteProfilePageQuery) (m : profile_map) : RemoteProfilePage :=
  let limit := Z.to_nat (query_limit q) in
  let found := List.filter (after_spec q) (btree_values m) in
  {| profiles := take limit found;
     next_after := if (limit <? length found)%nat then stored_id <$> last (take limit found) else None |}.

Definition upsert_spec (now : Z) (p : RemoteConnectionProfile) (expected : option Z) (referenced : bool)
    (m : profile_map) : profile_map * result RemoteProfileResult RemoteRuntimeError :=
  let store revision created :=
    let s := {| stored_profile := p; stored_revision := revision; stored_created_at_unix_ms := created;
                stored_updated_at_unix_ms := now |} in
    (<[profile_id p := s]> m, Ok (Profile_Stored s)) in
  if is_err (RemoteConnectionProfile_validate p) then (m, Err remote_profile_invalid)
  else match encode_profile (J := J) p with
  | Err e => (m, Err e)
  | Ok _ =>
      match m !! profile_id p, expected with
      | None, None => store 0 now
      | None, Some _ => (m, Err remote_profile_not_found)
      | Some _, None => (m, Err remote_profile_conflict)
      | Some current, Some expected =>
          if negb (stored_revision current =? expected) then (m, Err remote_profile_conflict)
          else if negb (eqb (profile_protocol (stored_profile current)) (profile_protocol p))
                  && referenced_in (profile_id p) referenced m
          then (m, Err profile_protocol_change_in_use)
          else if i64_max <? expected + 1 then (m, Err remote_profile_invalid)
          else store (expected + 1) (stored_created_at_unix_ms current)
      end
  end.

Definition delete_spec (id : ProfileId) (expected : Z) (referenced : bool) (m : profile_map)
  : profile_map * result RemoteProfileResult RemoteRuntimeError :=
  if referenced_in id referenced m then (m, Err remote_profile_in_use)
  else if i64_max <? expected then (m, Err remote_profile_invalid)
  else match m !! id with
  | Some current => if stored_revision current =? expected then (delete id m, Ok (Profile_Deleted id))
                    else (m, Err remote_profile_conflict)
  | None => (m, Err remote_profile_not_found)
  end.

Definition profile_spec (now : Z) (c : RemoteProfileCommand) (referenced : bool) (m : profile_map)
  : profile_map * result RemoteProfileResult RemoteRuntimeError :=
  match c with
  | Profile_List q => (m, Ok (Profile_Page (page_spec q m)))
  | Profile_Upsert p expected => upsert_spec now p expected referenced m
  | Profile_Delete id expected => delete_spec id expected referenced m
  end.

(** ** Programs that do one thing or fail by a fault *)

Definition does {A} (t : tables) (p : mut (Db tables) A RemoteRuntimeError) (t' : tables)
    (v : result A RemoteRuntimeError) : Prop :=
  forall s s' r, p s = (s', r) -> db_tables s = t ->
    (db_tables s' = t' /\ r = v) \/ (db_tables s' = t /\ r = Err profile_store_unavailable).

Lemma does_bind {A B} t (p : mut (Db tables) A _) (k : A -> mut (Db tables) B _) a t' v :
  does t p t (Ok a) -> does t (k a) t' v -> does t (bind p k) t' v.
Proof.
  intros Hp Hk s s' r Hrun Ht. unfold bind in Hrun. destruct (p s) as [s1 r1] eqn:Hp1.
  destruct (Hp _ _ _ Hp1 Ht) as [[Ht1 ->] | [Ht1 ->]]; [by eapply Hk |]. injection Hrun as <- <-. by right.
Qed.
Lemma does_bind_err {A B} t (p : mut (Db tables) A _) (k : A -> mut (Db tables) B _) e t' :
  does t p t' (Err e) -> does t (bind p k) t' (Err e).
Proof.
  intros Hp s s' r Hrun Ht. unfold bind in Hrun. destruct (p s) as [s1 r1] eqn:Hp1.
  destruct (Hp _ _ _ Hp1 Ht) as [[Ht1 ->] | [Ht1 ->]]; injection Hrun as <- <-; auto.
Qed.
(** After a change, only what cannot fail. *)
Lemma does_then {A B} t (p : mut (Db tables) A _) (k : A -> mut (Db tables) B _) a t' v :
  does t p t' (Ok a) -> (forall s, k a s = (s, v)) -> does t (bind p k) t' v.
Proof.
  intros Hp Hk s s' r Hrun Ht. unfold bind in Hrun. destruct (p s) as [s1 r1] eqn:Hp1.
  destruct (Hp _ _ _ Hp1 Ht) as [[Ht1 ->] | [Ht1 ->]].
  - rewrite Hk in Hrun. injection Hrun as <- <-. auto.
  - injection Hrun as <- <-. auto.
Qed.
Lemma does_pure {A} t (p : mut (Db tables) A _) v : (forall s, p s = (s, v)) -> does t p t v.
Proof. intros Hp s s' r Hrun Ht. rewrite Hp in Hrun. injection Hrun as <- <-. auto. Qed.
Lemma does_query {A} t (f : tables -> A) : does t (query f) t (Ok (f t)).
Proof.
  intros s s' [a | e] Hrun <-; unfold query in Hrun.
  - apply select_ok in Hrun as [-> ->]. auto.
  - apply execute_err in Hrun as [-> ->]. auto.
Qed.
Lemma does_change {A} t (f : tables -> tables * A) : does t (change f) (f t).1 (Ok (f t).2).
Proof.
  intros s s' [a | e] Hrun <-; unfold change in Hrun.
  - apply execute_ok in Hrun. injection Hrun as Hf. rewrite Hf. auto.
  - apply execute_err in Hrun as [-> ->]. auto.
Qed.
Lemma does_transaction {A} t (p : mut (Db tables) (ending A) _) t' a :
  does t p t' (Ok (Commit a)) -> does t (transaction profile_store_unavailable p) t' (Ok a).
Proof.
  intros Hp s s' [b | e] Hrun Ht.
  - apply transaction_ok in Hrun as (s0 & s1 & x & Ht0 & Hrun & -> & Ht').
    destruct (Hp _ _ _ Hrun) as [[Ht1 [= ->]] | [_ [=]]]; [congruence |]. left. simpl. split; [congruence | done].
  - apply transaction_err in Hrun as (Ht' & [-> | (s0 & s1 & Ht0 & Hrun)]); [right; split; [congruence | done] |].
    destruct (Hp _ _ _ Hrun) as [[_ [=]] | [_ [= ->]]]; [congruence |]. right. split; [congruence | done].
Qed.
Lemma does_transaction_err {A} t (p : mut (Db tables) (ending A) _) t' e :
  does t p t' (Err e) -> does t (transaction profile_store_unavailable p) t (Err e).
Proof.
  intros Hp s s' [b | e'] Hrun Ht.
  - apply transaction_ok in Hrun as (s0 & s1 & x & Ht0 & Hrun & -> & Ht').
    destruct (Hp _ _ _ Hrun) as [[_ [=]] | [_ [=]]]. congruence.
  - apply transaction_err in Hrun as (Ht' & [-> | (s0 & s1 & Ht0 & Hrun)]); [right; split; [congruence | done] |].
    destruct (Hp _ _ _ Hrun) as [[_ [= ->]] | [_ [= ->]]]; [congruence | left | right]; (split; [congruence | done]).
Qed.

(** ** A table that holds a map *)

Record represents (l : list (profile_row J)) (m : profile_map) : Prop := {
  rep_ids : NoDup (pr_profile_id <$> l);
  rep_row : forall r, r ∈ l -> exists s, m !! stored_id s = Some s /\ decode_profile_row r = Ok s;
  rep_key : forall k s, m !! k = Some s -> k = stored_id s /\ is_uuid k /\ stored_revision s <= i64_max;
  rep_stored : forall k s, m !! k = Some s -> exists r, r ∈ l /\ decode_profile_row r = Ok s;
}.

Lemma uuid_string_inj_range a b : is_uuid a -> is_uuid b -> uuid_string a = uuid_string b -> a = b.
Proof.
  intros Ha Hb E. apply Z.compare_eq. rewrite <- uuid_string_compare by done. rewrite E. rewrite uuid_string_compare by done.
  apply Z.compare_refl.
Qed.

Lemma decode_profile_fields r s : decode_profile_row r = Ok s ->
  uuid_string (stored_id s) = pr_profile_id r /\ stored_revision s = pr_revision r /\ 0 <= pr_revision r /\
  protocol_code (profile_protocol (stored_profile s)) = pr_protocol r /\
  stored_created_at_unix_ms s = pr_created_at_unix_ms r /\ StoredRemoteProfile_validate s = Ok tt.
Proof.
  unfold decode_profile_row. intros Hd. bool_facts.
  apply result_bind_ok in Hd as (p & _ & Hd). apply result_bind_ok in Hd as (rev & Hrev & Hd).
  apply result_bind_ok in Hd as ([] & Hval & Hd). bool_facts. injection Hd as <-.
  destruct (checked_u64 (pr_revision r)) eqn:Hc; [| done]. injection Hrev as <-.
  apply checked_u64_some in Hc as [-> _]. apply map_err_ok in Hval. split_and!; try done; by apply String.eqb_eq.
Qed.

(** The row written for a profile decodes to it. *)
Lemma decode_row_of_profile s document :
  encode_profile (stored_profile s) = Ok document -> 0 <= stored_revision s <= i64_max ->
  StoredRemoteProfile_validate s = Ok tt -> decode_profile_row (row_of_profile s document) = Ok s.
Proof.
  intros He Hrev Hval. unfold encode_profile in He. apply result_bind_ok in He as (j & Hj & He).
  destruct (profile_to_json (stored_profile s)) as [j' |] eqn:Hto; [| done]. injection Hj as ->. bool_facts.
  injection He as <-. unfold decode_profile_row, row_of_profile. simpl.
  rewrite (profile_json_round_trip _ _ Hto), (proj2 (Z.ltb_ge _ _)) by done.
  rewrite (proj2 (Z.ltb_ge (stored_revision s) 0)) by lia. simpl.
  unfold checked_u64. replace (in_u64 (stored_revision s)) with true by (unfold i64_max in Hrev; width). simpl.
  destruct s as [p rev created updated]. simpl in *. rewrite Hval. simpl. by rewrite !String.eqb_refl.
Qed.

Lemma decoded_key l m r s : represents l m -> r ∈ l -> decode_profile_row r = Ok s ->
  m !! stored_id s = Some s /\ is_uuid (stored_id s).
Proof.
  intros Hrep Hr Hd. destruct (rep_row _ _ Hrep r Hr) as (s' & Hs' & Hd'). replace s' with s in * by congruence.
  split; [done |]. by destruct (rep_key _ _ Hrep _ _ Hs') as (_ & Hu & _).
Qed.

(** The row of an identifier is the one that holds its profile. *)
Lemma row_of_id l m k r s : represents l m -> is_uuid k -> r ∈ l -> decode_profile_row r = Ok s ->
  has_profile_id (uuid_string k) r = true <-> stored_id s = k.
Proof.
  intros Hrep Hk Hr Hd. unfold has_profile_id. rewrite String.eqb_eq.
  destruct (decode_profile_fields _ _ Hd) as (<- & _). split; [| by intros ->].
  apply uuid_string_inj_range; [by eapply decoded_key | done].
Qed.

Lemma find_row l m k : represents l m -> is_uuid k ->
  match List.find (has_profile_id (uuid_string k)) l with
  | Some r => r ∈ l /\ exists s, m !! k = Some s /\ decode_profile_row r = Ok s
  | None => m !! k = None
  end.
Proof.
  intros Hrep Hk. destruct (List.find _ l) as [r |] eqn:Hf.
  - apply List.find_some in Hf as [Hr%list_elem_of_In Hid]. split; [done |].
    destruct (rep_row _ _ Hrep r Hr) as (s & Hs & Hd). exists s. split; [| done].
    apply (row_of_id l m k r s) in Hid; [by subst | done ..].
  - destruct (m !! k) as [s |] eqn:Hs; [| done]. exfalso.
    destruct (rep_stored _ _ Hrep _ _ Hs) as (r & Hr & Hd). destruct (rep_key _ _ Hrep _ _ Hs) as (-> & _).
    pose proof (List.find_none _ _ Hf r (proj1 (list_elem_of_In _ _) Hr)) as Hid.
    rewrite (proj2 (row_of_id l m _ r s Hrep Hk Hr Hd) eq_refl) in Hid. done.
Qed.

(** ** The profiles of the rows *)

Definition row_profile (r : profile_row J) : option StoredRemoteProfile :=
  match decode_profile_row r with Ok s => Some s | Err _ => None end.
Definition row_profiles (l : list (profile_row J)) : list StoredRemoteProfile := omap row_profile l.
Definition decodes (r : profile_row J) : Prop := exists s, decode_profile_row r = Ok s.

Lemma row_profiles_cons r s l : decode_profile_row r = Ok s -> row_profiles (r :: l) = s :: row_profiles l.
Proof. intros Hd. unfold row_profiles, row_profile at 1. simpl. unfold row_profile at 1. by rewrite Hd. Qed.

Lemma rep_decodes l m : represents l m -> Forall decodes l.
Proof. intros Hrep. apply Forall_forall. intros r Hr. destruct (rep_row _ _ Hrep r Hr) as (s & _ & Hd). by exists s. Qed.

Lemma row_profiles_elem l s : s ∈ row_profiles l <-> exists r, r ∈ l /\ decode_profile_row r = Ok s.
Proof.
  unfold row_profiles. rewrite list_elem_of_omap. unfold row_profile. split; intros (r & Hr & Hd); exists r; (split; [done |]).
  - by destruct (decode_profile_row r); simplify_eq.
  - by rewrite Hd.
Qed.

Lemma row_profiles_ids l : Forall decodes l -> (fun s => uuid_string (stored_id s)) <$> row_profiles l = pr_profile_id <$> l.
Proof.
  induction 1 as [| r l [s Hd] _ IH]; [done |]. rewrite (row_profiles_cons _ _ _ Hd), !fmap_cons, IH.
  f_equal. by apply decode_profile_fields.
Qed.

Lemma btree_ids l m : represents l m -> NoDup (stored_id <$> btree_values m).
Proof.
  intros Hrep. replace (stored_id <$> btree_values m) with (btree_entries m).*1.
  - rewrite btree_entries_perm. apply NoDup_fst_map_to_list.
  - unfold btree_values. rewrite <- list_fmap_compose. apply list_fmap_ext. intros i [k s] Hi. simpl.
    apply list_elem_of_lookup_2, btree_entries_elem in Hi. by apply (rep_key _ _ Hrep).
Qed.

Lemma row_profiles_perm l m : represents l m -> row_profiles l ≡ₚ btree_values m.
Proof.
  intros Hrep. apply NoDup_Permutation.
  - eapply NoDup_fmap_1. rewrite (row_profiles_ids l (rep_decodes _ _ Hrep)). apply (rep_ids _ _ Hrep).
  - eapply NoDup_fmap_1. by eapply btree_ids.
  - intros s. rewrite row_profiles_elem, btree_values_elem. split.
    + intros (r & Hr & Hd). eexists. by eapply decoded_key.
    + intros (k & Hk). by apply (rep_stored _ _ Hrep) in Hk.
Qed.

Lemma existsb_perm {A} (f : A -> bool) (l1 l2 : list A) : l1 ≡ₚ l2 -> existsb f l1 = existsb f l2.
Proof. induction 1; simpl; [done | congruence | destruct (f x), (f y); done | congruence]. Qed.

(** ** Reads *)

Lemma does_load t l m k : profile_rows t = l -> represents l m -> is_uuid k ->
  does t (load_profile_by_id k) t (Ok (m !! k)).
Proof.
  intros <- Hrep Hk. unfold load_profile_by_id. eapply does_bind; [apply does_query |]. simpl.
  pose proof (find_row _ _ _ Hrep Hk) as Hf. destruct (List.find _ _) as [r |].
  - destruct Hf as (_ & s & -> & Hd). apply does_pure. intros s0. unfold bind, lift. by rewrite Hd.
  - rewrite Hf. by apply does_pure.
Qed.

Lemma does_any_jump t k l : Forall decodes l -> does t (any_jump k l) t (Ok (existsb (jumps_through k) (row_profiles l))).
Proof.
  induction 1 as [| r l [s Hd] _ IH]; [apply (does_query t (fun _ => false)) |].
  rewrite (row_profiles_cons _ _ _ Hd). cbn [any_jump existsb]. eapply does_bind; [apply does_query |].
  eapply does_bind; [by apply does_pure with (v := Ok s); intros; unfold lift; rewrite Hd |].
  destruct (jumps_through k s); [by apply does_pure | done].
Qed.

Lemma does_referenced t l m k b : profile_rows t = l -> represents l m ->
  does t (profile_is_referenced k b) t (Ok (referenced_in k b m)).
Proof.
  intros <- Hrep. unfold profile_is_referenced. do 2 (eapply does_bind; [apply does_query |]).
  eapply does_bind; [apply does_any_jump; by eapply rep_decodes |]. apply does_pure. intros s.
  unfold referenced_in. by rewrite (existsb_perm _ _ _ (row_profiles_perm _ _ Hrep)).
Qed.

Lemma does_fetch t l acc : Forall decodes l -> does t (fetch_profiles l acc) t (Ok (acc ++ row_profiles l)).
Proof.
  intros Hl. revert acc. induction Hl as [| r l [s Hd] _ IH]; intros acc; cbn [fetch_profiles].
  - rewrite app_nil_r. apply (does_query t (fun _ => acc)).
  - rewrite (row_profiles_cons _ _ _ Hd). eapply does_bind; [apply does_query |].
    eapply does_bind; [by apply does_pure with (v := Ok s); intros; unfold lift; rewrite Hd |].
    specialize (IH (acc ++ [s])). by rewrite <- app_assoc in IH.
Qed.

(** ** Pages *)

Definition id_lt (a b : StoredRemoteProfile) : Prop := stored_id a < stored_id b.
#[local] Instance id_lt_trans : Transitive id_lt.
Proof. intros a b c. unfold id_lt. lia. Qed.
#[local] Instance id_lt_antisymm : AntiSymm (=) id_lt.
Proof. intros a b. unfold id_lt. lia. Qed.

Lemma btree_values_sorted l m : represents l m -> StronglySorted id_lt (btree_values m).
Proof.
  intros Hrep. pose proof (btree_ids _ _ Hrep) as Hnd. revert Hnd. unfold btree_values.
  assert (Hkeys : Forall (fun e => e.1 = stored_id e.2) (btree_entries m)).
  { apply Forall_forall. intros [k s] He%btree_entries_elem. by apply (rep_key _ _ Hrep). }
  induction (btree_entries_sorted m) as [| [k s] es _ IH Hle]; simpl; [constructor |].
  intros [Hs Hnd]%NoDup_cons. apply Forall_cons in Hkeys as [Hk Hkeys]. constructor; [by apply IH |].
  apply Forall_fmap, Forall_forall. intros [k' s'] He. rewrite Forall_forall in Hle, Hkeys.
  specialize (Hle _ He). specialize (Hkeys _ He). unfold entry_le in Hle. unfold id_lt. simpl in *. subst.
  destruct (decide (stored_id s = stored_id s')) as [E |]; [| lia]. exfalso. apply Hs. rewrite E.
  apply list_elem_of_fmap. exists s'. split; [done |]. apply list_elem_of_fmap. by exists (stored_id s', s').
Qed.

Lemma StronglySorted_filter {A} (R : relation A) (f : A -> bool) l : StronglySorted R l -> StronglySorted R (List.filter f l).
Proof.
  induction 1 as [| a l _ IH Ha]; simpl; [constructor |]. destruct (f a); [| done]. constructor; [done |].
  apply Forall_forall. intros x Hx%list_elem_of_In%List.filter_In. rewrite Forall_forall in Ha.
  apply Ha, list_elem_of_In, Hx.
Qed.

Lemma filter_perm {A} (f : A -> bool) l1 l2 : l1 ≡ₚ l2 -> List.filter f l1 ≡ₚ List.filter f l2.
Proof. induction 1; simpl; repeat case_match; try constructor; try done; try (by constructor). by etrans. Qed.

Lemma NoDup_fmap_filter {A B} (g : A -> B) (f : A -> bool) l : NoDup (g <$> l) -> NoDup (g <$> List.filter f l).
Proof.
  induction l as [| a l IH]; [done |]. rewrite fmap_cons, NoDup_cons. intros [Ha Hnd]. simpl.
  destruct (f a); [| by apply IH]. rewrite fmap_cons, NoDup_cons. split; [| by apply IH].
  intros (b & E & Hb)%list_elem_of_fmap. apply Ha, list_elem_of_fmap. exists b. split; [done |].
  apply list_elem_of_In in Hb. apply List.filter_In in Hb as [Hb _]. by apply list_elem_of_In.
Qed.

Definition query_after_uuid (q : RemoteProfilePageQuery) : Prop := forall id, query_after q = Some id -> is_uuid id.

Lemma after_text_spec q r s : query_after_uuid q -> is_uuid (stored_id s) -> decode_profile_row r = Ok s ->
  after_text (match query_after q with Some id => uuid_string id | None => EmptyString end) r = after_spec q s.
Proof.
  intros Hq Hu Hd. unfold after_text, after_spec. destruct (decode_profile_fields _ _ Hd) as (<- & _).
  destruct (query_after q) as [id |] eqn:Ha.
  - rewrite uuid_string_compare by (done || by apply Hq). unfold Z.ltb. by destruct (id ?= stored_id s).
  - pose proof (uuid_string_nonempty (stored_id s)). by destruct (uuid_string (stored_id s)).
Qed.

Lemma row_profiles_filter (f : profile_row J -> bool) g l :
  Forall (fun r => exists s, decode_profile_row r = Ok s /\ f r = g s) l ->
  row_profiles (List.filter f l) = List.filter g (row_profiles l) /\ Forall decodes (List.filter f l).
Proof.
  induction 1 as [| r l (s & Hd & E) _ [IH1 IH2]]; [done |]. rewrite (row_profiles_cons _ _ _ Hd). simpl. rewrite E.
  destruct (g s); [| done]. rewrite (row_profiles_cons _ _ _ Hd), IH1. split; [done |]. constructor; [by exists s | done].
Qed.

Lemma row_profiles_sorted l : Forall (fun r => exists s, decode_profile_row r = Ok s /\ is_uuid (stored_id s)) l ->
  NoDup (pr_profile_id <$> l) -> StronglySorted profile_row_le l -> StronglySorted id_lt (row_profiles l).
Proof.
  intros Hl. induction Hl as [| r l (s & Hd & Hu) Hl IH]; [constructor |]. rewrite fmap_cons, NoDup_cons.
  intros [Hr Hnd] [Hs Hle]%StronglySorted_inv. rewrite (row_profiles_cons _ _ _ Hd). constructor; [by apply IH |].
  apply Forall_forall. intros s' (r' & Hr' & Hd')%row_profiles_elem. rewrite Forall_forall in Hle, Hl.
  specialize (Hle _ Hr'). destruct (Hl _ Hr') as (s2 & Hd2 & Hu'). replace s2 with s' in * by congruence.
  unfold profile_row_le in Hle. destruct (decode_profile_fields _ _ Hd) as (E & _), (decode_profile_fields _ _ Hd') as (E' & _).
  rewrite <- E, <- E' in Hle. rewrite uuid_string_compare in Hle by done. unfold id_lt.
  destruct (decide (stored_id s = stored_id s')) as [Es |]; [| change (stored_id s <= stored_id s') in Hle; lia]. exfalso.
  apply Hr. rewrite <- E, Es, E'. apply list_elem_of_fmap. by exists r'.
Qed.

(** The rows of a page, decoded, are the profiles of the page. *)
Lemma selected_profiles l m q : represents l m -> query_after_uuid q ->
  let after := match query_after q with Some id => uuid_string id | None => EmptyString end in
  let rows := merge_sort profile_row_le (List.filter (after_text after) l) in
  Forall decodes rows /\ row_profiles rows = List.filter (after_spec q) (btree_values m).
Proof.
  intros Hrep Hq after rows.
  assert (Hrows : Forall (fun r => exists s, decode_profile_row r = Ok s /\ after_text after r = after_spec q s) l).
  { apply Forall_forall. intros r Hr. destruct (rep_row _ _ Hrep r Hr) as (s & Hs & Hd). exists s. split; [done |].
    apply after_text_spec; [done | | done]. by eapply decoded_key. }
  destruct (row_profiles_filter _ _ _ Hrows) as [Hf Hdec].
  assert (Hperm : rows ≡ₚ List.filter (after_text after) l) by apply merge_sort_Permutation.
  split; [by rewrite Hperm |]. apply (StronglySorted_unique id_lt).
  - apply row_profiles_sorted.
    + rewrite Hperm. apply Forall_forall. intros r [Hr _]%list_elem_of_In%List.filter_In.
      apply list_elem_of_In in Hr. destruct (rep_row _ _ Hrep r Hr) as (s & Hs & Hd). exists s. split; [done |].
      by apply (decoded_key l m r s).
    + rewrite Hperm. apply NoDup_fmap_filter, (rep_ids _ _ Hrep).
    + by apply (merge_sort_sorted _ (TotalPreorder0 := compare_on String.compare pr_profile_id compare_String)).
  - apply StronglySorted_filter. by eapply btree_values_sorted.
  - transitivity (row_profiles (List.filter (after_text after) l)).
    + unfold row_profiles. by rewrite Hperm.
    + rewrite Hf. apply filter_perm. by apply row_profiles_perm.
Qed.

Lemma sorted_no_window {A} (R : relation A) (p : A -> A -> bool) l :
  (forall a b, R a b -> p a b = false) -> StronglySorted R l -> windows2_any p l = false.
Proof.
  intros HR. induction 1 as [| a l Hl IH Ha]; [done |]. destruct l as [| b l]; [done |].
  cbn [windows2_any] in *. rewrite IH. apply Forall_cons in Ha as [Ha _]. by rewrite HR.
Qed.

Lemma take_sorted {A} (R : relation A) n l : StronglySorted R l -> StronglySorted R (take n l).
Proof.
  intros Hl. revert n. induction Hl as [| a l Hl IH Ha]; intros [| n]; [constructor .. |]. simpl.
  constructor; [done |]. by apply Forall_take.
Qed.

Lemma page_spec_valid l m q : represents l m -> 0 <= query_limit q -> RemoteProfilePageQuery_validate q = Ok tt ->
  RemoteProfilePage_validate (page_spec q m) q = Ok tt.
Proof.
  intros Hrep Hpos Hq. unfold RemoteProfilePage_validate. rewrite Hq. cbn [result_bind].
  unfold RemoteProfilePageQuery_validate in Hq. bool_facts.
  set (found := List.filter (after_spec q) (btree_values m)).
  assert (Hprofiles : profiles (page_spec q m) = take (Z.to_nat (query_limit q)) found) by done.
  assert (Hin : forall s, s ∈ take (Z.to_nat (query_limit q)) found -> s ∈ btree_values m /\ after_spec q s = true).
  { intros s Hs. assert (Hs' : s ∈ found) by (rewrite <- (take_drop (Z.to_nat (query_limit q)) found); set_solver).
    apply list_elem_of_In, List.filter_In in Hs' as [Hs' ?]. split; [by apply list_elem_of_In | done]. }
  assert (Hval : forall s, s ∈ btree_values m -> StoredRemoteProfile_validate s = Ok tt).
  { intros s (k & Hk)%btree_values_elem. apply (rep_stored _ _ Hrep) in Hk as (r & _ & Hd).
    by apply decode_profile_fields in Hd as (_ & _ & _ & _ & _ & Hd). }
  rewrite Hprofiles, length_take.
  rewrite (sorted_no_window id_lt) by
    (try (intros a b; unfold id_lt; lia); apply take_sorted, StronglySorted_filter; by eapply btree_values_sorted).
  rewrite (proj2 (Z.ltb_ge _ _)) by lia. simpl.
  assert (Hvalid : existsb (fun s => is_err (StoredRemoteProfile_validate s)) (take (Z.to_nat (query_limit q)) found) = false).
  { apply not_true_iff_false. rewrite existsb_exists. intros (s & Hs & He). apply list_elem_of_In, Hin in Hs as [Hs _].
    by rewrite (Hval s Hs) in He. }
  rewrite Hvalid. simpl.
  assert (Hhead : is_some_and (fun after => is_some_and (fun s => stored_id s <=? after)
            (head (take (Z.to_nat (query_limit q)) found))) (query_after q) = false).
  { destruct (query_after q) as [after |] eqn:Ha; [| done]. simpl.
    destruct (head _) as [s |] eqn:Hh; [| done]. simpl.
    assert (Hs : s ∈ take (Z.to_nat (query_limit q)) found) by (destruct (take _ found); [done |]; injection Hh as ->; left).
    apply Hin in Hs as [_ Hs]. unfold after_spec in Hs. rewrite Ha in Hs. lia. }
  rewrite Hhead. cbn [next_after page_spec orb]. fold found.
  destruct (Z.to_nat (query_limit q) <? length found)%nat; [| done].
  destruct (last (take (Z.to_nat (query_limit q)) found)) as [s |] eqn:Hl; simpl; [| done].
  by rewrite Z.eqb_refl.
Qed.

Lemma does_list t l m q : profile_rows t = l -> represents l m -> 0 <= query_limit q -> query_after_uuid q ->
  RemoteProfilePageQuery_validate q = Ok tt -> does t (list_profiles q) t (Ok (Profile_Page (page_spec q m))).
Proof.
  intros <- Hrep Hpos Hafter Hq. unfold list_profiles. eapply does_bind; [apply does_query |].
  eapply does_bind; [apply does_query |]. cbv beta.
  destruct (selected_profiles _ _ _ Hrep Hafter) as [Hdec Hrows]. revert Hdec Hrows. cbv zeta.
  set (rows := merge_sort _ _). intros Hdec Hrows. set (limit := Z.to_nat (query_limit q)).
  assert (Hfetched : row_profiles (take (S limit) rows) = take (S limit) (List.filter (after_spec q) (btree_values m))).
  { rewrite <- Hrows. clear -Hdec. revert Hdec. generalize (S limit) as n. intros n Hdec. revert n.
    induction Hdec as [| r l [s Hd] _ IH]; intros [| n]; try done. cbn [take].
    rewrite !(row_profiles_cons _ _ _ Hd). cbn [take]. by rewrite IH. }
  eapply does_bind; [apply does_fetch; by apply Forall_take |]. rewrite Hfetched. simpl app. cbv beta.
  set (found := List.filter _ _). rewrite take_take, Nat.min_l by lia.
  replace (limit <? length (take (S limit) found))%nat with (limit <? length found)%nat.
  2: { rewrite length_take. destruct (Nat.ltb_spec limit (length found)); symmetry; [apply Nat.ltb_lt | apply Nat.ltb_ge]; lia. }
  apply does_pure. intros s. unfold bind, lift.
  pose proof (page_spec_valid _ _ _ Hrep Hpos Hq) as Hvalid. unfold page_spec in Hvalid |- *. cbv zeta in *.
  fold limit found in Hvalid |- *. by rewrite Hvalid.
Qed.

(** ** Writes *)

Lemma swaps_exact l m k e r s : represents l m -> is_uuid k -> r ∈ l -> decode_profile_row r = Ok s ->
  profile_swaps (uuid_string k) e r = (stored_id s =? k) && (stored_revision s =? e).
Proof.
  intros Hrep Hk Hr Hd. unfold profile_swaps. destruct (decode_profile_fields _ _ Hd) as (_ & -> & _). f_equal.
  apply eq_true_iff_eq. rewrite (row_of_id _ _ _ _ _ Hrep Hk Hr Hd). symmetry. apply Z.eqb_eq.
Qed.

Lemma filter_none {A} (f : A -> bool) l : (forall a, a ∈ l -> f a = false) -> List.filter f l = [].
Proof.
  induction l as [| a l IH]; intros Hf; [done |]. simpl. rewrite Hf by left. apply IH. intros b Hb. apply Hf. by right.
Qed.

(** How many rows an [UPDATE] or a [DELETE] finds. *)
Lemma swaps_count l m k e : represents l m -> is_uuid k ->
  length (List.filter (profile_swaps (uuid_string k) e) l) =
  match m !! k with Some s => if stored_revision s =? e then 1%nat else 0%nat | None => 0%nat end.
Proof.
  intros Hrep Hk. destruct (m !! k) as [s |] eqn:Hs.
  - destruct (rep_stored _ _ Hrep _ _ Hs) as (r & Hr & Hd). destruct (rep_key _ _ Hrep _ _ Hs) as (-> & _).
    apply list_elem_of_split in Hr as Hsplit. destruct Hsplit as (l1 & l2 & E).
    assert (Hother : forall r', r' ∈ l1 ++ l2 -> profile_swaps (uuid_string (stored_id s)) e r' = false).
    { intros r' Hr'. unfold profile_swaps, has_profile_id. apply andb_false_iff. left. apply String.eqb_neq.
      destruct (decode_profile_fields _ _ Hd) as (-> & _). intros E'. pose proof (rep_ids _ _ Hrep) as Hnd.
      rewrite E, fmap_app, fmap_cons, <- Permutation_middle, NoDup_cons in Hnd. destruct Hnd as [Hnd _].
      apply Hnd. rewrite <- fmap_app, <- E'. by apply list_elem_of_fmap_2. }
    rewrite E, List.filter_app. simpl.
    rewrite (filter_none _ l1), (filter_none _ l2) by (intros; apply Hother; set_solver).
    rewrite (swaps_exact _ _ _ e _ _ Hrep Hk Hr Hd), Z.eqb_refl. simpl. by destruct (_ =? e).
  - rewrite filter_none; [done |]. intros r Hr. destruct (rep_row _ _ Hrep r Hr) as (s & Hs' & Hd).
    rewrite (swaps_exact _ _ _ e _ _ Hrep Hk Hr Hd). apply andb_false_iff. left. apply Z.eqb_neq. intros E. congruence.
Qed.

Definition updated_row (new r : profile_row J) : profile_row J :=
  {| pr_profile_id := pr_profile_id r; pr_protocol := pr_protocol new; pr_revision := pr_revision new;
     pr_document := pr_document new; pr_created_at_unix_ms := pr_created_at_unix_ms r;
     pr_updated_at_unix_ms := pr_updated_at_unix_ms new |}.

Lemma rep_update l m cur s doc : represents l m -> m !! stored_id s = Some cur ->
  stored_created_at_unix_ms s = stored_created_at_unix_ms cur -> 0 <= stored_revision s <= i64_max ->
  decode_profile_row (row_of_profile s doc) = Ok s ->
  represents ((fun r => if profile_swaps (uuid_string (stored_id s)) (stored_revision cur) r
                        then updated_row (row_of_profile s doc) r else r) <$> l) (<[stored_id s := s]> m).
Proof.
  intros Hrep Hcur Hcreated Hrev Hdoc. set (f := fun r : profile_row J => if profile_swaps (uuid_string (stored_id s)) (stored_revision cur) r
                                   then updated_row (row_of_profile s doc) r else r).
  destruct (rep_key _ _ Hrep _ _ Hcur) as (Hid & Hk & _).
  assert (Hhit : forall r, r ∈ l -> decode_profile_row r = Ok cur -> decode_profile_row (f r) = Ok s).
  { intros r Hr Hd. unfold f. rewrite (swaps_exact _ _ _ _ _ _ Hrep Hk Hr Hd), <- Hid, !Z.eqb_refl. simpl.
    rewrite <- Hdoc. f_equal. unfold updated_row, row_of_profile. simpl.
    destruct (decode_profile_fields _ _ Hd) as (<- & _ & _ & _ & <- & _). by rewrite Hcreated, <- Hid. }
  assert (Hmiss : forall r p, r ∈ l -> decode_profile_row r = Ok p -> stored_id p <> stored_id s -> f r = r).
  { intros r p Hr Hd Hne. unfold f. rewrite (swaps_exact _ _ _ _ _ _ Hrep Hk Hr Hd).
    by rewrite (proj2 (Z.eqb_neq _ _) Hne). }
  split.
  - replace (pr_profile_id <$> (f <$> l)) with (pr_profile_id <$> l); [apply (rep_ids _ _ Hrep) |].
    rewrite <- list_fmap_compose. apply list_fmap_ext. intros i r _. unfold f. simpl. by destruct (profile_swaps _ _ r).
  - intros r' (r & -> & Hr)%list_elem_of_fmap. destruct (rep_row _ _ Hrep r Hr) as (p & Hp & Hd).
    destruct (decide (stored_id p = stored_id s)) as [E | Hne].
    + exists s. rewrite lookup_insert_eq. split; [done |]. apply Hhit; [done |]. congruence.
    + exists p. rewrite lookup_insert_ne by done. by rewrite (Hmiss r p Hr Hd Hne).
  - intros k p [[<- <-] | [Hne Hp]]%lookup_insert_Some; [split_and!; [done | done | lia] |]. by apply (rep_key _ _ Hrep).
  - intros k p [[<- <-] | [Hne Hp]]%lookup_insert_Some.
    + destruct (rep_stored _ _ Hrep _ _ Hcur) as (r & Hr & Hd). exists (f r). split; [by apply list_elem_of_fmap_2 | auto].
    + destruct (rep_stored _ _ Hrep _ _ Hp) as (r & Hr & Hd). destruct (rep_key _ _ Hrep _ _ Hp) as (-> & _).
      exists r. split; [| done]. rewrite <- (Hmiss r p Hr Hd) by done. by apply list_elem_of_fmap_2.
Qed.

Lemma rep_insert l m s doc : represents l m -> m !! stored_id s = None -> is_uuid (stored_id s) ->
  stored_revision s <= i64_max -> decode_profile_row (row_of_profile s doc) = Ok s ->
  existsb (has_profile_id (uuid_string (stored_id s))) l = false /\
  represents (l ++ [row_of_profile s doc]) (<[stored_id s := s]> m).
Proof.
  intros Hrep Hnone Hk Hrev Hdoc.
  assert (Hnew : uuid_string (stored_id s) ∉ pr_profile_id <$> l).
  { intros (r & E & Hr)%list_elem_of_fmap. destruct (rep_row _ _ Hrep r Hr) as (p & Hp & Hd).
    assert (stored_id p = stored_id s); [| congruence]. apply (row_of_id _ _ _ _ _ Hrep Hk Hr Hd).
    unfold has_profile_id. by apply String.eqb_eq. }
  split.
  - apply not_true_iff_false. rewrite existsb_exists. intros (r & Hr & Hid). apply Hnew, list_elem_of_fmap.
    exists r. split; [by apply String.eqb_eq in Hid | by apply list_elem_of_In].
  - split.
    + rewrite fmap_app. apply NoDup_app. split_and!; [apply (rep_ids _ _ Hrep) | | apply NoDup_singleton].
      intros x Hx ->%list_elem_of_singleton. done.
    + intros r [Hr | ->%list_elem_of_singleton]%elem_of_app; [| exists s; by rewrite lookup_insert_eq].
      destruct (rep_row _ _ Hrep r Hr) as (p & Hp & Hd). exists p. split; [| done].
      rewrite lookup_insert_ne; [done |]. intros E. congruence.
    + intros k p [[<- <-] | [Hne Hp]]%lookup_insert_Some; [done | by apply (rep_key _ _ Hrep)].
    + intros k p [[<- <-] | [Hne Hp]]%lookup_insert_Some; [exists (row_of_profile s doc); set_solver |].
      destruct (rep_stored _ _ Hrep _ _ Hp) as (r & Hr & Hd). exists r. set_solver.
Qed.

Lemma rep_delete l m k s : represents l m -> m !! k = Some s ->
  represents (List.filter (fun r => negb (profile_swaps (uuid_string k) (stored_revision s) r)) l) (delete k m).
Proof.
  intros Hrep Hs. destruct (rep_key _ _ Hrep _ _ Hs) as (-> & Hk & _).
  assert (Hkeep : forall r p, r ∈ l -> decode_profile_row r = Ok p -> m !! stored_id p = Some p ->
            profile_swaps (uuid_string (stored_id s)) (stored_revision s) r = false <-> stored_id p <> stored_id s).
  { intros r p Hr Hd Hp. rewrite (swaps_exact _ _ _ _ _ _ Hrep Hk Hr Hd), andb_false_iff, !Z.eqb_neq.
    split; [| by left]. intros [Hne | Hne]; [done |]. intros E. apply Hne. rewrite E in Hp. congruence. }
  split.
  - apply NoDup_fmap_filter, (rep_ids _ _ Hrep).
  - intros r [Hr Hf]%list_elem_of_In%List.filter_In. apply list_elem_of_In in Hr. apply negb_true_iff in Hf.
    destruct (rep_row _ _ Hrep r Hr) as (p & Hp & Hd). exists p. split; [| done].
    apply (Hkeep r p Hr Hd Hp) in Hf. by rewrite lookup_delete_ne.
  - intros k p [Hne Hp]%lookup_delete_Some. by apply (rep_key _ _ Hrep).
  - intros k p [Hne Hp]%lookup_delete_Some. destruct (rep_stored _ _ Hrep _ _ Hp) as (r & Hr & Hd).
    destruct (rep_key _ _ Hrep _ _ Hp) as (-> & _). exists r. split; [| done].
    apply list_elem_of_In, List.filter_In. split; [by apply list_elem_of_In |]. apply negb_true_iff.
    by apply (Hkeep r p Hr Hd Hp).
Qed.

(** ** Commands *)

(** What the types of a command say. *)
Definition command_typed (c : RemoteProfileCommand) : Prop :=
  match c with
  | Profile_List q => 0 <= query_limit q /\ query_after_uuid q
  | Profile_Upsert p _ => is_uuid (profile_id p)
  | Profile_Delete id expected => is_uuid id /\ 0 <= expected
  end.

(** A command has done to the table what [x] says of the map. *)
Definition done_as (t : tables) (p : mut (Db tables) RemoteProfileResult RemoteRuntimeError)
    (x : profile_map * result RemoteProfileResult RemoteRuntimeError) : Prop :=
  exists t', does t p t' x.2 /\ represents (profile_rows t') x.1.

Lemma done_unchanged t p m v : represents (profile_rows t) m -> does t p t v -> done_as t p (m, v).
Proof. intros Hrep Hp. by exists t. Qed.

Lemma does_lift {A} t (v : result A RemoteRuntimeError) : does t (lift (fun _ => v)) t v.
Proof. by apply does_pure. Qed.

Lemma checked_i64_exact z : 0 <= z -> checked_i64 z = if i64_max <? z then None else Some z.
Proof.
  intros Hz. unfold checked_i64. destruct (Z.ltb_spec i64_max z).
  - replace (in_i64 z) with false by width. done.
  - replace (in_i64 z) with true by width. done.
Qed.

Lemma set_rows_same (t : tables) : set_profile_rows (profile_rows t) t = t.
Proof. by destruct t. Qed.

Lemma row_exists l m k : represents l m -> is_uuid k -> existsb (has_profile_id (uuid_string k)) l = is_some (m !! k).
Proof.
  intros Hrep Hk. pose proof (find_row _ _ _ Hrep Hk) as Hf. destruct (List.find _ _) as [r |] eqn:Hr.
  - destruct Hf as (_ & s & -> & _). apply existsb_exists. apply List.find_some in Hr. by exists r.
  - rewrite Hf. apply not_true_iff_false. rewrite existsb_exists. intros (r & Hin & Hh).
    pose proof (List.find_none _ _ Hr _ Hin). congruence.
Qed.

Lemma filter_all {A} (f : A -> bool) l : length (List.filter f l) = 0%nat -> List.filter (fun a => negb (f a)) l = l.
Proof. induction l as [| a l IH]; simpl; [done |]. destruct (f a); simpl; [done |]. intros Hl. f_equal. by apply IH. Qed.

Lemma does_delete t m id expected referenced : represents (profile_rows t) m -> is_uuid id -> 0 <= expected ->
  done_as t (delete_profile id expected referenced) (delete_spec id expected referenced m).
Proof.
  intros Hrep Hid Hexp. unfold delete_profile, delete_spec.
  pose proof (does_referenced t _ m id referenced eq_refl Hrep) as Href.
  destruct (referenced_in id referenced m).
  { apply done_unchanged; [done |]. eapply does_bind; [done |]. apply does_bind_err with (t' := t), does_lift. }
  pose proof (checked_i64_exact expected Hexp) as Hi64. destruct (i64_max <? expected).
  { apply done_unchanged; [done |]. eapply does_bind; [done |]. eapply does_bind; [apply does_lift |].
    apply does_bind_err with (t' := t), does_transaction_err with (t' := t), does_bind_err. rewrite Hi64. apply does_lift. }
  set (filtered := set_profile_rows (List.filter (fun r => negb (profile_swaps (uuid_string id) expected r)) (profile_rows t)) t).
  assert (Hchange : does t (change (delete_profile_row (uuid_string id) expected)) filtered
            (Ok (length (List.filter (profile_swaps (uuid_string id) expected) (profile_rows t))))).
  { apply (does_change t (delete_profile_row (uuid_string id) expected)). }
  rewrite (swaps_count _ _ _ expected Hrep Hid) in Hchange.
  assert (Hmissed : (match m !! id with Some s => if stored_revision s =? expected then 1%nat else 0%nat | None => 0%nat end) = 0%nat ->
    done_as t (delete_profile id expected referenced)
      (m, Err (if is_some (m !! id) then remote_profile_conflict else remote_profile_not_found))).
  { intros E. apply done_unchanged; [done |]. eapply does_bind; [done |]. eapply does_bind; [apply does_lift |].
    apply does_bind_err with (t' := t), does_transaction_err with (t' := t). rewrite Hi64. eapply does_bind; [apply does_lift |].
    rewrite E in Hchange. replace filtered with t in Hchange.
    2: { unfold filtered. rewrite filter_all; [symmetry; apply set_rows_same |]. by rewrite (swaps_count _ _ _ _ Hrep Hid). }
    eapply does_bind; [exact Hchange |]. eapply does_bind; [apply does_query |]. cbv beta.
    rewrite (row_exists _ _ _ Hrep Hid). by apply does_pure. }
  destruct (m !! id) as [s |] eqn:Hs; [| by apply Hmissed].
  destruct (stored_revision s =? expected) eqn:Hrev; [| by apply Hmissed]. apply Z.eqb_eq in Hrev as <-.
  exists filtered. split; [| by apply rep_delete]. cbn [snd].
  unfold delete_profile. eapply does_bind; [done |]. eapply does_bind; [apply does_lift |].
  eapply does_then; [apply does_transaction | done]. rewrite Hi64. eapply does_bind; [apply does_lift |].
  eapply does_then; [exact Hchange | done].
Qed.

Lemma stored_valid p revision created now : RemoteConnectionProfile_validate p = Ok tt -> 0 <= created <= now ->
  StoredRemoteProfile_validate {| stored_profile := p; stored_revision := revision; stored_created_at_unix_ms := created;
                                  stored_updated_at_unix_ms := now |} = Ok tt.
Proof.
  intros Hp Hc. unfold StoredRemoteProfile_validate. simpl. rewrite Hp. simpl.
  rewrite (proj2 (Z.ltb_ge created 0)), (proj2 (Z.ltb_ge now created)) by lia. done.
Qed.

(** The checks of an [upsert] against the profile that is there. *)
Lemma does_check t m p cur expected referenced : represents (profile_rows t) m ->
  does t (check_existing p (Some expected) referenced (Some cur)) t
    (if negb (stored_revision cur =? expected) then Err remote_profile_conflict
     else if negb (eqb (profile_protocol (stored_profile cur)) (profile_protocol p))
             && referenced_in (profile_id p) referenced m
     then Err profile_protocol_change_in_use else Ok tt).
Proof.
  intros Hrep. unfold check_existing. destruct (Z.eqb_spec (stored_revision cur) expected) as [-> | Hne]; cbn [negb].
  - eapply does_bind; [rewrite eqb_refl; apply does_lift |].
    destruct (negb _); [| by apply does_pure]. cbn [andb]. eapply does_bind; [by eapply does_referenced |].
    destruct (referenced_in _ _ _); apply does_lift.
  - apply does_bind_err with (t' := t). rewrite (proj2 (eqb_false _ _)) by congruence. apply does_lift.
Qed.

(** Writing the next version of a profile, and a new one. *)
Lemma does_update t m s doc cur : represents (profile_rows t) m -> m !! stored_id s = Some cur ->
  stored_created_at_unix_ms s = stored_created_at_unix_ms cur -> stored_revision s = stored_revision cur + 1 ->
  0 <= stored_revision s <= i64_max -> decode_profile_row (row_of_profile s doc) = Ok s ->
  exists t', does t (write_profile s doc (Some (stored_revision cur))) t' (Ok tt) /\
             represents (profile_rows t') (<[stored_id s := s]> m).
Proof.
  intros Hrep Hcur Hcreated Hnext Hrev Hdoc. destruct (rep_key _ _ Hrep _ _ Hcur) as (Hid & Hk & Hmax).
  destruct (rep_stored _ _ Hrep _ _ Hcur) as (r & _ & Hd).
  destruct (decode_profile_fields _ _ Hd) as (_ & Er & Hpos & _). 
  exists (update_profile (row_of_profile s doc) (stored_revision cur) t).1.
  split; [| exact (rep_update _ _ cur s doc Hrep Hcur Hcreated Hrev Hdoc)].
  unfold write_profile. apply does_transaction. eapply (does_then _ _ _ 1%nat); [| done].
  eapply does_bind; [rewrite checked_i64_exact, (proj2 (Z.ltb_ge _ _)) by lia; apply does_lift |].
  eapply does_bind; [rewrite checked_i64_exact, (proj2 (Z.ltb_ge _ _)) by lia; apply does_lift |].
  pose proof (swaps_count _ _ _ (stored_revision cur) Hrep Hk) as Hn. rewrite Hcur, Z.eqb_refl in Hn.
  rewrite <- Hn. apply (does_change t (update_profile (row_of_profile s doc) (stored_revision cur))).
Qed.

Lemma does_insert t m s doc : represents (profile_rows t) m -> m !! stored_id s = None -> is_uuid (stored_id s) ->
  stored_revision s <= i64_max -> decode_profile_row (row_of_profile s doc) = Ok s ->
  exists t', does t (write_profile s doc None) t' (Ok tt) /\ represents (profile_rows t') (<[stored_id s := s]> m).
Proof.
  intros Hrep Hnone Hk Hrev Hdoc. destruct (rep_insert _ _ _ _ Hrep Hnone Hk Hrev Hdoc) as [Hnew Hrep'].
  exists (set_profile_rows (profile_rows t ++ [row_of_profile s doc]) t). split; [| done].
  unfold write_profile. apply does_transaction. eapply (does_then _ _ _ 1%nat); [| done].
  assert (Hins : insert_profile (row_of_profile s doc) t = (set_profile_rows (profile_rows t ++ [row_of_profile s doc]) t, 1%nat)).
  { unfold insert_profile. change (pr_profile_id (row_of_profile s doc)) with (uuid_string (stored_id s)). by rewrite Hnew. }
  pose proof (does_change t (insert_profile (row_of_profile s doc))) as Hc. by rewrite Hins in Hc.
Qed.

Lemma does_upsert now p expected referenced t m : represents (profile_rows t) m -> is_uuid (profile_id p) -> 0 <= now ->
  (forall k s, m !! k = Some s -> stored_created_at_unix_ms s <= now) ->
  done_as t (upsert now p expected referenced) (upsert_spec now p expected referenced m).
Proof.
  intros Hrep Hk Hnow Hclock. unfold upsert, upsert_spec.
  destruct (RemoteConnectionProfile_validate p) as [[] | e] eqn:Hval; simpl is_err; cbv iota.
  2: { apply done_unchanged; [done |]. apply does_bind_err with (t' := t), does_lift. }
  destruct (encode_profile (J := J) p) as [doc | e] eqn:Hdoc.
  2: { apply done_unchanged; [done |]. eapply does_bind; [apply does_lift |]. apply does_bind_err with (t' := t), does_lift. }
  pose proof (does_load t _ m _ eq_refl Hrep Hk) as Hload.
  assert (Hstart : forall (k : option StoredRemoteProfile -> mut (Db tables) RemoteProfileResult RemoteRuntimeError) t' v,
    does t (k (m !! profile_id p)) t' v ->
    does t (lift (fun _ => Ok tt) ;;; lift (fun _ => Ok doc) ;;; existing <- load_profile_by_id (profile_id p) ;; k existing) t' v).
  { intros k t' v Hv. eapply does_bind; [apply does_lift |]. eapply does_bind; [apply does_lift |]. by eapply does_bind. }
  destruct (m !! profile_id p) as [cur |] eqn:Hcur, expected as [e |].
  - pose proof (does_check t m p cur e referenced Hrep) as Hcheck.
    destruct (Z.eqb_spec (stored_revision cur) e) as [<- |]; cbn [negb] in *.
    2: { apply done_unchanged; [done |]. by apply Hstart, does_bind_err with (t' := t). }
    destruct (negb (eqb (profile_protocol (stored_profile cur)) (profile_protocol p)) && referenced_in (profile_id p) referenced m).
    { apply done_unchanged; [done |]. by apply Hstart, does_bind_err with (t' := t). }
    destruct (rep_stored _ _ Hrep _ _ Hcur) as (r & _ & Hd). pose proof (Hclock _ _ Hcur) as Hc.
    destruct (decode_profile_fields _ _ Hd) as (_ & Er & Hpos & _ & _ & Hv).
    destruct (Z.ltb_spec i64_max (stored_revision cur + 1)).
    + apply done_unchanged; [done |]. apply Hstart. eapply does_bind; [done |].
      apply does_bind_err with (t' := t), does_transaction_err with (t' := t), does_bind_err with (t' := t), does_bind_err with (t' := t).
      rewrite checked_i64_exact, (proj2 (Z.ltb_lt _ _)) by (simpl; lia). apply does_lift.
    + unfold StoredRemoteProfile_validate in Hv. apply result_bind_ok in Hv as (_ & _ & Hv). bool_facts.
      set (s := {| stored_profile := p; stored_revision := stored_revision cur + 1;
                   stored_created_at_unix_ms := stored_created_at_unix_ms cur; stored_updated_at_unix_ms := now |}).
      destruct (does_update t m s doc cur Hrep Hcur) as (t' & Hp & Hrep'); [done | done | simpl; lia | |].
      { apply decode_row_of_profile; [done | simpl; lia | apply stored_valid; [done | lia]]. }
      exists t'. split; [| done]. apply Hstart. eapply does_bind; [done |]. eapply does_then; [exact Hp | done].
  - apply done_unchanged; [done |]. by apply Hstart, does_bind_err with (t' := t), does_bind_err with (t' := t), does_lift.
  - apply done_unchanged; [done |]. by apply Hstart, does_bind_err with (t' := t), does_lift.
  - set (s := {| stored_profile := p; stored_revision := 0; stored_created_at_unix_ms := now;
                 stored_updated_at_unix_ms := now |}).
    destruct (does_insert t m s doc Hrep Hcur Hk) as (t' & Hp & Hrep'); [done | |].
    { apply decode_row_of_profile; [done | done | apply stored_valid; [done | lia]]. }
    exists t'. split; [| done]. apply Hstart. eapply does_bind; [apply does_lift |]. eapply does_then; [exact Hp | done].
Qed.

Lemma does_command now c referenced t m :
  represents (profile_rows t) m -> command_typed c -> RemoteProfileCommand_validate c = Ok tt ->
  0 <= now -> (forall k p, m !! k = Some p -> stored_created_at_unix_ms p <= now) ->
  done_as t (profile_execute now c referenced) (profile_spec now c referenced m).
Proof.
  intros Hrep Htyped Hvalid Hnow Hclock. destruct c as [q | p expected | id expected]; simpl in *.
  - destruct Htyped. by eapply done_unchanged, does_list.
  - by apply does_upsert.
  - destruct Htyped. by apply does_delete.
Qed.

(** C13: The store of profiles is a map with compare-and-swap on the revision. A
    valid command, at a clock that is not behind the creation of a stored
    profile, does to the table exactly what the command means for the map and
    answers the same - a page is the next profiles in order and says where to go
    on; a profile is created where there is none, replaced at the revision the
    client has read, and deleted at it; its protocol stays, and it stays, while
    another profile jumps through it or a transfer names it - or a statement
    failed, the answer says so, and nothing has changed. *)
Theorem profile_store_is_compare_and_swap now c referenced s s' r m :
  represents (profile_rows (db_tables s)) m -> command_typed c -> RemoteProfileCommand_validate c = Ok tt ->
  0 <= now -> (forall k p, m !! k = Some p -> stored_created_at_unix_ms p <= now) ->
  profile_execute now c referenced s = (s', r) ->
  (represents (profile_rows (db_tables s')) (profile_spec now c referenced m).1 /\
     r = (profile_spec now c referenced m).2)
  \/ (db_tables s' = db_tables s /\ r = Err profile_store_unavailable).
Proof.
  intros Hrep Htyped Hvalid Hnow Hclock Hrun.
  destruct (does_command now c referenced (db_tables s) m) as (t' & Hdoes & Hrep'); [done .. |].
  destruct (Hdoes _ _ _ Hrun eq_refl) as [[<- ->] | [Ht ->]]; auto.
Qed.
End ProfileFacts.

(** ** At a concrete store *)

Section ProfileWitness.
(** The digits of a UUID, without the hyphens, which stand at fixed places. *)
Fixpoint hex_text (n : nat) (z : Z) : string :=
  match n with
  | O => EmptyString
  | S n => String (ascii_of_N (Z.to_N (48 + z / 16 ^ Z.of_nat n))) (hex_text n (z mod 16 ^ Z.of_nat n))
  end.

Lemma compare_digits x y : 0 <= x < 16 -> 0 <= y < 16 ->
  Ascii.compare (ascii_of_N (Z.to_N (48 + x))) (ascii_of_N (Z.to_N (48 + y))) = (x ?= y).
Proof.
  intros Hx Hy. unfold Ascii.compare. rewrite !N_ascii_embedding by lia. rewrite <- N2Z.inj_compare, !Z2N.id by lia.
  apply Z.add_compare_mono_l.
Qed.

Lemma hex_text_compare n : forall a b, 0 <= a < 16 ^ Z.of_nat n -> 0 <= b < 16 ^ Z.of_nat n ->
  String.compare (hex_text n a) (hex_text n b) = (a ?= b).
Proof.
  induction n as [| n IH]; intros a b Ha Hb.
  - simpl in *. replace a with 0 by lia. by replace b with 0 by lia.
  - assert (Hpos : 0 < 16 ^ Z.of_nat n) by lia. cbn [hex_text String.compare].
    rewrite Nat2Z.inj_succ, Z.pow_succ_r in Ha, Hb by lia.
    rewrite compare_digits by (split; [apply Z.div_pos | apply Z.div_lt_upper_bound]; lia).
    rewrite IH by (apply Z.mod_pos_bound; lia).
    pose proof (Z.div_mod a (16 ^ Z.of_nat n)). pose proof (Z.div_mod b (16 ^ Z.of_nat n)).
    pose proof (Z.mod_pos_bound a (16 ^ Z.of_nat n) Hpos). pose proof (Z.mod_pos_bound b (16 ^ Z.of_nat n) Hpos).
    generalize dependent (16 ^ Z.of_nat n). intros k Ha Hb Hk. 
    destruct (Z.compare_spec (a / k) (b / k)) as [E | Hlt | Hlt]; symmetry.
    + intros. destruct (Z.compare_spec (a mod k) (b mod k)); [apply Z.compare_eq_iff | apply Z.compare_lt_iff | apply Z.compare_gt_iff]; nia.
    + intros. apply Z.compare_lt_iff. nia.
    + intros. apply Z.compare_gt_iff. nia.
Qed.

#[local] Instance demo_text : UuidText := {| uuid_string := hex_text 32 |}.
#[local] Instance demo_order : UuidTextOrder.
Proof. split; [intros a b Ha Hb; apply hex_text_compare; exact Ha || exact Hb | done]. Qed.
#[local] Instance demo_codec : ProfileCodec RemoteConnectionProfile :=
  {| profile_to_json := Some; profile_from_json := Some; profile_json_len := fun _ => 500 |}.
#[local] Instance demo_codec_laws : ProfileCodecLaws RemoteConnectionProfile.
Proof. split. by intros p j [= <-]. Qed.

Definition ftp_server : RemoteConnectionProfile :=
  {| profile_id := 7; profile_label := "files"; profile_protocol := Ftp;
     profile_endpoint := {| endpoint_host := "files.example"; endpoint_port := 21 |};
     profile_username := None; profile_domain := None; profile_authentication := Anonymous;
     profile_trust := PlaintextAcknowledged; profile_options := Options_Ftp Passive |}.
Definition empty_tables : profile_tables RemoteConnectionProfile :=
  {| profile_rows := []; profile_user_version := 1; profile_check := "ok" |}.
Definition created : Db (profile_tables RemoteConnectionProfile) :=
  (profile_execute 100 (Profile_Upsert ftp_server None) false (Build_Db empty_tables [])).1.

Lemma profile_store_is_compare_and_swap_witness :
  represents (profile_rows (db_tables created))
    {[ 7 := {| stored_profile := ftp_server; stored_revision := 0; stored_created_at_unix_ms := 100;
               stored_updated_at_unix_ms := 100 |} ]}.
Proof.
  destruct (profile_store_is_compare_and_swap 100 (Profile_Upsert ftp_server None) false (Build_Db empty_tables []) created
    (profile_execute 100 (Profile_Upsert ftp_server None) false (Build_Db empty_tables [])).2 ∅) as [[H _] | [_ H]].
  - split; [constructor | by intros r Hr%not_elem_of_nil | done | done].
  - vm_compute. split; [discriminate | reflexivity].
  - reflexivity.
  - done.
  - done.
  - apply surjective_pairing.
  - exact H.
  - vm_compute in H. discriminate H.
Defined.

(** A clock that was set back between two changes of a profile leaves a row the
    store takes for corrupt, and every page and every deletion is refused. *)
Example clock_set_back_corrupts_the_store :
  let '(s, r) := profile_execute 50 (Profile_Upsert ftp_server (Some 0)) false created in
  is_ok r = true /\
  (profile_execute 200 (Profile_List {| query_after := None; query_limit := 10 |}) false s).2 = Err profile_store_corrupt /\
  (profile_execute 200 (Profile_Delete 8 0) false s).2 = Err profile_store_corrupt.
Proof. vm_compute. split_and!; reflexivity. Qed.
End ProfileWitness.
