(* ===== verification/SshProfile.v ===== *)
(** [crates/remote-ssh]: profiles of the OpenSSH adapter (profile.rs), how a
    connection profile with its jumps and secrets becomes one (bridge.rs), the
    helper that answers a prompt (askpass.rs), and what is written for OpenSSH
    to read: the configuration and the batch of [sftp] (openssh.rs).

    Paths are UTF-8. The secret store, the resolver of jump profiles, temporary
    files and the file system are calls of the class [SshEnv]. *)
From S2P Require Import Prelude RemoteCore Text FtpProtocol FtpSession.

(** ** profile.rs *)

Definition MAX_JUMP_HOSTS : nat := 8.

Inductive HostKeyPolicy := Strict | AcceptNew.
Record HostTrust := {
  known_hosts_file : string;
  revoked_host_keys_file : option string;
  policy : HostKeyPolicy;
}.
Inductive SshAuthentication :=
| Agent | IdentityFile (path : string) | IdentityFileWithPassphrase (path : string) | PasswordPrompt.
Record Endpoint := {
  ep_host : string;
  ep_port : Z;
  ep_user : option string;
  ep_trust : HostTrust;
  ep_authentication : SshAuthentication;
}.
Record SshProfile := { target : Endpoint; jump_hosts : list Endpoint }.

Inductive ProfileError :=
| Profile_Empty (field : string) | Profile_InvalidToken (field : string) | Profile_InvalidPath (field : string)
| Profile_InvalidPort (field : string) | TooManyJumpHosts.

(** The characters that are allowed are ASCII: they are looked for as bytes. *)
Definition is_host_char (b : Z) : bool :=
  is_ascii_alphanumeric b || contains b [ch "."; ch "-"; ch "_"; ch ":"].
Definition is_user_char (b : Z) : bool := is_ascii_alphanumeric b || contains b [ch "."; ch "-"; ch "_"].

Definition validate_token (value field : string) (allowed : Z -> bool) : result unit ProfileError :=
  fail_if is_empty value with Profile_Empty field in
  fail_if (255 <? len value) || negb (forallb allowed (bytes value)) with Profile_InvalidToken field in
  Ok tt.

Definition is_absolute (path : string) : bool := starts_with "/" path.
Definition validate_path (value field : string) : result unit ProfileError :=
  fail_if negb (is_absolute value) || is_empty value
          || existsb (fun b => contains b [nul; 10; 13; ch "%"; ch "$"]) (bytes value)
    with Profile_InvalidPath field in
  Ok tt.

Definition validate_endpoint (e : Endpoint) (field : string) : result unit ProfileError :=
  let? _ := validate_token (ep_host e) (field +:+ ".host") is_host_char in
  let? _ := match ep_user e with
            | Some user => validate_token user (field +:+ ".user") is_user_char
            | None => Ok tt
            end in
  fail_if ep_port e =? 0 with Profile_InvalidPort field in
  let? _ := validate_path (known_hosts_file (ep_trust e)) (field +:+ ".known_hosts_file") in
  let? _ := match revoked_host_keys_file (ep_trust e) with
            | Some path => validate_path path (field +:+ ".revoked_host_keys_file")
            | None => Ok tt
            end in
  match ep_authentication e with
  | IdentityFile path | IdentityFileWithPassphrase path => validate_path path (field +:+ ".identity_file")
  | Agent | PasswordPrompt => Ok tt
  end.

Definition SshProfile_validate (p : SshProfile) : result unit ProfileError :=
  fail_if (MAX_JUMP_HOSTS <? length (jump_hosts p))%nat with TooManyJumpHosts in
  let? _ := validate_endpoint (target p) "target" in
  try_for_each (fun '(index, e) => validate_endpoint e ("jump_hosts[" +:+ decimal_of (Z.of_nat index) +:+ "]"))
    (imap pair (jump_hosts p)).

(** ** openssh.rs: the configuration *)

Definition SSH_PROGRAM : string := "/usr/bin/ssh".
Definition SFTP_PROGRAM : string := "/usr/bin/sftp".
Definition TARGET_ALIAS : string := "localdesk-target".
Definition TERMINAL_TYPE : string := "xterm-256color".
Definition CONNECT_TIMEOUT_SECONDS : Z := 15.

Definition double_quote : ascii := ascii_of_N 34.
Definition backslash : ascii := ascii_of_N 92.
Definition nl : string := String newline EmptyString.

(** [str::replace] of a character. *)
Fixpoint replace_char (c : ascii) (by_ s : string) : string :=
  match s with
  | EmptyString => EmptyString
  | String a s => if Ascii.eqb a c then by_ +:+ replace_char c by_ s else String a (replace_char c by_ s)
  end.
Definition escape_quotes (value : string) : string :=
  replace_char double_quote (String backslash (String double_quote EmptyString))
    (replace_char backslash (String backslash (String backslash EmptyString)) value).
Definition quote_config_path (path : string) : string :=
  String double_quote (escape_quotes path +:+ String double_quote EmptyString).

Definition policy_word (p : HostKeyPolicy) : string := match p with Strict => "yes" | AcceptNew => "accept-new" end.

(** The calls of [push_str], in order; [line] is one that ends a line. *)
Definition line (s : string) : string := s +:+ nl.

Definition render_authentication (a : SshAuthentication) : list string :=
  match a with
  | Agent =>
      [line "  BatchMode yes"; line "  IdentityAgent SSH_AUTH_SOCK"; line "  IdentitiesOnly no";
       line "  NumberOfPasswordPrompts 0"; line "  PasswordAuthentication no";
       line "  PreferredAuthentications publickey"; line "  PubkeyAuthentication yes"]
  | IdentityFile path =>
      [line "  BatchMode yes"; line "  IdentityAgent none"; line "  IdentitiesOnly yes";
       line ("  IdentityFile " +:+ quote_config_path path);
       line "  NumberOfPasswordPrompts 0"; line "  PasswordAuthentication no";
       line "  PreferredAuthentications publickey"; line "  PubkeyAuthentication yes"]
  | IdentityFileWithPassphrase path =>
      [line "  BatchMode no"; line "  IdentityAgent none"; line "  IdentitiesOnly yes";
       line ("  IdentityFile " +:+ quote_config_path path);
       line "  NumberOfPasswordPrompts 1"; line "  PasswordAuthentication no";
       line "  PreferredAuthentications publickey"; line "  PubkeyAuthentication yes"]
  | PasswordPrompt =>
      [line "  BatchMode no"; line "  IdentityAgent none"; line "  IdentitiesOnly yes";
       line "  NumberOfPasswordPrompts 1"; line "  PasswordAuthentication yes";
       line "  PreferredAuthentications password"; line "  PubkeyAuthentication no"]
  end.

Definition render_host (alias : string) (e : Endpoint) : list string :=
  [line ("Host " +:+ alias); line ("  HostName " +:+ ep_host e); line ("  Port " +:+ decimal_of (ep_port e))]
  ++ match ep_user e with Some user => [line ("  User " +:+ user)] | None => [] end
  ++ [line ("  StrictHostKeyChecking " +:+ policy_word (policy (ep_trust e)));
      line ("  UserKnownHostsFile " +:+ quote_config_path (known_hosts_file (ep_trust e)))]
  ++ match revoked_host_keys_file (ep_trust e) with
     | Some path => [line ("  RevokedHostKeys " +:+ quote_config_path path)]
     | None => []
     end
  ++ render_authentication (ep_authentication e) ++ [nl].

Definition global_lines : list string :=
  [line "Host *"; line "  AddKeysToAgent no"; line "  CanonicalizeHostname no"; line "  ClearAllForwardings yes";
   line ("  ConnectTimeout " +:+ decimal_of CONNECT_TIMEOUT_SECONDS); line "  ControlMaster no";
   line "  ControlPath none"; line "  ControlPersist no"; line "  EnableEscapeCommandline no";
   line "  EscapeChar none"; line "  ExitOnForwardFailure yes"; line "  ForwardAgent no"; line "  ForwardX11 no";
   line "  HashKnownHosts yes"; line "  KbdInteractiveAuthentication no"; line "  PermitLocalCommand no";
   line "  ServerAliveCountMax 3"; line "  ServerAliveInterval 15"; line "  TCPKeepAlive yes"; line "  Tunnel no";
   line "  UpdateHostKeys no"; line "  VerifyHostKeyDNS no"; nl].

Definition jump_alias (index : nat) : string := "localdesk-jump-" +:+ decimal_of (Z.of_nat index).

Definition render_config (p : SshProfile) : string :=
  joined (global_lines
    ++ concat (imap (fun index e => render_host (jump_alias index) e) (jump_hosts p))
    ++ render_host TARGET_ALIAS (target p)
    ++ match jump_hosts p with
       | [] => []
       | _ => [line ("  ProxyJump " +:+ join "," (imap (fun index _ => jump_alias index) (jump_hosts p)))]
       end).

(** ** openssh.rs: the batch of [sftp] *)

Inductive SftpOperation :=
| Sftp_List (remote_path : string)
| Sftp_Stat (remote_path : string)
| Sftp_Download (remote_path local_path : string)
| Sftp_Upload (local_path remote_path : string)
| Sftp_CreateDirectory (remote_path : string)
| Sftp_RemoveFile (remote_path : string)
| Sftp_RemoveDirectory (remote_path : string)
| Sftp_Rename (from to : string).

Inductive DisconnectReason :=
| Ssh_HostKeyChanged | Ssh_HostKeyRevoked | Ssh_HostKeyUnknown | Ssh_AuthenticationFailed
| Ssh_NetworkUnreachable | Ssh_ConnectionLost | Ssh_OpenSshFailure.

Inductive PtyError :=
| Pty_InvalidSize (rows columns pixel_width pixel_height : Z)
| Pty_Allocate | Pty_CloneSlave | Pty_Spawn | Pty_ConfigureNonblocking | Pty_Resize | Pty_Inspect | Pty_Close.

Inductive AdapterError :=
| Adapter_InvalidProfile (e : ProfileError) | EmptySftpBatch | InvalidSftpPath (field : string)
| InvalidLocalPath (field : string) | CreateInput | WriteInput | Adapter_Pty (e : PtyError) | SpawnSftp | InspectSftp
| CloseSftp | StructuredSftpHandshake (reason : DisconnectReason) | StructuredSftp
| SftpOutputLimit (stream : string) (maximum : Z).

Definition quote_sftp (value : string) : string :=
  String double_quote (escape_quotes value +:+ String double_quote EmptyString).
Definition has_line_break (value : string) : bool := existsb (fun b => contains b [nul; 10; 13]) (bytes value).

Definition quote_remote (value field : string) : result string AdapterError :=
  fail_if is_empty value || has_line_break value with InvalidSftpPath field in
  Ok (quote_sftp value).
Definition quote_local (value field : string) : result string AdapterError :=
  fail_if negb (is_absolute value) || has_line_break value with InvalidLocalPath field in
  Ok (quote_sftp value).

(** [trim_end_matches('/')]. *)
Fixpoint trim_end_slashes (s : string) : string :=
  match s with
  | EmptyString => EmptyString
  | String a s =>
      match trim_end_slashes s with
      | EmptyString => if Ascii.eqb a "/" then EmptyString else String a EmptyString
      | s => String a s
      end
  end.

Definition sftp_parent_path (value field : string) : result string AdapterError :=
  fail_if is_empty value || has_line_break value with InvalidSftpPath field in
  let value := trim_end_slashes value in
  if is_empty value then Ok "/"%string
  else Ok match rsplit_once "/" value with
          | Some (EmptyString, _) => "/"%string
          | Some (parent, _) => parent
          | None => "."%string
          end.

Definition render_operation (prefix : string) (o : SftpOperation) : result string AdapterError :=
  match o with
  | Sftp_List remote_path => let? path := quote_remote remote_path prefix in Ok (line ("ls -lan " +:+ path))
  | Sftp_Stat remote_path =>
      let? parent := sftp_parent_path remote_path (prefix +:+ ".remote_path") in
      let? path := quote_remote parent (prefix +:+ ".remote_path") in
      Ok (line ("ls -lan " +:+ path))
  | Sftp_Download remote_path local_path =>
      let? remote := quote_remote remote_path (prefix +:+ ".remote_path") in
      let? local := quote_local local_path (prefix +:+ ".local_path") in
      Ok (line ("get " +:+ remote +:+ (" " +:+ local)))
  | Sftp_Upload local_path remote_path =>
      let? local := quote_local local_path (prefix +:+ ".local_path") in
      let? remote := quote_remote remote_path (prefix +:+ ".remote_path") in
      Ok (line ("put " +:+ local +:+ (" " +:+ remote)))
  | Sftp_CreateDirectory remote_path =>
      let? path := quote_remote remote_path (prefix +:+ ".remote_path") in Ok (line ("mkdir " +:+ path))
  | Sftp_RemoveFile remote_path =>
      let? path := quote_remote remote_path (prefix +:+ ".remote_path") in Ok (line ("rm " +:+ path))
  | Sftp_RemoveDirectory remote_path =>
      let? path := quote_remote remote_path (prefix +:+ ".remote_path") in Ok (line ("rmdir " +:+ path))
  | Sftp_Rename from to =>
      let? from := quote_remote from (prefix +:+ ".from") in
      let? to := quote_remote to (prefix +:+ ".to") in
      Ok (line ("rename " +:+ from +:+ (" " +:+ to)))
  end.

Fixpoint render_operations (index : Z) (operations : list SftpOperation) : result string AdapterError :=
  match operations with
  | [] => Ok EmptyString
  | o :: operations =>
      let? text := render_operation ("operations[" +:+ decimal_of index +:+ "]") o in
      let? rest := render_operations (index + 1) operations in
      Ok (text +:+ rest)
  end.
Definition render_sftp_batch (operations : list SftpOperation) : result string AdapterError :=
  match operations with
  | [] => Err EmptySftpBatch
  | _ => render_operations 0 operations
  end.

(** ** What the adapter asks of the system *)

(** [io_kind] tells the two errors of [symlink_metadata] apart that are looked at. *)
Inductive io_kind := Io_NotFound | Io_PermissionDenied | Io_Other.
Record FileMeta := { meta_symlink : bool; meta_file : bool; meta_mode : Z; meta_uid : Z }.

Class SshEnv (W : Type) := {
  resolve_secret : SecretRef -> mut W (list Z) SecretStoreError;
  resolve_jump : ProfileId -> mut W RemoteConnectionProfile RemoteError;
  (** A temporary file of its own: its path. *)
  new_tempfile : string -> mut W string unit;
  write_tempfile : string -> list Z -> mut W unit unit;
  sync_tempfile : string -> mut W unit unit;
  current_exe : mut W string unit;
  path_exists : string -> mut W bool unit;
  symlink_metadata : string -> mut W FileMeta io_kind;
  proc_self_exe : mut W FileMeta unit;
  (** A sealed [memfd] that holds a secret, in the steps that can fail. *)
  memfd_create : mut W Z unit;
  memfd_write : Z -> list Z -> mut W unit unit;
  memfd_rewind : Z -> mut W unit unit;
  memfd_seal : Z -> mut W unit unit;
}.

Section Prepare.
Context {W : Type} `{SshEnv W}.
Abbreviation remote_mut A := (mut W A RemoteError).
Definition calls {A E F} (f : E -> F) (m : mut W A E) : mut W A F := mut_map_err f m.
Definition refuse {A} (r : result A RemoteError) : remote_mut A := lift (fun _ => r).

(** ** askpass.rs *)

Definition ASKPASS_HELPER_NAME : string := "localdesk-ssh-askpass".
Definition ASKPASS_SECRET_ENV : string := "LOCALDESK_SSH_ASKPASS_SECRET".
Definition ASKPASS_REQUIRE_ENV : string := "SSH_ASKPASS_REQUIRE".
Definition MAX_SECRET_BYTES : Z := 8 * 1024.

Definition askpass_error (kind : RemoteErrorKind) (reason : string) (retry : RetryDisposition) : RemoteError :=
  remote_error kind Op_ResolveSecret reason retry.
Definition askpass_transport (reason : string) : RemoteError := askpass_error EK_Transport reason Retry_Backoff.
Definition askpass_unsupported (reason : string) : RemoteError := askpass_error EK_Unsupported reason Retry_UserAction.

(** [secret] is what the sealed file holds. *)
Record AskpassSecret := { askpass_file : Z; askpass_secret : list Z; askpass_helper : string }.

(** [Path::parent], [file_name] and [join] of an absolute path without a slash at its end. *)
Definition path_parent (path : string) : option string :=
  match rsplit_once "/" path with
  | Some (EmptyString, EmptyString) => None
  | Some (EmptyString, _) => Some "/"%string
  | Some (parent, _) => Some parent
  | None => None
  end.
Definition path_file_name (path : string) : option string :=
  match rsplit_once "/" path with
  | Some (_, EmptyString) => None
  | Some (_, name) => Some name
  | None => Some path
  end.
Definition path_join (parent name : string) : string :=
  if ends_with "/" parent then parent +:+ name else parent +:+ "/" +:+ name.

Definition production_helper_path : remote_mut string :=
  let unavailable := askpass_transport "ssh_askpass_helper_path_unavailable" in
  executable <- calls (fun _ => unavailable) current_exe ;;
  parent <- refuse (ok_or unavailable (path_parent executable)) ;;
  let sibling := path_join parent ASKPASS_HELPER_NAME in
  found <- calls (fun _ => unavailable) (path_exists sibling) ;;
  if found : bool then ret sibling
  else if eqb (path_file_name parent) (Some "deps"%string)
  then match path_parent parent with
       | Some target_directory =>
           let cargo_sibling := path_join target_directory ASKPASS_HELPER_NAME in
           found <- calls (fun _ => unavailable) (path_exists cargo_sibling) ;;
           ret (if found : bool then cargo_sibling else sibling)
       | None => ret sibling
       end
  else ret sibling.

Definition validate_helper_path (path : string) : remote_mut unit :=
  metadata <- calls (fun e => match e with
                              | Io_NotFound => askpass_unsupported "ssh_askpass_helper_missing"
                              | Io_PermissionDenied => askpass_unsupported "ssh_askpass_helper_unexecutable"
                              | Io_Other => askpass_transport "ssh_askpass_helper_path_rejected"
                              end) (symlink_metadata path) ;;
  refuse (fail_if meta_symlink metadata || negb (meta_file metadata)
                  || (Z.land (meta_mode metadata) 73 =? 0) || negb (Z.land (meta_mode metadata) 18 =? 0)
            with askpass_unsupported "ssh_askpass_helper_path_rejected" in Ok tt) ;;;
  executable <- calls (fun _ => askpass_transport "ssh_askpass_helper_path_unavailable") proc_self_exe ;;
  refuse (fail_if negb (meta_uid metadata =? meta_uid executable)
            with askpass_unsupported "ssh_askpass_helper_path_rejected" in Ok tt).

Definition askpass_secret_invalid (secret : list Z) : bool :=
  Nat.eqb (length secret) 0 || (MAX_SECRET_BYTES <? Z.of_nat (length secret))
  || contains 0 secret || contains 10 secret || contains 13 secret.

Definition AskpassSecret_new (secret : list Z) : remote_mut AskpassSecret :=
  refuse (fail_if askpass_secret_invalid secret
            with askpass_error EK_InvalidInput "ssh_askpass_secret_invalid" Retry_Never in Ok tt) ;;;
  helper <- production_helper_path ;;
  validate_helper_path helper ;;;
  file <- calls (fun _ => askpass_transport "ssh_askpass_memfd_create_failed") memfd_create ;;
  calls (fun _ => askpass_transport "ssh_askpass_memfd_write_failed") (memfd_write file secret) ;;;
  calls (fun _ => askpass_transport "ssh_askpass_memfd_seek_failed") (memfd_rewind file) ;;;
  calls (fun _ => askpass_transport "ssh_askpass_memfd_seal_failed") (memfd_seal file) ;;;
  ret {| askpass_file := file; askpass_secret := secret; askpass_helper := helper |}.

Definition secret_path (pid : Z) (a : AskpassSecret) : string :=
  "/proc/" +:+ decimal_of pid +:+ "/fd/" +:+ decimal_of (askpass_file a).

(** ** bridge.rs: the profile of a connection *)

Inductive BridgeKind := Bridge_Sftp | Bridge_SshTerminal.
Definition jump_profile_invalid (b : BridgeKind) : string :=
  match b with Bridge_Sftp => "sftp_jump_profile_invalid" | Bridge_SshTerminal => "ssh_jump_profile_invalid" end.
Definition jump_requires_ssh_profile (b : BridgeKind) : string :=
  match b with Bridge_Sftp => "sftp_jump_requires_ssh_profile" | Bridge_SshTerminal => "ssh_jump_requires_ssh_profile" end.
Definition jump_domain_not_supported (b : BridgeKind) : string :=
  match b with Bridge_Sftp => "sftp_jump_domain_not_supported" | Bridge_SshTerminal => "ssh_jump_domain_not_supported" end.
Definition nested_jump_profiles_not_supported (b : BridgeKind) : string :=
  match b with
  | Bridge_Sftp => "sftp_nested_jump_profiles_not_supported"
  | Bridge_SshTerminal => "ssh_nested_jump_profiles_not_supported"
  end.
Definition jump_requires_ssh_options (b : BridgeKind) : string :=
  match b with Bridge_Sftp => "sftp_jump_requires_ssh_options" | Bridge_SshTerminal => "ssh_jump_requires_ssh_options" end.
Definition known_hosts_policy_required (b : BridgeKind) : string :=
  match b with
  | Bridge_Sftp => "sftp_known_hosts_policy_required" | Bridge_SshTerminal => "ssh_known_hosts_policy_required"
  end.
Definition first_use_confirmation_unavailable (b : BridgeKind) : string :=
  match b with
  | Bridge_Sftp => "sftp_first_use_confirmation_not_implemented"
  | Bridge_SshTerminal => "ssh_first_use_confirmation_not_allowed"
  end.
Definition authentication_invalid (b : BridgeKind) : string :=
  match b with Bridge_Sftp => "sftp_authentication_invalid" | Bridge_SshTerminal => "ssh_authentication_invalid" end.

Definition connect_error (kind : RemoteErrorKind) (reason : string) (retry : RetryDisposition) : RemoteError :=
  remote_error kind Op_Connect reason retry.

Definition validate_jump_profile (p : RemoteConnectionProfile) (bridge : BridgeKind) : result unit RemoteError :=
  let? _ := map_err (fun _ => connect_error EK_InvalidInput (jump_profile_invalid bridge) Retry_Never)
              (RemoteConnectionProfile_validate p) in
  fail_if negb (eqb (profile_protocol p) Ssh)
    with connect_error EK_InvalidInput (jump_requires_ssh_profile bridge) Retry_Never in
  fail_if is_some (profile_domain p)
    with connect_error EK_Unsupported (jump_domain_not_supported bridge) Retry_UserAction in
  match profile_options p with
  | Options_Ssh [] false => Ok tt
  | Options_Ssh _ true => Err (connect_error EK_Unsupported "ssh_agent_forwarding_forbidden" Retry_Never)
  | Options_Ssh _ _ => Err (connect_error EK_Unsupported (nested_jump_profiles_not_supported bridge) Retry_UserAction)
  | _ => Err (connect_error EK_InvalidInput (jump_requires_ssh_options bridge) Retry_Never)
  end.

(** [map_secret_error] of this crate. *)
Definition ssh_secret_error (e : SecretStoreError) : RemoteError :=
  let '(reason, retry) := match e with
    | Store_Locked => ("secret_store_locked"%string, Retry_UserAction)
    | Store_PermissionDenied => ("secret_store_permission_denied"%string, Retry_UserAction)
    | Store_Unavailable => ("secret_store_unavailable"%string, Retry_Backoff)
    | Store_NotFound => ("secret_not_found"%string, Retry_UserAction)
    | Store_Backend => ("secret_store_backend_error"%string, Retry_Backoff)
    end in
  remote_error EK_SecretStore Op_ResolveSecret reason retry.

Definition write_identity_file (secret : list Z) : remote_mut string :=
  let failed reason := remote_error EK_Transport Op_ResolveSecret reason Retry_Backoff in
  file <- calls (fun _ => failed "ssh_identity_file_create_failed"%string) (new_tempfile "localdesk-ssh-identity") ;;
  calls (fun _ => failed "ssh_identity_file_write_failed"%string) (write_tempfile file secret) ;;;
  calls (fun _ => failed "ssh_identity_file_sync_failed"%string) (sync_tempfile file) ;;;
  ret file.

Definition host_key_policy (trust : TrustPolicy) (bridge : BridgeKind) (accept_new_host_key : bool)
  : result HostKeyPolicy RemoteError :=
  match trust, accept_new_host_key, bridge with
  | SshKnownHosts AskUser, true, Bridge_SshTerminal => Ok AcceptNew
  | SshKnownHosts AskUser, false, Bridge_SshTerminal => Ok Strict
  | SshKnownHosts AskUser, _, _ =>
      Err (connect_error EK_Unsupported (first_use_confirmation_unavailable bridge) Retry_UserAction)
  | SshKnownHosts Reject, false, _ => Ok Strict
  | SshKnownHosts Reject, true, _ =>
      Err (connect_error EK_InvalidInput (first_use_confirmation_unavailable bridge) Retry_Never)
  | _, _, _ => Err (connect_error EK_InvalidInput (known_hosts_policy_required bridge) Retry_Never)
  end.

(** [&mut identity_files] and [&mut askpass]. *)
Record Secrets := { identity_files : list string; askpass : option AskpassSecret }.

Definition secret_of (reference : SecretRef) : remote_mut (list Z) := calls ssh_secret_error (resolve_secret reference).

Definition map_authentication (a : Authentication) (bridge : BridgeKind) (held : Secrets)
  : remote_mut (SshAuthentication * Secrets) :=
  match a with
  | SshAgent => ret (Agent, held)
  | SshKey private_key passphrase =>
      secret <- secret_of private_key ;;
      refuse (fail_if Nat.eqb (length secret) 0
                with remote_error EK_InvalidInput Op_ResolveSecret "ssh_private_key_empty" Retry_Never in Ok tt) ;;;
      path <- write_identity_file secret ;;
      let files := identity_files held ++ [path] in
      match passphrase with
      | Some passphrase =>
          secret <- secret_of passphrase ;;
          prompt <- AskpassSecret_new secret ;;
          ret (IdentityFileWithPassphrase path, {| identity_files := files; askpass := Some prompt |})
      | None => ret (IdentityFile path, {| identity_files := files; askpass := askpass held |})
      end
  | Auth_Password secret =>
      secret <- secret_of secret ;;
      prompt <- AskpassSecret_new secret ;;
      ret (PasswordPrompt, {| identity_files := identity_files held; askpass := Some prompt |})
  | Anonymous | Kerberos => throw (connect_error EK_InvalidInput (authentication_invalid bridge) Retry_Never)
  end.

Definition map_endpoint (p : RemoteConnectionProfile) (trust_files : HostTrust) (held : Secrets) (bridge : BridgeKind)
    (accept_new_host_key : bool) : remote_mut (Endpoint * Secrets) :=
  policy <- refuse (host_key_policy (profile_trust p) bridge accept_new_host_key) ;;
  mapped <- map_authentication (profile_authentication p) bridge held ;;
  ret ({| ep_host := endpoint_host (profile_endpoint p); ep_port := endpoint_port (profile_endpoint p);
          ep_user := profile_username p;
          ep_trust := {| known_hosts_file := known_hosts_file trust_files;
                         revoked_host_keys_file := revoked_host_keys_file trust_files; policy := policy |};
          ep_authentication := mapped.1 |}, mapped.2).

Fixpoint map_jumps (ids : list ProfileId) (trust_files : HostTrust) (held : Secrets) (bridge : BridgeKind)
    (jumps : list Endpoint) : remote_mut (list Endpoint * Secrets) :=
  match ids with
  | [] => ret (jumps, held)
  | id :: ids =>
      jump <- resolve_jump id ;;
      refuse (validate_jump_profile jump bridge) ;;;
      mapped <- map_endpoint jump trust_files held bridge false ;;
      map_jumps ids trust_files mapped.2 bridge (jumps ++ [mapped.1])
  end.

Definition needs_prompt (a : Authentication) : bool :=
  match a with Auth_Password _ | SshKey _ (Some _) => true | _ => false end.

Record PreparedProfile := { prepared_profile : SshProfile; prepared_secrets : Secrets }.

(** The second half of [prepare_profile] and of [prepare_terminal_profile]. *)
Definition prepare_chain (p : RemoteConnectionProfile) (jump_ids : list ProfileId) (trust_files : HostTrust)
    (bridge : BridgeKind) (accept_new_host_key : bool) (too_long no_routing invalid : string)
  : remote_mut PreparedProfile :=
  refuse (fail_if (MAX_JUMP_HOSTS <? length jump_ids)%nat with connect_error EK_InvalidInput too_long Retry_Never in Ok tt) ;;;
  refuse (fail_if negb (Nat.eqb (length jump_ids) 0) && needs_prompt (profile_authentication p)
            with connect_error EK_Unsupported no_routing Retry_UserAction in Ok tt) ;;;
  mapped <- map_endpoint p trust_files {| identity_files := []; askpass := None |} bridge accept_new_host_key ;;
  jumps <- map_jumps jump_ids trust_files mapped.2 bridge [] ;;
  let profile := {| target := mapped.1; jump_hosts := jumps.1 |} in
  refuse (map_err (fun _ => connect_error EK_InvalidInput invalid Retry_Never) (SshProfile_validate profile)) ;;;
  ret {| prepared_profile := profile; prepared_secrets := jumps.2 |}.

Definition prepare_profile (trust_files : HostTrust) (p : RemoteConnectionProfile) : remote_mut PreparedProfile :=
  refuse (map_err (fun _ => connect_error EK_InvalidInput "sftp_profile_invalid" Retry_Never)
            (RemoteConnectionProfile_validate p)) ;;;
  refuse (fail_if negb (eqb (profile_protocol p) Sftp)
            with connect_error EK_InvalidInput "sftp_profile_required" Retry_Never in Ok tt) ;;;
  refuse (fail_if is_some (profile_domain p)
            with connect_error EK_Unsupported "sftp_domain_not_supported" Retry_UserAction in Ok tt) ;;;
  match profile_options p with
  | Options_Sftp jump_ids =>
      prepare_chain p jump_ids trust_files Bridge_Sftp false "sftp_jump_chain_too_long"
        "sftp_jump_secret_routing_not_supported" "sftp_adapter_profile_invalid"
  | _ => throw (connect_error EK_InvalidInput "sftp_options_required" Retry_Never)
  end.

Definition prepare_terminal_profile (trust_files : HostTrust) (p : RemoteConnectionProfile) (accept_new_host_key : bool)
  : remote_mut PreparedProfile :=
  refuse (map_err (fun _ => connect_error EK_InvalidInput "ssh_profile_invalid" Retry_Never)
            (RemoteConnectionProfile_validate p)) ;;;
  refuse (fail_if negb (eqb (profile_protocol p) Ssh)
            with connect_error EK_InvalidInput "ssh_profile_required" Retry_Never in Ok tt) ;;;
  refuse (fail_if is_some (profile_domain p)
            with connect_error EK_Unsupported "ssh_domain_not_supported" Retry_UserAction in Ok tt) ;;;
  match profile_options p with
  | Options_Ssh jump_ids false =>
      prepare_chain p jump_ids trust_files Bridge_SshTerminal accept_new_host_key "ssh_jump_chain_too_long"
        "ssh_jump_secret_routing_not_supported" "ssh_adapter_profile_invalid"
  | Options_Ssh _ true => throw (connect_error EK_Unsupported "ssh_agent_forwarding_forbidden" Retry_Never)
  | _ => throw (connect_error EK_InvalidInput "ssh_options_required" Retry_Never)
  end.
End Prepare.

Definition validate_bridge_trust (trust : HostTrust) : result unit ProfileError :=
  SshProfile_validate
    {| target := {| ep_host := "validation.invalid"; ep_port := 22; ep_user := None; ep_trust := trust;
                    ep_authentication := Agent |}; jump_hosts := [] |}.

(** ** openssh.rs: commands *)

(** [cmd_env] has the changes to the environment in order; [None] removes. *)
Record Command := { cmd_program : string; cmd_args : list string; cmd_env : list (string * option string) }.
Definition fixed_command (program : string) (args : list string) : Command :=
  {| cmd_program := program; cmd_args := args;
     cmd_env := [("LC_ALL"%string, Some "C"%string); ("SSH_ASKPASS"%string, None); (ASKPASS_REQUIRE_ENV, None);
                 (ASKPASS_SECRET_ENV, None)] |}.
Definition env (name value : string) (c : Command) : Command :=
  {| cmd_program := cmd_program c; cmd_args := cmd_args c; cmd_env := cmd_env c ++ [(name, Some value)] |}.

Definition terminal_args (config : string) : list string := ["-F"; config; "-tt"; TARGET_ALIAS]%string.
Definition terminal_command (config : string) : Command :=
  env "TERM" TERMINAL_TYPE (fixed_command SSH_PROGRAM (terminal_args config)).
Definition sftp_args (config batch : string) : list string :=
  ["-S"; SSH_PROGRAM; "-q"; "-F"; config; "-b"; batch; TARGET_ALIAS]%string.
Definition structured_sftp_args (config : string) : list string :=
  ["-F"; config; "-T"; "-s"; TARGET_ALIAS; "sftp"]%string.

Definition configure_command (pid : Z) (a : AskpassSecret) (c : Command) : Command :=
  env ASKPASS_SECRET_ENV (secret_path pid a) (env ASKPASS_REQUIRE_ENV "force" (env "SSH_ASKPASS" (askpass_helper a) c)).
