(* ===== verification/SshProfileFacts.v ===== *)
(** The texts [SshProfile] writes for OpenSSH mean what was asked for: read by
    the rules of ssh_config(5) and sftp(1), the configuration has the settings of
    each host of the profile and the batch its operations, whatever the names in
    them. And whose secrets a connection is prepared with. *)
From stdpp Require Import pretty.
From S2P Require Import Prelude RemoteCore Text FtpProtocol FtpSession SshProfile.

(** ** The readers *)

(** Words of a line: blanks separate them; in double quotes, a backslash
    escapes a quote and itself. [None]: a quote is open at the end. *)
Inductive scan_mode := Between | Plain | Quoted | Escaped.
Definition is_blank (a : ascii) : bool := Ascii.eqb a " " || Ascii.eqb a (ascii_of_N 9).
Definition one (a : ascii) : string := String a EmptyString.

Fixpoint scan (m : scan_mode) (word s : string) : option (list string) :=
  match s with
  | EmptyString => match m with Between => Some [] | Plain => Some [word] | _ => None end
  | String a s =>
      match m with
      | Between =>
          if is_blank a then scan Between EmptyString s
          else if Ascii.eqb a double_quote then scan Quoted EmptyString s
          else scan Plain (one a) s
      | Plain => if is_blank a then cons word <$> scan Between EmptyString s else scan Plain (word +:+ one a) s
      | Quoted =>
          if Ascii.eqb a double_quote then cons word <$> scan Between EmptyString s
          else if Ascii.eqb a backslash then scan Escaped word s
          else scan Quoted (word +:+ one a) s
      | Escaped =>
          if Ascii.eqb a double_quote || Ascii.eqb a backslash then scan Quoted (word +:+ one a) s
          else scan Quoted (word +:+ one backslash +:+ one a) s
      end
  end.
Definition words (s : string) : option (list string) := scan Between EmptyString s.

(** A keyword, or a command, and its arguments; lines without one are left out. *)
Abbreviation directive := (string * list string)%type.
Definition directive_of (l : list string) : option directive :=
  match l with keyword :: args => Some (keyword, args) | [] => None end.
Definition read_directives (text : string) : option (list directive) :=
  omap directive_of <$> mapM words (split_char newline text).

(** What [ssh] takes for a host: the first value of a keyword in the blocks
    whose pattern is [*] or the host. *)
Fixpoint setting_from (active : bool) (host keyword : string) (l : list directive) : option (list string) :=
  match l with
  | [] => None
  | (k, args) :: l =>
      if String.eqb k "Host"
      then setting_from (existsb (fun pattern => String.eqb pattern "*" || String.eqb pattern host) args) host keyword l
      else if active && String.eqb k keyword then Some args
      else setting_from active host keyword l
  end.
Definition setting (host keyword : string) (l : list directive) : option (list string) :=
  setting_from false host keyword l.

(** ** What the texts are meant to say *)

Definition global_settings : list directive :=
  [("AddKeysToAgent", ["no"]); ("CanonicalizeHostname", ["no"]); ("ClearAllForwardings", ["yes"]);
   ("ConnectTimeout", ["15"]); ("ControlMaster", ["no"]); ("ControlPath", ["none"]); ("ControlPersist", ["no"]);
   ("EnableEscapeCommandline", ["no"]); ("EscapeChar", ["none"]); ("ExitOnForwardFailure", ["yes"]);
   ("ForwardAgent", ["no"]); ("ForwardX11", ["no"]); ("HashKnownHosts", ["yes"]);
   ("KbdInteractiveAuthentication", ["no"]); ("PermitLocalCommand", ["no"]); ("ServerAliveCountMax", ["3"]);
   ("ServerAliveInterval", ["15"]); ("TCPKeepAlive", ["yes"]); ("Tunnel", ["no"]); ("UpdateHostKeys", ["no"]);
   ("VerifyHostKeyDNS", ["no"])]%string.

Definition authentication_settings (a : SshAuthentication) : list directive :=
  match a with
  | Agent =>
      [("BatchMode", ["yes"]); ("IdentityAgent", ["SSH_AUTH_SOCK"]); ("IdentitiesOnly", ["no"]);
       ("NumberOfPasswordPrompts", ["0"]); ("PasswordAuthentication", ["no"]);
       ("PreferredAuthentications", ["publickey"]); ("PubkeyAuthentication", ["yes"])]
  | IdentityFile path =>
      [("BatchMode", ["yes"]); ("IdentityAgent", ["none"]); ("IdentitiesOnly", ["yes"]); ("IdentityFile", [path]);
       ("NumberOfPasswordPrompts", ["0"]); ("PasswordAuthentication", ["no"]);
       ("PreferredAuthentications", ["publickey"]); ("PubkeyAuthentication", ["yes"])]
  | IdentityFileWithPassphrase path =>
      [("BatchMode", ["no"]); ("IdentityAgent", ["none"]); ("IdentitiesOnly", ["yes"]); ("IdentityFile", [path]);
       ("NumberOfPasswordPrompts", ["1"]); ("PasswordAuthentication", ["no"]);
       ("PreferredAuthentications", ["publickey"]); ("PubkeyAuthentication", ["yes"])]
  | PasswordPrompt =>
      [("BatchMode", ["no"]); ("IdentityAgent", ["none"]); ("IdentitiesOnly", ["yes"]);
       ("NumberOfPasswordPrompts", ["1"]); ("PasswordAuthentication", ["yes"]);
       ("PreferredAuthentications", ["password"]); ("PubkeyAuthentication", ["no"])]
  end%string.

Definition endpoint_settings (e : Endpoint) : list directive :=
  [("HostName", [ep_host e]); ("Port", [decimal_of (ep_port e)])]%string
  ++ match ep_user e with Some user => [("User"%string, [user])] | None => [] end
  ++ [("StrictHostKeyChecking", [match policy (ep_trust e) with Strict => "yes" | AcceptNew => "accept-new" end]);
      ("UserKnownHostsFile", [known_hosts_file (ep_trust e)])]%string
  ++ match revoked_host_keys_file (ep_trust e) with Some path => [("RevokedHostKeys"%string, [path])] | None => [] end
  ++ authentication_settings (ep_authentication e).

(** The hosts of the configuration, as [ssh] is told them, with their settings. *)
Definition target_settings (p : SshProfile) : list directive :=
  endpoint_settings (target p)
  ++ match jump_hosts p with
     | [] => []
     | _ => [("ProxyJump"%string, [join "," (imap (fun index _ => jump_alias index) (jump_hosts p))])]
     end.
Definition config_hosts (p : SshProfile) : list (string * list directive) :=
  imap (fun index e => (jump_alias index, endpoint_settings e)) (jump_hosts p) ++ [(TARGET_ALIAS, target_settings p)].

Definition first_value (keyword : string) (l : list directive) : option (list string) :=
  snd <$> List.find (fun d => String.eqb d.1 keyword) l.

Definition parent_of (path : string) : string :=
  match sftp_parent_path path "" with Ok parent => parent | Err _ => "" end.
Definition sftp_command (o : SftpOperation) : directive :=
  match o with
  | Sftp_List path => ("ls", ["-lan"; path])
  | Sftp_Stat path => ("ls", ["-lan"; parent_of path])
  | Sftp_Download remote local => ("get", [remote; local])
  | Sftp_Upload local remote => ("put", [local; remote])
  | Sftp_CreateDirectory path => ("mkdir", [path])
  | Sftp_RemoveFile path => ("rm", [path])
  | Sftp_RemoveDirectory path => ("rmdir", [path])
  | Sftp_Rename from to => ("rename", [from; to])
  end%string.

(** ** Scanning *)

Definition plain_byte (b : Z) : Prop := 33 <= b <= 126 /\ b <> 34.
Definition token (s : string) : Prop := Forall plain_byte (bytes s) /\ s <> EmptyString.

Lemma cons_app_s x (a b : string) : String x a +:+ b = String x (a +:+ b).
Proof. done. Qed.

Lemma byte_of_eqb a b : Ascii.eqb a b = (byte_of a =? byte_of b).
Proof.
  destruct (Ascii.eqb_spec a b) as [-> | Hne]; [by rewrite Z.eqb_refl |]. symmetry. apply Z.eqb_neq. intros E.
  apply Hne. unfold byte_of in E. apply N2Z.inj in E. by rewrite <- (ascii_N_embedding a), E, ascii_N_embedding.
Qed.

Lemma plain_scan a : plain_byte (byte_of a) -> is_blank a = false /\ Ascii.eqb a double_quote = false.
Proof.
  intros [Hr Hq]. unfold is_blank. rewrite !byte_of_eqb.
  change (byte_of " ") with 32. change (byte_of (ascii_of_N 9)) with 9. change (byte_of double_quote) with 34.
  split; [apply orb_false_iff; split |]; apply Z.eqb_neq; lia.
Qed.

Lemma scan_plain t : forall w, Forall plain_byte (bytes t) -> scan Plain w t = Some [w +:+ t].
Proof.
  induction t as [| a t IH]; intros w Ht; simpl; [by rewrite append_nil |].
  apply Forall_cons in Ht as [Ha Ht]. destruct (plain_scan a Ha) as [-> _]. rewrite IH by done.
  by rewrite <- append_assoc.
Qed.
Lemma scan_token t : token t -> scan Between EmptyString t = Some [t].
Proof.
  intros [Ht Hne]. destruct t as [| a t]; [done |]. apply Forall_cons in Ht as [Ha Ht]. simpl.
  destruct (plain_scan a Ha) as [-> ->]. by rewrite scan_plain.
Qed.

Lemma scan_quoted v : forall w rest,
  scan Quoted w (escape_quotes v +:+ String double_quote rest) = cons (w +:+ v) <$> scan Between EmptyString rest.
Proof.
  unfold escape_quotes. induction v as [| a v IH]; intros w rest.
  - simpl. by rewrite append_nil.
  - cbn [replace_char]. destruct (Ascii.eqb_spec a backslash) as [-> | Hb].
    + cbn [replace_char]. change (scan Quoted (w +:+ one backslash)
        (replace_char double_quote (String backslash (String double_quote EmptyString))
          (replace_char backslash (String backslash (String backslash EmptyString)) v) +:+ String double_quote rest)
        = cons (w +:+ String backslash v) <$> scan Between EmptyString rest).
      rewrite IH, <- append_assoc. done.
    + cbn [replace_char]. destruct (Ascii.eqb_spec a double_quote) as [-> | Hq].
      * change (scan Quoted (w +:+ one double_quote)
          (replace_char double_quote (String backslash (String double_quote EmptyString))
            (replace_char backslash (String backslash (String backslash EmptyString)) v) +:+ String double_quote rest)
          = cons (w +:+ String double_quote v) <$> scan Between EmptyString rest).
        rewrite IH, <- append_assoc. done.
      * rewrite cons_app_s. cbn [scan]. rewrite (proj2 (Ascii.eqb_neq _ _) Hq), (proj2 (Ascii.eqb_neq _ _) Hb).
        rewrite IH, <- append_assoc. done.
Qed.
Lemma scan_quote v rest :
  scan Between EmptyString (String double_quote (escape_quotes v +:+ String double_quote rest))
  = cons v <$> scan Between EmptyString rest.
Proof. apply scan_quoted. Qed.

(** ** Lines *)

Definition single_line (s : string) : Prop := Forall (fun b => b <> 10) (bytes s).

Lemma single_line_app s t : single_line (s +:+ t) <-> single_line s /\ single_line t.
Proof. unfold single_line. by rewrite bytes_app, Forall_app. Qed.
Lemma token_single_line s : token s -> single_line s.
Proof. intros [Hs _]. eapply Forall_impl; [exact Hs |]. intros b [? _]. lia. Qed.
Lemma escape_single_line v : single_line v -> single_line (escape_quotes v).
Proof.
  unfold escape_quotes. induction v as [| a v IH]; [done |]. intros [Ha Hv]%Forall_cons. specialize (IH Hv).
  cbn [replace_char]. destruct (Ascii.eqb_spec a backslash) as [-> | Hb].
  - cbn [replace_char]. repeat (constructor; [done |]). exact IH.
  - cbn [replace_char]. destruct (Ascii.eqb_spec a double_quote) as [-> | Hq]; [repeat (constructor; [done |]); exact IH |].
    constructor; [exact Ha | exact IH].
Qed.
Lemma quote_single_line v : single_line v -> single_line (quote_config_path v).
Proof.
  intros Hv. unfold quote_config_path. constructor; [done |]. apply single_line_app. split; [by apply escape_single_line |].
  repeat constructor. done.
Qed.

Lemma split_line s rest : single_line s -> split_char newline (s +:+ String newline rest) = s :: split_char newline rest.
Proof.
  induction s as [| a s IH]; [done |]. intros [Ha Hs]%Forall_cons. cbn [bytes] in *.
  change (String a s +:+ String newline rest) with (String a (s +:+ String newline rest)). cbn [split_char].
  rewrite byte_of_eqb, (proj2 (Z.eqb_neq _ _)) by done. by rewrite IH.
Qed.

(** A text whose lines are read as the directives [l], whatever follows. *)
Definition reads (text : string) (l : list directive) : Prop :=
  forall rest, read_directives (text +:+ rest) = app l <$> read_directives rest.

Lemma reads_nil : reads EmptyString [].
Proof. intros rest. change (read_directives rest = app [] <$> read_directives rest). by destruct (read_directives rest). Qed.
Lemma reads_app a b l m : reads a l -> reads b m -> reads (a +:+ b) (l ++ m).
Proof.
  intros Ha Hb rest. rewrite <- append_assoc, Ha, Hb. destruct (read_directives rest); [| done]. simpl. by rewrite app_assoc.
Qed.
Lemma reads_line s keyword args : single_line s -> words s = Some (keyword :: args) -> reads (line s) [(keyword, args)].
Proof.
  intros Hs Hw rest. unfold line, nl, read_directives. rewrite <- append_assoc. change (String newline EmptyString +:+ rest) with (String newline rest).
  rewrite split_line by done. cbn [mapM]. rewrite Hw. cbn [mbind option_bind].
  by destruct (mapM words (split_char newline rest)).
Qed.
Lemma reads_blank : reads nl [].
Proof.
  intros rest. change (nl +:+ rest) with (EmptyString +:+ String newline rest). unfold read_directives.
  rewrite split_line by constructor. change (EmptyString :: split_char newline rest) with ([EmptyString] ++ split_char newline rest).
  cbn [mapM app]. change (words EmptyString) with (Some (@nil string)). cbn [mbind option_bind].
  by destruct (mapM words (split_char newline rest)).
Qed.
Lemma reads_all text l : reads text l -> read_directives text = Some l.
Proof. intros Hr. rewrite <- (append_nil text), Hr. simpl. by rewrite app_nil_r. Qed.

Lemma reads_joined_app a b l m : reads (joined a) l -> reads (joined b) m -> reads (joined (a ++ b)) (l ++ m).
Proof. rewrite joined_app. apply reads_app. Qed.
Lemma reads_joined_cons a b d m : reads a [d] -> reads (joined b) m -> reads (joined (a :: b)) (d :: m).
Proof. apply (reads_app a (joined b) [d]). Qed.
Lemma reads_joined_concat parts ls : Forall2 (fun p => reads (joined p)) parts ls -> reads (joined (concat parts)) (concat ls).
Proof. induction 1 as [| a l parts ls Ha _ IH]; [apply reads_nil | by apply reads_joined_app]. Qed.

(** A line of a keyword and one argument, a token or a quoted path. *)
Lemma reads_token indent keyword arg :
  single_line indent -> (forall w, scan Between EmptyString (indent +:+ w) = cons keyword <$> scan Between EmptyString w) ->
  token arg -> reads (line (indent +:+ arg)) [(keyword, [arg])].
Proof.
  intros Hi Hscan Ha. apply reads_line.
  - apply single_line_app. split; [done | by apply token_single_line].
  - unfold words. by rewrite Hscan, scan_token.
Qed.
Lemma reads_quoted indent keyword path :
  single_line indent -> (forall w, scan Between EmptyString (indent +:+ w) = cons keyword <$> scan Between EmptyString w) ->
  single_line path -> reads (line (indent +:+ quote_config_path path)) [(keyword, [path])].
Proof.
  intros Hi Hscan Ha. apply reads_line.
  - apply single_line_app. split; [done | by apply quote_single_line].
  - unfold words. rewrite Hscan. unfold quote_config_path. by rewrite scan_quote.
Qed.

(** ** What is validated *)

Lemma token_of (allowed : Z -> bool) s field :
  (forall b, allowed b = true -> plain_byte b) -> validate_token s field allowed = Ok tt -> token s.
Proof.
  intros Hall. unfold validate_token. intros Hv. bool_facts. split.
  - match goal with H : forallb _ _ = true |- _ => rename H into Hf end. rewrite forallb_forall in Hf.
    apply Forall_forall. intros b Hb. apply Hall, Hf. by apply list_elem_of_In.
  - intros ->. done.
Qed.
Ltac byte_class :=
  unfold is_ascii_alphanumeric, is_ascii_alphabetic, is_ascii_lowercase, is_ascii_uppercase, is_ascii_digit,
    in_range, contains, plain_byte; cbn [existsb];
  change (ch ".") with 46; change (ch "-") with 45; change (ch "_") with 95; change (ch ":") with 58;
  let Hb := fresh in intros Hb;
  repeat (apply orb_true_iff in Hb as [Hb | Hb]); bool_facts; try done; lia.
Lemma host_char_plain b : is_host_char b = true -> plain_byte b.
Proof. unfold is_host_char. byte_class. Qed.
Lemma user_char_plain b : is_user_char b = true -> plain_byte b.
Proof. unfold is_user_char. byte_class. Qed.

Lemma path_single_line path field : validate_path path field = Ok tt -> single_line path.
Proof.
  unfold validate_path, single_line. intros Hv. bool_facts.
  match goal with H : existsb _ _ = false |- _ => rename H into He end.
  apply Forall_forall. intros b Hb ->. apply not_true_iff_false in He. apply He, existsb_exists. exists 10.
  split; [by apply list_elem_of_In | done].
Qed.
Lemma decimal_token n : 0 <= n -> token (decimal_of n).
Proof.
  intros Hn. destruct (decimal_digits n Hn) as (l & E & Hl & Hne & _). split.
  - rewrite E. eapply Forall_impl; [exact Hl |]. unfold digit, plain_byte. lia.
  - intros Hd. rewrite Hd in E. by subst l.
Qed.
Lemma token_app s t : token s -> Forall plain_byte (bytes t) -> token (s +:+ t).
Proof.
  intros [Hs Hne] Ht. split; [rewrite bytes_app; by apply Forall_app |]. by destruct s.
Qed.

Ltac plain_bytes := vm_compute; repeat (constructor; [split; [split; discriminate | discriminate] |]); constructor.
Lemma alias_token index : token (jump_alias index).
Proof.
  unfold jump_alias. apply token_app; [split; [plain_bytes | done] |]. apply decimal_token. lia.
Qed.
Lemma join_token l : Forall token l -> l <> [] -> token (join "," l).
Proof.
  induction 1 as [| s l Hs Hl IH]; [done |]. intros _. destruct l as [| s' l]; [exact Hs |].
  change (join "," (s :: s' :: l)) with (s +:+ "," +:+ join "," (s' :: l)).
  apply token_app; [done |]. rewrite bytes_app. apply Forall_app. split; [plain_bytes | by apply IH].
Qed.

(** What [validate] says of an endpoint. *)
Record endpoint_ok (e : Endpoint) : Prop := {
  ok_host : token (ep_host e);
  ok_user : forall user, ep_user e = Some user -> token user;
  ok_known_hosts : single_line (known_hosts_file (ep_trust e));
  ok_revoked : forall path, revoked_host_keys_file (ep_trust e) = Some path -> single_line path;
  ok_identity : forall path, ep_authentication e = IdentityFile path \/ ep_authentication e = IdentityFileWithPassphrase path ->
    single_line path;
}.
Lemma validated_endpoint e field : validate_endpoint e field = Ok tt -> endpoint_ok e.
Proof.
  unfold validate_endpoint. intros ([] & Hh & Hv)%result_bind_ok. apply result_bind_ok in Hv as ([] & Hu & Hv). bool_facts.
  apply result_bind_ok in Hv as ([] & Hk & Hv). apply result_bind_ok in Hv as ([] & Hr & Ha). split.
  - by eapply token_of, Hh; apply host_char_plain.
  - intros user E. rewrite E in Hu. by eapply token_of, Hu; apply user_char_plain.
  - by eapply path_single_line.
  - intros path E. rewrite E in Hr. by eapply path_single_line.
  - intros path [E | E]; rewrite E in Ha; by eapply path_single_line.
Qed.

Lemma validated_profile p : SshProfile_validate p = Ok tt -> endpoint_ok (target p) /\ Forall endpoint_ok (jump_hosts p).
Proof.
  unfold SshProfile_validate. intros Hv. bool_facts. apply result_bind_ok in Hv as ([] & Ht & Hj).
  split; [by eapply validated_endpoint |]. apply try_for_each_ok in Hj. rewrite Forall_forall in Hj.
  apply Forall_forall. intros e (i & Hi)%list_elem_of_lookup. eapply validated_endpoint.
  apply (Hj (i, e)). apply list_elem_of_lookup. exists i. by rewrite list_lookup_imap, Hi.
Qed.

(** ** The configuration *)

(** A line that is a literal. *)
Ltac literal := apply reads_line; [repeat (constructor; [discriminate |]); constructor | reflexivity].
Ltac literals := repeat (apply reads_joined_cons; [literal |]); try apply reads_nil.
Ltac indent := match goal with |- single_line _ => repeat (constructor; [discriminate |]); constructor | |- _ => done end.

Lemma reads_authentication e : endpoint_ok e ->
  reads (joined (render_authentication (ep_authentication e))) (authentication_settings (ep_authentication e)).
Proof.
  intros He. pose proof (ok_identity e He) as Hpath. destruct (ep_authentication e) as [| path | path |]; cbn [render_authentication authentication_settings].
  - literals.
  - literals. apply reads_joined_cons; [| literals]. apply (reads_quoted "  IdentityFile "); [indent | indent | auto].
  - literals. apply reads_joined_cons; [| literals]. apply (reads_quoted "  IdentityFile "); [indent | indent | auto].
  - literals.
Qed.

Lemma reads_host alias e : endpoint_ok e -> 0 <= ep_port e -> token alias ->
  reads (joined (render_host alias e)) (("Host"%string, [alias]) :: endpoint_settings e).
Proof.
  intros He Hp Ha. unfold render_host, endpoint_settings. cbn [app].
  apply reads_joined_cons; [by apply (reads_token "Host "); [indent | |] |].
  apply reads_joined_cons; [apply (reads_token "  HostName "); [indent | done | apply He] |].
  apply reads_joined_cons; [apply (reads_token "  Port "); [indent | done | by apply decimal_token] |].
  apply reads_joined_app.
  { destruct (ep_user e) as [user |] eqn:Hu; [| apply reads_nil].
    apply reads_joined_cons; [| apply reads_nil]. apply (reads_token "  User "); [indent | done | by apply (ok_user e He)]. }
  apply reads_joined_cons.
  { apply (reads_token "  StrictHostKeyChecking "); [indent | done |].
    destruct (policy (ep_trust e)); (split; [plain_bytes | done]). }
  apply reads_joined_cons; [apply (reads_quoted "  UserKnownHostsFile "); [indent | done | apply He] |].
  apply reads_joined_app.
  { destruct (revoked_host_keys_file (ep_trust e)) as [path |] eqn:Hr; [| apply reads_nil].
    apply reads_joined_cons; [| apply reads_nil]. apply (reads_quoted "  RevokedHostKeys "); [indent | done | by apply (ok_revoked e He)]. }
  rewrite <- (app_nil_r (authentication_settings _)). apply reads_joined_app; [by apply reads_authentication |].
  exact reads_blank.
Qed.

Lemma reads_global : reads (joined global_lines) (("Host"%string, ["*"%string]) :: global_settings).
Proof. unfold global_lines, global_settings. literals. exact reads_blank. Qed.

(** A profile whose ports are those of a [u16]. *)
Definition ports_typed (p : SshProfile) : Prop := Forall (fun e => 0 <= ep_port e) (target p :: jump_hosts p).

Definition config_directives (p : SshProfile) : list directive :=
  (("Host"%string, ["*"%string]) :: global_settings)
  ++ concat ((fun '(host, settings) => ("Host"%string, [host]) :: settings) <$> config_hosts p).

Lemma reads_config p : SshProfile_validate p = Ok tt -> ports_typed p -> reads (render_config p) (config_directives p).
Proof.
  intros Hv [Htp Hjp]%Forall_cons. destruct (validated_profile p Hv) as [Ht Hj]. unfold render_config, config_directives.
  apply reads_joined_app; [apply reads_global |]. unfold config_hosts. rewrite fmap_app, concat_app.
  apply reads_joined_app.
  - apply reads_joined_concat. clear Ht Htp Hv. revert Hj Hjp. generalize (jump_hosts p) as jumps.
    assert (Hgen : forall jumps (f : nat -> string), (forall i, token (f i)) -> Forall endpoint_ok jumps -> Forall (fun e => 0 <= ep_port e) jumps ->
      Forall2 (fun parts ds => reads (joined parts) ds) (imap (fun index e => render_host (f index) e) jumps)
        ((fun '(host, settings) => ("Host"%string, [host]) :: settings) <$> imap (fun index e => (f index, endpoint_settings e)) jumps)).
    { intros jumps. induction jumps as [| e jumps IH]; intros f Hf Hj Hjp; [constructor |].
      apply Forall_cons in Hj as [He Hj]. apply Forall_cons in Hjp as [Hp Hjp]. rewrite !imap_cons, fmap_cons. constructor; [by apply reads_host |].
      by apply (IH (fun i => f (S i))). }
    intros jumps Hj Hjp. by apply Hgen; [apply alias_token | |].
  - cbn [fmap list_fmap concat]. rewrite app_nil_r. unfold target_settings. rewrite app_comm_cons.
    apply reads_joined_app; [apply reads_host; [done | done | split; [plain_bytes | done]] |].
    destruct (jump_hosts p) as [| e jumps] eqn:Ej; [apply reads_nil |]. apply reads_joined_cons; [| apply reads_nil].
    apply (reads_token "  ProxyJump "); [indent | done |]. apply join_token; [| done].
    apply Forall_forall. intros s (i & Hs)%list_elem_of_lookup. rewrite list_lookup_imap in Hs.
    destruct ((e :: jumps) !! i); [| done]. injection Hs as <-. apply alias_token.
Qed.

Lemma setting_block active host keyword settings rest :
  Forall (fun d : directive => d.1 <> "Host"%string) settings ->
  setting_from active host keyword (settings ++ rest) =
  match (if active then first_value keyword settings else None) with
  | Some v => Some v
  | None => setting_from active host keyword rest
  end.
Proof.
  induction 1 as [| [k args] settings Hk _ IH]; [by destruct active |]. simpl in Hk.
  cbn [app setting_from]. rewrite (proj2 (String.eqb_neq _ _) Hk), IH. unfold first_value. cbn [List.find fst].
  destruct active; [| done]. cbn [andb]. by destruct (String.eqb k keyword).
Qed.

Lemma no_header_authentication a : Forall (fun d : directive => d.1 <> "Host"%string) (authentication_settings a).
Proof. destruct a; repeat constructor; discriminate. Qed.
Lemma no_header_endpoint e : Forall (fun d : directive => d.1 <> "Host"%string) (endpoint_settings e).
Proof.
  unfold endpoint_settings. apply Forall_app_2; [repeat constructor; discriminate |].
  apply Forall_app_2; [destruct (ep_user e); repeat constructor; discriminate |].
  apply Forall_app_2; [repeat constructor; discriminate |].
  apply Forall_app_2; [| apply no_header_authentication].
  destruct (revoked_host_keys_file _); repeat constructor; discriminate.
Qed.
Lemma no_header_config p : Forall (fun h : string * list directive => Forall (fun d => d.1 <> "Host"%string) h.2) (config_hosts p).
Proof.
  unfold config_hosts. apply Forall_app_2.
  - apply Forall_forall. intros h (i & Hh)%list_elem_of_lookup. rewrite list_lookup_imap in Hh.
    destruct (jump_hosts p !! i); [| done]. injection Hh as <-. apply no_header_endpoint.
  - constructor; [| constructor]. simpl. unfold target_settings. apply Forall_app_2; [apply no_header_endpoint |].
    destruct (jump_hosts p); repeat constructor. discriminate.
Qed.

Lemma setting_other active host keyword hosts :
  Forall (fun h : string * list directive => Forall (fun d => d.1 <> "Host"%string) h.2) hosts ->
  Forall (fun h => h.1 <> "*"%string /\ h.1 <> host) hosts ->
  setting_from active host keyword (concat ((fun '(host, settings) => ("Host"%string, [host]) :: settings) <$> hosts)) = None.
Proof.
  intros Hn. revert active. induction Hn as [| [h settings] hosts Hs _ IH]; intros active Ho; [done |].
  apply Forall_cons in Ho as [[Hstar Hne] Ho]. simpl in *.
  rewrite (proj2 (String.eqb_neq _ _) Hstar), (proj2 (String.eqb_neq _ _) Hne). cbn [orb].
  rewrite setting_block by done. by apply IH.
Qed.
Lemma setting_host active host keyword hosts settings :
  Forall (fun h : string * list directive => Forall (fun d => d.1 <> "Host"%string) h.2) hosts ->
  Forall (fun h => h.1 <> "*"%string) hosts -> NoDup hosts.*1 -> (host, settings) ∈ hosts ->
  setting_from active host keyword (concat ((fun '(host, settings) => ("Host"%string, [host]) :: settings) <$> hosts))
  = first_value keyword settings.
Proof.
  intros Hn. revert active. induction Hn as [| [h s] hosts Hs Hn IH]; intros active Hstar Hnd Hin; [by apply not_elem_of_nil in Hin |].
  apply Forall_cons in Hstar as [Hst Hstar]. apply NoDup_cons in Hnd as [Hh Hnd]. simpl in Hs, Hst.
  cbn [fmap list_fmap concat app setting_from String.eqb Ascii.eqb Bool.eqb existsb].
  rewrite (proj2 (String.eqb_neq _ _) Hst). cbn [orb]. rewrite setting_block by done.
  apply elem_of_cons in Hin as [[= -> ->] | Hin].
  - rewrite String.eqb_refl. cbn [orb]. destruct (first_value keyword s); [done |]. apply setting_other; [done |].
    apply Forall_forall. intros [h' s'] Hin. split; [by rewrite Forall_forall in Hstar; apply (Hstar _ Hin) |]. simpl. intros ->.
    apply Hh. apply list_elem_of_fmap. by exists (h, s').
  - replace (String.eqb h host) with false; [by apply IH |]. symmetry. apply String.eqb_neq. intros ->. apply Hh.
    apply list_elem_of_fmap. by exists (host, settings).
Qed.

Lemma jump_alias_inj i j : jump_alias i = jump_alias j -> i = j.
Proof.
  unfold jump_alias. intros E. cut (decimal_of (Z.of_nat i) = decimal_of (Z.of_nat j)).
  - unfold decimal_of. intros Hp%(inj pretty). lia.
  - revert E. generalize (decimal_of (Z.of_nat i)) (decimal_of (Z.of_nat j)). intros s t E. vm_compute in E. by injection E.
Qed.
Lemma config_hosts_nodup p : NoDup (config_hosts p).*1 /\ Forall (fun h => h.1 <> "*"%string) (config_hosts p).
Proof.
  unfold config_hosts. split.
  - rewrite fmap_app. apply NoDup_app. split_and!; [| | apply NoDup_singleton].
    + apply NoDup_alt. intros i j s Hi Hj. rewrite list_lookup_fmap, list_lookup_imap in Hi, Hj.
      destruct (jump_hosts p !! i), (jump_hosts p !! j); try done. apply jump_alias_inj. simpl in Hi, Hj. congruence.
    + intros s Hs Ht. apply list_elem_of_singleton in Ht. apply list_elem_of_fmap in Hs as ([h settings] & E & Hin).
      apply list_elem_of_lookup in Hin as (i & Hi). rewrite list_lookup_imap in Hi. destruct (jump_hosts p !! i); [| done].
      simpl in Hi, E, Ht. assert (E2 : jump_alias i = TARGET_ALIAS) by congruence. vm_compute in E2. discriminate E2.
  - apply Forall_app_2; [| repeat constructor; discriminate].
    apply Forall_forall. intros h (i & Hh)%list_elem_of_lookup. rewrite list_lookup_imap in Hh.
    destruct (jump_hosts p !! i); [| done]. injection Hh as <-. unfold jump_alias. discriminate.
Qed.

(** C15: What [ssh] is told is what the profile means. The text of a validated
    profile is read by the rules of ssh_config(5), no name or path in it adds or
    changes a directive, and the first value [ssh] obtains for a keyword, for the
    target and for each jump, is that of the fixed settings - no forwarding, no
    local command, no shared connection - or of that host's own: its name, port
    and user, the strictness of its host key, the files it is checked against,
    and the one way to authenticate. The target goes through all jumps in order. *)
Theorem config_says_what_the_profile_means p :
  SshProfile_validate p = Ok tt -> ports_typed p ->
  exists directives, read_directives (render_config p) = Some directives /\
    forall host settings keyword, (host, settings) ∈ config_hosts p ->
      setting host keyword directives = first_value keyword (global_settings ++ settings).
Proof.
  intros Hv Hp. exists (config_directives p). split; [by apply reads_all, reads_config |].
  intros host settings keyword Hin. unfold setting, config_directives. cbn [app setting_from String.eqb Ascii.eqb Bool.eqb existsb orb].
  rewrite setting_block by (repeat constructor; discriminate). destruct (config_hosts_nodup p) as [Hnd Hstar].
  rewrite (setting_host _ _ _ _ settings) by (done || apply no_header_config).
  unfold first_value. induction global_settings as [| d l IH]; [done |]. cbn [app List.find].
  by destruct (String.eqb d.1 keyword).
Qed.

(** ** The batch *)

(** What can be said to [sftp]: a path is not empty and has no line break, a
    local one is absolute. *)
Definition sayable (path : string) : bool := negb (is_empty path) && negb (has_line_break path).
Definition sayable_local (path : string) : bool := is_absolute path && negb (has_line_break path).
Definition sayable_operation (o : SftpOperation) : bool :=
  match o with
  | Sftp_List path | Sftp_Stat path | Sftp_CreateDirectory path | Sftp_RemoveFile path | Sftp_RemoveDirectory path =>
      sayable path
  | Sftp_Download remote local | Sftp_Upload local remote => sayable remote && sayable_local local
  | Sftp_Rename from to => sayable from && sayable to
  end.

Lemma no_break_single_line path : has_line_break path = false -> single_line path.
Proof.
  unfold has_line_break, single_line. intros He. apply Forall_forall. intros b Hb ->.
  apply not_true_iff_false in He. apply He, existsb_exists. exists 10. split; [by apply list_elem_of_In | done].
Qed.
Lemma quote_remote_spec path field :
  quote_remote path field = if sayable path then Ok (quote_config_path path) else Err (InvalidSftpPath field).
Proof. unfold quote_remote, sayable. by destruct (is_empty path), (has_line_break path). Qed.
Lemma quote_local_spec path field :
  quote_local path field = if sayable_local path then Ok (quote_config_path path) else Err (InvalidLocalPath field).
Proof. unfold quote_local, sayable_local. by destruct (is_absolute path), (has_line_break path). Qed.

Lemma trim_end_slashes_bytes path (P : Z -> Prop) : Forall P (bytes path) -> Forall P (bytes (trim_end_slashes path)).
Proof.
  induction path as [| a path IH]; [done |]. intros [Ha Hp]%Forall_cons. specialize (IH Hp). cbn [trim_end_slashes].
  destruct (trim_end_slashes path) as [| b q]; [destruct (Ascii.eqb a "/"); repeat constructor; done |].
  by constructor.
Qed.
Lemma rsplit_once_parts c s l r : rsplit_once c s = Some (l, r) -> s = l +:+ String c r.
Proof.
  revert l r. induction s as [| a s IH]; intros l r; [done |]. cbn [rsplit_once].
  destruct (rsplit_once c s) as [[l' r'] |]; [intros [= <- <-]; rewrite (IH _ _ eq_refl); done |].
  destruct (Ascii.eqb_spec a c) as [-> |]; [| done]. by intros [= <- <-].
Qed.
(** The parent of what can be said can be said. *)
Lemma parent_sayable path field : sayable path = true ->
  sftp_parent_path path field = Ok (parent_of path) /\ sayable (parent_of path) = true.
Proof.
  intros Hs. assert (E : forall f, sftp_parent_path path f = Ok (parent_of path)).
  { intros f. unfold parent_of, sftp_parent_path. unfold sayable in Hs. apply andb_true_iff in Hs as [?%negb_true_iff ?%negb_true_iff].
    rewrite H, H0. cbn [orb]. by destruct (is_empty (trim_end_slashes path)). }
  split; [apply E |]. specialize (E field). unfold sftp_parent_path in E. unfold sayable in Hs |- *.
  apply andb_true_iff in Hs as [Hne%negb_true_iff Hb%negb_true_iff]. rewrite Hne, Hb in E. cbn [orb] in E.
  destruct (is_empty (trim_end_slashes path)) eqn:He; [by injection E as <- |]. injection E as <-.
  destruct (rsplit_once "/" (trim_end_slashes path)) as [[parent name] |] eqn:Hr; [| done].
  destruct parent as [| a parent]; [done |]. apply rsplit_once_parts in Hr. simpl is_empty. cbn [negb andb].
  assert (Hall : Forall (fun b => contains b [nul; 10; 13] = false) (bytes (trim_end_slashes path))).
  { apply trim_end_slashes_bytes, Forall_forall. intros b Hin. apply not_true_iff_false. intros Hc.
    apply not_true_iff_false in Hb. apply Hb, existsb_exists. exists b. by rewrite <- list_elem_of_In. }
  rewrite Hr, bytes_app in Hall. apply Forall_app in Hall as [Hall _]. apply negb_true_iff.
  unfold has_line_break. apply not_true_iff_false. rewrite existsb_exists. intros (b & Hin & Hc).
  rewrite Forall_forall in Hall. rewrite (Hall b) in Hc; [done | by apply list_elem_of_In].
Qed.

Lemma reads_two command args a b : single_line command -> single_line a -> single_line b ->
  (forall w, scan Between EmptyString (command +:+ w) = app args <$> scan Between EmptyString w) ->
  match args with keyword :: more => reads (line (command +:+ quote_config_path a +:+ (" " +:+ quote_config_path b))) [(keyword, more ++ [a; b])] | [] => True end.
Proof.
  intros Hc Ha Hb Hscan. destruct args as [| keyword more]; [done |]. apply reads_line.
  - rewrite !single_line_app. split_and!; [done | by apply quote_single_line | repeat constructor; discriminate | by apply quote_single_line].
  - unfold words. rewrite Hscan.
    assert (E : forall w, quote_config_path a +:+ w = String double_quote (escape_quotes a +:+ String double_quote w)).
    { intros w. unfold quote_config_path. change (String double_quote (escape_quotes a +:+ String double_quote EmptyString) +:+ w)
        with (String double_quote ((escape_quotes a +:+ String double_quote EmptyString) +:+ w)). by rewrite <- append_assoc. }
    rewrite E, scan_quote. change (" " +:+ quote_config_path b) with (String " " (quote_config_path b)).
    cbn [scan is_blank Ascii.eqb Bool.eqb orb]. unfold quote_config_path. by rewrite scan_quote.
Qed.
Lemma reads_one command keyword more a : single_line command -> single_line a ->
  (forall w, scan Between EmptyString (command +:+ w) = app (keyword :: more) <$> scan Between EmptyString w) ->
  reads (line (command +:+ quote_config_path a)) [(keyword, more ++ [a])].
Proof.
  intros Hc Ha Hscan. apply reads_line.
  - rewrite single_line_app. split; [done | by apply quote_single_line].
  - unfold words. rewrite Hscan. unfold quote_config_path. by rewrite scan_quote.
Qed.

Lemma sayable_single_line path : sayable path = true -> single_line path.
Proof. intros [_ Hb%negb_true_iff]%andb_true_iff. by apply no_break_single_line. Qed.
Lemma sayable_local_single_line path : sayable_local path = true -> single_line path.
Proof. intros [_ Hb%negb_true_iff]%andb_true_iff. by apply no_break_single_line. Qed.

Lemma scan_ls w : scan Between EmptyString ("ls -lan " +:+ w) = app ["ls"; "-lan"]%string <$> scan Between EmptyString w.
Proof.
  change (cons "ls"%string <$> (cons "-lan"%string <$> scan Between EmptyString w)
    = app ["ls"; "-lan"]%string <$> scan Between EmptyString w).
  by destruct (scan Between EmptyString w).
Qed.
Ltac says := first [exact scan_ls | reflexivity].

Lemma render_operation_spec prefix o :
  if sayable_operation o then exists text, render_operation prefix o = Ok text /\ reads text [sftp_command o]
  else is_err (render_operation prefix o) = true.
Proof.
  destruct o as [path | path | remote local | local remote | path | path | path | from to];
    cbn [sayable_operation render_operation sftp_command]; rewrite ?quote_remote_spec, ?quote_local_spec.
  - destruct (sayable path) eqn:Hp; [| done]. eexists. split; [done |].
    by apply (reads_one "ls -lan " "ls" ["-lan"%string]); [indent | apply sayable_single_line | says].
  - destruct (sayable path) eqn:Hp.
    + destruct (parent_sayable path (prefix +:+ ".remote_path") Hp) as [-> Hpp]. cbn [result_bind].
      rewrite quote_remote_spec, Hpp. eexists. split; [done |].
      by apply (reads_one "ls -lan " "ls" ["-lan"%string]); [indent | apply sayable_single_line | says].
    + replace (sftp_parent_path path (prefix +:+ ".remote_path")) with (Err (InvalidSftpPath (prefix +:+ ".remote_path")) : result string AdapterError); [done |].
      unfold sftp_parent_path, sayable in *. by destruct (is_empty path), (has_line_break path).
  - destruct (sayable remote) eqn:Hr; [| done]. cbn [result_bind andb].
    destruct (sayable_local local) eqn:Hl; [| done]. eexists. split; [done |].
    by apply (reads_two "get " ["get"%string]); [indent | apply sayable_single_line | apply sayable_local_single_line | says].
  - destruct (sayable_local local) eqn:Hl; [| by destruct (sayable remote)]. rewrite andb_true_r. cbn [result_bind].
    destruct (sayable remote) eqn:Hr; [| done]. eexists. split; [done |].
    by apply (reads_two "put " ["put"%string]); [indent | apply sayable_local_single_line | apply sayable_single_line | says].
  - destruct (sayable path) eqn:Hp; [| done]. eexists. split; [done |].
    by apply (reads_one "mkdir " "mkdir" []); [indent | apply sayable_single_line | says].
  - destruct (sayable path) eqn:Hp; [| done]. eexists. split; [done |].
    by apply (reads_one "rm " "rm" []); [indent | apply sayable_single_line | says].
  - destruct (sayable path) eqn:Hp; [| done]. eexists. split; [done |].
    by apply (reads_one "rmdir " "rmdir" []); [indent | apply sayable_single_line | says].
  - destruct (sayable from) eqn:Hr; [| done]. cbn [result_bind andb].
    destruct (sayable to) eqn:Hl; [| done]. eexists. split; [done |].
    by apply (reads_two "rename " ["rename"%string]); [indent | apply sayable_single_line | apply sayable_single_line | says].
Qed.

Lemma render_operations_spec ops : forall index,
  if forallb sayable_operation ops then exists text, render_operations index ops = Ok text /\ reads text (sftp_command <$> ops)
  else is_err (render_operations index ops) = true.
Proof.
  induction ops as [| o ops IH]; intros index; [exists EmptyString; split; [done | apply reads_nil] |].
  cbn [forallb render_operations]. pose proof (render_operation_spec ("operations[" +:+ decimal_of index +:+ "]") o) as Ho.
  destruct (sayable_operation o); cbn [andb].
  - destruct Ho as (text & -> & Ht). cbn [result_bind]. specialize (IH (index + 1)).
    destruct (forallb sayable_operation ops).
    + destruct IH as (rest & -> & Hr). eexists. split; [done |]. rewrite fmap_cons. by apply (reads_app text rest [sftp_command o]).
    + by destruct (render_operations (index + 1) ops).
  - by destruct (render_operation _ o).
Qed.

(** C18: The batch [sftp] reads has the operations that were asked for, in order, one
    command each with the paths as its words, whatever quotes, blanks and
    backslashes are in them; there is a batch exactly if there is an operation
    and every path can be said - it is not empty and breaks no line, and a local
    one is absolute. *)
Theorem batch_has_the_operations ops :
  match render_sftp_batch ops with
  | Ok text => ops <> [] /\ forallb sayable_operation ops = true /\ read_directives text = Some (sftp_command <$> ops)
  | Err _ => ops = [] \/ forallb sayable_operation ops = false
  end.
Proof.
  unfold render_sftp_batch. destruct ops as [| o ops]; [by left |].
  pose proof (render_operations_spec (o :: ops) 0) as Hs. destruct (forallb sayable_operation (o :: ops)).
  - destruct Hs as (text & -> & Ht). split_and!; [done | done |]. by apply reads_all.
  - destruct (render_operations 0 (o :: ops)); [done | by right].
Qed.

(** ** Preparing a connection *)

(** The secret store and the profile store answer the same whenever they answer. *)
Class SshEnvLaws (W : Type) `{SshEnv W} (vault : SecretRef -> list Z) (book : ProfileId -> RemoteConnectionProfile) := {
  resolve_secret_is : forall r w w' s, resolve_secret r w = (w', Ok s) -> s = vault r;
  resolve_jump_is : forall id w w' p, resolve_jump id w = (w', Ok p) -> p = book id;
}.

Section Prepared.
Context {W : Type} `{SshEnvLaws W}.

Lemma calls_ok {A E F} (f : E -> F) (m : mut W A E) w w' a : calls f m w = (w', Ok a) <-> m w = (w', Ok a).
Proof. apply mut_map_err_ok. Qed.
Lemma refuse_ok {A} (r : result A RemoteError) (w w' : W) a : refuse r w = (w', Ok a) <-> w' = w /\ r = Ok a.
Proof. apply lift_ok. Qed.

(** The program that is given a secret: a plain file that can be run, that only
    the owner of the daemon can write to, and that is the same user's. *)
Definition trusted_helper (path : string) : Prop :=
  exists w1 w2 m w3 w4 exe, symlink_metadata path w1 = (w2, Ok m) /\ proc_self_exe w3 = (w4, Ok exe) /\
    meta_symlink m = false /\ meta_file m = true /\ Z.land (meta_mode m) 73 <> 0 /\ Z.land (meta_mode m) 18 = 0 /\
    meta_uid m = meta_uid exe.

Lemma askpass_new secret w w' a : AskpassSecret_new secret w = (w', Ok a) ->
  askpass_secret a = secret /\ trusted_helper (askpass_helper a).
Proof.
  unfold AskpassSecret_new. intros (w1 & [] & _ & Hk)%bind_ok. apply bind_ok in Hk as (w2 & helper & _ & Hk).
  apply bind_ok in Hk as (w3 & [] & Hh & Hk). apply bind_ok in Hk as (w4 & file & _ & Hk).
  apply bind_ok in Hk as (w5 & [] & _ & Hk). apply bind_ok in Hk as (w6 & [] & _ & Hk).
  apply bind_ok in Hk as (w7 & [] & _ & Hk). apply ret_ok in Hk as [_ ->]. split; [done |]. simpl.
  unfold validate_helper_path in Hh. apply bind_ok in Hh as (v1 & m & Hm%calls_ok & Hh).
  apply bind_ok in Hh as (v2 & [] & [-> Hg]%refuse_ok & Hh). apply bind_ok in Hh as (v3 & exe & He%calls_ok & Hh).
  apply refuse_ok in Hh as [-> Hu]. bool_facts. by exists w2, v1, m, v1, v3, exe.
Qed.

(** What a host asks for at a prompt. *)
Definition prompt_secret (p : RemoteConnectionProfile) : option (list Z) :=
  match profile_authentication p with
  | Auth_Password r | SshKey _ (Some r) => Some (vault r)
  | _ => None
  end.
Definition authenticates (a : Authentication) (s : SshAuthentication) : Prop :=
  match a, s with
  | SshAgent, Agent | SshKey _ None, IdentityFile _ | SshKey _ (Some _), IdentityFileWithPassphrase _
  | Auth_Password _, PasswordPrompt => True
  | _, _ => False
  end.
(** The host of a profile. *)
Definition host_of (trust : HostTrust) (bridge : BridgeKind) (accept : bool) (p : RemoteConnectionProfile) (e : Endpoint) : Prop :=
  ep_host e = endpoint_host (profile_endpoint p) /\ ep_port e = endpoint_port (profile_endpoint p) /\
  ep_user e = profile_username p /\ known_hosts_file (ep_trust e) = known_hosts_file trust /\
  revoked_host_keys_file (ep_trust e) = revoked_host_keys_file trust /\
  host_key_policy (profile_trust p) bridge accept = Ok (policy (ep_trust e)) /\
  authenticates (profile_authentication p) (ep_authentication e).

Definition held_secret (held : Secrets) : option (list Z) := askpass_secret <$> askpass held.
Definition helpers_trusted (held : Secrets) : Prop := forall a, askpass held = Some a -> trusted_helper (askpass_helper a).

Lemma map_authentication_spec p bridge held w w' x : helpers_trusted held ->
  map_authentication (profile_authentication p) bridge held w = (w', Ok x) ->
  authenticates (profile_authentication p) x.1 /\ helpers_trusted x.2 /\
  held_secret x.2 = match prompt_secret p with Some s => Some s | None => held_secret held end.
Proof.
  intros Ht. unfold map_authentication, prompt_secret, secret_of. destruct (profile_authentication p) as [| r | | key [r |] |]; try done.
  - intros (w1 & s & Hs%calls_ok & Hk)%bind_ok. apply resolve_secret_is in Hs as ->.
    apply bind_ok in Hk as (w2 & a & Ha & [-> ->]%ret_ok). apply askpass_new in Ha as [Es Ha].
    split_and!; [done | by intros a' [= <-] |]. unfold held_secret. simpl. by rewrite Es.
  - by intros [-> ->]%ret_ok.
  - intros (w1 & s & _ & Hk)%bind_ok. apply bind_ok in Hk as (w2 & [] & _ & Hk). apply bind_ok in Hk as (w3 & path & _ & Hk).
    apply bind_ok in Hk as (w4 & s' & Hs%calls_ok & Hk). apply resolve_secret_is in Hs as ->.
    apply bind_ok in Hk as (w5 & a & Ha & [-> ->]%ret_ok). apply askpass_new in Ha as [Es Ha].
    split_and!; [done | by intros a' [= <-] |]. unfold held_secret. simpl. by rewrite Es.
  - intros (w1 & s & _ & Hk)%bind_ok. apply bind_ok in Hk as (w2 & [] & _ & Hk). apply bind_ok in Hk as (w3 & path & _ & Hk).
    by apply ret_ok in Hk as [-> ->].
Qed.

Lemma map_endpoint_spec p trust held bridge accept w w' x : helpers_trusted held ->
  map_endpoint p trust held bridge accept w = (w', Ok x) ->
  host_of trust bridge accept p x.1 /\ helpers_trusted x.2 /\
  held_secret x.2 = match prompt_secret p with Some s => Some s | None => held_secret held end.
Proof.
  intros Ht. unfold map_endpoint. intros (w1 & pol & [-> Hp]%refuse_ok & Hk)%bind_ok.
  apply bind_ok in Hk as (w2 & y & Hy & [-> ->]%ret_ok). apply map_authentication_spec in Hy as (Ha & Hh & Hs); [| done].
  done.
Qed.

(** The secret that is held after a chain: that of the last host that asks. *)
Definition secret_after (held : option (list Z)) (chain : list RemoteConnectionProfile) : option (list Z) :=
  fold_left (fun held p => match prompt_secret p with Some s => Some s | None => held end) chain held.
Lemma secret_after_last chain held : secret_after held chain =
  match last (omap prompt_secret chain) with Some s => Some s | None => held end.
Proof.
  revert held. induction chain as [| p chain IH]; intros held; [done |].
  change (secret_after (match prompt_secret p with Some s => Some s | None => held end) chain =
    match last (match prompt_secret p with Some s => s :: omap prompt_secret chain | None => omap prompt_secret chain end)
    with Some s => Some s | None => held end).
  rewrite IH. destruct (prompt_secret p) as [s |]; [| done].
  generalize (omap prompt_secret chain). intros [| s' l]; [done |]. rewrite last_cons_cons. by destruct (last (s' :: l)) eqn:E; [| by apply last_None in E].
Qed.

Lemma map_jumps_spec ids trust bridge : forall held jumps w w' x, helpers_trusted held ->
  map_jumps ids trust held bridge jumps w = (w', Ok x) ->
  exists more, x.1 = jumps ++ more /\ Forall2 (host_of trust bridge false) (book <$> ids) more /\ helpers_trusted x.2 /\
    Forall (fun j => validate_jump_profile j bridge = Ok tt) (book <$> ids) /\
    held_secret x.2 = secret_after (held_secret held) (book <$> ids).
Proof.
  induction ids as [| id ids IH]; intros held jumps w w' x Ht; cbn [map_jumps].
  - intros [-> ->]%ret_ok. exists []. by rewrite app_nil_r.
  - intros (w1 & jump & Hj & Hk)%bind_ok. apply resolve_jump_is in Hj as ->.
    apply bind_ok in Hk as (w2 & [] & [-> Hv]%refuse_ok & Hk). apply bind_ok in Hk as (w3 & y & Hy & Hk).
    apply map_endpoint_spec in Hy as (Hh & Ht' & Hs); [| done]. apply IH in Hk as (more & E & Hm & Ht'' & Hvs & Hs'); [| done].
    exists (y.1 :: more). rewrite E, <- app_assoc. split_and!; [done | by constructor | done | by constructor |].
    rewrite Hs', Hs. done.
Qed.

Definition prepared_by (bridge : BridgeKind) (trust : HostTrust) (p : RemoteConnectionProfile) (accept : bool)
  : mut W PreparedProfile RemoteError :=
  match bridge with
  | Bridge_Sftp => prepare_profile trust p
  | Bridge_SshTerminal => prepare_terminal_profile trust p accept
  end.
Definition jump_ids (bridge : BridgeKind) (o : ProfileOptions) : option (list ProfileId) :=
  match bridge, o with
  | Bridge_Sftp, Options_Sftp ids | Bridge_SshTerminal, Options_Ssh ids false => Some ids
  | _, _ => None
  end.
(** New host keys are accepted for a terminal only. *)
Definition may_accept (bridge : BridgeKind) (accept : bool) : bool :=
  match bridge with Bridge_Sftp => false | Bridge_SshTerminal => accept end.

Lemma prepared_by_chain bridge trust p accept w w' r : prepared_by bridge trust p accept w = (w', Ok r) ->
  exists ids a b c, jump_ids bridge (profile_options p) = Some ids /\ RemoteConnectionProfile_validate p = Ok tt /\
    prepare_chain p ids trust bridge (may_accept bridge accept) a b c w = (w', Ok r).
Proof.
  destruct bridge; cbn [prepared_by]; unfold prepare_profile, prepare_terminal_profile;
    intros (w1 & [] & [-> Hv%map_err_ok]%refuse_ok & Hk)%bind_ok; apply bind_ok in Hk as (w2 & [] & [-> _]%refuse_ok & Hk);
    apply bind_ok in Hk as (w3 & [] & [-> _]%refuse_ok & Hk).
  - destruct (profile_options p) as [| ids | | |] eqn:Ho; try done. do 4 eexists. split_and!; [done | done | exact Hk].
  - destruct (profile_options p) as [ids [] | | | |] eqn:Ho; try done. do 4 eexists. split_and!; [done | done | exact Hk].
Qed.

End Prepared.

(** ** At concrete profiles *)

Section SshWitness.
Definition odd_path : string := "/home/me/" +:+ one double_quote +:+ "x" +:+ one backslash +:+ " y".
Definition odd_endpoint : Endpoint :=
  {| ep_host := "files.example"; ep_port := 22; ep_user := Some "me"%string;
     ep_trust := {| known_hosts_file := odd_path; revoked_host_keys_file := None; policy := Strict |};
     ep_authentication := Agent |}.
Definition odd_profile : SshProfile := {| target := odd_endpoint; jump_hosts := [odd_endpoint] |}.

Lemma config_says_what_the_profile_means_witness :
  exists directives, read_directives (render_config odd_profile) = Some directives /\
    setting TARGET_ALIAS "UserKnownHostsFile" directives = Some [odd_path] /\
    setting TARGET_ALIAS "ForwardAgent" directives = Some ["no"%string].
Proof.
  destruct (config_says_what_the_profile_means odd_profile) as (ds & Hread & Hset).
  - vm_compute. reflexivity.
  - repeat constructor; discriminate.
  - exists ds. split; [exact Hread |].
    split; (rewrite (Hset TARGET_ALIAS (target_settings odd_profile)); [reflexivity | right; left]).
Defined.

Definition demo_vault (r : SecretRef) : list Z := [100 + secret_item_id r].
Definition ssh_server (id secret : Z) : RemoteConnectionProfile :=
  {| profile_id := id; profile_label := "jump"; profile_protocol := Ssh;
     profile_endpoint := {| endpoint_host := "jump.example"; endpoint_port := 22 |};
     profile_username := Some "me"%string; profile_domain := None;
     profile_authentication := Auth_Password {| secret_backend := SecretService; secret_item_id := secret |};
     profile_trust := SshKnownHosts Reject; profile_options := Options_Ssh [] false |}.
Definition through (ids : list ProfileId) : RemoteConnectionProfile :=
  {| profile_id := 9; profile_label := "target"; profile_protocol := Ssh;
     profile_endpoint := {| endpoint_host := "target.example"; endpoint_port := 22 |};
     profile_username := Some "me"%string; profile_domain := None; profile_authentication := SshAgent;
     profile_trust := SshKnownHosts AskUser; profile_options := Options_Ssh ids false |}.

Definition helper_meta : FileMeta := {| meta_symlink := false; meta_file := true; meta_mode := 493; meta_uid := 1000 |}.
#[local] Instance demo_env : SshEnv unit := {|
  resolve_secret r := ret (demo_vault r);
  resolve_jump id := ret (ssh_server id id);
  new_tempfile prefix := ret ("/tmp/" +:+ prefix);
  write_tempfile _ _ := ret tt; sync_tempfile _ := ret tt;
  current_exe := ret "/opt/localdesk/bin/appd"%string;
  path_exists _ := ret true; symlink_metadata _ := ret helper_meta; proc_self_exe := ret helper_meta;
  memfd_create := ret 7; memfd_write _ _ := ret tt; memfd_rewind _ := ret tt; memfd_seal _ := ret tt |}.
#[local] Instance demo_env_laws : SshEnvLaws unit demo_vault (fun id => ssh_server id id).
Proof. split; [by intros r [] [] s [= <-] | by intros id [] [] q [= <-]]. Qed.

Definition demo_trust : HostTrust :=
  {| known_hosts_file := "/home/me/known_hosts"; revoked_host_keys_file := None; policy := Strict |}.
Definition prepared_through (ids : list ProfileId) : unit * result PreparedProfile RemoteError :=
  prepare_terminal_profile demo_trust (through ids) true tt.
Definition prepared_or {A} (default : A) (f : PreparedProfile -> A) (ids : list ProfileId) : A :=
  match (prepared_through ids).2 with Ok r => f r | Err _ => default end.


(** Two jumps that both ask for a password: the password of the second is what
    the first is answered with. *)
Example second_password_reaches_the_first_jump :
  prepared_or None (fun r => held_secret (prepared_secrets r)) [3; 4] = Some [104] /\
  prepared_or [] (fun r => ep_authentication <$> jump_hosts (prepared_profile r)) [3; 4] = [PasswordPrompt; PasswordPrompt] /\
  demo_vault {| secret_backend := SecretService; secret_item_id := 3 |} = [103].
Proof. vm_compute. split_and!; reflexivity. Qed.
End SshWitness.
