(* ===== verification/SshTerminal.v ===== *)
(** [crates/remote-ssh]: the terminal session over a pseudo-terminal (pty.rs,
    openssh.rs, terminal_bridge.rs).

    The calls of the kernel are the class [PtyEnv]; a session is used by one call
    at a time. The theorem: what a client reads is what the host wrote, in order,
    but for bytes that are counted as dropped. *)
From S2P Require Import Prelude RemoteCore Text FtpProtocol FtpSession SshProfile.

(** ** Sizes *)

Definition MAX_PTY_ROWS : Z := 1000.
Definition MAX_PTY_COLUMNS : Z := 1000.
Definition MAX_PTY_PIXEL_DIMENSION : Z := 32767.
(** In milliseconds. *)
Definition CLOSE_GRACE_PERIOD : Z := 250.
Definition CLOSE_POLL_INTERVAL : Z := 10.

Record PtySize := { pty_rows : Z; pty_columns : Z; pty_pixel_width : Z; pty_pixel_height : Z }.

Definition PtySize_with_pixels (rows columns pixel_width pixel_height : Z) : result PtySize PtyError :=
  fail_if (rows =? 0) || (MAX_PTY_ROWS <? rows) || (columns =? 0) || (MAX_PTY_COLUMNS <? columns)
          || (MAX_PTY_PIXEL_DIMENSION <? pixel_width) || (MAX_PTY_PIXEL_DIMENSION <? pixel_height)
    with Pty_InvalidSize rows columns pixel_width pixel_height in
  Ok {| pty_rows := rows; pty_columns := columns; pty_pixel_width := pixel_width; pty_pixel_height := pixel_height |}.
Definition PtySize_new (rows columns : Z) : result PtySize PtyError := PtySize_with_pixels rows columns 0 0.

Definition MAX_TERMINAL_OUTPUT_BYTES : Z := 64 * 1024.
Definition MAX_TERMINAL_INPUT_BYTES : Z := 64 * 1024.
Definition MAX_SSH_TRANSCRIPT_BYTES : Z := 64 * 1024.

Record SshTerminalCapabilities := {
  ssh_max_output_chunk_bytes : Z;
  ssh_max_pending_output_bytes : Z;
  ssh_max_input_chunk_bytes : Z;
  ssh_max_transcript_bytes : Z;
  ssh_max_rows : Z;
  ssh_max_columns : Z;
  ssh_max_pixel_dimension : Z;
  ssh_nonblocking_output : bool;
  ssh_fixed_openssh_program : bool;
}.
Definition TERMINAL_CAPABILITIES : SshTerminalCapabilities :=
  {| ssh_max_output_chunk_bytes := MAX_TERMINAL_OUTPUT_BYTES; ssh_max_pending_output_bytes := MAX_TERMINAL_OUTPUT_BYTES;
     ssh_max_input_chunk_bytes := MAX_TERMINAL_INPUT_BYTES; ssh_max_transcript_bytes := MAX_SSH_TRANSCRIPT_BYTES;
     ssh_max_rows := MAX_PTY_ROWS; ssh_max_columns := MAX_PTY_COLUMNS;
     ssh_max_pixel_dimension := MAX_PTY_PIXEL_DIMENSION; ssh_nonblocking_output := true;
     ssh_fixed_openssh_program := true |}.

Inductive SshSessionState := Ssh_Running | Ssh_Exited (code : option Z) | Ssh_Disconnected (reason : DisconnectReason)
  | Ssh_ClosedByClient.
Inductive SshTerminalRead := Ssh_Pending | Ssh_Data (output : list Z) | Ssh_EndOfStream.
Record SshTerminalStatus := {
  ssh_state : SshSessionState;
  ssh_pending_output_bytes : Z;
  ssh_pending_output_dropped_bytes : Z;
  ssh_transcript_retained_bytes : Z;
  ssh_transcript_dropped_bytes : Z;
}.

Inductive TerminalError :=
| InvalidReadLimit (requested maximum : Z) | InputTooLarge (provided maximum : Z)
| Terminal_Read | Terminal_Write | Terminal_Pty (e : PtyError).

Definition TerminalError_code (e : TerminalError) : string :=
  match e with
  | InvalidReadLimit _ _ => "terminal_read_limit_invalid"
  | InputTooLarge _ _ => "terminal_input_too_large"
  | Terminal_Read => "terminal_read_failed"
  | Terminal_Write => "terminal_write_failed"
  | Terminal_Pty (Pty_InvalidSize _ _ _ _) => "terminal_size_invalid"
  | Terminal_Pty _ => "terminal_pty_failed"
  end.
Definition TerminalError_retryable (e : TerminalError) : bool :=
  match e with Terminal_Read | Terminal_Write => true | _ => false end.

(** ** Bounded buffers

    [BoundedPendingOutput] and [BoundedTranscript] have the same [push]. *)
Record Bounded := { held : list Z; dropped_bytes : Z }.
Definition Bounded_empty : Bounded := {| held := []; dropped_bytes := 0 |}.

Definition push (maximum : Z) (incoming : list Z) (b : Bounded) : Bounded :=
  let total := sat_u64 (Z.of_nat (length (held b)) + Z.of_nat (length incoming)) in
  if maximum <? total then
    let overflow := Z.to_nat (total - maximum) in
    let remove_existing := Nat.min overflow (length (held b)) in
    let skip_incoming := (overflow - remove_existing)%nat in
    {| held := drop remove_existing (held b) ++ drop skip_incoming incoming;
       dropped_bytes := sat_u64 (dropped_bytes b + Z.of_nat overflow) |}
  else {| held := held b ++ incoming; dropped_bytes := dropped_bytes b |}.

(** [BoundedPendingOutput::take]. *)
Definition take_pending (maximum : Z) (b : Bounded) : option (list Z) * Bounded :=
  match held b with
  | [] => (None, b)
  | _ =>
      let count := Nat.min (Z.to_nat maximum) (length (held b)) in
      (Some (take count (held b)), {| held := drop count (held b); dropped_bytes := dropped_bytes b |})
  end.

(** ** The kernel *)

(** Errors of [read] that are told apart, and of [kill]. *)
Inductive read_error := Read_WouldBlock | Read_Eio | Read_Other.
Inductive kill_error := Kill_NoSuchProcess | Kill_Other.
(** [ExitStatus::code]; [None] if a signal ended the process. *)
Record ExitStatus := { exit_code : option Z }.

Class PtyEnv (W : Type) := {
  master_read : Z -> mut W (list Z) read_error;
  (** How much of it one [write] takes. *)
  master_write : list Z -> mut W nat unit;
  set_winsize : PtySize -> mut W unit unit;
  child_try_wait : mut W (option ExitStatus) unit;
  child_hangup : mut W unit kill_error;
  child_kill : mut W unit unit;
  child_wait : mut W ExitStatus unit;
  monotonic_ms : W -> Z * W;
  sleep_ms : Z -> W -> W;
}.

Section Terminal.
Context {W : Type} `{PtyEnv W}.

(** [close_requested] is of [PtySession], whose descriptors are in the world. *)
Record TerminalSession := { close_requested : bool; pending_output : Bounded; transcript : Bounded }.
Definition TerminalSession_new : TerminalSession :=
  {| close_requested := false; pending_output := Bounded_empty; transcript := Bounded_empty |}.

Definition request_close (s : TerminalSession) : TerminalSession :=
  {| close_requested := true; pending_output := pending_output s; transcript := transcript s |}.
Definition put_pending (b : Bounded) (s : TerminalSession) : TerminalSession :=
  {| close_requested := close_requested s; pending_output := b; transcript := transcript s |}.
Definition put_transcript (b : Bounded) (s : TerminalSession) : TerminalSession :=
  {| close_requested := close_requested s; pending_output := pending_output s; transcript := b |}.
Definition note_output (bytes : list Z) (s : TerminalSession) : TerminalSession :=
  put_transcript (push MAX_SSH_TRANSCRIPT_BYTES bytes (transcript s)) s.
Definition keep_output (bytes : list Z) (s : TerminalSession) : TerminalSession :=
  put_pending (push MAX_TERMINAL_OUTPUT_BYTES bytes (pending_output s)) s.

Abbreviation terminal A := (mut (TerminalSession * W) A TerminalError).
Definition kernel {A E} (f : E -> TerminalError) (m : mut W A E) : terminal A :=
  mut_map_err f (zoom snd (fun w s => (s.1, w)) m).
(** A call whose errors are looked at. *)
Definition attempt {A E} (m : mut W A E) : terminal (result A E) :=
  fun s => let '(w, r) := m s.2 in ((s.1, w), Ok r).
Definition update (f : TerminalSession -> TerminalSession) : terminal unit := modify (fun s => (f s.1, s.2)).
Definition now_ms : terminal Z := fun s => let '(t, w) := monotonic_ms s.2 in ((s.1, w), Ok t).

Definition inspect : terminal (option ExitStatus) := kernel (fun _ => Terminal_Pty Pty_Inspect) child_try_wait.

(** ** pty.rs *)

Definition pty_resize (size : PtySize) : terminal unit := kernel (fun _ => Terminal_Pty Pty_Resize) (set_winsize size).

(** The loop of [PtySession::close] has a deadline: [None] is fuel that ran out. *)
Fixpoint close_loop (fuel : nat) (deadline : Z) : terminal (option (option ExitStatus)) :=
  match fuel with
  | O => ret None
  | S fuel =>
      now <- now_ms ;;
      if now <? deadline then
        status <- inspect ;;
        match status with
        | Some status => ret (Some (Some status))
        | None => modify (fun s => (s.1, sleep_ms CLOSE_POLL_INTERVAL s.2)) ;;; close_loop fuel deadline
        end
      else ret (Some None)
  end.
Definition close_fuel : nat := 27.
Definition pty_close : terminal (option ExitStatus) :=
  update request_close ;;;
  status <- inspect ;;
  match status with
  | Some status => ret (Some status)
  | None =>
      hangup <- attempt child_hangup ;;
      lift (fun _ => match hangup with
                     | Err Kill_Other => Err (Terminal_Pty Pty_Close)
                     | _ => Ok tt
                     end) ;;;
      now <- now_ms ;;
      ended <- close_loop close_fuel (now + CLOSE_GRACE_PERIOD) ;;
      match ended with
      | None => ret None
      | Some (Some status) => ret (Some status)
      | Some None =>
          kernel (fun _ => Terminal_Pty Pty_Close) child_kill ;;;
          status <- kernel (fun _ => Terminal_Pty Pty_Close) child_wait ;;
          ret (Some status)
      end
  end.

(** ** openssh.rs *)

Definition read_output (max_bytes : Z) : terminal SshTerminalRead :=
  if (max_bytes =? 0) || (MAX_TERMINAL_OUTPUT_BYTES <? max_bytes)
  then throw (InvalidReadLimit max_bytes MAX_TERMINAL_OUTPUT_BYTES)
  else
    taken <- gets (fun s => take_pending max_bytes (pending_output s.1)) ;;
    match taken with
    | (Some bytes, pending) => update (put_pending pending) ;;; ret (Ssh_Data bytes)
    | (None, _) =>
        read <- attempt (master_read max_bytes) ;;
        match read with
        | Ok [] => ret Ssh_EndOfStream
        | Ok bytes => update (note_output bytes) ;;; ret (Ssh_Data bytes)
        | Err Read_WouldBlock => ret Ssh_Pending
        | Err Read_Eio =>
            exit <- inspect ;;
            if is_some exit then ret Ssh_EndOfStream else throw Terminal_Read
        | Err Read_Other => throw Terminal_Read
        end
    end.

(** [Write::write_all]: as many writes as it takes; one that takes nothing, or
    that would block, is an error. *)
Fixpoint write_all (fuel : nat) (input : list Z) : terminal unit :=
  match input with
  | [] => ret tt
  | _ =>
      count <- kernel (fun _ => Terminal_Write) (master_write input) ;;
      match fuel, count with
      | S fuel, S _ => write_all fuel (drop count input)
      | _, _ => throw Terminal_Write
      end
  end.
Definition write_input (input : list Z) : terminal unit :=
  if MAX_TERMINAL_INPUT_BYTES <? Z.of_nat (length input)
  then throw (InputTooLarge (Z.of_nat (length input)) MAX_TERMINAL_INPUT_BYTES)
  else write_all (length input) input.

Inductive OutputCapture := Drained | BudgetExhausted.

(** A read that gives bytes uses up the budget: [fuel] is what is left of it at most. *)
Fixpoint capture_loop (fuel : nat) (captured : Z) : terminal OutputCapture :=
  match fuel with
  | O => ret BudgetExhausted
  | S fuel =>
      if captured <? MAX_TERMINAL_OUTPUT_BYTES then
        read <- attempt (master_read (Z.min (MAX_TERMINAL_OUTPUT_BYTES - captured) (8 * 1024))) ;;
        match read with
        | Ok [] => ret Drained
        | Ok bytes =>
            update (fun s => note_output bytes (keep_output bytes s)) ;;;
            capture_loop fuel (captured + Z.of_nat (length bytes))
        | Err Read_WouldBlock | Err Read_Eio => ret Drained
        | Err Read_Other => throw Terminal_Read
        end
      else ret BudgetExhausted
  end.
Definition capture_pending_output : terminal OutputCapture := capture_loop (Z.to_nat MAX_TERMINAL_OUTPUT_BYTES) 0.

(** [String::from_utf8_lossy] replaces bytes that are not ASCII by bytes that
    are not: a text of ASCII is found in the bytes as it is in the string. *)
Definition classify_disconnect_reason (transcript : list Z) : DisconnectReason :=
  let found needle := contains_str needle (string_of_bytes transcript) in
  if found "REMOTE HOST IDENTIFICATION HAS CHANGED"%string then Ssh_HostKeyChanged
  else if found "REVOKED HOST KEY DETECTED"%string || found "revoked host key"%string then Ssh_HostKeyRevoked
  else if found "Host key verification failed"%string || found "No ED25519 host key is known"%string
          || found "No ECDSA host key is known"%string || found "No RSA host key is known"%string
  then Ssh_HostKeyUnknown
  else if found "Permission denied"%string then Ssh_AuthenticationFailed
  else if found "No route to host"%string || found "Network is unreachable"%string
          || found "Could not resolve hostname"%string
  then Ssh_NetworkUnreachable
  else if found "Connection reset"%string || found "Connection timed out"%string
          || found "Connection closed"%string || found "Broken pipe"%string
  then Ssh_ConnectionLost
  else Ssh_OpenSshFailure.

Definition classify_session (exit : option ExitStatus) (transcript : list Z) (close_requested : bool) : SshSessionState :=
  match exit with
  | None => Ssh_Running
  | Some exit =>
      if close_requested then Ssh_ClosedByClient
      else if negb (eqb (exit_code exit) (Some 255)) then Ssh_Exited (exit_code exit)
      else Ssh_Disconnected (classify_disconnect_reason transcript)
  end.

Definition status (state : SshSessionState) (s : TerminalSession) : SshTerminalStatus :=
  {| ssh_state := state; ssh_pending_output_bytes := Z.of_nat (length (held (pending_output s)));
     ssh_pending_output_dropped_bytes := dropped_bytes (pending_output s);
     ssh_transcript_retained_bytes := Z.of_nat (length (held (transcript s)));
     ssh_transcript_dropped_bytes := dropped_bytes (transcript s) |}.

Definition poll_state : terminal SshTerminalStatus :=
  capture <- capture_pending_output ;;
  exit <- inspect ;;
  gets (fun s => status match capture with
                        | BudgetExhausted => Ssh_Running
                        | Drained => classify_session exit (held (transcript s.1)) (close_requested s.1)
                        end s.1).

(** [None] is fuel that ran out. *)
Definition terminal_close : terminal (option SshTerminalStatus) :=
  ended <- pty_close ;;
  match ended with
  | None => ret None
  | Some _ => gets (fun s => Some (status Ssh_ClosedByClient s.1))
  end.
End Terminal.

(** ** terminal_bridge.rs *)

Definition map_terminal_error (e : TerminalError) (operation : RemoteOperation) : RemoteError :=
  match e with
  | InvalidReadLimit _ _ => remote_error EK_InvalidInput operation "ssh_terminal_read_limit_invalid" Retry_Never
  | InputTooLarge _ _ => remote_error EK_InvalidInput operation "ssh_terminal_input_too_large" Retry_Never
  | Terminal_Pty (Pty_InvalidSize _ _ _ _) => remote_error EK_InvalidInput operation "ssh_terminal_size_invalid" Retry_Never
  | Terminal_Read => remote_error EK_Transport operation "ssh_terminal_read_failed" Retry_Backoff
  | Terminal_Write => remote_error EK_Transport operation "ssh_terminal_write_failed" Retry_Backoff
  | Terminal_Pty _ => remote_error EK_Transport operation "ssh_terminal_pty_failed" Retry_Backoff
  end.

Definition map_open_error (e : AdapterError) : RemoteError :=
  match e with
  | Adapter_InvalidProfile _ => remote_error EK_InvalidInput Op_Connect "ssh_adapter_profile_invalid" Retry_Never
  | Adapter_Pty (Pty_InvalidSize _ _ _ _) => remote_error EK_InvalidInput Op_Connect "ssh_terminal_size_invalid" Retry_Never
  | Adapter_Pty _ => remote_error EK_Transport Op_Connect "ssh_terminal_spawn_failed" Retry_Backoff
  | _ => remote_error EK_RemoteProtocol Op_Connect "ssh_terminal_adapter_unexpected_error" Retry_Never
  end.

Section Adapter.
Context {W : Type} `{PtyEnv W}.
Abbreviation remote A := (mut (TerminalSession * W) A RemoteError).
Definition ssh_read_output (max_bytes : Z) : remote SshTerminalRead :=
  mut_map_err (fun e => map_terminal_error e Op_Read) (read_output max_bytes).
Definition ssh_write_input (input : list Z) : remote unit :=
  mut_map_err (fun e => map_terminal_error e Op_Write) (write_input input).
Definition ssh_resize (size : PtySize) : remote unit := mut_map_err (fun e => map_terminal_error e Op_Connect) (pty_resize size).
Definition ssh_poll_state : remote SshTerminalStatus := mut_map_err (fun e => map_terminal_error e Op_Connect) poll_state.
Definition ssh_close : remote (option SshTerminalStatus) :=
  mut_map_err (fun e => map_terminal_error e Op_Disconnect) terminal_close.
End Adapter.

(** ** What a session carries *)

(** What a run of calls has read from the host and given to it: [read] and
    [write] are the only calls that move bytes. *)
Class PtyLaws (W : Type) `{PtyEnv W} (output input : W -> list Z) := {
  read_moves : forall n w w' r, master_read n w = (w', r) -> input w' = input w /\
    match r with Ok l => output w' = output w ++ l /\ Z.of_nat (length l) <= Z.max 0 n | Err _ => output w' = output w end;
  write_moves : forall l w w' r, master_write l w = (w', r) -> output w' = output w /\
    match r with Ok n => input w' = input w ++ take n l | Err _ => input w' = input w end;
  winsize_moves : forall size, preserves (fun w => (output w, input w)) (set_winsize size);
  try_wait_moves : preserves (fun w => (output w, input w)) child_try_wait;
  hangup_moves : preserves (fun w => (output w, input w)) child_hangup;
  kill_moves : preserves (fun w => (output w, input w)) child_kill;
  wait_moves : preserves (fun w => (output w, input w)) child_wait;
  clock_moves : forall w, (output (monotonic_ms w).2, input (monotonic_ms w).2) = (output w, input w);
  sleep_moves : forall d w, (output (sleep_ms d w), input (sleep_ms d w)) = (output w, input w);
}.

Lemma sublist_same_length {A} (l m : list A) : l `sublist_of` m -> length l = length m -> l = m.
Proof.
  induction 1 as [| x l m Hs IH | x l m Hs IH]; [done | | ]; simpl; intros E.
  - f_equal. apply IH. lia.
  - apply sublist_length in Hs. lia.
Qed.

Section PushFacts.
Context (maximum : Z) (Hmax : 0 <= maximum).
(** The last [maximum] elements. *)
Definition newest {A} (l : list A) : list A := drop (length l - Z.to_nat maximum) l.

Lemma push_held incoming b : Z.of_nat (length (held b)) <= maximum ->
  Z.of_nat (length (held b) + length incoming) <= u64_max -> held (push maximum incoming b) = newest (held b ++ incoming).
Proof.
  intros Hb Hu. unfold push, newest. rewrite length_app.
  replace (sat_u64 (Z.of_nat (length (held b)) + Z.of_nat (length incoming)))
    with (Z.of_nat (length (held b) + length incoming)) by (unfold sat_u64, clamp; lia).
  destruct (Z.ltb_spec maximum (Z.of_nat (length (held b) + length incoming))); simpl.
  - set (overflow := Z.to_nat (Z.of_nat (length (held b) + length incoming) - maximum)).
    replace (length (held b) + length incoming - Z.to_nat maximum)%nat with overflow by lia.
    destruct (Nat.le_gt_cases overflow (length (held b))) as [Hle | Hgt].
    + rewrite Nat.min_l by done. rewrite Nat.sub_diag, drop_0. by rewrite drop_app_le.
    + rewrite Nat.min_r by lia. rewrite (drop_ge (held b)) by lia. rewrite drop_app_ge by lia. done.
  - by replace (length (held b) + length incoming - Z.to_nat maximum)%nat with 0%nat by lia.
Qed.
Lemma push_dropped incoming b : Z.of_nat (length (held b)) <= maximum -> 0 <= dropped_bytes b ->
  Z.of_nat (length (held b) + length incoming) + dropped_bytes b <= u64_max ->
  dropped_bytes (push maximum incoming b) + Z.of_nat (length (held (push maximum incoming b)))
  = dropped_bytes b + Z.of_nat (length (held b) + length incoming).
Proof.
  intros Hb Hd Hu. rewrite push_held by lia. unfold newest. rewrite length_drop, length_app. unfold push.
  replace (sat_u64 (Z.of_nat (length (held b)) + Z.of_nat (length incoming)))
    with (Z.of_nat (length (held b) + length incoming)) by (unfold sat_u64, clamp; lia).
  destruct (Z.ltb_spec maximum (Z.of_nat (length (held b) + length incoming))); cbn [dropped_bytes].
  - unfold sat_u64, clamp. lia.
  - lia.
Qed.
Lemma newest_length {A} (l : list A) : Z.of_nat (length (newest l)) <= maximum.
Proof. unfold newest. rewrite length_drop. lia. Qed.
Lemma newest_newest {A} (l m : list A) : newest (newest l ++ m) = newest (l ++ m).
Proof.
  unfold newest. rewrite !length_app, length_drop.
  destruct (Nat.le_gt_cases (length l) (Z.to_nat maximum)) as [Hle | Hgt].
  - replace (length l - Z.to_nat maximum)%nat with 0%nat by lia. rewrite drop_0. f_equal. lia.
  - rewrite <- (drop_app_le l m) by lia. rewrite drop_drop. f_equal. lia.
Qed.
End PushFacts.

Section Carries.
Context {W : Type} {output input : W -> list Z} `{PtyLaws W output input}.
Abbreviation terminal A := (mut (TerminalSession * W) A TerminalError).

(** What the host has written is delivered, pending, or counted as dropped. *)
Record books (delivered : list Z) (s : TerminalSession) (w : W) : Prop := {
  books_order : (delivered ++ held (pending_output s)) `sublist_of` output w;
  books_count : Z.of_nat (length delivered + length (held (pending_output s))) + dropped_bytes (pending_output s)
                = Z.of_nat (length (output w));
  books_pending : Z.of_nat (length (held (pending_output s))) <= MAX_TERMINAL_OUTPUT_BYTES;
  books_dropped : 0 <= dropped_bytes (pending_output s) /\ 0 <= dropped_bytes (transcript s);
  books_transcript : held (transcript s) = newest MAX_SSH_TRANSCRIPT_BYTES (output w);
  books_retained : dropped_bytes (transcript s) + Z.of_nat (length (held (transcript s))) = Z.of_nat (length (output w));
}.

(** A program that keeps the books, and delivers what [f] says of its answer. *)
Definition carries {A} (f : A -> list Z) (m : terminal A) : Prop :=
  forall delivered s w s' w' r, m (s, w) = ((s', w'), r) ->
    (exists more, output w' = output w ++ more) /\
    (Z.of_nat (length (output w')) <= u64_max -> books delivered s w ->
     books (delivered ++ match r with Ok a => f a | Err _ => [] end) s' w').
Abbreviation keeps m := (carries (fun _ => []) m).

Lemma carries_pure {A} (f : A -> list Z) (m : terminal A) :
  (forall s w s' w' r, m (s, w) = ((s', w'), r) -> output w' = output w /\ pending_output s' = pending_output s /\
     transcript s' = transcript s /\ match r with Ok a => f a = [] | Err _ => True end) -> carries f m.
Proof.
  intros Hm delivered s w s' w' r Hr. destruct (Hm _ _ _ _ _ Hr) as (Eo & Ep & Et & Ef).
  split; [exists []; by rewrite app_nil_r |]. intros _ [H1 H2 H3 H4 H5 H6].
  replace (delivered ++ match r with Ok a => f a | Err _ => [] end) with delivered
    by (destruct r; [rewrite Ef |]; by rewrite app_nil_r).
  by split; rewrite ?Eo, ?Ep, ?Et.
Qed.
Lemma carries_bind {A B} (m : terminal A) (k : A -> terminal B) f : keeps m -> (forall a, carries f (k a)) -> carries f (bind m k).
Proof.
  intros Hm Hk delivered s w s' w' r. unfold bind. destruct (m (s, w)) as [[s1 w1] [a | e]] eqn:H1; intros Hr.
  - destruct (Hm delivered _ _ _ _ _ H1) as [[more1 E1] Hb1]. destruct (Hk a delivered _ _ _ _ _ Hr) as [[more E] Hb].
    split; [exists (more1 ++ more); by rewrite E, E1, app_assoc |]. intros Hu Hbooks. apply Hb; [done |].
    rewrite app_nil_r in Hb1. apply Hb1; [| done]. rewrite E, length_app in Hu. lia.
  - injection Hr as <- <- <-. exact (Hm delivered _ _ _ _ _ H1).
Qed.

Lemma carries_kernel {A E} (f : E -> TerminalError) (m : mut W A E) :
  preserves (fun w => (output w, input w)) m -> keeps (kernel f m).
Proof.
  intros Hm. apply carries_pure. intros s w s' w' r. unfold kernel, mut_map_err, zoom. simpl.
  destruct (m w) as [w1 r1] eqn:Hr. apply Hm in Hr. injection Hr as Ho _. intros [= <- <- <-]. by destruct r1.
Qed.
Lemma carries_attempt {A E} (m : mut W A E) : preserves (fun w => (output w, input w)) m -> keeps (attempt m).
Proof.
  intros Hm. apply carries_pure. intros s w s' w' r. unfold attempt. simpl.
  destruct (m w) as [w1 r1] eqn:Hr. apply Hm in Hr. injection Hr as Ho _. by intros [= <- <- <-].
Qed.
Lemma carries_read_only {A} (f : A -> list Z) (m : terminal A) :
  (forall s s' r, m s = (s', r) -> s' = s /\ match r with Ok a => f a = [] | Err _ => True end) -> carries f m.
Proof. intros Hm. apply carries_pure. intros s w s' w' r Hr. apply Hm in Hr as [[= -> ->] Hf]. done. Qed.
Lemma carries_ret {A} (f : A -> list Z) a : f a = [] -> carries f (ret a).
Proof. intros Hf. apply carries_read_only. unfold ret. by intros s s' r [= <- <-]. Qed.
Lemma carries_throw {A} (f : A -> list Z) e : carries f (throw e).
Proof. apply carries_read_only. unfold throw. by intros s s' r [= <- <-]. Qed.
Lemma carries_gets {A} (f : A -> list Z) g : (forall s, f (g s) = []) -> carries f (gets g).
Proof. intros Hf. apply carries_read_only. unfold gets. by intros s s' r [= <- <-]. Qed.
Lemma carries_lift {A} (g : _ -> result A TerminalError) : keeps (lift g).
Proof. apply carries_read_only. unfold lift. intros s s' r [= <- <-]. split; [done |]. by destruct (g s). Qed.

Lemma carries_inspect : keeps inspect.
Proof. apply carries_kernel, try_wait_moves. Qed.
Lemma carries_clock : keeps now_ms.
Proof.
  apply carries_pure. intros s w s' w' r. unfold now_ms. simpl. pose proof (clock_moves w) as Hc.
  destruct (monotonic_ms w) as [t w1]. injection Hc as Ho _. by intros [= <- <- <-].
Qed.

Lemma carries_close_loop fuel deadline : keeps (close_loop fuel deadline).
Proof.
  induction fuel as [| fuel IH]; cbn [close_loop]; [by apply carries_ret |].
  apply carries_bind; [apply carries_clock | intros now]. destruct (now <? deadline); [| by apply carries_ret].
  apply carries_bind; [apply carries_inspect | intros [st |]]; [by apply carries_ret |].
  apply carries_bind; [| done]. apply carries_pure. intros s w s' w' r. unfold modify. simpl.
  pose proof (sleep_moves CLOSE_POLL_INTERVAL w) as Hs. injection Hs as Ho _. by intros [= <- <- <-].
Qed.
Lemma carries_close : keeps terminal_close.
Proof.
  apply carries_bind; [| intros [st |]; [by apply carries_gets | by apply carries_ret]].
  apply carries_bind; [apply carries_pure; unfold update, modify; by intros s w s' w' r [= <- <- <-] | intros _].
  apply carries_bind; [apply carries_inspect | intros [st |]]; [by apply carries_ret |].
  apply carries_bind; [apply carries_attempt, hangup_moves | intros hangup].
  apply carries_bind; [apply carries_lift | intros _]. apply carries_bind; [apply carries_clock | intros now].
  apply carries_bind; [apply carries_close_loop | intros [[st |] |]]; [by apply carries_ret | | by apply carries_ret].
  apply carries_bind; [apply carries_kernel, kill_moves | intros _].
  apply carries_bind; [apply carries_kernel, wait_moves | intros st; by apply carries_ret].
Qed.

(** Bytes that are read and noted: kept for a later read, or delivered at once. *)
Lemma books_keep delivered s w w' bytes : output w' = output w ++ bytes -> Z.of_nat (length (output w')) <= u64_max ->
  books delivered s w -> books delivered (note_output bytes (keep_output bytes s)) w'.
Proof.
  intros Eo Hu [H1 H2 H3 [H4 H4'] H5 H6]. rewrite Eo, length_app in Hu.
  assert (Hp : held (push MAX_TERMINAL_OUTPUT_BYTES bytes (pending_output s))
               = newest MAX_TERMINAL_OUTPUT_BYTES (held (pending_output s) ++ bytes)) by (apply push_held; [done | done | lia]).
  pose proof (push_dropped MAX_TERMINAL_OUTPUT_BYTES ltac:(done) bytes (pending_output s) H3 H4 ltac:(lia)) as Hd.
  assert (Hr : Z.of_nat (length (held (transcript s))) <= MAX_SSH_TRANSCRIPT_BYTES) by (rewrite H5; by apply newest_length).
  assert (Ht : held (push MAX_SSH_TRANSCRIPT_BYTES bytes (transcript s))
               = newest MAX_SSH_TRANSCRIPT_BYTES (held (transcript s) ++ bytes)) by (apply push_held; [done | done | lia]).
  pose proof (push_dropped MAX_SSH_TRANSCRIPT_BYTES ltac:(done) bytes (transcript s) Hr H4' ltac:(lia)) as Htd.
  split; cbn [note_output keep_output put_transcript put_pending pending_output transcript].
  - rewrite Hp, Eo. transitivity (delivered ++ (held (pending_output s) ++ bytes)).
    + apply sublist_app; [done |]. unfold newest. apply sublist_drop.
    + rewrite app_assoc. by apply sublist_app.
  - rewrite Eo, length_app. lia.
  - rewrite Hp. by apply newest_length.
  - split.
    + unfold push. destruct (_ <? _); cbn [dropped_bytes]; [unfold sat_u64, clamp; lia | done].
    + unfold push. destruct (_ <? _); cbn [dropped_bytes]; [unfold sat_u64, clamp; lia | done].
  - rewrite Ht, Eo, H5. by apply newest_newest.
  - rewrite Eo, length_app. lia.
Qed.
Lemma books_deliver delivered s w w' bytes : output w' = output w ++ bytes -> Z.of_nat (length (output w')) <= u64_max ->
  held (pending_output s) = [] -> books delivered s w -> books (delivered ++ bytes) (note_output bytes s) w'.
Proof.
  intros Eo Hu Hnone [H1 H2 H3 [H4 H4'] H5 H6]. rewrite Eo, length_app in Hu.
  assert (Hr : Z.of_nat (length (held (transcript s))) <= MAX_SSH_TRANSCRIPT_BYTES) by (rewrite H5; by apply newest_length).
  assert (Ht : held (push MAX_SSH_TRANSCRIPT_BYTES bytes (transcript s))
               = newest MAX_SSH_TRANSCRIPT_BYTES (held (transcript s) ++ bytes)) by (apply push_held; [done | done | lia]).
  pose proof (push_dropped MAX_SSH_TRANSCRIPT_BYTES ltac:(done) bytes (transcript s) Hr H4' ltac:(lia)) as Htd.
  split; cbn [note_output put_transcript pending_output transcript].
  - rewrite Hnone, app_nil_r in *. rewrite Eo. by apply sublist_app.
  - rewrite Eo, !length_app. rewrite Hnone in *. simpl in *. lia.
  - done.
  - split; [done |]. unfold push. destruct (_ <? _); cbn [dropped_bytes]; [unfold sat_u64, clamp; lia | done].
  - rewrite Ht, Eo, H5. by apply newest_newest.
  - rewrite Eo, length_app. lia.
Qed.

Lemma carries_write fuel : forall l, keeps (write_all fuel l).
Proof.
  induction fuel as [| fuel IH]; intros [| b l]; cbn [write_all]; try by apply carries_ret.
  all: apply carries_bind; [apply carries_pure | intros [| n]; try apply carries_throw; try done].
  all: intros s w s' w' r; unfold kernel, mut_map_err, zoom; simpl; destruct (master_write (b :: l) w) as [w1 r1] eqn:Hr;
    apply write_moves in Hr as [Ho _]; intros [= <- <- <-]; by destruct r1.
Qed.

Lemma books_world delivered s w w1 : output w1 = output w -> books delivered s w -> books delivered s w1.
Proof. intros E [H1 H2 H3 H4 H5 H6]. by split; rewrite ?E. Qed.
(** A run from a world in which nothing has moved. *)
Lemma carries_from {A} (f : A -> list Z) (m : terminal A) : carries f m -> forall delivered s w w1 s' w' r, output w1 = output w ->
  m (s, w1) = ((s', w'), r) ->
    (exists more, output w' = output w ++ more) /\
    (Z.of_nat (length (output w')) <= u64_max -> books delivered s w ->
     books (delivered ++ match r with Ok a => f a | Err _ => [] end) s' w').
Proof.
  intros Hm delivered s w w1 s' w' r E Hk. destruct (Hm delivered _ _ _ _ _ Hk) as [[more Eo] Hb].
  split; [exists more; by rewrite Eo, E |]. intros Hu Hbooks. apply Hb; [done |]. by apply (books_world _ _ w).
Qed.

Lemma carries_capture fuel : forall captured, keeps (capture_loop fuel captured).
Proof.
  induction fuel as [| fuel IH]; intros captured; cbn [capture_loop]; [by apply carries_ret |].
  destruct (captured <? MAX_TERMINAL_OUTPUT_BYTES); [| by apply carries_ret].
  intros delivered s w s' w' r. unfold bind at 1, attempt. cbn [snd fst].
  destruct (master_read _ w) as [w1 [bytes | e]] eqn:Hr; apply read_moves in Hr as [_ Hr].
  - destruct Hr as [Eo _]. destruct bytes as [| b bytes].
    + rewrite app_nil_r in Eo. apply (carries_from (fun _ => [])); [by apply carries_ret | done].
    + unfold bind, update, modify. cbn [fst snd]. intros Hk.
      destruct (IH _ delivered _ _ _ _ _ Hk) as [[more E] Hb]. split; [exists ((b :: bytes) ++ more); by rewrite E, Eo, app_assoc |].
      intros Hu Hbooks. apply Hb; [done |]. eapply books_keep; [exact Eo | | exact Hbooks]. rewrite E, length_app in Hu. lia.
  - destruct e; (apply (carries_from (fun _ => [])); [first [by apply carries_ret | apply carries_throw] | done]).
Qed.
Lemma carries_poll : keeps poll_state.
Proof.
  apply carries_bind; [apply carries_capture | intros capture].
  apply carries_bind; [apply carries_inspect | intros exit; by apply carries_gets].
Qed.

Definition delivered_by (r : SshTerminalRead) : list Z := match r with Ssh_Data l => l | _ => [] end.

Lemma carries_read max_bytes : carries delivered_by (read_output max_bytes).
Proof.
  unfold read_output. destruct (_ || _); [apply carries_throw |].
  intros delivered s w s' w' r. unfold bind at 1, gets. cbn [fst]. unfold take_pending.
  destruct (held (pending_output s)) as [| b0 buffer] eqn:Hheld.
  - unfold bind at 1, attempt. cbn [snd fst].
    destruct (master_read max_bytes w) as [w1 [bytes | e]] eqn:Hr; apply read_moves in Hr as [_ Hr].
    + destruct Hr as [Eo _]. destruct bytes as [| b bytes].
      * rewrite app_nil_r in Eo. by apply carries_from; [apply carries_ret |].
      * unfold bind, update, modify, ret. cbn [fst snd]. intros [= <- <- <-]. split; [by eexists |].
        intros Hu Hbooks. by eapply books_deliver.
    + destruct e; (apply carries_from; [| done]); [by apply carries_ret | | apply carries_throw].
      apply carries_bind; [apply carries_inspect | intros exit]. destruct (is_some exit); [by apply carries_ret | apply carries_throw].
  - unfold bind, update, modify, ret. cbn [fst snd]. intros [= <- <- <-]. split; [exists []; by rewrite app_nil_r |].
    intros _ [H1 H2 H3 H4 H5 H6]. rewrite Hheld in *. cbn [delivered_by].
    set (count := Nat.min (Z.to_nat max_bytes) (length (b0 :: buffer))).
    split; cbn [put_pending pending_output transcript held dropped_bytes]; try done.
    + by rewrite <- app_assoc, take_drop.
    + rewrite length_app, length_take, length_drop. lia.
    + rewrite length_drop. lia.
Qed.

(** ** Runs of calls *)

Inductive terminal_op := T_read (max_bytes : Z) | T_write (bytes : list Z) | T_resize (size : PtySize) | T_poll | T_close.

(** A call; the answer is what a read has delivered. *)
Definition terminal_run (o : terminal_op) : terminal (list Z) :=
  match o with
  | T_read max_bytes => r <- read_output max_bytes ;; ret (delivered_by r)
  | T_write bytes => write_input bytes ;;; ret []
  | T_resize size => pty_resize size ;;; ret []
  | T_poll => poll_state ;;; ret []
  | T_close => terminal_close ;;; ret []
  end.
Fixpoint terminal_runs (ops : list terminal_op) (delivered : list Z) (x : TerminalSession * W)
  : (TerminalSession * W) * list Z :=
  match ops with
  | [] => (x, delivered)
  | o :: ops =>
      match terminal_run o x with
      | (x, Ok bytes) => terminal_runs ops (delivered ++ bytes) x
      | (x, Err _) => terminal_runs ops delivered x
      end
  end.

Lemma carries_answer {A} (f : A -> list Z) (m : terminal A) : carries f m -> carries (fun l => l) (a <- m ;; ret (f a)).
Proof.
  intros Hm delivered s w s' w' r. unfold bind, ret. destruct (m (s, w)) as [[s1 w1] [a | e]] eqn:Hr; intros [= <- <- <-];
    exact (Hm delivered _ _ _ _ _ Hr).
Qed.
Lemma carries_run o : carries (fun l => l) (terminal_run o).
Proof.
  destruct o as [n | l | size | |]; cbn [terminal_run].
  - apply carries_answer, carries_read.
  - apply carries_bind; [| intros _; by apply carries_ret]. unfold write_input. destruct (_ <? _); [apply carries_throw | apply carries_write].
  - apply carries_bind; [| intros _; by apply carries_ret]. apply carries_kernel, winsize_moves.
  - apply carries_bind; [apply carries_poll | intros _; by apply carries_ret].
  - apply carries_bind; [apply carries_close | intros _; by apply carries_ret].
Qed.

Lemma runs_books ops : forall delivered s w s' w' delivered', terminal_runs ops delivered (s, w) = ((s', w'), delivered') ->
  (exists more, output w' = output w ++ more) /\
  (Z.of_nat (length (output w')) <= u64_max -> books delivered s w -> books delivered' s' w').
Proof.
  induction ops as [| o ops IH]; intros delivered s w s' w' delivered'; cbn [terminal_runs].
  - intros [= <- <- <-]. split; [exists []; by rewrite app_nil_r | done].
  - destruct (terminal_run o (s, w)) as [[s1 w1] r] eqn:Hr. intros Hk.
    destruct (carries_run o delivered _ _ _ _ _ Hr) as [[more1 E1] Hb1].
    assert (Hrest : exists d, terminal_runs ops d (s1, w1) = ((s', w'), delivered') /\
      d = delivered ++ match r with Ok l => l | Err _ => [] end).
    { destruct r; [by eexists | exists delivered; by rewrite app_nil_r]. }
    destruct Hrest as (d & Hd & ->). apply IH in Hd as [[more E] Hb].
    split; [exists (more1 ++ more); by rewrite E, E1, app_assoc |]. intros Hu Hbooks. apply Hb; [done |]. apply Hb1; [| done].
    rewrite E, length_app in Hu. lia.
Qed.

(** C17: A client reads what the host wrote. After any calls on a new session -
    reads of any size, states polled, which moves output into the session,
    writes, a close - the bytes that were delivered and the ones the session
    still holds are output of the host, in order; what is missing is exactly what
    is counted as dropped, so that nothing is missing while the count is zero;
    the session holds no more than its bound; and its transcript is the newest
    part of all output, with the rest counted. *)
Theorem terminal_delivers_what_the_host_wrote ops w0 :
  output w0 = [] ->
  let '((s, w), delivered) := terminal_runs ops [] (TerminalSession_new, w0) in
  let pending := held (pending_output s) in
  let dropped := dropped_bytes (pending_output s) in
  Z.of_nat (length (output w)) <= u64_max ->
  (delivered ++ pending) `sublist_of` output w /\
  Z.of_nat (length (delivered ++ pending)) + dropped = Z.of_nat (length (output w)) /\
  (dropped = 0 -> delivered ++ pending = output w) /\
  Z.of_nat (length pending) <= MAX_TERMINAL_OUTPUT_BYTES /\
  held (transcript s) = newest MAX_SSH_TRANSCRIPT_BYTES (output w) /\
  Z.of_nat (length (held (transcript s))) + dropped_bytes (transcript s) = Z.of_nat (length (output w)).
Proof.
  intros Hw0. destruct (terminal_runs ops [] (TerminalSession_new, w0)) as [[s w] delivered] eqn:Hr. cbv zeta. intros Hu.
  destruct (runs_books _ _ _ _ _ _ _ Hr) as [_ Hb]. destruct Hb as [H1 H2 H3 H4 H5 H6]; [done | |].
  { split; cbn; rewrite ?Hw0; done. }
  split_and!; [done | rewrite length_app; lia | | done | done | lia].
  intros Hd. apply sublist_same_length; [done |]. rewrite length_app. lia.
Qed.
End Carries.

(** ** Input *)

Section Input.
Context {W : Type} {output input : W -> list Z} `{PtyLaws W output input}.

Lemma write_all_gives fuel : forall l s w s' w' r, (length l <= fuel)%nat -> write_all fuel l (s, w) = ((s', w'), r) ->
  output w' = output w /\ s' = s /\
  exists taken, input w' = input w ++ take taken l /\ (r = Ok tt -> take taken l = l) /\
    forall e, r = Err e -> e = Terminal_Write.
Proof.
  induction fuel as [| fuel IH]; intros [| b l] s w s' w' r Hl; cbn [length] in Hl; try lia; cbn [write_all].
  1, 2: intros [= <- <- <-]; split_and!; [done | done | exists 0%nat; by rewrite app_nil_r].
  unfold bind, kernel, mut_map_err, zoom. simpl. destruct (master_write (b :: l) w) as [w1 [count |]] eqn:Hw;
    apply write_moves in Hw as [Ho Hi].
  - destruct count as [| count].
    + intros [= <- <- <-]. split_and!; [done | done | exists 0%nat]. rewrite Hi. split_and!; [done | done |]. by intros e [= <-].
    + intros Hk. apply IH in Hk as (Ho' & -> & taken & Hi' & Hok & He); [| rewrite length_drop; cbn [length]; lia].
      split_and!; [congruence | done |]. exists (S count + taken)%nat. rewrite Hi', Hi, <- app_assoc.
      rewrite <- take_take_drop. split_and!; [done | | done].
      intros Hr. rewrite (Hok Hr). cbn [drop]. apply (take_drop (S count) (b :: l)).
  - intros [= <- <- <-]. split_and!; [done | done | exists 0%nat]. rewrite app_nil_r. split_and!; [done | done |]. by intros e' [= <-].
Qed.

(** C20: Input is given to the host in order and as a whole, or an error is answered.
    A write that answers success has given exactly its bytes; one that is refused
    for its length gives none; a write that fails has given a part from the
    start, of any length: the master does not block, and [write_all] gives up at
    the first write that would. No output is lost either way. *)
Theorem input_is_given_in_order bytes s w s' w' r :
  ssh_write_input bytes (s, w) = ((s', w'), r) ->
  s' = s /\ output w' = output w /\
  match r with
  | Ok tt => Z.of_nat (length bytes) <= MAX_TERMINAL_INPUT_BYTES /\ input w' = input w ++ bytes
  | Err e =>
      (MAX_TERMINAL_INPUT_BYTES < Z.of_nat (length bytes) /\ w' = w /\
       e = remote_error EK_InvalidInput Op_Write "ssh_terminal_input_too_large" Retry_Never) \/
      (Z.of_nat (length bytes) <= MAX_TERMINAL_INPUT_BYTES /\
       (exists taken, input w' = input w ++ take taken bytes) /\
       e = remote_error EK_Transport Op_Write "ssh_terminal_write_failed" Retry_Backoff)
  end.
Proof.
  unfold ssh_write_input, mut_map_err, write_input.
  destruct (Z.ltb_spec MAX_TERMINAL_INPUT_BYTES (Z.of_nat (length bytes))) as [Hlong | Hshort].
  - intros [= <- <- <-]. split_and!; [done | done |]. by left.
  - destruct (write_all (length bytes) bytes (s, w)) as [[s1 w1] r1] eqn:Hw.
    apply write_all_gives in Hw as (Ho & -> & taken & Hi & Hok & He); [| done]. intros [= <- <- <-].
    split_and!; [done | done |]. destruct r1 as [[] | e]; cbn [map_err].
    + split; [done |]. by rewrite Hi, Hok.
    + right. rewrite (He e eq_refl). split_and!; [done | by eexists | done].
Qed.
End Input.

(** ** The end of a session *)

(** Time passes as calls are made; a sleep takes the time it names. *)
Class PtyClock (W : Type) `{PtyEnv W} (clock : W -> Z) := {
  clock_reads : forall w, clock w <= (monotonic_ms w).1 <= clock (monotonic_ms w).2;
  clock_sleeps : forall d w, clock w + d <= clock (sleep_ms d w);
  clock_waits : forall w, clock w <= clock (child_try_wait w).1;
}.

Section Closing.
Context {W : Type} {clock : W -> Z} `{PtyClock W clock}.

Lemma close_loop_ends fuel : forall deadline s w,
  deadline - clock w <= 10 * (Z.of_nat fuel - 1) -> 0 < Z.of_nat fuel ->
  match close_loop fuel deadline (s, w) with
  | ((s', _), Ok None) => False
  | ((s', _), Ok (Some _)) => s' = s
  | ((s', _), Err e) => s' = s /\ e = Terminal_Pty Pty_Inspect
  end.
Proof.
  induction fuel as [| fuel IH]; intros deadline s w Hd Hf; [lia |]. cbn [close_loop].
  unfold bind at 1, now_ms. cbn [fst snd]. pose proof (clock_reads w) as Hr. destruct (monotonic_ms w) as [now w1].
  cbn [fst snd] in Hr. destruct (Z.ltb_spec now deadline) as [Hlt | Hge]; [| done].
  unfold bind at 1, inspect, kernel, mut_map_err, zoom. cbn [fst snd]. pose proof (clock_waits w1) as Hw.
  destruct (child_try_wait w1) as [w2 [[status |] |]]; cbn [fst snd map_err] in *; [done | | done].
  unfold bind, modify. cbn [fst snd]. apply IH; [| lia].
  pose proof (clock_sleeps CLOSE_POLL_INTERVAL w2). unfold CLOSE_POLL_INTERVAL in *. lia.
Qed.

Lemma pty_close_ends s w :
  let '((s', _), r) := pty_close (s, w) in
  s' = request_close s /\
  match r with
  | Ok ended => is_some ended = true
  | Err e => e = Terminal_Pty Pty_Inspect \/ e = Terminal_Pty Pty_Close
  end.
Proof.
  unfold pty_close. unfold bind at 1, update, modify. cbn [fst snd].
  unfold bind at 1, inspect, kernel, mut_map_err, zoom. cbn [fst snd].
  destruct (child_try_wait w) as [w1 [[st |] |]]; cbn [map_err]; [done | | by split; [| left]].
  unfold bind at 1, attempt. cbn [fst snd]. destruct (child_hangup w1) as [w2 hangup].
  unfold bind at 1, lift. cbn [fst snd].
  destruct hangup as [u | []]; [| | by split; [| right]].
  all: unfold bind at 1, now_ms; cbn [fst snd]; pose proof (clock_reads w2) as Hr;
    destruct (monotonic_ms w2) as [now w3]; cbn [fst snd] in Hr;
    pose proof (close_loop_ends close_fuel (now + CLOSE_GRACE_PERIOD) (request_close s) w3
      ltac:(unfold CLOSE_GRACE_PERIOD, close_fuel; lia) ltac:(done)) as Hl;
    unfold bind at 1;
    destruct (close_loop close_fuel (now + CLOSE_GRACE_PERIOD) (request_close s, w3)) as [[s4 w4] [[[st |] |] | e]];
    [by subst | subst | done | destruct Hl as [-> ->]; by split; [| left]];
    unfold bind, kernel, mut_map_err, zoom, ret; cbn [fst snd];
    destruct (child_kill w4) as [w5 [[] |]]; cbn [map_err fst snd]; [| by split; [| right]];
    destruct (child_wait w5) as [w6 [st |]]; cbn [map_err]; (split; [done |]); [done | by right].
Qed.

End Closing.

(** ** A concrete terminal *)

(** A host that has [host_script] to say, room for [host_room] bytes of input, and
    that ignores a hang-up. *)
Record Pty := { host_script : list Z; host_said : list Z; host_heard : list Z; host_room : nat; pty_time : Z; killed : bool }.

Definition pty_tick (d : Z) (w : Pty) : Pty :=
  {| host_script := host_script w; host_said := host_said w; host_heard := host_heard w; host_room := host_room w;
     pty_time := pty_time w + Z.max 0 d; killed := killed w |}.
#[local] Instance PtyEnv_Pty : PtyEnv Pty := {|
  master_read n w :=
    match host_script w with
    | [] => (w, Err Read_WouldBlock)
    | l =>
        let count := Z.to_nat n in
        ({| host_script := drop count l; host_said := host_said w ++ take count l; host_heard := host_heard w;
            host_room := host_room w; pty_time := pty_time w; killed := killed w |}, Ok (take count l))
    end;
  master_write l w :=
    match host_room w with
    | O => (w, Err tt)
    | room =>
        let count := Nat.min room (length l) in
        ({| host_script := host_script w; host_said := host_said w; host_heard := host_heard w ++ take count l;
            host_room := room - count; pty_time := pty_time w; killed := killed w |}, Ok count)
    end;
  set_winsize size w := (w, Ok tt);
  child_try_wait w := (w, Ok (if killed w then Some {| exit_code := None |} else None));
  child_hangup w := (w, Ok tt);
  child_kill w :=
    ({| host_script := host_script w; host_said := host_said w; host_heard := host_heard w; host_room := host_room w;
        pty_time := pty_time w; killed := true |}, Ok tt);
  child_wait w := (w, if killed w then Ok {| exit_code := None |} else Err tt);
  monotonic_ms w := (pty_time w, w);
  sleep_ms := pty_tick;
|}.
#[local] Instance PtyLaws_Pty : PtyLaws Pty host_said host_heard.
Proof.
  split; try done.
  - intros n w w' r. cbn. destruct (host_script w) as [| b l]; intros [= <- <-]; [done |].
    cbn [host_said host_heard]. split_and!; [done | done | rewrite length_take; lia].
  - intros l w w' r. cbn. destruct (host_room w); by intros [= <- <-].
  - intros size w w' r [= <- _]. done.
  - intros w w' r [= <- _]. done.
  - intros w w' r [= <- _]. done.
  - intros w w' r [= <- _]. done.
  - intros w w' r [= <- _]. done.
Qed.
#[local] Instance PtyClock_Pty : PtyClock Pty pty_time.
Proof. split; intros; cbn; lia. Qed.

Definition pty0 : Pty :=
  {| host_script := map Z.of_nat (seq 1 8); host_said := []; host_heard := []; host_room := 3; pty_time := 0; killed := false |}.

Lemma terminal_delivers_what_the_host_wrote_witness :
  let '((s, w), delivered) := terminal_runs [T_poll; T_read 3; T_write [7]; T_read 3; T_close] [] (TerminalSession_new, pty0) in
  delivered = [1; 2; 3; 4; 5; 6] /\ held (pending_output s) = [7; 8] /\ delivered `sublist_of` host_said w.
Proof.
  pose proof (terminal_delivers_what_the_host_wrote (output := host_said) (input := host_heard)
    [T_poll; T_read 3; T_write [7]; T_read 3; T_close] pty0 eq_refl) as Hd.
  destruct (terminal_runs _ _ _) as [[s w] delivered] eqn:Hr. vm_compute in Hr. injection Hr as <- <- <-.
  cbv zeta in Hd. destruct (Hd ltac:(vm_compute; done)) as [Hs _].
  split_and!; [done | done |]. etransitivity; [| exact Hs]. by apply sublist_inserts_r.
Defined.

(** The first three bytes are given, and an error answered: writing again gives
    them a second time. *)
Lemma input_is_given_in_order_witness :
  let '((s, w), r) := ssh_write_input [1; 2; 3; 4; 5] (TerminalSession_new, pty0) in
  r = Err (remote_error EK_Transport Op_Write "ssh_terminal_write_failed" Retry_Backoff) /\ host_heard w = [1; 2; 3] /\
  exists taken, host_heard w = [] ++ take taken [1; 2; 3; 4; 5].
Proof.
  destruct (ssh_write_input [1; 2; 3; 4; 5] (TerminalSession_new, pty0)) as [[s w] r] eqn:Hr.
  pose proof (input_is_given_in_order (output := host_said) (input := host_heard) _ _ _ _ _ _ Hr) as (_ & _ & Hi).
  vm_compute in Hr. injection Hr as <- <- <-. destruct Hi as [(Hlong & _) | (_ & Htaken & _)]; [done |].
  split_and!; [done | done | exact Htaken].
Defined.

