(* ===== verification/Terminal.v ===== *)
(** [crates/remote-core/src/terminal.rs]: the terminal contract - sizes, bounded
    base64 data, commands, results and how they fit together. *)
From S2P Require Import Prelude RemoteCore Encoding.

Definition MAX_TERMINAL_IPC_BYTES : Z := 45056.
Definition MAX_TERMINAL_DATA_BASE64_BYTES : Z := 60076.
Definition MAX_TERMINAL_SIZE : Z := 1000.
Definition MAX_TERMINAL_PIXEL_DIMENSION : Z := 32767.
Definition MAX_TERMINAL_TRANSCRIPT_BYTES : Z := 64 * 1024.

Inductive TerminalContractError :=
| InvalidSize | InvalidReadLimit | InvalidData | InvalidCapabilities | InvalidResult.

Record TerminalSize := { rows : Z; columns : Z; pixel_width : Z; pixel_height : Z }.

Definition TerminalSize_validate (s : TerminalSize) : result unit TerminalContractError :=
  fail_if (rows s =? 0) || (MAX_TERMINAL_SIZE <? rows s) || (columns s =? 0)
          || (MAX_TERMINAL_SIZE <? columns s) || (MAX_TERMINAL_PIXEL_DIMENSION <? pixel_width s)
          || (MAX_TERMINAL_PIXEL_DIMENSION <? pixel_height s)
    with InvalidSize in
  Ok tt.

(** The base64 text; what it decodes to is only known when it is decoded. *)
Record TerminalData := { encoded : string }.

Record TerminalCapabilities := {
  max_output_chunk_bytes : Z;
  max_input_chunk_bytes : Z;
  max_transcript_bytes : Z;
  max_rows : Z;
  max_columns : Z;
  max_pixel_dimension : Z;
  nonblocking_output : bool;
  fixed_openssh_program : bool;
}.

Definition TerminalCapabilities_validate (c : TerminalCapabilities) : result unit TerminalContractError :=
  fail_if (max_output_chunk_bytes c =? 0) || (MAX_TERMINAL_IPC_BYTES <? max_output_chunk_bytes c)
          || (max_input_chunk_bytes c =? 0) || (MAX_TERMINAL_IPC_BYTES <? max_input_chunk_bytes c)
          || (max_transcript_bytes c =? 0) || (MAX_TERMINAL_TRANSCRIPT_BYTES <? max_transcript_bytes c)
          || (max_rows c =? 0) || (MAX_TERMINAL_SIZE <? max_rows c)
          || (max_columns c =? 0) || (MAX_TERMINAL_SIZE <? max_columns c)
          || (MAX_TERMINAL_PIXEL_DIMENSION <? max_pixel_dimension c)
          || negb (nonblocking_output c) || negb (fixed_openssh_program c)
    with InvalidCapabilities in
  Ok tt.

Inductive TerminalDisconnectReason :=
| HostKeyChanged | HostKeyRevoked | HostKeyUnknown | AuthenticationFailed | NetworkUnreachable
| ConnectionLost | OpenSshFailure.
#[export] Instance TerminalDisconnectReason_eq_dec : EqDecision TerminalDisconnectReason.
Proof. solve_decision. Defined.

Inductive TerminalState :=
| Term_Running | Term_Exited (code : option Z) | Term_Disconnected (reason : TerminalDisconnectReason)
| Term_ClosedByClient.
#[export] Instance TerminalState_eq_dec : EqDecision TerminalState.
Proof. solve_decision. Defined.

Record TerminalStatus := {
  term_state : TerminalState;
  transcript_retained_bytes : Z;
  transcript_dropped_bytes : Z;
}.
#[export] Instance TerminalStatus_eq_dec : EqDecision TerminalStatus.
Proof. solve_decision. Defined.

Definition TerminalStatus_validate (s : TerminalStatus) : result unit TerminalContractError :=
  fail_if MAX_TERMINAL_TRANSCRIPT_BYTES <? transcript_retained_bytes s with InvalidResult in Ok tt.

Inductive TerminalRead := Read_Pending | Read_Data (data : TerminalData) | Read_EndOfStream.

Inductive TerminalCommand :=
| Term_Open (profile_id : ProfileId) (size : TerminalSize) (accept_new_host_key : bool)
| Term_Read (session_id : Uuid) (max_bytes : Z)
| Term_Stream (session_id : Uuid) (max_bytes : Z)
| Term_Write (session_id : Uuid) (data : TerminalData)
| Term_Resize (session_id : Uuid) (size : TerminalSize)
| Term_Poll (session_id : Uuid)
| Term_Close (session_id : Uuid).

Inductive TerminalResult :=
| Opened (session_id : Uuid) (capabilities : TerminalCapabilities) (status : TerminalStatus)
| Term_ReadResult (session_id : Uuid) (output : TerminalRead)
| Wrote (session_id : Uuid) (accepted_bytes : Z)
| Resized (session_id : Uuid)
| Term_StatusResult (session_id : Uuid) (status : TerminalStatus)
| Term_Closed (session_id : Uuid) (status : TerminalStatus).

Definition is_running (s : TerminalState) : bool := eqb s Term_Running.

Definition TerminalCommand_session_id (c : TerminalCommand) : option Uuid :=
  match c with
  | Term_Open _ _ _ => None
  | Term_Read i _ | Term_Stream i _ | Term_Write i _ | Term_Resize i _ | Term_Poll i | Term_Close i => Some i
  end.

Section Data.
Context `{Base64}.

Definition TerminalData_from_bytes (l : list Z) : result TerminalData TerminalContractError :=
  fail_if (length l =? 0)%nat || (MAX_TERMINAL_IPC_BYTES <? Z.of_nat (length l)) with InvalidData in
  Ok {| encoded := base64_encode l |}.

Definition TerminalData_decode (d : TerminalData) : result (list Z) TerminalContractError :=
  fail_if is_empty (encoded d) || (MAX_TERMINAL_DATA_BASE64_BYTES <? len (encoded d)) with InvalidData in
  let? l := ok_or InvalidData (base64_decode (encoded d)) in
  fail_if (length l =? 0)%nat || (MAX_TERMINAL_IPC_BYTES <? Z.of_nat (length l)) with InvalidData in
  Ok l.

Definition TerminalCommand_validate (c : TerminalCommand) : result unit TerminalContractError :=
  match c with
  | Term_Open _ size _ | Term_Resize _ size => TerminalSize_validate size
  | Term_Read _ max_bytes | Term_Stream _ max_bytes =>
      if (0 <? max_bytes) && (max_bytes <=? MAX_TERMINAL_IPC_BYTES) then Ok tt else Err InvalidReadLimit
  | Term_Write _ data => let? _ := TerminalData_decode data in Ok tt
  | Term_Poll _ | Term_Close _ => Ok tt
  end.

(** [decode().is_ok_and(..)]. *)
Definition decode_ok_and (p : Z -> bool) (d : TerminalData) : bool :=
  match TerminalData_decode d with Ok l => p (Z.of_nat (length l)) | Err _ => false end.

Definition TerminalResult_validate_for (r : TerminalResult) (c : TerminalCommand)
  : result unit TerminalContractError :=
  let fits :=
    match r, c with
    | Opened i caps status, Term_Open _ _ _ =>
        negb (is_nil i) && is_ok (TerminalCapabilities_validate caps)
        && is_ok (TerminalStatus_validate status) && is_running (term_state status)
    | Term_ReadResult i output, Term_Read expected max_bytes =>
        (i =? expected)
        && match output with
           | Read_Data data => decode_ok_and (fun n => n <=? max_bytes) data
           | Read_Pending | Read_EndOfStream => true
           end
    | Wrote i accepted, Term_Write expected data =>
        (i =? expected) && decode_ok_and (fun n => n =? accepted) data
    | Resized i, Term_Resize expected _ => i =? expected
    | Term_StatusResult i status, Term_Poll expected =>
        (i =? expected) && is_ok (TerminalStatus_validate status)
    | Term_Closed i status, Term_Close expected =>
        (i =? expected) && is_ok (TerminalStatus_validate status)
        && eqb (term_state status) Term_ClosedByClient
    | _, _ => false
    end in
  if fits then Ok tt else Err InvalidResult.
End Data.
