(* ===== verification/IpcMessage.v ===== *)
(** [crates/ipc/src/message.rs]: requests, responses and the frames of the
    streams, as they cross the daemon's socket.

    Paths and texts of a request are what JSON can carry: UTF-8. Deadlines are
    milliseconds. *)
From S2P Require Import Prelude Text Encoding RemoteCore Terminal TransferModel TransferPublic Domain NotesDomain.

Definition WIRE_PROTOCOL_VERSION : Z := 13.
Definition MAX_REQUESTED_CAPABILITIES : Z := 32.
Definition MAX_CHUNK_RECORDS : Z := 32.
Definition MAX_APPLICATION_RECORDS : Z := 1024.
Definition MAX_TOTAL_RECORDS : Z := 4096.
Definition MAX_RESPONSE_FRAMES : Z := 130.
Definition MAX_RESPONSE_WIRE_BYTES : Z := 9 * 1024 * 1024.
Definition MAX_NOTES_EXPORT_FRAMES : Z := MAX_NOTE_EXPORT_DATA_FRAMES + 2.
Definition MAX_NOTES_EXPORT_WIRE_BYTES : Z := 40 * 1024 * 1024.
Definition MAX_TRANSFER_BIND_PATH_BYTES : Z := 4 * 1024.

(** ** Requests *)

Record SpeedTestBasicRequest := { stages : list SpeedTestStage }.

Definition stage_index (s : SpeedTestStage) : nat :=
  match s with Stage_Latency => 0 | Stage_Bandwidth => 1 | Stage_IpPurity => 2 end.

(** The loop over the stages; [seen] are the indices marked. *)
Fixpoint validate_stages (seen : list nat) (l : list SpeedTestStage) : result unit string :=
  match l with
  | [] => Ok tt
  | s :: l =>
      fail_if contains (stage_index s) seen with "speedtest_stages_duplicate"%string in
      validate_stages (stage_index s :: seen) l
  end.

Definition SpeedTestBasicRequest_validate (r : SpeedTestBasicRequest) : result unit string :=
  fail_if (length (stages r) =? 0)%nat with "speedtest_stages_empty"%string in
  fail_if (3 <? length (stages r))%nat with "speedtest_stages_too_many"%string in
  let? _ := validate_stages [] (stages r) in
  fail_if is_none (SpeedTestRunKind_classify (stages r)) with "speedtest_stage_groups_mixed"%string in
  Ok tt.

Record TransferLocalHandleBind := { bind_purpose : TransferLocalHandlePurpose; bind_path : string }.

(** [is_absolute] of a Unix path. *)
Definition is_absolute (path : string) : bool :=
  match path with String a _ => byte_of a =? ch "/" | EmptyString => false end.

Definition validate_bind_path (path : string) : bool :=
  is_absolute path && negb (is_empty path) && (len path <=? MAX_TRANSFER_BIND_PATH_BYTES)
  && negb (any_control path).

Definition TransferLocalHandleBind_validate (b : TransferLocalHandleBind) : bool :=
  validate_bind_path (bind_path b).

Record HealthRequest := { client_version : string; requested_capabilities : list string }.

(** What [SpeedTestBasic] streams from the daemon's runner. *)
Inductive SpeedTestStreamEvent := Event_Stage (stage : SpeedTestStageData) | Event_End (e : SpeedTestBasicEnd).

Inductive RequestBody :=
| Req_Health (r : HealthRequest)
| Req_TelemetrySnapshot
| Req_NetworkSnapshot
| Req_UsageSummary (query : UsageSummaryQuery)
| Req_RemoteCapabilities
| Req_SystemInfo
| Req_RemoteProfile (c : RemoteProfileCommand)
| Req_Secret (c : SecretCommand)
| Req_RemoteSession (c : RemoteSessionCommand)
| Req_Notes (c : NotesCommand)
| Req_Terminal (c : TerminalCommand)
| Req_Transfer (c : TransferCommand)
| Req_TransferLocalHandle (b : TransferLocalHandleBind)
| Req_SpeedTestBasic (r : SpeedTestBasicRequest)
| Req_SpeedTestCancel (run_kind : SpeedTestRunKind)
| Req_SpeedTestDeep (c : SpeedTestDeepCommand).

Record RequestEnvelope := { req_protocol_version : Z; req_request_id : Uuid; req_body : RequestBody }.

(** The constructors of requests: [uuid] is the fresh identifier. *)
Definition request (uuid : Uuid) (body : RequestBody) : RequestEnvelope :=
  {| req_protocol_version := WIRE_PROTOCOL_VERSION; req_request_id := uuid; req_body := body |}.
Definition appd_health (uuid : Uuid) (client_version : string) : RequestEnvelope :=
  request uuid (Req_Health {| client_version := client_version;
                              requested_capabilities := [APPD_HEALTH_CAPABILITY] |}).

(** ** Responses *)

Record DaemonError := { daemon_code : string; daemon_reason : string; daemon_retryable : bool }.
#[export] Instance DaemonError_eq_dec : EqDecision DaemonError.
Proof. solve_decision. Defined.

Definition DaemonError_new (code reason : string) (retryable : bool) : DaemonError :=
  {| daemon_code := code; daemon_reason := reason; daemon_retryable := retryable |}.

Record HealthReport := {
  daemon_version : string;
  report_health : HealthState;
  report_reason : string;
  capabilities : list Capability;
}.

(** [SystemInfoSection] and its parts, of [crates/systeminfo]. *)
Record SystemInfoEntry := { entry_key : string; entry_value : string }.
Record SystemInfoGroup := { group_title : option string; entries : list SystemInfoEntry }.
Record SystemInfoSection := { section_id : string; groups : list SystemInfoGroup }.
Definition SYSTEM_INFO_SCHEMA_VERSION : Z := 1.

Record SystemInfoReport := {
  si_schema_version : Z;
  si_captured_at_unix_ms : option Z;
  si_tool_version : option string;
  si_status : CapabilityAvailability;
  si_reason : string;
  si_retryable : bool;
  si_sections : list SystemInfoSection;
}.
Definition SystemInfoReport_validate (r : SystemInfoReport) : bool :=
  si_schema_version r =? SYSTEM_INFO_SCHEMA_VERSION.

Record SnapshotStart := {
  ss_schema_version : Z;
  ss_captured_at_unix_ms : option Z;
  ss_sample_interval_ms : option Z;
  ss_logical_cpu_count : option Z;
  ss_freshness : TelemetryFreshness;
  ss_status : TelemetryStatus;
  ss_reason : string;
  ss_retryable : bool;
  ss_scope : string;
  ss_last_success_at_unix_ms : option Z;
  ss_system_fd : SystemFdSample;
  ss_total_applications : Z;
  ss_total_records : Z;
  ss_data_frame_count : Z;
}.
Record SnapshotEnd := {
  se_schema_version : Z;
  se_freshness : TelemetryFreshness;
  se_status : TelemetryStatus;
  se_reason : string;
  se_retryable : bool;
  se_scope : string;
  se_last_success_at_unix_ms : option Z;
  se_total_applications : Z;
  se_total_records : Z;
  se_data_frame_count : Z;
  se_permission_denied_counts : list IssueCount;
  se_issues : list IssueCount;
}.

Record NetworkSnapshotStart := {
  ns_schema_version : Z;
  ns_captured_at_unix_ms : option Z;
  ns_observed_boottime_ms : option Z;
  ns_sample_interval_ms : option Z;
  ns_last_success_at_unix_ms : option Z;
  ns_freshness : NetworkFreshness;
  ns_retryable : bool;
  ns_system_traffic : NetworkCapabilityState;
  ns_per_application : NetworkCapabilityState;
  ns_coverage : NetworkCoverage;
  ns_totals : option NetworkTrafficTotals;
  ns_aggregate_rate : NetworkRate;
  ns_total_interfaces : Z;
  ns_total_applications : Z;
  ns_total_records : Z;
  ns_data_frame_count : Z;
}.
Record NetworkSnapshotEnd := {
  ne_schema_version : Z;
  ne_total_interfaces : Z;
  ne_total_applications : Z;
  ne_total_records : Z;
  ne_data_frame_count : Z;
}.

Record UsageSummaryStart := {
  uss_schema_version : Z;
  uss_captured_at_unix_ms : option Z;
  uss_query : UsageSummaryQuery;
  uss_status : CapabilityAvailability;
  uss_reason : string;
  uss_retryable : bool;
  uss_coverage : UsageCoverage;
  uss_total_applications : Z;
  uss_total_records : Z;
  uss_data_frame_count : Z;
}.
Record UsageSummaryEnd := {
  use_schema_version : Z;
  use_query : UsageSummaryQuery;
  use_status : CapabilityAvailability;
  use_reason : string;
  use_retryable : bool;
  use_total_applications : Z;
  use_total_records : Z;
  use_data_frame_count : Z;
}.

(** [TransferPageStart] and [TransferPageEnd] have the same fields. *)
Record TransferPageEnd := {
  tp_schema_version : Z;
  tp_query : TransferQuery;
  tp_total_tasks : Z;
  tp_data_frame_count : Z;
  tp_has_more : bool;
  tp_next_offset : option Z;
}.
Definition TransferPageStart : Type := TransferPageEnd.

(** So have [NotesPageStart] and [NotesPageEnd]. *)
Record NotesPageEnd := {
  np_schema_version : Z;
  np_query : NoteQuery;
  np_total_notes : Z;
  np_data_frame_count : Z;
  np_has_more : bool;
  np_next_offset : option Z;
}.
Definition NotesPageStart : Type := NotesPageEnd.

Inductive NotesContentKind := Content_Document | Content_Export (format : NoteExportFormat).
#[export] Instance NotesContentKind_eq_dec : EqDecision NotesContentKind.
Proof. solve_decision. Defined.

Record NotesContentStart := {
  nc_schema_version : Z;
  nc_kind : NotesContentKind;
  nc_note : option NoteSummary;
  nc_total_bytes : Z;
  nc_content_sha256 : string;
  nc_data_frame_count : Z;
}.
Record NotesContentChunk := { chunk_offset : Z; chunk_raw_bytes : Z; chunk_data_base64 : string }.
Record NotesContentEnd := {
  nce_schema_version : Z;
  nce_kind : NotesContentKind;
  nce_total_bytes : Z;
  nce_content_sha256 : string;
  nce_data_frame_count : Z;
}.

Record TerminalStreamStart := {
  ts_session_id : Uuid;
  ts_max_bytes : Z;
  ts_status : TerminalStatus;
}.

Inductive ResponseBody :=
| Resp_HealthReport (r : HealthReport)
| Resp_SnapshotStart (s : SnapshotStart)
| Resp_ApplicationChunk (records : list ApplicationSample)
| Resp_SnapshotEnd (e : SnapshotEnd)
| Resp_NetworkSnapshotStart (s : NetworkSnapshotStart)
| Resp_NetworkInterfaceChunk (records : list NetworkInterfaceSample)
| Resp_NetworkApplicationChunk (records : list NetworkApplicationTraffic)
| Resp_NetworkSnapshotEnd (e : NetworkSnapshotEnd)
| Resp_UsageSummaryStart (s : UsageSummaryStart)
| Resp_UsageApplicationChunk (records : list UsageApplicationDuration)
| Resp_UsageSummaryEnd (e : UsageSummaryEnd)
| Resp_RemoteCapabilities (c : RemoteAdapterCatalog)
| Resp_SystemInfo (r : SystemInfoReport)
| Resp_RemoteProfile (r : RemoteProfileResult)
| Resp_Secret (r : SecretCommandResult)
| Resp_RemoteSession (r : RemoteSessionResult)
| Resp_TerminalStreamStart (s : TerminalStreamStart)
| Resp_TerminalStreamData (session_id : Uuid) (data : TerminalData)
| Resp_TerminalStreamStatus (session_id : Uuid) (status : TerminalStatus)
| Resp_TerminalStreamEnd (session_id : Uuid) (status : TerminalStatus)
| Resp_NotesMutation (r : NoteMutationResult)
| Resp_NotesPageStart (s : NotesPageStart)
| Resp_NoteSummaryChunk (records : list NoteSummary)
| Resp_NotesPageEnd (e : NotesPageEnd)
| Resp_NotesContentStart (s : NotesContentStart)
| Resp_NotesContentChunk (c : NotesContentChunk)
| Resp_NotesContentEnd (e : NotesContentEnd)
| Resp_Terminal (r : TerminalResult)
| Resp_Transfer (o : TransferOutput)
| Resp_TransferPageStart (s : TransferPageStart)
| Resp_TransferTaskChunk (records : list TransferTask)
| Resp_TransferPageEnd (e : TransferPageEnd)
| Resp_TransferLocalHandle (g : TransferLocalHandleGrant)
| Resp_SpeedTestStage (s : SpeedTestStageData)
| Resp_SpeedTestBasicEnd (e : SpeedTestBasicEnd)
| Resp_SpeedTestCancelled (r : SpeedTestCancelResult)
| Resp_SpeedTestDeep (o : SpeedTestDeepOutput)
| Resp_Error (e : DaemonError).

Record ResponseEnvelope := {
  resp_protocol_version : Z;
  resp_request_id : Uuid;
  resp_sequence : Z;
  resp_snapshot_id : option Uuid;
  resp_body : ResponseBody;
}.

(** The envelope the daemon puts around a body. *)
Definition response (request_id : Uuid) (sequence : Z) (snapshot_id : option Uuid) (body : ResponseBody)
  : ResponseEnvelope :=
  {| resp_protocol_version := WIRE_PROTOCOL_VERSION; resp_request_id := request_id;
     resp_sequence := sequence; resp_snapshot_id := snapshot_id; resp_body := body |}.

Definition terminal_error (request_id : Uuid) (sequence : Z) (snapshot_id : option Uuid) (e : DaemonError)
  : ResponseEnvelope := response request_id sequence snapshot_id (Resp_Error e).

(** [speedtest_deep_deadline], in milliseconds: the clamp of [u64] seconds. *)
Definition speedtest_deep_deadline (c : SpeedTestDeepCommand) : Z :=
  match c with
  | Iperf3Start _ _ direction duration_secs _ =>
      let runs := if eqb direction Iperf3_Bidirectional then 2 else 1 in
      1000 * clamp 30 180 (duration_secs * runs + 30)
  | Iperf3Stop | WifiScan | LinssidLaunch => 30000
  end.
