(* ===== verification/IpcPlan.v ===== *)
(** [crates/ipc/src/server.rs]: the plans of the streams. A plan is every frame
    of an answer, encoded and checked before the first is written: a start, the
    records in chunks as large as a frame takes, an end.

    [Json ResponseEnvelope] is serde_json; [fresh] is the identifier
    [Uuid::new_v4] gives. Counters of [usize] do not overflow. *)
From S2P Require Import Prelude Text Encoding RemoteCore TransferModel TransferPublic Domain NotesDomain Frame IpcMessage.

(** A [DaemonError] that is not retryable. *)
Definition refusal (code reason : string) : DaemonError := DaemonError_new code reason false.

Definition checked_u32 (value : nat) (name : string) : result Z DaemonError :=
  ok_or (refusal "snapshot_counter_overflow" (name ++ "_overflow")) (Prelude.checked_u32 (Z.of_nat value)).

(** ** Limits of a plan *)

(** The loop over the frames of [validate_encoded_plan_with_limits] and of
    [validate_notes_encoded_plan], which differ in their errors. *)
Fixpoint validate_frames (invalid overflow exceeded : DaemonError) (max_wire_bytes wire_bytes : Z)
    (frames : list (list Z)) : result unit DaemonError :=
  match frames with
  | [] => Ok tt
  | payload :: frames =>
      fail_if (length payload =? 0)%nat || (MAX_FRAME_PAYLOAD_BYTES <? Z.of_nat (length payload))
        with invalid in
      let? wire_bytes := ok_or overflow (checked_u64 (wire_bytes + 4 + Z.of_nat (length payload))) in
      fail_if max_wire_bytes <? wire_bytes with exceeded in
      validate_frames invalid overflow exceeded max_wire_bytes wire_bytes frames
  end.

Definition validate_encoded_plan_with_limits (frames : list (list Z)) (max_frames max_wire_bytes : Z)
  : result unit DaemonError :=
  fail_if max_frames <? Z.of_nat (length frames)
    with refusal "snapshot_frame_limit" "snapshot_response_frames_exceeds_130" in
  validate_frames (refusal "snapshot_frame_limit" "snapshot_frame_payload_invalid")
    (refusal "snapshot_wire_limit" "snapshot_wire_bytes_overflow")
    (refusal "snapshot_wire_limit" "snapshot_wire_bytes_exceeds_limit") max_wire_bytes 0 frames.

Definition validate_encoded_plan (frames : list (list Z)) : result unit DaemonError :=
  validate_encoded_plan_with_limits frames MAX_RESPONSE_FRAMES MAX_RESPONSE_WIRE_BYTES.

Definition validate_notes_encoded_plan (frames : list (list Z)) (max_frames max_wire_bytes : Z)
  : result unit DaemonError :=
  fail_if max_frames <? Z.of_nat (length frames)
    with refusal "notes_frame_limit" "notes_response_frame_limit_exceeded" in
  validate_frames (refusal "notes_frame_limit" "notes_frame_payload_invalid")
    (refusal "notes_wire_limit" "notes_wire_bytes_overflow")
    (refusal "notes_wire_limit" "notes_response_wire_limit_exceeded") max_wire_bytes 0 frames.

(** ** Chunks *)

(** What an attempt to encode the first [count] records gives. *)
Inductive attempt := Fits (payload : list Z) | Too_many | Fails (e : DaemonError).

(** [for count in 1..=limit]: the largest number of records that fits. *)
Fixpoint largest_fit (try_encode : nat -> attempt) (count : nat) (todo : nat)
    (selected : option (nat * list Z)) : result (option (nat * list Z)) DaemonError :=
  match todo with
  | O => Ok selected
  | S todo =>
      match try_encode count with
      | Fits payload => largest_fit try_encode (S count) todo (Some (count, payload))
      | Too_many => Ok selected
      | Fails e => Err e
      end
  end.

Definition select_chunk (try_encode : nat -> attempt) (available : nat) (none_fits : DaemonError)
  : result (nat * list Z) DaemonError :=
  let? selected := largest_fit try_encode 1 (Nat.min available (Z.to_nat MAX_CHUNK_RECORDS)) None in
  ok_or none_fits selected.

(** The loop over the records: [select] gives a chunk of the records that are
    left, at the sequence number; [within] checks the number of chunks. [skip]
    records of the list are already in a chunk. *)
Section Loop.
Context {T : Type} (select : list T -> Z -> result (nat * list Z) DaemonError)
  (within : nat -> result unit DaemonError) (sequence_overflow : DaemonError).

Fixpoint chunk_loop (records : list T) (skip : nat) (sequence : Z) (chunks : list (list Z))
  : result (Z * list (list Z)) DaemonError :=
  match records with
  | [] => Ok (sequence, chunks)
  | _ :: rest =>
      match skip with
      | S skip => chunk_loop rest skip sequence chunks
      | O =>
          let? (count, encoded) := select records sequence in
          let chunks := chunks ++ [encoded] in
          let? _ := within (length chunks) in
          let? sequence := ok_or sequence_overflow (Prelude.checked_u32 (sequence + 1)) in
          chunk_loop rest (pred count) sequence chunks
      end
  end.
End Loop.

Definition within_frame_limit (chunks : nat) : result unit DaemonError :=
  fail_if MAX_RESPONSE_FRAMES <? Z.of_nat chunks + 2
    with refusal "snapshot_frame_limit" "snapshot_response_frames_exceeds_130" in
  Ok tt.

Section Plans.
Context `{Json ResponseEnvelope}.

Definition encode_response (r : ResponseEnvelope) : result (list Z) DaemonError :=
  let? encoded := map_err (fun _ => refusal "snapshot_serialization_failed"
                                      "snapshot_metadata_serialization_failed") (to_vec r) in
  fail_if (length encoded =? 0)%nat || (MAX_FRAME_PAYLOAD_BYTES <? Z.of_nat (length encoded))
    with refusal "snapshot_metadata_oversize" "snapshot_metadata_exceeds_frame_limit" in
  Ok encoded.

(** An attempt of [encode_record_chunks] and [select_application_chunk]. *)
Definition try_records {T} (body : list T -> ResponseBody) (failed oversize : DaemonError)
    (request_id snapshot_id : Uuid) (records : list T) (sequence : Z) (count : nat) : attempt :=
  match to_vec (response request_id sequence (Some snapshot_id) (body (take count records))) with
  | Err _ => Fails failed
  | Ok encoded =>
      if MAX_FRAME_PAYLOAD_BYTES <? Z.of_nat (length encoded)
      then if (count =? 1)%nat then Fails oversize else Too_many
      else Fits encoded
  end.

(** An attempt of [select_note_summary_chunk]. *)
Definition try_notes (request_id snapshot_id : Uuid) (records : list NoteSummary) (sequence : Z)
    (count : nat) : attempt :=
  match encode_response
          (response request_id sequence (Some snapshot_id) (Resp_NoteSummaryChunk (take count records))) with
  | Ok encoded => Fits encoded
  | Err e => if (1 <? count)%nat then Too_many else Fails e
  end.

(** One turn of the loop of [encode_record_chunks]: what it selects. *)
Definition select_records {T} (body : list T -> ResponseBody) (record_kind : string)
    (request_id snapshot_id : Uuid) (records : list T) (sequence : Z) : result (nat * list Z) DaemonError :=
  select_chunk
    (try_records body
       (refusal "snapshot_serialization_failed" (record_kind ++ "_chunk_serialization_failed"))
       (refusal "snapshot_record_oversize" ("single_" ++ record_kind ++ "_record_exceeds_frame_limit"))
       request_id snapshot_id records sequence)
    (length records) (refusal "snapshot_chunk_invalid" (record_kind ++ "_chunk_must_not_be_empty")).

Definition encode_record_chunks {T} (body : list T -> ResponseBody) (record_kind : string)
    (request_id snapshot_id : Uuid) (records : list T) (sequence : Z) (chunks : list (list Z))
  : result (Z * list (list Z)) DaemonError :=
  chunk_loop (select_records body record_kind request_id snapshot_id) within_frame_limit
    (refusal "snapshot_sequence_overflow" "snapshot_sequence_overflow") records 0 sequence chunks.

Definition select_application_chunk (request_id snapshot_id : Uuid) (records : list ApplicationSample)
    (sequence : Z) : result (nat * list Z) DaemonError :=
  select_chunk
    (try_records Resp_ApplicationChunk
       (refusal "snapshot_serialization_failed" "snapshot_chunk_serialization_failed")
       (refusal "snapshot_record_oversize" "single_application_record_exceeds_frame_limit")
       request_id snapshot_id records sequence)
    (length records) (refusal "snapshot_chunk_invalid" "snapshot_chunk_must_not_be_empty").

Definition select_note_summary_chunk (request_id snapshot_id : Uuid) (records : list NoteSummary)
    (sequence : Z) : result (nat * list Z) DaemonError :=
  select_chunk (try_notes request_id snapshot_id records sequence) (length records)
    (refusal "notes_chunk_invalid" "notes_summary_chunk_must_not_be_empty").

(** The start, the chunks and the end of every plan. *)
Definition assemble (request_id snapshot_id : Uuid) (start stop : ResponseBody) (sequence : Z)
    (chunks : list (list Z)) : result (list (list Z)) DaemonError :=
  let? start := encode_response (response request_id 0 (Some snapshot_id) start) in
  let? stop := encode_response (response request_id sequence (Some snapshot_id) stop) in
  Ok (start :: chunks ++ [stop]).

(** ** Telemetry snapshots *)

Definition snapshot_start (s : TelemetrySnapshot) (total frames : Z) : SnapshotStart :=
  {| ss_schema_version := tel_schema_version s; ss_captured_at_unix_ms := tel_captured_at_unix_ms s;
     ss_sample_interval_ms := tel_sample_interval_ms s; ss_logical_cpu_count := tel_logical_cpu_count s;
     ss_freshness := tel_freshness s; ss_status := tel_status s; ss_reason := tel_reason s;
     ss_retryable := tel_retryable s; ss_scope := tel_scope s;
     ss_last_success_at_unix_ms := tel_last_success_at_unix_ms s; ss_system_fd := tel_system_fd s;
     ss_total_applications := total; ss_total_records := total; ss_data_frame_count := frames |}.
Definition snapshot_end (s : TelemetrySnapshot) (total frames : Z) : SnapshotEnd :=
  {| se_schema_version := tel_schema_version s; se_freshness := tel_freshness s;
     se_status := tel_status s; se_reason := tel_reason s; se_retryable := tel_retryable s;
     se_scope := tel_scope s; se_last_success_at_unix_ms := tel_last_success_at_unix_ms s;
     se_total_applications := total; se_total_records := total; se_data_frame_count := frames;
     se_permission_denied_counts := tel_permission_denied_counts s; se_issues := tel_issues s |}.

Definition SnapshotPlan_build (request_id : Uuid) (s : TelemetrySnapshot)
  : result (list (list Z)) DaemonError :=
  fail_if negb (tel_schema_version s =? TELEMETRY_SCHEMA_VERSION)
    with refusal "snapshot_schema_unsupported" "snapshot_schema_must_be_3" in
  fail_if is_nil (tel_snapshot_id s)
    with refusal "snapshot_identity_invalid" "snapshot_id_must_not_be_nil" in
  let total_applications := length (tel_applications s) in
  fail_if MAX_APPLICATION_RECORDS <? Z.of_nat total_applications
    with refusal "snapshot_application_limit" "snapshot_applications_exceeds_1024" in
  fail_if MAX_TOTAL_RECORDS <? Z.of_nat total_applications
    with refusal "snapshot_record_limit" "snapshot_records_exceeds_4096" in
  let? (sequence, chunks) :=
    chunk_loop (select_application_chunk request_id (tel_snapshot_id s)) within_frame_limit
      (refusal "snapshot_sequence_overflow" "snapshot_sequence_overflow") (tel_applications s) 0 1 [] in
  let? data_frame_count := ok_or (refusal "snapshot_frame_limit" "snapshot_data_frame_count_overflow")
                             (Prelude.checked_u32 (Z.of_nat (length chunks))) in
  let? _ := within_frame_limit (length chunks) in
  let? total := ok_or (refusal "snapshot_record_limit" "snapshot_application_count_overflow")
                  (Prelude.checked_u32 (Z.of_nat total_applications)) in
  let? frames := assemble request_id (tel_snapshot_id s)
                   (Resp_SnapshotStart (snapshot_start s total data_frame_count))
                   (Resp_SnapshotEnd (snapshot_end s total data_frame_count)) sequence chunks in
  let? _ := validate_encoded_plan frames in
  Ok frames.

(** ** Network snapshots *)

Definition network_start (s : NetworkSnapshot) (interfaces applications records frames : Z)
  : NetworkSnapshotStart :=
  {| ns_schema_version := net_schema_version s; ns_captured_at_unix_ms := net_captured_at_unix_ms s;
     ns_observed_boottime_ms := net_observed_boottime_ms s;
     ns_sample_interval_ms := net_sample_interval_ms s;
     ns_last_success_at_unix_ms := net_last_success_at_unix_ms s; ns_freshness := net_freshness s;
     ns_retryable := net_retryable s; ns_system_traffic := net_system_traffic s;
     ns_per_application := net_per_application s; ns_coverage := net_coverage s;
     ns_totals := net_totals s; ns_aggregate_rate := net_aggregate_rate s;
     ns_total_interfaces := interfaces; ns_total_applications := applications;
     ns_total_records := records; ns_data_frame_count := frames |}.
Definition network_end (s : NetworkSnapshot) (interfaces applications records frames : Z)
  : NetworkSnapshotEnd :=
  {| ne_schema_version := net_schema_version s; ne_total_interfaces := interfaces;
     ne_total_applications := applications; ne_total_records := records; ne_data_frame_count := frames |}.

Definition NetworkSnapshotPlan_build (request_id : Uuid) (s : NetworkSnapshot)
  : result (list (list Z)) DaemonError :=
  fail_if negb (net_schema_version s =? NETWORK_SCHEMA_VERSION)
    with refusal "network_schema_unsupported" "network_schema_must_be_1" in
  fail_if is_nil (net_snapshot_id s)
    with refusal "snapshot_identity_invalid" "snapshot_id_must_not_be_nil" in
  fail_if MAX_NETWORK_INTERFACES <? Z.of_nat (length (net_interfaces s))
    with refusal "network_interface_limit" "network_interfaces_exceeds_256" in
  fail_if MAX_NETWORK_APPLICATIONS <? Z.of_nat (length (net_applications s))
    with refusal "network_application_limit" "network_applications_exceeds_1024" in
  let? _ := map_err (refusal "network_snapshot_invalid") (NetworkSnapshot_validate s) in
  let sid := net_snapshot_id s in
  let? (sequence, chunks) := encode_record_chunks Resp_NetworkInterfaceChunk "network_interface"
                               request_id sid (net_interfaces s) 1 [] in
  let? (sequence, chunks) := encode_record_chunks Resp_NetworkApplicationChunk "network_application"
                               request_id sid (net_applications s) sequence chunks in
  let? total_interfaces := checked_u32 (length (net_interfaces s)) "network_interface_count" in
  let? total_applications := checked_u32 (length (net_applications s)) "network_application_count" in
  let? total_records := checked_u32 (length (net_interfaces s) + length (net_applications s))
                          "network_record_count" in
  let? data_frame_count := checked_u32 (length chunks) "network_data_frame_count" in
  let? _ := within_frame_limit (length chunks) in
  let? frames := assemble request_id sid
    (Resp_NetworkSnapshotStart
       (network_start s total_interfaces total_applications total_records data_frame_count))
    (Resp_NetworkSnapshotEnd
       (network_end s total_interfaces total_applications total_records data_frame_count))
    sequence chunks in
  let? _ := validate_encoded_plan frames in
  Ok frames.

(** ** Usage summaries *)

Definition usage_start (s : UsageSummary) (total frames : Z) : UsageSummaryStart :=
  {| uss_schema_version := us_schema_version s; uss_captured_at_unix_ms := us_captured_at_unix_ms s;
     uss_query := us_query s; uss_status := us_status s; uss_reason := us_reason s;
     uss_retryable := us_retryable s; uss_coverage := us_coverage s; uss_total_applications := total;
     uss_total_records := total; uss_data_frame_count := frames |}.
Definition usage_end (s : UsageSummary) (total frames : Z) : UsageSummaryEnd :=
  {| use_schema_version := us_schema_version s; use_query := us_query s; use_status := us_status s;
     use_reason := us_reason s; use_retryable := us_retryable s; use_total_applications := total;
     use_total_records := total; use_data_frame_count := frames |}.

Definition UsageSummaryPlan_build (request_id : Uuid) (s : UsageSummary)
  : result (list (list Z)) DaemonError :=
  fail_if negb (us_schema_version s =? USAGE_SCHEMA_VERSION)
    with refusal "usage_schema_unsupported" "usage_schema_must_be_2" in
  fail_if is_nil (us_snapshot_id s)
    with refusal "snapshot_identity_invalid" "snapshot_id_must_not_be_nil" in
  fail_if MAX_USAGE_APPLICATIONS <? Z.of_nat (length (us_applications s))
    with refusal "usage_application_limit" "usage_applications_exceeds_1024" in
  let? _ := map_err (refusal "usage_summary_invalid") (UsageSummary_validate s) in
  let sid := us_snapshot_id s in
  let? (sequence, chunks) := encode_record_chunks Resp_UsageApplicationChunk "usage_application"
                               request_id sid (us_applications s) 1 [] in
  let? total := checked_u32 (length (us_applications s)) "usage_application_count" in
  let? data_frame_count := checked_u32 (length chunks) "usage_data_frame_count" in
  let? _ := within_frame_limit (length chunks) in
  let? frames := assemble request_id sid
                   (Resp_UsageSummaryStart (usage_start s total data_frame_count))
                   (Resp_UsageSummaryEnd (usage_end s total data_frame_count)) sequence chunks in
  let? _ := validate_encoded_plan frames in
  Ok frames.

(** ** Pages of transfers *)

(** The declarations of a page, in its start and again in its end. *)
Definition transfer_declaration (p : TransferPage) (total frames : Z) : TransferPageEnd :=
  {| tp_schema_version := TRANSFER_PUBLIC_SCHEMA_VERSION; tp_query := TransferPublic.page_query p;
     tp_total_tasks := total; tp_data_frame_count := frames; tp_has_more := has_more p;
     tp_next_offset := next_offset p |}.

Definition TransferPlan_page {J} `{TaskCodec J} (fresh request_id : Uuid) (p : TransferPage)
  : result (list (list Z)) DaemonError :=
  let? _ := map_err (fun _ => refusal "transfer_page_invalid" "transfer_page_invalid")
              (TransferPage_validate p) in
  let? total_tasks := checked_u32 (length (page_tasks p)) "transfer_task_count" in
  let? (sequence, chunks) := encode_record_chunks Resp_TransferTaskChunk "transfer_task"
                               request_id fresh (page_tasks p) 1 [] in
  let? data_frame_count := checked_u32 (length chunks) "transfer_data_frame_count" in
  let declaration := transfer_declaration p total_tasks data_frame_count in
  let? frames := assemble request_id fresh (Resp_TransferPageStart declaration)
                   (Resp_TransferPageEnd declaration) sequence chunks in
  let? _ := validate_encoded_plan frames in
  Ok frames.

(** ** Notes *)

Definition notes_declaration (p : NotePage) (total frames : Z) : NotesPageEnd :=
  {| np_schema_version := NOTES_SCHEMA_VERSION; np_query := NotesDomain.page_query p;
     np_total_notes := total; np_data_frame_count := frames; np_has_more := page_has_more p;
     np_next_offset := page_next_offset p |}.

Definition notes_sequence_overflow : DaemonError :=
  refusal "notes_sequence_overflow" "notes_sequence_overflow".

Definition NotesPlan_page `{UuidFormat} (fresh request_id : Uuid) (p : NotePage)
  : result (list (list Z)) DaemonError :=
  let? _ := map_err (refusal "notes_page_invalid") (NotePage_validate p) in
  let? (sequence, chunks) := chunk_loop (select_note_summary_chunk request_id fresh) (fun _ => Ok tt)
                               notes_sequence_overflow (page_notes p) 0 1 [] in
  let? total_notes := checked_u32 (length (page_notes p)) "notes_record_count" in
  let? data_frame_count := checked_u32 (length chunks) "notes_data_frame_count" in
  let declaration := notes_declaration p total_notes data_frame_count in
  let? frames := assemble request_id fresh (Resp_NotesPageStart declaration)
                   (Resp_NotesPageEnd declaration) sequence chunks in
  let? _ := validate_notes_encoded_plan frames MAX_RESPONSE_FRAMES MAX_RESPONSE_WIRE_BYTES in
  Ok frames.

Context `{Base64} `{Sha256}.

(** The next chunk of the content, of which [rest] is left. *)
Definition content_chunk (request_id snapshot_id : Uuid) (content_bytes : nat) (rest : list Z) (sequence : Z)
  : result (nat * list Z) DaemonError :=
  let l := take (Z.to_nat NOTE_CONTENT_CHUNK_BYTES) rest in
  let? offset := checked_u32 (content_bytes - length rest) "notes_chunk_offset" in
  let? raw_bytes := checked_u32 (length l) "notes_chunk_bytes" in
  let? encoded := encode_response
    (response request_id sequence (Some snapshot_id)
       (Resp_NotesContentChunk {| chunk_offset := offset; chunk_raw_bytes := raw_bytes;
                                  chunk_data_base64 := base64_encode l |})) in
  Ok (length l, encoded).

Definition NotesPlan_content (fresh request_id : Uuid) (kind : NotesContentKind) (note : option NoteSummary)
    (content content_sha256 : string) (max_frames max_wire_bytes : Z) : result (list (list Z)) DaemonError :=
  let l := bytes content in
  fail_if negb (String.eqb (sha256_hex l) content_sha256)
    with refusal "notes_content_invalid" "notes_content_sha256_mismatch" in
  let? total_bytes := checked_u32 (length l) "notes_content_bytes" in
  let? (sequence, chunks) := chunk_loop (content_chunk request_id fresh (length l)) (fun _ => Ok tt)
                               notes_sequence_overflow l 0 1 [] in
  let? data_frame_count := checked_u32 (length chunks) "notes_data_frame_count" in
  let? frames := assemble request_id fresh
    (Resp_NotesContentStart
       {| nc_schema_version := NOTES_SCHEMA_VERSION; nc_kind := kind; nc_note := note;
          nc_total_bytes := total_bytes; nc_content_sha256 := content_sha256;
          nc_data_frame_count := data_frame_count |})
    (Resp_NotesContentEnd
       {| nce_schema_version := NOTES_SCHEMA_VERSION; nce_kind := kind; nce_total_bytes := total_bytes;
          nce_content_sha256 := content_sha256; nce_data_frame_count := data_frame_count |})
    sequence chunks in
  let? _ := validate_notes_encoded_plan frames max_frames max_wire_bytes in
  Ok frames.

Context `{UuidFormat}.

Definition NotesPlan_document (fresh request_id : Uuid) (d : NoteDocument)
  : result (list (list Z)) DaemonError :=
  let? _ := map_err (refusal "notes_document_invalid") (NoteDocument_validate d) in
  NotesPlan_content fresh request_id Content_Document (Some (doc_summary d)) (doc_body_markdown d)
    (sum_body_sha256 (doc_summary d)) MAX_RESPONSE_FRAMES MAX_RESPONSE_WIRE_BYTES.

Definition NotesPlan_export (fresh request_id : Uuid) (e : NoteExport)
  : result (list (list Z)) DaemonError :=
  let? _ := map_err (refusal "notes_export_invalid") (NoteExport_validate e) in
  NotesPlan_content fresh request_id (Content_Export (export_format e)) None (export_content e)
    (export_content_sha256 e) MAX_NOTES_EXPORT_FRAMES MAX_NOTES_EXPORT_WIRE_BYTES.

(** [write_encoded_plan] and every [write_to]. *)
Fixpoint write_encoded_plan (frames : list (list Z)) (deadline : Z) : writer_mut unit :=
  match frames with
  | [] => ret tt
  | payload :: frames => write_frame payload deadline ;;; write_encoded_plan frames deadline
  end.
End Plans.
