(* ===== verification/IpcPlanFacts.v ===== *)
(** Plans: a plan that is built keeps every limit of the wire, and its frames
    are the start, the records in order and the end. *)
From S2P Require Import Prelude Text Encoding RemoteCore TransferPublic Domain NotesDomain Frame FrameFacts IpcMessage IpcPlan.

(** ** Limits *)

Lemma validate_frames_ok invalid overflow exceeded limit frames : forall wire,
  validate_frames invalid overflow exceeded limit wire frames = Ok tt ->
  Forall sendable frames /\ (frames <> [] -> wire + wire_size frames <= limit).
Proof.
  induction frames as [| p frames IH]; intros wire H; [done |]. cbn [validate_frames] in H.
  destruct (_ || _) eqn:Hp in H; [discriminate |]. bool_facts. apply Nat.eqb_neq in H0.
  apply result_bind_ok in H as (w & Hw & H). unfold ok_or, checked_u64 in Hw.
  destruct (in_u64 _); [injection Hw as <- | discriminate].
  destruct (limit <? _) eqn:Hl in H; [discriminate |]. apply IH in H as [Hs Hw]. split.
  - constructor; [| done]. unfold sendable. lia.
  - intros _. cbn [wire_size fold_right]. destruct frames as [| q l]; [cbn; lia |].
    specialize (Hw ltac:(done)). unfold wire_size in Hw. lia.
Qed.

(** What every frame of a plan fits into. *)
Definition within_limits (max_frames max_wire_bytes : Z) (frames : list (list Z)) : Prop :=
  Forall sendable frames /\ Z.of_nat (length frames) <= max_frames /\ wire_size frames <= max_wire_bytes.

Lemma validate_encoded_plan_ok frames :
  validate_encoded_plan frames = Ok tt -> within_limits MAX_RESPONSE_FRAMES MAX_RESPONSE_WIRE_BYTES frames.
Proof.
  unfold validate_encoded_plan, validate_encoded_plan_with_limits.
  destruct (_ <? _) eqn:Hl; [discriminate |]. intros H. apply validate_frames_ok in H as [Hs Hw].
  split_and!; [done | lia |]. destruct frames; [done | by apply Hw].
Qed.

Lemma validate_notes_encoded_plan_ok frames m w : 0 <= w ->
  validate_notes_encoded_plan frames m w = Ok tt -> within_limits m w frames.
Proof.
  intros Hw0. unfold validate_notes_encoded_plan.
  destruct (_ <? _) eqn:Hl; [discriminate |]. intros H. apply validate_frames_ok in H as [Hs Hw].
  split_and!; [done | lia |]. destruct frames; [simpl; lia | by apply Hw].
Qed.

(** ** Chunks *)

Lemma largest_fit_ok try_encode todo : forall count selected n p,
  largest_fit try_encode count todo selected = Ok (Some (n, p)) ->
  selected = Some (n, p) \/ ((count <= n < count + todo)%nat /\ try_encode n = Fits p).
Proof.
  induction todo as [| todo IH]; intros count selected n p H; cbn [largest_fit] in H; [left; congruence |].
  destruct (try_encode count) as [q | | e] eqn:Ht; [| left; congruence | discriminate].
  apply IH in H as [[= -> ->] | [Hn Hp]]; right; (split; [lia | done]).
Qed.

Lemma select_chunk_ok try_encode available none n p :
  select_chunk try_encode available none = Ok (n, p) ->
  (0 < n <= available)%nat /\ Z.of_nat n <= MAX_CHUNK_RECORDS /\ try_encode n = Fits p.
Proof.
  unfold select_chunk. intros H. apply result_bind_ok in H as (o & Ho & H).
  destruct o as [[n' p'] |]; [| discriminate]. injection H as -> ->.
  apply largest_fit_ok in Ho as [[=] | [Hn Hp]]. unfold MAX_CHUNK_RECORDS in *.
  split_and!; [lia | lia | lia | done].
Qed.

(** The frames of a list of records from a sequence number on: [encoded] says
    what the first [n] of the records that are left become. *)
Section Chunked.
Context {T : Type} (encoded : Z -> list T -> nat -> list Z -> Prop).

Inductive chunked : Z -> list T -> list (list Z) -> Prop :=
| chunked_done s : chunked s [] []
| chunked_next s records n p ps :
    (0 < n <= length records)%nat -> encoded s records n p -> chunked (s + 1) (drop n records) ps ->
    chunked s records (p :: ps).

Lemma chunked_length s records ps : chunked s records ps ->
  (length ps <= length records)%nat /\ (records = [] <-> ps = []).
Proof.
  induction 1 as [s | s records n p ps Hn He Hc [IH IH0]]; [done |]. rewrite length_drop in IH. simpl. split; [lia |].
  split; [intros ->; simpl in Hn; lia | done].
Qed.

Context (select : list T -> Z -> result (nat * list Z) DaemonError)
  (within : nat -> result unit DaemonError) (overflow : DaemonError).
Hypothesis select_ok : forall records s n p, records <> [] -> select records s = Ok (n, p) ->
  (0 < n <= length records)%nat /\ encoded s records n p.

Lemma chunk_loop_ok records : forall skip s chunks s' chunks',
  chunk_loop select within overflow records skip s chunks = Ok (s', chunks') ->
  exists ps, chunks' = chunks ++ ps /\ chunked s (drop skip records) ps /\ s' = s + Z.of_nat (length ps).
Proof.
  induction records as [| r records IH]; intros skip s chunks s' chunks' H; cbn [chunk_loop] in H.
  { injection H as <- <-. exists []. rewrite app_nil_r, drop_nil. split_and!; [done | constructor | simpl; lia]. }
  destruct skip as [| skip]; [| by apply IH in H].
  apply result_bind_ok in H as ([n p] & Hs & H). apply result_bind_ok in H as (u & Hw & H).
  apply result_bind_ok in H as (s1 & Hs1 & H). unfold ok_or, Prelude.checked_u32 in Hs1.
  destruct (in_u32 _); [injection Hs1 as <- | discriminate].
  apply select_ok in Hs as [Hn He]; [| done]. apply IH in H as (ps & -> & Hps & ->).
  exists (p :: ps). rewrite <- app_assoc. split_and!; [done | | simpl; lia].
  apply (chunked_next s (r :: records) n p); [done | done |]. by destruct n as [| n]; [lia |].
Qed.
End Chunked.

(** The loop gives as many frames as the frame limit allows. *)
Lemma within_frame_limit_ok n : within_frame_limit n = Ok tt -> Z.of_nat n + 2 <= MAX_RESPONSE_FRAMES.
Proof. unfold within_frame_limit. destruct (_ <? _) eqn:Hl; [discriminate | lia]. Qed.

Section Plans.
Context `{Json ResponseEnvelope}.

Lemma encode_response_ok r p : encode_response r = Ok p -> to_vec r = Ok p.
Proof.
  unfold encode_response. intros He. apply result_bind_ok in He as (q & Hq & He).
  destruct (to_vec r); [injection Hq as <- | discriminate]. destruct (_ || _); [discriminate |]. congruence.
Qed.

(** A chunk of records as the frame of its envelope. *)
Definition record_frame {T} (body : list T -> ResponseBody) (request_id snapshot_id : Uuid)
    (s : Z) (records : list T) (n : nat) (p : list Z) : Prop :=
  Z.of_nat n <= MAX_CHUNK_RECORDS /\
  to_vec (response request_id s (Some snapshot_id) (body (take n records))) = Ok p.

Lemma try_records_fits {T} (body : list T -> ResponseBody) e e' rid sid records s n p :
  try_records body e e' rid sid records s n = Fits p ->
  to_vec (response rid s (Some sid) (body (take n records))) = Ok p.
Proof. unfold try_records. repeat case_match; congruence. Qed.

Lemma try_notes_fits rid sid records s n p :
  try_notes rid sid records s n = Fits p ->
  to_vec (response rid s (Some sid) (Resp_NoteSummaryChunk (take n records))) = Ok p.
Proof.
  unfold try_notes. destruct (encode_response _) eqn:He; [| by case_match].
  intros [= ->]. by apply encode_response_ok.
Qed.

Lemma encode_record_chunks_ok {T} (body : list T -> ResponseBody) kind rid sid records s chunks s' chunks' :
  encode_record_chunks body kind rid sid records s chunks = Ok (s', chunks') ->
  exists ps, chunks' = chunks ++ ps /\ chunked (record_frame body rid sid) s records ps /\
             s' = s + Z.of_nat (length ps).
Proof.
  intros H0. eapply chunk_loop_ok in H0; [exact H0 |]. intros l q n p _ Hs. unfold select_records in Hs.
  apply select_chunk_ok in Hs as (Hn & Hm & Hp). by apply try_records_fits in Hp.
Qed.

Lemma application_chunks_ok rid sid within overflow records s s' chunks' :
  chunk_loop (select_application_chunk rid sid) within overflow records 0 s [] = Ok (s', chunks') ->
  chunked (record_frame Resp_ApplicationChunk rid sid) s records chunks' /\ s' = s + Z.of_nat (length chunks').
Proof.
  intros H0. eapply (chunk_loop_ok (record_frame Resp_ApplicationChunk rid sid)) in H0 as (ps & -> & Hc & ->); [done |].
  intros l q n p _ Hs. unfold select_application_chunk in Hs.
  apply select_chunk_ok in Hs as (Hn & Hm & Hp). by apply try_records_fits in Hp.
Qed.

Lemma note_chunks_ok rid sid within overflow records s s' chunks' :
  chunk_loop (select_note_summary_chunk rid sid) within overflow records 0 s [] = Ok (s', chunks') ->
  chunked (record_frame Resp_NoteSummaryChunk rid sid) s records chunks' /\ s' = s + Z.of_nat (length chunks').
Proof.
  intros H0. eapply (chunk_loop_ok (record_frame Resp_NoteSummaryChunk rid sid)) in H0 as (ps & -> & Hc & ->); [done |].
  intros l q n p _ Hs. unfold select_note_summary_chunk in Hs.
  apply select_chunk_ok in Hs as (Hn & Hm & Hp). by apply try_notes_fits in Hp.
Qed.

(** The frames of a plan: where they come from. *)
Definition plan_frames (rid sid : Uuid) (start stop : ResponseBody) (chunks frames : list (list Z)) : Prop :=
  exists p q, frames = p :: chunks ++ [q] /\
    to_vec (response rid 0 (Some sid) start) = Ok p /\
    to_vec (response rid (1 + Z.of_nat (length chunks)) (Some sid) stop) = Ok q.

Lemma assemble_ok rid sid start stop s chunks frames :
  assemble rid sid start stop s chunks = Ok frames -> s = 1 + Z.of_nat (length chunks) ->
  plan_frames rid sid start stop chunks frames.
Proof.
  unfold assemble. intros Ha ->. apply result_bind_ok in Ha as (p & Hp & Ha).
  apply result_bind_ok in Ha as (q & Hq & Ha). injection Ha as <-. exists p, q.
  split_and!; [done | |]; by apply encode_response_ok.
Qed.

Lemma checked_u32_ok n name z : checked_u32 n name = Ok z -> z = Z.of_nat n.
Proof. unfold checked_u32, ok_or, Prelude.checked_u32. destruct (in_u32 _); congruence. Qed.

(** ** What is in each plan *)

Ltac plan_step H :=
  let x := fresh "x" in let Hx := fresh "Hx" in apply result_bind_ok in H as (x & Hx & H).

Lemma SnapshotPlan_ok rid s frames : SnapshotPlan_build rid s = Ok frames ->
  exists chunks, let total := Z.of_nat (length (tel_applications s)) in let n := Z.of_nat (length chunks) in
    plan_frames rid (tel_snapshot_id s) (Resp_SnapshotStart (snapshot_start s total n))
      (Resp_SnapshotEnd (snapshot_end s total n)) chunks frames /\
    chunked (record_frame Resp_ApplicationChunk rid (tel_snapshot_id s)) 1 (tel_applications s) chunks /\
    tel_schema_version s = TELEMETRY_SCHEMA_VERSION /\ is_nil (tel_snapshot_id s) = false /\
    total <= MAX_APPLICATION_RECORDS /\
    within_limits MAX_RESPONSE_FRAMES MAX_RESPONSE_WIRE_BYTES frames.
Proof.
  unfold SnapshotPlan_build. cbv zeta. intros Hb. guards Hb.
  apply result_bind_ok in Hb as ([q chunks] & Hc & Hb). apply application_chunks_ok in Hc as [Hc ->].
  plan_step Hb. plan_step Hb. plan_step Hb. plan_step Hb. plan_step Hb. injection Hb as ->. exists chunks.
  destruct x3. apply validate_encoded_plan_ok in Hx3.
  unfold ok_or, Prelude.checked_u32 in *. destruct (in_u32 _) in Hx; [injection Hx as <- | discriminate].
  destruct (in_u32 _) in Hx1; [injection Hx1 as <- | discriminate].
  apply assemble_ok in Hx2; [| done].
  bool_facts. split_and!; try done; lia.
Qed.

Lemma NetworkSnapshotPlan_ok rid s frames : NetworkSnapshotPlan_build rid s = Ok frames ->
  exists cs ds, let i := Z.of_nat (length (net_interfaces s)) in
    let a := Z.of_nat (length (net_applications s)) in let n := Z.of_nat (length (cs ++ ds)) in
    plan_frames rid (net_snapshot_id s) (Resp_NetworkSnapshotStart (network_start s i a (i + a) n))
      (Resp_NetworkSnapshotEnd (network_end s i a (i + a) n)) (cs ++ ds) frames /\
    chunked (record_frame Resp_NetworkInterfaceChunk rid (net_snapshot_id s)) 1 (net_interfaces s) cs /\
    chunked (record_frame Resp_NetworkApplicationChunk rid (net_snapshot_id s)) (1 + Z.of_nat (length cs))
      (net_applications s) ds /\
    NetworkSnapshot_validate s = Ok tt /\ is_nil (net_snapshot_id s) = false /\
    within_limits MAX_RESPONSE_FRAMES MAX_RESPONSE_WIRE_BYTES frames.
Proof.
  unfold NetworkSnapshotPlan_build. intros Hb. guards Hb.
  apply result_bind_ok in Hb as ([] & Hv & Hb). apply map_err_ok in Hv.
  apply result_bind_ok in Hb as ([q1 cs] & Hc & Hb). apply encode_record_chunks_ok in Hc as (cs' & -> & Hc & ->).
  apply result_bind_ok in Hb as ([q2 ds] & Hd & Hb). apply encode_record_chunks_ok in Hd as (ds' & -> & Hd & ->).
  plan_step Hb. plan_step Hb. plan_step Hb. plan_step Hb. plan_step Hb. plan_step Hb. plan_step Hb.
  injection Hb as ->. destruct x5. apply validate_encoded_plan_ok in Hx5.
  repeat match goal with Hx : checked_u32 _ _ = Ok _ |- _ => apply checked_u32_ok in Hx as -> end.
  exists cs', ds'. rewrite Nat2Z.inj_add in Hx4. apply assemble_ok in Hx4; [| rewrite length_app; simpl; lia].
  bool_facts. split_and!; done.
Qed.

Lemma UsageSummaryPlan_ok rid s frames : UsageSummaryPlan_build rid s = Ok frames ->
  exists chunks, let total := Z.of_nat (length (us_applications s)) in let n := Z.of_nat (length chunks) in
    plan_frames rid (us_snapshot_id s) (Resp_UsageSummaryStart (usage_start s total n))
      (Resp_UsageSummaryEnd (usage_end s total n)) chunks frames /\
    chunked (record_frame Resp_UsageApplicationChunk rid (us_snapshot_id s)) 1 (us_applications s) chunks /\
    UsageSummary_validate s = Ok tt /\ is_nil (us_snapshot_id s) = false /\
    within_limits MAX_RESPONSE_FRAMES MAX_RESPONSE_WIRE_BYTES frames.
Proof.
  unfold UsageSummaryPlan_build. intros Hb. guards Hb.
  apply result_bind_ok in Hb as ([] & Hv & Hb). apply map_err_ok in Hv.
  apply result_bind_ok in Hb as ([q chunks] & Hc & Hb). apply encode_record_chunks_ok in Hc as (cs & -> & Hc & ->).
  plan_step Hb. plan_step Hb. plan_step Hb. plan_step Hb. plan_step Hb. injection Hb as ->.
  destruct x3. apply validate_encoded_plan_ok in Hx3.
  repeat match goal with Hx : checked_u32 _ _ = Ok _ |- _ => apply checked_u32_ok in Hx as -> end.
  exists cs. apply assemble_ok in Hx2; [| done]. bool_facts. split_and!; done.
Qed.

Lemma TransferPlan_page_ok {J} `{TaskCodec J} fresh rid p frames : TransferPlan_page fresh rid p = Ok frames ->
  exists chunks,
    let d := transfer_declaration p (Z.of_nat (length (page_tasks p))) (Z.of_nat (length chunks)) in
    plan_frames rid fresh (Resp_TransferPageStart d) (Resp_TransferPageEnd d) chunks frames /\
    chunked (record_frame Resp_TransferTaskChunk rid fresh) 1 (page_tasks p) chunks /\
    TransferPage_validate p = Ok tt /\
    within_limits MAX_RESPONSE_FRAMES MAX_RESPONSE_WIRE_BYTES frames.
Proof.
  unfold TransferPlan_page. intros Hb. apply result_bind_ok in Hb as ([] & Hv & Hb). apply map_err_ok in Hv.
  plan_step Hb. apply result_bind_ok in Hb as ([q chunks] & Hc & Hb).
  apply encode_record_chunks_ok in Hc as (cs & -> & Hc & ->). plan_step Hb. plan_step Hb. plan_step Hb.
  injection Hb as ->. destruct x2. apply validate_encoded_plan_ok in Hx2.
  repeat match goal with Hx : checked_u32 _ _ = Ok _ |- _ => apply checked_u32_ok in Hx as -> end.
  exists cs. apply assemble_ok in Hx1; done.
Qed.

Lemma NotesPlan_page_ok `{UuidFormat} fresh rid p frames : NotesPlan_page fresh rid p = Ok frames ->
  exists chunks,
    let d := notes_declaration p (Z.of_nat (length (page_notes p))) (Z.of_nat (length chunks)) in
    plan_frames rid fresh (Resp_NotesPageStart d) (Resp_NotesPageEnd d) chunks frames /\
    chunked (record_frame Resp_NoteSummaryChunk rid fresh) 1 (page_notes p) chunks /\
    NotePage_validate p = Ok tt /\
    within_limits MAX_RESPONSE_FRAMES MAX_RESPONSE_WIRE_BYTES frames.
Proof.
  unfold NotesPlan_page. intros Hb. apply result_bind_ok in Hb as ([] & Hv & Hb). apply map_err_ok in Hv.
  apply result_bind_ok in Hb as ([q chunks] & Hc & Hb). apply note_chunks_ok in Hc as [Hc ->].
  plan_step Hb. plan_step Hb. plan_step Hb. plan_step Hb. injection Hb as ->. destruct x2.
  apply validate_notes_encoded_plan_ok in Hx2; [| done].
  repeat match goal with Hx : checked_u32 _ _ = Ok _ |- _ => apply checked_u32_ok in Hx as -> end.
  exists chunks. apply assemble_ok in Hx1; done.
Qed.

Context `{Base64} `{Sha256}.

(** A chunk of the content: its place, its size and its base64 text. *)
Definition content_frame (rid sid : Uuid) (total : nat) (s : Z) (rest : list Z) (n : nat) (p : list Z) : Prop :=
  n = Nat.min (Z.to_nat NOTE_CONTENT_CHUNK_BYTES) (length rest) /\
  to_vec (response rid s (Some sid) (Resp_NotesContentChunk
    {| chunk_offset := Z.of_nat (total - length rest); chunk_raw_bytes := Z.of_nat n;
       chunk_data_base64 := base64_encode (take n rest) |})) = Ok p.

Lemma content_chunk_ok rid sid total rest s n p : rest <> [] ->
  content_chunk rid sid total rest s = Ok (n, p) ->
  (0 < n <= length rest)%nat /\ content_frame rid sid total s rest n p.
Proof.
  intros Hr Hc. unfold content_chunk in Hc.
  assert (Hk : (0 < Z.to_nat NOTE_CONTENT_CHUNK_BYTES)%nat) by (unfold NOTE_CONTENT_CHUNK_BYTES; lia).
  unfold content_frame. remember (Z.to_nat NOTE_CONTENT_CHUNK_BYTES) as k eqn:Hke. clear Hke.
  plan_step Hc. plan_step Hc. plan_step Hc. injection Hc as <- <-. apply checked_u32_ok in Hx as ->, Hx0 as ->.
  apply encode_response_ok in Hx1. rewrite length_take in *.
  assert (Ht : take (Nat.min k (length rest)) rest = take k rest).
  { destruct (Nat.min_spec k (length rest)) as [[_ ->] | [Hle ->]]; [done |].
    by rewrite !take_ge by lia. }
  rewrite Ht. split; [destruct rest; [done | simpl; lia] | by split].
Qed.

Lemma NotesPlan_content_ok fresh rid kind note content digest m w frames : 0 <= w ->
  NotesPlan_content fresh rid kind note content digest m w = Ok frames ->
  exists chunks, let l := bytes content in let n := Z.of_nat (length chunks) in
    plan_frames rid fresh
      (Resp_NotesContentStart
         {| nc_schema_version := NOTES_SCHEMA_VERSION; nc_kind := kind; nc_note := note;
            nc_total_bytes := Z.of_nat (length l); nc_content_sha256 := digest; nc_data_frame_count := n |})
      (Resp_NotesContentEnd
         {| nce_schema_version := NOTES_SCHEMA_VERSION; nce_kind := kind;
            nce_total_bytes := Z.of_nat (length l); nce_content_sha256 := digest;
            nce_data_frame_count := n |}) chunks frames /\
    chunked (content_frame rid fresh (length l)) 1 l chunks /\
    sha256_hex l = digest /\ within_limits m w frames.
Proof.
  intros Hw. unfold NotesPlan_content. intros Hb. destruct (negb _) eqn:Hd in Hb; [discriminate |].
  plan_step Hb. apply result_bind_ok in Hb as ([q chunks] & Hc & Hb).
  apply (chunk_loop_ok (content_frame rid fresh (length (bytes content)))) in Hc as (cs & -> & Hc & ->);
    [| intros; by apply content_chunk_ok].
  plan_step Hb. plan_step Hb. plan_step Hb. injection Hb as ->. destruct x2.
  apply validate_notes_encoded_plan_ok in Hx2; [| done].
  repeat match goal with Hx : checked_u32 _ _ = Ok _ |- _ => apply checked_u32_ok in Hx as -> end.
  exists cs. apply assemble_ok in Hx1; [| done]. apply negb_false_iff, String.eqb_eq in Hd. done.
Qed.

(** ** Every plan *)

Context `{UuidFormat} {J : Type} `{TaskCodec J}.

(** What the daemon streams. *)
Inductive streamed :=
| Stream_telemetry (s : TelemetrySnapshot) | Stream_network (s : NetworkSnapshot) | Stream_usage (s : UsageSummary)
| Stream_transfers (p : TransferPage) | Stream_notes (p : NotePage) | Stream_document (d : NoteDocument)
| Stream_export (e : NoteExport).

Definition plan_of (fresh request_id : Uuid) (x : streamed) : result (list (list Z)) DaemonError :=
  match x with
  | Stream_telemetry s => SnapshotPlan_build request_id s
  | Stream_network s => NetworkSnapshotPlan_build request_id s
  | Stream_usage s => UsageSummaryPlan_build request_id s
  | Stream_transfers p => TransferPlan_page fresh request_id p
  | Stream_notes p => NotesPlan_page fresh request_id p
  | Stream_document d => NotesPlan_document fresh request_id d
  | Stream_export e => NotesPlan_export fresh request_id e
  end.

Definition frame_limit (x : streamed) : Z :=
  match x with Stream_export _ => MAX_NOTES_EXPORT_FRAMES | _ => MAX_RESPONSE_FRAMES end.
Definition wire_limit (x : streamed) : Z :=
  match x with Stream_export _ => MAX_NOTES_EXPORT_WIRE_BYTES | _ => MAX_RESPONSE_WIRE_BYTES end.

Lemma plan_within_limits fresh rid x frames :
  plan_of fresh rid x = Ok frames -> within_limits (frame_limit x) (wire_limit x) frames.
Proof.
  destruct x; cbn [plan_of frame_limit wire_limit].
  - intros Hb. apply SnapshotPlan_ok in Hb as (? & ? & ? & ? & ? & ? & Hb). exact Hb.
  - intros Hb. apply NetworkSnapshotPlan_ok in Hb as (? & ? & ? & ? & ? & ? & ? & Hb). exact Hb.
  - intros Hb. apply UsageSummaryPlan_ok in Hb as (? & ? & ? & ? & ? & Hb). exact Hb.
  - intros Hb. apply TransferPlan_page_ok in Hb as (? & ? & ? & ? & Hb). exact Hb.
  - intros Hb. apply NotesPlan_page_ok in Hb as (? & ? & ? & ? & Hb). exact Hb.
  - unfold NotesPlan_document. intros Hb. plan_step Hb.
    apply NotesPlan_content_ok in Hb as (? & ? & ? & ? & Hb); [exact Hb | done].
  - unfold NotesPlan_export. intros Hb. plan_step Hb.
    apply NotesPlan_content_ok in Hb as (? & ? & ? & ? & Hb); [exact Hb | done].
Qed.
End Plans.
