(* ===== verification/IpcClient.v ===== *)
(** [crates/ipc/src/client.rs]: the requests of the desktop shell to the daemon,
    over one connection each.

    A [Client] is the clock, the connection and what happens on it: when it is
    made and by whom it is answered, the bytes that arrive and when, and how the
    writes go. Computation takes no time; times are milliseconds. Counters of
    [usize] do not overflow. The loops over the frames of a stream carry fuel;
    running out is [OutOfFuel], which the code does not have. *)
From S2P Require Import Prelude Text Encoding RemoteCore Terminal TransferModel TransferPublic Domain NotesDomain Frame IpcMessage.

Definition HEALTH_TOTAL_DEADLINE : Z := 2000.
Definition SNAPSHOT_TOTAL_DEADLINE : Z := 5000.
Definition REMOTE_SESSION_TOTAL_DEADLINE : Z := 70000.
Definition SPEEDTEST_TOTAL_DEADLINE : Z := 180000.
Definition SYSTEM_INFO_TOTAL_DEADLINE : Z := 10000.

(** ** Errors *)

Inductive TransportError :=
| Timeout | Transport_Io (e : IoError) | Transport_Peer (e : PeerError) | Transport_Frame (e : FrameError).

Inductive ProtocolError :=
| Proto_RequestBody | Proto_Version | Proto_RequestId | Proto_Sequence | SnapshotIdentity | UnexpectedBody
| InvalidFrame | InvalidStart | InvalidChunk | InvalidEnd | MissingTerminal | TrailingData
| SequenceOverflow.

Inductive ClientError :=
| Client_Transport (e : TransportError) | Client_Protocol (e : ProtocolError) | Client_Daemon (e : DaemonError).

Definition TransportError_reason_code (e : TransportError) : string :=
  match e with
  | Timeout => "appd_timeout"
  | Transport_Io _ => "appd_connection_failed"
  | Transport_Peer _ => "appd_peer_rejected"
  | Transport_Frame (IdleTimeout | Frame_DeadlineExceeded) => "appd_timeout"
  | Transport_Frame _ => "appd_transport_failed"
  end.

Definition ProtocolError_reason_code (e : ProtocolError) : string :=
  match e with
  | Proto_RequestBody => "appd_request_body_invalid"
  | Proto_Version => "appd_protocol_version_mismatch"
  | Proto_RequestId => "appd_request_id_mismatch"
  | Proto_Sequence => "appd_sequence_invalid"
  | SnapshotIdentity => "snapshot_identity_mismatch"
  | UnexpectedBody => "appd_response_body_invalid"
  | InvalidFrame => "appd_invalid_response_frame"
  | InvalidStart => "snapshot_start_invalid"
  | InvalidChunk => "snapshot_chunk_invalid"
  | InvalidEnd => "snapshot_end_invalid"
  | MissingTerminal => "snapshot_terminal_missing"
  | TrailingData => "appd_trailing_response_data"
  | SequenceOverflow => "appd_sequence_overflow"
  end.

Definition ClientError_reason_code (e : ClientError) : string :=
  match e with
  | Client_Transport e => TransportError_reason_code e
  | Client_Protocol e => ProtocolError_reason_code e
  | Client_Daemon _ => "appd_daemon_error"
  end.

(** ** The connection *)

Inductive failure := Failed (e : ClientError) | OutOfFuel.

Record Client := {
  client_now : Z;
  (** when [UnixStream::connect] ends, and how *)
  connected_at : Z;
  connect_error : option IoError;
  (** the user of the peer, as the kernel tells it, and our own *)
  peer_credentials : option Z;
  effective_uid : Z;
  inbound : Stream;
  budget : WireBudget;
  outbound : list Z;
  outbound_steps : list WriteStep;
}.

Abbreviation client A := (mut Client A failure).

Definition fail {A} (e : ClientError) : client A := throw (Failed e).
Definition protocol {A} (r : result A ProtocolError) : client A :=
  lift (fun _ => map_err (fun e => Failed (Client_Protocol e)) r).
Definition now : client Z := gets client_now.

Definition client_reader (c : Client) : Reader :=
  {| reader_now := client_now c; reader_stream := inbound c; reader_budget := budget c |}.
Definition put_reader (r : Reader) (c : Client) : Client :=
  {| client_now := reader_now r; connected_at := connected_at c; connect_error := connect_error c;
     peer_credentials := peer_credentials c; effective_uid := effective_uid c;
     inbound := reader_stream r; budget := reader_budget r; outbound := outbound c;
     outbound_steps := outbound_steps c |}.
Definition client_writer (c : Client) : Writer :=
  {| writer_now := client_now c; written := outbound c; write_steps := outbound_steps c |}.
Definition put_writer (w : Writer) (c : Client) : Client :=
  {| client_now := writer_now w; connected_at := connected_at c; connect_error := connect_error c;
     peer_credentials := peer_credentials c; effective_uid := effective_uid c; inbound := inbound c;
     budget := budget c; outbound := written w; outbound_steps := write_steps w |}.
Definition set_now (t : Z) (c : Client) : Client :=
  put_reader {| reader_now := t; reader_stream := inbound c; reader_budget := budget c |} c.
Definition new_budget (b : WireBudget) : client unit :=
  modify (fun c => put_reader {| reader_now := client_now c; reader_stream := inbound c;
                                 reader_budget := b |} c).

Definition verify_peer_uid (credentials : option Z) (effective_uid : Z) : result PeerIdentity PeerError :=
  let? uid := ok_or Credentials credentials in
  verify_peer_uid_value uid effective_uid.

Definition connect (deadline : Z) : client unit :=
  fun c =>
    let ends := Z.max (client_now c) (connected_at c) in
    let limit := Z.max (client_now c) deadline in
    if limit <? ends then (set_now limit c, Err (Failed (Client_Transport Timeout)))
    else (set_now ends c,
          match connect_error c with
          | Some e => Err (Failed (Client_Transport (Transport_Io e)))
          | None =>
              let? _ := map_err (fun e => Failed (Client_Transport (Transport_Peer e)))
                          (verify_peer_uid (peer_credentials c) (effective_uid c)) in
              Ok tt
          end).

Definition map_frame_error (e : FrameError) : ClientError :=
  match e with
  | Frame_Io _ | IdleTimeout | Frame_DeadlineExceeded | Frame_UnexpectedEof =>
      Client_Transport (Transport_Frame e)
  | Frame_Empty | Oversize | FrameLimitExceeded | WireBytesExceeded | BudgetOverflow | InvalidJson _ =>
      Client_Protocol InvalidFrame
  end.

(** One [read] of a byte by [limit]: no byte is the end of the stream. *)
Fixpoint read_byte (limit now : Z) (closed : option Z) (l : list (Z * result (list Z) IoError))
  : Z * ReadOutcome :=
  match l with
  | [] =>
      match closed with
      | Some t => if Z.max now t <=? limit then (Z.max now t, Read_done []) else (limit, Read_timed_out)
      | None => (limit, Read_timed_out)
      end
  | (t, chunk) :: l =>
      if limit <? Z.max now t then (limit, Read_timed_out)
      else match chunk with
           | Err e => (Z.max now t, Read_failed e)
           | Ok (b :: _) => (Z.max now t, Read_done [b])
           | Ok [] => read_byte limit (Z.max now t) closed l
           end
  end.

Definition expect_eof (deadline : Z) : client unit :=
  fun c =>
    let '(t, o) := read_byte (Z.max (client_now c) deadline) (client_now c)
                     (stream_closed (inbound c)) (arrivals (inbound c)) in
    (set_now t c,
     match o with
     | Read_done [] => Ok tt
     | Read_done (_ :: _) => Err (Failed (Client_Protocol TrailingData))
     | Read_failed e => Err (Failed (Client_Transport (Transport_Io e)))
     | Read_timed_out => Err (Failed (Client_Transport Timeout))
     end).

Definition response_budget : WireBudget := WireBudget_new MAX_RESPONSE_FRAMES MAX_RESPONSE_WIRE_BYTES.
Definition notes_response_budget (c : NotesCommand) : WireBudget :=
  match c with
  | C_Export _ _ => WireBudget_new MAX_NOTES_EXPORT_FRAMES MAX_NOTES_EXPORT_WIRE_BYTES
  | _ => response_budget
  end.

Definition next_sequence (sequence : Z) : result Z ProtocolError :=
  ok_or SequenceOverflow (checked_u32 (sequence + 1)).

Definition validate_envelope (r : ResponseEnvelope) (request_id : Uuid) : result unit ProtocolError :=
  fail_if negb (resp_protocol_version r =? WIRE_PROTOCOL_VERSION) with Proto_Version in
  fail_if negb (resp_request_id r =? request_id) with Proto_RequestId in
  Ok tt.

Definition validate_stream_envelope (r : ResponseEnvelope) (request_id : Uuid) (expected_sequence : Z)
    (snapshot_id : Uuid) : result unit ProtocolError :=
  let? _ := validate_envelope r request_id in
  fail_if negb (resp_sequence r =? expected_sequence) with Proto_Sequence in
  fail_if negb (eqb (resp_snapshot_id r) (Some snapshot_id)) with SnapshotIdentity in
  Ok tt.

(** [snapshot_id.filter(|id| !id.is_nil())]. *)
Definition stream_identity (r : ResponseEnvelope) : option Uuid :=
  match resp_snapshot_id r with Some i => if is_nil i then None else Some i | None => None end.

Section Exchange.
Context `{Json RequestEnvelope} `{Json ResponseEnvelope}.

Definition send (request : RequestEnvelope) (deadline : Z) : client unit :=
  zoom client_writer put_writer (mut_map_err (fun e => Failed (map_frame_error e)) (write_json request deadline)).

Definition read_response_with_idle_timeout (deadline idle_timeout : Z) (terminal_required : bool)
  : client ResponseEnvelope :=
  zoom client_reader put_reader
    (mut_map_err
       (fun e => match e with
                 | Frame_UnexpectedEof =>
                     if terminal_required then Failed (Client_Protocol MissingTerminal)
                     else Failed (map_frame_error e)
                 | _ => Failed (map_frame_error e)
                 end)
       (read_json_with_idle_timeout deadline idle_timeout)).

Definition read_response (deadline : Z) (terminal_required : bool) : client ResponseEnvelope :=
  read_response_with_idle_timeout deadline FRAME_IDLE_TIMEOUT terminal_required.

(** The opening of every request: connect, send, and the first response, within
    [total] of now and with the budget [b]. Gives the deadline too. *)
Definition open_exchange (request : RequestEnvelope) (total idle_timeout : Z) (b : WireBudget)
  : client (Z * ResponseEnvelope) :=
  start <- now ;;
  let deadline := start + total in
  connect deadline ;;;
  send request deadline ;;;
  new_budget b ;;;
  response <- read_response_with_idle_timeout deadline idle_timeout false ;;
  protocol (validate_envelope response (req_request_id request)) ;;;
  ret (deadline, response).

(** The end of an answer: until the deadline, or some time from now. *)
Definition expect_eof_in (d : Z) : client unit := t <- now ;; expect_eof (t + d).

(** A request with one response: [identity] checks its sequence and snapshot
    identity, [accept] its body; [eof] is how the end is awaited. *)
Definition single_answer {A} (request : RequestEnvelope) (total idle_timeout : Z)
    (identity : ResponseEnvelope -> result unit ProtocolError) (eof : Z -> client unit)
    (accept : ResponseBody -> result A ProtocolError) : client A :=
  opened <- open_exchange request total idle_timeout response_budget ;;
  let (deadline, response) := opened in
  protocol (identity response) ;;;
  match resp_body response with
  | Resp_Error e => eof deadline ;;; fail (Client_Daemon e)
  | body => answer <- protocol (accept body) ;; eof deadline ;;; ret answer
  end.

(** [sequence != 0 || snapshot_id.is_some()] is [e]. *)
Definition no_identity (e : ProtocolError) (r : ResponseEnvelope) : result unit ProtocolError :=
  fail_if negb (resp_sequence r =? 0) || is_some (resp_snapshot_id r) with e in Ok tt.
Definition health_identity (r : ResponseEnvelope) : result unit ProtocolError :=
  fail_if negb (resp_sequence r =? 0) with Proto_Sequence in
  fail_if is_some (resp_snapshot_id r) with SnapshotIdentity in
  Ok tt.

Definition check {A} (b : bool) (e : ProtocolError) (a : A) : result A ProtocolError :=
  if b then Ok a else Err e.

(** ** Requests with one response *)

Definition health_report_fits (requested : list string) (r : HealthReport) : bool :=
  negb (eqb (report_health r) Unreachable)
  && (length (capabilities r) =? length requested)%nat
  && forallb (fun p => String.eqb (cap_id p.1) p.2) (zip (capabilities r) requested).

Definition request_health (request : RequestEnvelope) : client HealthReport :=
  match req_body request with
  | Req_Health h =>
      single_answer request HEALTH_TOTAL_DEADLINE FRAME_IDLE_TIMEOUT health_identity expect_eof
        (fun body => match body with
                     | Resp_HealthReport r =>
                         check (health_report_fits (requested_capabilities h) r) UnexpectedBody r
                     | _ => Err UnexpectedBody
                     end)
  | _ => fail (Client_Protocol Proto_RequestBody)
  end.

Definition request_remote_capabilities (request : RequestEnvelope) : client RemoteAdapterCatalog :=
  match req_body request with
  | Req_RemoteCapabilities =>
      single_answer request HEALTH_TOTAL_DEADLINE FRAME_IDLE_TIMEOUT (no_identity UnexpectedBody) expect_eof
        (fun body => match body with
                     | Resp_RemoteCapabilities c =>
                         check (is_ok (RemoteAdapterCatalog_validate c)) UnexpectedBody c
                     | _ => Err UnexpectedBody
                     end)
  | _ => fail (Client_Protocol Proto_RequestBody)
  end.

Definition request_system_info (request : RequestEnvelope) : client SystemInfoReport :=
  match req_body request with
  | Req_SystemInfo =>
      single_answer request SYSTEM_INFO_TOTAL_DEADLINE FRAME_IDLE_TIMEOUT (no_identity UnexpectedBody)
        expect_eof
        (fun body => match body with
                     | Resp_SystemInfo r => check (SystemInfoReport_validate r) UnexpectedBody r
                     | _ => Err UnexpectedBody
                     end)
  | _ => fail (Client_Protocol Proto_RequestBody)
  end.

Definition request_remote_profile (request : RequestEnvelope) : client RemoteProfileResult :=
  match req_body request with
  | Req_RemoteProfile command =>
      protocol (check (is_ok (RemoteProfileCommand_validate command)) Proto_RequestBody tt) ;;;
      single_answer request HEALTH_TOTAL_DEADLINE FRAME_IDLE_TIMEOUT (no_identity UnexpectedBody) expect_eof
        (fun body => match body with
                     | Resp_RemoteProfile r =>
                         check (is_ok (RemoteProfileResult_validate_for r command)) UnexpectedBody r
                     | _ => Err UnexpectedBody
                     end)
  | _ => fail (Client_Protocol Proto_RequestBody)
  end.

Definition request_secret (request : RequestEnvelope) : client SecretCommandResult :=
  match req_body request with
  | Req_Secret command =>
      protocol (check (is_ok (SecretCommand_validate command)) Proto_RequestBody tt) ;;;
      single_answer request HEALTH_TOTAL_DEADLINE FRAME_IDLE_TIMEOUT (no_identity UnexpectedBody) expect_eof
        (fun body => match body with
                     | Resp_Secret r =>
                         check (is_ok (SecretCommandResult_validate_for r command)) UnexpectedBody r
                     | _ => Err UnexpectedBody
                     end)
  | _ => fail (Client_Protocol Proto_RequestBody)
  end.

Definition request_remote_session (request : RequestEnvelope) : client RemoteSessionResult :=
  match req_body request with
  | Req_RemoteSession command =>
      protocol (check (is_ok (RemoteSessionCommand_validate command)) Proto_RequestBody tt) ;;;
      single_answer request REMOTE_SESSION_TOTAL_DEADLINE REMOTE_SESSION_TOTAL_DEADLINE
        (no_identity UnexpectedBody) expect_eof
        (fun body => match body with
                     | Resp_RemoteSession r =>
                         check (is_ok (RemoteSessionResult_validate_for r command)) UnexpectedBody r
                     | _ => Err UnexpectedBody
                     end)
  | _ => fail (Client_Protocol Proto_RequestBody)
  end.

Definition request_transfer_local_handle (request : RequestEnvelope) : client TransferLocalHandleGrant :=
  match req_body request with
  | Req_TransferLocalHandle bind =>
      protocol (check (TransferLocalHandleBind_validate bind) Proto_RequestBody tt) ;;;
      single_answer request SNAPSHOT_TOTAL_DEADLINE FRAME_IDLE_TIMEOUT (no_identity Proto_Sequence) expect_eof
        (fun body => match body with
                     | Resp_TransferLocalHandle g =>
                         check (is_ok (TransferLocalHandleGrant_validate g)) UnexpectedBody g
                     | _ => Err UnexpectedBody
                     end)
  | _ => fail (Client_Protocol Proto_RequestBody)
  end.

Definition request_speedtest_cancel (request : RequestEnvelope) : client SpeedTestCancelResult :=
  match req_body request with
  | Req_SpeedTestCancel _ =>
      single_answer request SNAPSHOT_TOTAL_DEADLINE FRAME_IDLE_TIMEOUT (no_identity Proto_Sequence)
        (fun _ => expect_eof_in HEALTH_TOTAL_DEADLINE)
        (fun body => match body with
                     | Resp_SpeedTestCancelled r => check (SpeedTestCancelResult_validate r) InvalidEnd r
                     | _ => Err UnexpectedBody
                     end)
  | _ => fail (Client_Protocol Proto_RequestBody)
  end.

Definition request_speedtest_deep (request : RequestEnvelope) : client SpeedTestDeepOutput :=
  match req_body request with
  | Req_SpeedTestDeep command =>
      protocol (check (is_ok (SpeedTestDeepCommand_validate command)) Proto_RequestBody tt) ;;;
      single_answer request (speedtest_deep_deadline command) (speedtest_deep_deadline command)
        (no_identity Proto_Sequence) (fun _ => expect_eof_in HEALTH_TOTAL_DEADLINE)
        (fun body => match body with
                     | Resp_SpeedTestDeep o => check (SpeedTestDeepOutput_validate_for o command) InvalidEnd o
                     | _ => Err UnexpectedBody
                     end)
  | _ => fail (Client_Protocol Proto_RequestBody)
  end.

(** ** Streams

    What a stream does with a body: take it as a chunk, take it as the end, or
    neither. *)
Inductive taken (A R : Type) :=
| Chunk (r : result A ProtocolError) | End_ (r : result R ProtocolError) | Neither.
#[global] Arguments Chunk {A R} r.
#[global] Arguments End_ {A R} r.
#[global] Arguments Neither {A R}.

(** The loop of every stream after its start. *)
Fixpoint stream_loop {A R} (take_body : A -> ResponseBody -> taken A R) (request_id snapshot_id : Uuid)
    (deadline : Z) (fuel : nat) (expected_sequence : Z) (acc : A) : client R :=
  match fuel with
  | O => throw OutOfFuel
  | S fuel =>
      response <- read_response deadline true ;;
      protocol (validate_stream_envelope response request_id expected_sequence snapshot_id) ;;;
      match resp_body response with
      | Resp_Error e => expect_eof deadline ;;; fail (Client_Daemon e)
      | body =>
          match take_body acc body with
          | Chunk r =>
              acc <- protocol r ;;
              expected_sequence <- protocol (next_sequence expected_sequence) ;;
              stream_loop take_body request_id snapshot_id deadline fuel expected_sequence acc
          | End_ r => answer <- protocol r ;; expect_eof deadline ;;; ret answer
          | Neither => fail (Client_Protocol UnexpectedBody)
          end
      end
  end.

(** Every frame of a stream is counted in the budget. *)
Definition frames_of (b : WireBudget) : nat := S (Z.to_nat (max_frames b)).

(** An error as the first response of a stream. *)
Definition refused {A} (response : ResponseEnvelope) (e : DaemonError) (deadline : Z) : client A :=
  if is_some (resp_snapshot_id response) then fail (Client_Protocol SnapshotIdentity)
  else expect_eof deadline ;;; fail (Client_Daemon e).

(** The records of a stream so far, in how many frames. *)
Record received (T : Type) := { data_frames : Z; items : list T }.
#[global] Arguments data_frames {T} r.
#[global] Arguments items {T} r.
Definition nothing {T} : received T := {| data_frames := 0; items := [] |}.
Definition more {T} (r : received T) (frames : Z) (records : list T) : received T :=
  {| data_frames := frames; items := items r ++ records |}.
Definition count {T} (l : list T) : Z := Z.of_nat (length l).

Definition validate_chunk_len (record_count : Z) : result unit ProtocolError :=
  fail_if (record_count =? 0) || (MAX_CHUNK_RECORDS <? record_count) with InvalidChunk in Ok tt.

Definition validate_stream_declaration (total_records data_frame_count : Z) : result unit ProtocolError :=
  let? response_frames := ok_or InvalidStart (checked_u32 (data_frame_count + 2)) in
  fail_if (MAX_RESPONSE_FRAMES - 2 <? data_frame_count)
          || (MAX_RESPONSE_FRAMES <? response_frames)
          || negb (Bool.eqb (total_records =? 0) (data_frame_count =? 0))
          || ((0 <? total_records) && (total_records <? data_frame_count))
    with InvalidStart in
  Ok tt.

(** *** Telemetry snapshots *)

Definition validate_start (s : SnapshotStart) : result unit ProtocolError :=
  let? response_frame_count := ok_or InvalidStart (checked_u32 (ss_data_frame_count s + 2)) in
  fail_if negb (ss_schema_version s =? TELEMETRY_SCHEMA_VERSION)
          || (MAX_APPLICATION_RECORDS <? ss_total_applications s)
          || (MAX_TOTAL_RECORDS <? ss_total_records s)
          || negb (ss_total_records s =? ss_total_applications s)
          || (MAX_RESPONSE_FRAMES - 2 <? ss_data_frame_count s)
          || (MAX_RESPONSE_FRAMES <? response_frame_count)
          || negb (Bool.eqb (ss_total_records s =? 0) (ss_data_frame_count s =? 0))
          || ((0 <? ss_total_records s) && (ss_total_records s <? ss_data_frame_count s))
    with InvalidStart in
  Ok tt.

Definition validate_end (s : SnapshotStart) (e : SnapshotEnd) (data_frames total_records applications : Z)
  : result unit ProtocolError :=
  fail_if negb (se_schema_version e =? ss_schema_version s)
          || negb (eqb (se_freshness e) (ss_freshness s))
          || negb (eqb (se_status e) (ss_status s))
          || negb (String.eqb (se_reason e) (ss_reason s))
          || negb (Bool.eqb (se_retryable e) (ss_retryable s))
          || negb (String.eqb (se_scope e) (ss_scope s))
          || negb (eqb (se_last_success_at_unix_ms e) (ss_last_success_at_unix_ms s))
          || negb (se_total_applications e =? ss_total_applications s)
          || negb (se_total_records e =? ss_total_records s)
          || negb (se_data_frame_count e =? ss_data_frame_count s)
          || negb (data_frames =? ss_data_frame_count s)
          || negb (total_records =? ss_total_records s)
          || negb (applications =? ss_total_applications s)
    with InvalidEnd in
  Ok tt.

Definition take_application_chunk (s : SnapshotStart) (r : received ApplicationSample)
    (records : list ApplicationSample) : result (received ApplicationSample) ProtocolError :=
  fail_if (count records =? 0) || (MAX_CHUNK_RECORDS <? count records) with InvalidChunk in
  let? frames := ok_or SequenceOverflow (checked_u32 (data_frames r + 1)) in
  fail_if ss_data_frame_count s <? frames with InvalidChunk in
  let total_records := count (items r) + count records in
  fail_if (ss_total_records s <? total_records) || (MAX_TOTAL_RECORDS <? total_records)
          || (ss_total_applications s <? total_records)
    with InvalidChunk in
  Ok (more r frames records).

Definition received_snapshot (s : SnapshotStart) (e : SnapshotEnd) (snapshot_id : Uuid)
    (applications : list ApplicationSample) : TelemetrySnapshot :=
  {| tel_schema_version := ss_schema_version s; tel_snapshot_id := snapshot_id;
     tel_captured_at_unix_ms := ss_captured_at_unix_ms s;
     tel_sample_interval_ms := ss_sample_interval_ms s; tel_logical_cpu_count := ss_logical_cpu_count s;
     tel_freshness := ss_freshness s; tel_status := ss_status s; tel_reason := ss_reason s;
     tel_retryable := ss_retryable s; tel_scope := ss_scope s;
     tel_last_success_at_unix_ms := ss_last_success_at_unix_ms s;
     tel_permission_denied_counts := se_permission_denied_counts e; tel_issues := se_issues e;
     tel_system_fd := ss_system_fd s; tel_applications := applications |}.

Definition take_telemetry (s : SnapshotStart) (snapshot_id : Uuid) (r : received ApplicationSample)
    (body : ResponseBody) : taken (received ApplicationSample) TelemetrySnapshot :=
  match body with
  | Resp_ApplicationChunk records => Chunk (take_application_chunk s r records)
  | Resp_SnapshotEnd e =>
      End_ (let? _ := validate_end s e (data_frames r) (count (items r)) (count (items r)) in
            Ok (received_snapshot s e snapshot_id (items r)))
  | _ => Neither
  end.

Definition request_telemetry_snapshot (request : RequestEnvelope) : client TelemetrySnapshot :=
  match req_body request with
  | Req_TelemetrySnapshot =>
      opened <- open_exchange request SNAPSHOT_TOTAL_DEADLINE FRAME_IDLE_TIMEOUT response_budget ;;
      let (deadline, response) := opened in
      protocol (check (resp_sequence response =? 0) Proto_Sequence tt) ;;;
      match resp_body response with
      | Resp_SnapshotStart s =>
          snapshot_id <- protocol (ok_or SnapshotIdentity (stream_identity response)) ;;
          protocol (validate_start s) ;;;
          sequence <- protocol (next_sequence 0) ;;
          stream_loop (take_telemetry s snapshot_id) (req_request_id request) snapshot_id deadline
            (frames_of response_budget) sequence nothing
      | Resp_Error e => refused response e deadline
      | _ => fail (Client_Protocol UnexpectedBody)
      end
  | _ => fail (Client_Protocol Proto_RequestBody)
  end.

(** *** Network snapshots *)

Definition validate_network_start (s : NetworkSnapshotStart) : result unit ProtocolError :=
  let? _ := validate_stream_declaration (ns_total_records s) (ns_data_frame_count s) in
  fail_if negb (ns_schema_version s =? NETWORK_SCHEMA_VERSION)
          || (MAX_NETWORK_INTERFACES <? ns_total_interfaces s)
          || (MAX_NETWORK_APPLICATIONS <? ns_total_applications s)
          || negb (ns_total_records s =? ns_total_interfaces s + ns_total_applications s)
    with InvalidStart in
  Ok tt.

Definition validate_network_end (s : NetworkSnapshotStart) (e : NetworkSnapshotEnd)
    (data_frames total_records interfaces applications : Z) : result unit ProtocolError :=
  fail_if negb (ne_schema_version e =? ns_schema_version s)
          || negb (ne_total_interfaces e =? ns_total_interfaces s)
          || negb (ne_total_applications e =? ns_total_applications s)
          || negb (ne_total_records e =? ns_total_records s)
          || negb (ne_data_frame_count e =? ns_data_frame_count s)
          || negb (data_frames =? ns_data_frame_count s)
          || negb (total_records =? ns_total_records s)
          || negb (interfaces =? ns_total_interfaces s)
          || negb (applications =? ns_total_applications s)
    with InvalidEnd in
  Ok tt.

(** The loop's variables. *)
Record network_received := {
  n_data_frames : Z;
  n_total_records : Z;
  n_interfaces : list NetworkInterfaceSample;
  n_applications : list NetworkApplicationTraffic;
  application_phase : bool;
}.
Definition no_network : network_received :=
  {| n_data_frames := 0; n_total_records := 0; n_interfaces := []; n_applications := [];
     application_phase := false |}.

(** The counters after a chunk. *)
Definition checked_stream_progress (s : NetworkSnapshotStart) (r : network_received) (record_count : Z)
  : result (Z * Z) ProtocolError :=
  let? frames := ok_or SequenceOverflow (checked_u32 (n_data_frames r + 1)) in
  let total := n_total_records r + record_count in
  fail_if (ns_data_frame_count s <? frames) || (ns_total_records s <? total) with InvalidChunk in
  Ok (frames, total).

Definition take_interfaces (s : NetworkSnapshotStart) (r : network_received)
    (records : list NetworkInterfaceSample) : result network_received ProtocolError :=
  fail_if application_phase r with InvalidChunk in
  let? _ := validate_chunk_len (count records) in
  let? (frames, total) := checked_stream_progress s r (count records) in
  fail_if ns_total_interfaces s <? count (n_interfaces r) + count records with InvalidChunk in
  Ok {| n_data_frames := frames; n_total_records := total; n_interfaces := n_interfaces r ++ records;
        n_applications := n_applications r; application_phase := application_phase r |}.

Definition take_applications (s : NetworkSnapshotStart) (r : network_received)
    (records : list NetworkApplicationTraffic) : result network_received ProtocolError :=
  let? _ := validate_chunk_len (count records) in
  let? (frames, total) := checked_stream_progress s r (count records) in
  fail_if ns_total_applications s <? count (n_applications r) + count records with InvalidChunk in
  Ok {| n_data_frames := frames; n_total_records := total; n_interfaces := n_interfaces r;
        n_applications := n_applications r ++ records; application_phase := true |}.

Definition received_network (s : NetworkSnapshotStart) (snapshot_id : Uuid) (r : network_received)
  : NetworkSnapshot :=
  {| net_schema_version := ns_schema_version s; net_snapshot_id := snapshot_id;
     net_captured_at_unix_ms := ns_captured_at_unix_ms s;
     net_observed_boottime_ms := ns_observed_boottime_ms s;
     net_sample_interval_ms := ns_sample_interval_ms s;
     net_last_success_at_unix_ms := ns_last_success_at_unix_ms s; net_freshness := ns_freshness s;
     net_retryable := ns_retryable s; net_system_traffic := ns_system_traffic s;
     net_per_application := ns_per_application s; net_coverage := ns_coverage s;
     net_totals := ns_totals s; net_aggregate_rate := ns_aggregate_rate s;
     net_interfaces := n_interfaces r; net_applications := n_applications r |}.

Definition take_network (s : NetworkSnapshotStart) (snapshot_id : Uuid) (r : network_received)
    (body : ResponseBody) : taken network_received NetworkSnapshot :=
  match body with
  | Resp_NetworkInterfaceChunk records => Chunk (take_interfaces s r records)
  | Resp_NetworkApplicationChunk records => Chunk (take_applications s r records)
  | Resp_NetworkSnapshotEnd e =>
      End_ (let? _ := validate_network_end s e (n_data_frames r) (n_total_records r)
                        (count (n_interfaces r)) (count (n_applications r)) in
            let snapshot := received_network s snapshot_id r in
            let? _ := map_err (fun _ => InvalidEnd) (NetworkSnapshot_validate snapshot) in
            Ok snapshot)
  | _ => Neither
  end.

Definition request_network_snapshot (request : RequestEnvelope) : client NetworkSnapshot :=
  match req_body request with
  | Req_NetworkSnapshot =>
      opened <- open_exchange request SNAPSHOT_TOTAL_DEADLINE FRAME_IDLE_TIMEOUT response_budget ;;
      let (deadline, response) := opened in
      protocol (check (resp_sequence response =? 0) Proto_Sequence tt) ;;;
      match resp_body response with
      | Resp_NetworkSnapshotStart s =>
          snapshot_id <- protocol (ok_or SnapshotIdentity (stream_identity response)) ;;
          protocol (validate_network_start s) ;;;
          stream_loop (take_network s snapshot_id) (req_request_id request) snapshot_id deadline
            (frames_of response_budget) 1 no_network
      | Resp_Error e => refused response e deadline
      | _ => fail (Client_Protocol UnexpectedBody)
      end
  | _ => fail (Client_Protocol Proto_RequestBody)
  end.

(** *** Usage summaries *)

Definition validate_usage_start (s : UsageSummaryStart) (requested : UsageSummaryQuery)
  : result unit ProtocolError :=
  let? _ := validate_stream_declaration (uss_total_records s) (uss_data_frame_count s) in
  fail_if negb (uss_schema_version s =? USAGE_SCHEMA_VERSION)
          || negb (eqb (uss_query s) requested)
          || is_err (UsageSummaryQuery_validate (uss_query s))
          || (MAX_USAGE_APPLICATIONS <? uss_total_applications s)
          || negb (uss_total_records s =? uss_total_applications s)
    with InvalidStart in
  Ok tt.

Definition validate_usage_end (s : UsageSummaryStart) (e : UsageSummaryEnd)
    (data_frames total_records applications : Z) : result unit ProtocolError :=
  fail_if negb (use_schema_version e =? uss_schema_version s)
          || negb (eqb (use_query e) (uss_query s))
          || negb (eqb (use_status e) (uss_status s))
          || negb (String.eqb (use_reason e) (uss_reason s))
          || negb (Bool.eqb (use_retryable e) (uss_retryable s))
          || negb (use_total_applications e =? uss_total_applications s)
          || negb (use_total_records e =? uss_total_records s)
          || negb (use_data_frame_count e =? uss_data_frame_count s)
          || negb (data_frames =? uss_data_frame_count s)
          || negb (total_records =? uss_total_records s)
          || negb (applications =? uss_total_applications s)
    with InvalidEnd in
  Ok tt.

Definition take_usage_chunk (s : UsageSummaryStart) (r : received UsageApplicationDuration)
    (records : list UsageApplicationDuration) : result (received UsageApplicationDuration) ProtocolError :=
  let? _ := validate_chunk_len (count records) in
  let? frames := ok_or SequenceOverflow (checked_u32 (data_frames r + 1)) in
  let total_records := count (items r) + count records in
  fail_if (uss_data_frame_count s <? frames) || (uss_total_records s <? total_records)
          || (uss_total_applications s <? total_records)
    with InvalidChunk in
  Ok (more r frames records).

Definition received_usage (s : UsageSummaryStart) (snapshot_id : Uuid)
    (applications : list UsageApplicationDuration) : UsageSummary :=
  {| us_schema_version := uss_schema_version s; us_snapshot_id := snapshot_id;
     us_captured_at_unix_ms := uss_captured_at_unix_ms s; us_query := uss_query s;
     us_status := uss_status s; us_reason := uss_reason s; us_retryable := uss_retryable s;
     us_coverage := uss_coverage s; us_applications := applications |}.

Definition take_usage (s : UsageSummaryStart) (snapshot_id : Uuid) (r : received UsageApplicationDuration)
    (body : ResponseBody) : taken (received UsageApplicationDuration) UsageSummary :=
  match body with
  | Resp_UsageApplicationChunk records => Chunk (take_usage_chunk s r records)
  | Resp_UsageSummaryEnd e =>
      End_ (let? _ := validate_usage_end s e (data_frames r) (count (items r)) (count (items r)) in
            let summary := received_usage s snapshot_id (items r) in
            let? _ := map_err (fun _ => InvalidEnd) (UsageSummary_validate summary) in
            Ok summary)
  | _ => Neither
  end.

Definition request_usage_summary (request : RequestEnvelope) : client UsageSummary :=
  match req_body request with
  | Req_UsageSummary requested =>
      protocol (map_err (fun _ => Proto_RequestBody) (UsageSummaryQuery_validate requested)) ;;;
      opened <- open_exchange request SNAPSHOT_TOTAL_DEADLINE FRAME_IDLE_TIMEOUT response_budget ;;
      let (deadline, response) := opened in
      protocol (check (resp_sequence response =? 0) Proto_Sequence tt) ;;;
      match resp_body response with
      | Resp_UsageSummaryStart s =>
          snapshot_id <- protocol (ok_or SnapshotIdentity (stream_identity response)) ;;
          protocol (validate_usage_start s requested) ;;;
          stream_loop (take_usage s snapshot_id) (req_request_id request) snapshot_id deadline
            (frames_of response_budget) 1 nothing
      | Resp_Error e => refused response e deadline
      | _ => fail (Client_Protocol UnexpectedBody)
      end
  | _ => fail (Client_Protocol Proto_RequestBody)
  end.

(** *** Terminals *)

Context `{Base64}.

Definition request_terminal (request : RequestEnvelope) : client TerminalResult :=
  match req_body request with
  | Req_Terminal (Term_Stream _ _) => fail (Client_Protocol Proto_RequestBody)
  | Req_Terminal command =>
      protocol (check (is_ok (TerminalCommand_validate command)) Proto_RequestBody tt) ;;;
      single_answer request SNAPSHOT_TOTAL_DEADLINE FRAME_IDLE_TIMEOUT (no_identity UnexpectedBody) expect_eof
        (fun body => match body with
                     | Resp_Terminal r =>
                         check (is_ok (TerminalResult_validate_for r command)) UnexpectedBody r
                     | _ => Err UnexpectedBody
                     end)
  | _ => fail (Client_Protocol Proto_RequestBody)
  end.

Inductive TerminalStreamEvent :=
| Event_Started (session_id : Uuid) (max_bytes : Z) (status : TerminalStatus)
| Event_Data (session_id : Uuid) (data : TerminalData)
| Event_Status (session_id : Uuid) (status : TerminalStatus)
| Event_Ended (session_id : Uuid) (status : TerminalStatus).

(** What a body of a terminal stream means: an event, after which the stream
    goes on or ends. *)
Definition terminal_event (session_id : Uuid) (max_bytes : Z) (started : bool) (body : ResponseBody)
  : option (TerminalStreamEvent * bool) :=
  match body with
  | Resp_TerminalStreamStart s =>
      if negb started && (ts_session_id s =? session_id) && (ts_max_bytes s =? max_bytes)
         && is_ok (TerminalStatus_validate (ts_status s))
      then Some (Event_Started session_id max_bytes (ts_status s), false) else None
  | Resp_TerminalStreamData actual data =>
      if started && (actual =? session_id) && decode_ok_and (fun n => n <=? max_bytes) data
      then Some (Event_Data session_id data, false) else None
  | Resp_TerminalStreamStatus actual status =>
      if started && (actual =? session_id) && is_ok (TerminalStatus_validate status)
      then Some (Event_Status session_id status, false) else None
  | Resp_TerminalStreamEnd actual status =>
      if started && (actual =? session_id) && is_ok (TerminalStatus_validate status)
         && negb (Terminal.is_running (term_state status))
      then Some (Event_Ended session_id status, true) else None
  | _ => None
  end.

(** The callback answers to an event knowing those before it; the events it has
    taken are the result. *)
Section TerminalStream.
Context (on_event : list TerminalStreamEvent -> TerminalStreamEvent -> result unit ClientError)
  (request_id session_id : Uuid) (max_bytes : Z).

Fixpoint terminal_loop (fuel : nat) (expected_sequence : Z) (events : list TerminalStreamEvent)
  : client (list TerminalStreamEvent) :=
  match fuel with
  | O => throw OutOfFuel
  | S fuel =>
      let started := negb (length events =? 0)%nat in
      new_budget response_budget ;;;
      t <- now ;;
      response <- read_response (t + SNAPSHOT_TOTAL_DEADLINE) started ;;
      protocol (validate_envelope response request_id) ;;;
      protocol (check ((resp_sequence response =? expected_sequence)
                       && negb (is_some (resp_snapshot_id response))) Proto_Sequence tt) ;;;
      expected_sequence <- protocol (next_sequence expected_sequence) ;;
      match terminal_event session_id max_bytes started (resp_body response) with
      | Some (event, ended) =>
          lift (fun _ => map_err Failed (on_event events event)) ;;;
          if ended then expect_eof_in HEALTH_TOTAL_DEADLINE ;;; ret (events ++ [event])
          else terminal_loop fuel expected_sequence (events ++ [event])
      | None =>
          match resp_body response, started with
          | Resp_Error e, false => expect_eof_in HEALTH_TOTAL_DEADLINE ;;; fail (Client_Daemon e)
          | _, _ => fail (Client_Protocol UnexpectedBody)
          end
      end
  end.
End TerminalStream.

(** A frame takes five bytes of the stream at least. *)
Definition stream_fuel (c : Client) : nat :=
  S (length (concat (map (fun a => match a.2 with Ok l => l | Err _ => [] end) (arrivals (inbound c))))).

Definition request_terminal_stream
    (on_event : list TerminalStreamEvent -> TerminalStreamEvent -> result unit ClientError)
    (request : RequestEnvelope) : client (list TerminalStreamEvent) :=
  match req_body request with
  | Req_Terminal (Term_Stream session_id max_bytes as command) =>
      protocol (check (is_ok (TerminalCommand_validate command)) Proto_RequestBody tt) ;;;
      t <- now ;;
      connect (t + HEALTH_TOTAL_DEADLINE) ;;;
      t <- now ;;
      send request (t + HEALTH_TOTAL_DEADLINE) ;;;
      fuel <- gets stream_fuel ;;
      terminal_loop on_event (req_request_id request) session_id max_bytes fuel 0 []
  | _ => fail (Client_Protocol Proto_RequestBody)
  end.

(** *** Speed tests *)

Section SpeedTest.
Context (on_stage : list SpeedTestStageData -> SpeedTestStageData -> result unit ClientError)
  (request_id : Uuid) (deadline : Z).

Fixpoint speedtest_loop (fuel : nat) (expected_sequence : Z) (stages : list SpeedTestStageData)
  : client (list SpeedTestStageData * SpeedTestBasicEnd) :=
  match fuel with
  | O => throw OutOfFuel
  | S fuel =>
      response <- read_response_with_idle_timeout deadline SPEEDTEST_TOTAL_DEADLINE false ;;
      protocol (validate_envelope response request_id) ;;;
      protocol (check ((resp_sequence response =? expected_sequence)
                       && negb (is_some (resp_snapshot_id response))) Proto_Sequence tt) ;;;
      expected_sequence <- protocol (next_sequence expected_sequence) ;;
      match resp_body response with
      | Resp_SpeedTestStage stage =>
          protocol (check (SpeedTestStageData_validate stage) InvalidChunk tt) ;;;
          lift (fun _ => map_err Failed (on_stage stages stage)) ;;;
          speedtest_loop fuel expected_sequence (stages ++ [stage])
      | Resp_SpeedTestBasicEnd e =>
          protocol (check (SpeedTestBasicEnd_validate e) InvalidEnd tt) ;;;
          expect_eof_in HEALTH_TOTAL_DEADLINE ;;; ret (stages, e)
      | Resp_Error e => expect_eof_in HEALTH_TOTAL_DEADLINE ;;; fail (Client_Daemon e)
      | _ => fail (Client_Protocol UnexpectedBody)
      end
  end.
End SpeedTest.

Definition request_speedtest_basic
    (on_stage : list SpeedTestStageData -> SpeedTestStageData -> result unit ClientError)
    (request : RequestEnvelope) : client (list SpeedTestStageData * SpeedTestBasicEnd) :=
  match req_body request with
  | Req_SpeedTestBasic _ =>
      t <- now ;;
      let deadline := t + SPEEDTEST_TOTAL_DEADLINE in
      connect deadline ;;;
      send request deadline ;;;
      new_budget response_budget ;;;
      speedtest_loop on_stage (req_request_id request) deadline (frames_of response_budget) 0 []
  | _ => fail (Client_Protocol Proto_RequestBody)
  end.

(** *** Pages of transfers *)

Section Transfers.
Context {J : Type} `{TaskCodec J}.

Definition validate_transfer_start (s : TransferPageStart) (requested : TransferQuery)
  : result unit ProtocolError :=
  let? _ := validate_stream_declaration (tp_total_tasks s) (tp_data_frame_count s) in
  let? expected_next := ok_or InvalidStart (checked_u32 (q_offset (tp_query s) + tp_total_tasks s)) in
  fail_if negb (tp_schema_version s =? TRANSFER_PUBLIC_SCHEMA_VERSION)
          || negb (eqb (tp_query s) requested)
          || is_err (TransferQuery_validate (tp_query s))
          || (q_limit (tp_query s) <? tp_total_tasks s)
          || (MAX_TRANSFER_PAGE_TASKS <? tp_total_tasks s)
          || (tp_has_more s && ((tp_total_tasks s =? 0) || negb (eqb (tp_next_offset s) (Some expected_next))))
          || (negb (tp_has_more s) && is_some (tp_next_offset s))
    with InvalidStart in
  Ok tt.

Definition validate_transfer_end (s : TransferPageStart) (e : TransferPageEnd)
    (data_frames total_tasks : Z) : result unit ProtocolError :=
  fail_if negb (tp_schema_version e =? tp_schema_version s)
          || negb (eqb (tp_query e) (tp_query s))
          || negb (tp_total_tasks e =? tp_total_tasks s)
          || negb (tp_data_frame_count e =? tp_data_frame_count s)
          || negb (Bool.eqb (tp_has_more e) (tp_has_more s))
          || negb (eqb (tp_next_offset e) (tp_next_offset s))
          || negb (data_frames =? tp_data_frame_count s)
          || negb (total_tasks =? tp_total_tasks s)
    with InvalidEnd in
  Ok tt.

Definition take_tasks (s : TransferPageStart) (r : received TransferTask) (records : list TransferTask)
  : result (received TransferTask) ProtocolError :=
  let? _ := validate_chunk_len (count records) in
  fail_if existsb (fun t => is_err (validate_public t) || negb (TransferQuery_matches (tp_query s) t)) records
    with InvalidChunk in
  let? frames := ok_or InvalidChunk (checked_u32 (data_frames r + 1)) in
  let total := count (items r) + count records in
  fail_if (tp_data_frame_count s <? frames) || (tp_total_tasks s <? total)
          || (MAX_TRANSFER_PAGE_TASKS <? total)
    with InvalidChunk in
  Ok (more r frames records).

Definition received_page (s : TransferPageStart) (tasks : list TransferTask) : TransferPage :=
  {| TransferPublic.page_query := tp_query s; page_tasks := tasks; has_more := tp_has_more s;
     next_offset := tp_next_offset s |}.

Definition take_transfers (s : TransferPageStart) (command : TransferCommand) (r : received TransferTask)
    (body : ResponseBody) : taken (received TransferTask) TransferOutput :=
  match body with
  | Resp_TransferTaskChunk records => Chunk (take_tasks s r records)
  | Resp_TransferPageEnd e =>
      End_ (let? _ := validate_transfer_end s e (data_frames r) (count (items r)) in
            let page := received_page s (items r) in
            let? _ := map_err (fun _ => InvalidEnd) (TransferPage_validate page) in
            let? _ := map_err (fun _ => InvalidEnd) (TransferOutput_validate_for (Output_Page page) command) in
            Ok (Output_Page page))
  | _ => Neither
  end.

Definition request_transfer (request : RequestEnvelope) : client TransferOutput :=
  match req_body request with
  | Req_Transfer command =>
      protocol (check (is_ok (TransferCommand_validate command)) Proto_RequestBody tt) ;;;
      opened <- open_exchange request SNAPSHOT_TOTAL_DEADLINE FRAME_IDLE_TIMEOUT response_budget ;;
      let (deadline, response) := opened in
      protocol (check (resp_sequence response =? 0) Proto_Sequence tt) ;;;
      match resp_body response with
      | Resp_Transfer output =>
          protocol (check (negb (is_some (resp_snapshot_id response))
                           && is_ok (TransferOutput_validate_for output command)) UnexpectedBody tt) ;;;
          expect_eof deadline ;;;
          ret output
      | Resp_TransferPageStart s =>
          match command with
          | List query =>
              snapshot_id <- protocol (ok_or SnapshotIdentity (stream_identity response)) ;;
              protocol (validate_transfer_start s query) ;;;
              stream_loop (take_transfers s command) (req_request_id request) snapshot_id deadline
                (frames_of response_budget) 1 nothing
          | _ => fail (Client_Protocol UnexpectedBody)
          end
      | Resp_Error e => refused response e deadline
      | _ => fail (Client_Protocol UnexpectedBody)
      end
  | _ => fail (Client_Protocol Proto_RequestBody)
  end.
End Transfers.

(** *** Notes *)

Context `{UuidFormat} `{Sha256}.

Definition mutation_matches (command : NotesCommand) (r : NoteMutationResult) : bool :=
  match command, r with
  | (C_WriteInline intent _ _ | C_UploadCommit _ intent), Stored note =>
      is_ok (NoteSummary_validate note)
      && match intent with Create => true | Save i _ _ => String.eqb (sum_id note) i end
  | C_Delete i _, Deleted note | C_Restore i _, Restored note =>
      String.eqb (sum_id note) i && is_ok (NoteSummary_validate note)
  | (C_WriteInline intent _ _ | C_UploadCommit _ intent), Conflict expected_revision current =>
      match intent with
      | Save i requested _ =>
          (requested =? expected_revision) && is_ok (NoteSummary_validate current)
          && String.eqb (sum_id current) i
      | Create => false
      end
  | (C_Delete i requested | C_Restore i requested), Conflict expected_revision current =>
      (requested =? expected_revision) && String.eqb (sum_id current) i
      && is_ok (NoteSummary_validate current)
  | C_UploadBegin _ _ _ _, UploadBegun upload_id max_chunk_raw_bytes =>
      negb (is_nil upload_id) && (max_chunk_raw_bytes =? NOTE_CONTENT_CHUNK_BYTES)
  | C_UploadAppend upload_id sequence offset data_base64, UploadAccepted returned_id next_sequence next_offset =>
      match base64_decode data_base64 with
      | None => false
      | Some decoded =>
          (returned_id =? upload_id)
          && eqb (checked_u32 (sequence + 1)) (Some next_sequence)
          && eqb (checked_u32 (offset + count decoded mod 4294967296)) (Some next_offset)
      end
  | C_UploadAbort upload_id, UploadAborted returned_id => returned_id =? upload_id
  | _, _ => false
  end.

Definition validate_notes_page_start (s : NotesPageStart) (requested : NoteQuery) : result unit ProtocolError :=
  let? _ := validate_stream_declaration (np_total_notes s) (np_data_frame_count s) in
  fail_if negb (np_schema_version s =? NOTES_SCHEMA_VERSION)
          || negb (eqb (np_query s) requested)
          || is_err (NoteQuery_validate (np_query s))
          || (query_limit (np_query s) <? np_total_notes s)
          || (np_has_more s && is_none (np_next_offset s))
          || (negb (np_has_more s) && is_some (np_next_offset s))
    with InvalidStart in
  Ok tt.

Definition validate_notes_page_end (s : NotesPageStart) (e : NotesPageEnd) (data_frames total_notes : Z)
  : result unit ProtocolError :=
  fail_if negb (np_schema_version e =? np_schema_version s)
          || negb (eqb (np_query e) (np_query s))
          || negb (np_total_notes e =? np_total_notes s)
          || negb (np_data_frame_count e =? np_data_frame_count s)
          || negb (Bool.eqb (np_has_more e) (np_has_more s))
          || negb (eqb (np_next_offset e) (np_next_offset s))
          || negb (data_frames =? np_data_frame_count s)
          || negb (total_notes =? np_total_notes s)
    with InvalidEnd in
  Ok tt.

Definition take_summaries (s : NotesPageStart) (r : received NoteSummary) (records : list NoteSummary)
  : result (received NoteSummary) ProtocolError :=
  let? _ := validate_chunk_len (count records) in
  fail_if existsb (fun n => is_err (NoteSummary_validate n)) records with InvalidChunk in
  let? frames := ok_or SequenceOverflow (checked_u32 (data_frames r + 1)) in
  let next_len := count (items r) + count records in
  fail_if (np_data_frame_count s <? frames) || (np_total_notes s <? next_len) with InvalidChunk in
  Ok (more r frames records).

(** [read_notes_page]'s bodies. *)
Definition take_notes (s : NotesPageStart) (r : received NoteSummary) (body : ResponseBody)
  : taken (received NoteSummary) NotesOutput :=
  match body with
  | Resp_NoteSummaryChunk records => Chunk (take_summaries s r records)
  | Resp_NotesPageEnd e =>
      End_ (let? _ := validate_notes_page_end s e (data_frames r) (count (items r)) in
            let page := {| NotesDomain.page_query := np_query s; page_notes := items r;
                           page_has_more := np_has_more s; page_next_offset := np_next_offset s |} in
            let? _ := map_err (fun _ => InvalidEnd) (NotePage_validate page) in
            Ok (O_Page page))
  | _ => Neither
  end.

Definition div_ceil (a b : Z) : Z := (a + b - 1) / b.

Definition validate_notes_content_start (s : NotesContentStart) (command : NotesCommand)
  : result unit ProtocolError :=
  let total_bytes := nc_total_bytes s in
  let expected_frames := if total_bytes =? 0 then 0 else div_ceil total_bytes NOTE_CONTENT_CHUNK_BYTES in
  let kind_matches :=
    match nc_kind s, command with
    | Content_Document, C_Get _ => true
    | Content_Export actual, C_Export _ requested => eqb actual requested
    | _, _ => false
    end in
  let size_valid :=
    match nc_kind s with
    | Content_Document => total_bytes <=? MAX_NOTE_BODY_BYTES
    | Content_Export _ => total_bytes <=? MAX_NOTE_EXPORT_BYTES
    end in
  let note_valid :=
    match nc_kind s with
    | Content_Document =>
        is_some_and (fun n => is_ok (NoteSummary_validate n) && (sum_body_bytes n =? total_bytes)
                              && String.eqb (sum_body_sha256 n) (nc_content_sha256 s)) (nc_note s)
    | Content_Export _ => is_none (nc_note s)
    end in
  fail_if negb (nc_schema_version s =? NOTES_SCHEMA_VERSION) || negb kind_matches || negb size_valid
          || negb note_valid || is_err (validate_sha256 (nc_content_sha256 s))
          || negb (nc_data_frame_count s =? expected_frames)
    with InvalidStart in
  Ok tt.

Definition validate_notes_content_end (s : NotesContentStart) (e : NotesContentEnd)
    (data_frames total_bytes : Z) : result unit ProtocolError :=
  fail_if negb (nce_schema_version e =? nc_schema_version s)
          || negb (eqb (nce_kind e) (nc_kind s))
          || negb (nce_total_bytes e =? nc_total_bytes s)
          || negb (String.eqb (nce_content_sha256 e) (nc_content_sha256 s))
          || negb (nce_data_frame_count e =? nc_data_frame_count s)
          || negb (data_frames =? nc_data_frame_count s)
          || negb (total_bytes =? nc_total_bytes s)
    with InvalidEnd in
  Ok tt.

Definition take_content_chunk (s : NotesContentStart) (r : received Z) (c : NotesContentChunk)
  : result (received Z) ProtocolError :=
  fail_if negb (chunk_offset c =? count (items r))
          || (chunk_raw_bytes c =? 0)
          || (NOTE_CONTENT_CHUNK_BYTES <? chunk_raw_bytes c)
          || (MAX_NOTE_CONTENT_BASE64_BYTES <? len (chunk_data_base64 c))
    with InvalidChunk in
  let? decoded := ok_or InvalidChunk (base64_decode (chunk_data_base64 c)) in
  fail_if negb (count decoded =? chunk_raw_bytes c) with InvalidChunk in
  let? frames := ok_or SequenceOverflow (checked_u32 (data_frames r + 1)) in
  let next_len := count (items r) + count decoded in
  fail_if (nc_data_frame_count s <? frames) || (nc_total_bytes s <? next_len) with InvalidChunk in
  Ok (more r frames decoded).

(** What the content becomes at its end. *)
Definition received_content (s : NotesContentStart) (command : NotesCommand) (content : string)
  : result NotesOutput ProtocolError :=
  match nc_kind s, command with
  | Content_Document, C_Get i =>
      let? summary := ok_or InvalidEnd (nc_note s) in
      fail_if negb (String.eqb (sum_id summary) i)
              || negb (String.eqb (sum_body_sha256 summary) (nc_content_sha256 s)) with InvalidEnd in
      let document := {| doc_summary := summary; doc_body_markdown := content |} in
      let? _ := map_err (fun _ => InvalidEnd) (NoteDocument_validate document) in
      Ok (O_Document document)
  | Content_Export format, C_Export _ requested =>
      fail_if negb (eqb format requested) with UnexpectedBody in
      fail_if is_some (nc_note s) with InvalidEnd in
      let export := {| export_format := format; export_content := content;
                       export_content_bytes := nc_total_bytes s;
                       export_content_sha256 := nc_content_sha256 s |} in
      let? _ := map_err (fun _ => InvalidEnd) (NoteExport_validate export) in
      Ok (O_Export export)
  | _, _ => Err UnexpectedBody
  end.

(** [read_notes_content]'s bodies. *)
Definition take_content (s : NotesContentStart) (command : NotesCommand) (r : received Z)
    (body : ResponseBody) : taken (received Z) NotesOutput :=
  match body with
  | Resp_NotesContentChunk c => Chunk (take_content_chunk s r c)
  | Resp_NotesContentEnd e =>
      End_ (let? _ := validate_notes_content_end s e (data_frames r) (count (items r)) in
            fail_if negb (String.eqb (sha256_hex (items r)) (nc_content_sha256 s)) with InvalidEnd in
            fail_if negb (valid_utf8 (items r)) with InvalidEnd in
            received_content s command (string_of_bytes (items r)))
  | _ => Neither
  end.

Definition request_notes (request : RequestEnvelope) : client NotesOutput :=
  match req_body request with
  | Req_Notes command =>
      protocol (check (is_ok (NotesCommand_validate command)) Proto_RequestBody tt) ;;;
      let b := notes_response_budget command in
      opened <- open_exchange request SNAPSHOT_TOTAL_DEADLINE FRAME_IDLE_TIMEOUT b ;;
      let (deadline, response) := opened in
      protocol (check (resp_sequence response =? 0) Proto_Sequence tt) ;;;
      match resp_body response with
      | Resp_NotesMutation r =>
          protocol (check (negb (is_some (resp_snapshot_id response)) && mutation_matches command r)
                      UnexpectedBody tt) ;;;
          expect_eof deadline ;;;
          ret (O_Mutation r)
      | Resp_NotesPageStart s =>
          snapshot_id <- protocol (ok_or SnapshotIdentity (stream_identity response)) ;;
          requested <- protocol (match command with C_List query => Ok query | _ => Err UnexpectedBody end) ;;
          protocol (validate_notes_page_start s requested) ;;;
          stream_loop (take_notes s) (req_request_id request) snapshot_id deadline (frames_of b) 1 nothing
      | Resp_NotesContentStart s =>
          snapshot_id <- protocol (ok_or SnapshotIdentity (stream_identity response)) ;;
          protocol (validate_notes_content_start s command) ;;;
          stream_loop (take_content s command) (req_request_id request) snapshot_id deadline
            (frames_of b) 1 nothing
      | Resp_Error e => refused response e deadline
      | _ => fail (Client_Protocol UnexpectedBody)
      end
  | _ => fail (Client_Protocol Proto_RequestBody)
  end.
End Exchange.
