(* ===== verification/IpcClientFacts.v ===== *)
(** The client: every request ends in time whatever the daemon sends or does
    not send, and what it answers is valid. *)

From S2P Require Import Prelude Text Encoding RemoteCore TransferModel TransferPublic Frame FrameFacts NotesDomain Domain Terminal IpcMessage IpcClient.

(** ** Steps that end by a limit *)

(** The bytes of the stream are bytes, and the budget is one. *)
Definition client_wf (c : Client) : Prop := bytes_ok (client_reader c) /\ budget_ok (budget c).

(** A program that ends by [limit], or at once when that is past, with a result. *)
Definition ends_by {A} (limit : Z) (m : client A) : Prop :=
  forall c c' r, client_wf c -> m c = (c', r) ->
    client_wf c' /\ client_now c <= client_now c' <= Z.max (client_now c) limit /\ r <> Err OutOfFuel.

Lemma ends_by_bind {A B} limit (m : client A) (k : A -> client B) :
  ends_by limit m -> (forall a, ends_by limit (k a)) -> ends_by limit (bind m k).
Proof.
  intros Hm Hk c c' r Hc. unfold bind. destruct (m c) as [c1 [a | e]] eqn:H1.
  - intros H2. apply Hm in H1 as (Hc1 & Ht1 & _); [| done]. apply Hk in H2 as (Hc2 & Ht2 & Hr); [| done].
    split_and!; [done | lia | lia | done].
  - intros [= <- <-]. apply Hm in H1 as (Hc1 & Ht1 & Hr); [| done]. split_and!; [done | lia | lia |].
    congruence.
Qed.

Lemma ends_by_ret {A} limit (a : A) : ends_by limit (ret a).
Proof. intros c c' r Hc [= <- <-]. split_and!; [done | lia | lia | done]. Qed.
Lemma ends_by_fail {A} limit e : ends_by limit (fail e : client A).
Proof. intros c c' r Hc [= <- <-]. split_and!; [done | lia | lia | done]. Qed.
Lemma ends_by_protocol {A} limit (x : result A ProtocolError) : ends_by limit (protocol x).
Proof. intros c c' r Hc [= <- <-]. split_and!; [done | lia | lia | by destruct x]. Qed.
Lemma ends_by_now limit : ends_by limit now.
Proof. intros c c' r Hc [= <- <-]. split_and!; [done | lia | lia | done]. Qed.
Lemma ends_by_new_budget limit b : budget_ok b -> ends_by limit (new_budget b).
Proof. intros Hb c c' r [Hc _] [= <- <-]. split_and!; [by split | simpl; lia | simpl; lia | done]. Qed.
Lemma ends_by_callback {A} limit (x : result A ClientError) :
  ends_by limit (lift (fun _ => map_err Failed x) : client A).
Proof. intros c c' r Hc [= <- <-]. split_and!; [done | lia | lia | by destruct x]. Qed.
Lemma ends_by_weaken {A} limit limit' (m : client A) : limit <= limit' -> ends_by limit m -> ends_by limit' m.
Proof. intros Hl Hm c c' r Hc H. apply Hm in H as (? & ? & ?); [| done]. split_and!; [done | lia | lia | done]. Qed.

Lemma ends_by_connect deadline : ends_by deadline (connect deadline).
Proof.
  intros c c' r Hc. unfold connect. destruct (_ <? _) eqn:Hl; intros [= <- <-].
  - split_and!; [done | simpl; lia | simpl; lia | done].
  - split_and!; [done | simpl; lia | simpl; lia |]. destruct (connect_error c); [done |].
    by destruct (verify_peer_uid _ _).
Qed.

Lemma timed_write_ends bs deadline idle w w' r : 0 <= idle ->
  timed_write bs deadline idle w = (w', r) ->
  writer_now w <= writer_now w' <= Z.max (writer_now w) deadline.
Proof.
  intros Hi. unfold timed_write. destruct (deadline <=? writer_now w) eqn:Hd; [intros [= <- <-]; lia |]. cbv zeta.
  intros [= <- _]. simpl. unfold operation_deadline. destruct (_ <? _) eqn:Hl; lia.
Qed.

Lemma write_frame_ends payload deadline w w' r :
  write_frame payload deadline w = (w', r) ->
  writer_now w <= writer_now w' <= Z.max (writer_now w) deadline.
Proof.
  unfold write_frame, write_frame_with_idle_timeout.
  destruct (_ =? _)%nat; [intros [= <- <-]; lia |]. destruct (_ <? _); [intros [= <- <-]; lia |].
  unfold bind. destruct (timed_write _ _ _ w) as [w1 [u | e]] eqn:H1; apply timed_write_ends in H1; try done.
  - intros H2. apply timed_write_ends in H2; [lia | done].
  - intros [= <- <-]. lia.
Qed.

Create HintDb ends.

Section Facts.
Context `{Json RequestEnvelope} `{Json ResponseEnvelope}.

Lemma ends_by_send request deadline : ends_by deadline (send request deadline).
Proof.
  intros c c' r Hc. unfold send, zoom, mut_map_err.
  destruct (write_json request deadline (client_writer c)) as [w x] eqn:Hw. intros [= <- <-].
  assert (Ht : client_now c <= writer_now w <= Z.max (client_now c) deadline).
  { unfold write_json, bind, lift in Hw. destruct (map_err _ _) in Hw; [| injection Hw as <- <-; simpl; lia].
    by apply write_frame_ends in Hw. }
  split_and!; [done | simpl; lia | simpl; lia | by destruct x].
Qed.

(** ** Responses *)

(** A read of a response: it ends in time and takes a part of the stream from
    its front; a response is a frame counted in the budget. *)
Lemma read_response_spec deadline idle b c c' r : 0 <= idle -> client_wf c ->
  read_response_with_idle_timeout deadline idle b c = (c', r) ->
  client_wf c' /\ client_now c <= client_now c' <= Z.max (client_now c) deadline /\ r <> Err OutOfFuel /\
  max_frames (budget c') = max_frames (budget c) /\
  (is_ok r = true -> observed_frames (budget c') = observed_frames (budget c) + 1 /\
    exists used, reader_bytes (client_reader c) = used ++ reader_bytes (client_reader c') /\ (5 <= length used)%nat).
Proof.
  intros Hi [Hb Hok]. unfold read_response_with_idle_timeout, zoom, mut_map_err, read_json_with_idle_timeout, bind.
  destruct (read_frame_with_idle_timeout _ _ (client_reader c)) as [rd x] eqn:Hf.
  apply read_frame_spec in Hf as ((Ht & Hok' & Hx) & used & Hu & Hlen); [| done | done | done].
  intros Hr. assert (Hc' : c' = put_reader rd c) by (destruct x; injection Hr as <- _; done). subst c'.
  split_and!.
  - split; [| done]. change (bytes_ok rd). unfold bytes_ok in *. rewrite Hu in Hb. apply Forall_app in Hb. tauto.
  - change (client_now c <= reader_now rd). change (client_now c) with (reader_now (client_reader c)). lia.
  - change (reader_now rd <= Z.max (reader_now (client_reader c)) deadline). lia.
  - destruct x as [p | e]; injection Hr as <-; [by destruct (from_slice p) | by destruct e, b].
  - change (max_frames (reader_budget rd) = max_frames (reader_budget (client_reader c))).
    destruct x; [destruct Hx as [_ ->]; done | destruct Hx as [-> | [n ->]]; done].
  - intros Ho. destruct x as [p | e]; [| by injection Hr as <-; destruct e, b]. destruct Hx as [_ Hx].
    split.
    + change (observed_frames (reader_budget rd) = observed_frames (budget c) + 1). by rewrite Hx.
    + exists used. split; [exact Hu | by apply Hlen].
Qed.

Lemma ends_by_response deadline idle b : 0 <= idle -> ends_by deadline (read_response_with_idle_timeout deadline idle b).
Proof. intros Hi c c' r Hc Hr. apply read_response_spec in Hr; tauto. Qed.

Lemma read_byte_ends limit closed l : forall now t o, now <= limit ->
  read_byte limit now closed l = (t, o) -> now <= t <= limit.
Proof.
  induction l as [| [t c] l IH]; intros now t' o Hn; cbn [read_byte].
  - destruct closed as [u |]; [destruct (_ <=? _) eqn:Hu |]; intros [= <- <-]; lia.
  - destruct (_ <? _) eqn:Hl; [intros [= <- <-]; lia |].
    destruct c as [[| b bs] | e]; [| intros [= <- <-]; lia | intros [= <- <-]; lia].
    intros Hr. apply IH in Hr; lia.
Qed.

Lemma ends_by_eof deadline : ends_by deadline (expect_eof deadline).
Proof.
  intros c c' r Hc. unfold expect_eof. destruct (read_byte _ _ _ _) as [t o] eqn:Hr.
  apply read_byte_ends in Hr; [| lia]. intros [= <- <-].
  split_and!; [done | simpl; lia | simpl; lia | by destruct o as [[|] | |]].
Qed.

(** ** Whole requests *)

Definition ends_at {A} (c : Client) (limit : Z) (m : client A) : Prop :=
  forall c' r, m c = (c', r) ->
    client_wf c' /\ client_now c <= client_now c' <= Z.max (client_now c) limit /\ r <> Err OutOfFuel.

Lemma ends_at_bind {A B} c limit (m : client A) (k : A -> client B) :
  ends_at c limit m ->
  (forall c1 a, m c = (c1, Ok a) -> client_wf c1 -> client_now c <= client_now c1 <= Z.max (client_now c) limit ->
     ends_at c1 limit (k a)) ->
  ends_at c limit (bind m k).
Proof.
  intros Hm Hk c' r. unfold bind. destruct (m c) as [c1 [a | e]] eqn:H1.
  - intros H2. pose proof (Hm _ _ H1) as (Hc1 & Ht1 & _). apply (Hk c1 a) in H2 as (Hc2 & Ht2 & Hr); try done.
    split_and!; [done | lia | lia | done].
  - intros [= <- <-]. apply Hm in H1 as (Hc1 & Ht1 & Hr). split_and!; [done | lia | lia |]. congruence.
Qed.

Lemma ends_at_by {A} c limit (m : client A) : client_wf c -> ends_by limit m -> ends_at c limit m.
Proof. intros Hc Hm c' r. by apply Hm. Qed.

Lemma ends_at_weaken {A} c limit limit' (m : client A) : limit <= limit' -> ends_at c limit m -> ends_at c limit' m.
Proof. intros Hl Hm c' r Hr. apply Hm in Hr as (? & ? & ?). split_and!; [done | lia | lia | done]. Qed.

Hint Resolve ends_by_ret ends_by_fail ends_by_protocol ends_by_now ends_by_connect ends_by_send ends_by_eof
  ends_by_callback : ends.

Lemma frame_idle_nonneg : 0 <= FRAME_IDLE_TIMEOUT. Proof. done. Qed.
Hint Resolve ends_by_response frame_idle_nonneg : ends.

Lemma open_exchange_ends request total idle b c : 0 <= total -> 0 <= idle -> client_wf c -> budget_ok b ->
  ends_at c (client_now c + total) (open_exchange request total idle b) /\
  (forall c' d response, open_exchange request total idle b c = (c', Ok (d, response)) ->
     d = client_now c + total /\ client_now c' <= d /\ client_wf c' /\
     max_frames (budget c') = max_frames b /\ observed_frames (budget c') = observed_frames b + 1).
Proof.
  intros Ht Hi Hc Hb. set (d := client_now c + total).
  set (rest := bind (connect d) (fun _ => bind (send request d) (fun _ => bind (new_budget b) (fun _ =>
    bind (read_response_with_idle_timeout d idle false) (fun response =>
    bind (protocol (validate_envelope response (req_request_id request))) (fun _ => ret (d, response))))))).
  assert (Hopen : forall x, open_exchange request total idle b c = x -> rest c = x) by (intros x <-; done).
  assert (Hends : ends_by d rest).
  { unfold rest. repeat (apply ends_by_bind; [auto using ends_by_new_budget with ends | intros ?]); auto with ends. }
  split; [intros c' r Hr; apply Hopen, Hends in Hr; done |].
  intros c' d' response Hr. apply Hopen in Hr. pose proof (Hends _ _ _ Hc Hr) as (Hc' & Hn & _).
  unfold rest in Hr. apply bind_ok in Hr as (c1 & u1 & H1 & Hr). apply (ends_by_connect d) in H1 as (Hc1 & _); [| done].
  apply bind_ok in Hr as (c2 & u2 & H2 & Hr). apply ends_by_send in H2 as (Hc2 & _); [| done].
  apply bind_ok in Hr as (c3 & u3 & H3 & Hr). pose proof (ends_by_new_budget d b Hb _ _ _ Hc2 H3) as (Hc3 & _).
  injection H3 as <- _. apply bind_ok in Hr as (c4 & resp & H4 & Hr).
  apply read_response_spec in H4 as (Hc4 & _ & _ & Hm & Ho); [| done | done]. destruct (Ho eq_refl) as [Ho' _].
  apply bind_ok in Hr as (c5 & u5 & H5 & Hr). injection H5 as <- _. injection Hr as <- <- <-.
  split_and!; [done | lia | done | exact Hm | exact Ho'].
Qed.

Lemma response_budget_ok : budget_ok response_budget.
Proof. unfold budget_ok. simpl. unfold MAX_RESPONSE_FRAMES, MAX_RESPONSE_WIRE_BYTES, u64_max. lia. Qed.
Lemma notes_response_budget_ok command : budget_ok (notes_response_budget command).
Proof. destruct command; try apply response_budget_ok. Qed.

Lemma single_answer_ends {A} request total idle identity eof (accept : ResponseBody -> result A ProtocolError)
    extra c :
  0 <= total -> 0 <= idle -> 0 <= extra -> client_wf c ->
  (forall d c1, client_wf c1 -> client_now c1 <= d -> ends_at c1 (d + extra) (eof d)) ->
  ends_at c (client_now c + total + extra) (single_answer request total idle identity eof accept).
Proof.
  intros Ht Hi He Hc Heof. unfold single_answer.
  destruct (open_exchange_ends request total idle response_budget c Ht Hi Hc response_budget_ok) as [Ho Hok].
  apply ends_at_bind; [eapply ends_at_weaken; [| exact Ho]; lia |].
  intros c1 [d response] H1 Hc1 Hn1. apply Hok in H1 as (-> & Hd & _).
  apply ends_at_bind; [apply ends_at_by; auto with ends |]. intros c2 u H2 Hc2 Hn2. injection H2 as <- _.
  assert (Heof' : forall c3, client_wf c3 -> client_now c3 <= client_now c + total ->
            ends_at c3 (client_now c + total + extra) (eof (client_now c + total))) by (intros; by apply Heof).
  assert (Haccept : forall x : result A ProtocolError, ends_at c1 (client_now c + total + extra)
            (answer <- protocol x ;; eof (client_now c + total) ;;; ret answer)).
  { intros x. apply ends_at_bind; [apply ends_at_by; auto with ends |]. intros c3 a H3 Hc3 _. injection H3 as <- _.
    apply ends_at_bind; [by apply Heof' |]. intros. apply ends_at_by; auto with ends. }
  destruct (resp_body response); try apply Haccept.
  apply ends_at_bind; [by apply Heof' |]. intros. apply ends_at_by; auto with ends.
Qed.

Lemma eof_ends d c : client_wf c -> client_now c <= d -> ends_at c (d + 0) (expect_eof d).
Proof. intros Hc _. rewrite Z.add_0_r. apply ends_at_by; auto with ends. Qed.
Lemma eof_in_ends x d c : 0 <= x -> client_wf c -> client_now c <= d -> ends_at c (d + x) (expect_eof_in x).
Proof.
  intros Hx Hc Hd. unfold expect_eof_in. apply ends_at_bind; [apply ends_at_by; auto with ends |].
  intros c1 t H1 Hc1 _. injection H1 as <- <-. eapply ends_at_weaken; [| apply ends_at_by; auto with ends]. lia.
Qed.

Lemma stream_loop_ends {A R} (take_body : A -> ResponseBody -> taken A R) rid sid deadline fuel :
  forall s acc c, client_wf c ->
  max_frames (budget c) - observed_frames (budget c) < Z.of_nat fuel ->
  ends_at c deadline (stream_loop take_body rid sid deadline fuel s acc).
Proof.
  induction fuel as [| fuel IH]; intros s acc c Hc Hf; [destruct Hc as [_ Hb]; unfold budget_ok in Hb; lia |].
  cbn [stream_loop]. apply ends_at_bind; [apply ends_at_by; [done | apply ends_by_response; done] |].
  intros c1 response H1 Hc1 _. apply read_response_spec in H1 as (_ & _ & _ & Hm & Ho); [| done | done].
  destruct (Ho eq_refl) as [Ho' _].
  apply ends_at_bind; [apply ends_at_by; auto with ends |]. intros c2 u H2 Hc2 _. injection H2 as <- _.
  assert (Hbody : ends_at c1 deadline
    match take_body acc (resp_body response) with
    | Chunk r => acc <- protocol r ;; s <- protocol (next_sequence s) ;;
                 stream_loop take_body rid sid deadline fuel s acc
    | End_ r => answer <- protocol r ;; expect_eof deadline ;;; ret answer
    | Neither => fail (Client_Protocol UnexpectedBody)
    end).
  { destruct (take_body acc (resp_body response)) as [x | x |].
    - apply ends_at_bind; [apply ends_at_by; auto with ends |]. intros c3 a H3 Hc3 _. injection H3 as <- _.
      apply ends_at_bind; [apply ends_at_by; auto with ends |]. intros c3 s' H3 _ _. injection H3 as <- _.
      apply IH; [done | lia].
    - apply ends_at_by; [done |]. repeat (apply ends_by_bind; [auto with ends | intros ?]); auto with ends.
    - apply ends_at_by; auto with ends. }
  destruct (resp_body response); try exact Hbody.
  apply ends_at_by; [done |]. repeat (apply ends_by_bind; [auto with ends | intros ?]); auto with ends.
Qed.

Lemma refused_ends {A} response e d c : client_wf c -> ends_at c d (refused response e d : client A).
Proof.
  intros Hc. unfold refused. apply ends_at_by; [done |]. destruct (is_some _); [auto with ends |].
  apply ends_by_bind; auto with ends.
Qed.

Lemma speedtest_loop_ends on_stage rid deadline fuel : forall s stages c, client_wf c -> client_now c <= deadline ->
  max_frames (budget c) - observed_frames (budget c) < Z.of_nat fuel ->
  ends_at c (deadline + HEALTH_TOTAL_DEADLINE) (speedtest_loop on_stage rid deadline fuel s stages).
Proof.
  induction fuel as [| fuel IH]; intros s stages c Hc Hd Hf; [destruct Hc as [_ Hb]; unfold budget_ok in Hb; lia |].
  assert (Heof : forall c1, client_wf c1 -> client_now c1 <= deadline ->
            ends_at c1 (deadline + HEALTH_TOTAL_DEADLINE) (expect_eof_in HEALTH_TOTAL_DEADLINE)) by (intros; by apply eof_in_ends).
  cbn [speedtest_loop]. apply ends_at_bind.
  { eapply ends_at_weaken; [| apply ends_at_by; [done | by apply ends_by_response]]. unfold HEALTH_TOTAL_DEADLINE. lia. }
  intros c1 response H1 Hc1 _. apply read_response_spec in H1 as (_ & Hn & _ & Hm & Ho); [| done | done].
  destruct (Ho eq_refl) as [Ho' _]. assert (Hn1 : client_now c1 <= deadline) by lia.
  do 2 (apply ends_at_bind; [apply ends_at_by; auto with ends |]; intros ? ? H2 _ _; injection H2 as <- _).
  apply ends_at_bind; [apply ends_at_by; auto with ends |]. intros ? s' H2 _ _. injection H2 as <- _.
  destruct (resp_body response); try (apply ends_at_by; by auto with ends).
  - apply ends_at_bind; [apply ends_at_by; auto with ends |]. intros ? ? H2 _ _. injection H2 as <- _.
    apply ends_at_bind; [apply ends_at_by; auto with ends |]. intros ? ? H2 _ _. injection H2 as <- _.
    apply IH; [done | done | lia].
  - apply ends_at_bind; [apply ends_at_by; auto with ends |]. intros ? ? H2 _ _. injection H2 as <- _.
    apply ends_at_bind; [by apply Heof |]. intros. apply ends_at_by; auto with ends.
  - apply ends_at_bind; [by apply Heof |]. intros. apply ends_at_by; auto with ends.
Qed.

(** The streams of snapshots and pages, after their start. *)
Lemma opened_stream_ends {A} request total idle b (k : Z -> ResponseEnvelope -> client A) c :
  0 <= total -> 0 <= idle -> client_wf c -> budget_ok b ->
  (forall response c1, client_wf c1 -> client_now c1 <= client_now c + total ->
     max_frames (budget c1) = max_frames b -> observed_frames (budget c1) = observed_frames b + 1 ->
     ends_at c1 (client_now c + total) (k (client_now c + total) response)) ->
  ends_at c (client_now c + total)
    (opened <- open_exchange request total idle b ;; let (deadline, response) := opened in k deadline response).
Proof.
  intros Ht Hi Hc Hb Hk. destruct (open_exchange_ends request total idle b c Ht Hi Hc Hb) as [Ho Hok].
  apply ends_at_bind; [done |]. intros c1 [d response] H1 Hc1 _. apply Hok in H1 as (-> & Hd & _ & Hm & Hf).
  by apply Hk.
Qed.

Context `{Base64} `{UuidFormat} `{Sha256} {J : Type} `{TaskCodec J}.

(** Each request function, by the body it takes. *)
Definition request_any (on_stage : list SpeedTestStageData -> SpeedTestStageData -> result unit ClientError)
    (request : RequestEnvelope) : client unit :=
  match req_body request with
  | Req_Health _ => request_health request ;;; ret tt
  | Req_TelemetrySnapshot => request_telemetry_snapshot request ;;; ret tt
  | Req_NetworkSnapshot => request_network_snapshot request ;;; ret tt
  | Req_UsageSummary _ => request_usage_summary request ;;; ret tt
  | Req_RemoteCapabilities => request_remote_capabilities request ;;; ret tt
  | Req_SystemInfo => request_system_info request ;;; ret tt
  | Req_RemoteProfile _ => request_remote_profile request ;;; ret tt
  | Req_Secret _ => request_secret request ;;; ret tt
  | Req_RemoteSession _ => request_remote_session request ;;; ret tt
  | Req_Notes _ => request_notes request ;;; ret tt
  | Req_Terminal _ => request_terminal request ;;; ret tt
  | Req_Transfer _ => request_transfer request ;;; ret tt
  | Req_TransferLocalHandle _ => request_transfer_local_handle request ;;; ret tt
  | Req_SpeedTestBasic _ => request_speedtest_basic on_stage request ;;; ret tt
  | Req_SpeedTestCancel _ => request_speedtest_cancel request ;;; ret tt
  | Req_SpeedTestDeep _ => request_speedtest_deep request ;;; ret tt
  end.

Definition request_limit (b : RequestBody) : Z :=
  match b with
  | Req_Health _ | Req_RemoteCapabilities | Req_RemoteProfile _ | Req_Secret _ => HEALTH_TOTAL_DEADLINE
  | Req_SystemInfo => SYSTEM_INFO_TOTAL_DEADLINE
  | Req_RemoteSession _ => REMOTE_SESSION_TOTAL_DEADLINE
  | Req_SpeedTestBasic _ => SPEEDTEST_TOTAL_DEADLINE + HEALTH_TOTAL_DEADLINE
  | Req_SpeedTestCancel _ => SNAPSHOT_TOTAL_DEADLINE + HEALTH_TOTAL_DEADLINE
  | Req_SpeedTestDeep c => speedtest_deep_deadline c + HEALTH_TOTAL_DEADLINE
  | _ => SNAPSHOT_TOTAL_DEADLINE
  end.

Lemma deep_deadline_nonneg command : 0 <= speedtest_deep_deadline command.
Proof. destruct command; simpl; unfold clamp; try lia. Qed.

Lemma frames_of_enough b : budget_ok b -> max_frames b - (observed_frames b + 1) < Z.of_nat (frames_of b).
Proof. unfold budget_ok, frames_of. lia. Qed.

(** The bound of a request that ends by its limit. *)
Lemma ends_at_unit {A} c limit (m : client A) : client_wf c -> ends_at c limit m -> ends_at c limit (m ;;; ret tt).
Proof. intros Hc Hm. apply ends_at_bind; [done |]. intros. apply ends_at_by; auto with ends. Qed.

Ltac single :=
  match goal with
  | |- ends_at ?c (client_now ?c + ?t) (single_answer _ _ _ _ _ _) =>
      replace (client_now c + t) with (client_now c + t + 0) by lia; apply single_answer_ends;
      [done | done | done | assumption | intros; by apply eof_ends]
  end.
Ltac skip_check :=
  apply ends_at_bind; [apply ends_at_by; auto with ends |]; intros ? ? Hskip _ _; injection Hskip as <- _.
Ltac stream :=
  match goal with
  | |- ends_at _ _ (stream_loop _ _ _ _ _ _ _) =>
      apply stream_loop_ends; [assumption |];
      repeat match goal with Hm : max_frames _ = max_frames _ |- _ => rewrite Hm; clear Hm
                           | Hm : observed_frames _ = _ |- _ => rewrite Hm; clear Hm end;
      apply frames_of_enough; first [apply response_budget_ok | apply notes_response_budget_ok]
  end.

Lemma request_any_ends on_stage request c : client_wf c ->
  ends_at c (client_now c + request_limit (req_body request)) (request_any on_stage request).
Proof.
  intros Hc. unfold request_any, request_limit.
  destruct (req_body request) as [h | | | q | | | command | command | command | command | command | command | bind
    | r | kind | command] eqn:Hbody; (apply ends_at_unit; [done |]).
  - unfold request_health. rewrite Hbody. single.
  - unfold request_telemetry_snapshot. rewrite Hbody.
    apply opened_stream_ends; [done | done | done | apply response_budget_ok |].
    intros response c1 Hc1 Hn Hm Hf. skip_check.
    destruct (resp_body response); try (apply ends_at_by; by auto with ends); [| by apply refused_ends].
    skip_check. skip_check. skip_check. stream.
  - unfold request_network_snapshot. rewrite Hbody.
    apply opened_stream_ends; [done | done | done | apply response_budget_ok |].
    intros response c1 Hc1 Hn Hm Hf. skip_check.
    destruct (resp_body response); try (apply ends_at_by; by auto with ends); [| by apply refused_ends].
    skip_check. skip_check. stream.
  - unfold request_usage_summary. rewrite Hbody. skip_check.
    apply opened_stream_ends; [done | done | done | apply response_budget_ok |].
    intros response c1 Hc1 Hn Hm Hf. skip_check.
    destruct (resp_body response); try (apply ends_at_by; by auto with ends); [| by apply refused_ends].
    skip_check. skip_check. stream.
  - unfold request_remote_capabilities. rewrite Hbody. single.
  - unfold request_system_info. rewrite Hbody. single.
  - unfold request_remote_profile. rewrite Hbody. skip_check. single.
  - unfold request_secret. rewrite Hbody. skip_check. single.
  - unfold request_remote_session. rewrite Hbody. skip_check. single.
  - unfold request_notes. rewrite Hbody. skip_check.
    apply opened_stream_ends; [done | done | done | apply notes_response_budget_ok |].
    intros response c1 Hc1 Hn Hm Hf. skip_check.
    destruct (resp_body response); try (apply ends_at_by; by auto with ends); try (by apply refused_ends).
    + skip_check. apply ends_at_by; [done |]. apply ends_by_bind; auto with ends.
    + skip_check. skip_check. skip_check. stream.
    + skip_check. skip_check. stream.
  - unfold request_terminal. rewrite Hbody.
    destruct command; try (skip_check; single). apply ends_at_by; auto with ends.
  - unfold request_transfer. rewrite Hbody. skip_check.
    apply opened_stream_ends; [done | done | done | apply response_budget_ok |].
    intros response c1 Hc1 Hn Hm Hf. skip_check.
    destruct (resp_body response); try (apply ends_at_by; by auto with ends); try (by apply refused_ends).
    + skip_check. apply ends_at_by; [done |]. apply ends_by_bind; auto with ends.
    + destruct command; try (apply ends_at_by; by auto with ends). skip_check. skip_check. stream.
  - unfold request_transfer_local_handle. rewrite Hbody. skip_check. single.
  - unfold request_speedtest_basic. rewrite Hbody.
    apply ends_at_bind; [apply ends_at_by; auto with ends |]. intros ? t Hnow _ _. injection Hnow as <- <-. cbv zeta.
    set (d := client_now c + SPEEDTEST_TOTAL_DEADLINE).
    assert (Hd : client_now c <= d) by (unfold d, SPEEDTEST_TOTAL_DEADLINE; lia).
    rewrite Z.add_assoc. fold d. assert (Hdd : d <= d + HEALTH_TOTAL_DEADLINE) by (unfold HEALTH_TOTAL_DEADLINE; lia).
    apply ends_at_bind; [eapply ends_at_weaken; [exact Hdd | apply ends_at_by; auto with ends] |].
    intros c1 u1 Hcon Hc1 _. apply (ends_by_connect d) in Hcon as (_ & Hn1 & _); [| done].
    apply ends_at_bind; [eapply ends_at_weaken; [exact Hdd | apply ends_at_by; auto with ends] |].
    intros c2 u2 Hsend Hc2 _. apply ends_by_send in Hsend as (_ & Hn2 & _); [| done].
    apply ends_at_bind; [apply ends_at_by; [done | apply ends_by_new_budget, response_budget_ok] |].
    intros c3 u3 Hnew Hc3 _. injection Hnew as <- _.
    apply speedtest_loop_ends; [done | simpl; lia | by vm_compute].
  - unfold request_speedtest_cancel. rewrite Hbody.
    rewrite Z.add_assoc. apply single_answer_ends; try done. intros. by apply eof_in_ends.
  - unfold request_speedtest_deep. rewrite Hbody. skip_check. pose proof (deep_deadline_nonneg command).
    rewrite Z.add_assoc. apply single_answer_ends; try done. intros. by apply eof_in_ends.
Qed.


(** ** The terminal stream *)

Definition returns {A} (c : Client) (m : client A) : Prop := forall c' r, m c = (c', r) -> r <> Err OutOfFuel.

Lemma returns_bind {A B} c (m : client A) (k : A -> client B) :
  returns c m -> (forall c1 a, m c = (c1, Ok a) -> returns c1 (k a)) -> returns c (bind m k).
Proof.
  intros Hm Hk c' r. unfold bind. destruct (m c) as [c1 [a | e]] eqn:Hc1.
  - intros Hr. by eapply Hk.
  - intros [= <- <-]. specialize (Hm _ _ Hc1). congruence.
Qed.
Lemma returns_ends {A} c limit (m : client A) : client_wf c -> ends_by limit m -> returns c m.
Proof. intros Hc Hm c' r Hr. by apply Hm in Hr as (_ & _ & Hr). Qed.

Lemma ends_by_eof_in d limit c : client_wf c -> ends_at c (Z.max limit (client_now c + d)) (expect_eof_in d).
Proof.
  intros Hc. unfold expect_eof_in. apply ends_at_bind; [apply ends_at_by; auto with ends |].
  intros c1 t Hnow Hc1 _. injection Hnow as <- <-. eapply ends_at_weaken; [| apply ends_at_by; auto with ends]. lia.
Qed.

Lemma terminal_loop_returns on_event rid sid m fuel : forall s events c, client_wf c ->
  (length (reader_bytes (client_reader c)) < fuel)%nat ->
  returns c (terminal_loop on_event rid sid m fuel s events).
Proof.
  induction fuel as [| fuel IH]; intros s events c Hc Hf; [lia |]. cbn [terminal_loop].
  assert (Heof : forall c1 A (k : client A), client_wf c1 -> (forall c2, client_wf c2 -> returns c2 k) ->
            returns c1 (expect_eof_in HEALTH_TOTAL_DEADLINE ;;; k)).
  { intros c1 A k Hc1 Hk. apply returns_bind; [intros ? ? Hr; by apply (ends_by_eof_in _ 0) in Hr as (_ & _ & Hr) |].
    intros c2 [] Hr. apply (ends_by_eof_in _ 0) in Hr as (Hc2 & _); [| done]. by apply Hk. }
  apply returns_bind; [by intros ? ? [= <- <-] |]. intros c1 u Hnew.
  pose proof (ends_by_new_budget 0 response_budget response_budget_ok _ _ _ Hc Hnew) as (Hc1 & _).
  assert (Hf1 : (length (reader_bytes (client_reader c1)) < S fuel)%nat) by (injection Hnew as <- _; done). clear Hnew.
  apply returns_bind; [by intros ? ? [= <- <-] |]. intros c2 t Hnow. injection Hnow as <- _.
  apply returns_bind; [apply (returns_ends _ (t + SNAPSHOT_TOTAL_DEADLINE)); [done | by apply ends_by_response] |].
  intros c2 response Hr. apply read_response_spec in Hr as (Hc2 & _ & _ & _ & Ho); [| done | done].
  destruct (Ho eq_refl) as (_ & used & Hu & Hlen). rewrite Hu, length_app in Hf1.
  do 2 (apply returns_bind; [apply (returns_ends _ 0); auto with ends |]; intros ? ? Hp; injection Hp as <- _).
  apply returns_bind; [apply (returns_ends _ 0); auto with ends |]. intros ? s' Hp. injection Hp as <- _.
  destruct (terminal_event _ _ _ _) as [[event ended] |].
  - apply returns_bind; [apply (returns_ends _ 0); auto with ends |]. intros ? ? Hp. injection Hp as <- _.
    destruct ended; [apply Heof; [done |]; intros; by apply (returns_ends _ 0); auto with ends |].
    apply IH; [done | lia].
  - destruct (resp_body response); try (by apply (returns_ends _ 0); auto with ends).
    destruct (negb _); [by apply (returns_ends _ 0); auto with ends |].
    apply Heof; [done |]. intros. by apply (returns_ends _ 0); auto with ends.
Qed.

(** The terminal stream has no deadline of its own; it ends with the bytes that
    arrive. *)
Lemma terminal_stream_returns on_event request c : client_wf c ->
  returns c (request_terminal_stream on_event request).
Proof.
  intros Hc. unfold request_terminal_stream.
  destruct (req_body request) as [| | | | | | | | | | command | | | | |]; try (by apply (returns_ends _ 0); auto with ends).
  destruct command; try (by apply (returns_ends _ 0); auto with ends).
  apply returns_bind; [apply (returns_ends _ 0); auto with ends |]. intros ? ? Hp. injection Hp as <- _.
  apply returns_bind; [by intros ? ? [= <- <-] |]. intros ? t Hp. injection Hp as <- _.
  apply returns_bind; [by apply (returns_ends _ (t + HEALTH_TOTAL_DEADLINE)); auto with ends |].
  intros c1 u Hcon. apply ends_by_connect in Hcon as (Hc1 & _); [| done].
  apply returns_bind; [by intros ? ? [= <- <-] |]. intros ? t' Hp. injection Hp as <- _.
  apply returns_bind; [by apply (returns_ends _ (t' + HEALTH_TOTAL_DEADLINE)); auto with ends |].
  intros c2 u' Hsend. apply ends_by_send in Hsend as (Hc2 & _); [| done].
  apply returns_bind; [by intros ? ? [= <- <-] |]. intros ? fuel Hp. injection Hp as <- <-.
  apply terminal_loop_returns; [done |]. unfold stream_fuel. apply Nat.lt_succ_diag_r.
Qed.
End Facts.

(** * What the client answers is valid and is for its request, whatever the bytes
    that arrive. *)

Lemma check_ok {A} b e (a a' : A) : check b e a = Ok a' -> b = true /\ a' = a.
Proof. destruct b; [by intros [= ->] | discriminate]. Qed.

Lemma protocol_ok {A} (r : result A ProtocolError) c c' a : protocol r c = (c', Ok a) -> c' = c /\ r = Ok a.
Proof. destruct r; [by intros [= -> ->] | discriminate]. Qed.

Section Answers.
Context `{Json RequestEnvelope} `{Json ResponseEnvelope}.

Lemma open_exchange_ok request total idle b c c' d response :
  open_exchange request total idle b c = (c', Ok (d, response)) ->
  validate_envelope response (req_request_id request) = Ok tt.
Proof.
  unfold open_exchange. intros Ho. do 5 (apply bind_ok in Ho as (? & ? & _ & Ho)).
  apply bind_ok in Ho as (? & [] & Hv & Ho). apply protocol_ok in Hv as [_ Hv]. by injection Ho as _ _ <-.
Qed.

Lemma single_answer_ok {A} request total idle identity eof (accept : ResponseBody -> result A ProtocolError) c c' a :
  single_answer request total idle identity eof accept c = (c', Ok a) ->
  exists response, accept (resp_body response) = Ok a /\ identity response = Ok tt /\
    validate_envelope response (req_request_id request) = Ok tt.
Proof.
  unfold single_answer. intros Ha. apply bind_ok in Ha as (c1 & [d response] & Ho & Ha).
  apply open_exchange_ok in Ho. apply bind_ok in Ha as (c2 & [] & Hi & Ha). apply protocol_ok in Hi as [-> Hi].
  assert (Hb : forall x : result A ProtocolError,
            (answer <- protocol x ;; eof d ;;; ret answer) c1 = (c', Ok a) -> x = Ok a).
  { intros x Hx. apply bind_ok in Hx as (c3 & a' & Hp & Hx). apply protocol_ok in Hp as [-> Hp].
    apply bind_ok in Hx as (c4 & u & _ & Hx). by injection Hx as _ ->. }
  exists response. split; [| done].
  destruct (resp_body response); try (by apply Hb).
  apply bind_ok in Ha as (? & ? & _ & Ha). discriminate.
Qed.

(** What a stream ends with: the state of its last chunk, which has what every
    chunk keeps. *)
Lemma stream_loop_ok {A R} (Inv : A -> Prop) (take_body : A -> ResponseBody -> taken A R) rid sid deadline
    fuel : forall s acc c c' r,
  (forall acc body acc', Inv acc -> take_body acc body = Chunk (Ok acc') -> Inv acc') ->
  Inv acc -> stream_loop take_body rid sid deadline fuel s acc c = (c', Ok r) ->
  exists acc' body, Inv acc' /\ take_body acc' body = End_ (Ok r).
Proof.
  induction fuel as [| fuel IH]; intros s acc c c' r Hinv Hacc Hl; [discriminate |]. cbn [stream_loop] in Hl.
  apply bind_ok in Hl as (c1 & response & _ & Hl). apply bind_ok in Hl as (c2 & u & _ & Hl).
  assert (Hb : match take_body acc (resp_body response) with
    | Chunk r => acc <- protocol r ;; s <- protocol (next_sequence s) ;;
                 stream_loop take_body rid sid deadline fuel s acc
    | End_ r => answer <- protocol r ;; expect_eof deadline ;;; ret answer
    | Neither => fail (Client_Protocol UnexpectedBody)
    end c2 = (c', Ok r) -> exists acc' body, Inv acc' /\ take_body acc' body = End_ (Ok r)).
  { intros Hb. destruct (take_body acc (resp_body response)) as [x | x |] eqn:Ht; [| | discriminate].
    - apply bind_ok in Hb as (c3 & acc1 & Hp & Hb). apply protocol_ok in Hp as [-> ->].
      apply bind_ok in Hb as (c4 & s1 & _ & Hb). apply IH in Hb; [done | done |]. by eapply Hinv.
    - apply bind_ok in Hb as (c3 & r' & Hp & Hb). apply protocol_ok in Hp as [-> ->].
      apply bind_ok in Hb as (c4 & ? & _ & Hb). injection Hb as _ ->. by exists acc, (resp_body response). }
  destruct (resp_body response); try (by apply Hb).
  apply bind_ok in Hl as (? & ? & _ & Hl). discriminate.
Qed.

Lemma stream_identity_ok r sid : ok_or SnapshotIdentity (stream_identity r) = Ok sid -> is_nil sid = false.
Proof.
  unfold stream_identity. destruct (resp_snapshot_id r) as [i |]; [| discriminate].
  destruct (is_nil i) eqn:Hi; [discriminate |]. by intros [= <-].
Qed.

(** ** Snapshots *)

Definition telemetry_ok (s : TelemetrySnapshot) : Prop :=
  tel_schema_version s = TELEMETRY_SCHEMA_VERSION /\ is_nil (tel_snapshot_id s) = false /\
  count (tel_applications s) <= MAX_APPLICATION_RECORDS.

Lemma refused_not_ok {A} response e d c c' (a : A) : refused response e d c <> (c', Ok a).
Proof.
  unfold refused. destruct (is_some _); [discriminate |]. intros Hr. apply bind_ok in Hr as (? & ? & _ & Hr).
  discriminate.
Qed.

(** The start of a stream, as the first response of a request. *)
Ltac open_stream Hr :=
  let c1 := fresh "c1" in let d := fresh "d" in let response := fresh "response" in
  apply bind_ok in Hr as (c1 & [d response] & _ & Hr); cbv beta iota in Hr;
  apply bind_ok in Hr as (? & ? & _ & Hr);
  destruct (resp_body response); try discriminate Hr; try (by apply refused_not_ok in Hr).
Ltac stream_start Hr Hs Hv :=
  apply bind_ok in Hr as (? & ? & Hs & Hr); apply protocol_ok in Hs as [-> Hs]; apply stream_identity_ok in Hs;
  apply bind_ok in Hr as (? & [] & Hv & Hr); apply protocol_ok in Hv as [-> Hv].

Lemma request_telemetry_ok request c c' s :
  request_telemetry_snapshot request c = (c', Ok s) -> telemetry_ok s.
Proof.
  unfold request_telemetry_snapshot. destruct (req_body request); try discriminate. intros Hr.
  open_stream Hr. stream_start Hr Hs Hv. apply bind_ok in Hr as (c5 & q & _ & Hr).
  apply (stream_loop_ok (fun _ => True)) in Hr as (acc & body & _ & Ht); [| done | done].
  destruct body; try discriminate. cbn [take_telemetry] in Ht. injection Ht as Ht.
  apply result_bind_ok in Ht as ([] & He & Ht). injection Ht as <-.
  unfold validate_start in Hv. apply result_bind_ok in Hv as (n & _ & Hv). apply guard_ok in Hv.
  unfold validate_end in He. apply guard_ok in He. bool_facts. unfold telemetry_ok. simpl. split_and!; [done | done | lia].
Qed.

Lemma request_network_ok request c c' s :
  request_network_snapshot request c = (c', Ok s) ->
  NetworkSnapshot_validate s = Ok tt /\ is_nil (net_snapshot_id s) = false.
Proof.
  unfold request_network_snapshot. destruct (req_body request); try discriminate. intros Hr.
  open_stream Hr. stream_start Hr Hs Hv.
  apply (stream_loop_ok (fun _ => True)) in Hr as (acc & body & _ & Ht); [| done | done].
  destruct body; try discriminate. cbn [take_network] in Ht. injection Ht as Ht.
  apply result_bind_ok in Ht as ([] & He & Ht). apply result_bind_ok in Ht as ([] & Hn & Ht). injection Ht as <-.
  by apply map_err_ok in Hn.
Qed.

Lemma request_usage_ok request c c' s : request_usage_summary request c = (c', Ok s) ->
  req_body request = Req_UsageSummary (us_query s) /\ UsageSummary_validate s = Ok tt /\
  is_nil (us_snapshot_id s) = false.
Proof.
  unfold request_usage_summary. destruct (req_body request) as [| | | q | | | | | | | | | | | |]; try discriminate.
  intros Hr. apply bind_ok in Hr as (? & ? & _ & Hr). open_stream Hr. stream_start Hr Hs Hv.
  apply (stream_loop_ok (fun _ => True)) in Hr as (acc & body & _ & Ht); [| done | done].
  destruct body; try discriminate. cbn [take_usage] in Ht. injection Ht as Ht.
  apply result_bind_ok in Ht as ([] & He & Ht). apply result_bind_ok in Ht as ([] & Hn & Ht). injection Ht as <-.
  apply map_err_ok in Hn. unfold validate_usage_start in Hv. apply result_bind_ok in Hv as ([] & _ & Hv).
  apply guard_ok in Hv. bool_facts. simpl. by split; [f_equal |].
Qed.

(** ** Transfers *)

Section Transfers.
Context {J : Type} `{TaskCodec J}.

Lemma request_transfer_ok request c c' o : request_transfer request c = (c', Ok o) ->
  exists command, req_body request = Req_Transfer command /\ TransferOutput_validate_for o command = Ok tt.
Proof.
  unfold request_transfer. destruct (req_body request) as [| | | | | | | | | | | command | | | |]; try discriminate.
  intros Hr. exists command. split; [done |]. apply bind_ok in Hr as (? & ? & _ & Hr). open_stream Hr.
  - apply bind_ok in Hr as (? & ? & Hp & Hr). apply protocol_ok in Hp as [-> Hp]. apply check_ok in Hp as [Hp _].
    apply bind_ok in Hr as (? & ? & _ & Hr). injection Hr as _ <-. bool_facts.
    by apply is_ok_iff in H3 as [[] ?].
  - destruct command; try discriminate. stream_start Hr Hs Hv.
    apply (stream_loop_ok (fun _ => True)) in Hr as (acc & body & _ & Ht); [| done | done].
    destruct body; try discriminate. cbn [take_transfers] in Ht. injection Ht as Ht.
    apply result_bind_ok in Ht as ([] & He & Ht). apply result_bind_ok in Ht as ([] & _ & Ht).
    apply result_bind_ok in Ht as ([] & Hn & Ht). injection Ht as <-. by apply map_err_ok in Hn.
Qed.
End Transfers.

(** ** Notes *)

Context `{Base64} `{UuidFormat} `{Sha256}.

(** What each command may be answered with. *)
Definition notes_answer_fits (command : NotesCommand) (o : NotesOutput) : Prop :=
  match command, o with
  | C_List query, O_Page p => NotesDomain.page_query p = query /\ NotePage_validate p = Ok tt
  | C_Get i, O_Document d =>
      sum_id (doc_summary d) = i /\ NoteDocument_validate d = Ok tt /\
      sha256_hex (bytes (doc_body_markdown d)) = sum_body_sha256 (doc_summary d)
  | C_Export _ format, O_Export e =>
      export_format e = format /\ NoteExport_validate e = Ok tt /\
      sha256_hex (bytes (export_content e)) = export_content_sha256 e
  | _, O_Mutation m => mutation_matches command m = true
  | _, _ => False
  end.

Lemma received_content_ok s command content o :
  sha256_hex (bytes content) = nc_content_sha256 s -> received_content s command content = Ok o ->
  notes_answer_fits command o.
Proof.
  unfold received_content. intros Hs. destruct (nc_kind s) as [| format], command; try discriminate.
  - intros Hr. apply result_bind_ok in Hr as (summary & _ & Hr).
    destruct (_ || _) eqn:Hi in Hr; [discriminate |]. apply result_bind_ok in Hr as ([] & Hd & Hr).
    apply map_err_ok in Hd. injection Hr as <-. bool_facts.
    apply String.eqb_eq in H4, H5. simpl. split_and!; [done | done | congruence].
  - intros Hr. destruct (negb _) eqn:Hf in Hr; [discriminate |]. destruct (is_some _) in Hr; [discriminate |].
    apply result_bind_ok in Hr as ([] & Hd & Hr). apply map_err_ok in Hd. injection Hr as <-. bool_facts.
    simpl. done.
Qed.

Lemma request_notes_ok request c c' o : request_notes request c = (c', Ok o) ->
  exists command, req_body request = Req_Notes command /\ notes_answer_fits command o.
Proof.
  unfold request_notes. destruct (req_body request) as [| | | | | | | | | command | | | | | |]; try discriminate.
  intros Hr. exists command. split; [done |]. apply bind_ok in Hr as (? & ? & _ & Hr). open_stream Hr.
  - apply bind_ok in Hr as (? & ? & Hp & Hr). apply protocol_ok in Hp as [-> Hp]. apply check_ok in Hp as [Hp _].
    apply bind_ok in Hr as (? & ? & _ & Hr). injection Hr as _ <-. bool_facts. by destruct command.
  - apply bind_ok in Hr as (? & ? & Hs & Hr). apply protocol_ok in Hs as [-> Hs].
    apply bind_ok in Hr as (? & query & Hq & Hr). apply protocol_ok in Hq as [-> Hq].
    destruct command; try discriminate Hq. injection Hq as ->.
    apply bind_ok in Hr as (? & [] & Hv & Hr). apply protocol_ok in Hv as [-> Hv].
    apply (stream_loop_ok (fun _ => True)) in Hr as (acc & body & _ & Ht); [| done | done].
    destruct body; try discriminate. cbn [take_notes] in Ht. injection Ht as Ht.
    apply result_bind_ok in Ht as ([] & He & Ht). apply result_bind_ok in Ht as ([] & Hn & Ht). injection Ht as <-.
    apply map_err_ok in Hn. unfold validate_notes_page_start in Hv. apply result_bind_ok in Hv as ([] & _ & Hv).
    apply guard_ok in Hv. bool_facts. done.
  - stream_start Hr Hs Hv.
    apply (stream_loop_ok (fun _ => True)) in Hr as (acc & body & _ & Ht); [| done | done].
    destruct body; try discriminate. cbn [take_content] in Ht. injection Ht as Ht.
    apply result_bind_ok in Ht as ([] & He & Ht).
    destruct (negb _) eqn:Hsha in Ht; [discriminate |]. destruct (negb _) eqn:Hutf in Ht; [discriminate |].
    apply negb_false_iff in Hsha, Hutf. apply String.eqb_eq in Hsha.
    eapply received_content_ok; [| exact Ht]. by rewrite string_of_bytes_bytes by (by apply valid_utf8_bytes).
Qed.
End Answers.
