(* ===== verification/IpcRoundTrip.v ===== *)
(** A stream from end to end: what the daemon plans, the client reads back. *)
From S2P Require Import Prelude Text Encoding RemoteCore Terminal TransferModel TransferPublic Domain NotesDomain Frame FrameFacts IpcMessage IpcPlan IpcPlanFacts IpcClient.

(** ** A stream that arrives in time *)

(** The frames, and then the end, are all there by [T]. *)
Record awaiting (T deadline : Z) (frames : list (list Z)) (c : Client) : Prop := {
  awaiting_ready : ready T deadline FRAME_IDLE_TIMEOUT (client_reader c);
  awaiting_budget : budget_ok (budget c);
  awaiting_sendable : Forall sendable frames;
  awaiting_room : room_for (Z.of_nat (length frames)) (wire_size frames) (budget c);
  awaiting_bytes : reader_bytes (client_reader c) = concat (map frame_of frames);
  awaiting_closed : exists t, stream_closed (inbound c) = Some t /\ t <= deadline;
}.

Lemma read_byte_end T limit closed l : forall now, in_time T l -> stream_bytes l = [] -> T <= limit ->
  now <= limit -> (exists t, closed = Some t /\ t <= limit) -> exists t, read_byte limit now closed l = (t, Read_done []).
Proof.
  induction l as [| [t c] l IH]; intros now Hin Hb HT Hn Hc; cbn [read_byte].
  - destruct Hc as (t & -> & Ht). replace (Z.max now t <=? limit) with true by lia. eauto.
  - apply Forall_cons in Hin as [[Ht Hok] Hin]. simpl in Ht, Hok. destruct c as [bs | e]; [| discriminate].
    change (stream_bytes ((t, Ok bs) :: l)) with (bs ++ stream_bytes l) in Hb. apply app_eq_nil in Hb as [-> Hb].
    replace (limit <? Z.max now t) with false by lia. apply IH; try done. lia.
Qed.

Section RoundTrip.
Context `{Json RequestEnvelope} `{Json ResponseEnvelope}.

Lemma awaiting_eof T deadline c : awaiting T deadline [] c -> exists c', expect_eof deadline c = (c', Ok tt).
Proof.
  intros [[Hn Hd _ Hin] _ _ _ Hb (t & Hc & Ht)]. unfold expect_eof. simpl in *.
  destruct (read_byte_end T (Z.max (client_now c) deadline) (stream_closed (inbound c)) (arrivals (inbound c))
              (client_now c)) as [t' ->]; try done; try lia; [| eauto].
  exists t. split; [done | lia].
Qed.

Lemma awaiting_next T deadline b p ps c r : awaiting T deadline (p :: ps) c -> from_slice p = Ok r ->
  exists c', read_response deadline b c = (c', Ok r) /\ awaiting T deadline ps c'.
Proof.
  intros [Hr Hok Hs Hroom Hb (t & Hc & Ht)] Hp. apply Forall_cons in Hs as [Hsp Hs].
  pose proof (wire_size_nonneg ps) as Hw.
  change (wire_size (p :: ps)) with (4 + Z.of_nat (length p) + wire_size ps) in Hroom.
  simpl length in Hroom. rewrite Nat2Z.inj_succ in Hroom.
  destruct (read_frame_done T deadline FRAME_IDLE_TIMEOUT (client_reader c) p (concat (map frame_of ps)))
    as (rd & Hrd & Hready & Hbytes & Hbud); [done | done | done | | exact Hb |].
  { eapply room_for_le; [exact Hroom | lia | lia]. }
  exists (put_reader rd c). unfold read_response, read_response_with_idle_timeout, zoom, mut_map_err,
    read_json_with_idle_timeout, bind. rewrite Hrd. unfold lift. rewrite Hp. split; [done |].
  apply read_frame_closed in Hrd. constructor.
  - by destruct rd.
  - change (budget_ok (reader_budget rd)). rewrite Hbud. apply grow_ok; [done | lia | lia |].
    eapply room_for_le; [exact Hroom | lia | lia].
  - done.
  - change (room_for (Z.of_nat (length ps)) (wire_size ps) (reader_budget rd)). rewrite Hbud. apply room_grow.
    eapply room_for_le; [exact Hroom | lia | lia].
  - exact Hbytes.
  - exists t. split; [| done]. change (stream_closed (reader_stream rd) = Some t). by rewrite Hrd.
Qed.

(** ** The loop over a stream *)

Definition no_error (b : ResponseBody) : Prop := forall e, b <> Resp_Error e.

Lemma envelope_ok rid s sid body : validate_stream_envelope (response rid s (Some sid) body) rid s sid = Ok tt.
Proof.
  unfold validate_stream_envelope, validate_envelope. simpl. rewrite !Z.eqb_refl. simpl. by rewrite eqb_refl.
Qed.

Section Loop.
Context {A R : Type} (take_body : A -> ResponseBody -> taken A R) (rid sid : Uuid) (T deadline : Z).

Lemma loop_chunk fuel s acc c p ps body acc' :
  awaiting T deadline (p :: ps) c -> from_slice p = Ok (response rid s (Some sid) body) -> no_error body ->
  take_body acc body = Chunk (Ok acc') -> 0 <= s < u32_max ->
  exists c', stream_loop take_body rid sid deadline (S fuel) s acc c =
               stream_loop take_body rid sid deadline fuel (s + 1) acc' c' /\ awaiting T deadline ps c'.
Proof.
  intros Ha Hp Hbody Ht Hs. destruct (awaiting_next T deadline true p ps c _ Ha Hp) as (c' & Hr & Ha').
  exists c'. split; [| done]. cbn [stream_loop]. unfold bind at 1. rewrite Hr.
  unfold bind at 1. unfold protocol at 1, lift at 1. rewrite envelope_ok. cbn [map_err resp_body response].
  assert (Hn : next_sequence s = Ok (s + 1)).
  { unfold next_sequence, Prelude.checked_u32. replace (in_u32 (s + 1)) with true by width. done. }
  assert (Hgo : (acc <- protocol (Ok acc') ;; s <- protocol (next_sequence s) ;;
                 stream_loop take_body rid sid deadline fuel s acc) c' =
                stream_loop take_body rid sid deadline fuel (s + 1) acc' c').
  { unfold bind, protocol, lift. rewrite Hn. done. }
  destruct body; try (rewrite Ht; exact Hgo). by destruct (Hbody e).
Qed.

Lemma loop_end fuel s acc c p body r :
  awaiting T deadline [p] c -> from_slice p = Ok (response rid s (Some sid) body) -> no_error body ->
  take_body acc body = End_ (Ok r) ->
  exists c', stream_loop take_body rid sid deadline (S fuel) s acc c = (c', Ok r).
Proof.
  intros Ha Hp Hbody Ht. destruct (awaiting_next T deadline true p [] c _ Ha Hp) as (c' & Hr & Ha').
  destruct (awaiting_eof _ _ _ Ha') as [c2 He]. exists c2. cbn [stream_loop]. unfold bind at 1. rewrite Hr.
  unfold bind at 1. unfold protocol at 1, lift at 1. rewrite envelope_ok. cbn [map_err resp_body response].
  assert (Hgo : (answer <- protocol (Ok r) ;; expect_eof deadline ;;; ret answer) c' = (c2, Ok r)).
  { unfold bind, protocol, lift. cbn [map_err]. by rewrite He. }
  destruct body; try (rewrite Ht; exact Hgo). by destruct (Hbody e).
Qed.

(** All the chunks of a list: [P] relates what is left of it, in how many
    frames, to what has been taken. *)
Context {X : Type} (encoded : Z -> list X -> nat -> list Z -> Prop) (P : list X -> nat -> A -> Prop).
Hypothesis step : forall s records n p k acc,
  encoded s records n p -> (0 < n <= length records)%nat -> P records (S k) acc ->
  exists body acc', from_slice p = Ok (response rid s (Some sid) body) /\ no_error body /\
    take_body acc body = Chunk (Ok acc') /\ P (drop n records) k acc'.

Lemma loop_chunks s records ps : chunked encoded s records ps -> forall fuel acc c rest,
  awaiting T deadline (ps ++ rest) c -> P records (length ps) acc -> 0 <= s -> s + Z.of_nat (length ps) <= u32_max ->
  exists acc' c', P [] 0 acc' /\ awaiting T deadline rest c' /\
    stream_loop take_body rid sid deadline (length ps + fuel) s acc c =
      stream_loop take_body rid sid deadline fuel (s + Z.of_nat (length ps)) acc' c'.
Proof.
  induction 1 as [s | s records n p ps Hn He Hc IH]; intros fuel acc c rest Ha HP Hs Hmax.
  - exists acc, c. rewrite Z.add_0_r. done.
  - destruct (step _ _ _ _ _ _ He Hn HP) as (body & acc1 & Hp & Hbody & Ht & HP1).
    simpl length in *. rewrite Nat2Z.inj_succ in *.
    destruct (loop_chunk (length ps + fuel) s acc c p (ps ++ rest) body acc1 Ha Hp Hbody Ht) as (c1 & Hl & Ha1); [lia |].
    destruct (IH fuel acc1 c1 rest Ha1 HP1) as (acc' & c' & HP' & Ha' & Hl'); [lia | lia |].
    exists acc', c'. replace (s + Z.succ (Z.of_nat (length ps))) with (s + 1 + Z.of_nat (length ps)) by lia.
    split_and!; [done | done |]. change (S (length ps) + fuel)%nat with (S (length ps + fuel)). by rewrite Hl.
Qed.

(** The chunks and the end. *)
Lemma loop_stream records chunks q stop r fuel acc c :
  chunked encoded 1 records chunks -> awaiting T deadline (chunks ++ [q]) c -> P records (length chunks) acc ->
  (length chunks < fuel)%nat -> Z.of_nat (length chunks) < u32_max ->
  from_slice q = Ok (response rid (1 + Z.of_nat (length chunks)) (Some sid) stop) -> no_error stop ->
  (forall acc', P [] 0 acc' -> take_body acc' stop = End_ (Ok r)) ->
  exists c', stream_loop take_body rid sid deadline fuel 1 acc c = (c', Ok r).
Proof.
  intros Hc Ha HP Hf Hmax Hq Hstop Hend.
  destruct (loop_chunks 1 records chunks Hc (fuel - length chunks) acc c [q]) as (acc' & c' & HP' & Ha' & Hl);
    [done | done | lia | lia |].
  replace (length chunks + (fuel - length chunks))%nat with fuel in Hl by lia. rewrite Hl.
  destruct (fuel - length chunks)%nat as [| f] eqn:Hff; [lia |].
  eapply loop_end; [exact Ha' | exact Hq | done | by apply Hend].
Qed.
End Loop.

(** ** The records taken so far *)

(** [records] are left of [all], in [k] of the [frames] frames. *)
Definition filling {X} (all : list X) (frames : Z) (records : list X) (k : nat) (r : received X) : Prop :=
  items r ++ records = all /\ data_frames r + Z.of_nat k = frames /\ 0 <= data_frames r.

Lemma filling_more {X} (all : list X) frames records k n r : filling all frames records (S k) r ->
  frames < u32_max -> (0 < n <= length records)%nat ->
  Prelude.checked_u32 (data_frames r + 1) = Some (data_frames r + 1) /\
  (frames <? data_frames r + 1) = false /\
  count (items r) + count (take n records) <= count all /\ count (take n records) = Z.of_nat n /\
  filling all frames (drop n records) k (more r (data_frames r + 1) (take n records)).
Proof.
  intros (Hall & Hk & Hd) Hmax Hn. unfold count. rewrite <- Hall, length_app, length_take. split_and!.
  - unfold Prelude.checked_u32. by replace (in_u32 (data_frames r + 1)) with true by width.
  - lia.
  - lia.
  - lia.
  - unfold filling. simpl. rewrite <- app_assoc, firstn_skipn. split_and!; [done | lia | lia].
Qed.

Lemma chunk_len_ok n : (0 < n)%nat -> Z.of_nat n <= MAX_CHUNK_RECORDS -> validate_chunk_len (Z.of_nat n) = Ok tt.
Proof.
  intros Hn Hm. unfold validate_chunk_len.
  replace (Z.of_nat n =? 0) with false by lia. by replace (MAX_CHUNK_RECORDS <? Z.of_nat n) with false by lia.
Qed.

(** The declarations of a stream that is one. *)
Lemma declaration_ok {X} encoded s (records : list X) chunks : chunked encoded s records chunks ->
  Z.of_nat (length chunks) + 2 <= MAX_RESPONSE_FRAMES ->
  validate_stream_declaration (Z.of_nat (length records)) (Z.of_nat (length chunks)) = Ok tt.
Proof.
  intros Hc Hl. apply chunked_length in Hc as [Hle Hnil]. unfold validate_stream_declaration, Prelude.checked_u32.
  unfold MAX_RESPONSE_FRAMES in *. replace (in_u32 _) with true by width. cbn [ok_or result_bind].
  apply guard_ok. rewrite !orb_false_iff. split_and!; [lia | lia | | lia].
  apply negb_false_iff, eqb_true_iff. destruct records, chunks; simpl in *; try lia; naive_solver.
Qed.

(** ** Opening *)

(** The connection is made and the request written within [total]. *)
Definition sent (request : RequestEnvelope) (total : Z) (c c1 : Client) : Prop :=
  (connect (client_now c + total) ;;; send request (client_now c + total)) c = (c1, Ok tt).

(** The frames, then the end of the stream, arrive by [T], before the deadline
    and before the idle timeout. *)
Record delivered (T deadline : Z) (frames : list (list Z)) (c : Client) : Prop := {
  delivered_ready : ready T deadline FRAME_IDLE_TIMEOUT (client_reader c);
  delivered_bytes : reader_bytes (client_reader c) = concat (map frame_of frames);
  delivered_closed : exists t, stream_closed (inbound c) = Some t /\ t <= deadline;
}.

Lemma open_exchange_done request total b c c1 T p ps r m w :
  sent request total c c1 -> delivered T (client_now c + total) (p :: ps) c1 ->
  b = WireBudget_new m w -> 0 <= m <= u64_max -> 0 <= w <= u64_max -> within_limits m w (p :: ps) ->
  from_slice p = Ok r -> validate_envelope r (req_request_id request) = Ok tt ->
  exists c2, open_exchange request total FRAME_IDLE_TIMEOUT b c = (c2, Ok (client_now c + total, r)) /\
    awaiting T (client_now c + total) ps c2.
Proof.
  intros Hs [Hr Hb Hc] -> Hm Hw (Hsend & Hlen & Hwire) Hp Hv. unfold sent in Hs.
  apply bind_ok in Hs as (c0 & [] & Hcon & Hsnd).
  set (c1' := fst (new_budget (WireBudget_new m w) c1)).
  assert (Ha : awaiting T (client_now c + total) (p :: ps) c1').
  { constructor; [by destruct Hr | | done | | done | done].
    - unfold budget_ok. simpl. lia.
    - unfold room_for. simpl in *. lia. }
  destruct (awaiting_next _ _ false _ _ _ _ Ha Hp) as (c2 & Hread & Ha2). exists c2. split; [| done].
  unfold open_exchange. change (bind now ?k c) with (k (client_now c) c). cbv beta zeta.
  unfold bind at 1. rewrite Hcon. unfold bind at 1. rewrite Hsnd.
  change (bind (new_budget (WireBudget_new m w)) ?k c1) with (k tt c1'). cbv beta.
  unfold bind at 1. unfold read_response in Hread. rewrite Hread.
  unfold bind, protocol, lift. by rewrite Hv.
Qed.

Lemma response_envelope_ok rid s sid body : validate_envelope (response rid s sid body) rid = Ok tt.
Proof. unfold validate_envelope. simpl. by rewrite !Z.eqb_refl. Qed.

(** The frames of a plan as they are read: the start, the chunks, the end. *)
Lemma plan_frames_length rid sid start stop chunks frames : plan_frames rid sid start stop chunks frames ->
  length frames = (length chunks + 2)%nat.
Proof. intros (p & q & -> & _). simpl. rewrite length_app. simpl. lia. Qed.

Lemma chunked_with {X} (encoded : Z -> list X -> nat -> list Z -> Prop) (Q : list Z -> Prop) s records ps :
  chunked encoded s records ps -> Forall Q ps -> chunked (fun s records n p => encoded s records n p /\ Q p) s records ps.
Proof.
  induction 1 as [| s records n p ps Hn He Hc IH]; intros HQ; [constructor |]. apply Forall_cons in HQ as [Hp HQ].
  econstructor; [done | done | by apply IH].
Qed.

Lemma frames_of_response_budget : Z.of_nat (frames_of response_budget) = MAX_RESPONSE_FRAMES + 1.
Proof. done. Qed.

(** ** JSON that carries no floating-point numbers *)

Definition float_free (b : ResponseBody) : bool :=
  match b with
  | Resp_SnapshotStart _ | Resp_ApplicationChunk _ | Resp_NetworkSnapshotStart _ | Resp_NetworkInterfaceChunk _
  | Resp_NetworkApplicationChunk _ | Resp_SpeedTestStage _ | Resp_SpeedTestBasicEnd _ | Resp_SpeedTestDeep _ => false
  | _ => true
  end.

(** serde_json reads back what it has written, floating-point numbers apart. *)
Class EnvelopeJsonLaws : Prop :=
  envelope_round_trip : forall r p, float_free (resp_body r) = true -> to_vec r = Ok p -> from_slice p = Ok r.

(** The JSON of a response among the frames is read back. *)
Definition reads_back (frames : list (list Z)) (r : ResponseEnvelope) : Prop :=
  forall p, p ∈ frames -> to_vec r = Ok p -> from_slice p = Ok r.

Lemma float_free_reads_back `{!EnvelopeJsonLaws} frames r : float_free (resp_body r) = true -> reads_back frames r.
Proof. intros Hr p _. by apply envelope_round_trip. Qed.

Lemma open_stream_done request total b c c1 T m w sid start stop chunks frames :
  plan_frames (req_request_id request) sid start stop chunks frames ->
  sent request total c c1 -> delivered T (client_now c + total) frames c1 ->
  b = WireBudget_new m w -> 0 <= m <= u64_max -> 0 <= w <= u64_max -> within_limits m w frames ->
  reads_back frames (response (req_request_id request) 0 (Some sid) start) ->
  reads_back frames (response (req_request_id request) (1 + Z.of_nat (length chunks)) (Some sid) stop) ->
  exists q c2, open_exchange request total FRAME_IDLE_TIMEOUT b c =
      (c2, Ok (client_now c + total, response (req_request_id request) 0 (Some sid) start)) /\
    awaiting T (client_now c + total) (chunks ++ [q]) c2 /\
    from_slice q = Ok (response (req_request_id request) (1 + Z.of_nat (length chunks)) (Some sid) stop).
Proof.
  intros (p & q & -> & Hp & Hq) Hs Hd Hb Hm Hw Hlim Hstart Hstop.
  apply Hstart in Hp; [| by left]. apply Hstop in Hq; [| right; apply elem_of_app; right; by left].
  destruct (open_exchange_done request total b c c1 T p (chunks ++ [q]) _ m w Hs Hd Hb Hm Hw Hlim Hp
              (response_envelope_ok _ _ _ _)) as (c2 & Ho & Ha). by exists q, c2.
Qed.

(** The step of a stream of records: the chunk is read and taken. *)
Lemma record_step {X A R} (take_body : A -> ResponseBody -> taken A R) (body : list X -> ResponseBody)
    frames rid sid s records n p :
  record_frame body rid sid s records n p /\ p ∈ frames ->
  reads_back frames (response rid s (Some sid) (body (take n records))) ->
  from_slice p = Ok (response rid s (Some sid) (body (take n records))) /\ Z.of_nat n <= MAX_CHUNK_RECORDS.
Proof. intros [[Hn Hp] Hin] Hr. split; [by apply Hr | done]. Qed.

(** The run of a step that succeeds. *)
Lemma bind_run {S E A B} (m : mut S A E) (k : A -> mut S B E) s s1 a : m s = (s1, Ok a) -> bind m k s = k a s1.
Proof. intros Hm. unfold bind. by rewrite Hm. Qed.
Lemma protocol_run {A B} (r : result A ProtocolError) (k : A -> client B) c a : r = Ok a -> bind (protocol r) k c = k a c.
Proof. intros ->. done. Qed.

Lemma stream_identity_some rid s sid body : is_nil sid = false ->
  ok_or SnapshotIdentity (stream_identity (response rid s (Some sid) body)) = Ok sid.
Proof. intros Hn. unfold stream_identity. simpl. by rewrite Hn. Qed.

(** Every stream but the exports has a plan of at most 130 frames. *)
Lemma plan_chunks rid sid start stop chunks frames w : plan_frames rid sid start stop chunks frames ->
  within_limits MAX_RESPONSE_FRAMES w frames -> Z.of_nat (length chunks) + 2 <= MAX_RESPONSE_FRAMES.
Proof. intros Hp (_ & Hl & _). apply plan_frames_length in Hp. lia. Qed.

(** Records taken into [received]: the loop from the start to the end. *)
Lemma records_received {X R} (take_body : received X -> ResponseBody -> taken (received X) R) encoded
    (records : list X) chunks q stop r fuel T deadline rid sid c :
  chunked encoded 1 records chunks -> awaiting T deadline (chunks ++ [q]) c ->
  (length chunks < fuel)%nat -> Z.of_nat (length chunks) < u32_max ->
  from_slice q = Ok (response rid (1 + Z.of_nat (length chunks)) (Some sid) stop) -> no_error stop ->
  (forall s rest n p acc, encoded s rest n p -> (0 < n <= length rest)%nat ->
     Prelude.checked_u32 (data_frames acc + 1) = Some (data_frames acc + 1) ->
     (Z.of_nat (length chunks) <? data_frames acc + 1) = false ->
     items acc ++ rest = records -> count (items acc) + count (take n rest) <= count records ->
     count (take n rest) = Z.of_nat n ->
     exists body added, from_slice p = Ok (response rid s (Some sid) body) /\ no_error body /\
       added = take n rest /\
       take_body acc body = Chunk (Ok (more acc (data_frames acc + 1) added))) ->
  take_body {| data_frames := Z.of_nat (length chunks); items := records |} stop = End_ (Ok r) ->
  exists c', stream_loop take_body rid sid deadline fuel 1 nothing c = (c', Ok r).
Proof.
  intros Hc Ha Hf Hmax Hq Hstop Hstep Hend.
  eapply (loop_stream take_body rid sid T deadline encoded (filling records (Z.of_nat (length chunks))));
    [| exact Hc | exact Ha | | exact Hf | exact Hmax | exact Hq | exact Hstop |].
  - intros s rest n p k acc He Hn Hfill.
    destruct (filling_more _ _ _ k n acc Hfill Hmax Hn) as (Hu & Hfr & Hct & Hcn & Hf').
    destruct (Hstep s rest n p acc He Hn Hu Hfr (proj1 Hfill) Hct Hcn) as (body & added & Hp & Hb & -> & Ht).
    exists body, (more acc (data_frames acc + 1) (take n rest)). done.
  - unfold filling. simpl. split_and!; [done | lia | lia].
  - intros [n l] (Hall & Hk & _). simpl in *. rewrite app_nil_r in Hall. rewrite Z.add_0_r in Hk. by subst.
Qed.

Ltac frame_bounds :=
  unfold MAX_RESPONSE_FRAMES, MAX_NOTES_EXPORT_FRAMES, MAX_NOTE_EXPORT_DATA_FRAMES, u32_max in *;
  first [lia | apply Nat2Z.inj_lt; rewrite frames_of_response_budget; unfold MAX_RESPONSE_FRAMES; lia].

(** ** Usage summaries *)

Lemma usage_summary_round_trip `{!EnvelopeJsonLaws} request s frames c c1 T :
  req_body request = Req_UsageSummary (us_query s) -> UsageSummaryPlan_build (req_request_id request) s = Ok frames ->
  sent request SNAPSHOT_TOTAL_DEADLINE c c1 ->
  delivered T (client_now c + SNAPSHOT_TOTAL_DEADLINE) frames c1 ->
  exists c', request_usage_summary request c = (c', Ok s).
Proof.
  intros Hbody Hplan Hsent Hdel.
  apply UsageSummaryPlan_ok in Hplan as (chunks & Hframes & Hchunks & Hvalid & Hnil & Hlim).
  pose proof (plan_chunks _ _ _ _ _ _ _ Hframes Hlim) as Hmax.
  destruct (open_stream_done request _ response_budget c c1 T _ _ _ _ _ _ _ Hframes Hsent Hdel eq_refl)
    as (q & c2 & Ho & Ha & Hq); [done | done | done | by apply float_free_reads_back | by apply float_free_reads_back |].
  set (n := Z.of_nat (length chunks)) in *. set (total := Z.of_nat (length (us_applications s))) in *.
  set (start := usage_start s total n) in *.
  assert (Hquery : UsageSummaryQuery_validate (us_query s) = Ok tt /\ total <= MAX_USAGE_APPLICATIONS /\
            us_schema_version s = USAGE_SCHEMA_VERSION).
  { pose proof Hvalid as Hv. unfold UsageSummary_validate in Hv. guards Hv.
    apply result_bind_ok in Hv as ([] & Hquery & Hv). guards Hv. bool_facts. split_and!; [done | lia | done]. }
  destruct Hquery as (Hquery & Htotal & Hschema).
  assert (Hstart : validate_usage_start start (us_query s) = Ok tt).
  { unfold validate_usage_start. change (uss_total_records start) with total. change (uss_data_frame_count start) with n.
    unfold total, n. erewrite declaration_ok; [| exact Hchunks | exact Hmax].
    cbn [result_bind]. apply guard_ok. simpl. rewrite eqb_refl, Hquery, Hschema, !Z.eqb_refl.
    rewrite !orb_false_iff. split_and!; try done. fold total. lia. }
  destruct (records_received (take_usage start (us_snapshot_id s)) _ (us_applications s) chunks q
              (Resp_UsageSummaryEnd (usage_end s total n)) s (frames_of response_budget) T _ (req_request_id request) (us_snapshot_id s) _ Hchunks Ha)
    as (c' & Hl); [frame_bounds | fold n; frame_bounds | exact Hq | done | | |].
  - intros sq rest k p acc [Hk He] Hn Hu Hfr _ Hct Hcn. apply envelope_round_trip in He; [| done].
    eexists _, _. split; [exact He |]. split; [done |]. split; [reflexivity |].
    cbn [take_usage]. f_equal. unfold take_usage_chunk. rewrite Hcn, chunk_len_ok by lia. cbn [result_bind].
    rewrite Hu. cbn [ok_or result_bind]. change (uss_data_frame_count start) with n. fold n in Hfr. rewrite Hfr.
    change (uss_total_records start) with total. change (uss_total_applications start) with total.
    rewrite Hcn in Hct. unfold count in Hct at 2. fold total in Hct. by replace (total <? _) with false by lia.
  - cbn [take_usage]. f_equal. unfold validate_usage_end, count. simpl. fold total n.
    rewrite !Z.eqb_refl, !eqb_refl, String.eqb_refl, Bool.eqb_reflx. cbn [negb orb result_bind].
    assert (Hs : received_usage start (us_snapshot_id s) (us_applications s) = s) by (unfold received_usage, start; simpl; by destruct s).
    by rewrite Hs, Hvalid.
  - exists c'. unfold request_usage_summary. rewrite Hbody, (protocol_run _ _ _ tt) by (by rewrite Hquery).
    rewrite (bind_run _ _ _ _ _ Ho). cbv beta iota. rewrite (protocol_run _ _ _ tt) by done. cbn [resp_body response].
    rewrite (protocol_run _ _ _ (us_snapshot_id s)) by (by apply stream_identity_some). fold start.
    by rewrite (protocol_run _ _ _ tt) by exact Hstart.
Qed.

(** ** Telemetry snapshots *)

Lemma telemetry_snapshot_round_trip request s frames c c1 T :
  req_body request = Req_TelemetrySnapshot -> SnapshotPlan_build (req_request_id request) s = Ok frames ->
  (forall r, reads_back frames r) -> sent request SNAPSHOT_TOTAL_DEADLINE c c1 ->
  delivered T (client_now c + SNAPSHOT_TOTAL_DEADLINE) frames c1 ->
  exists c', request_telemetry_snapshot request c = (c', Ok s).
Proof.
  intros Hbody Hplan Hjson Hsent Hdel.
  apply SnapshotPlan_ok in Hplan as (chunks & Hframes & Hchunks & Hschema & Hnil & Htotal & Hlim).
  pose proof (plan_chunks _ _ _ _ _ _ _ Hframes Hlim) as Hmax.
  destruct (open_stream_done request _ response_budget c c1 T _ _ _ _ _ _ _ Hframes Hsent Hdel eq_refl)
    as (q & c2 & Ho & Ha & Hq); [done | done | done | apply Hjson | apply Hjson |].
  set (n := Z.of_nat (length chunks)) in *. set (total := Z.of_nat (length (tel_applications s))) in *.
  set (start := snapshot_start s total n) in *.
  assert (Hstart : validate_start start = Ok tt).
  { pose proof (declaration_ok _ _ _ _ Hchunks Hmax) as Hd. unfold validate_stream_declaration in Hd.
    apply result_bind_ok in Hd as (x & Hx & Hd). apply guard_ok in Hd. unfold validate_start.
    change (ss_data_frame_count start) with n. fold n in Hx. rewrite Hx. cbn [result_bind]. apply guard_ok.
    fold total n in Hd. simpl. rewrite Hschema, !Z.eqb_refl, !orb_false_iff in *. unfold MAX_APPLICATION_RECORDS, MAX_TOTAL_RECORDS in *.
    destruct Hd as [[[? ?] ?] ?]. split_and!; try done; lia. }
  assert (Hin : Forall (fun p => p ∈ frames) chunks).
  { destruct Hframes as (p0 & q0 & -> & _). apply Forall_forall. intros x Hx. right. apply elem_of_app. by left. }
  destruct (records_received (take_telemetry start (tel_snapshot_id s)) _ (tel_applications s) chunks q
              (Resp_SnapshotEnd (snapshot_end s total n)) s (frames_of response_budget) T _ (req_request_id request) (tel_snapshot_id s) _
              (chunked_with _ _ _ _ _ Hchunks Hin) Ha)
    as (c' & Hl); [frame_bounds | fold n; frame_bounds | exact Hq | done | | |].
  - intros sq rest k p acc [[Hk He] Hp] Hn Hu Hfr _ Hct Hcn. apply Hjson in He; [| done].
    eexists _, _. split; [exact He |]. split; [done |]. split; [reflexivity |].
    cbn [take_telemetry]. f_equal. unfold take_application_chunk. rewrite Hcn.
    replace ((Z.of_nat k =? 0) || (MAX_CHUNK_RECORDS <? Z.of_nat k)) with false by lia.
    rewrite Hu. cbn [ok_or result_bind]. change (ss_data_frame_count start) with n. fold n in Hfr. rewrite Hfr.
    change (ss_total_records start) with total. change (ss_total_applications start) with total.
    rewrite Hcn in Hct. unfold count in Hct at 2. fold total in Hct. unfold MAX_APPLICATION_RECORDS, MAX_TOTAL_RECORDS in *.
    by replace (_ || _ || _) with false by lia.
  - cbn [take_telemetry]. f_equal. unfold validate_end, count. simpl. fold total n.
    rewrite !Z.eqb_refl, !eqb_refl, !String.eqb_refl, Bool.eqb_reflx. cbn [negb orb result_bind].
    f_equal. unfold received_snapshot, start. simpl. by destruct s.
  - exists c'. unfold request_telemetry_snapshot. rewrite Hbody, (bind_run _ _ _ _ _ Ho). cbv beta iota.
    rewrite (protocol_run _ _ _ tt) by done. cbn [resp_body response].
    rewrite (protocol_run _ _ _ (tel_snapshot_id s)) by (by apply stream_identity_some). fold start.
    rewrite (protocol_run _ _ _ tt) by exact Hstart. by rewrite (protocol_run _ _ _ 1) by done.
Qed.

(** ** Network snapshots *)

(** [ri] and [ra] are left of the interfaces and applications, in [k] frames. *)
Definition network_filling (s : NetworkSnapshot) (frames : Z) (ri : list NetworkInterfaceSample)
    (ra : list NetworkApplicationTraffic) (k : nat) (r : network_received) : Prop :=
  n_interfaces r ++ ri = net_interfaces s /\ n_applications r ++ ra = net_applications s /\
  n_data_frames r + Z.of_nat k = frames /\ 0 <= n_data_frames r /\
  n_total_records r = count (n_interfaces r) + count (n_applications r).

Lemma guard_then {A E} (b : bool) (e : E) (r : result A E) : b = false -> (fail_if b with e in r) = r.
Proof. by intros ->. Qed.

Lemma network_progress (s : NetworkSnapshot) start frames ri ra k n r :
  network_filling s frames ri ra (S k) r -> frames < u32_max ->
  ns_data_frame_count start = frames ->
  ns_total_records start = count (net_interfaces s) + count (net_applications s) ->
  n <= count ri + count ra ->
  checked_stream_progress start r n = Ok (n_data_frames r + 1, n_total_records r + n).
Proof.
  intros (Hi & Ha & Hk & Hd & Ht) Hmax Hf Hr Hn. unfold checked_stream_progress.
  assert (Hu : Prelude.checked_u32 (n_data_frames r + 1) = Some (n_data_frames r + 1)).
  { unfold Prelude.checked_u32. by replace (in_u32 _) with true by width. }
  rewrite Hu. cbn [ok_or result_bind]. rewrite Hf, Hr, <- Hi, <- Ha. unfold count in *. rewrite !length_app.
  apply guard_then. apply orb_false_iff. split; apply Z.ltb_ge; lia.
Qed.

Section NetworkSteps.
Context (s : NetworkSnapshot) (start : NetworkSnapshotStart) (frames : Z).
Hypothesis start_facts : frames < u32_max /\ ns_data_frame_count start = frames /\
  ns_total_records start = count (net_interfaces s) + count (net_applications s) /\
  ns_total_interfaces start = count (net_interfaces s) /\ ns_total_applications start = count (net_applications s).

Lemma take_interfaces_done ri ra k n r :
  network_filling s frames ri ra (S k) r /\ application_phase r = false ->
  (0 < n <= length ri)%nat -> Z.of_nat n <= MAX_CHUNK_RECORDS ->
  exists r', take_interfaces start r (take n ri) = Ok r' /\
    network_filling s frames (drop n ri) ra k r' /\ application_phase r' = false.
Proof.
  intros [Hf Hp] Hn Hm. destruct start_facts as (Hmax & Hfr & Hr & Hi & _).
  assert (Hc : count (take n ri) = Z.of_nat n) by (unfold count; rewrite length_take; lia).
  unfold take_interfaces. rewrite Hp, Hc, chunk_len_ok by lia. cbn [result_bind].
  rewrite (network_progress _ _ _ _ _ _ _ _ Hf Hmax Hfr Hr) by (unfold count; simpl; lia). cbn [result_bind].
  destruct Hf as (Hfi & Hfa & Hk & Hd & Ht). rewrite Hi, <- Hfi. unfold count at 1 2. rewrite length_app.
  rewrite guard_then by (apply Z.ltb_ge; lia). eexists. split; [done |]. split; [| done].
  unfold network_filling. simpl. rewrite <- app_assoc, firstn_skipn. split_and!; try done; try lia.
  rewrite Ht. unfold count in *. rewrite length_app. lia.
Qed.

Lemma take_applications_done ra k n r :
  network_filling s frames [] ra (S k) r -> (0 < n <= length ra)%nat -> Z.of_nat n <= MAX_CHUNK_RECORDS ->
  exists r', take_applications start r (take n ra) = Ok r' /\ network_filling s frames [] (drop n ra) k r'.
Proof.
  intros Hf Hn Hm. destruct start_facts as (Hmax & Hfr & Hr & _ & Ha).
  assert (Hc : count (take n ra) = Z.of_nat n) by (unfold count; rewrite length_take; lia).
  unfold take_applications. rewrite Hc, chunk_len_ok by lia. cbn [result_bind].
  rewrite (network_progress _ _ _ _ _ _ _ _ Hf Hmax Hfr Hr) by (unfold count; simpl; lia). cbn [result_bind].
  destruct Hf as (Hfi & Hfa & Hk & Hd & Ht). rewrite Ha, <- Hfa. unfold count at 1 2. rewrite length_app.
  rewrite guard_then by (apply Z.ltb_ge; lia). eexists. split; [done |].
  unfold network_filling. simpl. rewrite <- app_assoc, firstn_skipn. split_and!; try done; try lia.
  rewrite Ht. unfold count in *. rewrite length_app. lia.
Qed.
End NetworkSteps.

Lemma in_u32_small z : 0 <= z <= 4294967295 -> in_u32 z = true.
Proof. intros Hz. unfold in_u32, in_range, u32_max. apply andb_true_iff. split; apply Z.leb_le; lia. Qed.

Lemma network_start_ok s n cs ds e1 e2 q1 q2 : NetworkSnapshot_validate s = Ok tt ->
  chunked e1 q1 (net_interfaces s) cs -> chunked e2 q2 (net_applications s) ds ->
  n = Z.of_nat (length (cs ++ ds)) -> n + 2 <= MAX_RESPONSE_FRAMES ->
  validate_network_start (network_start s (count (net_interfaces s)) (count (net_applications s))
    (count (net_interfaces s) + count (net_applications s)) n) = Ok tt.
Proof.
  intros Hv Hc Hd -> Hmax. unfold NetworkSnapshot_validate in Hv. guards Hv. bool_facts.
  apply chunked_length in Hc as [Hc1 Hc2]. apply chunked_length in Hd as [Hd1 Hd2].
  rewrite length_app in *. unfold validate_network_start, validate_stream_declaration, Prelude.checked_u32.
  unfold network_start, count, MAX_RESPONSE_FRAMES in *. cbn [ns_total_records ns_data_frame_count ns_schema_version ns_total_interfaces ns_total_applications].
  rewrite in_u32_small by lia. cbn [ok_or result_bind].
  assert (Hzero : Bool.eqb (Z.of_nat (length (net_interfaces s)) + Z.of_nat (length (net_applications s)) =? 0)
                      (Z.of_nat (length cs + length ds) =? 0) = true).
  { apply eqb_true_iff. destruct cs, ds, (net_interfaces s), (net_applications s); simpl in *; try lia; naive_solver. }
  rewrite Hzero. unfold MAX_TOTAL_RECORDS, MAX_NETWORK_INTERFACES, MAX_NETWORK_APPLICATIONS in *.
  rewrite guard_then by (rewrite !orb_false_iff, negb_false_iff, !andb_false_iff, !Z.ltb_ge; lia). cbn [result_bind].
  apply guard_ok. rewrite !orb_false_iff, !negb_false_iff, !Z.eqb_eq, !Z.ltb_ge. lia.
Qed.

Lemma network_loop s start rid cs ds q frames T deadline fuel c :
  let sid := net_snapshot_id s in let n := Z.of_nat (length (cs ++ ds)) in
  let i := count (net_interfaces s) in let a := count (net_applications s) in
  start = network_start s i a (i + a) n -> NetworkSnapshot_validate s = Ok tt ->
  chunked (record_frame Resp_NetworkInterfaceChunk rid sid) 1 (net_interfaces s) cs ->
  chunked (record_frame Resp_NetworkApplicationChunk rid sid) (1 + Z.of_nat (length cs)) (net_applications s) ds ->
  Forall (fun p => p ∈ frames) (cs ++ ds) -> (forall r, reads_back frames r) -> awaiting T deadline ((cs ++ ds) ++ [q]) c ->
  (length (cs ++ ds) < fuel)%nat -> n < u32_max ->
  from_slice q = Ok (response rid (1 + n) (Some sid) (Resp_NetworkSnapshotEnd (network_end s i a (i + a) n))) ->
  exists c', stream_loop (take_network start sid) rid sid deadline fuel 1 no_network c = (c', Ok s).
Proof.
  intros sid n i a Hstart Hvalid Hc Hd Hin Hjson Ha Hfuel Hmax Hq.
  assert (Hfacts : n < u32_max /\ ns_data_frame_count start = n /\ ns_total_records start = i + a /\
            ns_total_interfaces start = i /\ ns_total_applications start = a) by (by rewrite Hstart).
  set (take_body := take_network start sid). rewrite <- app_assoc in Ha.
  apply Forall_app in Hin as [Hin1 Hin2]. pose proof (chunked_with _ _ _ _ _ Hc Hin1) as Hc1.
  pose proof (chunked_with _ _ _ _ _ Hd Hin2) as Hd1.
  assert (Hlen : length (cs ++ ds) = (length cs + length ds)%nat) by apply length_app.
  destruct (fun st Ha Hb Hx Hy => loop_chunks take_body rid sid T deadline _
              (fun ri k r => network_filling s n ri (net_applications s) (k + length ds) r /\ application_phase r = false)
              st 1 _ _ Hc1 (fuel - length cs)%nat no_network c (ds ++ [q]) Ha Hb Hx Hy) as (acc1 & c1 & [Hf1 _] & Ha1 & Hl1).
  { intros sq rest k p m acc [[Hk He] Hp'] Hn [Hf Hp].
    destruct (take_interfaces_done s start n Hfacts rest (net_applications s) (m + length ds) k acc (conj Hf Hp) Hn Hk)
      as (acc' & Ht & Hr'). exists (Resp_NetworkInterfaceChunk (take k rest)), acc'.
    split_and!; [by apply Hjson | done | cbn [take_body take_network]; by rewrite Ht | | ]; apply Hr'. }
  { exact Ha. }
  { split; [| done]. unfold network_filling. simpl. split_and!; [done | done | lia | lia | done]. }
  { lia. } { lia. }
  destruct (fun st Ha Hb Hx Hy => loop_chunks take_body rid sid T deadline _
              (fun ra k r => network_filling s n [] ra k r)
              st _ _ _ Hd1 (fuel - length cs - length ds)%nat acc1 c1 [q] Ha Hb Hx Hy) as (acc2 & c2 & Hf2 & Ha2 & Hl2).
  { intros sq rest k p m acc [[Hk He] Hp'] Hn Hf.
    destruct (take_applications_done s start n Hfacts rest m k acc Hf Hn Hk) as (acc' & Ht & Hr').
    exists (Resp_NetworkApplicationChunk (take k rest)), acc'.
    split_and!; [by apply Hjson | done | cbn [take_body take_network]; by rewrite Ht | exact Hr']. }
  { exact Ha1. } { exact Hf1. } { lia. } { lia. }
  replace (length ds + (fuel - length cs - length ds))%nat with (fuel - length cs)%nat in Hl2 by lia.
  replace (length cs + (fuel - length cs))%nat with fuel in Hl1 by lia.
  destruct (fuel - length cs - length ds)%nat as [| f] eqn:Hff; [lia |].
  replace (1 + Z.of_nat (length cs) + Z.of_nat (length ds)) with (1 + n) in Hl2 by lia.
  rewrite Hl1, Hl2. eapply loop_end; [exact Ha2 | exact Hq | done |].
  destruct Hf2 as (Hi & Hap & Hk & _ & Htot). rewrite app_nil_r in Hi, Hap. rewrite Z.add_0_r in Hk.
  unfold take_body. cbn [take_network]. unfold validate_network_end. rewrite Hi, Hap in Htot |- *. rewrite Hk, Htot, Hstart.
  cbn. fold i a n. rewrite !Z.eqb_refl. cbn [negb orb result_bind].
  assert (Hs : received_network (network_start s i a (i + a) n) sid acc2 = s).
  { unfold received_network. simpl. rewrite Hi, Hap. by destruct s. }
  by rewrite Hs, Hvalid.
Qed.

Lemma network_snapshot_round_trip request s frames c c1 T :
  req_body request = Req_NetworkSnapshot -> NetworkSnapshotPlan_build (req_request_id request) s = Ok frames ->
  (forall r, reads_back frames r) -> sent request SNAPSHOT_TOTAL_DEADLINE c c1 ->
  delivered T (client_now c + SNAPSHOT_TOTAL_DEADLINE) frames c1 ->
  exists c', request_network_snapshot request c = (c', Ok s).
Proof.
  intros Hbody Hplan Hjson Hsent Hdel.
  apply NetworkSnapshotPlan_ok in Hplan as (cs & ds & Hframes & Hc & Hd & Hvalid & Hnil & Hlim).
  pose proof (plan_chunks _ _ _ _ _ _ _ Hframes Hlim) as Hmax.
  destruct (open_stream_done request _ response_budget c c1 T _ _ _ _ _ _ _ Hframes Hsent Hdel eq_refl)
    as (q & c2 & Ho & Ha & Hq); [done | done | done | apply Hjson | apply Hjson |].
  pose proof (network_start_ok _ _ _ _ _ _ _ _ Hvalid Hc Hd eq_refl Hmax) as Hstart.
  assert (Hin : Forall (fun p => p ∈ frames) (cs ++ ds)).
  { destruct Hframes as (p0 & q0 & -> & _). apply Forall_forall. intros x Hx. right. apply elem_of_app. by left. }
  destruct (network_loop s _ (req_request_id request) cs ds q frames T _ (frames_of response_budget) c2 eq_refl Hvalid Hc Hd Hin Hjson Ha)
    as (c' & Hl); [frame_bounds | frame_bounds | exact Hq |].
  exists c'. unfold request_network_snapshot. rewrite Hbody, (bind_run _ _ _ _ _ Ho). cbv beta iota.
  rewrite (protocol_run _ _ _ tt) by done. cbn [resp_body response].
  rewrite (protocol_run _ _ _ (net_snapshot_id s)) by (by apply stream_identity_some).
  by rewrite (protocol_run _ _ _ tt) by exact Hstart.
Qed.

(** ** Pages of transfers *)

Section Transfers.
Context {J : Type} `{TaskCodec J}.

Lemma transfer_page_facts p : TransferPage_validate p = Ok tt ->
  TransferQuery_validate (TransferPublic.page_query p) = Ok tt /\
  count (page_tasks p) <= q_limit (TransferPublic.page_query p) <= MAX_TRANSFER_PAGE_TASKS /\
  existsb (fun t => is_err (validate_public t) || negb (TransferQuery_matches (TransferPublic.page_query p) t))
    (page_tasks p) = false /\
  exists e, Prelude.checked_u32 (q_offset (TransferPublic.page_query p) + count (page_tasks p)) = Some e /\
    (has_more p && ((count (page_tasks p) =? 0) || negb (eqb (next_offset p) (Some e)))
     || (negb (has_more p) && is_some (next_offset p))) = false.
Proof.
  unfold TransferPage_validate, count. intros Hv. apply result_bind_ok in Hv as ([] & Hq & Hv). guards Hv.
  apply result_bind_ok in Hv as (k & Hk & Hv). apply result_bind_ok in Hv as (e & He & Hv).
  unfold ok_or, Prelude.checked_u32 in Hk. destruct (in_u32 _) in Hk; [injection Hk as <- | discriminate].
  bool_facts. split; [done |]. split.
  { unfold TransferQuery_validate in Hq. guards Hq. bool_facts. lia. }
  split; [done |]. exists e. unfold ok_or in He. destruct (Prelude.checked_u32 _) in *; [injection He as -> | discriminate].
  split; [done |]. destruct (has_more p); apply guard_ok in Hv; simpl.
  - apply orb_false_iff in Hv as [Hl Hn]. rewrite Hn. apply Nat.eqb_neq in Hl. lia.
  - by rewrite Hv.
Qed.

Lemma existsb_take {X} (f : X -> bool) n l : existsb f l = false -> existsb f (take n l) = false.
Proof.
  intros Hf. rewrite <- (take_drop n l), existsb_app in Hf. apply orb_false_iff in Hf. tauto.
Qed.
Lemma existsb_suffix {X} (f : X -> bool) l1 l2 l : l1 ++ l2 = l -> existsb f l = false -> existsb f l2 = false.
Proof. intros <- Hf. rewrite existsb_app in Hf. apply orb_false_iff in Hf. tauto. Qed.

Lemma transfer_page_round_trip `{!EnvelopeJsonLaws} request p fresh frames c c1 T :
  req_body request = Req_Transfer (List (TransferPublic.page_query p)) -> is_nil fresh = false ->
  TransferPlan_page fresh (req_request_id request) p = Ok frames ->
  sent request SNAPSHOT_TOTAL_DEADLINE c c1 ->
  delivered T (client_now c + SNAPSHOT_TOTAL_DEADLINE) frames c1 ->
  exists c', request_transfer request c = (c', Ok (Output_Page p)).
Proof.
  intros Hbody Hnil Hplan Hsent Hdel.
  apply TransferPlan_page_ok in Hplan as (chunks & Hframes & Hchunks & Hvalid & Hlim).
  pose proof (plan_chunks _ _ _ _ _ _ _ Hframes Hlim) as Hmax.
  destruct (open_stream_done request _ response_budget c c1 T _ _ _ _ _ _ _ Hframes Hsent Hdel eq_refl)
    as (q & c2 & Ho & Ha & Hq); [done | done | done | by apply float_free_reads_back | by apply float_free_reads_back |].
  destruct (transfer_page_facts p Hvalid) as (Hquery & Hcount & Htasks & e & He & Hmore).
  set (n := Z.of_nat (length chunks)) in *. set (total := Z.of_nat (length (page_tasks p))) in *.
  change (count (page_tasks p)) with total in *.
  set (d := transfer_declaration p total n) in *.
  assert (Hstart : validate_transfer_start d (TransferPublic.page_query p) = Ok tt).
  { unfold validate_transfer_start. change (tp_total_tasks d) with total. change (tp_data_frame_count d) with n.
    unfold total, n. erewrite declaration_ok; [| exact Hchunks | exact Hmax].
    cbn [result_bind]. fold total. simpl. rewrite He. cbn [ok_or result_bind]. apply guard_ok.
    apply orb_false_iff in Hmore as [Hm1 Hm2]. rewrite Hm1, Hm2, eqb_refl, Hquery.
    rewrite !orb_false_iff. split_and!; try done; lia. }
  destruct (records_received (take_transfers d (List (TransferPublic.page_query p))) _ (page_tasks p) chunks q
              (Resp_TransferPageEnd d) (Output_Page p) (frames_of response_budget) T _ (req_request_id request)
              fresh _ Hchunks Ha)
    as (c' & Hl); [frame_bounds | fold n; frame_bounds | exact Hq | done | | |].
  - intros sq rest k bs acc [Hk Hb] Hn Hu Hfr Hall Hct Hcn. apply envelope_round_trip in Hb; [| done].
    eexists _, _. split; [exact Hb |]. split; [done |]. split; [reflexivity |].
    cbn [take_transfers]. f_equal. unfold take_tasks. rewrite Hcn, chunk_len_ok by lia. cbn [result_bind].
    rewrite existsb_take by (exact (existsb_suffix _ _ _ _ Hall Htasks)).
    rewrite Hu. cbn [ok_or result_bind]. change (tp_data_frame_count d) with n. fold n in Hfr. rewrite Hfr.
    change (tp_total_tasks d) with total. rewrite Hcn in Hct. change (count (page_tasks p)) with total in Hct.
    by replace (_ || _) with false by lia.
  - cbn [take_transfers]. f_equal. unfold validate_transfer_end, count. simpl. fold total n.
    rewrite !Z.eqb_refl, !eqb_refl, Bool.eqb_reflx. cbn [negb orb result_bind].
    assert (Hp : received_page d (page_tasks p) = p) by (unfold received_page, d; simpl; by destruct p).
    rewrite Hp, Hvalid. cbn [map_err result_bind]. unfold TransferOutput_validate_for. cbn [TransferCommand_validate].
    rewrite Hquery. cbn [result_bind]. by rewrite eqb_refl, Hvalid.
  - exists c'. unfold request_transfer. rewrite Hbody.
    rewrite (protocol_run _ _ _ tt) by (cbn [TransferCommand_validate]; by rewrite Hquery).
    rewrite (bind_run _ _ _ _ _ Ho). cbv beta iota. rewrite (protocol_run _ _ _ tt) by done. cbn [resp_body response].
    rewrite (protocol_run _ _ _ fresh) by (by apply stream_identity_some). fold d.
    by rewrite (protocol_run _ _ _ tt) by exact Hstart.
Qed.
End Transfers.

(** ** Pages of notes *)

Section Notes.
Context `{UuidFormat} `{Base64} `{Sha256}.

Lemma note_page_facts p : NotePage_validate p = Ok tt ->
  NoteQuery_validate (NotesDomain.page_query p) = Ok tt /\
  count (page_notes p) <= query_limit (NotesDomain.page_query p) /\
  existsb (fun n => is_err (NoteSummary_validate n)) (page_notes p) = false /\
  is_some (page_next_offset p) = page_has_more p.
Proof.
  unfold NotePage_validate, count. intros Hv. apply result_bind_ok in Hv as ([] & Hq & Hv). guards Hv.
  apply result_bind_ok in Hv as (e & He & Hv). apply guard_ok in Hv. bool_facts. split_and!; [done | lia | done |].
  rewrite Hv. destruct (page_has_more p); [| by injection He as <-].
  apply result_bind_ok in He as (x & _ & He). by injection He as <-.
Qed.

Lemma note_page_round_trip `{!EnvelopeJsonLaws} request p fresh frames c c1 T :
  req_body request = Req_Notes (C_List (NotesDomain.page_query p)) -> is_nil fresh = false ->
  NotesPlan_page fresh (req_request_id request) p = Ok frames ->
  sent request SNAPSHOT_TOTAL_DEADLINE c c1 ->
  delivered T (client_now c + SNAPSHOT_TOTAL_DEADLINE) frames c1 ->
  exists c', request_notes request c = (c', Ok (O_Page p)).
Proof.
  intros Hbody Hnil Hplan Hsent Hdel.
  apply NotesPlan_page_ok in Hplan as (chunks & Hframes & Hchunks & Hvalid & Hlim).
  pose proof (plan_chunks _ _ _ _ _ _ _ Hframes Hlim) as Hmax.
  destruct (open_stream_done request _ response_budget c c1 T _ _ _ _ _ _ _ Hframes Hsent Hdel eq_refl)
    as (q & c2 & Ho & Ha & Hq); [done | done | done | by apply float_free_reads_back | by apply float_free_reads_back |].
  destruct (note_page_facts p Hvalid) as (Hquery & Hcount & Hnotes & Hmore).
  set (n := Z.of_nat (length chunks)) in *. set (total := Z.of_nat (length (page_notes p))) in *.
  change (count (page_notes p)) with total in *.
  set (d := notes_declaration p total n) in *.
  assert (Hstart : validate_notes_page_start d (NotesDomain.page_query p) = Ok tt).
  { unfold validate_notes_page_start. change (np_total_notes d) with total. change (np_data_frame_count d) with n.
    unfold total, n. erewrite declaration_ok; [| exact Hchunks | exact Hmax].
    cbn [result_bind]. fold total. apply guard_ok. simpl. rewrite eqb_refl, Hquery.
    rewrite !orb_false_iff. split_and!; try done; try lia; rewrite <- Hmore; by destruct (page_next_offset p). }
  destruct (records_received (take_notes d) _ (page_notes p) chunks q
              (Resp_NotesPageEnd d) (O_Page p) (frames_of response_budget) T _ (req_request_id request)
              fresh _ Hchunks Ha)
    as (c' & Hl); [frame_bounds | fold n; frame_bounds | exact Hq | done | | |].
  - intros sq rest k bs acc [Hk Hb] Hn Hu Hfr Hall Hct Hcn. apply envelope_round_trip in Hb; [| done].
    eexists _, _. split; [exact Hb |]. split; [done |]. split; [reflexivity |].
    cbn [take_notes]. f_equal. unfold take_summaries. rewrite Hcn, chunk_len_ok by lia. cbn [result_bind].
    rewrite existsb_take by (exact (existsb_suffix _ _ _ _ Hall Hnotes)).
    rewrite Hu. cbn [ok_or result_bind]. change (np_data_frame_count d) with n. fold n in Hfr. rewrite Hfr.
    change (np_total_notes d) with total. rewrite Hcn in Hct. change (count (page_notes p)) with total in Hct.
    by replace (_ || _) with false by lia.
  - cbn [take_notes]. f_equal. unfold validate_notes_page_end, count. simpl. fold total n.
    rewrite !Z.eqb_refl, !eqb_refl, Bool.eqb_reflx. cbn [negb orb result_bind].
    assert (Hp : {| NotesDomain.page_query := NotesDomain.page_query p; page_notes := page_notes p;
                    page_has_more := page_has_more p; page_next_offset := page_next_offset p |} = p) by (by destruct p).
    by rewrite Hp, Hvalid.
  - exists c'. unfold request_notes. rewrite Hbody.
    rewrite (protocol_run _ _ _ tt) by (unfold NotesCommand_validate; by rewrite Hquery).
    cbv zeta. cbn [notes_response_budget]. rewrite (bind_run _ _ _ _ _ Ho). cbv beta iota. rewrite (protocol_run _ _ _ tt) by done. cbn [resp_body response].
    rewrite (protocol_run _ _ _ fresh) by (by apply stream_identity_some). fold d.
    rewrite (protocol_run _ _ _ (NotesDomain.page_query p)) by done.
    by rewrite (protocol_run _ _ _ tt) by exact Hstart.
Qed.

(** ** Documents and exports *)

Lemma content_frame_count rid sid total s rest chunks : chunked (content_frame rid sid total) s rest chunks ->
  Z.of_nat (length chunks) = div_ceil (count rest) NOTE_CONTENT_CHUNK_BYTES.
Proof.
  unfold count, div_ceil. assert (HK : 0 < NOTE_CONTENT_CHUNK_BYTES) by done.
  induction 1 as [s | s rest n p ps Hn He Hc IH].
  { simpl length. rewrite Z.add_0_l, Z.div_small; [done | lia]. }
  destruct He as [Hmin _]. rewrite length_drop in IH. simpl length. rewrite Nat2Z.inj_succ, IH.
  set (K := NOTE_CONTENT_CHUNK_BYTES) in *. clearbody K.
  destruct (Z.le_gt_cases K (Z.of_nat (length rest))) as [Hle | Hlt].
  - replace (Z.of_nat (length rest - n)) with (Z.of_nat (length rest) - K) by lia.
    replace (Z.of_nat (length rest) + K - 1) with (Z.of_nat (length rest) - K + K - 1 + 1 * K) by lia.
    rewrite Z.div_add by lia. lia.
  - replace (Z.of_nat (length rest - n)) with 0 by lia. rewrite (Z.div_small (0 + K - 1)) by lia.
    replace (Z.of_nat (length rest) + K - 1) with (Z.of_nat (length rest) - 1 + 1 * K) by lia.
    rewrite Z.div_add by lia. rewrite Z.div_small by lia. lia.
Qed.

Lemma base64_chunk_fits `{!Base64Laws} n l : (0 < n <= length l)%nat -> Z.of_nat n <= NOTE_CONTENT_CHUNK_BYTES ->
  len (base64_encode (take n l)) <= MAX_NOTE_CONTENT_BASE64_BYTES.
Proof.
  intros Hn Hk. rewrite base64_length, length_take, Nat.min_l by lia.
  unfold NOTE_CONTENT_CHUNK_BYTES, MAX_NOTE_CONTENT_BASE64_BYTES in *.
  pose proof (Z.div_mod (Z.of_nat n + 2) 3 ltac:(lia)). pose proof (Z.mod_pos_bound (Z.of_nat n + 2) 3). lia.
Qed.

Lemma content_round_trip `{!EnvelopeJsonLaws} `{!Base64Laws} request command kind note content digest fresh m w
    frames o c c1 T :
  req_body request = Req_Notes command -> NotesCommand_validate command = Ok tt ->
  notes_response_budget command = WireBudget_new m w -> 0 <= m < u32_max -> 0 <= w <= u64_max ->
  is_nil fresh = false -> valid_utf8 (bytes content) = true ->
  NotesPlan_content fresh (req_request_id request) kind note content digest m w = Ok frames ->
  (let s := {| nc_schema_version := NOTES_SCHEMA_VERSION; nc_kind := kind; nc_note := note;
               nc_total_bytes := len content; nc_content_sha256 := digest;
               nc_data_frame_count := div_ceil (len content) NOTE_CONTENT_CHUNK_BYTES |} in
   validate_notes_content_start s command = Ok tt /\ received_content s command content = Ok o) ->
  sent request SNAPSHOT_TOTAL_DEADLINE c c1 ->
  delivered T (client_now c + SNAPSHOT_TOTAL_DEADLINE) frames c1 ->
  exists c', request_notes request c = (c', Ok o).
Proof.
  intros Hbody Hcommand Hbudget Hm Hw Hnil Hutf Hplan [Hstart Hout] Hsent Hdel.
  apply NotesPlan_content_ok in Hplan as (chunks & Hframes & Hchunks & Hsha & Hlim); [| lia].
  pose proof (plan_frames_length _ _ _ _ _ _ Hframes) as Hlen. pose proof (content_frame_count _ _ _ _ _ _ Hchunks) as Hceil.
  unfold count in Hceil. rewrite length_bytes in Hceil.
  destruct (open_stream_done request _ (notes_response_budget command) c c1 T _ _ _ _ _ _ _ Hframes Hsent Hdel Hbudget)
    as (q & c2 & Ho & Ha & Hq); [unfold u64_max, u32_max in *; lia | done | done | by apply float_free_reads_back | by apply float_free_reads_back |].
  assert (Hmax : Z.of_nat (length chunks) + 2 <= m) by (destruct Hlim as (_ & ? & _); lia).
  set (n := Z.of_nat (length chunks)) in *. set (l := bytes content) in *.
  assert (Hl : Z.of_nat (length l) = len content) by apply length_bytes. rewrite Hl, Hceil in Hq, Ho.
  match type of Ho with context [Resp_NotesContentStart ?x] => set (start := x) in * end.
  destruct (records_received (take_content start command) _ l chunks q
              (Resp_NotesContentEnd {| nce_schema_version := NOTES_SCHEMA_VERSION; nce_kind := kind;
                 nce_total_bytes := len content; nce_content_sha256 := digest;
                 nce_data_frame_count := div_ceil (len content) NOTE_CONTENT_CHUNK_BYTES |}) o
              (frames_of (notes_response_budget command)) T _ (req_request_id request) fresh _ Hchunks Ha)
    as (c' & Hloop).
  - rewrite Hbudget. unfold frames_of. simpl. lia.
  - fold n. lia.
  - fold n. rewrite Hceil. exact Hq.
  - done.
  - intros sq rest k bs acc [Hk Hb] Hn Hu Hfr Hall Hct Hcn. apply envelope_round_trip in Hb; [| done].
    assert (Hk' : Z.of_nat k <= NOTE_CONTENT_CHUNK_BYTES) by (unfold NOTE_CONTENT_CHUNK_BYTES in *; lia).
    assert (Hbytes : Forall is_byte (take k rest)).
    { apply Forall_take. pose proof (bytes_are_bytes content) as Hx. fold l in Hx. rewrite <- Hall in Hx.
      by apply Forall_app in Hx as [_ Hx]. }
    eexists _, _. split; [exact Hb |]. split; [done |]. split; [reflexivity |].
    cbn [take_content]. f_equal. unfold take_content_chunk. cbn [chunk_offset chunk_raw_bytes chunk_data_base64].
    assert (Hoff : Z.of_nat (length l - length rest) = count (items acc)).
    { unfold count. rewrite <- Hall, length_app. lia. }
    rewrite Hoff, Z.eqb_refl. replace (Z.of_nat k =? 0) with false by lia.
    replace (NOTE_CONTENT_CHUNK_BYTES <? Z.of_nat k) with false by lia.
    pose proof (base64_chunk_fits k rest Hn Hk'). replace (MAX_NOTE_CONTENT_BASE64_BYTES <? _) with false by lia.
    cbn [negb orb]. rewrite base64_round_trip by done. cbn [ok_or result_bind]. rewrite Hcn, Z.eqb_refl. cbn [negb].
    rewrite Hu. cbn [ok_or result_bind]. change (nc_data_frame_count start) with (div_ceil (len content) NOTE_CONTENT_CHUNK_BYTES).
    rewrite <- Hceil. fold n in Hfr. rewrite Hfr. change (nc_total_bytes start) with (len content).
    rewrite Hcn in Hct. unfold count in Hct at 2. by replace (_ || _) with false by lia.
  - cbn [take_content]. f_equal. unfold validate_notes_content_end, count. simpl. fold n.
    rewrite Hl, Hceil, !Z.eqb_refl, !eqb_refl, String.eqb_refl. cbn [negb orb result_bind].
    rewrite Hsha, String.eqb_refl, Hutf. unfold l. rewrite bytes_string. exact Hout.
  - exists c'. unfold request_notes. rewrite Hbody, (protocol_run _ _ _ tt) by (by rewrite Hcommand).
    cbv zeta. rewrite (bind_run _ _ _ _ _ Ho). cbv beta iota. rewrite (protocol_run _ _ _ tt) by done. cbn [resp_body response].
    rewrite (protocol_run _ _ _ fresh) by (by apply stream_identity_some).
    by rewrite (protocol_run _ _ _ tt) by exact Hstart.
Qed.

Lemma frames_expected n : (if n =? 0 then 0 else div_ceil n NOTE_CONTENT_CHUNK_BYTES) = div_ceil n NOTE_CONTENT_CHUNK_BYTES.
Proof. destruct (n =? 0) eqn:Hn; [| done]. apply Z.eqb_eq in Hn as ->. done. Qed.

Lemma note_document_round_trip `{!EnvelopeJsonLaws} `{!Base64Laws} request d fresh frames c c1 T :
  req_body request = Req_Notes (C_Get (sum_id (doc_summary d))) -> is_nil fresh = false ->
  valid_utf8 (bytes (doc_body_markdown d)) = true ->
  NotesPlan_document fresh (req_request_id request) d = Ok frames ->
  sent request SNAPSHOT_TOTAL_DEADLINE c c1 ->
  delivered T (client_now c + SNAPSHOT_TOTAL_DEADLINE) frames c1 ->
  exists c', request_notes request c = (c', Ok (O_Document d)).
Proof.
  intros Hbody Hnil Hutf Hplan. unfold NotesPlan_document in Hplan. apply result_bind_ok in Hplan as ([] & Hd & Hplan).
  apply map_err_ok in Hd. pose proof Hd as Hd'. unfold NoteDocument_validate in Hd'.
  apply result_bind_ok in Hd' as ([] & Hs & Hl). apply guard_ok in Hl. bool_facts.
  assert (Hfacts : is_some (parse_str (sum_id (doc_summary d))) = true /\
            sum_body_bytes (doc_summary d) <= MAX_NOTE_BODY_BYTES /\ validate_sha256 (sum_body_sha256 (doc_summary d)) = Ok tt).
  { pose proof Hs as Hs'. unfold NoteSummary_validate in Hs'. guards Hs'.
    apply result_bind_ok in Hs' as ([] & _ & Hs'). guards Hs'. bool_facts. split_and!; [by destruct (parse_str _) | lia | done]. }
  destruct Hfacts as (Hid & Hsize & Hsha).
  eapply content_round_trip; [exact Hbody | | reflexivity | done | done | done | exact Hutf | exact Hplan |].
  - unfold NotesCommand_validate. by rewrite Hid.
  - simpl. split.
    + unfold validate_notes_content_start. simpl. rewrite frames_expected, Z.eqb_refl, Hs, Hsha, <- Hl, Z.eqb_refl, String.eqb_refl.
      by replace (_ <=? MAX_NOTE_BODY_BYTES) with true by lia.
    + unfold received_content. simpl. rewrite !String.eqb_refl. simpl.
      assert (Hdd : {| doc_summary := doc_summary d; doc_body_markdown := doc_body_markdown d |} = d) by (by destruct d).
      by rewrite Hdd, Hd.
Qed.

Lemma note_export_round_trip `{!EnvelopeJsonLaws} `{!Base64Laws} request query e fresh frames c c1 T :
  req_body request = Req_Notes (C_Export query (export_format e)) -> NoteQuery_validate query = Ok tt ->
  is_nil fresh = false -> valid_utf8 (bytes (export_content e)) = true ->
  NotesPlan_export fresh (req_request_id request) e = Ok frames ->
  sent request SNAPSHOT_TOTAL_DEADLINE c c1 ->
  delivered T (client_now c + SNAPSHOT_TOTAL_DEADLINE) frames c1 ->
  exists c', request_notes request c = (c', Ok (O_Export e)).
Proof.
  intros Hbody Hquery Hnil Hutf Hplan. unfold NotesPlan_export in Hplan. apply result_bind_ok in Hplan as ([] & He & Hplan).
  apply map_err_ok in He. pose proof He as He'. unfold NoteExport_validate in He'. guards He'. bool_facts.
  eapply content_round_trip; [exact Hbody | | reflexivity | done | done | done | exact Hutf | exact Hplan |].
  - unfold NotesCommand_validate. by rewrite Hquery.
  - simpl. split.
    + unfold validate_notes_content_start. simpl. rewrite frames_expected, Z.eqb_refl, He', eqb_refl.
      by replace (_ <=? MAX_NOTE_EXPORT_BYTES) with true by lia.
    + unfold received_content. simpl. rewrite eqb_refl. simpl.
      assert (Hee : {| export_format := export_format e; export_content := export_content e;
                export_content_bytes := len (export_content e); export_content_sha256 := export_content_sha256 e |} = e)
        by (destruct e; simpl in *; congruence).
      by rewrite Hee, He.
Qed.
End Notes.
End RoundTrip.
