(* ===== verification/IpcStreams.v ===== *)
(** What the daemon and its clients promise over the wire: the streams that are
    planned are bounded and read back, the answers that are taken are the ones
    asked for, and no request waits for ever - nor for as long as it says. *)
From S2P Require Import Prelude Text Encoding RemoteCore Terminal TransferModel TransferPublic Domain NotesDomain Frame FrameFacts IpcMessage IpcPlan IpcPlanFacts IpcClient IpcClientFacts IpcRoundTrip.

Section Streams.
Context `{Json RequestEnvelope} `{Json ResponseEnvelope} `{Base64} `{UuidFormat} `{Sha256} {J : Type} `{TaskCodec J}.

(** The request a stream answers. *)
Definition asks_for (b : RequestBody) (x : streamed) : Prop :=
  match x with
  | Stream_telemetry s => b = Req_TelemetrySnapshot
  | Stream_network s => b = Req_NetworkSnapshot
  | Stream_usage s => b = Req_UsageSummary (us_query s)
  | Stream_transfers p => b = Req_Transfer (List (TransferPublic.page_query p))
  | Stream_notes p => b = Req_Notes (C_List (NotesDomain.page_query p))
  | Stream_document d => b = Req_Notes (C_Get (sum_id (doc_summary d)))
  | Stream_export e =>
      exists query, b = Req_Notes (C_Export query (export_format e)) /\ NoteQuery_validate query = Ok tt
  end.

(** The client's function for it gives just what was streamed. *)
Definition receives (x : streamed) (request : RequestEnvelope) (c c' : Client) : Prop :=
  match x with
  | Stream_telemetry s => request_telemetry_snapshot request c = (c', Ok s)
  | Stream_network s => request_network_snapshot request c = (c', Ok s)
  | Stream_usage s => request_usage_summary request c = (c', Ok s)
  | Stream_transfers p => request_transfer request c = (c', Ok (Output_Page p))
  | Stream_notes p => request_notes request c = (c', Ok (O_Page p))
  | Stream_document d => request_notes request c = (c', Ok (O_Document d))
  | Stream_export e => request_notes request c = (c', Ok (O_Export e))
  end.

(** What the texts and numbers of a stream have to be: a Rust [String] is UTF-8;
    the floating-point numbers of samples have to survive their JSON. *)
Definition readable (x : streamed) (frames : list (list Z)) : Prop :=
  match x with
  | Stream_telemetry _ | Stream_network _ => forall r, reads_back frames r
  | Stream_document d => valid_utf8 (bytes (doc_body_markdown d)) = true
  | Stream_export e => valid_utf8 (bytes (export_content e)) = true
  | _ => True
  end.

Lemma stream_reads_back `{!EnvelopeJsonLaws} `{!Base64Laws} x request fresh frames c c1 T :
  asks_for (req_body request) x -> is_nil fresh = false -> plan_of fresh (req_request_id request) x = Ok frames ->
  readable x frames -> sent request SNAPSHOT_TOTAL_DEADLINE c c1 ->
  delivered T (client_now c + SNAPSHOT_TOTAL_DEADLINE) frames c1 ->
  exists c', receives x request c c'.
Proof.
  destruct x; cbn [asks_for plan_of readable receives]; intros Hask Hnil Hplan Hread Hsent Hdel.
  - by eapply telemetry_snapshot_round_trip.
  - by eapply network_snapshot_round_trip.
  - by eapply usage_summary_round_trip.
  - by eapply transfer_page_round_trip.
  - by eapply note_page_round_trip.
  - by eapply note_document_round_trip.
  - destruct Hask as (query & Hask & Hq). by eapply note_export_round_trip.
Qed.


(** C35: Every stream that is planned stays within the limits of its kind: the number
    of frames, the bytes of each and the bytes of all with their prefixes. *)
Theorem plans_stay_within_limits fresh rid x frames : plan_of fresh rid x = Ok frames ->
  Z.of_nat (length frames) <= frame_limit x /\
  Forall (fun p => 1 <= Z.of_nat (length p) <= MAX_FRAME_PAYLOAD_BYTES) frames /\
  wire_size frames <= wire_limit x.
Proof.
  intros Hplan. apply plan_within_limits in Hplan as (Hs & Hl & Hw). split_and!; [done | | done].
  eapply Forall_impl; [exact Hs |]. intros p [Hp Hb]. unfold MAX_FRAME_PAYLOAD_BYTES in *. lia.
Qed.

(** ** Answers *)

Inductive client_answer :=
| A_Health (r : HealthReport) | A_Telemetry (s : TelemetrySnapshot) | A_Network (s : NetworkSnapshot)
| A_Usage (s : UsageSummary) | A_Capabilities (c : RemoteAdapterCatalog) | A_SystemInfo (r : SystemInfoReport)
| A_Profile (r : RemoteProfileResult) | A_Secret (r : SecretCommandResult) | A_Session (r : RemoteSessionResult)
| A_Notes (o : NotesOutput) | A_Terminal (r : TerminalResult) | A_Transfer (o : TransferOutput)
| A_LocalHandle (g : TransferLocalHandleGrant) | A_Cancelled (r : SpeedTestCancelResult) | A_Deep (o : SpeedTestDeepOutput).

Definition answered {A} (m : client A) (inj : A -> client_answer) : client client_answer := a <- m ;; ret (inj a).

(** The request functions that give an answer; [request_speedtest_basic] calls back. *)
Definition request_answer (request : RequestEnvelope) : client client_answer :=
  match req_body request with
  | Req_Health _ => answered (request_health request) A_Health
  | Req_TelemetrySnapshot => answered (request_telemetry_snapshot request) A_Telemetry
  | Req_NetworkSnapshot => answered (request_network_snapshot request) A_Network
  | Req_UsageSummary _ => answered (request_usage_summary request) A_Usage
  | Req_RemoteCapabilities => answered (request_remote_capabilities request) A_Capabilities
  | Req_SystemInfo => answered (request_system_info request) A_SystemInfo
  | Req_RemoteProfile _ => answered (request_remote_profile request) A_Profile
  | Req_Secret _ => answered (request_secret request) A_Secret
  | Req_RemoteSession _ => answered (request_remote_session request) A_Session
  | Req_Notes _ => answered (request_notes request) A_Notes
  | Req_Terminal _ => answered (request_terminal request) A_Terminal
  | Req_Transfer _ => answered (request_transfer request) A_Transfer
  | Req_TransferLocalHandle _ => answered (request_transfer_local_handle request) A_LocalHandle
  | Req_SpeedTestBasic _ => fail (Client_Protocol Proto_RequestBody)
  | Req_SpeedTestCancel _ => answered (request_speedtest_cancel request) A_Cancelled
  | Req_SpeedTestDeep _ => answered (request_speedtest_deep request) A_Deep
  end.

(** An answer of the request's kind, for just what was asked, in a valid state. *)
Definition answer_fits (b : RequestBody) (a : client_answer) : Prop :=
  match b, a with
  | Req_Health h, A_Health r => map cap_id (capabilities r) = requested_capabilities h /\ report_health r <> Unreachable
  | Req_TelemetrySnapshot, A_Telemetry s => telemetry_ok s
  | Req_NetworkSnapshot, A_Network s => NetworkSnapshot_validate s = Ok tt /\ is_nil (net_snapshot_id s) = false
  | Req_UsageSummary q, A_Usage s => us_query s = q /\ UsageSummary_validate s = Ok tt
  | Req_RemoteCapabilities, A_Capabilities c => RemoteAdapterCatalog_validate c = Ok tt
  | Req_SystemInfo, A_SystemInfo r => SystemInfoReport_validate r = true
  | Req_RemoteProfile command, A_Profile r => RemoteProfileResult_validate_for r command = Ok tt
  | Req_Secret command, A_Secret r => SecretCommandResult_validate_for r command = Ok tt
  | Req_RemoteSession command, A_Session r => RemoteSessionResult_validate_for r command = Ok tt
  | Req_Notes command, A_Notes o => notes_answer_fits command o
  | Req_Terminal command, A_Terminal r => TerminalResult_validate_for r command = Ok tt
  | Req_Transfer command, A_Transfer o => TransferOutput_validate_for o command = Ok tt
  | Req_TransferLocalHandle _, A_LocalHandle g => TransferLocalHandleGrant_validate g = Ok tt
  | Req_SpeedTestCancel _, A_Cancelled r => SpeedTestCancelResult_validate r = true
  | Req_SpeedTestDeep command, A_Deep o => SpeedTestDeepOutput_validate_for o command = true
  | _, _ => False
  end.

Lemma ids_as_requested l ids : length l = length ids ->
  forallb (fun p => String.eqb (cap_id p.1) p.2) (zip l ids) = true -> map cap_id l = ids.
Proof.
  revert ids. induction l as [| r l IH]; intros [| i ids] Hl Hf; try done. simpl in Hf. bool_facts.
  simpl. f_equal; [by apply String.eqb_eq | apply IH; [by injection Hl | done]].
Qed.

Lemma health_report_fits_ok ids r : health_report_fits ids r = true ->
  map cap_id (capabilities r) = ids /\ report_health r <> Unreachable.
Proof.
  unfold health_report_fits. intros Hf. apply andb_true_iff in Hf as [Hf Hids]. apply andb_true_iff in Hf as [Hu Hl].
  split; [apply ids_as_requested; [by apply Nat.eqb_eq | done] |]. intros He. by rewrite He in Hu.
Qed.

(** The body that a request with one response has taken. *)
Ltac one_response Hx :=
  repeat match type of Hx with
    | bind (protocol _) _ _ = _ => apply bind_ok in Hx as (? & ? & _ & Hx)
    end;
  apply single_answer_ok in Hx as (response & Hx & _);
  destruct (resp_body response); try discriminate Hx; apply check_ok in Hx as [Hx ->].


(** ** Late answers *)

(** Nothing comes, nor does the stream end, by [T]. *)
Definition silent_until (T : Z) (s : Stream) : Prop :=
  (forall t chunk, (t, chunk) ∈ arrivals s -> T < t) /\ (forall t, stream_closed s = Some t -> T < t).

Lemma silent_header deadline idle r : silent_until (reader_now r + idle) (reader_stream r) -> 0 <= idle ->
  reader_now r + idle < deadline ->
  exists r', timed_read 4 deadline idle r = (r', Err IdleTimeout) /\ reader_now r' = reader_now r + idle.
Proof.
  intros [Ha Hc] Hi Hd. unfold timed_read. replace (deadline <=? reader_now r) with false by lia.
  unfold operation_deadline. rewrite Z.min_r by lia.
  assert (Htimeout : timeout_error (reader_now r + idle) deadline = IdleTimeout).
  { unfold timeout_error. by replace (reader_now r + idle =? deadline) with false by lia. }
  destruct (arrivals (reader_stream r)) as [| [t chunk] l]; cbn [read_exact].
  - destruct (stream_closed (reader_stream r)) as [t |].
    + specialize (Hc t eq_refl). replace (Z.max (reader_now r) t <=? reader_now r + idle) with false by lia.
      eexists. split; [by rewrite Htimeout | reflexivity].
    + eexists. split; [by rewrite Htimeout | reflexivity].
  - assert (Ht : reader_now r + idle < t) by (eapply Ha; by left).
    replace (reader_now r + idle <? Z.max (reader_now r) t) with true by lia.
    eexists. split; [by rewrite Htimeout | reflexivity].
Qed.

(** An answer of [request_system_info] that is not begun within two seconds of
    the request is never waited for: the ten seconds of the request's deadline
    are of no use. *)
Theorem late_system_info_times_out request c c1 :
  req_body request = Req_SystemInfo -> sent request SYSTEM_INFO_TOTAL_DEADLINE c c1 ->
  silent_until (client_now c1 + FRAME_IDLE_TIMEOUT) (inbound c1) ->
  client_now c1 + FRAME_IDLE_TIMEOUT < client_now c + SYSTEM_INFO_TOTAL_DEADLINE ->
  exists c2, request_system_info request c = (c2, Err (Failed (Client_Transport (Transport_Frame IdleTimeout)))) /\
    client_now c2 = client_now c1 + FRAME_IDLE_TIMEOUT.
Proof.
  intros Hbody Hs Hsilent Hlate. unfold sent in Hs. apply bind_ok in Hs as (c0 & [] & Hcon & Hsnd).
  set (c1' := fst (new_budget response_budget c1)).
  destruct (silent_header (client_now c + SYSTEM_INFO_TOTAL_DEADLINE) FRAME_IDLE_TIMEOUT (client_reader c1'))
    as (r' & Hr & Hn); [exact Hsilent | done | exact Hlate |].
  exists (put_reader r' c1'). split; [| exact Hn].
  unfold request_system_info. rewrite Hbody. unfold single_answer, open_exchange.
  unfold bind at 1. change (bind now ?k c) with (k (client_now c) c). cbv beta zeta.
  unfold bind at 1. rewrite Hcon. unfold bind at 1. rewrite Hsnd.
  change (bind (new_budget response_budget) ?k c1) with (k tt c1'). cbv beta.
  unfold bind at 1, read_response_with_idle_timeout, zoom, mut_map_err, read_json_with_idle_timeout,
    read_frame_with_idle_timeout. unfold bind at 1 2. by rewrite Hr.
Qed.
End Streams.

(** ** An export on the wire *)

#[local] Existing Instance identity_codec.
#[local] Existing Instance standard_base64.
#[local] Existing Instance standard_base64_laws.
#[local] Existing Instance checksum.
#[local] Instance small_uuids : UuidFormat := { uuid_to_string := fun u => hex [u]; parse_str := fun _ => Some 7 }.
#[local] Instance empty_requests : Json RequestEnvelope :=
  { to_vec := fun _ => Ok [123; 125]; from_slice := fun _ => Err "unexpected request"%string }.

Definition plan_text : string := "# plan".
Definition plan_export : NoteExport :=
  {| export_format := Export_Markdown; export_content := plan_text; export_content_bytes := 6;
     export_content_sha256 := sha256_hex (bytes plan_text) |}.
Definition plan_start : NotesContentStart :=
  {| nc_schema_version := NOTES_SCHEMA_VERSION; nc_kind := Content_Export Export_Markdown; nc_note := None;
     nc_total_bytes := 6; nc_content_sha256 := sha256_hex (bytes plan_text); nc_data_frame_count := 1 |}.
Definition plan_chunk : NotesContentChunk :=
  {| chunk_offset := 0; chunk_raw_bytes := 6; chunk_data_base64 := base64_encode (bytes plan_text) |}.
Definition plan_end : NotesContentEnd :=
  {| nce_schema_version := NOTES_SCHEMA_VERSION; nce_kind := Content_Export Export_Markdown; nce_total_bytes := 6;
     nce_content_sha256 := sha256_hex (bytes plan_text); nce_data_frame_count := 1 |}.

(** The number of a body of the export, for the JSON of its three envelopes. *)
Definition plan_number (b : ResponseBody) : option Z :=
  match b with
  | Resp_NotesContentStart {| nc_schema_version := v; nc_kind := k; nc_note := None; nc_total_bytes := t;
                              nc_content_sha256 := d; nc_data_frame_count := n |} =>
      if (v =? NOTES_SCHEMA_VERSION) && eqb k (Content_Export Export_Markdown) && (t =? 6)
         && eqb d (sha256_hex (bytes plan_text)) && (n =? 1) then Some 0 else None
  | Resp_NotesContentChunk {| chunk_offset := o; chunk_raw_bytes := n; chunk_data_base64 := d |} =>
      if (o =? 0) && (n =? 6) && eqb d (base64_encode (bytes plan_text)) then Some 1 else None
  | Resp_NotesContentEnd {| nce_schema_version := v; nce_kind := k; nce_total_bytes := t;
                            nce_content_sha256 := d; nce_data_frame_count := n |} =>
      if (v =? NOTES_SCHEMA_VERSION) && eqb k (Content_Export Export_Markdown) && (t =? 6)
         && eqb d (sha256_hex (bytes plan_text)) && (n =? 1) then Some 2 else None
  | _ => None
  end.

#[local] Instance plan_json : Json ResponseEnvelope := {
  to_vec := fun r =>
    match plan_number (resp_body r) with
    | Some n =>
        if (resp_protocol_version r =? WIRE_PROTOCOL_VERSION) && (resp_request_id r =? 1)
           && (resp_sequence r =? n) && eqb (resp_snapshot_id r) (Some 5)
        then Ok [91; 48 + n; 93] else Err "another envelope"%string
    | None => Err "another body"%string
    end;
  from_slice := fun p =>
    let read n body := Ok (response 1 n (Some 5) body) in
    if eqb p [91; 48; 93] then read 0 (Resp_NotesContentStart plan_start)
    else if eqb p [91; 49; 93] then read 1 (Resp_NotesContentChunk plan_chunk)
    else if eqb p [91; 50; 93] then read 2 (Resp_NotesContentEnd plan_end)
    else Err "another envelope"%string;
}.

Lemma plan_number_body b n : plan_number b = Some n ->
  (n = 0 /\ b = Resp_NotesContentStart plan_start) \/ (n = 1 /\ b = Resp_NotesContentChunk plan_chunk) \/
  (n = 2 /\ b = Resp_NotesContentEnd plan_end).
Proof.
  destruct b; try discriminate; simpl.
  - destruct s as [v k [note |] t d m]; [discriminate |]. destruct (_ && _) eqn:Hb; [| discriminate].
    intros [= <-]. bool_facts. subst. by left.
  - destruct c as [o m d]. destruct (_ && _) eqn:Hb; [| discriminate]. intros [= <-]. bool_facts. subst. by right; left.
  - destruct e as [v k t d m]. destruct (_ && _) eqn:Hb; [| discriminate].
    intros [= <-]. bool_facts. subst. by right; right.
Qed.

#[local] Instance plan_json_laws : EnvelopeJsonLaws.
Proof.
  intros [v rid q sid body] p _. cbn [to_vec plan_json resp_body resp_protocol_version resp_request_id resp_sequence resp_snapshot_id].
  destruct (plan_number body) as [n |] eqn:Hn; [| discriminate]. destruct (_ && _) eqn:Hb; [| discriminate].
  intros [= <-]. bool_facts. subst. by apply plan_number_body in Hn as [[-> ->] | [[-> ->] | [-> ->]]].
Qed.

Definition export_request : RequestEnvelope :=
  {| req_protocol_version := WIRE_PROTOCOL_VERSION; req_request_id := 1;
     req_body := Req_Notes (C_Export NoteQuery_default Export_Markdown) |}.
Definition plan_frames_sent : list (list Z) := [[91; 48; 93]; [91; 49; 93]; [91; 50; 93]].

(** A client of the daemon at the other end, which sends [frames] at 20 ms. *)
Definition client_of (frames : list (list Z)) : Client :=
  {| client_now := 0; connected_at := 1; connect_error := None; peer_credentials := Some 1000; effective_uid := 1000;
     inbound := {| arrivals := [(20, Ok (concat (map frame_of frames)))]; stream_closed := Some 21 |};
     budget := response_budget; outbound := []; outbound_steps := [] |}.


Lemma plans_stay_within_limits_witness : wire_size plan_frames_sent <= MAX_NOTES_EXPORT_WIRE_BYTES.
Proof.
  refine (proj2 (proj2 (plans_stay_within_limits 5 1 (Stream_export plan_export) plan_frames_sent _))).
  vm_compute. reflexivity.
Defined.


Definition system_info_request : RequestEnvelope :=
  {| req_protocol_version := WIRE_PROTOCOL_VERSION; req_request_id := 1; req_body := Req_SystemInfo |}.

(** An answer that comes after three seconds. *)
Definition late_client : Client :=
  {| client_now := 0; connected_at := 1; connect_error := None; peer_credentials := Some 1000; effective_uid := 1000;
     inbound := {| arrivals := [(3000, Ok [0])]; stream_closed := None |};
     budget := response_budget; outbound := []; outbound_steps := [] |}.

Lemma late_system_info_times_out_witness : exists c2,
  request_system_info system_info_request late_client =
    (c2, Err (Failed (Client_Transport (Transport_Frame IdleTimeout)))) /\ client_now c2 = 2001.
Proof.
  refine (late_system_info_times_out system_info_request late_client
            ((connect 10000 ;;; send system_info_request 10000) late_client).1 _ _ _ _).
  - reflexivity.
  - vm_compute. reflexivity.
  - split.
    + intros t chunk Hin. apply list_elem_of_In in Hin as [Hin | []]. injection Hin as <- <-. vm_compute. reflexivity.
    + intros t. vm_compute. discriminate.
  - vm_compute. reflexivity.
Defined.

