(* ===== verification/IpcServer.v ===== *)
(** [crates/ipc/src/server.rs]: the daemon's side of a connection, and the loop
    that accepts them. The plans of the streams are in [IpcPlan].

    A [Connection] is the clock, the peer, the bytes that arrive and how the
    writes go, what has been written, the free permits of the daemon's
    semaphores and the world the providers act on. A provider is a program: what
    it does when called at a time in a world is a [call] - when it ends, what it
    gives and leaves, and what it leaves when it is dropped before.

    Computation takes no time; times are milliseconds. The loop of a terminal
    stream, which ends when the terminal does, carries fuel; running out is
    [Unfinished], which the code does not have. *)
From S2P Require Import Prelude Text Encoding RemoteCore Terminal TransferModel TransferPublic Domain NotesDomain Frame IpcMessage IpcPlan IpcClient.

Definition MAX_CONNECTIONS : Z := 32.
Definition MAX_SNAPSHOT_STREAMS : Z := 4.
Definition SHUTDOWN_GRACE : Z := 6000.
Definition TERMINAL_STREAM_IDLE_INTERVAL : Z := 16.
Definition TERMINAL_STREAM_STATUS_INTERVAL : Z := 100.
Definition TERMINAL_STREAM_HEARTBEAT_INTERVAL : Z := 1000.

(** ** Errors *)

Record SnapshotProviderError := { provider_code : string; provider_reason : string; provider_retryable : bool }.
Definition SnapshotProviderError_new (code reason : string) (retryable : bool) : SnapshotProviderError :=
  {| provider_code := code; provider_reason := reason; provider_retryable := retryable |}.
Definition SnapshotProviderError_unavailable (reason : string) : SnapshotProviderError :=
  SnapshotProviderError_new "snapshot_provider_unavailable" reason true.

Inductive ServerError :=
| Srv_Accept (e : IoError) | Srv_Connection (e : FrameError) | Srv_Peer (e : PeerError) | Srv_Protocol.

Inductive server_failure := Refused (e : ServerError) | Unfinished.

(** A [DaemonError] that may be retried. *)
Definition unavailable (code reason : string) : DaemonError := DaemonError_new code reason true.

(** ** Permits *)

(** The permits that are free, of [snapshot_permits], [notes_export_permit] and
    [speedtest_permits]. *)
Record Permits := { free_snapshots : Z; free_exports : Z; free_speedtests : Z }.
Inductive permit := Snapshot_permit | Export_permit | Speedtest_permit.
#[export] Instance permit_eq_dec : EqDecision permit.
Proof. solve_decision. Defined.

Definition free (k : permit) (p : Permits) : Z :=
  match k with
  | Snapshot_permit => free_snapshots p | Export_permit => free_exports p | Speedtest_permit => free_speedtests p
  end.
Definition add_permit (k : permit) (n : Z) (p : Permits) : Permits :=
  match k with
  | Snapshot_permit => {| free_snapshots := free_snapshots p + n; free_exports := free_exports p;
                          free_speedtests := free_speedtests p |}
  | Export_permit => {| free_snapshots := free_snapshots p; free_exports := free_exports p + n;
                        free_speedtests := free_speedtests p |}
  | Speedtest_permit => {| free_snapshots := free_snapshots p; free_exports := free_exports p;
                           free_speedtests := free_speedtests p + n |}
  end.

(** ** Health *)

Definition validate_requested_capabilities (requested : list string) : result unit DaemonError :=
  fail_if (length requested =? 0)%nat
    with refusal "invalid_request" "requested_capabilities_must_not_be_empty" in
  fail_if MAX_REQUESTED_CAPABILITIES <? Z.of_nat (length requested)
    with refusal "invalid_request" "requested_capabilities_exceeds_32" in
  fail_if existsb is_empty requested with refusal "invalid_request" "requested_capabilities_contains_empty" in
  fail_if negb (bool_decide (NoDup requested))
    with refusal "invalid_request" "requested_capabilities_contains_duplicate" in
  Ok tt.

Definition requested_capability (catalog : list Capability) (requested : string) : Capability :=
  default {| cap_id := requested; cap_status := Cap_Unsupported; cap_reason := "unknown_capability" |}
    (List.find (fun c => String.eqb (cap_id c) requested) catalog).

(** [aggregate_request_health(Some(_), _)] is never [None]: the [expect]. *)
Definition build_health_report (version : string) (runtime : CapabilityRuntime) (request : HealthRequest)
  : result HealthReport DaemonError :=
  let? _ := validate_requested_capabilities (requested_capabilities request) in
  let catalog := capability_catalog runtime in
  let capabilities := requested_capability catalog <$> requested_capabilities request in
  let reason := run_reason (Domain.appd_health runtime) in
  let daemon_health :=
    match run_status (Domain.appd_health runtime) with
    | Cap_Healthy => {| health := Healthy; health_text := reason |}
    | Cap_Degraded => {| health := Degraded; health_text := reason |}
    | Cap_Unsupported => {| health := Unsupported; health_text := reason |}
    | Cap_Unreachable =>
        {| health := Degraded; health_text := "daemon_runtime_reported_unreachable_while_responding" |}
    end in
  let request_health := default daemon_health (aggregate_request_health (Some daemon_health) capabilities) in
  Ok {| daemon_version := version; report_health := health request_health;
        report_reason := health_text request_health; capabilities := capabilities |}.

Definition notes_output_matches (command : NotesCommand) (output : NotesOutput) : bool :=
  match command, output with
  | C_List _, O_Page _ | C_Get _, O_Document _ | C_Export _ _, O_Export _ => true
  | (C_List _ | C_Get _ | C_Export _ _), _ => false
  | _, O_Mutation _ => true
  | _, _ => false
  end.

(** ** Connections *)

Section Connections.
Context {W : Type}.

Record call (A : Type) := {
  call_ends : Z;
  call_gives : result A SnapshotProviderError;
  call_leaves : W;
  call_dropped : Z -> W;
}.
#[global] Arguments call_ends {A}. #[global] Arguments call_gives {A}.
#[global] Arguments call_leaves {A}. #[global] Arguments call_dropped {A}.
Definition calling (A : Type) : Type := Z -> W -> call A.

(** [mpsc::Receiver]: the events and when they are there; when it is closed. *)
Record Receiver := { events : list (Z * SpeedTestStreamEvent); events_closed : option Z }.

Record ServerConfig := {
  config_version : string;
  capability_provider : W -> CapabilityRuntime;
  snapshot_provider : option (calling TelemetrySnapshot);
  network_snapshot_provider : option (calling NetworkSnapshot);
  usage_summary_provider : option (UsageSummaryQuery -> calling UsageSummary);
  remote_capabilities_provider : option (calling RemoteAdapterCatalog);
  system_info_provider : option (calling SystemInfoReport);
  remote_profile_provider : option (RemoteProfileCommand -> calling RemoteProfileResult);
  secret_command_provider : option (SecretCommand -> calling SecretCommandResult);
  remote_session_provider : option (RemoteSessionCommand -> calling RemoteSessionResult);
  notes_provider : option (NotesCommand -> calling NotesOutput);
  terminal_provider : option (TerminalCommand -> calling TerminalResult);
  transfer_provider : option (TransferCommand -> calling TransferOutput);
  transfer_local_handle_provider : option (TransferLocalHandleBind -> calling TransferLocalHandleGrant);
  speedtest_provider : option (list SpeedTestStage -> calling Receiver);
  speedtest_cancel_provider : option (SpeedTestRunKind -> calling SpeedTestCancelResult);
  speedtest_deep_provider : option (SpeedTestDeepCommand -> calling SpeedTestDeepOutput);
}.

Record Connection := {
  conn_now : Z;
  conn_credentials : option Z;
  conn_uid : Z;
  conn_in : Stream;
  conn_budget : WireBudget;
  conn_out : list Z;
  conn_steps : list WriteStep;
  permits : Permits;
  world : W;
}.

Abbreviation serving A := (mut Connection A server_failure).

Definition refuse {A} (e : ServerError) : serving A := throw (Refused e).

Definition conn_reader (c : Connection) : Reader :=
  {| reader_now := conn_now c; reader_stream := conn_in c; reader_budget := conn_budget c |}.
Definition put_conn_reader (r : Reader) (c : Connection) : Connection :=
  {| conn_now := reader_now r; conn_credentials := conn_credentials c; conn_uid := conn_uid c;
     conn_in := reader_stream r; conn_budget := reader_budget r; conn_out := conn_out c;
     conn_steps := conn_steps c; permits := permits c; world := world c |}.
Definition conn_writer (c : Connection) : Writer :=
  {| writer_now := conn_now c; written := conn_out c; write_steps := conn_steps c |}.
Definition put_conn_writer (w : Writer) (c : Connection) : Connection :=
  {| conn_now := writer_now w; conn_credentials := conn_credentials c; conn_uid := conn_uid c;
     conn_in := conn_in c; conn_budget := conn_budget c; conn_out := written w;
     conn_steps := write_steps w; permits := permits c; world := world c |}.
Definition put_permits (p : Permits) (c : Connection) : Connection :=
  {| conn_now := conn_now c; conn_credentials := conn_credentials c; conn_uid := conn_uid c;
     conn_in := conn_in c; conn_budget := conn_budget c; conn_out := conn_out c;
     conn_steps := conn_steps c; permits := p; world := world c |}.
Definition at_ (t : Z) (w : W) (c : Connection) : Connection :=
  {| conn_now := t; conn_credentials := conn_credentials c; conn_uid := conn_uid c;
     conn_in := conn_in c; conn_budget := conn_budget c; conn_out := conn_out c;
     conn_steps := conn_steps c; permits := permits c; world := w |}.

Definition server_now : serving Z := gets conn_now.
Definition sleep (d : Z) : serving unit := modify (fun c => at_ (conn_now c + d) (world c) c).

(** A permit, if one is free, until the end of [m]; [busy] otherwise. *)
Definition with_permit (k : permit) (busy m : serving unit) : serving unit :=
  fun c =>
    if free k (permits c) <=? 0 then busy c
    else let '(c', r) := m (put_permits (add_permit k (-1) (permits c)) c) in
         (put_permits (add_permit k 1 (permits c')) c', r).

(** [timeout_at(deadline, provider())]: nothing when the time is up. *)
Definition timeout_at {A} (deadline : Z) (provider : calling A)
  : serving (option (result A SnapshotProviderError)) :=
  fun c =>
    let x := provider (conn_now c) (world c) in
    let ends := Z.max (conn_now c) (call_ends x) in
    let limit := Z.max (conn_now c) deadline in
    if limit <? ends then (at_ limit (call_dropped x limit) c, Ok None)
    else (at_ ends (call_leaves x) c, Ok (Some (call_gives x))).

Context `{Json RequestEnvelope} `{Json ResponseEnvelope} `{Base64} `{UuidFormat} `{Sha256} {J : Type} `{TaskCodec J}.

(** ** Writing *)

Definition to_stream {A} (m : writer_mut A) : serving A :=
  zoom conn_writer put_conn_writer (mut_map_err (fun e => Refused (Srv_Connection e)) m).

Definition write_response (r : ResponseEnvelope) (deadline : Z) : serving unit := to_stream (write_json r deadline).

Definition write_terminal_error (request_id : Uuid) (deadline : Z) (e : DaemonError) : serving unit :=
  fun c =>
    match write_response (terminal_error request_id 0 None e) deadline c with
    | (c', Err (Refused (Srv_Connection Oversize))) =>
        write_response (terminal_error request_id 0 None
                          (refusal "daemon_error_oversize" "daemon_error_exceeds_frame_limit")) deadline c'
    | done => done
    end.

Definition write_capacity_error (request_id : Uuid) (deadline : Z) : serving unit :=
  write_terminal_error request_id deadline
    (unavailable "snapshot_capacity_exceeded" "maximum_active_snapshot_streams_reached").

(** ** One answer

    What every request but the streamed ones and health does: the provider, if
    there is one, is called until the deadline, and what it gives is checked and
    written. [reply] is what is written. *)
Inductive reply := Reply_body (body : ResponseBody) | Reply_frames (frames : list (list Z)).

Definition write_reply (request_id : Uuid) (deadline : Z) (r : reply) : serving unit :=
  match r with
  | Reply_body body => write_response (response request_id 0 None body) deadline
  | Reply_frames frames => to_stream (write_encoded_plan frames deadline)
  end.

Definition provide {A} (provider : option (calling A)) (none : DaemonError) (request_id : Uuid) (deadline : Z)
    (k : A -> serving unit) : serving unit :=
  match provider with
  | None => write_terminal_error request_id deadline none
  | Some provider =>
      outcome <- timeout_at deadline provider ;;
      match outcome with
      | Some (Ok a) => k a
      | Some (Err e) =>
          write_terminal_error request_id deadline
            (DaemonError_new (provider_code e) (provider_reason e) (provider_retryable e))
      | None => refuse (Srv_Connection Frame_DeadlineExceeded)
      end
  end.

Definition answer {A} (provider : option (calling A)) (none : DaemonError) (request_id : Uuid) (deadline : Z)
    (accept : A -> result reply DaemonError) : serving unit :=
  provide provider none request_id deadline
    (fun a => match accept a with
              | Ok r => write_reply request_id deadline r
              | Err e => write_terminal_error request_id deadline e
              end).

(** ** Speed tests

    [receiver.recv()] until the deadline, and what is done with each event. *)
Definition conn_wait (t : Z) : serving unit := modify (fun c => at_ t (world c) c).

Fixpoint serve_speedtest_stream (l : list (Z * SpeedTestStreamEvent)) (closed : option Z)
    (request_id : Uuid) (deadline sequence : Z) : serving unit :=
  now <- server_now ;;
  let limit := Z.max now deadline in
  let late := conn_wait limit ;;; refuse (Srv_Connection Frame_DeadlineExceeded) in
  match l with
  | [] =>
      match closed with
      | Some t => if limit <? Z.max now t then late else conn_wait (Z.max now t) ;;; refuse Srv_Protocol
      | None => late
      end
  | (t, event) :: l =>
      if limit <? Z.max now t then late
      else
        conn_wait (Z.max now t) ;;;
        body <- lift (fun _ =>
          match event with
          | Event_Stage stage =>
              if SpeedTestStageData_validate stage then Ok (Resp_SpeedTestStage stage) else Err (Refused Srv_Protocol)
          | Event_End e =>
              if SpeedTestBasicEnd_validate e then Ok (Resp_SpeedTestBasicEnd e) else Err (Refused Srv_Protocol)
          end) ;;
        write_response (response request_id sequence None body) deadline ;;;
        sequence <- lift (fun _ => ok_or (Refused Srv_Protocol) (Prelude.checked_u32 (sequence + 1))) ;;
        match event with
        | Event_End _ => ret tt
        | Event_Stage _ => serve_speedtest_stream l closed request_id deadline sequence
        end
  end.

(** ** Terminals *)

Section TerminalStream.
Context (provider : TerminalCommand -> calling TerminalResult) (request_id session_id : Uuid) (max_bytes : Z).

Definition terminal_stream_command (command : TerminalCommand) : serving TerminalResult :=
  now <- server_now ;;
  outcome <- timeout_at (now + SNAPSHOT_TOTAL_DEADLINE) (provider command) ;;
  match outcome with
  | Some (Ok r) => ret r
  | Some (Err _) => refuse Srv_Protocol
  | None => refuse (Srv_Connection Frame_DeadlineExceeded)
  end.

Definition terminal_stream_status : serving TerminalStatus :=
  let command := Term_Poll session_id in
  r <- terminal_stream_command command ;;
  if is_err (TerminalResult_validate_for r command) then refuse Srv_Protocol
  else match r with
       | Term_StatusResult _ status => ret status
       | _ => refuse Srv_Protocol
       end.

(** A frame of the stream, within five seconds of now. *)
Definition write_terminal_stream (sequence : Z) (body : ResponseBody) : serving unit :=
  now <- server_now ;;
  write_response (response request_id sequence None body) (now + SNAPSHOT_TOTAL_DEADLINE).

Definition write_terminal_stream_end (sequence : Z) (status : TerminalStatus) : serving unit :=
  write_terminal_stream sequence (Resp_TerminalStreamEnd session_id status).

Definition advance (sequence : Z) : serving Z :=
  lift (fun _ => ok_or (Refused Srv_Protocol) (Prelude.checked_u32 (sequence + 1))).

Record terminal_state := {
  stream_sequence : Z;
  last_status : TerminalStatus;
  final_status : option TerminalStatus;
  next_status_at : Z;
  last_status_sent_at : Z;
}.
Definition at_sequence (n : Z) (s : terminal_state) : terminal_state :=
  {| stream_sequence := n; last_status := last_status s; final_status := final_status s;
     next_status_at := next_status_at s; last_status_sent_at := last_status_sent_at s |}.

(** The status that a stream with nothing to read ends with. *)
Definition settled (status : TerminalStatus) : option TerminalStatus :=
  if Terminal.is_running (term_state status) then None else Some status.

(** The read of a turn of the loop, and what it leads to: the status to end
    with, or the sequence number to go on with. *)
Definition terminal_read (s : terminal_state) : serving (TerminalStatus + Z) :=
  let command := Term_Read session_id max_bytes in
  r <- terminal_stream_command command ;;
  if is_err (TerminalResult_validate_for r command) then refuse Srv_Protocol
  else match r with
       | Term_ReadResult _ (Read_Data data) =>
           write_terminal_stream (stream_sequence s) (Resp_TerminalStreamData session_id data) ;;;
           n <- advance (stream_sequence s) ;;
           ret (inr n)
       | Term_ReadResult _ Read_Pending =>
           match final_status s with
           | Some status => ret (inl status)
           | None => sleep TERMINAL_STREAM_IDLE_INTERVAL ;;; ret (inr (stream_sequence s))
           end
       | Term_ReadResult _ Read_EndOfStream =>
           status <- match final_status s with Some status => ret status | None => terminal_stream_status end ;;
           match settled status with
           | None => sleep TERMINAL_STREAM_IDLE_INTERVAL ;;; ret (inr (stream_sequence s))
           | Some status => ret (inl status)
           end
       | _ => refuse Srv_Protocol
       end.

(** The status of a turn: polled, at most every 100 ms, until it is final; sent
    when it has changed or a second has gone by. *)
Definition terminal_poll (s : terminal_state) : serving terminal_state :=
  now <- server_now ;;
  if is_some (final_status s) || (now <? next_status_at s) then ret s
  else
    status <- terminal_stream_status ;;
    now <- server_now ;;
    let next := now + TERMINAL_STREAM_STATUS_INTERVAL in
    sent <- (if negb (eqb status (last_status s))
                || (TERMINAL_STREAM_HEARTBEAT_INTERVAL <=? now - last_status_sent_at s)
             then write_terminal_stream (stream_sequence s) (Resp_TerminalStreamStatus session_id status) ;;;
                  n <- advance (stream_sequence s) ;;
                  sent_at <- server_now ;;
                  ret (n, status, sent_at)
             else ret (stream_sequence s, last_status s, last_status_sent_at s)) ;;
    let '(n, last, sent_at) := sent in
    ret {| stream_sequence := n; last_status := last; final_status := settled status;
           next_status_at := next; last_status_sent_at := sent_at |}.

Fixpoint terminal_turns (fuel : nat) (s : terminal_state) : serving unit :=
  match fuel with
  | O => throw Unfinished
  | S fuel =>
      turn <- terminal_read s ;;
      match turn with
      | inl status => write_terminal_stream_end (stream_sequence s) status
      | inr n => s <- terminal_poll (at_sequence n s) ;; terminal_turns fuel s
      end
  end.

Definition serve_terminal_stream (fuel : nat) : serving unit :=
  initial_status <- terminal_stream_status ;;
  write_terminal_stream 0 (Resp_TerminalStreamStart
    {| ts_session_id := session_id; ts_max_bytes := max_bytes; ts_status := initial_status |}) ;;;
  sequence <- advance 0 ;;
  now <- server_now ;;
  terminal_turns fuel
    {| stream_sequence := sequence; last_status := initial_status; final_status := settled initial_status;
       next_status_at := now + TERMINAL_STREAM_STATUS_INTERVAL; last_status_sent_at := now |}.
End TerminalStream.

(** ** Each request *)

Section Requests.
Context (config : ServerConfig) (accepted_at : Z) (request_id : Uuid).

Definition serve_health (request : HealthRequest) : serving unit :=
  let deadline := accepted_at + HEALTH_TOTAL_DEADLINE in
  runtime <- gets (fun c => capability_provider config (world c)) ;;
  match build_health_report (config_version config) runtime request with
  | Ok report => write_response (response request_id 0 None (Resp_HealthReport report)) deadline
  | Err e => write_terminal_error request_id deadline e
  end.

Definition serve_telemetry_snapshot : serving unit :=
  let deadline := accepted_at + SNAPSHOT_TOTAL_DEADLINE in
  with_permit Snapshot_permit
    (write_terminal_error request_id deadline
       (unavailable "snapshot_capacity_exceeded" "maximum_active_snapshot_streams_reached"))
    (answer (snapshot_provider config)
       (unavailable "snapshot_provider_unavailable" "snapshot_provider_unavailable") request_id deadline
       (fun snapshot => let? frames := SnapshotPlan_build request_id snapshot in Ok (Reply_frames frames))).

Definition serve_network_snapshot : serving unit :=
  let deadline := accepted_at + SNAPSHOT_TOTAL_DEADLINE in
  with_permit Snapshot_permit (write_capacity_error request_id deadline)
    (answer (network_snapshot_provider config)
       (unavailable "network_provider_unavailable" "network_provider_unavailable") request_id deadline
       (fun snapshot => let? frames := NetworkSnapshotPlan_build request_id snapshot in Ok (Reply_frames frames))).

Definition serve_usage_summary (query : UsageSummaryQuery) : serving unit :=
  let deadline := accepted_at + SNAPSHOT_TOTAL_DEADLINE in
  match UsageSummaryQuery_validate query with
  | Err reason => write_terminal_error request_id deadline (refusal "invalid_request" reason)
  | Ok _ =>
      with_permit Snapshot_permit (write_capacity_error request_id deadline)
        (answer ((fun p => p query) <$> usage_summary_provider config)
           (unavailable "usage_provider_unavailable" "usage_provider_unavailable") request_id deadline
           (fun summary =>
              fail_if negb (eqb (us_query summary) query)
                with refusal "usage_query_mismatch" "usage_provider_query_mismatch" in
              let? frames := UsageSummaryPlan_build request_id summary in
              Ok (Reply_frames frames)))
  end.

Definition serve_remote_capabilities : serving unit :=
  answer (remote_capabilities_provider config)
    (unavailable "remote_capabilities_provider_unavailable" "remote_capabilities_provider_unavailable")
    request_id (accepted_at + HEALTH_TOTAL_DEADLINE)
    (fun catalog =>
       let? _ := map_err (refusal "remote_catalog_invalid") (RemoteAdapterCatalog_validate catalog) in
       Ok (Reply_body (Resp_RemoteCapabilities catalog))).

Definition serve_system_info : serving unit :=
  answer (system_info_provider config)
    (unavailable "system_info_provider_unavailable" "system_info_provider_unavailable")
    request_id (accepted_at + SYSTEM_INFO_TOTAL_DEADLINE)
    (fun report =>
       fail_if negb (SystemInfoReport_validate report)
         with refusal "system_info_invalid" "system_info_schema_version_mismatch" in
       Ok (Reply_body (Resp_SystemInfo report))).

Definition serve_remote_profile (command : RemoteProfileCommand) : serving unit :=
  let deadline := accepted_at + HEALTH_TOTAL_DEADLINE in
  if is_err (RemoteProfileCommand_validate command)
  then write_terminal_error request_id deadline (refusal "invalid_request" "remote_profile_command_invalid")
  else
    answer ((fun p => p command) <$> remote_profile_provider config)
      (unavailable "remote_profile_provider_unavailable" "remote_profile_provider_unavailable")
      request_id deadline
      (fun r =>
         fail_if is_err (RemoteProfileResult_validate_for r command)
           with refusal "remote_profile_result_invalid" "remote_profile_result_invalid" in
         Ok (Reply_body (Resp_RemoteProfile r))).

Definition serve_secret (command : SecretCommand) : serving unit :=
  let deadline := accepted_at + HEALTH_TOTAL_DEADLINE in
  if is_err (SecretCommand_validate command)
  then write_terminal_error request_id deadline (refusal "invalid_request" "secret_command_invalid")
  else
    answer ((fun p => p command) <$> secret_command_provider config)
      (unavailable "secret_store_unavailable" "secret_store_provider_unavailable") request_id deadline
      (fun r =>
         fail_if is_err (SecretCommandResult_validate_for r command)
           with refusal "secret_store_result_invalid" "secret_store_result_invalid" in
         Ok (Reply_body (Resp_Secret r))).

Definition serve_remote_session (command : RemoteSessionCommand) : serving unit :=
  let deadline := accepted_at + REMOTE_SESSION_TOTAL_DEADLINE in
  if is_err (RemoteSessionCommand_validate command)
  then write_terminal_error request_id deadline (refusal "invalid_request" "remote_session_command_invalid")
  else
    answer ((fun p => p command) <$> remote_session_provider config)
      (unavailable "remote_session_provider_unavailable" "remote_session_provider_unavailable")
      request_id deadline
      (fun r =>
         fail_if is_err (RemoteSessionResult_validate_for r command)
           with refusal "remote_session_result_invalid" "remote_session_result_invalid" in
         Ok (Reply_body (Resp_RemoteSession r))).

(** [fuel] is for the loop of a stream, which ends when the terminal does. *)
Definition serve_terminal (fuel : nat) (command : TerminalCommand) : serving unit :=
  let deadline := accepted_at + SNAPSHOT_TOTAL_DEADLINE in
  let none := unavailable "terminal_provider_unavailable" "terminal_provider_unavailable" in
  if is_err (TerminalCommand_validate command)
  then write_terminal_error request_id deadline (refusal "invalid_request" "terminal_command_invalid")
  else
    match terminal_provider config, command with
    | None, _ => write_terminal_error request_id deadline none
    | Some provider, Term_Stream session_id max_bytes =>
        serve_terminal_stream provider request_id session_id max_bytes fuel
    | Some provider, _ =>
        answer (Some (provider command)) none request_id deadline
          (fun r =>
             fail_if is_err (TerminalResult_validate_for r command)
               with refusal "terminal_result_invalid" "terminal_result_invalid" in
             Ok (Reply_body (Resp_Terminal r)))
    end.

(** [fresh] is the identifier of the stream, if there is one. *)
Definition transfer_reply (fresh : Uuid) (command : TransferCommand) (output : TransferOutput)
  : result reply DaemonError :=
  fail_if is_err (TransferOutput_validate_for output command)
    with refusal "transfer_result_invalid" "transfer_result_did_not_match_command" in
  match output with
  | Output_Page page => let? frames := TransferPlan_page fresh request_id page in Ok (Reply_frames frames)
  | _ => Ok (Reply_body (Resp_Transfer output))
  end.

Definition serve_transfer (fresh : Uuid) (command : TransferCommand) : serving unit :=
  let deadline := accepted_at + SNAPSHOT_TOTAL_DEADLINE in
  if is_err (TransferCommand_validate command)
  then write_terminal_error request_id deadline (refusal "invalid_request" "transfer_command_invalid")
  else
    let serve :=
      answer ((fun p => p command) <$> transfer_provider config)
        (unavailable "transfer_provider_unavailable" "transfer_provider_unavailable") request_id deadline
        (transfer_reply fresh command) in
    match command with
    | List _ => with_permit Snapshot_permit (write_capacity_error request_id deadline) serve
    | _ => serve
    end.

Definition serve_transfer_local_handle (b : TransferLocalHandleBind) : serving unit :=
  let deadline := accepted_at + SNAPSHOT_TOTAL_DEADLINE in
  if negb (TransferLocalHandleBind_validate b)
  then write_terminal_error request_id deadline (refusal "invalid_request" "transfer_local_handle_bind_invalid")
  else
    answer ((fun p => p b) <$> transfer_local_handle_provider config)
      (unavailable "transfer_local_handle_provider_unavailable" "transfer_local_handle_provider_unavailable")
      request_id deadline
      (fun grant =>
         fail_if is_err (TransferLocalHandleGrant_validate grant)
           with refusal "transfer_local_handle_result_invalid" "transfer_local_handle_result_invalid" in
         Ok (Reply_body (Resp_TransferLocalHandle grant))).

Definition serve_speedtest_basic (r : SpeedTestBasicRequest) : serving unit :=
  let deadline := accepted_at + SPEEDTEST_TOTAL_DEADLINE in
  if is_err (SpeedTestBasicRequest_validate r)
  then write_terminal_error request_id deadline (refusal "invalid_request" "speedtest_stages_invalid")
  else
    with_permit Speedtest_permit
      (write_terminal_error request_id deadline (unavailable "speedtest_busy" "speedtest_already_running"))
      (provide ((fun p => p (stages r)) <$> speedtest_provider config)
         (unavailable "speedtest_provider_unavailable" "speedtest_provider_unavailable") request_id deadline
         (fun receiver => serve_speedtest_stream (events receiver) (events_closed receiver) request_id deadline 0)).

Definition serve_speedtest_cancel (run_kind : SpeedTestRunKind) : serving unit :=
  answer ((fun p => p run_kind) <$> speedtest_cancel_provider config)
    (unavailable "speedtest_cancel_provider_unavailable" "speedtest_cancel_provider_unavailable")
    request_id (accepted_at + SNAPSHOT_TOTAL_DEADLINE)
    (fun r =>
       fail_if negb (SpeedTestCancelResult_validate r)
         with refusal "speedtest_cancel_result_invalid" "speedtest_cancel_result_invalid" in
       Ok (Reply_body (Resp_SpeedTestCancelled r))).

Definition serve_speedtest_deep (command : SpeedTestDeepCommand) : serving unit :=
  let deadline := accepted_at + speedtest_deep_deadline command in
  if is_err (SpeedTestDeepCommand_validate command)
  then write_terminal_error request_id deadline (refusal "invalid_request" "speedtest_deep_command_invalid")
  else
    answer ((fun p => p command) <$> speedtest_deep_provider config)
      (unavailable "speedtest_deep_provider_unavailable" "speedtest_deep_provider_unavailable")
      request_id deadline
      (fun output =>
         fail_if negb (SpeedTestDeepOutput_validate_for output command)
           with refusal "speedtest_deep_result_invalid" "speedtest_deep_result_did_not_match_command" in
         Ok (Reply_body (Resp_SpeedTestDeep output))).

Definition notes_reply (fresh : Uuid) (command : NotesCommand) (output : NotesOutput) : result reply DaemonError :=
  fail_if negb (notes_output_matches command output)
    with refusal "notes_result_invalid" "notes_result_did_not_match_command" in
  let plan (frames : result (list (list Z)) DaemonError) := let? frames := frames in Ok (Reply_frames frames) in
  match output with
  | O_Mutation r => Ok (Reply_body (Resp_NotesMutation r))
  | O_Page page => plan (NotesPlan_page fresh request_id page)
  | O_Document document => plan (NotesPlan_document fresh request_id document)
  | O_Export export => plan (NotesPlan_export fresh request_id export)
  end.

Definition serve_notes (fresh : Uuid) (command : NotesCommand) : serving unit :=
  let deadline := accepted_at + SNAPSHOT_TOTAL_DEADLINE in
  match NotesCommand_validate command with
  | Err reason => write_terminal_error request_id deadline (refusal "invalid_request" reason)
  | Ok _ =>
      with_permit Snapshot_permit (write_capacity_error request_id deadline)
        (let serve :=
           answer ((fun p => p command) <$> notes_provider config)
             (unavailable "notes_provider_unavailable" "notes_provider_unavailable") request_id deadline
             (notes_reply fresh command) in
         match command with
         | C_Export _ _ =>
             with_permit Export_permit
               (write_terminal_error request_id deadline
                  (unavailable "notes_export_capacity_exceeded" "maximum_active_notes_export_streams_reached"))
               serve
         | _ => serve
         end)
  end.

Definition serve_request (fuel : nat) (fresh : Uuid) (body : RequestBody) : serving unit :=
  match body with
  | Req_Health request => serve_health request
  | Req_TelemetrySnapshot => serve_telemetry_snapshot
  | Req_NetworkSnapshot => serve_network_snapshot
  | Req_UsageSummary query => serve_usage_summary query
  | Req_RemoteCapabilities => serve_remote_capabilities
  | Req_SystemInfo => serve_system_info
  | Req_RemoteProfile command => serve_remote_profile command
  | Req_Secret command => serve_secret command
  | Req_RemoteSession command => serve_remote_session command
  | Req_Terminal command => serve_terminal fuel command
  | Req_Transfer command => serve_transfer fresh command
  | Req_TransferLocalHandle bind => serve_transfer_local_handle bind
  | Req_SpeedTestBasic r => serve_speedtest_basic r
  | Req_SpeedTestCancel run_kind => serve_speedtest_cancel run_kind
  | Req_SpeedTestDeep command => serve_speedtest_deep command
  | Req_Notes command => serve_notes fresh command
  end.
End Requests.

(** [handle_connection_inner]. *)
Definition read_request (accepted_at : Z) : serving RequestEnvelope :=
  lift (fun c => map_err (fun e => Refused (Srv_Peer e)) (verify_peer_uid (conn_credentials c) (conn_uid c))) ;;;
  modify (fun c => put_conn_reader {| reader_now := conn_now c; reader_stream := conn_in c;
                     reader_budget := WireBudget_new 1 (MAX_FRAME_PAYLOAD_BYTES + 4) |} c) ;;;
  zoom conn_reader put_conn_reader
    (mut_map_err (fun e => Refused (Srv_Connection e))
       (read_json_with_idle_timeout (accepted_at + HEALTH_TOTAL_DEADLINE) FRAME_IDLE_TIMEOUT)).

Definition handle_connection_inner (config : ServerConfig) (fuel : nat) (fresh : Uuid) (accepted_at : Z)
  : serving unit :=
  request <- read_request accepted_at ;;
  if is_nil (req_request_id request) then refuse Srv_Protocol
  else if negb (req_protocol_version request =? WIRE_PROTOCOL_VERSION)
  then write_terminal_error (req_request_id request) (accepted_at + HEALTH_TOTAL_DEADLINE)
         (refusal "unsupported_protocol" "wire_protocol_version_must_be_13")
  else serve_request config accepted_at (req_request_id request) fuel fresh (req_body request).
End Connections.
