(* ===== verification/IpcServe.v ===== *)
(** [crates/ipc/src/server.rs], [serve]: the loop that accepts connections and
    the tasks that serve them, as steps of a state. A connection takes permits
    as [IpcServer] says, while others run; what it gives back when it ends is
    what it holds. *)
From S2P Require Import Prelude Frame IpcServer.

Inductive phase := Accepting | Draining (since : Z) | Stopped.

(** [free_connections] is of [connection_permits]; [running] has what each task
    of the [JoinSet] holds beside its connection permit. *)
Record Daemon := {
  clock : Z;
  free_connections : Z;
  free_permits : Permits;
  running : gmap nat (list permit);
  daemon_phase : phase;
}.

Definition Daemon_start : Daemon :=
  {| clock := 0; free_connections := MAX_CONNECTIONS;
     free_permits := {| free_snapshots := MAX_SNAPSHOT_STREAMS; free_exports := 1; free_speedtests := 2 |};
     running := ∅; daemon_phase := Accepting |}.

Definition give_back (held : list permit) (p : Permits) : Permits := foldr (fun k => add_permit k 1) p held.

(** The end of a task: it drops its permits. *)
Definition end_task (i : nat) (d : Daemon) : Daemon :=
  match running d !! i with
  | None => d
  | Some held =>
      {| clock := clock d; free_connections := free_connections d + 1;
         free_permits := give_back held (free_permits d); running := delete i (running d);
         daemon_phase := daemon_phase d |}
  end.

(** [abort_all], and the wait for the tasks. *)
Definition abort_all (d : Daemon) : Daemon := foldr end_task d (elements (dom (running d))).

Definition put_phase (p : phase) (d : Daemon) : Daemon :=
  {| clock := clock d; free_connections := free_connections d; free_permits := free_permits d;
     running := running d; daemon_phase := p |}.

Inductive daemon_step : Daemon -> Daemon -> Prop :=
(** A connection is accepted, if a permit is free. *)
| step_accept i d :
    daemon_phase d = Accepting -> 0 < free_connections d -> running d !! i = None ->
    daemon_step d {| clock := clock d; free_connections := free_connections d - 1; free_permits := free_permits d;
                     running := <[i := []]> (running d); daemon_phase := Accepting |}
| step_drop d : daemon_phase d = Accepting -> free_connections d <= 0 -> daemon_step d d
(** A task takes a permit, as [with_permit] does. *)
| step_take i held k d :
    running d !! i = Some held -> 0 < free k (free_permits d) ->
    daemon_step d {| clock := clock d; free_connections := free_connections d;
                     free_permits := add_permit k (-1) (free_permits d);
                     running := <[i := k :: held]> (running d); daemon_phase := daemon_phase d |}
(** A task gives up the permit it took last. *)
| step_release i held k d :
    running d !! i = Some (k :: held) ->
    daemon_step d {| clock := clock d; free_connections := free_connections d;
                     free_permits := add_permit k 1 (free_permits d);
                     running := <[i := held]> (running d); daemon_phase := daemon_phase d |}
| step_end i d : is_Some (running d !! i) -> daemon_step d (end_task i d)
| step_time t d : clock d <= t ->
    daemon_step d {| clock := t; free_connections := free_connections d; free_permits := free_permits d;
                     running := running d; daemon_phase := daemon_phase d |}
(** [shutdown] has changed, or its sender is gone. *)
| step_shutdown d : daemon_phase d = Accepting -> daemon_step d (put_phase (Draining (clock d)) d)
(** [listener.accept()] fails: [serve] returns, and its tasks are dropped. *)
| step_accept_error d : daemon_phase d = Accepting -> daemon_step d (put_phase Stopped (abort_all d))
| step_drained since d : daemon_phase d = Draining since -> running d = ∅ -> daemon_step d (put_phase Stopped d)
| step_grace since d : daemon_phase d = Draining since -> since + SHUTDOWN_GRACE <= clock d ->
    daemon_step d (put_phase Stopped (abort_all d)).

(** ** Permits in use *)

(** How many permits of a kind a task holds. *)
Definition held_of (k : permit) (held : list permit) : Z := Z.of_nat (length (filter (fun k' => k' = k) held)).

Definition holders_in (k : permit) (tasks : gmap nat (list permit)) : Z :=
  map_fold (fun _ held n => n + held_of k held) 0 tasks.
Definition holders (k : permit) (d : Daemon) : Z := holders_in k (running d).
Definition capacity (k : permit) : Z := free k (free_permits Daemon_start).

Definition books (d : Daemon) : Prop :=
  0 <= free_connections d /\ free_connections d + Z.of_nat (size (running d)) = MAX_CONNECTIONS /\
  (forall k, 0 <= free k (free_permits d)) /\ (forall k, free k (free_permits d) + holders k d = capacity k) /\
  (daemon_phase d = Stopped -> running d = ∅).

Lemma free_add k k' n p : free k (add_permit k' n p) = free k p + (if decide (k' = k) then n else 0).
Proof. destruct k, k', p; simpl; lia. Qed.

Lemma held_of_nonneg k held : 0 <= held_of k held. Proof. unfold held_of. lia. Qed.
Lemma held_of_cons k k' held : held_of k (k' :: held) = (if decide (k' = k) then 1 else 0) + held_of k held.
Proof. unfold held_of. rewrite filter_cons. destruct (decide (k' = k)); simpl length; lia. Qed.

Lemma free_give_back k held p : free k (give_back held p) = free k p + held_of k held.
Proof.
  induction held as [| k' held IH]; simpl; [change (held_of k []) with 0; lia |]. rewrite free_add, IH, held_of_cons.
  destruct (decide (k' = k)); lia.
Qed.

(** What a task holds is counted by itself. *)
Lemma holders_delete k tasks i held : tasks !! i = Some held ->
  holders_in k tasks = holders_in k (delete i tasks) + held_of k held.
Proof. intros Hi. unfold holders_in. rewrite (map_fold_delete_L _ _ i held tasks); [done | intros; lia | done]. Qed.
Lemma holders_insert k tasks i held : tasks !! i = None ->
  holders_in k (<[i := held]> tasks) = holders_in k tasks + held_of k held.
Proof. intros Hi. unfold holders_in. rewrite map_fold_insert_L; [done | intros; lia | done]. Qed.
Lemma holders_replace k tasks i held held' : tasks !! i = Some held ->
  holders_in k (<[i := held']> tasks) = holders_in k tasks - held_of k held + held_of k held'.
Proof.
  intros Hi. pose proof (holders_delete k tasks i held Hi) as Hd.
  assert (Hnone : delete i tasks !! i = None) by apply lookup_delete_eq.
  pose proof (holders_insert k (delete i tasks) i held' Hnone) as Hn. rewrite insert_delete_eq in Hn. lia.
Qed.

Lemma end_task_books i d : books d -> books (end_task i d) /\ daemon_phase (end_task i d) = daemon_phase d.
Proof.
  intros (Hc & Hn & Hp & Hh & Hs). unfold end_task. destruct (running d !! i) as [held |] eqn:Hi; [| by repeat split].
  split; [| done]. assert (Hsize : size (running d) = S (size (delete i (running d)))).
  { rewrite map_size_delete_Some by done. assert (size (running d) <> 0%nat); [| lia].
    intros Hz. apply map_size_empty_inv in Hz. by rewrite Hz in Hi. }
  repeat split; simpl; [lia | lia | | |].
  - intros k. rewrite free_give_back. specialize (Hp k). pose proof (held_of_nonneg k held). lia.
  - intros k. rewrite free_give_back, <- (Hh k). unfold holders. simpl. rewrite (holders_delete k _ i held Hi). lia.
  - intros Hst. by rewrite (Hs Hst), delete_empty.
Qed.

Lemma end_task_running i d : running (end_task i d) = delete i (running d).
Proof. unfold end_task. destruct (running d !! i) eqn:Hi; [done |]. by rewrite delete_id. Qed.

Lemma abort_all_books d : books d -> books (abort_all d) /\ running (abort_all d) = ∅.
Proof.
  intros Hd. unfold abort_all.
  assert (Hall : forall l, books (foldr end_task d l) /\
            forall i, i ∈ l \/ running d !! i = None -> running (foldr end_task d l) !! i = None).
  { induction l as [| j l [IHb IHl]]; cbn [foldr].
    - split; [done |]. intros i [Hi | Hi]; [by apply not_elem_of_nil in Hi | done].
    - split; [by apply end_task_books |]. intros i Hi. rewrite end_task_running.
      destruct (decide (j = i)) as [-> | Hne]; [apply lookup_delete_eq |]. rewrite lookup_delete_ne by done.
      apply IHl. rewrite elem_of_cons in Hi. naive_solver. }
  split; [apply Hall |]. apply map_empty. intros i. apply (proj2 (Hall _)).
  rewrite elem_of_elements, elem_of_dom. destruct (running d !! i); [left; eauto | by right].
Qed.

Lemma step_books d d' : books d -> daemon_step d d' -> books d'.
Proof.
  intros Hb. destruct 1 as [i d Hph Hf Hi | d Hph Hf | i held k d Hi Hf | i held k d Hi | i d Hi | t d Ht | d Hph | d Hph
    | since d Hph He | since d Hph Hg]; try done.
  - destruct Hb as (Hc & Hn & Hp & Hh & Hs). repeat split; simpl; [lia | | done | | done].
    + rewrite map_size_insert_None by done. lia.
    + intros k. rewrite <- (Hh k). unfold holders. simpl. rewrite holders_insert by done. change (held_of k []) with 0. lia.
  - destruct Hb as (Hc & Hn & Hp & Hh & Hs). repeat split; simpl; [done | | | |].
    + rewrite map_size_insert_Some by done. done.
    + intros k'. rewrite free_add. destruct (decide (k = k')) as [-> |]; [lia |]. specialize (Hp k'). lia.
    + intros k'. rewrite free_add, <- (Hh k'). unfold holders. simpl. rewrite (holders_replace k' _ i held (k :: held)) by done.
      rewrite held_of_cons. destruct (decide (k = k')); lia.
    + intros Hst. by rewrite (Hs Hst) in Hi.
  - destruct Hb as (Hc & Hn & Hp & Hh & Hs). repeat split; simpl; [done | | | |].
    + rewrite map_size_insert_Some by done. done.
    + intros k'. rewrite free_add. specialize (Hp k'). destruct (decide _); lia.
    + intros k'. rewrite free_add, <- (Hh k'). unfold holders. simpl. rewrite (holders_replace k' _ i (k :: held) held) by done.
      rewrite held_of_cons. destruct (decide (k = k')); lia.
    + intros Hst. by rewrite (Hs Hst) in Hi.
  - by apply end_task_books.
  - destruct Hb as (Hc & Hn & Hp & Hh & Hs). by repeat split.
  - destruct (abort_all_books d Hb) as [(Hc & Hn & Hp & Hh & Hs) He]. by repeat split.
  - destruct Hb as (Hc & Hn & Hp & Hh & Hs). by repeat split.
  - destruct (abort_all_books d Hb) as [(Hc & Hn & Hp & Hh & Hs) He]. by repeat split.
Qed.


