(* ===== verification/IpcServerFacts.v ===== *)
(** The daemon's side of a connection: its permits come back, it ends in time,
    and what it writes is an answer to the request. *)

From S2P Require Import Prelude Text Encoding RemoteCore TransferModel TransferPublic Frame FrameFacts NotesDomain Domain Terminal IpcMessage IpcPlan IpcPlanFacts IpcClient IpcClientFacts IpcStreams IpcServer.

Create HintDb keeps.
Create HintDb serves.

Section Facts.
Context {W : Type} `{Json RequestEnvelope} `{Json ResponseEnvelope} `{Base64} `{UuidFormat} `{Sha256} {J : Type} `{TaskCodec J}.

Abbreviation serving A := (mut (@Connection W) A server_failure).

(** ** Permits *)

Definition keeps {A} (m : serving A) : Prop := forall c c' r, m c = (c', r) -> permits c' = permits c.

Lemma keeps_bind {A B} (m : serving A) (k : A -> serving B) : keeps m -> (forall a, keeps (k a)) -> keeps (bind m k).
Proof.
  intros Hm Hk c c' r. unfold bind. destruct (m c) as [c1 [a | e]] eqn:Hc; apply Hm in Hc.
  - intros Hr. apply Hk in Hr. congruence.
  - by intros [= <- _].
Qed.
Lemma keeps_ret {A} (a : A) : keeps (ret a). Proof. by intros c c' r [= <- _]. Qed.
Lemma keeps_throw {A} e : keeps (throw e : serving A). Proof. by intros c c' r [= <- _]. Qed.
Lemma keeps_refuse {A} e : keeps (refuse e : serving A). Proof. by intros c c' r [= <- _]. Qed.
Lemma keeps_gets {A} (f : Connection -> A) : keeps (gets f). Proof. by intros c c' r [= <- _]. Qed.
Lemma keeps_lift {A} (f : Connection -> result A server_failure) : keeps (lift f). Proof. by intros c c' r [= <- _]. Qed.
Lemma keeps_now : keeps server_now. Proof. by intros c c' r [= <- _]. Qed.
Lemma keeps_sleep d : keeps (sleep d). Proof. by intros c c' r [= <- _]. Qed.
Lemma keeps_wait t : keeps (conn_wait t). Proof. by intros c c' r [= <- _]. Qed.

Lemma keeps_to_stream {A} (m : writer_mut A) : keeps (to_stream m).
Proof. intros c c' r. unfold to_stream, zoom. by destruct (mut_map_err _ m _) as [w x]; intros [= <- _]. Qed.

Lemma keeps_timeout {A} d (p : calling A) : keeps (timeout_at d p).
Proof. intros c c' r. unfold timeout_at. by destruct (_ <? _); intros [= <- _]. Qed.

Lemma permit_back k p : add_permit k 1 (add_permit k (-1) p) = p.
Proof. destruct k, p; unfold add_permit; simpl; f_equal; lia. Qed.

Lemma keeps_with_permit k (busy m : serving unit) : keeps busy -> keeps m -> keeps (with_permit k busy m).
Proof.
  intros Hb Hm c c' r. unfold with_permit. destruct (_ <=? 0); [apply Hb |].
  destruct (m _) as [c1 x] eqn:Hc. apply Hm in Hc. intros [= <- _]. simpl. rewrite Hc. apply permit_back.
Qed.

#[local] Hint Resolve keeps_bind keeps_ret keeps_throw keeps_refuse keeps_gets keeps_lift keeps_now keeps_sleep
  keeps_wait keeps_to_stream keeps_timeout keeps_with_permit : keeps.

Lemma keeps_response r d : keeps (write_response r d). Proof. apply keeps_to_stream. Qed.
#[local] Hint Resolve keeps_response : keeps.
Lemma keeps_error rid d e : keeps (write_terminal_error rid d e).
Proof.
  intros c c' r. unfold write_terminal_error. destruct (write_response _ d c) as [c1 x] eqn:Hc.
  apply keeps_response in Hc.
  destruct x as [| [[| [] | |] |]]; try (by intros [= <- _]); intros Hr; apply keeps_response in Hr; congruence.
Qed.
#[local] Hint Resolve keeps_error : keeps.

Lemma keeps_provide {A} (p : option (calling A)) none rid d k : (forall a, keeps (k a)) -> keeps (provide p none rid d k).
Proof.
  intros Hk. unfold provide. destruct p; [| auto with keeps]. apply keeps_bind; [auto with keeps |].
  intros [[a | e] |]; auto with keeps.
Qed.
Lemma keeps_answer {A} (p : option (calling A)) none rid d accept : keeps (answer p none rid d accept).
Proof.
  apply keeps_provide. intros a. destruct (accept a) as [[b | frames] | e]; unfold write_reply; auto with keeps.
Qed.
#[local] Hint Resolve keeps_answer keeps_provide : keeps.

Lemma keeps_speedtest closed rid d : forall l s, keeps (serve_speedtest_stream (W := W) l closed rid d s).
Proof.
  induction l as [| [t event] l IH]; intros s; cbn [serve_speedtest_stream].
  - apply keeps_bind; [auto with keeps |]. intros now. cbv zeta. destruct closed as [t |]; [| auto with keeps].
    destruct (_ <? _); auto with keeps.
  - apply keeps_bind; [auto with keeps |]. intros now. cbv zeta. destruct (_ <? _); [auto with keeps |].
    repeat (apply keeps_bind; [auto with keeps |]; intros). destruct event; auto with keeps.
Qed.
#[local] Hint Resolve keeps_speedtest : keeps.

Lemma keeps_terminal_command (p : TerminalCommand -> calling TerminalResult) command : keeps (terminal_stream_command p command).
Proof.
  repeat (apply keeps_bind; [auto with keeps |]; intros). destruct a0 as [[] |]; auto with keeps.
Qed.
#[local] Hint Resolve keeps_terminal_command : keeps.
Lemma keeps_terminal_status (p : TerminalCommand -> calling TerminalResult) sid : keeps (terminal_stream_status p sid).
Proof.
  unfold terminal_stream_status. apply keeps_bind; [auto with keeps |]. intros r.
  destruct (is_err _); [| destruct r]; auto with keeps.
Qed.
Lemma keeps_terminal_frame rid n b : keeps (write_terminal_stream (W := W) rid n b).
Proof. unfold write_terminal_stream. auto with keeps. Qed.
Lemma keeps_advance n : keeps (advance (W := W) n). Proof. unfold advance. auto with keeps. Qed.
#[local] Hint Resolve keeps_terminal_status keeps_terminal_frame keeps_advance : keeps.

Lemma keeps_terminal_turns (p : TerminalCommand -> calling TerminalResult) rid sid m : forall fuel s, keeps (terminal_turns p rid sid m fuel s).
Proof.
  induction fuel as [| fuel IH]; intros s; cbn [terminal_turns]; [auto with keeps |].
  apply keeps_bind.
  - unfold terminal_read. apply keeps_bind; [auto with keeps |]. intros r. destruct (is_err _); [auto with keeps |].
    destruct r as [| i [| data |] | | | |]; try auto with keeps.
    + destruct (final_status s); auto with keeps.
    + apply keeps_bind; [destruct (final_status s); auto with keeps |]. intros status. destruct (settled status); auto with keeps.
  - intros [status | n]; [unfold write_terminal_stream_end; auto with keeps |].
    apply keeps_bind; [| auto]. unfold terminal_poll. apply keeps_bind; [auto with keeps |]. intros now.
    destruct (_ || _); [auto with keeps |]. repeat (apply keeps_bind; [auto with keeps |]; intros).
    + destruct (_ || _); auto 8 with keeps.
    + destruct a1 as [[]]; auto with keeps.
Qed.

Lemma keeps_terminal (p : TerminalCommand -> calling TerminalResult) rid sid m fuel :
  keeps (serve_terminal_stream p rid sid m fuel).
Proof.
  unfold serve_terminal_stream. repeat (apply keeps_bind; [auto with keeps |]; intros). apply keeps_terminal_turns.
Qed.
#[local] Hint Resolve keeps_terminal : keeps.

Lemma keeps_serve (config : ServerConfig) t rid fuel fresh body : keeps (serve_request config t rid fuel fresh body).
Proof.
  unfold serve_request. destruct body as [h | | | q | | | command | command | command | command | command | command
    | b | r | kind | command].
  - apply keeps_bind; [auto with keeps |]. intros runtime. destruct (build_health_report _ _ _); auto with keeps.
  - unfold serve_telemetry_snapshot. auto with keeps.
  - unfold serve_network_snapshot, write_capacity_error. auto with keeps.
  - unfold serve_usage_summary, write_capacity_error. destruct (UsageSummaryQuery_validate q); auto with keeps.
  - unfold serve_remote_capabilities. auto with keeps.
  - unfold serve_system_info. auto with keeps.
  - unfold serve_remote_profile. destruct (is_err _); auto with keeps.
  - unfold serve_secret. destruct (is_err _); auto with keeps.
  - unfold serve_remote_session. destruct (is_err _); auto with keeps.
  - unfold serve_notes, write_capacity_error. destruct (NotesCommand_validate command); [| auto with keeps].
    destruct command; auto 6 with keeps.
  - unfold serve_terminal. destruct (is_err _); [auto with keeps |]. destruct (terminal_provider config); [| auto with keeps].
    destruct command; auto with keeps.
  - unfold serve_transfer, write_capacity_error. destruct (is_err _); [auto with keeps |]. destruct command; auto with keeps.
  - unfold serve_transfer_local_handle. destruct (negb _); auto with keeps.
  - unfold serve_speedtest_basic. destruct (is_err _); auto 6 with keeps.
  - unfold serve_speedtest_cancel. auto with keeps.
  - unfold serve_speedtest_deep. destruct (is_err _); auto with keeps.
Qed.

Lemma keeps_read t : keeps (read_request (W := W) t).
Proof.
  unfold read_request. apply keeps_bind; [auto with keeps |]. intros ?.
  apply keeps_bind; [by intros c c' r [= <- _] |]. intros ?. intros c c' r. unfold zoom.
  destruct (mut_map_err _ _ _) as [s x]. by intros [= <- _].
Qed.

(** Every permit a connection takes is free again when it ends, however it ends. *)
Theorem permits_are_released (config : ServerConfig) fuel fresh t (c c' : @Connection W) r :
  handle_connection_inner config fuel fresh t c = (c', r) -> permits c' = permits c.
Proof.
  intros Hr. eapply keeps_bind; [| | exact Hr]; [apply keeps_read |]. intros request. cbv beta.
  destruct (is_nil (req_request_id request)); [auto with keeps |]. destruct (negb _); [auto with keeps | apply keeps_serve].
Qed.

(** A request that finds its permit taken is refused, and nothing is asked of
    the provider. *)
Lemma busy_is_refused k (busy m : serving unit) (c : @Connection W) : free k (permits c) = 0 -> with_permit k busy m c = busy c.
Proof. intros Hk. unfold with_permit. by rewrite Hk. Qed.

(** ** Time *)

(** A program that ends by [limit], or at once when that is past. *)
Definition ends {A} (limit : Z) (m : serving A) : Prop := forall c c' r, m c = (c', r) ->
  conn_now c <= conn_now c' <= Z.max (conn_now c) limit /\ r <> Err Unfinished.

Lemma ends_bind {A B} limit (m : serving A) (k : A -> serving B) :
  ends limit m -> (forall a, ends limit (k a)) -> ends limit (bind m k).
Proof.
  intros Hm Hk c c' r. unfold bind. destruct (m c) as [c1 [a | e]] eqn:Hc; apply Hm in Hc as [Hc He].
  - intros Hr. apply Hk in Hr as [Hr Hx]. split; [lia | done].
  - intros [= <- <-]. split; [lia | congruence].
Qed.
Lemma ends_ret {A} limit (a : A) : ends limit (ret a).
Proof. intros c c' r [= <- <-]. split; [lia | done]. Qed.
Lemma ends_refuse {A} limit e : ends limit (refuse e : serving A).
Proof. intros c c' r [= <- <-]. split; [lia | done]. Qed.
Lemma ends_gets {A} limit (f : Connection -> A) : ends limit (gets f).
Proof. intros c c' r [= <- <-]. split; [lia | done]. Qed.
Lemma ends_advance limit n : ends limit (advance (W := W) n).
Proof. intros c c' r [= <- <-]. split; [lia |]. by destruct (ok_or _ _) eqn:Ho; unfold ok_or in Ho; destruct (Prelude.checked_u32 _); simplify_eq. Qed.

Lemma ends_to_stream limit (m : writer_mut unit) :
  (forall w w' r, m w = (w', r) -> writer_now w <= writer_now w' <= Z.max (writer_now w) limit) -> ends limit (to_stream m).
Proof.
  intros Hm c c' r. unfold to_stream, zoom, mut_map_err. destruct (m (conn_writer c)) as [w x] eqn:Hw.
  apply Hm in Hw. intros [= <- <-]. split; [exact Hw |]. by destruct x.
Qed.

Lemma write_json_ends (r : ResponseEnvelope) limit w w' x : write_json r limit w = (w', x) ->
  writer_now w <= writer_now w' <= Z.max (writer_now w) limit.
Proof.
  unfold write_json, bind, lift. destruct (map_err _ _); [apply write_frame_ends |]. intros [= <- _]. lia.
Qed.
Lemma write_plan_ends limit : forall frames w w' x, write_encoded_plan frames limit w = (w', x) ->
  writer_now w <= writer_now w' <= Z.max (writer_now w) limit.
Proof.
  induction frames as [| p frames IH]; intros w w' x; cbn [write_encoded_plan].
  - intros [= <- _]. lia.
  - unfold bind. destruct (write_frame p limit w) as [w1 [] ] eqn:Hw; apply write_frame_ends in Hw.
    + intros Hr. apply IH in Hr. lia.
    + intros [= <- _]. lia.
Qed.

Lemma ends_response limit r : ends limit (write_response (W := W) r limit).
Proof. apply ends_to_stream. intros w w' x. apply write_json_ends. Qed.
Lemma ends_reply limit rid r : ends limit (write_reply (W := W) rid limit r).
Proof. destruct r; [apply ends_response |]. apply ends_to_stream. intros w w' x. apply write_plan_ends. Qed.
Lemma ends_error limit rid e : ends limit (write_terminal_error (W := W) rid limit e).
Proof.
  intros c c' r. unfold write_terminal_error. destruct (write_response _ limit c) as [c1 x] eqn:Hc.
  apply ends_response in Hc as [Hc Hx].
  destruct x as [| [[| [] | |] |]]; try (by intros [= <- <-]); intros Hr; apply ends_response in Hr as [Hr ?]; split; lia || done.
Qed.

Lemma ends_timeout {A} limit (p : calling A) : ends limit (timeout_at limit p).
Proof. intros c c' r. unfold timeout_at. destruct (_ <? _) eqn:Hl; intros [= <- <-]; simpl; split; lia || done. Qed.

Lemma ends_with_permit limit k (busy m : serving unit) : ends limit busy -> ends limit m -> ends limit (with_permit k busy m).
Proof.
  intros Hb Hm c c' r. unfold with_permit. destruct (_ <=? 0); [apply Hb |].
  destruct (m _) as [c1 x] eqn:Hc. apply Hm in Hc. by intros [= <- <-].
Qed.

#[local] Hint Resolve ends_bind ends_ret ends_refuse ends_gets ends_advance ends_response ends_reply ends_error
  ends_timeout ends_with_permit : serves.

Lemma ends_provide {A} limit (p : option (calling A)) none rid k : (forall a, ends limit (k a)) ->
  ends limit (provide p none rid limit k).
Proof.
  intros Hk. unfold provide. destruct p; [| auto with serves]. apply ends_bind; [auto with serves |].
  intros [[a | e] |]; auto with serves.
Qed.
Lemma ends_answer {A} limit (p : option (calling A)) none rid accept : ends limit (answer p none rid limit accept).
Proof. apply ends_provide. intros a. destruct (accept a); auto with serves. Qed.
#[local] Hint Resolve ends_provide ends_answer : serves.

Lemma ends_wait limit t c c' r : conn_now c <= t <= Z.max (conn_now c) limit -> conn_wait (W := W) t c = (c', r) ->
  conn_now c' = t /\ r = Ok tt.
Proof. by intros Ht [= <- <-]. Qed.

Lemma ends_speedtest closed rid limit : forall l s, ends limit (serve_speedtest_stream (W := W) l closed rid limit s).
Proof.
  assert (Hwait : forall {A} (t : Z) (m : serving A) c c' r, conn_now c <= t <= Z.max (conn_now c) limit ->
            ends limit m -> (conn_wait t ;;; m) c = (c', r) ->
            conn_now c <= conn_now c' <= Z.max (conn_now c) limit /\ r <> Err Unfinished).
  { intros A t m c c' r Ht Hm Hr. unfold bind, conn_wait, modify in Hr. apply Hm in Hr as [Hr Hx]. simpl in Hr.
    split; [lia | done]. }
  induction l as [| [t event] l IH]; intros s c c' r; cbn [serve_speedtest_stream];
    change (bind server_now ?k c) with (k (conn_now c) c); cbv beta zeta.
  - destruct closed as [t |]; [destruct (_ <? _) eqn:Hl |]; apply Hwait; auto with serves; lia.
  - destruct (_ <? _) eqn:Hl; apply Hwait; auto with serves; try lia.
    apply ends_bind.
    { intros c1 c2 x [= <- <-]. split; [lia |]. destruct event as [stage | e];
        [destruct (SpeedTestStageData_validate stage) | destruct (SpeedTestBasicEnd_validate e)]; done. }
    intros body. apply ends_bind; [auto with serves |]. intros _. apply ends_bind; [apply ends_advance |].
    intros n. destruct event; auto with serves.
Qed.
#[local] Hint Resolve ends_speedtest : serves.

(** The time a request may take, terminal streams apart. *)
Definition serve_limit (body : RequestBody) : Z :=
  match body with
  | Req_Health _ | Req_RemoteCapabilities | Req_RemoteProfile _ | Req_Secret _ => HEALTH_TOTAL_DEADLINE
  | Req_SystemInfo => SYSTEM_INFO_TOTAL_DEADLINE
  | Req_RemoteSession _ => REMOTE_SESSION_TOTAL_DEADLINE
  | Req_SpeedTestBasic _ => SPEEDTEST_TOTAL_DEADLINE
  | Req_SpeedTestDeep command => speedtest_deep_deadline command
  | _ => SNAPSHOT_TOTAL_DEADLINE
  end.

Definition is_terminal_stream (body : RequestBody) : bool :=
  match body with Req_Terminal (Term_Stream _ _) => true | _ => false end.

(** C36: Whatever the providers do, a request that is not a terminal stream has been
    answered, refused or given up by the deadline of its kind. *)
Theorem serving_ends_in_time (config : ServerConfig) accepted_at rid fuel fresh body (c c' : @Connection W) r :
  is_terminal_stream body = false -> serve_request config accepted_at rid fuel fresh body c = (c', r) ->
  conn_now c <= conn_now c' <= Z.max (conn_now c) (accepted_at + serve_limit body) /\ r <> Err Unfinished.
Proof.
  intros Hbody. revert c c' r. change (ends (accepted_at + serve_limit body) (serve_request config accepted_at rid fuel fresh body)).
  unfold serve_request. destruct body as [h | | | q | | | command | command | command | command | command | command
    | b | r | kind | command]; cbn [serve_limit].
  - apply ends_bind; [auto with serves |]. intros runtime. destruct (build_health_report _ _ _); auto with serves.
  - unfold serve_telemetry_snapshot. auto with serves.
  - unfold serve_network_snapshot, write_capacity_error. auto with serves.
  - unfold serve_usage_summary, write_capacity_error. destruct (UsageSummaryQuery_validate q); auto with serves.
  - unfold serve_remote_capabilities. auto with serves.
  - unfold serve_system_info. auto with serves.
  - unfold serve_remote_profile. destruct (is_err _); auto with serves.
  - unfold serve_secret. destruct (is_err _); auto with serves.
  - unfold serve_remote_session. destruct (is_err _); auto with serves.
  - unfold serve_notes, write_capacity_error. destruct (NotesCommand_validate command); [| auto with serves].
    destruct command; auto 6 with serves.
  - unfold serve_terminal. destruct (is_err _); [auto with serves |]. destruct (terminal_provider config); [| auto with serves].
    destruct command; try discriminate; auto with serves.
  - unfold serve_transfer, write_capacity_error. destruct (is_err _); [auto with serves |]. destruct command; auto with serves.
  - unfold serve_transfer_local_handle. destruct (negb _); auto with serves.
  - unfold serve_speedtest_basic. destruct (is_err _); auto 6 with serves.
  - unfold serve_speedtest_cancel. auto with serves.
  - unfold serve_speedtest_deep. destruct (is_err _); auto with serves.
Qed.
End Facts.

(** * What the daemon writes on a connection that ends well is an answer to its
    request: one error, one body or the frames of one stream, which the client
    takes. *)

(** ** Answers *)

Section Answered.
Context `{Json RequestEnvelope} `{Json ResponseEnvelope} `{Base64} `{UuidFormat} `{Sha256} {J : Type} `{TaskCodec J}.

(** Bodies in frames that are numbered from [s]. *)
Inductive numbered (rid : Uuid) : Z -> list ResponseBody -> list (list Z) -> Prop :=
| numbered_nil s : numbered rid s [] []
| numbered_cons s b bs p ps :
    to_vec (response rid s None b) = Ok p -> numbered rid (s + 1) bs ps -> numbered rid s (b :: bs) (p :: ps).

Lemma numbered_app rid s bs ps bs' ps' : numbered rid s bs ps ->
  numbered rid (s + Z.of_nat (length bs)) bs' ps' -> numbered rid s (bs ++ bs') (ps ++ ps').
Proof.
  induction 1 as [s | s b bs p ps Hp Hn IH]; simpl; [by rewrite Z.add_0_r |].
  intros Hn'. constructor; [done |]. apply IH. by replace (s + 1 + Z.of_nat (length bs)) with (s + Z.of_nat (S (length bs))) by lia.
Qed.

(** The body of a single response. *)
Definition body_fits (b : RequestBody) (r : ResponseBody) : Prop :=
  match b, r with
  | Req_Health h, Resp_HealthReport r => health_report_fits (requested_capabilities h) r = true
  | Req_RemoteCapabilities, Resp_RemoteCapabilities c => RemoteAdapterCatalog_validate c = Ok tt
  | Req_SystemInfo, Resp_SystemInfo r => SystemInfoReport_validate r = true
  | Req_RemoteProfile command, Resp_RemoteProfile r => RemoteProfileResult_validate_for r command = Ok tt
  | Req_Secret command, Resp_Secret r => SecretCommandResult_validate_for r command = Ok tt
  | Req_RemoteSession command, Resp_RemoteSession r => RemoteSessionResult_validate_for r command = Ok tt
  | Req_Notes command, Resp_NotesMutation m => notes_output_matches command (O_Mutation m) = true
  | Req_Terminal command, Resp_Terminal r => TerminalResult_validate_for r command = Ok tt
  | Req_Transfer command, Resp_Transfer o =>
      TransferOutput_validate_for o command = Ok tt /\ (forall p, o <> Output_Page p)
  | Req_TransferLocalHandle _, Resp_TransferLocalHandle g => TransferLocalHandleGrant_validate g = Ok tt
  | Req_SpeedTestCancel _, Resp_SpeedTestCancelled r => SpeedTestCancelResult_validate r = true
  | Req_SpeedTestDeep command, Resp_SpeedTestDeep o => SpeedTestDeepOutput_validate_for o command = true
  | _, _ => False
  end.

(** The stream of a plan. Of a stream of notes the daemon checks the kind, not
    that it is for the note or the query of the request. *)
Definition stream_fits (b : RequestBody) (x : streamed) : Prop :=
  match b, x with
  | Req_TelemetrySnapshot, Stream_telemetry _ | Req_NetworkSnapshot, Stream_network _ => True
  | Req_UsageSummary q, Stream_usage s => us_query s = q
  | Req_Transfer command, Stream_transfers p => TransferOutput_validate_for (Output_Page p) command = Ok tt
  | Req_Notes (C_List _), Stream_notes _ | Req_Notes (C_Get _), Stream_document _
  | Req_Notes (C_Export _ _), Stream_export _ => True
  | _, _ => False
  end.

Inductive answered_with (fresh rid : Uuid) (b : RequestBody) : list (list Z) -> Prop :=
| with_error e p : to_vec (terminal_error rid 0 None e) = Ok p -> answered_with fresh rid b [p]
| with_body body p : to_vec (response rid 0 None body) = Ok p -> body_fits b body -> answered_with fresh rid b [p]
| with_stream x frames : plan_of fresh rid x = Ok frames -> stream_fits b x -> answered_with fresh rid b frames
| with_stages l e frames :
    numbered rid 0 (map Resp_SpeedTestStage l ++ [Resp_SpeedTestBasicEnd e]) frames ->
    Forall (fun stage => SpeedTestStageData_validate stage = true) l -> SpeedTestBasicEnd_validate e = true ->
    (exists r, b = Req_SpeedTestBasic r) -> answered_with fresh rid b frames
| with_terminal sid m start bodies stop frames :
    b = Req_Terminal (Term_Stream sid m) ->
    numbered rid 0 (start :: bodies ++ [stop]) frames ->
    (exists event, terminal_event sid m false start = Some (event, false)) ->
    Forall (fun body => exists event, terminal_event sid m true body = Some (event, false)) bodies ->
    (exists event, terminal_event sid m true stop = Some (event, true)) -> answered_with fresh rid b frames.

(** ** What is written *)

Context {W : Type}.
Abbreviation serving A := (mut (@Connection W) A server_failure).

Definition writes {A} (m : serving A) (Out : A -> list (list Z) -> Prop) : Prop := forall c c' a, m c = (c', Ok a) ->
  exists frames, conn_out c' = conn_out c ++ concat (map frame_of frames) /\ Forall sendable frames /\ Out a frames.

Lemma writes_weaken {A} (m : serving A) (P Q : A -> list (list Z) -> Prop) :
  writes m P -> (forall a frames, P a frames -> Q a frames) -> writes m Q.
Proof. intros Hm Hpq c c' a Hr. apply Hm in Hr as (frames & Ho & Hs & Hp). eauto. Qed.

Lemma writes_bind {A B} (m : serving A) (k : A -> serving B) P Q (Out : B -> list (list Z) -> Prop) :
  writes m P -> (forall a f, P a f -> writes (k a) (Q a)) ->
  (forall a f b f', P a f -> Q a b f' -> Out b (f ++ f')) -> writes (bind m k) Out.
Proof.
  intros Hm Hk Hout c c' b Hr. apply bind_ok in Hr as (c1 & a & Ha & Hb).
  apply Hm in Ha as (f & Hf & Hs & Hp). apply (Hk a f Hp) in Hb as (f' & Hf' & Hs' & Hq). exists (f ++ f').
  split; [| split; [by apply Forall_app | eauto]]. by rewrite Hf', Hf, map_app, concat_app, app_assoc.
Qed.

(** A program that writes nothing. *)
Definition quiet {A} (m : serving A) (P : A -> Prop) : Prop := forall c c' a, m c = (c', Ok a) -> conn_out c' = conn_out c /\ P a.

Lemma writes_quiet {A B} (m : serving A) (k : A -> serving B) P (Out : B -> list (list Z) -> Prop) :
  quiet m P -> (forall a, P a -> writes (k a) Out) -> writes (bind m k) Out.
Proof.
  intros Hm Hk c c' b Hr. apply bind_ok in Hr as (c1 & a & Ha & Hb). apply Hm in Ha as [<- Ha]. by eapply Hk.
Qed.
Lemma quiet_bind {A B} (m : serving A) (k : A -> serving B) P Q :
  quiet m P -> (forall a, P a -> quiet (k a) Q) -> quiet (bind m k) Q.
Proof.
  intros Hm Hk c c' b Hr. apply bind_ok in Hr as (c1 & a & Ha & Hb). apply Hm in Ha as [<- Ha]. by eapply Hk.
Qed.
Lemma quiet_gets {A} (f : Connection -> A) : quiet (gets f) (fun _ => True).
Proof. by intros c c' a [= <- _]. Qed.
Lemma quiet_modify (f : Connection -> Connection) : (forall c, conn_out (f c) = conn_out c) -> quiet (modify f) (fun _ => True).
Proof. by intros Hf c c' a [= <- _]. Qed.
Lemma quiet_timeout {A} d (p : calling A) : quiet (timeout_at d p) (fun _ => True).
Proof. intros c c' a. unfold timeout_at. by destruct (_ <? _); intros [= <- _]. Qed.
Lemma quiet_now : quiet server_now (fun _ => True). Proof. apply quiet_gets. Qed.
Lemma quiet_sleep d : quiet (sleep d) (fun _ => True). Proof. by apply quiet_modify. Qed.
Lemma quiet_wait t : quiet (conn_wait t) (fun _ => True). Proof. by apply quiet_modify. Qed.
Lemma quiet_ret {A} (a : A) (P : A -> Prop) : P a -> quiet (ret a) P. Proof. by intros Hp c c' x [= <- <-]. Qed.
Lemma quiet_refuse {A} e (P : A -> Prop) : quiet (refuse e) P. Proof. by intros c c' x [=]. Qed.
Lemma quiet_advance n : quiet (advance n) (fun n' => n' = n + 1).
Proof.
  intros c c' a. unfold advance, lift, Prelude.checked_u32. intros [= <- Ha]. destruct (in_u32 _); [by injection Ha as <- | discriminate].
Qed.

Lemma writes_refuse {A} e (Out : A -> list (list Z) -> Prop) : writes (refuse e) Out. Proof. by intros c c' x [=]. Qed.
Lemma writes_ret {A} (a : A) (Out : A -> list (list Z) -> Prop) : Out a [] -> writes (ret a) Out.
Proof. intros Ho c c' x [= <- <-]. exists []. by rewrite app_nil_r. Qed.

Lemma writes_response r d : writes (write_response r d) (fun _ frames => exists p, frames = [p] /\ to_vec r = Ok p).
Proof.
  intros c c' []. unfold write_response, to_stream, zoom, mut_map_err.
  destruct (write_json r d (conn_writer c)) as [w x] eqn:Hw. intros [= <- Hx].
  destruct x as [[] | e]; [| discriminate]. unfold write_json, bind, lift in Hw.
  destruct (to_vec r) as [p | e] eqn:Hp; [| discriminate]. cbn [map_err] in Hw. apply write_frame_ok in Hw as [Hs Hw].
  exists [p]. split; [simpl; by rewrite app_nil_r |]. split; [by constructor | eauto].
Qed.

Lemma writes_plan frames d : writes (to_stream (write_encoded_plan frames d)) (fun _ f => f = frames).
Proof.
  assert (Hplan : forall fs w w', write_encoded_plan fs d w = (w', Ok tt) ->
            Forall sendable fs /\ written w' = written w ++ concat (map frame_of fs)).
  { induction fs as [| p fs IH]; intros w w' Hr; cbn [write_encoded_plan] in Hr.
    - unfold ret in Hr. injection Hr as <-. by rewrite app_nil_r.
    - apply bind_ok in Hr as (w1 & [] & Hp & Hr). apply write_frame_ok in Hp as [Hs Hp].
      apply IH in Hr as [Hss Hr]. split; [by constructor |]. simpl. by rewrite Hr, Hp, <- app_assoc. }
  intros c c' []. unfold to_stream, zoom, mut_map_err.
  destruct (write_encoded_plan frames d (conn_writer c)) as [w x] eqn:Hw. intros [= <- Hx].
  destruct x as [[] | e]; [| discriminate]. apply Hplan in Hw as [Hs Hw]. eauto.
Qed.

(** A frame that is too large has not been written at all. *)
Lemma oversize_writes_nothing r d c c' :
  write_response r d c = (c', Err (Refused (Srv_Connection Oversize))) -> conn_out c' = @conn_out W c.
Proof.
  unfold write_response, to_stream, zoom, mut_map_err.
  destruct (write_json r d (conn_writer c)) as [w x] eqn:Hw. intros [= <- Hx].
  destruct x as [[] | e]; [discriminate |]. injection Hx as ->. unfold write_json, bind, lift in Hw.
  destruct (map_err InvalidJson (to_vec r)) as [p | e] eqn:Hp; [| by injection Hw as <- _].
  unfold write_frame, write_frame_with_idle_timeout in Hw. destruct (_ =? _)%nat; [by injection Hw as <- _ |].
  destruct (_ <? _); [by injection Hw as <- |].
  assert (Ht : forall bs w w', timed_write bs d FRAME_IDLE_TIMEOUT w <> (w', Err Oversize)).
  { intros bs w1 w2. unfold timed_write. destruct (_ <=? _); [discriminate |]. cbv zeta. intros [= _ Hx].
    destruct (_ <? _) in Hx; [unfold timeout_error in Hx; by destruct (_ =? _) in Hx |]. by destruct (write_error _) in Hx. }
  unfold bind in Hw. destruct (timed_write _ _ _ (conn_writer c)) as [w1 [u | e]] eqn:Hw1.
  - by apply Ht in Hw.
  - injection Hw as _ ->. by apply Ht in Hw1.
Qed.

Lemma writes_error fresh rid b d e : writes (write_terminal_error rid d e) (fun _ => answered_with fresh rid b).
Proof.
  assert (Hone : forall e d, writes (write_response (terminal_error rid 0 None e) d) (fun _ => answered_with fresh rid b)).
  { intros e1 d1. eapply writes_weaken; [apply writes_response |]. intros [] f (p & -> & Hp). by eapply with_error. }
  intros c c' []. unfold write_terminal_error. destruct (write_response _ d c) as [c1 x] eqn:Hc.
  destruct x as [u | [[| [] | |] |]]; try discriminate.
  - intros [= <- _]. by eapply Hone.
  - apply oversize_writes_nothing in Hc. intros Hr. rewrite <- Hc. by eapply Hone.
Qed.

Lemma writes_with_permit k (busy m : serving unit) Out : writes busy Out -> writes m Out -> writes (with_permit k busy m) Out.
Proof.
  intros Hb Hm c c' a. unfold with_permit. destruct (_ <=? 0); [apply Hb |].
  destruct (m _) as [c1 x] eqn:Hc. intros [= <- ->]. by apply Hm in Hc.
Qed.

Lemma writes_provide {A} fresh b (p : option (calling A)) none rid d k :
  (forall a, writes (k a) (fun _ => answered_with fresh rid b)) ->
  writes (provide p none rid d k) (fun _ => answered_with fresh rid b).
Proof.
  intros Hk. unfold provide. destruct p; [| apply writes_error]. eapply writes_quiet; [apply quiet_timeout |].
  intros [[a | e] |] _; [apply Hk | apply writes_error | apply writes_refuse].
Qed.

Definition reply_fits (fresh rid : Uuid) (b : RequestBody) (r : reply) : Prop :=
  match r with
  | Reply_body body => body_fits b body
  | Reply_frames frames => exists x, plan_of fresh rid x = Ok frames /\ stream_fits b x
  end.

Lemma writes_answer {A} fresh b (p : option (calling A)) none rid d accept :
  (forall a r, accept a = Ok r -> reply_fits fresh rid b r) ->
  writes (answer p none rid d accept) (fun _ => answered_with fresh rid b).
Proof.
  intros Ha. apply writes_provide. intros a. destruct (accept a) as [r | e] eqn:Hr; [| apply writes_error].
  apply Ha in Hr. destruct r as [body | frames]; cbn [write_reply reply_fits] in *.
  - eapply writes_weaken; [apply writes_response |]. intros [] f (p' & -> & Hp). by eapply with_body.
  - destruct Hr as (x & Hx & Hf). eapply writes_weaken; [apply writes_plan |]. intros [] f ->. by eapply with_stream.
Qed.
(** ** Speed tests *)

Lemma quiet_check {A} (r : result A server_failure) : quiet (lift (fun _ => r)) (fun a => r = Ok a).
Proof. by intros c c' a [= <- ->]. Qed.

Lemma writes_speedtest closed rid d : forall l s,
  writes (serve_speedtest_stream l closed rid d s) (fun _ f => exists stages e,
    numbered rid s (map Resp_SpeedTestStage stages ++ [Resp_SpeedTestBasicEnd e]) f /\
    Forall (fun stage => SpeedTestStageData_validate stage = true) stages /\ SpeedTestBasicEnd_validate e = true).
Proof.
  induction l as [| [t event] l IH]; intros s; cbn [serve_speedtest_stream];
    (eapply writes_quiet; [apply quiet_now |]; intros now _; cbv zeta).
  - destruct closed; [destruct (_ <? _) |]; (eapply writes_quiet; [apply quiet_wait | intros _ _; apply writes_refuse]).
  - destruct (_ <? _); [eapply writes_quiet; [apply quiet_wait | intros _ _; apply writes_refuse] |].
    eapply writes_quiet; [apply quiet_wait | intros _ _].
    destruct event as [stage | e]; (eapply writes_quiet; [apply quiet_check |]); intros body Hbody.
    + destruct (SpeedTestStageData_validate stage) eqn:Hv; [injection Hbody as <- | discriminate].
      eapply writes_bind; [apply writes_response | |].
      { intros u0 ? _. eapply (writes_quiet _ _ (fun n => n = s + 1)); [apply quiet_advance |]. intros n ->. apply IH. }
      intros [] f [] f' (p & -> & Hp) (stages & e & Hn & Hs & He). exists (stage :: stages), e. split_and!; [| | done].
      * simpl. by constructor.
      * by constructor.
    + destruct (SpeedTestBasicEnd_validate e) eqn:Hv; [injection Hbody as <- | discriminate].
      eapply writes_bind; [apply writes_response | |].
      { intros u0 ? _. eapply (writes_quiet _ _ (fun n => n = s + 1)); [apply quiet_advance |]. intros n ->.
        apply (writes_ret tt (fun _ f => f = [])). done. }
      intros [] f [] f' (p & -> & Hp) ->. exists [], e. split_and!; [| constructor | done].
      simpl. constructor; [done | constructor].
Qed.

(** ** Terminals *)

Section Terminal.
Context (provider : TerminalCommand -> @calling W TerminalResult) (rid sid : Uuid) (m : Z).

Definition stream_body (b : ResponseBody) : Prop := exists event, terminal_event sid m true b = Some (event, false).
Definition status_ok (s : TerminalStatus) : Prop := is_ok (TerminalStatus_validate s) = true.
Definition final_ok (s : TerminalStatus) : Prop := status_ok s /\ Terminal.is_running (term_state s) = false.
Definition state_ok (s : terminal_state) : Prop := forall status, final_status s = Some status -> final_ok status.

Lemma settled_ok status final : status_ok status -> settled status = Some final -> final_ok final.
Proof. unfold settled, final_ok. intros Hs. destruct (Terminal.is_running _) eqn:Hr; [discriminate |]. by intros [= <-]. Qed.

Lemma quiet_command command : quiet (terminal_stream_command provider command) (fun _ => True).
Proof.
  unfold terminal_stream_command. eapply quiet_bind; [apply quiet_now | intros now _].
  eapply quiet_bind; [apply quiet_timeout |]. intros [[r | e] |] _; [by apply quiet_ret | apply quiet_refuse | apply quiet_refuse].
Qed.

Lemma quiet_status : quiet (terminal_stream_status provider sid) status_ok.
Proof.
  unfold terminal_stream_status. eapply quiet_bind; [apply quiet_command |]. intros r _.
  destruct (is_err _) eqn:Hv; [apply quiet_refuse |]. destruct r; try apply quiet_refuse. apply quiet_ret.
  apply is_err_false_iff in Hv as [u Hv]. unfold TerminalResult_validate_for in Hv. destruct (_ && _) eqn:Hb in Hv; [| discriminate].
  by apply andb_true_iff in Hb as [_ Hb].
Qed.

(** A frame of the stream and the next sequence number. *)
Lemma writes_frame n b : stream_body b -> writes (write_terminal_stream rid n b ;;; advance n)
  (fun n' f => n' = n + 1 /\ numbered rid n [b] f).
Proof.
  intros Hb. eapply writes_bind.
  - unfold write_terminal_stream. eapply writes_quiet; [apply quiet_now |]. intros now _. apply writes_response.
  - intros u0 ? _ c c' a Ha. apply quiet_advance in Ha as [Ho ->]. exists []. rewrite Ho, app_nil_r. split; [done |]. split; [done |].
    instantiate (1 := fun _ n' f => n' = n + 1 /\ f = []). done.
  - intros [] f n' f' (p & -> & Hp) [-> ->]. split; [done |]. simpl. constructor; [done | constructor].
Qed.

(** What a part of a turn writes, from a sequence number to the next. *)
Definition part (n n' : Z) (f : list (list Z)) : Prop :=
  exists bodies, numbered rid n bodies f /\ Forall stream_body bodies /\ n' = n + Z.of_nat (length bodies).

Lemma part_nothing n : part n n [].
Proof. exists []. split_and!; [constructor | constructor | simpl; lia]. Qed.
Lemma part_one n b f : stream_body b -> numbered rid n [b] f -> part n (n + 1) f.
Proof. intros Hb Hn. exists [b]. split_and!; [done | by constructor | done]. Qed.
Lemma part_app n n1 n2 f f' : part n n1 f -> part n1 n2 f' -> part n n2 (f ++ f').
Proof.
  intros (b & Hn & Hb & ->) (b' & Hn' & Hb' & ->). exists (b ++ b'). split_and!.
  - by apply numbered_app.
  - by apply Forall_app.
  - rewrite length_app. lia.
Qed.

Lemma writes_read s : state_ok s -> writes (terminal_read provider rid sid m s) (fun turn f =>
  match turn with inl status => f = [] /\ final_ok status | inr n => part (stream_sequence s) n f end).
Proof.
  intros Hs. unfold terminal_read. eapply writes_quiet; [apply quiet_command |]. intros r _.
  destruct (is_err _) eqn:Hv; [apply writes_refuse |]. apply is_err_false_iff in Hv as [u Hv].
  destruct r as [| i [| data |] | | | |]; try apply writes_refuse.
  - destruct (final_status s) as [status |] eqn:Hf.
    + apply writes_ret. split; [done | by apply Hs].
    + eapply writes_quiet; [apply quiet_sleep |]. intros _ _. apply writes_ret, part_nothing.
  - assert (Hb : stream_body (Resp_TerminalStreamData sid data)).
    { eexists. unfold terminal_event. unfold TerminalResult_validate_for in Hv.
      destruct (_ && _) eqn:Hb in Hv; [| discriminate]. apply andb_true_iff in Hb as [_ ->]. by rewrite Z.eqb_refl. }
    intros c c' a Ha. apply (writes_frame (stream_sequence s)) in Hb.
    apply bind_ok in Ha as (c1 & [] & Hw & Ha). apply bind_ok in Ha as (c2 & n & Had & Ha). injection Ha as <- <-.
    destruct (Hb c c2 n) as (f & Hf & Hs' & -> & Hn); [apply bind_ok; eauto |]. exists f. split; [done |]. split; [done |].
    eapply part_one; [| exact Hn]. eexists. unfold terminal_event. unfold TerminalResult_validate_for in Hv.
    destruct (_ && _) eqn:Hb' in Hv; [| discriminate]. apply andb_true_iff in Hb' as [_ ->]. by rewrite Z.eqb_refl.
  - eapply (writes_quiet _ _ status_ok).
    { destruct (final_status s) eqn:Hf; [apply quiet_ret; by apply Hs | apply quiet_status]. }
    intros status Hst. destruct (settled status) eqn:Hset.
    + apply writes_ret. split; [done | by eapply settled_ok].
    + eapply writes_quiet; [apply quiet_sleep |]. intros _ _. apply writes_ret, part_nothing.
Qed.

Lemma writes_poll s : state_ok s -> writes (terminal_poll provider rid sid s) (fun s' f =>
  part (stream_sequence s) (stream_sequence s') f /\ state_ok s').
Proof.
  intros Hs. unfold terminal_poll. eapply writes_quiet; [apply quiet_now |]. intros now _.
  destruct (_ || _); [apply writes_ret; split; [apply part_nothing | done] |].
  eapply writes_quiet; [apply quiet_status |]. intros status Hst.
  eapply writes_quiet; [apply quiet_now |]. intros now' _. cbv zeta.
  assert (Hb : stream_body (Resp_TerminalStreamStatus sid status)).
  { eexists. unfold terminal_event. unfold status_ok in Hst. by rewrite Hst, Z.eqb_refl. }
  eapply (writes_bind _ _ (fun x f => part (stream_sequence s) x.1.1 f)
    (fun x s' f => f = [] /\ stream_sequence s' = x.1.1 /\ state_ok s')).
  - destruct (_ || _); [| apply writes_ret, part_nothing].
    intros c c' a Ha. pose proof (writes_frame (stream_sequence s) _ Hb) as Hw.
    apply bind_ok in Ha as (c1 & [] & Hw1 & Ha). apply bind_ok in Ha as (c2 & n & Had & Ha). injection Ha as <- <-.
    destruct (Hw c c2 n) as (f & Hf & Hs' & -> & Hn); [apply bind_ok; eauto |]. exists f. split; [done |]. split; [done |]. by eapply part_one.
  - intros [[n last] sent_at] _ _. apply writes_ret.
    split_and!; [done | done |]. intros final Hfin. by eapply settled_ok.
  - intros [[n last] sent_at] f s' f' Hp (-> & Hn & Hok). rewrite app_nil_r, Hn. done.
Qed.

Definition stop_body (b : ResponseBody) : Prop := exists event, terminal_event sid m true b = Some (event, true).

Lemma writes_end n status : final_ok status -> writes (write_terminal_stream_end rid sid n status)
  (fun _ f => exists stop, numbered rid n [stop] f /\ stop_body stop).
Proof.
  intros [Hs Hr]. unfold write_terminal_stream_end, write_terminal_stream.
  eapply writes_quiet; [apply quiet_now |]. intros now _. eapply writes_weaken; [apply writes_response |].
  intros [] f (p & -> & Hp). eexists. split; [constructor; [exact Hp | constructor] |].
  eexists. unfold terminal_event. unfold status_ok in Hs. by rewrite Hs, Z.eqb_refl, Hr.
Qed.

Lemma writes_turns : forall fuel s, state_ok s -> writes (terminal_turns provider rid sid m fuel s) (fun _ f =>
  exists bodies stop, numbered rid (stream_sequence s) (bodies ++ [stop]) f /\ Forall stream_body bodies /\ stop_body stop).
Proof.
  induction fuel as [| fuel IH]; intros s Hs; cbn [terminal_turns]; [by intros c c' a [=] |].
  eapply (writes_bind _ _ _ (fun turn _ f => match turn with
      | inl status => exists stop, numbered rid (stream_sequence s) [stop] f /\ stop_body stop
      | inr n => exists bodies stop, numbered rid n (bodies ++ [stop]) f /\ Forall stream_body bodies /\ stop_body stop end)).
  - by apply writes_read.
  - intros [status | n] f Hp; [apply writes_end; by destruct Hp |].
    eapply (writes_bind _ _ (fun s' f => part n (stream_sequence s') f /\ state_ok s')).
    + by apply (writes_poll (at_sequence n s)).
    + intros s' f' [_ Hs']. by apply IH.
    + intros s' f1 [] f2 [(b1 & Hn1 & Hb1 & ->) _] (b2 & stop & Hn2 & Hb2 & Hst). exists (b1 ++ b2), stop. split_and!.
      * rewrite <- app_assoc. by apply numbered_app.
      * by apply Forall_app.
      * done.
  - intros [status | n] f [] f'.
    + intros [-> _] (stop & Hn & Hst). by exists [], stop.
    + intros (b1 & Hn1 & Hb1 & ->) (b2 & stop & Hn2 & Hb2 & Hst). exists (b1 ++ b2), stop. split_and!.
      * rewrite <- app_assoc. by apply numbered_app.
      * by apply Forall_app.
      * done.
Qed.

Lemma writes_terminal fuel : writes (serve_terminal_stream provider rid sid m fuel)
  (fun _ f => answered_with 0 rid (Req_Terminal (Term_Stream sid m)) f).
Proof.
  unfold serve_terminal_stream. eapply writes_quiet; [apply quiet_status |]. intros status Hst.
  assert (Hstart : exists event, terminal_event sid m false (Resp_TerminalStreamStart
      {| ts_session_id := sid; ts_max_bytes := m; ts_status := status |}) = Some (event, false)).
  { eexists. unfold terminal_event. simpl. unfold status_ok in Hst. by rewrite Hst, !Z.eqb_refl. }
  eapply (writes_bind _ _ _ (fun _ _ f => exists bodies stop,
    numbered rid 1 (bodies ++ [stop]) f /\ Forall stream_body bodies /\ stop_body stop)).
  - unfold write_terminal_stream. eapply writes_quiet; [apply quiet_now |]. intros now _. apply writes_response.
  - intros u0 ? _. eapply (writes_quiet _ _ (fun n => n = 1)); [apply quiet_advance |]. intros n ->.
    eapply writes_quiet; [apply quiet_now |]. intros now _. eapply writes_weaken; [apply writes_turns | done].
    intros final Hf. by eapply settled_ok.
  - intros [] f [] f' (p & -> & Hp) (bodies & stop & Hn & Hb & Hs). simpl in Hn.
    eapply (with_terminal _ _ _ sid m _ bodies stop); [done | | done | exact Hb | exact Hs].
    simpl. by constructor.
Qed.
End Terminal.

(** ** Every request *)

Lemma answered_fresh fresh rid sid m f : answered_with 0 rid (Req_Terminal (Term_Stream sid m)) f ->
  answered_with fresh rid (Req_Terminal (Term_Stream sid m)) f.
Proof.
  destruct 1 as [e p Hp | body p Hp Hf | x f Hx Hf | l e f Hn Hl He Hr | ? ? start bodies stop f Hb Hn Hs Hbs He].
  - by eapply with_error.
  - by eapply with_body.
  - by destruct x.
  - by eapply with_stages.
  - by eapply with_terminal.
Qed.

Lemma capability_id catalog id : cap_id (requested_capability catalog id) = id.
Proof.
  unfold requested_capability. destruct (List.find _ _) as [c |] eqn:Hf; [| done].
  apply find_some in Hf as [_ Hf]. by apply String.eqb_eq.
Qed.

(** A report is for the capabilities asked for, in their order, and never says
    that the daemon cannot be reached. *)
Lemma health_report_ok version runtime h r : build_health_report version runtime h = Ok r ->
  health_report_fits (requested_capabilities h) r = true.
Proof.
  unfold build_health_report. intros Hr. apply result_bind_ok in Hr as (u & _ & Hr). injection Hr as <-.
  unfold health_report_fits. cbn [report_health capabilities]. rewrite length_fmap, Nat.eqb_refl.
  set (daemon := match run_status (Domain.appd_health runtime) with Cap_Healthy => _ | _ => _ end).
  assert (Hd : is_online (health daemon) = true \/ health daemon = Unsupported).
  { unfold daemon. destruct (run_status _); auto. }
  apply andb_true_iff. split; [apply andb_true_iff; split; [| done] |].
  - unfold aggregate_request_health. simpl. destruct (negb (is_online (health daemon))) eqn:Ho; simpl.
    + destruct Hd as [Hd | ->]; [by rewrite Hd in Ho | done].
    + destruct (List.find _ _); simpl; [done |]. destruct Hd as [Hd | ->]; [by destruct (health daemon) | done].
  - induction (requested_capabilities h) as [| id l IH]; [done |]. simpl. by rewrite capability_id, String.eqb_refl.
Qed.

Lemma serve_writes (config : @ServerConfig W) accepted_at rid fuel fresh b :
  writes (serve_request config accepted_at rid fuel fresh b) (fun _ => answered_with fresh rid b).
Proof.
  unfold serve_request. destruct b as [h | | | q | | | command | command | command | command | command | command
    | bind | r | kind | command].
  - eapply writes_quiet; [apply quiet_gets |]. intros runtime _.
    destruct (build_health_report _ _ _) as [report | e] eqn:Hr; [| apply writes_error].
    eapply writes_weaken; [apply writes_response |]. intros [] f (p & -> & Hp).
    eapply with_body; [exact Hp |]. by eapply health_report_ok.
  - apply writes_with_permit; [apply writes_error |]. apply writes_answer. intros s r Hr.
    apply result_bind_ok in Hr as (frames & Hf & Hr). injection Hr as <-. by exists (Stream_telemetry s).
  - apply writes_with_permit; [apply writes_error |]. apply writes_answer. intros s r Hr.
    apply result_bind_ok in Hr as (frames & Hf & Hr). injection Hr as <-. by exists (Stream_network s).
  - unfold serve_usage_summary. destruct (UsageSummaryQuery_validate q); [| apply writes_error].
    apply writes_with_permit; [apply writes_error |]. apply writes_answer. intros s r Hr.
    guards Hr. apply result_bind_ok in Hr as (frames & Hf & Hr). injection Hr as <-. exists (Stream_usage s). split; [done |].
    bool_facts. done.
  - apply writes_answer. intros a r Hr. apply result_bind_ok in Hr as ([] & Hv & Hr). injection Hr as <-.
    by apply map_err_ok in Hv.
  - apply writes_answer. intros a r Hr. guards Hr. injection Hr as <-. by bool_facts.
  - unfold serve_remote_profile. destruct (is_err _); [apply writes_error |].
    apply writes_answer. intros a r Hr. guards Hr. injection Hr as <-. apply is_err_false_iff in Heqb as [[] Hv]. exact Hv.
  - unfold serve_secret. destruct (is_err _); [apply writes_error |].
    apply writes_answer. intros a r Hr. guards Hr. injection Hr as <-. apply is_err_false_iff in Heqb as [[] Hv]. exact Hv.
  - unfold serve_remote_session. destruct (is_err _); [apply writes_error |].
    apply writes_answer. intros a r Hr. guards Hr. injection Hr as <-. apply is_err_false_iff in Heqb as [[] Hv]. exact Hv.
  - unfold serve_notes. destruct (NotesCommand_validate command); [| apply writes_error].
    apply writes_with_permit; [apply writes_error |].
    assert (Ha : writes (answer ((fun p => p command) <$> notes_provider config)
                   (unavailable "notes_provider_unavailable" "notes_provider_unavailable") rid
                   (accepted_at + SNAPSHOT_TOTAL_DEADLINE) (notes_reply rid fresh command))
                 (fun _ => answered_with fresh rid (Req_Notes command))).
    { apply writes_answer. intros o r Hr. unfold notes_reply in Hr. guards Hr. apply negb_false_iff in Heqb.
      destruct o as [r' | p | d | e]; [injection Hr as <-; exact Heqb | ..];
        apply result_bind_ok in Hr as (frames & Hf & Hr); injection Hr as <-.
      - exists (Stream_notes p). split; [done |]. by destruct command.
      - exists (Stream_document d). split; [done |]. by destruct command.
      - exists (Stream_export e). split; [done |]. by destruct command. }
    destruct command; try exact Ha. apply writes_with_permit; [apply writes_error | exact Ha].
  - unfold serve_terminal. destruct (is_err _); [apply writes_error |]. destruct (terminal_provider config) as [p |]; [| apply writes_error].
    assert (Ha : writes (answer (Some (p command)) (unavailable "terminal_provider_unavailable" "terminal_provider_unavailable")
                   rid (accepted_at + SNAPSHOT_TOTAL_DEADLINE)
                   (fun r => fail_if is_err (TerminalResult_validate_for r command)
                             with refusal "terminal_result_invalid" "terminal_result_invalid" in Ok (Reply_body (Resp_Terminal r))))
                 (fun _ => answered_with fresh rid (Req_Terminal command))).
    { apply writes_answer. intros a r Hr. guards Hr. injection Hr as <-. apply is_err_false_iff in Heqb as [[] Hv]. exact Hv. }
    destruct command; try exact Ha. eapply writes_weaken; [apply writes_terminal |]. intros [] f. apply answered_fresh.
  - unfold serve_transfer. destruct (is_err _); [apply writes_error |].
    assert (Ha : writes (answer ((fun p => p command) <$> transfer_provider config)
                   (unavailable "transfer_provider_unavailable" "transfer_provider_unavailable") rid
                   (accepted_at + SNAPSHOT_TOTAL_DEADLINE) (transfer_reply rid fresh command))
                 (fun _ => answered_with fresh rid (Req_Transfer command))).
    { apply writes_answer. intros o r Hr. unfold transfer_reply in Hr. guards Hr. apply is_err_false_iff in Heqb as [[] Hv].
      destruct o; try (injection Hr as <-; by split).
      apply result_bind_ok in Hr as (frames & Hf & Hr). injection Hr as <-. by eexists (Stream_transfers _). }
    destruct command; try exact Ha. apply writes_with_permit; [apply writes_error | exact Ha].
  - unfold serve_transfer_local_handle. destruct (negb _); [apply writes_error |].
    apply writes_answer. intros a r Hr. guards Hr. injection Hr as <-. apply is_err_false_iff in Heqb as [[] Hv]. exact Hv.
  - unfold serve_speedtest_basic. destruct (is_err _); [apply writes_error |].
    apply writes_with_permit; [apply writes_error |]. apply writes_provide. intros receiver.
    eapply writes_weaken; [apply writes_speedtest |]. intros [] f (l & e & Hn & Hl & He). eapply with_stages; eauto.
  - apply writes_answer. intros a r Hr. guards Hr. injection Hr as <-. by bool_facts.
  - unfold serve_speedtest_deep. destruct (is_err _); [apply writes_error |].
    apply writes_answer. intros a r Hr. guards Hr. injection Hr as <-. by bool_facts.
Qed.

Lemma quiet_read t : quiet (read_request t) (fun _ => True).
Proof.
  unfold read_request. eapply (quiet_bind _ _ (fun _ => True)); [by intros c c' a [= <- _] |]. intros _ _.
  eapply (quiet_bind _ _ (fun _ => True)); [by apply quiet_modify |]. intros _ _ c c' a.
  unfold zoom. destruct (mut_map_err _ _ _) as [s x]. by intros [= <- _].
Qed.

(** C8: A connection that ends well has written one answer to its request, and
    nothing else: an error, a body that fits, the frames of a stream within its
    limits, or a stream of numbered bodies that the client takes. *)
Theorem connection_answers_its_request (config : @ServerConfig W) fuel fresh t c c' :
  handle_connection_inner config fuel fresh t c = (c', Ok tt) ->
  exists c1 request frames, read_request t c = (c1, Ok request) /\
    conn_out c' = conn_out c ++ concat (map frame_of frames) /\ Forall sendable frames /\
    answered_with fresh (req_request_id request) (req_body request) frames.
Proof.
  intros Hr. apply bind_ok in Hr as (c1 & request & Hread & Hr). exists c1, request.
  assert (Hout : conn_out c1 = conn_out c).
  { by apply quiet_read in Hread as [? _]. }
  assert (Hw : writes (if is_nil (req_request_id request) then refuse Srv_Protocol
      else if negb (req_protocol_version request =? WIRE_PROTOCOL_VERSION)
      then write_terminal_error (req_request_id request) (t + HEALTH_TOTAL_DEADLINE)
             (refusal "unsupported_protocol" "wire_protocol_version_must_be_13")
      else serve_request config t (req_request_id request) fuel fresh (req_body request))
      (fun _ => answered_with fresh (req_request_id request) (req_body request))).
  { destruct (is_nil _); [apply writes_refuse |]. destruct (negb _); [apply writes_error | apply serve_writes]. }
  apply Hw in Hr as (frames & Hf & Hs & Ha). exists frames. split_and!; [done | by rewrite Hf, Hout | done | done].
Qed.
End Answered.
