(* ===== verification/IpcEndToEnd.v ===== *)
(** The daemon and its client together: what the daemon has written on a
    connection, read by the client that made the request. *)
From S2P Require Import Prelude Text Encoding RemoteCore Terminal TransferModel TransferPublic Domain NotesDomain Frame FrameFacts IpcMessage IpcPlan IpcPlanFacts IpcClient IpcClientFacts IpcRoundTrip IpcStreams IpcServer IpcServerFacts.

Section EndToEnd.
Context {W : Type} `{Json RequestEnvelope} `{Json ResponseEnvelope} `{!EnvelopeJsonLaws} `{Base64} `{!Base64Laws}
  `{UuidFormat} `{Sha256} {J : Type} `{TaskCodec J}.

(** The client's function for a stream that is for its request alone. *)
Definition request_stream (request : RequestEnvelope) : client streamed :=
  match req_body request with
  | Req_TelemetrySnapshot => s <- request_telemetry_snapshot request ;; ret (Stream_telemetry s)
  | Req_NetworkSnapshot => s <- request_network_snapshot request ;; ret (Stream_network s)
  | Req_UsageSummary _ => s <- request_usage_summary request ;; ret (Stream_usage s)
  | Req_Transfer (List _) =>
      o <- request_transfer request ;;
      match o with Output_Page p => ret (Stream_transfers p) | _ => fail (Client_Protocol UnexpectedBody) end
  | _ => fail (Client_Protocol Proto_RequestBody)
  end.

Definition is_stream (b : RequestBody) : bool :=
  match b with Req_TelemetrySnapshot | Req_NetworkSnapshot | Req_UsageSummary _ | Req_Transfer (List _) => true | _ => false end.

(** What the client checks of its request before it sends it. *)
Definition request_ok (b : RequestBody) : Prop :=
  match b with
  | Req_UsageSummary q => UsageSummaryQuery_validate q = Ok tt
  | Req_Transfer command => TransferCommand_validate command = Ok tt
  | _ => True
  end.

Lemma received_stream request x c c' : is_stream (req_body request) = true -> asks_for (req_body request) x ->
  receives x request c c' -> request_stream request c = (c', Ok x).
Proof.
  unfold request_stream, bind. destruct x as [s | s | s | p | p | d | e]; cbn [asks_for receives]; intros Hi Ha Hr;
    try (rewrite Ha in *; by rewrite Hr); try (by rewrite Ha in Hi).
  by destruct Ha as (q & Ha & _); rewrite Ha in Hi.
Qed.

Lemma fits_asks b x : is_stream b = true -> stream_fits b x -> asks_for b x.
Proof.
  destruct b as [h | | | q | | | command | command | command | command | command | command
    | bind | r | kind | command]; destruct x; cbn [stream_fits asks_for is_stream]; try done.
  - by intros _ ->.
  - destruct command; try done. intros _ Hv. unfold TransferOutput_validate_for in Hv.
    apply result_bind_ok in Hv as ([] & _ & Hv). destruct (_ && _) eqn:Heq in Hv; [| discriminate].
    apply andb_true_iff in Heq as [Heq _]. apply eqb_eq in Heq. by rewrite Heq.
Qed.

(** One error, in time, is the client's error. *)
Lemma error_is_received request e p c c1 T :
  is_stream (req_body request) = true -> request_ok (req_body request) ->
  to_vec (terminal_error (req_request_id request) 0 None e) = Ok p -> sendable p ->
  sent request SNAPSHOT_TOTAL_DEADLINE c c1 -> delivered T (client_now c + SNAPSHOT_TOTAL_DEADLINE) [p] c1 ->
  exists c', request_stream request c = (c', Err (Failed (Client_Daemon e))).
Proof.
  intros Hi Hok Hp Hsend Hs Hd.
  assert (Hread : from_slice p = Ok (terminal_error (req_request_id request) 0 None e)) by (by apply envelope_round_trip).
  assert (Hlim : within_limits MAX_RESPONSE_FRAMES MAX_RESPONSE_WIRE_BYTES [p]).
  { unfold within_limits, sendable in *. split_and!; [by constructor | done |]. simpl. unfold MAX_RESPONSE_WIRE_BYTES, MAX_FRAME_PAYLOAD_BYTES in *. lia. }
  destruct (open_exchange_done request SNAPSHOT_TOTAL_DEADLINE response_budget c c1 T p [] _ _ _ Hs Hd eq_refl
              ltac:(done) ltac:(done) Hlim Hread (response_envelope_ok _ _ _ _)) as (c2 & Ho & Ha).
  destruct (awaiting_eof _ _ _ Ha) as [c3 He]. exists c3.
  assert (Hrefused : forall A, refused (A := A) (terminal_error (req_request_id request) 0 None e) e
            (client_now c + SNAPSHOT_TOTAL_DEADLINE) c2 = (c3, Err (Failed (Client_Daemon e)))).
  { intros A. unfold refused. simpl. unfold bind. by rewrite He. }
  unfold request_stream. destruct (req_body request) as [h | | | q | | | command | command | command | command | command | command
    | bind | r | kind | command] eqn:Hbody; try discriminate.
  - unfold request_telemetry_snapshot, bind at 1. rewrite Hbody, (bind_run _ _ _ _ _ Ho). cbv beta iota.
    rewrite (protocol_run _ _ _ tt) by done. cbn [resp_body terminal_error response]. by rewrite Hrefused.
  - unfold request_network_snapshot, bind at 1. rewrite Hbody, (bind_run _ _ _ _ _ Ho). cbv beta iota.
    rewrite (protocol_run _ _ _ tt) by done. cbn [resp_body terminal_error response]. by rewrite Hrefused.
  - unfold request_usage_summary, bind at 1. cbn [request_ok] in Hok.
    rewrite Hbody, (protocol_run _ _ _ tt) by (by rewrite Hok). rewrite (bind_run _ _ _ _ _ Ho). cbv beta iota.
    rewrite (protocol_run _ _ _ tt) by done. cbn [resp_body terminal_error response]. by rewrite Hrefused.
  - destruct command; try discriminate. unfold request_transfer, bind at 1. cbn [request_ok] in Hok.
    rewrite Hbody, (protocol_run _ _ _ tt) by (by rewrite Hok). cbv zeta. rewrite (bind_run _ _ _ _ _ Ho). cbv beta iota.
    rewrite (protocol_run _ _ _ tt) by done. cbn [resp_body terminal_error response]. by rewrite Hrefused.
Qed.

End EndToEnd.

(** ** A page of transfers, from the daemon to the client *)

#[local] Existing Instance identity_codec.
#[local] Existing Instance standard_base64.
#[local] Existing Instance standard_base64_laws.
#[local] Existing Instance checksum.
#[local] Existing Instance small_uuids.

Definition all_tasks : TransferQuery := {| q_limit := 10; q_offset := 0; q_states := []; q_direction := None; q_profile_id := None |}.
Definition no_tasks : TransferPage :=
  {| TransferPublic.page_query := all_tasks; page_tasks := []; has_more := false; next_offset := None |}.
Definition list_request : RequestEnvelope :=
  {| req_protocol_version := WIRE_PROTOCOL_VERSION; req_request_id := 1; req_body := Req_Transfer (List all_tasks) |}.
Definition page_frame : TransferPageEnd :=
  {| tp_schema_version := TRANSFER_PUBLIC_SCHEMA_VERSION; tp_query := all_tasks; tp_total_tasks := 0;
     tp_data_frame_count := 0; tp_has_more := false; tp_next_offset := None |}.

Definition is_page_frame (e : TransferPageEnd) : bool :=
  (tp_schema_version e =? TRANSFER_PUBLIC_SCHEMA_VERSION) && eqb (tp_query e) all_tasks && (tp_total_tasks e =? 0)
  && (tp_data_frame_count e =? 0) && negb (tp_has_more e) && eqb (tp_next_offset e) None.

#[local] Instance list_requests : Json RequestEnvelope :=
  { to_vec := fun _ => Ok [123; 125];
    from_slice := fun p => if eqb p [123; 125] then Ok list_request else Err "unexpected request"%string }.
#[local] Instance page_json : Json ResponseEnvelope := {
  to_vec := fun r =>
    let n := match resp_body r with
             | Resp_TransferPageStart e => if is_page_frame e then Some 0 else None
             | Resp_TransferPageEnd e => if is_page_frame e then Some 1 else None
             | _ => None
             end in
    match n with
    | Some n =>
        if (resp_protocol_version r =? WIRE_PROTOCOL_VERSION) && (resp_request_id r =? 1)
           && (resp_sequence r =? n) && eqb (resp_snapshot_id r) (Some 5)
        then Ok [91; 48 + n; 93] else Err "another envelope"%string
    | None => Err "another body"%string
    end;
  from_slice := fun p =>
    if eqb p [91; 48; 93] then Ok (response 1 0 (Some 5) (Resp_TransferPageStart page_frame))
    else if eqb p [91; 49; 93] then Ok (response 1 1 (Some 5) (Resp_TransferPageEnd page_frame))
    else Err "another envelope"%string;
}.

Lemma is_page_frame_ok e : is_page_frame e = true -> e = page_frame.
Proof. unfold is_page_frame, page_frame. intros He. bool_facts. destruct e. simpl in *. by subst. Qed.

#[local] Instance page_json_laws : EnvelopeJsonLaws.
Proof.
  intros [v rid q sid body] p _. cbn [to_vec page_json resp_body resp_protocol_version resp_request_id resp_sequence resp_snapshot_id].
  destruct body; try discriminate; destruct (is_page_frame _) eqn:He; try discriminate; apply is_page_frame_ok in He as ->;
    destruct (_ && _) eqn:Hb; try discriminate; intros [= <-]; bool_facts; by subst.
Qed.

(** A daemon with nothing but transfers, in a world of one state. *)
Definition transfers_only : @ServerConfig unit :=
  {| config_version := "1";
     capability_provider := fun _ => CapabilityRuntime_new (run_healthy "ok") (run_healthy "ok") (run_healthy "ok")
                                       (run_healthy "ok") (run_healthy "ok");
     snapshot_provider := None; network_snapshot_provider := None; usage_summary_provider := None;
     remote_capabilities_provider := None; system_info_provider := None; remote_profile_provider := None;
     secret_command_provider := None; remote_session_provider := None; notes_provider := None;
     terminal_provider := None;
     transfer_provider := Some (fun _ now w => {| call_ends := now + 5; call_gives := Ok (Output_Page no_tasks);
                                                  call_leaves := w; call_dropped := fun _ => w |});
     transfer_local_handle_provider := None; speedtest_provider := None; speedtest_cancel_provider := None;
     speedtest_deep_provider := None |}.

Definition connected : @Connection unit :=
  {| conn_now := 10; conn_credentials := Some 1000; conn_uid := 1000;
     conn_in := {| arrivals := [(12, Ok (frame_of [123; 125]))]; stream_closed := None |};
     conn_budget := response_budget; conn_out := []; conn_steps := [];
     permits := {| free_snapshots := 4; free_exports := 1; free_speedtests := 2 |}; world := tt |}.
Definition served : @Connection unit * result unit server_failure :=
  handle_connection_inner transfers_only 0 5 10 connected.

Example served_at_17 : served.2 = Ok tt /\ conn_now served.1 = 17 /\ permits served.1 = permits connected.
Proof. vm_compute. done. Qed.

Definition list_client : Client :=
  {| client_now := 0; connected_at := 1; connect_error := None; peer_credentials := Some 1000; effective_uid := 1000;
     inbound := {| arrivals := [(20, Ok (conn_out served.1))]; stream_closed := Some 21 |};
     budget := response_budget; outbound := []; outbound_steps := [] |}.


Lemma connection_answers_its_request_witness : exists c1 request frames, read_request 10 connected = (c1, Ok request) /\
  conn_out served.1 = concat (map frame_of frames) /\ Forall sendable frames /\
  answered_with 5 (req_request_id request) (req_body request) frames.
Proof.
  refine (connection_answers_its_request transfers_only 0 5 10 connected served.1 _). vm_compute. reflexivity.
Defined.

Lemma permits_are_released_witness : permits served.1 = permits connected.
Proof. refine (permits_are_released transfers_only 0 5 10 connected served.1 served.2 _). apply surjective_pairing. Defined.

Lemma serving_ends_in_time_witness :
  conn_now (serve_request transfers_only 10 1 0 5 (Req_Transfer (List all_tasks)) connected).1 <= 5010.
Proof.
  refine (proj2 (proj1 (serving_ends_in_time transfers_only 10 1 0 5 (Req_Transfer (List all_tasks)) connected
            (serve_request transfers_only 10 1 0 5 (Req_Transfer (List all_tasks)) connected).1
            (serve_request transfers_only 10 1 0 5 (Req_Transfer (List all_tasks)) connected).2 _ _))).
  - reflexivity.
  - apply surjective_pairing.
Defined.
